(* ===== verification/_CoqProject ===== *)
-Q . S2P
Prelude.v
Effects.v
GoStd.v
Tags.v
Dataplane.v
Policy.v
MeshResources.v
Validators.v
AccessLog.v
MeshValidator.v
Insights.v
Resources.v
Store.v
MemoryStore.v
Manager.v
CoreXds.v
SnapshotCache.v
StatusTracker.v
Callbacks.v
XdsServer.v
Topology.v
ControlPlane.v
XdsComponents.v
DataplaneSync.v
Json.v
NetUrl.v
Secrets.v
MeshManager.v
Sds.v
Mads.v
MadsServer.v
GoTime.v
AccessLogEntry.v
AccessLogs.v
EnvoyTags.v
Envoy.v
EnvoyCodec.v
EnvoyListeners.v
Generators.v
Rest.v
ApiServer.v
RemoteStore.v
HttpApi.v
Kubernetes.v
PodConverter.v
InjectorConfig.v
PostgresStore.v
KubernetesStore.v
KubernetesSecrets.v
Injector.v
Webhooks.v
PodReconciler.v
KubeControllers.v
PrometheusSd.v
KumactlConfig.v
