(* ===== verification/Prelude.v ===== *)
(** * The Kuma control plane

    Kuma is a service-mesh control plane written in Go.  Users declare
    resources (meshes, dataplanes, traffic permissions, routes, logs, health
    checks, ...) through a REST API; the control plane validates them, keeps
    them in a resource store, and for each connected dataplane selects the
    policies that apply to it and the endpoints it can reach, generates the Envoy
    configuration from them and serves it over xDS, with certificates over SDS
    and monitoring assignments over MADS.  This library models that core and
    proves it correct.

    ** Parts of the program and where they are modelled

    Shared foundations:
    - this file: outcomes of Go calls and their notation, sorting, choosing a
      best element with a fold, generic lemmas.  [Effects.v]: steps that may
      return early, fail or panic over a state.
    - [GoStd.v], [Json.v], [GoTime.v], [NetUrl.v]: what the code uses of
      [strings], [strconv], [net], [encoding/json], [time] and [net/url].

    Resources and policies:
    - [Tags.v], [Dataplane.v]: [api/mesh/v1alpha1/dataplane_helpers.go], tags,
      selectors and their ranks, and the networking section of a dataplane with
      the text format of its interfaces.
    - [Policy.v]: [pkg/core/policy], the three selection functions that every
      policy goes through.
    - [MeshResources.v], [Validators.v], [MeshValidator.v]: the messages, the
      policy interfaces they implement, and all validators of
      [pkg/core/resources/apis/mesh] with [pkg/core/validators].
    - [Insights.v]: [api/mesh/v1alpha1/dataplane_insight_helpers.go].
    - [Resources.v]: the resource and list types behind the interfaces of
      [pkg/core/resources/model], the type registry and the overviews.
    - [Store.v], [MemoryStore.v]: [pkg/core/resources/store] (options, errors, the
      [ResourceStore] interface as a class) and its in-memory instance.
    - [Manager.v], [MeshManager.v]: [pkg/core/resources/manager] (the plain, the
      customizable and the caching manager), the manager of meshes, and the
      assembly of managers in [pkg/core/bootstrap].
    - [Secrets.v]: [pkg/core/secrets], [pkg/core/datasource], [pkg/core/ca] and the
      certificate authorities of [pkg/plugins/ca].
    - [Topology.v], [ControlPlane.v]: [pkg/xds/topology], the matchers of
      [pkg/core/logs], [pkg/core/permissions], [pkg/core/faultinjections], and
      their composition with the managers and the store.

    The REST API:
    - [Rest.v]: [pkg/core/resources/model/rest], the definitions of
      [pkg/api-server/definitions] and the error document.
    - [ApiServer.v]: the endpoints, pagination, error translation and routes of
      [pkg/api-server].  [RemoteStore.v]: [pkg/plugins/resources/remote].
      [HttpApi.v]: the two connected.

    Configuration of Envoy:
    - [CoreXds.v]: [pkg/core/xds].  [EnvoyTags.v], [Envoy.v], [EnvoyListeners.v]:
      [pkg/xds/envoy], the builders of every Envoy message.  [Generators.v]:
      [pkg/xds/generator].  [EnvoyCodec.v]: an instance of the Protobuf laws.
    - [DataplaneSync.v]: what a tick of the watchdog of a dataplane does
      ([pkg/xds/server/components.go], template resolver, snapshot generator).
    - [SnapshotCache.v]: the snapshot cache and versioner of [pkg/util/xds] and the
      reconcilers.  [Callbacks.v], [StatusTracker.v]: the callback chain, the
      watchdogs and the trackers.  [XdsServer.v], [XdsComponents.v]: the
      streaming server of [pkg/xds/server] and its callbacks.
    - [Sds.v]: [pkg/sds] and [pkg/tokens/builtin/issuer].  [Mads.v],
      [MadsServer.v]: [pkg/mads].

    Access logs:
    - [AccessLog.v], [AccessLogEntry.v], [AccessLogs.v]: the formats of
      [pkg/envoy/accesslog], the formatting of entries, and the log server of
      [app/kuma-dp/pkg/dataplane/accesslogs] with the Envoy configuration that
      sends it entries.

    Back ends and Kubernetes:
    - [PostgresStore.v]: [pkg/plugins/resources/postgres], statement by statement
      over a database that may fail.
    - [Kubernetes.v]: the objects, annotations and labels of
      [pkg/plugins/runtime/k8s/metadata] and of the libraries of Kubernetes.
      [KubernetesStore.v], [KubernetesSecrets.v]: [pkg/plugins/resources/k8s] and
      [pkg/plugins/secrets/k8s] over a client of the API server.
    - [PodConverter.v], [PodReconciler.v]: [pkg/plugins/discovery/k8s], the
      dataplane of a pod and the controller that keeps it.  [KubeControllers.v]:
      the controllers of meshes and namespaces.
    - [InjectorConfig.v], [Injector.v]: [app/kuma-injector], what is added to a
      pod.  [Webhooks.v]: the admission web hooks of [pkg/plugins/runtime/k8s].

    Command line tools:
    - [PrometheusSd.v]: [app/kuma-prometheus-sd] with its client [pkg/mads/client],
      from a stream of monitoring assignments to the targets of Prometheus.
    - [KumactlConfig.v]: the configuration file of [kumactl] and the commands of
      [app/kumactl/cmd/config] that change it.

    The components call each other as in the code: the matchers read through
    a [ReadOnlyResourceManager] (a record of operations, as the Go interface),
    the managers work over any [ResourceStore] (a class), the selection
    functions over any [ConnectionPolicy] or [DataplanePolicy] (classes), the
    generators behind [ResourceGenerator], the servers over callbacks given as a
    record.

    ** How Go is represented

    A call returns [res]: a value, an [error] (a format with its operands, a
    wrapped error, or a struct with its fields that callers inspect) or a panic
    (nil dereference, index out of range, failed type assertion).  A function
    that mutates its argument returns it; a method that changes a store returns
    the new store.  Maps are [gmap]s, a nil map or slice being an empty one; a
    loop over a map is a loop over its entries, and what depends on the order is
    proved not to.  A nilable pointer is an [option]; a pointer that is never nil
    in the code is the value.  [uint32] and [uint64] fields are [Z] with the
    wrap-around written where arithmetic happens ([wrap64], [wrap32],
    [wrap_int]); a [float64] is a dyadic rational, NaN or an infinity, with
    products rounded; times are [Z] nanoseconds, printed in UTC.  The time of a
    call is an argument.  [strings.ToLower] is that of ASCII, and the status codes are
    those Go 1.12, with which the repository is built, has a text for.  Logging is
    left out, and so are contexts, which nothing here reads.

    Concurrency is interleaving.  Each method of the memory store, of the
    snapshot cache and of the trackers holds its mutex for its whole body, so
    concurrent callers produce a sequence of atomic steps ([memory_step],
    [manager_step], [cache_step], [tracker_step]); an iteration of the loop of a
    stream is a step of its server; the invariants are proved for every state
    the steps reach.  A channel is a number, what is sent on it is recorded, and
    a state that a goroutine shares with its tracker lives in a heap that both
    point into.  A channel that the xDS server itself makes and closes has a
    buffer and a closed flag, and closing it twice panics.

    ** What the theorems show

    - Selectors and selection: matching and ranking mean what they should in any
      iteration order ([Tags]); selection returns the most specific applicable
      policy, later creation first and then the smaller name breaking ties, and
      its one panic is characterised ([Policy]).
    - Validation: what passes validation is safe to use: no panic in selection,
      interfaces that resolve, backends that exist, formats that parse
      ([Validators], [MeshValidator]).
    - Text: interfaces, access log formats, proxy ids, JSON documents, times,
      URLs and queries print and parse back.
    - Stores and managers: the memory store refines a finite map, detects
      conflicting updates and pages correctly; the managers validate and check
      meshes; deleting a mesh removes exactly what belongs to it; the cache is
      type safe; secrets are stored encrypted ([MemoryStore], [Manager],
      [MeshManager], [Secrets]).
    - Certificates and tokens: authorities are created once, certificates carry
      the right identities, and a proxy gets the certificate of its own mesh and
      service only with its own token ([Secrets], [Sds]).
    - The API: the remote store over the server implements the manager behind
      it, page by page and error by error; a read-only server changes nothing
      ([HttpApi]).
    - Topology and matching: routes, endpoints, health checks, logs, permissions
      and faults of a dataplane are exactly those its resources call for
      ([Topology], [ControlPlane], [DataplaneSync]).
    - Envoy configuration: it is generated for every proxy of validated resources
      (but for limits and logging backends that the validators let through and no
      configuration exists for), every reference in it resolves, endpoints are
      those of the topology, and mutual TLS lets in exactly the permitted
      identities ([Generators]); conversions of numbers have stated bounds
      ([EnvoyListeners]).
    - Servers: in every reachable state no channel gets two responses, no open
      watch is stale, streams open and close once, trackers neither panic nor
      leak ([SnapshotCache], [XdsServer], [XdsComponents], [StatusTracker],
      [Sds], [MadsServer]).
    - Access logs: what Envoy is configured to report is what the format needs,
      and each entry reaches the backend of its mesh as one line, in order
      ([AccessLogEntry], [AccessLogs]).
    - Back ends: the PostgreSQL store refines a map and pages completely; what
      the Kubernetes store writes is read back, and its secret store mixes meshes
      ([PostgresStore], [KubernetesStore], [KubernetesSecrets]).
    - Kubernetes: a pod becomes a valid dataplane that is discovered under its
      services, an injected pod is such a pod, the controller of pods converges,
      the web hooks admit exactly valid resources, and the controllers of meshes
      clean up after a mesh ([PodConverter], [Injector], [PodReconciler],
      [Webhooks], [KubeControllers]).
    - Tools: Prometheus scrapes exactly what was delivered last, over streams that
      break anywhere ([PrometheusSd]); every configuration the commands of [kumactl]
      write is consistent ([KumactlConfig]).
    - Defects: theorems state exactly when an empty destination selector, a
      missing networking section, a negative page offset, a half-created
      authority or a filtered second page goes wrong.

    ** Fuel and depth

    Loops that are not structural get fuel: [destinations_loop] one more than the
    number of services of its iterator; [Parse_loop] one more than the length of
    the format; [List_loop] one more than the number of records; the JSON parser
    two calls per token; the query parser one round per part.  Each is proved to
    end within its fuel as part of the property of its function, so no theorem
    holds because the fuel ran out.  The customizable manager and the mesh
    manager call each other; the cycle is unfolded to a depth that the theorems
    of [MeshManager] show to be enough.

    ** Parameters

    Code outside the repository appears as a parameter with the behaviour the
    code relies on: [jsonpb] (classes [Jsonpb], [LawfulJsonpb],
    [LawfulJsonpbText]), [go-cache] ([GoCache]), [ptypes] conversions, YAML, Protobuf
    [Any] and names ([AnyCodec], [XdsLibrary], [ProtoMerge]), X.509 and RSA
    ([X509]), ciphers ([Cipher]), JSON Web Tokens ([JWT]), [go-restful] ([Restful],
    [Router]), HTTP clients, token reviews and networks as functions of a state,
    the snapshot cache of [go-control-plane], label sanitizing, combined errors,
    fresh UUIDs (a sequence); the database ([Database]); the client, cache and
    errors of Kubernetes ([KubeClient], [KubeSecretClient], [PodClient],
    [ControllerClient], [KubeErrors]), its label selectors, quantities and
    decoder of requests ([KubeLabels], [KubeQuantity], [AdmissionDecoder]), and the
    JSON of specifications ([JsonMap], [PodCodec]).  The laws state documented behaviour; witnesses
    instantiate all of them.

    ** Not modelled

    The token and admin web services; the index, catalog and configuration pages
    and the listener of the API server; the other commands of the command line
    tools, configuration structs and the bootstrap configuration of Envoy; generated code.  Of the
    caching manager the aliasing of cached resources with the caller's; of the
    Kubernetes runtime its start and the queue of a controller, which appears as
    an arbitrary order of requests. *)

From Stdlib Require Export ZArith Lia Ascii.
From stdpp Require Export base strings gmap fin_maps sorting option numbers.
From stdpp Require Export list_basics list_relations list_monad list_misc list_tactics list_numbers list.

(** ** Errors and outcomes

    A Go call has three outcomes that matter here: it returns a value, it
    returns an [error], or it panics (nil dereference, index out of range).
    An error keeps the format string of the [fmt.Errorf]/[errors.Errorf] call
    and its arguments, so that two errors are equal exactly when the code
    builds them from the same format and operands.  An error that is a struct
    keeps its dynamic type, its fields and its text, so that a type assertion
    can recover it. *)

Inductive goarg : Type :=
| AStr (s : string)
| AInt (z : Z).

Inductive goerror : Type :=
| Errorf (format : string) (args : list goarg)
| Wrapf (cause : goerror) (format : string) (args : list goarg)
| ErrorStruct (type : string) (fields : list (string * string)) (text : string).

#[global] Instance goarg_eq_dec : EqDecision goarg.
Proof. solve_decision. Defined.
#[global] Instance goerror_eq_dec : EqDecision goerror.
Proof. solve_decision. Defined.

Inductive res (A : Type) : Type :=
| Ok (a : A)
| Err (e : goerror)
| Panic.
Arguments Ok {A} _.
Arguments Err {A} _.
Arguments Panic {A}.

#[global] Instance res_eq_dec `{EqDecision A} : EqDecision (res A).
Proof. solve_decision. Defined.

Definition rbind {A B} (m : res A) (k : A → res B) : res B :=
  match m with
  | Ok a => k a
  | Err e => Err e
  | Panic => Panic
  end.

Definition rmap {A B} (f : A → B) (m : res A) : res B :=
  rbind m (λ a, Ok (f a)).

(** [if err != nil { return wrap(err) }] *)
Definition map_err {A} (f : goerror → goerror) (m : res A) : res A :=
  match m with
  | Ok a => Ok a
  | Err e => Err (f e)
  | Panic => Panic
  end.

(** [is_ok] is the test [err == nil] on a call that did not panic. *)
Definition is_ok {A} (m : res A) : bool :=
  match m with Ok _ => true | _ => false end.

Declare Scope go_scope.
Delimit Scope go_scope with go.
Notation "'let?' x := m 'in' k" := (rbind m (λ x, k))
  (at level 10, x pattern, m at level 100, k at level 200)
  : go_scope.
#[global] Open Scope go_scope.

Lemma rbind_Ok {A B} (m : res A) (k : A → res B) b :
  rbind m k = Ok b ↔ ∃ a, m = Ok a ∧ k a = Ok b.
Proof. destruct m; simpl; split; (intros [? [? ?]] || intros ?); simplify_eq; eauto. Qed.

(** The monadic map of a [for] loop that returns the first error. *)
Fixpoint rmapM {A B} (f : A → res B) (l : list A) : res (list B) :=
  match l with
  | [] => Ok []
  | x :: l' =>
      let? y := f x in
      let? ys := rmapM f l' in
      Ok (y :: ys)
  end.

Lemma rmapM_Ok {A B} (f : A → res B) l ys :
  rmapM f l = Ok ys ↔ Forall2 (λ x y, f x = Ok y) l ys.
Proof.
  revert ys; induction l as [|x l IH]; intros ys; simpl.
  - split; [intros [= <-]; constructor | inversion 1; done].
  - rewrite rbind_Ok. setoid_rewrite rbind_Ok. split.
    + intros (y & Hy & ys' & Hys & [= <-]). constructor; [done|]. by apply IH.
    + inversion 1; subst. eexists; split; [done|]. eexists; split; [by apply IH|done].
Qed.

Lemma rmapM_length {A B} (f : A → res B) l ys :
  rmapM f l = Ok ys → length ys = length l.
Proof. rewrite rmapM_Ok. intros H. symmetry. by eapply Forall2_length. Qed.

Lemma rmapM_ext {A B} (f g : A → res B) l : (∀ x, x ∈ l → f x = g x) → rmapM f l = rmapM g l.
Proof.
  induction l as [|x l IH]; intros Hfg; simpl; [done|]. rewrite Hfg by constructor.
  destruct (g x); simpl; [|done..]. by rewrite IH by (intros y Hy; apply Hfg; by constructor).
Qed.

Lemma rmapM_total {A B} (f : A → res B) l :
  (∀ x, x ∈ l → ∃ y, f x = Ok y) → ∃ ys, rmapM f l = Ok ys.
Proof.
  induction l as [|x l IH]; intros Hf; simpl; [eauto|].
  destruct (Hf x) as [y ->]; [set_solver|]. destruct IH as [ys ->]; [set_solver|]. simpl. eauto.
Qed.

(** A loop whose body may return an error or panic. *)
Fixpoint rfoldl {A B} (f : A → B → res A) (a : A) (l : list B) : res A :=
  match l with
  | [] => Ok a
  | x :: l' => let? a' := f a x in rfoldl f a' l'
  end.

(** A loop whose state [a] encodes a reference state [s] simulates the
    reference fold over the candidates each element contributes. *)
Lemma rfoldl_sim_inv {A B S C} (I : S → Prop) (f : A → B → res A) (enc : S → A)
    (step : S → C → S) (cand : B → list C) l :
  (∀ s x, x ∈ l → I s →
     f (enc s) x = Ok (enc (foldl step s (cand x))) ∧ I (foldl step s (cand x))) →
  ∀ s, I s → rfoldl f (enc s) l = Ok (enc (foldl step s (l ≫= cand)))
             ∧ I (foldl step s (l ≫= cand)).
Proof.
  induction l as [|x l IH]; intros Hf s Hs; simpl; [done|].
  destruct (Hf s x) as [-> HI]; [set_solver|done|]. simpl. rewrite foldl_app.
  apply IH; [set_solver|done].
Qed.

Lemma rfoldl_sim {A B S C} (f : A → B → res A) (enc : S → A) (step : S → C → S)
    (cand : B → list C) l :
  (∀ s x, x ∈ l → f (enc s) x = Ok (enc (foldl step s (cand x)))) →
  ∀ s, rfoldl f (enc s) l = Ok (enc (foldl step s (l ≫= cand))).
Proof. intros Hf s. apply (rfoldl_sim_inv (λ _, True)); auto. Qed.

(** An invariant of such a loop. *)
Lemma rfoldl_inv {A B} (I : A → Prop) (f : A → B → res A) l a a' :
  (∀ a x b, x ∈ l → I a → f a x = Ok b → I b) → I a → rfoldl f a l = Ok a' → I a'.
Proof.
  revert a; induction l as [|x l IH]; intros a Hf Ha; simpl; [by intros [= <-]|].
  rewrite rbind_Ok. intros (b & Hb & Hl). eapply IH; [|by eapply Hf; [constructor| |]|done].
  intros c y d Hy. apply Hf. by constructor.
Qed.

Lemma foldl_sim {A B S C} (f : A → B → A) (enc : S → A) (step : S → C → S)
    (cand : B → list C) l :
  (∀ s x, x ∈ l → f (enc s) x = enc (foldl step s (cand x))) →
  ∀ s, foldl f (enc s) l = enc (foldl step s (l ≫= cand)).
Proof.
  induction l as [|x l IH]; intros Hf s; simpl; [done|].
  rewrite Hf by set_solver. rewrite IH by set_solver. by rewrite foldl_app.
Qed.

(** ** Automation *)

(** Concatenation computes on a literal head. *)
#[global] Arguments String.append !_ _ / : simpl nomatch.

Create HintDb kuma discriminated.
#[export] Hint Constructors Forall Forall2 : kuma.

(** Case analysis on the scrutinee of the first [match]/[if] of the goal. *)
Ltac split_match :=
  match goal with
  | |- context [match ?x with _ => _ end] =>
      lazymatch x with
      | context [match _ with _ => _ end] => fail
      | _ => let E := fresh "E" in destruct x eqn:E
      end
  end.

Ltac split_match_in H :=
  match type of H with
  | context [match ?x with _ => _ end] =>
      lazymatch x with
      | context [match _ with _ => _ end] => fail
      | _ => let E := fresh "E" in destruct x eqn:E
      end
  end.

(** Two concrete maps differ at key [k]. *)
Ltac map_ne k :=
  let H := fresh in
  intros H; apply (f_equal (lookup k)) in H; vm_compute in H; discriminate H.

(** Turns boolean tests of the code into propositions. *)
Ltac bool_prop :=
  repeat match goal with
  | H : andb _ _ = true |- _ => apply andb_true_iff in H as [? ?]
  | H : orb _ _ = false |- _ => apply orb_false_iff in H as [? ?]
  | H : negb _ = true |- _ => apply negb_true_iff in H
  | H : negb _ = false |- _ => apply negb_false_iff in H
  | H : String.eqb _ _ = true |- _ => apply String.eqb_eq in H
  | H : String.eqb _ _ = false |- _ => apply String.eqb_neq in H
  | H : bool_decide _ = true |- _ => apply bool_decide_eq_true_1 in H
  | H : bool_decide _ = false |- _ => apply bool_decide_eq_false_1 in H
  | H : Z.eqb _ _ = true |- _ => apply Z.eqb_eq in H
  | H : Z.eqb _ _ = false |- _ => apply Z.eqb_neq in H
  | H : Z.ltb _ _ = true |- _ => apply Z.ltb_lt in H
  | H : Z.ltb _ _ = false |- _ => apply Z.ltb_ge in H
  | H : Z.leb _ _ = true |- _ => apply Z.leb_le in H
  | H : Z.leb _ _ = false |- _ => apply Z.leb_gt in H
  | H : Nat.eqb _ _ = true |- _ => apply Nat.eqb_eq in H
  | H : Nat.eqb _ _ = false |- _ => apply Nat.eqb_neq in H
  | H : Nat.ltb _ _ = true |- _ => apply Nat.ltb_lt in H
  | H : Nat.ltb _ _ = false |- _ => apply Nat.ltb_ge in H
  | H : Nat.leb _ _ = true |- _ => apply Nat.leb_le in H
  | H : Nat.leb _ _ = false |- _ => apply Nat.leb_gt in H
  end.

(** ** Sorting

    [sort.Stable(data)] with a [Less] method: the contract of the library (a
    sorted permutation that keeps the order of equal elements) determines the
    result, and [stable_sort] computes it. *)

Section StableSort.
Context {A : Type} (less : A → A → bool).

Fixpoint insert_stable (x : A) (l : list A) : list A :=
  match l with
  | [] => [x]
  | y :: l' => if less y x then y :: insert_stable x l' else x :: y :: l'
  end.

Fixpoint stable_sort (l : list A) : list A :=
  match l with
  | [] => []
  | x :: l' => insert_stable x (stable_sort l')
  end.

Lemma insert_stable_perm x l : insert_stable x l ≡ₚ x :: l.
Proof.
  induction l as [|y l IH]; simpl; [done|].
  destruct (less y x); [|done]. rewrite IH. apply Permutation_swap.
Qed.

Lemma stable_sort_perm l : stable_sort l ≡ₚ l.
Proof.
  induction l as [|x l IH]; simpl; [done|].
  by rewrite insert_stable_perm, IH.
Qed.

Lemma elem_of_stable_sort x l : x ∈ stable_sort l ↔ x ∈ l.
Proof. by rewrite stable_sort_perm. Qed.

(** [Less] must be a strict weak order, as the library requires. *)
Context (less_asym : ∀ x y, less x y = true → less y x = false).
Context (nless_trans : ∀ x y z, less y x = false → less z y = false → less z x = false).

Definition not_after (x y : A) : Prop := less y x = false.
Definition same_class (x y : A) : bool := negb (less x y) && negb (less y x).

Lemma insert_stable_sorted x l :
  StronglySorted not_after l → StronglySorted not_after (insert_stable x l).
Proof.
  induction 1 as [|y l Hl IH Hy]; simpl.
  - repeat constructor.
  - destruct (less y x) eqn:E.
    + constructor; [done|]. rewrite insert_stable_perm. constructor; [|done].
      by apply less_asym.
    + constructor; [by constructor|]. constructor; [done|].
      eapply Forall_impl; [exact Hy|]. intros z Hz. by eapply nless_trans.
Qed.

Lemma stable_sort_sorted l : StronglySorted not_after (stable_sort l).
Proof. induction l; simpl; [constructor|]. by apply insert_stable_sorted. Qed.

Lemma insert_stable_class x l z :
  List.filter (same_class z) (insert_stable x l) = List.filter (same_class z) (x :: l).
Proof.
  induction l as [|y l IH]; simpl; [done|].
  destruct (less y x) eqn:E; [|done].
  assert (same_class z x = true → same_class z y = false) as Hxy.
  { unfold same_class. intros H. bool_prop. apply andb_false_iff.
    rewrite !negb_false_iff. right.
    destruct (less y z) eqn:E'; [done|].
    pose proof (nless_trans x z y). naive_solver. }
  simpl. rewrite IH. simpl.
  destruct (same_class z x) eqn:Ex, (same_class z y) eqn:Ey; naive_solver.
Qed.

(** Stability: elements that compare equal keep their order. *)
Lemma stable_sort_stable l z :
  List.filter (same_class z) (stable_sort l) = List.filter (same_class z) l.
Proof.
  induction l as [|x l IH]; simpl; [done|].
  rewrite insert_stable_class. simpl. by rewrite IH.
Qed.
End StableSort.

Lemma StronglySorted_impl {A} (R R' : A → A → Prop) l :
  (∀ x y, R x y → R' x y) → StronglySorted R l → StronglySorted R' l.
Proof.
  intros HR. induction 1 as [|x l _ IH Hx]; constructor; [done|].
  eapply Forall_impl; [exact Hx|]. intros y. apply HR.
Qed.

(** Ordering by a string key, [a[i].GetMeta().GetName() < a[j].GetMeta().GetName()]. *)
Definition less_by {A} (key : A → string) (x y : A) : bool :=
  String.ltb (key x) (key y).

Lemma ltb_negb_leb s t : String.ltb s t = negb (String.leb t s).
Proof.
  unfold String.ltb, String.leb.
  rewrite (String.compare_antisym t s). by destruct (String.compare s t).
Qed.

Lemma less_by_asym {A} (key : A → string) x y :
  less_by key x y = true → less_by key y x = false.
Proof.
  unfold less_by, String.ltb. rewrite (String.compare_antisym (key y)).
  by destruct (String.compare (key x) (key y)).
Qed.

Lemma less_by_ntrans {A} (key : A → string) x y z :
  less_by key y x = false → less_by key z y = false → less_by key z x = false.
Proof.
  unfold less_by. rewrite !ltb_negb_leb, !negb_false_iff.
  intros H1 H2.
  assert (String.le (key x) (key z)) as H.
  { transitivity (key y); unfold String.le; [rewrite H1|rewrite H2]; done. }
  unfold String.le in H. by apply Is_true_true.
Qed.

Definition sort_by {A} (key : A → string) : list A → list A := stable_sort (less_by key).

Lemma sort_by_perm {A} (key : A → string) l : sort_by key l ≡ₚ l.
Proof. apply stable_sort_perm. Qed.

(** [sort.Strings]. *)
Definition sort_strings : list string → list string := sort_by (λ s, s).

Lemma sort_strings_sorted l : StronglySorted String.le (sort_strings l).
Proof.
  pose proof (stable_sort_sorted _ (less_by_asym (λ s : string, s))
    (less_by_ntrans (λ s : string, s)) l) as H.
  eapply StronglySorted_impl; [|exact H].
  intros x y. unfold not_after, less_by, String.le.
  rewrite ltb_negb_leb, negb_false_iff. by intros ->.
Qed.

(** A sorted permutation of strings is unique: the result of [sort.Strings]
    does not depend on the order in which the keys of a map were visited. *)
Lemma sort_strings_perm_eq l1 l2 : l1 ≡ₚ l2 → sort_strings l1 = sort_strings l2.
Proof.
  intros H. apply (StronglySorted_unique String.le); [apply sort_strings_sorted..|].
  unfold sort_strings. by rewrite !sort_by_perm.
Qed.

(** ** Choosing the best of a list

    The selection loops keep the best candidate seen so far and replace it
    when the next one is strictly better. *)

Section PickBest.
Context {A : Type} (better : A → A → bool).

Definition step_best (best : option A) (x : A) : option A :=
  match best with
  | None => Some x
  | Some b => if better x b then Some x else Some b
  end.

Definition pick_best (l : list A) : option A := foldl step_best None l.

Lemma foldl_step_best_Some b l : is_Some (foldl step_best (Some b) l).
Proof.
  revert b; induction l as [|x l IH]; intros b; simpl; [eauto|].
  destruct (better x b); apply IH.
Qed.

Lemma pick_best_None l : pick_best l = None ↔ l = [].
Proof.
  destruct l as [|x l]; [done|]. split; [|done]. unfold pick_best; simpl.
  destruct (foldl_step_best_Some x l) as [y ->]. done.
Qed.

Lemma pick_best_snoc l x : pick_best (l ++ [x]) = step_best (pick_best l) x.
Proof. unfold pick_best. by rewrite foldl_app. Qed.

Context (better_asym : ∀ x y, better x y = true → better y x = false).
Context (nbetter_trans : ∀ x y z,
  better y x = false → better z y = false → better z x = false).

(** The chosen element is the first of the best ones: nothing in the list
    beats it, and it beats everything before it. *)
Lemma pick_best_first l b :
  pick_best l = Some b →
  ∃ l1 l2, l = l1 ++ b :: l2
    ∧ (∀ x, x ∈ l1 → better b x = true)
    ∧ (∀ x, x ∈ l → better x b = false).
Proof.
  assert (∀ x, better x x = false) as Hirr.
  { intros x. destruct (better x x) eqn:E; [|done]. by rewrite (better_asym _ _ E) in E. }
  revert b; induction l as [|x l IH] using rev_ind; intros b; [done|].
  rewrite pick_best_snoc. destruct (pick_best l) as [b'|] eqn:Hb'; simpl.
  - destruct (IH b' eq_refl) as (l1 & l2 & -> & Hl1 & Hall).
    destruct (better x b') eqn:E; intros [= <-].
    + eexists (l1 ++ b' :: l2), []. split; [done|].
      assert (∀ y, y ∈ l1 ++ b' :: l2 → better x y = true) as Hx.
      { intros y Hy. destruct (better x y) eqn:E'; [done|].
        pose proof (nbetter_trans _ _ _ (Hall y Hy) E'). congruence. }
      split; [done|]. intros y. rewrite elem_of_app, list_elem_of_singleton.
      intros [Hy| ->]; [by apply better_asym, Hx | done].
    + exists l1, (l2 ++ [x]). split; [by rewrite <- app_assoc|]. split; [done|].
      intros y. rewrite elem_of_app, list_elem_of_singleton. naive_solver.
  - apply pick_best_None in Hb' as ->. intros [= <-].
    exists [], []. split; [done|]. split; intros y; [by inversion 1|].
    simpl. rewrite list_elem_of_singleton. intros ->. apply Hirr.
Qed.
End PickBest.
