(* ===== verification/Effects.v ===== *)
(** * Stateful calls

    A Go method that changes the objects it has pointers to and may return an
    error is a function from their state to an outcome and the new state: a
    state monad over [res].  It is an instance of stdpp's monad classes, so code
    reads [x ← m; k] as in the source.  A method without results, which can only
    return or panic, is a [proc]. *)

From S2P Require Import Prelude.

Definition ST (S A : Type) : Type := S → res A * S.

#[global] Instance ST_ret S : MRet (ST S) := λ A a s, (Ok a, s).
#[global] Instance ST_bind S : MBind (ST S) := λ A B k m s,
  match m s with
  | (Ok a, s') => k a s'
  | (Err e, s') => (Err e, s')
  | (Panic, s') => (Panic, s')
  end.

(** [return err]. *)
Definition fail {S A} (e : goerror) : ST S A := λ s, (Err e, s).
Definition st_panic {S A} : ST S A := λ s, (Panic, s).
Definition st_get {S A} (f : S → A) : ST S A := λ s, (Ok (f s), s).
Definition st_modify {S} (f : S → S) : ST S unit := λ s, (Ok (), f s).
(** A call that touches no state of this model. *)
Definition st_lift {S A} (r : res A) : ST S A := λ s, (r, s).

(** A call on a part of the state. *)
Definition zoom {S T A} (get : S → T) (set : T → S → S) (m : ST T A) : ST S A := λ s,
  let (r, t) := m (get s) in (r, set t s).

(** [x, err := m()]: the error is a value, a panic is not. *)
Definition try {S A} (m : ST S A) : ST S (goerror + A) := λ s,
  match m s with
  | (Ok a, s') => (Ok (inr a), s')
  | (Err e, s') => (Ok (inl e), s')
  | (Panic, s') => (Panic, s')
  end.

(** A method that returns nothing: [None] when it panics. *)
Definition proc (S : Type) : Type := S → option S.
Definition run_proc {S} (p : proc S) : ST S unit := λ s,
  match p s with Some s' => (Ok (), s') | None => (Panic, s) end.

(** ** Equations *)

Section Laws.
Context {S : Type}.

Lemma ST_bind_Ok {A B} (m : ST S A) (k : A → ST S B) s b s' :
  (m ≫= k) s = (Ok b, s') ↔ ∃ a s1, m s = (Ok a, s1) ∧ k a s1 = (Ok b, s').
Proof.
  unfold mbind, ST_bind. destruct (m s) as [[a|e|] s1]; split;
    [intros; eauto|intros (? & ? & [= <- <-] & ?); done|done|intros (? & ? & ? & ?); done|done|
     intros (? & ? & ? & ?); done].
Qed.

Lemma ST_bind_assoc {A B D} (m : ST S A) (k : A → ST S B) (h : B → ST S D) s :
  ((m ≫= k) ≫= h) s = (m ≫= λ a, k a ≫= h) s.
Proof. unfold mbind, ST_bind. by destruct (m s) as [[a|e|] s1]. Qed.

(** A loop over a list that stops at the first error. *)
Fixpoint st_iter {A} (f : A → ST S unit) (l : list A) : ST S unit :=
  match l with
  | [] => mret ()
  | x :: rest => f x ≫= λ _, st_iter f rest
  end.

Fixpoint st_mapM {A B} (f : A → ST S B) (l : list A) : ST S (list B) :=
  match l with
  | [] => mret []
  | x :: rest => f x ≫= λ y, st_mapM f rest ≫= λ ys, mret (y :: ys)
  end.

(** What holds of every outcome of a call. *)
Definition outcome {A} (m : ST S A) (s : S) (Q : res A → S → Prop) : Prop :=
  Q (m s).1 (m s).2.

Lemma outcome_ret {A} (a : A) s (Q : res A → S → Prop) : Q (Ok a) s → outcome (mret a) s Q.
Proof. done. Qed.

Lemma outcome_bind {A B} (m : ST S A) (k : A → ST S B) s (Q : res B → S → Prop) :
  outcome m s (λ r s1, match r with
                       | Ok a => outcome (k a) s1 Q
                       | Err e => Q (Err e) s1
                       | Panic => Q Panic s1
                       end) →
  outcome (m ≫= k) s Q.
Proof. unfold outcome, mbind, ST_bind. by destruct (m s) as [[a|e|] s1]. Qed.

Lemma outcome_lift {A} (r : res A) s (Q : res A → S → Prop) : Q r s → outcome (st_lift r) s Q.
Proof. done. Qed.
Lemma outcome_fail {A} e s (Q : res A → S → Prop) : Q (Err e) s → outcome (fail e) s Q.
Proof. done. Qed.
Lemma outcome_get {A} (f : S → A) s (Q : res A → S → Prop) : Q (Ok (f s)) s → outcome (st_get f) s Q.
Proof. done. Qed.
Lemma outcome_modify (f : S → S) s (Q : res unit → S → Prop) : Q (Ok ()) (f s) → outcome (st_modify f) s Q.
Proof. done. Qed.
(** A call that changes no state is bound by its result. *)
Lemma outcome_bind_lift {A B} (r : res A) (k : A → ST S B) s (Q : res B → S → Prop) :
  (∀ a, r = Ok a → outcome (k a) s Q) → (∀ e, r = Err e → Q (Err e) s) → (r = Panic → Q Panic s) →
  outcome (st_lift r ≫= k) s Q.
Proof. intros H1 H2 H3. apply outcome_bind, outcome_lift. destruct r; auto. Qed.
Lemma outcome_bind_get {A B} (f : S → A) (k : A → ST S B) s (Q : res B → S → Prop) :
  outcome (k (f s)) s Q → outcome (st_get f ≫= k) s Q.
Proof. done. Qed.
Lemma outcome_bind_modify {B} (f : S → S) (k : unit → ST S B) s (Q : res B → S → Prop) :
  outcome (k ()) (f s) Q → outcome (st_modify f ≫= k) s Q.
Proof. done. Qed.

Lemma outcome_try {A} (m : ST S A) s (Q : res (goerror + A) → S → Prop) :
  outcome m s (λ r s', match r with
                       | Ok a => Q (Ok (inr a)) s'
                       | Err e => Q (Ok (inl e)) s'
                       | Panic => Q Panic s'
                       end) →
  outcome (try m) s Q.
Proof. unfold outcome, try. by destruct (m s) as [[a|e|] s1]. Qed.

Lemma outcome_mono {A} (m : ST S A) s (P Q : res A → S → Prop) :
  outcome m s P → (∀ r s', P r s' → Q r s') → outcome m s Q.
Proof. unfold outcome. auto. Qed.

Lemma outcome_iter {A} (I : S → Prop) (f : A → ST S unit) l s :
  (∀ x s, x ∈ l → I s → outcome (f x) s (λ r s', r = Ok () ∧ I s')) → I s →
  outcome (st_iter f l) s (λ r s', r = Ok () ∧ I s').
Proof.
  revert s; induction l as [|x l IH]; intros s Hf Hs; simpl; [by apply outcome_ret|].
  apply outcome_bind. eapply outcome_mono; [apply Hf; [constructor|done]|].
  intros r s' [-> Hs']. apply IH; [|done]. intros y s2 Hy. apply Hf. by constructor.
Qed.
End Laws.
