(* ===== verification/GoStd.v ===== *)
(** * The parts of the Go standard library the modelled code calls

    [strings] (index, slicing, joining), [strconv] (decimal printing and
    parsing with its two errors), [net] ([SplitHostPort], [ParseIP] and the
    methods of [net.IP]).  A Go string is a byte string: Rocq's [string].
    An index that Go returns as [-1] is [None]. *)

From S2P Require Import Prelude.

(** ** strings *)

(** [s[:n]] and [s[n:]] for [n <= len(s)]. *)
Fixpoint stake (n : nat) (s : string) : string :=
  match n, s with
  | S n', String c s' => String c (stake n' s')
  | _, _ => EmptyString
  end.

Lemma stake_length n s : (String.length (stake n s) ≤ n)%nat.
Proof. revert s; induction n as [|n IH]; intros [|c s]; simpl; [lia..|]. specialize (IH s). lia. Qed.

Fixpoint sdrop (n : nat) (s : string) : string :=
  match n, s with
  | S n', String _ s' => sdrop n' s'
  | _, _ => s
  end.

#[global] Arguments stake !_ !_ / : simpl nomatch.
#[global] Arguments sdrop !_ !_ / : simpl nomatch.

Fixpoint has_byte (c : ascii) (s : string) : bool :=
  match s with
  | EmptyString => false
  | String d s' => Ascii.eqb d c || has_byte c s'
  end.

(** [strings.IndexByte]. *)
Fixpoint byte_index (c : ascii) (s : string) : option nat :=
  match s with
  | EmptyString => None
  | String d s' => if Ascii.eqb d c then Some 0 else S <$> byte_index c s'
  end.

(** [strings.LastIndex(s, string(c))]. *)
Fixpoint last_index (c : ascii) (s : string) : option nat :=
  match s with
  | EmptyString => None
  | String d s' =>
      match last_index c s' with
      | Some i => Some (S i)
      | None => if Ascii.eqb d c then Some 0 else None
      end
  end.

(** [strings.Join]. *)
Definition join (sep : string) (l : list string) : string := String.concat sep l.

(** [strings.SplitN(s, string(c), 2)]: one or two parts. *)
Definition split2 (c : ascii) (s : string) : list string :=
  match byte_index c s with
  | None => [s]
  | Some i => [stake i s; sdrop (S i) s]
  end.

Definition lower_byte (c : ascii) : ascii :=
  let n := N_of_ascii c in
  if ((65 <=? n) && (n <=? 90))%N then ascii_of_N (n + 32) else c.

(** [strings.ToLower] on ASCII text, to which its callers apply it (header
    names, values of tags, URL schemes, names of ports); other letters are left
    alone. *)
Fixpoint to_lower (s : string) : string :=
  match s with
  | EmptyString => EmptyString
  | String c s' => String (lower_byte c) (to_lower s')
  end.

(** [strings.Split(s, string(c))]: one part more than there are separators. *)
Fixpoint split_all (c : ascii) (s : string) : list string :=
  match s with
  | EmptyString => [EmptyString]
  | String d s' =>
      if Ascii.eqb c d then EmptyString :: split_all c s'
      else match split_all c s' with
           | p :: ps => String d p :: ps
           | [] => [String d EmptyString]
           end
  end.

(** [strings.HasPrefix]. *)
Definition has_prefix (prefix s : string) : bool := String.prefix prefix s.

(** [strings.Contains] *)
Fixpoint contains (s sub : string) : bool :=
  has_prefix sub s || match s with EmptyString => false | String _ s' => contains s' sub end.

(** The longest prefix of bytes that satisfy [p], and the rest. *)
Fixpoint span (p : ascii → bool) (s : string) : string * string :=
  match s with
  | EmptyString => (EmptyString, EmptyString)
  | String c s' => if p c then let (a, b) := span p s' in (String c a, b) else (EmptyString, s)
  end.

Fixpoint all_bytes (p : ascii → bool) (s : string) : bool :=
  match s with
  | EmptyString => true
  | String c s' => p c && all_bytes p s'
  end.

Lemma stake_app s t : stake (String.length s) (s +:+ t) = s.
Proof. induction s as [|c s IH]; simpl; [by destruct t|]. by rewrite IH. Qed.

Lemma sdrop_app s t : sdrop (String.length s) (s +:+ t) = t.
Proof. induction s as [|c s IH]; simpl; [by destruct t|]. done. Qed.

Lemma sdrop_0 s : sdrop 0 s = s.
Proof. by destruct s. Qed.

Lemma sdrop_app_S s c t : sdrop (S (String.length s)) (s +:+ String c t) = t.
Proof. induction s as [|d s IH]; simpl; [by destruct t|]. done. Qed.

Lemma span_spec p s a b :
  span p s = (a, b) →
  s = a +:+ b ∧ all_bytes p a = true ∧ match b with String c _ => p c = false | _ => True end.
Proof.
  revert a b; induction s as [|c s IH]; intros a b; simpl.
  { by intros [= <- <-]. }
  destruct (p c) eqn:E.
  - destruct (span p s) as [a' b'] eqn:Es. intros [= <- <-].
    destruct (IH _ _ eq_refl) as (-> & Ha & Hb). simpl. by rewrite E, Ha.
  - intros [= <- <-]. done.
Qed.

Lemma span_app p a b :
  all_bytes p a = true → match b with String c _ => p c = false | _ => True end →
  span p (a +:+ b) = (a, b).
Proof.
  intros Ha Hb. induction a as [|c a IH]; simpl.
  - destruct b as [|c b]; simpl; [done|]. by rewrite Hb.
  - simpl in Ha. apply andb_true_iff in Ha as [-> Ha]. by rewrite IH.
Qed.

Lemma all_bytes_app p (s t : string) : all_bytes p (s +:+ t) = all_bytes p s && all_bytes p t.
Proof. induction s as [|c s IH]; [done|]. simpl. by rewrite IH, andb_assoc. Qed.

(** Case analysis on the bits of a byte, and claims about every byte. *)
Ltac each_byte c :=
  let b0 := fresh in let b1 := fresh in let b2 := fresh in let b3 := fresh in
  let b4 := fresh in let b5 := fresh in let b6 := fresh in let b7 := fresh in
  destruct c as [b0 b1 b2 b3 b4 b5 b6 b7];
  destruct b0, b1, b2, b3, b4, b5, b6, b7.
Ltac bytewise := let c := fresh "c" in intros c; each_byte c; done.

Lemma all_bytes_impl (p q : ascii → bool) s :
  (∀ c, p c = true → q c = true) → all_bytes p s = true → all_bytes q s = true.
Proof.
  intros H. induction s as [|c s IH]; [done|]. simpl. rewrite !andb_true_iff. intros [? ?]. auto.
Qed.

Lemma all_bytes_not_byte c s :
  all_bytes (λ d, negb (Ascii.eqb d c)) s = true ↔ has_byte c s = false.
Proof.
  induction s as [|d s IH]; simpl; [done|].
  rewrite andb_true_iff, orb_false_iff, negb_true_iff, IH. done.
Qed.

Lemma has_byte_app c s t : has_byte c (s +:+ t) = has_byte c s || has_byte c t.
Proof. induction s as [|d s IH]; simpl; [done|]. by rewrite IH, orb_assoc. Qed.

Lemma last_index_None c s : last_index c s = None ↔ has_byte c s = false.
Proof.
  induction s as [|d s IH]; simpl; [done|].
  rewrite orb_false_iff, <- IH.
  destruct (last_index c s), (Ascii.eqb d c); split; (intros [? ?] || intros ?); done.
Qed.

Lemma byte_index_None c s : byte_index c s = None ↔ has_byte c s = false.
Proof.
  induction s as [|d s IH]; simpl; [done|].
  destruct (Ascii.eqb d c); simpl; [done|].
  rewrite fmap_None. done.
Qed.

Lemma last_index_app s c t :
  has_byte c t = false → last_index c (s +:+ String c t) = Some (String.length s).
Proof.
  intros Ht. induction s as [|d s IH]; simpl.
  - apply last_index_None in Ht as ->. by rewrite Ascii.eqb_refl.
  - by rewrite IH.
Qed.

Lemma byte_index_app s c t :
  has_byte c s = false → byte_index c (s +:+ String c t) = Some (String.length s).
Proof.
  induction s as [|d s IH]; simpl; [by rewrite Ascii.eqb_refl|].
  rewrite orb_false_iff. intros [-> Hs]. by rewrite IH.
Qed.

Lemma string_app_assoc (s t u : string) : (s +:+ t) +:+ u = s +:+ (t +:+ u).
Proof. induction s as [|c s IH]; simpl; [done|]. by rewrite IH. Qed.

Lemma string_app_empty_r (s : string) : s +:+ "" = s.
Proof. induction s as [|c s IH]; simpl; [done|]. by rewrite IH. Qed.

Lemma string_length_app s t :
  String.length (s +:+ t) = String.length s + String.length t.
Proof. induction s as [|c s IH]; simpl; [done|]. by rewrite IH. Qed.

Lemma split_all_none c s : has_byte c s = false → split_all c s = [s].
Proof.
  induction s as [|d s IH]; simpl; [done|]. intros [Hd Hs]%orb_false_iff.
  rewrite Ascii.eqb_sym, Hd, IH by done. done.
Qed.

Lemma split_all_app c s t :
  has_byte c s = false → split_all c (s +:+ String c t) = s :: split_all c t.
Proof.
  induction s as [|d s IH]; simpl; [by rewrite Ascii.eqb_refl|].
  intros [Hd Hs]%orb_false_iff. rewrite Ascii.eqb_sym, Hd, IH by done. done.
Qed.

(** The parts contain no separator and no byte the text does not have. *)
Lemma split_all_parts c b s :
  has_byte b s = false ∨ b = c → Forall (λ p, has_byte b p = false) (split_all c s).
Proof.
  intros H. induction s as [|d s IH]; simpl; [by repeat constructor|].
  assert (has_byte b s = false ∨ b = c) as Hs.
  { destruct H as [H|]; [left|by right]. simpl in H. by apply orb_false_iff in H as [_ ?]. }
  specialize (IH Hs). destruct (Ascii.eqb_spec c d) as [->|Hne]; [by constructor|].
  assert (Ascii.eqb d b = false) as Hd.
  { destruct H as [H| ->]; [simpl in H; by apply orb_false_iff in H as [? _]|].
    apply Ascii.eqb_neq. congruence. }
  destruct (split_all c s) as [|p ps]; [by repeat constructor; simpl; rewrite Hd|].
  inversion IH; subst. constructor; [|done]. simpl. by rewrite Hd.
Qed.

Lemma split_all_ne c s : split_all c s = hd "" (split_all c s) :: tl (split_all c s).
Proof.
  destruct s as [|d s]; simpl; [done|]. destruct (Ascii.eqb c d); [done|].
  by destruct (split_all c s).
Qed.

Lemma to_lower_idem s : to_lower (to_lower s) = to_lower s.
Proof.
  induction s as [|c s IH]; simpl; [done|]. rewrite IH. f_equal.
  by destruct c as [[] [] [] [] [] [] [] []].
Qed.

Lemma to_lower_has_byte c s :
  (∀ d, Ascii.eqb (lower_byte d) c = Ascii.eqb d c) → has_byte c (to_lower s) = has_byte c s.
Proof. intros Hc. induction s as [|d s IH]; simpl; [done|]. by rewrite IH, Hc. Qed.

(** ** strconv *)

Local Open Scope Z_scope.

Definition digit_val (c : ascii) : option Z :=
  let n := Z.of_N (N_of_ascii c) in
  if (48 <=? n) && (n <=? 57) then Some (n - 48) else None.

Definition digit_char (d : Z) : ascii := ascii_of_N (Z.to_N (d + 48)).

(** Decimal digits of a non-negative number, most significant first, in
    front of [acc]; [fuel] bounds the number of digits. *)
Fixpoint format_go (fuel : nat) (n : Z) (acc : string) : string :=
  match fuel with
  | O => acc
  | S f =>
      let acc' := String (digit_char (n mod 10)) acc in
      if n <? 10 then acc' else format_go f (n / 10) acc'
  end.

(** [strconv.FormatUint(n, 10)], and [%d] on an unsigned operand: a number
    has at most [log2 n + 1] decimal digits. *)
Definition format_uint (n : Z) : string := format_go (S (Z.to_nat (Z.log2 n))) n "".

(** [strconv.Itoa]. *)
Definition itoa (n : Z) : string :=
  if n <? 0 then String "-" (format_uint (- n)) else format_uint n.

Definition ErrSyntax (fn s : string) : goerror :=
  Errorf "strconv.%s: parsing %q: invalid syntax" [AStr fn; AStr s].
Definition ErrRange (fn s : string) : goerror :=
  Errorf "strconv.%s: parsing %q: value out of range" [AStr fn; AStr s].

(** The loop of [strconv.ParseUint(s, 10, bitSize)]: [maxVal] is
    [1<<bitSize - 1]; the first bad byte is a syntax error, the first
    accumulated value above [maxVal] a range error. *)
Fixpoint parse_uint_go (s0 : string) (maxVal n : Z) (s : string) : res Z :=
  match s with
  | EmptyString => Ok n
  | String c s' =>
      match digit_val c with
      | None => Err (ErrSyntax "ParseUint" s0)
      | Some d =>
          let n1 := n * 10 + d in
          if maxVal <? n1 then Err (ErrRange "ParseUint" s0)
          else parse_uint_go s0 maxVal n1 s'
      end
  end.

Definition parse_uint (bitSize : Z) (s : string) : res Z :=
  match s with
  | EmptyString => Err (ErrSyntax "ParseUint" s)
  | _ => parse_uint_go s (2 ^ bitSize - 1) 0 s
  end.

(** [strconv.Atoi] on a 64-bit platform: an optional sign, then
    [ParseUint(_, 10, 64)] and the signed range check. *)
Definition atoi (s : string) : res Z :=
  let syntax := Err (ErrSyntax "Atoi" s) in
  let range := Err (ErrRange "Atoi" s) in
  let body neg digits :=
    match parse_uint 64 digits with
    | Ok un =>
        if neg : bool then (if 2 ^ 63 <? un then range else Ok (- un))
        else (if 2 ^ 63 <=? un then range else Ok un)
    | Err (Errorf f _) =>
        if String.eqb f "strconv.%s: parsing %q: invalid syntax" then syntax else range
    | _ => syntax
    end in
  match s with
  | String c s' =>
      if Ascii.eqb c "-"%char then body true s'
      else if Ascii.eqb c "+"%char then body false s'
      else body false s
  | EmptyString => syntax
  end.

Lemma digit_val_bounds c d : digit_val c = Some d → 0 ≤ d < 10.
Proof. unfold digit_val. intros H. split_match_in H; bool_prop; simplify_eq; lia. Qed.

Lemma parse_uint_go_bounds s0 m n s v :
  0 ≤ n ≤ m → parse_uint_go s0 m n s = Ok v → 0 ≤ v ≤ m.
Proof.
  revert n; induction s as [|c s IH]; intros n Hn; simpl; [by intros [= ->]|].
  destruct (digit_val c) as [d|] eqn:E; [|done]. apply digit_val_bounds in E.
  destruct (m <? n * 10 + d) eqn:Em; [done|]. bool_prop. apply IH. lia.
Qed.

Lemma parse_uint_bounds b s v : 0 < b → parse_uint b s = Ok v → 0 ≤ v < 2 ^ b.
Proof.
  intros Hb. unfold parse_uint. destruct s; [done|]. intros H.
  assert (0 < 2 ^ b) by (apply Z.pow_pos_nonneg; lia).
  apply parse_uint_go_bounds in H; lia.
Qed.

Lemma digit_val_char d : 0 ≤ d < 10 → digit_val (digit_char d) = Some d.
Proof.
  intros H. unfold digit_val, digit_char.
  rewrite N_ascii_embedding by lia. rewrite Z2N.id by lia.
  destruct ((48 <=? d + 48) && (d + 48 <=? 57)) eqn:E; [f_equal; lia|].
  apply andb_false_iff in E as [E|E]; bool_prop; lia.
Qed.

(** The digits printed in front of [acc] read back as [n]: the parser's
    accumulator [k] is shifted by them and it goes on with [acc]. *)
Lemma parse_format_go s0 m fuel n acc :
  0 ≤ n < 2 ^ Z.of_nat fuel → n ≤ m →
  parse_uint_go s0 m 0 (format_go fuel n acc) = parse_uint_go s0 m n acc.
Proof.
  revert n acc; induction fuel as [|f IH]; intros n acc Hn Hm; simpl.
  { replace n with 0 by (simpl in Hn; lia). done. }
  pose proof (Z.mod_pos_bound n 10 ltac:(lia)).
  pose proof (Z.div_mod n 10 ltac:(lia)).
  destruct (n <? 10) eqn:E; bool_prop.
  - simpl. rewrite digit_val_char by lia.
    rewrite Z.mod_small by lia. simpl.
    by rewrite (proj2 (Z.ltb_ge _ _)) by lia.
  - rewrite Nat2Z.inj_succ, Z.pow_succ_r in Hn by lia.
    rewrite IH; [|lia..]. simpl. rewrite digit_val_char by lia.
    replace (n / 10 * 10 + n mod 10) with n by lia.
    by rewrite (proj2 (Z.ltb_ge _ _)) by lia.
Qed.

Lemma format_go_nonempty f n acc : format_go (S f) n acc ≠ "" .
Proof.
  revert n acc; induction f as [|f IH]; intros n acc; simpl; [by destruct (n <? 10)|].
  destruct (n <? 10); [done|]. apply IH.
Qed.

(** [ParseUint] is a left inverse of [FormatUint] on its range. *)
Lemma parse_format_uint b n : 0 ≤ n < 2 ^ b → parse_uint b (format_uint n) = Ok n.
Proof.
  intros Hn. unfold parse_uint, format_uint.
  assert (0 ≤ n < 2 ^ Z.of_nat (S (Z.to_nat (Z.log2 n)))) as Hlog.
  { split; [lia|]. pose proof (Z.log2_nonneg n).
    rewrite Nat2Z.inj_succ, Z2Nat.id by lia.
    destruct (decide (n = 0)) as [->|]; [done|]. apply Z.log2_spec. lia. }
  destruct (format_go _ n "") eqn:E; [by apply format_go_nonempty in E|].
  rewrite <- E at 2. rewrite parse_format_go by lia. done.
Qed.

Definition all_digits : string → bool :=
  fix go s := match s with
  | EmptyString => true
  | String c s' => match digit_val c with Some _ => go s' | None => false end
  end.

Lemma format_go_digits f n acc :
  0 ≤ n → all_digits acc = true → all_digits (format_go f n acc) = true.
Proof.
  revert n acc; induction f as [|f IH]; intros n acc Hn Ha; simpl; [done|].
  pose proof (Z.mod_pos_bound n 10 ltac:(lia)).
  assert (all_digits (String (digit_char (n mod 10)) acc) = true) as Hd.
  { simpl. by rewrite digit_val_char by lia. }
  destruct (n <? 10); [done|]. apply IH; [by apply Z.div_pos|done].
Qed.

Lemma format_uint_digits n : 0 ≤ n → all_digits (format_uint n) = true.
Proof. intros. by apply format_go_digits. Qed.

Lemma all_digits_no_byte c s :
  digit_val c = None → all_digits s = true → has_byte c s = false.
Proof.
  intros Hc. induction s as [|d s IH]; simpl; [done|].
  destruct (digit_val d) eqn:E; [|done]. intros Hs.
  rewrite IH by done. rewrite orb_false_r. apply Ascii.eqb_neq. congruence.
Qed.

Lemma format_uint_nonempty n : format_uint n ≠ "".
Proof. apply format_go_nonempty. Qed.

(** On text that starts with a digit [Atoi] is [ParseUint] and a range check. *)
Lemma atoi_digits s :
  s ≠ "" → all_digits s = true →
  ∀ v, atoi s = Ok v ↔ parse_uint 64 s = Ok v ∧ v < 2 ^ 63.
Proof.
  intros Hne Hd v. unfold atoi. destruct s as [|c s]; [done|].
  assert (Ascii.eqb c "-" = false ∧ Ascii.eqb c "+" = false) as [-> ->].
  { simpl in Hd. split; apply Ascii.eqb_neq; intros ->; done. }
  destruct (parse_uint 64 (String c s)) as [un|e|].
  - destruct (Z.leb_spec (2 ^ 63) un); split; naive_solver lia.
  - destruct e as [f a| |]; [destruct (String.eqb f _)| |]; split; naive_solver.
  - split; naive_solver.
Qed.

(** [Atoi] is a left inverse of [Itoa] on 64-bit integers. *)
Lemma atoi_itoa n : - 2 ^ 63 ≤ n < 2 ^ 63 → atoi (itoa n) = Ok n.
Proof.
  intros Hn. unfold itoa. destruct (Z.ltb_spec n 0).
  - unfold atoi. simpl Ascii.eqb. cbv iota. rewrite parse_format_uint by (simpl; lia).
    destruct (Z.ltb_spec (2 ^ 63) (- n)); [lia|]. f_equal. lia.
  - apply atoi_digits; [apply format_uint_nonempty|by apply format_uint_digits|].
    rewrite parse_format_uint by (simpl; lia). split; [done|lia].
Qed.

Lemma itoa_inj n m : 0 ≤ n → itoa n = itoa m → n = m.
Proof.
  unfold itoa. intros Hn. rewrite (proj2 (Z.ltb_ge n 0)) by lia. destruct (Z.ltb_spec m 0) as [Hm|Hm]; intros E.
  - pose proof (format_uint_digits n Hn) as Hd. rewrite E in Hd. done.
  - set (b := 1 + Z.max n m). assert (∀ x, 0 ≤ x → x ≤ Z.max n m → parse_uint b (format_uint x) = Ok x) as Hp.
    { intros x Hx Hle. apply parse_format_uint. split; [done|]. apply Z.le_lt_trans with (Z.max n m); [done|].
      apply Z.lt_le_trans with b; [unfold b; lia|]. apply Z.lt_le_incl, Z.pow_gt_lin_r; unfold b; lia. }
    pose proof (Hp n Hn ltac:(lia)) as Hpn. rewrite E, (Hp m Hm ltac:(lia)) in Hpn. congruence.
Qed.

Lemma itoa_plain c n : digit_val c = None → c ≠ "-"%char → has_byte c (itoa n) = false.
Proof.
  intros Hc Hd. unfold itoa. destruct (Z.ltb_spec n 0).
  - cbn [has_byte]. rewrite (proj2 (Ascii.eqb_neq "-" c)) by congruence. apply all_digits_no_byte; [done|]. apply format_uint_digits. lia.
  - apply all_digits_no_byte; [done|]. by apply format_uint_digits.
Qed.

Lemma atoi_no_panic s : atoi s ≠ Panic.
Proof.
  unfold atoi. destruct s as [|c s]; [done|].
  repeat (case_match; try discriminate).
Qed.

(** ** fmt and errors *)

Definition hex_digit (n : N) : ascii :=
  if (n <? 10)%N then ascii_of_N (48 + n) else ascii_of_N (87 + n).

(** [%q] of one byte: the escapes of [strconv.Quote]; bytes of a multi-byte
    character are kept. *)
Definition quote_byte (c : ascii) : string :=
  let n := N_of_ascii c in
  if (n =? 34)%N then String "\" (String c "")
  else if (n =? 92)%N then "\\"
  else if (n =? 7)%N then "\a" else if (n =? 8)%N then "\b" else if (n =? 12)%N then "\f"
  else if (n =? 10)%N then "\n" else if (n =? 13)%N then "\r" else if (n =? 9)%N then "\t"
  else if (n =? 11)%N then "\v"
  else if ((n <? 32) || (n =? 127))%N
  then "\x" +:+ String (hex_digit (n / 16)%N) (String (hex_digit (n mod 16)%N) "")
  else String c "".

Fixpoint quote_body (s : string) : string :=
  match s with
  | EmptyString => EmptyString
  | String c s' => quote_byte c +:+ quote_body s'
  end.

Definition dquote : string := String (ascii_of_N 34) "".
Definition quote (s : string) : string := dquote +:+ quote_body s +:+ dquote.

(** [fmt.Sprintf] on the verbs the code uses: [%s], [%v], [%q], [%d], [%%]. *)
Definition format_verb (verb : ascii) (arg : goarg) : string :=
  match arg with
  | AStr s => if Ascii.eqb verb "q" then quote s else s
  | AInt z => itoa z
  end.

Fixpoint sprintf (format : string) (args : list goarg) : string :=
  match format with
  | EmptyString => EmptyString
  | String c rest =>
      if Ascii.eqb c "%" then
        match rest with
        | EmptyString => "%!(NOVERB)"
        | String verb rest' =>
            if Ascii.eqb verb "%" then String "%" (sprintf rest' args)
            else match args with
                 | a :: args' => format_verb verb a +:+ sprintf rest' args'
                 | [] => "%!" +:+ String verb "(MISSING)" +:+ sprintf rest' []
                 end
        end
      else String c (sprintf rest args)
  end.

(** [err.Error()]; [errors.Wrapf] puts its message in front of the cause. *)
Fixpoint error_string (e : goerror) : string :=
  match e with
  | Errorf format args => sprintf format args
  | Wrapf cause format args => sprintf format args +:+ ": " +:+ error_string cause
  | ErrorStruct _ _ text => text
  end.

(** ** net *)

(** [net.JoinHostPort]: a host with a colon is put into brackets. *)
Definition JoinHostPort (host port : string) : string :=
  if has_byte ":" host then "[" +:+ host +:+ "]:" +:+ port else host +:+ ":" +:+ port.

Definition addrErr (addr why : string) : goerror :=
  Errorf "address %s: %s" [AStr addr; AStr why].

(** [net.SplitHostPort]. *)
Definition split_host_port (hostport : string) : res (string * string) :=
  let missingPort := Err (addrErr hostport "missing port in address") in
  let tooManyColons := Err (addrErr hostport "too many colons in address") in
  let finish i host j k :=
    if has_byte "[" (sdrop j hostport)
    then Err (addrErr hostport "unexpected '[' in address")
    else if has_byte "]" (sdrop k hostport)
    then Err (addrErr hostport "unexpected ']' in address")
    else Ok (host, sdrop (S i) hostport) in
  match last_index ":" hostport with
  | None => missingPort
  | Some i =>
      match hostport with
      | String c _ =>
          if Ascii.eqb c "["%char then
            match byte_index "]" hostport with
            | None => Err (addrErr hostport "missing ']' in address")
            | Some e =>
                if Nat.eqb (S e) (String.length hostport) then missingPort
                else if Nat.eqb (S e) i then
                  finish i (stake (e - 1) (sdrop 1 hostport)) 1%nat (S e)
                else match String.get (S e) hostport with
                     | Some d => if Ascii.eqb d ":"%char then tooManyColons else missingPort
                     | None => missingPort
                     end
            end
          else if has_byte ":" (stake i hostport) then tooManyColons
          else finish i (stake i hostport) 0%nat 0%nat
      | EmptyString => missingPort
      end
  end.

(** A host without colons and brackets splits off a port without them. *)
Lemma split_host_port_plain host port :
  has_byte ":" host = false → has_byte "[" host = false → has_byte "]" host = false →
  has_byte ":" port = false → has_byte "[" port = false → has_byte "]" port = false →
  split_host_port (host +:+ String ":" port) = Ok (host, port).
Proof.
  intros H1 H2 H3 P1 P2 P3. unfold split_host_port.
  rewrite last_index_app by done.
  assert (has_byte "[" (host +:+ String ":" port) = false) as Hb.
  { rewrite has_byte_app, H2. simpl. done. }
  assert (has_byte "]" (host +:+ String ":" port) = false) as Hc.
  { rewrite has_byte_app, H3. simpl. done. }
  rewrite stake_app, H1, sdrop_app_S, sdrop_0, Hb, Hc.
  destruct (host +:+ String ":" port) as [|c s] eqn:E; [by destruct host|].
  simpl in Hb. apply orb_false_iff in Hb as [-> _]. done.
Qed.

(** A host that contains a colon and no brackets is refused. *)
Lemma split_host_port_colons host port :
  has_byte ":" host = true → has_byte "[" host = false →
  has_byte ":" port = false → has_byte "[" port = false →
  split_host_port (host +:+ String ":" port)
    = Err (addrErr (host +:+ String ":" port) "too many colons in address").
Proof.
  intros H1 H2 P1 P2. unfold split_host_port.
  rewrite last_index_app, stake_app, H1 by done.
  assert (has_byte "[" (host +:+ String ":" port) = false) as Hb.
  { rewrite has_byte_app, H2. simpl. done. }
  destruct (host +:+ String ":" port) as [|c s] eqn:E; [by destruct host|].
  simpl in Hb. apply orb_false_iff in Hb as [-> _]. done.
Qed.

(** An address is 16 bytes; an IPv4 address is stored in its IPv6 form. *)
Abbreviation IP := (list Z).

Definition ipv4 (a b c d : Z) : IP := [0;0;0;0;0;0;0;0;0;0;255;255;a;b;c;d].

Definition hex_val (c : ascii) : option Z :=
  let n := Z.of_N (N_of_ascii c) in
  if (48 <=? n) && (n <=? 57) then Some (n - 48)
  else if (97 <=? n) && (n <=? 102) then Some (n - 87)
  else if (65 <=? n) && (n <=? 70) then Some (n - 55)
  else None.

(** [dtoi]/[xtoi]: the number at the head of [s] in the given base, the
    number of bytes read and the rest; [None] when there is no digit or the
    value reaches [big = 0xFFFFFF]. *)
Fixpoint toi_go (val : ascii → option Z) (base n : Z) (i : nat) (s : string)
  : option (Z * nat * string) :=
  match s with
  | String c s' =>
      match val c with
      | Some d =>
          let n1 := n * base + d in
          if 16777215 <=? n1 then None else toi_go val base n1 (S i) s'
      | None => match i with O => None | _ => Some (n, i, s) end
      end
  | EmptyString => match i with O => None | _ => Some (n, i, s) end
  end.

Definition dtoi : string → option (Z * nat * string) := toi_go digit_val 10 0 0.
Definition xtoi : string → option (Z * nat * string) := toi_go hex_val 16 0 0.

(** The loop of [parseIPv4]: [k] numbers are still to be read. *)
Fixpoint parse_ipv4_go (k : nat) (first : bool) (s : string) : option (list Z) :=
  match k with
  | O => match s with EmptyString => Some [] | _ => None end
  | S k' =>
      let rest :=
        match s with
        | EmptyString => None
        | String c s' => if first then Some s else if Ascii.eqb c "."%char then Some s' else None
        end in
      match rest with
      | None => None
      | Some s1 =>
          match dtoi s1 with
          | Some (n, _, s2) =>
              if 255 <? n then None else cons n <$> parse_ipv4_go k' false s2
          | None => None
          end
      end
  end.

Definition parse_ipv4 (s : string) : option IP :=
  match parse_ipv4_go 4 true s with
  | Some [a; b; c; d] => Some (ipv4 a b c d)
  | _ => None
  end.

(** The loop of [parseIPv6]: at most eight groups ([fuel]); the bytes read so
    far are [ip] and [ell] is the position of the ellipsis.  Returns the bytes
    read, the ellipsis and the rest of the text. *)
Fixpoint parse_ipv6_go (fuel : nat) (ip : list Z) (ell : option nat) (s : string)
  : option (list Z * option nat * string) :=
  match fuel with
  | O => Some (ip, ell, s)
  | S f =>
      match xtoi s with
      | None => None
      | Some (n, _, s1) =>
          if 65535 <? n then None else
          let dot := match s1 with String c _ => Ascii.eqb c "."%char | _ => false end in
          if dot then
            if bool_decide (ell = None) && negb (Nat.eqb (length ip) 12) then None
            else if Nat.ltb 16 (length ip + 4) then None
            else match parse_ipv4 s with
                 | Some ip4 => Some (ip ++ drop 12 ip4, ell, "")
                 | None => None
                 end
          else
            let ip1 := ip ++ [n / 256; n mod 256] in
            match s1 with
            | EmptyString => Some (ip1, ell, s1)
            | String c s2 =>
                if negb (Ascii.eqb c ":"%char) then None else
                match s2 with
                | EmptyString => None
                | String c2 s3 =>
                    if Ascii.eqb c2 ":"%char then
                      match ell with
                      | Some _ => None
                      | None =>
                          match s3 with
                          | EmptyString => Some (ip1, Some (length ip1), s3)
                          | _ => parse_ipv6_go f ip1 (Some (length ip1)) s3
                          end
                      end
                    else parse_ipv6_go f ip1 ell s2
                end
            end
      end
  end.

Definition parse_ipv6 (s : string) : option IP :=
  let finish r :=
    match r with
    | Some (ip, ell, EmptyString) =>
        if Nat.ltb (length ip) 16 then
          match ell with
          | None => None
          | Some e => Some (take e ip ++ replicate (16 - length ip) 0 ++ drop e ip)
          end
        else match ell with Some _ => None | None => Some ip end
    | _ => None
    end in
  match s with
  | String ":" (String ":" s') =>
      match s' with
      | EmptyString => Some (replicate 16 0)
      | _ => finish (parse_ipv6_go 8 [] (Some 0%nat) s')
      end
  | _ => finish (parse_ipv6_go 8 [] None s)
  end.

(** [net.ParseIP]: the first ['.'] or [':'] of the text decides the family. *)
Fixpoint parse_ip_scan (s0 s : string) : option IP :=
  match s with
  | EmptyString => None
  | String c s' =>
      if Ascii.eqb c "."%char then parse_ipv4 s0
      else if Ascii.eqb c ":"%char then parse_ipv6 s0
      else parse_ip_scan s0 s'
  end.

Definition parse_ip (s : string) : option IP := parse_ip_scan s s.

(** [IP.IsUnspecified]: a nil address equals neither [0.0.0.0] nor [::]. *)
Definition ip_is_unspecified (ip : option IP) : bool :=
  match ip with
  | None => false
  | Some a => bool_decide (a = ipv4 0 0 0 0) || bool_decide (a = replicate 16 0)
  end.

(** [IP.Equal] on addresses in 16-byte form ([net.ParseIP] and [net.IPv4]
    return nothing else); two nil addresses are equal. *)
Definition ip_equal (x y : option IP) : bool := bool_decide (x = y).

Example parse_ip_v4 : parse_ip "192.168.0.1" = Some (ipv4 192 168 0 1).
Proof. reflexivity. Qed.
Example parse_ip_v4_bad : parse_ip "192.168.0" = None ∧ parse_ip "192.168.0.256" = None
  ∧ parse_ip "1.2.3.4.5" = None ∧ parse_ip "localhost" = None.
Proof. done. Qed.
Example parse_ip_v6 : parse_ip "2001:db8::1" =
  Some [32;1;13;184;0;0;0;0;0;0;0;0;0;0;0;1] ∧ parse_ip "::" = Some (replicate 16 0)
  ∧ parse_ip "::ffff:1.2.3.4" = Some (ipv4 1 2 3 4) ∧ parse_ip "1::2::3" = None.
Proof. done. Qed.

(** Text accepted as an IPv4 address has only digits and dots. *)
Definition ipv4_byte (c : ascii) : bool :=
  match digit_val c with Some _ => true | None => Ascii.eqb c "."%char end.

Lemma all_bytes_no_byte p c s : p c = false → all_bytes p s = true → has_byte c s = false.
Proof.
  intros Hc. induction s as [|d s IH]; simpl; [done|].
  rewrite andb_true_iff. intros [Hd Hs]. rewrite IH, orb_false_r by done.
  apply Ascii.eqb_neq. congruence.
Qed.

Lemma toi_go_suffix p val base n i s m j t :
  (∀ c d, val c = Some d → p c = true) →
  toi_go val base n i s = Some (m, j, t) → all_bytes p t = true → all_bytes p s = true.
Proof.
  intros Hp. revert n i. induction s as [|c s IH]; intros n i; simpl; [done|].
  destruct (val c) as [d|] eqn:E.
  - destruct (16777215 <=? n * base + d); [done|]. intros H Ht.
    rewrite (Hp _ _ E). simpl. by eapply IH.
  - destruct i; [done|]. intros [= <- <- <-]. done.
Qed.

Lemma parse_ipv4_go_bytes k first s l :
  parse_ipv4_go k first s = Some l → all_bytes ipv4_byte s = true.
Proof.
  revert first s l; induction k as [|k IH]; intros first s l; simpl; [by destruct s|].
  destruct s as [|c s]; [done|].
  assert (∀ c d, digit_val c = Some d → ipv4_byte c = true) as Hd.
  { intros ?? E. unfold ipv4_byte. by rewrite E. }
  assert (∀ u n j t l', dtoi u = Some (n, j, t) →
    (if 255 <? n then None else cons n <$> parse_ipv4_go k false t) = Some l' →
    all_bytes ipv4_byte u = true) as Hu.
  { intros u n j t l' Hu. destruct (255 <? n); [done|].
    intros (l'' & H & ->)%fmap_Some. eapply toi_go_suffix; [done..|]. by eapply IH. }
  destruct first; [|destruct (Ascii.eqb_spec c "."%char) as [->|]; [simpl|done]].
  - destruct (dtoi (String c s)) as [[[n j] t]|] eqn:E; [|done]. intros H.
    by eapply Hu.
  - destruct (dtoi s) as [[[n j] t]|] eqn:E; [|done]. intros H. by eapply Hu.
Qed.

Lemma parse_ipv4_bytes s ip : parse_ipv4 s = Some ip → all_bytes ipv4_byte s = true.
Proof.
  unfold parse_ipv4. destruct (parse_ipv4_go 4 true s) eqn:E; [|done].
  intros _. by eapply parse_ipv4_go_bytes.
Qed.

(** Without a colon, a valid address is an IPv4 one. *)
Lemma parse_ip_no_colon s ip :
  has_byte ":" s = false → parse_ip s = Some ip → parse_ipv4 s = Some ip.
Proof.
  unfold parse_ip. generalize s at 2 4 as s0. intros s0.
  induction s as [|c s IH]; simpl; [done|].
  rewrite orb_false_iff. intros [Hc Hs].
  destruct (Ascii.eqb c "."%char); [done|]. rewrite Hc. by apply IH.
Qed.

(** ** Machine integers *)

(** A 64-bit [int]. *)
Definition wrap_int (z : Z) : Z := (z + 2 ^ 63) mod 2 ^ 64 - 2 ^ 63.

Lemma wrap_int_id z : - 2 ^ 63 ≤ z < 2 ^ 63 → wrap_int z = z.
Proof. intros Hz. unfold wrap_int. rewrite Z.mod_small by lia. lia. Qed.

(** ** Strings as cases *)

(** A [switch] on a string whose cases are pure. *)
Definition string_switch {A} (x : string) (cases : list (string * A)) (otherwise : A) : A :=
  match find (λ c, String.eqb c.1 x) cases with Some (_, a) => a | None => otherwise end.

Lemma string_switch_cases {A} (P : A → Prop) x cases otherwise :
  P otherwise → Forall (λ c, P c.2) cases → P (string_switch x cases otherwise).
Proof.
  intros Ho Hc. unfold string_switch. induction Hc as [|[k a] cases Ha _ IH]; simpl; [done|].
  by destruct (String.eqb k x).
Qed.
