(* ===== verification/Tags.v ===== *)
(** * Tags, tag selectors and their ranks

    Models the selector half of [api/mesh/v1alpha1/dataplane_helpers.go]:
    [TagSelector] with [Matches], [Rank] and [Equal], [TagSelectorRank] with
    [CombinedWith] and [CompareTo], and the tag sets.  A Go map is a [gmap]
    (a nil map reads as an empty one); a [range] over a map visits the entries
    in an unspecified order, so every loop is written over a list of entries
    and proved independent of their order. *)

From S2P Require Import Prelude GoStd.
Local Open Scope Z_scope.

Definition ServiceTag : string := "service".
Definition ServiceUnknown : string := "unknown".
Definition ProtocolTag : string := "protocol".
Definition MatchAllTag : string := "*".

(** ** TagSelectorRank *)

Record TagSelectorRank : Type := mkRank {
  ExactMatches : Z;
  WildcardMatches : Z;
}.

#[global] Instance TagSelectorRank_eq_dec : EqDecision TagSelectorRank.
Proof. solve_decision. Defined.

Definition zeroRank : TagSelectorRank := mkRank 0 0.

Definition CombinedWith (r other : TagSelectorRank) : TagSelectorRank :=
  {| ExactMatches := ExactMatches r + ExactMatches other;
     WildcardMatches := WildcardMatches r + WildcardMatches other |}.

Definition CompareTo (r other : TagSelectorRank) : Z :=
  let thisTotal := ExactMatches r + WildcardMatches r in
  let otherTotal := ExactMatches other + WildcardMatches other in
  if thisTotal =? otherTotal then ExactMatches r - ExactMatches other
  else thisTotal - otherTotal.

(** ** TagSelector *)

Abbreviation tag_map := (gmap string string).

(** The loop of [Matches] over the entries of the selector. *)
Fixpoint Matches_loop (entries : list (string * string)) (tags : tag_map) : bool :=
  match entries with
  | [] => true
  | (tag, value) :: rest =>
      match tags !! tag with
      | None => false
      | Some inboundVal =>
          if negb (String.eqb value inboundVal) && negb (String.eqb value MatchAllTag)
          then false
          else Matches_loop rest tags
      end
  end.

Definition TagSelector_Matches (s tags : tag_map) : bool :=
  if Nat.eqb (size s) 0 then true else Matches_loop (map_to_list s) tags.

Definition Rank_step (r : TagSelectorRank) (entry : string * string) : TagSelectorRank :=
  if String.eqb entry.2 MatchAllTag
  then mkRank (ExactMatches r) (WildcardMatches r + 1)
  else mkRank (ExactMatches r + 1) (WildcardMatches r).

Definition Rank_loop (entries : list (string * string)) : TagSelectorRank :=
  foldl Rank_step zeroRank entries.

Definition TagSelector_Rank (s : tag_map) : TagSelectorRank := Rank_loop (map_to_list s).

Definition TagSelector_Equal (s other : tag_map) : bool :=
  (Nat.eqb (size s) 0 && Nat.eqb (size other) 0)
  || (Nat.eqb (size s) (size other) && bool_decide (s = other)).

Definition MatchService (service : string) : tag_map := {[ServiceTag := service]}.
Definition MatchAnyService : tag_map := MatchService MatchAllTag.
Definition MatchAll : tag_map := ∅.
Definition MatchTags (tags : tag_map) : tag_map := tags.

(** ** Tag sets *)

Definition SingleValueTagSet_Keys (t : tag_map) : list string :=
  sort_strings (map_to_list t).*1.

Abbreviation MultiValueTagSet := (gmap string (gmap string bool)).

Definition MultiValueTagSet_Keys (t : MultiValueTagSet) : list string :=
  sort_strings (map_to_list t).*1.

Definition MultiValueTagSet_Values (t : MultiValueTagSet) (key : string) : list string :=
  match t !! key with
  | Some vs => sort_strings (map_to_list vs).*1
  | None => []
  end.

Definition MultiValueTagSet_String (t : MultiValueTagSet) : string :=
  join " " (sort_strings
    ((λ tag, tag +:+ "=" +:+ join "," (MultiValueTagSet_Values t tag))
       <$> (map_to_list t).*1)).

(** One iteration of the loops of [Dataplane.Tags]: create the inner map when
    it is absent, then set the value. *)
Definition addTag (tags : MultiValueTagSet) (entry : string * string) : MultiValueTagSet :=
  let inner := default ∅ (tags !! entry.1) in
  <[entry.1 := <[entry.2 := true]> inner]> tags.

(** ** Matching *)

Lemma Matches_loop_spec entries tags :
  Matches_loop entries tags = true ↔
  Forall (λ e, ∃ w, tags !! e.1 = Some w ∧ (e.2 = w ∨ e.2 = MatchAllTag)) entries.
Proof.
  induction entries as [|[k v] es IH]; simpl.
  { split; [constructor|done]. }
  rewrite Forall_cons, <- IH. simpl.
  destruct (tags !! k) as [w|]; [|naive_solver].
  destruct (String.eqb_spec v w), (String.eqb_spec v MatchAllTag); simpl; naive_solver.
Qed.

Lemma Matches_spec s tags :
  TagSelector_Matches s tags = true ↔
  ∀ k v, s !! k = Some v → ∃ w, tags !! k = Some w ∧ (v = w ∨ v = MatchAllTag).
Proof.
  unfold TagSelector_Matches. destruct (Nat.eqb_spec (size s) 0) as [Hs|Hs].
  { apply map_size_empty_inv in Hs as ->. split; [|done]. intros _ k v. by rewrite lookup_empty. }
  rewrite Matches_loop_spec, Forall_forall. split.
  - intros H k v Hk. apply (H (k, v)). by apply elem_of_map_to_list.
  - intros H [k v] Hk%elem_of_map_to_list. by apply H.
Qed.

Lemma Matches_loop_perm es1 es2 tags :
  es1 ≡ₚ es2 → Matches_loop es1 tags = Matches_loop es2 tags.
Proof.
  intros H. apply eq_true_iff_eq. rewrite !Matches_loop_spec. by rewrite H.
Qed.

Lemma TagSelector_Equal_spec s other : TagSelector_Equal s other = true ↔ s = other.
Proof.
  unfold TagSelector_Equal. rewrite orb_true_iff, !andb_true_iff, !Nat.eqb_eq, bool_decide_eq_true.
  split; [|naive_solver].
  intros [[H1 H2]|[_ H]]; [|done].
  apply map_size_empty_inv in H1, H2. congruence.
Qed.

(** ** Ranks *)

Definition is_wild (v : string) : bool := String.eqb v MatchAllTag.

Lemma Rank_loop_count_go es r :
  foldl Rank_step r es =
    mkRank (ExactMatches r + Z.of_nat (length (List.filter (λ e, negb (is_wild e.2)) es)))
           (WildcardMatches r + Z.of_nat (length (List.filter (λ e, is_wild e.2) es))).
Proof.
  revert r; induction es as [|[k v] es IH]; intros r; simpl.
  { destruct r; simpl. f_equal; lia. }
  rewrite IH. unfold Rank_step, is_wild; simpl.
  destruct (String.eqb v MatchAllTag); simpl; f_equal; lia.
Qed.

Lemma Rank_loop_perm es1 es2 : es1 ≡ₚ es2 → Rank_loop es1 = Rank_loop es2.
Proof.
  intros H. unfold Rank_loop. induction H as [|x l l' _ IH|x y l|]; [done| | |congruence].
  - simpl. rewrite !Rank_loop_count_go in *. simplify_eq. f_equal; lia.
  - simpl. f_equal. unfold Rank_step.
    destruct (String.eqb x.2 _), (String.eqb y.2 _); simpl; f_equal; lia.
Qed.

Lemma Rank_insert s k v :
  s !! k = None → TagSelector_Rank (<[k := v]> s) = Rank_step (TagSelector_Rank s) (k, v).
Proof.
  intros Hk. unfold TagSelector_Rank.
  rewrite (Rank_loop_perm _ _ (map_to_list_insert s k v Hk)).
  unfold Rank_loop. simpl. rewrite !Rank_loop_count_go. unfold Rank_step; simpl.
  destruct (String.eqb v MatchAllTag); simpl; f_equal; lia.
Qed.

Lemma Rank_empty : TagSelector_Rank ∅ = zeroRank.
Proof. reflexivity. Qed.

Definition total (r : TagSelectorRank) : Z := ExactMatches r + WildcardMatches r.

Lemma Rank_total s : total (TagSelector_Rank s) = Z.of_nat (size s).
Proof.
  induction s as [|k v s Hk IH] using map_ind; [done|].
  rewrite Rank_insert, map_size_insert_None by done. unfold total, Rank_step in *. simpl.
  destruct (String.eqb v MatchAllTag); simpl; lia.
Qed.

Lemma Rank_exact_nonneg s :
  0 ≤ ExactMatches (TagSelector_Rank s) ≤ Z.of_nat (size s).
Proof.
  induction s as [|k v s Hk IH] using map_ind; [done|].
  rewrite Rank_insert, map_size_insert_None by done. unfold Rank_step. simpl.
  destruct (String.eqb v MatchAllTag); simpl; lia.
Qed.

(** [CompareTo] orders ranks by total, then by exact matches. *)
Lemma CompareTo_pos r o :
  0 < CompareTo r o ↔ total o < total r ∨ (total o = total r ∧ ExactMatches o < ExactMatches r).
Proof. unfold CompareTo, total. destruct (Z.eqb_spec (ExactMatches r + WildcardMatches r)
  (ExactMatches o + WildcardMatches o)); lia. Qed.

Lemma CompareTo_zero r o :
  CompareTo r o = 0 ↔ total o = total r ∧ ExactMatches o = ExactMatches r.
Proof. unfold CompareTo, total. destruct (Z.eqb_spec (ExactMatches r + WildcardMatches r)
  (ExactMatches o + WildcardMatches o)); lia. Qed.

Lemma CompareTo_eq r o : CompareTo r o = 0 ↔ r = o.
Proof.
  rewrite CompareTo_zero. unfold total. destruct r, o; simpl. split; [|naive_solver].
  intros [??]. f_equal; lia.
Qed.

(** ** Specificity

    [narrower s t]: [s] constrains every key [t] constrains, and keeps the
    exact values of [t]. *)
Definition narrower (s t : tag_map) : Prop :=
  ∀ k v, t !! k = Some v → ∃ w, s !! k = Some w ∧ (v = MatchAllTag ∨ w = v).

Lemma narrower_matches s t tags :
  narrower s t → TagSelector_Matches s tags = true → TagSelector_Matches t tags = true.
Proof.
  rewrite !Matches_spec. intros Hn Hs k v Hk.
  destruct (Hn k v Hk) as (w & Hw & Hv). destruct (Hs k w Hw) as (u & Hu & Hwu).
  exists u. naive_solver.
Qed.

Lemma narrower_delete s t k v w :
  t !! k = Some v → s !! k = Some w → narrower s t → narrower (delete k s) (delete k t).
Proof.
  intros Ht Hs Hn i x. rewrite lookup_delete_Some. intros [Hne Hi].
  destruct (Hn i x Hi) as (y & Hy & ?). exists y. by rewrite lookup_delete_ne.
Qed.

Lemma Rank_delete s k v :
  s !! k = Some v → TagSelector_Rank s = Rank_step (TagSelector_Rank (delete k s)) (k, v).
Proof.
  intros Hk. rewrite <- Rank_insert by apply lookup_delete_eq.
  by rewrite insert_delete_id.
Qed.

Lemma narrower_exact s t :
  narrower s t → ExactMatches (TagSelector_Rank t) ≤ ExactMatches (TagSelector_Rank s).
Proof.
  revert s; induction t as [|k v t Hk IH] using map_ind; intros s Hn.
  { rewrite Rank_empty. apply Rank_exact_nonneg. }
  destruct (Hn k v (lookup_insert_eq _ _ _)) as (w & Hw & Hvw).
  pose proof (narrower_delete _ _ _ _ _ (lookup_insert_eq t k v) Hw Hn) as Hn'.
  rewrite delete_insert_id in Hn' by done. specialize (IH _ Hn').
  rewrite Rank_insert, (Rank_delete s k w) by done. unfold Rank_step; simpl.
  destruct (String.eqb_spec v MatchAllTag), (String.eqb_spec w MatchAllTag);
    simpl; try lia; naive_solver.
Qed.

Lemma narrower_dom s t : narrower s t → dom t ⊆ dom s.
Proof.
  intros Hn k [v Hv]%elem_of_dom. destruct (Hn k v Hv) as (w & Hw & _).
  apply elem_of_dom. eauto.
Qed.

Lemma narrower_size s t : narrower s t → (size t ≤ size s)%nat.
Proof.
  intros Hn%narrower_dom. rewrite <- !size_dom. by apply subseteq_size.
Qed.

Lemma narrower_same_dom s t :
  narrower s t → dom s = dom t →
  s = t ∨ ExactMatches (TagSelector_Rank t) < ExactMatches (TagSelector_Rank s).
Proof.
  revert s; induction t as [|k v t Hk IH] using map_ind; intros s Hn Hd.
  { left. rewrite dom_empty_L in Hd. by apply dom_empty_inv_L. }
  destruct (Hn k v (lookup_insert_eq _ _ _)) as (w & Hw & Hvw).
  pose proof (narrower_delete _ _ _ _ _ (lookup_insert_eq t k v) Hw Hn) as Hn'.
  rewrite delete_insert_id in Hn' by done.
  assert (dom (delete k s) = dom t) as Hd'.
  { apply not_elem_of_dom in Hk. rewrite dom_delete_L, Hd, dom_insert_L. set_solver. }
  pose proof (narrower_exact _ _ Hn') as Hle.
  specialize (IH _ Hn' Hd').
  rewrite Rank_insert, (Rank_delete s k w) by done. unfold Rank_step; simpl.
  destruct (String.eqb_spec v MatchAllTag) as [->|Hv],
    (String.eqb_spec w MatchAllTag) as [->|Hw']; simpl.
  - destruct IH as [<-|]; [left|right; lia]. by rewrite insert_delete_id.
  - right. lia.
  - naive_solver.
  - destruct Hvw as [ -> | -> ]; [done|].
    destruct IH as [<-|]; [left|right; lia]. by rewrite insert_delete_id.
Qed.

(** ** Tag sets *)

Lemma addTag_lookup tags k v k' :
  addTag tags (k, v) !! k' =
    if decide (k = k') then Some (<[v := true]> (default ∅ (tags !! k))) else tags !! k'.
Proof. unfold addTag; simpl. by rewrite lookup_insert. Qed.

(** [has_tag tags k v]: value [v] is recorded under key [k]. *)
Definition has_tag (tags : MultiValueTagSet) (k v : string) : Prop :=
  ∃ vs, tags !! k = Some vs ∧ v ∈ dom vs.

Lemma addTag_has tags e k v :
  has_tag (addTag tags e) k v ↔ e = (k, v) ∨ has_tag tags k v.
Proof.
  destruct e as [ek ev]. unfold has_tag. rewrite addTag_lookup. case_decide; subst.
  - split.
    + intros (vs & [= <-] & Hv). rewrite dom_insert_L in Hv.
      destruct (tags !! k) as [vs|]; simpl in Hv; set_solver.
    + intros [[= ->]|(vs & -> & Hv)]; eexists; (split; [done|]); set_solver.
  - split; [naive_solver|]. intros [[= -> ->]|?]; [done|done].
Qed.

Lemma foldl_addTag_has es tags k v :
  has_tag (foldl addTag tags es) k v ↔ (k, v) ∈ es ∨ has_tag tags k v.
Proof.
  revert tags; induction es as [|e es IH]; intros tags; simpl; [set_solver|].
  rewrite IH, addTag_has, elem_of_cons. naive_solver.
Qed.

Lemma Values_elem t k v : v ∈ MultiValueTagSet_Values t k ↔ has_tag t k v.
Proof.
  unfold MultiValueTagSet_Values, has_tag. destruct (t !! k) as [vs|]; [|set_solver].
  unfold sort_strings. rewrite sort_by_perm. rewrite list_elem_of_fmap. split.
  - intros ([v' b] & -> & Hv%elem_of_map_to_list). exists vs. split; [done|].
    apply elem_of_dom. eauto.
  - intros (vs' & [= <-] & [b Hb]%elem_of_dom). exists (v, b). split; [done|].
    by apply elem_of_map_to_list.
Qed.

Lemma Values_sorted t k : StronglySorted String.le (MultiValueTagSet_Values t k).
Proof.
  unfold MultiValueTagSet_Values. destruct (t !! k); [apply sort_strings_sorted|constructor].
Qed.

(** ** Properties *)

(** C8: A selector matches a set of tags exactly when every tag it names is
    present with that value, or with any value where the selector says ["*"];
    the order in which the selector's map is traversed does not change the
    answer, and the empty selector matches everything. *)
Theorem TagSelector_Matches_correct s tags :
  (TagSelector_Matches s tags = true ↔
   ∀ k v, s !! k = Some v → ∃ w, tags !! k = Some w ∧ (v = w ∨ v = MatchAllTag))
  ∧ (∀ entries, entries ≡ₚ map_to_list s →
      Matches_loop entries tags = TagSelector_Matches s tags).
Proof.
  split; [apply Matches_spec|]. intros es Hes.
  rewrite (Matches_loop_perm _ _ _ Hes). unfold TagSelector_Matches.
  destruct (Nat.eqb_spec (size s) 0) as [Hs|]; [|done].
  apply map_size_empty_inv in Hs as ->. done.
Qed.

(** Ranks respect specificity: a selector that is strictly narrower than
    another (it constrains at least the same keys and keeps its exact values)
    matches no more tag sets and has a strictly greater rank. *)
Theorem Rank_specificity s t :
  narrower s t → s ≠ t →
  0 < CompareTo (TagSelector_Rank s) (TagSelector_Rank t)
  ∧ (∀ tags, TagSelector_Matches s tags = true → TagSelector_Matches t tags = true).
Proof.
  intros Hn Hne. split; [|intros tags; by apply narrower_matches].
  rewrite CompareTo_pos, !Rank_total.
  pose proof (narrower_size _ _ Hn). destruct (decide (size t = size s)) as [Hsz|].
  - assert (dom s = dom t) as Hd.
    { symmetry. apply set_subseteq_size_eq; [by apply narrower_dom|]. rewrite !size_dom. lia. }
    destruct (narrower_same_dom _ _ Hn Hd); [done|]. right. lia.
  - left. lia.
Qed.

Lemma Rank_specificity_witness :
  let s : tag_map := <["version" := "1"]> (MatchService "web") in
  let t : tag_map := MatchAnyService in
  0 < CompareTo (TagSelector_Rank s) (TagSelector_Rank t).
Proof.
  refine (proj1 (Rank_specificity (<["version" := "1"]> (MatchService "web"))
    MatchAnyService _ _)).
  - intros k v. unfold MatchAnyService, MatchService. rewrite lookup_singleton_Some.
    intros [<- <-]. exists "web". split; [reflexivity|by left].
  - map_ne "version".
Defined.
