(* ===== verification/Dataplane.v ===== *)
(** * Dataplane: networking data, interface text format, tags

    Models the rest of [api/mesh/v1alpha1/dataplane_helpers.go] (the
    [Dataplane] messages of [dataplane.proto], the inbound/outbound interface
    parsers and printers, [GetInboundInterfaces] and friends, tag matching),
    [pkg/core/resources/model/resource.go] and
    [pkg/core/resources/apis/mesh/dataplane_helpers.go].

    A nilable message pointer is an [option]; the elements of a repeated
    message field are never nil (protobuf refuses to marshal them).  [uint32]
    fields are [Z]; they are only copied and compared here. *)

From S2P Require Import Prelude GoStd Tags.
Local Open Scope Z_scope.

(** ** pkg/core/resources/model *)

Record ResourceKey : Type := mkKey { key_Mesh : string; key_Name : string }.

#[global] Instance ResourceKey_eq_dec : EqDecision ResourceKey.
Proof. solve_decision. Defined.
#[global] Program Instance ResourceKey_countable : Countable ResourceKey :=
  inj_countable' (λ k, (key_Mesh k, key_Name k)) (λ p, mkKey p.1 p.2) _.
Next Obligation. by intros []. Qed.

(** What the [ResourceMeta] interface lets its users observe; [time.Time] is
    an instant in nanoseconds. *)
Record ResourceMeta : Type := mkResourceMeta {
  GetName : string;
  GetMesh : string;
  GetVersion : string;
  GetCreationTime : Z;
  GetModificationTime : Z;
  GetNameExtensions : gmap string string;
}.
(** [ResourceNameExtensionsUnsupported] is the nil map. *)
Abbreviation mkMeta name mesh version created modified := (mkResourceMeta name mesh version created modified ∅).

#[global] Instance ResourceMeta_eq_dec : EqDecision ResourceMeta.
Proof. solve_decision. Defined.

Definition MetaToResourceKey (meta : option ResourceMeta) : ResourceKey :=
  match meta with
  | None => mkKey "" ""
  | Some m => {| key_Mesh := GetMesh m; key_Name := GetName m |}
  end.

Definition time_After (t u : Z) : bool := u <? t.

(** ** Messages *)

Record Inbound : Type := mkInbound {
  in_Interface : string;
  in_Port : Z;
  in_ServicePort : Z;
  in_Address : string;
  in_Tags : tag_map;
}.

Record Outbound : Type := mkOutbound {
  out_Interface : string;
  out_Address : string;
  out_Port : Z;
  out_Service : string;
}.

Record Gateway : Type := mkGateway { gw_Tags : tag_map }.

(** [net_TransparentProxying] is the redirect port of the section, when it is
    present. *)
Record Networking : Type := mkNetworkingTP {
  net_Address : string;
  net_Inbound : list Inbound;
  net_Outbound : list Outbound;
  net_Gateway : option Gateway;
  net_TransparentProxying : option Z;
}.
(** A networking section without transparent proxying. *)
Abbreviation mkNetworking address inbound outbound gateway := (mkNetworkingTP address inbound outbound gateway None).

Record Prometheus : Type := mkPrometheus { prom_Port : Z; prom_Path : string }.
Record Metrics : Type := mkMetrics { met_Prometheus : option Prometheus }.
#[global] Instance Prometheus_eq_dec : EqDecision Prometheus.
Proof. solve_decision. Defined.
#[global] Instance Metrics_eq_dec : EqDecision Metrics.
Proof. solve_decision. Defined.

Record Dataplane : Type := mkDataplane {
  dp_Networking : option Networking;
  dp_Metrics : option Metrics;
}.
#[global] Instance Inbound_eq_dec : EqDecision Inbound.
Proof. solve_decision. Defined.
#[global] Instance Outbound_eq_dec : EqDecision Outbound.
Proof. solve_decision. Defined.
#[global] Instance Gateway_eq_dec : EqDecision Gateway.
Proof. solve_decision. Defined.
#[global] Instance Networking_eq_dec : EqDecision Networking.
Proof. solve_decision. Defined.
#[global] Instance Dataplane_eq_dec : EqDecision Dataplane.
Proof. solve_decision. Defined.

(** A resource held by the control plane: its metadata and its message. *)
Record Resource (S : Type) : Type := mkResource {
  r_Meta : ResourceMeta;
  r_Spec : S;
}.
Arguments mkResource {S} _ _.
Arguments r_Meta {S} _.
Arguments r_Spec {S} _.

Abbreviation DataplaneResource := (Resource Dataplane).

(** The generated getters return the zero value on a nil receiver. *)
Definition GetInbound (n : option Networking) : list Inbound :=
  match n with Some n => net_Inbound n | None => [] end.
Definition GetOutbound (n : option Networking) : list Outbound :=
  match n with Some n => net_Outbound n | None => [] end.
Definition GetGateway (n : option Networking) : option Gateway :=
  n ≫= net_Gateway.
Definition GetRedirectPort (n : option Networking) : Z := default 0 (n ≫= net_TransparentProxying).

(** ** Service tag values *)

Definition ServiceTagValue_HasPort (v : string) : bool := is_ok (split_host_port v).

Definition ServiceTagValue_HostAndPort (v : string) : res (string * Z) :=
  let? (host, port) := split_host_port v in
  let? num := parse_uint 32 port in
  Ok (host, num).

(** ** Interfaces *)

Record InboundInterface : Type := mkInboundInterface {
  ii_DataplaneIP : string;
  ii_DataplanePort : Z;
  ii_WorkloadPort : Z;
}.

Record OutboundInterface : Type := mkOutboundInterface {
  oi_DataplaneIP : string;
  oi_DataplanePort : Z;
}.

#[global] Instance InboundInterface_eq_dec : EqDecision InboundInterface.
Proof. solve_decision. Defined.
#[global] Program Instance InboundInterface_countable : Countable InboundInterface :=
  inj_countable' (λ i, (ii_DataplaneIP i, ii_DataplanePort i, ii_WorkloadPort i))
    (λ p, mkInboundInterface p.1.1 p.1.2 p.2) _.
Next Obligation. by intros []. Qed.
#[global] Instance OutboundInterface_eq_dec : EqDecision OutboundInterface.
Proof. solve_decision. Defined.

Definition InboundInterface_String (i : InboundInterface) : string :=
  ii_DataplaneIP i +:+ ":" +:+ format_uint (ii_DataplanePort i)
    +:+ ":" +:+ format_uint (ii_WorkloadPort i).

Definition OutboundInterface_String (i : OutboundInterface) : string :=
  oi_DataplaneIP i +:+ ":" +:+ format_uint (oi_DataplanePort i).

Definition inboundInterfaceBNF : string :=
  "( IPv4 | '[' IPv6 ']' ) ':' DATAPLANE_PORT ':' WORKLOAD_PORT".
Definition outboundInterfaceBNF : string :=
  "[ IPv4 | '[' IPv6 ']' ] ':' DATAPLANE_PORT".

Definition ParsePort (text : string) : res Z :=
  match parse_uint 32 text with
  | Err err => Err (Wrapf err "%q is not a valid port number" [AStr text])
  | Panic => Panic
  | Ok port =>
      if (port <? 1) || (65535 <? port)
      then Err (Errorf "port number must be in the range [1, 65535] but got %d" [AInt port])
      else Ok port
  end.

Definition ParseIP (text : string) : res string :=
  match parse_ip text with
  | None => Err (Errorf "%q is not a valid IP address" [AStr text])
  | Some _ => Ok text
  end.

Definition invalidFormat (bnf text : string) : goerror :=
  Errorf "invalid format: expected %q, got %q" [AStr bnf; AStr text].

Definition ParseInboundInterface (text : string) : res InboundInterface :=
  match last_index ":" text with
  | None => Err (invalidFormat inboundInterfaceBNF text)
  | Some wpInd =>
      match last_index ":" (stake wpInd text) with
      | None => Err (invalidFormat inboundInterfaceBNF text)
      | Some _ =>
          let? (host, port) :=
            map_err (λ _, invalidFormat inboundInterfaceBNF text)
              (split_host_port (stake wpInd text)) in
          let? dataplaneIP :=
            map_err (λ e, Wrapf e "invalid DATAPLANE_IP in %q" [AStr text]) (ParseIP host) in
          let? dataplanePort :=
            map_err (λ e, Wrapf e "invalid DATAPLANE_PORT in %q" [AStr text]) (ParsePort port) in
          let? workloadPort :=
            map_err (λ e, Wrapf e "invalid WORKLOAD_PORT in %q" [AStr text])
              (ParsePort (sdrop (S wpInd) text)) in
          Ok (mkInboundInterface dataplaneIP dataplanePort workloadPort)
      end
  end.

Definition ParseOutboundInterface (text : string) : res OutboundInterface :=
  match last_index ":" text with
  | None => Err (invalidFormat outboundInterfaceBNF text)
  | Some wpInd =>
      let? (dataplaneIP, port) :=
        if Nat.eqb wpInd 0 then Ok ("127.0.0.1", sdrop (S wpInd) text)
        else
          let? (ip, port) :=
            map_err (λ _, invalidFormat outboundInterfaceBNF text) (split_host_port text) in
          let? ip' :=
            map_err (λ e, Wrapf e "invalid DATAPLANE_IP in %q" [AStr text]) (ParseIP ip) in
          Ok (ip', port) in
      let? dataplanePort :=
        map_err (λ e, Wrapf e "invalid DATAPLANE_PORT in %q" [AStr text]) (ParsePort port) in
      Ok (mkOutboundInterface dataplaneIP dataplanePort)
  end.

(** ** Networking *)

(** The body of the loop of [GetOutboundInterfaces]. *)
Definition outboundInterfaceOf (outbound : Outbound) : res OutboundInterface :=
  if negb (String.eqb (out_Interface outbound) "") (* legacy format *)
  then ParseOutboundInterface (out_Interface outbound)
  else Ok {| oi_DataplanePort := out_Port outbound;
             oi_DataplaneIP :=
               if negb (String.eqb (out_Address outbound) "")
               then out_Address outbound else "127.0.0.1" |}.

Definition GetOutboundInterfaces (n : option Networking) : res (list OutboundInterface) :=
  match n with
  | None => Ok []
  | Some n => rmapM outboundInterfaceOf (net_Outbound n)
  end.

Definition GetInboundInterfaceByIdx (n : option Networking) (idx : nat) : res InboundInterface :=
  match n with
  | None => Panic
  | Some n =>
      match net_Inbound n !! idx with
      | None =>
          Err (Errorf "there is no inbound for index %d. Dataplane has %d inbounds"
                 [AInt (Z.of_nat idx); AInt (Z.of_nat (length (net_Inbound n)))])
      | Some inbound =>
          if negb (String.eqb (in_Interface inbound) "")
          then ParseInboundInterface (in_Interface inbound)
          else Ok {| ii_DataplanePort := in_Port inbound;
                     ii_DataplaneIP :=
                       if negb (String.eqb (in_Address inbound) "")
                       then in_Address inbound else net_Address n;
                     ii_WorkloadPort :=
                       if negb (in_ServicePort inbound =? 0)
                       then in_ServicePort inbound else in_Port inbound |}
      end
  end.

Definition GetInboundInterfaces (n : option Networking) : res (list InboundInterface) :=
  match n with
  | None => Ok []
  | Some nw => rmapM (GetInboundInterfaceByIdx n) (seq 0 (length (net_Inbound nw)))
  end.

(** [inbound.GetService()]. *)
Definition Inbound_GetService (inbound : Inbound) : string :=
  default "" (in_Tags inbound !! ServiceTag).
Definition Inbound_GetProtocol (inbound : Inbound) : string :=
  default "" (in_Tags inbound !! ProtocolTag).

(** The loop of [GetInboundInterface]: the first inbound of the service. *)
Fixpoint GetInboundInterface_loop (n : option Networking) (service : string)
    (i : nat) (inbounds : list Inbound) : res InboundInterface :=
  match inbounds with
  | [] => Err (Errorf "Dataplane has no Inbound Interface for service %q" [AStr service])
  | inbound :: rest =>
      if negb (String.eqb (Inbound_GetService inbound) service)
      then GetInboundInterface_loop n service (S i) rest
      else GetInboundInterfaceByIdx n i
  end.

Definition GetInboundInterface (n : option Networking) (service : string) : res InboundInterface :=
  match n with
  | None => Panic
  | Some nw => GetInboundInterface_loop n service 0 (net_Inbound nw)
  end.

(** ** Matching *)

Definition Gateway_MatchTags (d : Gateway) (selector : tag_map) : bool :=
  TagSelector_Matches selector (gw_Tags d).
Definition Inbound_MatchTags (d : Inbound) (selector : tag_map) : bool :=
  TagSelector_Matches selector (in_Tags d).
Definition Outbound_MatchTags (d : Outbound) (selector : tag_map) : bool :=
  let service := default "" (selector !! ServiceTag) in
  String.eqb service MatchAllTag || String.eqb service (out_Service d).

Definition Dataplane_MatchTags (d : Dataplane) (selector : tag_map) : bool :=
  existsb (λ inbound, Inbound_MatchTags inbound selector) (GetInbound (dp_Networking d))
  || match GetGateway (dp_Networking d) with
     | Some g => Gateway_MatchTags g selector
     | None => false
     end.

(** [Matches] on a possibly nil receiver. *)
Definition Dataplane_Matches (d : option Dataplane) (selector : tag_map) : bool :=
  match d with Some d => Dataplane_MatchTags d selector | None => false end.

(** ** Tags of a dataplane *)

Definition Dataplane_Tags (d : Dataplane) : MultiValueTagSet :=
  let tags := foldl (λ tags inbound, foldl addTag tags (map_to_list (in_Tags inbound))) ∅
                (GetInbound (dp_Networking d)) in
  foldl addTag tags
    (map_to_list (match GetGateway (dp_Networking d) with Some g => gw_Tags g | None => ∅ end)).

Definition GetIdentifyingService (d : Dataplane) : string :=
  match MultiValueTagSet_Values (Dataplane_Tags d) ServiceTag with
  | s :: _ => s
  | [] => ServiceUnknown
  end.

(** ** pkg/core/resources/apis/mesh/dataplane_helpers.go *)

Inductive Protocol : Type := ProtocolUnknown | ProtocolTCP | ProtocolHTTP.

Definition ParseProtocol (tag : string) : Protocol :=
  let t := to_lower tag in
  if String.eqb t "http" then ProtocolHTTP
  else if String.eqb t "tcp" then ProtocolTCP
  else ProtocolUnknown.

Definition PassThroughService : string := "pass_through".

Definition ipv4loopback : IP := ipv4 127 0 0 1.

Definition overlap (address1 address2 : option IP) : bool :=
  if ip_is_unspecified address1 || ip_is_unspecified address2 then true
  else ip_equal address1 address2.

Definition UsesInboundInterface (d : option DataplaneResource) (address : option IP) (port : Z)
  : bool :=
  match d with
  | None => false
  | Some d =>
      match GetInboundInterfaces (dp_Networking (r_Spec d)) with
      | Ok ifaces =>
          existsb (λ iface,
            ((port =? ii_DataplanePort iface) && overlap address (parse_ip (ii_DataplaneIP iface)))
            || ((port =? ii_WorkloadPort iface) && overlap address (Some ipv4loopback))) ifaces
      | _ => false
      end
  end.

Definition UsesOutboundInterface (d : option DataplaneResource) (address : option IP) (port : Z)
  : bool :=
  match d with
  | None => false
  | Some d =>
      match GetOutboundInterfaces (dp_Networking (r_Spec d)) with
      | Ok ofaces =>
          existsb (λ oface,
            (port =? oi_DataplanePort oface) && overlap address (parse_ip (oi_DataplaneIP oface)))
            ofaces
      | _ => false
      end
  end.

Definition UsesInterface (d : option DataplaneResource) (address : option IP) (port : Z) : bool :=
  UsesInboundInterface d address port || UsesOutboundInterface d address port.

(** [GetIP] dereferences [Networking] without a nil check. *)
Definition GetIP (d : option DataplaneResource) : res string :=
  match d with
  | None => Ok ""
  | Some d =>
      match dp_Networking (r_Spec d) with
      | None => Panic
      | Some n =>
          if negb (String.eqb (net_Address n) "") then Ok (net_Address n)
          else match net_Inbound n with
               | [] => Ok ""
               | _ =>
                   match GetInboundInterfaceByIdx (Some n) 0 with
                   | Ok iface => Ok (ii_DataplaneIP iface)
                   | Err _ => Ok ""
                   | Panic => Panic
                   end
               end
      end
  end.

(** ** Lemmas *)

Definition valid_port (p : Z) : Prop := 1 ≤ p ≤ 65535.

Lemma ParsePort_Ok text p : ParsePort text = Ok p → valid_port p.
Proof.
  unfold ParsePort, valid_port. destruct (parse_uint 32 text); try done.
  destruct ((a <? 1) || (65535 <? a)) eqn:E; [done|]. intros [= <-]. bool_prop. lia.
Qed.

Lemma ParsePort_format p : valid_port p → ParsePort (format_uint p) = Ok p.
Proof.
  unfold ParsePort, valid_port. intros Hp.
  rewrite parse_format_uint by (simpl; lia).
  destruct ((p <? 1) || (65535 <? p)) eqn:E; [|done].
  apply orb_true_iff in E as [E|E]; bool_prop; lia.
Qed.

Lemma ParsePort_no_panic text : ParsePort text ≠ Panic.
Proof.
  unfold ParsePort. destruct (parse_uint 32 text) eqn:E; [by destruct (_ || _)|done|].
  exfalso. revert E. unfold parse_uint. destruct text; [done|].
  generalize 0 as n, (String a text) at 1 as s0.
  generalize (String a text) as s. induction s as [|c s IH]; intros n s0; simpl; [done|].
  destruct (digit_val c); [|done]. destruct (_ <? _); [done|]. apply IH.
Qed.

Lemma ParseIP_Ok text ip : ParseIP text = Ok ip ↔ ip = text ∧ is_Some (parse_ip text).
Proof. unfold ParseIP. destruct (parse_ip text); split; naive_solver. Qed.

Lemma port_text_plain c p :
  0 ≤ p → digit_val c = None → has_byte c (format_uint p) = false.
Proof. intros. apply all_digits_no_byte; [done|]. by apply format_uint_digits. Qed.

(** A valid address without a colon has neither colons nor brackets. *)
Lemma ip_text_plain c ip :
  has_byte ":" ip = false → is_Some (parse_ip ip) → ipv4_byte c = false → has_byte c ip = false.
Proof.
  intros Hc [a Ha] Hb. eapply all_bytes_no_byte; [done|].
  eapply parse_ipv4_bytes. by apply parse_ip_no_colon.
Qed.

Lemma map_err_Ok {A} f (m : res A) a : map_err f m = Ok a ↔ m = Ok a.
Proof. by destruct m. Qed.

Lemma Matches_Dataplane d selector :
  Dataplane_MatchTags d selector = true ↔
  (∃ inbound, inbound ∈ GetInbound (dp_Networking d) ∧ Inbound_MatchTags inbound selector = true)
  ∨ (∃ g, GetGateway (dp_Networking d) = Some g ∧ Gateway_MatchTags g selector = true).
Proof.
  unfold Dataplane_MatchTags. rewrite orb_true_iff, existsb_exists.
  setoid_rewrite <- list_elem_of_In. destruct (GetGateway _) as [g|]; naive_solver.
Qed.

Lemma foldl_inbounds_has (l : list Inbound) tags k v :
  has_tag (foldl (λ tags inbound, foldl addTag tags (map_to_list (in_Tags inbound))) tags l) k v
  ↔ (∃ inbound, inbound ∈ l ∧ in_Tags inbound !! k = Some v) ∨ has_tag tags k v.
Proof.
  revert tags; induction l as [|i l IH]; intros tags; simpl; [set_solver|].
  rewrite IH, foldl_addTag_has, elem_of_map_to_list. setoid_rewrite elem_of_cons. naive_solver.
Qed.

Lemma has_tag_empty k v : ¬ has_tag ∅ k v.
Proof. intros (vs & H & _). by rewrite lookup_empty in H. Qed.

Lemma Dataplane_Tags_has d k v :
  has_tag (Dataplane_Tags d) k v ↔
  (∃ inbound, inbound ∈ GetInbound (dp_Networking d) ∧ in_Tags inbound !! k = Some v)
  ∨ (∃ g, GetGateway (dp_Networking d) = Some g ∧ gw_Tags g !! k = Some v).
Proof.
  unfold Dataplane_Tags. rewrite foldl_addTag_has, foldl_inbounds_has, elem_of_map_to_list.
  pose proof (has_tag_empty k v).
  destruct (GetGateway _) as [g|]; simpl; [naive_solver|]. rewrite lookup_empty. naive_solver.
Qed.

Lemma GetInboundInterfaces_lookup n ifaces i :
  GetInboundInterfaces (Some n) = Ok ifaces →
  length ifaces = length (net_Inbound n) ∧
  (∀ iface, ifaces !! i = Some iface → GetInboundInterfaceByIdx (Some n) i = Ok iface).
Proof.
  unfold GetInboundInterfaces. intros H. split.
  { apply rmapM_length in H. by rewrite length_seq in H. }
  intros iface Hi. apply rmapM_Ok in H.
  destruct (Forall2_lookup_r _ _ _ _ _ H Hi) as (j & Hj & HH).
  apply lookup_seq in Hj as [-> _]. done.
Qed.

Lemma ParseInboundInterface_Ok text i :
  ParseInboundInterface text = Ok i →
  is_Some (parse_ip (ii_DataplaneIP i))
  ∧ valid_port (ii_DataplanePort i) ∧ valid_port (ii_WorkloadPort i).
Proof.
  unfold ParseInboundInterface. destruct (last_index ":" text) as [w|]; [|done].
  destruct (last_index _ (stake w text)); [|done].
  rewrite rbind_Ok. intros ([host port] & _ & H). revert H.
  rewrite rbind_Ok. intros (ip & Hip%map_err_Ok & H). revert H.
  rewrite rbind_Ok. intros (dp & Hdp%map_err_Ok%ParsePort_Ok & H). revert H.
  rewrite rbind_Ok. intros (wp & Hwp%map_err_Ok%ParsePort_Ok & [= <-]).
  apply ParseIP_Ok in Hip as [-> ?]. done.
Qed.

Lemma ParseOutboundInterface_Ok text o :
  ParseOutboundInterface text = Ok o →
  valid_port (oi_DataplanePort o) ∧ is_Some (parse_ip (oi_DataplaneIP o)).
Proof.
  unfold ParseOutboundInterface. destruct (last_index ":" text) as [w|]; [|done].
  rewrite rbind_Ok. intros ([ip port] & Hip & H). revert H.
  rewrite rbind_Ok. intros (dp & Hdp%map_err_Ok%ParsePort_Ok & [= <-]). split; [done|]. simpl.
  destruct (Nat.eqb w 0); [simplify_eq; vm_compute; eauto|]. revert Hip.
  rewrite rbind_Ok. intros ([ip0 port0] & _ & H). revert H.
  rewrite rbind_Ok. intros (ip' & Hip'%map_err_Ok & [= <- <-]).
  by apply ParseIP_Ok in Hip' as [-> ?].
Qed.

Lemma GetInboundInterfaces_length n ifaces :
  GetInboundInterfaces n = Ok ifaces → length ifaces = length (GetInbound n).
Proof.
  destruct n as [n|]; simpl; [|by intros [= <-]].
  intros Hi. by apply (GetInboundInterfaces_lookup _ _ 0%nat) in Hi as [? _].
Qed.

Lemma split_host_port_no_panic s : split_host_port s ≠ Panic.
Proof. unfold split_host_port. repeat split_match; done. Qed.

Lemma ParseInboundInterface_no_panic text : ParseInboundInterface text ≠ Panic.
Proof.
  unfold ParseInboundInterface. destruct (last_index ":" text) as [w|]; [|done].
  destruct (last_index _ (stake w text)); [|done].
  pose proof (split_host_port_no_panic (stake w text)).
  destruct (split_host_port (stake w text)) as [[host port]|e|]; simpl; [|done|done].
  unfold ParseIP. destruct (parse_ip host); simpl; [|done].
  pose proof (ParsePort_no_panic port). pose proof (ParsePort_no_panic (sdrop (S w) text)).
  destruct (ParsePort port); simpl; [|done..]. by destruct (ParsePort (sdrop _ _)).
Qed.

Lemma rmapM_no_panic {A B} (f : A → res B) l :
  (∀ x, x ∈ l → f x ≠ Panic) → rmapM f l ≠ Panic.
Proof.
  induction l as [|x l IH]; intros Hf; simpl; [done|].
  pose proof (Hf x ltac:(set_solver)). destruct (f x); simpl; [|done..].
  assert (rmapM f l ≠ Panic) by (apply IH; set_solver). by destruct (rmapM f l).
Qed.

Lemma GetInboundInterfaceByIdx_no_panic n i : GetInboundInterfaceByIdx (Some n) i ≠ Panic.
Proof.
  simpl. destruct (net_Inbound n !! i) as [inb|]; [|done].
  destruct (negb (String.eqb (in_Interface inb) "")); [|done].
  apply ParseInboundInterface_no_panic.
Qed.

Lemma GetInboundInterfaces_no_panic n : GetInboundInterfaces n ≠ Panic.
Proof.
  destruct n as [n|]; simpl; [|done]. apply rmapM_no_panic.
  intros i _. apply GetInboundInterfaceByIdx_no_panic.
Qed.

(** ** Properties *)

(** Printing an inbound interface and parsing it back gives the same
    interface, for every IPv4 address and every pair of ports in range. *)
Theorem InboundInterface_roundtrip i :
  has_byte ":" (ii_DataplaneIP i) = false →
  is_Some (parse_ip (ii_DataplaneIP i)) →
  valid_port (ii_DataplanePort i) → valid_port (ii_WorkloadPort i) →
  ParseInboundInterface (InboundInterface_String i) = Ok i.
Proof.
  destruct i as [ip dp wp]; simpl. intros Hc Hip Hdp Hwp.
  unfold ParseInboundInterface, InboundInterface_String; simpl.
  pose proof (ip_text_plain "[" ip Hc Hip eq_refl) as Hlb.
  pose proof (ip_text_plain "]" ip Hc Hip eq_refl) as Hrb.
  assert (∀ c p, valid_port p → digit_val c = None → has_byte c (format_uint p) = false) as Hp.
  { intros c p [??] ?. apply port_text_plain; [lia|done]. }
  pose proof (Hp ":"%char _ Hdp eq_refl). pose proof (Hp ":"%char _ Hwp eq_refl).
  replace (ip +:+ String ":" (format_uint dp +:+ String ":" (format_uint wp)))
    with ((ip +:+ String ":" (format_uint dp)) +:+ String ":" (format_uint wp))
    by (rewrite string_app_assoc; done).
  rewrite last_index_app, stake_app, last_index_app by done.
  rewrite sdrop_app_S, split_host_port_plain by (done || by apply Hp).
  cbn [rbind map_err]. rewrite (proj2 (ParseIP_Ok ip ip)) by done. cbn [rbind map_err].
  rewrite !ParsePort_format by done. done.
Qed.

Lemma InboundInterface_roundtrip_witness :
  ParseInboundInterface (InboundInterface_String (mkInboundInterface "192.168.0.1" 80 8080))
  = Ok (mkInboundInterface "192.168.0.1" 80 8080).
Proof.
  apply (InboundInterface_roundtrip (mkInboundInterface "192.168.0.1" 80 8080)).
  - reflexivity.
  - vm_compute. eauto.
  - unfold valid_port; simpl; lia.
  - unfold valid_port; simpl; lia.
Defined.

(** Every text that parses as an inbound interface yields a valid IP
    address and two ports in [1, 65535]; parsing never panics, and an address
    with a colon that is not in brackets (as [InboundInterface.String] prints
    IPv6) is refused with the format error. *)
Theorem ParseInboundInterface_sound text :
  ParseInboundInterface text ≠ Panic ∧
  (∀ i, ParseInboundInterface text = Ok i →
     is_Some (parse_ip (ii_DataplaneIP i))
     ∧ valid_port (ii_DataplanePort i) ∧ valid_port (ii_WorkloadPort i)) ∧
  (∀ i, text = InboundInterface_String i → 0 ≤ ii_DataplanePort i → 0 ≤ ii_WorkloadPort i →
     has_byte ":" (ii_DataplaneIP i) = true → has_byte "[" (ii_DataplaneIP i) = false →
     ParseInboundInterface text = Err (invalidFormat inboundInterfaceBNF text)).
Proof.
  split; [|split].
  - apply ParseInboundInterface_no_panic.
  - apply ParseInboundInterface_Ok.
  - intros [ip dp wp] ->; simpl. intros Hdp Hwp Hc Hb.
    unfold ParseInboundInterface, InboundInterface_String; simpl.
    replace (ip +:+ String ":" (format_uint dp +:+ String ":" (format_uint wp)))
      with ((ip +:+ String ":" (format_uint dp)) +:+ String ":" (format_uint wp))
      by (rewrite string_app_assoc; done).
    rewrite last_index_app, stake_app, last_index_app by (by apply port_text_plain).
    rewrite split_host_port_colons by (done || by apply port_text_plain). done.
Qed.

Lemma ParseInboundInterface_sound_witness :
  ParseInboundInterface "::1:80:8080" = Err (invalidFormat inboundInterfaceBNF "::1:80:8080").
Proof.
  refine (proj2 (proj2 (ParseInboundInterface_sound "::1:80:8080"))
    (mkInboundInterface "::1" 80 8080) _ _ _ _ _); simpl; (reflexivity || lia).
Defined.

(** The identifying service of a dataplane is the least (bytewise) value
    of the [service] tag over its inbounds and its gateway, and ["unknown"]
    exactly when no inbound and no gateway carries the tag. *)
Theorem GetIdentifyingService_least d :
  let carries s :=
    (∃ inbound, inbound ∈ GetInbound (dp_Networking d) ∧ in_Tags inbound !! ServiceTag = Some s)
    ∨ (∃ g, GetGateway (dp_Networking d) = Some g ∧ gw_Tags g !! ServiceTag = Some s) in
  (carries (GetIdentifyingService d) ∧ ∀ s, carries s → String.le (GetIdentifyingService d) s)
  ∨ (GetIdentifyingService d = ServiceUnknown ∧ ∀ s, ¬ carries s).
Proof.
  intros carries.
  assert (∀ s, s ∈ MultiValueTagSet_Values (Dataplane_Tags d) ServiceTag ↔ carries s) as Hc.
  { intros s. by rewrite Values_elem, Dataplane_Tags_has. }
  unfold GetIdentifyingService. pose proof (Values_sorted (Dataplane_Tags d) ServiceTag) as Hs.
  destruct (MultiValueTagSet_Values _ _) as [|v vs].
  - right. split; [done|]. intros s H%Hc. by apply not_elem_of_nil in H.
  - left. split; [apply Hc; set_solver|]. intros s [->|H]%Hc%elem_of_cons; [done|].
    apply StronglySorted_cons in Hs as [Hs _]. by eapply Forall_forall in Hs.
Qed.
