(* ===== verification/Policy.v ===== *)
(** * Policy matching

    Models [pkg/core/policy]: [SelectDataplanePolicy],
    [SelectConnectionPolicies] with its service iterators, and
    [SelectInboundConnectionPolicies].  The Go interfaces [ConnectionPolicy]
    and [DataplanePolicy] are type classes; a slice argument that
    [sort.Stable] reorders in place is returned with the result. *)

From S2P Require Import Prelude GoStd Tags Dataplane.
Local Open Scope Z_scope.

Record Selector : Type := mkSelector { Match : tag_map }.

Class ConnectionPolicy (P : Type) : Type := {
  cp_Meta : P → ResourceMeta;
  Sources : P → list Selector;
  Destinations : P → list Selector;
}.

Class DataplanePolicy (P : Type) : Type := {
  dpol_Meta : P → ResourceMeta;
  Selectors : P → list Selector;
}.

(** ** Service iterators

    A [ServiceIteratorFunc] closes over an index; [Next] is a function of the
    index that returns the service ([None] for [ok == false]) and the new
    index. *)

Definition ServiceIteratorFunc : Type := nat → option string * nat.

Definition ToOutboundServicesOf (dataplane : DataplaneResource) : ServiceIteratorFunc := λ idx,
  let outbound := GetOutbound (dp_Networking (r_Spec dataplane)) in
  if Nat.ltb (length outbound) idx then (None, idx)
  else if Nat.eqb (length outbound) idx then (Some PassThroughService, S idx)
  else match outbound !! idx with
       | Some oface => (Some (out_Service oface), S idx)
       | None => (None, idx)
       end.

Definition ToServices (services : list string) : ServiceIteratorFunc := λ idx,
  if Nat.leb (length services) idx then (None, idx)
  else match services !! idx with
       | Some service => (Some service, S idx)
       | None => (None, idx)
       end.

Definition ToServicesOf {V} (destinations : gmap string V) : ServiceIteratorFunc :=
  ToServices (map_to_list destinations).*1.

Section Connection.
Context {P : Type} `{ConnectionPolicy P}.

Definition ConnectionPolicyByName : P → P → bool := less_by (λ p, GetName (cp_Meta p)).

(** The comparison all selection loops share: higher rank first, then the
    policy created later. *)
Definition better (x y : P * TagSelectorRank) : bool :=
  (0 <? CompareTo x.2 y.2)
  || ((CompareTo x.2 y.2 =? 0)
      && time_After (GetCreationTime (cp_Meta x.1)) (GetCreationTime (cp_Meta y.1))).

(** ** SelectConnectionPolicies *)

(** The loop over [policy.Sources()]: [None] while [matches] is false, then
    the best rank of a matching source selector. *)
Definition source_step (dataplane : DataplaneResource) (best : option TagSelectorRank)
    (source : Selector) : option TagSelectorRank :=
  if Dataplane_Matches (Some (r_Spec dataplane)) (Match source) then
    let sourceRank := TagSelector_Rank (Match source) in
    match best with
    | None => Some sourceRank
    | Some r => if 0 <? CompareTo sourceRank r then Some sourceRank else Some r
    end
  else best.

Definition bestSourceRank (dataplane : DataplaneResource) (policy : P) : option TagSelectorRank :=
  foldl (source_step dataplane) None (Sources policy).

Definition candidatesBySource (dataplane : DataplaneResource) (policies : list P)
  : list (P * TagSelectorRank) :=
  omap (λ policy, (λ r, (policy, r)) <$> bestSourceRank dataplane policy) policies.

(** One destination selector of one candidate, for one service. *)
Definition destination_step (service : string) (candidate : P * TagSelectorRank)
    (m : gmap string (P * TagSelectorRank)) (destination : Selector)
  : gmap string (P * TagSelectorRank) :=
  let outboundTags : tag_map := {[ServiceTag := service]} in
  if TagSelector_Matches (Match destination) outboundTags then
    let aggregateRank := CombinedWith (TagSelector_Rank (Match destination)) candidate.2 in
    match m !! service with
    | None => <[service := (candidate.1, aggregateRank)]> m
    | Some c =>
        if (0 <? CompareTo aggregateRank c.2)
           || ((CompareTo aggregateRank c.2 =? 0)
               && time_After (GetCreationTime (cp_Meta candidate.1))
                             (GetCreationTime (cp_Meta c.1)))
        then <[service := (candidate.1, aggregateRank)]> m
        else m
    end
  else m.

Definition service_step (candidates : list (P * TagSelectorRank))
    (m : gmap string (P * TagSelectorRank)) (service : string)
  : gmap string (P * TagSelectorRank) :=
  match m !! service with
  | Some _ => m
  | None =>
      foldl (λ m candidate, foldl (destination_step service candidate) m
               (Destinations candidate.1)) m candidates
  end.

(** The [for service, ok := destinations.Next(); ok; ...] loop; [None] when
    the fuel runs out before the iterator does. *)
Fixpoint destinations_loop (fuel : nat) (next : ServiceIteratorFunc) (idx : nat)
    (candidates : list (P * TagSelectorRank)) (m : gmap string (P * TagSelectorRank))
  : option (gmap string (P * TagSelectorRank)) :=
  match fuel with
  | O => None
  | S f =>
      match next idx with
      | (None, _) => Some m
      | (Some service, idx') =>
          destinations_loop f next idx' candidates (service_step candidates m service)
      end
  end.

Definition SelectConnectionPolicies (fuel : nat) (dataplane : DataplaneResource)
    (destinations : ServiceIteratorFunc) (policies : list P)
  : option (gmap string P * list P) :=
  let policies' := stable_sort ConnectionPolicyByName policies in
  match destinations_loop fuel destinations 0 (candidatesBySource dataplane policies') ∅ with
  | None => None
  | Some m => Some (fst <$> m, policies')
  end.

(** The iterator of a dataplane yields its outbounds and the pass-through
    service, so this much fuel is enough. *)
Definition SelectOutboundConnectionPolicies (dataplane : DataplaneResource) (policies : list P)
  : option (gmap string P * list P) :=
  SelectConnectionPolicies
    (S (S (length (GetOutbound (dp_Networking (r_Spec dataplane))))))
    dataplane (ToOutboundServicesOf dataplane) policies.

(** ** SelectInboundConnectionPolicies *)

(** One destination selector of one policy against one inbound; [bestPolicy]
    is nil until a selector matched, and the tie test dereferences it. *)
Definition inbound_step (inbound : Inbound) (policy : P)
    (st : option P * TagSelectorRank) (selector : Selector) : res (option P * TagSelectorRank) :=
  if Inbound_MatchTags inbound (Match selector) then
    let rank := TagSelector_Rank (Match selector) in
    if 0 <? CompareTo rank st.2 then Ok (Some policy, rank)
    else if CompareTo rank st.2 =? 0 then
      match st.1 with
      | None => Panic
      | Some bestPolicy =>
          if time_After (GetCreationTime (cp_Meta policy)) (GetCreationTime (cp_Meta bestPolicy))
          then Ok (Some policy, rank) else Ok st
      end
    else Ok st
  else Ok st.

Definition inbound_policy (inbound : Inbound) (policies : list P)
  : res (option P * TagSelectorRank) :=
  rfoldl (λ st policy, rfoldl (inbound_step inbound policy) st (Destinations policy))
    (None, zeroRank) policies.

Fixpoint inbounds_loop (i : nat) (inbounds : list Inbound) (ifaces : list InboundInterface)
    (policies : list P) (m : gmap InboundInterface P) : res (gmap InboundInterface P) :=
  match inbounds with
  | [] => Ok m
  | inbound :: rest =>
      let? (best, _) := inbound_policy inbound policies in
      match best with
      | None => inbounds_loop (S i) rest ifaces policies m
      | Some p =>
          match ifaces !! i with
          | None => Panic
          | Some iface => inbounds_loop (S i) rest ifaces policies (<[iface := p]> m)
          end
      end
  end.

Definition SelectInboundConnectionPolicies (dataplane : DataplaneResource) (policies : list P)
  : res (gmap InboundInterface P * list P) :=
  let policies' := stable_sort ConnectionPolicyByName policies in
  let networking := dp_Networking (r_Spec dataplane) in
  let? ifaces := GetInboundInterfaces networking in
  let? m := inbounds_loop 0 (GetInbound networking) ifaces policies' ∅ in
  Ok (m, policies').
End Connection.

(** ** SelectDataplanePolicy *)

Section DataplanePolicies.
Context {P : Type} `{DataplanePolicy P}.

Definition DataplanePolicyByName : P → P → bool := less_by (λ p, GetName (dpol_Meta p)).

Definition dp_sameRankCreatedLater (bestPolicy : option P) (bestRank : TagSelectorRank)
    (policy : P) (rank : TagSelectorRank) : res bool :=
  if CompareTo rank bestRank =? 0 then
    match bestPolicy with
    | None => Panic
    | Some b => Ok (time_After (GetCreationTime (dpol_Meta policy)) (GetCreationTime (dpol_Meta b)))
    end
  else Ok false.

(** The branch for a policy or a selector that matches everything. *)
Definition match_everything (policy : P) (st : option P * TagSelectorRank)
  : res (option P * TagSelectorRank) :=
  match st.1 with
  | None => Ok (Some policy, st.2)
  | Some _ =>
      let? later := dp_sameRankCreatedLater st.1 st.2 policy zeroRank in
      Ok (if later : bool then (Some policy, st.2) else st)
  end.

Definition selector_step (dataplane : DataplaneResource) (policy : P)
    (st : option P * TagSelectorRank) (selector : Selector) : res (option P * TagSelectorRank) :=
  if Nat.eqb (size (Match selector)) 0 then match_everything policy st
  else if Dataplane_Matches (Some (r_Spec dataplane)) (Match selector) then
    let rank := TagSelector_Rank (Match selector) in
    if 0 <? CompareTo rank st.2 then Ok (Some policy, rank)
    else
      let? later := dp_sameRankCreatedLater st.1 st.2 policy rank in
      Ok (if later : bool then (Some policy, rank) else st)
  else Ok st.

Definition policy_step (dataplane : DataplaneResource)
    (st : option P * TagSelectorRank) (policy : P) : res (option P * TagSelectorRank) :=
  match Selectors policy with
  | [] => match_everything policy st
  | selectors => rfoldl (selector_step dataplane policy) st selectors
  end.

Definition SelectDataplanePolicy (dataplane : DataplaneResource) (policies : list P)
  : res (option P * list P) :=
  let policies' := stable_sort DataplanePolicyByName policies in
  let? (best, _) := rfoldl (policy_step dataplane) (None, zeroRank) policies' in
  Ok (best, policies').
End DataplanePolicies.

(** ** The shared comparison *)

Section Order.
Context {P : Type} `{ConnectionPolicy P}.

Definition ctime (p : P) : Z := GetCreationTime (cp_Meta p).

Lemma better_spec (x y : P * TagSelectorRank) :
  better x y = true ↔
  total y.2 < total x.2 ∨ (total y.2 = total x.2 ∧
    (ExactMatches y.2 < ExactMatches x.2 ∨
     (ExactMatches y.2 = ExactMatches x.2 ∧ ctime y.1 < ctime x.1))).
Proof.
  unfold better, time_After, ctime.
  rewrite orb_true_iff, andb_true_iff, Z.eqb_eq, !Z.ltb_lt, CompareTo_pos, CompareTo_zero. tauto.
Qed.

Lemma better_false (x y : P * TagSelectorRank) :
  better x y = false ↔
  total x.2 < total y.2 ∨ (total x.2 = total y.2 ∧
    (ExactMatches x.2 < ExactMatches y.2 ∨
     (ExactMatches x.2 = ExactMatches y.2 ∧ ctime x.1 ≤ ctime y.1))).
Proof. rewrite <- not_true_iff_false, better_spec. lia. Qed.

Lemma better_asym (x y : P * TagSelectorRank) : better x y = true → better y x = false.
Proof. rewrite better_spec, better_false. lia. Qed.

Lemma better_ntrans (x y z : P * TagSelectorRank) :
  better y x = false → better z y = false → better z x = false.
Proof. rewrite !better_false. lia. Qed.
End Order.

Lemma total_CombinedWith r o : total (CombinedWith r o) = total r + total o.
Proof. unfold total, CombinedWith; simpl. lia. Qed.

Lemma Exact_CombinedWith r o :
  ExactMatches (CombinedWith r o) = ExactMatches r + ExactMatches o.
Proof. done. Qed.

(** ** Iterators *)

(** From index [idx] the iterator yields exactly the services [l]. *)
Fixpoint yields (next : ServiceIteratorFunc) (idx : nat) (l : list string) : Prop :=
  match l with
  | [] => (next idx).1 = None
  | s :: l' => ∃ idx', next idx = (Some s, idx') ∧ yields next idx' l'
  end.

Definition outbound_services (dataplane : DataplaneResource) : list string :=
  (out_Service <$> GetOutbound (dp_Networking (r_Spec dataplane))) ++ [PassThroughService].

Lemma ToServices_yields l i : (i ≤ length l)%nat → yields (ToServices l) i (drop i l).
Proof.
  intros Hi. remember (length l - i)%nat as k eqn:Hk.
  revert i Hi Hk; induction k as [|k IH]; intros i Hi Hk.
  - rewrite drop_ge by lia. simpl. unfold ToServices.
    by rewrite (proj2 (Nat.leb_le _ _)) by lia.
  - destruct (lookup_lt_is_Some_2 l i ltac:(lia)) as [x Hx].
    rewrite (drop_S _ _ _ Hx). simpl. exists (S i). split; [|apply IH; lia].
    unfold ToServices. rewrite (proj2 (Nat.leb_gt _ _)) by lia. by rewrite Hx.
Qed.

Lemma ToOutboundServicesOf_yields dp i :
  let n := length (GetOutbound (dp_Networking (r_Spec dp))) in
  (i ≤ S n)%nat → yields (ToOutboundServicesOf dp) i (drop i (outbound_services dp)).
Proof.
  intros n Hi. remember (S n - i)%nat as k eqn:Hk.
  assert (length (outbound_services dp) = S n) as Hlen.
  { unfold outbound_services. rewrite length_app, length_fmap; simpl. lia. }
  revert i Hi Hk; induction k as [|k IH]; intros i Hi Hk.
  - rewrite drop_ge by lia. simpl. unfold ToOutboundServicesOf.
    by rewrite (proj2 (Nat.ltb_lt _ _)) by (fold n; lia).
  - destruct (lookup_lt_is_Some_2 (outbound_services dp) i ltac:(lia)) as [x Hx].
    rewrite (drop_S _ _ _ Hx). simpl. exists (S i). split; [|apply IH; lia].
    unfold ToOutboundServicesOf. rewrite (proj2 (Nat.ltb_ge _ _)) by (fold n; lia).
    unfold outbound_services in Hx. fold n. destruct (Nat.eqb_spec n i) as [Heq|Hne].
    + rewrite lookup_app_r in Hx by (rewrite length_fmap; fold n; lia).
      rewrite length_fmap in Hx. fold n in Hx. rewrite Heq, Nat.sub_diag in Hx. by simplify_eq/=.
    + rewrite lookup_app_l in Hx by (rewrite length_fmap; fold n; lia).
      rewrite list_lookup_fmap in Hx. destruct (_ !! i); by simplify_eq/=.
Qed.

(** ** Reference definitions of the selections *)

Section Reference.
Context {P : Type} `{ConnectionPolicy P}.

Definition outbound_tags (service : string) : tag_map := {[ServiceTag := service]}.

(** Candidates a policy contributes for a service: one per matching
    destination selector, ranked together with its best source selector. *)
Definition destination_candidates (service : string) (c : P * TagSelectorRank)
  : list (P * TagSelectorRank) :=
  Destinations c.1 ≫= λ d,
    if TagSelector_Matches (Match d) (outbound_tags service)
    then [(c.1, CombinedWith (TagSelector_Rank (Match d)) c.2)] else [].

Definition connection_candidates (dp : DataplaneResource) (service : string) (policies : list P)
  : list (P * TagSelectorRank) :=
  candidatesBySource dp policies ≫= destination_candidates service.

(** Candidates for an inbound: one per matching destination selector. *)
Definition inbound_candidates (inbound : Inbound) (policies : list P)
  : list (P * TagSelectorRank) :=
  policies ≫= λ p, Destinations p ≫= λ d,
    if Inbound_MatchTags inbound (Match d) then [(p, TagSelector_Rank (Match d))] else [].

(** [put service o m]: record the best candidate of a service, if any. *)
Definition put {V} (service : string) (o : option V) (m : gmap string V) : gmap string V :=
  match o with Some b => <[service := b]> m | None => m end.

Lemma destinations_fold service c m (b : option (P * TagSelectorRank)) :
  m !! service = None →
  foldl (destination_step service c) (put service b m) (Destinations c.1)
  = put service (foldl (step_best better) b (destination_candidates service c)) m.
Proof.
  intros Hm. unfold destination_candidates.
  apply (foldl_sim _ (λ b, put service b m)). intros b' d _.
  unfold destination_step. fold (outbound_tags service).
  destruct (TagSelector_Matches _ _); simpl; [|done].
  destruct b' as [b'|]; simpl.
  - rewrite lookup_insert_eq. unfold better; simpl.
    destruct (_ || _); simpl; [apply insert_insert_eq|done].
  - by rewrite Hm.
Qed.

Lemma service_step_spec cands m service :
  service_step cands m service =
  match m !! service with
  | Some _ => m
  | None => put service (pick_best better (cands ≫= destination_candidates service)) m
  end.
Proof.
  unfold service_step. destruct (m !! service) eqn:Hm; [done|].
  unfold pick_best. change m with (put service (@None (P * TagSelectorRank)) m) at 1.
  apply (foldl_sim _ (λ b, put service b m)). intros b c _. by apply destinations_fold.
Qed.

Lemma services_fold cands l m service :
  m !! service = None →
  foldl (service_step cands) m l !! service =
    if decide (service ∈ l)
    then pick_best better (cands ≫= destination_candidates service) else None.
Proof.
  revert m; induction l as [|s l IH]; intros m Hm.
  { simpl foldl. destruct (decide _); [set_solver|done]. }
  simpl foldl. rewrite service_step_spec.
  assert (∀ m', m' !! service = None → s ≠ service →
    foldl (service_step cands) m' l !! service =
    (if decide (service ∈ s :: l)
     then pick_best better (cands ≫= destination_candidates service) else None)) as Hskip.
  { intros m' Hm' Hne. rewrite IH by done. do 2 case_decide; set_solver. }
  destruct (decide (s = service)) as [->|Hne].
  - rewrite Hm. rewrite decide_True by set_solver.
    destruct (pick_best better _) as [b|] eqn:Hb; simpl.
    + clear IH Hm Hskip.
      assert (∀ m' b', m' !! service = Some b' →
        foldl (service_step cands) m' l !! service = Some b') as Hkeep.
      { intros m' b'. revert m'. induction l as [|s' l IH]; intros m' Hm'; simpl; [done|].
        apply IH. rewrite service_step_spec. destruct (m' !! s') eqn:Hs'; [done|].
        destruct (pick_best better (cands ≫= destination_candidates s')); simpl; [|done].
        rewrite lookup_insert_ne; [done|]. congruence. }
      apply Hkeep. apply lookup_insert_eq.
    + rewrite IH by done. by destruct (decide _).
  - apply Hskip; [|done].
    destruct (m !! s); [done|]. unfold put.
    destruct (pick_best better (cands ≫= destination_candidates s));
      [by rewrite lookup_insert_ne|done].
Qed.

Lemma destinations_loop_spec fuel next idx cands m l :
  yields next idx l → (length l < fuel)%nat →
  destinations_loop fuel next idx cands m = Some (foldl (service_step cands) m l).
Proof.
  revert fuel idx m; induction l as [|s l IH]; intros [|fuel] idx m Hy Hf; simpl in *; try lia.
  - destruct (next idx) as [[s|] i]; simpl in *; done.
  - destruct Hy as (idx' & -> & Hy). apply IH; [done|lia].
Qed.

(** Refinement of the whole function, for any iterator that yields [l]. *)
Lemma SelectConnectionPolicies_spec fuel dp next policies l :
  yields next 0 l → (length l < fuel)%nat →
  ∃ m, SelectConnectionPolicies fuel dp next policies
       = Some (m, stable_sort ConnectionPolicyByName policies)
    ∧ ∀ service, m !! service =
        if decide (service ∈ l)
        then fst <$> pick_best better (connection_candidates dp service
                       (stable_sort ConnectionPolicyByName policies))
        else None.
Proof.
  intros Hy Hf. unfold SelectConnectionPolicies.
  rewrite (destinations_loop_spec _ _ _ _ _ _ Hy Hf). eexists; split; [done|].
  intros service. rewrite lookup_fmap, services_fold by apply lookup_empty.
  by destruct (decide (service ∈ l)).
Qed.
End Reference.

(** ** What the selections choose *)

Section Semantics.
Context {P : Type} `{ConnectionPolicy P}.

Definition pname (p : P) : string := GetName (cp_Meta p).

(** Policy [p] applies to traffic from [dp] to [service] through its source
    selector [s] and its destination selector [d]. *)
Definition applies (dp : DataplaneResource) (service : string) (p : P) (s d : Selector) : Prop :=
  s ∈ Sources p ∧ Dataplane_Matches (Some (r_Spec dp)) (Match s) = true ∧
  d ∈ Destinations p ∧ TagSelector_Matches (Match d) (outbound_tags service) = true.

Definition score (s d : Selector) : TagSelectorRank :=
  CombinedWith (TagSelector_Rank (Match d)) (TagSelector_Rank (Match s)).

(** [(q, o)] does not precede [(p, r)] in the selection order: lower rank, or
    the same rank and created earlier, or both the same and not before it by
    name. *)
Definition not_preferred (q : P) (o : TagSelectorRank) (p : P) (r : TagSelectorRank) : Prop :=
  CompareTo o r < 0 ∨ (CompareTo o r = 0 ∧
    (ctime q < ctime p ∨ (ctime q = ctime p ∧ String.le (pname p) (pname q)))).

Definition rank_gt (x y : TagSelectorRank) : bool := 0 <? CompareTo x y.

Lemma bestSourceRank_pick dp p :
  bestSourceRank dp p = pick_best rank_gt
    (Sources p ≫= λ s, if Dataplane_Matches (Some (r_Spec dp)) (Match s)
                       then [TagSelector_Rank (Match s)] else []).
Proof.
  unfold bestSourceRank, pick_best.
  apply (foldl_sim (source_step dp) id (step_best rank_gt)). intros b s _. unfold source_step, id.
  destruct (Dataplane_Matches _ _); [|done]. by destruct b.
Qed.

Lemma bestSourceRank_Some dp p r :
  bestSourceRank dp p = Some r →
  (∃ s, s ∈ Sources p ∧ Dataplane_Matches (Some (r_Spec dp)) (Match s) = true
        ∧ r = TagSelector_Rank (Match s)) ∧
  (∀ s, s ∈ Sources p → Dataplane_Matches (Some (r_Spec dp)) (Match s) = true →
        CompareTo (TagSelector_Rank (Match s)) r ≤ 0).
Proof.
  rewrite bestSourceRank_pick. intros Hr.
  apply pick_best_first in Hr as (l1 & l2 & Hl & _ & Hall).
  - split.
    + assert (r ∈ l1 ++ r :: l2) as Hin by set_solver. rewrite <- Hl in Hin.
      apply list_elem_of_bind in Hin as (s & Hin & Hs). exists s.
      destruct (Dataplane_Matches _ _); set_solver.
    + intros s Hs Hm. apply Z.ltb_ge. apply Hall. apply list_elem_of_bind. exists s.
      rewrite Hm. set_solver.
  - intros x y. unfold rank_gt. rewrite Z.ltb_lt, Z.ltb_ge. rewrite CompareTo_pos.
    intros ?. apply Z.le_ngt. rewrite CompareTo_pos. lia.
  - intros x y z. unfold rank_gt. rewrite !Z.ltb_ge.
    intros H1 H2. apply Z.le_ngt in H1, H2. apply Z.le_ngt. rewrite !CompareTo_pos in *. lia.
Qed.

Lemma bestSourceRank_None dp p :
  bestSourceRank dp p = None ↔
  ∀ s, s ∈ Sources p → Dataplane_Matches (Some (r_Spec dp)) (Match s) = false.
Proof.
  rewrite bestSourceRank_pick, pick_best_None. split.
  - intros Hl s Hs. destruct (Dataplane_Matches _ _) eqn:E; [|done].
    assert (TagSelector_Rank (Match s) ∈ @nil TagSelectorRank) as Hin; [|set_solver].
    rewrite <- Hl. apply list_elem_of_bind. exists s. rewrite E. set_solver.
  - intros Hs. apply elem_of_nil_inv. intros x (s & Hx & Hin)%list_elem_of_bind.
    rewrite Hs in Hx by done. set_solver.
Qed.

Lemma elem_of_connection_candidates dp service policies p r :
  (p, r) ∈ connection_candidates dp service policies ↔
  p ∈ policies ∧ ∃ r0 d, bestSourceRank dp p = Some r0 ∧ d ∈ Destinations p
    ∧ TagSelector_Matches (Match d) (outbound_tags service) = true
    ∧ r = CombinedWith (TagSelector_Rank (Match d)) r0.
Proof.
  unfold connection_candidates, candidatesBySource, destination_candidates.
  rewrite list_elem_of_bind. split.
  - intros ([p0 r0] & (d & Hin & Hd)%list_elem_of_bind & (q & Hq & Hr)%list_elem_of_omap).
    simpl in *. apply fmap_Some in Hr as (r1 & Hr1 & [= -> ->]).
    destruct (TagSelector_Matches _ _) eqn:E; [|set_solver].
    apply list_elem_of_singleton in Hin as [= -> ->]. eauto 10.
  - intros (Hp & r0 & d & Hr0 & Hd & Hm & ->). exists (p, r0). split.
    + apply list_elem_of_bind. exists d. simpl. rewrite Hm. set_solver.
    + apply list_elem_of_omap. exists p. by rewrite Hr0.
Qed.

(** Candidates come in the order of the sorted policies. *)
Lemma candidates_sorted (R : P → P → Prop) {C} (f : C → P) (cand : P → list C) l :
  (∀ p, R p p) → (∀ p c, c ∈ cand p → f c = p) →
  StronglySorted R l → StronglySorted (λ c c', R (f c) (f c')) (l ≫= cand).
Proof.
  intros Hrefl Hf. induction 1 as [|p l Hl IH Hp]; simpl; [constructor|].
  apply StronglySorted_app_2; [| |done].
  - intros c c' Hc (q & Hc' & Hq)%list_elem_of_bind.
    rewrite (Hf _ _ Hc), (Hf _ _ Hc'). by eapply Forall_forall in Hp.
  - assert (∀ cs, (∀ c, c ∈ cs → f c = p) → StronglySorted (λ c c', R (f c) (f c')) cs) as Hcs.
    { induction cs as [|c cs IHcs]; intros Hc; constructor; [apply IHcs; set_solver|].
      apply Forall_forall. intros c' Hc'. rewrite !Hc by set_solver. apply Hrefl. }
    apply Hcs. intros c. apply Hf.
Qed.

Lemma omap_bind_fst {B C} (f : P → option B) (g : P * B → list C) l :
  omap (λ p, (λ r, (p, r)) <$> f p) l ≫= g =
  l ≫= λ p, match f p with Some r => g (p, r) | None => [] end.
Proof.
  induction l as [|p l IH]; [done|]. rewrite bind_cons, <- IH. cbn.
  by destruct (f p).
Qed.

Lemma sorted_policies (policies : list P) :
  StronglySorted (λ p q, String.le (pname p) (pname q))
    (stable_sort ConnectionPolicyByName policies).
Proof.
  pose proof (stable_sort_sorted ConnectionPolicyByName (less_by_asym _) (less_by_ntrans _)
    policies) as Hs.
  eapply StronglySorted_impl; [|exact Hs].
  intros p q. unfold not_after, ConnectionPolicyByName, less_by, String.le, pname.
  rewrite ltb_negb_leb, negb_false_iff. by intros ->.
Qed.

(** The best candidate of a list in name order precedes all the others. *)
Lemma pick_best_preferred (cands : list (P * TagSelectorRank)) p r :
  StronglySorted (λ c c', String.le (pname c.1) (pname c'.1)) cands →
  pick_best better cands = Some (p, r) →
  (p, r) ∈ cands ∧ ∀ q o, (q, o) ∈ cands → not_preferred q o p r.
Proof.
  intros Hs Hp.
  apply pick_best_first in Hp as (l1 & l2 & Hl & Hbefore & Hall);
    [|apply better_asym|apply better_ntrans].
  split; [rewrite Hl; set_solver|]. intros q o Hq.
  pose proof (proj1 (better_false _ _) (Hall _ Hq)) as Hb. simpl in Hb. unfold not_preferred.
  assert (CompareTo o r ≤ 0 ∧ (total o = total r → ExactMatches o = ExactMatches r → o = r)) as [Ho _].
  { split; [|intros; apply CompareTo_eq, CompareTo_zero; lia].
    apply Z.le_ngt. rewrite CompareTo_pos. lia. }
  destruct (decide (CompareTo o r = 0)) as [E|]; [|left; lia]. right. split; [done|].
  apply CompareTo_zero in E. destruct (decide (ctime q < ctime p)); [by left|]. right.
  split; [lia|]. rewrite Hl in Hq, Hs. apply elem_of_app in Hq as [Hq|Hq].
  - apply Hbefore in Hq. rewrite better_spec in Hq. simpl in Hq. lia.
  - apply elem_of_cons in Hq as [[= -> ->]|Hq]; [done|].
    apply StronglySorted_app_1_r, StronglySorted_cons in Hs as [Hs _].
    rewrite Forall_forall in Hs. by apply (Hs (q, o)).
Qed.
End Semantics.

Lemma CompareTo_neg r o :
  CompareTo r o < 0 ↔
  total r < total o ∨ (total r = total o ∧ ExactMatches r < ExactMatches o).
Proof. unfold CompareTo, total. destruct (Z.eqb_spec (ExactMatches r + WildcardMatches r)
  (ExactMatches o + WildcardMatches o)); lia. Qed.

Section ConnectionTheorems.
Context {P : Type} `{ConnectionPolicy P}.

Lemma not_preferred_le (q : P) o o' p r :
  CompareTo o' o ≤ 0 → not_preferred q o p r → not_preferred q o' p r.
Proof.
  unfold not_preferred. intros Ho. apply Z.le_ngt in Ho. rewrite CompareTo_pos in Ho.
  rewrite !CompareTo_neg, !CompareTo_zero.
  intros [?|[? [?|[? ?]]]].
  - left. lia.
  - destruct (decide (total o = total o' ∧ ExactMatches o = ExactMatches o')); [|left; lia].
    right. split; [lia|]. by left.
  - destruct (decide (total o = total o' ∧ ExactMatches o = ExactMatches o')); [|left; lia].
    right. split; [lia|]. by right.
Qed.

Lemma score_le s s' d :
  CompareTo (TagSelector_Rank (Match s')) (TagSelector_Rank (Match s)) ≤ 0 →
  CompareTo (score s' d) (CombinedWith (TagSelector_Rank (Match d))
    (TagSelector_Rank (Match s))) ≤ 0.
Proof.
  intros Hs. apply Z.le_ngt in Hs. apply Z.le_ngt. unfold score.
  rewrite CompareTo_pos, !total_CombinedWith, !Exact_CombinedWith.
  rewrite CompareTo_pos in Hs. lia.
Qed.

Lemma applies_candidate dp service (policies : list P) q s d :
  q ∈ policies → applies dp service q s d →
  ∃ s0, (q, score s0 d) ∈ connection_candidates dp service policies
    ∧ CompareTo (score s d) (score s0 d) ≤ 0.
Proof.
  intros Hq (Hs & Hsm & Hd & Hdm).
  destruct (bestSourceRank dp q) as [r0|] eqn:Hr0.
  - destruct (bestSourceRank_Some _ _ _ Hr0) as [(s0 & _ & _ & ->) Hmax].
    exists s0. split; [|by apply score_le, Hmax].
    apply elem_of_connection_candidates. split; [done|]. exists (TagSelector_Rank (Match s0)), d.
    done.
  - rewrite bestSourceRank_None in Hr0. by rewrite Hr0 in Hsm.
Qed.

Lemma candidate_applies dp service (policies : list P) p r :
  (p, r) ∈ connection_candidates dp service policies →
  p ∈ policies ∧ ∃ s d, applies dp service p s d ∧ r = score s d.
Proof.
  intros (Hp & r0 & d & Hr0 & Hd & Hm & ->)%elem_of_connection_candidates.
  split; [done|]. destruct (bestSourceRank_Some _ _ _ Hr0) as [(s & Hs & Hsm & ->) _].
  exists s, d. done.
Qed.

Lemma connection_candidates_sorted dp service (policies : list P) :
  StronglySorted (λ c c', String.le (pname c.1) (pname c'.1))
    (connection_candidates dp service (stable_sort ConnectionPolicyByName policies)).
Proof.
  unfold connection_candidates, candidatesBySource. rewrite omap_bind_fst.
  apply (candidates_sorted (λ p q, String.le (pname p) (pname q)) fst);
    [done| |apply sorted_policies].
  intros p c. destruct (bestSourceRank dp p) as [r|]; [|set_solver].
  unfold destination_candidates. intros (d & Hd & _)%list_elem_of_bind.
  simpl in Hd. destruct (TagSelector_Matches _ _); set_solver.
Qed.

(** What [SelectConnectionPolicies] promises for any iterator: the policy of
    a service is one that applies and is preferred over all that apply. *)
Definition most_specific (dp : DataplaneResource) (policies : list P) (services : list string)
    (m : gmap string P) : Prop :=
  ∀ service,
    (∀ p, m !! service = Some p →
       service ∈ services ∧ p ∈ policies ∧ ∃ s d, applies dp service p s d ∧
       ∀ q s' d', q ∈ policies → applies dp service q s' d' →
         not_preferred q (score s' d') p (score s d)) ∧
    (m !! service = None ↔
       service ∉ services ∨ ∀ q s d, q ∈ policies → ¬ applies dp service q s d).

Lemma SelectConnectionPolicies_most_specific fuel dp next (policies : list P) l :
  yields next 0 l → (length l < fuel)%nat →
  ∃ m, SelectConnectionPolicies fuel dp next policies
       = Some (m, stable_sort ConnectionPolicyByName policies)
    ∧ most_specific dp policies l m.
Proof.
  intros Hy Hf.
  destruct (SelectConnectionPolicies_spec fuel dp next policies l Hy Hf) as (m & Hm & Hl).
  exists m. split; [done|]. intros service. rewrite Hl. clear Hm Hl.
  set (sorted := stable_sort ConnectionPolicyByName policies).
  assert (∀ q, q ∈ sorted ↔ q ∈ policies) as Hin by (intros; apply elem_of_stable_sort).
  assert (∀ q s d, q ∈ policies → applies dp service q s d →
    ∃ s0, (q, score s0 d) ∈ connection_candidates dp service sorted
      ∧ CompareTo (score s d) (score s0 d) ≤ 0) as Hcand.
  { intros q s d Hq%Hin. by apply applies_candidate. }
  destruct (decide (service ∈ l)) as [Hs|Hs]; [|split; [done|naive_solver]].
  destruct (pick_best better _) as [[p r]|] eqn:Hb; simpl.
  - apply pick_best_preferred in Hb as [Hp Hbest]; [|apply connection_candidates_sorted].
    apply candidate_applies in Hp as (Hp & s & d & Happ & ->). split.
    + intros ? [= <-]. split; [done|]. split; [by apply Hin|]. exists s, d. split; [done|].
      intros q s' d' Hq Hq'. destruct (Hcand _ _ _ Hq Hq') as (s0 & Hc & Hle).
      by eapply not_preferred_le, Hbest.
    + split; [done|]. intros [?|Hno]; [done|]. exfalso. by eapply Hno, Happ; apply Hin.
  - apply pick_best_None in Hb. split; [done|]. split; [|done]. intros _. right.
    intros q s d Hq Hq'. destruct (Hcand _ _ _ Hq Hq') as (s0 & Hc & _).
    rewrite Hb in Hc. by apply not_elem_of_nil in Hc.
Qed.

(** C3: For every dataplane and every list of connection policies the
    outbound selection terminates and, for each outbound service and the
    implicit pass-through service, picks a policy that applies and beats every
    other applicable one: higher aggregate rank first, then the later creation
    time, then the smaller name.  A service gets no policy exactly when none
    applies. *)
Theorem SelectOutboundConnectionPolicies_best dp (policies : list P) :
  ∃ m, SelectOutboundConnectionPolicies dp policies
       = Some (m, stable_sort ConnectionPolicyByName policies)
    ∧ most_specific dp policies (outbound_services dp) m.
Proof.
  apply SelectConnectionPolicies_most_specific.
  - apply (ToOutboundServicesOf_yields dp 0). lia.
  - unfold outbound_services. rewrite length_app, length_fmap. simpl. lia.
Qed.

(** ** Inbound selection *)

(** Every destination selector of every policy names at least one tag. *)
Definition destinations_nonempty (policies : list P) : Prop :=
  ∀ p d, p ∈ policies → d ∈ Destinations p → Match d ≠ ∅.

Definition enc_best (b : option (P * TagSelectorRank)) : option P * TagSelectorRank :=
  match b with Some (p, r) => (Some p, r) | None => (None, zeroRank) end.

Lemma Rank_nonempty_pos s : s ≠ ∅ → 0 < CompareTo (TagSelector_Rank s) zeroRank.
Proof.
  intros Hs. rewrite CompareTo_pos, Rank_total. left.
  assert (size s ≠ 0%nat) by (by apply map_size_non_empty_iff).
  unfold total, zeroRank; simpl. lia.
Qed.

Lemma inbound_step_spec inbound p b d :
  Match d ≠ ∅ →
  inbound_step inbound p (enc_best b) d =
  Ok (enc_best (foldl (step_best better) b
    (if Inbound_MatchTags inbound (Match d) then [(p, TagSelector_Rank (Match d))] else []))).
Proof.
  intros Hd. unfold inbound_step. destruct (Inbound_MatchTags _ _); [|done]. simpl.
  destruct b as [[q o]|]; simpl.
  - unfold better; simpl. destruct (0 <? _); simpl; [done|].
    destruct (_ =? 0); simpl; [|done]. by destruct (time_After _ _).
  - by rewrite (proj2 (Z.ltb_lt _ _) (Rank_nonempty_pos _ Hd)).
Qed.

Lemma inbound_policy_spec inbound policies :
  destinations_nonempty policies →
  inbound_policy inbound policies
  = Ok (enc_best (pick_best better (inbound_candidates inbound policies))).
Proof.
  intros Hne. unfold inbound_policy, inbound_candidates, pick_best.
  change (@None P, zeroRank) with (enc_best None).
  apply rfoldl_sim. intros b p Hp. apply rfoldl_sim. intros b' d Hd.
  apply inbound_step_spec. by eapply Hne.
Qed.

(** Assign the best policy of each inbound to its interface. *)
Definition assign (policies : list P) (m : gmap InboundInterface P)
    (x : Inbound * InboundInterface) : gmap InboundInterface P :=
  match pick_best better (inbound_candidates x.1 policies) with
  | Some (p, _) => <[x.2 := p]> m
  | None => m
  end.

Lemma inbounds_loop_spec policies ifaces inbounds i m :
  destinations_nonempty policies → length ifaces = (i + length inbounds)%nat →
  inbounds_loop i inbounds ifaces policies m
  = Ok (foldl (assign policies) m (zip inbounds (drop i ifaces))).
Proof.
  intros Hne. revert i m; induction inbounds as [|inb rest IH]; intros i m Hlen; simpl; [done|].
  simpl in Hlen. destruct (lookup_lt_is_Some_2 ifaces i ltac:(lia)) as [iface Hi].
  rewrite inbound_policy_spec, (drop_S _ _ _ Hi) by done. simpl. unfold assign at 2; simpl.
  destruct (pick_best better _) as [[p r]|]; simpl; [rewrite Hi|]; apply IH; lia.
Qed.

Lemma assign_lookup policies m inb i iface :
  assign policies m (inb, i) !! iface =
    if decide (i = iface)
    then match pick_best better (inbound_candidates inb policies) with
         | Some (p, _) => Some p
         | None => m !! iface
         end
    else m !! iface.
Proof.
  unfold assign; simpl. destruct (pick_best better _) as [[p r]|]; [apply lookup_insert|].
  by case_decide.
Qed.

Lemma assign_fold policies l m iface :
  (∀ p, foldl (assign policies) m l !! iface = Some p →
     m !! iface = Some p ∨ ∃ inb r, (inb, iface) ∈ l ∧
       pick_best better (inbound_candidates inb policies) = Some (p, r)) ∧
  (is_Some (m !! iface) → is_Some (foldl (assign policies) m l !! iface)) ∧
  (∀ inb, (inb, iface) ∈ l → inbound_candidates inb policies ≠ [] →
     is_Some (foldl (assign policies) m l !! iface)).
Proof.
  revert m; induction l as [|[inb i] l IH]; intros m.
  { simpl. split; [by left|]. split; [done|]. intros ? H'. by apply not_elem_of_nil in H'. }
  simpl foldl. destruct (IH (assign policies m (inb, i))) as (IH1 & IH2 & IH3).
  rewrite assign_lookup in IH1, IH2. split; [|split].
  - intros p Hp. destruct (IH1 p Hp) as [Hm|(inb' & r & Hin & Hb)].
    + case_decide; subst; [|by left].
      destruct (pick_best better _) as [[p0 r0]|] eqn:Hb; [|by left]. simplify_eq/=.
      right. exists inb, r0. split; [constructor|done].
    + right. exists inb', r. split; [by constructor|done].
  - intros Hm. apply IH2. case_decide; [|done]. destruct (pick_best better _) as [[]|]; eauto.
  - intros inb' Hin Hc. apply elem_of_cons in Hin as [E|Hin]; [|by eapply IH3].
    injection E as -> ->. apply IH2. rewrite decide_True by done.
    destruct (pick_best better _) as [[]|] eqn:Hb; [eauto|]. by apply pick_best_None in Hb.
Qed.

Lemma inbound_candidates_sorted inb policies :
  StronglySorted (λ c c', String.le (pname c.1) (pname c'.1))
    (inbound_candidates inb (stable_sort ConnectionPolicyByName policies)).
Proof.
  apply (candidates_sorted (λ p q, String.le (pname p) (pname q)) fst);
    [done| |apply sorted_policies].
  intros p c (d & Hd & _)%list_elem_of_bind. destruct (Inbound_MatchTags _ _); set_solver.
Qed.

Definition inbound_applies (inb : Inbound) (p : P) (d : Selector) : Prop :=
  d ∈ Destinations p ∧ Inbound_MatchTags inb (Match d) = true.

Lemma elem_of_inbound_candidates inb policies p r :
  (p, r) ∈ inbound_candidates inb policies ↔
  p ∈ policies ∧ ∃ d, inbound_applies inb p d ∧ r = TagSelector_Rank (Match d).
Proof.
  unfold inbound_candidates, inbound_applies. rewrite list_elem_of_bind.
  setoid_rewrite list_elem_of_bind. split.
  - intros (q & (d & Hin & Hd) & Hq). destruct (Inbound_MatchTags _ _) eqn:E; set_solver.
  - intros (Hp & d & (Hd & Hm) & ->). exists p. split; [|done]. exists d. rewrite Hm. set_solver.
Qed.

(** Map [m] assigns to interfaces of the dataplane the best of [policies]:
    the policy of an interface applies to an inbound with that interface and
    beats every other that applies to it, and every inbound some policy applies
    to gets a policy. *)
Definition inbound_best (dp : DataplaneResource) (policies : list P) (ifaces : list InboundInterface)
    (m : gmap InboundInterface P) : Prop :=
  let networking := dp_Networking (r_Spec dp) in
  (∀ iface p, m !! iface = Some p →
     p ∈ policies ∧ ∃ i inb d, GetInbound networking !! i = Some inb ∧
     ifaces !! i = Some iface ∧ inbound_applies inb p d ∧
     ∀ q d', q ∈ policies → inbound_applies inb q d' →
       not_preferred q (TagSelector_Rank (Match d')) p (TagSelector_Rank (Match d))) ∧
  (∀ i inb iface q d, GetInbound networking !! i = Some inb → ifaces !! i = Some iface →
     q ∈ policies → inbound_applies inb q d → is_Some (m !! iface)).

Lemma assign_best dp policies ifaces :
  inbound_best dp policies ifaces
    (foldl (assign (stable_sort ConnectionPolicyByName policies)) ∅
       (zip (GetInbound (dp_Networking (r_Spec dp))) ifaces)).
Proof.
  set (sorted := stable_sort ConnectionPolicyByName policies).
  set (networking := dp_Networking (r_Spec dp)).
  assert (∀ q, q ∈ sorted ↔ q ∈ policies) as Hin by (intros; apply elem_of_stable_sort).
  split.
  - intros iface p Hp. apply assign_fold in Hp as [Hp|(inb & r & Hz & Hb)].
    { by rewrite lookup_empty in Hp. }
    apply pick_best_preferred in Hb as [Hp Hbest]; [|apply inbound_candidates_sorted].
    apply elem_of_inbound_candidates in Hp as (Hp%Hin & d & Hd & ->).
    apply list_elem_of_lookup in Hz as (i & Hz).
    apply lookup_zip_Some in Hz as [? ?]. split; [done|]. exists i, inb, d.
    repeat (split; [done|]). intros q d' Hq Hq'. apply Hbest.
    apply elem_of_inbound_candidates. split; [by apply Hin|eauto].
  - intros i inb iface q d Hi Hj Hq Hd.
    apply (proj2 (proj2 (assign_fold sorted (zip (GetInbound networking) ifaces) ∅ iface)) inb).
    + apply list_elem_of_lookup. exists i. by apply lookup_zip_Some.
    + intros Hc. assert ((q, TagSelector_Rank (Match d)) ∈ @nil (P * TagSelectorRank)) as Hx.
      { rewrite <- Hc. apply elem_of_inbound_candidates. split; [by apply Hin|eauto]. }
      by apply not_elem_of_nil in Hx.
Qed.

Lemma SelectInbound_selects dp (policies : list P) :
  destinations_nonempty policies →
  match GetInboundInterfaces (dp_Networking (r_Spec dp)) with
  | Err e => SelectInboundConnectionPolicies dp policies = Err e
  | Panic => False
  | Ok ifaces => SelectInboundConnectionPolicies dp policies
      = Ok (foldl (assign (stable_sort ConnectionPolicyByName policies)) ∅
              (zip (GetInbound (dp_Networking (r_Spec dp))) ifaces),
            stable_sort ConnectionPolicyByName policies)
  end.
Proof.
  intros Hne. unfold SelectInboundConnectionPolicies.
  pose proof (GetInboundInterfaces_no_panic (dp_Networking (r_Spec dp))).
  destruct (GetInboundInterfaces _) as [ifaces|e|] eqn:Hif; [|done|done]. simpl.
  rewrite inbounds_loop_spec; [done| |by apply GetInboundInterfaces_length].
  intros p d Hp. apply Hne. by apply elem_of_stable_sort in Hp.
Qed.

Lemma SelectInboundConnectionPolicies_total dp (policies : list P) :
  destinations_nonempty policies → SelectInboundConnectionPolicies dp policies ≠ Panic.
Proof.
  intros Hne%(SelectInbound_selects dp). destruct (GetInboundInterfaces _); by rewrite ?Hne.
Qed.

(** C2: When every destination selector names a tag and the inbound
    interfaces of the dataplane parse, the inbound selection does not panic
    and returns a map in which the policy of an interface applies to an inbound
    with that interface and beats every other policy that applies to it; every
    inbound some policy applies to gets a policy.  When the interfaces do not
    parse, their error is returned. *)
Theorem SelectInboundConnectionPolicies_best dp (policies : list P) :
  destinations_nonempty policies →
  match GetInboundInterfaces (dp_Networking (r_Spec dp)) with
  | Err e => SelectInboundConnectionPolicies dp policies = Err e
  | Panic => False
  | Ok ifaces =>
      ∃ m, SelectInboundConnectionPolicies dp policies
           = Ok (m, stable_sort ConnectionPolicyByName policies)
         ∧ inbound_best dp policies ifaces m
  end.
Proof.
  intros Hne%(SelectInbound_selects dp). destruct (GetInboundInterfaces _); [|done|done].
  eexists. split; [exact Hne|]. apply assign_best.
Qed.
End ConnectionTheorems.

(** ** Dataplane policies *)

Section DataplaneTheorems.
Context {P : Type} `{DataplanePolicy P}.

(** For the comparison, a dataplane policy is a connection policy without
    sources. *)
Definition as_connection : ConnectionPolicy P :=
  {| cp_Meta := dpol_Meta; Sources := λ _, []; Destinations := Selectors |}.
#[local] Existing Instance as_connection.

(** The rank a policy has on a dataplane through one of its selectors: no
    selectors, or an empty one, match everything with rank zero. *)
Definition selects (dp : DataplaneResource) (p : P) (r : TagSelectorRank) : Prop :=
  (Selectors p = [] ∧ r = zeroRank) ∨
  ∃ s, s ∈ Selectors p ∧
    ((Match s = ∅ ∧ r = zeroRank) ∨
     (Match s ≠ ∅ ∧ Dataplane_Matches (Some (r_Spec dp)) (Match s) = true
      ∧ r = TagSelector_Rank (Match s))).

Definition selector_candidates (dp : DataplaneResource) (p : P) (s : Selector)
  : list (P * TagSelectorRank) :=
  if Nat.eqb (size (Match s)) 0 then [(p, zeroRank)]
  else if Dataplane_Matches (Some (r_Spec dp)) (Match s)
  then [(p, TagSelector_Rank (Match s))] else [].

Definition dataplane_candidates (dp : DataplaneResource) (p : P) : list (P * TagSelectorRank) :=
  match Selectors p with
  | [] => [(p, zeroRank)]
  | sels => sels ≫= selector_candidates dp p
  end.

Lemma elem_of_dataplane_candidates dp p q r :
  (q, r) ∈ dataplane_candidates dp p ↔ q = p ∧ selects dp p r.
Proof.
  unfold dataplane_candidates, selects.
  assert (∀ s, (q, r) ∈ selector_candidates dp p s ↔ q = p ∧
    ((Match s = ∅ ∧ r = zeroRank) ∨
     (Match s ≠ ∅ ∧ Dataplane_Matches (Some (r_Spec dp)) (Match s) = true
      ∧ r = TagSelector_Rank (Match s)))) as Hs.
  { intros s. unfold selector_candidates. destruct (Nat.eqb_spec (size (Match s)) 0) as [E|E].
    - apply map_size_empty_inv in E. rewrite list_elem_of_singleton. naive_solver.
    - apply map_size_non_empty_iff in E.
      destruct (Dataplane_Matches _ _); rewrite ?list_elem_of_singleton, ?elem_of_nil; naive_solver. }
  destruct (Selectors p) as [|s0 ss] eqn:E.
  - rewrite list_elem_of_singleton. split; [naive_solver|].
    intros [-> [[_ ->]|(s & Hin & _)]]; [done|]. by apply not_elem_of_nil in Hin.
  - rewrite list_elem_of_bind. setoid_rewrite Hs. split; [naive_solver|].
    intros [-> [[? _]|(s & Hin & Hx)]]; [done|]. exists s. naive_solver.
Qed.

(** Ranks kept by the loop come from selectors. *)
Definition rank_inv (b : option (P * TagSelectorRank)) : Prop :=
  match b with Some (_, o) => 0 ≤ ExactMatches o ≤ total o | None => True end.

Lemma rank_inv_step b p r :
  0 ≤ ExactMatches r ≤ total r → rank_inv b → rank_inv (step_best better b (p, r)).
Proof. destruct b as [[q o]|]; simpl; [|done]. by destruct (better _ _). Qed.

Lemma match_everything_spec p b :
  rank_inv b → match_everything p (enc_best b) = Ok (enc_best (step_best better b (p, zeroRank))).
Proof.
  destruct b as [[q o]|]; simpl; [|done]. intros Ho. unfold match_everything; simpl.
  unfold dp_sameRankCreatedLater, better; simpl.
  rewrite (proj2 (Z.ltb_ge 0 (CompareTo zeroRank o))).
  2: { apply Z.le_ngt. rewrite CompareTo_pos. unfold zeroRank, total in *; simpl in *. lia. }
  simpl. destruct (Z.eqb_spec (CompareTo zeroRank o) 0) as [E|]; simpl; [|done].
  apply CompareTo_eq in E as <-. by destruct (time_After _ _).
Qed.

Lemma selector_step_spec dp p b s :
  rank_inv b →
  selector_step dp p (enc_best b) s
    = Ok (enc_best (foldl (step_best better) b (selector_candidates dp p s)))
  ∧ rank_inv (foldl (step_best better) b (selector_candidates dp p s)).
Proof.
  intros Hb. unfold selector_step, selector_candidates.
  destruct (Nat.eqb_spec (size (Match s)) 0) as [E|E].
  { simpl. split; [by apply match_everything_spec|]. by apply rank_inv_step. }
  apply map_size_non_empty_iff in E. destruct (Dataplane_Matches _ _); simpl; [|done].
  pose proof (Rank_exact_nonneg (Match s)). pose proof (Rank_total (Match s)).
  split; [|apply rank_inv_step; [lia|done]].
  destruct b as [[q o]|]; simpl.
  - unfold better, dp_sameRankCreatedLater; simpl. destruct (0 <? _); simpl; [done|].
    destruct (_ =? 0); simpl; [|done]. by destruct (time_After _ _).
  - by rewrite (proj2 (Z.ltb_lt _ _) (Rank_nonempty_pos _ E)).
Qed.

Lemma policy_step_spec dp p b :
  rank_inv b →
  policy_step dp (enc_best b) p
    = Ok (enc_best (foldl (step_best better) b (dataplane_candidates dp p)))
  ∧ rank_inv (foldl (step_best better) b (dataplane_candidates dp p)).
Proof.
  intros Hb. unfold policy_step, dataplane_candidates. destruct (Selectors p) as [|s0 ss].
  - split; [by apply match_everything_spec|]. by apply rank_inv_step.
  - apply (rfoldl_sim_inv rank_inv); [|done]. intros b' s _. apply selector_step_spec.
Qed.

Lemma SelectDataplanePolicy_eq dp (policies : list P) :
  SelectDataplanePolicy dp policies =
  Ok (fst <$> pick_best better (stable_sort DataplanePolicyByName policies ≫= dataplane_candidates dp),
      stable_sort DataplanePolicyByName policies).
Proof.
  unfold SelectDataplanePolicy. set (sorted := stable_sort DataplanePolicyByName policies).
  change (@None P, zeroRank) with (@enc_best P None).
  destruct (rfoldl_sim_inv rank_inv (policy_step dp) enc_best (step_best better)
    (dataplane_candidates dp) sorted) with (s := @None (P * TagSelectorRank)) as [-> _];
    [intros b p _; apply policy_step_spec|done|].
  fold (pick_best better (sorted ≫= dataplane_candidates dp)). by destruct (pick_best _ _) as [[p r]|].
Qed.

(** [best] is a policy of the list that selects the dataplane and that no other
    such policy is preferred to; nothing exactly when none selects it. *)
Definition preferred_policy (dp : DataplaneResource) (policies : list P) (best : option P) : Prop :=
  match best with
  | None => ∀ q o, q ∈ policies → ¬ selects dp q o
  | Some p => p ∈ policies ∧ ∃ r, selects dp p r ∧
      ∀ q o, q ∈ policies → selects dp q o → not_preferred q o p r
  end.

Lemma pick_best_policy dp (policies : list P) :
  preferred_policy dp policies
    (fst <$> pick_best better (stable_sort DataplanePolicyByName policies ≫= dataplane_candidates dp)).
Proof.
  set (sorted := stable_sort DataplanePolicyByName policies).
  assert (∀ q, q ∈ sorted ↔ q ∈ policies) as Hin by (intros; apply elem_of_stable_sort).
  assert (∀ q o, (q, o) ∈ sorted ≫= dataplane_candidates dp ↔ q ∈ policies ∧ selects dp q o) as Hc.
  { intros q o. rewrite list_elem_of_bind. setoid_rewrite elem_of_dataplane_candidates.
    setoid_rewrite Hin. naive_solver. }
  destruct (pick_best better _) as [[p r]|] eqn:Hb; simpl.
  - apply pick_best_preferred in Hb as [Hp Hbest].
    + apply Hc in Hp as [Hp Hr]. split; [done|]. exists r. split; [done|].
      intros q o Hq Ho. by apply Hbest, Hc.
    + apply (candidates_sorted (λ p q, String.le (pname p) (pname q)) fst);
        [done| |exact (sorted_policies policies)].
      intros p0 [q o] Hx. by apply elem_of_dataplane_candidates in Hx as [-> _].
  - apply pick_best_None in Hb. intros q o Hq Ho.
    assert ((q, o) ∈ @nil (P * TagSelectorRank)) as Hx by (rewrite <- Hb; by apply Hc).
    by apply not_elem_of_nil in Hx.
Qed.

(** C7: The dataplane policy selection never panics and returns a matching
    policy that beats every other matching one (more tags matched first, then
    exact values, then the later creation time, then the smaller name), or
    nothing exactly when no policy matches. *)
Theorem SelectDataplanePolicy_best dp (policies : list P) :
  ∃ best, SelectDataplanePolicy dp policies
          = Ok (best, stable_sort DataplanePolicyByName policies) ∧
  match best with
  | None => ∀ q o, q ∈ policies → ¬ selects dp q o
  | Some p => p ∈ policies ∧ ∃ r, selects dp p r ∧
      ∀ q o, q ∈ policies → selects dp q o → not_preferred q o p r
  end.
Proof.
  rewrite SelectDataplanePolicy_eq. eexists. split; [done|]. apply pick_best_policy.
Qed.
End DataplaneTheorems.

Section EmptySelector.
Context {P : Type} `{ConnectionPolicy P}.

(** A destination selector without tags matches every inbound with rank
    zero, which does not beat the rank the loop starts from, so the tie test
    dereferences the nil best policy: a single policy with such a selector
    makes the inbound selection panic on any dataplane with an inbound whose
    interfaces parse. *)
Theorem SelectInboundConnectionPolicies_empty_selector dp (p : P) ifaces :
  Destinations p = [mkSelector ∅] →
  GetInbound (dp_Networking (r_Spec dp)) ≠ [] →
  GetInboundInterfaces (dp_Networking (r_Spec dp)) = Ok ifaces →
  SelectInboundConnectionPolicies dp [p] = Panic.
Proof.
  intros Hd Hn Hi. unfold SelectInboundConnectionPolicies. rewrite Hi. simpl.
  destruct (GetInbound _) as [|inb rest]; [done|]. simpl.
  unfold inbound_policy; simpl. rewrite Hd; simpl. unfold inbound_step, Inbound_MatchTags; simpl.
  assert (TagSelector_Matches ∅ (in_Tags inb) = true) as -> by reflexivity. done.
Qed.
End EmptySelector.
