(* ===== verification/MeshResources.v ===== *)
(** * Mesh resources

    The messages of [api/mesh/v1alpha1/*.proto] and the resources of
    [pkg/core/resources/apis/mesh/*.go]: their types, the policy interfaces
    they implement and the helpers of [mesh_helpers.go] and
    [mesh_defaulter.go]. *)

From Stdlib Require Import QArith.
From S2P Require Import Prelude GoStd Tags Dataplane Policy.
Local Open Scope Z_scope.

(** ** Scalars *)

(** A [float64] as the validators see it: they only compare it with constants. *)
Inductive Double : Type := Finite (q : Q) | NaN | PosInf | NegInf.

Definition double_ltb (x y : Double) : bool :=
  match x, y with
  | NaN, _ | _, NaN => false
  | Finite p, Finite q => Qle_bool p q && negb (Qle_bool q p)
  | NegInf, NegInf | PosInf, PosInf => false
  | NegInf, _ | _, PosInf => true
  | PosInf, _ | _, NegInf => false
  end.

(** [google.protobuf.Duration]. *)
Record Duration : Type := mkDuration { seconds : Z; nanos : Z }.
#[global] Instance Duration_eq_dec : EqDecision Duration.
Proof. solve_decision. Defined.

(** ** Policies *)

Record TrafficPermission : Type := mkTrafficPermission {
  tp_Sources : list Selector;
  tp_Destinations : list Selector;
}.

Record TrafficLog : Type := mkTrafficLog {
  tl_Sources : list Selector;
  tl_Destinations : list Selector;
  tl_Conf : option string; (* conf.backend *)
}.

Record WeightedDestination : Type := mkWeightedDestination {
  wd_Weight : Z;
  wd_Destination : tag_map;
}.

Record TrafficRoute : Type := mkTrafficRoute {
  tr_Sources : list Selector;
  tr_Destinations : list Selector;
  tr_Conf : list WeightedDestination;
}.

Record HealthCheck_Active : Type := mkActive {
  ac_Interval : option Duration;
  ac_Timeout : option Duration;
  ac_UnhealthyThreshold : Z;
  ac_HealthyThreshold : Z;
}.
#[global] Instance HealthCheck_Active_eq_dec : EqDecision HealthCheck_Active.
Proof. solve_decision. Defined.

Record HealthCheck_Passive : Type := mkPassive {
  pc_UnhealthyThreshold : Z;
  pc_PenaltyInterval : option Duration;
}.
#[global] Instance HealthCheck_Passive_eq_dec : EqDecision HealthCheck_Passive.
Proof. solve_decision. Defined.

Record HealthCheck_Conf : Type := mkHealthCheckConf {
  hc_ActiveChecks : option HealthCheck_Active;
  hc_PassiveChecks : option HealthCheck_Passive;
}.

Record HealthCheck : Type := mkHealthCheck {
  hc_Sources : list Selector;
  hc_Destinations : list Selector;
  hc_Conf : option HealthCheck_Conf;
}.

Record Delay : Type := mkDelay { delay_Percentage : option Double; delay_Value : option Duration }.
(** [Abort] of the source. *)
Record FaultAbort : Type := mkAbort { abort_Percentage : option Double; abort_HttpStatus : option Z }.
Record ResponseBandwidth : Type := mkBandwidth {
  bw_Percentage : option Double; bw_Limit : option string }.

Record FaultInjection_Conf : Type := mkFaultConf {
  fi_Delay : option Delay;
  fi_Abort : option FaultAbort;
  fi_ResponseBandwidth : option ResponseBandwidth;
}.

Record FaultInjection : Type := mkFaultInjection {
  fi_Sources : list Selector;
  fi_Destinations : list Selector;
  fi_Conf : option FaultInjection_Conf;
}.

Record TrafficTrace : Type := mkTrafficTrace {
  tt_Selectors : list Selector;
  tt_Conf : option string; (* conf.backend *)
}.

Record ProxyTemplateRawResource : Type := mkRawResource {
  raw_Name : string; raw_Version : string; raw_Resource : string }.

Record ProxyTemplate : Type := mkProxyTemplate {
  pt_Selectors : list Selector;
  pt_Imports : list string;
  pt_Resources : list ProxyTemplateRawResource;
}.

(** ** Mesh *)

(** [ca_Config] is the Struct of the message, as its JSON text. *)
Record CertificateAuthorityBackend : Type := mkCaBackend {
  ca_Name : string; ca_Type : string; ca_Config : option string }.
Record Mtls : Type := mkMtls {
  mtls_EnabledBackend : string; mtls_Backends : list CertificateAuthorityBackend }.

Record Zipkin : Type := mkZipkin {
  z_Url : string; z_TraceId128bit : bool; z_ApiVersion : string }.
Record TracingBackend : Type := mkTracingBackend {
  tb_Name : string; tb_Sampling : option Double; tb_Zipkin : option Zipkin }.
Record Tracing : Type := mkTracing {
  trc_DefaultBackend : string; trc_Backends : list TracingBackend }.

Inductive LoggingBackend_Type : Type := LogFile (path : string) | LogTcp (address : string).
Record LoggingBackend : Type := mkLoggingBackend {
  lb_Name : string; lb_Format : string; lb_Type : option LoggingBackend_Type }.
Record Logging : Type := mkLogging {
  log_DefaultBackend : string; log_Backends : list LoggingBackend }.

Record Mesh : Type := mkMesh {
  mesh_Mtls : option Mtls;
  mesh_Tracing : option Tracing;
  mesh_Logging : option Logging;
  mesh_Metrics : option Metrics;
}.

(** ** Resources *)

Abbreviation MeshResource := (Resource Mesh).
Abbreviation TrafficPermissionResource := (Resource TrafficPermission).
Abbreviation TrafficLogResource := (Resource TrafficLog).
Abbreviation TrafficRouteResource := (Resource TrafficRoute).
Abbreviation HealthCheckResource := (Resource HealthCheck).
Abbreviation FaultInjectionResource := (Resource FaultInjection).
Abbreviation TrafficTraceResource := (Resource TrafficTrace).
Abbreviation ProxyTemplateResource := (Resource ProxyTemplate).

#[global] Instance TrafficPermission_policy : ConnectionPolicy TrafficPermissionResource :=
  {| cp_Meta := r_Meta; Sources := λ t, tp_Sources (r_Spec t);
     Destinations := λ t, tp_Destinations (r_Spec t) |}.
#[global] Instance TrafficLog_policy : ConnectionPolicy TrafficLogResource :=
  {| cp_Meta := r_Meta; Sources := λ t, tl_Sources (r_Spec t);
     Destinations := λ t, tl_Destinations (r_Spec t) |}.
#[global] Instance TrafficRoute_policy : ConnectionPolicy TrafficRouteResource :=
  {| cp_Meta := r_Meta; Sources := λ t, tr_Sources (r_Spec t);
     Destinations := λ t, tr_Destinations (r_Spec t) |}.
#[global] Instance HealthCheck_policy : ConnectionPolicy HealthCheckResource :=
  {| cp_Meta := r_Meta; Sources := λ t, hc_Sources (r_Spec t);
     Destinations := λ t, hc_Destinations (r_Spec t) |}.
#[global] Instance FaultInjection_policy : ConnectionPolicy FaultInjectionResource :=
  {| cp_Meta := r_Meta; Sources := λ t, fi_Sources (r_Spec t);
     Destinations := λ t, fi_Destinations (r_Spec t) |}.
#[global] Instance TrafficTrace_policy : DataplanePolicy TrafficTraceResource :=
  {| dpol_Meta := r_Meta; Selectors := λ t, tt_Selectors (r_Spec t) |}.
#[global] Instance ProxyTemplate_policy : DataplanePolicy ProxyTemplateResource :=
  {| dpol_Meta := r_Meta; Selectors := λ t, pt_Selectors (r_Spec t) |}.

(** ** mesh_helpers.go, mesh_defaulter.go *)

Definition HasPrometheusMetricsEnabled (m : option MeshResource) : bool :=
  match m with
  | Some m => match mesh_Metrics (r_Spec m) ≫= met_Prometheus with Some _ => true | None => false end
  | None => false
  end.

Definition MTLSEnabled (m : option MeshResource) : bool :=
  match m with
  | Some m => negb (String.eqb (default "" (mtls_EnabledBackend <$> mesh_Mtls (r_Spec m))) "")
  | None => false
  end.

Definition tracing_backends (m : MeshResource) : list TracingBackend :=
  default [] (trc_Backends <$> mesh_Tracing (r_Spec m)).

(** A later backend of the same name overrides an earlier one in the map. *)
Definition backends_by_name {B} (name : B → string) (l : list B) : gmap string B :=
  foldl (λ m b, <[name b := b]> m) ∅ l.

Definition GetTracingBackend (m : MeshResource) (name : string) : option TracingBackend :=
  let backends := backends_by_name tb_Name (tracing_backends m) in
  if String.eqb name "" then
    backends !! default "" (trc_DefaultBackend <$> mesh_Tracing (r_Spec m))
  else backends !! name.

Definition GetLoggingBackends (m : MeshResource) : string :=
  join ", " (lb_Name <$> default [] (log_Backends <$> mesh_Logging (r_Spec m))).

Definition GetTracingBackends (m : MeshResource) : string :=
  join ", " (tb_Name <$> tracing_backends m).

Definition GetCertificateAuthorityBackend (m : MeshResource) (name : string)
  : option CertificateAuthorityBackend :=
  List.find (λ b, String.eqb (ca_Name b) name)
    (default [] (mtls_Backends <$> mesh_Mtls (r_Spec m))).

Definition GetEnabledCertificateAuthorityBackend (m : MeshResource)
  : option CertificateAuthorityBackend :=
  GetCertificateAuthorityBackend m (default "" (mtls_EnabledBackend <$> mesh_Mtls (r_Spec m))).

(** [Default] fills the Prometheus settings in place. *)
Definition Mesh_Default (m : Mesh) : Mesh :=
  match mesh_Metrics m with
  | Some met =>
      match met_Prometheus met with
      | Some p =>
          {| mesh_Mtls := mesh_Mtls m; mesh_Tracing := mesh_Tracing m;
             mesh_Logging := mesh_Logging m;
             mesh_Metrics := Some (mkMetrics (Some
               {| prom_Port := if prom_Port p =? 0 then 5670 else prom_Port p;
                  prom_Path := if String.eqb (prom_Path p) "" then "/metrics" else prom_Path p |})) |}
      | None => m
      end
  | None => m
  end.

Lemma backends_by_name_lookup {B} (name : B → string) l k :
  (∀ b, backends_by_name name l !! k = Some b → b ∈ l ∧ name b = k) ∧
  (∀ b, b ∈ l → name b = k → is_Some (backends_by_name name l !! k)).
Proof.
  unfold backends_by_name. induction l as [|x l IH] using rev_ind.
  { split; [intros b; simpl; by rewrite lookup_empty|]. intros b Hb. by apply not_elem_of_nil in Hb. }
  rewrite foldl_app. simpl. destruct IH as [IH1 IH2]. split.
  - intros b. rewrite lookup_insert. case_decide as E; [intros [= <-]; set_solver|].
    intros [? ?]%IH1. set_solver.
  - intros b Hb Hk. rewrite lookup_insert. case_decide; [eauto|].
    apply elem_of_app in Hb as [Hb|Hb]; [by eapply IH2|]. set_solver.
Qed.

(** ** Concrete resources for the witnesses *)

Definition sample_dataplane : DataplaneResource :=
  mkResource (mkMeta "dp-1" "default" "1" 0 0)
    (mkDataplane (Some (mkNetworking "192.168.0.1"
       [mkInbound "" 80 8080 "" (<["version" := "1"]> (MatchService "web"))]
       [mkOutbound "" "" 10001 "db"] None)) None).

Definition sample_permission (name : string) (time : Z) (match_ : tag_map)
  : TrafficPermissionResource :=
  mkResource (mkMeta name "default" "1" time time)
    (mkTrafficPermission [mkSelector MatchAnyService] [mkSelector match_]).

Lemma SelectInboundConnectionPolicies_best_witness :
  ∃ m, SelectInboundConnectionPolicies sample_dataplane
         [sample_permission "a" 1 MatchAnyService; sample_permission "b" 0 (MatchService "web")]
       = Ok (m, [sample_permission "a" 1 MatchAnyService;
                 sample_permission "b" 0 (MatchService "web")]).
Proof.
  pose proof (SelectInboundConnectionPolicies_best sample_dataplane
    [sample_permission "a" 1 MatchAnyService; sample_permission "b" 0 (MatchService "web")]) as Hw.
  destruct Hw as (m & Hm & _).
  - intros p d Hp Hd. apply elem_of_cons in Hp as [->|Hp]; [|apply list_elem_of_singleton in Hp as ->];
      apply list_elem_of_singleton in Hd as ->; map_ne ServiceTag.
  - exists m. exact Hm.
Defined.

Lemma SelectInboundConnectionPolicies_empty_selector_witness :
  SelectInboundConnectionPolicies sample_dataplane [sample_permission "all" 0 ∅] = Panic.
Proof.
  apply (SelectInboundConnectionPolicies_empty_selector sample_dataplane
    (sample_permission "all" 0 ∅) [mkInboundInterface "192.168.0.1" 80 8080]).
  - reflexivity.
  - discriminate.
  - reflexivity.
Defined.
