(* ===== verification/Validators.v ===== *)
(** * Validators

    Models [pkg/core/validators/types.go] (validation errors as lists of
    violations, the path builder) and the [Validate] methods of
    [pkg/core/resources/apis/mesh]: the shared selector validators, dataplane,
    traffic permission, traffic route, traffic log, traffic trace, health
    check, fault injection and proxy template.  A validator returns the list of
    violations it adds, in the order the code adds them. *)

From Stdlib Require Import QArith.
From S2P Require Import Prelude GoStd Tags Dataplane Policy MeshResources.
Local Open Scope Z_scope.

(** ** pkg/core/validators *)

Record Violation : Type := mkViolation { v_Field : string; v_Message : string }.
#[global] Instance Violation_eq_dec : EqDecision Violation.
Proof. solve_decision. Defined.

Abbreviation ValidationError := (list Violation).

Definition PathBuilder : Type := list string.
Definition RootedAt (name : string) : PathBuilder := [name].
Definition Path_Field (p : PathBuilder) (name : string) : PathBuilder := p ++ ["." +:+ name].
Definition Path_Index (p : PathBuilder) (index : nat) : PathBuilder :=
  p ++ ["[" +:+ itoa (Z.of_nat index) +:+ "]"].
Definition Path_Key (p : PathBuilder) (key : string) : PathBuilder :=
  p ++ ["[" +:+ quote key +:+ "]"].
Definition Path_String (p : PathBuilder) : string := join "" p.

Definition HasViolations (v : ValidationError) : bool := Nat.ltb 0 (length v).
Definition OrNil (v : ValidationError) : option ValidationError :=
  if HasViolations v then Some v else None.

Definition AddViolation (v : ValidationError) (field message : string) : ValidationError :=
  v ++ [mkViolation field message].
Definition AddViolationAt (v : ValidationError) (path : PathBuilder) (message : string)
  : ValidationError :=
  AddViolation v (Path_String path) message.

Definition rooted_field (rootField field : string) : string :=
  let rootPrefix := if negb (String.eqb rootField "") then rootField +:+ "." else "" in
  if String.eqb field "" then rootField else rootPrefix +:+ field.

Definition AddError (v : ValidationError) (rootField : string) (err : ValidationError)
  : ValidationError :=
  foldl (λ v violation,
    v ++ [mkViolation (rooted_field rootField (v_Field violation)) (v_Message violation)]) v err.
Definition Add (v err : ValidationError) : ValidationError := AddError v "" err.
Definition AddErrorAt (v : ValidationError) (path : PathBuilder) (err : ValidationError)
  : ValidationError := AddError v (Path_String path) err.

(** [Error()]: the violations joined with ["; "]. *)
Definition Validation_Error (v : ValidationError) : string :=
  foldl (λ msg violation,
    if negb (String.eqb msg "")
    then msg +:+ "; " +:+ v_Field violation +:+ ": " +:+ v_Message violation
    else msg +:+ v_Field violation +:+ ": " +:+ v_Message violation) "" v.

Definition Transform (v : option ValidationError) (transformFunc : option (Violation → Violation))
  : option ValidationError :=
  match v, transformFunc with
  | None, _ => None
  | Some v, Some f => Some (f <$> v)
  | Some v, None => Some v
  end.

(** ** validators.go *)

Definition alnum (c : ascii) : bool :=
  let n := N_of_ascii c in
  ((97 <=? n) && (n <=? 122))%N || ((65 <=? n) && (n <=? 90))%N || ((48 <=? n) && (n <=? 57))%N.

Definition one_of (l : list ascii) (c : ascii) : bool := existsb (Ascii.eqb c) l.

Definition tag_char (c : ascii) : bool :=
  alnum c || one_of ["."; "-"; "_"; ":"]%char c.

(** The regular expressions are anchored at both ends. *)
Definition tagNameCharacterSet : string → bool := all_bytes tag_char.
Definition tagValueCharacterSet : string → bool := all_bytes tag_char.
Definition selectorCharacterSet (s : string) : bool := all_bytes tag_char s || String.eqb s "*".

Definition SelectorValidatorFunc : Type := PathBuilder → tag_map → ValidationError.
Definition TagKeyValidatorFunc : Type := PathBuilder → string → ValidationError.
Definition TagValueValidatorFunc : Type := PathBuilder → string → string → ValidationError.

Record ValidateSelectorOpts : Type := mkSelectorOpts {
  RequireAtLeastOneTag : bool;
  RequireService : bool;
  ExtraSelectorValidators : list SelectorValidatorFunc;
  ExtraTagKeyValidators : list TagKeyValidatorFunc;
  ExtraTagValueValidators : list TagValueValidatorFunc;
}.

Record ValidateSelectorsOpts : Type := mkSelectorsOpts {
  SelectorOpts : ValidateSelectorOpts;
  RequireAtLeastOneSelector : bool;
}.

Definition Keys (tags : tag_map) : list string := sort_strings (map_to_list tags).*1.

(** One iteration of the loop over the keys of a selector. *)
Definition ValidateSelector_key (path : PathBuilder) (selector : tag_map)
    (opts : ValidateSelectorOpts) (err : ValidationError) (key : string) : ValidationError :=
  let err := if String.eqb key "" then AddViolationAt err path "tag name must be non-empty" else err in
  let err := if negb (tagNameCharacterSet key)
    then AddViolationAt err (Path_Key path key)
           "tag name must consist of alphanumeric characters, dots, dashes and underscores"
    else err in
  let err := foldl (λ err validate, Add err (validate path key)) err (ExtraTagKeyValidators opts) in
  let value := default "" (selector !! key) in
  let err := if String.eqb value ""
    then AddViolationAt err (Path_Key path key) "tag value must be non-empty" else err in
  let err := if negb (selectorCharacterSet value)
    then AddViolationAt err (Path_Key path key)
           ("tag value must consist of alphanumeric characters, dots, dashes and underscores or be "
              +:+ quote "*")
    else err in
  foldl (λ err validate, Add err (validate path key value)) err (ExtraTagValueValidators opts).

Definition ValidateSelector (path : PathBuilder) (selector : tag_map)
    (opts : ValidateSelectorOpts) : ValidationError :=
  let err := if RequireAtLeastOneTag opts && Nat.eqb (size selector) 0
    then AddViolationAt [] path "must have at least one tag" else [] in
  let err := foldl (λ err validate, Add err (validate path selector)) err
               (ExtraSelectorValidators opts) in
  let err := foldl (ValidateSelector_key path selector opts) err (Keys selector) in
  if RequireService opts && negb (bool_decide (is_Some (selector !! ServiceTag)))
  then AddViolationAt err path ("mandatory tag " +:+ quote ServiceTag +:+ " is missing")
  else err.

Definition ValidateSelectors (path : PathBuilder) (sources : list Selector)
    (opts : ValidateSelectorsOpts) : ValidationError :=
  let err := if RequireAtLeastOneSelector opts && Nat.eqb (length sources) 0
    then AddViolationAt [] path "must have at least one element" else [] in
  foldl Add err
    (imap (λ i selector,
       ValidateSelector (Path_Field (Path_Index path i) "match") (Match selector)
         (SelectorOpts opts)) sources).

Definition OnlyServiceTagAllowed : ValidateSelectorsOpts :=
  {| RequireAtLeastOneSelector := true;
     SelectorOpts := {|
       RequireAtLeastOneTag := false;
       RequireService := true;
       ExtraSelectorValidators := [λ path selector,
         if negb (Nat.eqb (size selector) 1)
            || negb (bool_decide (is_Some (selector !! ServiceTag)))
         then AddViolationAt [] path
                ("must consist of exactly one tag " +:+ quote ServiceTag)
         else []];
       ExtraTagKeyValidators := [λ path key,
         if negb (String.eqb key ServiceTag)
         then AddViolationAt [] (Path_Key path key) ("tag " +:+ quote key +:+ " is not allowed")
         else []];
       ExtraTagValueValidators := [] |} |}.

(** The options most policies use. *)
Definition plainOpts (atLeastOneTag service : bool) : ValidateSelectorOpts :=
  mkSelectorOpts atLeastOneTag service [] [] [].

Definition ValidateThreshold (path : PathBuilder) (threshold : Z) : ValidationError :=
  if threshold =? 0 then AddViolationAt [] path "must have a positive value" else [].

Definition AllowedValuesHint (values : list string) : string :=
  "Allowed values: " +:+ (if Nat.eqb (length values) 0 then "(none)" else join ", " values).

Definition ProtocolValidator (protocols : list string) : SelectorValidatorFunc := λ path selector,
  match selector !! ProtocolTag with
  | None => AddViolationAt [] path "protocol must be specified"
  | Some v =>
      if existsb (String.eqb v) protocols then []
      else AddViolationAt [] (Path_Key path ProtocolTag)
             ("must be one of the [" +:+ join ", " protocols +:+ "]")
  end.

(** ** dataplane_validator.go *)

Definition hasLegacyInbound (n : Networking) : bool :=
  existsb (λ inbound,
    negb (String.eqb (in_Interface inbound) "") && (in_Port inbound =? 0)
    && (in_ServicePort inbound =? 0) && String.eqb (in_Address inbound) "") (net_Inbound n).

(** The loop of [validateTags] over the entries of the map. *)
Definition validateTag (result : ValidationError) (entry : string * string) : ValidationError :=
  let '(name, value) := entry in
  let path := Path_Key (RootedAt "tags") name in
  let result := if String.eqb value "" then AddViolationAt result path "tag value cannot be empty"
                else result in
  let result := if negb (tagNameCharacterSet name)
    then AddViolationAt result path
           "tag name must consist of alphanumeric characters, dots, dashes and underscores"
    else result in
  if negb (tagValueCharacterSet value)
  then AddViolationAt result path
         "tag value must consist of alphanumeric characters, dots, dashes and underscores"
  else result.

Definition validateTags (tags : tag_map) : ValidationError :=
  foldl validateTag [] (map_to_list tags).

Definition has_service (tags : tag_map) : bool := bool_decide (is_Some (tags !! ServiceTag)).

Definition iface_conflict (what : string) : string :=
  "interface cannot be defined with " +:+ what
    +:+ ". Replace it with port, servicePort and networking.address".

Definition validateInbound (inbound : Inbound) (dpAddress : string) : ValidationError :=
  let result :=
    if negb (String.eqb (in_Interface inbound) "") then
      let path := RootedAt "interface" in
      let result := if negb (in_Port inbound =? 0)
        then AddViolationAt [] path (iface_conflict "port") else [] in
      let result := if negb (in_ServicePort inbound =? 0)
        then AddViolationAt result path (iface_conflict "servicePort") else result in
      let result := if negb (String.eqb (in_Address inbound) "")
        then AddViolationAt result path (iface_conflict "address") else result in
      let result := if negb (String.eqb dpAddress "")
        then AddViolationAt result path (iface_conflict "networking.address") else result in
      if negb (is_ok (ParseInboundInterface (in_Interface inbound)))
      then AddViolation result "interface" "invalid format: expected format is DATAPLANE_IP:DATAPLANE_PORT:WORKLOAD_PORT , e.g. 192.168.0.100:9090:8080 or [2001:db8::1]:7070:6060"
      else result
    else
      let result := if (in_Port inbound <? 1) || (65535 <? in_Port inbound)
        then AddViolationAt [] (RootedAt "port") "port has to be in range of [1, 65535]" else [] in
      let result := if 65535 <? in_ServicePort inbound
        then AddViolationAt result (RootedAt "servicePort")
               "servicePort has to be in range of [0, 65535]" else result in
      if negb (String.eqb (in_Address inbound) "")
         && bool_decide (parse_ip (in_Address inbound) = None)
      then AddViolationAt result (RootedAt "address") "address has to be valid IP address"
      else result in
  let result := if negb (has_service (in_Tags inbound))
    then AddViolationAt result (Path_Key (RootedAt "tags") ServiceTag) "tag has to exist"
    else result in
  let result :=
    match in_Tags inbound !! ProtocolTag with
    | Some value =>
        match ParseProtocol value with
        | ProtocolUnknown =>
            AddViolationAt result (Path_Key (RootedAt "tags") ProtocolTag)
              ("tag " +:+ quote ProtocolTag +:+ " has an invalid value " +:+ quote value +:+ ". "
                 +:+ AllowedValuesHint ["http"; "tcp"])
        | _ => result
        end
    | None => result
    end in
  Add result (validateTags (in_Tags inbound)).

Definition validateOutbound (outbound : Outbound) : ValidationError :=
  let result :=
    if negb (String.eqb (out_Interface outbound) "") then
      let result := if negb (out_Port outbound =? 0)
        then AddViolation [] "interface"
               "interface cannot be defined with port. Replace it with port and address" else [] in
      let result := if negb (String.eqb (out_Address outbound) "")
        then AddViolation result "interface"
               "interface cannot be defined with address. Replace it with port and address"
        else result in
      if negb (is_ok (ParseOutboundInterface (out_Interface outbound)))
      then AddViolation result "interface" "invalid format: expected format is DATAPLANE_IP:DATAPLANE_PORT where DATAPLANE_IP is optional. E.g. 127.0.0.1:9090, :9090, [::1]:8080"
      else result
    else
      let result := if (out_Port outbound <? 1) || (65535 <? out_Port outbound)
        then AddViolation [] "port" "port has to be in range of [1, 65535]" else [] in
      if negb (String.eqb (out_Address outbound) "")
         && bool_decide (parse_ip (out_Address outbound) = None)
      then AddViolation result "address" "address has to be valid IP address"
      else result in
  if String.eqb (out_Service outbound) ""
  then AddViolation result "service" "cannot be empty" else result.

Definition validateGateway (gateway : Gateway) : ValidationError :=
  let result := if negb (has_service (gw_Tags gateway))
    then AddViolationAt [] (Path_Key (RootedAt "tags") ServiceTag) "tag has to exist" else [] in
  Add result (validateTags (gw_Tags gateway)).

(** [networking.Gateway] is read without a nil check. *)
Definition validateNetworking (networking : option Networking) : res ValidationError :=
  match networking with
  | None => Panic
  | Some n =>
      let path := RootedAt "networking" in
      let has_gateway := bool_decide (is_Some (net_Gateway n)) in
      let err := if Nat.eqb (length (net_Inbound n)) 0 && negb has_gateway
        then AddViolationAt [] path "has to contain at least one inbound interface or gateway"
        else [] in
      let err := if Nat.ltb 0 (length (net_Inbound n)) && has_gateway
        then AddViolationAt err path "inbound cannot be defined both with gateway" else err in
      let err := if negb (String.eqb (net_Address n) "") || negb (hasLegacyInbound n)
        then (if bool_decide (parse_ip (net_Address n) = None)
              then AddViolationAt err (Path_Field path "address")
                     "address has to be valid IP address"
              else err)
        else err in
      let err := match net_Gateway n with
        | Some g => AddErrorAt err (Path_Field path "gateway") (validateGateway g)
        | None => err
        end in
      let err := foldl (λ err e, AddErrorAt err e.1 e.2) err
        (imap (λ i inbound, (Path_Index (Path_Field path "inbound") i,
                             validateInbound inbound (net_Address n))) (net_Inbound n)) in
      let err := foldl (λ err e, AddErrorAt err e.1 e.2) err
        (imap (λ i outbound, (Path_Index (Path_Field path "outbound") i,
                              validateOutbound outbound)) (net_Outbound n)) in
      Ok err
  end.

Definition Dataplane_Validate (d : DataplaneResource) : res (option ValidationError) :=
  let? e := validateNetworking (dp_Networking (r_Spec d)) in
  Ok (OrNil (Add [] e)).

(** ** Policy validators *)

Definition validate_both (sources destinations : ValidationError) : ValidationError :=
  Add (Add [] sources) destinations.

Definition TrafficPermission_validateSources (d : TrafficPermissionResource) : ValidationError :=
  ValidateSelectors (RootedAt "sources") (tp_Sources (r_Spec d)) OnlyServiceTagAllowed.

Definition TrafficPermission_validateDestinations (d : TrafficPermissionResource)
  : ValidationError :=
  ValidateSelectors (RootedAt "destinations") (tp_Destinations (r_Spec d))
    (mkSelectorsOpts (plainOpts true true) true).

Definition TrafficPermission_Validate (d : TrafficPermissionResource) : option ValidationError :=
  OrNil (validate_both (TrafficPermission_validateSources d)
           (TrafficPermission_validateDestinations d)).

Definition TrafficLog_validateSources (d : TrafficLogResource) : ValidationError :=
  ValidateSelectors (RootedAt "sources") (tl_Sources (r_Spec d))
    (mkSelectorsOpts (plainOpts true true) true).

Definition TrafficLog_validateDestinations (d : TrafficLogResource) : ValidationError :=
  ValidateSelectors (RootedAt "destinations") (tl_Destinations (r_Spec d)) OnlyServiceTagAllowed.

Definition TrafficLog_Validate (d : TrafficLogResource) : option ValidationError :=
  OrNil (validate_both (TrafficLog_validateSources d) (TrafficLog_validateDestinations d)).

Definition TrafficRoute_validateSources (d : TrafficRouteResource) : ValidationError :=
  ValidateSelectors (RootedAt "sources") (tr_Sources (r_Spec d))
    (mkSelectorsOpts (plainOpts true true) true).

Definition TrafficRoute_validateDestinations (d : TrafficRouteResource) : ValidationError :=
  ValidateSelectors (RootedAt "destinations") (tr_Destinations (r_Spec d)) OnlyServiceTagAllowed.

Definition TrafficRoute_validateConf (d : TrafficRouteResource) : ValidationError :=
  let root := RootedAt "conf" in
  let err := if Nat.eqb (length (tr_Conf (r_Spec d))) 0
    then AddViolationAt [] root "must have at least one element" else [] in
  foldl Add err
    (imap (λ i routeEntry,
       ValidateSelector (Path_Field (Path_Index root i) "destination") (wd_Destination routeEntry)
         (plainOpts true true)) (tr_Conf (r_Spec d))).

Definition TrafficRoute_Validate (d : TrafficRouteResource) : option ValidationError :=
  OrNil (Add (validate_both (TrafficRoute_validateSources d) (TrafficRoute_validateDestinations d))
           (TrafficRoute_validateConf d)).

Definition TrafficTrace_validateSelectors (d : TrafficTraceResource) : ValidationError :=
  ValidateSelectors (RootedAt "selectors") (tt_Selectors (r_Spec d))
    (mkSelectorsOpts (plainOpts true false) true).

Definition TrafficTrace_Validate (d : TrafficTraceResource) : option ValidationError :=
  OrNil (Add [] (TrafficTrace_validateSelectors d)).

(** ** healthcheck_validator.go *)

Definition HasActiveChecks (r : HealthCheckResource) : bool :=
  match hc_Conf (r_Spec r) ≫= hc_ActiveChecks with
  | Some a => negb (bool_decide (a = mkActive None None 0 0))
  | None => false
  end.

Definition HasPassiveChecks (r : HealthCheckResource) : bool :=
  match hc_Conf (r_Spec r) ≫= hc_PassiveChecks with
  | Some p => negb (bool_decide (p = mkPassive 0 None))
  | None => false
  end.

Definition HealthCheck_validateSources (d : HealthCheckResource) : ValidationError :=
  ValidateSelectors (RootedAt "sources") (hc_Sources (r_Spec d))
    (mkSelectorsOpts (plainOpts true true) true).

Definition HealthCheck_validateDestinations (d : HealthCheckResource) : ValidationError :=
  ValidateSelectors (RootedAt "destinations") (hc_Destinations (r_Spec d)) OnlyServiceTagAllowed.

Section WithDurations.
(** [ptypes.Duration] of golang/protobuf: the duration in nanoseconds, or
    nothing when the message is out of range. *)
Context (ptypes_Duration : Duration → option Z).

Definition ValidateDuration (path : PathBuilder) (duration : option Duration) : ValidationError :=
  match duration with
  | None => AddViolationAt [] path "must have a positive value"
  | Some duration =>
      match ptypes_Duration duration with
      | None => AddViolationAt [] path "must have a valid value"
      | Some d => if d =? 0 then AddViolationAt [] path "must have a positive value" else []
      end
  end.

Definition HealthCheck_validateConf (d : HealthCheckResource) : ValidationError :=
  let root := RootedAt "conf" in
  let err := if negb (HasActiveChecks d) && negb (HasPassiveChecks d)
    then AddViolationAt [] root "must have either active or passive checks configured" else [] in
  let err :=
    match hc_Conf (r_Spec d) ≫= hc_ActiveChecks with
    | Some activeChecks =>
        if HasActiveChecks d then
          let path := Path_Field root "activeChecks" in
          let err := Add err (ValidateDuration (Path_Field path "interval") (ac_Interval activeChecks)) in
          let err := Add err (ValidateDuration (Path_Field path "timeout") (ac_Timeout activeChecks)) in
          let err := Add err (ValidateThreshold (Path_Field path "unhealthyThreshold")
                                (ac_UnhealthyThreshold activeChecks)) in
          Add err (ValidateThreshold (Path_Field path "healthyThreshold")
                     (ac_HealthyThreshold activeChecks))
        else err
    | None => err
    end in
  match hc_Conf (r_Spec d) ≫= hc_PassiveChecks with
  | Some passiveChecks =>
      if HasPassiveChecks d then
        let path := Path_Field root "passiveChecks" in
        let err := Add err (ValidateThreshold (Path_Field path "unhealthyThreshold")
                              (pc_UnhealthyThreshold passiveChecks)) in
        Add err (ValidateDuration (Path_Field path "penaltyInterval")
                   (pc_PenaltyInterval passiveChecks))
      else err
  | None => err
  end.

Definition HealthCheck_Validate (d : HealthCheckResource) : option ValidationError :=
  OrNil (Add (validate_both (HealthCheck_validateSources d) (HealthCheck_validateDestinations d))
           (HealthCheck_validateConf d)).
End WithDurations.

(** ** fault_injection_validator.go *)

(** Codes for which [http.StatusText] is not empty. *)
Definition http_status_known (code : Z) : bool :=
  existsb (λ r, (r.1 <=? code) && (code <=? r.2))
    [(100, 102); (200, 208); (226, 226); (300, 305); (307, 308); (400, 418); (421, 426);
     (428, 429); (431, 431); (451, 451); (500, 508); (510, 511)].

(** [reflect.DeepEqual] with the zero message: every pointer field is nil. *)
Definition HasFaultDelay (f : FaultInjectionResource) : bool :=
  match fi_Conf (r_Spec f) ≫= fi_Delay with
  | Some d => match delay_Percentage d, delay_Value d with None, None => false | _, _ => true end
  | None => false
  end.

Definition HasFaultAbort (f : FaultInjectionResource) : bool :=
  match fi_Conf (r_Spec f) ≫= fi_Abort with
  | Some a => match abort_Percentage a, abort_HttpStatus a with None, None => false | _, _ => true end
  | None => false
  end.

Definition HasFaultResponseBandwidth (f : FaultInjectionResource) : bool :=
  match fi_Conf (r_Spec f) ≫= fi_ResponseBandwidth with
  | Some b => match bw_Percentage b, bw_Limit b with None, None => false | _, _ => true end
  | None => false
  end.

Definition httpOpts : ValidateSelectorsOpts :=
  {| RequireAtLeastOneSelector := true;
     SelectorOpts := {|
       RequireAtLeastOneTag := true;
       RequireService := false;
       ExtraSelectorValidators := [ProtocolValidator ["http"]];
       ExtraTagKeyValidators := [];
       ExtraTagValueValidators := [] |} |}.

Definition FaultInjection_validateSources (f : FaultInjectionResource) : ValidationError :=
  ValidateSelectors (RootedAt "sources") (fi_Sources (r_Spec f)) httpOpts.

Definition FaultInjection_validateDestinations (f : FaultInjectionResource) : ValidationError :=
  ValidateSelectors (RootedAt "destinations") (fi_Destinations (r_Spec f)) httpOpts.

Definition validatePercentage (path : PathBuilder) (percentage : option Double) : ValidationError :=
  match percentage with
  | None => AddViolationAt [] (Path_Field path "percentage") "cannot be empty"
  | Some p =>
      if double_ltb p (Finite 0) || double_ltb (Finite 100) p
      then AddViolationAt [] (Path_Field path "percentage") "has to be in [0.0 - 100.0] range"
      else []
  end.

(** [\d*\s?[gmk]bps] is not anchored and its first two parts may be empty:
    the text matches when it contains one of the three units. *)
Fixpoint matches_limit (s : string) : bool :=
  match s with
  | EmptyString => false
  | String c s' =>
      (one_of ["g"; "m"; "k"]%char c && String.prefix "bps" s') || matches_limit s'
  end.

Definition validateLimit (path : PathBuilder) (limit : option string) : ValidationError :=
  match limit with
  | None => AddViolationAt [] (Path_Field path "limit") "cannot be empty"
  | Some l =>
      if negb (matches_limit l)
      then AddViolationAt [] (Path_Field path "limit") "has to be in kbps/mbps/gbps units"
      else []
  end.

Definition validateHttpStatus (path : PathBuilder) (httpStatus : option Z) : ValidationError :=
  match httpStatus with
  | None => AddViolationAt [] (Path_Field path "httpStatus") "cannot be empty"
  | Some s =>
      if negb (http_status_known s)
      then AddViolationAt [] (Path_Field path "httpStatus") "http status code is incorrect"
      else []
  end.

Definition validateDelay (path : PathBuilder) (delay : Delay) : ValidationError :=
  let err := Add [] (validatePercentage path (delay_Percentage delay)) in
  match delay_Value delay with
  | None => AddViolationAt err (Path_Field path "value") "cannot be empty"
  | Some _ => err
  end.

Definition validateAbort (path : PathBuilder) (abort : FaultAbort) : ValidationError :=
  Add (Add [] (validatePercentage path (abort_Percentage abort)))
    (validateHttpStatus path (abort_HttpStatus abort)).

Definition validateResponseBandwidth (path : PathBuilder) (bandwidth : ResponseBandwidth)
  : ValidationError :=
  Add (Add [] (validatePercentage path (bw_Percentage bandwidth)))
    (validateLimit path (bw_Limit bandwidth)).

Definition FaultInjection_validateConf (f : FaultInjectionResource) : ValidationError :=
  let root := RootedAt "conf" in
  let conf := fi_Conf (r_Spec f) in
  let err := if negb (HasFaultDelay f) && negb (HasFaultAbort f)
                && negb (HasFaultResponseBandwidth f)
    then AddViolationAt [] root "must have at least one of the faults configured" else [] in
  let err := match conf ≫= fi_Delay with
    | Some d => if HasFaultDelay f then Add err (validateDelay (Path_Field root "delay") d) else err
    | None => err end in
  let err := match conf ≫= fi_Abort with
    | Some a => if HasFaultAbort f then Add err (validateAbort (Path_Field root "abort") a) else err
    | None => err end in
  match conf ≫= fi_ResponseBandwidth with
  | Some b => if HasFaultResponseBandwidth f
              then Add err (validateResponseBandwidth (Path_Field root "responseBandwidth") b)
              else err
  | None => err
  end.

Definition FaultInjection_Validate (f : FaultInjectionResource) : option ValidationError :=
  OrNil (Add (validate_both (FaultInjection_validateSources f)
                (FaultInjection_validateDestinations f))
           (FaultInjection_validateConf f)).

(** ** meta_validator.go *)

Definition name_char (c : ascii) : bool :=
  let n := N_of_ascii c in
  ((97 <=? n) && (n <=? 122))%N || ((48 <=? n) && (n <=? 57))%N || one_of ["-"; "_"]%char c.

Definition nameMeshRegexp : string → bool := all_bytes name_char.

Definition invalid_characters : string :=
  "invalid characters. Valid characters are numbers, lowercase latin letters and '-', '_' symbols.".

Definition ValidateMeta (name mesh : string) : ValidationError :=
  let err := if negb (nameMeshRegexp name) then AddViolation [] "name" invalid_characters else [] in
  if negb (nameMeshRegexp mesh) then AddViolation err "mesh" invalid_characters else err.

(** ** proxytemplate_validator.go *)

Definition AvailableProfiles : list string := ["default-proxy"].

Definition validateImports (imports : list string) : ValidationError :=
  foldl (λ verr ii,
    if String.eqb ii.2 "" then AddViolationAt verr (Path_Index (RootedAt "imports") ii.1) "cannot be empty"
    else if negb (existsb (String.eqb ii.2) AvailableProfiles)
    then AddViolationAt verr (Path_Index (RootedAt "imports") ii.1)
           ("profile not found. Available profiles: " +:+ join "," AvailableProfiles)
    else verr) [] (imap pair imports).

Definition ProxyTemplate_validateSelectors (selectors : list Selector) : ValidationError :=
  ValidateSelectors (RootedAt "selectors") selectors (mkSelectorsOpts (plainOpts true true) false).

Section WithYaml.
(** [envoy.ResourceFromYaml] decodes YAML with third-party code: [None] on
    success, the text of the error otherwise. *)
Context (ResourceFromYaml_error : string → option string).

Definition validateResource (verr : ValidationError) (ii : nat * ProxyTemplateRawResource)
  : ValidationError :=
  let path := Path_Index (RootedAt "resources") ii.1 in
  let resource := ii.2 in
  let verr := if String.eqb (raw_Name resource) ""
    then AddViolationAt verr (Path_Field path "name") "cannot be empty" else verr in
  let verr := if String.eqb (raw_Version resource) ""
    then AddViolationAt verr (Path_Field path "version") "cannot be empty" else verr in
  if String.eqb (raw_Resource resource) ""
  then AddViolationAt verr (Path_Field path "resource") "cannot be empty"
  else match ResourceFromYaml_error (raw_Resource resource) with
       | Some e => AddViolationAt verr (Path_Field path "resource")
                     ("native Envoy resource is not valid: " +:+ e)
       | None => verr
       end.

Definition validateResources (resources : list ProxyTemplateRawResource) : ValidationError :=
  foldl validateResource [] (imap pair resources).

Definition validateConfig (imports : list string) (resources : list ProxyTemplateRawResource)
  : ValidationError :=
  Add (Add [] (validateImports imports)) (validateResources resources).

Definition ProxyTemplate_Validate (t : ProxyTemplateResource) : option ValidationError :=
  OrNil (AddError (Add [] (ProxyTemplate_validateSelectors (pt_Selectors (r_Spec t)))) "conf"
           (validateConfig (pt_Imports (r_Spec t)) (pt_Resources (r_Spec t)))).
End WithYaml.

(** ** Lemmas *)

Lemma AddError_fmap v root err :
  AddError v root err
  = v ++ ((λ x, mkViolation (rooted_field root (v_Field x)) (v_Message x)) <$> err).
Proof.
  unfold AddError. revert v; induction err as [|x err IH]; intros v; simpl; [by rewrite app_nil_r|].
  rewrite IH, <- app_assoc. done.
Qed.

Lemma Add_app v err : Add v err = v ++ err.
Proof.
  unfold Add. rewrite AddError_fmap. f_equal. rewrite <- (list_fmap_id err) at 2.
  apply list_fmap_ext. intros i [f m] _. unfold rooted_field; simpl.
  by destruct (String.eqb_spec f "") as [->|].
Qed.

Lemma AddError_nil v root err : AddError v root err = [] ↔ v = [] ∧ err = [].
Proof.
  rewrite AddError_fmap, app_nil. split; [|by intros [-> ->]].
  intros [-> H]. split; [done|]. by apply fmap_nil_inv in H.
Qed.

Lemma Add_nil v err : Add v err = [] ↔ v = [] ∧ err = [].
Proof. apply AddError_nil. Qed.

Lemma AddViolationAt_nil v p m : AddViolationAt v p m = [] ↔ False.
Proof. unfold AddViolationAt, AddViolation. rewrite app_nil. naive_solver. Qed.

Lemma AddViolation_nil v f m : AddViolation v f m = [] ↔ False.
Proof. unfold AddViolation. rewrite app_nil. naive_solver. Qed.

Lemma OrNil_None v : OrNil v = None ↔ v = [].
Proof. unfold OrNil, HasViolations. destruct v; simpl; split; done. Qed.

(** A conditional step that adds a violation adds none exactly when its
    condition is false. *)
Lemma if_violation_nil (b : bool) (v w : ValidationError) :
  w ≠ [] → (if b then w else v) = [] ↔ b = false ∧ v = [].
Proof. intros Hw. destruct b; naive_solver. Qed.

Lemma violation_at_ne v p m : AddViolationAt v p m ≠ [].
Proof. intros H. by apply AddViolationAt_nil in H. Qed.
Lemma violation_ne v f m : AddViolation v f m ≠ [].
Proof. intros H. by apply AddViolation_nil in H. Qed.

#[export] Hint Resolve violation_at_ne violation_ne : kuma.

Lemma foldl_Add_nil (v : ValidationError) l :
  foldl Add v l = [] ↔ v = [] ∧ Forall (λ e, e = []) l.
Proof.
  revert v; induction l as [|x l IH]; intros v; simpl; [naive_solver|].
  rewrite IH, Add_nil, Forall_cons. naive_solver.
Qed.

Lemma foldl_AddErrorAt_nil v (l : list (PathBuilder * ValidationError)) :
  foldl (λ err e, AddErrorAt err e.1 e.2) v l = [] ↔ v = [] ∧ Forall (λ e, e.2 = []) l.
Proof.
  revert v; induction l as [|x l IH]; intros v; simpl; [naive_solver|].
  rewrite IH, Forall_cons. unfold AddErrorAt. rewrite AddError_nil. naive_solver.
Qed.

Lemma foldl_validators_nil {V} (run : V → ValidationError) v (l : list V) :
  foldl (λ err validate, Add err (run validate)) v l = [] ↔
  v = [] ∧ Forall (λ x, run x = []) l.
Proof.
  revert v; induction l as [|x l IH]; intros v; simpl; [naive_solver|].
  rewrite IH, Add_nil, Forall_cons. naive_solver.
Qed.

(** A step function that only appends: it leaves no violation exactly when it
    started with none and its own check passes. *)
Lemma foldl_steps_nil {X} (step : ValidationError → X → ValidationError) (good : X → Prop) v l :
  (∀ v x, step v x = [] ↔ v = [] ∧ good x) →
  foldl step v l = [] ↔ v = [] ∧ Forall good l.
Proof.
  intros Hs. revert v; induction l as [|x l IH]; intros v; simpl; [naive_solver|].
  rewrite IH, Hs, Forall_cons. naive_solver.
Qed.

(** Tactic: turn "the violations are empty" into the conditions. *)
Ltac no_violations :=
  repeat first
    [ rewrite Add_nil | rewrite if_violation_nil by auto with kuma
    | rewrite foldl_validators_nil | rewrite foldl_Add_nil ].

Lemma elem_of_Keys tags k : k ∈ Keys tags ↔ is_Some (tags !! k).
Proof.
  unfold Keys, sort_strings. rewrite sort_by_perm, list_elem_of_fmap. split.
  - intros ([k' v] & -> & Hv%elem_of_map_to_list). eauto.
  - intros [v Hv]. exists (k, v). split; [done|]. by apply elem_of_map_to_list.
Qed.

(** A tag of a selector passes the checks every policy shares. *)
Definition good_tag (k v : string) : Prop :=
  k ≠ "" ∧ tagNameCharacterSet k = true ∧ v ≠ "" ∧ selectorCharacterSet v = true.

Lemma ValidateSelector_key_nil path sel opts err key :
  ValidateSelector_key path sel opts err key = [] ↔
  err = [] ∧ good_tag key (default "" (sel !! key)) ∧
  Forall (λ f, f path key = []) (ExtraTagKeyValidators opts) ∧
  Forall (λ f, f path key (default "" (sel !! key)) = []) (ExtraTagValueValidators opts).
Proof.
  unfold ValidateSelector_key, good_tag. no_violations.
  rewrite !negb_false_iff, !String.eqb_neq. tauto.
Qed.

Lemma ValidateSelector_nil path sel opts :
  ValidateSelector path sel opts = [] ↔
  (RequireAtLeastOneTag opts = true → sel ≠ ∅) ∧
  Forall (λ f, f path sel = []) (ExtraSelectorValidators opts) ∧
  (∀ k v, sel !! k = Some v →
     good_tag k v ∧ Forall (λ f, f path k = []) (ExtraTagKeyValidators opts)
     ∧ Forall (λ f, f path k v = []) (ExtraTagValueValidators opts)) ∧
  (RequireService opts = true → is_Some (sel !! ServiceTag)).
Proof.
  unfold ValidateSelector. no_violations.
  rewrite (foldl_steps_nil _ (λ key, good_tag key (default "" (sel !! key)) ∧
    Forall (λ f, f path key = []) (ExtraTagKeyValidators opts) ∧
    Forall (λ f, f path key (default "" (sel !! key)) = []) (ExtraTagValueValidators opts)))
    by (intros; apply ValidateSelector_key_nil).
  no_violations. rewrite !andb_false_iff, negb_false_iff, bool_decide_eq_true.
  rewrite (Forall_forall _ (Keys sel)). setoid_rewrite elem_of_Keys.
  assert ((∀ k, is_Some (sel !! k) → good_tag k (default "" (sel !! k)) ∧
    Forall (λ f, f path k = []) (ExtraTagKeyValidators opts) ∧
    Forall (λ f, f path k (default "" (sel !! k)) = []) (ExtraTagValueValidators opts)) ↔
    (∀ k v, sel !! k = Some v → good_tag k v ∧ Forall (λ f, f path k = []) (ExtraTagKeyValidators opts)
     ∧ Forall (λ f, f path k v = []) (ExtraTagValueValidators opts))) as ->.
  { split.
    - intros H k v Hk. specialize (H k ltac:(eauto)). by rewrite Hk in H.
    - intros H k [v Hk]. specialize (H k v Hk). by rewrite Hk. }
  rewrite Nat.eqb_neq, map_size_non_empty_iff.
  destruct (RequireAtLeastOneTag opts), (RequireService opts); naive_solver.
Qed.

Lemma Forall_imap_nil {X} (f : nat → X → ValidationError) l :
  Forall (λ e, e = []) (imap f l) ↔ ∀ i x, l !! i = Some x → f i x = [].
Proof.
  rewrite Forall_lookup. setoid_rewrite list_lookup_imap. split.
  - intros H i x Hi. apply (H i). by rewrite Hi.
  - intros H i e. destruct (l !! i) eqn:Hi; simpl; [|done]. intros [= <-]. by apply H.
Qed.

Lemma ValidateSelectors_nil path sources opts :
  ValidateSelectors path sources opts = [] ↔
  (RequireAtLeastOneSelector opts = true → sources ≠ []) ∧
  ∀ i s, sources !! i = Some s →
    ValidateSelector (Path_Field (Path_Index path i) "match") (Match s) (SelectorOpts opts) = [].
Proof.
  unfold ValidateSelectors. no_violations. rewrite Forall_imap_nil, andb_false_iff, Nat.eqb_neq.
  destruct (RequireAtLeastOneSelector opts), sources; naive_solver.
Qed.

(** Selectors accepted under options that require a tag are not empty. *)
Lemma ValidateSelectors_nonempty path sources opts s :
  RequireAtLeastOneTag (SelectorOpts opts) = true →
  ValidateSelectors path sources opts = [] → s ∈ sources → Match s ≠ ∅.
Proof.
  intros Ho [_ H]%ValidateSelectors_nil [i Hi]%list_elem_of_lookup.
  apply H in Hi. apply ValidateSelector_nil in Hi as [Hi _]. by apply Hi.
Qed.

(** ** Properties *)

(** A selector list is accepted with the options most policies use
    exactly when it is non-empty and every selector has a tag, carries the
    mandatory [service] tag and has well-formed, non-empty names and values. *)
Theorem ValidateSelectors_correct path sources :
  ValidateSelectors path sources (mkSelectorsOpts (plainOpts true true) true) = [] ↔
  sources ≠ [] ∧ ∀ s, s ∈ sources →
    is_Some (Match s !! ServiceTag) ∧ ∀ k v, Match s !! k = Some v → good_tag k v.
Proof.
  rewrite ValidateSelectors_nil. simpl.
  setoid_rewrite ValidateSelector_nil. simpl. setoid_rewrite list_elem_of_lookup. split.
  - intros [H1 H2]. split; [by apply H1|]. intros s [i Hi].
    destruct (H2 i s Hi) as (_ & _ & Ht & Hs). split; [by apply Hs|]. intros k v Hk. by apply Ht.
  - intros [H1 H2]. split; [done|]. intros i s Hi. destruct (H2 s) as [Hs Ht]; [eauto|].
    split; [|split; [constructor|]].
    + intros _ He. rewrite He, lookup_empty in Hs. by destruct Hs.
    + split; [|done]. intros k v Hk. split; [by apply Ht|]. by repeat constructor.
Qed.

(** A selector list is accepted by [OnlyServiceTagAllowed] exactly when it
    is non-empty and every selector is a single [service] tag with a
    well-formed value. *)
Theorem OnlyServiceTagAllowed_correct path sources :
  ValidateSelectors path sources OnlyServiceTagAllowed = [] ↔
  sources ≠ [] ∧ ∀ s, s ∈ sources →
    ∃ v, Match s = MatchService v ∧ v ≠ "" ∧ selectorCharacterSet v = true.
Proof.
  rewrite ValidateSelectors_nil. simpl.
  setoid_rewrite ValidateSelector_nil. simpl. setoid_rewrite list_elem_of_lookup.
  setoid_rewrite Forall_singleton. split.
  - intros [H1 H2]. split; [by apply H1|]. intros s [i Hi].
    destruct (H2 i s Hi) as (_ & Hone & Ht & Hs). destruct Hs as [v Hv]; [done|].
    exists v. destruct (Ht _ _ Hv) as ((_ & _ & ? & ?) & _ & _). split; [|done].
    apply map_eq. intros k. unfold MatchService. rewrite lookup_singleton. case_decide as E.
    { subst. by rewrite Hv. }
    destruct (Match s !! k) as [w|] eqn:Hw; [|done].
    destruct (Ht _ _ Hw) as (_ & Hk & _). apply if_violation_nil in Hk as [Hk _]; [|auto with kuma].
    apply negb_false_iff, String.eqb_eq in Hk. by subst.
  - intros [H1 H2]. split; [done|]. intros i s Hi. destruct (H2 s) as (v & -> & Hv1 & Hv2); [eauto|].
    unfold MatchService. split; [done|]. rewrite map_size_singleton, lookup_singleton_eq.
    split; [done|]. split; [|eauto]. intros k w. rewrite lookup_singleton_Some. intros [<- <-].
    by repeat split; try constructor.
Qed.

Lemma validated_permissions_nonempty (l : list TrafficPermissionResource) :
  Forall (λ p, TrafficPermission_Validate p = None) l → destinations_nonempty l.
Proof.
  intros Hl p d Hp Hd. eapply Forall_forall in Hl; [|done].
  unfold TrafficPermission_Validate, validate_both in Hl. apply OrNil_None in Hl.
  rewrite !Add_nil in Hl. destruct Hl as [_ Hl]. by eapply ValidateSelectors_nonempty; [|exact Hl|].
Qed.

Lemma validated_faults_nonempty (l : list FaultInjectionResource) :
  Forall (λ f, FaultInjection_Validate f = None) l → destinations_nonempty l.
Proof.
  intros Hl p d Hp Hd. eapply Forall_forall in Hl; [|done].
  unfold FaultInjection_Validate, validate_both in Hl. apply OrNil_None in Hl.
  rewrite !Add_nil in Hl. destruct Hl as [[_ Hl] _]. by eapply ValidateSelectors_nonempty; [|exact Hl|].
Qed.

(** Permissions and fault injections that pass validation never make the
    inbound policy selection panic: their destination selectors are not
    empty. *)
Theorem validated_policies_no_panic dp :
  (∀ permissions : list TrafficPermissionResource,
     Forall (λ p, TrafficPermission_Validate p = None) permissions →
     SelectInboundConnectionPolicies dp permissions ≠ Panic) ∧
  (∀ faults : list FaultInjectionResource,
     Forall (λ f, FaultInjection_Validate f = None) faults →
     SelectInboundConnectionPolicies dp faults ≠ Panic).
Proof.
  split; intros l Hl; apply SelectInboundConnectionPolicies_total;
    [by apply validated_permissions_nonempty|by apply validated_faults_nonempty].
Qed.

Lemma validated_policies_no_panic_witness :
  SelectInboundConnectionPolicies sample_dataplane [sample_permission "a" 0 (MatchService "web")]
  ≠ Panic.
Proof.
  apply (proj1 (validated_policies_no_panic sample_dataplane)).
  constructor; [vm_compute; reflexivity|constructor].
Defined.

(** ** Validated dataplanes *)

Lemma validateTag_nil v e :
  validateTag v e = [] ↔ v = [] ∧
  (e.2 ≠ "" ∧ tagNameCharacterSet e.1 = true ∧ tagValueCharacterSet e.2 = true).
Proof.
  destruct e as [name value]. unfold validateTag. no_violations.
  rewrite !negb_false_iff, String.eqb_neq. simpl. tauto.
Qed.

Lemma validateTags_nil tags :
  validateTags tags = [] ↔ ∀ k v, tags !! k = Some v →
    v ≠ "" ∧ tagNameCharacterSet k = true ∧ tagValueCharacterSet v = true.
Proof.
  unfold validateTags. rewrite (foldl_steps_nil _ _ _ _ validateTag_nil), Forall_forall. split.
  - intros [_ H] k v Hk. apply (H (k, v)). by apply elem_of_map_to_list.
  - intros H. split; [done|]. intros [k v] Hk%elem_of_map_to_list. by apply H.
Qed.

Lemma is_ok_true {A} (m : res A) : is_ok m = true ↔ ∃ a, m = Ok a.
Proof. destruct m; simpl; naive_solver. Qed.

Lemma address_check (s : string) :
  negb (String.eqb s "") && bool_decide (parse_ip s = None) = false →
  s ≠ "" → is_Some (parse_ip s).
Proof.
  intros H Hs. apply String.eqb_neq in Hs. rewrite Hs in H. simpl in H.
  apply bool_decide_eq_false in H. by apply not_eq_None_Some.
Qed.

(** What an inbound without violations satisfies. *)
Lemma validateInbound_nil inb addr :
  validateInbound inb addr = [] →
  (∃ s, in_Tags inb !! ServiceTag = Some s ∧ s ≠ "") ∧
  (in_Interface inb ≠ "" → addr = "" ∧ ∃ i, ParseInboundInterface (in_Interface inb) = Ok i) ∧
  (in_Interface inb = "" → valid_port (in_Port inb) ∧ in_ServicePort inb ≤ 65535
     ∧ (in_Address inb ≠ "" → is_Some (parse_ip (in_Address inb)))).
Proof.
  unfold validateInbound. rewrite Add_nil. intros [Hv Ht]. rewrite validateTags_nil in Ht.
  match type of Hv with
  | match _ with Some _ => _ | None => ?r end = [] => assert (r = []) as Hr
  end.
  { destruct (in_Tags inb !! ProtocolTag); [|done]. destruct (ParseProtocol _); try done.
    by apply AddViolationAt_nil in Hv. }
  clear Hv. rewrite if_violation_nil in Hr by auto with kuma. destruct Hr as [Hs Hr].
  apply negb_false_iff in Hs. unfold has_service in Hs. apply bool_decide_eq_true in Hs as [s Hs].
  split; [exists s; split; [done|by apply Ht in Hs as [? _]]|].
  destruct (String.eqb_spec (in_Interface inb) "") as [E|E]; simpl in Hr.
  - split; [done|]. intros _. rewrite !if_violation_nil in Hr by auto with kuma.
    destruct Hr as (Ha & Hsp & Hp & _). bool_prop. unfold valid_port.
    split; [lia|]. split; [lia|]. by apply address_check.
  - split; [|done]. intros _. rewrite !if_violation_nil in Hr by auto with kuma.
    destruct Hr as (Hi & Ha & _). bool_prop. split; [done|]. by apply is_ok_true.
Qed.

Lemma validateOutbound_nil out :
  validateOutbound out = [] →
  out_Service out ≠ "" ∧
  ∃ o, outboundInterfaceOf out = Ok o ∧ valid_port (oi_DataplanePort o)
    ∧ is_Some (parse_ip (oi_DataplaneIP o)).
Proof.
  unfold validateOutbound, outboundInterfaceOf. rewrite if_violation_nil by auto with kuma.
  intros [Hs Hr]. bool_prop. split; [done|].
  destruct (String.eqb_spec (out_Interface out) "") as [E|E]; simpl in *.
  - rewrite !if_violation_nil in Hr by auto with kuma. destruct Hr as (Ha & Hp & _).
    eexists; split; [done|]. simpl. bool_prop. unfold valid_port. split; [lia|].
    destruct (String.eqb_spec (out_Address out) "") as [Ea|Ea]; simpl; [by vm_compute; eauto|].
    apply address_check; [|done]. by apply String.eqb_neq in Ea as ->.
  - rewrite !if_violation_nil in Hr by auto with kuma. destruct Hr as (Hi & _). bool_prop.
    apply is_ok_true in Hi as [o Ho]. exists o. split; [done|].
    by eapply ParseOutboundInterface_Ok.
Qed.

(** [uint32] fields are not negative. *)
Definition uint32_inbounds (n : Networking) : Prop :=
  Forall (λ i, 0 ≤ in_ServicePort i) (net_Inbound n).

Lemma Forall_imap_snd_nil {X} (p : nat → X → PathBuilder) (f : nat → X → ValidationError) l :
  Forall (λ e, e.2 = []) (imap (λ i x, (p i x, f i x)) l) ↔ ∀ i x, l !! i = Some x → f i x = [].
Proof.
  rewrite Forall_lookup. setoid_rewrite list_lookup_imap. split.
  - intros H i x Hi. apply (H i (p i x, f i x)). by rewrite Hi.
  - intros H i e. destruct (l !! i) eqn:Hi; simpl; [|done]. intros [= <-]. by apply H.
Qed.

Lemma validateNetworking_nil n :
  validateNetworking (Some n) = Ok [] →
  (net_Inbound n = [] ↔ is_Some (net_Gateway n)) ∧
  (net_Address n ≠ "" ∨ hasLegacyInbound n = false → is_Some (parse_ip (net_Address n))) ∧
  (∀ i inb, net_Inbound n !! i = Some inb → validateInbound inb (net_Address n) = []) ∧
  (∀ i out, net_Outbound n !! i = Some out → validateOutbound out = []).
Proof.
  unfold validateNetworking. intros [= H]. revert H.
  rewrite !foldl_AddErrorAt_nil, !Forall_imap_snd_nil. intros [[H Hin] Hout].
  split; [|split; [|done]].
  all: assert (∀ e, match net_Gateway n with
    | Some g => AddErrorAt e (Path_Field (RootedAt "networking") "gateway") (validateGateway g)
    | None => e end = [] → e = []) as Hg by
    (intros e; destruct (net_Gateway n); [|done]; intros He; unfold AddErrorAt in He;
     by apply AddError_nil in He as [-> _]).
  all: apply Hg in H; clear Hg.
  - match type of H with (if _ then (if _ then _ else ?e) else ?e) = [] => assert (e = []) as He end.
    { destruct (_ || _); [|done]. rewrite if_violation_nil in H by auto with kuma. tauto. }
    rewrite !if_violation_nil in He by auto with kuma. destruct He as (H1 & H2 & _).
    destruct (net_Gateway n), (net_Inbound n); simpl in *; try done; split; eauto; try done; by intros [].
  - intros Ha. assert (negb (String.eqb (net_Address n) "") || negb (hasLegacyInbound n) = true) as Hc.
    { destruct Ha as [Ha| ->]; [|by rewrite orb_true_r]. apply String.eqb_neq in Ha as ->. done. }
    rewrite Hc, if_violation_nil in H by auto with kuma. destruct H as [H _].
    apply bool_decide_eq_false in H. by apply not_eq_None_Some.
Qed.

Lemma Dataplane_Validate_nil d :
  Dataplane_Validate d = Ok None →
  ∃ n, dp_Networking (r_Spec d) = Some n ∧ validateNetworking (Some n) = Ok [].
Proof.
  unfold Dataplane_Validate. intros (e & He & [= Ho])%rbind_Ok.
  apply OrNil_None, Add_nil in Ho as [_ ->].
  destruct (dp_Networking (r_Spec d)) as [n|]; [|done]. eauto.
Qed.

(** The interface of a validated inbound. *)
Lemma validated_inbound_interface n i inb :
  validateNetworking (Some n) = Ok [] → uint32_inbounds n → net_Inbound n !! i = Some inb →
  ∃ iface, GetInboundInterfaceByIdx (Some n) i = Ok iface
    ∧ valid_port (ii_DataplanePort iface) ∧ valid_port (ii_WorkloadPort iface)
    ∧ (in_Interface inb ≠ "" ∨ in_Address inb ≠ "" ∨ net_Address n ≠ ""
       ∨ hasLegacyInbound n = false → is_Some (parse_ip (ii_DataplaneIP iface))).
Proof.
  intros Hv Hu Hi. apply validateNetworking_nil in Hv as (_ & Haddr & Hin & _).
  destruct (validateInbound_nil _ _ (Hin _ _ Hi)) as (_ & Hold & Hnew).
  simpl. rewrite Hi. destruct (String.eqb_spec (in_Interface inb) "") as [E|E]; simpl.
  - eexists; split; [done|]; simpl. destruct (Hnew E) as (Hp & Hsp & Ha).
    eapply Forall_lookup in Hu; [|exact Hi]. split; [done|]. split.
    + destruct (Z.eqb_spec (in_ServicePort inb) 0); simpl; [done|]. unfold valid_port. lia.
    + destruct (String.eqb_spec (in_Address inb) "") as [Ea|Ea]; simpl; [|eauto].
      intros [?|[?|?]]; [done|done|]. by apply Haddr.
  - destruct (Hold E) as (_ & iface & Hf). exists iface. split; [done|].
    apply ParseInboundInterface_Ok in Hf as (? & ? & ?). done.
Qed.

Lemma validated_interfaces d :
  Dataplane_Validate d = Ok None → ∃ ifaces, GetInboundInterfaces (dp_Networking (r_Spec d)) = Ok ifaces.
Proof.
  intros (n & -> & Hv)%Dataplane_Validate_nil. apply validateNetworking_nil in Hv as (_ & _ & Hin & _).
  apply rmapM_total. intros i [_ Hi]%elem_of_seq.
  destruct (lookup_lt_is_Some_2 (net_Inbound n) i) as [inb Hinb]; [lia|].
  destruct (validateInbound_nil _ _ (Hin _ _ Hinb)) as (_ & Hold & _). simpl. rewrite Hinb.
  destruct (String.eqb_spec (in_Interface inb) "") as [E|E]; simpl; [eauto|].
  destruct (Hold E) as (_ & iface & ->). eauto.
Qed.

Lemma validated_outbounds d :
  Dataplane_Validate d = Ok None → ∃ ofaces, GetOutboundInterfaces (dp_Networking (r_Spec d)) = Ok ofaces.
Proof.
  intros (n & -> & Hv)%Dataplane_Validate_nil. apply validateNetworking_nil in Hv as (_ & _ & _ & Hout).
  apply rmapM_total. intros o [i Hi]%list_elem_of_lookup. apply Hout, validateOutbound_nil in Hi as (_ & x & ? & _). eauto.
Qed.

Lemma validated_IP d : Dataplane_Validate d = Ok None → ∃ ip, GetIP (Some d) = Ok ip.
Proof.
  intros (n & Hn & _)%Dataplane_Validate_nil. unfold GetIP. rewrite Hn.
  destruct (negb _); [eauto|]. destruct (net_Inbound n); [eauto|].
  pose proof (GetInboundInterfaceByIdx_no_panic n 0) as Hp. destruct (GetInboundInterfaceByIdx _ _); [eauto|eauto|done].
Qed.

(** The destinations of a validated route name their services. *)
Lemma validated_route_destinations r :
  TrafficRoute_Validate r = None → Forall (λ d, is_Some (wd_Destination d !! ServiceTag)) (tr_Conf (r_Spec r)).
Proof.
  unfold TrafficRoute_Validate. intros [_ Hc]%OrNil_None%Add_nil. unfold TrafficRoute_validateConf in Hc.
  apply foldl_Add_nil in Hc as [_ Hc]. rewrite Forall_imap_nil in Hc. apply Forall_lookup. intros i d Hd.
  apply Hc, ValidateSelector_nil in Hd as (_ & _ & _ & Hs). by apply Hs.
Qed.

(** A dataplane that passes validation has a networking section with
    either inbounds or a gateway, every inbound names its service, and all its
    interfaces resolve with ports in [1, 65535]; outbound addresses are valid
    IPs, and an inbound address is one too whenever the inbound or the
    networking section gives an address or no inbound is in the legacy
    format. *)
Theorem Dataplane_Validate_sound d n :
  dp_Networking (r_Spec d) = Some n → uint32_inbounds n → Dataplane_Validate d = Ok None →
  (net_Inbound n = [] ↔ is_Some (net_Gateway n)) ∧
  (∀ inb, inb ∈ net_Inbound n → Inbound_GetService inb ≠ "") ∧
  (∃ ifaces, GetInboundInterfaces (Some n) = Ok ifaces ∧
     ∀ i inb iface, net_Inbound n !! i = Some inb → ifaces !! i = Some iface →
       valid_port (ii_DataplanePort iface) ∧ valid_port (ii_WorkloadPort iface) ∧
       (in_Interface inb ≠ "" ∨ in_Address inb ≠ "" ∨ net_Address n ≠ ""
        ∨ hasLegacyInbound n = false → is_Some (parse_ip (ii_DataplaneIP iface)))) ∧
  (∃ ofaces, GetOutboundInterfaces (Some n) = Ok ofaces ∧
     Forall (λ o, valid_port (oi_DataplanePort o) ∧ is_Some (parse_ip (oi_DataplaneIP o))) ofaces).
Proof.
  intros Hn Hu Hd. destruct (Dataplane_Validate_nil _ Hd) as (n' & Hn' & Hv). simplify_eq.
  destruct (validateNetworking_nil _ Hv) as (Hgw & _ & Hin & Hout).
  split; [done|]. split; [|split].
  - intros inb [i Hi]%list_elem_of_lookup.
    destruct (validateInbound_nil _ _ (Hin _ _ Hi)) as ((s & Hs & Hne) & _).
    unfold Inbound_GetService. by rewrite Hs.
  - destruct (rmapM_total (GetInboundInterfaceByIdx (Some n)) (seq 0 (length (net_Inbound n))))
      as [ifaces Hif].
    { intros i [_ Hi]%elem_of_seq. destruct (lookup_lt_is_Some_2 (net_Inbound n) i) as [inb Hinb]; [lia|].
      destruct (validated_inbound_interface n i inb Hv Hu Hinb) as (iface & ? & _). eauto. }
    exists ifaces. split; [done|]. intros i inb iface Hi Hf.
    destruct (GetInboundInterfaces_lookup n ifaces i Hif) as [_ Hl].
    destruct (validated_inbound_interface n i inb Hv Hu Hi) as (iface' & Hx & Hrest).
    rewrite (Hl _ Hf) in Hx. injection Hx as <-. exact Hrest.
  - destruct (rmapM_total outboundInterfaceOf (net_Outbound n)) as [ofaces Hof].
    { intros o [i Hi]%list_elem_of_lookup. apply Hout, validateOutbound_nil in Hi as (_ & x & ? & _). eauto. }
    exists ofaces. split; [done|]. apply rmapM_Ok in Hof.
    apply Forall_lookup. intros i o Ho.
    destruct (Forall2_lookup_r _ _ _ _ _ Hof Ho) as (out & Hi & Hx).
    apply Hout, validateOutbound_nil in Hi as (_ & o' & Ho' & Hgood).
    rewrite Hx in Ho'. injection Ho' as <-. exact Hgood.
Qed.

Lemma Dataplane_Validate_sound_witness :
  ∃ ofaces, GetOutboundInterfaces (dp_Networking (r_Spec sample_dataplane)) = Ok ofaces ∧
    Forall (λ o, valid_port (oi_DataplanePort o) ∧ is_Some (parse_ip (oi_DataplaneIP o))) ofaces.
Proof.
  eapply (Dataplane_Validate_sound sample_dataplane).
  - reflexivity.
  - repeat constructor; simpl; lia.
  - vm_compute. reflexivity.
Defined.

(** One inbound in the legacy format and one without an address. *)
Definition mixed_dataplane : DataplaneResource :=
  mkResource (mkMeta "mixed" "default" "" 0 0)
    (mkDataplane (Some (mkNetworking ""
       [mkInbound "10.0.0.1:80:8080" 0 0 "" (MatchService "web");
        mkInbound "" 81 0 "" (MatchService "api")] [] None)) None).

(** Validation accepts a dataplane that mixes a legacy inbound with a new
    style inbound without any address: its second interface has the empty
    string as its IP.  A dataplane without a networking section makes
    validation panic instead of reporting a violation. *)
Theorem Dataplane_Validate_gaps :
  (Dataplane_Validate mixed_dataplane = Ok None ∧
   GetInboundInterfaces (dp_Networking (r_Spec mixed_dataplane))
   = Ok [mkInboundInterface "10.0.0.1" 80 8080; mkInboundInterface "" 81 81] ∧
   parse_ip "" = None) ∧
  (∀ meta, Dataplane_Validate (mkResource meta (mkDataplane None None)) = Panic).
Proof. split; [|done]. repeat split; vm_compute; reflexivity. Qed.
