(* ===== verification/AccessLog.v ===== *)
(** * Access log formats

    Models [pkg/envoy/accesslog]: the format parser, the fragments with their
    canonical text, the interpolation of [%KUMA_*%] placeholders and the
    configuration of the gRPC access logs.  The three regular expressions of
    the parser are the matchers below: their character classes are disjoint
    where alternatives meet, so the leftmost-first match is the greedy one.
    [strings.ToLower], which the parser applies to header names, is modelled for
    ASCII: the names of HTTP headers consist of it. *)

From S2P Require Import Prelude GoStd.
Local Open Scope Z_scope.

(** ** commands.go *)

Definition CMD_REQ : string := "REQ".
Definition CMD_RESP : string := "RESP".
Definition CMD_TRAILER : string := "TRAILER".
Definition CMD_DYNAMIC_METADATA : string := "DYNAMIC_METADATA".
Definition CMD_FILTER_STATE : string := "FILTER_STATE".
Definition CMD_START_TIME : string := "START_TIME".

(** The cases of [CommandOperatorDescriptor.String]. *)
Definition descriptor_table : list (string * string) :=
  [(CMD_REQ, "%REQ(X?Y):Z%");
   (CMD_RESP, "%RESP(X?Y):Z%");
   (CMD_TRAILER, "%TRAILER(X?Y):Z%");
   (CMD_DYNAMIC_METADATA, "%DYNAMIC_METADATA(NAMESPACE:KEY*):Z%");
   (CMD_FILTER_STATE, "%FILTER_STATE(KEY):Z%");
   (CMD_START_TIME, "%START_TIME%");
   ("BYTES_RECEIVED", "%BYTES_RECEIVED%");
   ("BYTES_SENT", "%BYTES_SENT%");
   ("PROTOCOL", "%PROTOCOL%");
   ("RESPONSE_CODE", "%RESPONSE_CODE%");
   ("RESPONSE_CODE_DETAILS", "%RESPONSE_CODE_DETAILS%");
   ("REQUEST_DURATION", "%REQUEST_DURATION%");
   ("RESPONSE_DURATION", "%RESPONSE_DURATION%");
   ("RESPONSE_TX_DURATION", "%RESPONSE_TX_DURATION%");
   ("DURATION", "%DURATION%");
   ("RESPONSE_FLAGS", "%RESPONSE_FLAGS%");
   ("UPSTREAM_HOST", "%UPSTREAM_HOST%");
   ("UPSTREAM_CLUSTER", "%UPSTREAM_CLUSTER%");
   ("UPSTREAM_LOCAL_ADDRESS", "%UPSTREAM_LOCAL_ADDRESS%");
   ("DOWNSTREAM_LOCAL_ADDRESS", "%DOWNSTREAM_LOCAL_ADDRESS%");
   ("DOWNSTREAM_LOCAL_ADDRESS_WITHOUT_PORT", "%DOWNSTREAM_LOCAL_ADDRESS_WITHOUT_PORT%");
   ("DOWNSTREAM_REMOTE_ADDRESS", "%DOWNSTREAM_REMOTE_ADDRESS%");
   ("DOWNSTREAM_REMOTE_ADDRESS_WITHOUT_PORT", "%DOWNSTREAM_REMOTE_ADDRESS_WITHOUT_PORT%");
   ("DOWNSTREAM_DIRECT_REMOTE_ADDRESS", "%DOWNSTREAM_DIRECT_REMOTE_ADDRESS%");
   ("DOWNSTREAM_DIRECT_REMOTE_ADDRESS_WITHOUT_PORT",
    "%DOWNSTREAM_DIRECT_REMOTE_ADDRESS_WITHOUT_PORT%");
   ("REQUESTED_SERVER_NAME", "%REQUESTED_SERVER_NAME%");
   ("ROUTE_NAME", "%ROUTE_NAME%");
   ("DOWNSTREAM_PEER_URI_SAN", "%DOWNSTREAM_PEER_URI_SAN%");
   ("DOWNSTREAM_LOCAL_URI_SAN", "%DOWNSTREAM_LOCAL_URI_SAN%");
   ("DOWNSTREAM_PEER_SUBJECT", "%DOWNSTREAM_PEER_SUBJECT%");
   ("DOWNSTREAM_LOCAL_SUBJECT", "%DOWNSTREAM_LOCAL_SUBJECT%");
   ("DOWNSTREAM_TLS_SESSION_ID", "%DOWNSTREAM_TLS_SESSION_ID%");
   ("DOWNSTREAM_TLS_CIPHER", "%DOWNSTREAM_TLS_CIPHER%");
   ("DOWNSTREAM_TLS_VERSION", "%DOWNSTREAM_TLS_VERSION%");
   ("UPSTREAM_TRANSPORT_FAILURE_REASON", "%UPSTREAM_TRANSPORT_FAILURE_REASON%");
   ("DOWNSTREAM_PEER_FINGERPRINT_256", "%DOWNSTREAM_PEER_FINGERPRINT_256%");
   ("DOWNSTREAM_PEER_SERIAL", "%DOWNSTREAM_PEER_SERIAL%");
   ("DOWNSTREAM_PEER_ISSUER", "%DOWNSTREAM_PEER_ISSUER%");
   ("DOWNSTREAM_PEER_CERT", "%DOWNSTREAM_PEER_CERT%");
   ("DOWNSTREAM_PEER_CERT_V_START", "%DOWNSTREAM_PEER_CERT_V_START%");
   ("DOWNSTREAM_PEER_CERT_V_END", "%DOWNSTREAM_PEER_CERT_V_END%");
   ("HOSTNAME", "%HOSTNAME%");
   ("KUMA_SOURCE_ADDRESS", "%KUMA_SOURCE_ADDRESS%");
   ("KUMA_SOURCE_ADDRESS_WITHOUT_PORT", "%KUMA_SOURCE_ADDRESS_WITHOUT_PORT%");
   ("KUMA_SOURCE_SERVICE", "%KUMA_SOURCE_SERVICE%");
   ("KUMA_DESTINATION_SERVICE", "%KUMA_DESTINATION_SERVICE%");
   ("KUMA_MESH", "%KUMA_MESH%")].

Definition CommandOperatorDescriptor_String (o : string) : string :=
  match List.find (λ e, String.eqb o e.1) descriptor_table with
  | Some e => e.2
  | None => "%" +:+ o +:+ "%"
  end.

Definition IsPlaceholder (o : string) : bool := has_prefix "KUMA_" o.

(** ** Fragments *)

Record HeaderFormatter : Type := mkHeaderFormatter {
  hf_Header : string;
  hf_AltHeader : string;
  hf_MaxLength : Z;
}.
#[global] Instance HeaderFormatter_eq_dec : EqDecision HeaderFormatter.
Proof. solve_decision. Defined.

Inductive AccessLogFragment : Type :=
| TextSpan (text : string)
| Placeholder (name : string)
| FieldOperator (field : string)
| RequestHeaderOperator (f : HeaderFormatter)
| ResponseHeaderOperator (f : HeaderFormatter)
| ResponseTrailerOperator (f : HeaderFormatter)
| DynamicMetadataOperator (FilterNamespace : string) (Path : list string) (MaxLength : Z)
| FilterStateOperator (Key : string) (MaxLength : Z)
| StartTimeOperator (format : string).
#[global] Instance AccessLogFragment_eq_dec : EqDecision AccessLogFragment.
Proof. solve_decision. Defined.

(** The tail [":Z"] of an operator; [strconv.FormatInt(int64(n), 10)]. *)
Definition limit_String (maxLength : Z) : string :=
  if negb (maxLength =? 0) then ":" +:+ itoa maxLength else "".

Definition HeaderFormatter_String (f : HeaderFormatter) : string :=
  "(" +:+
  (if negb (String.eqb (hf_Header f) "") || negb (String.eqb (hf_AltHeader f) "")
   then hf_Header f +:+
        (if negb (String.eqb (hf_AltHeader f) "") then "?" +:+ hf_AltHeader f else "")
   else "")
  +:+ ")" +:+ limit_String (hf_MaxLength f).

Fixpoint path_String (path : list string) : string :=
  match path with
  | [] => ""
  | segment :: rest => ":" +:+ segment +:+ path_String rest
  end.

Definition RequestHeaderOperator_String (h : HeaderFormatter) : string :=
  "%REQ" +:+ HeaderFormatter_String h +:+ "%".
Definition ResponseHeaderOperator_String (h : HeaderFormatter) : string :=
  "%RESP" +:+ HeaderFormatter_String h +:+ "%".
Definition ResponseTrailerOperator_String (h : HeaderFormatter) : string :=
  "%TRAILER" +:+ HeaderFormatter_String h +:+ "%".
Definition DynamicMetadataOperator_String (ns : string) (path : list string) (n : Z) : string :=
  "%DYNAMIC_METADATA(" +:+ ns +:+ path_String path +:+ ")" +:+ limit_String n +:+ "%".
Definition FilterStateOperator_String (key : string) (n : Z) : string :=
  "%FILTER_STATE(" +:+ key +:+ ")" +:+ limit_String n +:+ "%".
Definition StartTimeOperator_String (fmt : string) : string :=
  if String.eqb fmt "" then CommandOperatorDescriptor_String CMD_START_TIME
  else "%START_TIME(" +:+ fmt +:+ ")%".
Definition Placeholder_String (f : string) : string := CommandOperatorDescriptor_String f.
Definition FieldOperator_String (f : string) : string := CommandOperatorDescriptor_String f.

(** [fragment.String()], by the dynamic type of the fragment. *)
Definition Fragment_String (f : AccessLogFragment) : string :=
  match f with
  | TextSpan s => s
  | Placeholder s => Placeholder_String s
  | FieldOperator s => FieldOperator_String s
  | RequestHeaderOperator h => RequestHeaderOperator_String h
  | ResponseHeaderOperator h => ResponseHeaderOperator_String h
  | ResponseTrailerOperator h => ResponseTrailerOperator_String h
  | DynamicMetadataOperator ns path n => DynamicMetadataOperator_String ns path n
  | FilterStateOperator key n => FilterStateOperator_String key n
  | StartTimeOperator fmt => StartTimeOperator_String fmt
  end.

(** [AccessLogFormat] is its list of fragments. *)
Definition AccessLogFormat : Type := list AccessLogFragment.

Definition Format_String (f : AccessLogFormat) : string := join "" (Fragment_String <$> f).

(** ** Interpolation *)

Definition Placeholder_Interpolate (variables : gmap string string) (name : string)
  : AccessLogFragment :=
  TextSpan (default "" (variables !! name)).

(** The loop of [Interpolate]: the new fragments and the [interpolated] flag. *)
Fixpoint Interpolate_loop (variables : gmap string string) (fragments : list AccessLogFragment)
    (interpolated : bool) : list AccessLogFragment * bool :=
  match fragments with
  | [] => ([], interpolated)
  | fragment :: rest =>
      match fragment with
      | Placeholder name =>
          let newFragment := Placeholder_Interpolate variables name in
          let (fs, i) := Interpolate_loop variables rest
                           (interpolated || bool_decide (newFragment ≠ fragment)) in
          (newFragment :: fs, i)
      | _ =>
          let (fs, i) := Interpolate_loop variables rest interpolated in (fragment :: fs, i)
      end
  end.

Definition Interpolate (variables : gmap string string) (f : AccessLogFormat) : AccessLogFormat :=
  let (newFragments, interpolated) := Interpolate_loop variables f false in
  if interpolated : bool then newFragments else f.

(** ** Configuration of the gRPC access logs *)

Definition stringList_Contains (s : list string) (given : string) : bool :=
  existsb (λ value, String.eqb value given) s.
Definition stringList_Filter (predicate : string → bool) (s : list string) : list string :=
  List.filter predicate s.
Definition AppendToSet (s dest : list string) : list string :=
  foldl (λ dest value, if stringList_Contains dest value then dest else dest ++ [value]) dest s.

Record HttpGrpcAccessLogConfig : Type := mkHttpConfig {
  http_CommonConfig : option (list string); (* filter_state_objects_to_log *)
  AdditionalRequestHeadersToLog : list string;
  AdditionalResponseHeadersToLog : list string;
  AdditionalResponseTrailersToLog : list string;
}.

Record TcpGrpcAccessLogConfig : Type := mkTcpConfig {
  tcp_CommonConfig : option (list string);
}.

Definition isAlwaysCapturedRequestHeader (header : string) : bool :=
  stringList_Contains
    [":method"; ":scheme"; ":authority"; ":path"; "user-agent"; "referer"; "x-forwarded-for";
     "x-request-id"; "x-envoy-original-path"] header.

Definition GetOperandHeaders (f : HeaderFormatter) : list string :=
  (if negb (String.eqb (hf_Header f) "") then [hf_Header f] else [])
  ++ (if negb (String.eqb (hf_AltHeader f) "") then [hf_AltHeader f] else []).

Definition FilterState_appendToSet (key : string) (dest : list string) : list string :=
  if String.eqb key "" then dest else AppendToSet [key] dest.

(** [objects != nil] creates the common config; an empty list is nil here. *)
Definition configure_filter_state (key : string) (common : option (list string))
  : option (list string) :=
  match FilterState_appendToSet key (default [] common) with
  | [] => common
  | objects => Some objects
  end.

Definition RequestHeader_ConfigureHttpLog (h : HeaderFormatter) (config : HttpGrpcAccessLogConfig)
  : HttpGrpcAccessLogConfig :=
  mkHttpConfig (http_CommonConfig config)
    (AppendToSet (stringList_Filter (λ x, negb (isAlwaysCapturedRequestHeader x))
                    (GetOperandHeaders h)) (AdditionalRequestHeadersToLog config))
    (AdditionalResponseHeadersToLog config) (AdditionalResponseTrailersToLog config).
Definition ResponseHeader_ConfigureHttpLog (h : HeaderFormatter) (config : HttpGrpcAccessLogConfig)
  : HttpGrpcAccessLogConfig :=
  mkHttpConfig (http_CommonConfig config) (AdditionalRequestHeadersToLog config)
    (AppendToSet (GetOperandHeaders h) (AdditionalResponseHeadersToLog config))
    (AdditionalResponseTrailersToLog config).
Definition ResponseTrailer_ConfigureHttpLog (h : HeaderFormatter) (config : HttpGrpcAccessLogConfig)
  : HttpGrpcAccessLogConfig :=
  mkHttpConfig (http_CommonConfig config) (AdditionalRequestHeadersToLog config)
    (AdditionalResponseHeadersToLog config)
    (AppendToSet (GetOperandHeaders h) (AdditionalResponseTrailersToLog config)).
Definition FilterState_ConfigureHttpLog (key : string) (config : HttpGrpcAccessLogConfig)
  : HttpGrpcAccessLogConfig :=
  mkHttpConfig (configure_filter_state key (http_CommonConfig config))
    (AdditionalRequestHeadersToLog config) (AdditionalResponseHeadersToLog config)
    (AdditionalResponseTrailersToLog config).
Definition FilterState_ConfigureTcpLog (key : string) (config : TcpGrpcAccessLogConfig)
  : TcpGrpcAccessLogConfig :=
  mkTcpConfig (configure_filter_state key (tcp_CommonConfig config)).

(** [fragment.ConfigureHttpLog(config)] and [fragment.ConfigureTcpLog(config)]:
    the other operators have no effect on the configuration. *)
Definition Fragment_ConfigureHttpLog (config : HttpGrpcAccessLogConfig) (f : AccessLogFragment)
  : HttpGrpcAccessLogConfig :=
  match f with
  | RequestHeaderOperator h => RequestHeader_ConfigureHttpLog h config
  | ResponseHeaderOperator h => ResponseHeader_ConfigureHttpLog h config
  | ResponseTrailerOperator h => ResponseTrailer_ConfigureHttpLog h config
  | FilterStateOperator key _ => FilterState_ConfigureHttpLog key config
  | _ => config
  end.

Definition Fragment_ConfigureTcpLog (config : TcpGrpcAccessLogConfig) (f : AccessLogFragment)
  : TcpGrpcAccessLogConfig :=
  match f with
  | FilterStateOperator key _ => FilterState_ConfigureTcpLog key config
  | _ => config
  end.

Definition Format_ConfigureHttpLog (f : AccessLogFormat) (config : HttpGrpcAccessLogConfig)
  : HttpGrpcAccessLogConfig := foldl Fragment_ConfigureHttpLog config f.
Definition Format_ConfigureTcpLog (f : AccessLogFormat) (config : TcpGrpcAccessLogConfig)
  : TcpGrpcAccessLogConfig := foldl Fragment_ConfigureTcpLog config f.

(** ** The parser *)

Definition is_command_byte (c : ascii) : bool :=
  let n := N_of_ascii c in
  ((65 <=? n) && (n <=? 90) || (n =? 95) || (48 <=? n) && (n <=? 57))%N.
Definition is_digit_byte (c : ascii) : bool :=
  let n := N_of_ascii c in ((48 <=? n) && (n <=? 57))%N.

(** The optional group for the arguments, everything between a pair of
    parentheses: the arguments, if the group took part in the match, and the
    rest. *)
Definition match_args (s : string) : option (option string * string) :=
  match s with
  | String "(" s' =>
      match span (λ c, negb (Ascii.eqb c ")")) s' with
      | (args, String _ rest) => Some (Some args, rest)
      | (_, EmptyString) => None
      end
  | _ => Some (None, s)
  end.

(** The optional group for the limit: a colon and one or more digits. *)
Definition match_limit (s : string) : option (option string * string) :=
  match s with
  | String ":" s' =>
      match span is_digit_byte s' with
      | (EmptyString, _) => None
      | (limit, rest) => Some (Some limit, rest)
      end
  | _ => Some (None, s)
  end.

(** The text an operator is matched from. *)
Definition token_of (command : string) (args limit : option string) : string :=
  "%" +:+ command
  +:+ match args with Some a => "(" +:+ a +:+ ")" | None => "" end
  +:+ match limit with Some l => ":" +:+ l | None => "" end
  +:+ "%".

(** [commandWithArgsRE.FindStringSubmatch(tail)]: the whole match and the
    three groups, a group that took no part being empty. *)
Definition commandWithArgsRE (tail : string) : option (string * string * string * string) :=
  match tail with
  | String "%" s =>
      match span is_command_byte s with
      | (EmptyString, _) => None
      | (command, s1) =>
          match match_args s1 with
          | None => None
          | Some (args, s2) =>
              match match_limit s2 with
              | Some (limit, String "%" _) =>
                  Some (token_of command args limit, command, default "" args, default "" limit)
              | _ => None
              end
          end
      end
  | _ => None
  end.

(** [newlineRE], an unanchored search. *)
Definition newlineRE (s : string) : bool :=
  has_byte (ascii_of_N 0) s || has_byte (ascii_of_N 13) s || has_byte (ascii_of_N 10) s.

(** [startTimeNewlineRE]: a percent sign, flags, digits and an [n]; at the
    head of the text after the percent sign, and searched anywhere. *)
Definition startTimeNewline_at (s : string) : bool :=
  let flags := λ c, has_byte c "-_0^#" in
  let width := λ c, is_digit_byte c && negb (Ascii.eqb c "0") in
  match (span width (span flags s).2).2 with
  | String "n" _ => true
  | _ => false
  end.

Fixpoint startTimeNewlineRE (s : string) : bool :=
  match s with
  | EmptyString => false
  | String c s' => (Ascii.eqb c "%" && startTimeNewline_at s') || startTimeNewlineRE s'
  end.

(** [token[1:len(token)-n]]. *)
Definition token_body (token : string) (n : nat) : string :=
  stake (String.length token - n - 1) (sdrop 1 token).

Definition hasNoArguments (token command args limit : string) : bool :=
  String.eqb args "" &&
  ((String.eqb limit "" && String.eqb (token_body token 1) command)
   || (negb (String.eqb limit "")
       && String.eqb (token_body token (1 + (String.length limit + 1))) command)).

Definition parseOperator (token args limit : string) (separator : option ascii)
  : res (string * list string * Z) :=
  let? maxLen :=
    if negb (String.eqb limit "") then
      map_err (λ _, Errorf "length must be an integer, instead got %q in %q"
                 [AStr limit; AStr token]) (atoi limit)
    else Ok 0 in
  match separator with
  | Some sep =>
      match split_all sep args with
      | firstArg :: otherArgs => Ok (firstArg, otherArgs, maxLen)
      | [] => Panic
      end
  | None => Ok (args, [], maxLen)
  end.

Definition parseHeaderOperator (token command args limit : string) : res HeaderFormatter :=
  if hasNoArguments token command args limit then
    Err (Errorf "command %q requires a header and optional alternative header names as its arguments, instead got %q"
           [AStr (CommandOperatorDescriptor_String command); AStr token])
  else
    let? (header, altHeaders, maxLen) := parseOperator token args limit (Some "?"%char) in
    if Nat.ltb 1 (length altHeaders) then
      Err (Errorf "more than 1 alternative header specified in %q" [AStr token])
    else
      let altHeader := match altHeaders with a :: _ => a | [] => "" end in
      if newlineRE header || newlineRE altHeader then
        Err (Errorf "header name contains a newline in %q" [AStr token])
      else Ok (mkHeaderFormatter (to_lower header) (to_lower altHeader) maxLen).

Definition parseDynamicMetadataOperator (token command args limit : string)
  : res (string * list string * Z) :=
  let? (namespace, path, maxLen) := parseOperator token args limit (Some ":"%char) in
  if hasNoArguments token command args limit then
    Err (Errorf "command %q requires a filter namespace and optional path as its arguments, instead got %q"
           [AStr (CommandOperatorDescriptor_String command); AStr token])
  else Ok (namespace, path, maxLen).

Definition parseFilterStateOperator (token command args limit : string) : res (string * Z) :=
  let? (key, _, maxLen) := parseOperator token args limit None in
  if hasNoArguments token command args limit || String.eqb key "" then
    Err (Errorf "command %q requires a key as its argument, instead got %q"
           [AStr (CommandOperatorDescriptor_String command); AStr token])
  else Ok (key, maxLen).

Definition parseStartTimeOperator (token command args limit : string) : res string :=
  if startTimeNewlineRE args then
    Err (Errorf "start time format string contains a newline in %q" [AStr token])
  else Ok args.

Definition parseFieldOperator (token command args limit : string) : res string :=
  if negb (String.eqb (token_body token 1) command) then
    Err (Errorf "command %q doesn't support arguments or max length constraint, instead got %q"
           [AStr (CommandOperatorDescriptor_String command); AStr token])
  else Ok command.

Definition parseCommandOperator (token command args limit : string) : res AccessLogFragment :=
  if String.eqb command CMD_REQ then
    rmap RequestHeaderOperator (parseHeaderOperator token command args limit)
  else if String.eqb command CMD_RESP then
    rmap ResponseHeaderOperator (parseHeaderOperator token command args limit)
  else if String.eqb command CMD_TRAILER then
    rmap ResponseTrailerOperator (parseHeaderOperator token command args limit)
  else if String.eqb command CMD_DYNAMIC_METADATA then
    let? (namespace, path, maxLen) := parseDynamicMetadataOperator token command args limit in
    Ok (DynamicMetadataOperator namespace path maxLen)
  else if String.eqb command CMD_FILTER_STATE then
    let? (key, maxLen) := parseFilterStateOperator token command args limit in
    Ok (FilterStateOperator key maxLen)
  else if String.eqb command CMD_START_TIME then
    rmap StartTimeOperator (parseStartTimeOperator token command args limit)
  else
    let? field := parseFieldOperator token command args limit in
    Ok (if IsPlaceholder field then Placeholder field else FieldOperator field).

(** [format[start:pos]]. *)
Definition substring_at (format : string) (start pos : nat) : string :=
  stake (pos - start) (sdrop start format).

(** The [for] loop of [Parse]; [None] when the fuel runs out. *)
Fixpoint Parse_loop (fuel : nat) (format : string) (pos : nat) (textLiteralStart : option nat)
    (fragments : list AccessLogFragment) : option (res (list AccessLogFragment)) :=
  match fuel with
  | O => None
  | S fuel' =>
      match sdrop pos format with
      | EmptyString =>
          Some (Ok (fragments ++ match textLiteralStart with
                                 | Some start => [TextSpan (sdrop start format)]
                                 | None => []
                                 end))
      | String c _ as tail =>
          if Ascii.eqb c "%" then
            let fragments' := fragments ++ match textLiteralStart with
                                           | Some start => [TextSpan (substring_at format start pos)]
                                           | None => []
                                           end in
            match commandWithArgsRE tail with
            | None =>
                Some (Err (Errorf "expected a command operator to start at position %d, instead got: %q"
                             [AInt (Z.of_nat (S pos)); AStr tail]))
            | Some (token, command, args, limit) =>
                match parseCommandOperator token command args limit with
                | Ok operator =>
                    Parse_loop fuel' format (pos + String.length token) None
                      (fragments' ++ [operator])
                | Err e => Some (Err e)
                | Panic => Some Panic
                end
            end
          else
            Parse_loop fuel' format (S pos)
              (match textLiteralStart with Some start => Some start | None => Some pos end)
              fragments
      end
  end.

(** Each round consumes a byte, so this much fuel is enough ([Parse_total]). *)
Definition ParseFormat (format : string) : res AccessLogFormat :=
  match Parse_loop (S (String.length format)) format 0 None [] with
  | Some r => map_err (λ e, Wrapf e "format string is not valid" []) r
  | None => Panic
  end.

Definition ValidateFormat (format : string) : res unit := rmap (λ _, ()) (ParseFormat format).

Example parse_example :
  ParseFormat "[%START_TIME%] %REQ(:METHOD?X-Alt):10% %KUMA_MESH%"
  = Ok [TextSpan "["; StartTimeOperator ""; TextSpan "] ";
        RequestHeaderOperator (mkHeaderFormatter ":method" "x-alt" 10);
        TextSpan " "; Placeholder "KUMA_MESH"].
Proof. reflexivity. Qed.

Example parse_error_example :
  ParseFormat "%REQ%" = Err (Wrapf (Errorf
    "command %q requires a header and optional alternative header names as its arguments, instead got %q"
    [AStr "%REQ(X?Y):Z%"; AStr "%REQ%"]) "format string is not valid" []).
Proof. reflexivity. Qed.

(** ** The operator regular expression *)

Definition command_text (c : string) : Prop := c ≠ "" ∧ all_bytes is_command_byte c = true.
Definition args_text (a : option string) : Prop :=
  match a with Some a => has_byte ")" a = false | None => True end.
Definition limit_text (l : option string) : Prop :=
  match l with Some l => l ≠ "" ∧ all_bytes is_digit_byte l = true | None => True end.

Lemma match_args_app a r :
  args_text a → (a = None → match r with String "(" _ => False | _ => True end) →
  match_args (match a with Some a => "(" +:+ a +:+ ")" | None => "" end +:+ r) = Some (a, r).
Proof.
  destruct a as [a|]; simpl; intros Ha Hr.
  - rewrite string_app_assoc, span_app; [done| |done]. by apply all_bytes_not_byte.
  - specialize (Hr eq_refl). destruct r as [|c r]; [done|]. simpl.
    destruct c as [[] [] [] [] [] [] [] []]; done.
Qed.

Lemma match_limit_app l r :
  limit_text l → match r with String c _ => is_digit_byte c = false ∧ c ≠ ":"%char | _ => True end →
  match_limit (match l with Some l => ":" +:+ l | None => "" end +:+ r) = Some (l, r).
Proof.
  destruct l as [l|]; simpl; intros Hl Hr.
  - destruct Hl as [Hne Hd]. rewrite span_app; [|done|destruct r; naive_solver].
    by destruct l.
  - destruct r as [|c r]; [done|]. simpl. destruct Hr as [_ Hr].
    destruct c as [[] [] [] [] [] [] [] []]; done.
Qed.

Lemma RE_complete command args limit rest :
  command_text command → args_text args → limit_text limit →
  commandWithArgsRE (token_of command args limit +:+ rest)
  = Some (token_of command args limit, command, default "" args, default "" limit).
Proof.
  intros [Hne Hc] Ha Hl. unfold commandWithArgsRE, token_of at 1. simpl.
  rewrite !string_app_assoc. rewrite span_app; [|done|].
  2: { destruct args; [done|]. by destruct limit. }
  destruct command as [|c0 command]; [done|].
  rewrite match_args_app; [|done|by destruct limit].
  rewrite match_limit_app; [|done|by split]. done.
Qed.

Lemma match_args_inv s a r :
  match_args s = Some (a, r) →
  s = match a with Some a => "(" +:+ a +:+ ")" | None => "" end +:+ r ∧ args_text a.
Proof.
  destruct s as [|c s]; [by intros [= <- <-]|]. unfold match_args.
  destruct (Ascii.eqb_spec c "("%char) as [->|Hc].
  - destruct (span _ s) as [x [|d y]] eqn:E; [done|]. intros [= <- <-].
    apply span_spec in E as (-> & Hx & Hd). apply negb_false_iff, Ascii.eqb_eq in Hd as ->.
    simpl. rewrite string_app_assoc. split; [done|]. by apply all_bytes_not_byte.
  - destruct c as [[] [] [] [] [] [] [] []]; try (by destruct Hc); by intros [= <- <-].
Qed.

Lemma match_limit_inv s l r :
  match_limit s = Some (l, r) →
  s = match l with Some l => ":" +:+ l | None => "" end +:+ r ∧ limit_text l.
Proof.
  destruct s as [|c s]; [by intros [= <- <-]|]. unfold match_limit.
  destruct (Ascii.eqb_spec c ":"%char) as [->|Hc].
  - destruct (span _ s) as [[|d x] y] eqn:E; [done|]. intros [= <- <-].
    apply span_spec in E as (-> & Hx & Hd). done.
  - destruct c as [[] [] [] [] [] [] [] []]; try (by destruct Hc); by intros [= <- <-].
Qed.

Lemma RE_sound tail token command a l :
  commandWithArgsRE tail = Some (token, command, a, l) →
  ∃ args limit rest, tail = token +:+ rest ∧ token = token_of command args limit
    ∧ a = default "" args ∧ l = default "" limit
    ∧ command_text command ∧ args_text args ∧ limit_text limit.
Proof.
  destruct tail as [|c s]; [done|]. unfold commandWithArgsRE.
  destruct (Ascii.eqb_spec c "%"%char) as [->|Hc].
  2: { destruct c as [[] [] [] [] [] [] [] []]; done. }
  destruct (span is_command_byte s) as [[|c0 cmd] s1] eqn:E1; [done|].
  apply span_spec in E1 as (-> & Hcmd & _).
  destruct (match_args s1) as [[args s2]|] eqn:E2; [|done].
  apply match_args_inv in E2 as [-> Hargs].
  destruct (match_limit s2) as [[limit s3]|] eqn:E3; [|done].
  apply match_limit_inv in E3 as [-> Hlimit].
  destruct s3 as [|d rest]; [done|]. destruct (Ascii.eqb_spec d "%"%char) as [->|Hd].
  2: { destruct d as [[] [] [] [] [] [] [] []]; done. }
  intros [= <- <- <- <-]. exists args, limit, rest. unfold token_of.
  rewrite !string_app_assoc. done.
Qed.

(** ** Tokens *)

Lemma token_body_app x y : token_body ("%" +:+ x +:+ y) (String.length y) = x.
Proof.
  unfold token_body. simpl. rewrite string_length_app.
  replace (S (String.length x + String.length y) - String.length y - 1)%nat
    with (String.length x) by lia.
  apply stake_app.
Qed.

Lemma app_eq_self_l (s t : string) : s +:+ t = s → t = "".
Proof. induction s; simpl; [done|]. intros [= H]. auto. Qed.

Lemma token_body_command command args limit :
  limit_text limit →
  String.eqb (token_body (token_of command args limit) 1) command
  = bool_decide (args = None ∧ limit = None).
Proof.
  intros Hl. unfold token_of.
  set (x := match args with Some a => "(" +:+ a +:+ ")" | None => "" end).
  set (y := match limit with Some l => ":" +:+ l | None => "" end).
  replace (command +:+ x +:+ y +:+ "%") with ((command +:+ x +:+ y) +:+ "%")
    by (by rewrite !string_app_assoc).
  rewrite (token_body_app _ "%" : token_body _ 1 = _). apply eq_true_iff_eq.
  rewrite String.eqb_eq, bool_decide_eq_true. split.
  - intros H%app_eq_self_l. by destruct args, limit.
  - intros [-> ->]. apply string_app_empty_r.
Qed.

Lemma hasNoArguments_spec command args limit :
  limit_text limit →
  hasNoArguments (token_of command args limit) command (default "" args) (default "" limit)
  = bool_decide (args = None).
Proof.
  intros Hl. unfold hasNoArguments. rewrite token_body_command by done.
  destruct limit as [l|]; simpl.
  - destruct Hl as [Hne _]. rewrite (proj2 (String.eqb_neq l "")) by done. simpl.
    unfold token_of.
    set (x := match args with Some a => "(" +:+ a +:+ ")" | None => "" end).
    replace (command +:+ x +:+ (":" +:+ l) +:+ "%") with ((command +:+ x) +:+ ":" +:+ l +:+ "%")
      by (by rewrite !string_app_assoc).
    replace (S (String.length l + 1))%nat with (String.length (":" +:+ l +:+ "%"))
      by (simpl; rewrite string_length_app; simpl; lia).
    rewrite token_body_app. subst x. destruct args as [a|]; simpl.
    + destruct (String.eqb_spec a ""); [|done]. simpl. apply String.eqb_neq.
      intros H. by apply app_eq_self_l in H.
    + by rewrite string_app_empty_r, String.eqb_refl.
  - destruct args as [a|]; simpl; [|done]. by destruct (String.eqb a "").
Qed.

Lemma digit_bytes s : all_bytes is_digit_byte s = all_digits s.
Proof.
  induction s as [|c s IH]; simpl; [done|]. rewrite IH.
  assert (is_digit_byte c = true ↔ digit_val c ≠ None) as H.
  { unfold is_digit_byte, digit_val. rewrite andb_true_iff, !N.leb_le.
    destruct (Z.leb_spec 48 (Z.of_N (N_of_ascii c))), (Z.leb_spec (Z.of_N (N_of_ascii c)) 57);
      simpl; split; naive_solver lia. }
  destruct (is_digit_byte c), (digit_val c); naive_solver.
Qed.

(** ** Canonical text *)

Definition length_ok (n : Z) : Prop := 0 ≤ n < 2 ^ 63.

(** The limit group a canonical operator is printed with. *)
Definition limit_of (n : Z) : option string := if n =? 0 then None else Some (itoa n).

Lemma limit_of_text n : length_ok n → limit_text (limit_of n).
Proof.
  unfold limit_of, length_ok. destruct (Z.eqb_spec n 0); simpl; [done|]. intros.
  unfold itoa. rewrite (proj2 (Z.ltb_ge n 0)) by lia. rewrite digit_bytes.
  split; [apply format_uint_nonempty|]. apply format_uint_digits. lia.
Qed.

Lemma limit_String_of n :
  limit_String n = match limit_of n with Some l => ":" +:+ l | None => "" end.
Proof. unfold limit_String, limit_of. by destruct (n =? 0). Qed.

(** The length [parseOperator] reads back from a limit group. *)
Definition maxLen_of (limit : string) : res Z :=
  if negb (String.eqb limit "") then atoi limit else Ok 0.

Lemma maxLen_of_limit n : length_ok n → maxLen_of (default "" (limit_of n)) = Ok n.
Proof.
  intros Hn. pose proof (limit_of_text n Hn) as Ht. unfold maxLen_of, limit_of in *.
  destruct (Z.eqb_spec n 0) as [->|]; simpl in *; [done|]. destruct Ht as [Ht _].
  rewrite (proj2 (String.eqb_neq _ _) Ht). simpl. apply atoi_itoa. unfold length_ok in Hn. lia.
Qed.

Lemma maxLen_of_ok limit n :
  limit_text limit → maxLen_of (default "" limit) = Ok n → length_ok n.
Proof.
  unfold maxLen_of, length_ok. destruct limit as [l|]; simpl; [|by intros _ [= <-]].
  intros [Hne Hd]. rewrite (proj2 (String.eqb_neq _ _) Hne). simpl. rewrite digit_bytes in Hd.
  rewrite atoi_digits by done. intros [Hp ?]. apply parse_uint_bounds in Hp; lia.
Qed.

Lemma parseOperator_spec token args limit sep :
  parseOperator token args limit sep =
  let? n := map_err (λ _, Errorf "length must be an integer, instead got %q in %q"
                 [AStr limit; AStr token]) (maxLen_of limit) in
  match sep with
  | Some c => Ok (hd "" (split_all c args), tl (split_all c args), n)
  | None => Ok (args, [], n)
  end.
Proof.
  unfold parseOperator, maxLen_of. destruct (negb _); simpl.
  - destruct (atoi limit); simpl; [|done|done]. destruct sep as [c|]; [|done].
    destruct args as [|d args]; simpl; [done|]. destruct (Ascii.eqb c d); [done|].
    by destruct (split_all c args).
  - destruct sep as [c|]; [|done]. destruct args as [|d args]; simpl; [done|].
    destruct (Ascii.eqb c d); [done|]. by destruct (split_all c args).
Qed.

(** ** Well-formed fragments *)

Definition header_text (h : string) : Prop :=
  has_byte ")" h = false ∧ has_byte "?" h = false ∧ newlineRE h = false ∧ to_lower h = h.
Definition segment_text (s : string) : Prop := has_byte ")" s = false ∧ has_byte ":" s = false.
Definition wf_header (f : HeaderFormatter) : Prop :=
  header_text (hf_Header f) ∧ header_text (hf_AltHeader f) ∧ length_ok (hf_MaxLength f).

Definition special_commands : list string :=
  [CMD_REQ; CMD_RESP; CMD_TRAILER; CMD_DYNAMIC_METADATA; CMD_FILTER_STATE; CMD_START_TIME].

(** The operators a parsed format contains. *)
Definition wf_operator (f : AccessLogFragment) : Prop :=
  match f with
  | TextSpan _ => False
  | Placeholder c => command_text c ∧ (c ∉ special_commands) ∧ IsPlaceholder c = true
  | FieldOperator c => command_text c ∧ (c ∉ special_commands) ∧ IsPlaceholder c = false
  | RequestHeaderOperator h | ResponseHeaderOperator h | ResponseTrailerOperator h => wf_header h
  | DynamicMetadataOperator ns path n =>
      segment_text ns ∧ Forall segment_text path ∧ length_ok n
  | FilterStateOperator key n => key ≠ "" ∧ has_byte ")" key = false ∧ length_ok n
  | StartTimeOperator fmt => has_byte ")" fmt = false ∧ startTimeNewlineRE fmt = false
  end.

Lemma header_text_lower h :
  has_byte ")" h = false → has_byte "?" h = false → newlineRE h = false → header_text (to_lower h).
Proof.
  unfold header_text, newlineRE. intros H1 H2 H3.
  rewrite !to_lower_has_byte, to_lower_idem
    by (intros d; by destruct d as [[] [] [] [] [] [] [] []]). done.
Qed.

Lemma descriptor_plain c :
  c ∉ special_commands → CommandOperatorDescriptor_String c = token_of c None None.
Proof.
  intros Hc. unfold CommandOperatorDescriptor_String. change (token_of c None None) with ("%" +:+ c +:+ "%").
  destruct (List.find (λ e, String.eqb c e.1) descriptor_table) as [e|] eqn:E; [|done].
  apply List.find_some in E as [Hin Heq]. apply String.eqb_eq in Heq as ->.
  assert (forallb (λ e, bool_decide (e.1 ∈ special_commands)
    || String.eqb e.2 ("%" +:+ e.1 +:+ "%")) descriptor_table = true) as Ht by (by vm_compute).
  rewrite forallb_forall in Ht. specialize (Ht _ Hin).
  apply orb_true_iff in Ht as [?%bool_decide_eq_true_1|?%String.eqb_eq]; done.
Qed.

(** *** What the operator parser accepts *)

Lemma parseHeaderOperator_sound command args limit h :
  args_text args → limit_text limit →
  parseHeaderOperator (token_of command args limit) command (default "" args) (default "" limit)
    = Ok h → wf_header h.
Proof.
  intros Ha Hl. unfold parseHeaderOperator. rewrite hasNoArguments_spec by done.
  destruct args as [a|]; simpl; [|done]. rewrite parseOperator_spec.
  destruct (maxLen_of _) as [n|e|] eqn:Hn; simpl; [|done|done].
  pose proof (split_all_parts "?" ")" a (or_introl Ha)) as Hp.
  pose proof (split_all_parts "?" "?" a (or_intror eq_refl)) as Hq.
  rewrite split_all_ne in Hp, Hq. destruct (Nat.ltb_spec 1 (length (tl (split_all "?" a)))); [done|].
  inversion Hp as [|? ? Hp1 Hp2]; inversion Hq as [|? ? Hq1 Hq2]; subst.
  set (alt := match tl (split_all "?" a) with x :: _ => x | [] => "" end).
  assert (has_byte ")" alt = false ∧ has_byte "?" alt = false) as [Hb1 Hb2].
  { subst alt. destruct (tl _); [done|]. inversion Hp2; inversion Hq2; done. }
  destruct (newlineRE _) eqn:N1; simpl; [done|]. destruct (newlineRE alt) eqn:N2; simpl; [done|].
  intros [= <-]. split; [|split]; simpl; [by apply header_text_lower..|].
  by eapply maxLen_of_ok.
Qed.

Lemma operator_sound command args limit f :
  command_text command → args_text args → limit_text limit →
  parseCommandOperator (token_of command args limit) command (default "" args) (default "" limit)
    = Ok f → wf_operator f.
Proof.
  intros Hc Ha Hl. unfold parseCommandOperator.
  destruct (String.eqb_spec command CMD_REQ).
  { unfold rmap. rewrite rbind_Ok. intros (h & Hh & [= <-]). by eapply parseHeaderOperator_sound. }
  destruct (String.eqb_spec command CMD_RESP).
  { unfold rmap. rewrite rbind_Ok. intros (h & Hh & [= <-]). by eapply parseHeaderOperator_sound. }
  destruct (String.eqb_spec command CMD_TRAILER).
  { unfold rmap. rewrite rbind_Ok. intros (h & Hh & [= <-]). by eapply parseHeaderOperator_sound. }
  destruct (String.eqb_spec command CMD_DYNAMIC_METADATA).
  { unfold parseDynamicMetadataOperator. rewrite parseOperator_spec, hasNoArguments_spec by done.
    destruct (maxLen_of _) as [n'|e'|] eqn:Hn; simpl; [|done|done].
    destruct args as [a|]; simpl; [|done]. intros [= <-].
    pose proof (split_all_parts ":" ")" a (or_introl Ha)) as Hp.
    pose proof (split_all_parts ":" ":" a (or_intror eq_refl)) as Hq.
    rewrite split_all_ne in Hp, Hq. inversion Hp; inversion Hq; subst.
    split; [done|]. split; [by apply Forall_and|]. by eapply maxLen_of_ok. }
  destruct (String.eqb_spec command CMD_FILTER_STATE).
  { unfold parseFilterStateOperator. rewrite parseOperator_spec, hasNoArguments_spec by done.
    destruct (maxLen_of _) as [n'|e'|] eqn:Hn; simpl; [|done|done].
    destruct args as [a|]; simpl; [|done]. destruct (String.eqb_spec a ""); simpl; [done|].
    intros [= <-]. split; [done|]. split; [done|]. by eapply maxLen_of_ok. }
  destruct (String.eqb_spec command CMD_START_TIME).
  { unfold rmap, parseStartTimeOperator. destruct (startTimeNewlineRE _) eqn:E; simpl; [done|].
    intros [= <-]. split; [|done]. by destruct args. }
  unfold parseFieldOperator. destruct (negb _); simpl; [done|].
  assert (command ∉ special_commands) by (unfold special_commands; set_solver).
  intros [= <-]. destruct (IsPlaceholder command) eqn:E; simpl; done.
Qed.

(** *** What the canonical text is parsed as *)

Definition header_args (h : HeaderFormatter) : string :=
  hf_Header h +:+
  (if negb (String.eqb (hf_AltHeader h) "") then "?" +:+ hf_AltHeader h else "").

Lemma HeaderFormatter_String_args name h :
  "%" +:+ name +:+ HeaderFormatter_String h +:+ "%"
  = token_of name (Some (header_args h)) (limit_of (hf_MaxLength h)).
Proof.
  unfold HeaderFormatter_String, token_of. rewrite limit_String_of.
  assert ((if negb (String.eqb (hf_Header h) "") || negb (String.eqb (hf_AltHeader h) "")
    then header_args h else "") = header_args h) as E.
  { unfold header_args. destruct (String.eqb_spec (hf_Header h) "") as [->|]; [|done].
    by destruct (String.eqb (hf_AltHeader h) ""). }
  unfold header_args in E. rewrite E. fold (header_args h). by rewrite !string_app_assoc.
Qed.

Lemma header_args_text h : wf_header h → has_byte ")" (header_args h) = false.
Proof.
  intros ((H1 & _) & (H2 & _) & _). unfold header_args. rewrite has_byte_app, H1. simpl.
  destruct (negb _); simpl; [exact H2|done].
Qed.

Lemma split_header_args h :
  wf_header h →
  split_all "?" (header_args h)
  = hf_Header h :: (if negb (String.eqb (hf_AltHeader h) "") then [hf_AltHeader h] else []).
Proof.
  intros ((_ & H1 & _) & (_ & H2 & _) & _). unfold header_args. destruct (negb _); simpl.
  - by rewrite split_all_app, (split_all_none _ (hf_AltHeader h)).
  - by rewrite string_app_empty_r, split_all_none.
Qed.

Lemma parseHeaderOperator_complete name h :
  wf_header h →
  parseHeaderOperator (token_of name (Some (header_args h)) (limit_of (hf_MaxLength h))) name
    (header_args h) (default "" (limit_of (hf_MaxLength h))) = Ok h.
Proof.
  intros Hh. pose proof Hh as ((H1 & H2 & H3 & H4) & (H5 & H6 & H7 & H8) & Hn).
  unfold parseHeaderOperator.
  pose proof (hasNoArguments_spec name (Some (header_args h)) _ (limit_of_text _ Hn)) as E.
  simpl default in E. rewrite E. simpl. rewrite parseOperator_spec, maxLen_of_limit, split_header_args by done. simpl.
  destruct (String.eqb_spec (hf_AltHeader h) "") as [Ea|Ea]; simpl.
  - rewrite H3, H4. simpl. f_equal. destruct h; simpl in *. by subst.
  - rewrite H3, H4, H7, H8. simpl. by destruct h.
Qed.

Lemma path_text ns path :
  segment_text ns → Forall segment_text path →
  split_all ":" (ns +:+ path_String path) = ns :: path
  ∧ has_byte ")" (ns +:+ path_String path) = false.
Proof.
  intros Hns Hp. revert ns Hns; induction Hp as [|s path Hs Hp IH]; intros ns [H1 H2]; simpl.
  - rewrite string_app_empty_r. by rewrite split_all_none.
  - destruct (IH s Hs) as [E1 E2]. rewrite split_all_app, E1 by done. split; [done|].
    rewrite has_byte_app, H1. simpl. exact E2.
Qed.

Definition operator_parts (f : AccessLogFragment) : string * option string * option string :=
  match f with
  | TextSpan s => (s, None, None)
  | Placeholder c | FieldOperator c => (c, None, None)
  | RequestHeaderOperator h => (CMD_REQ, Some (header_args h), limit_of (hf_MaxLength h))
  | ResponseHeaderOperator h => (CMD_RESP, Some (header_args h), limit_of (hf_MaxLength h))
  | ResponseTrailerOperator h => (CMD_TRAILER, Some (header_args h), limit_of (hf_MaxLength h))
  | DynamicMetadataOperator ns path n =>
      (CMD_DYNAMIC_METADATA, Some (ns +:+ path_String path), limit_of n)
  | FilterStateOperator key n => (CMD_FILTER_STATE, Some key, limit_of n)
  | StartTimeOperator fmt =>
      (CMD_START_TIME, if String.eqb fmt "" then None else Some fmt, None)
  end.

Lemma operator_text f :
  wf_operator f →
  let '(command, args, limit) := operator_parts f in
  Fragment_String f = token_of command args limit
  ∧ command_text command ∧ args_text args ∧ limit_text limit.
Proof.
  destruct f as [s|c|c|h|h|h|ns path n|key n|fmt]; simpl; intros Hf.
  - done.
  - destruct Hf as (? & ? & _). by rewrite descriptor_plain.
  - destruct Hf as (? & ? & _). by rewrite descriptor_plain.
  - split; [apply (HeaderFormatter_String_args CMD_REQ)|]. split; [done|].
    split; [by apply header_args_text|]. apply limit_of_text, Hf.
  - split; [apply (HeaderFormatter_String_args CMD_RESP)|]. split; [done|].
    split; [by apply header_args_text|]. apply limit_of_text, Hf.
  - split; [apply (HeaderFormatter_String_args CMD_TRAILER)|]. split; [done|].
    split; [by apply header_args_text|]. apply limit_of_text, Hf.
  - destruct Hf as (Hns & Hp & Hn). unfold DynamicMetadataOperator_String, token_of.
    rewrite limit_String_of.
    split; [by rewrite !string_app_assoc|]. split; [done|].
    split; [by apply path_text|by apply limit_of_text].
  - destruct Hf as (_ & Hk & Hn). unfold FilterStateOperator_String, token_of. rewrite limit_String_of.
    split; [by rewrite !string_app_assoc|]. split; [done|]. split; [done|by apply limit_of_text].
  - destruct Hf as [Hf _]. unfold StartTimeOperator_String. destruct (String.eqb fmt ""); [done|].
    unfold token_of.
    split; [by rewrite !string_app_assoc|]. done.
Qed.

Lemma operator_parse f :
  wf_operator f →
  let '(command, args, limit) := operator_parts f in
  parseCommandOperator (token_of command args limit) command (default "" args) (default "" limit)
  = Ok f.
Proof.
  assert (∀ c, c ∉ special_commands →
    String.eqb c CMD_REQ = false ∧ String.eqb c CMD_RESP = false ∧ String.eqb c CMD_TRAILER = false
    ∧ String.eqb c CMD_DYNAMIC_METADATA = false ∧ String.eqb c CMD_FILTER_STATE = false
    ∧ String.eqb c CMD_START_TIME = false) as Hspec.
  { intros c Hc. rewrite !String.eqb_neq. unfold special_commands in Hc. set_solver. }
  destruct f as [s|c|c|h|h|h|ns path n|key n|fmt]; simpl; intros Hf; unfold parseCommandOperator.
  - done.
  - destruct Hf as (Hc & Hs & Hp). destruct (Hspec c Hs) as (-> & -> & -> & -> & -> & ->).
    unfold parseFieldOperator. rewrite token_body_command by done. simpl. by rewrite Hp.
  - destruct Hf as (Hc & Hs & Hp). destruct (Hspec c Hs) as (-> & -> & -> & -> & -> & ->).
    unfold parseFieldOperator. rewrite token_body_command by done. simpl. by rewrite Hp.
  - simpl. by rewrite parseHeaderOperator_complete.
  - simpl. by rewrite parseHeaderOperator_complete.
  - simpl. by rewrite parseHeaderOperator_complete.
  - destruct Hf as (Hns & Hp & Hn). simpl. unfold parseDynamicMetadataOperator.
    rewrite parseOperator_spec, maxLen_of_limit by done.
    pose proof (hasNoArguments_spec CMD_DYNAMIC_METADATA (Some (ns +:+ path_String path)) _
      (limit_of_text _ Hn)) as E. simpl default in E.
    destruct (path_text ns path Hns Hp) as [-> _]. simpl. by rewrite E.
  - destruct Hf as (Hne & Hk & Hn). simpl. unfold parseFilterStateOperator.
    rewrite parseOperator_spec, maxLen_of_limit by done.
    pose proof (hasNoArguments_spec CMD_FILTER_STATE (Some key) _ (limit_of_text _ Hn)) as E.
    simpl default in E. simpl. rewrite E. by rewrite (proj2 (String.eqb_neq _ _) Hne).
  - destruct Hf as [_ Hf]. simpl. unfold parseStartTimeOperator, rmap.
    assert (default "" (if String.eqb fmt "" then None else Some fmt) = fmt) as ->.
    { by destruct (String.eqb_spec fmt ""). }
    by rewrite Hf.
Qed.

(** ** The parsing loop

    [parse_ref] walks the text itself instead of indices into it: [pend] is
    the text literal under construction. *)

Definition flush (pend : string) : list AccessLogFragment :=
  if String.eqb pend "" then [] else [TextSpan pend].

Fixpoint parse_ref (fuel pos : nat) (pend tail : string) (frags : list AccessLogFragment)
  : option (res (list AccessLogFragment)) :=
  match fuel with
  | O => None
  | S f =>
      match tail with
      | EmptyString => Some (Ok (frags ++ flush pend))
      | String c tail' =>
          if Ascii.eqb c "%" then
            match commandWithArgsRE tail with
            | None =>
                Some (Err (Errorf "expected a command operator to start at position %d, instead got: %q"
                             [AInt (Z.of_nat (S pos)); AStr tail]))
            | Some (token, command, args, limit) =>
                match parseCommandOperator token command args limit with
                | Ok op =>
                    parse_ref f (pos + String.length token) "" (sdrop (String.length token) tail)
                      (frags ++ flush pend ++ [op])
                | Err e => Some (Err e)
                | Panic => Some Panic
                end
            end
          else parse_ref f (S pos) (pend +:+ String c "") tail' frags
      end
  end.

#[local] Arguments commandWithArgsRE _ : simpl never.
#[local] Arguments parseCommandOperator _ _ _ _ : simpl never.

Lemma string_app_snoc (s : string) c t : (s +:+ String c "") +:+ t = s +:+ String c t.
Proof. by rewrite string_app_assoc. Qed.

Lemma Parse_loop_ref fuel pre pend tail frags :
  Parse_loop fuel (pre +:+ pend +:+ tail) (String.length (pre +:+ pend))
    (if String.eqb pend "" then None else Some (String.length pre)) frags
  = parse_ref fuel (String.length (pre +:+ pend)) pend tail frags.
Proof.
  revert pre pend tail frags; induction fuel as [|f IH]; intros pre pend tail frags; [done|].
  simpl. rewrite <- string_app_assoc at 1. rewrite sdrop_app. destruct tail as [|c tail].
  { unfold flush. destruct (String.eqb_spec pend ""); [done|].
    by rewrite sdrop_app, string_app_empty_r. }
  destruct (Ascii.eqb_spec c "%"%char) as [->|Hc].
  - destruct (commandWithArgsRE _) as [[[[token cmd] a] l]|] eqn:E; [|done].
    destruct (parseCommandOperator token cmd a l) as [op|e|]; [|done|done].
    pose proof E as (args & limit & rest & Ht & _)%RE_sound.
    assert ((match (if String.eqb pend "" then None else Some (String.length pre)) with
      | Some start => [TextSpan (substring_at (pre +:+ pend +:+ String "%" tail) start
                         (String.length (pre +:+ pend)))]
      | None => [] end) = flush pend) as ->.
    { unfold flush. destruct (String.eqb pend ""); [done|]. unfold substring_at.
      rewrite sdrop_app, string_length_app.
      replace (String.length pre + String.length pend - String.length pre)%nat
        with (String.length pend) by lia. by rewrite stake_app. }
    specialize (IH (pre +:+ pend +:+ token) "" rest ((frags ++ flush pend) ++ [op])).
    simpl in IH. rewrite !string_app_empty_r, !string_app_assoc in IH. rewrite <- Ht in IH.
    replace (String.length (pre +:+ pend +:+ token))
      with (String.length (pre +:+ pend) + String.length token)%nat in IH
      by (rewrite !string_length_app; lia).
    rewrite IH, Ht, sdrop_app, <- app_assoc. done.
  - specialize (IH pre (pend +:+ String c "") tail frags).
    rewrite string_app_snoc in IH.
    replace (String.length (pre +:+ pend +:+ String c ""))
      with (S (String.length (pre +:+ pend))) in IH by (rewrite !string_length_app; simpl; lia).
    rewrite <- IH. rewrite (proj2 (String.eqb_neq (pend +:+ String c "") "")) by (by destruct pend).
    destruct (String.eqb_spec pend "") as [->|]; [|done]. by rewrite string_app_empty_r.
Qed.

Lemma ParseFormat_ref format :
  ParseFormat format =
  match parse_ref (S (String.length format)) 0 "" format [] with
  | Some r => map_err (λ e, Wrapf e "format string is not valid" []) r
  | None => Panic
  end.
Proof. unfold ParseFormat. by rewrite <- (Parse_loop_ref _ "" "" format []). Qed.

(** ** Well-formed formats *)

Definition no_text_head (fs : AccessLogFormat) : Prop :=
  match fs with TextSpan _ :: _ => False | _ => True end.

(** No empty literal, no percent sign in a literal, no two literals in a row. *)
Fixpoint wf_format (fs : AccessLogFormat) : Prop :=
  match fs with
  | [] => True
  | TextSpan s :: rest =>
      s ≠ "" ∧ has_byte "%" s = false
      ∧ no_text_head rest ∧ wf_format rest
  | f :: rest => wf_operator f ∧ wf_format rest
  end.

Lemma wf_format_op f fs : wf_operator f → wf_format fs → wf_format (f :: fs).
Proof. by destruct f. Qed.

Lemma wf_format_flush pend f fs :
  has_byte "%" pend = false → wf_operator f → wf_format fs →
  wf_format (flush pend ++ f :: fs).
Proof.
  intros Hp Hf Hfs. unfold flush. destruct (String.eqb_spec pend ""); [by apply wf_format_op|].
  split; [done|]. split; [done|]. split; [by destruct f|]. by apply wf_format_op.
Qed.

Lemma parse_ref_sound fuel pos pend tail frags fs :
  has_byte "%" pend = false → parse_ref fuel pos pend tail frags = Some (Ok fs) →
  ∃ gs, fs = frags ++ gs ∧ wf_format gs.
Proof.
  revert pos pend tail frags; induction fuel as [|f IH]; intros pos pend tail frags Hp; [done|].
  simpl. destruct tail as [|c tail].
  { intros [= <-]. exists (flush pend). split; [done|]. unfold flush.
    by destruct (String.eqb_spec pend ""). }
  destruct (Ascii.eqb_spec c "%"%char) as [->|Hc].
  - destruct (commandWithArgsRE _) as [[[[token cmd] a] l]|] eqn:E; [|done].
    apply RE_sound in E as (args & limit & rest & _ & -> & -> & -> & Hcmd & Ha & Hl).
    destruct (parseCommandOperator _ _ _ _) as [op|e|] eqn:Ho; [|done|done].
    apply operator_sound in Ho; [|done..].
    intros (gs & -> & Hgs)%IH; [|done]. exists (flush pend ++ op :: gs).
    split; [by rewrite <- !app_assoc|]. by apply wf_format_flush.
  - apply IH. rewrite has_byte_app, Hp. simpl. by rewrite (proj2 (Ascii.eqb_neq c "%")).
Qed.

Lemma parse_ref_text s fuel pos pend t frags :
  has_byte "%" s = false →
  parse_ref (String.length s + fuel) pos pend (s +:+ t) frags
  = parse_ref fuel (pos + String.length s) (pend +:+ s) t frags.
Proof.
  revert pos pend; induction s as [|c s IH]; intros pos pend Hs; simpl.
  { by rewrite Nat.add_0_r, string_app_empty_r. }
  simpl in Hs. apply orb_false_iff in Hs as [-> Hs]. rewrite IH by done.
  by rewrite string_app_snoc, Nat.add_succ_comm.
Qed.

Lemma Format_String_cons f fs : Format_String (f :: fs) = Fragment_String f +:+ Format_String fs.
Proof.
  unfold Format_String, join. destruct fs; [|done]. symmetry. apply string_app_empty_r.
Qed.

Lemma token_of_length c a l : (0 < String.length (token_of c a l))%nat.
Proof. unfold token_of. simpl. lia. Qed.

Lemma parse_ref_operator f fs pend fuel pos frags :
  wf_operator f →
  parse_ref (S fuel) pos pend (Fragment_String f +:+ Format_String fs) frags
  = parse_ref fuel (pos + String.length (Fragment_String f)) "" (Format_String fs)
      (frags ++ flush pend ++ [f]).
Proof.
  intros Hf. pose proof (operator_text f Hf) as Ht. pose proof (operator_parse f Hf) as Hop.
  destruct (operator_parts f) as [[cmd args] limit]. destruct Ht as (-> & Hc & Ha & Hl).
  cbn [parse_ref]. pose proof (RE_complete cmd args limit (Format_String fs) Hc Ha Hl) as E.
  destruct (token_of cmd args limit +:+ Format_String fs) as [|c tail] eqn:Et; [done|].
  assert (c = "%"%char) as -> by (by injection Et).
  cbn [Ascii.eqb]. rewrite E, Hop. simpl Bool.eqb. cbv iota.
  rewrite <- Et, sdrop_app. done.
Qed.

(** What the text of a list of fragments reads back as: neighbouring literals
    are joined and empty ones disappear. *)
Fixpoint merge_text (pend : string) (fs : AccessLogFormat) : AccessLogFormat :=
  match fs with
  | [] => flush pend
  | TextSpan s :: rest => merge_text (pend +:+ s) rest
  | f :: rest => flush pend ++ f :: merge_text "" rest
  end.

Definition printable (f : AccessLogFragment) : Prop :=
  match f with TextSpan s => has_byte "%" s = false | _ => wf_operator f end.

Lemma parse_ref_print fs fuel pos pend frags :
  Forall printable fs → (String.length (Format_String fs) < fuel)%nat →
  parse_ref fuel pos pend (Format_String fs) frags = Some (Ok (frags ++ merge_text pend fs)).
Proof.
  intros Hfs. revert fuel pos pend frags.
  induction Hfs as [|f fs Hf Hfs IH]; intros fuel pos pend frags Hlen.
  { destruct fuel; [simpl in Hlen; lia|done]. }
  assert (wf_operator f → parse_ref fuel pos pend (Format_String (f :: fs)) frags
    = Some (Ok (frags ++ flush pend ++ f :: merge_text "" fs))) as Hop.
  { intros Hf'. rewrite Format_String_cons in *. destruct fuel as [|fuel]; [lia|].
    rewrite parse_ref_operator by done. rewrite string_length_app in Hlen.
    pose proof (operator_text f Hf') as Ht. destruct (operator_parts f) as [[c a] l].
    destruct Ht as [Ht _]. pose proof (token_of_length c a l). rewrite Ht in *.
    rewrite IH by lia. by rewrite <- !app_assoc. }
  destruct f as [s| | | | | | | |]; try by apply Hop. clear Hop.
  rewrite Format_String_cons in *. simpl in *. rewrite string_length_app in Hlen.
  replace fuel with (String.length s + (fuel - String.length s))%nat by lia.
  rewrite parse_ref_text by done. apply IH. lia.
Qed.

Lemma wf_format_printable fs : wf_format fs → Forall printable fs.
Proof.
  induction fs as [|f fs IH]; intros Hwf; [constructor|].
  destruct f; simpl in Hwf; constructor; simpl; naive_solver.
Qed.

Lemma merge_text_wf fs : wf_format fs → merge_text "" fs = fs.
Proof.
  intros Hwf. enough (merge_text "" fs = fs ∧
    (∀ pend, no_text_head fs → merge_text pend fs = flush pend ++ fs)) by naive_solver.
  induction fs as [|f fs IH].
  { split; [done|]. intros. simpl. by rewrite app_nil_r. }
  destruct f as [s| | | | | | | |]; simpl in Hwf;
    [|by destruct Hwf as [_ Hwf]; destruct (IH Hwf) as [E _]; simpl; rewrite E..].
  destruct Hwf as (Hne & _ & Hr & Hwf). destruct (IH Hwf) as [_ IH2].
  split; [|done]. simpl. rewrite IH2 by done. unfold flush.
  by rewrite (proj2 (String.eqb_neq s "")).
Qed.

(** ** No panic *)

Lemma parseOperator_no_panic token args limit sep : parseOperator token args limit sep ≠ Panic.
Proof.
  rewrite parseOperator_spec. pose proof (atoi_no_panic limit).
  unfold maxLen_of. destruct (negb _); simpl; [|by destruct sep].
  destruct (atoi limit); simpl; [by destruct sep|done|done].
Qed.

Lemma rbind_no_panic {A B} (m : res A) (k : A → res B) :
  m ≠ Panic → (∀ a, k a ≠ Panic) → rbind m k ≠ Panic.
Proof. by destruct m; simpl. Qed.

Lemma parseHeaderOperator_no_panic token command args limit :
  parseHeaderOperator token command args limit ≠ Panic.
Proof.
  unfold parseHeaderOperator. destruct (hasNoArguments _ _ _ _); [done|].
  apply rbind_no_panic; [apply parseOperator_no_panic|]. intros [[h alt] n].
  destruct (Nat.ltb _ _); [done|]. by destruct (_ || _).
Qed.

Lemma parseCommandOperator_no_panic token command args limit :
  parseCommandOperator token command args limit ≠ Panic.
Proof.
  unfold parseCommandOperator, rmap. repeat case_match;
    (apply rbind_no_panic; [|by intros; repeat case_match]);
    try apply parseHeaderOperator_no_panic.
  - unfold parseDynamicMetadataOperator. apply rbind_no_panic; [apply parseOperator_no_panic|].
    intros [[ns path] n]. by destruct (hasNoArguments _ _ _ _).
  - unfold parseFilterStateOperator. apply rbind_no_panic; [apply parseOperator_no_panic|].
    intros [[ns path] n]. by destruct (hasNoArguments _ _ _ _ || _).
  - unfold parseStartTimeOperator. by destruct (startTimeNewlineRE args).
  - unfold parseFieldOperator. by destruct (negb _).
Qed.

Lemma parse_ref_total fuel pos pend tail frags :
  (String.length tail < fuel)%nat → ∃ r, parse_ref fuel pos pend tail frags = Some r ∧ r ≠ Panic.
Proof.
  revert pos pend tail frags; induction fuel as [|f IH]; intros pos pend tail frags Hlen; [lia|].
  simpl. destruct tail as [|c tail]; [by eexists|]. simpl in Hlen.
  destruct (Ascii.eqb c "%"); [|apply IH; lia].
  destruct (commandWithArgsRE _) as [[[[token cmd] a] l]|] eqn:E; [|by eexists].
  apply RE_sound in E as (args & limit & rest & Ht & Htok & _).
  pose proof (parseCommandOperator_no_panic token cmd a l).
  destruct (parseCommandOperator token cmd a l) as [op|e|]; [|by eexists|done].
  apply IH. rewrite Ht, sdrop_app. apply (f_equal String.length) in Ht.
  rewrite string_length_app in Ht. simpl in Ht.
  pose proof (token_of_length cmd args limit). subst token. lia.
Qed.

(** ** Properties *)

(** Parsing a format string always terminates with a format or with an
    error that says the format string is not valid; it never panics. *)
Theorem ParseFormat_total s :
  (∃ f, ParseFormat s = Ok f) ∨
  (∃ e, ParseFormat s = Err (Wrapf e "format string is not valid" [])).
Proof.
  rewrite ParseFormat_ref.
  destruct (parse_ref_total (S (String.length s)) 0 "" s []) as (r & -> & Hr); [lia|].
  destruct r; simpl; [left|right|]; naive_solver.
Qed.

Lemma ParseFormat_print fs :
  Forall printable fs → ParseFormat (Format_String fs) = Ok (merge_text "" fs).
Proof.
  intros Hfs. rewrite ParseFormat_ref, parse_ref_print by (done || lia). done.
Qed.

Lemma ParseFormat_wf s f : ParseFormat s = Ok f → wf_format f.
Proof.
  rewrite ParseFormat_ref. destruct (parse_ref _ _ _ _ _) as [[fs|e|]|] eqn:E; try done.
  apply parse_ref_sound in E as (gs & -> & Hgs); [|done]. by intros [= <-].
Qed.

Lemma Format_String_app f g : Format_String (f ++ g) = Format_String f +:+ Format_String g.
Proof.
  induction f as [|x f IH]; [done|]. by rewrite <- app_comm_cons, !Format_String_cons, IH, string_app_assoc.
Qed.

Lemma merge_text_String pend fs : Format_String (merge_text pend fs) = pend +:+ Format_String fs.
Proof.
  assert (∀ t, Format_String (flush t) = t) as Hf.
  { intros t. unfold flush. destruct (String.eqb_spec t "") as [->|]; [done|].
    rewrite Format_String_cons. apply string_app_empty_r. }
  revert pend. induction fs as [|f fs IH]; intros pend.
  { simpl. by rewrite Hf, string_app_empty_r. }
  destruct f; simpl; rewrite ?IH, ?Format_String_app, ?Format_String_cons, ?Hf, ?IH, ?string_app_assoc; done.
Qed.

(** What is not text. *)
Definition is_operator (f : AccessLogFragment) : bool := match f with TextSpan _ => false | _ => true end.

Lemma merge_text_operators pend fs :
  List.filter is_operator (merge_text pend fs) = List.filter is_operator fs.
Proof.
  assert (∀ t, List.filter is_operator (flush t) = []) as Hf by (intros t; unfold flush; by destruct (String.eqb t "")).
  revert pend. induction fs as [|f fs IH]; intros pend; [apply Hf|].
  destruct f; simpl; rewrite ?List.filter_app, ?Hf; simpl; by rewrite IH.
Qed.

(** C6: Formats and their texts.  Printing any format whose operators are
    well-formed and whose literals contain no percent sign, and parsing what was
    printed, gives the format back with neighbouring literals joined and empty
    ones removed; [merge_text] says which format that is: it is well-formed, has
    the same text and the same operators in the same order, and is the format
    itself when that is already well-formed (literals neither empty nor next to
    each other).  Conversely, every format the parser returns is well-formed, so
    that [String] is a canonical form of the format strings that are accepted. *)
Theorem ParseFormat_roundtrip :
  (∀ fs, Forall printable fs →
     ParseFormat (Format_String fs) = Ok (merge_text "" fs)
     ∧ wf_format (merge_text "" fs) ∧ Format_String (merge_text "" fs) = Format_String fs
     ∧ List.filter is_operator (merge_text "" fs) = List.filter is_operator fs)
  ∧ (∀ fs, wf_format fs → merge_text "" fs = fs ∧ ParseFormat (Format_String fs) = Ok fs)
  ∧ (∀ s f, ParseFormat s = Ok f → wf_format f ∧ ParseFormat (Format_String f) = Ok f).
Proof.
  assert (∀ fs, wf_format fs → merge_text "" fs = fs ∧ ParseFormat (Format_String fs) = Ok fs) as Hwf.
  { intros fs Hfs. pose proof (merge_text_wf fs Hfs) as Hm. split; [exact Hm|].
    rewrite ParseFormat_print by (by apply wf_format_printable). by rewrite Hm. }
  split; [|split; [exact Hwf|]].
  - intros fs Hfs. pose proof (ParseFormat_print fs Hfs) as Hp. split; [exact Hp|].
    split; [exact (ParseFormat_wf _ _ Hp)|]. split; [apply merge_text_String|apply merge_text_operators].
  - intros s f Hp%ParseFormat_wf. split; [exact Hp|]. by apply Hwf.
Qed.

Lemma ParseFormat_roundtrip_witness :
  (let fs := [TextSpan "a"; TextSpan ""; TextSpan "b "; RequestHeaderOperator (mkHeaderFormatter "x" "y" 7);
              TextSpan ""] in
   Format_String fs = "ab %REQ(x?y):7%"
   ∧ ParseFormat (Format_String fs) = Ok [TextSpan "ab "; RequestHeaderOperator (mkHeaderFormatter "x" "y" 7)])
  ∧ let s := "%REQ(X?Y):007% -> %DYNAMIC_METADATA(ns:a:b)%%KUMA_MESH%" in
    let f := [RequestHeaderOperator (mkHeaderFormatter "x" "y" 7); TextSpan " -> ";
              DynamicMetadataOperator "ns" ["a"; "b"] 0; Placeholder "KUMA_MESH"] in
    Format_String f = "%REQ(x?y):7% -> %DYNAMIC_METADATA(ns:a:b)%%KUMA_MESH%"
    ∧ ParseFormat (Format_String f) = Ok f.
Proof.
  split; (split; [reflexivity|]).
  - refine (proj1 (proj1 ParseFormat_roundtrip _ _)).
    repeat (constructor; [by repeat split|]). constructor.
  - refine (proj2 (proj2 (proj2 ParseFormat_roundtrip)
      "%REQ(X?Y):007% -> %DYNAMIC_METADATA(ns:a:b)%%KUMA_MESH%" _ _)). reflexivity.
Defined.

(** ** Interpolation *)

Definition interpolate_fragment (variables : gmap string string) (f : AccessLogFragment)
  : AccessLogFragment :=
  match f with Placeholder name => TextSpan (default "" (variables !! name)) | _ => f end.

Lemma Interpolate_loop_spec variables fs b :
  Interpolate_loop variables fs b
  = (interpolate_fragment variables <$> fs,
     b || existsb (λ f, match f with Placeholder _ => true | _ => false end) fs).
Proof.
  revert b; induction fs as [|f fs IH]; intros b; simpl; [by rewrite orb_false_r|].
  destruct f; rewrite IH; simpl; try done.
  by rewrite !orb_true_r.
Qed.

Lemma Interpolate_map variables fs : Interpolate variables fs = interpolate_fragment variables <$> fs.
Proof.
  unfold Interpolate. rewrite Interpolate_loop_spec. simpl.
  destruct (existsb _ fs) eqn:E; [done|].
  induction fs as [|f fs IH]; simpl in *; [done|]. apply orb_false_iff in E as [Ef E].
  f_equal; [by destruct f|by apply IH].
Qed.

(** Binding the placeholders of a parsed format leaves no placeholder,
    and when no bound value contains a percent sign the rendered text parses
    again, into the same operators in the same order with the bound values
    joined to the surrounding text: values cannot inject operators. *)
Theorem Interpolate_correct variables s f :
  ParseFormat s = Ok f →
  (∀ k v, variables !! k = Some v → has_byte "%" v = false) →
  (∀ name, Placeholder name ∉ Interpolate variables f)
  ∧ ParseFormat (Format_String (Interpolate variables f))
    = Ok (merge_text "" (interpolate_fragment variables <$> f)).
Proof.
  intros Hs Hv. pose proof (ParseFormat_wf _ _ Hs) as Hf.
  rewrite Interpolate_map. split.
  - intros name (g & Hg & _)%list_elem_of_fmap. by destruct g.
  - apply ParseFormat_print. apply wf_format_printable in Hf. apply Forall_fmap.
    eapply Forall_impl; [exact Hf|]. intros g Hg. destruct g as [|name| | | | | | |]; try done.
    simpl. destruct (variables !! name) eqn:E; [by eapply Hv|done].
Qed.

Lemma Interpolate_correct_witness :
  ParseFormat (Format_String (Interpolate {["KUMA_MESH" := "default"]}
    [TextSpan "mesh="; Placeholder "KUMA_MESH"; TextSpan " "; FieldOperator "BYTES_SENT"]))
  = Ok [TextSpan "mesh=default "; FieldOperator "BYTES_SENT"].
Proof.
  refine (proj2 (Interpolate_correct {["KUMA_MESH" := "default"]}
    "mesh=%KUMA_MESH% %BYTES_SENT%" _ _ _)); [reflexivity|].
  intros k v. rewrite lookup_singleton_Some. intros [_ <-]. reflexivity.
Defined.

(** ** Configuration *)

Lemma Contains_elem s x : stringList_Contains s x = true ↔ x ∈ s.
Proof.
  unfold stringList_Contains. rewrite existsb_exists. split.
  - intros (y & Hy & E). apply String.eqb_eq in E as ->. by apply list_elem_of_In.
  - intros Hx. exists x. rewrite String.eqb_eq. by rewrite <- list_elem_of_In.
Qed.

Lemma AppendToSet_elem s dest x : x ∈ AppendToSet s dest ↔ x ∈ s ∨ x ∈ dest.
Proof.
  unfold AppendToSet. revert dest; induction s as [|y s IH]; intros dest; simpl; [set_solver|].
  rewrite IH. destruct (stringList_Contains dest y) eqn:E; [|set_solver].
  apply Contains_elem in E. set_solver.
Qed.

Lemma AppendToSet_NoDup s dest : NoDup dest → NoDup (AppendToSet s dest).
Proof.
  unfold AppendToSet. revert dest; induction s as [|y s IH]; intros dest Hd; simpl; [done|].
  apply IH. destruct (stringList_Contains dest y) eqn:E; [done|].
  apply NoDup_app. split; [done|]. split; [|apply NoDup_singleton].
  intros x Hx Hy. apply list_elem_of_singleton in Hy as ->.
  apply Contains_elem in Hx. congruence.
Qed.

Lemma Filter_elem p s x : x ∈ stringList_Filter p s ↔ x ∈ s ∧ p x = true.
Proof. unfold stringList_Filter. by rewrite !list_elem_of_In, filter_In. Qed.

(** The headers and filter state objects a fragment needs in the log entry. *)
Definition needs_request (f : AccessLogFragment) : list string :=
  match f with
  | RequestHeaderOperator h =>
      stringList_Filter (λ x, negb (isAlwaysCapturedRequestHeader x)) (GetOperandHeaders h)
  | _ => []
  end.
Definition needs_response (f : AccessLogFragment) : list string :=
  match f with ResponseHeaderOperator h => GetOperandHeaders h | _ => [] end.
Definition needs_trailer (f : AccessLogFragment) : list string :=
  match f with ResponseTrailerOperator h => GetOperandHeaders h | _ => [] end.
Definition needs_state (f : AccessLogFragment) : list string :=
  match f with FilterStateOperator key _ => if String.eqb key "" then [] else [key] | _ => [] end.

Lemma foldl_append (needs : AccessLogFragment → list string) fs dest x :
  x ∈ foldl (λ d f, AppendToSet (needs f) d) dest fs ↔ x ∈ dest ∨ ∃ f, f ∈ fs ∧ x ∈ needs f.
Proof.
  revert dest; induction fs as [|f fs IH]; intros dest; simpl; [set_solver|].
  rewrite IH, AppendToSet_elem. set_solver.
Qed.

Lemma foldl_append_NoDup (needs : AccessLogFragment → list string) fs dest :
  NoDup dest → NoDup (foldl (λ d f, AppendToSet (needs f) d) dest fs).
Proof.
  revert dest; induction fs as [|f fs IH]; intros dest Hd; simpl; [done|].
  by apply IH, AppendToSet_NoDup.
Qed.

Lemma configure_filter_state_default key common :
  default [] (configure_filter_state key common)
  = AppendToSet (if String.eqb key "" then [] else [key]) (default [] common).
Proof.
  unfold configure_filter_state, FilterState_appendToSet.
  destruct (String.eqb key ""); [by destruct common as [[]|]|].
  destruct (AppendToSet [key] (default [] common)) as [|x l] eqn:E; [|done].
  assert (key ∈ @nil string) as H; [|by apply not_elem_of_nil in H].
  rewrite <- E. apply AppendToSet_elem. left. by constructor.
Qed.

Lemma ConfigureHttpLog_fold fs config :
  let c := Format_ConfigureHttpLog fs config in
  AdditionalRequestHeadersToLog c
    = foldl (λ d f, AppendToSet (needs_request f) d) (AdditionalRequestHeadersToLog config) fs
  ∧ AdditionalResponseHeadersToLog c
    = foldl (λ d f, AppendToSet (needs_response f) d) (AdditionalResponseHeadersToLog config) fs
  ∧ AdditionalResponseTrailersToLog c
    = foldl (λ d f, AppendToSet (needs_trailer f) d) (AdditionalResponseTrailersToLog config) fs
  ∧ default [] (http_CommonConfig c)
    = foldl (λ d f, AppendToSet (needs_state f) d) (default [] (http_CommonConfig config)) fs.
Proof.
  unfold Format_ConfigureHttpLog. revert config; induction fs as [|f fs IH]; intros config; [done|].
  simpl. destruct (IH (Fragment_ConfigureHttpLog config f)) as (-> & -> & -> & ->).
  destruct f; simpl; rewrite ?configure_filter_state_default; done.
Qed.

(** Configuring a gRPC HTTP access log adds exactly what the operators of
    the format read: every header named by a request, response or trailer
    operator and every filter state key (except the request headers Envoy
    always captures) ends up in the corresponding list, nothing else is added,
    what was there stays, and no duplicates are introduced. *)
Theorem ConfigureHttpLog_correct fs config :
  let c := Format_ConfigureHttpLog fs config in
  (∀ x, x ∈ AdditionalRequestHeadersToLog c ↔
     x ∈ AdditionalRequestHeadersToLog config ∨ ∃ h, RequestHeaderOperator h ∈ fs
       ∧ x ∈ GetOperandHeaders h ∧ isAlwaysCapturedRequestHeader x = false)
  ∧ (∀ x, x ∈ AdditionalResponseHeadersToLog c ↔
     x ∈ AdditionalResponseHeadersToLog config
     ∨ ∃ h, ResponseHeaderOperator h ∈ fs ∧ x ∈ GetOperandHeaders h)
  ∧ (∀ x, x ∈ AdditionalResponseTrailersToLog c ↔
     x ∈ AdditionalResponseTrailersToLog config
     ∨ ∃ h, ResponseTrailerOperator h ∈ fs ∧ x ∈ GetOperandHeaders h)
  ∧ (∀ x, x ∈ default [] (http_CommonConfig c) ↔
     x ∈ default [] (http_CommonConfig config)
     ∨ (x ≠ "" ∧ ∃ n, FilterStateOperator x n ∈ fs))
  ∧ (NoDup (AdditionalRequestHeadersToLog config) → NoDup (AdditionalRequestHeadersToLog c)).
Proof.
  destruct (ConfigureHttpLog_fold fs config) as (E1 & E2 & E3 & E4). simpl.
  rewrite E1, E2, E3, E4. setoid_rewrite foldl_append.
  split; [|split; [|split; [|split; [|apply foldl_append_NoDup]]]]; intros x; f_equiv; split.
  - intros (f & Hf & Hx). destruct f; simpl in Hx; try by apply not_elem_of_nil in Hx.
    apply Filter_elem in Hx as [? ?%negb_true_iff]. eauto.
  - intros (h & Hh & Hx & Hc). eexists; split; [exact Hh|]. simpl. apply Filter_elem. by rewrite Hc.
  - intros (f & Hf & Hx). destruct f; simpl in Hx; try by apply not_elem_of_nil in Hx. eauto.
  - intros (h & Hh & Hx). by eexists.
  - intros (f & Hf & Hx). destruct f; simpl in Hx; try by apply not_elem_of_nil in Hx. eauto.
  - intros (h & Hh & Hx). by eexists.
  - intros (f & Hf & Hx). destruct f as [| | | | | | |key n|]; simpl in Hx;
      try by apply not_elem_of_nil in Hx.
    destruct (String.eqb_spec key ""); [by apply not_elem_of_nil in Hx|].
    apply list_elem_of_singleton in Hx as ->. eauto.
  - intros (Hne & n & Hn). eexists; split; [exact Hn|]. simpl.
    rewrite (proj2 (String.eqb_neq x "")) by done. by constructor.
Qed.
