(* ===== verification/MeshValidator.v ===== *)
(** * The mesh validator

    Models [pkg/core/resources/apis/mesh/mesh_validator.go] and what it uses
    of [net/url]: [ParseRequestURI] as far as its errors and [Port] depend on
    it. *)

From Stdlib Require Import QArith.
From S2P Require Import Prelude GoStd Tags Dataplane Policy MeshResources Validators AccessLog.
Local Open Scope Z_scope.

(** ** net/url *)

Definition is_alpha (c : ascii) : bool :=
  let n := N_of_ascii c in
  ((97 <=? n) && (n <=? 122) || (65 <=? n) && (n <=? 90))%N.

Inductive encoding : Type := encodePath | encodeHost | encodeZone | encodeUserPassword.

(** [shouldEscape(c, mode)] for the host and the zone. *)
Definition shouldEscape_host (c : ascii) : bool :=
  negb (is_alpha c || is_digit_byte c || has_byte c "!$&'()*+,;=:[]<>-_.~"
        || Ascii.eqb c (ascii_of_N 34)).

(** [unescape]: [None] for an error. *)
Fixpoint unescape (mode : encoding) (s : string) : option string :=
  match s with
  | EmptyString => Some EmptyString
  | String c s' =>
      if Ascii.eqb c "%" then
        match s' with
        | String h (String l rest) =>
            match hex_val h, hex_val l with
            | Some x, Some y =>
                let v := ascii_of_N (Z.to_N (16 * x + y)) in
                let is25 := (x =? 2) && (y =? 5) in
                let refused :=
                  match mode with
                  | encodeHost => (x <? 8) && negb is25
                  | encodeZone => negb is25 && negb (Ascii.eqb v " ") && shouldEscape_host v
                  | _ => false
                  end in
                if refused then None else String v <$> unescape mode rest
            | _, _ => None
            end
        | _ => None
        end
      else
        let refused :=
          match mode with
          | encodeHost | encodeZone => (N_of_ascii c <? 128)%N && shouldEscape_host c
          | _ => false
          end in
        if refused then None else String c <$> unescape mode s'
  end.

(** [validOptionalPort]: empty, or a colon and digits. *)
Definition validOptionalPort (port : string) : bool :=
  match port with
  | EmptyString => true
  | String c digits => Ascii.eqb c ":" && all_bytes is_digit_byte digits
  end.

(** [strings.Index(s, "%25")]. *)
Fixpoint zone_index (s : string) : option nat :=
  match s with
  | EmptyString => None
  | String _ s' => if has_prefix "%25" s then Some 0%nat else S <$> zone_index s'
  end.

Definition parseHost (host : string) : option string :=
  if has_prefix "[" host then
    match last_index "]" host with
    | None => None
    | Some i =>
        if negb (validOptionalPort (sdrop (S i) host)) then None
        else match zone_index (stake i host) with
             | Some zone =>
                 match unescape encodeHost (stake zone host),
                       unescape encodeZone (stake (i - zone) (sdrop zone host)),
                       unescape encodeHost (sdrop i host) with
                 | Some h1, Some h2, Some h3 => Some (h1 +:+ h2 +:+ h3)
                 | _, _, _ => None
                 end
             | None => unescape encodeHost host
             end
    end
  else
    match last_index ":" host with
    | Some i => if negb (validOptionalPort (sdrop i host)) then None else unescape encodeHost host
    | None => unescape encodeHost host
    end.

Definition validUserinfo (s : string) : bool :=
  all_bytes (λ c, is_alpha c || is_digit_byte c || has_byte c "-._:~!$&'()*+,;=%@") s.

(** [parseAuthority]: the host; the user name and the password only fail. *)
Definition parseAuthority (authority : string) : option string :=
  match last_index "@" authority with
  | None => parseHost authority
  | Some i =>
      match parseHost (sdrop (S i) authority) with
      | None => None
      | Some host =>
          let userinfo := stake i authority in
          if negb (validUserinfo userinfo) then None
          else match byte_index ":" userinfo with
               | None => (λ _, host) <$> unescape encodeUserPassword userinfo
               | Some j =>
                   match unescape encodeUserPassword (stake j userinfo),
                         unescape encodeUserPassword (sdrop (S j) userinfo) with
                   | Some _, Some _ => Some host
                   | _, _ => None
                   end
               end
      end
  end.

(** [getscheme]: [None] for "missing protocol scheme", else the scheme and
    the rest. *)
Fixpoint getscheme_go (rawurl : string) (i : nat) (s : string) : option (string * string) :=
  match s with
  | EmptyString => Some ("", rawurl)
  | String c s' =>
      if is_alpha c then getscheme_go rawurl (S i) s'
      else if is_digit_byte c || has_byte c "+-." then
        if Nat.eqb i 0 then Some ("", rawurl) else getscheme_go rawurl (S i) s'
      else if Ascii.eqb c ":" then
        if Nat.eqb i 0 then None else Some (stake i rawurl, s')
      else Some ("", rawurl)
  end.
Definition getscheme (rawurl : string) : option (string * string) := getscheme_go rawurl 0 rawurl.

Definition containsCTLByte (s : string) : bool :=
  negb (all_bytes (λ c, ((32 <=? N_of_ascii c) && negb (N_of_ascii c =? 127))%N) s).

(** The text in front of the query. *)
Definition before_query (s : string) : string :=
  match byte_index "?" s with Some i => stake i s | None => s end.

(** [url.ParseRequestURI(rawurl)]: the host of the URL, or [None] for an
    error. *)
Definition ParseRequestURI (rawurl : string) : option string :=
  if containsCTLByte rawurl || String.eqb rawurl "" then None
  else if String.eqb rawurl "*" then Some ""
  else match getscheme rawurl with
       | None => None
       | Some (scheme, rest0) =>
           let rest := before_query rest0 in
           if negb (has_prefix "/" rest) then
             if negb (String.eqb scheme "") then Some "" else None
           else if negb (String.eqb scheme "") && has_prefix "//" rest then
             let body := sdrop 2 rest in
             let n := match byte_index "/" body with Some i => i | None => String.length body end in
             match parseAuthority (stake n body), unescape encodePath (sdrop n body) with
             | Some host, Some _ => Some host
             | _, _ => None
             end
           else (λ _, "") <$> unescape encodePath rest
       end.

(** [URL.Port]. *)
Definition url_Port (host : string) : string :=
  match last_index ":" host with
  | Some colon => if validOptionalPort (sdrop colon host) then sdrop (S colon) host else ""
  | None => ""
  end.

Example uri1 : url_Port <$> ParseRequestURI "http://zipkin.local:9411/v2/spans" = Some "9411".
Proof. reflexivity. Qed.
Example uri2 : ParseRequestURI "invalid-url" = None.
Proof. reflexivity. Qed.
Example uri3 : url_Port <$> ParseRequestURI "http://zipkin-us.local/v2/spans" = Some "".
Proof. reflexivity. Qed.

(** ** mesh_validator.go *)

(** The loop over the backends of a mesh section, with the names used so far. *)
Fixpoint backends_loop {B} (name : B → string) (validate : B → ValidationError) (i : nat)
    (backends : list B) (verr : ValidationError) (usedNames : gset string)
  : ValidationError * gset string :=
  match backends with
  | [] => (verr, usedNames)
  | backend :: rest =>
      let path := Path_Index (RootedAt "backends") i in
      let verr1 := AddError verr (Path_String path) (validate backend) in
      let verr2 :=
        if bool_decide (name backend ∈ usedNames)
        then AddViolationAt verr1 (Path_Field path "name")
               (quote (name backend) +:+ " name is already used for another backend")
        else verr1 in
      backends_loop name validate (S i) rest verr2 ({[name backend]} ∪ usedNames)
  end.

Definition validateMtls (mtls : option Mtls) : ValidationError :=
  match mtls with
  | None => []
  | Some mtls =>
      let (verr, usedNames) := backends_loop ca_Name (λ _, []) 0 (mtls_Backends mtls) [] ∅ in
      if negb (String.eqb (mtls_EnabledBackend mtls) "")
         && negb (bool_decide (mtls_EnabledBackend mtls ∈ usedNames))
      then AddViolation verr "enabledBackend" "has to be set to one of the backends in the mesh"
      else verr
  end.

Definition validateLoggingTcp (address : string) : ValidationError :=
  if String.eqb address "" then AddViolation [] "address" "cannot be empty"
  else match split_host_port address with
       | Ok (host, port) =>
           if String.eqb host "" || String.eqb port ""
           then AddViolation [] "address" "has to be in format of HOST:PORT" else []
       | _ => AddViolation [] "address" "has to be in format of HOST:PORT"
       end.

Definition validateLoggingFile (path : string) : ValidationError :=
  if String.eqb path "" then AddViolation [] "path" "cannot be empty" else [].

Definition validateLoggingBackend (backend : LoggingBackend) : ValidationError :=
  let verr := if String.eqb (lb_Name backend) ""
              then AddViolation [] "name" "cannot be empty" else [] in
  let verr := match ValidateFormat (lb_Format backend) with
              | Err err => AddViolation verr "format" (error_string err)
              | _ => verr
              end in
  match lb_Type backend with
  | Some (LogFile path) => AddError verr "file" (validateLoggingFile path)
  | Some (LogTcp address) => AddError verr "tcp" (validateLoggingTcp address)
  | None => verr
  end.

Definition validateLogging (logging : option Logging) : ValidationError :=
  match logging with
  | None => []
  | Some logging =>
      let (verr, usedNames) :=
        backends_loop lb_Name validateLoggingBackend 0 (log_Backends logging) [] ∅ in
      if negb (String.eqb (log_DefaultBackend logging) "")
         && negb (bool_decide (log_DefaultBackend logging ∈ usedNames))
      then AddViolation verr "defaultBackend" "has to be set to one of the logging backend in mesh"
      else verr
  end.

Definition validateZipkin (zipkin : Zipkin) : ValidationError :=
  let verr :=
    if String.eqb (z_Url zipkin) "" then AddViolation [] "url" "cannot be empty"
    else match ParseRequestURI (z_Url zipkin) with
         | None => AddViolation [] "url" "invalid URL"
         | Some host =>
             if String.eqb (url_Port host) ""
             then AddViolation [] "url" "port has to be explicitly specified" else []
         end in
  if negb (String.eqb (z_ApiVersion zipkin) "") && negb (String.eqb (z_ApiVersion zipkin) "httpJsonV1")
     && negb (String.eqb (z_ApiVersion zipkin) "httpJson")
     && negb (String.eqb (z_ApiVersion zipkin) "httpProto")
  then AddViolation verr "apiVersion"
         ("has invalid value. " +:+ AllowedValuesHint ["httpJsonV1"; "httpJson"; "httpProto"])
  else verr.

Definition validateTracingBackend (backend : TracingBackend) : ValidationError :=
  let sampling := default (Finite 0) (tb_Sampling backend) in
  let verr := if String.eqb (tb_Name backend) ""
              then AddViolation [] "name" "cannot be empty" else [] in
  let verr := if double_ltb sampling (Finite 0) || double_ltb (Finite 100) sampling
              then AddViolation verr "sampling" "has to be in [0.0 - 100.0] range" else verr in
  match tb_Zipkin backend with
  | Some zipkin => AddError verr "zipkin" (validateZipkin zipkin)
  | None => verr
  end.

Definition validateTracing (tracing : option Tracing) : ValidationError :=
  match tracing with
  | None => []
  | Some tracing =>
      let (verr, usedNames) :=
        backends_loop tb_Name validateTracingBackend 0 (trc_Backends tracing) [] ∅ in
      if negb (String.eqb (trc_DefaultBackend tracing) "")
         && negb (bool_decide (trc_DefaultBackend tracing ∈ usedNames))
      then AddViolation verr "defaultBackend" "has to be set to one of the tracing backend in mesh"
      else verr
  end.

Definition Mesh_Validate (m : MeshResource) : option ValidationError :=
  let verr := AddError [] "mtls" (validateMtls (mesh_Mtls (r_Spec m))) in
  let verr := AddError verr "logging" (validateLogging (mesh_Logging (r_Spec m))) in
  let verr := AddError verr "tracing" (validateTracing (mesh_Tracing (r_Spec m))) in
  OrNil verr.

(** ** Lemmas *)

Lemma backends_loop_spec {B} (name : B → string) validate i l verr used :
  let r := backends_loop name validate i l verr used in
  r.2 = list_to_set (name <$> l) ∪ used
  ∧ (r.1 = [] ↔ verr = [] ∧ Forall (λ b, validate b = []) l
       ∧ NoDup (name <$> l) ∧ ∀ b, b ∈ l → name b ∉ used).
Proof.
  revert i verr used; induction l as [|b l IH]; intros i verr used; simpl.
  { split; [set_solver|]. split; [|naive_solver]. intros ->.
    repeat split; [constructor|constructor|]. intros ? H. by apply not_elem_of_nil in H. }
  set (verr2 := if bool_decide _ then _ else _).
  destruct (IH (S i) verr2 ({[name b]} ∪ used)) as [IH1 IH2]. rewrite IH1, IH2.
  split; [set_solver|].
  assert (verr2 = [] ↔ verr = [] ∧ validate b = [] ∧ name b ∉ used) as ->.
  { subst verr2. case_bool_decide; rewrite ?AddViolationAt_nil, ?AddError_nil; naive_solver. }
  rewrite Forall_cons, NoDup_cons. rewrite list_elem_of_fmap.
  setoid_rewrite elem_of_cons. setoid_rewrite not_elem_of_union.
  setoid_rewrite not_elem_of_singleton. split.
  - intros ((-> & Hv & Hb) & Hl & Hnd & Hn). repeat split; try done.
    + intros (b' & Heq & Hb'). destruct (Hn b' Hb'). congruence.
    + intros b' [->|Hb']; [done|]. by apply Hn.
  - intros (-> & [Hv Hl] & [Hb Hnd] & Hn). repeat split; try done; try naive_solver.
Qed.

Lemma find_by_name {B} (name : B → string) l k :
  k ∈ name <$> l → ∃ b, List.find (λ b, String.eqb (name b) k) l = Some b ∧ name b = k ∧ b ∈ l.
Proof.
  intros Hk. destruct (List.find _ l) as [b|] eqn:E.
  - apply List.find_some in E as [Hin Hb]. apply String.eqb_eq in Hb. exists b.
    by rewrite list_elem_of_In.
  - apply list_elem_of_fmap in Hk as (b & -> & Hb). apply list_elem_of_In in Hb.
    pose proof (List.find_none _ _ E b Hb) as Hx. simpl in Hx. by rewrite String.eqb_refl in Hx.
Qed.

(** A default or enabled backend that passed the check names a backend. *)
Lemma backend_named {B} (name : B → string) validate l (k : string) verr used (f msg : string) :
  backends_loop name validate 0 l [] ∅ = (verr, used) →
  (if negb (String.eqb k "") && negb (bool_decide (k ∈ used))
   then AddViolation verr f msg else verr) = [] →
  Forall (λ b, validate b = []) l ∧ NoDup (name <$> l) ∧ (k ≠ "" → k ∈ name <$> l).
Proof.
  intros Hl. destruct (backends_loop_spec name validate 0 l [] ∅) as [H1 H2].
  rewrite Hl in H1, H2. simpl in H1, H2.
  destruct (String.eqb_spec k ""); simpl.
  - intros Hv. apply H2 in Hv as (_ & ? & ? & _). naive_solver.
  - case_bool_decide as Hk; simpl; [|by rewrite AddViolation_nil].
    intros Hv. apply H2 in Hv as (_ & ? & ? & _). split; [done|]. split; [done|].
    intros _. rewrite H1 in Hk. set_solver.
Qed.

Lemma validateLoggingBackend_nil b :
  validateLoggingBackend b = [] → lb_Name b ≠ "" ∧ is_ok (ParseFormat (lb_Format b)) = true.
Proof.
  unfold validateLoggingBackend, ValidateFormat, rmap.
  destruct (String.eqb_spec (lb_Name b) "") as [E|E].
  - intros H. exfalso. revert H.
    destruct (rbind _ _), (lb_Type b) as [[]|]; rewrite ?AddError_nil, ?AddViolation_nil; naive_solver.
  - intros H. split; [done|]. destruct (ParseFormat_total (lb_Format b)) as [[f ->]|[e He]]; [done|].
    rewrite He in H. simpl in H.
    destruct (lb_Type b) as [[]|]; rewrite ?AddError_nil, ?AddViolation_nil in H; naive_solver.
Qed.

Lemma validateTracingBackend_nil b z :
  validateTracingBackend b = [] → tb_Zipkin b = Some z →
  ∃ host, ParseRequestURI (z_Url z) = Some host ∧ url_Port host ≠ "".
Proof.
  unfold validateTracingBackend. intros H Hz. rewrite Hz in H.
  apply AddError_nil in H as [_ H]. unfold validateZipkin in H.
  assert (∀ (c : bool) v f m, (if c then AddViolation v f m else v) = [] → v = []) as Hif.
  { intros [] v f m; [by rewrite AddViolation_nil|done]. }
  apply Hif in H. destruct (String.eqb _ ""); [by apply AddViolation_nil in H|].
  destruct (ParseRequestURI _) as [host|]; [|by apply AddViolation_nil in H].
  exists host. split; [done|]. destruct (String.eqb_spec (url_Port host) ""); [|done].
  by apply AddViolation_nil in H.
Qed.

(** A logging section that passed: unique names, an existing default, and
    backends that passed. *)
Lemma validateLogging_nil l :
  validateLogging (Some l) = [] →
  Forall (λ b, validateLoggingBackend b = []) (log_Backends l) ∧ NoDup (lb_Name <$> log_Backends l)
  ∧ (log_DefaultBackend l ≠ "" → log_DefaultBackend l ∈ lb_Name <$> log_Backends l).
Proof.
  unfold validateLogging. destruct (backends_loop _ _ _ _ _ _) as [verr used] eqn:E.
  apply (backend_named _ _ _ _ _ _ _ _ E).
Qed.

Lemma Mesh_Validate_nil m :
  Mesh_Validate m = None ↔ validateMtls (mesh_Mtls (r_Spec m)) = []
    ∧ validateLogging (mesh_Logging (r_Spec m)) = [] ∧ validateTracing (mesh_Tracing (r_Spec m)) = [].
Proof. unfold Mesh_Validate. rewrite OrNil_None, !AddError_nil. tauto. Qed.

(** The enabled authority of a valid mesh is one of its backends. *)
Lemma validateMtls_enabled m :
  validateMtls (mesh_Mtls (r_Spec m)) = [] → MTLSEnabled (Some m) = true →
  ∃ b, GetEnabledCertificateAuthorityBackend m = Some b
    ∧ Some (ca_Name b) = mtls_EnabledBackend <$> mesh_Mtls (r_Spec m)
    ∧ b ∈ default [] (mtls_Backends <$> mesh_Mtls (r_Spec m)).
Proof.
  intros Hm. unfold MTLSEnabled, GetEnabledCertificateAuthorityBackend, GetCertificateAuthorityBackend.
  destruct (mesh_Mtls (r_Spec m)) as [mt|]; simpl; [|done]. unfold validateMtls in Hm.
  destruct (backends_loop _ _ _ _ _ _) as [verr used] eqn:E.
  apply (backend_named _ _ _ _ _ _ _ _ E) in Hm as (_ & _ & Hk).
  rewrite negb_true_iff, String.eqb_neq. intros Hne.
  destruct (find_by_name ca_Name (mtls_Backends mt) _ (Hk Hne)) as (b & Hb & Hn & Hin).
  exists b. by rewrite Hb, Hn.
Qed.

(** ** Properties *)

(** A mesh that passes validation can be used by the rest of the control
    plane: when mTLS is enabled the enabled CA backend exists, a default
    tracing or logging backend that is named exists, backend names are unique,
    every logging backend has a name and a format that parses, and every Zipkin
    backend has a URL that parses and names a port. *)
Theorem Mesh_Validate_sound m :
  Mesh_Validate m = None →
  (MTLSEnabled (Some m) = true →
     ∃ b, GetEnabledCertificateAuthorityBackend m = Some b
       ∧ Some (ca_Name b) = mtls_EnabledBackend <$> mesh_Mtls (r_Spec m))
  ∧ (∀ t, mesh_Tracing (r_Spec m) = Some t →
      NoDup (tb_Name <$> trc_Backends t)
      ∧ (trc_DefaultBackend t ≠ "" → is_Some (GetTracingBackend m ""))
      ∧ (∀ b z, b ∈ trc_Backends t → tb_Zipkin b = Some z →
           ∃ host, ParseRequestURI (z_Url z) = Some host ∧ url_Port host ≠ ""))
  ∧ (∀ l, mesh_Logging (r_Spec m) = Some l →
      NoDup (lb_Name <$> log_Backends l)
      ∧ (log_DefaultBackend l ≠ "" → log_DefaultBackend l ∈ lb_Name <$> log_Backends l)
      ∧ (∀ b, b ∈ log_Backends l →
           lb_Name b ≠ "" ∧ is_ok (ParseFormat (lb_Format b)) = true)).
Proof.
  rewrite Mesh_Validate_nil. intros (Hm & Hl & Ht).
  split; [|split].
  - intros He. destruct (validateMtls_enabled m Hm He) as (b & ? & ? & _). eauto.
  - intros t Et. rewrite Et in Ht. unfold validateTracing in Ht.
    destruct (backends_loop _ _ _ _ _ _) as [verr used] eqn:E.
    apply (backend_named _ _ _ _ _ _ _ _ E) in Ht as (Hv & Hnd & Hk).
    split; [done|]. split.
    + intros Hne. unfold GetTracingBackend, tracing_backends. rewrite Et. simpl.
      apply Hk, list_elem_of_fmap in Hne as (b & Hb & Hin).
      by eapply (proj2 (backends_by_name_lookup tb_Name _ _) b).
    + intros b z Hb Hz. rewrite Forall_forall in Hv. by eapply validateTracingBackend_nil; [apply Hv|].
  - intros l El. rewrite El in Hl. apply validateLogging_nil in Hl as (Hv & Hnd & Hk).
    split; [done|]. split; [done|]. intros b Hb. rewrite Forall_forall in Hv.
    by apply validateLoggingBackend_nil, Hv.
Qed.

Definition sample_mesh : MeshResource :=
  mkResource (mkMeta "default" "default" "1" 0 0)
    (mkMesh (Some (mkMtls "ca-1" [mkCaBackend "ca-1" "builtin" None]))
       (Some (mkTracing "zipkin" [mkTracingBackend "zipkin" (Some (Finite 50))
          (Some (mkZipkin "http://zipkin.local:9411/v2/spans" false "httpJson"))]))
       (Some (mkLogging "file" [mkLoggingBackend "file" "%START_TIME% %KUMA_MESH%"
          (Some (LogFile "/tmp/access.log"))]))
       None).

Lemma Mesh_Validate_sound_witness :
  ∃ b, GetEnabledCertificateAuthorityBackend sample_mesh = Some b
    ∧ Some (ca_Name b) = mtls_EnabledBackend <$> mesh_Mtls (r_Spec sample_mesh).
Proof.
  refine (proj1 (Mesh_Validate_sound sample_mesh _) _); reflexivity.
Defined.
