(* ===== verification/Insights.v ===== *)
(** * Dataplane insights

    The [DataplaneInsight] messages and
    [api/mesh/v1alpha1/dataplane_insight_helpers.go].  [uint64] counters wrap
    around at [2 ^ 64]. *)

From S2P Require Import Prelude GoStd.
Local Open Scope Z_scope.

Definition wrap64 (z : Z) : Z := z mod 2 ^ 64.

(** [google.protobuf.Timestamp]. *)
Record Timestamp : Type := mkTimestamp { ts_Seconds : Z; ts_Nanos : Z }.
#[global] Instance Timestamp_eq_dec : EqDecision Timestamp.
Proof. solve_decision. Defined.

Record DiscoveryServiceStats : Type := mkStats {
  ResponsesSent : Z;
  ResponsesAcknowledged : Z;
  ResponsesRejected : Z;
}.
#[global] Instance DiscoveryServiceStats_eq_dec : EqDecision DiscoveryServiceStats.
Proof. solve_decision. Defined.

Definition emptyStats : DiscoveryServiceStats := mkStats 0 0 0.

Record DiscoverySubscriptionStatus : Type := mkStatus {
  LastUpdateTime : option Timestamp;
  Total : option DiscoveryServiceStats;
  Cds : option DiscoveryServiceStats;
  Eds : option DiscoveryServiceStats;
  Lds : option DiscoveryServiceStats;
  Rds : option DiscoveryServiceStats;
}.
#[global] Instance DiscoverySubscriptionStatus_eq_dec : EqDecision DiscoverySubscriptionStatus.
Proof. solve_decision. Defined.

Record DiscoverySubscription : Type := mkSubscription {
  sub_Id : string;
  sub_ControlPlaneInstanceId : string;
  sub_ConnectTime : option Timestamp;
  sub_DisconnectTime : option Timestamp;
  sub_Status : option DiscoverySubscriptionStatus;
}.
#[global] Instance DiscoverySubscription_eq_dec : EqDecision DiscoverySubscription.
Proof. solve_decision. Defined.

Record DataplaneInsight : Type := mkInsight { Subscriptions : list DiscoverySubscription }.

Definition NewSubscriptionStatus : DiscoverySubscriptionStatus :=
  {| LastUpdateTime := None; Total := Some emptyStats; Cds := Some emptyStats;
     Eds := Some emptyStats; Lds := Some emptyStats; Rds := Some emptyStats |}.

Definition IsOnline (ds : DataplaneInsight) : bool :=
  existsb (λ s, match sub_ConnectTime s, sub_DisconnectTime s with
                | Some _, None => true
                | _, _ => false
                end) (Subscriptions ds).

(** The loop of [GetSubscription]: the index and the subscription. *)
Fixpoint GetSubscription_loop (id : string) (i : nat) (l : list DiscoverySubscription)
  : option (nat * DiscoverySubscription) :=
  match l with
  | [] => None
  | s :: rest =>
      if String.eqb (sub_Id s) id then Some (i, s) else GetSubscription_loop id (S i) rest
  end.

Definition GetSubscription (ds : DataplaneInsight) (id : string)
  : option (nat * DiscoverySubscription) := GetSubscription_loop id 0 (Subscriptions ds).

Definition UpdateSubscription (ds : DataplaneInsight) (s : DiscoverySubscription)
  : DataplaneInsight :=
  match GetSubscription ds (sub_Id s) with
  | Some (i, _) => mkInsight (<[i := s]> (Subscriptions ds))
  | None => mkInsight (Subscriptions ds ++ [s])
  end.

Definition Sum (ds : DataplaneInsight) (v : DiscoverySubscription → Z) : Z :=
  foldl (λ result s, wrap64 (result + v s)) 0 (Subscriptions ds).

(** [envoy_cache] resource types. *)
Definition ClusterType : string := "type.googleapis.com/envoy.api.v2.Cluster".
Definition EndpointType : string := "type.googleapis.com/envoy.api.v2.ClusterLoadAssignment".
Definition ListenerType : string := "type.googleapis.com/envoy.api.v2.Listener".
Definition RouteType : string := "type.googleapis.com/envoy.api.v2.RouteConfiguration".

(** [StatsOf(typeUrl)] returns a pointer into the status, created on demand,
    which its callers update; [StatsOf_modify] is that update with [f].  An
    unknown type gets a fresh object nobody sees. *)
Definition StatsOf_modify (f : DiscoveryServiceStats → DiscoveryServiceStats)
    (s : DiscoverySubscriptionStatus) (typeUrl : string) : DiscoverySubscriptionStatus :=
  if String.eqb typeUrl ClusterType then
    mkStatus (LastUpdateTime s) (Total s) (Some (f (default emptyStats (Cds s))))
      (Eds s) (Lds s) (Rds s)
  else if String.eqb typeUrl EndpointType then
    mkStatus (LastUpdateTime s) (Total s) (Cds s) (Some (f (default emptyStats (Eds s))))
      (Lds s) (Rds s)
  else if String.eqb typeUrl ListenerType then
    mkStatus (LastUpdateTime s) (Total s) (Cds s) (Eds s)
      (Some (f (default emptyStats (Lds s)))) (Rds s)
  else if String.eqb typeUrl RouteType then
    mkStatus (LastUpdateTime s) (Total s) (Cds s) (Eds s) (Lds s)
      (Some (f (default emptyStats (Rds s))))
  else s.

Section Latest.
(** [ptypes.Timestamp]: the instant of a timestamp, or [None] for an error
    (nil, or out of range). *)
Context (ptypes_Timestamp : option Timestamp → option Z).

(** The loop of [GetLatestSubscription]: the index and time of the best so
    far. *)
Fixpoint GetLatest_loop (i : nat) (l : list DiscoverySubscription) (idx : nat)
    (latest : option Z) : nat * option Z :=
  match l with
  | [] => (idx, latest)
  | s :: rest =>
      match ptypes_Timestamp (sub_ConnectTime s) with
      | None => GetLatest_loop (S i) rest idx latest
      | Some t =>
          match latest with
          | None => GetLatest_loop (S i) rest i (Some t)
          | Some l' =>
              if l' <? t then GetLatest_loop (S i) rest i (Some t)
              else GetLatest_loop (S i) rest idx latest
          end
      end
  end.

Definition GetLatestSubscription (ds : DataplaneInsight)
  : option DiscoverySubscription * option Z :=
  match Subscriptions ds with
  | [] => (None, None)
  | subs =>
      let (idx, latest) := GetLatest_loop 0 subs 0 None in
      (subs !! idx, latest)
  end.

(** ** Lemmas *)

Definition time_of (s : DiscoverySubscription) : option Z := ptypes_Timestamp (sub_ConnectTime s).

(** What the loop has found after the prefix [done]. *)
Definition latest_of (subs : list DiscoverySubscription) (idx : nat) (latest : option Z) : Prop :=
  match latest with
  | None => idx = 0%nat ∧ ∀ s, s ∈ subs → time_of s = None
  | Some t =>
      (∃ s, subs !! idx = Some s ∧ time_of s = Some t)
      ∧ (∀ s u, s ∈ subs → time_of s = Some u → u ≤ t)
      ∧ (∀ j s u, (j < idx)%nat → subs !! j = Some s → time_of s = Some u → u < t)
  end.

Lemma GetLatest_loop_spec pre l idx latest idx' latest' :
  latest_of pre idx latest →
  GetLatest_loop (length pre) l idx latest = (idx', latest') → latest_of (pre ++ l) idx' latest'.
Proof.
  revert pre idx latest; induction l as [|s l IH]; intros pre idx latest Hpre; simpl.
  { intros [= <- <-]. by rewrite app_nil_r. }
  change (s :: l) with ([s] ++ l). rewrite app_assoc.
  replace (S (length pre)) with (length (pre ++ [s])) by (rewrite length_app; simpl; lia).
  assert ((pre ++ [s]) !! length pre = Some s) as Hs by (by apply list_lookup_middle).
  assert (∀ x, x ∈ pre ++ [s] → x ∈ pre ∨ x = s) as Hin by set_solver.
  assert (∀ j x, (j < length pre)%nat → (pre ++ [s]) !! j = Some x → x ∈ pre) as Hlt.
  { intros j x Hj Hx. rewrite lookup_app_l in Hx by done. by eapply list_elem_of_lookup_2. }
  destruct (ptypes_Timestamp _) as [t|] eqn:Et; fold (time_of s) in Et.
  - destruct latest as [t'|]; [destruct (Z.ltb_spec t' t)|]; apply IH.
    + destruct Hpre as (_ & Hmax & _). split; [eauto|]. split.
      * intros x u [Hx| ->]%Hin Hu; [specialize (Hmax x u Hx Hu); lia|]. simplify_eq. lia.
      * intros j x u Hj Hx Hu. specialize (Hmax x u (Hlt j x Hj Hx) Hu). lia.
    + destruct Hpre as ((s' & Hs' & Ht') & Hmax & Hfst).
      assert (idx < length pre)%nat by (by eapply lookup_lt_Some). split.
      { exists s'. by rewrite lookup_app_l. } split.
      * intros x u [Hx| ->]%Hin Hu; [by eapply Hmax|]. simplify_eq. lia.
      * intros j x u Hj Hx Hu. rewrite lookup_app_l in Hx by lia. by eapply Hfst.
    + destruct Hpre as [_ Hnone]. split; [eauto|]. split.
      * intros x u [Hx| ->]%Hin Hu; [by rewrite Hnone in Hu|]. simplify_eq. lia.
      * intros j x u Hj Hx Hu. by rewrite (Hnone x (Hlt j x Hj Hx)) in Hu.
  - apply IH. destruct latest as [t'|].
    + destruct Hpre as ((s' & Hs' & Ht') & Hmax & Hfst).
      assert (idx < length pre)%nat by (by eapply lookup_lt_Some). split.
      { exists s'. by rewrite lookup_app_l. } split.
      * intros x u [Hx| ->]%Hin Hu; [by eapply Hmax|congruence].
      * intros j x u Hj Hx Hu. rewrite lookup_app_l in Hx by lia. by eapply Hfst.
    + destruct Hpre as [-> Hnone]. split; [done|]. intros x [Hx| ->]%Hin; auto.
Qed.

(** The latest subscription of an insight never indexes out of range: it
    is the first one among those with the greatest valid connect time; when no
    connect time is valid it is the first subscription, without a time; an
    insight without subscriptions has none. *)
Theorem GetLatestSubscription_correct ds :
  match GetLatestSubscription ds with
  | (None, t) => Subscriptions ds = [] ∧ t = None
  | (Some s, None) =>
      Subscriptions ds !! 0%nat = Some s ∧ ∀ s', s' ∈ Subscriptions ds → time_of s' = None
  | (Some s, Some t) =>
      ∃ i, Subscriptions ds !! i = Some s ∧ time_of s = Some t
        ∧ (∀ s' u, s' ∈ Subscriptions ds → time_of s' = Some u → u ≤ t)
        ∧ (∀ j s' u, (j < i)%nat → Subscriptions ds !! j = Some s' → time_of s' = Some u → u < t)
  end.
Proof.
  unfold GetLatestSubscription. destruct (Subscriptions ds) as [|s0 subs] eqn:Es; [done|].
  destruct (GetLatest_loop _ _ _ _) as [idx latest] eqn:El.
  apply (GetLatest_loop_spec []) in El.
  2: { split; [done|]. intros s H. by apply not_elem_of_nil in H. }
  simpl app in El. destruct latest as [t|].
  - destruct El as ((s & Hs & Ht) & Hmax & Hfst). rewrite Hs. eauto 10.
  - destruct El as [-> Hnone]. done.
Qed.
End Latest.

(** ** Subscriptions *)

Definition sub_ids (ds : DataplaneInsight) : list string := sub_Id <$> Subscriptions ds.

Lemma GetSubscription_loop_spec id i l :
  match GetSubscription_loop id i l with
  | Some (k, s) => ∃ j, k = (i + j)%nat ∧ l !! j = Some s ∧ sub_Id s = id
  | None => id ∉ (sub_Id <$> l)
  end.
Proof.
  revert i; induction l as [|s l IH]; intros i; simpl; [set_solver|].
  destruct (String.eqb_spec (sub_Id s) id) as [Heq|Hne].
  - exists 0%nat. split; [lia|]. done.
  - specialize (IH (S i)). destruct (GetSubscription_loop id (S i) l) as [[k s']|].
    + destruct IH as (j & -> & Hj & Hid). exists (S j). split; [lia|]. done.
    + set_solver.
Qed.

Lemma GetSubscription_unique ds i s :
  NoDup (sub_ids ds) → Subscriptions ds !! i = Some s →
  GetSubscription ds (sub_Id s) = Some (i, s).
Proof.
  intros Hnd Hi. unfold GetSubscription.
  pose proof (GetSubscription_loop_spec (sub_Id s) 0 (Subscriptions ds)) as H.
  destruct (GetSubscription_loop _ _ _) as [[k s']|].
  - destruct H as (j & -> & Hj & Hid). simpl.
    assert (j = i) as ->; [|by simplify_eq].
    apply (NoDup_lookup (sub_ids ds) j i (sub_Id s)); [done| |];
      unfold sub_ids; rewrite list_lookup_fmap; [by rewrite Hj; simpl; f_equal|by rewrite Hi].
  - destruct H. apply list_elem_of_fmap. exists s. split; [done|]. by eapply list_elem_of_lookup_2.
Qed.

Lemma UpdateSubscription_ids ds s :
  sub_ids (UpdateSubscription ds s)
  = if decide (sub_Id s ∈ sub_ids ds) then sub_ids ds else sub_ids ds ++ [sub_Id s].
Proof.
  unfold UpdateSubscription, GetSubscription, sub_ids.
  pose proof (GetSubscription_loop_spec (sub_Id s) 0 (Subscriptions ds)) as H.
  destruct (GetSubscription_loop _ _ _) as [[k s']|].
  - destruct H as (j & -> & Hj & Hid). simpl. rewrite decide_True.
    + rewrite list_fmap_insert. apply list_insert_id.
      rewrite list_lookup_fmap, Hj. simpl. by f_equal.
    + apply list_elem_of_fmap. exists s'. split; [done|]. by eapply list_elem_of_lookup_2.
  - rewrite decide_False by done. simpl. by rewrite fmap_app.
Qed.

Lemma GetSubscription_update_ne ds s id :
  sub_Id s ≠ id → GetSubscription (UpdateSubscription ds s) id = GetSubscription ds id.
Proof.
  intros Hne. unfold UpdateSubscription, GetSubscription.
  pose proof (GetSubscription_loop_spec (sub_Id s) 0 (Subscriptions ds)) as H.
  destruct (GetSubscription_loop (sub_Id s) 0 _) as [[k s']|]; simpl.
  - destruct H as (j & -> & Hj & Hid). simpl. generalize 0%nat as i.
    revert j Hj; induction (Subscriptions ds) as [|x l IH]; intros j Hj i; [done|].
    destruct j as [|j]; simpl in *.
    + simplify_eq. by rewrite !(proj2 (String.eqb_neq _ id)) by congruence.
    + by rewrite IH.
  - generalize 0%nat as i. clear H. induction (Subscriptions ds) as [|x l IH]; intros i; simpl.
    + by rewrite (proj2 (String.eqb_neq _ id)).
    + by rewrite IH.
Qed.

(** Updating a subscription keeps subscription ids unique, makes the
    updated subscription the one found under its id, and leaves every other
    subscription as it was. *)
Theorem UpdateSubscription_correct ds s :
  NoDup (sub_ids ds) →
  NoDup (sub_ids (UpdateSubscription ds s))
  ∧ (∃ i, GetSubscription (UpdateSubscription ds s) (sub_Id s) = Some (i, s))
  ∧ (∀ id, id ≠ sub_Id s → GetSubscription (UpdateSubscription ds s) id = GetSubscription ds id).
Proof.
  intros Hnd. assert (NoDup (sub_ids (UpdateSubscription ds s))) as Hnd'.
  { rewrite UpdateSubscription_ids. case_decide as Hin; [done|]. apply NoDup_app.
    split; [done|]. split; [|apply NoDup_singleton]. intros x Hx Hy.
    apply list_elem_of_singleton in Hy as ->. done. }
  split; [done|]. split.
  - assert (∃ i, Subscriptions (UpdateSubscription ds s) !! i = Some s) as [i Hi].
    { apply list_elem_of_lookup. unfold UpdateSubscription, GetSubscription.
      pose proof (GetSubscription_loop_spec (sub_Id s) 0 (Subscriptions ds)) as H.
      destruct (GetSubscription_loop _ _ _) as [[k s']|]; simpl; [|set_solver].
      destruct H as (j & -> & Hj & _). apply list_elem_of_lookup. exists j.
      apply list_lookup_insert_eq. by eapply lookup_lt_Some. }
    exists i. by apply GetSubscription_unique.
  - intros id Hid. apply GetSubscription_update_ne. congruence.
Qed.

Lemma UpdateSubscription_correct_witness :
  let old := mkSubscription "1" "cp" None None None in
  let new := mkSubscription "1" "cp" None (Some (mkTimestamp 5 0)) None in
  let other := mkSubscription "2" "cp" None None None in
  GetSubscription (UpdateSubscription (mkInsight [old; other]) new) "2" = Some (1%nat, other).
Proof.
  intros old new other.
  rewrite (proj2 (proj2 (UpdateSubscription_correct (mkInsight [old; other]) new
    ltac:(repeat constructor; set_solver)))); [reflexivity|discriminate].
Defined.
