(* ===== verification/Resources.v ===== *)
(** * Resources, resource lists and the type registry

    Models the resource types of [pkg/core/resources/apis/mesh/*.go] and
    [pkg/core/resources/apis/system/secret.go] behind the interfaces of
    [pkg/core/resources/model/resource.go], the registry
    ([pkg/core/resources/registry]) and [dataplane_overview.go].

    Every resource file declares the same methods over its own message type;
    [ResourceKind] collects what differs (the type name, the message and its
    zero value) with one instance per file, and the methods themselves
    are written once over the dynamic type of the value. *)

From S2P Require Import Prelude GoStd Tags Dataplane Policy.
From S2P Require Import MeshResources Validators MeshValidator Insights.
Local Open Scope Z_scope.

(** ** Messages behind [model.ResourceSpec] *)

Record Secret : Type := mkSecret { sec_Data : option string }.

Record DataplaneOverview : Type := mkOverview {
  ov_Dataplane : option Dataplane;
  ov_DataplaneInsight : option DataplaneInsight;
}.

Inductive ResourceSpec : Type :=
| MeshSpec (m : Mesh)
| DataplaneSpec (m : Dataplane)
| DataplaneInsightSpec (m : DataplaneInsight)
| DataplaneOverviewSpec (m : DataplaneOverview)
| HealthCheckSpec (m : HealthCheck)
| TrafficPermissionSpec (m : TrafficPermission)
| TrafficLogSpec (m : TrafficLog)
| TrafficRouteSpec (m : TrafficRoute)
| TrafficTraceSpec (m : TrafficTrace)
| FaultInjectionSpec (m : FaultInjection)
| ProxyTemplateSpec (m : ProxyTemplate)
| SecretSpec (m : Secret).

(** ** Metadata

    The dynamic types behind [model.ResourceMeta] that matter here: the
    in-memory store and the Kubernetes store assert their own types, every other
    implementation is only observed through the interface. *)

Record memoryMeta : Type := mkMemoryMeta {
  mm_Name : string;
  mm_Mesh : string;
  mm_Version : Z; (* memoryVersion, a uint64 *)
  mm_CreationTime : Z;
  mm_ModificationTime : Z;
}.
#[global] Instance memoryMeta_eq_dec : EqDecision memoryMeta.
Proof. solve_decision. Defined.

Definition memoryVersion_String (v : Z) : string := format_uint v.

(** [KubernetesMetaAdapter] of [pkg/plugins/resources/k8s/store.go]: the metadata
    of the Kubernetes object, of which the store reads the first four fields and
    keeps the rest as it is, and the mesh of the object. *)
Record KubernetesMetaAdapter : Type := mkAdapter {
  ka_Namespace : string;
  ka_Name : string;
  ka_ResourceVersion : string;
  ka_CreationTimestamp : Z;
  ka_Rest : string;
  ka_Mesh : string;
}.
#[global] Instance KubernetesMetaAdapter_eq_dec : EqDecision KubernetesMetaAdapter.
Proof. solve_decision. Defined.

(** [pkg/util/k8s/name_converter.go] *)
Definition CoreNameToK8sName (coreName : string) : res (string * string) :=
  match last_index "." coreName with
  | None => Err (Errorf "name must include namespace after the dot, ex. %q" [AStr "name.namespace"])
  | Some idx =>
      let namespace := sdrop (S idx) coreName in
      if String.eqb namespace "" then Err (Errorf "namespace must be non-empty" [])
      else Ok (stake idx coreName, namespace)
  end.
Definition K8sNamespacedNameToCoreName (name namespace : string) : string := name +:+ "." +:+ namespace.
Definition KubernetesMetaAdapter_GetName (m : KubernetesMetaAdapter) : string :=
  if String.eqb (ka_Namespace m) "" then ka_Name m
  else K8sNamespacedNameToCoreName (ka_Name m) (ka_Namespace m).

(** [pkg/plugins/common/k8s/names.go] *)
Definition k8sNamespaceComponent : string := "k8s.kuma.io/namespace".
Definition k8sNameComponent : string := "k8s.kuma.io/name".
Definition ResourceNameExtensions (namespace name : string) : gmap string string :=
  <[k8sNameComponent := name]> {[k8sNamespaceComponent := namespace]}.

(** The type of the same name of [pkg/plugins/secrets/k8s/store.go]; the mesh is a
    label. *)
Record KubernetesSecretMetaAdapter : Type := mkSecretAdapter {
  sa_Namespace : string;
  sa_Name : string;
  sa_ResourceVersion : string;
  sa_CreationTimestamp : Z;
  sa_Labels : gmap string string;
  sa_Rest : string;
}.
#[global] Instance KubernetesSecretMetaAdapter_eq_dec : EqDecision KubernetesSecretMetaAdapter.
Proof. solve_decision. Defined.

Definition DefaultMesh : string := "default".
Definition meshLabel : string := "kuma.io/mesh".
Definition SecretMetaAdapter_GetMesh (m : KubernetesSecretMetaAdapter) : string :=
  match sa_Labels m !! meshLabel with Some mesh => mesh | None => DefaultMesh end.

Inductive Meta : Type :=
| MemoryMeta (m : memoryMeta)
| KubernetesMeta (m : KubernetesMetaAdapter)
| KubernetesSecretMeta (m : KubernetesSecretMetaAdapter)
| ForeignMeta (m : ResourceMeta).
#[global] Instance Meta_eq_dec : EqDecision Meta.
Proof. solve_decision. Defined.

(** The methods of the interface. *)
Definition observe (m : Meta) : ResourceMeta :=
  match m with
  | MemoryMeta m => mkMeta (mm_Name m) (mm_Mesh m) (memoryVersion_String (mm_Version m))
                      (mm_CreationTime m) (mm_ModificationTime m)
  | KubernetesMeta m => mkResourceMeta (KubernetesMetaAdapter_GetName m) (ka_Mesh m) (ka_ResourceVersion m)
                          (ka_CreationTimestamp m) (ka_CreationTimestamp m)
                          (ResourceNameExtensions (ka_Namespace m) (ka_Name m))
  | KubernetesSecretMeta m => mkResourceMeta (sa_Name m) (SecretMetaAdapter_GetMesh m) (sa_ResourceVersion m)
                                (sa_CreationTimestamp m) (sa_CreationTimestamp m)
                                (ResourceNameExtensions (sa_Namespace m) (sa_Name m))
  | ForeignMeta m => m
  end.

(** ** Resource kinds *)

Class ResourceKind (S : Type) : Type := {
  kind_Type : string;                             (* the XxxType constant *)
  kind_GoType : string;                           (* reflect.TypeOf of the pointer *)
  to_spec : S → ResourceSpec;                     (* the message as a ResourceSpec *)
  of_spec : ResourceSpec → option S;              (* the type assertion of SetSpec *)
  zero_message : S;                               (* the Spec of &XxxResource{} *)
}.

(** What every file guarantees: the assertion accepts exactly its own
    messages. *)
Class LawfulKind (S : Type) `{ResourceKind S} : Prop := {
  of_to_spec : ∀ s : S, of_spec (to_spec s) = Some s;
  to_of_spec : ∀ spec (s : S), of_spec spec = Some s → to_spec s = spec;
}.

#[global] Instance Mesh_kind : ResourceKind Mesh :=
  {| kind_Type := "Mesh"; kind_GoType := "*mesh.MeshResource"; to_spec := MeshSpec;
     of_spec := λ s, match s with MeshSpec m => Some m | _ => None end;
     zero_message := mkMesh None None None None |}.
#[global] Instance Dataplane_kind : ResourceKind Dataplane :=
  {| kind_Type := "Dataplane"; kind_GoType := "*mesh.DataplaneResource"; to_spec := DataplaneSpec;
     of_spec := λ s, match s with DataplaneSpec m => Some m | _ => None end;
     zero_message := mkDataplane None None |}.
#[global] Instance DataplaneInsight_kind : ResourceKind DataplaneInsight :=
  {| kind_Type := "DataplaneInsight"; kind_GoType := "*mesh.DataplaneInsightResource";
     to_spec := DataplaneInsightSpec;
     of_spec := λ s, match s with DataplaneInsightSpec m => Some m | _ => None end;
     zero_message := mkInsight [] |}.
#[global] Instance DataplaneOverview_kind : ResourceKind DataplaneOverview :=
  {| kind_Type := "DataplaneOverview"; kind_GoType := "*mesh.DataplaneOverviewResource";
     to_spec := DataplaneOverviewSpec;
     of_spec := λ s, match s with DataplaneOverviewSpec m => Some m | _ => None end;
     zero_message := mkOverview None None |}.
#[global] Instance HealthCheck_kind : ResourceKind HealthCheck :=
  {| kind_Type := "HealthCheck"; kind_GoType := "*mesh.HealthCheckResource";
     to_spec := HealthCheckSpec;
     of_spec := λ s, match s with HealthCheckSpec m => Some m | _ => None end;
     zero_message := mkHealthCheck [] [] None |}.
#[global] Instance TrafficPermission_kind : ResourceKind TrafficPermission :=
  {| kind_Type := "TrafficPermission"; kind_GoType := "*mesh.TrafficPermissionResource";
     to_spec := TrafficPermissionSpec;
     of_spec := λ s, match s with TrafficPermissionSpec m => Some m | _ => None end;
     zero_message := mkTrafficPermission [] [] |}.
#[global] Instance TrafficLog_kind : ResourceKind TrafficLog :=
  {| kind_Type := "TrafficLog"; kind_GoType := "*mesh.TrafficLogResource";
     to_spec := TrafficLogSpec;
     of_spec := λ s, match s with TrafficLogSpec m => Some m | _ => None end;
     zero_message := mkTrafficLog [] [] None |}.
#[global] Instance TrafficRoute_kind : ResourceKind TrafficRoute :=
  {| kind_Type := "TrafficRoute"; kind_GoType := "*mesh.TrafficRouteResource";
     to_spec := TrafficRouteSpec;
     of_spec := λ s, match s with TrafficRouteSpec m => Some m | _ => None end;
     zero_message := mkTrafficRoute [] [] [] |}.
#[global] Instance TrafficTrace_kind : ResourceKind TrafficTrace :=
  {| kind_Type := "TrafficTrace"; kind_GoType := "*mesh.TrafficTraceResource";
     to_spec := TrafficTraceSpec;
     of_spec := λ s, match s with TrafficTraceSpec m => Some m | _ => None end;
     zero_message := mkTrafficTrace [] None |}.
#[global] Instance FaultInjection_kind : ResourceKind FaultInjection :=
  {| kind_Type := "FaultInjection"; kind_GoType := "*mesh.FaultInjectionResource";
     to_spec := FaultInjectionSpec;
     of_spec := λ s, match s with FaultInjectionSpec m => Some m | _ => None end;
     zero_message := mkFaultInjection [] [] None |}.
#[global] Instance ProxyTemplate_kind : ResourceKind ProxyTemplate :=
  {| kind_Type := "ProxyTemplate"; kind_GoType := "*mesh.ProxyTemplateResource";
     to_spec := ProxyTemplateSpec;
     of_spec := λ s, match s with ProxyTemplateSpec m => Some m | _ => None end;
     zero_message := mkProxyTemplate [] [] [] |}.
#[global] Instance Secret_kind : ResourceKind Secret :=
  {| kind_Type := "Secret"; kind_GoType := "*system.SecretResource"; to_spec := SecretSpec;
     of_spec := λ s, match s with SecretSpec m => Some m | _ => None end;
     zero_message := mkSecret None |}.

Ltac lawful_kind := constructor; [done|]; intros []; simpl; congruence.
#[global] Instance Mesh_lawful : LawfulKind Mesh. Proof. lawful_kind. Qed.
#[global] Instance Dataplane_lawful : LawfulKind Dataplane. Proof. lawful_kind. Qed.
#[global] Instance DataplaneInsight_lawful : LawfulKind DataplaneInsight. Proof. lawful_kind. Qed.
#[global] Instance DataplaneOverview_lawful : LawfulKind DataplaneOverview. Proof. lawful_kind. Qed.
#[global] Instance HealthCheck_lawful : LawfulKind HealthCheck. Proof. lawful_kind. Qed.
#[global] Instance TrafficPermission_lawful : LawfulKind TrafficPermission. Proof. lawful_kind. Qed.
#[global] Instance TrafficLog_lawful : LawfulKind TrafficLog. Proof. lawful_kind. Qed.
#[global] Instance TrafficRoute_lawful : LawfulKind TrafficRoute. Proof. lawful_kind. Qed.
#[global] Instance TrafficTrace_lawful : LawfulKind TrafficTrace. Proof. lawful_kind. Qed.
#[global] Instance FaultInjection_lawful : LawfulKind FaultInjection. Proof. lawful_kind. Qed.
#[global] Instance ProxyTemplate_lawful : LawfulKind ProxyTemplate. Proof. lawful_kind. Qed.
#[global] Instance Secret_lawful : LawfulKind Secret. Proof. lawful_kind. Qed.

(** ** Dynamic types *)

Inductive Kind : Type :=
| KMesh | KDataplane | KDataplaneInsight | KDataplaneOverview | KHealthCheck
| KTrafficPermission | KTrafficLog | KTrafficRoute | KTrafficTrace | KFaultInjection
| KProxyTemplate | KSecret.
#[global] Instance Kind_eq_dec : EqDecision Kind.
Proof. solve_decision. Defined.

Definition message_of (k : Kind) : Type :=
  match k with
  | KMesh => Mesh | KDataplane => Dataplane | KDataplaneInsight => DataplaneInsight
  | KDataplaneOverview => DataplaneOverview | KHealthCheck => HealthCheck
  | KTrafficPermission => TrafficPermission | KTrafficLog => TrafficLog
  | KTrafficRoute => TrafficRoute | KTrafficTrace => TrafficTrace
  | KFaultInjection => FaultInjection | KProxyTemplate => ProxyTemplate | KSecret => Secret
  end.

#[global] Instance kind_instance (k : Kind) : ResourceKind (message_of k) :=
  match k with
  | KMesh => Mesh_kind | KDataplane => Dataplane_kind | KDataplaneInsight => DataplaneInsight_kind
  | KDataplaneOverview => DataplaneOverview_kind | KHealthCheck => HealthCheck_kind
  | KTrafficPermission => TrafficPermission_kind | KTrafficLog => TrafficLog_kind
  | KTrafficRoute => TrafficRoute_kind | KTrafficTrace => TrafficTrace_kind
  | KFaultInjection => FaultInjection_kind | KProxyTemplate => ProxyTemplate_kind
  | KSecret => Secret_kind
  end.

Definition type_name (k : Kind) : string := @kind_Type _ (kind_instance k).
Definition zero_spec (k : Kind) : ResourceSpec := @to_spec _ (kind_instance k) zero_message.

Definition kind_of_spec (s : ResourceSpec) : Kind :=
  match s with
  | MeshSpec _ => KMesh | DataplaneSpec _ => KDataplane
  | DataplaneInsightSpec _ => KDataplaneInsight | DataplaneOverviewSpec _ => KDataplaneOverview
  | HealthCheckSpec _ => KHealthCheck | TrafficPermissionSpec _ => KTrafficPermission
  | TrafficLogSpec _ => KTrafficLog | TrafficRouteSpec _ => KTrafficRoute
  | TrafficTraceSpec _ => KTrafficTrace | FaultInjectionSpec _ => KFaultInjection
  | ProxyTemplateSpec _ => KProxyTemplate | SecretSpec _ => KSecret
  end.

(** ** model.Resource *)

(** A pointer to a resource struct, by the content of the struct; its dynamic
    type is the one of its message. *)
Record Object : Type := mkObject {
  o_Meta : option Meta;
  o_Spec : ResourceSpec;
}.

Definition o_Kind (o : Object) : Kind := kind_of_spec (o_Spec o).
Definition GetType (o : Object) : string := type_name (o_Kind o).
Definition SetMeta (o : Object) (m : option Meta) : Object := mkObject m (o_Spec o).

Definition SetSpec (o : Object) (spec : ResourceSpec) : res Object :=
  match @of_spec _ (kind_instance (o_Kind o)) spec with
  | None => Err (Errorf "invalid type of spec" [])
  | Some s => Ok (mkObject (o_Meta o) (@to_spec _ (kind_instance (o_Kind o)) s))
  end.

Definition nilMeta : ResourceMeta := mkMeta "" "" "" 0 0.

Section Validate.
(** [ptypes.Duration] and the YAML parser of Envoy resources. *)
Context (ptypes_Duration : Duration → option Z) (ResourceFromYaml_error : string → option string).

Definition Validate (o : Object) : res (option ValidationError) :=
  let meta := default nilMeta (observe <$> o_Meta o) in
  match o_Spec o with
  | MeshSpec m => Ok (Mesh_Validate (mkResource meta m))
  | DataplaneSpec m => Dataplane_Validate (mkResource meta m)
  | DataplaneInsightSpec _ | DataplaneOverviewSpec _ | SecretSpec _ => Ok None
  | HealthCheckSpec m => Ok (HealthCheck_Validate ptypes_Duration (mkResource meta m))
  | TrafficPermissionSpec m => Ok (TrafficPermission_Validate (mkResource meta m))
  | TrafficLogSpec m => Ok (TrafficLog_Validate (mkResource meta m))
  | TrafficRouteSpec m => Ok (TrafficRoute_Validate (mkResource meta m))
  | TrafficTraceSpec m => Ok (TrafficTrace_Validate (mkResource meta m))
  | FaultInjectionSpec m => Ok (FaultInjection_Validate (mkResource meta m))
  | ProxyTemplateSpec m => Ok (ProxyTemplate_Validate ResourceFromYaml_error (mkResource meta m))
  end.
End Validate.

(** [&XxxResource{}]. *)
Definition new_object (k : Kind) : Object := mkObject None (zero_spec k).

(** A typed resource as a [model.Resource] and back. *)
Definition to_object {S} `{ResourceKind S} (r : Resource S) : Object :=
  mkObject (Some (ForeignMeta (r_Meta r))) (to_spec (r_Spec r)).
Definition as_resource {S} `{ResourceKind S} (o : Object) : option (Resource S) :=
  match of_spec (o_Spec o), o_Meta o with
  | Some s, Some m => Some (mkResource (observe m) s)
  | _, _ => None
  end.

(** ** model.ResourceList *)

Record ObjectList : Type := mkObjectList {
  ol_Kind : Kind;
  GetItems : list Object;
  NextOffset : string; (* Pagination *)
}.

Definition GetItemType (l : ObjectList) : string := type_name (ol_Kind l).
Definition NewItem (l : ObjectList) : Object := new_object (ol_Kind l).
Definition SetPagination (l : ObjectList) (next : string) : ObjectList :=
  mkObjectList (ol_Kind l) (GetItems l) next.

Definition ErrorInvalidItemType (expected actual : Kind) : goerror :=
  Errorf "Invalid argument type: expected=%q got=%q"
    [AStr (@kind_GoType _ (kind_instance expected)); AStr (@kind_GoType _ (kind_instance actual))].

Definition AddItem (l : ObjectList) (r : Object) : res ObjectList :=
  if bool_decide (o_Kind r = ol_Kind l)
  then Ok (mkObjectList (ol_Kind l) (GetItems l ++ [r]) (NextOffset l))
  else Err (ErrorInvalidItemType (ol_Kind l) (o_Kind r)).

(** [&XxxResourceList{}]. *)
Definition new_list (k : Kind) : ObjectList := mkObjectList k [] "".

(** The [Items] of the concrete list type. *)
Definition typed_items {S} `{ResourceKind S} (l : ObjectList) : list (Resource S) :=
  omap as_resource (GetItems l).

(** ** Registry *)

Record typeRegistry : Type := mkRegistry {
  objectTypes : gmap string Kind;     (* reflect.Type of the resource struct *)
  objectListTypes : gmap string Kind; (* reflect.Type of the list struct *)
}.

Definition NewTypeRegistry : typeRegistry := mkRegistry ∅ ∅.

Definition ObjectTypes (t : typeRegistry) : list string := (map_to_list (objectTypes t)).*1.
Definition ListTypes (t : typeRegistry) : list string := (map_to_list (objectListTypes t)).*1.

Definition errorDuplicate (name previous new : string) : goerror :=
  Errorf "duplicate registration of ResourceType under name %q: previous=%#v new=%#v"
    [AStr name; AStr previous; AStr new].

Definition RegisterType (t : typeRegistry) (r : Object) : res typeRegistry :=
  match objectTypes t !! GetType r with
  | Some previous =>
      Err (errorDuplicate (GetType r) (@kind_GoType _ (kind_instance previous))
             (@kind_GoType _ (kind_instance (o_Kind r))))
  | None => Ok (mkRegistry (<[GetType r := o_Kind r]> (objectTypes t)) (objectListTypes t))
  end.

Definition RegisterListType (t : typeRegistry) (l : ObjectList) : res typeRegistry :=
  match objectListTypes t !! GetItemType l with
  | Some previous =>
      Err (errorDuplicate (GetItemType l) (@kind_GoType _ (kind_instance previous))
             (@kind_GoType _ (kind_instance (ol_Kind l))))
  | None => Ok (mkRegistry (objectTypes t) (<[GetItemType l := ol_Kind l]> (objectListTypes t)))
  end.

Definition NewObject (t : typeRegistry) (resType : string) : res Object :=
  match objectTypes t !! resType with
  | None => Err (Errorf "invalid type of resource type" [])
  | Some k => Ok (new_object k)
  end.

Definition NewList (t : typeRegistry) (resType : string) : res ObjectList :=
  match objectListTypes t !! resType with
  | None => Err (Errorf "invalid type of resource type" [])
  | Some k => Ok (new_list k)
  end.

(** [registry.RegisterType] and [RegistryListType] on the global registry
    panic on an error. *)
Definition must {A} (m : res A) : res A := match m with Ok a => Ok a | _ => Panic end.

(** The [init] function of a resource file. *)
Definition init_kind (t : typeRegistry) (k : Kind) : res typeRegistry :=
  let? t' := must (RegisterType t (new_object k)) in
  must (RegisterListType t' (new_list k)).

(** The kinds whose files have an [init]; the overview has none. *)
Definition registered_kinds : list Kind :=
  [KMesh; KDataplane; KDataplaneInsight; KHealthCheck; KTrafficPermission; KTrafficLog;
   KTrafficRoute; KTrafficTrace; KFaultInjection; KProxyTemplate; KSecret].

(** ** Dataplane overviews *)

Abbreviation DataplaneInsightResource := (Resource DataplaneInsight).
Abbreviation DataplaneOverviewResource := (Resource DataplaneOverview).

Definition insightsByKey (insights : list DataplaneInsightResource)
  : gmap ResourceKey DataplaneInsightResource :=
  foldl (λ m i, <[MetaToResourceKey (Some (r_Meta i)) := i]> m) ∅ insights.

(** The items of the new list; the pagination is the one of the dataplanes. *)
Definition NewDataplaneOverviews (dataplanes : list DataplaneResource)
    (insights : list DataplaneInsightResource) : list DataplaneOverviewResource :=
  (λ dataplane,
     mkResource (r_Meta dataplane)
       (mkOverview (Some (r_Spec dataplane))
          (r_Spec <$> insightsByKey insights !! MetaToResourceKey (Some (r_Meta dataplane)))))
  <$> dataplanes.

(** [MatchTags] on a nil dataplane sees no inbounds and no gateway. *)
Definition RetainMatchingTags (items : list DataplaneOverviewResource) (tags : tag_map)
  : list DataplaneOverviewResource :=
  List.filter (λ o, match ov_Dataplane (r_Spec o) with
                    | Some d => Dataplane_MatchTags d tags
                    | None => false
                    end) items.

Definition RetainGatewayDataplanes (items : list DataplaneOverviewResource)
  : list DataplaneOverviewResource :=
  List.filter (λ o, match ov_Dataplane (r_Spec o) ≫= (λ d, GetGateway (dp_Networking d)) with
                    | Some _ => true
                    | None => false
                    end) items.

(** ** Lemmas *)

Lemma kind_of_zero k : kind_of_spec (zero_spec k) = k.
Proof. by destruct k. Qed.

Lemma type_name_inj : Inj (=) (=) type_name.
Proof. intros [] [] H; done || (vm_compute in H; discriminate H). Qed.

Lemma of_spec_kind k spec :
  match @of_spec _ (kind_instance k) spec with
  | Some s => kind_of_spec spec = k ∧ @to_spec _ (kind_instance k) s = spec
  | None => kind_of_spec spec ≠ k
  end.
Proof. by destruct k, spec. Qed.

(** [SetSpec] replaces the message by one of the same dynamic type, and
    refuses any other. *)
Lemma SetSpec_spec o spec :
  SetSpec o spec
  = if bool_decide (kind_of_spec spec = o_Kind o) then Ok (mkObject (o_Meta o) spec)
    else Err (Errorf "invalid type of spec" []).
Proof.
  unfold SetSpec. pose proof (of_spec_kind (o_Kind o) spec) as H.
  destruct (@of_spec _ _ spec) as [s|].
  - destruct H as [-> ->]. by rewrite bool_decide_eq_true_2.
  - by rewrite bool_decide_eq_false_2.
Qed.

(** Every item of a list has the type of the list. *)
Definition list_wf (l : ObjectList) : Prop := Forall (λ o, o_Kind o = ol_Kind l) (GetItems l).

Lemma AddItem_wf l r l' :
  list_wf l → AddItem l r = Ok l' →
  list_wf l' ∧ GetItems l' = GetItems l ++ [r] ∧ ol_Kind l' = ol_Kind l ∧ NextOffset l' = NextOffset l.
Proof.
  unfold AddItem, list_wf. intros Hl. case_bool_decide; [|done]. intros [= <-]. simpl.
  split; [|done]. apply Forall_app. auto.
Qed.

Lemma as_resource_to_object {S} `{LawfulKind S} (r : Resource S) :
  as_resource (to_object r) = Some r.
Proof. unfold as_resource, to_object; simpl. rewrite of_to_spec. by destruct r. Qed.

(** Registration in any order succeeds when the names are new. *)
Lemma init_kinds_spec ks t :
  NoDup ks →
  (∀ k, k ∈ ks → objectTypes t !! type_name k = None ∧ objectListTypes t !! type_name k = None) →
  ∃ t', rfoldl init_kind t ks = Ok t'
    ∧ ∀ name, objectTypes t' !! name
        = match List.find (λ k, String.eqb (type_name k) name) ks with
          | Some k => Some k | None => objectTypes t !! name end
      ∧ objectListTypes t' !! name
        = match List.find (λ k, String.eqb (type_name k) name) ks with
          | Some k => Some k | None => objectListTypes t !! name end.
Proof.
  intros Hnd. revert t; induction Hnd as [|k ks Hk Hnd IH]; intros t Ht.
  { by exists t. }
  destruct (Ht k) as [H1 H2]; [by constructor|].
  set (t1 := mkRegistry (<[type_name k := k]> (objectTypes t))
               (<[type_name k := k]> (objectListTypes t))).
  assert (init_kind t k = Ok t1) as E.
  { unfold init_kind, RegisterType, GetType, o_Kind, new_object. simpl.
    rewrite kind_of_zero, H1. simpl. unfold RegisterListType, GetItemType. simpl.
    by rewrite H2. }
  destruct (IH t1) as (t' & Ht' & Hl).
  { intros k' Hk'. destruct (Ht k') as [H3 H4]; [by constructor|].
    assert (type_name k ≠ type_name k') by (intros Heq%type_name_inj; by subst).
    unfold t1; simpl. by rewrite !lookup_insert_ne. }
  exists t'. simpl. rewrite E. simpl. split; [done|]. intros name.
  destruct (Hl name) as [-> ->]. unfold t1; simpl. rewrite !lookup_insert.
  destruct (String.eqb_spec (type_name k) name) as [<-|Hne].
  - rewrite !decide_True by done.
    destruct (List.find (λ k0, String.eqb (type_name k0) (type_name k)) ks) as [k'|] eqn:Ef; [|done].
    apply List.find_some in Ef as [Hin Heq]. apply String.eqb_eq, type_name_inj in Heq as ->.
    destruct Hk. by apply list_elem_of_In.
  - by rewrite !decide_False by done.
Qed.

(** ** Properties *)

(** Whatever order Go runs the [init] functions of the resource files in,
    no registration panics, and afterwards the registry creates for the type
    name of every registered kind a fresh zero object and an empty list of
    that kind, and refuses every other name (dataplane overviews included). *)
Theorem registry_complete ks :
  ks ≡ₚ registered_kinds →
  ∃ t, rfoldl init_kind NewTypeRegistry ks = Ok t
    ∧ (∀ k, k ∈ registered_kinds →
         NewObject t (type_name k) = Ok (new_object k) ∧ GetType (new_object k) = type_name k
         ∧ NewList t (type_name k) = Ok (new_list k))
    ∧ (∀ name, (∀ k, k ∈ registered_kinds → type_name k ≠ name) →
         NewObject t name = Err (Errorf "invalid type of resource type" [])
         ∧ NewList t name = Err (Errorf "invalid type of resource type" [])).
Proof.
  intros Hks. destruct (init_kinds_spec ks NewTypeRegistry) as (t & Ht & Hl).
  - rewrite Hks. repeat (constructor; [set_solver|]). constructor.
  - done.
  - exists t. split; [done|]. unfold NewObject, NewList. split.
    + intros k Hk. destruct (Hl (type_name k)) as [-> ->]. rewrite <- Hks in Hk.
      destruct (List.find _ ks) as [k'|] eqn:E.
      * apply List.find_some in E as [_ Heq]. apply String.eqb_eq, type_name_inj in Heq as ->.
        split; [done|]. split; [|done]. unfold GetType, o_Kind; simpl. by rewrite kind_of_zero.
      * apply list_elem_of_In in Hk. pose proof (List.find_none _ _ E k Hk) as Hx. simpl in Hx.
        by rewrite String.eqb_refl in Hx.
    + intros name Hn. destruct (Hl name) as [-> ->].
      destruct (List.find _ ks) as [k'|] eqn:E; [|done].
      apply List.find_some in E as [Hin Heq]. apply String.eqb_eq in Heq.
      destruct (Hn k'); [|done]. by rewrite <- Hks, list_elem_of_In.
Qed.

Lemma registry_complete_witness :
  ∃ t, rfoldl init_kind NewTypeRegistry (reverse registered_kinds) = Ok t.
Proof.
  destruct (registry_complete (reverse registered_kinds)) as (t & Ht & _).
  - apply reverse_Permutation.
  - exists t. exact Ht.
Defined.

Lemma insightsByKey_lookup l key :
  insightsByKey l !! key
  = last (List.filter (λ i, bool_decide (MetaToResourceKey (Some (r_Meta i)) = key)) l).
Proof.
  unfold insightsByKey. induction l as [|x l IH] using rev_ind; simpl; [by rewrite lookup_empty|].
  rewrite foldl_app, List.filter_app. simpl. rewrite lookup_insert. case_decide as E.
  - rewrite bool_decide_eq_true_2 by done. by rewrite last_snoc.
  - rewrite bool_decide_eq_false_2 by done. by rewrite app_nil_r.
Qed.

(** The overviews list every dataplane once, in order, with its own
    metadata and message; its insight is the last one stored under the same
    mesh and name, if there is one.  Filtering by tags or by gateway keeps
    exactly the overviews whose dataplane matches, or has a gateway. *)
Theorem NewDataplaneOverviews_correct dataplanes insights :
  length (NewDataplaneOverviews dataplanes insights) = length dataplanes
  ∧ (∀ i d, dataplanes !! i = Some d →
       ∃ o, NewDataplaneOverviews dataplanes insights !! i = Some o
         ∧ r_Meta o = r_Meta d ∧ ov_Dataplane (r_Spec o) = Some (r_Spec d)
         ∧ ov_DataplaneInsight (r_Spec o)
           = r_Spec <$> last (List.filter (λ x, bool_decide
               (MetaToResourceKey (Some (r_Meta x)) = MetaToResourceKey (Some (r_Meta d)))) insights))
  ∧ (∀ items tags o, o ∈ RetainMatchingTags items tags ↔
       o ∈ items ∧ Dataplane_Matches (ov_Dataplane (r_Spec o)) tags = true)
  ∧ (∀ items o, o ∈ RetainGatewayDataplanes items ↔
       o ∈ items ∧ ∃ d g, ov_Dataplane (r_Spec o) = Some d ∧ GetGateway (dp_Networking d) = Some g).
Proof.
  unfold NewDataplaneOverviews. split; [apply length_fmap|]. split.
  - intros i d Hd. eexists. rewrite list_lookup_fmap, Hd. split; [done|]. simpl.
    by rewrite insightsByKey_lookup.
  - split; intros; unfold RetainMatchingTags, RetainGatewayDataplanes;
      rewrite !list_elem_of_In, filter_In.
    + by destruct (ov_Dataplane (r_Spec o)).
    + destruct (ov_Dataplane (r_Spec o)) as [d|]; simpl;
        [destruct (GetGateway (dp_Networking d)) as [g|] eqn:Eg|];
        (split; [intros [Hin Hx]|intros (Hin & d' & g' & Hd & Hg)]); simplify_eq/=; eauto 10.
Qed.
