(* ===== verification/Store.v ===== *)
(** * Resource stores

    Models [pkg/core/resources/store] (options, the [ResourceStore] interface,
    the strict store, errors) and [ToJSON]/[FromJSON] of [pkg/util/proto].
    A method that fills or updates the resource it is given returns the
    resource; a method of a store returns the new state of the store.  The
    mutex of the memory store makes each method atomic, so an execution of
    concurrent callers is a sequence of these steps. *)

From S2P Require Import Prelude GoStd Dataplane Insights Resources.
Local Open Scope Z_scope.

(** ** options.go *)

(** The zero [time.Time]: January 1 of year 1, in Unix nanoseconds. *)
Definition zeroTime : Z := - 62135596800000000000.

Record CreateOptions : Type := mkCreateOptions {
  co_Name : string; co_Mesh : string; co_CreationTime : Z }.
Definition CreateOptionsFunc : Type := CreateOptions → CreateOptions.
Definition NewCreateOptions (fs : list CreateOptionsFunc) : CreateOptions :=
  foldl (λ opts f, f opts) (mkCreateOptions "" "" zeroTime) fs.
Definition CreateByKey (name mesh : string) : CreateOptionsFunc := λ opts,
  mkCreateOptions name mesh (co_CreationTime opts).
Definition CreateBy (key : ResourceKey) : CreateOptionsFunc :=
  CreateByKey (key_Name key) (key_Mesh key).
Definition CreatedAt (creationTime : Z) : CreateOptionsFunc := λ opts,
  mkCreateOptions (co_Name opts) (co_Mesh opts) creationTime.

Record UpdateOptions : Type := mkUpdateOptions { uo_ModificationTime : Z }.
Definition UpdateOptionsFunc : Type := UpdateOptions → UpdateOptions.
Definition NewUpdateOptions (fs : list UpdateOptionsFunc) : UpdateOptions :=
  foldl (λ opts f, f opts) (mkUpdateOptions zeroTime) fs.
Definition ModifiedAt (modificationTime : Z) : UpdateOptionsFunc := λ _,
  mkUpdateOptions modificationTime.

Record DeleteOptions : Type := mkDeleteOptions { do_Name : string; do_Mesh : string }.
Definition DeleteOptionsFunc : Type := DeleteOptions → DeleteOptions.
Definition NewDeleteOptions (fs : list DeleteOptionsFunc) : DeleteOptions :=
  foldl (λ opts f, f opts) (mkDeleteOptions "" "") fs.
Definition DeleteByKey (name mesh : string) : DeleteOptionsFunc := λ _, mkDeleteOptions name mesh.
Definition DeleteBy (key : ResourceKey) : DeleteOptionsFunc :=
  DeleteByKey (key_Name key) (key_Mesh key).

Record DeleteAllOptions : Type := mkDeleteAllOptions { dao_Mesh : string }.
Definition DeleteAllOptionsFunc : Type := DeleteAllOptions → DeleteAllOptions.
Definition NewDeleteAllOptions (fs : list DeleteAllOptionsFunc) : DeleteAllOptions :=
  foldl (λ opts f, f opts) (mkDeleteAllOptions "") fs.
Definition DeleteAllByMesh (mesh : string) : DeleteAllOptionsFunc := λ _, mkDeleteAllOptions mesh.

Record GetOptions : Type := mkGetOptions {
  go_Name : string; go_Mesh : string; go_Version : string }.
Definition GetOptionsFunc : Type := GetOptions → GetOptions.
Definition NewGetOptions (fs : list GetOptionsFunc) : GetOptions :=
  foldl (λ opts f, f opts) (mkGetOptions "" "" "") fs.
Definition GetByKey (name mesh : string) : GetOptionsFunc := λ opts,
  mkGetOptions name mesh (go_Version opts).
Definition GetBy (key : ResourceKey) : GetOptionsFunc := GetByKey (key_Name key) (key_Mesh key).
Definition GetByVersion (version : string) : GetOptionsFunc := λ opts,
  mkGetOptions (go_Name opts) (go_Mesh opts) version.
Definition GetOptions_HashCode (g : GetOptions) : string := go_Name g +:+ ":" +:+ go_Mesh g.

Record ListOptions : Type := mkListOptions {
  lo_Mesh : string; lo_PageSize : Z; lo_PageOffset : string }.
Definition ListOptionsFunc : Type := ListOptions → ListOptions.
Definition NewListOptions (fs : list ListOptionsFunc) : ListOptions :=
  foldl (λ opts f, f opts) (mkListOptions "" 0 "") fs.
Definition ListByMesh (mesh : string) : ListOptionsFunc := λ opts,
  mkListOptions mesh (lo_PageSize opts) (lo_PageOffset opts).
Definition ListByPage (size : Z) (offset : string) : ListOptionsFunc := λ opts,
  mkListOptions (lo_Mesh opts) size offset.
Definition ListOptions_HashCode (l : ListOptions) : string := lo_Mesh l.

(** ** Errors *)

Definition ErrorResourceNotFound (rt name mesh : string) : goerror :=
  Errorf "Resource not found: type=%q name=%q mesh=%q" [AStr rt; AStr name; AStr mesh].
Definition ErrorResourceAlreadyExists (rt name mesh : string) : goerror :=
  Errorf "Resource already exists: type=%q name=%q mesh=%q" [AStr rt; AStr name; AStr mesh].
Definition ErrorResourceConflict (rt name mesh : string) : goerror :=
  Errorf "Resource conflict: type=%q name=%q mesh=%q" [AStr rt; AStr name; AStr mesh].
Definition ErrorResourcePreconditionFailed (rt name mesh : string) : goerror :=
  Errorf "Resource precondition failed: type=%q name=%q mesh=%q" [AStr rt; AStr name; AStr mesh].
Definition ErrorInvalidOffset : goerror := Errorf "invalid offset" [].

Definition IsResourceNotFound (err : goerror) : bool :=
  has_prefix "Resource not found" (error_string err).
Definition IsResourcePreconditionFailed (err : goerror) : bool :=
  has_prefix "Resource precondition failed" (error_string err).

(** ** The [ResourceStore] interface *)

Class ResourceStore (St : Type) : Type := {
  store_Create : St → Object → list CreateOptionsFunc → res unit * (St * Object);
  store_Update : St → Object → list UpdateOptionsFunc → res unit * (St * Object);
  store_Delete : St → Object → list DeleteOptionsFunc → res unit * St;
  store_Get : St → Object → list GetOptionsFunc → res unit * Object;
  store_List : St → ObjectList → list ListOptionsFunc → res unit * ObjectList;
}.

(** ** The strict store *)

Section Strict.
Context {St : Type} `{ResourceStore St}.

Definition failed {A} (msg : string) (a : A) : res unit * A := (Err (Errorf msg []), a).

(** A nil resource is [None]; the delegate sees the same options. *)
Definition strict_Create (s : St) (r : option Object) (fs : list CreateOptionsFunc)
  : res unit * (St * option Object) :=
  match r with
  | None => failed "ResourceStore.Create() requires a non-nil resource" (s, r)
  | Some o =>
      match o_Meta o with
      | Some _ => failed "ResourceStore.Create() ignores resource.GetMeta() but the argument has a non-nil value" (s, r)
      | None =>
          let opts := NewCreateOptions fs in
          if String.eqb (co_Name opts) "" then
            failed "ResourceStore.Create() requires options.Name to be a non-empty value" (s, r)
          else if String.eqb (co_Mesh opts) "" then
            failed "ResourceStore.Create() requires options.Mesh to be a non-empty value" (s, r)
          else let '(res, (s', o')) := store_Create s o fs in (res, (s', Some o'))
      end
  end.

Definition strict_Update (s : St) (r : option Object) (fs : list UpdateOptionsFunc)
  : res unit * (St * option Object) :=
  match r with
  | None => failed "ResourceStore.Update() requires a non-nil resource" (s, r)
  | Some o =>
      match o_Meta o with
      | None => failed "ResourceStore.Update() requires resource.GetMeta() to be a non-nil value previously returned by ResourceStore.Get()" (s, r)
      | Some _ => let '(res, (s', o')) := store_Update s o fs in (res, (s', Some o'))
      end
  end.

Definition strict_Delete (s : St) (r : option Object) (fs : list DeleteOptionsFunc)
  : res unit * St :=
  match r with
  | None => failed "ResourceStore.Delete() requires a non-nil resource" s
  | Some o =>
      let opts := NewDeleteOptions fs in
      if String.eqb (do_Name opts) "" then
        failed "ResourceStore.Delete() requires options.Name to be a non-empty value" s
      else if String.eqb (do_Mesh opts) "" then
        failed "ResourceStore.Delete() requires options.Mesh to be a non-empty value" s
      else match o_Meta o with
           | Some m =>
               if negb (String.eqb (do_Name opts) (GetName (observe m))) then
                 failed "ResourceStore.Delete() requires resource.GetMeta() either to be a nil or resource.GetMeta().GetName() == options.Name" s
               else if negb (String.eqb (do_Mesh opts) (GetMesh (observe m))) then
                 failed "ResourceStore.Delete() requires resource.GetMeta() either to be a nil or resource.GetMeta().GetMesh() == options.Mesh" s
               else store_Delete s o fs
           | None => store_Delete s o fs
           end
  end.

Definition strict_Get (s : St) (r : option Object) (fs : list GetOptionsFunc)
  : res unit * option Object :=
  match r with
  | None => failed "ResourceStore.Get() requires a non-nil resource" r
  | Some o =>
      match o_Meta o with
      | Some _ => failed "ResourceStore.Get() ignores resource.GetMeta() but the argument has a non-nil value" r
      | None =>
          let opts := NewGetOptions fs in
          if String.eqb (go_Name opts) "" then
            failed "ResourceStore.Get() requires options.Name to be a non-empty value" r
          else if String.eqb (go_Mesh opts) "" then
            failed "ResourceStore.Get() requires options.Mesh to be a non-empty value" r
          else let '(res, o') := store_Get s o fs in (res, Some o')
      end
  end.

Definition strict_List (s : St) (rs : option ObjectList) (fs : list ListOptionsFunc)
  : res unit * option ObjectList :=
  match rs with
  | None => failed "ResourceStore.List() requires a non-nil resource list" rs
  | Some l => let '(res, l') := store_List s l fs in (res, Some l')
  end.
End Strict.

(** ** JSON

    [jsonpb] is not part of the repository: marshalling a message, and
    unmarshalling into a message, which is left in some state on an error. *)

Class Jsonpb : Type := {
  jsonpb_Marshal : ResourceSpec → res string;
  jsonpb_Unmarshal : string → ResourceSpec → res unit * ResourceSpec;
}.

(** What the stores rely on: unmarshalling fills a message of the type it is
    given, and a message read into a zero message is the one that was written. *)
Class LawfulJsonpb `{Jsonpb} : Prop := {
  unmarshal_kind : ∀ s out, kind_of_spec (jsonpb_Unmarshal s out).2 = kind_of_spec out;
  unmarshal_marshal : ∀ spec s, jsonpb_Marshal spec = Ok s →
    jsonpb_Unmarshal s (zero_spec (kind_of_spec spec)) = (Ok (), spec);
}.

(** [util_proto.ToJSON] and [util_proto.FromJSON]. *)
Definition ToJSON `{Jsonpb} (pb : ResourceSpec) : res string :=
  let? buf := jsonpb_Marshal pb in Ok buf.
Definition FromJSON `{Jsonpb} (content : string) (out : ResourceSpec) : res unit * ResourceSpec :=
  jsonpb_Unmarshal content out.
