(* ===== verification/MemoryStore.v ===== *)
(** * The in-memory resource store

    Models [pkg/plugins/resources/memory/store.go], with its refinement of a
    finite map from (type, name, mesh) to records: the specification of what a
    [ResourceStore] does. *)

From S2P Require Import Prelude GoStd Dataplane MeshResources Insights Resources Store.
Local Open Scope Z_scope.

Record memoryStoreRecord : Type := mkRecord {
  rec_ResourceType : string;
  rec_Name : string;
  rec_Mesh : string;
  rec_Version : Z;
  rec_Spec : string;
  rec_CreationTime : Z;
  rec_ModificationTime : Z;
}.
#[global] Instance memoryStoreRecord_eq_dec : EqDecision memoryStoreRecord.
Proof. solve_decision. Defined.

Record memoryStore : Type := mkStore { records : list memoryStoreRecord }.

Definition initialVersion : Z := 1.
Definition memoryVersion_Next (v : Z) : Z := wrap64 (v + 1).

Definition MeshType : string := type_name KMesh.

Definition matches_key (resourceType name mesh : string) (r : memoryStoreRecord) : bool :=
  String.eqb (rec_ResourceType r) resourceType && String.eqb (rec_Name r) name
  && String.eqb (rec_Mesh r) mesh.

(** The loop of [findRecord]. *)
Fixpoint findRecord_loop (resourceType name mesh : string) (idx : nat)
    (l : list memoryStoreRecord) : option (nat * memoryStoreRecord) :=
  match l with
  | [] => None
  | r :: rest =>
      if matches_key resourceType name mesh r then Some (idx, r)
      else findRecord_loop resourceType name mesh (S idx) rest
  end.
Definition findRecord (c : memoryStore) (resourceType name mesh : string)
  : option (nat * memoryStoreRecord) :=
  findRecord_loop resourceType name mesh 0 (records c).

Definition findRecords (c : memoryStore) (resourceType mesh : string) : list memoryStoreRecord :=
  List.filter (λ r, String.eqb (rec_ResourceType r) resourceType
                    && (String.eqb mesh "" || String.eqb (rec_Mesh r) mesh)) (records c).

Section Memory.
Context `{Jsonpb}.

Definition marshalRecord (resourceType : string) (meta : memoryMeta) (spec : ResourceSpec)
  : res memoryStoreRecord :=
  let? content := ToJSON spec in
  Ok (mkRecord resourceType (mm_Name meta) (mm_Mesh meta) (mm_Version meta) content
        (mm_CreationTime meta) (mm_ModificationTime meta)).

Definition record_meta (s : memoryStoreRecord) : memoryMeta :=
  mkMemoryMeta (rec_Name s) (rec_Mesh s) (rec_Version s) (rec_CreationTime s)
    (rec_ModificationTime s).

Definition unmarshalRecord (s : memoryStoreRecord) (r : Object) : res unit * Object :=
  let r1 := SetMeta r (Some (MemoryMeta (record_meta s))) in
  let (err, spec) := FromJSON (rec_Spec s) (o_Spec r1) in
  (err, mkObject (o_Meta r1) spec).

Definition memory_Create (c : memoryStore) (r : Object) (fs : list CreateOptionsFunc)
  : res unit * (memoryStore * Object) :=
  let opts := NewCreateOptions fs in
  let opts := if String.eqb (GetType r) MeshType
              then mkCreateOptions (co_Name opts) (co_Name opts) (co_CreationTime opts)
              else opts in
  match findRecord c (GetType r) (co_Name opts) (co_Mesh opts) with
  | Some _ => (Err (ErrorResourceAlreadyExists (GetType r) (co_Name opts) (co_Mesh opts)), (c, r))
  | None =>
      let meta := mkMemoryMeta (co_Name opts) (co_Mesh opts) initialVersion
                    (co_CreationTime opts) (co_CreationTime opts) in
      let r' := SetMeta r (Some (MemoryMeta meta)) in
      match marshalRecord (GetType r') meta (o_Spec r') with
      | Ok record => (Ok (), (mkStore (records c ++ [record]), r'))
      | Err e => (Err e, (c, r'))
      | Panic => (Panic, (c, r'))
      end
  end.

(** The metadata of the resource itself is not refreshed. *)
Definition memory_Update (c : memoryStore) (r : Object) (fs : list UpdateOptionsFunc)
  : res unit * (memoryStore * Object) :=
  let opts := NewUpdateOptions fs in
  match o_Meta r with
  | Some (MemoryMeta meta) =>
      let conflict := Err (ErrorResourceConflict (GetType r) (mm_Name meta) (mm_Mesh meta)) in
      match findRecord c (GetType r) (mm_Name meta) (mm_Mesh meta) with
      | None => (conflict, (c, r))
      | Some (idx, record) =>
          if negb (mm_Version meta =? rec_Version record) then (conflict, (c, r))
          else
            let meta' := mkMemoryMeta (mm_Name meta) (mm_Mesh meta)
                           (memoryVersion_Next (mm_Version meta)) (mm_CreationTime meta)
                           (uo_ModificationTime opts) in
            match marshalRecord (GetType r) meta' (o_Spec r) with
            | Ok record' => (Ok (), (mkStore (<[idx := record']> (records c)), r))
            | Err e => (Err e, (c, r))
            | Panic => (Panic, (c, r))
            end
      end
  | _ => (Err (Errorf "MemoryStore.Update() requires r.GetMeta() to be of type memoryMeta" []), (c, r))
  end.

Definition memory_Delete (c : memoryStore) (r : Object) (fs : list DeleteOptionsFunc)
  : res unit * memoryStore :=
  let opts := NewDeleteOptions fs in
  match o_Meta r with
  | Some (KubernetesMeta _ | KubernetesSecretMeta _ | ForeignMeta _) =>
      (Err (Errorf "MemoryStore.Delete() requires r.GetMeta() either to be nil or to be of type memoryMeta" []), c)
  | _ =>
      match findRecord c (GetType r) (do_Name opts) (do_Mesh opts) with
      | None => (Err (ErrorResourceNotFound (GetType r) (do_Name opts) (do_Mesh opts)), c)
      | Some (idx, _) => (Ok (), mkStore (take idx (records c) ++ drop (S idx) (records c)))
      end
  end.

Definition memory_Get (c : memoryStore) (r : Object) (fs : list GetOptionsFunc)
  : res unit * Object :=
  let opts := NewGetOptions fs in
  let opts := if String.eqb (GetType r) MeshType
              then mkGetOptions (go_Name opts) (go_Name opts) (go_Version opts) else opts in
  match findRecord c (GetType r) (go_Name opts) (go_Mesh opts) with
  | None => (Err (ErrorResourceNotFound (GetType r) (go_Name opts) (go_Mesh opts)), r)
  | Some (_, record) =>
      if negb (String.eqb (go_Version opts) "")
         && negb (String.eqb (go_Version opts) (memoryVersion_String (rec_Version record)))
      then (Err (ErrorResourcePreconditionFailed (GetType r) (go_Name opts) (go_Mesh opts)), r)
      else unmarshalRecord record r
  end.

(** The loop of [List]; [i] is an [int], an index out of range panics, and
    [None] means the fuel ran out. *)
Fixpoint List_loop (fuel : nat) (recs : list memoryStoreRecord) (i limit : Z) (rs : ObjectList)
  : option (res unit * ObjectList) :=
  if (i <? limit) && (i <? Z.of_nat (length recs)) then
    match fuel with
    | O => None
    | S fuel' =>
        if i <? 0 then Some (Panic, rs)
        else match recs !! Z.to_nat i with
             | None => Some (Panic, rs)
             | Some record =>
                 match unmarshalRecord record (NewItem rs) with
                 | (Ok _, r) =>
                     List_loop fuel' recs (i + 1) limit
                       (match AddItem rs r with Ok rs' => rs' | _ => rs end)
                 | (Err e, _) => Some (Err e, rs)
                 | (Panic, _) => Some (Panic, rs)
                 end
             end
    end
  else Some (Ok (), rs).

Definition memory_List (c : memoryStore) (rs : ObjectList) (fs : list ListOptionsFunc)
  : res unit * ObjectList :=
  let opts := NewListOptions fs in
  let recs := findRecords c (GetItemType rs) (lo_Mesh opts) in
  let paginateResults := negb (lo_PageSize opts =? 0) in
  let page : res (Z * Z) :=
    if paginateResults then
      if negb (String.eqb (lo_PageOffset opts) "") then
        match atoi (lo_PageOffset opts) with
        | Ok o => Ok (o, lo_PageSize opts)
        | _ => Err ErrorInvalidOffset
        end
      else Ok (0, lo_PageSize opts)
    else Ok (0, Z.of_nat (length recs)) in
  match page with
  | Err e => (Err e, rs)
  | Panic => (Panic, rs)
  | Ok (offset, pageSize) =>
      match List_loop (S (length recs)) recs offset (wrap_int (offset + pageSize)) rs with
      | None => (Panic, rs)
      | Some (Ok _, rs') =>
          if paginateResults then
            let nextOffset :=
              if wrap_int (offset + pageSize) <? Z.of_nat (length recs)
              then itoa (wrap_int (offset + lo_PageSize opts)) else "" in
            (Ok (), SetPagination rs' nextOffset)
          else (Ok (), rs')
      | Some (err, rs') => (err, rs')
      end
  end.

#[global] Instance memory_ResourceStore : ResourceStore memoryStore :=
  {| store_Create := memory_Create; store_Update := memory_Update; store_Delete := memory_Delete;
     store_Get := memory_Get; store_List := memory_List |}.
End Memory.

(** ** The specification: a finite map *)

Definition rkey (r : memoryStoreRecord) : string * string * string :=
  (rec_ResourceType r, rec_Name r, rec_Mesh r).

Abbreviation mapStore := (gmap (string * string * string) memoryStoreRecord).

Section Specification.
Context `{Jsonpb}.

Definition map_Create (m : mapStore) (r : Object) (fs : list CreateOptionsFunc)
  : res unit * (mapStore * Object) :=
  let opts := NewCreateOptions fs in
  let mesh := if String.eqb (GetType r) MeshType then co_Name opts else co_Mesh opts in
  match m !! (GetType r, co_Name opts, mesh) with
  | Some _ => (Err (ErrorResourceAlreadyExists (GetType r) (co_Name opts) mesh), (m, r))
  | None =>
      let meta := mkMemoryMeta (co_Name opts) mesh 1 (co_CreationTime opts) (co_CreationTime opts) in
      let r' := mkObject (Some (MemoryMeta meta)) (o_Spec r) in
      match ToJSON (o_Spec r) with
      | Ok content =>
          (Ok (), (<[(GetType r, co_Name opts, mesh) :=
                     mkRecord (GetType r) (co_Name opts) mesh 1 content
                       (co_CreationTime opts) (co_CreationTime opts)]> m, r'))
      | Err e => (Err e, (m, r'))
      | Panic => (Panic, (m, r'))
      end
  end.

Definition map_Update (m : mapStore) (r : Object) (fs : list UpdateOptionsFunc)
  : res unit * mapStore :=
  match o_Meta r with
  | Some (MemoryMeta meta) =>
      let key := (GetType r, mm_Name meta, mm_Mesh meta) in
      match m !! key with
      | Some record =>
          if mm_Version meta =? rec_Version record then
            match ToJSON (o_Spec r) with
            | Ok content =>
                (Ok (), <[key := mkRecord (GetType r) (mm_Name meta) (mm_Mesh meta)
                                   (wrap64 (mm_Version meta + 1)) content (mm_CreationTime meta)
                                   (uo_ModificationTime (NewUpdateOptions fs))]> m)
            | Err e => (Err e, m)
            | Panic => (Panic, m)
            end
          else (Err (ErrorResourceConflict (GetType r) (mm_Name meta) (mm_Mesh meta)), m)
      | None => (Err (ErrorResourceConflict (GetType r) (mm_Name meta) (mm_Mesh meta)), m)
      end
  | _ => (Err (Errorf "MemoryStore.Update() requires r.GetMeta() to be of type memoryMeta" []), m)
  end.

Definition map_Delete (m : mapStore) (r : Object) (fs : list DeleteOptionsFunc)
  : res unit * mapStore :=
  let opts := NewDeleteOptions fs in
  let key := (GetType r, do_Name opts, do_Mesh opts) in
  match o_Meta r with
  | Some (KubernetesMeta _ | KubernetesSecretMeta _ | ForeignMeta _) =>
      (Err (Errorf "MemoryStore.Delete() requires r.GetMeta() either to be nil or to be of type memoryMeta" []), m)
  | _ =>
      match m !! key with
      | None => (Err (ErrorResourceNotFound (GetType r) (do_Name opts) (do_Mesh opts)), m)
      | Some _ => (Ok (), delete key m)
      end
  end.

Definition map_Get (m : mapStore) (r : Object) (fs : list GetOptionsFunc) : res unit * Object :=
  let opts := NewGetOptions fs in
  let mesh := if String.eqb (GetType r) MeshType then go_Name opts else go_Mesh opts in
  match m !! (GetType r, go_Name opts, mesh) with
  | None => (Err (ErrorResourceNotFound (GetType r) (go_Name opts) mesh), r)
  | Some record =>
      if negb (String.eqb (go_Version opts) "")
         && negb (String.eqb (go_Version opts) (format_uint (rec_Version record)))
      then (Err (ErrorResourcePreconditionFailed (GetType r) (go_Name opts) mesh), r)
      else unmarshalRecord record r
  end.
End Specification.

(** *** Abstraction *)

Definition abs (c : memoryStore) : mapStore := list_to_map ((λ r, (rkey r, r)) <$> records c).

(** No two records share a key. *)
Definition unique_keys (c : memoryStore) : Prop := NoDup (rkey <$> records c).

Lemma abs_keys c : ((λ r, (rkey r, r)) <$> records c).*1 = rkey <$> records c.
Proof. rewrite <- list_fmap_compose. done. Qed.

Lemma abs_lookup c k r :
  unique_keys c → abs c !! k = Some r ↔ r ∈ records c ∧ rkey r = k.
Proof.
  intros Hu. unfold abs. rewrite <- elem_of_list_to_map by (by rewrite abs_keys).
  rewrite list_elem_of_fmap. naive_solver.
Qed.

Lemma abs_lookup_None c k : abs c !! k = None ↔ k ∉ rkey <$> records c.
Proof. unfold abs. by rewrite <- not_elem_of_list_to_map, abs_keys. Qed.

Lemma matches_key_spec t n m r : matches_key t n m r = true ↔ rkey r = (t, n, m).
Proof.
  unfold matches_key, rkey. rewrite !andb_true_iff, !String.eqb_eq. naive_solver.
Qed.

Lemma findRecord_loop_spec t n m i l :
  match findRecord_loop t n m i l with
  | Some (k, r) => ∃ l1 l2, l = l1 ++ r :: l2 ∧ k = (i + length l1)%nat ∧ rkey r = (t, n, m)
  | None => (t, n, m) ∉ rkey <$> l
  end.
Proof.
  revert i; induction l as [|r l IH]; intros i; simpl; [set_solver|].
  destruct (matches_key t n m r) eqn:E.
  - apply matches_key_spec in E. exists [], l. simpl. split; [done|]. split; [lia|done].
  - specialize (IH (S i)). destruct (findRecord_loop t n m (S i) l) as [[k r']|].
    + destruct IH as (l1 & l2 & -> & -> & Hk). exists (r :: l1), l2. simpl. split; [done|]. split; [lia|done].
    + apply not_elem_of_cons. split; [|done]. intros Hk. symmetry in Hk.
      apply matches_key_spec in Hk. congruence.
Qed.

(** [findRecord] is the lookup of the map. *)
Lemma findRecord_abs c t n m :
  unique_keys c →
  match findRecord c t n m with
  | Some (k, r) => abs c !! (t, n, m) = Some r ∧ rkey r = (t, n, m)
      ∧ ∃ l1 l2, records c = l1 ++ r :: l2 ∧ k = length l1
  | None => abs c !! (t, n, m) = None
  end.
Proof.
  intros Hu. unfold findRecord. pose proof (findRecord_loop_spec t n m 0 (records c)) as H.
  destruct (findRecord_loop _ _ _ _ _) as [[k r]|].
  - destruct H as (l1 & l2 & Hl & -> & Hk). split; [|split; [done|]].
    + apply abs_lookup; [done|]. split; [rewrite Hl; set_solver|done].
    + by exists l1, l2.
  - by apply abs_lookup_None.
Qed.

Lemma unique_middle l1 r l2 x :
  NoDup (rkey <$> l1 ++ r :: l2) → x ∈ l1 ∨ x ∈ l2 → rkey x ≠ rkey r.
Proof.
  rewrite fmap_app. simpl. rewrite NoDup_app, NoDup_cons. intros (_ & Hd & Hr & _) Hx Heq.
  destruct Hx as [Hx|Hx].
  - apply (Hd (rkey x)); [by apply list_elem_of_fmap; eauto|]. rewrite Heq. constructor.
  - apply Hr. apply list_elem_of_fmap. eauto.
Qed.

Lemma abs_snoc c r :
  unique_keys c → abs c !! rkey r = None →
  unique_keys (mkStore (records c ++ [r])) ∧ abs (mkStore (records c ++ [r])) = <[rkey r := r]> (abs c).
Proof.
  intros Hu Hr%abs_lookup_None. split.
  - unfold unique_keys. simpl. rewrite fmap_app. simpl. apply NoDup_app.
    split; [done|]. split; [|apply NoDup_singleton]. intros k Hk Hk'.
    apply list_elem_of_singleton in Hk' as ->. done.
  - unfold abs. simpl. rewrite fmap_app. simpl. apply list_to_map_snoc. by rewrite abs_keys.
Qed.

Lemma abs_insert c l1 r l2 r' :
  unique_keys c → records c = l1 ++ r :: l2 → rkey r' = rkey r →
  unique_keys (mkStore (<[length l1 := r']> (records c)))
  ∧ abs (mkStore (<[length l1 := r']> (records c))) = <[rkey r := r']> (abs c).
Proof.
  intros Hu Hl Hk. pose proof Hu as Hu0. unfold unique_keys in Hu0. rewrite Hl in Hu0.
  assert (<[length l1 := r']> (records c) = l1 ++ r' :: l2) as ->.
  { rewrite Hl. replace (length l1) with (length l1 + 0)%nat by lia.
    by rewrite insert_app_r. }
  assert (unique_keys (mkStore (l1 ++ r' :: l2))) as Hu'.
  { unfold unique_keys. simpl. rewrite fmap_app in *. simpl in *. by rewrite Hk. }
  split; [done|]. apply map_eq. intros k. apply option_eq. intros x.
  rewrite lookup_insert_Some, !abs_lookup by done. rewrite Hl. simpl.
  rewrite !elem_of_app, !elem_of_cons. pose proof (λ x, unique_middle l1 r l2 x Hu0) as Hm. split.
  - intros [[Hx|[->|Hx]] <-].
    + right. split; [apply not_eq_sym, Hm|]; auto.
    + left. done.
    + right. split; [apply not_eq_sym, Hm|]; auto.
  - intros [[Hk' Hx]|[Hne [[Hx|[Hx|Hx]] Hk']]]; subst; [|by auto|done|by auto].
    split; [by right; left|done].
Qed.

Lemma abs_delete c l1 r l2 :
  unique_keys c → records c = l1 ++ r :: l2 →
  unique_keys (mkStore (take (length l1) (records c) ++ drop (S (length l1)) (records c)))
  ∧ abs (mkStore (take (length l1) (records c) ++ drop (S (length l1)) (records c)))
    = delete (rkey r) (abs c).
Proof.
  intros Hu Hl. pose proof Hu as Hu0. unfold unique_keys in Hu0. rewrite Hl in Hu0.
  assert (take (length l1) (records c) ++ drop (S (length l1)) (records c) = l1 ++ l2) as ->.
  { rewrite Hl, take_app_length. f_equal.
    replace (S (length l1)) with (length l1 + 1)%nat by lia. by rewrite drop_app_add. }
  assert (unique_keys (mkStore (l1 ++ l2))) as Hu'.
  { unfold unique_keys. simpl. rewrite fmap_app in *. simpl in Hu0.
    apply NoDup_app in Hu0 as (? & Hd & Hc). apply NoDup_cons in Hc as [_ ?].
    apply NoDup_app. split; [done|]. split; [|done]. intros k Hk Hk'. apply (Hd k Hk). by constructor. }
  split; [done|]. apply map_eq. intros k. apply option_eq. intros x.
  rewrite lookup_delete_Some, !abs_lookup by done. rewrite Hl. simpl.
  rewrite !elem_of_app, !elem_of_cons. pose proof (λ x, unique_middle l1 r l2 x Hu0) as Hm. split.
  - intros [Hx <-]. split; [apply not_eq_sym, Hm|]; naive_solver.
  - intros [Hne [[Hx|[Hx|Hx]] Hk']]; subst; [by auto|done|by auto].
Qed.

(** ** Refinement *)

Section Refinement.
Context `{Jsonpb}.

Lemma Create_refines c r fs :
  unique_keys c →
  let '(e, (c', r')) := memory_Create c r fs in
  unique_keys c' ∧ map_Create (abs c) r fs = (e, (abs c', r')).
Proof.
  intros Hu. unfold memory_Create, map_Create. set (opts := NewCreateOptions fs).
  set (mesh := if String.eqb (GetType r) MeshType then co_Name opts else co_Mesh opts).
  set (opts' := if String.eqb (GetType r) MeshType then _ else opts).
  assert (co_Name opts' = co_Name opts ∧ co_Mesh opts' = mesh
    ∧ co_CreationTime opts' = co_CreationTime opts) as (-> & -> & ->).
  { subst opts' mesh. by destruct (String.eqb _ _). }
  pose proof (findRecord_abs c (GetType r) (co_Name opts) mesh Hu) as Hf.
  destruct (findRecord _ _ _ _) as [[k rec]|].
  { destruct Hf as [-> _]. done. }
  rewrite Hf. unfold marshalRecord; simpl. destruct (ToJSON (o_Spec r)) as [content|e|]; simpl; [|done|done].
  set (rec := mkRecord _ _ _ _ _ _ _).
  destruct (abs_snoc c rec Hu Hf) as [Hu' ->]. done.
Qed.

Lemma Update_refines c r fs :
  unique_keys c →
  let '(e, (c', r')) := memory_Update c r fs in
  unique_keys c' ∧ map_Update (abs c) r fs = (e, abs c') ∧ r' = r.
Proof.
  intros Hu. unfold memory_Update, map_Update.
  destruct (o_Meta r) as [[meta| | |]|]; [|done..].
  pose proof (findRecord_abs c (GetType r) (mm_Name meta) (mm_Mesh meta) Hu) as Hf.
  destruct (findRecord _ _ _ _) as [[k rec]|].
  - destruct Hf as (-> & Hk & l1 & l2 & Hl & ->).
    destruct (mm_Version meta =? rec_Version rec); simpl; [|done].
    unfold marshalRecord; simpl. destruct (ToJSON (o_Spec r)) as [content|e|]; simpl; [|done|done].
    set (rec' := mkRecord _ _ _ _ _ _ _).
    destruct (abs_insert c l1 rec l2 rec' Hu Hl ltac:(by rewrite Hk)) as [Hu' ->].
    by rewrite Hk.
  - by rewrite Hf.
Qed.

Lemma Delete_refines c r fs :
  unique_keys c →
  let '(e, c') := memory_Delete c r fs in
  unique_keys c' ∧ map_Delete (abs c) r fs = (e, abs c').
Proof.
  intros Hu. unfold memory_Delete, map_Delete. set (opts := NewDeleteOptions fs).
  pose proof (findRecord_abs c (GetType r) (do_Name opts) (do_Mesh opts) Hu) as Hf.
  destruct (o_Meta r) as [[meta| | |]|]; [|done|done|done|];
    (destruct (findRecord _ _ _ _) as [[k rec]|];
     [destruct Hf as (-> & Hk & l1 & l2 & Hl & ->);
      destruct (abs_delete c l1 rec l2 Hu Hl) as [Hu' ->]; by rewrite Hk
     |by rewrite Hf]).
Qed.

Lemma Get_refines c r fs :
  unique_keys c → memory_Get c r fs = map_Get (abs c) r fs.
Proof.
  intros Hu. unfold memory_Get, map_Get. set (opts := NewGetOptions fs).
  set (mesh := if String.eqb (GetType r) MeshType then go_Name opts else go_Mesh opts).
  set (opts' := if String.eqb (GetType r) MeshType then _ else opts).
  assert (go_Name opts' = go_Name opts ∧ go_Mesh opts' = mesh
    ∧ go_Version opts' = go_Version opts) as (-> & -> & ->).
  { subst opts' mesh. by destruct (String.eqb _ _). }
  pose proof (findRecord_abs c (GetType r) (go_Name opts) mesh Hu) as Hf.
  destruct (findRecord _ _ _ _) as [[k rec]|]; [by destruct Hf as [-> _]|by rewrite Hf].
Qed.

(** A call of one of the methods that change the store, whatever it returns. *)
Inductive memory_step : memoryStore → memoryStore → Prop :=
| step_Create c r fs : memory_step c (memory_Create c r fs).2.1
| step_Update c r fs : memory_step c (memory_Update c r fs).2.1
| step_Delete c r fs : memory_step c (memory_Delete c r fs).2.

Lemma memory_step_unique c c' : memory_step c c' → unique_keys c → unique_keys c'.
Proof.
  destruct 1 as [c r fs|c r fs|c r fs]; intros Hu.
  - pose proof (Create_refines c r fs Hu). destruct (memory_Create c r fs) as [? [? ?]]; simpl; tauto.
  - pose proof (Update_refines c r fs Hu). destruct (memory_Update c r fs) as [? [? ?]]; simpl; tauto.
  - pose proof (Delete_refines c r fs Hu). destruct (memory_Delete c r fs) as [? ?]; simpl; tauto.
Qed.

Definition NewStore : memoryStore := mkStore [].

Lemma reachable_unique c : rtc memory_step NewStore c → unique_keys c.
Proof.
  assert (∀ c0, rtc memory_step c0 c → unique_keys c0 → unique_keys c) as Hr.
  { intros c0. induction 1 as [|? ? ? ? ? IH]; eauto using memory_step_unique. }
  intros. by eapply Hr; [done|constructor].
Qed.

(** C4: In every state the memory store can reach, no two records share a
    type, name and mesh, and [Create], [Update], [Delete] and [Get] behave as
    the operations of a finite map keyed by them: same result or error, same
    filled resource, and a state that abstracts to the new map. *)
Theorem memory_refines_map c :
  rtc memory_step NewStore c →
  unique_keys c
  ∧ (∀ r fs, let '(e, (c', r')) := memory_Create c r fs in
       map_Create (abs c) r fs = (e, (abs c', r')))
  ∧ (∀ r fs, let '(e, (c', r')) := memory_Update c r fs in
       map_Update (abs c) r fs = (e, abs c') ∧ r' = r)
  ∧ (∀ r fs, let '(e, c') := memory_Delete c r fs in map_Delete (abs c) r fs = (e, abs c'))
  ∧ (∀ r fs, memory_Get c r fs = map_Get (abs c) r fs).
Proof.
  intros Hu%reachable_unique. split; [done|]. split; [|split; [|split]]; intros r fs.
  - pose proof (Create_refines c r fs Hu). destruct (memory_Create c r fs) as [? [? ?]]. tauto.
  - pose proof (Update_refines c r fs Hu). destruct (memory_Update c r fs) as [? [? ?]]. tauto.
  - pose proof (Delete_refines c r fs Hu). destruct (memory_Delete c r fs) as [? ?]. tauto.
  - by apply Get_refines.
Qed.
End Refinement.

(** A concrete codec: it writes secrets as their data and empty meshes as
    the empty object, and refuses the rest. *)
Definition sample_jsonpb : Jsonpb :=
  {| jsonpb_Marshal := λ spec,
       match spec with
       | SecretSpec (mkSecret (Some s)) => Ok s
       | MeshSpec (mkMesh None None None None) => Ok "{}"
       | _ => Err (Errorf "unsupported message" [])
       end;
     jsonpb_Unmarshal := λ s out,
       match out with
       | SecretSpec _ => (Ok (), SecretSpec (mkSecret (Some s)))
       | MeshSpec m => (Ok (), MeshSpec m)
       | _ => (Err (Errorf "unsupported message" []), out)
       end |}.

Lemma sample_jsonpb_lawful : @LawfulJsonpb sample_jsonpb.
Proof.
  constructor.
  - by intros s [].
  - intros spec s Hs.
    destruct spec as [[[] [] [] []]| | | | | | | | | | |[[]]]; simpl in Hs; simplify_eq; done.
Qed.

Definition sample_secret (data : string) : Object := mkObject None (SecretSpec (mkSecret (Some data))).

Definition sample_store : memoryStore :=
  (@memory_Create sample_jsonpb NewStore (sample_secret "x") [CreateByKey "s" "default"]).2.1.

Lemma memory_refines_map_witness :
  abs sample_store !! ("Secret", "s", "default") = Some (mkRecord "Secret" "s" "default" 1 "x" zeroTime zeroTime)
  ∧ unique_keys sample_store.
Proof.
  split; [reflexivity|].
  refine (proj1 (@memory_refines_map sample_jsonpb sample_store _)).
  apply rtc_once. apply (@step_Create sample_jsonpb).
Defined.

(** ** Reading back what was written *)

Section Contents.
Context `{LawfulJsonpb}.

(** A record holds a message of the type it is filed under. *)
Definition record_of (r : memoryStoreRecord) (spec : ResourceSpec) : Prop :=
  rec_ResourceType r = type_name (kind_of_spec spec) ∧ jsonpb_Marshal spec = Ok (rec_Spec r).

Definition store_ok (c : memoryStore) : Prop :=
  unique_keys c ∧ Forall (λ r, ∃ spec, record_of r spec) (records c).

Lemma ToJSON_Ok spec s : ToJSON spec = Ok s ↔ jsonpb_Marshal spec = Ok s.
Proof. unfold ToJSON. rewrite rbind_Ok. naive_solver. Qed.

Lemma memory_step_ok c c' : memory_step c c' → store_ok c → store_ok c'.
Proof.
  intros Hs [Hu Hr]. split; [by eapply memory_step_unique|].
  destruct Hs as [c r fs|c r fs|c r fs].
  - unfold memory_Create. destruct (findRecord _ _ _ _); simpl; [done|].
    unfold marshalRecord; simpl. destruct (ToJSON (o_Spec r)) as [content|e|] eqn:E; simpl; try done.
    apply Forall_app. split; [done|]. repeat constructor. exists (o_Spec r).
    split; [done|]. by apply ToJSON_Ok.
  - unfold memory_Update. destruct (o_Meta r) as [[meta| | |]|]; simpl; [|done..].
    destruct (findRecord _ _ _ _) as [[k rec]|]; simpl; [|done].
    destruct (negb _); simpl; [done|].
    unfold marshalRecord; simpl. destruct (ToJSON (o_Spec r)) as [content|e|] eqn:E; simpl; try done.
    apply Forall_insert; [done|]. exists (o_Spec r). split; [done|]. by apply ToJSON_Ok.
  - unfold memory_Delete. destruct (o_Meta r) as [[meta| | |]|]; simpl; try done;
      destruct (findRecord _ _ _ _) as [[k rec]|]; simpl; try done;
      apply Forall_app; (split; [by apply Forall_take|by apply Forall_drop]).
Qed.

Lemma reachable_ok c : rtc memory_step NewStore c → store_ok c.
Proof.
  assert (∀ c0, rtc memory_step c0 c → store_ok c0 → store_ok c) as Hr.
  { intros c0. induction 1 as [|? ? ? ? ? IH]; eauto using memory_step_ok. }
  intros. eapply Hr; [done|]. by split; constructor.
Qed.

(** What reading a record into a fresh resource gives. *)
Definition decode (k : Kind) (r : memoryStoreRecord) : Object := (unmarshalRecord r (new_object k)).2.

Lemma unmarshalRecord_fresh r spec :
  record_of r spec →
  unmarshalRecord r (new_object (kind_of_spec spec))
  = (Ok (), mkObject (Some (MemoryMeta (record_meta r))) spec).
Proof.
  intros [_ Hm]. unfold unmarshalRecord, FromJSON; simpl.
  by rewrite (unmarshal_marshal _ _ Hm).
Qed.

(** *** Create, update, get *)

Lemma unmarshal_stored r t n m v content ct mt :
  jsonpb_Marshal (o_Spec r) = Ok content →
  unmarshalRecord (mkRecord t n m v content ct mt) (new_object (o_Kind r))
  = (Ok (), mkObject (Some (MemoryMeta (mkMemoryMeta n m v ct mt))) (o_Spec r)).
Proof.
  intros Hm. unfold unmarshalRecord, FromJSON; simpl. unfold o_Kind.
  by rewrite (unmarshal_marshal _ _ Hm).
Qed.

Lemma GetType_new_object r : GetType (new_object (o_Kind r)) = GetType r.
Proof. unfold GetType, o_Kind, new_object; simpl. by rewrite kind_of_zero. Qed.

Lemma Create_then_Get c r fs c' r' :
  unique_keys c → memory_Create c r fs = (Ok (), (c', r')) →
  let name := co_Name (NewCreateOptions fs) in
  let mesh := co_Mesh (NewCreateOptions fs) in
  memory_Get c' (new_object (o_Kind r)) [GetByKey name mesh] = (Ok (), r')
  ∧ o_Spec r' = o_Spec r
  ∧ ∀ key, key ≠ (GetType r, name, if String.eqb (GetType r) MeshType then name else mesh) →
      abs c' !! key = abs c !! key.
Proof.
  intros Hu Hc name mesh. pose proof (Create_refines c r fs Hu) as Hr. rewrite Hc in Hr.
  destruct Hr as [Hu' Hr]. rewrite (Get_refines _ _ _ Hu'). unfold map_Get. simpl.
  rewrite GetType_new_object. unfold map_Create in Hr. destruct (abs c !! _) eqn:E; [done|].
  destruct (ToJSON (o_Spec r)) as [content|e|] eqn:Ej; try done. injection Hr as Habs <-.
  rewrite <- Habs. rewrite lookup_insert_eq. simpl. split; [|split; [done|]].
  - apply unmarshal_stored. by apply ToJSON_Ok.
  - intros key Hkey. by rewrite lookup_insert_ne.
Qed.

Lemma Update_then_Get c r fs m c' r' :
  unique_keys c → o_Meta r = Some (MemoryMeta m) → String.eqb (GetType r) MeshType = false →
  memory_Update c r fs = (Ok (), (c', r')) →
  memory_Get c' (new_object (o_Kind r)) [GetByKey (mm_Name m) (mm_Mesh m)]
    = (Ok (), mkObject (Some (MemoryMeta (mkMemoryMeta (mm_Name m) (mm_Mesh m)
                 (memoryVersion_Next (mm_Version m)) (mm_CreationTime m)
                 (uo_ModificationTime (NewUpdateOptions fs))))) (o_Spec r))
  ∧ ∀ key, key ≠ (GetType r, mm_Name m, mm_Mesh m) → abs c' !! key = abs c !! key.
Proof.
  intros Hu Hm Hmesh Hc. pose proof (Update_refines c r fs Hu) as Hr. rewrite Hc in Hr.
  destruct Hr as (Hu' & Hr & _). rewrite (Get_refines _ _ _ Hu'). unfold map_Get. simpl.
  rewrite GetType_new_object, Hmesh. unfold map_Update in Hr. rewrite Hm in Hr.
  destruct (abs c !! _) as [rec|] eqn:E; [|done]. destruct (_ =? _); [|done].
  destruct (ToJSON (o_Spec r)) as [content|e|] eqn:Ej; try done. injection Hr as Habs.
  rewrite <- Habs. rewrite lookup_insert_eq. simpl. split.
  - apply unmarshal_stored. by apply ToJSON_Ok.
  - intros key Hkey. by rewrite lookup_insert_ne.
Qed.

(** What was created can be read back: after a successful [Create],
    getting the same name and mesh into a fresh resource returns exactly the
    resource [Create] left in the caller's hands, at version 1 with the given
    creation time; after a successful [Update], it returns the updated message
    with the version of the caller's metadata plus one and the same creation
    time, and other keys read as before. *)
Theorem memory_read_your_writes c r :
  rtc memory_step NewStore c →
  (∀ fs c' r', memory_Create c r fs = (Ok (), (c', r')) →
     memory_Get c' (new_object (o_Kind r))
       [GetByKey (co_Name (NewCreateOptions fs)) (co_Mesh (NewCreateOptions fs))] = (Ok (), r')
     ∧ o_Spec r' = o_Spec r)
  ∧ (∀ fs m c' r', o_Meta r = Some (MemoryMeta m) →
     String.eqb (GetType r) MeshType = false →
     memory_Update c r fs = (Ok (), (c', r')) →
     memory_Get c' (new_object (o_Kind r)) [GetByKey (mm_Name m) (mm_Mesh m)]
       = (Ok (), mkObject (Some (MemoryMeta (mkMemoryMeta (mm_Name m) (mm_Mesh m)
                    (memoryVersion_Next (mm_Version m)) (mm_CreationTime m)
                    (uo_ModificationTime (NewUpdateOptions fs))))) (o_Spec r))
     ∧ ∀ key, key ≠ (GetType r, mm_Name m, mm_Mesh m) → abs c' !! key = abs c !! key).
Proof.
  intros Hu%reachable_unique. split.
  - intros fs c' r' Hc. by destruct (Create_then_Get c r fs c' r' Hu Hc) as (? & ? & _).
  - intros fs m c' r' Hm Hmesh Hc. by eapply Update_then_Get.
Qed.

Lemma version_changes v : memoryVersion_Next v ≠ v.
Proof.
  unfold memoryVersion_Next, wrap64. intros Hv.
  pose proof (Z.mod_pos_bound (v + 1) (2 ^ 64) ltac:(lia)) as Hb.
  destruct (decide (v + 1 < 2 ^ 64)); [rewrite Z.mod_small in Hv; lia|].
  assert (v + 1 = 2 ^ 64) as Heq by lia. rewrite Heq, Z.mod_same in Hv; lia.
Qed.

(** C9: Optimistic locking: when two callers hold the same version of a
    resource, the first update wins and the second one fails with a conflict
    and leaves the store unchanged, also when the version counter wraps. *)
Theorem memory_Update_conflict c r1 r2 m fs1 fs2 c' r' :
  rtc memory_step NewStore c →
  o_Meta r1 = Some (MemoryMeta m) → o_Meta r2 = Some (MemoryMeta m) → o_Kind r1 = o_Kind r2 →
  memory_Update c r1 fs1 = (Ok (), (c', r')) →
  memory_Update c' r2 fs2
  = (Err (ErrorResourceConflict (GetType r2) (mm_Name m) (mm_Mesh m)), (c', r2)).
Proof.
  intros Hu%reachable_unique H1 H2 Hk Hc.
  assert (GetType r2 = GetType r1) as Ht by (unfold GetType; by rewrite Hk).
  pose proof (Update_refines c r1 fs1 Hu) as Hr. rewrite Hc in Hr. destruct Hr as (Hu' & Hr & _).
  unfold map_Update in Hr. rewrite H1 in Hr. destruct (abs c !! _) as [rec|] eqn:E; [|done].
  destruct (_ =? _); [|done]. destruct (ToJSON (o_Spec r1)) as [content|e|]; try done.
  injection Hr as Habs. unfold memory_Update. rewrite H2, Ht.
  pose proof (findRecord_abs c' (GetType r1) (mm_Name m) (mm_Mesh m) Hu') as Hf.
  destruct (findRecord _ _ _ _) as [[k rec']|]; [|done].
  destruct Hf as [Hl _]. rewrite <- Habs, lookup_insert_eq in Hl. injection Hl as <-. simpl.
  pose proof (version_changes (mm_Version m)) as Hv. unfold memoryVersion_Next in Hv.
  by rewrite (proj2 (Z.eqb_neq _ _)) by congruence.
Qed.
End Contents.

Lemma memory_read_your_writes_witness :
  @memory_Get sample_jsonpb sample_store (new_object KSecret) [GetByKey "s" "default"]
  = (Ok (), mkObject (Some (MemoryMeta (mkMemoryMeta "s" "default" 1 zeroTime zeroTime)))
              (SecretSpec (mkSecret (Some "x")))).
Proof.
  refine (proj1 (proj1 (@memory_read_your_writes sample_jsonpb sample_jsonpb_lawful NewStore
    (sample_secret "x") _) [CreateByKey "s" "default"] sample_store _ _)).
  - apply rtc_refl.
  - reflexivity.
Defined.

Lemma memory_Update_conflict_witness :
  let m := mkMemoryMeta "s" "default" 1 zeroTime zeroTime in
  let r1 := mkObject (Some (MemoryMeta m)) (SecretSpec (mkSecret (Some "y"))) in
  let r2 := mkObject (Some (MemoryMeta m)) (SecretSpec (mkSecret (Some "z"))) in
  let c' := (@memory_Update sample_jsonpb sample_store r1 [ModifiedAt 5]).2.1 in
  @memory_Update sample_jsonpb c' r2 [ModifiedAt 6]
  = (Err (ErrorResourceConflict "Secret" "s" "default"), (c', r2)).
Proof.
  intros m r1 r2 c'.
  refine (@memory_Update_conflict sample_jsonpb sample_store r1 r2 m [ModifiedAt 5] [ModifiedAt 6]
    c' r1 _ _ _ _ _); try reflexivity.
  apply rtc_once. apply (@step_Create sample_jsonpb).
Defined.

(** ** Listing *)

Section Listing.
Context `{LawfulJsonpb}.

(** All records of a type read into a list of that type. *)
Definition readable (k : Kind) (recs : list memoryStoreRecord) : Prop :=
  Forall (λ r, unmarshalRecord r (new_object k) = (Ok (), decode k r) ∧ o_Kind (decode k r) = k) recs.

Lemma findRecords_readable c k mesh : store_ok c → readable k (findRecords c (type_name k) mesh).
Proof.
  intros [_ Hr]. unfold readable, findRecords. rewrite Forall_forall in Hr. apply Forall_forall.
  intros r Hin. apply list_elem_of_In, filter_In in Hin as [Hin Ht].
  apply andb_true_iff in Ht as [Ht _]. apply String.eqb_eq in Ht.
  apply list_elem_of_In in Hin. destruct (Hr r Hin) as (spec & Hspec).
  assert (kind_of_spec spec = k) as <-.
  { apply type_name_inj. destruct Hspec as [Hx _]. congruence. }
  pose proof (unmarshalRecord_fresh r spec Hspec) as E. unfold decode. rewrite E. done.
Qed.

Definition with_items (rs : ObjectList) (items : list Object) : ObjectList :=
  mkObjectList (ol_Kind rs) (GetItems rs ++ items) (NextOffset rs).

Lemma List_loop_spec fuel recs i limit rs :
  readable (ol_Kind rs) recs → 0 ≤ i → Z.of_nat (length recs) - i < Z.of_nat fuel →
  List_loop fuel recs i limit rs
  = Some (Ok (), with_items rs (decode (ol_Kind rs) <$>
           take (Z.to_nat (limit - i)) (drop (Z.to_nat i) recs))).
Proof.
  intros Hread. revert i rs Hread; induction fuel as [|fuel IH]; intros i rs Hread Hi Hf; simpl.
  { rewrite (proj2 (Z.ltb_ge i (Z.of_nat (length recs)))) by lia. rewrite andb_false_r.
    rewrite drop_ge by lia. rewrite take_nil. unfold with_items. rewrite app_nil_r. by destruct rs. }
  destruct (Z.ltb_spec i limit) as [Hlim|Hlim]; simpl.
  2: { replace (Z.to_nat (limit - i)) with 0%nat by lia. rewrite take_0. unfold with_items.
       rewrite app_nil_r. by destruct rs. }
  destruct (Z.ltb_spec i (Z.of_nat (length recs))) as [Hlen|Hlen]; simpl.
  2: { rewrite drop_ge by lia. rewrite take_nil. unfold with_items. rewrite app_nil_r. by destruct rs. }
  rewrite (proj2 (Z.ltb_ge i 0)) by lia.
  destruct (lookup_lt_is_Some_2 recs (Z.to_nat i) ltac:(lia)) as [r Hr]. rewrite Hr.
  assert (r ∈ recs) as Hin by (by eapply list_elem_of_lookup_2).
  unfold readable in Hread. pose proof Hread as Hread'. rewrite Forall_forall in Hread'.
  destruct (Hread' r Hin) as [Hu Hk]. unfold NewItem. rewrite Hu.
  unfold AddItem. rewrite bool_decide_eq_true_2 by done.
  rewrite IH; [|done|lia|lia]. unfold with_items; simpl. f_equal. f_equal. f_equal.
  rewrite <- app_assoc. f_equal. rewrite (drop_S _ _ _ Hr).
  replace (Z.to_nat (limit - i)) with (S (Z.to_nat (limit - (i + 1)))) by lia.
  simpl. by replace (Z.to_nat (i + 1)) with (S (Z.to_nat i)) by lia.
Qed.

Lemma List_loop_negative fuel recs i limit rs :
  i < 0 → i < limit → List_loop (S fuel) recs i limit rs = Some (Panic, rs).
Proof.
  intros Hi Hl. simpl. rewrite (proj2 (Z.ltb_lt i limit)), (proj2 (Z.ltb_lt i (Z.of_nat _))) by lia.
  simpl. by rewrite (proj2 (Z.ltb_lt i 0)).
Qed.

#[local] Arguments List_loop : simpl never.

(** One page of a listing by type and mesh. *)
Definition list_page (c : memoryStore) (k : Kind) (mesh : string) (size : Z) (offset : string)
  : res unit * ObjectList :=
  memory_List c (new_list k) [ListByMesh mesh; ListByPage size offset].

Lemma list_page_spec c k mesh size offset o :
  store_ok c → 0 < size < 2 ^ 62 → 0 ≤ o < 2 ^ 62 →
  (offset = "" ∧ o = 0) ∨ (offset ≠ "" ∧ atoi offset = Ok o) →
  let recs := findRecords c (type_name k) mesh in
  list_page c k mesh size offset
  = (Ok (), mkObjectList k (decode k <$> take (Z.to_nat size) (drop (Z.to_nat o) recs))
              (if o + size <? Z.of_nat (length recs) then itoa (o + size) else "")).
Proof.
  intros Hok Hsize Ho Hoff recs. unfold list_page, memory_List. simpl.
  fold recs. rewrite (proj2 (Z.eqb_neq size 0)) by lia. simpl.
  assert ((if negb (String.eqb offset "") then
      match atoi offset with Ok o => Ok (o, size) | _ => Err ErrorInvalidOffset end
    else Ok (0, size)) = Ok (o, size)) as ->.
  { destruct Hoff as [[-> ->]|[Hne ->]]; [done|]. by rewrite (proj2 (String.eqb_neq _ _) Hne). }
  rewrite wrap_int_id by lia.
  rewrite List_loop_spec; [|by apply findRecords_readable|lia|lia].
  unfold SetPagination, with_items; simpl. by replace (o + size - o) with size by lia.
Qed.

(** Following the offsets of the pages until there is no next page. *)
Fixpoint all_pages (fuel : nat) (c : memoryStore) (k : Kind) (mesh : string) (size : Z)
    (offset : string) : option (list Object) :=
  match fuel with
  | O => None
  | S fuel' =>
      match list_page c k mesh size offset with
      | (Ok _, l) =>
          if String.eqb (NextOffset l) "" then Some (GetItems l)
          else (λ rest, GetItems l ++ rest) <$> all_pages fuel' c k mesh size (NextOffset l)
      | _ => None
      end
  end.

Lemma all_pages_spec fuel c k mesh size offset o :
  store_ok c → 0 < size < 2 ^ 62 →
  Z.of_nat (length (findRecords c (type_name k) mesh)) < 2 ^ 62 →
  0 ≤ o < 2 ^ 62 → (offset = "" ∧ o = 0) ∨ (offset ≠ "" ∧ atoi offset = Ok o) →
  Z.of_nat (length (findRecords c (type_name k) mesh)) - o < Z.of_nat fuel →
  (0 < fuel)%nat →
  all_pages fuel c k mesh size offset
  = Some (decode k <$> drop (Z.to_nat o) (findRecords c (type_name k) mesh)).
Proof.
  intros Hok Hsize Hlen. set (recs := findRecords c (type_name k) mesh) in *.
  revert offset o; induction fuel as [|fuel IH]; intros offset o Ho Hoff Hf Hpos; [lia|].
  simpl. rewrite (list_page_spec c k mesh size offset o) by done. simpl. fold recs.
  destruct (Z.ltb_spec (o + size) (Z.of_nat (length recs))) as [Hn|Hn]; simpl.
  - assert (itoa (o + size) ≠ "") as Hne.
    { unfold itoa. rewrite (proj2 (Z.ltb_ge _ _)) by lia. apply format_uint_nonempty. }
    rewrite (proj2 (String.eqb_neq _ _) Hne).
    rewrite (IH (itoa (o + size)) (o + size)); [|lia| |lia|lia].
    + simpl. f_equal. rewrite <- fmap_app. f_equal.
      rewrite <- (take_drop (Z.to_nat size) (drop (Z.to_nat o) recs)) at 2.
      rewrite drop_drop. by replace (Z.to_nat o + Z.to_nat size)%nat with (Z.to_nat (o + size)) by lia.
    + right. split; [done|]. apply atoi_itoa. lia.
  - f_equal. f_equal. apply take_ge. rewrite length_drop. lia.
Qed.

(** Listing without a page size. *)
Lemma memory_List_all c k mesh :
  store_ok c → Z.of_nat (length (findRecords c (type_name k) mesh)) < 2 ^ 62 →
  memory_List c (new_list k) [ListByMesh mesh]
  = (Ok (), mkObjectList k (decode k <$> findRecords c (type_name k) mesh) "").
Proof.
  intros Hok Hlen. unfold memory_List. simpl. change (GetItemType (new_list k)) with (type_name k).
  set (recs := findRecords c (type_name k) mesh) in *. rewrite wrap_int_id by lia.
  rewrite List_loop_spec; [|by apply findRecords_readable|lia|lia].
  unfold with_items. rewrite take_ge by (rewrite length_drop; lia). done.
Qed.

(** Listing: without a page size all the resources of the type (and
    mesh, unless it is empty) are returned; with a page size, following the
    next offsets from the first page on terminates and returns the same
    resources, each once and in the same order. *)
Theorem memory_List_pages c k mesh size :
  rtc memory_step NewStore c → 0 < size < 2 ^ 62 →
  Z.of_nat (length (findRecords c (type_name k) mesh)) < 2 ^ 62 →
  let all := decode k <$> findRecords c (type_name k) mesh in
  memory_List c (new_list k) [ListByMesh mesh] = (Ok (), mkObjectList k all "")
  ∧ all_pages (S (length all)) c k mesh size "" = Some all.
Proof.
  intros Hok%reachable_ok Hsize Hlen all. split.
  - by apply memory_List_all.
  - subst all. rewrite length_fmap.
    apply (all_pages_spec _ c k mesh size "" 0); [done|done|done|lia|by left|lia|lia].
Qed.

(** A page offset that is not a number is refused, but a negative one is
    not: the loop then indexes the records with it and panics, even on an empty
    store. *)
Theorem memory_List_negative_offset c k mesh size :
  0 < size < 2 ^ 62 →
  list_page c k mesh size "x" = (Err ErrorInvalidOffset, new_list k)
  ∧ list_page c k mesh size "-1" = (Panic, new_list k).
Proof.
  intros Hsize. unfold list_page, memory_List. simpl.
  rewrite (proj2 (Z.eqb_neq size 0)) by lia. simpl. split; [done|].
  rewrite wrap_int_id by lia. by rewrite List_loop_negative by lia.
Qed.
End Listing.

Lemma memory_List_pages_witness :
  @all_pages sample_jsonpb 2 sample_store KSecret "default" 1 "" =
  Some [mkObject (Some (MemoryMeta (mkMemoryMeta "s" "default" 1 zeroTime zeroTime)))
          (SecretSpec (mkSecret (Some "x")))].
Proof.
  refine (proj2 (@memory_List_pages sample_jsonpb sample_jsonpb_lawful sample_store KSecret "default"
    1 _ _ _)); [|lia|vm_compute; reflexivity].
  apply rtc_once. apply (@step_Create sample_jsonpb).
Defined.

Lemma memory_List_negative_offset_witness :
  @list_page sample_jsonpb NewStore KDataplane "" 10 "-1" = (Panic, new_list KDataplane).
Proof.
  refine (proj2 (@memory_List_negative_offset sample_jsonpb NewStore KDataplane "" 10 _)). lia.
Defined.

Section MeshKeys.
Context `{Jsonpb}.

(** A mesh is filed under its own name. *)
Definition mesh_keys (c : memoryStore) : Prop :=
  Forall (λ r, rec_ResourceType r = MeshType → rec_Mesh r = rec_Name r) (records c).

Lemma memory_step_mesh_keys c c' : memory_step c c' → mesh_keys c → mesh_keys c'.
Proof.
  unfold mesh_keys. intros Hs Hm. destruct Hs as [c r fs|c r fs|c r fs].
  - unfold memory_Create. destruct (findRecord _ _ _ _); simpl; [done|].
    unfold marshalRecord; simpl. destruct (ToJSON (o_Spec r)) as [content|e|]; simpl; try done.
    apply Forall_app. split; [done|]. repeat constructor. simpl.
    change (GetType (SetMeta r _)) with (GetType r). intros ->. by rewrite String.eqb_refl.
  - unfold memory_Update. destruct (o_Meta r) as [[meta| | |]|]; simpl; [|done..].
    pose proof (findRecord_loop_spec (GetType r) (mm_Name meta) (mm_Mesh meta) 0 (records c)) as Hf.
    unfold findRecord. destruct (findRecord_loop _ _ _ _ _) as [[k rec]|]; simpl; [|done].
    destruct Hf as (l1 & l2 & Hl & _ & Hk). destruct (negb _); simpl; [done|].
    unfold marshalRecord; simpl. destruct (ToJSON (o_Spec r)) as [content|e|]; simpl; try done.
    apply Forall_insert; [done|]. simpl. rewrite Forall_forall in Hm.
    specialize (Hm rec ltac:(rewrite Hl; set_solver)). unfold rkey in Hk.
    by injection Hk as <- <- <-.
  - unfold memory_Delete. destruct (o_Meta r) as [[meta| | |]|]; simpl; try done;
      destruct (findRecord _ _ _ _) as [[k rec]|]; simpl; try done;
      apply Forall_app; (split; [by apply Forall_take|by apply Forall_drop]).
Qed.

Lemma reachable_mesh_keys c : rtc memory_step NewStore c → mesh_keys c.
Proof.
  assert (∀ c0, rtc memory_step c0 c → mesh_keys c0 → mesh_keys c) as Hr.
  { intros c0. induction 1 as [|? ? ? ? ? IH]; eauto using memory_step_mesh_keys. }
  intros. by eapply Hr; [done|constructor].
Qed.
End MeshKeys.

(** A mesh resource is filed under its own name as its mesh: [Create] and
    [Get] replace the mesh they are given, but [Delete] does not, so deleting a
    mesh with the key it was created with fails when that key names another
    mesh. *)
Theorem memory_Delete_mesh_key `{LawfulJsonpb} c r name mesh c' r' :
  rtc memory_step NewStore c → o_Kind r = KMesh → name ≠ mesh →
  memory_Create c r [CreateByKey name mesh] = (Ok (), (c', r')) →
  memory_Get c' (new_object KMesh) [GetByKey name mesh] = (Ok (), r')
  ∧ memory_Delete c' r' [DeleteByKey name mesh]
    = (Err (ErrorResourceNotFound MeshType name mesh), c').
Proof.
  intros Hc Hk Hne Hcr. pose proof (reachable_mesh_keys c Hc) as Hmesh.
  pose proof (reachable_unique c Hc) as Hu.
  pose proof (proj1 (memory_read_your_writes c r Hc) _ _ _ Hcr) as [Hg _].
  rewrite Hk in Hg. simpl in Hg. split; [exact Hg|].
  pose proof (Create_refines c r [CreateByKey name mesh] Hu) as Hr. rewrite Hcr in Hr.
  destruct Hr as [Hu' Hr]. assert (GetType r = MeshType) as Ht by (unfold GetType; by rewrite Hk).
  unfold map_Create in Hr. rewrite Ht in Hr. simpl in Hr.
  destruct (abs c !! _) eqn:E; [done|]. destruct (ToJSON (o_Spec r)) as [content|e|]; try done.
  injection Hr as Habs <-. unfold memory_Delete; simpl.
  change (GetType (mkObject (Some (MemoryMeta _)) (o_Spec r))) with (GetType r). rewrite Ht.
  pose proof (findRecord_abs c' MeshType name mesh Hu') as Hf.
  destruct (findRecord _ _ _ _) as [[k rec]|]; [|done]. destruct Hf as (Hl & Hkey & _).
  exfalso. rewrite <- Habs, lookup_insert_ne in Hl by congruence.
  apply (abs_lookup _ _ _ Hu) in Hl as [Hin Hk']. apply Hne.
  unfold mesh_keys in Hmesh. rewrite Forall_forall in Hmesh. specialize (Hmesh rec Hin). unfold rkey in Hk'.
  injection Hk' as Hty <- <-. by symmetry; apply Hmesh.
Qed.

Lemma memory_Delete_mesh_key_witness :
  let r := new_object KMesh in
  let c' := (@memory_Create sample_jsonpb NewStore r [CreateByKey "m1" "default"]).2.1 in
  let r' := (@memory_Create sample_jsonpb NewStore r [CreateByKey "m1" "default"]).2.2 in
  @memory_Delete c' r' [DeleteByKey "m1" "default"]
  = (Err (ErrorResourceNotFound "Mesh" "m1" "default"), c').
Proof.
  intros r c' r'.
  refine (proj2 (@memory_Delete_mesh_key sample_jsonpb sample_jsonpb_lawful NewStore r "m1" "default"
    c' r' _ _ _ _)); [apply rtc_refl|reflexivity|discriminate|reflexivity].
Defined.
