(* ===== verification/Manager.v ===== *)
(** * Resource managers

    Models [pkg/core/resources/manager]: the manager over a store (validation,
    existence of the mesh, bulk deletion), the manager that dispatches on the
    resource type, and the caching read-only manager.  A Go interface value is
    a record of operations over a state; an operation that stamps a resource
    takes the time of the call.  The cache of the code holds the very resources
    it returned; here it holds their values at that time, which is the same for
    callers that do not modify what they read. *)

From S2P Require Import Prelude GoStd Dataplane MeshResources Validators.
From S2P Require Import Insights Resources Store MemoryStore.
Local Open Scope Z_scope.

Record ReadOnlyResourceManager (St : Type) : Type := mkReadOnlyManager {
  mgr_Get : St → Object → list GetOptionsFunc → res unit * (St * Object);
  mgr_List : St → ObjectList → list ListOptionsFunc → res unit * (St * ObjectList);
}.
Arguments mkReadOnlyManager {St} _ _.
Arguments mgr_Get {St} _ _ _ _.
Arguments mgr_List {St} _ _ _ _.

Record ResourceManager (St : Type) : Type := mkManager {
  read_only : ReadOnlyResourceManager St;
  mgr_Create : Z → St → Object → list CreateOptionsFunc → res unit * (St * Object);
  mgr_Update : Z → St → Object → list UpdateOptionsFunc → res unit * (St * Object);
  mgr_Delete : St → Object → list DeleteOptionsFunc → res unit * St;
  mgr_DeleteAll : St → ObjectList → list DeleteAllOptionsFunc → res unit * (St * ObjectList);
}.
Arguments mkManager {St} _ _ _ _ _.
Arguments read_only {St} _.
Arguments mgr_Create {St} _ _ _ _ _.
Arguments mgr_Update {St} _ _ _ _ _.
Arguments mgr_Delete {St} _ _ _ _.
Arguments mgr_DeleteAll {St} _ _ _ _.

(** ** Errors *)

Definition MeshNotFound (meshName : string) : goerror :=
  Errorf "mesh of name %s is not found" [AStr meshName].
(** The assertion on [*MeshNotFoundError]. *)
Definition IsMeshNotFound (err : goerror) : bool :=
  match err with
  | Errorf format _ => String.eqb format "mesh of name %s is not found"
  | _ => false
  end.

(** A validation error as an [error], and the assertion that recovers it. *)
Definition validationFailed (verr : ValidationError) : goerror :=
  ErrorStruct "*validators.ValidationError" ((λ v, (v_Field v, v_Message v)) <$> verr) (Validation_Error verr).
Definition as_ValidationError (err : goerror) : option ValidationError :=
  match err with
  | ErrorStruct typ fields _ =>
      if String.eqb typ "*validators.ValidationError"
      then Some ((λ f, mkViolation f.1 f.2) <$> fields) else None
  | _ => None
  end.
Definition IsValidationError (err : goerror) : bool :=
  match as_ValidationError err with Some _ => true | None => false end.

Lemma as_validationFailed verr : as_ValidationError (validationFailed verr) = Some verr.
Proof.
  unfold as_ValidationError, validationFailed. simpl. f_equal.
  rewrite <- list_fmap_compose. rewrite <- (list_fmap_id verr) at 2. by apply list_fmap_ext; intros ? [].
Qed.


(** ** manager.go *)

Section Manager.
Context {St : Type} `{ResourceStore St}.
Context (ptypes_Duration : Duration → option Z) (ResourceFromYaml_error : string → option string).

Definition validate (r : Object) : res unit :=
  match Validate ptypes_Duration ResourceFromYaml_error r with
  | Ok None => Ok ()
  | Ok (Some verr) => Err (validationFailed verr)
  | Err e => Err e
  | Panic => Panic
  end.

Definition manager_Get (s : St) (r : Object) (fs : list GetOptionsFunc) : res unit * (St * Object) :=
  let (err, r') := store_Get s r fs in (err, (s, r')).

Definition manager_List (s : St) (l : ObjectList) (fs : list ListOptionsFunc)
  : res unit * (St * ObjectList) :=
  let (err, l') := store_List s l fs in (err, (s, l')).

Definition ensureMeshExists (s : St) (meshName : string) : res unit :=
  let (err, l) := store_List s (new_list KMesh) [ListByMesh meshName] in
  let? _ := err in
  if negb (Nat.eqb (length (GetItems l)) 1) then Err (MeshNotFound meshName) else Ok ().

Definition manager_Create (now : Z) (s : St) (r : Object) (fs : list CreateOptionsFunc)
  : res unit * (St * Object) :=
  match validate r with
  | Ok _ =>
      let opts := NewCreateOptions fs in
      let exists_ := if negb (String.eqb (GetType r) MeshType)
                     then ensureMeshExists s (co_Mesh opts) else Ok () in
      match exists_ with
      | Ok _ => store_Create s r (fs ++ [CreatedAt now])
      | err => (err, (s, r))
      end
  | err => (err, (s, r))
  end.

Definition manager_Update (now : Z) (s : St) (r : Object) (fs : list UpdateOptionsFunc)
  : res unit * (St * Object) :=
  match validate r with
  | Ok _ => store_Update s r (fs ++ [ModifiedAt now])
  | err => (err, (s, r))
  end.

Definition manager_Delete (s : St) (r : Object) (fs : list DeleteOptionsFunc) : res unit * St :=
  store_Delete s r fs.
End Manager.

(** The loop of [DeleteAllResources]: a resource that is already gone is
    skipped, any other error stops it. *)
Fixpoint DeleteAll_loop {St} (delete_ : St → Object → list DeleteOptionsFunc → res unit * St)
    (s : St) (items : list Object) : res unit * St :=
  match items with
  | [] => (Ok (), s)
  | item :: rest =>
      let (err, s') := delete_ s item [DeleteBy (MetaToResourceKey (observe <$> o_Meta item))] in
      match err with
      | Ok _ => DeleteAll_loop delete_ s' rest
      | Err e => if negb (IsResourceNotFound e) then (Err e, s') else DeleteAll_loop delete_ s' rest
      | Panic => (Panic, s')
      end
  end.

Definition DeleteAllResources {St}
    (list_ : St → ObjectList → list ListOptionsFunc → res unit * (St * ObjectList))
    (delete_ : St → Object → list DeleteOptionsFunc → res unit * St)
    (s : St) (l : ObjectList) (fs : list DeleteAllOptionsFunc) : res unit * (St * ObjectList) :=
  let opts := NewDeleteAllOptions fs in
  let '(err, (s1, l1)) := list_ s l [ListByMesh (dao_Mesh opts)] in
  match err with
  | Ok _ => let (err', s2) := DeleteAll_loop delete_ s1 (GetItems l1) in (err', (s2, l1))
  | err => (err, (s1, l1))
  end.

Definition NewResourceManager {St} `{ResourceStore St} (ptypes_Duration : Duration → option Z)
    (ResourceFromYaml_error : string → option string) : ResourceManager St :=
  {| read_only := mkReadOnlyManager manager_Get manager_List;
     mgr_Create := manager_Create ptypes_Duration ResourceFromYaml_error;
     mgr_Update := manager_Update ptypes_Duration ResourceFromYaml_error;
     mgr_Delete := manager_Delete;
     mgr_DeleteAll := DeleteAllResources manager_List manager_Delete |}.

(** What every deletion keeps, the loop keeps. *)
Lemma DeleteAll_loop_inv {St} (I : St → Prop) del (items : list Object) s :
  (∀ s r fs, I s → I (del s r fs).2) → I s → I (DeleteAll_loop del s items).2.
Proof.
  intros Hdel. revert s; induction items as [|item rest IH]; intros s Hs; simpl; [done|].
  specialize (Hdel s item [DeleteBy (MetaToResourceKey (observe <$> o_Meta item))] Hs).
  destruct (del s item _) as [[|e|] s']; simpl in *; [by apply IH| |done].
  destruct (negb _); [done|by apply IH].
Qed.

(** ** customizable_manager.go *)

Section Customizable.
Context {St : Type} (defaultManager : ResourceManager St)
  (customManagers : gmap string (ResourceManager St)).

Definition resourceManager (typ : string) : ResourceManager St :=
  match customManagers !! typ with
  | Some customManager => customManager
  | None => defaultManager
  end.

Definition NewCustomizableResourceManager : ResourceManager St :=
  {| read_only :=
       {| mgr_Get := λ s r fs, mgr_Get (read_only (resourceManager (GetType r))) s r fs;
          mgr_List := λ s l fs, mgr_List (read_only (resourceManager (GetItemType l))) s l fs |};
     mgr_Create := λ now s r fs, mgr_Create (resourceManager (GetType r)) now s r fs;
     mgr_Update := λ now s r fs, mgr_Update (resourceManager (GetType r)) now s r fs;
     mgr_Delete := λ s r fs, mgr_Delete (resourceManager (GetType r)) s r fs;
     mgr_DeleteAll := λ s l fs, mgr_DeleteAll (resourceManager (GetItemType l)) s l fs |}.
End Customizable.

(** ** cache.go *)

(** What the cache holds: a resource or the items of a list. *)
Inductive cached : Type := CachedResource (o : Object) | CachedItems (l : list Object).

(** [go-cache] is not part of the repository: a lookup at a time, and
    [SetDefault] at a time.  A lookup returns what was stored last under the
    key, or nothing (expired or evicted). *)
Class GoCache (C : Type) : Type := {
  cache_Get : Z → C → string → option cached;
  cache_SetDefault : Z → C → string → cached → C;
}.
Class LawfulGoCache (C : Type) `{GoCache C} : Prop := {
  cache_get_set : ∀ t t' c k v k' w,
    cache_Get t' (cache_SetDefault t c k v) k' = Some w →
    (k' = k ∧ w = v) ∨ (k' ≠ k ∧ cache_Get t' c k' = Some w);
}.

Section Cached.
Context {St C : Type} `{GoCache C} (delegate : ReadOnlyResourceManager St).

Definition get_cacheKey (typ : string) (opts : GetOptions) : string :=
  "GET:" +:+ typ +:+ ":" +:+ GetOptions_HashCode opts.
Definition list_cacheKey (typ : string) (opts : ListOptions) : string :=
  "LIST:" +:+ typ +:+ ":" +:+ ListOptions_HashCode opts.

Definition cached_Get (now : Z) (st : St * C) (r : Object) (fs : list GetOptionsFunc)
  : res unit * ((St * C) * Object) :=
  let cacheKey := get_cacheKey (GetType r) (NewGetOptions fs) in
  match cache_Get now st.2 cacheKey with
  | None =>
      let '(err, (s', r')) := mgr_Get delegate st.1 r fs in
      match err with
      | Ok _ => (Ok (), ((s', cache_SetDefault now st.2 cacheKey (CachedResource r')), r'))
      | err => (err, ((s', st.2), r'))
      end
  | Some (CachedResource o) =>
      match SetSpec r (o_Spec o) with
      | Ok r' => (Ok (), (st, SetMeta r' (o_Meta o)))
      | Err e => (Err e, (st, r))
      | Panic => (Panic, (st, r))
      end
  | Some (CachedItems _) => (Panic, (st, r))
  end.

(** The loop that adds the cached items to the list. *)
Fixpoint add_items (l : ObjectList) (items : list Object) : res unit * ObjectList :=
  match items with
  | [] => (Ok (), l)
  | r :: rest =>
      match AddItem l r with
      | Ok l' => add_items l' rest
      | Err e => (Err e, l)
      | Panic => (Panic, l)
      end
  end.

Definition cached_List (now : Z) (st : St * C) (l : ObjectList) (fs : list ListOptionsFunc)
  : res unit * ((St * C) * ObjectList) :=
  let cacheKey := list_cacheKey (GetItemType l) (NewListOptions fs) in
  match cache_Get now st.2 cacheKey with
  | None =>
      let '(err, (s', l')) := mgr_List delegate st.1 l fs in
      match err with
      | Ok _ => (Ok (), ((s', cache_SetDefault now st.2 cacheKey (CachedItems (GetItems l'))), l'))
      | err => (err, ((s', st.2), l'))
      end
  | Some (CachedItems items) =>
      let (err, l') := add_items l items in (err, (st, l'))
  | Some (CachedResource _) => (Panic, (st, l))
  end.

Definition NewCachedManager (now : Z) : ReadOnlyResourceManager (St * C) :=
  mkReadOnlyManager (cached_Get now) (cached_List now).
End Cached.

(** ** The manager over the memory store *)

Section OverMemory.
Context `{LawfulJsonpb}.
Context (ptypes_Duration : Duration → option Z) (ResourceFromYaml_error : string → option string).

(** A store far from the limits of a 64-bit [int]. *)
Definition small_store (c : memoryStore) : Prop := Z.of_nat (length (records c)) < 2 ^ 62.

Lemma findRecords_length c t mesh : (length (findRecords c t mesh) ≤ length (records c))%nat.
Proof.
  unfold findRecords. induction (records c) as [|r l IH]; simpl; [done|].
  destruct (_ && _); simpl; lia.
Qed.

Lemma elem_of_findRecords c t mesh r :
  r ∈ findRecords c t mesh ↔
  r ∈ records c ∧ rec_ResourceType r = t ∧ (mesh = "" ∨ rec_Mesh r = mesh).
Proof.
  unfold findRecords. rewrite !list_elem_of_In, filter_In, andb_true_iff, orb_true_iff, !String.eqb_eq.
  done.
Qed.

Lemma ensureMeshExists_memory c name :
  rtc memory_step NewStore c → small_store c → name ≠ "" →
  ensureMeshExists c name = Ok () →
  ∃ r, r ∈ records c ∧ rec_ResourceType r = MeshType ∧ rec_Name r = name.
Proof.
  intros Hc Hs Hne. unfold ensureMeshExists. cbn [store_List memory_ResourceStore].
  pose proof (findRecords_length c (type_name KMesh) name). unfold small_store in Hs.
  rewrite memory_List_all by (lia || by apply reachable_ok). simpl.
  rewrite length_fmap. destruct (findRecords c (type_name KMesh) name) as [|r l] eqn:E; [done|].
  intros _. assert (r ∈ findRecords c (type_name KMesh) name) as Hin by (rewrite E; constructor).
  apply elem_of_findRecords in Hin as (Hin & Ht & [?|Hm]); [done|]. exists r.
  split; [done|]. split; [done|]. pose proof (reachable_mesh_keys c Hc) as Hk.
  unfold mesh_keys in Hk. rewrite Forall_forall in Hk. rewrite <- Hm. symmetry. by apply Hk.
Qed.

(** C10: Creating through the manager on the memory store: a failed call
    leaves the store as it was; a successful one means the resource passed its
    validator, its mesh exists (unless the resource is a mesh itself or names
    no mesh), and the resource is stored as version 1 stamped with the time of
    the call. *)
Theorem manager_Create_memory now c r fs :
  rtc memory_step NewStore c → small_store c →
  let '(e, (c', r')) :=
    manager_Create ptypes_Duration ResourceFromYaml_error now c r fs in
  let name := co_Name (NewCreateOptions fs) in
  let mesh := if String.eqb (GetType r) MeshType then name else co_Mesh (NewCreateOptions fs) in
  match e with
  | Ok _ =>
      Validate ptypes_Duration ResourceFromYaml_error r = Ok None
      ∧ (GetType r ≠ MeshType → mesh ≠ "" → ∃ m, m ∈ records c
           ∧ rec_ResourceType m = MeshType ∧ rec_Name m = mesh)
      ∧ abs c !! (GetType r, name, mesh) = None
      ∧ r' = mkObject (Some (MemoryMeta (mkMemoryMeta name mesh 1 now now))) (o_Spec r)
      ∧ ∃ content, jsonpb_Marshal (o_Spec r) = Ok content
          ∧ abs c' = <[(GetType r, name, mesh) :=
                       mkRecord (GetType r) name mesh 1 content now now]> (abs c)
  | _ => c' = c
  end.
Proof.
  intros Hc Hs. unfold manager_Create, validate.
  destruct (Validate _ _ r) as [[verr|]|e|] eqn:Hv; [done| |done|done].
  assert (∀ fs', NewCreateOptions (fs ++ fs') = foldl (λ o f, f o) (NewCreateOptions fs) fs') as Happ.
  { intros fs'. unfold NewCreateOptions. by rewrite foldl_app. }
  assert (let '(e, (c', r')) := store_Create c r (fs ++ [CreatedAt now]) in
    let name := co_Name (NewCreateOptions fs) in
    let mesh := if String.eqb (GetType r) MeshType then name else co_Mesh (NewCreateOptions fs) in
    match e with
    | Ok _ => abs c !! (GetType r, name, mesh) = None
      ∧ r' = mkObject (Some (MemoryMeta (mkMemoryMeta name mesh 1 now now))) (o_Spec r)
      ∧ ∃ content, jsonpb_Marshal (o_Spec r) = Ok content
          ∧ abs c' = <[(GetType r, name, mesh) :=
                       mkRecord (GetType r) name mesh 1 content now now]> (abs c)
    | _ => c' = c
    end) as Hcreate.
  { cbn [store_Create memory_ResourceStore].
    pose proof (Create_refines c r (fs ++ [CreatedAt now]) (reachable_unique c Hc)) as Hr.
    destruct (memory_Create c r _) as [e [c' r']] eqn:E. destruct Hr as [_ Hr].
    assert (match e with Ok _ => True | _ => c' = c end) as Hsame.
    { revert E. unfold memory_Create. destruct (findRecord _ _ _ _); [by intros [= <- <- <-]|].
      destruct (marshalRecord _ _ _); by intros [= <- <- <-]. }
    unfold map_Create in Hr. rewrite Happ in Hr. simpl in Hr.
    destruct (abs c !! _) eqn:El; [by injection Hr as <- _ _|].
    destruct (ToJSON (o_Spec r)) as [content|e'|] eqn:Ej; injection Hr as <- Habs <-; try done.
    split; [done|]. split; [done|]. exists content. split; [by apply ToJSON_Ok|done]. }
  cbv zeta in Hcreate |- *.
  destruct (String.eqb_spec (GetType r) MeshType) as [Ht|Ht]; cbn [negb].
  - destruct (store_Create c r _) as [e [c' r']]. by destruct e.
  - destruct (ensureMeshExists c _) as [[]|e|] eqn:Hm; [|done|done].
    destruct (store_Create c r _) as [e [c' r']]. destruct e; try done.
    split; [done|]. split; [|exact Hcreate]. intros _ Hne. by apply ensureMeshExists_memory.
Qed.

(** *** Bulk deletion *)

(** Deleting a listed item removes its record, or finds it already gone. *)
Lemma delete_item c k r :
  unique_keys c → rec_ResourceType r = type_name k →
  unmarshalRecord r (new_object k) = (Ok (), decode k r) → o_Kind (decode k r) = k →
  let '(e, c') := memory_Delete c (decode k r)
    [DeleteBy (MetaToResourceKey (observe <$> o_Meta (decode k r)))] in
  unique_keys c' ∧ (e = Ok () ∨ ∃ e', e = Err e' ∧ IsResourceNotFound e' = true)
  ∧ abs c' = delete (rkey r) (abs c).
Proof.
  intros Hu Ht Hd Hk.
  assert (o_Meta (decode k r) = Some (MemoryMeta (record_meta r))) as Hm.
  { unfold decode, unmarshalRecord, FromJSON. by destruct (jsonpb_Unmarshal _ _). }
  pose proof (Delete_refines c (decode k r)
    [DeleteBy (MetaToResourceKey (observe <$> o_Meta (decode k r)))] Hu) as Hr.
  destruct (memory_Delete _ _ _) as [e c']. destruct Hr as [Hu' Hr]. split; [done|].
  unfold map_Delete in Hr. rewrite Hm in Hr. unfold GetType in Hr. rewrite Hk in Hr. simpl in Hr.
  assert ((type_name k, rec_Name r, rec_Mesh r) = rkey r) as Hkey by (unfold rkey; by rewrite Ht).
  rewrite Hkey in Hr. destruct (abs c !! rkey r) eqn:El; injection Hr as <- <-.
  - by split; [left|].
  - split; [right; by eexists|]. symmetry. by apply delete_id.
Qed.

Lemma DeleteAll_loop_memory c k recs :
  unique_keys c → readable k recs → Forall (λ r, rec_ResourceType r = type_name k) recs →
  ∃ c', DeleteAll_loop memory_Delete c (decode k <$> recs) = (Ok (), c') ∧ unique_keys c'
    ∧ ∀ key, abs c' !! key = if decide (key ∈ rkey <$> recs) then None else abs c !! key.
Proof.
  intros Hu Hread Ht. revert c Hu; induction recs as [|r recs IH]; intros c Hu; simpl.
  { exists c. done. }
  apply Forall_cons in Hread as [[Hd Hk] Hread]. apply Forall_cons in Ht as [Hr Ht].
  pose proof (delete_item c k r Hu Hr Hd Hk) as Hdel.
  destruct (memory_Delete _ _ _) as [e c1]. destruct Hdel as (Hu1 & He & Habs).
  destruct (IH Hread Ht c1 Hu1) as (c' & Hc' & Hu' & Hl).
  exists c'. split; [|split; [done|]].
  - destruct He as [->|(e' & -> & Hnf)]; [done|]. by rewrite Hnf.
  - intros key. rewrite Hl, Habs. rewrite lookup_delete. repeat case_decide; try done; set_solver.
Qed.

Lemma memory_Delete_length c r fs : (length (records (memory_Delete c r fs).2) ≤ length (records c))%nat.
Proof.
  unfold memory_Delete.
  destruct (o_Meta r) as [[meta| | |]|]; [|done|done|done|]; destruct (findRecord _ _ _ _) as [[idx rec]|]; try done; simpl;
    rewrite length_app, length_take, length_drop; lia.
Qed.

Lemma DeleteAllResources_memory c k mesh :
  rtc memory_step NewStore c → small_store c →
  ∃ c' l, DeleteAllResources manager_List manager_Delete c (new_list k) [DeleteAllByMesh mesh] = (Ok (), (c', l))
    ∧ (∀ key r, abs c' !! key = Some r ↔ abs c !! key = Some r
         ∧ ¬ (rec_ResourceType r = type_name k ∧ (mesh = "" ∨ rec_Mesh r = mesh)))
    ∧ findRecords c' (type_name k) mesh = []
    ∧ rtc memory_step NewStore c' ∧ small_store c'.
Proof.
  intros Hc Hs. pose proof (reachable_ok c Hc) as [Hu Hrec].
  assert (∀ items, rtc memory_step NewStore (DeleteAll_loop memory_Delete c items).2
    ∧ small_store (DeleteAll_loop memory_Delete c items).2) as Hinv.
  { intros items. apply (DeleteAll_loop_inv (λ c, rtc memory_step NewStore c ∧ small_store c)); [|done].
    intros s r fs [Hr Hsm]. split; [eapply rtc_r; [exact Hr|apply step_Delete]|].
    pose proof (memory_Delete_length s r fs). unfold small_store in *. lia. }
  unfold DeleteAllResources, manager_List. cbn [store_List memory_ResourceStore].
  pose proof (findRecords_length c (type_name k) mesh) as Hlen. unfold small_store in Hs.
  simpl dao_Mesh. rewrite memory_List_all by (lia || done). cbn [GetItems]. cbv beta iota zeta.
  set (recs := findRecords c (type_name k) mesh).
  destruct (DeleteAll_loop_memory c k recs) as (c' & Hc' & Hu' & Hl); [done| | |].
  { by apply findRecords_readable. }
  { apply Forall_forall. intros r Hr. by apply elem_of_findRecords in Hr as (_ & ? & _). }
  change (DeleteAll_loop manager_Delete c (decode k <$> recs))
    with (DeleteAll_loop memory_Delete c (decode k <$> recs)). rewrite Hc'.
  do 2 eexists. split; [done|].
  assert (∀ key r, abs c' !! key = Some r ↔ abs c !! key = Some r
         ∧ ¬ (rec_ResourceType r = type_name k ∧ (mesh = "" ∨ rec_Mesh r = mesh))) as Hspec.
  { intros key r. rewrite Hl. split.
    - case_decide as Hin; [done|]. intros Hr. split; [done|]. intros Hx. apply Hin.
      apply list_elem_of_fmap. apply (abs_lookup _ _ _ Hu) in Hr as [Hr <-]. exists r.
      split; [done|]. apply elem_of_findRecords. tauto.
    - intros [Hr Hx]. rewrite decide_False; [done|]. intros (r' & Hkey & Hin)%list_elem_of_fmap.
      apply elem_of_findRecords in Hin as (Hin & Hx').
      assert (abs c !! key = Some r') as Hr' by (by apply abs_lookup; [|split; [|done]]).
      simplify_eq. tauto. }
  split; [exact Hspec|]. pose proof (Hinv (decode k <$> recs)) as Hinv'. rewrite Hc' in Hinv'. split; [|exact Hinv'].
  destruct (findRecords c' (type_name k) mesh) as [|r l] eqn:E; [done|].
  assert (r ∈ findRecords c' (type_name k) mesh) as Hin by (rewrite E; constructor).
  apply elem_of_findRecords in Hin as (Hin & Hx).
  assert (abs c' !! rkey r = Some r) as Hr by (by apply abs_lookup).
  apply Hspec in Hr as [_ Hn]. tauto.
Qed.
(** Bulk deletion over the memory store succeeds and removes exactly the
    resources of the type that are in the mesh (in any mesh when none is
    named): every other resource is untouched, and listing afterwards returns
    nothing. *)
Theorem manager_DeleteAll_memory c k mesh :
  rtc memory_step NewStore c → small_store c →
  ∃ c' l, mgr_DeleteAll (NewResourceManager ptypes_Duration ResourceFromYaml_error) c (new_list k)
            [DeleteAllByMesh mesh] = (Ok (), (c', l))
    ∧ (∀ key r, abs c' !! key = Some r ↔ abs c !! key = Some r
         ∧ ¬ (rec_ResourceType r = type_name k ∧ (mesh = "" ∨ rec_Mesh r = mesh)))
    ∧ findRecords c' (type_name k) mesh = [].
Proof.
  intros Hc Hs. destruct (DeleteAllResources_memory c k mesh Hc Hs) as (c' & l & H1 & H2 & H3 & _). eauto.
Qed.
End OverMemory.

(** Functions that stand for the libraries in the examples: no message of the
    examples reaches them. *)
Definition sample_Duration (d : Duration) : option Z := Some (seconds d * 10 ^ 9 + nanos d).
Definition sample_Yaml (s : string) : option string := None.

(** The sample store with the mesh [default]. *)
Definition sample_store2 : memoryStore :=
  (@memory_Create sample_jsonpb sample_store (new_object KMesh) [CreateByKey "default" "default"]).2.1.

Lemma sample_store2_reachable : rtc (@memory_step sample_jsonpb) NewStore sample_store2.
Proof.
  eapply rtc_l; [apply (@step_Create sample_jsonpb)|].
  apply rtc_once. apply (@step_Create sample_jsonpb).
Qed.

Lemma manager_Create_memory_witness :
  (@manager_Create _ (@memory_ResourceStore sample_jsonpb) sample_Duration sample_Yaml 7 sample_store2
     (sample_secret "y") [CreateByKey "t" "default"]).1 = Ok ()
  ∧ ∃ m, m ∈ records sample_store2 ∧ rec_ResourceType m = MeshType ∧ rec_Name m = "default".
Proof.
  split; [reflexivity|].
  refine (proj1 (proj2 (@manager_Create_memory sample_jsonpb sample_jsonpb_lawful sample_Duration
    sample_Yaml 7 sample_store2 (sample_secret "y") [CreateByKey "t" "default"] _ _)) _ _).
  - apply sample_store2_reachable.
  - reflexivity.
  - discriminate.
  - discriminate.
Defined.

Lemma manager_DeleteAll_memory_witness :
  ∃ c' l, mgr_DeleteAll (@NewResourceManager _ (@memory_ResourceStore sample_jsonpb) sample_Duration
            sample_Yaml) sample_store2 (new_list KSecret) [DeleteAllByMesh "default"] = (Ok (), (c', l)).
Proof.
  destruct (@manager_DeleteAll_memory sample_jsonpb sample_jsonpb_lawful sample_Duration sample_Yaml
    sample_store2 KSecret "default") as (c' & l & Hc & _).
  - apply sample_store2_reachable.
  - reflexivity.
  - exists c', l. exact Hc.
Defined.

(** ** The caching manager *)

Lemma app_colon_inj (a b x y : string) :
  has_byte ":" a = false → has_byte ":" b = false →
  a +:+ ":" +:+ x = b +:+ ":" +:+ y → a = b ∧ x = y.
Proof.
  revert b; induction a as [|c a IH]; intros [|d b] Ha Hb E; simpl in *.
  - by injection E.
  - injection E as <- _. done.
  - injection E as -> _. done.
  - injection E as <- E. apply orb_false_iff in Ha as [_ Ha], Hb as [_ Hb].
    destruct (IH b Ha Hb E) as [-> ->]. done.
Qed.

Lemma type_name_plain k : has_byte ":" (type_name k) = false.
Proof. by destruct k. Qed.

Section CachedTheorems.
Context {St C : Type} `{LawfulGoCache C} (delegate : ReadOnlyResourceManager St).

(** The delegate fills resources and lists with values of their own type. *)
Definition typed_delegate : Prop :=
  (∀ s r fs, o_Kind (mgr_Get delegate s r fs).2.2 = o_Kind r)
  ∧ (∀ s l fs, list_wf l → list_wf (mgr_List delegate s l fs).2.2
       ∧ ol_Kind (mgr_List delegate s l fs).2.2 = ol_Kind l).

(** Entries have the type their key names. *)
Definition entry_ok (key : string) (v : cached) : Prop :=
  match v with
  | CachedResource o => ∃ x, key = "GET:" +:+ GetType o +:+ ":" +:+ x
  | CachedItems l =>
      ∃ k x, key = "LIST:" +:+ type_name k +:+ ":" +:+ x ∧ Forall (λ o, o_Kind o = k) l
  end.
Definition cache_ok (c : C) : Prop := ∀ t key v, cache_Get t c key = Some v → entry_ok key v.

Lemma cache_ok_set t c key v : cache_ok c → entry_ok key v → cache_ok (cache_SetDefault t c key v).
Proof.
  intros Hc Hv t' key' w Hw. apply cache_get_set in Hw as [[-> ->]|[_ Hw]]; [done|]. by eapply Hc.
Qed.

Lemma add_items_all l items :
  Forall (λ o, o_Kind o = ol_Kind l) items →
  add_items l items = (Ok (), mkObjectList (ol_Kind l) (GetItems l ++ items) (NextOffset l)).
Proof.
  intros Hi. revert l Hi; induction items as [|o items IH]; intros l Hi; simpl.
  { rewrite app_nil_r. by destruct l. }
  apply Forall_cons in Hi as [Ho Hi]. unfold AddItem. rewrite bool_decide_eq_true_2 by done.
  rewrite IH by done. simpl. by rewrite <- app_assoc.
Qed.

(** C36: The caching manager is type safe: as long as every entry has the type
    its key names (an empty cache does), its type assertions never panic and
    the resources and lists it serves have the requested type; each call either
    answers from the cache successfully and changes nothing, or returns what
    the delegate returned; and the entries keep the types their keys name. *)
Theorem cached_manager_safe now st r l gs ls :
  typed_delegate → cache_ok st.2 → list_wf l →
  (let '(e, (st', r')) := cached_Get delegate now st r gs in
   cache_ok st'.2 ∧ o_Kind r' = o_Kind r
   ∧ ((e = Ok () ∧ st' = st) ∨ (e = (mgr_Get delegate st.1 r gs).1
        ∧ r' = (mgr_Get delegate st.1 r gs).2.2 ∧ st'.1 = (mgr_Get delegate st.1 r gs).2.1)))
  ∧ (let '(e, (st', l')) := cached_List delegate now st l ls in
   cache_ok st'.2 ∧ list_wf l' ∧ ol_Kind l' = ol_Kind l
   ∧ ((e = Ok () ∧ st' = st) ∨ (e = (mgr_List delegate st.1 l ls).1
        ∧ l' = (mgr_List delegate st.1 l ls).2.2 ∧ st'.1 = (mgr_List delegate st.1 l ls).2.1))).
Proof.
  intros [Hget Hlist] Hc Hl. split.
  - unfold cached_Get. set (key := get_cacheKey _ _).
    destruct (cache_Get now st.2 key) as [v|] eqn:E.
    + pose proof (Hc _ _ _ E) as Hv. destruct v as [o|items].
      * destruct Hv as [x Hx]. unfold key, get_cacheKey in Hx. injection Hx as Hx.
        apply app_colon_inj in Hx as [Hx _]; [|apply type_name_plain..]. apply type_name_inj in Hx.
        rewrite SetSpec_spec, bool_decide_eq_true_2 by done. simpl.
        split; [done|]. split; [done|]. by left.
      * by destruct Hv as (k & x & Hx & _).
    + specialize (Hget st.1 r gs). destruct (mgr_Get delegate st.1 r gs) as [e [s' r']].
      simpl in Hget. destruct e as [[]|e|]; simpl; (split; [|split; [done|by right]]); try done.
      apply cache_ok_set; [done|]. exists (GetOptions_HashCode (NewGetOptions gs)).
      unfold key, get_cacheKey, GetType. by rewrite Hget.
  - unfold cached_List. set (key := list_cacheKey _ _).
    destruct (cache_Get now st.2 key) as [v|] eqn:E.
    + pose proof (Hc _ _ _ E) as Hv. destruct v as [o|items].
      * by destruct Hv as [x Hx].
      * destruct Hv as (k & x & Hx & Hi). unfold key, list_cacheKey in Hx. injection Hx as Hx.
        apply app_colon_inj in Hx as [Hx _]; [|apply type_name_plain..]. apply type_name_inj in Hx.
        subst k. rewrite add_items_all by done. simpl. split; [done|].
        split; [|split; [done|by left]]. unfold list_wf. simpl. by apply Forall_app.
    + specialize (Hlist st.1 l ls Hl). destruct (mgr_List delegate st.1 l ls) as [e [s' l']].
      simpl in Hlist. destruct Hlist as [Hwf Hk].
      destruct e as [[]|e|]; simpl; (split; [|split; [done|split; [done|by right]]]); try done.
      apply cache_ok_set; [done|].
      exists (ol_Kind l), (ListOptions_HashCode (NewListOptions ls)). split; [done|].
      unfold list_wf in Hwf. by rewrite Hk in Hwf.
Qed.

(** The cache key of a listing is its type and mesh only: while an entry
    lives, asking for another page returns the items of the page that filled
    it, and reports no next page. *)
Theorem cached_List_ignores_page now now' st k fs1 fs2 st1 l1 :
  cache_Get now st.2 (list_cacheKey (type_name k) (NewListOptions fs1)) = None →
  cached_List delegate now st (new_list k) fs1 = (Ok (), (st1, l1)) →
  Forall (λ o, o_Kind o = k) (GetItems l1) →
  lo_Mesh (NewListOptions fs2) = lo_Mesh (NewListOptions fs1) →
  cache_Get now' st1.2 (list_cacheKey (type_name k) (NewListOptions fs1)) ≠ None →
  cached_List delegate now' st1 (new_list k) fs2
  = (Ok (), (st1, mkObjectList k (GetItems l1) "")).
Proof.
  intros Hmiss Hfill Hk Hmesh Hhit. unfold cached_List in *.
  change (GetItemType (new_list k)) with (type_name k) in *. rewrite Hmiss in Hfill.
  destruct (mgr_List delegate st.1 (new_list k) fs1) as [e [s' l']].
  destruct e; simplify_eq/=.
  unfold list_cacheKey, ListOptions_HashCode in *. rewrite Hmesh.
  destruct (cache_Get now' _ _) as [v|] eqn:E; [|done].
  apply cache_get_set in E as [[_ ->]|[? _]]; [|done].
  by rewrite add_items_all.
Qed.
End CachedTheorems.

(** A cache that never expires. *)
Definition sample_cache : GoCache (gmap string cached) :=
  {| cache_Get := λ _ c k, c !! k; cache_SetDefault := λ _ c k v, <[k := v]> c |}.
Lemma sample_cache_lawful : @LawfulGoCache _ sample_cache.
Proof.
  constructor. simpl. intros t t' c k v k' w. rewrite lookup_insert.
  case_decide as Hk; [intros [= <-]; left; done|]. right. done.
Qed.

Lemma List_loop_wf `{Jsonpb} fuel recs i limit rs e rs' :
  list_wf rs → List_loop fuel recs i limit rs = Some (e, rs') →
  list_wf rs' ∧ ol_Kind rs' = ol_Kind rs.
Proof.
  revert i rs; induction fuel as [|fuel IH]; intros i rs Hrs; simpl;
    (destruct (_ && _); [|by intros [= _ <-]]); [done|].
  destruct (i <? 0); [by intros [= _ <-]|]. destruct (recs !! _) as [r|]; [|by intros [= _ <-]].
  destruct (unmarshalRecord r (NewItem rs)) as [[[]|e'|] o]; [|by intros [= _ <-]..].
  destruct (AddItem rs o) as [rs1|e'|] eqn:E; [|by apply IH..].
  apply AddItem_wf in E as (Hwf & _ & Hk & _); [|done]. rewrite <- Hk. by apply IH.
Qed.

(** The manager over the memory store is such a delegate. *)
Lemma memory_manager_typed `{LawfulJsonpb} f g :
  typed_delegate (read_only (NewResourceManager (St := memoryStore) f g)).
Proof.
  split.
  - intros s r fs. simpl. unfold manager_Get. cbn [store_Get memory_ResourceStore]. unfold memory_Get.
    destruct (findRecord _ _ _ _) as [[i rec]|]; [|done]. destruct (_ && _); [done|].
    unfold unmarshalRecord, FromJSON, o_Kind. simpl.
    pose proof (unmarshal_kind (rec_Spec rec) (o_Spec r)) as Hk.
    by destruct (jsonpb_Unmarshal _ _).
  - intros s l fs Hl. simpl. unfold manager_List. cbn [store_List memory_ResourceStore].
    unfold memory_List. destruct (if negb _ then _ else _) as [[o size]|e|]; [|done|done].
    destruct (List_loop _ _ _ _ _) as [[e l']|] eqn:E; [|done].
    apply List_loop_wf in E as [Hwf Hk]; [|done].
    destruct e; [destruct (negb _)|..]; simpl; done.
Qed.

Definition sample_manager : ReadOnlyResourceManager memoryStore :=
  read_only (@NewResourceManager _ (@memory_ResourceStore sample_jsonpb) sample_Duration sample_Yaml).

Lemma cached_manager_safe_witness :
  (let '(e, (st', r')) := @cached_Get _ _ sample_cache sample_manager 0 (sample_store, ∅)
     (new_object KSecret) [GetByKey "s" "default"] in
   @cache_ok _ sample_cache st'.2 ∧ o_Kind r' = KSecret).
Proof.
  pose proof (@cached_manager_safe _ _ sample_cache sample_cache_lawful sample_manager 0
    (sample_store, ∅) (new_object KSecret) (new_list KSecret) [GetByKey "s" "default"] []) as Hw.
  destruct Hw as [Hw _].
  - apply (@memory_manager_typed sample_jsonpb sample_jsonpb_lawful).
  - intros t key v Hv. discriminate Hv.
  - constructor.
  - destruct (cached_Get _ _ _ _ _) as [e [st' r']]. destruct Hw as (H1 & H2 & _).
    split; [exact H1|exact H2].
Defined.

(** Two secrets, listed one per page. *)
Definition sample_store3 : memoryStore :=
  (@memory_Create sample_jsonpb sample_store (sample_secret "y") [CreateByKey "t" "default"]).2.1.

Lemma cached_List_ignores_page_witness :
  let page1 := [ListByMesh "default"; ListByPage 1 ""] in
  let page2 := [ListByMesh "default"; ListByPage 1 "1"] in
  let first := @cached_List _ _ sample_cache sample_manager 0 (sample_store3, ∅) (new_list KSecret) page1 in
  NextOffset first.2.2 = "1"
  ∧ @cached_List _ _ sample_cache sample_manager 1 first.2.1 (new_list KSecret) page2
    = (Ok (), (first.2.1, mkObjectList KSecret (GetItems first.2.2) "")).
Proof.
  intros page1 page2 first. split; [reflexivity|].
  refine (@cached_List_ignores_page _ _ sample_cache sample_cache_lawful sample_manager 0 1
    (sample_store3, ∅) KSecret page1 page2 first.2.1 first.2.2 _ _ _ _ _).
  - reflexivity.
  - reflexivity.
  - repeat constructor.
  - reflexivity.
  - vm_compute. discriminate.
Defined.
