(* ===== verification/CoreXds.v ===== *)
(** * Core xDS types

    Models [pkg/core/xds]: proxy identifiers, selector sets, endpoint lists,
    node metadata and the ordered, deduplicated set of xDS resources. *)

From S2P Require Import Prelude GoStd Tags Dataplane MeshResources.
Local Open Scope Z_scope.

(** ** types.go *)

Record ProxyId : Type := mkProxyId { pid_Mesh : string; pid_Name : string }.
#[global] Instance ProxyId_eq_dec : EqDecision ProxyId.
Proof. solve_decision. Defined.

Definition ProxyId_String (id : ProxyId) : string := pid_Mesh id +:+ "." +:+ pid_Name id.

Definition ParseProxyIdFromString (id : string) : res ProxyId :=
  match split2 "." id with
  | [] => Panic
  | mesh :: rest =>
      if String.eqb mesh "" then Err (Errorf "mesh must not be empty" [])
      else match rest with
           | [] => Err (Errorf "the name should be provided after the dot" [])
           | name :: _ =>
               if String.eqb name "" then Err (Errorf "name must not be empty" [])
               else Ok (mkProxyId mesh name)
           end
  end.

(** The node of a discovery request: its id and the string fields of its
    metadata. *)
Record Node : Type := mkNode { node_Id : string; node_Metadata : option (gmap string string) }.

Definition ParseProxyId (node : option Node) : res ProxyId :=
  match node with
  | None => Err (Errorf "Envoy node must not be nil" [])
  | Some n => ParseProxyIdFromString (node_Id n)
  end.

Definition BuildProxyId (mesh name : string) (more : list string) : res ProxyId :=
  ParseProxyIdFromString (join "." ([mesh; name] ++ more)).

Definition ProxyId_ToResourceKey (id : ProxyId) : ResourceKey := mkKey (pid_Mesh id) (pid_Name id).
Definition FromResourceKey (key : ResourceKey) : ProxyId := mkProxyId (key_Mesh key) (key_Name key).

(** [hasher.ID] of [context.go]. *)
Definition hasher_ID (node : option Node) : string :=
  match node with
  | None => "unknown"
  | Some _ =>
      match ParseProxyId node with
      | Ok proxyId => ProxyId_String proxyId
      | _ => "unknown"
      end
  end.

Abbreviation TagSelectorSet := (list tag_map).

(** [Add] keeps the set as it is when it contains an equal selector. *)
Definition TagSelectorSet_Add (s : TagSelectorSet) (new : tag_map) : TagSelectorSet :=
  if existsb (λ old, TagSelector_Equal new old) s then s else s ++ [new].

Abbreviation RouteMap := (gmap string TrafficRouteResource).
Abbreviation DestinationMap := (gmap string TagSelectorSet).

Record Endpoint : Type := mkEndpoint {
  ep_Target : string;
  ep_Port : Z;
  ep_Tags : tag_map;
}.

Definition EndpointList_Filter (l : list Endpoint) (selector : tag_map) : list Endpoint :=
  List.filter (λ endpoint, TagSelector_Matches selector (ep_Tags endpoint)) l.

Abbreviation EndpointMap := (gmap string (list Endpoint)).
Abbreviation LogMap := (gmap string (option LoggingBackend)).
Abbreviation HealthCheckMap := (gmap string HealthCheckResource).
Abbreviation FaultInjectionMap := (gmap InboundInterface FaultInjection).
Abbreviation TrafficPermissionMap := (gmap InboundInterface TrafficPermissionResource).

(** ** metadata.go *)

Definition fieldDataplaneTokenPath : string := "dataplaneTokenPath".
Definition fieldDataplaneAdminPort : string := "dataplane.admin.port".

Record DataplaneMetadata : Type := mkDataplaneMetadata {
  md_DataplaneTokenPath : string;
  md_AdminPort : Z; (* uint32 *)
}.
#[global] Instance DataplaneMetadata_eq_dec : EqDecision DataplaneMetadata.
Proof. solve_decision. Defined.

Definition GetDataplaneTokenPath (m : option DataplaneMetadata) : string :=
  match m with Some m => md_DataplaneTokenPath m | None => "" end.
Definition GetAdminPort (m : option DataplaneMetadata) : Z :=
  match m with Some m => md_AdminPort m | None => 0 end.

(** The conversion [uint32(port)] of an [int]. *)
Definition wrap32 (z : Z) : Z := z mod 2 ^ 32.

Definition DataplaneMetadataFromNode (node : Node) : DataplaneMetadata :=
  match node_Metadata node with
  | None => mkDataplaneMetadata "" 0
  | Some fields =>
      mkDataplaneMetadata
        (default "" (fields !! fieldDataplaneTokenPath))
        (match fields !! fieldDataplaneAdminPort with
         | Some value => match atoi value with Ok port => wrap32 port | _ => 0 end
         | None => 0
         end)
  end.

(** Everything the generators know of a dataplane ([Proxy] of types.go). *)
Record Proxy : Type := mkProxy {
  px_Id : ProxyId;
  px_Dataplane : DataplaneResource;
  px_TrafficPermissions : TrafficPermissionMap;
  px_Logs : LogMap;
  px_TrafficRoutes : RouteMap;
  px_OutboundSelectors : DestinationMap;
  px_OutboundTargets : EndpointMap;
  px_HealthChecks : HealthCheckMap;
  px_TrafficTrace : option TrafficTraceResource;
  px_TracingBackend : option TracingBackend;
  px_Metadata : option DataplaneMetadata;
  px_FaultInjections : FaultInjectionMap;
}.

(** ** resource.go *)

Section ResourceSet.
(** The Protobuf messages and [proto.MessageName]. *)
Context {Payload : Type} (MessageName : Payload → string).

Record XdsResource : Type := mkXdsResource {
  xr_Name : string;
  xr_Version : string;
  xr_Resource : Payload;
}.

Definition ToIndex (rs : list XdsResource) : gmap string Payload :=
  foldl (λ index r, <[xr_Name r := xr_Resource r]> index) ∅ rs.

Record ResourceSet : Type := mkResourceSet {
  rset_resources : list XdsResource;
  typeToNamesIndex : gmap string (gmap string bool);
}.

Definition ResourceSet_Contains (s : ResourceSet) (name : string) (resource : Payload) : bool :=
  match typeToNamesIndex s !! MessageName resource with
  | None => false
  | Some names => match names !! name with Some _ => true | None => false end
  end.

Definition ResourceSet_index (idx : gmap string (gmap string bool)) (r : XdsResource)
  : gmap string (gmap string bool) :=
  let typeName := MessageName (xr_Resource r) in
  <[typeName := <[xr_Name r := true]> (default ∅ (idx !! typeName))]> idx.

(** The body of the loop of [Add]. *)
Definition ResourceSet_Add1 (s : ResourceSet) (r : XdsResource) : ResourceSet :=
  if ResourceSet_Contains s (xr_Name r) (xr_Resource r) then s
  else mkResourceSet (rset_resources s ++ [r]) (ResourceSet_index (typeToNamesIndex s) r).

Definition ResourceSet_Add (s : ResourceSet) (resources : list XdsResource) : ResourceSet :=
  foldl ResourceSet_Add1 s resources.

Definition ResourceSet_List (s : ResourceSet) : list XdsResource := rset_resources s.

Definition emptyResourceSet : ResourceSet := mkResourceSet [] ∅.

(** *** The index agrees with the list *)

Definition xkey (r : XdsResource) : string * string := (MessageName (xr_Resource r), xr_Name r).

Definition indexed (idx : gmap string (gmap string bool)) (k : string * string) : Prop :=
  ∃ names, idx !! k.1 = Some names ∧ is_Some (names !! k.2).

Definition set_ok (s : ResourceSet) : Prop :=
  NoDup (xkey <$> rset_resources s)
  ∧ ∀ k, indexed (typeToNamesIndex s) k ↔ k ∈ xkey <$> rset_resources s.

Lemma Contains_indexed s name payload :
  ResourceSet_Contains s name payload = true ↔ indexed (typeToNamesIndex s) (MessageName payload, name).
Proof.
  unfold ResourceSet_Contains, indexed; simpl.
  destruct (typeToNamesIndex s !! MessageName payload) as [names|].
  - split.
    + intros H. exists names. split; [done|]. by destruct (names !! name).
    + intros (names' & [= <-] & [b ->]). done.
  - split; [done|]. intros (names' & [=] & _).
Qed.

Lemma index_indexed idx r k : indexed (ResourceSet_index idx r) k ↔ k = xkey r ∨ indexed idx k.
Proof.
  destruct k as [t n]. unfold indexed, ResourceSet_index, xkey; simpl.
  rewrite lookup_insert. case_decide as Ht; subst.
  - split.
    + intros (names & [= <-] & Hn). rewrite lookup_insert in Hn. case_decide as Hx; subst; [by left|].
      right. destruct (idx !! _) as [names|]; simpl in Hn; [eauto|].
      rewrite lookup_empty in Hn. by destruct Hn.
    + intros [Hk|(names & Hnames & Hn)].
      * injection Hk as <-. eexists. split; [done|]. rewrite lookup_insert_eq. eauto.
      * rewrite Hnames. eexists. split; [done|]. simpl. rewrite lookup_insert. case_decide; eauto.
  - split; [by right|]. intros [[= -> ->]|?]; done.
Qed.

Lemma Add1_ok s r : set_ok s → set_ok (ResourceSet_Add1 s r).
Proof.
  intros [Hnd Hi]. unfold ResourceSet_Add1. destruct (ResourceSet_Contains _ _ _) eqn:E; [done|].
  assert (xkey r ∉ xkey <$> rset_resources s) as Hr.
  { rewrite <- Hi. intros Hx. apply (Contains_indexed s (xr_Name r) (xr_Resource r)) in Hx. congruence. }
  split; simpl.
  - rewrite fmap_app. apply NoDup_app. split; [done|]. split; [|apply NoDup_singleton].
    intros k Hk Hk'. apply list_elem_of_singleton in Hk' as ->. done.
  - intros k. rewrite index_indexed, Hi, fmap_app, elem_of_app. simpl.
    rewrite list_elem_of_singleton. naive_solver.
Qed.

(** An xDS resource set never holds two resources of the same type and
    name: the first one added wins, resources keep the order in which they were
    added, [Contains] is exact, and every resource passed to [Add] is covered by
    the set afterwards. *)
Theorem ResourceSet_Add_correct rs :
  let s := ResourceSet_Add emptyResourceSet rs in
  NoDup (xkey <$> ResourceSet_List s)
  ∧ sublist (ResourceSet_List s) rs
  ∧ (∀ r, r ∈ rs → ResourceSet_Contains s (xr_Name r) (xr_Resource r) = true)
  ∧ (∀ r l1 l2, rs = l1 ++ r :: l2 → xkey r ∉ xkey <$> l1 → r ∈ ResourceSet_List s).
Proof.
  assert (∀ l, let s := ResourceSet_Add emptyResourceSet l in
    set_ok s ∧ sublist (rset_resources s) l ∧ (∀ r, r ∈ l → xkey r ∈ xkey <$> rset_resources s)
    ∧ (∀ k, k ∈ xkey <$> rset_resources s → k ∈ xkey <$> l)) as H.
  { intros l. induction l as [|x l IH] using rev_ind; simpl.
    - split; [split; [constructor|]; intros k; split; [intros (? & ? & ?); done|set_solver]|].
      split; [constructor|]. split; [intros ? Hx; by apply not_elem_of_nil in Hx|done].
    - unfold ResourceSet_Add. rewrite foldl_app. simpl. fold (ResourceSet_Add emptyResourceSet l).
      destruct IH as (Hok & Hsub & Hall & Honly). split; [by apply Add1_ok|].
      unfold ResourceSet_Add1. destruct (ResourceSet_Contains _ _ _) eqn:E; simpl.
      + split; [by apply sublist_inserts_r|]. split; [|rewrite fmap_app; set_solver].
        intros r [Hr|Hr]%elem_of_app; [by apply Hall|]. apply list_elem_of_singleton in Hr as ->.
        apply Contains_indexed, Hok in E. exact E.
      + split; [by apply sublist_app|]. rewrite !fmap_app. set_solver. }
  intros s. destruct (H rs) as (Hok & Hsub & Hall & _). split; [apply Hok|]. split; [done|].
  split.
  - intros r Hr. apply Contains_indexed, Hok. by apply (Hall r).
  - intros r l1 l2 -> Hr. subst s. unfold ResourceSet_List, ResourceSet_Add. rewrite foldl_app.
    fold (ResourceSet_Add emptyResourceSet l1). simpl.
    assert (∀ l s0, r ∈ rset_resources s0 → r ∈ rset_resources (foldl ResourceSet_Add1 s0 l)) as Hkeep.
    { intros l. induction l as [|x l IH]; intros s0 Hs; simpl; [done|]. apply IH.
      unfold ResourceSet_Add1. destruct (ResourceSet_Contains _ _ _); simpl; set_solver. }
    apply Hkeep. unfold ResourceSet_Add1. destruct (ResourceSet_Contains _ _ _) eqn:E; simpl; [|set_solver].
    destruct (H l1) as (Hok1 & _ & _ & Honly). apply Contains_indexed, Hok1 in E. by apply Honly in E.
Qed.
End ResourceSet.

(** ** Proxy identifiers *)

Lemma split2_dot id :
  match split2 "." id with
  | [mesh; name] => id = mesh +:+ "." +:+ name ∧ has_byte "." mesh = false
  | [s] => s = id ∧ has_byte "." id = false
  | _ => False
  end.
Proof.
  unfold split2. destruct (byte_index "." id) as [i|] eqn:E.
  2: { split; [done|]. by apply byte_index_None. }
  revert i E; induction id as [|c id IH]; intros i E; simpl in *; [done|].
  destruct (Ascii.eqb_spec c "."%char) as [->|Hc]; [by injection E as <-; simpl; rewrite sdrop_0|].
  destruct (byte_index "." id) as [j|] eqn:Ej; [|done]. simpl in E. injection E as <-.
  destruct (IH j eq_refl) as [Hid Hm]. simpl. split; [by rewrite Hid at 1|].
  by rewrite (proj2 (Ascii.eqb_neq _ _) Hc).
Qed.

(** The text of a proxy id and its parser are inverse to each other: a
    parsed id prints as the text it was read from, its mesh is non-empty and
    without dots and its name is non-empty, and every such id is parsed back
    from its text; parsing never panics. *)
Theorem ProxyId_roundtrip :
  (∀ s id, ParseProxyIdFromString s = Ok id →
     ProxyId_String id = s ∧ pid_Mesh id ≠ "" ∧ has_byte "." (pid_Mesh id) = false ∧ pid_Name id ≠ "")
  ∧ (∀ id, pid_Mesh id ≠ "" → has_byte "." (pid_Mesh id) = false → pid_Name id ≠ "" →
     ParseProxyIdFromString (ProxyId_String id) = Ok id)
  ∧ (∀ s, ParseProxyIdFromString s ≠ Panic).
Proof.
  split; [|split].
  - intros s id. unfold ParseProxyIdFromString. pose proof (split2_dot s) as H.
    destruct (split2 "." s) as [|mesh [|name [|]]]; try done.
    + by destruct (String.eqb mesh "").
    + destruct (String.eqb_spec mesh ""), (String.eqb_spec name ""); try done.
      intros [= <-]. destruct H as [-> Hm]. done.
  - intros [mesh name]; simpl. intros Hm Hd Hn. unfold ParseProxyIdFromString, ProxyId_String; simpl.
    unfold split2. rewrite (byte_index_app mesh "." name Hd), stake_app, sdrop_app_S.
    by rewrite (proj2 (String.eqb_neq _ _) Hm), (proj2 (String.eqb_neq _ _) Hn).
  - intros s. unfold ParseProxyIdFromString. pose proof (split2_dot s) as H.
    destruct (split2 "." s) as [|mesh [|name [|]]]; try done; repeat case_match; done.
Qed.
