(* ===== verification/SnapshotCache.v ===== *)
(** * Snapshots: versioning, caching and reconciliation

    Models [pkg/util/xds/versioner.go], [pkg/util/xds/cache.go] (the snapshot
    cache that answers xDS watches), [pkg/mads/cache/snapshot.go] and
    [pkg/mads/reconcile/reconciler.go], and the versioning of
    [pkg/xds/server/reconcile.go].

    The Go interface [Snapshot] is a class.  Every method of the cache holds its
    mutex, so methods are atomic steps.  A watch is answered on a channel of
    capacity one that [CreateWatch] makes: channels are numbered, and the state
    records the responses sent on them.  A second send on a channel would block
    with the mutex held; that it cannot happen is [snapshot_cache_safe]. *)

From S2P Require Import Prelude GoStd Dataplane CoreXds.
Local Open Scope Z_scope.

(** ** Requests *)

(** The fields of a [DiscoveryRequest] the code reads. *)
Record DiscoveryRequest : Type := mkRequest {
  req_Node : option Node;
  req_TypeUrl : string;
  req_ResourceNames : list string;
  req_VersionInfo : string;
  req_ResponseNonce : string;
  req_ErrorDetail : option string;
}.

(** ** The Snapshot interface *)

Class Snapshot (S R : Type) : Type := {
  GetSupportedTypes : S → list string;
  Consistent : S → res unit;
  GetResources : S → string → gmap string R;
  snap_GetVersion : S → string → string;
  WithVersion : S → string → string → S;
}.

(** What the versioner relies on. *)
Class LawfulSnapshot (S R : Type) `{Snapshot S R} : Prop := {
  version_with : ∀ s typ v, typ ∈ GetSupportedTypes s → snap_GetVersion (WithVersion s typ v) typ = v;
  version_with_ne : ∀ s typ v typ', typ ≠ typ' →
    snap_GetVersion (WithVersion s typ v) typ' = snap_GetVersion s typ';
  resources_with : ∀ s typ v typ', GetResources (WithVersion s typ v) typ' = GetResources s typ';
  types_with : ∀ s typ v, GetSupportedTypes (WithVersion s typ v) = GetSupportedTypes s;
  version_unsupported : ∀ s typ, typ ∉ GetSupportedTypes s → snap_GetVersion s typ = "";
}.

Section Versions.
(** Protobuf messages and [proto.Equal]. *)
Context {R : Type} (proto_Equal : R → R → bool).

(** [equal] of the versioner; [equalSnapshots] of the reconciler is the same
    code. *)
Definition equal (new old : gmap string R) : bool :=
  if negb (Nat.eqb (size new) (size old)) then false
  else forallb (λ '(key, newValue),
         match old !! key with
         | None => false
         | Some oldValue => proto_Equal newValue oldValue
         end) (map_to_list new).

(** [SnapshotAutoVersioner.Version]; the state of [UUID] is the number of
    identifiers drawn, and [uuid n] is the n-th. *)
Section AutoVersioner.
Context {S : Type} `{Snapshot S R} (uuid : nat → string).

Definition Version_step (old : option S) (st : S * nat) (typ : string) : S * nat :=
  let (new, n) := st in
  let version := snap_GetVersion new typ in
  if negb (String.eqb version "") then (new, n)
  else
    let version := match old with
                   | Some old =>
                       if equal (GetResources new typ) (GetResources old typ)
                       then snap_GetVersion old typ else version
                   | None => version
                   end in
    if String.eqb version "" then (WithVersion new typ (uuid n), Datatypes.S n)
    else (WithVersion new typ version, n).

Definition AutoVersion (new : option S) (old : option S) (n : nat) : option S * nat :=
  match new with
  | None => (None, n)
  | Some new =>
      let (new', n') := foldl (Version_step old) (new, n) (GetSupportedTypes new) in (Some new', n')
  end.
End AutoVersioner.

(** [envoy_cache.Resources] and [envoy_cache.Snapshot]. *)
Record XdsResources : Type := mkResources { xr_Version : string; xr_Items : gmap string R }.
Record EnvoySnapshot : Type := mkEnvoySnapshot {
  Endpoints : XdsResources;
  Clusters : XdsResources;
  Routes : XdsResources;
  Listeners : XdsResources;
  Secrets : XdsResources;
}.

Section AutoVersion.
Context (uuid : nat → string).

Definition reuseVersion (old new : XdsResources) (n : nat) : XdsResources * nat :=
  if negb (equal (xr_Items new) (xr_Items old))
  then (mkResources (uuid n) (xr_Items new), S n)
  else (mkResources (xr_Version old) (xr_Items new), n).

Definition reconciler_autoVersion (old new : EnvoySnapshot) (n : nat) : EnvoySnapshot * nat :=
  let (listeners, n) := reuseVersion (Listeners old) (Listeners new) n in
  let (routes, n) := reuseVersion (Routes old) (Routes new) n in
  let (clusters, n) := reuseVersion (Clusters old) (Clusters new) n in
  let (endpoints, n) := reuseVersion (Endpoints old) (Endpoints new) n in
  let (secrets, n) := reuseVersion (Secrets old) (Secrets new) n in
  (mkEnvoySnapshot endpoints clusters routes listeners secrets, n).
End AutoVersion.
End Versions.
Arguments XdsResources : clear implicits.
Arguments EnvoySnapshot : clear implicits.

(** ** cache.go *)

Section Cache.
Context {S R : Type} `{Snapshot S R}.
(** [NodeHash], e.g. [hasher_ID]. *)
Context (hash : option Node → string).
(** [envoy_cache.SkipFetchError]. *)
Context (SkipFetchError : goerror).

Record Response : Type := mkResponse {
  resp_Request : DiscoveryRequest;
  resp_Version : string;
  resp_Resources : list R;
}.

(** [envoy_cache.ResponseWatch]; the channel is its number. *)
Record ResponseWatch : Type := mkWatch { w_Request : DiscoveryRequest; w_Response : nat }.

Record statusInfo : Type := mkInfo {
  info_node : option Node;
  watches : gmap Z ResponseWatch;
  lastWatchRequestTime : Z;
}.

Record snapshotCache : Type := mkCache {
  ads : bool;
  snapshots : gmap string S;
  status : gmap string statusInfo;
  watchCount : Z;
  channels : nat;                      (* channels made so far *)
  sent : list (nat * Response);        (* responses sent, oldest first *)
}.

Definition NewSnapshotCache (ads : bool) : snapshotCache := mkCache ads ∅ ∅ 0 0 [].

Definition newStatusInfo (node : option Node) : statusInfo := mkInfo node ∅ 0.

(** [nameSet] and [superset]. *)
Definition superset (names : list string) (resources : gmap string R) : bool :=
  forallb (λ '(resourceName, _), existsb (String.eqb resourceName) names) (map_to_list resources).

Definition createResponse (request : DiscoveryRequest) (resources : gmap string R) (version : string)
  : Response :=
  let filtered :=
    if negb (Nat.eqb (length (req_ResourceNames request)) 0)
    then List.filter (λ '(name, _), existsb (String.eqb name) (req_ResourceNames request))
           (map_to_list resources)
    else map_to_list resources in
  mkResponse request version filtered.*2.

(** [None] when nothing is sent. *)
Definition respond (ads : bool) (request : DiscoveryRequest) (resources : gmap string R)
    (version : string) : option Response :=
  if negb (Nat.eqb (length (req_ResourceNames request)) 0) && ads
     && negb (superset (req_ResourceNames request) resources)
  then None
  else Some (createResponse request resources version).

(** The send [value <- response]. *)
Definition send (c : nat) (r : option Response) : list (nat * Response) :=
  match r with Some r => [(c, r)] | None => [] end.

(** One watch of the loop of [SetSnapshot]. *)
Definition trigger (ads : bool) (snapshot : S) (st : gmap Z ResponseWatch * list (nat * Response))
    (x : Z * ResponseWatch) : gmap Z ResponseWatch * list (nat * Response) :=
  let request := w_Request x.2 in
  let version := snap_GetVersion snapshot (req_TypeUrl request) in
  if negb (String.eqb version (req_VersionInfo request))
  then (delete x.1 st.1,
        st.2 ++ send (w_Response x.2)
                  (respond ads request (GetResources snapshot (req_TypeUrl request)) version))
  else st.

Definition SetSnapshot (cache : snapshotCache) (node : string) (snapshot : S) : snapshotCache :=
  let snapshots' := <[node := snapshot]> (snapshots cache) in
  match status cache !! node with
  | Some info =>
      let (watches', sent') :=
        foldl (trigger (ads cache) snapshot) (watches info, sent cache) (map_to_list (watches info)) in
      mkCache (ads cache) snapshots'
        (<[node := mkInfo (info_node info) watches' (lastWatchRequestTime info)]> (status cache))
        (watchCount cache) (channels cache) sent'
  | None =>
      mkCache (ads cache) snapshots' (status cache) (watchCount cache) (channels cache) (sent cache)
  end.

Definition GetSnapshot (cache : snapshotCache) (node : string) : res S :=
  match snapshots cache !! node with
  | None => Err (Errorf "no snapshot found for node %s" [AStr node])
  | Some snap => Ok snap
  end.

Definition ClearSnapshot (cache : snapshotCache) (node : string) : snapshotCache :=
  mkCache (ads cache) (delete node (snapshots cache)) (delete node (status cache))
    (watchCount cache) (channels cache) (sent cache).

(** [CreateWatch] returns the channel and, for an open watch, what its cancel
    function deletes. *)
Definition CreateWatch (now : Z) (cache : snapshotCache) (request : DiscoveryRequest)
  : snapshotCache * nat * option (string * Z) :=
  let nodeID := hash (req_Node request) in
  let info := default (newStatusInfo (req_Node request)) (status cache !! nodeID) in
  let value := channels cache in
  let snapshot := snapshots cache !! nodeID in
  let version := match snapshot with
                 | Some s => snap_GetVersion s (req_TypeUrl request)
                 | None => ""
                 end in
  if match snapshot with None => true | Some _ => String.eqb (req_VersionInfo request) version end
  then
    let watchID := wrap_int (watchCount cache + 1) in
    (mkCache (ads cache) (snapshots cache)
       (<[nodeID := mkInfo (info_node info) (<[watchID := mkWatch request value]> (watches info)) now]>
          (status cache))
       watchID (Datatypes.S value) (sent cache), value, Some (nodeID, watchID))
  else
    let resources := match snapshot with
                     | Some s => GetResources s (req_TypeUrl request)
                     | None => ∅
                     end in
    (mkCache (ads cache) (snapshots cache)
       (<[nodeID := mkInfo (info_node info) (watches info) now]> (status cache))
       (watchCount cache) (Datatypes.S value)
       (sent cache ++ send value (respond (ads cache) request resources version)), value, None).

Definition cancelWatch (cache : snapshotCache) (nodeID : string) (watchID : Z) : snapshotCache :=
  match status cache !! nodeID with
  | Some info =>
      mkCache (ads cache) (snapshots cache)
        (<[nodeID := mkInfo (info_node info) (delete watchID (watches info))
                       (lastWatchRequestTime info)]> (status cache))
        (watchCount cache) (channels cache) (sent cache)
  | None => cache
  end.

Definition Fetch (cache : snapshotCache) (request : DiscoveryRequest) : res Response :=
  let nodeID := hash (req_Node request) in
  match snapshots cache !! nodeID with
  | Some snapshot =>
      let version := snap_GetVersion snapshot (req_TypeUrl request) in
      if String.eqb (req_VersionInfo request) version then Err SkipFetchError
      else Ok (createResponse request (GetResources snapshot (req_TypeUrl request)) version)
  | None => Err (Errorf "missing snapshot for %q" [AStr nodeID])
  end.

Definition GetStatusInfo (cache : snapshotCache) (node : string) : option statusInfo :=
  status cache !! node.
Definition GetStatusKeys (cache : snapshotCache) : list string := (map_to_list (status cache)).*1.
Definition GetNumWatches (info : statusInfo) : nat := size (watches info).

(** A call of a method that changes the cache. *)
Inductive cache_step : snapshotCache → snapshotCache → Prop :=
| step_Set c node s : cache_step c (SetSnapshot c node s)
| step_Clear c node : cache_step c (ClearSnapshot c node)
| step_Watch c now req : cache_step c (CreateWatch now c req).1.1
| step_Cancel c node id : cache_step c (cancelWatch c node id).

(** *** Open watches *)

Definition open_watch (c : snapshotCache) (node : string) (id : Z) (w : ResponseWatch) : Prop :=
  ∃ info, status c !! node = Some info ∧ watches info !! id = Some w.

(** The snapshot has another version than the one the watch was opened at. *)
Definition stale (s : S) (w : ResponseWatch) : bool :=
  negb (String.eqb (snap_GetVersion s (req_TypeUrl (w_Request w))) (req_VersionInfo (w_Request w))).

(** What [SetSnapshot] sends for a watch. *)
Definition triggered (ads : bool) (s : S) (x : Z * ResponseWatch) : list (nat * Response) :=
  let typ := req_TypeUrl (w_Request x.2) in
  if stale s x.2
  then send (w_Response x.2) (respond ads (w_Request x.2) (GetResources s typ) (snap_GetVersion s typ))
  else [].

Lemma trigger_fold ads s l ws sn :
  (foldl (trigger ads s) (ws, sn) l).2 = sn ++ (l ≫= triggered ads s) ∧
  ∀ id w, (foldl (trigger ads s) (ws, sn) l).1 !! id = Some w ↔
    ws !! id = Some w ∧ ∀ w', (id, w') ∈ l → stale s w' = false.
Proof.
  revert ws sn; induction l as [|[i v] l IH]; intros ws sn; simpl.
  - split; [by rewrite app_nil_r|]. intros id w. split; [|tauto]. intros Hw. split; [done|].
    intros w' Hin. by apply not_elem_of_nil in Hin.
  - unfold trigger at 2 4; simpl. fold (stale s v). unfold triggered at 1. simpl.
    destruct (stale s v) eqn:Hs; simpl.
    + destruct (IH (delete i ws) (sn ++ send (w_Response v) (respond ads (w_Request v)
        (GetResources s (req_TypeUrl (w_Request v))) (snap_GetVersion s (req_TypeUrl (w_Request v))))))
        as [-> Hl]. split; [by rewrite <- app_assoc|].
      intros id w. rewrite Hl, lookup_delete_Some. split.
      * intros ((Hne & Hw) & Hold). split; [done|]. intros w' [?|?]%elem_of_cons; [congruence|eauto].
      * intros [Hw Hold]. split; [|intros w' ?; apply Hold; by constructor]. split; [|done].
        intros <-. specialize (Hold v). rewrite Hold in Hs; [done|constructor].
    + destruct (IH ws sn) as [-> Hl]. split; [done|]. intros id w. rewrite Hl.
      split; intros [Hw Hold]; (split; [done|]); intros w'.
      * intros [?|?]%elem_of_cons; [congruence|eauto].
      * intros ?. apply Hold. by constructor.
Qed.

Definition node_watches (c : snapshotCache) (node : string) : list (Z * ResponseWatch) :=
  match status c !! node with Some info => map_to_list (watches info) | None => [] end.

Lemma elem_of_node_watches c node id w : (id, w) ∈ node_watches c node ↔ open_watch c node id w.
Proof.
  unfold node_watches, open_watch. destruct (status c !! node) as [info|].
  - rewrite elem_of_map_to_list. naive_solver.
  - split; [by intros ?%not_elem_of_nil|naive_solver].
Qed.

Lemma open_unique c node id w w' : open_watch c node id w → open_watch c node id w' → w = w'.
Proof. intros (? & ? & ?) (? & ? & ?). congruence. Qed.

Lemma SetSnapshot_open c node s node' id w :
  open_watch (SetSnapshot c node s) node' id w ↔
  open_watch c node' id w ∧ (node' ≠ node ∨ stale s w = false).
Proof.
  unfold SetSnapshot. destruct (status c !! node) as [info|] eqn:E.
  - pose proof (trigger_fold (ads c) s (map_to_list (watches info)) (watches info) (sent c)) as [_ Hl].
    destruct (foldl _ _ _) as [ws' sn']. simpl in Hl. unfold open_watch; simpl.
    setoid_rewrite lookup_insert_Some. split.
    + intros (i & [[<- <-]|[Hne Hi]] & Hw); simpl in *; [|eauto].
      apply Hl in Hw as [Hw Hold]. split; [eauto|]. right. apply Hold. by apply elem_of_map_to_list.
    + intros [(i & Hi & Hw) Hst]. destruct (decide (node = node')) as [<-|Hne]; [|eauto].
      destruct Hst as [?|Hst]; [done|]. simplify_eq. eexists. split; [left; done|]. simpl.
      apply Hl. split; [done|]. intros w' Hw'%elem_of_map_to_list. congruence.
  - unfold open_watch; simpl. split; [|naive_solver]. intros (i & Hi & Hw). split; [eauto|].
    left. congruence.
Qed.

Lemma SetSnapshot_sent c node s :
  sent (SetSnapshot c node s) = sent c ++ (node_watches c node ≫= triggered (ads c) s).
Proof.
  unfold SetSnapshot, node_watches. destruct (status c !! node) as [info|]; simpl.
  - pose proof (trigger_fold (ads c) s (map_to_list (watches info)) (watches info) (sent c)) as [Hs _].
    by destruct (foldl _ _ _).
  - by rewrite app_nil_r.
Qed.

Lemma SetSnapshot_fields c node s :
  ads (SetSnapshot c node s) = ads c ∧ channels (SetSnapshot c node s) = channels c
  ∧ snapshots (SetSnapshot c node s) = <[node := s]> (snapshots c).
Proof. unfold SetSnapshot. destruct (status c !! node); [destruct (foldl _ _ _)|]; done. Qed.

(** The watch has no answer to give yet: there is no snapshot, or it has the
    version of the request. *)
Definition up_to_date (c : snapshotCache) (req : DiscoveryRequest) : Prop :=
  ∀ s, snapshots c !! hash (req_Node req) = Some s →
    req_VersionInfo req = snap_GetVersion s (req_TypeUrl req).

Lemma CreateWatch_cases now c req :
  let '(c', value, cancel) := CreateWatch now c req in
  let node := hash (req_Node req) in
  value = channels c ∧ channels c' = Datatypes.S (channels c)
  ∧ snapshots c' = snapshots c ∧ ads c' = ads c ∧
  ((up_to_date c req ∧ sent c' = sent c ∧ ∃ id, cancel = Some (node, id) ∧
      ∀ node' id' w, open_watch c' node' id' w ↔
        if decide (node' = node ∧ id' = id) then w = mkWatch req value else open_watch c node' id' w)
   ∨ (∃ s, cancel = None ∧ snapshots c !! node = Some s
      ∧ req_VersionInfo req ≠ snap_GetVersion s (req_TypeUrl req)
      ∧ sent c' = sent c ++ send value (respond (ads c) req (GetResources s (req_TypeUrl req))
                                          (snap_GetVersion s (req_TypeUrl req)))
      ∧ ∀ node' id' w, open_watch c' node' id' w ↔ open_watch c node' id' w)).
Proof.
  unfold CreateWatch. set (node := hash (req_Node req)).
  set (info := default (newStatusInfo (req_Node req)) (status c !! node)).
  assert (∀ id w, watches info !! id = Some w ↔ open_watch c node id w) as Hinfo.
  { intros id w. unfold info, open_watch. destruct (status c !! node) as [i|]; simpl; [naive_solver|].
    split; [by rewrite lookup_empty|naive_solver]. }
  assert (∀ ws now', (∀ node' id' w,
    (∃ i, <[node := mkInfo (info_node info) ws now']> (status c) !! node' = Some i
       ∧ watches i !! id' = Some w)
    ↔ if decide (node' = node) then ws !! id' = Some w else open_watch c node' id' w)) as Hset.
  { intros ws now' node' id' w. unfold open_watch. setoid_rewrite lookup_insert_Some.
    case_decide; subst; [|naive_solver]. split; [naive_solver|]. intros Hw. eexists. split; [by left|done]. }
  destruct (snapshots c !! node) as [s|] eqn:Es.
  1: destruct (String.eqb_spec (req_VersionInfo req) (snap_GetVersion s (req_TypeUrl req))) as [Hv|Hv].
  2: { simpl. repeat (split; [done|]). right. exists s. repeat (split; [done|]). intros node' id' w.
       unfold open_watch at 1. simpl. rewrite Hset. case_decide; [subst; apply Hinfo|done]. }
  all: simpl; repeat (split; [done|]); left;
    (split; [intros s' Hs'; fold node in Hs'; congruence|]); (split; [done|]);
    eexists; (split; [done|]); intros node' id' w; unfold open_watch at 1; simpl; rewrite Hset;
    destruct (decide (node' = node)) as [->|Hne];
    [|rewrite decide_False by tauto; done]; rewrite lookup_insert;
    (destruct (decide (wrap_int (watchCount c + 1) = id')) as [<-|Hi];
     [rewrite decide_True by done; naive_solver
     |rewrite decide_False by naive_solver; apply Hinfo]).
Qed.

(** *** The invariant *)

Record cache_inv (c : snapshotCache) : Prop := mkInv {
  inv_chan : ∀ node id w, open_watch c node id w →
    (w_Response w < channels c)%nat ∧ w_Response w ∉ (sent c).*1;
  inv_uniq : ∀ n i w n' i' w', open_watch c n i w → open_watch c n' i' w' →
    w_Response w = w_Response w' → n = n' ∧ i = i';
  inv_once : NoDup (sent c).*1;
  inv_made : ∀ ch, ch ∈ (sent c).*1 → (ch < channels c)%nat;
  inv_fresh : ∀ node id w s, open_watch c node id w → snapshots c !! node = Some s →
    stale s w = false;
}.

Lemma triggered_chan ad s x y : y ∈ triggered ad s x → y.1 = w_Response x.2 ∧ stale s x.2 = true.
Proof.
  unfold triggered. destruct (stale s x.2); [|by intros ?%not_elem_of_nil].
  unfold send. destruct (respond _ _ _ _); [|by intros ?%not_elem_of_nil].
  by intros ->%list_elem_of_singleton.
Qed.

Lemma triggered_NoDup ad s l :
  NoDup ((λ x : Z * ResponseWatch, w_Response x.2) <$> l) → NoDup (l ≫= triggered ad s).*1.
Proof.
  induction l as [|x l IH]; simpl; [constructor|]. intros [Hx Hl]%NoDup_cons.
  rewrite fmap_app. apply NoDup_app. split; [|split; [|by apply IH]].
  - unfold triggered, send. destruct (stale s x.2); [|constructor].
    destruct (respond _ _ _ _); [apply NoDup_singleton|constructor].
  - intros ch (y & -> & Hy)%list_elem_of_fmap (z & Hz & Hz')%list_elem_of_fmap.
    apply triggered_chan in Hy as [Hy _]. apply list_elem_of_bind in Hz' as (x' & Hz' & Hx').
    apply triggered_chan in Hz' as [Hz' _]. apply Hx. apply list_elem_of_fmap.
    exists x'. split; [congruence|done].
Qed.

Lemma node_watches_NoDup c node :
  cache_inv c → NoDup ((λ x : Z * ResponseWatch, w_Response x.2) <$> node_watches c node).
Proof.
  intros Hc. apply NoDup_fmap_2_strong.
  - intros [i w] [i' w'] Hx Hy Heq. simpl in Heq. apply elem_of_node_watches in Hx, Hy.
    destruct (inv_uniq c Hc _ _ _ _ _ _ Hx Hy Heq) as [_ <-]. f_equal. by eapply open_unique.
  - unfold node_watches. destruct (status c !! node); [apply NoDup_map_to_list|constructor].
Qed.

Lemma sent_node_watches c node s ch :
  ch ∈ (node_watches c node ≫= triggered (ads c) s).*1 →
  ∃ id w, open_watch c node id w ∧ w_Response w = ch ∧ stale s w = true.
Proof.
  intros (y & -> & Hy)%list_elem_of_fmap. apply list_elem_of_bind in Hy as ([id w] & Hy & Hx).
  apply triggered_chan in Hy as [-> ?]. apply elem_of_node_watches in Hx. eauto.
Qed.

Lemma SetSnapshot_inv c node s : cache_inv c → cache_inv (SetSnapshot c node s).
Proof.
  intros Hc. destruct (SetSnapshot_fields c node s) as (_ & Hch & Hsn). constructor.
  - intros n id w Ho. apply SetSnapshot_open in Ho as [Ho Hst].
    destruct (inv_chan c Hc _ _ _ Ho) as [Hlt Hns]. rewrite Hch, SetSnapshot_sent, fmap_app.
    split; [done|]. rewrite elem_of_app. intros [?|(id' & w' & Ho' & Hw & Hs')%sent_node_watches]; [done|].
    destruct (inv_uniq c Hc _ _ _ _ _ _ Ho' Ho Hw) as [-> ->].
    pose proof (open_unique _ _ _ _ _ Ho Ho') as ->. destruct Hst as [?|Hst]; [done|congruence].
  - intros n i w n' i' w' [Ho _]%SetSnapshot_open [Ho' _]%SetSnapshot_open. by apply (inv_uniq c Hc).
  - rewrite SetSnapshot_sent, fmap_app. apply NoDup_app. split; [apply (inv_once c Hc)|].
    split; [|by apply triggered_NoDup, node_watches_NoDup].
    intros ch Hch1 (id & w & Ho & <- & _)%sent_node_watches. by apply (inv_chan c Hc) in Ho as [_ ?].
  - intros ch. rewrite Hch, SetSnapshot_sent, fmap_app, elem_of_app.
    intros [?|(id & w & Ho & <- & _)%sent_node_watches]; [by apply (inv_made c Hc)|].
    by apply (inv_chan c Hc) in Ho as [? _].
  - intros n id w s' [Ho Hst]%SetSnapshot_open. rewrite Hsn, lookup_insert_Some.
    intros [[<- <-]|[Hne Hs']]; [by destruct Hst|exact (inv_fresh c Hc _ _ _ _ Ho Hs')].
Qed.

Lemma CreateWatch_inv now c req : cache_inv c → cache_inv (CreateWatch now c req).1.1.
Proof.
  intros Hc. pose proof (CreateWatch_cases now c req) as Hw.
  destruct (CreateWatch now c req) as [[c' v] cancel]. cbv zeta in Hw.
  destruct Hw as (-> & Hch & Hsn & Had & [(Hup & Hse & id & _ & Ho)|(s & _ & Hs & Hne & Hse & Ho)]); simpl.
  - constructor.
    + intros n i w Hw%Ho. rewrite Hch, Hse. destruct (decide (n = _ ∧ i = id)).
      * subst w. simpl. split; [lia|]. intros Hin%(inv_made c Hc). lia.
      * apply (inv_chan c Hc) in Hw. split; [lia|tauto].
    + intros n i w n' i' w' Hw%Ho Hw'%Ho.
      destruct (decide (n = _ ∧ i = id)) as [[-> ->]|], (decide (n' = _ ∧ i' = id)) as [[-> ->]|]; subst; simpl.
      * done.
      * apply (inv_chan c Hc) in Hw'. intros. lia.
      * apply (inv_chan c Hc) in Hw. intros. lia.
      * by apply (inv_uniq c Hc).
    + rewrite Hse. apply (inv_once c Hc).
    + intros ch. rewrite Hse, Hch. intros ?%(inv_made c Hc). lia.
    + intros n i w s Hw%Ho. rewrite Hsn. destruct (decide (n = _ ∧ i = id)) as [[-> ->]|].
      * subst w. intros Hs. unfold stale; simpl. rewrite (Hup s Hs). by rewrite String.eqb_refl.
      * intros Hs. exact (inv_fresh c Hc _ _ _ _ Hw Hs).
  - assert (∀ ch, ch ∈ (sent c').*1 → ch ∈ (sent c).*1 ∨ ch = channels c) as Hsent.
    { intros ch. rewrite Hse, fmap_app, elem_of_app. intros [?|Hin]; [by left|]. right.
      unfold send in Hin. destruct (respond _ _ _ _); simpl in Hin; set_solver. }
    constructor.
    + intros n i w Hw%Ho. apply (inv_chan c Hc) in Hw as [Hlt Hns]. rewrite Hch. split; [lia|].
      intros [?|?]%Hsent; [done|lia].
    + intros n i w n' i' w' Hw%Ho Hw'%Ho. by apply (inv_uniq c Hc).
    + rewrite Hse, fmap_app. apply NoDup_app. split; [apply (inv_once c Hc)|]. split.
      * intros ch Hin%(inv_made c Hc). unfold send. destruct (respond _ _ _ _); simpl; set_unfold; lia.
      * unfold send. destruct (respond _ _ _ _); [apply NoDup_singleton|constructor].
    + intros ch. rewrite Hch. intros [?%(inv_made c Hc)| ->]%Hsent; lia.
    + intros n i w s' Hw%Ho. rewrite Hsn. intros Hs'. exact (inv_fresh c Hc _ _ _ _ Hw Hs').
Qed.

(** Steps that only close watches. *)
Lemma closing_inv c c' :
  (∀ n i w, open_watch c' n i w → open_watch c n i w) → channels c' = channels c → sent c' = sent c →
  (∀ n s, snapshots c' !! n = Some s → snapshots c !! n = Some s) → cache_inv c → cache_inv c'.
Proof.
  intros Ho Hch Hse Hsn Hc. constructor.
  - intros n i w Hw%Ho. rewrite Hch, Hse. by apply (inv_chan c Hc) in Hw.
  - intros n i w n' i' w' Hw%Ho Hw'%Ho. by apply (inv_uniq c Hc).
  - rewrite Hse. apply (inv_once c Hc).
  - rewrite Hse, Hch. apply (inv_made c Hc).
  - intros n i w s Hw%Ho Hs%Hsn. exact (inv_fresh c Hc _ _ _ _ Hw Hs).
Qed.

Lemma cache_step_inv c c' : cache_step c c' → cache_inv c → cache_inv c'.
Proof.
  destruct 1 as [c node s|c node|c now req|c node id].
  - apply SetSnapshot_inv.
  - apply closing_inv; try done.
    + intros n i w (info & Hi & Hw). simpl in Hi. apply lookup_delete_Some in Hi as [_ Hi]. by exists info.
    + intros n s. simpl. by intros [_ ?]%lookup_delete_Some.
  - apply CreateWatch_inv.
  - unfold cancelWatch. destruct (status c !! node) as [info|] eqn:E; [|done].
    apply closing_inv; try done. intros n i w (info' & Hi & Hw). simpl in Hi.
    apply lookup_insert_Some in Hi as [[<- <-]|[_ Hi]]; [|by exists info'].
    simpl in Hw. apply lookup_delete_Some in Hw as [_ Hw]. by exists info.
Qed.

Lemma reachable_inv b c : rtc cache_step (NewSnapshotCache b) c → cache_inv c.
Proof.
  assert (∀ c0, rtc cache_step c0 c → cache_inv c0 → cache_inv c) as Hr.
  { intros c0. induction 1 as [|? ? ? ? ? IH]; eauto using cache_step_inv. }
  intros. eapply Hr; [done|]. constructor; simpl; try by intros ???(?&?&_).
  - by intros ??????(?&?&_).
  - constructor.
  - by intros ? ?%not_elem_of_nil.
  - by intros ????(?&?&_).
Qed.

(** *** Properties *)

(** In every state the snapshot cache can reach, no channel was sent more
    than one response (so no send ever blocks while the mutex is held), the
    channel of an open watch is unused, and no open watch is stale: it waits at
    exactly the version of its type in the current snapshot of its node. *)
Theorem snapshot_cache_safe b c :
  rtc cache_step (NewSnapshotCache b) c →
  NoDup (sent c).*1 ∧
  ∀ node id w, open_watch c node id w →
    (w_Response w ∉ (sent c).*1) ∧
    ∀ s, snapshots c !! node = Some s →
      req_VersionInfo (w_Request w) = snap_GetVersion s (req_TypeUrl (w_Request w)).
Proof.
  intros Hc%reachable_inv. split; [apply (inv_once c Hc)|]. intros node id w Ho.
  split; [apply (inv_chan c Hc _ _ _ Ho)|]. intros s Hs.
  pose proof (inv_fresh c Hc _ _ _ _ Ho Hs) as Hst. unfold stale in Hst.
  apply negb_false_iff, String.eqb_eq in Hst. done.
Qed.

(** Setting the snapshot of a node stores it, closes exactly the open
    watches of that node whose version it changes, sends each of them its
    response (unless in ADS mode the request does not name all resources) and
    touches nothing else. *)
Theorem SetSnapshot_correct c node s :
  GetSnapshot (SetSnapshot c node s) node = Ok s
  ∧ (∀ node', node' ≠ node → GetSnapshot (SetSnapshot c node s) node' = GetSnapshot c node')
  ∧ (∀ node' id w, open_watch (SetSnapshot c node s) node' id w ↔
       open_watch c node' id w ∧ (node' ≠ node ∨
         req_VersionInfo (w_Request w) = snap_GetVersion s (req_TypeUrl (w_Request w))))
  ∧ ∃ responses, sent (SetSnapshot c node s) = sent c ++ responses ∧
      ∀ ch r, (ch, r) ∈ responses ↔
        ∃ id w, open_watch c node id w ∧ w_Response w = ch
          ∧ req_VersionInfo (w_Request w) ≠ snap_GetVersion s (req_TypeUrl (w_Request w))
          ∧ respond (ads c) (w_Request w) (GetResources s (req_TypeUrl (w_Request w)))
              (snap_GetVersion s (req_TypeUrl (w_Request w))) = Some r.
Proof.
  assert (∀ w, stale s w = false ↔
    req_VersionInfo (w_Request w) = snap_GetVersion s (req_TypeUrl (w_Request w))) as Hst.
  { intros w. unfold stale. rewrite negb_false_iff, String.eqb_eq. done. }
  destruct (SetSnapshot_fields c node s) as (_ & _ & Hsn). unfold GetSnapshot. rewrite Hsn.
  split; [by rewrite lookup_insert_eq|]. split; [intros n Hn; by rewrite lookup_insert_ne|].
  split; [intros n id w; by rewrite SetSnapshot_open, Hst|].
  exists (node_watches c node ≫= triggered (ads c) s). split; [apply SetSnapshot_sent|].
  intros ch r. rewrite list_elem_of_bind. unfold triggered. split.
  - intros ([id w] & Hin & Ho%elem_of_node_watches). exists id, w. simpl in Hin.
    destruct (stale s w) eqn:E; [|by apply not_elem_of_nil in Hin].
    unfold send in Hin. destruct (respond _ _ _ _) eqn:Er; [|by apply not_elem_of_nil in Hin].
    apply list_elem_of_singleton in Hin. simplify_eq. split; [done|]. split; [done|]. split; [|done].
    intros Hv%Hst. congruence.
  - intros (id & w & Ho & <- & Hv & Hr). exists (id, w). split; [|by apply elem_of_node_watches].
    simpl. destruct (stale s w) eqn:E; [|by apply Hst in E]. rewrite Hr. by apply list_elem_of_singleton.
Qed.

Lemma existsb_names name names : existsb (String.eqb name) names = true ↔ name ∈ names.
Proof.
  rewrite existsb_exists. setoid_rewrite String.eqb_eq. setoid_rewrite <- list_elem_of_In. naive_solver.
Qed.

(** A response carries the request, the version and exactly the resources
    of the snapshot the request asks for (all of them when it names none); it
    is withheld exactly in ADS mode when the request names some resources but
    not all of the snapshot. *)
Theorem respond_correct adsMode req resources version :
  match respond adsMode req resources version with
  | None => adsMode = true ∧ req_ResourceNames req ≠ []
      ∧ ∃ name x, resources !! name = Some x ∧ name ∉ req_ResourceNames req
  | Some r => resp_Request r = req ∧ resp_Version r = version
      ∧ (adsMode = true → req_ResourceNames req ≠ [] →
           ∀ name x, resources !! name = Some x → name ∈ req_ResourceNames req)
      ∧ (∀ x, x ∈ resp_Resources r ↔ ∃ name, resources !! name = Some x ∧
           (req_ResourceNames req = [] ∨ name ∈ req_ResourceNames req))
  end.
Proof.
  unfold respond. set (names := req_ResourceNames req).
  assert (superset names resources = true ↔
    ∀ name x, resources !! name = Some x → name ∈ names) as Hsup.
  { unfold superset. rewrite forallb_forall. setoid_rewrite <- list_elem_of_In. split.
    - intros Ha name x Hx. by apply existsb_names, (Ha (name, x)), elem_of_map_to_list.
    - intros Ha [name x] Hx%elem_of_map_to_list. apply existsb_names. by eapply Ha. }
  destruct (negb _ && adsMode && negb _) eqn:E.
  - apply andb_true_iff in E as [[Hn ->]%andb_true_iff Hs]. apply negb_true_iff, Nat.eqb_neq in Hn.
    apply negb_true_iff in Hs. unfold superset in Hs.
    apply not_true_iff_false in Hs. rewrite forallb_forall in Hs.
    split; [done|]. split; [by intros ->|].
    destruct (decide (Exists (λ '(name, _), name ∉ names) (map_to_list resources))) as [Hx|Hx].
    + apply Exists_exists in Hx as ([name x] & Hx & Hn'). apply elem_of_map_to_list in Hx. eauto.
    + destruct Hs. intros [name x] Hin. apply existsb_names. apply list_elem_of_In in Hin.
      destruct (decide (name ∈ names)) as [?|Hnot]; [done|]. destruct Hx. apply Exists_exists.
      by exists (name, x).
  - split; [done|]. split; [done|]. split.
    + intros -> Hne. apply Hsup. rewrite andb_true_r in E.
      destruct (Nat.eqb_spec (length names) 0) as [Hz|_]; [by apply length_zero_iff_nil in Hz|].
      simpl in E. by apply negb_false_iff in E.
    + intros x. unfold createResponse. fold names. simpl. rewrite list_elem_of_fmap.
      destruct (Nat.eqb_spec (length names) 0) as [Hz|Hz]; simpl.
      * apply length_zero_iff_nil in Hz. split.
        -- intros ([name y] & -> & Hin%elem_of_map_to_list). eauto.
        -- intros (name & Hx & _). exists (name, x). by rewrite elem_of_map_to_list.
      * split.
        -- intros ([name y] & -> & Hin). apply list_elem_of_In, filter_In in Hin as [Hin Hn].
           apply list_elem_of_In, elem_of_map_to_list in Hin. apply existsb_names in Hn. eauto.
        -- intros (name & Hx & [->|Hn]); [done|]. exists (name, x). split; [done|].
           apply list_elem_of_In, filter_In. split; [|by apply existsb_names].
           by apply list_elem_of_In, elem_of_map_to_list.
Qed.
End Cache.

(** ** Versioning *)

Section VersionTheorems.
Context {R : Type} (proto_Equal : R → R → bool).

Lemma equal_spec (new old : gmap string R) :
  equal proto_Equal new old = true ↔
  (∀ key, is_Some (new !! key) ↔ is_Some (old !! key)) ∧
  (∀ key x y, new !! key = Some x → old !! key = Some y → proto_Equal x y = true).
Proof.
  unfold equal. destruct (Nat.eqb_spec (size new) (size old)) as [Hs|Hs]; simpl.
  - rewrite forallb_forall. setoid_rewrite <- list_elem_of_In. split.
    + intros Ha.
      assert (∀ key x, new !! key = Some x → ∃ y, old !! key = Some y ∧ proto_Equal x y = true) as Hk.
      { intros key x Hx%elem_of_map_to_list. specialize (Ha _ Hx). simpl in Ha.
        destruct (old !! key) as [y|]; [eauto|done]. }
      assert (dom new = dom old) as Hd.
      { apply set_subseteq_size_eq; [|rewrite !size_dom; lia].
        intros key [x Hx]%elem_of_dom. apply elem_of_dom. destruct (Hk _ _ Hx) as (y & -> & _). eauto. }
      split; [intros key; by rewrite <- !elem_of_dom, Hd|]. intros key x y Hx Hy.
      destruct (Hk _ _ Hx) as (y' & Hy' & ?). congruence.
    + intros [Hd Hk] [key x] Hx%elem_of_map_to_list. destruct (proj1 (Hd key)) as [y Hy]; [eauto|].
      rewrite Hy. by eapply Hk.
  - split; [done|]. intros [Hd _]. destruct Hs. rewrite <- !(size_dom (D := gset string)). f_equal.
    apply set_eq. intros key. rewrite !elem_of_dom. apply Hd.
Qed.

Context {S : Type} `{LawfulSnapshot S R} (uuid : nat → string).

(** The version of a type that can be kept: the resources did not change and
    the old snapshot had one. *)
Definition reusable (old : option S) (new : S) (typ : string) : option string :=
  match old with
  | Some o =>
      if equal proto_Equal (GetResources new typ) (GetResources o typ)
         && negb (String.eqb (snap_GetVersion o typ) "")
      then Some (snap_GetVersion o typ) else None
  | None => None
  end.

(** Which version a type gets; identifiers [n] to [n'] were drawn meanwhile. *)
Definition assigned (old : option S) (new : S) (typ : string) (n n' : nat) (v : string) : Prop :=
  (snap_GetVersion new typ ≠ "" ∧ v = snap_GetVersion new typ)
  ∨ (snap_GetVersion new typ = "" ∧ reusable old new typ = Some v)
  ∨ (snap_GetVersion new typ = "" ∧ reusable old new typ = None ∧ ∃ k, (n ≤ k < n')%nat ∧ v = uuid k).

Lemma Version_step_spec old new n typ :
  typ ∈ GetSupportedTypes new →
  let '(new', n') := Version_step proto_Equal uuid old (new, n) typ in
  GetSupportedTypes new' = GetSupportedTypes new ∧ (∀ t, GetResources new' t = GetResources new t)
  ∧ (n ≤ n')%nat ∧ (∀ t, t ≠ typ → snap_GetVersion new' t = snap_GetVersion new t)
  ∧ assigned old new typ n n' (snap_GetVersion new' typ).
Proof.
  intros Ht. unfold Version_step.
  assert (∀ v, GetSupportedTypes (WithVersion new typ v) = GetSupportedTypes new
    ∧ (∀ t, GetResources (WithVersion new typ v) t = GetResources new t)
    ∧ (∀ t, t ≠ typ → snap_GetVersion (WithVersion new typ v) t = snap_GetVersion new t)) as Hw.
  { intros v. split; [apply types_with|]. split; [intros t; apply resources_with|].
    intros t Hne. by apply version_with_ne. }
  destruct (String.eqb_spec (snap_GetVersion new typ) "") as [Hv|Hv]; simpl.
  2: { repeat (split; [done|]). left. done. }
  unfold assigned, reusable. rewrite Hv. simpl.
  destruct old as [o|]; simpl.
  1: destruct (equal _ _ _); simpl.
  1: destruct (String.eqb_spec (snap_GetVersion o typ) "") as [Ho|Ho]; simpl.
  2: { destruct (Hw (snap_GetVersion o typ)) as (? & ? & ?). repeat (split; [done|]).
       right; left. by rewrite version_with. }
  all: simpl; destruct (Hw (uuid n)) as (? & ? & ?); split; [done|]; split; [done|]; split; [lia|];
    split; [done|]; right; right; split; [done|]; split; [done|]; exists n; split; [lia|];
    by rewrite version_with.
Qed.

Lemma Version_fold old l new n :
  NoDup l → (∀ typ, typ ∈ l → typ ∈ GetSupportedTypes new) →
  let '(new', n') := foldl (Version_step proto_Equal uuid old) (new, n) l in
  GetSupportedTypes new' = GetSupportedTypes new ∧ (∀ t, GetResources new' t = GetResources new t)
  ∧ (n ≤ n')%nat ∧ (∀ t, t ∉ l → snap_GetVersion new' t = snap_GetVersion new t)
  ∧ (∀ t, t ∈ l → assigned old new t n n' (snap_GetVersion new' t)).
Proof.
  revert new n; induction l as [|typ l IH]; intros new n Hnd Hl; cbn [foldl].
  { repeat (split; [done|]). intros t Ht. by apply not_elem_of_nil in Ht. }
  apply NoDup_cons in Hnd as [Hnin Hnd].
  pose proof (Version_step_spec old new n typ (Hl typ ltac:(constructor))) as Hs.
  destruct (Version_step _ _ _ _ _) as [new1 n1]. destruct Hs as (Ht1 & Hr1 & Hn1 & Ho1 & Ha1).
  assert (∀ t, t ∈ l → t ∈ GetSupportedTypes new1) as Hl1 by (intros t Ht; rewrite Ht1; apply Hl; by constructor).
  specialize (IH new1 n1 Hnd Hl1). destruct (foldl _ _ _) as [new2 n2].
  destruct IH as (Ht2 & Hr2 & Hn2 & Ho2 & Ha2).
  split; [congruence|]. split; [intros t; congruence|]. split; [lia|]. split.
  - intros t [Hne Ht]%not_elem_of_cons. by rewrite Ho2, Ho1.
  - intros t [->|Ht]%elem_of_cons.
    + rewrite Ho2 by done. destruct Ha1 as [?|[?|(? & ? & k & ? & ?)]]; [by left|by right; left|].
      right; right. split; [done|]. split; [done|]. exists k. split; [lia|done].
    + assert (t ≠ typ) as Hne by (intros ->; done). specialize (Ha2 t Ht).
      unfold assigned, reusable in *. rewrite Ho1, Hr1 in Ha2 by done.
      destruct Ha2 as [?|[?|(? & ? & k & ? & ?)]]; [by left|by right; left|].
      right; right. split; [done|]. split; [done|]. exists k. split; [lia|done].
Qed.

(** Versioning a snapshot changes nothing but versions: a version the
    generator assigned is kept; a type whose resources are those of the old
    snapshot keeps its old version; every other type gets a freshly drawn
    identifier. *)
Theorem AutoVersion_correct old new n :
  NoDup (GetSupportedTypes new) →
  ∃ new' n', AutoVersion proto_Equal uuid (Some new) old n = (Some new', n')
  ∧ GetSupportedTypes new' = GetSupportedTypes new
  ∧ (∀ typ, GetResources new' typ = GetResources new typ)
  ∧ (∀ typ, typ ∈ GetSupportedTypes new → assigned old new typ n n' (snap_GetVersion new' typ)).
Proof.
  intros Hnd. unfold AutoVersion.
  pose proof (Version_fold old (GetSupportedTypes new) new n Hnd ltac:(done)) as Hf.
  destruct (foldl _ _ _) as [new' n']. destruct Hf as (? & ? & _ & _ & ?). by exists new', n'.
Qed.
End VersionTheorems.

(** ** pkg/mads/cache/snapshot.go *)

Definition MonitoringAssignmentType : string :=
  "type.googleapis.com/kuma.observability.v1alpha1.MonitoringAssignment".

Record MadsSnapshot (R : Type) : Type := mkMads { MonitoringAssignments : XdsResources R }.
Arguments mkMads {R} _.
Arguments MonitoringAssignments {R} _.

Definition NewSnapshot {R} (version : string) (assignments : gmap string R) : MadsSnapshot R :=
  mkMads (mkResources version assignments).

Definition mads_GetVersion {R} (s : MadsSnapshot R) (typ : string) : string :=
  if String.eqb typ MonitoringAssignmentType then xr_Version (MonitoringAssignments s) else "".

Definition mads_WithVersion {R} (s : MadsSnapshot R) (typ version : string) : MadsSnapshot R :=
  if String.eqb (mads_GetVersion s typ) version then s
  else if String.eqb typ MonitoringAssignmentType
  then mkMads (mkResources version (xr_Items (MonitoringAssignments s)))
  else s.

#[global] Instance mads_Snapshot {R} : Snapshot (MadsSnapshot R) R :=
  {| GetSupportedTypes := λ _, [MonitoringAssignmentType];
     Consistent := λ _, Ok ();
     GetResources := λ s typ,
       if String.eqb typ MonitoringAssignmentType then xr_Items (MonitoringAssignments s) else ∅;
     snap_GetVersion := mads_GetVersion;
     WithVersion := mads_WithVersion |}.

#[global] Instance mads_lawful {R} : LawfulSnapshot (MadsSnapshot R) R.
Proof.
  constructor.
  - intros s typ v ->%list_elem_of_singleton. unfold mads_GetVersion. simpl. unfold mads_WithVersion.
    destruct (String.eqb_spec (mads_GetVersion s MonitoringAssignmentType) v) as [<-|]; [done|].
    by rewrite String.eqb_refl.
  - intros s typ v typ' Hne. simpl. unfold mads_WithVersion.
    destruct (String.eqb _ v); [done|]. destruct (String.eqb_spec typ MonitoringAssignmentType) as [->|]; [|done].
    unfold mads_GetVersion. by destruct (String.eqb_spec typ' MonitoringAssignmentType) as [->|].
  - intros s typ v typ'. simpl. unfold mads_WithVersion.
    destruct (String.eqb _ v); [done|]. by destruct (String.eqb typ MonitoringAssignmentType).
  - done.
  - intros s typ Ht. simpl. unfold mads_GetVersion.
    destruct (String.eqb_spec typ MonitoringAssignmentType) as [->|]; [|done]. destruct Ht. constructor.
Qed.

(** ** pkg/mads/reconcile/reconciler.go *)

Lemma bind_nil {A B} (f : A → list B) l : (∀ x, x ∈ l → f x = []) → l ≫= f = [].
Proof.
  induction l as [|x l IH]; intros Hf; simpl; [done|].
  rewrite (Hf x) by constructor. apply IH. intros y Hy. apply Hf. by constructor.
Qed.

Section Reconcile.
Context {S R : Type} `{LawfulSnapshot S R} (proto_Equal : R → R → bool) (uuid : nat → string).
Context (hash : option Node → string).

(** The generator is a parameter of the reconciler. *)
Definition mads_Reconcile (GenerateSnapshot : option Node → res S) (cache : snapshotCache) (n : nat)
    (node : option Node) : res unit * (snapshotCache * nat) :=
  match GenerateSnapshot node with
  | Ok new =>
      match Consistent new with
      | Ok _ =>
          let id := hash node in
          let old := match GetSnapshot cache id with Ok s => Some s | _ => None end in
          match AutoVersion proto_Equal uuid (Some new) old n with
          | (Some new', n') => (Ok (), (SetSnapshot cache id new', n'))
          | (None, n') => (Panic, (cache, n'))
          end
      | err => (err, (cache, n))
      end
  | Err e => (Err e, (cache, n))
  | Panic => (Panic, (cache, n))
  end.

(** Reconciling a node whose resources did not change is invisible: the
    versions stay, no watch is answered and all watches stay open. *)
Theorem mads_Reconcile_stable b c n node gen new old :
  rtc (cache_step hash) (NewSnapshotCache b) c →
  gen node = Ok new → Consistent new = Ok () → snapshots c !! hash node = Some old →
  NoDup (GetSupportedTypes new) → GetSupportedTypes old = GetSupportedTypes new →
  (∀ typ, typ ∈ GetSupportedTypes new →
     snap_GetVersion new typ = "" ∧ snap_GetVersion old typ ≠ "" ∧
     equal proto_Equal (GetResources new typ) (GetResources old typ) = true) →
  let '(e, (c', n')) := mads_Reconcile gen c n node in
  e = Ok () ∧ sent c' = sent c ∧
  (∀ node' id w, open_watch c' node' id w ↔ open_watch c node' id w) ∧
  ∃ new', snapshots c' !! hash node = Some new' ∧
    ∀ typ, GetResources new' typ = GetResources new typ ∧ snap_GetVersion new' typ = snap_GetVersion old typ.
Proof.
  intros Hc%reachable_inv Hg Hcons Hold Hnd Hty Heq. unfold mads_Reconcile, GetSnapshot.
  rewrite Hg, Hcons, Hold. unfold AutoVersion.
  pose proof (Version_fold proto_Equal uuid (Some old) (GetSupportedTypes new) new n Hnd ltac:(done)) as Hf.
  destruct (foldl _ _ _) as [new' n']. destruct Hf as (Ht & Hr & _ & Hno & Ha).
  assert (∀ typ, snap_GetVersion new' typ = snap_GetVersion old typ) as Hv.
  { intros typ. destruct (decide (typ ∈ GetSupportedTypes new)) as [Hin|Hin].
    - destruct (Heq typ Hin) as (Hnew & Hne & He).
      assert (reusable proto_Equal (Some old) new typ = Some (snap_GetVersion old typ)) as Hre.
      { unfold reusable. rewrite He. by destruct (String.eqb_spec (snap_GetVersion old typ) ""). }
      destruct (Ha typ Hin) as [[? _]|[[_ ?]|(_ & ? & _)]]; congruence.
    - rewrite !version_unsupported by congruence. done. }
  assert (∀ id w, open_watch c (hash node) id w → stale new' w = false) as Hst.
  { intros id w Ho. pose proof (inv_fresh c Hc _ _ _ _ Ho Hold) as Hs. unfold stale in *. by rewrite Hv. }
  split; [done|]. split; [|split].
  - rewrite SetSnapshot_sent. replace (node_watches c (hash node) ≫= _) with (@nil (nat * @Response R)); [by rewrite app_nil_r|].
    symmetry. apply bind_nil. intros [id w] Ho%elem_of_node_watches. unfold triggered. simpl.
    by rewrite (Hst _ _ Ho).
  - intros node' id w. rewrite SetSnapshot_open. split; [tauto|]. intros Ho. split; [done|].
    destruct (decide (node' = hash node)) as [->|]; [right; by eapply Hst|by left].
  - exists new'. split; [|by intros typ].
    destruct (SetSnapshot_fields c (hash node) new') as (_ & _ & ->). apply lookup_insert_eq.
Qed.
End Reconcile.

(** ** pkg/xds/server/reconcile.go *)

Section XdsReconcile.
Context {R : Type} (proto_Equal : R → R → bool) (uuid : nat → string).

(** The interface [snapshotCacher]. *)
Record snapshotCacher (St : Type) : Type := mkCacher {
  cacher_Get : St → Node → res (EnvoySnapshot R);
  cacher_Cache : St → Node → EnvoySnapshot R → res unit * St;
  cacher_Clear : St → Node → St;
}.
Arguments mkCacher {St} _ _ _.
Arguments cacher_Get {St} _.
Arguments cacher_Cache {St} _.
Arguments cacher_Clear {St} _.

(** The cacher the server uses: the snapshot cache of [go-control-plane], which
    is not part of the repository, under the hash of the node. *)
Definition simpleSnapshotCacher {St : Type} (hasher_ID : Node → string)
    (store_GetSnapshot : St → string → res (EnvoySnapshot R))
    (store_SetSnapshot : St → string → EnvoySnapshot R → res unit * St)
    (store_ClearSnapshot : St → string → St) : snapshotCacher St :=
  {| cacher_Get := λ st node, store_GetSnapshot st (hasher_ID node);
     cacher_Cache := λ st node snapshot, store_SetSnapshot st (hasher_ID node) snapshot;
     cacher_Clear := λ st node, store_ClearSnapshot st (hasher_ID node) |}.

Definition emptyResources : XdsResources R := mkResources "" ∅.
Definition emptySnapshot : EnvoySnapshot R :=
  mkEnvoySnapshot emptyResources emptyResources emptyResources emptyResources emptyResources.

Section Reconciler.
Context {St : Type} (cacher : snapshotCacher St).

Definition reconciler_Clear (st : St) (proxyId : ProxyId) : res unit * St :=
  cacher_Cache cacher st (mkNode (ProxyId_String proxyId) None) emptySnapshot.

(** [GenerateSnapshot] is what the generator returned for the proxy; an
    inconsistent snapshot and a failure to store it are only logged. *)
Definition xds_Reconcile (GenerateSnapshot : res (EnvoySnapshot R)) (st : St) (n : nat)
    (proxyId : ProxyId) : res unit * (St * nat) :=
  let node := mkNode (ProxyId_String proxyId) None in
  match GenerateSnapshot with
  | Ok snapshot =>
      let previous := match cacher_Get cacher st node with Ok s => s | _ => emptySnapshot end in
      let (snapshot', n') := reconciler_autoVersion proto_Equal uuid previous snapshot n in
      (Ok (), ((cacher_Cache cacher st node snapshot').2, n'))
  | Err e => (Err e, (st, n))
  | Panic => (Panic, (st, n))
  end.
End Reconciler.

(** The five kinds of resources of a snapshot. *)
Definition snapshot_fields : list (EnvoySnapshot R → XdsResources R) :=
  [Listeners; Routes; Clusters; Endpoints; Secrets].

Definition unchanged (old new : EnvoySnapshot R) (f : EnvoySnapshot R → XdsResources R) : bool :=
  equal proto_Equal (xr_Items (f new)) (xr_Items (f old)).

(** How many of the kinds changed. *)
Definition changes (old new : EnvoySnapshot R) (fs : list (EnvoySnapshot R → XdsResources R)) : nat :=
  length (List.filter (λ f, negb (unchanged old new f)) fs).

(** The versions of a reconciled snapshot: the resources are those that
    were generated; a kind whose resources are those of the previous snapshot
    keeps its version, and the kinds that changed get the next identifiers in
    order, one each.  When nothing changed, none is drawn. *)
Theorem reconciler_autoVersion_correct old new n :
  let '(s, n') := reconciler_autoVersion proto_Equal uuid old new n in
  n' = (n + changes old new snapshot_fields)%nat ∧
  ∀ i f, snapshot_fields !! i = Some f →
    xr_Items (f s) = xr_Items (f new) ∧
    xr_Version (f s) = if unchanged old new f then xr_Version (f old)
                       else uuid (n + changes old new (take i snapshot_fields)).
Proof.
  unfold reconciler_autoVersion, changes.
  assert (∀ f m, reuseVersion proto_Equal uuid (f old) (f new) m =
    (mkResources (if unchanged old new f then xr_Version (f old) else uuid m) (xr_Items (f new)),
     (m + if unchanged old new f then 0 else 1)%nat)) as Hr.
  { intros f m. unfold reuseVersion, unchanged. destruct (equal _ _ _); simpl; f_equal; lia. }
  rewrite !Hr. unfold snapshot_fields. cbn [List.filter]. split.
  - destruct (unchanged old new Listeners), (unchanged old new Routes), (unchanged old new Clusters),
      (unchanged old new Endpoints), (unchanged old new Secrets); simpl; lia.
  - intros i f Hi.
    destruct i as [|[|[|[|[|i]]]]]; simpl in Hi; simplify_eq; simpl; (split; [done|]);
      destruct (unchanged old new Listeners), (unchanged old new Routes), (unchanged old new Clusters),
        (unchanged old new Endpoints), (unchanged old new Secrets); simpl; f_equal; lia.
Qed.
End XdsReconcile.

(** ** A concrete cache *)

Definition sample_uuid (n : nat) : string := "v" +:+ itoa (Z.of_nat n).
Definition sample_node : option Node := Some (mkNode "default.dp-1" None).
Definition sample_snapshot (version : string) : MadsSnapshot string :=
  NewSnapshot version {[ "/meshes/default/dataplanes/dp-1" := "targets" ]}.

(** One snapshot and one watch open at its version. *)
Definition sample_snapshots : @snapshotCache (MadsSnapshot string) string :=
  (CreateWatch hasher_ID 0
     (SetSnapshot (NewSnapshotCache false) "default.dp-1" (sample_snapshot "v0"))
     (mkRequest sample_node MonitoringAssignmentType [] "v0" "" None)).1.1.

Lemma sample_snapshots_reachable :
  rtc (cache_step hasher_ID) (NewSnapshotCache false) sample_snapshots.
Proof. eapply rtc_l; [apply step_Set|]. apply rtc_once, step_Watch. Qed.

Lemma snapshot_cache_safe_witness :
  ∃ w, open_watch sample_snapshots "default.dp-1" 1 w ∧ req_VersionInfo (w_Request w) = "v0".
Proof.
  assert (open_watch sample_snapshots "default.dp-1" 1
    (mkWatch (mkRequest sample_node MonitoringAssignmentType [] "v0" "" None) 0)) as Ho
    by (eexists; split; vm_compute; reflexivity).
  eexists. split; [exact Ho|].
  exact (proj2 (proj2 (snapshot_cache_safe hasher_ID false sample_snapshots sample_snapshots_reachable)
    _ _ _ Ho) (sample_snapshot "v0") ltac:(vm_compute; reflexivity)).
Defined.

Lemma AutoVersion_correct_witness :
  ∃ new' n', AutoVersion String.eqb sample_uuid (Some (sample_snapshot "")) None 7 = (Some new', n')
  ∧ GetSupportedTypes new' = [MonitoringAssignmentType].
Proof.
  destruct (AutoVersion_correct String.eqb sample_uuid None (sample_snapshot "") 7) as (s & n & He & Ht & _).
  - apply NoDup_singleton.
  - exists s, n. split; [exact He|exact Ht].
Defined.

Lemma mads_Reconcile_stable_witness :
  (mads_Reconcile String.eqb sample_uuid hasher_ID (λ _, Ok (sample_snapshot "")) sample_snapshots 7
     sample_node).1 = Ok ()
  ∧ sent (mads_Reconcile String.eqb sample_uuid hasher_ID (λ _, Ok (sample_snapshot ""))
            sample_snapshots 7 sample_node).2.1 = [].
Proof.
  pose proof (mads_Reconcile_stable String.eqb sample_uuid hasher_ID false sample_snapshots 7 sample_node
    (λ _, Ok (sample_snapshot "")) (sample_snapshot "") (sample_snapshot "v0")
    sample_snapshots_reachable eq_refl eq_refl ltac:(vm_compute; reflexivity)
    (NoDup_singleton _) eq_refl) as Hw.
  destruct (mads_Reconcile _ _ _ _ _ _ _) as [e [c' n']]. destruct Hw as (He & Hs & _).
  - intros typ Ht. apply list_elem_of_singleton in Ht as ->. split; [reflexivity|].
    split; [discriminate|vm_compute; reflexivity].
  - simpl. split; [exact He|]. rewrite Hs. vm_compute. reflexivity.
Defined.
