(* ===== verification/StatusTracker.v ===== *)
(** * Tracking the status of connected dataplanes

    Models [pkg/xds/server/dataplane_status_tracker.go],
    [pkg/xds/server/dataplane_status_sink.go] and
    [pkg/xds/server/dataplane_metadata_tracker.go].

    The xDS server calls the tracker back for every stream; the tracker keeps a
    subscription per stream and, once it knows which dataplane is behind it,
    starts a goroutine (a sink) that saves the subscription periodically and a
    last time when the stream is closed.  A sink keeps a pointer to the state of
    its stream, which outlives the entry of the stream in the map: the states are
    a heap, the map holds pointers into it.  Callbacks hold the locks of what
    they change, so they are atomic steps, interleaved with the steps of the
    sinks; a flush (read the status, save it) is one step of its sink. *)

From S2P Require Import Prelude GoStd Dataplane MeshResources Validators Insights Resources.
From S2P Require Import Store MemoryStore Manager CoreXds SnapshotCache.
Local Open Scope Z_scope.

(** ** Counters *)

(** What is counted: a response sent, acknowledged or rejected, by type. *)
Inductive xds_event : Type :=
| EvSent (typeUrl : string)
| EvAcknowledged (typeUrl : string)
| EvRejected (typeUrl : string).

Definition event_type (e : xds_event) : string :=
  match e with EvSent t | EvAcknowledged t | EvRejected t => t end.

Definition count_event (e : xds_event) (s : DiscoveryServiceStats) : DiscoveryServiceStats :=
  match e with
  | EvSent _ => mkStats (wrap64 (ResponsesSent s + 1)) (ResponsesAcknowledged s) (ResponsesRejected s)
  | EvAcknowledged _ =>
      mkStats (ResponsesSent s) (wrap64 (ResponsesAcknowledged s + 1)) (ResponsesRejected s)
  | EvRejected _ =>
      mkStats (ResponsesSent s) (ResponsesAcknowledged s) (wrap64 (ResponsesRejected s + 1))
  end.

(** [Status.LastUpdateTime = ...; Status.Total.X++; Status.StatsOf(typ).X++]. *)
Definition apply_event (now : Timestamp) (e : xds_event) (status : option DiscoverySubscriptionStatus)
  : res DiscoverySubscriptionStatus :=
  match status with
  | None => Panic
  | Some st =>
      match Total st with
      | None => Panic
      | Some total =>
          Ok (StatsOf_modify (count_event e)
                (mkStatus (Some now) (Some (count_event e total)) (Cds st) (Eds st) (Lds st) (Rds st))
                (event_type e))
      end
  end.

Definition update_status (now : Timestamp) (e : xds_event) (s : DiscoverySubscription)
  : res DiscoverySubscription :=
  let? st := apply_event now e (sub_Status s) in
  Ok (mkSubscription (sub_Id s) (sub_ControlPlaneInstanceId s) (sub_ConnectTime s)
        (sub_DisconnectTime s) (Some st)).

(** ** dataplane_status_tracker.go *)

Record streamState : Type := mkStream {
  stopped : bool;                       (* the channel [stop] is closed *)
  ss_dataplaneId : ResourceKey;
  ss_subscription : DiscoverySubscription;
}.

(** A goroutine running [dataplaneInsightSink.Start]. *)
Record sink : Type := mkSink {
  sink_state : nat;                     (* the stream it reads, a pointer *)
  lastStoredState : option DiscoverySubscription;
  sink_done : bool;
}.

Record statusTracker : Type := mkTracker {
  tr_states : list streamState;         (* all states ever allocated *)
  tr_streams : gmap Z nat;              (* the open streams *)
  tr_sinks : list sink;                 (* all sinks ever started *)
}.

Definition NewDataplaneStatusTracker : statusTracker := mkTracker [] ∅ [].

Definition emptyKey : ResourceKey := mkKey "" "".

Section Tracker.
(** [ptypes.TimestampProto] and the identity of the control plane. *)
Context (ptypes_TimestampProto : Z → option Timestamp) (GetInstanceId : string).

Definition MustTimestampProto (t : Z) : res Timestamp :=
  match ptypes_TimestampProto t with Some ts => Ok ts | None => Panic end.

(** The result of a callback is the new tracker; they all return a nil error. *)
Definition OnStreamOpen (now : Z) (newUUID : string) (c : statusTracker) (streamID : Z)
  : res statusTracker :=
  let? ts := MustTimestampProto now in
  let subscription := mkSubscription newUUID GetInstanceId (Some ts) None (Some NewSubscriptionStatus) in
  let state := mkStream false emptyKey subscription in
  Ok (mkTracker (tr_states c ++ [state]) (<[streamID := length (tr_states c)]> (tr_streams c))
        (tr_sinks c)).

(** [state := c.streams[streamID]], a nil pointer for an unknown stream. *)
Definition stream_state (c : statusTracker) (streamID : Z) : res (nat * streamState) :=
  match tr_streams c !! streamID with
  | None => Panic
  | Some p => match tr_states c !! p with Some s => Ok (p, s) | None => Panic end
  end.

Definition OnStreamClosed (now : Z) (c : statusTracker) (streamID : Z) : res statusTracker :=
  let? (p, state) := stream_state c streamID in
  let? ts := MustTimestampProto now in
  let s := ss_subscription state in
  let subscription := mkSubscription (sub_Id s) (sub_ControlPlaneInstanceId s) (sub_ConnectTime s)
                        (Some ts) (sub_Status s) in
  if stopped state then Panic (* close of a closed channel *)
  else Ok (mkTracker (<[p := mkStream true (ss_dataplaneId state) subscription]> (tr_states c))
             (delete streamID (tr_streams c)) (tr_sinks c)).

Definition OnStreamRequest (now : Z) (c : statusTracker) (streamID : Z) (req : DiscoveryRequest)
  : res statusTracker :=
  let? (p, state) := stream_state c streamID in
  let (dataplaneId, started) :=
    if bool_decide (ss_dataplaneId state = emptyKey) then
      match ParseProxyId (req_Node req) with
      | Ok id => (mkKey (pid_Mesh id) (pid_Name id), [mkSink p None false])
      | _ => (ss_dataplaneId state, [])
      end
    else (ss_dataplaneId state, []) in
  let? subscription :=
    if negb (String.eqb (req_ResponseNonce req) "") then
      let? ts := MustTimestampProto now in
      update_status ts (match req_ErrorDetail req with
                        | Some _ => EvRejected (req_TypeUrl req)
                        | None => EvAcknowledged (req_TypeUrl req)
                        end) (ss_subscription state)
    else Ok (ss_subscription state) in
  Ok (mkTracker (<[p := mkStream (stopped state) dataplaneId subscription]> (tr_states c))
        (tr_streams c) (tr_sinks c ++ started)).

Definition OnStreamResponse (now : Z) (c : statusTracker) (streamID : Z) (respTypeUrl : string)
  : res statusTracker :=
  let? (p, state) := stream_state c streamID in
  let? ts := MustTimestampProto now in
  let? subscription := update_status ts (EvSent respTypeUrl) (ss_subscription state) in
  Ok (mkTracker (<[p := mkStream (stopped state) (ss_dataplaneId state) subscription]> (tr_states c))
        (tr_streams c) (tr_sinks c)).

(** A pointer to the state, nil for an unknown stream. *)
Definition GetStatusAccessor (c : statusTracker) (streamID : Z) : option nat * bool :=
  (tr_streams c !! streamID, bool_decide (is_Some (tr_streams c !! streamID))).

Definition GetStatus (s : streamState) : ResourceKey * DiscoverySubscription :=
  (ss_dataplaneId s, ss_subscription s).
End Tracker.

(** ** dataplane_status_sink.go *)

Section Sink.
Context {St : Type} (resManager : ResourceManager St).

(** [dataplaneInsight.Spec.UpdateSubscription(subscription)]. *)
Definition update_insight (o : Object) (subscription : DiscoverySubscription) : Object :=
  match o_Spec o with
  | DataplaneInsightSpec ds =>
      mkObject (o_Meta o) (DataplaneInsightSpec (UpdateSubscription ds subscription))
  | _ => o
  end.

Definition Upsert (now : Z) (s : St) (dataplaneId : ResourceKey) (subscription : DiscoverySubscription)
  : res unit * St :=
  let '(err, (s1, o)) :=
    mgr_Get (read_only resManager) s (new_object KDataplaneInsight) [GetBy dataplaneId] in
  match err with
  | Ok _ =>
      let '(err', (s2, _)) := mgr_Update resManager now s1 (update_insight o subscription) [] in (err', s2)
  | Err e =>
      if IsResourceNotFound e then
        let '(err', (s2, _)) := mgr_Create resManager now s1 (update_insight o subscription)
                                  [CreateBy dataplaneId] in (err', s2)
      else (Err e, s1)
  | Panic => (Panic, s1)
  end.

(** [flush]: the sink and the store after it. *)
Definition flush (now : Z) (state : streamState) (k : sink) (s : St) : res (sink * St) :=
  let (dataplaneId, currentState) := GetStatus state in
  if bool_decide (Some currentState = lastStoredState k) then Ok (k, s)
  else match Upsert now s dataplaneId currentState with
       | (Ok _, s') => Ok (mkSink (sink_state k) (Some currentState) (sink_done k), s')
       | (Err _, s') => Ok (k, s')
       | (Panic, _) => Panic
       end.

(** The [stop] branch of the loop: a last flush, then the goroutine ends. *)
Definition finish (k : sink) : sink := mkSink (sink_state k) (lastStoredState k) true.
End Sink.

(** ** dataplane_metadata_tracker.go *)

Definition Metadata (d : gmap Z DataplaneMetadata) (streamId : Z) : DataplaneMetadata :=
  default (mkDataplaneMetadata "" 0) (d !! streamId).
Definition Metadata_OnStreamClosed (d : gmap Z DataplaneMetadata) (stream : Z)
  : gmap Z DataplaneMetadata := delete stream d.
Definition Metadata_OnStreamRequest (d : gmap Z DataplaneMetadata) (stream : Z) (req : DiscoveryRequest)
  : gmap Z DataplaneMetadata :=
  match req_Node req with
  | None => d
  | Some node => <[stream := DataplaneMetadataFromNode node]> d
  end.

(** The requests of a stream: the metadata is that of the last request that
    carried a node, as later requests may leave it out. *)
Lemma Metadata_last d stream reqs :
  Metadata (foldl (λ d req, Metadata_OnStreamRequest d stream req) d reqs) stream
  = match last (omap req_Node reqs) with
    | Some node => DataplaneMetadataFromNode node
    | None => Metadata d stream
    end.
Proof.
  induction reqs as [|req reqs IH] using rev_ind; [done|].
  rewrite foldl_snoc, omap_app. simpl. unfold Metadata_OnStreamRequest at 1.
  destruct (req_Node req) as [node|]; simpl.
  - rewrite last_snoc. unfold Metadata. by rewrite lookup_insert_eq.
  - by rewrite app_nil_r.
Qed.

Lemma Metadata_other d stream stream' req :
  stream' ≠ stream → Metadata (Metadata_OnStreamRequest d stream req) stream' = Metadata d stream'.
Proof.
  intros Hne. unfold Metadata_OnStreamRequest, Metadata. destruct (req_Node req); [|done].
  by rewrite lookup_insert_ne.
Qed.

(** ** Counting *)

(** How many of the events are of the kind of [e] (and of type [t], when one
    is given). *)
Definition same_kind (e e' : xds_event) : bool :=
  match e, e' with
  | EvSent _, EvSent _ | EvAcknowledged _, EvAcknowledged _ | EvRejected _, EvRejected _ => true
  | _, _ => false
  end.

Definition counted (p : string → bool) (events : list xds_event) : DiscoveryServiceStats :=
  let n e := wrap64 (Z.of_nat (length (List.filter (λ e', same_kind e e' && p (event_type e')) events))) in
  mkStats (n (EvSent "")) (n (EvAcknowledged "")) (n (EvRejected "")).

Definition stats_of (st : DiscoverySubscriptionStatus) (t : string) : option DiscoveryServiceStats :=
  if String.eqb t ClusterType then Cds st
  else if String.eqb t EndpointType then Eds st
  else if String.eqb t ListenerType then Lds st
  else if String.eqb t RouteType then Rds st
  else None.

Definition known_types : list string := [ClusterType; EndpointType; ListenerType; RouteType].

(** All five counters are there. *)
Definition status_wf (st : DiscoverySubscriptionStatus) : Prop :=
  is_Some (Total st) ∧ ∀ t, t ∈ known_types → is_Some (stats_of st t).

Lemma wrap64_succ z : wrap64 (wrap64 z + 1) = wrap64 (z + 1).
Proof. unfold wrap64. by rewrite Zplus_mod_idemp_l. Qed.

Lemma counted_snoc p events e :
  counted p (events ++ [e]) = if p (event_type e) then count_event e (counted p events) else counted p events.
Proof.
  unfold counted. destruct e as [t|t|t]; simpl; rewrite !List.filter_app, !length_app; simpl;
    destruct (p t); simpl; rewrite ?Nat.add_0_r; try done;
    f_equal; rewrite wrap64_succ; f_equal; lia.
Qed.

Lemma StatsOf_modify_stats f st typ t :
  t ∈ known_types →
  stats_of (StatsOf_modify f st typ) t
  = if String.eqb typ t then Some (f (default emptyStats (stats_of st t))) else stats_of st t.
Proof.
  unfold known_types. rewrite !elem_of_cons. intros Ht. unfold StatsOf_modify.
  destruct (String.eqb_spec typ ClusterType) as [->|];
    [destruct Ht as [->|[->|[->|[->|[]%not_elem_of_nil]]]]; reflexivity|].
  destruct (String.eqb_spec typ EndpointType) as [->|];
    [destruct Ht as [->|[->|[->|[->|[]%not_elem_of_nil]]]]; reflexivity|].
  destruct (String.eqb_spec typ ListenerType) as [->|];
    [destruct Ht as [->|[->|[->|[->|[]%not_elem_of_nil]]]]; reflexivity|].
  destruct (String.eqb_spec typ RouteType) as [->|];
    [destruct Ht as [->|[->|[->|[->|[]%not_elem_of_nil]]]]; reflexivity|].
  destruct (String.eqb_spec typ t) as [->|]; [|done].
  by destruct Ht as [->|[->|[->|[->|[]%not_elem_of_nil]]]].
Qed.

Lemma StatsOf_modify_Total f st typ : Total (StatsOf_modify f st typ) = Total st.
Proof. unfold StatsOf_modify. repeat destruct (String.eqb _ _); done. Qed.

Lemma apply_event_wf now e st :
  status_wf st → ∃ st', apply_event now e (Some st) = Ok st' ∧ status_wf st'
    ∧ Total st' = count_event e <$> Total st
    ∧ ∀ t, t ∈ known_types → stats_of st' t
        = if String.eqb (event_type e) t then count_event e <$> stats_of st t else stats_of st t.
Proof.
  intros [[total Ht] Hk]. unfold apply_event. rewrite Ht. eexists. split; [done|].
  assert (∀ t, t ∈ known_types → stats_of (StatsOf_modify (count_event e)
    (mkStatus (Some now) (Some (count_event e total)) (Cds st) (Eds st) (Lds st) (Rds st)) (event_type e)) t
    = if String.eqb (event_type e) t then count_event e <$> stats_of st t else stats_of st t) as Hs.
  { intros t Hin. rewrite StatsOf_modify_stats by done.
    change (stats_of (mkStatus _ _ _ _ _ _) t) with (stats_of st t).
    destruct (String.eqb _ t); [|done]. by destruct (Hk t Hin) as [s ->]. }
  split; [|split; [by rewrite StatsOf_modify_Total|done]].
  split; [by rewrite StatsOf_modify_Total|]. intros t Hin. rewrite Hs by done.
  destruct (Hk t Hin) as [s ->]. by destruct (String.eqb _ t).
Qed.

(** The status after a sequence of events. *)
Fixpoint run_events (st : DiscoverySubscriptionStatus) (events : list (Timestamp * xds_event))
  : res DiscoverySubscriptionStatus :=
  match events with
  | [] => Ok st
  | (now, e) :: rest => let? st' := apply_event now e (Some st) in run_events st' rest
  end.

(** The counters of a subscription count what happened on its stream: from
    the status a stream starts with, any sequence of responses sent,
    acknowledged and rejected leaves as total the number of each, and per known
    resource type the number of each of that type, modulo [2 ^ 64].  Nothing
    panics. *)
Theorem run_events_counts events :
  ∃ st, run_events NewSubscriptionStatus events = Ok st
  ∧ Total st = Some (counted (λ _, true) events.*2)
  ∧ ∀ t, t ∈ known_types → stats_of st t = Some (counted (String.eqb t) events.*2).
Proof.
  assert (∀ done st rest, status_wf st → Total st = Some (counted (λ _, true) done) →
    (∀ t, t ∈ known_types → stats_of st t = Some (counted (String.eqb t) done)) →
    ∃ st', run_events st rest = Ok st' ∧ Total st' = Some (counted (λ _, true) (done ++ rest.*2))
      ∧ ∀ t, t ∈ known_types → stats_of st' t = Some (counted (String.eqb t) (done ++ rest.*2))) as Hrun.
  { intros done st rest. revert done st. induction rest as [|[now e] rest IH]; intros done st Hwf Ht Hk;
      cbn [run_events].
    { simpl. rewrite app_nil_r. eauto. }
    destruct (apply_event_wf now e st Hwf) as (st' & -> & Hwf' & Ht' & Hk'). cbn [rbind].
    rewrite fmap_cons, cons_middle, app_assoc. apply IH; [done| |].
    - by rewrite Ht', Ht, counted_snoc.
    - intros t Hin. rewrite Hk', counted_snoc, Hk, String.eqb_sym by done. by destruct (String.eqb t _). }
  apply (Hrun []).
  - split; [by eexists|]. intros t Hin. unfold known_types in Hin. rewrite !elem_of_cons in Hin.
    destruct Hin as [->|[->|[->|[->|[]%not_elem_of_nil]]]]; by eexists.
  - done.
  - intros t Hin. unfold known_types in Hin. rewrite !elem_of_cons in Hin.
    by destruct Hin as [->|[->|[->|[->|[]%not_elem_of_nil]]]].
Qed.

(** ** The tracker and its sinks as a system *)

Section System.
Context {St : Type} (resManager : ResourceManager St).
Context (ptypes_TimestampProto : Z → option Timestamp) (GetInstanceId : string).

(** The callbacks of a stream come in the order the xDS server documents: it is
    opened once under a new identifier, requests and responses follow, and it is
    closed once.  Sinks take their steps in between. *)
Inductive tracker_step : statusTracker * St → statusTracker * St → Prop :=
| t_Open now uuid c s id c' :
    tr_streams c !! id = None →
    OnStreamOpen ptypes_TimestampProto GetInstanceId now uuid c id = Ok c' → tracker_step (c, s) (c', s)
| t_Closed now c s id c' :
    is_Some (tr_streams c !! id) →
    OnStreamClosed ptypes_TimestampProto now c id = Ok c' → tracker_step (c, s) (c', s)
| t_Request now c s id req c' :
    is_Some (tr_streams c !! id) →
    OnStreamRequest ptypes_TimestampProto now c id req = Ok c' → tracker_step (c, s) (c', s)
| t_Response now c s id typ c' :
    is_Some (tr_streams c !! id) →
    OnStreamResponse ptypes_TimestampProto now c id typ = Ok c' → tracker_step (c, s) (c', s)
| t_Tick now c s i k st k' s' :
    tr_sinks c !! i = Some k → sink_done k = false → tr_states c !! sink_state k = Some st →
    flush resManager now st k s = Ok (k', s') →
    tracker_step (c, s) (mkTracker (tr_states c) (tr_streams c) (<[i := k']> (tr_sinks c)), s')
| t_Stop now c s i k st k' s' :
    tr_sinks c !! i = Some k → sink_done k = false → tr_states c !! sink_state k = Some st →
    stopped st = true → flush resManager now st k s = Ok (k', s') →
    tracker_step (c, s)
      (mkTracker (tr_states c) (tr_streams c) (<[i := finish k']> (tr_sinks c)), s').

(** The shape of the state of a stream. *)
Definition stream_ok (st : streamState) : Prop :=
  (∃ status, sub_Status (ss_subscription st) = Some status ∧ status_wf status)
  ∧ (stopped st = false ↔ sub_DisconnectTime (ss_subscription st) = None).

Record tracker_inv (c : statusTracker) : Prop := mkTrackerInv {
  tinv_ok : ∀ p st, tr_states c !! p = Some st → stream_ok st;
  tinv_open : ∀ p st, tr_states c !! p = Some st →
    (stopped st = false ↔ ∃ id, tr_streams c !! id = Some p);
  tinv_valid : ∀ id p, tr_streams c !! id = Some p → is_Some (tr_states c !! p);
  tinv_inj : ∀ id id' p, tr_streams c !! id = Some p → tr_streams c !! id' = Some p → id = id';
  tinv_sinks : ∀ p, (p ∈ sink_state <$> tr_sinks c) ↔
    ∃ st, tr_states c !! p = Some st ∧ ss_dataplaneId st ≠ emptyKey;
  tinv_once : NoDup (sink_state <$> tr_sinks c);
  tinv_done : ∀ k st, k ∈ tr_sinks c → sink_done k = true → tr_states c !! sink_state k = Some st →
    stopped st = true;
}.

Lemma ParseProxyId_nonempty node id :
  ParseProxyId node = Ok id → mkKey (pid_Mesh id) (pid_Name id) ≠ emptyKey.
Proof.
  unfold ParseProxyId, ParseProxyIdFromString. destruct node as [n|]; [|done].
  destruct (split2 _ _) as [|mesh rest]; [done|]. destruct (String.eqb_spec mesh "") as [|Hm]; [done|].
  destruct rest as [|name rest]; [done|]. destruct (String.eqb _ _); [done|].
  intros [= <-]. unfold emptyKey. simpl. congruence.
Qed.

Lemma update_status_ok now e st sub :
  stream_ok st → update_status now e (ss_subscription st) = Ok sub →
  ∀ id, stream_ok (mkStream (stopped st) id sub).
Proof.
  intros [(status & Hs & Hwf) Hd]. unfold update_status. rewrite Hs.
  destruct (apply_event_wf now e status Hwf) as (st' & -> & Hwf' & _). simpl.
  intros [= <-] id. split; [by exists st'|done].
Qed.

Lemma flush_sink now st k s k' s' :
  flush resManager now st k s = Ok (k', s') →
  sink_state k' = sink_state k ∧ sink_done k' = sink_done k
  ∧ (lastStoredState k' = lastStoredState k ∨ lastStoredState k' = Some (ss_subscription st)).
Proof.
  unfold flush, GetStatus. case_bool_decide; [intros [= <- <-]; auto|].
  destruct (Upsert _ _ _ _ _) as [[|e|] s1]; intros [= <- <-]; simpl; auto.
Qed.

(** Replacing the state of a stream by one that is as open as it was. *)
Lemma update_inv c p st st' sinks :
  tracker_inv c → tr_states c !! p = Some st → stream_ok st' → stopped st' = stopped st →
  (ss_dataplaneId st' = ss_dataplaneId st ∧ sinks = []
   ∨ ss_dataplaneId st = emptyKey ∧ ss_dataplaneId st' ≠ emptyKey ∧ sinks = [mkSink p None false]) →
  tracker_inv (mkTracker (<[p := st']> (tr_states c)) (tr_streams c) (tr_sinks c ++ sinks)).
Proof.
  intros Hc Hp Hok Hst Hid.
  assert (p < length (tr_states c))%nat as Hlt by (by eapply lookup_lt_Some).
  assert (∀ q, <[p := st']> (tr_states c) !! q = if decide (q = p) then Some st' else tr_states c !! q) as Hl.
  { intros q. case_decide; subst; [by apply list_lookup_insert_eq|by apply list_lookup_insert_ne]. }
  constructor; simpl.
  - intros q st1. rewrite Hl. case_decide; [by intros [= <-]|apply (tinv_ok c Hc)].
  - intros q st1. rewrite Hl. case_decide; [|apply (tinv_open c Hc)]. intros [= <-]. subst.
    rewrite Hst. by apply (tinv_open c Hc).
  - intros id q Hq. rewrite Hl. case_decide; [eauto|by eapply (tinv_valid c Hc)].
  - apply (tinv_inj c Hc).
  - intros q. rewrite fmap_app, elem_of_app, (tinv_sinks c Hc). rewrite Hl.
    destruct (decide (q = p)) as [->|Hne].
    + rewrite Hp. destruct Hid as [[Hid ->]|(He & Hid & ->)]; simpl.
      * rewrite elem_of_nil. split.
        -- intros [(? & [= <-] & ?)|[]]. exists st'. by rewrite Hid.
        -- intros (? & [= <-] & ?). left. exists st. by rewrite <- Hid.
      * rewrite list_elem_of_singleton. split; [eauto|by right].
    + destruct Hid as [[_ ->]|(_ & _ & ->)]; simpl;
        rewrite ?elem_of_nil, ?list_elem_of_singleton; tauto.
  - rewrite fmap_app. destruct Hid as [[_ ->]|(He & Hid & ->)]; simpl.
    { rewrite app_nil_r. apply (tinv_once c Hc). }
    apply NoDup_app. split; [apply (tinv_once c Hc)|]. split; [|apply NoDup_singleton].
    intros q Hq ->%list_elem_of_singleton. apply (tinv_sinks c Hc) in Hq as (st1 & Hq & Hne). congruence.
  - intros k st1 [Hk|Hk]%elem_of_app Hd.
    + rewrite Hl. case_decide as Heq; [|by apply (tinv_done c Hc)]. intros [= <-]. rewrite Hst.
      apply (tinv_done c Hc k); [done|done|congruence].
    + destruct Hid as [[_ ->]|(_ & _ & ->)]; [by apply not_elem_of_nil in Hk|].
      by apply list_elem_of_singleton in Hk as ->.
Qed.

Lemma stream_state_Ok c id p st :
  stream_state c id = Ok (p, st) ↔ tr_streams c !! id = Some p ∧ tr_states c !! p = Some st.
Proof.
  unfold stream_state. destruct (tr_streams c !! id) as [q|] eqn:E; [|naive_solver].
  destruct (tr_states c !! q) eqn:E'; naive_solver.
Qed.

Lemma OnStreamOpen_inv now uuid c id c' :
  tracker_inv c → tr_streams c !! id = None →
  OnStreamOpen ptypes_TimestampProto GetInstanceId now uuid c id = Ok c' → tracker_inv c'.
Proof.
  intros Hc Hid. unfold OnStreamOpen. rewrite rbind_Ok. intros (ts & _ & [= <-]).
  set (n := length (tr_states c)). set (new := mkStream _ _ _).
  assert (∀ q st, (tr_states c ++ [new]) !! q = Some st ↔
    tr_states c !! q = Some st ∨ (q = n ∧ st = new)) as Hl.
  { intros q st. rewrite lookup_snoc_Some. fold n. split; [naive_solver|].
    intros [Hq|[-> ->]]; [|naive_solver]. left. split; [by eapply lookup_lt_Some|done]. }
  assert (∀ id' q, tr_streams c !! id' = Some q → q ≠ n) as Hn.
  { intros id' q [st Hst]%(tinv_valid c Hc) ->. apply lookup_lt_Some in Hst. lia. }
  constructor; simpl.
  - intros q st [?|[-> ->]]%Hl; [by eapply (tinv_ok c Hc)|]. split; [|done].
    eexists. split; [done|]. split; [by eexists|]. intros t Hin. unfold known_types in Hin.
    rewrite !elem_of_cons in Hin. destruct Hin as [->|[->|[->|[->|[]%not_elem_of_nil]]]]; by eexists.
  - intros q st [Hq|[-> ->]]%Hl.
    + rewrite (tinv_open c Hc q st Hq). setoid_rewrite lookup_insert_Some. split.
      * intros (id' & Hid'). exists id'. right. split; [congruence|done].
      * intros (id' & [[<- <-]|[_ ?]]); [|eauto]. apply lookup_lt_Some in Hq. fold n in Hq. lia.
    + split; [|done]. intros _. exists id. by rewrite lookup_insert_eq.
  - intros id' q. rewrite lookup_insert_Some. intros [[<- <-]|[_ Hq]].
    + exists new. apply Hl. by right.
    + destruct (tinv_valid c Hc _ _ Hq) as [st Hst]. exists st. apply Hl. by left.
  - intros id1 id2 q. rewrite !lookup_insert_Some.
    intros [[<- <-]|[_ H1]] [[<- ?]|[_ H2]]; subst; [done|by apply Hn in H2|by apply Hn in H1|].
    by apply (tinv_inj c Hc _ _ q).
  - intros q. rewrite (tinv_sinks c Hc). setoid_rewrite Hl. split; [naive_solver|].
    intros (st & [?|[-> ->]] & Hne); [eauto|done].
  - apply (tinv_once c Hc).
  - intros k st Hk Hd [?|[Hq ->]]%Hl; [by eapply (tinv_done c Hc)|].
    assert (sink_state k ∈ sink_state <$> tr_sinks c) as Hin by (apply list_elem_of_fmap; eauto).
    apply (tinv_sinks c Hc) in Hin as (st & Hst & _). apply lookup_lt_Some in Hst. fold n in Hst. lia.
Qed.

Lemma OnStreamClosed_inv now c id c' :
  tracker_inv c → OnStreamClosed ptypes_TimestampProto now c id = Ok c' → tracker_inv c'.
Proof.
  intros Hc. unfold OnStreamClosed. rewrite rbind_Ok. intros ([p st] & [Hid Hp]%stream_state_Ok & H).
  apply rbind_Ok in H as (ts & _ & H). destruct (stopped st) eqn:Hst; [done|].
  injection H as <-. set (st' := mkStream _ _ _).
  assert (p < length (tr_states c))%nat as Hlt by (by eapply lookup_lt_Some).
  assert (∀ q, <[p := st']> (tr_states c) !! q = if decide (q = p) then Some st' else tr_states c !! q) as Hl.
  { intros q. case_decide; subst; [by apply list_lookup_insert_eq|by apply list_lookup_insert_ne]. }
  constructor; simpl.
  - intros q st1. rewrite Hl. case_decide; [|apply (tinv_ok c Hc)]. intros [= <-].
    split; [|done]. apply (tinv_ok c Hc p st Hp).
  - intros q st1. rewrite Hl. setoid_rewrite lookup_delete_Some. case_decide as Heq.
    + intros [= <-]. subst q. split; [done|]. intros (id' & Hne & Hid').
      by rewrite (tinv_inj c Hc id id' p Hid Hid') in Hne.
    + intros Hq. rewrite (tinv_open c Hc q st1 Hq). split; [|naive_solver].
      intros (id' & Hid'). exists id'. split; [congruence|done].
  - intros id' q [_ Hq]%lookup_delete_Some. rewrite Hl. case_decide; [eauto|by eapply (tinv_valid c Hc)].
  - intros id1 id2 q [_ H1]%lookup_delete_Some [_ H2]%lookup_delete_Some. by apply (tinv_inj c Hc _ _ q).
  - intros q. rewrite (tinv_sinks c Hc), Hl. destruct (decide (q = p)) as [->|]; [|done].
    rewrite Hp. split; intros (? & [= <-] & Hne); by eexists.
  - apply (tinv_once c Hc).
  - intros k st1 Hk Hd. rewrite Hl. case_decide; [by intros [= <-]|by apply (tinv_done c Hc)].
Qed.

Lemma OnStreamRequest_inv now c id req c' :
  tracker_inv c → OnStreamRequest ptypes_TimestampProto now c id req = Ok c' → tracker_inv c'.
Proof.
  intros Hc. unfold OnStreamRequest. rewrite rbind_Ok. intros ([p st] & [Hid Hp]%stream_state_Ok & H).
  pose proof (tinv_ok c Hc p st Hp) as Hok.
  assert (∀ dpId sub, (if negb (String.eqb (req_ResponseNonce req) "") then
      let? ts := MustTimestampProto ptypes_TimestampProto now in
      update_status ts (match req_ErrorDetail req with Some _ => EvRejected (req_TypeUrl req)
                        | None => EvAcknowledged (req_TypeUrl req) end) (ss_subscription st)
    else Ok (ss_subscription st)) = Ok sub → stream_ok (mkStream (stopped st) dpId sub)) as Hsub.
  { intros dpId sub. destruct (negb _); [|by intros [= <-]].
    rewrite rbind_Ok. intros (ts & _ & Hu). by apply (update_status_ok _ _ _ _ Hok Hu). }
  revert H. case_bool_decide as He; [destruct (ParseProxyId (req_Node req)) as [pid|e|] eqn:Ep|];
    rewrite rbind_Ok; intros (sub & Hs & [= <-]); apply (update_inv c p st); auto.
  right. split; [done|]. split; [|done]. by apply (ParseProxyId_nonempty (req_Node req)).
Qed.

Lemma OnStreamResponse_inv now c id typ c' :
  tracker_inv c → OnStreamResponse ptypes_TimestampProto now c id typ = Ok c' → tracker_inv c'.
Proof.
  intros Hc. unfold OnStreamResponse. rewrite rbind_Ok. intros ([p st] & [Hid Hp]%stream_state_Ok & H).
  apply rbind_Ok in H as (ts & _ & H). apply rbind_Ok in H as (sub & Hu & [= <-]).
  pose proof (update_inv c p st (mkStream (stopped st) (ss_dataplaneId st) sub) []) as Hi.
  rewrite app_nil_r in Hi. apply Hi; auto. apply (update_status_ok _ _ _ _ (tinv_ok c Hc p st Hp) Hu).
Qed.

(** A sink that keeps its stream, and ends only when the stream is closed. *)
Lemma sink_step_inv c i k k' st :
  tracker_inv c → tr_sinks c !! i = Some k → sink_state k' = sink_state k →
  tr_states c !! sink_state k = Some st → (sink_done k' = true → stopped st = true) →
  tracker_inv (mkTracker (tr_states c) (tr_streams c) (<[i := k']> (tr_sinks c))).
Proof.
  intros Hc Hk Hs Hst Hd.
  assert (sink_state <$> <[i := k']> (tr_sinks c) = sink_state <$> tr_sinks c) as Heq.
  { rewrite list_fmap_insert, Hs. apply list_insert_id. by rewrite list_lookup_fmap, Hk. }
  destruct Hc as [H1 H2 H3 H4 H5 H6 H7]. constructor; simpl; rewrite ?Heq; auto.
  intros k1 st1 (j & Hj)%list_elem_of_lookup Hd1 Hst1. destruct (decide (i = j)) as [<-|Hne].
  - rewrite list_lookup_insert_eq in Hj by (by eapply lookup_lt_Some). injection Hj as <-.
    rewrite Hs in Hst1. rewrite Hst in Hst1. injection Hst1 as <-. auto.
  - rewrite list_lookup_insert_ne in Hj by done. apply (H7 k1); [by eapply list_elem_of_lookup_2|done|done].
Qed.

Lemma tracker_step_inv cs cs' : tracker_step cs cs' → tracker_inv cs.1 → tracker_inv cs'.1.
Proof.
  destruct 1 as [now uuid c s id c' Hid H|now c s id c' _ H|now c s id req c' _ H|now c s id typ c' _ H
    |now c s i k st k' s' Hk Hd Hst H|now c s i k st k' s' Hk Hd Hst Hstop H]; simpl; intros Hc.
  - by eapply OnStreamOpen_inv.
  - by eapply OnStreamClosed_inv.
  - by eapply OnStreamRequest_inv.
  - by eapply OnStreamResponse_inv.
  - apply flush_sink in H as (Hs & Hd' & _). eapply sink_step_inv; [done..|congruence].
  - apply flush_sink in H as (Hs & Hd' & _). by eapply sink_step_inv.
Qed.

Lemma new_tracker_inv : tracker_inv NewDataplaneStatusTracker.
Proof.
  constructor; simpl; try done.
  - intros p. split; [by intros ?%elem_of_nil|by intros (? & ? & _)].
  - apply NoDup_nil_2.
Qed.

Lemma tracker_reachable_inv c s s0 :
  rtc tracker_step (NewDataplaneStatusTracker, s0) (c, s) → tracker_inv c.
Proof.
  intros Hr. change c with (c, s).1. generalize dependent (c, s). clear c s. intros cs Hr.
  assert (tracker_inv (NewDataplaneStatusTracker, s0).1) as H0 by apply new_tracker_inv.
  revert H0. induction Hr as [|x y z Hxy _ IH]; [done|]. intros Hx. by eapply IH, tracker_step_inv.
Qed.

(** *** Callbacks on an open stream *)

Lemma update_status_total now e st :
  stream_ok st → ∃ sub, update_status now e (ss_subscription st) = Ok sub.
Proof.
  intros [(status & Hs & Hwf) _]. unfold update_status. rewrite Hs.
  destruct (apply_event_wf now e status Hwf) as (st' & -> & _). by eexists.
Qed.

(** The sinks of a stream. *)
Definition sinks_of (c : statusTracker) (p : nat) : list sink :=
  List.filter (λ k, Nat.eqb (sink_state k) p) (tr_sinks c).

Lemma sinks_of_once c p :
  NoDup (sink_state <$> tr_sinks c) →
  length (sinks_of c p) = if bool_decide (p ∈ sink_state <$> tr_sinks c) then 1%nat else 0%nat.
Proof.
  unfold sinks_of. induction (tr_sinks c) as [|k l IH]; simpl; [done|].
  intros [Hn Hd]%NoDup_cons. specialize (IH Hd).
  destruct (Nat.eqb_spec (sink_state k) p) as [<-|Hne]; simpl; rewrite IH.
  - rewrite bool_decide_false by done. rewrite bool_decide_true by constructor. done.
  - rewrite (bool_decide_ext (p ∈ sink_state k :: list_fmap _ _ sink_state l) (p ∈ sink_state <$> l));
      [done|]. rewrite elem_of_cons. naive_solver.
Qed.

(** The callbacks of an open stream return. *)
Lemma tracker_total c id p now ts :
  tracker_inv c → tr_streams c !! id = Some p → ptypes_TimestampProto now = Some ts →
  (∃ c', OnStreamClosed ptypes_TimestampProto now c id = Ok c' ∧ tr_streams c' = delete id (tr_streams c))
  ∧ (∀ req, ∃ c', OnStreamRequest ptypes_TimestampProto now c id req = Ok c' ∧ tr_streams c' = tr_streams c)
  ∧ (∀ typ, ∃ c', OnStreamResponse ptypes_TimestampProto now c id typ = Ok c' ∧ tr_streams c' = tr_streams c).
Proof.
  intros Hc Hid Hts.
  destruct (tinv_valid c Hc id p Hid) as [st Hp]. pose proof (tinv_ok c Hc p st Hp) as Hok.
  assert (stopped st = false) as Hst by (apply (tinv_open c Hc p st Hp); eauto).
  assert (stream_state c id = Ok (p, st)) as Hs by (by apply stream_state_Ok).
  assert (MustTimestampProto ptypes_TimestampProto now = Ok ts) as Hm
    by (unfold MustTimestampProto; by rewrite Hts).
  split; [|split].
  - unfold OnStreamClosed. rewrite Hs. cbn [rbind]. rewrite Hm. cbn [rbind]. rewrite Hst. by eexists.
  - intros req. unfold OnStreamRequest. rewrite Hs. cbn [rbind].
    destruct (if bool_decide _ then _ else _) as [dpId started]. rewrite Hm. cbn [rbind].
    destruct (negb _); [|by eexists]. set (e := match req_ErrorDetail req with Some _ => _ | None => _ end).
    destruct (update_status_total ts e st Hok) as [sub ->]. by eexists.
  - intros typ. unfold OnStreamResponse. rewrite Hs. cbn [rbind]. rewrite Hm. cbn [rbind].
    destruct (update_status_total ts (EvSent typ) st Hok) as [sub ->]. by eexists.
Qed.

(** The tracker is safe: after any interleaving of callbacks, in the order
    the xDS server makes them, with steps of the sinks, a request, a response or
    the end of an open stream never panics (the clock being in the range of a
    protobuf timestamp); the stream of an open identifier is not stopped and its
    subscription has no disconnect time; and a stream has exactly one sink when
    its dataplane is known, none before that. *)
Theorem tracker_safe s0 c s id p now ts :
  rtc tracker_step (NewDataplaneStatusTracker, s0) (c, s) →
  tr_streams c !! id = Some p → ptypes_TimestampProto now = Some ts →
  (∃ c', OnStreamClosed ptypes_TimestampProto now c id = Ok c' ∧ tr_streams c' !! id = None)
  ∧ (∀ req, ∃ c', OnStreamRequest ptypes_TimestampProto now c id req = Ok c')
  ∧ (∀ typ, ∃ c', OnStreamResponse ptypes_TimestampProto now c id typ = Ok c')
  ∧ ∃ st, tr_states c !! p = Some st ∧ stopped st = false
      ∧ sub_DisconnectTime (ss_subscription st) = None
      ∧ length (sinks_of c p) = if bool_decide (ss_dataplaneId st = emptyKey) then 0%nat else 1%nat.
Proof.
  intros Hc%tracker_reachable_inv Hid Hts.
  destruct (tracker_total c id p now ts Hc Hid Hts) as ((c' & Hcl & Hd) & Hrq & Hrs).
  split; [exists c'; rewrite Hd, lookup_delete_eq; done|]. split; [|split].
  - intros req. destruct (Hrq req) as (c1 & ? & _). eauto.
  - intros typ. destruct (Hrs typ) as (c1 & ? & _). eauto.
  - destruct (tinv_valid c Hc id p Hid) as [st Hp]. pose proof (tinv_ok c Hc p st Hp) as Hok.
    assert (stopped st = false) as Hst by (apply (tinv_open c Hc p st Hp); eauto).
    exists st. split; [done|]. split; [done|]. split; [by apply Hok|].
    rewrite sinks_of_once by apply (tinv_once c Hc).
    assert (p ∈ sink_state <$> tr_sinks c ↔ ss_dataplaneId st ≠ emptyKey) as Hin.
    { rewrite (tinv_sinks c Hc), Hp. naive_solver. }
    do 2 case_bool_decide; tauto.
Qed.

(** *** Closed streams *)

(** A callback reaches only the states of open streams. *)
Lemma stopped_unreachable c id p st q x :
  tracker_inv c → stream_state c id = Ok (p, st) → tr_states c !! q = Some x → stopped x = true → p ≠ q.
Proof.
  intros Hc [Hid Hp]%stream_state_Ok Hq Hx ->. rewrite Hp in Hq. injection Hq as ->.
  assert (stopped x = false) by (apply (tinv_open c Hc q x Hp); eauto). congruence.
Qed.

Lemma stopped_step cs cs' p st :
  tracker_step cs cs' → tracker_inv cs.1 → tr_states cs.1 !! p = Some st → stopped st = true →
  tr_states cs'.1 !! p = Some st.
Proof.
  destruct 1 as [now uuid c s id c' Hid H|now c s id c' _ H|now c s id req c' _ H|now c s id typ c' _ H
    |now c s i k st1 k' s' Hk Hd Hst H|now c s i k st1 k' s' Hk Hd Hst Hstop H]; simpl;
    intros Hc Hp Hs; [| | | |done|done].
  - unfold OnStreamOpen in H. apply rbind_Ok in H as (ts & _ & [= <-]). simpl.
    by apply lookup_app_l_Some.
  - unfold OnStreamClosed in H. apply rbind_Ok in H as ([q st1] & Hq & H).
    apply rbind_Ok in H as (ts & _ & H). destruct (stopped st1); [done|]. injection H as <-. simpl.
    rewrite list_lookup_insert_ne; [done|by eapply stopped_unreachable].
  - unfold OnStreamRequest in H. apply rbind_Ok in H as ([q st1] & Hq & H).
    destruct (if bool_decide _ then _ else _) as [dpId started].
    apply rbind_Ok in H as (sub & _ & [= <-]). simpl.
    rewrite list_lookup_insert_ne; [done|by eapply stopped_unreachable].
  - unfold OnStreamResponse in H. apply rbind_Ok in H as ([q st1] & Hq & H).
    apply rbind_Ok in H as (ts & _ & H). apply rbind_Ok in H as (sub & _ & [= <-]). simpl.
    rewrite list_lookup_insert_ne; [done|by eapply stopped_unreachable].
Qed.

(** A sink ends with the final subscription saved, unless saving it failed. *)
Definition saved_or_failed (c : statusTracker) (k : sink) : Prop :=
  ∃ st, tr_states c !! sink_state k = Some st ∧ stopped st = true
  ∧ (lastStoredState k = Some (ss_subscription st)
     ∨ ∃ now s e s', Upsert resManager now s (ss_dataplaneId st) (ss_subscription st) = (Err e, s')).

Lemma flush_saved now st k s k' s' :
  flush resManager now st k s = Ok (k', s') →
  lastStoredState k' = Some (ss_subscription st)
  ∨ ∃ e, Upsert resManager now s (ss_dataplaneId st) (ss_subscription st) = (Err e, s').
Proof.
  unfold flush, GetStatus. case_bool_decide as Heq; [intros [= <- <-]; by left|].
  destruct (Upsert _ _ _ _ _) as [[|e|] s1]; intros [= <- <-]; simpl; eauto.
Qed.

Lemma saved_step cs cs' :
  tracker_step cs cs' → tracker_inv cs.1 →
  (∀ k, k ∈ tr_sinks cs.1 → sink_done k = true → saved_or_failed cs.1 k) →
  ∀ k, k ∈ tr_sinks cs'.1 → sink_done k = true → saved_or_failed cs'.1 k.
Proof.
  intros Hstep Hc Hall k Hk Hd.
  assert (k ∈ tr_sinks cs.1 → saved_or_failed cs'.1 k) as Hold.
  { intros Hin. destruct (Hall k Hin Hd) as (st & Hp & Hs & Hl). exists st.
    split; [by eapply stopped_step|done]. }
  destruct Hstep as [now uuid c s id c' _ H|now c s id c' _ H|now c s id req c' _ H|now c s id typ c' _ H
    |now c s i k0 st k' s' Hk0 Hd0 Hst H|now c s i k0 st k' s' Hk0 Hd0 Hst Hstop H]; simpl in *.
  - unfold OnStreamOpen in H. apply rbind_Ok in H as (ts & _ & [= <-]). by apply Hold.
  - unfold OnStreamClosed in H. apply rbind_Ok in H as ([q st1] & _ & H).
    apply rbind_Ok in H as (ts & _ & H). destruct (stopped st1); [done|]. injection H as <-. by apply Hold.
  - unfold OnStreamRequest in H. apply rbind_Ok in H as ([q st1] & _ & H).
    destruct (if bool_decide _ then _ else _) as [dpId started] eqn:E.
    apply rbind_Ok in H as (sub & _ & [= <-]). simpl in Hk. apply elem_of_app in Hk as [Hk|Hk]; [by apply Hold|].
    assert (started = [mkSink q None false] ∨ started = []) as [->| ->].
    { revert E. case_bool_decide; [destruct (ParseProxyId _)|]; intros [= _ <-]; auto. }
    + by apply list_elem_of_singleton in Hk as ->.
    + by apply elem_of_nil in Hk.
  - unfold OnStreamResponse in H. apply rbind_Ok in H as ([q st1] & _ & H).
    apply rbind_Ok in H as (ts & _ & H). apply rbind_Ok in H as (sub & _ & [= <-]). by apply Hold.
  - apply list_elem_of_lookup in Hk as (j & Hj). destruct (decide (i = j)) as [<-|Hne].
    + rewrite list_lookup_insert_eq in Hj by (by eapply lookup_lt_Some). injection Hj as <-.
      apply flush_sink in H as (_ & Hd' & _). congruence.
    + rewrite list_lookup_insert_ne in Hj by done. apply Hold. by eapply list_elem_of_lookup_2.
  - apply list_elem_of_lookup in Hk as (j & Hj). destruct (decide (i = j)) as [<-|Hne].
    + rewrite list_lookup_insert_eq in Hj by (by eapply lookup_lt_Some). injection Hj as <-.
      exists st. simpl. destruct (flush_sink _ _ _ _ _ _ H) as (-> & _). split; [done|]. split; [done|].
      destruct (flush_saved _ _ _ _ _ _ H) as [|(e & He)]; [by left|right; eauto].
    + rewrite list_lookup_insert_ne in Hj by done. apply Hold. by eapply list_elem_of_lookup_2.
Qed.

(** A closed stream is final: its state has a disconnect time and no later
    step of the system changes it, under whatever identifiers streams are
    opened again; the sink of a stream ends only when the stream is closed, and
    then it has saved the final subscription, unless the store refused it (the
    last flush is not retried). *)
Theorem closed_stream_final s0 c s p st :
  rtc tracker_step (NewDataplaneStatusTracker, s0) (c, s) →
  tr_states c !! p = Some st → stopped st = true →
  is_Some (sub_DisconnectTime (ss_subscription st))
  ∧ (∀ c' s', rtc tracker_step (c, s) (c', s') → tr_states c' !! p = Some st
       ∧ ∀ k, k ∈ tr_sinks c' → sink_state k = p → sink_done k = true →
         lastStoredState k = Some (ss_subscription st)
         ∨ ∃ now s1 e s2, Upsert resManager now s1 (ss_dataplaneId st) (ss_subscription st) = (Err e, s2)).
Proof.
  intros Hr Hp Hs. pose proof (tracker_reachable_inv _ _ _ Hr) as Hc. split.
  { destruct (tinv_ok c Hc p st Hp) as [_ Hd]. apply not_eq_None_Some. rewrite <- Hd. congruence. }
  intros c' s' Hr'.
  assert (∀ x y : statusTracker * St, rtc tracker_step x y → tracker_inv x.1 →
    tr_states x.1 !! p = Some st → tr_states y.1 !! p = Some st) as Hkeep.
  { induction 1 as [|x y z Hxy _ IH]; [done|]. intros Hx Hxp.
    apply IH; [by eapply tracker_step_inv|by eapply stopped_step]. }
  assert (∀ x y : statusTracker * St, rtc tracker_step x y → tracker_inv x.1 →
    (∀ k, k ∈ tr_sinks x.1 → sink_done k = true → saved_or_failed x.1 k) →
    ∀ k, k ∈ tr_sinks y.1 → sink_done k = true → saved_or_failed y.1 k) as Hsaved.
  { induction 1 as [|x y z Hxy _ IH]; [done|]. intros Hx Hxs.
    apply IH; [by eapply tracker_step_inv|by eapply saved_step]. }
  pose proof (Hkeep _ _ Hr' Hc Hp) as Hp'. split; [done|]. intros k Hk Hkp Hd.
  assert (rtc tracker_step (NewDataplaneStatusTracker, s0) (c', s')) as Hr0 by (by etrans).
  destruct (Hsaved _ _ Hr0 (tracker_reachable_inv _ s0 s0 (rtc_refl _ _))
    ltac:(by intros ? ?%elem_of_nil) k Hk Hd) as (st1 & Hst1 & _ & Hl).
  rewrite Hkp in Hst1. simpl in *. rewrite Hp' in Hst1. by injection Hst1 as <-.
Qed.
End System.

(** ** Saving to the memory store *)

Section UpsertMemory.
Context `{LawfulJsonpb}.
Context (ptypes_Duration : Duration → option Z) (ResourceFromYaml_error : string → option string).
Let resManager : ResourceManager memoryStore :=
  NewResourceManager ptypes_Duration ResourceFromYaml_error.

Definition insight_key (key : ResourceKey) : string * string * string :=
  (type_name KDataplaneInsight, key_Name key, key_Mesh key).

(** The insight a reader gets, the empty one when there is none. *)
Definition insight_of (c : memoryStore) (key : ResourceKey) : DataplaneInsight :=
  match memory_Get c (new_object KDataplaneInsight) [GetBy key] with
  | (Ok _, mkObject _ (DataplaneInsightSpec ds)) => ds
  | _ => mkInsight []
  end.

Lemma get_insight c key :
  rtc memory_step NewStore c →
  match abs c !! insight_key key with
  | None => ∃ e, memory_Get c (new_object KDataplaneInsight) [GetBy key]
              = (Err e, new_object KDataplaneInsight) ∧ IsResourceNotFound e = true
  | Some rec => rkey rec = insight_key key
      ∧ memory_Get c (new_object KDataplaneInsight) [GetBy key]
        = (Ok (), mkObject (Some (MemoryMeta (record_meta rec))) (DataplaneInsightSpec (insight_of c key)))
  end.
Proof.
  intros [Hu Hall]%reachable_ok. unfold insight_of. rewrite Get_refines by done. unfold map_Get. simpl.
  fold (insight_key key). change (GetType _, key_Name key, key_Mesh key) with (insight_key key).
  destruct (abs c !! insight_key key) as [rec|] eqn:E; [|by eexists].
  apply abs_lookup in E as [Hin Hk]; [|done]. split; [done|].
  rewrite Forall_forall in Hall. destruct (Hall rec Hin) as [spec Hspec].
  assert (kind_of_spec spec = KDataplaneInsight) as Hkind.
  { destruct Hspec as [Ht _]. injection Hk as Hk _ _. rewrite Ht in Hk. by destruct spec. }
  rewrite <- Hkind, (unmarshalRecord_fresh rec spec Hspec). by destruct spec.
Qed.

Lemma memory_Create_fails c r fs e c' r' :
  memory_Create c r fs = (e, (c', r')) → match e with Ok _ => True | _ => c' = c end.
Proof.
  unfold memory_Create. destruct (findRecord _ _ _ _); [by intros [= <- <- <-]|].
  destruct (marshalRecord _ _ _); by intros [= <- <- <-].
Qed.

Lemma memory_Update_fails c r fs e c' r' :
  memory_Update c r fs = (e, (c', r')) → match e with Ok _ => True | _ => c' = c end.
Proof.
  unfold memory_Update. destruct (o_Meta r) as [[meta| | |]|]; try (by intros [= <- <- <-]).
  destruct (findRecord _ _ _ _) as [[k rec]|]; [|by intros [= <- <- <-]].
  destruct (negb _); [by intros [= <- <- <-]|].
  destruct (marshalRecord _ _ _); by intros [= <- <- <-].
Qed.

(** What saving means for the store. *)
Definition upserted (c c' : memoryStore) (key : ResourceKey) (sub : DiscoverySubscription) : Prop :=
  insight_of c' key = UpdateSubscription (insight_of c key) sub
  ∧ ∀ key', key' ≠ insight_key key → abs c' !! key' = abs c !! key'.

Definition is_Ok {A} (r : res A) : bool := match r with Ok _ => true | _ => false end.

Lemma create_insight now c key sub e c' r' :
  rtc memory_step NewStore c → abs c !! insight_key key = None →
  memory_Create c (update_insight (new_object KDataplaneInsight) sub) [CreateBy key; CreatedAt now]
    = (e, (c', r')) →
  insight_of c key = mkInsight []
  ∧ is_Ok e = is_Ok (jsonpb_Marshal (DataplaneInsightSpec (UpdateSubscription (mkInsight []) sub)))
  ∧ (is_Ok e = true → upserted c c' key sub).
Proof.
  intros Hc Hk Hcr. pose proof (get_insight c key Hc) as Hg. rewrite Hk in Hg.
  destruct Hg as (err & Hg & _).
  assert (insight_of c key = mkInsight []) as Hi by (unfold insight_of; by rewrite Hg).
  split; [done|]. pose proof (reachable_unique c Hc) as Hu. split.
  - epose proof (Create_refines c _ _ Hu) as Hr. rewrite Hcr in Hr. destruct Hr as [_ Hr].
    unfold map_Create in Hr. simpl in Hr.
    change (GetType _, key_Name key, key_Mesh key) with (insight_key key) in Hr. rewrite Hk in Hr.
    unfold ToJSON in Hr. simpl in Hr.
    destruct (jsonpb_Marshal _) as [content|e'|]; simpl in Hr; by injection Hr as <- _ _.
  - intros He. destruct e as [[]| |]; try done.
    destruct (Create_then_Get c _ _ c' r' Hu Hcr) as (Hg' & Hs & Ho). split; [|exact Ho].
    unfold insight_of. rewrite Hg. change ([GetBy key]) with ([GetByKey (key_Name key) (key_Mesh key)]).
    simpl in Hg', Hs. change (o_Kind _) with KDataplaneInsight in Hg'. rewrite Hg'. destruct r' as [meta spec]. simpl in Hs. by rewrite Hs.
Qed.

Lemma update_stored now c key sub rec e c' r' :
  rtc memory_step NewStore c → abs c !! insight_key key = Some rec →
  memory_Update c (update_insight (mkObject (Some (MemoryMeta (record_meta rec)))
    (DataplaneInsightSpec (insight_of c key))) sub) [ModifiedAt now] = (e, (c', r')) →
  is_Ok e = is_Ok (jsonpb_Marshal (DataplaneInsightSpec (UpdateSubscription (insight_of c key) sub)))
  ∧ (is_Ok e = true → upserted c c' key sub).
Proof.
  intros Hc Hk Hup. pose proof (get_insight c key Hc) as Hg. rewrite Hk in Hg. destruct Hg as [Hrk Hg].
  pose proof (reachable_unique c Hc) as Hu. injection Hrk as Ht Hn Hm. split.
  - epose proof (Update_refines c _ _ Hu) as Hr. rewrite Hup in Hr. destruct Hr as (_ & Hr & _).
    unfold map_Update in Hr. simpl in Hr. rewrite Hn, Hm in Hr.
    change (GetType _, key_Name key, key_Mesh key) with (insight_key key) in Hr.
    rewrite Hk, Z.eqb_refl in Hr. unfold ToJSON in Hr. simpl in Hr.
    destruct (jsonpb_Marshal _) as [content|e'|]; simpl in Hr; by injection Hr as <- _.
  - intros He. destruct e as [[]| |]; try done.
    destruct (λ Hme Hty, Update_then_Get c _ _ (record_meta rec) c' r' Hu Hme Hty Hup) as (Hg' & Ho);
      [done..|].
    simpl in Hg', Ho. rewrite Hn, Hm in Hg', Ho. split; [|exact Ho].
    unfold insight_of at 1. change ([GetBy key]) with ([GetByKey (key_Name key) (key_Mesh key)]).
    change (o_Kind _) with KDataplaneInsight in Hg'. by rewrite Hg'.
Qed.

(** Saving the status of a dataplane to the memory store either leaves the
    store as it was or adds the subscription to the insight of exactly that
    dataplane, replacing the one with the same id; nothing else in the store
    changes.  It succeeds exactly when the insight can be marshalled and, for
    the first one of a dataplane, the mesh exists. *)
Theorem Upsert_memory now c key sub :
  rtc memory_step NewStore c →
  let '(e, c') := Upsert resManager now c key sub in
  rtc memory_step NewStore c'
  ∧ is_Ok e = (bool_decide (is_Some (abs c !! insight_key key))
               || is_Ok (ensureMeshExists c (key_Mesh key)))
              && is_Ok (jsonpb_Marshal (DataplaneInsightSpec (UpdateSubscription (insight_of c key) sub)))
  ∧ (if is_Ok e then upserted c c' key sub else c' = c).
Proof.
  intros Hc. pose proof (get_insight c key Hc) as Hg. unfold Upsert, resManager. simpl.
  unfold manager_Get. simpl. destruct (abs c !! insight_key key) as [rec|] eqn:Hk.
  - destruct Hg as [_ Hg]. rewrite Hg, bool_decide_true by by eexists. simpl. unfold manager_Update. simpl.
    destruct (memory_Update c _ _) as [e [c' r']] eqn:Hup.
    destruct (update_stored now c key sub rec e c' r' Hc Hk Hup) as [<- Hok].
    pose proof (memory_Update_fails _ _ _ _ _ _ Hup) as Hf.
    split; [|split; [done|destruct e; simpl in *; auto]].
    eapply rtc_r; [exact Hc|]. pose proof (step_Update c (update_insight (mkObject
      (Some (MemoryMeta (record_meta rec))) (DataplaneInsightSpec (insight_of c key))) sub) [ModifiedAt now]) as Hs.
    by rewrite Hup in Hs.
  - destruct Hg as (err & -> & ->). rewrite bool_decide_false by (by intros []). simpl.
    unfold manager_Create. simpl. unfold NewCreateOptions. simpl.
    destruct (ensureMeshExists c (key_Mesh key)) as [[]|e|]; simpl; [|done|done].
    destruct (memory_Create c _ _) as [e [c' r']] eqn:Hcr.
    destruct (create_insight now c key sub e c' r' Hc Hk Hcr) as (-> & <- & Hok).
    pose proof (memory_Create_fails _ _ _ _ _ _ Hcr) as Hf.
    split; [|split; [done|destruct e; simpl in *; auto]].
    eapply rtc_r; [exact Hc|].
    pose proof (step_Create c (update_insight (new_object KDataplaneInsight) sub) [CreateBy key; CreatedAt now]) as Hs.
    by rewrite Hcr in Hs.
Qed.
End UpsertMemory.

(** ** Examples *)

(** A codec that knows the empty mesh and the insight with one subscription. *)
Definition insight_jsonpb (sub : DiscoverySubscription) : Jsonpb :=
  {| jsonpb_Marshal := λ spec,
       match spec with
       | MeshSpec (mkMesh None None None None) => Ok "{}"
       | DataplaneInsightSpec (mkInsight [s]) =>
           if bool_decide (s = sub) then Ok "insight" else Err (Errorf "unsupported message" [])
       | _ => Err (Errorf "unsupported message" [])
       end;
     jsonpb_Unmarshal := λ _ out,
       match out with
       | MeshSpec m => (Ok (), MeshSpec m)
       | DataplaneInsightSpec _ => (Ok (), DataplaneInsightSpec (mkInsight [sub]))
       | _ => (Err (Errorf "unsupported message" []), out)
       end |}.

Lemma insight_jsonpb_lawful sub : @LawfulJsonpb (insight_jsonpb sub).
Proof.
  constructor.
  - by intros s [].
  - intros spec s. destruct spec as [[[] [] [] []]| |[[|s0 []]]| | | | | | | | | ]; try done.
    simpl. case_bool_decide as Hs; [by subst|done].
Qed.

Definition sample_clock (now : Z) : option Timestamp := Some (mkTimestamp now 0).
Definition sample_request : DiscoveryRequest :=
  mkRequest (Some (mkNode "default.dp-1" None)) ClusterType [] "" "" None.

(** A dataplane connects at 10, sends its first request and disconnects at 30. *)
Definition tracker_of (r : res statusTracker) : statusTracker :=
  match r with Ok c => c | _ => NewDataplaneStatusTracker end.
Definition sample_tracker1 : statusTracker :=
  tracker_of (OnStreamOpen sample_clock "cp-1" 10 "sub-1" NewDataplaneStatusTracker 1).
Definition sample_tracker2 : statusTracker :=
  tracker_of (OnStreamRequest sample_clock 20 sample_tracker1 1 sample_request).
Definition sample_tracker3 : statusTracker := tracker_of (OnStreamClosed sample_clock 30 sample_tracker2 1).

Definition final_subscription : DiscoverySubscription :=
  mkSubscription "sub-1" "cp-1" (Some (mkTimestamp 10 0)) (Some (mkTimestamp 30 0))
    (Some NewSubscriptionStatus).
#[local] Instance final_jsonpb : Jsonpb := insight_jsonpb final_subscription.
#[local] Instance final_jsonpb_lawful : LawfulJsonpb := insight_jsonpb_lawful final_subscription.

(** The memory store with the mesh [default]. *)
Definition mesh_store : memoryStore :=
  (memory_Create NewStore (new_object KMesh) [CreateByKey "default" "default"]).2.1.
Definition memory_manager : ResourceManager memoryStore := NewResourceManager sample_Duration sample_Yaml.
Abbreviation sample_step := (tracker_step memory_manager sample_clock "cp-1").

Lemma sample_tracker2_reachable :
  rtc sample_step (NewDataplaneStatusTracker, mesh_store) (sample_tracker2, mesh_store).
Proof.
  eapply rtc_l; [by apply (t_Open _ _ _ 10 "sub-1" _ _ 1 sample_tracker1)|].
  apply rtc_once. apply (t_Request _ _ _ 20 _ _ 1 sample_request); [by eexists|reflexivity].
Qed.

Lemma sample_tracker3_reachable :
  rtc sample_step (NewDataplaneStatusTracker, mesh_store) (sample_tracker3, mesh_store).
Proof.
  eapply rtc_r; [apply sample_tracker2_reachable|].
  apply (t_Closed _ _ _ 30 _ _ 1); [by eexists|reflexivity].
Qed.

Lemma tracker_safe_witness :
  length (sinks_of sample_tracker2 0) = 1%nat
  ∧ ∃ c', OnStreamClosed sample_clock 30 sample_tracker2 1 = Ok c' ∧ tr_streams c' !! 1 = None.
Proof.
  split; [reflexivity|].
  refine (proj1 (tracker_safe memory_manager sample_clock "cp-1" mesh_store sample_tracker2 mesh_store 1 0 30
    (mkTimestamp 30 0) sample_tracker2_reachable _ _)); reflexivity.
Defined.

Lemma closed_stream_final_witness :
  is_Some (sub_DisconnectTime final_subscription).
Proof.
  refine (proj1 (closed_stream_final memory_manager sample_clock "cp-1" mesh_store sample_tracker3 mesh_store 0
    (mkStream true (mkKey "default" "dp-1") final_subscription) sample_tracker3_reachable _ _)); reflexivity.
Defined.

(** The last flush of the sink saves the final subscription. *)
Lemma final_flush_saves :
  ∃ c' s', sample_step (sample_tracker3, mesh_store) (c', s')
  ∧ tr_sinks c' = [mkSink 0 (Some final_subscription) true]
  ∧ insight_of s' (mkKey "default" "dp-1") = mkInsight [final_subscription].
Proof.
  do 2 eexists. split; [eapply (t_Stop _ _ _ 31 _ _ 0); reflexivity|]. split; reflexivity.
Qed.

Lemma Upsert_memory_witness :
  let c' := (Upsert memory_manager 31 mesh_store (mkKey "default" "dp-1") final_subscription).2 in
  upserted mesh_store c' (mkKey "default" "dp-1") final_subscription.
Proof.
  pose proof (Upsert_memory sample_Duration sample_Yaml 31 mesh_store (mkKey "default" "dp-1")
    final_subscription (rtc_once _ _ (step_Create NewStore (new_object KMesh) [CreateByKey "default" "default"])))
    as H.
  exact (proj2 (proj2 H)).
Defined.
