(* ===== verification/Callbacks.v ===== *)
(** * Callbacks of the xDS servers

    Models [pkg/util/xds/callbacks_chain.go], [pkg/util/xds/watchdog_callbacks.go],
    [pkg/util/xds/logging_callbacks.go], [pkg/util/watchdog/watchdog.go] and
    [pkg/xds/sync/dataplane_sync_tracker.go], and presents the trackers of
    [StatusTracker] as callbacks.

    [envoy_xds.Callbacks] is a record of operations over the state of the
    callbacks.  A goroutine started by a callback is an entry of a list; the
    channel that stops it is its index, and closing it sets a flag.  A second
    close would panic. *)

From S2P Require Import Prelude Effects GoStd Dataplane Insights CoreXds SnapshotCache StatusTracker.
Local Open Scope Z_scope.

(** The fields of a [DiscoveryResponse]; a resource is its type and bytes. *)
Record DiscoveryResponse : Type := mkDiscoveryResponse {
  dr_VersionInfo : string;
  dr_Resources : list (string * string);
  dr_TypeUrl : string;
  dr_Nonce : string;
}.

(** What a callback reads from its surroundings: the clock and a fresh
    identifier. *)
Record cb_env : Type := mkEnv { env_now : Z; env_uuid : string }.

(** The interface [Callbacks] of the xDS server library. *)
Record Callbacks (S : Type) : Type := mkCallbacks {
  cb_OnStreamOpen : cb_env → Z → string → ST S unit;
  cb_OnStreamClosed : cb_env → Z → proc S;
  cb_OnStreamRequest : cb_env → Z → DiscoveryRequest → ST S unit;
  cb_OnStreamResponse : cb_env → Z → DiscoveryRequest → DiscoveryResponse → proc S;
  cb_OnFetchRequest : cb_env → DiscoveryRequest → ST S unit;
  cb_OnFetchResponse : cb_env → DiscoveryRequest → option DiscoveryResponse → proc S;
}.
Arguments mkCallbacks {S} _ _ _ _ _ _.
Arguments cb_OnStreamOpen {S} _ _ _ _.
Arguments cb_OnStreamClosed {S} _ _ _.
Arguments cb_OnStreamRequest {S} _ _ _ _.
Arguments cb_OnStreamResponse {S} _ _ _ _ _.
Arguments cb_OnFetchRequest {S} _ _ _.
Arguments cb_OnFetchResponse {S} _ _ _ _.

(** ** logging_callbacks.go *)

(** Logging aside, the callbacks do nothing. *)
Definition LoggingCallbacks {S} : Callbacks S :=
  mkCallbacks (λ _ _ _, mret ()) (λ _ _, Some) (λ _ _ _, mret ()) (λ _ _ _ _, Some)
    (λ _ _, mret ()) (λ _ _ _, Some).

(** ** callbacks_chain.go *)

Section Chain.
(** [multierr.Append] of two errors; appending to or from nil is written out. *)
Context {S : Type} (multierr_Append : goerror → goerror → goerror).

Definition append_err (errs err : option goerror) : option goerror :=
  match errs, err with
  | None, _ => err
  | _, None => errs
  | Some a, Some b => Some (multierr_Append a b)
  end.

(** [for _, cb := range chain { errs = multierr.Append(errs, cb.OnX(...)) }]. *)
Fixpoint chain_errs (calls : list (ST S unit)) (errs : option goerror) : ST S unit :=
  match calls with
  | [] => match errs with None => mret () | Some e => fail e end
  | call :: rest =>
      r ← try call;
      chain_errs rest (append_err errs (match r with inl e => Some e | inr _ => None end))
  end.

(** [for i := len(chain) - 1; i >= 0; i-- { chain[i].OnX(...) }]. *)
Definition chain_procs (calls : list (proc S)) : proc S := λ s,
  foldr (λ call s, s ≫= call) (Some s) calls.

Definition CallbacksChain (chain : list (Callbacks S)) : Callbacks S :=
  {| cb_OnStreamOpen := λ env streamID typ,
       chain_errs ((λ cb, cb_OnStreamOpen cb env streamID typ) <$> chain) None;
     cb_OnStreamClosed := λ env streamID,
       chain_procs ((λ cb, cb_OnStreamClosed cb env streamID) <$> chain);
     cb_OnStreamRequest := λ env streamID req,
       chain_errs ((λ cb, cb_OnStreamRequest cb env streamID req) <$> chain) None;
     cb_OnStreamResponse := λ env streamID req resp,
       chain_procs ((λ cb, cb_OnStreamResponse cb env streamID req resp) <$> chain);
     cb_OnFetchRequest := λ env req,
       chain_errs ((λ cb, cb_OnFetchRequest cb env req) <$> chain) None;
     cb_OnFetchResponse := λ env req resp,
       chain_procs ((λ cb, cb_OnFetchResponse cb env req resp) <$> chain) |}.

(** Every member of the chain is called, in order, whatever the others return;
    the chain fails exactly when one of them did, with the errors appended in
    that order. *)
Lemma chain_errs_all calls errs s :
  (∀ call s, call ∈ calls → (call s).1 ≠ Panic) →
  (chain_errs calls errs s).2 = foldl (λ s (call : ST S unit), (call s).2) s calls
  ∧ (chain_errs calls errs s).1 ≠ Panic
  ∧ ((chain_errs calls errs s).1 = Ok () ↔
     errs = None ∧ ∀ i call, calls !! i = Some call →
       (call (foldl (λ s (call : ST S unit), (call s).2) s (take i calls))).1 = Ok ()).
Proof.
  revert errs s; induction calls as [|call calls IH]; intros errs s Hp; cbn [chain_errs foldl].
  - destruct errs; simpl; [|by split; [|split]]. split; [done|]. split; [done|]. split; [done|by intros []].
  - unfold mbind, ST_bind, try. pose proof (Hp call s ltac:(constructor)) as Hc.
    destruct (call s) as [[[]|e|] s1] eqn:E; [| |done].
    + destruct (IH (append_err errs None) s1 ltac:(intros; apply Hp; by constructor)) as (-> & Hnp & Hok).
      split; [done|]. split; [done|]. rewrite Hok. destruct errs as [e|]; simpl; [naive_solver|].
      split; (intros [_ Hall]; split; [done|]).
      * intros [|i] c; simpl; [intros [= <-]; by rewrite E|]. rewrite E. apply Hall.
      * intros i c Hi. specialize (Hall (Datatypes.S i) c Hi). simpl in Hall. by rewrite E in Hall.
    + destruct (IH (append_err errs (Some e)) s1 ltac:(intros; apply Hp; by constructor)) as (-> & Hnp & Hok).
      split; [done|]. split; [done|]. rewrite Hok. split.
      * intros [Ha _]. by destruct errs.
      * intros [_ Hall]. specialize (Hall 0%nat call eq_refl). simpl in Hall. by rewrite E in Hall.
Qed.
End Chain.

(** Callbacks that keep their state in a part of a larger one. *)
Definition zoom_proc {S T} (get : S → T) (set : T → S → S) (p : proc T) : proc S := λ s,
  (λ t, set t s) <$> p (get s).
Definition zoom_callbacks {S T} (get : S → T) (set : T → S → S) (cb : Callbacks T) : Callbacks S :=
  {| cb_OnStreamOpen := λ env id typ, zoom get set (cb_OnStreamOpen cb env id typ);
     cb_OnStreamClosed := λ env id, zoom_proc get set (cb_OnStreamClosed cb env id);
     cb_OnStreamRequest := λ env id req, zoom get set (cb_OnStreamRequest cb env id req);
     cb_OnStreamResponse := λ env id req resp, zoom_proc get set (cb_OnStreamResponse cb env id req resp);
     cb_OnFetchRequest := λ env req, zoom get set (cb_OnFetchRequest cb env req);
     cb_OnFetchResponse := λ env req resp, zoom_proc get set (cb_OnFetchResponse cb env req resp) |}.

(** ** Watchdogs *)

(** A goroutine running [SimpleWatchdog.Start]: what it was made for, and
    whether its stop channel is closed. *)
Record watchdog (A : Type) : Type := mkWatchdog { wd_for : A; wd_stopped : bool }.
Arguments mkWatchdog {A} _ _.
Arguments wd_for {A} _.
Arguments wd_stopped {A} _.

(** [close(stopCh)]. *)
Definition close_stop {A} (ws : list (watchdog A)) (p : nat) : option (list (watchdog A)) :=
  match ws !! p with
  | Some w => if wd_stopped w then None else Some (<[p := mkWatchdog (wd_for w) true]> ws)
  | None => None
  end.

(** An iteration of the loop of [SimpleWatchdog.Start]: [Some] of the state
    after a tick (an error is passed to [OnError], which logs it), [None] when
    [stop] was selected.  A panic of [OnTick] is a panic. *)
Definition watchdog_iteration {S} (OnTick : ST S unit) (tick : bool) (s : S) : res (option S) :=
  if tick then
    match OnTick s with
    | (Ok _, s') | (Err _, s') => Ok (Some s')
    | (Panic, _) => Panic
    end
  else Ok None.

(** ** dataplane_sync_tracker.go *)

Record dataplaneSyncTracker : Type := mkSync {
  sync_watchdogs : list (watchdog (ResourceKey * Z));
  sync_streams : gmap Z nat;
}.
Definition NewDataplaneSyncTracker : dataplaneSyncTracker := mkSync [] ∅.

Definition sync_OnStreamClosed (streamID : Z) : proc dataplaneSyncTracker := λ t,
  match sync_streams t !! streamID with
  | Some stopWatchdog =>
      ws ← close_stop (sync_watchdogs t) stopWatchdog;
      Some (mkSync ws (delete streamID (sync_streams t)))
  | None => Some (mkSync (sync_watchdogs t) (delete streamID (sync_streams t)))
  end.

Definition sync_OnStreamRequest (streamID : Z) (req : DiscoveryRequest) : ST dataplaneSyncTracker unit := λ t,
  match sync_streams t !! streamID with
  | Some _ => (Ok (), t)
  | None =>
      match ParseProxyId (req_Node req) with
      | Ok id =>
          let dataplaneKey := mkKey (pid_Mesh id) (pid_Name id) in
          (Ok (), mkSync (sync_watchdogs t ++ [mkWatchdog (dataplaneKey, streamID) false])
                    (<[streamID := length (sync_watchdogs t)]> (sync_streams t)))
      | Err _ => (Ok (), t)
      | Panic => (Panic, t)
      end
  end.

Definition sync_callbacks : Callbacks dataplaneSyncTracker :=
  mkCallbacks (λ _ _ _, mret ()) (λ _, sync_OnStreamClosed) (λ _, sync_OnStreamRequest)
    (λ _ _ _ _, Some) (λ _ _, mret ()) (λ _ _ _, Some).

(** ** watchdog_callbacks.go *)

Section WatchdogCallbacks.
(** What a watchdog is made for, and the constructor the callbacks are given:
    it may fail, or return no watchdog. *)
Context {A : Type} (newNodeWatchdog : option Node → Z → res (option A)).

(** The channel is made even if there is no watchdog: [None]. *)
Record watchdogCallbacks : Type := mkWatchdogCallbacks {
  wc_watchdogs : list (watchdog (option A));
  wc_streams : gmap Z (option nat);   (* [cancel], if it is set *)
}.
Definition NewWatchdogCallbacks : watchdogCallbacks := mkWatchdogCallbacks [] ∅.

Definition wc_OnStreamOpen (streamID : Z) : ST watchdogCallbacks unit := λ cb,
  (Ok (), mkWatchdogCallbacks (wc_watchdogs cb) (<[streamID := None]> (wc_streams cb))).

Definition wc_OnStreamClosed (streamID : Z) : proc watchdogCallbacks := λ cb,
  match wc_streams cb !! streamID with
  | Some (Some cancel) =>
      ws ← close_stop (wc_watchdogs cb) cancel;
      Some (mkWatchdogCallbacks ws (delete streamID (wc_streams cb)))
  | _ => Some (mkWatchdogCallbacks (wc_watchdogs cb) (delete streamID (wc_streams cb)))
  end.

Definition wc_OnStreamRequest (streamID : Z) (req : DiscoveryRequest) : ST watchdogCallbacks unit := λ cb,
  match wc_streams cb !! streamID with
  | Some (Some _) => (Ok (), cb)
  | _ =>
      let streams := <[streamID := Some (length (wc_watchdogs cb))]> (wc_streams cb) in
      match newNodeWatchdog (req_Node req) streamID with
      | Ok runnable =>
          (Ok (), mkWatchdogCallbacks (wc_watchdogs cb ++ [mkWatchdog runnable false]) streams)
      | Err e => (Err e, mkWatchdogCallbacks (wc_watchdogs cb ++ [mkWatchdog None false]) streams)
      | Panic => (Panic, cb)
      end
  end.

Definition watchdog_callbacks : Callbacks watchdogCallbacks :=
  mkCallbacks (λ _ id _, wc_OnStreamOpen id) (λ _, wc_OnStreamClosed) (λ _, wc_OnStreamRequest)
    (λ _ _ _ _, Some) (λ _ _, mret ()) (λ _ _ _, Some).
End WatchdogCallbacks.
Arguments watchdogCallbacks : clear implicits.

(** ** The trackers of the xDS server *)

Definition metadata_callbacks : Callbacks (gmap Z DataplaneMetadata) :=
  mkCallbacks (λ _ _ _, mret ()) (λ _ id d, Some (Metadata_OnStreamClosed d id))
    (λ _ id req, st_modify (λ d, Metadata_OnStreamRequest d id req))
    (λ _ _ _ _, Some) (λ _ _, mret ()) (λ _ _ _, Some).

Section Status.
Context (ptypes_TimestampProto : Z → option Timestamp) (GetInstanceId : string).

(** A method of the tracker that returns a nil error. *)
Definition status_call (f : statusTracker → res statusTracker) : ST statusTracker unit := λ c,
  match f c with Ok c' => (Ok (), c') | Err e => (Err e, c) | Panic => (Panic, c) end.
Definition status_proc (f : statusTracker → res statusTracker) : proc statusTracker := λ c,
  match f c with Ok c' => Some c' | _ => None end.

Definition status_callbacks : Callbacks statusTracker :=
  {| cb_OnStreamOpen := λ env id _,
       status_call (λ c, OnStreamOpen ptypes_TimestampProto GetInstanceId (env_now env) (env_uuid env) c id);
     cb_OnStreamClosed := λ env id, status_proc (λ c, OnStreamClosed ptypes_TimestampProto (env_now env) c id);
     cb_OnStreamRequest := λ env id req,
       status_call (λ c, OnStreamRequest ptypes_TimestampProto (env_now env) c id req);
     cb_OnStreamResponse := λ env id _ resp,
       status_proc (λ c, OnStreamResponse ptypes_TimestampProto (env_now env) c id (dr_TypeUrl resp));
     cb_OnFetchRequest := λ _ _, mret ();
     cb_OnFetchResponse := λ _ _ _, Some |}.
End Status.

(** ** What the server and the callbacks promise each other *)

(** From a state in [P], the call ends in [Q], and panics only if [ok] does not
    hold. *)
Definition keeps {S} (ok : Prop) (P : S → Prop) (m : ST S unit) (Q : S → Prop) : Prop :=
  ∀ s, P s → match m s with (Panic, _) => ¬ ok | (_, s') => Q s' end.

(** Safe callbacks: [J ids] describes their state when the streams [ids] are
    open.  A stream is opened under a new identifier, requests and responses are
    those of an open stream, and only an open stream is closed.  A call panics
    only when the surroundings are not [env_ok]. *)
Class SafeCallbacks {S} (env_ok : cb_env → Prop) (J : gset Z → S → Prop) (cb : Callbacks S) : Prop := {
  safe_open : ∀ env ids id typ, id ∉ ids →
    keeps (env_ok env) (J ids) (cb_OnStreamOpen cb env id typ) (J ({[id]} ∪ ids));
  safe_request : ∀ env ids id req, id ∈ ids →
    keeps (env_ok env) (J ids) (cb_OnStreamRequest cb env id req) (J ids);
  safe_response : ∀ env ids id req resp, id ∈ ids →
    keeps (env_ok env) (J ids) (run_proc (cb_OnStreamResponse cb env id req resp)) (J ids);
  safe_closed : ∀ env ids id, id ∈ ids →
    keeps (env_ok env) (J ids) (run_proc (cb_OnStreamClosed cb env id)) (J (ids ∖ {[id]}));
}.

Section Keeps.
Context {S : Type} (multierr_Append : goerror → goerror → goerror).

Lemma keeps_ret ok (P : S → Prop) : keeps ok P (mret ()) P.
Proof. by intros s Hs. Qed.

(** A chain calls its members one after the other... *)
Lemma chain_errs_nil_keeps ok (P : S → Prop) errs : keeps ok P (chain_errs multierr_Append [] errs) P.
Proof. intros s Hs. by destruct errs. Qed.

Lemma chain_errs_cons_keeps ok (P M Q : S → Prop) call calls errs :
  keeps ok P call M → (∀ errs, keeps ok M (chain_errs multierr_Append calls errs) Q) →
  keeps ok P (chain_errs multierr_Append (call :: calls) errs) Q.
Proof.
  intros H1 H2 s Hs. specialize (H1 s Hs). cbn [chain_errs]. unfold mbind, ST_bind, try.
  destruct (call s) as [[a|e|] s1]; [by apply H2|by apply H2|done].
Qed.

(** ... and on responses and on the end of a stream the last one first. *)
Lemma chain_procs_nil_keeps ok (P : S → Prop) : keeps ok P (run_proc (chain_procs [])) P.
Proof. by intros s Hs. Qed.

Lemma chain_procs_cons_keeps ok (P M Q : S → Prop) call calls :
  keeps ok P (run_proc (chain_procs calls)) M → keeps ok M (run_proc call) Q →
  keeps ok P (run_proc (chain_procs (call :: calls))) Q.
Proof.
  intros H1 H2 s Hs. specialize (H1 s Hs). revert H1. unfold run_proc, chain_procs. simpl.
  match goal with |- context [foldr ?f ?a ?l] => destruct (foldr f a l) as [s1|] end; [|done].
  simpl. intros H1. specialize (H2 s1 H1). unfold run_proc in H2. by destruct (call s1).
Qed.
End Keeps.

(** ** One watchdog per stream *)

(** A call that reaches the sync tracker. *)
Inductive sync_call : Type :=
| SyncRequest (streamID : Z) (req : DiscoveryRequest)
| SyncClosed (streamID : Z).

Definition sync_run (t : dataplaneSyncTracker) (call : sync_call) : res dataplaneSyncTracker :=
  match call with
  | SyncRequest id req =>
      match sync_OnStreamRequest id req t with
      | (Ok _, t') => Ok t'
      | (Err e, _) => Err e
      | (Panic, _) => Panic
      end
  | SyncClosed id => match sync_OnStreamClosed id t with Some t' => Ok t' | None => Panic end
  end.

(** The open entry of a stream points to its running watchdog. *)
Definition sync_inv (t : dataplaneSyncTracker) : Prop :=
  ∀ id p, sync_streams t !! id = Some p ↔
    ∃ key, sync_watchdogs t !! p = Some (mkWatchdog (key, id) false).

Lemma ParseProxyId_no_panic node : ParseProxyId node ≠ Panic.
Proof.
  unfold ParseProxyId, ParseProxyIdFromString. destruct node as [n|]; [|done].
  pose proof (split2_dot (node_Id n)) as H. destruct (split2 "." (node_Id n)) as [|mesh rest]; [done|].
  destruct (String.eqb mesh ""); [done|]. destruct rest as [|name rest']; [done|].
  by destruct (String.eqb name "").
Qed.

Lemma lookup_snoc_cases {A} (l : list A) x i y :
  (l ++ [x]) !! i = Some y ↔ l !! i = Some y ∨ (i = length l ∧ x = y).
Proof.
  rewrite lookup_snoc_Some. split; [naive_solver|]. intros [Hi|?]; [|by right].
  left. split; [by eapply lookup_lt_Some|done].
Qed.

Lemma sync_OnStreamRequest_inv t id req :
  sync_inv t → ∃ t', sync_OnStreamRequest id req t = (Ok (), t') ∧ sync_inv t'
    ∧ (∀ p, sync_streams t !! id = Some p → t' = t)
    ∧ (∀ pid, sync_streams t !! id = None → ParseProxyId (req_Node req) = Ok pid →
         ∃ p, sync_streams t' !! id = Some p
           ∧ sync_watchdogs t' !! p = Some (mkWatchdog (mkKey (pid_Mesh pid) (pid_Name pid), id) false)).
Proof.
  intros Ht. unfold sync_OnStreamRequest. destruct (sync_streams t !! id) as [p|] eqn:E.
  { exists t. naive_solver. }
  pose proof (ParseProxyId_no_panic (req_Node req)).
  destruct (ParseProxyId (req_Node req)) as [pid|e|]; [|exists t; naive_solver|done].
  eexists. split; [done|]. split; [|split; [done|]].
  - intros id' q. simpl. rewrite lookup_insert_Some, (Ht id' q). split.
    + intros [[<- <-]|[Hne (key & Hq)]]; eexists; apply lookup_snoc_cases; [by right|by left].
    + intros (key & [Hq|[-> [= <- <-]]]%lookup_snoc_cases); [|by left]. right.
      split; [|eauto]. intros <-. destruct (Ht id q) as [_ Hx]. rewrite Hx in E by eauto. done.
  - intros pid' _ [= <-]. eexists. simpl. rewrite lookup_insert_eq. split; [done|].
    rewrite lookup_app_r, Nat.sub_diag by lia. done.
Qed.

Lemma sync_OnStreamClosed_inv t id :
  sync_inv t → ∃ t', sync_OnStreamClosed id t = Some t' ∧ sync_inv t' ∧ sync_streams t' !! id = None
    ∧ ∀ q w, sync_watchdogs t' !! q = Some w → (wd_for w).2 = id → wd_stopped w = true.
Proof.
  intros Ht.
  assert (∀ t', sync_inv t' → sync_streams t' !! id = None →
    ∀ q w, sync_watchdogs t' !! q = Some w → (wd_for w).2 = id → wd_stopped w = true) as Hnone.
  { intros t' Ht' Hid q [[key id'] []] Hw; simpl; [done|]. intros ->.
    rewrite (proj2 (Ht' id q)) in Hid by eauto. done. }
  unfold sync_OnStreamClosed. destruct (sync_streams t !! id) as [p|] eqn:E.
  - destruct (proj1 (Ht id p) E) as [key Hp]. unfold close_stop. rewrite Hp. simpl.
    eexists. split; [done|]. assert (sync_inv (mkSync (<[p := mkWatchdog (key, id) true]> (sync_watchdogs t))
      (delete id (sync_streams t)))) as Hi.
    { intros id' q. simpl. rewrite lookup_delete_Some, (Ht id' q).
      destruct (decide (p = q)) as [<-|Hne].
      - rewrite list_lookup_insert_eq by (by eapply lookup_lt_Some). split; [|naive_solver].
        intros (Hne & key' & Hp'). congruence.
      - rewrite list_lookup_insert_ne by done. split; [naive_solver|]. intros (key' & Hq).
        split; [|eauto]. intros <-. assert (sync_streams t !! id = Some q) by (apply Ht; eauto). congruence. }
    assert (delete id (sync_streams t) !! id = None) as Hd by apply lookup_delete_eq. eauto.
  - eexists. split; [done|]. rewrite delete_id by done. destruct t. eauto.
Qed.

(** The sync tracker keeps one watchdog per stream: after any sequence of
    callbacks, whatever the requests say, no call panics or fails (in particular
    no stop channel is closed twice); a stream has an entry exactly when a
    watchdog runs for it, and then exactly one; a request with a valid node id
    starts it, and closing the stream stops every watchdog of the stream. *)
Theorem sync_tracker_safe calls :
  ∃ t, rfoldl sync_run NewDataplaneSyncTracker calls = Ok t
  ∧ (∀ p q key key' id, sync_watchdogs t !! p = Some (mkWatchdog (key, id) false) →
       sync_watchdogs t !! q = Some (mkWatchdog (key', id) false) → p = q)
  ∧ (∀ id req pid, ParseProxyId (req_Node req) = Ok pid → ∃ t' p key,
       sync_run t (SyncRequest id req) = Ok t'
       ∧ sync_watchdogs t' !! p = Some (mkWatchdog (key, id) false)
       ∧ (sync_streams t !! id = None → key = mkKey (pid_Mesh pid) (pid_Name pid)))
  ∧ (∀ id, ∃ t', sync_run t (SyncClosed id) = Ok t'
       ∧ ∀ p w, sync_watchdogs t' !! p = Some w → (wd_for w).2 = id → wd_stopped w = true).
Proof.
  assert (∃ t, rfoldl sync_run NewDataplaneSyncTracker calls = Ok t ∧ sync_inv t) as (t & Hr & Ht).
  { assert (sync_inv NewDataplaneSyncTracker) as H0.
    { intros id p. simpl. rewrite lookup_empty. naive_solver. }
    revert H0. generalize NewDataplaneSyncTracker. induction calls as [|call calls IH]; intros t Ht; simpl; [eauto|].
    destruct call as [id req|id]; simpl.
    - destruct (sync_OnStreamRequest_inv t id req Ht) as (t' & -> & Ht' & _). by apply IH.
    - destruct (sync_OnStreamClosed_inv t id Ht) as (t' & -> & Ht' & _). by apply IH. }
  exists t. split; [done|]. split; [|split].
  - intros p q key key' id Hp Hq. assert (sync_streams t !! id = Some p) by (apply Ht; eauto).
    assert (sync_streams t !! id = Some q) by (apply Ht; eauto). congruence.
  - intros id req pid Hpid. simpl.
    destruct (sync_OnStreamRequest_inv t id req Ht) as (t' & -> & Ht' & Hold & Hnew). exists t'.
    destruct (sync_streams t !! id) as [p|] eqn:E.
    + rewrite (Hold p eq_refl). destruct (proj1 (Ht id p) E) as [key Hp]. by exists p, key.
    + destruct (Hnew pid eq_refl Hpid) as (p & _ & Hp). by eexists p, _.
  - intros id. simpl. destruct (sync_OnStreamClosed_inv t id Ht) as (t' & -> & _ & _ & Hs). eauto.
Qed.

(** ** The trackers are safe callbacks *)

(** Nothing can make the sync tracker or the metadata tracker panic, and they
    keep nothing for a stream that is not open. *)
Definition sync_known (ids : gset Z) (t : dataplaneSyncTracker) : Prop :=
  sync_inv t ∧ dom (sync_streams t) ⊆ ids.

Lemma sync_request_dom t id req : dom (sync_streams (sync_OnStreamRequest id req t).2) ⊆ {[id]} ∪ dom (sync_streams t).
Proof.
  unfold sync_OnStreamRequest. destruct (sync_streams t !! id); [set_solver|].
  destruct (ParseProxyId (req_Node req)); simpl; [rewrite dom_insert_L|..]; set_solver.
Qed.

Lemma sync_closed_dom t t' id : sync_OnStreamClosed id t = Some t' →
  dom (sync_streams t') = dom (sync_streams t) ∖ {[id]}.
Proof.
  unfold sync_OnStreamClosed. destruct (sync_streams t !! id); [destruct (close_stop _ _) as [ws|]; [simpl|done]|];
    intros [= <-]; simpl; apply dom_delete_L.
Qed.

#[global] Instance sync_callbacks_safe env_ok : SafeCallbacks env_ok sync_known sync_callbacks.
Proof.
  split; intros env ids id; [intros typ _|intros req Hid|intros req resp _|intros _].
  - intros t [Ht Hd]. split; [done|set_solver].
  - intros t [Ht Hd]. simpl. pose proof (sync_request_dom t id req) as Hr.
    destruct (sync_OnStreamRequest_inv t id req Ht) as (t' & E & Ht' & _). rewrite E in *. split; [done|set_solver].
  - by intros t Ht.
  - intros t [Ht Hd]. unfold run_proc. simpl.
    destruct (sync_OnStreamClosed_inv t id Ht) as (t' & E & Ht' & _). rewrite E.
    split; [done|]. rewrite (sync_closed_dom t t' id E). set_solver.
Qed.

Definition metadata_known (ids : gset Z) (d : gmap Z DataplaneMetadata) : Prop := dom d ⊆ ids.

#[global] Instance metadata_callbacks_safe env_ok :
  SafeCallbacks env_ok metadata_known metadata_callbacks.
Proof.
  unfold metadata_known. split; intros env ids id; [intros typ _|intros req Hid|intros req resp _|intros _]; intros d Hd; simpl.
  - set_solver.
  - unfold Metadata_OnStreamRequest. destruct (req_Node req); [rewrite dom_insert_L|]; set_solver.
  - done.
  - unfold Metadata_OnStreamClosed. rewrite dom_delete_L. set_solver.
Qed.

(** The status tracker panics only when the clock is out of range. *)
Section StatusSafe.
Context (ptypes_TimestampProto : Z → option Timestamp) (GetInstanceId : string).

Definition clock_ok (env : cb_env) : Prop := is_Some (ptypes_TimestampProto (env_now env)).
(** The tracker knows exactly the open streams. *)
Definition status_inv (ids : gset Z) (c : statusTracker) : Prop :=
  tracker_inv c ∧ dom (tr_streams c) = ids.

Lemma status_open ids c id : status_inv ids c → id ∈ ids → ∃ p, tr_streams c !! id = Some p.
Proof. intros [_ <-] Hid%elem_of_dom. exact Hid. Qed.

(** The streams the tracker knows after a callback that returned. *)
Lemma tracker_streams c id c' :
  (∀ now uuid, OnStreamOpen ptypes_TimestampProto GetInstanceId now uuid c id = Ok c' →
     dom (tr_streams c') = {[id]} ∪ dom (tr_streams c))
  ∧ (∀ now req, OnStreamRequest ptypes_TimestampProto now c id req = Ok c' → tr_streams c' = tr_streams c)
  ∧ (∀ now typ, OnStreamResponse ptypes_TimestampProto now c id typ = Ok c' → tr_streams c' = tr_streams c)
  ∧ (∀ now, OnStreamClosed ptypes_TimestampProto now c id = Ok c' →
       dom (tr_streams c') = dom (tr_streams c) ∖ {[id]}).
Proof.
  split; [|split; [|split]].
  - intros now uuid. unfold OnStreamOpen. rewrite rbind_Ok. intros (ts & _ & [= <-]). apply dom_insert_L.
  - intros now req. unfold OnStreamRequest. rewrite rbind_Ok. intros ([p st] & _ & H).
    destruct (if bool_decide _ then _ else _) as [dpId started]. apply rbind_Ok in H as (sub & _ & [= <-]). done.
  - intros now typ. unfold OnStreamResponse. rewrite rbind_Ok. intros ([p st] & _ & H).
    apply rbind_Ok in H as (ts & _ & H). apply rbind_Ok in H as (sub & _ & [= <-]). done.
  - intros now. unfold OnStreamClosed. rewrite rbind_Ok. intros ([p st] & _ & H).
    apply rbind_Ok in H as (ts & _ & H). destruct (stopped st); [done|]. injection H as <-. apply dom_delete_L.
Qed.

(** No method returns an error. *)
Lemma keeps_status (ok : Prop) P Q (f : statusTracker → res statusTracker) :
  (∀ c c', P c → f c = Ok c' → Q c') → (∀ c, P c → ok → ∃ c', f c = Ok c') →
  (∀ c e, f c ≠ Err e) →
  keeps ok P (status_call f) Q ∧ keeps ok P (run_proc (status_proc f)) Q.
Proof.
  intros Hq Hok He. split; intros c Hc; unfold status_call, run_proc, status_proc;
    (destruct (f c) as [c'|e|] eqn:E; [by eapply Hq|by destruct (He c e)|]);
    intros H; destruct (Hok c Hc H) as (c' & Hc'); congruence.
Qed.

Lemma update_status_no_err ts e sub err : update_status ts e sub ≠ Err err.
Proof. unfold update_status, apply_event. destruct (sub_Status sub) as [st|]; [|done]. by destruct (Total st). Qed.

Lemma tracker_no_err c id err :
  (∀ now uuid, OnStreamOpen ptypes_TimestampProto GetInstanceId now uuid c id ≠ Err err)
  ∧ (∀ now req, OnStreamRequest ptypes_TimestampProto now c id req ≠ Err err)
  ∧ (∀ now typ, OnStreamResponse ptypes_TimestampProto now c id typ ≠ Err err)
  ∧ (∀ now, OnStreamClosed ptypes_TimestampProto now c id ≠ Err err).
Proof.
  unfold OnStreamOpen, OnStreamRequest, OnStreamResponse, OnStreamClosed, stream_state, MustTimestampProto.
  split; [|split; [|split]]; intros now; [by destruct (ptypes_TimestampProto now)|..];
    (destruct (tr_streams c !! id) as [p|]; [|done]); (destruct (tr_states c !! p) as [st|]; [|done]); simpl.
  - intros req. destruct (if bool_decide _ then _ else _) as [dpId started].
    destruct (negb _); [|done]. destruct (ptypes_TimestampProto now) as [ts|]; [simpl|done].
    pose proof (update_status_no_err ts (match req_ErrorDetail req with Some _ => EvRejected (req_TypeUrl req)
      | None => EvAcknowledged (req_TypeUrl req) end) (ss_subscription st) err) as Hu.
    destruct (update_status _ _ _); simpl; congruence.
  - intros typ. destruct (ptypes_TimestampProto now) as [ts|]; [simpl|done].
    pose proof (update_status_no_err ts (EvSent typ) (ss_subscription st) err) as Hu.
    destruct (update_status _ _ _); simpl; congruence.
  - destruct (ptypes_TimestampProto now) as [ts|]; [simpl|done]. by destruct (stopped st).
Qed.

#[global] Instance status_callbacks_safe :
  SafeCallbacks clock_ok status_inv (status_callbacks ptypes_TimestampProto GetInstanceId).
Proof.
  split; intros env ids id; [intros typ Hid|intros req Hid|intros req resp Hid|intros Hid]; simpl;
    apply keeps_status; try (intros c e; by apply tracker_no_err).
  - intros c c' [Hc Hd] H. pose proof (proj1 (tracker_streams c id c') _ _ H) as Hs. split; [|by rewrite Hs, Hd].
    eapply OnStreamOpen_inv; [exact Hc| |exact H]. apply not_elem_of_dom. by rewrite Hd.
  - intros c _ [ts Hts]. unfold OnStreamOpen, MustTimestampProto. rewrite Hts. by eexists.
  - intros c c' [Hc Hd] H. pose proof (proj1 (proj2 (tracker_streams c id c')) _ _ H) as Hs.
    split; [by eapply OnStreamRequest_inv|by rewrite Hs].
  - intros c Hc [ts Hts]. destruct (status_open ids c id Hc Hid) as [p Hp].
    destruct (tracker_total _ c id p _ ts (proj1 Hc) Hp Hts) as (_ & Hr & _).
    destruct (Hr req) as (c' & -> & _). eauto.
  - intros c c' [Hc Hd] H. pose proof (proj1 (proj2 (proj2 (tracker_streams c id c'))) _ _ H) as Hs.
    split; [by eapply OnStreamResponse_inv|by rewrite Hs].
  - intros c Hc [ts Hts]. destruct (status_open ids c id Hc Hid) as [p Hp].
    destruct (tracker_total _ c id p _ ts (proj1 Hc) Hp Hts) as (_ & _ & Hr).
    destruct (Hr (dr_TypeUrl resp)) as (c' & -> & _). eauto.
  - intros c c' [Hc Hd] H. pose proof (proj2 (proj2 (proj2 (tracker_streams c id c'))) _ H) as Hs.
    split; [by eapply OnStreamClosed_inv|by rewrite Hs, Hd].
  - intros c Hc [ts Hts]. destruct (status_open ids c id Hc Hid) as [p Hp].
    destruct (tracker_total _ c id p _ ts (proj1 Hc) Hp Hts) as ((c' & -> & _) & _). eauto.
Qed.
End StatusSafe.
