(* ===== verification/XdsServer.v ===== *)
(** * The streaming xDS server

    Models [pkg/xds/server/server.go]: the loop that serves a bidirectional
    stream ([process]), with its watches, nonces and callbacks, and the unary
    fetch methods.

    An iteration of the loop receives either a response on one of the watches or
    a request, and is a function of what was received; the environment chooses
    ([select] picks any ready case).  Iterations of different streams
    interleave: the server is a transition system whose steps are iterations.
    The deferred function of [process] runs when an iteration returns.  The
    channels made by [scheduleResponse] have a buffer and can be closed: closing
    one a second time is a panic.

    The configuration cache ([cache.Cache] of go-control-plane) and the
    marshaller are parameters.  [p_log] records what the code does on the
    outside: callbacks it calls, watches it opens and cancels, responses it
    sends; the code never reads it. *)

From S2P Require Import Prelude Effects GoStd Dataplane Insights CoreXds SnapshotCache StatusTracker Callbacks.
Local Open Scope Z_scope.

(** ** Resource types *)

Inductive xds_type : Type := TEndpoint | TCluster | TRoute | TListener | TSecret | TRuntime.
#[global] Instance xds_type_eq_dec : EqDecision xds_type.
Proof. solve_decision. Defined.
Definition xds_types : list xds_type := [TEndpoint; TCluster; TRoute; TListener; TSecret; TRuntime].

(** The constants of the [cache] package of go-control-plane. *)
Definition SecretType : string := "type.googleapis.com/envoy.api.v2.auth.Secret".
Definition RuntimeType : string := "type.googleapis.com/envoy.service.discovery.v2.Runtime".
Definition AnyType : string := "".
Definition type_url (t : xds_type) : string :=
  match t with
  | TEndpoint => EndpointType | TCluster => ClusterType | TRoute => RouteType
  | TListener => ListenerType | TSecret => SecretType | TRuntime => RuntimeType
  end.

(** The name of a type in the error about a failed watch. *)
Definition watch_name (t : xds_type) : string :=
  match t with
  | TEndpoint => "endpoints" | TCluster => "clusters" | TRoute => "routes"
  | TListener => "listeners" | TSecret => "secrets" | TRuntime => "runtimes"
  end.

(** [status.Errorf]; the gRPC code is part of the error. *)
Definition statusErrorf (code msg : string) : goerror :=
  Errorf "rpc error: code = %s desc = %s" [AStr code; AStr msg].

(** ** The configuration cache

    [CreateWatch] returns a channel, of which the server keeps the identity, and
    possibly a cancel function, of which it keeps the handle. *)
Class Cache (C W R : Type) : Type := {
  cache_Fetch : C → DiscoveryRequest → res (option (@Response R));
  cache_CreateWatch : C → DiscoveryRequest → C * nat * option W;
  cache_cancel : C → W → C;
}.

(** ** createResponse *)

Section Marshal.
Context {R : Type} (Marshal : R → res string).

Definition marshal_any (typeURL : string) (r : R) : res (string * string) :=
  let? bytes := Marshal r in Ok (typeURL, bytes).

Definition server_createResponse (resp : option Response) (typeURL : string) : res DiscoveryResponse :=
  match resp with
  | None => Err (Errorf "missing response" [])
  | Some resp =>
      let? resources := rmapM (marshal_any typeURL) (resp_Resources resp) in
      Ok (mkDiscoveryResponse (resp_Version resp) resources typeURL "")
  end.
End Marshal.

Definition with_nonce (out : DiscoveryResponse) (nonce : string) : DiscoveryResponse :=
  mkDiscoveryResponse (dr_VersionInfo out) (dr_Resources out) (dr_TypeUrl out) nonce.
Definition with_version (req : DiscoveryRequest) (version : string) : DiscoveryRequest :=
  mkRequest (req_Node req) (req_TypeUrl req) (req_ResourceNames req) version (req_ResponseNonce req)
    (req_ErrorDetail req).
Definition with_node (req : DiscoveryRequest) (node : option Node) : DiscoveryRequest :=
  mkRequest node (req_TypeUrl req) (req_ResourceNames req) (req_VersionInfo req) (req_ResponseNonce req)
    (req_ErrorDetail req).
Definition with_type (req : DiscoveryRequest) (typ : string) : DiscoveryRequest :=
  mkRequest (req_Node req) typ (req_ResourceNames req) (req_VersionInfo req) (req_ResponseNonce req)
    (req_ErrorDetail req).

(** ** Streams *)

Section Server.
Context {C W R Cb : Type} `{Cache C W R}.
Context (Marshal : R → res string) (callbacks : option (Callbacks Cb)).

(** A channel of a watch: one the cache made, or one [scheduleResponse] made. *)
Inductive watch_chan : Type :=
| FromCache (ch : nat)
| Scheduled (ch : nat).

(** A cancel function: one of the cache, or one of [scheduleResponse], which
    closes the channel it was made with. *)
Inductive watch_cancel : Type :=
| CancelCache (w : W)
| CancelScheduled (ch : nat).

(** A channel of [scheduleResponse], of capacity one: what is in its buffer, and
    whether it is closed. *)
Record scheduled : Type := mkScheduled { sch_buffer : option (@Response R); sch_closed : bool }.

(** The three fields of [watches] for one type. *)
Record watch : Type := mkXdsWatch {
  chan : option watch_chan;
  cancel : option watch_cancel;
  nonce : string;
}.
Definition no_watch : watch := mkXdsWatch None None "".

Record xds_watches : Type := mkWatches {
  endpoints : watch; clusters : watch; routes : watch;
  listeners : watch; secrets : watch; runtimes : watch;
  endpointNonceAcked : bool;
}.

Definition slot (values : xds_watches) (t : xds_type) : watch :=
  match t with
  | TEndpoint => endpoints values | TCluster => clusters values | TRoute => routes values
  | TListener => listeners values | TSecret => secrets values | TRuntime => runtimes values
  end.
Definition set_slot (values : xds_watches) (t : xds_type) (w : watch) : xds_watches :=
  let 'mkWatches e c r l s u a := values in
  match t with
  | TEndpoint => mkWatches w c r l s u a | TCluster => mkWatches e w r l s u a
  | TRoute => mkWatches e c w l s u a | TListener => mkWatches e c r w s u a
  | TSecret => mkWatches e c r l w u a | TRuntime => mkWatches e c r l s w a
  end.
Definition set_acked (values : xds_watches) (acked : bool) : xds_watches :=
  let 'mkWatches e c r l s u _ := values in mkWatches e c r l s u acked.

(** What happens on the outside. *)
Inductive action : Type :=
| ActOpen (typ : string)                  (* OnStreamOpen *)
| ActRequest (req : DiscoveryRequest)     (* OnStreamRequest *)
| ActResponse (resp : DiscoveryResponse)  (* OnStreamResponse *)
| ActClosed                               (* OnStreamClosed *)
| ActSend (resp : DiscoveryResponse)      (* stream.Send *)
| ActWatch (w : option W)                 (* CreateWatch, and its cancel function *)
| ActCancel (w : W).                      (* the call of a cancel function of the cache *)

(** The variables of [process] and what it shares with other streams. *)
Record pst : Type := mkPst {
  p_cache : C;
  p_cb : Cb;
  p_nonce : Z;                            (* streamNonce *)
  p_scheduled : list scheduled;           (* the channels scheduleResponse made *)
  p_values : xds_watches;
  p_node : option Node;
  p_log : list action;
}.
Definition log (a : action) : ST pst unit :=
  st_modify (λ p, mkPst (p_cache p) (p_cb p) (p_nonce p) (p_scheduled p) (p_values p) (p_node p) (p_log p ++ [a])).
Definition set_values (v : xds_watches) : ST pst unit :=
  st_modify (λ p, mkPst (p_cache p) (p_cb p) (p_nonce p) (p_scheduled p) v (p_node p) (p_log p)).
Definition set_scheduled (l : list scheduled) : ST pst unit :=
  st_modify (λ p, mkPst (p_cache p) (p_cb p) (p_nonce p) l (p_values p) (p_node p) (p_log p)).
Definition set_nonce (n : Z) : ST pst unit :=
  st_modify (λ p, mkPst (p_cache p) (p_cb p) n (p_scheduled p) (p_values p) (p_node p) (p_log p)).
Definition set_node (node : option Node) : ST pst unit :=
  st_modify (λ p, mkPst (p_cache p) (p_cb p) (p_nonce p) (p_scheduled p) (p_values p) node (p_log p)).
Definition on_cb {A} (m : ST Cb A) : ST pst A :=
  zoom p_cb (λ cb p, mkPst (p_cache p) cb (p_nonce p) (p_scheduled p) (p_values p) (p_node p) (p_log p)) m.
Definition on_cache {A} (m : ST C A) : ST pst A :=
  zoom p_cache (λ c p, mkPst c (p_cb p) (p_nonce p) (p_scheduled p) (p_values p) (p_node p) (p_log p)) m.

(** [if s.callbacks != nil { ... }]. *)
Definition with_callbacks (a : action) (f : Callbacks Cb → ST Cb unit) : ST pst unit :=
  match callbacks with
  | None => mret ()
  | Some cb => _ ← log a; on_cb (f cb)
  end.

(** The call of a cancel function, if there is one.  That of [scheduleResponse]
    closes its channel, which panics when the channel is closed already, and then
    takes what is in the buffer. *)
Definition call_cancel (c : option watch_cancel) : ST pst unit :=
  match c with
  | Some (CancelCache w) => _ ← log (ActCancel w); on_cache (st_modify (λ c, cache_cancel c w))
  | Some (CancelScheduled ch) =>
      l ← st_get p_scheduled;
      match l !! ch with
      | Some (mkScheduled _ false) => set_scheduled (<[ch := mkScheduled None true]> l)
      | _ => st_panic
      end
  | None => mret ()
  end.

Definition CreateWatch_ (req : DiscoveryRequest) : ST pst (nat * option W) :=
  r ← on_cache (λ c, let '(c', ch, w) := cache_CreateWatch c req in (Ok (ch, w), c'));
  _ ← log (ActWatch r.2);
  mret r.

(** [values.Cancel()]. *)
Definition Cancel (values : xds_watches) : ST pst unit :=
  st_iter (λ t, call_cancel (cancel (slot values t))) xds_types.

(** The closure [send]; [sent] is what [stream.Send] returns. *)
Definition send (env : cb_env) (streamID : Z) (sent : option goerror) (resp : Response) (typeURL : string)
  : ST pst string :=
  out ← st_lift (server_createResponse Marshal (Some resp) typeURL);
  n ← st_get p_nonce;
  let n' := wrap_int (n + 1) in
  _ ← set_nonce n';
  let out := with_nonce out (itoa n') in
  _ ← with_callbacks (ActResponse out)
        (λ cb, run_proc (cb_OnStreamResponse cb env streamID (resp_Request resp) out));
  _ ← log (ActSend out);
  match sent with None => mret (dr_Nonce out) | Some e => fail e end.

(** The closure [scheduleResponse]. *)
Definition scheduleResponse (resp : Response) : ST pst (watch_chan * watch_cancel) :=
  l ← st_get p_scheduled;
  _ ← set_scheduled (l ++ [mkScheduled (Some resp) false]);
  mret (Scheduled (length l), CancelScheduled (length l)).

(** Receiving from a channel empties its buffer. *)
Definition receive (ch : option watch_chan) : ST pst unit :=
  match ch with
  | Some (Scheduled ch) =>
      l ← st_get p_scheduled;
      set_scheduled (alter (λ s, mkScheduled None (sch_closed s)) ch l)
  | _ => mret ()
  end.

(** The closure [peekResponse]. *)
Definition peekResponse (req : DiscoveryRequest) : ST pst (option Response) :=
  r ← try (c ← st_get p_cache; st_lift (cache_Fetch c (with_version req "")));
  mret (match r with
        | inr (Some resp) =>
            Some (mkResponse (with_version (resp_Request resp) (req_VersionInfo req)) (resp_Version resp)
                    (resp_Resources resp))
        | _ => None
        end).

(** *** The cases of the loop *)

(** [case resp, more := <-values.x]: [None] when the channel was closed.  The
    result says whether the loop goes on. *)
Definition on_response (env : cb_env) (streamID : Z) (sent : option goerror) (t : xds_type)
    (resp : option Response) : ST pst bool :=
  match resp with
  | None => fail (statusErrorf "Unavailable" (watch_name t +:+ " watch failed"))
  | Some resp =>
      values ← st_get p_values;
      _ ← receive (chan (slot values t));
      n ← send env streamID sent resp (type_url t);
      values ← st_get p_values;
      let w := slot values t in
      let values := set_slot values t (mkXdsWatch (chan w) (cancel w) n) in
      _ ← set_values (match t with TEndpoint => set_acked values false | _ => values end);
      mret true
  end.

(** The condition on the nonce in the cases of the [switch]. *)
Definition nonce_ok (values : xds_watches) (t : xds_type) (nonce_ : string) : bool :=
  String.eqb (nonce (slot values t)) "" || String.eqb (nonce (slot values t)) nonce_.

(** The case of the [switch] on a request, if any: the code lists the types in
    this order. *)
Definition switch (values : xds_watches) (req : DiscoveryRequest) : option xds_type :=
  List.find (λ t, String.eqb (req_TypeUrl req) (type_url t) && nonce_ok values t (req_ResponseNonce req))
    xds_types.

Definition open_watch_ (t : xds_type) (req : DiscoveryRequest) : ST pst unit :=
  r ← CreateWatch_ req;
  values ← st_get p_values;
  set_values (set_slot values t
    (mkXdsWatch (Some (FromCache r.1)) (CancelCache <$> r.2) (nonce (slot values t)))).

(** The case of endpoints. *)
Definition endpoint_request (req : DiscoveryRequest) : ST pst unit :=
  values ← st_get p_values;
  resp ← (if endpointNonceAcked values then peekResponse req else mret None);
  let n := nonce (endpoints values) in
  _ ← set_values (set_acked values (negb (String.eqb n "") && String.eqb n (req_ResponseNonce req)));
  _ ← call_cancel (cancel (endpoints values));
  match resp with
  | Some resp =>
      r ← scheduleResponse resp;
      values ← st_get p_values;
      set_values (set_slot values TEndpoint (mkXdsWatch (Some r.1) (Some r.2) (nonce (endpoints values))))
  | None => open_watch_ TEndpoint req
  end.

Definition dispatch (req : DiscoveryRequest) : ST pst unit :=
  values ← st_get p_values;
  match switch values req with
  | Some TEndpoint => endpoint_request req
  | Some t => _ ← call_cancel (cancel (slot values t)); open_watch_ t req
  | None => mret ()
  end.

(** [case req, more := <-reqCh]: [None] when the channel was closed, [Some None]
    for a nil request. *)
Definition on_request (env : cb_env) (streamID : Z) (defaultTypeURL : string)
    (req : option (option DiscoveryRequest)) : ST pst bool :=
  match req with
  | None => mret false
  | Some None => fail (statusErrorf "Unavailable" "empty request")
  | Some (Some req) =>
      node ← st_get p_node;
      let node' := match req_Node req with Some n => Some n | None => node end in
      _ ← set_node node';
      let req := with_node req node' in
      req ← (if String.eqb defaultTypeURL AnyType then
               if String.eqb (req_TypeUrl req) ""
               then fail (statusErrorf "InvalidArgument" "type URL is required for ADS")
               else mret req
             else mret (if String.eqb (req_TypeUrl req) "" then with_type req defaultTypeURL else req));
      _ ← with_callbacks (ActRequest req) (λ cb, cb_OnStreamRequest cb env streamID req);
      _ ← dispatch req;
      mret true
  end.

(** What an iteration receives. *)
Inductive input : Type :=
| InResponse (t : xds_type) (resp : option (@Response R)) (sent : option goerror)
| InRequest (req : option (option DiscoveryRequest)).

Definition iteration (env : cb_env) (streamID : Z) (defaultTypeURL : string) (i : input) : ST pst bool :=
  match i with
  | InResponse t resp sent => on_response env streamID sent t resp
  | InRequest req => on_request env streamID defaultTypeURL req
  end.

(** The deferred function. *)
Definition deferred (env : cb_env) (streamID : Z) : ST pst unit :=
  values ← st_get p_values;
  _ ← Cancel values;
  with_callbacks ActClosed (λ cb, run_proc (cb_OnStreamClosed cb env streamID)).

Definition no_watches : xds_watches :=
  mkWatches no_watch no_watch no_watch no_watch no_watch no_watch false.

(** ** The server *)

(** The variables of a running [process]. *)
Record xds_stream : Type := mkXdsStream {
  s_type : string;                        (* defaultTypeURL *)
  s_nonce : Z;
  s_scheduled : list scheduled;
  s_values : xds_watches;
  s_node : option Node;
  s_log : list action;
}.

Record xds_server : Type := mkXdsServer {
  srv_cache : C;
  srv_cb : Cb;
  streamCount : Z;
  srv_streams : gmap Z xds_stream;        (* running *)
  srv_ended : gmap Z (string * list action * res unit);
}.

Definition load (srv : xds_server) (l : xds_stream) : pst :=
  mkPst (srv_cache srv) (srv_cb srv) (s_nonce l) (s_scheduled l) (s_values l) (s_node l) (s_log l).
Definition running (srv : xds_server) (id : Z) (typ : string) (p : pst) : xds_server :=
  mkXdsServer (p_cache p) (p_cb p) (streamCount srv)
    (<[id := mkXdsStream typ (p_nonce p) (p_scheduled p) (p_values p) (p_node p) (p_log p)]> (srv_streams srv))
    (srv_ended srv).

(** [process] returns [r] in state [p]. *)
Definition return_ (env : cb_env) (srv : xds_server) (id : Z) (typ : string) (r : res unit) (p : pst)
  : res xds_server :=
  match deferred env id p with
  | (Ok _, p') =>
      Ok (mkXdsServer (p_cache p') (p_cb p') (streamCount srv) (delete id (srv_streams srv))
            (<[id := (typ, p_log p', r)]> (srv_ended srv)))
  | _ => Panic
  end.

(** [process] up to its loop. *)
Definition start (env : cb_env) (typ : string) (srv : xds_server) : res xds_server :=
  let id := wrap_int (streamCount srv + 1) in
  let srv := mkXdsServer (srv_cache srv) (srv_cb srv) id (srv_streams srv) (srv_ended srv) in
  let p := mkPst (srv_cache srv) (srv_cb srv) 0 [] no_watches (Some (mkNode "" None)) [] in
  match with_callbacks (ActOpen typ) (λ cb, cb_OnStreamOpen cb env id typ) p with
  | (Ok _, p') => Ok (running srv id typ p')
  | (Err e, p') => return_ env srv id typ (Err e) p'
  | (Panic, _) => Panic
  end.

(** An iteration of a running stream. *)
Definition iterate (env : cb_env) (id : Z) (l : xds_stream) (i : input) (srv : xds_server)
  : res xds_server :=
  match iteration env id (s_type l) i (load srv l) with
  | (Ok true, p) => Ok (running srv id (s_type l) p)
  | (Ok false, p) => return_ env srv id (s_type l) (Ok ()) p
  | (Err e, p) => return_ env srv id (s_type l) (Err e) p
  | (Panic, _) => Panic
  end.

(** A case of the [select] is ready.  A nil channel never is; what the cache
    sends on its channels is up to the cache. *)
Definition ready (l : xds_stream) (i : input) : Prop :=
  match i with
  | InResponse t resp _ =>
      match chan (slot (s_values l) t) with
      | None => False
      | Some (FromCache _) => True
      | Some (Scheduled ch) =>
          match s_scheduled l !! ch with
          | Some (mkScheduled (Some buffered) _) => resp = Some buffered
          | Some (mkScheduled None closed) => closed = true ∧ resp = None
          | None => False
          end
      end
  | InRequest _ => True
  end.

(** The steps of the server, and of what else changes the cache and the state of
    the callbacks (snapshots that are set, goroutines of the trackers).  A server
    opens fewer than [2 ^ 63] streams. *)
Inductive xds_step (other : C * Cb → C * Cb → Prop) : xds_server → xds_server → Prop :=
| x_start env typ srv srv' :
    streamCount srv < 2 ^ 63 - 1 → start env typ srv = Ok srv' → xds_step other srv srv'
| x_iterate env id l i srv srv' :
    srv_streams srv !! id = Some l → ready l i → iterate env id l i srv = Ok srv' → xds_step other srv srv'
| x_other srv c cb :
    other (srv_cache srv, srv_cb srv) (c, cb) →
    xds_step other srv (mkXdsServer c cb (streamCount srv) (srv_streams srv) (srv_ended srv)).

Definition NewServer (c : C) (cb : Cb) : xds_server := mkXdsServer c cb 0 ∅ ∅.

(** ** What an iteration does *)

(** Not the start or the end of a stream. *)
Definition inner (a : action) : bool :=
  match a with ActOpen _ | ActClosed => false | _ => true end.
Definition sent_of (a : action) : option DiscoveryResponse :=
  match a with ActSend out => Some out | _ => None end.
Definition watched_of (a : action) : option W :=
  match a with ActWatch w => w | _ => None end.
Definition cancelled_of (a : action) : option W :=
  match a with ActCancel w => Some w | _ => None end.

(** The watches of the cache that are open. *)
Definition current_of (w : watch) : option W :=
  match cancel w with Some (CancelCache w) => Some w | _ => None end.
Definition current (values : xds_watches) : list W :=
  omap (λ t, current_of (slot values t)) xds_types.

(** The nonce of the last response of a type. *)
Definition last_nonce (l : list action) (t : xds_type) : string :=
  match last (List.filter (λ out, String.eqb (dr_TypeUrl out) (type_url t)) (omap sent_of l)) with
  | Some out => dr_Nonce out
  | None => ""
  end.

Lemma slot_set values t t' w : slot (set_slot values t w) t' = if decide (t' = t) then w else slot values t'.
Proof. destruct values; by destruct t, t'. Qed.
Lemma slot_acked values b t : slot (set_acked values b) t = slot values t.
Proof. destruct values; by destruct t. Qed.

Lemma current_ext v v' :
  (∀ t, current_of (slot v t) = current_of (slot v' t)) → current v = current v'.
Proof. intros Hv. unfold current. induction xds_types as [|t l IH]; simpl; [done|].
  rewrite Hv. destruct (current_of _); [f_equal|]; exact IH. Qed.

(** Replacing a watch changes one entry of the list of open ones. *)
Lemma current_set values t w :
  option_list (current_of (slot values t)) ++ current (set_slot values t w)
  ≡ₚ option_list (current_of w) ++ current values.
Proof.
  unfold current. set (g := λ o : option W, option_list o).
  assert (∀ v, omap (λ t, current_of (slot v t)) xds_types
    = xds_types ≫= λ t, option_list (current_of (slot v t))) as Hb.
  { intros v. unfold xds_types. simpl. repeat (case_match; simpl; [f_equal|]); done. }
  rewrite !Hb. destruct values as [e c r l s u a]. destruct t; simpl; rewrite ?app_nil_r; solve_Permutation.
Qed.

(** What calls leave in the log, and that they account for the watches they
    open and cancel. *)
Definition effect (outs : list DiscoveryResponse) (p p' : pst) : Prop :=
  ∃ added, p_log p' = p_log p ++ added ∧ Forall (λ a, inner a = true) added
  ∧ omap sent_of added = outs
  ∧ omap watched_of added ++ current (p_values p) ≡ₚ omap cancelled_of added ++ current (p_values p').

Lemma effect_same p p' :
  p_log p' = p_log p → current (p_values p') = current (p_values p) → effect [] p p'.
Proof. intros Hl Hv. exists []. by rewrite Hl, Hv, app_nil_r. Qed.

Lemma effect_trans o1 o2 p p1 p2 : effect o1 p p1 → effect o2 p1 p2 → effect (o1 ++ o2) p p2.
Proof.
  intros (a1 & Hl1 & Hi1 & <- & Hw1) (a2 & Hl2 & Hi2 & <- & Hw2). exists (a1 ++ a2).
  split; [by rewrite Hl2, Hl1, app_assoc|]. split; [by apply Forall_app|]. split; [by rewrite omap_app|].
  rewrite !omap_app, <- !app_assoc.
  rewrite (Permutation_app_comm (omap watched_of a2)), app_assoc, Hw1, <- app_assoc.
  by rewrite (Permutation_app_comm (current (p_values p1))), Hw2.
Qed.

(** The variables that only the code of the stream itself changes. *)
Definition same_vars (p p' : pst) : Prop :=
  p_nonce p' = p_nonce p ∧ p_values p' = p_values p ∧ p_node p' = p_node p ∧ p_scheduled p' = p_scheduled p.

(** The channel [k] of [scheduleResponse] may be closed: it was not yet. *)
Definition open_chan (p : pst) (k : nat) : Prop := ∃ b, p_scheduled p !! k = Some (mkScheduled b false).
Definition callable (c : option watch_cancel) (p : pst) : Prop :=
  match c with Some (CancelScheduled k) => open_chan p k | _ => True end.

(** No cancel function that is left in [values] has been called yet, and only
    endpoints have one of [scheduleResponse]. *)
Definition sched_ok (p : pst) : Prop :=
  ∀ t k, cancel (slot (p_values p) t) = Some (CancelScheduled k) → t = TEndpoint ∧ open_chan p k.

Lemma sched_ok_callable p t : sched_ok p → callable (cancel (slot (p_values p) t)) p.
Proof. intros Hs. destruct (cancel (slot (p_values p) t)) as [[w|k]|] eqn:E; [done| |done]. by apply (Hs t k). Qed.

(** Open channels stay open, and no cancel function appears. *)
Lemma sched_ok_mono p p' :
  (∀ t, cancel (slot (p_values p') t) = cancel (slot (p_values p) t)) →
  (∀ k, open_chan p k → open_chan p' k) → sched_ok p → sched_ok p'.
Proof. intros Hc Ho Hs t k. rewrite Hc. intros [-> Hk]%Hs. eauto. Qed.

Lemma open_chan_same p p' k : p_scheduled p' = p_scheduled p → open_chan p k → open_chan p' k.
Proof. unfold open_chan. by intros ->. Qed.

Lemma sched_ok_same p p' : same_vars p p' → sched_ok p → sched_ok p'.
Proof.
  intros (_ & Hv & _ & Hs). apply sched_ok_mono; [by rewrite Hv|]. intros k. by apply open_chan_same.
Qed.

(** What [with_callbacks] logs. *)
Definition cb_log (a : action) : list action := match callbacks with Some _ => [a] | None => [] end.

Lemma with_callbacks_spec a f p :
  let (r, p') := with_callbacks a f p in
  same_vars p p' ∧ p_cache p' = p_cache p ∧ p_log p' = p_log p ++ cb_log a ∧
  match callbacks with
  | Some cb => f cb (p_cb p) = (r, p_cb p')
  | None => r = Ok () ∧ p_cb p' = p_cb p
  end.
Proof.
  unfold with_callbacks, cb_log. destruct callbacks as [cb|].
  - unfold mbind, ST_bind, log, st_modify, on_cb, zoom. simpl. by destruct (f cb (p_cb p)) as [r cb'] eqn:E.
  - simpl. by rewrite app_nil_r.
Qed.

Lemma effect_log a p p' :
  inner a = true → watched_of a = None → cancelled_of a = None →
  p_log p' = p_log p ++ [a] → p_values p' = p_values p → effect (option_list (sent_of a)) p p'.
Proof.
  intros Hi Hw Hc Hl Hv. exists [a]. split; [done|]. split; [by repeat constructor|]. simpl.
  rewrite Hw, Hc, Hv. by destruct (sent_of a).
Qed.

Lemma send_spec env id sent resp typ p :
  let (r, p') := send env id sent resp typ p in
  match r with
  | Panic => True
  | _ =>
      (p' = p ∧ ∃ e, r = Err e)
      ∨ ∃ out, server_createResponse Marshal (Some resp) typ = Ok out
        ∧ p_nonce p' = wrap_int (p_nonce p + 1) ∧ p_values p' = p_values p ∧ p_scheduled p' = p_scheduled p
        ∧ effect [with_nonce out (itoa (p_nonce p'))] p p'
        ∧ match r with Ok n => sent = None ∧ n = itoa (p_nonce p') | _ => is_Some sent end
  end.
Proof.
  unfold send, mbind, ST_bind, st_lift.
  destruct (server_createResponse Marshal (Some resp) typ) as [out|e|] eqn:E; simpl; [|left; eauto|done].
  match goal with |- context [with_callbacks ?a ?f ?q] =>
    pose proof (with_callbacks_spec a f q) as Hcb; destruct (with_callbacks a f q) as [r p1] end.
  destruct Hcb as ((Hn & Hv & _ & Hsc) & _ & Hlog & Hr). simpl in Hn, Hv, Hsc, Hlog.
  assert (∀ e, r ≠ Err e) as Hne.
  { intros e ->. destruct callbacks; [|naive_solver]. unfold run_proc in Hr. by destruct (cb_OnStreamResponse _ _ _ _ _ _). }
  destruct r as [[]|e|]; [|by destruct (Hne e)|done]. unfold log, st_modify. simpl.
  set (out' := with_nonce out (itoa (wrap_int (p_nonce p + 1)))) in *.
  assert (effect [out'] p (mkPst (p_cache p1) (p_cb p1) (p_nonce p1) (p_scheduled p1) (p_values p1) (p_node p1)
    (p_log p1 ++ [ActSend out']))) as Heff.
  { exists (cb_log (ActResponse out') ++ [ActSend out']). simpl. rewrite Hlog, <- app_assoc, Hv. unfold cb_log.
    destruct callbacks; simpl; (split; [done|]); (split; [by repeat constructor|]); done. }
  destruct sent as [e|]; simpl; right; exists out; rewrite Hn in *;
    (split; [done|]); (split; [done|]); (split; [done|]); (split; [done|]); (split; [exact Heff|]); done.
Qed.

Lemma receive_spec ch p :
  let (r, p') := receive ch p in
  r = Ok () ∧ p_cb p' = p_cb p ∧ p_nonce p' = p_nonce p ∧ p_values p' = p_values p ∧ p_log p' = p_log p
  ∧ ∀ k, open_chan p k → open_chan p' k.
Proof.
  destruct ch as [[ch|ch]|]; [by repeat split| |by repeat split].
  unfold receive, mbind, ST_bind. simpl. do 5 (split; [done|]). intros k [b Hb]. unfold open_chan. simpl.
  destruct (decide (ch = k)) as [->|Hne].
  - rewrite list_lookup_alter_eq, Hb. simpl. by eexists.
  - rewrite list_lookup_alter_ne by done. by eexists.
Qed.

Lemma on_response_spec env id sent t resp p :
  let (r, p') := on_response env id sent t resp p in
  match r with
  | Panic => True
  | Ok b => b = true ∧ p_nonce p' = wrap_int (p_nonce p + 1)
      ∧ (∃ out, dr_TypeUrl out = type_url t ∧ effect [with_nonce out (itoa (p_nonce p'))] p p')
      ∧ (sched_ok p → sched_ok p')
      ∧ ∀ t', nonce (slot (p_values p') t') = if decide (t' = t) then itoa (p_nonce p')
                                              else nonce (slot (p_values p) t')
  | Err _ => (sched_ok p → sched_ok p')
      ∧ (effect [] p p' ∧ p_nonce p' = p_nonce p
         ∨ ∃ out, effect [with_nonce out (itoa (p_nonce p'))] p p' ∧ p_nonce p' = wrap_int (p_nonce p + 1))
  end.
Proof.
  unfold on_response. destruct resp as [resp|]; [|split; [done|left; split; [by apply effect_same|done]]].
  unfold mbind, ST_bind. simpl.
  pose proof (receive_spec (chan (slot (p_values p) t)) p) as Hrc.
  destruct (receive _ p) as [r0 q]. destruct Hrc as (-> & _ & Hqn & Hqv & Hql & Hqs).
  pose proof (send_spec env id sent resp (type_url t) q) as Hs.
  destruct (send env id sent resp (type_url t) q) as [r p1].
  assert (effect [] p q) as He0 by (apply effect_same; congruence).
  assert (sched_ok p → sched_ok q) as Hq0 by (apply sched_ok_mono; [by rewrite Hqv|done]).
  destruct r as [n|e|]; [| |done].
  - destruct Hs as [(_ & e & He)|(out & Hout & Hn & Hv & Hsc & Heff & _ & ->)]; [done|]. simpl.
    set (v2 := match t with TEndpoint => _ | _ => _ end).
    assert (∀ t', slot v2 t' = if decide (t' = t)
      then mkXdsWatch (chan (slot (p_values p) t)) (cancel (slot (p_values p) t)) (itoa (p_nonce p1))
      else slot (p_values p) t') as Hv2.
    { intros t'. unfold v2. rewrite Hv, Hqv. destruct t; rewrite ?slot_acked, slot_set; done. }
    split; [done|]. split; [by rewrite Hn, Hqn|]. split; [|split].
    + exists out. split.
      { unfold server_createResponse in Hout. by apply rbind_Ok in Hout as (rs & _ & [= <-]). }
      change [with_nonce out (itoa (p_nonce p1))] with ([] ++ [with_nonce out (itoa (p_nonce p1))] ++ []).
      eapply effect_trans; [exact He0|]. eapply effect_trans; [exact Heff|]. apply effect_same; [done|]. simpl.
      rewrite Hv, Hqv. apply current_ext. intros t'. rewrite Hv2. by case_decide; [subst|].
    + apply sched_ok_mono; simpl.
      * intros t'. rewrite Hv2. by case_decide; [subst|].
      * intros k Hk%Hqs. by apply (open_chan_same q).
    + intros t'. rewrite Hv2. by case_decide.
  - destruct Hs as [(-> & _)|(out & _ & Hn & Hv & Hsc & Heff & _)]; [by split; [|left]|]. split.
    + intros Hp%Hq0. revert Hp. apply sched_ok_mono; [by rewrite Hv|]. intros k. by apply open_chan_same.
    + right. exists out. split; [|by rewrite Hn, Hqn].
      change [with_nonce out (itoa (p_nonce p1))] with ([] ++ [with_nonce out (itoa (p_nonce p1))]).
      by eapply effect_trans.
Qed.

(** *** Requests *)

(** The old watch is cancelled, the new one takes its place. *)
Definition replaced (t : xds_type) (p p' : pst) : Prop :=
  p_nonce p' = p_nonce p ∧ p_cb p' = p_cb p ∧ effect [] p p' ∧ (sched_ok p → sched_ok p')
  ∧ (∀ t', nonce (slot (p_values p') t') = nonce (slot (p_values p) t'))
  ∧ (∀ t', t' ≠ t → slot (p_values p') t' = slot (p_values p) t').

(** A cancel function panics only when the channel it closes was closed. *)
Lemma call_cancel_spec c p :
  let (r, p') := call_cancel c p in
  (callable c p → r = Ok ()) ∧ (r ≠ Panic → r = Ok ())
  ∧ p_nonce p' = p_nonce p ∧ p_values p' = p_values p ∧ p_cb p' = p_cb p
  ∧ p_log p' = p_log p ++ match c with Some (CancelCache w) => [ActCancel w] | _ => [] end
  ∧ ∀ k, c ≠ Some (CancelScheduled k) → open_chan p k → open_chan p' k.
Proof.
  destruct c as [[w|ch]|]; [by repeat split| |simpl; rewrite app_nil_r; by repeat split].
  unfold call_cancel, mbind, ST_bind, st_get, callable, open_chan. rewrite app_nil_r.
  destruct (p_scheduled p !! ch) as [[b []]|] eqn:E; simpl.
  - split; [by intros [? [=]]|]. by repeat split.
  - do 6 (split; [done|]). intros k Hne [b' Hb']. exists b'. rewrite list_lookup_insert_ne; [done|congruence].
  - split; [by intros [? [=]]|]. by repeat split.
Qed.

(** Calling it twice crashes the server. *)
Lemma call_cancel_twice k p : open_chan p k →
  ((call_cancel (Some (CancelScheduled k)) ≫= λ _, call_cancel (Some (CancelScheduled k))) p).1 = Panic.
Proof.
  intros [b Hb]. unfold call_cancel, mbind, ST_bind, st_get. rewrite Hb. simpl.
  by rewrite list_lookup_insert_eq by (by eapply lookup_lt_Some).
Qed.

(** Installing [new] in the place of the watch of [t], with what was logged. *)
Lemma replaced_intro t p p' new l :
  p_nonce p' = p_nonce p → p_cb p' = p_cb p →
  (∀ t', slot (p_values p') t' = if decide (t' = t) then new else slot (p_values p) t') →
  nonce new = nonce (slot (p_values p) t) →
  p_log p' = p_log p ++ match cancel (slot (p_values p) t) with
                        | Some (CancelCache w) => [ActCancel w]
                        | _ => []
                        end ++ l →
  Forall (λ a, inner a = true) l → omap sent_of l = [] → omap cancelled_of l = [] →
  omap watched_of l = option_list (current_of new) →
  (∀ k, cancel (slot (p_values p) t) ≠ Some (CancelScheduled k) → open_chan p k → open_chan p' k) →
  (∀ k, cancel new = Some (CancelScheduled k) → t = TEndpoint ∧ open_chan p' k) →
  replaced t p p'.
Proof.
  intros Hn Hcb Hs Hnn Hl Hi Hse Hca Hwa Ho Hno. split; [done|]. split; [done|]. split; [|split; [|split]].
  - eexists. split; [exact Hl|].
    assert (omap watched_of l ++ current (p_values p) ≡ₚ
      option_list (current_of (slot (p_values p) t)) ++ current (p_values p')) as Hp.
    { rewrite Hwa, (current_ext (p_values p') (set_slot (p_values p) t new)).
      - by rewrite current_set.
      - intros t'. by rewrite Hs, slot_set. }
    rewrite !omap_app, Hse, Hca, app_nil_r. unfold current_of in Hp.
    by destruct (cancel (slot (p_values p) t)) as [[w|]|]; simpl in Hp |- *; eauto using Forall_cons_2.
  - intros Hp t' k. rewrite Hs. case_decide as Ht; [subst t'; apply Hno|]. intros Hc.
    destruct (Hp t' k Hc) as [-> Hk]. split; [done|]. apply Ho; [|done]. intros Hk'. by destruct (Hp t k Hk').
  - intros t'. rewrite Hs. by case_decide; [subst|].
  - intros t' Hne. by rewrite Hs, decide_False.
Qed.

Lemma replace_spec t req p p0 :
  p_log p0 = p_log p → p_nonce p0 = p_nonce p → p_cb p0 = p_cb p → p_scheduled p0 = p_scheduled p →
  (∀ t', slot (p_values p0) t' = slot (p_values p) t') →
  let (r, p') := (call_cancel (cancel (slot (p_values p) t)) ≫= λ _, open_watch_ t req) p0 in
  (sched_ok p → r ≠ Panic) ∧ (r ≠ Panic → r = Ok () ∧ replaced t p p').
Proof.
  intros Hl Hn Hcb Hsc Hv. set (c := cancel (slot (p_values p) t)).
  assert (sched_ok p → callable c p0) as Hcall.
  { intros Hp%(sched_ok_callable p t). fold c in Hp. destruct c as [[w|k]|]; [done| |done].
    by apply (open_chan_same p). }
  pose proof (call_cancel_spec c p0) as Hcc. unfold mbind at 1, ST_bind at 1.
  destruct (call_cancel c p0) as [r p1]. destruct Hcc as (Hok & Hnp & Hn1 & Hv1 & Hcb1 & Hl1 & Ho1).
  destruct r as [[]|e|]; [| |split; [intros Hp%Hcall%Hok; discriminate|done]]; [|by specialize (Hnp ltac:(done))].
  unfold open_watch_, CreateWatch_, mbind, ST_bind, on_cache, zoom. simpl.
  destruct (cache_CreateWatch (p_cache p1) req) as [[c' ch] w]. simpl. split; [done|]. split; [done|].
  apply (replaced_intro t _ _ (mkXdsWatch (Some (FromCache ch)) (CancelCache <$> w) (nonce (slot (p_values p) t)))
    [ActWatch w]); simpl; try congruence.
  - intros t'. rewrite Hv1, slot_set, !Hv. by case_decide.
  - by rewrite Hl1, Hl, <- app_assoc.
  - by repeat constructor.
  - unfold current_of; simpl. by destruct w.
  - intros k Hk Hp. apply (open_chan_same p1); [done|]. apply Ho1; [done|]. by apply (open_chan_same p).
  - intros k. by destruct w.
Qed.

Lemma peekResponse_spec req p :
  let (r, p') := peekResponse req p in
  p' = p ∧ ((∀ c req, cache_Fetch c req ≠ Panic) → r ≠ Panic) ∧ (r = Panic ∨ ∃ o, r = Ok o).
Proof.
  unfold peekResponse, mbind, ST_bind, try. simpl.
  destruct (cache_Fetch _ _) as [o|e|] eqn:E; (split; [done|]); (split; [|eauto]); [done|done|].
  intros Hf. by destruct (Hf _ _ E).
Qed.

(** The watch of [scheduleResponse] in the place of the one of endpoints. *)
Lemma scheduled_replaced resp p p0 p1 :
  p_log p0 = p_log p → p_nonce p0 = p_nonce p → p_cb p0 = p_cb p → p_scheduled p0 = p_scheduled p →
  (∀ t', slot (p_values p0) t' = slot (p_values p) t') →
  call_cancel (cancel (endpoints (p_values p))) p0 = (Ok (), p1) →
  replaced TEndpoint p
    (mkPst (p_cache p1) (p_cb p1) (p_nonce p1) (p_scheduled p1 ++ [mkScheduled (Some resp) false])
       (set_slot (p_values p1) TEndpoint
          (mkXdsWatch (Some (Scheduled (length (p_scheduled p1)))) (Some (CancelScheduled (length (p_scheduled p1))))
             (nonce (endpoints (p_values p1))))) (p_node p1) (p_log p1)).
Proof.
  intros Hl Hn Hcb Hsc Hv Hcc. pose proof (call_cancel_spec (cancel (endpoints (p_values p))) p0) as Hs.
  rewrite Hcc in Hs. destruct Hs as (_ & _ & Hn1 & Hv1 & Hcb1 & Hl1 & Ho1).
  assert (∀ l, open_chan p1 l → ∀ q, p_scheduled q = p_scheduled p1 ++ [mkScheduled (Some resp) false] →
    open_chan q l) as Happ.
  { intros l [b Hb] q Hq. exists b. rewrite Hq. by apply lookup_app_l_Some. }
  apply (replaced_intro TEndpoint _ _ (mkXdsWatch (Some (Scheduled (length (p_scheduled p1))))
    (Some (CancelScheduled (length (p_scheduled p1)))) (nonce (endpoints (p_values p1)))) []); simpl; try congruence.
  - intros t'. rewrite Hv1, slot_set, Hv. by case_decide.
  - rewrite Hv1. exact (f_equal nonce (Hv TEndpoint)).
  - by rewrite Hl1, app_nil_r, Hl.
  - constructor.
  - intros k Hk Hp. apply (Happ k); [|done]. apply Ho1; [done|]. by apply (open_chan_same p).
  - intros k [= <-]. split; [done|]. exists (Some resp). simpl. by apply list_lookup_middle.
Qed.

Lemma endpoint_request_spec req p :
  let (r, p') := endpoint_request req p in
  ((∀ c req, cache_Fetch c req ≠ Panic) → sched_ok p → r ≠ Panic)
  ∧ (r ≠ Panic → r = Ok () ∧ replaced TEndpoint p p').
Proof.
  unfold endpoint_request. unfold mbind at 1 2, ST_bind at 1 2, st_get.
  assert (let (r, p') := (if endpointNonceAcked (p_values p) then peekResponse req else mret None) p in
    p' = p ∧ ((∀ c req, cache_Fetch c req ≠ Panic) → r ≠ Panic) ∧ (r = Panic ∨ ∃ o, r = Ok o)) as Hpeek.
  { destruct (endpointNonceAcked _); [apply peekResponse_spec|]. simpl. eauto. }
  destruct ((if endpointNonceAcked (p_values p) then peekResponse req else mret None) p) as [r p'].
  destruct Hpeek as [-> [Hf [->|[resp ->]]]]; [by split; [intros Hf'%Hf|]|].
  unfold mbind at 1, ST_bind at 1, set_values at 1, st_modify at 1. cbv beta iota.
  set (v := set_acked _ _). set (p0 := mkPst _ _ _ _ v _ _).
  assert (∀ t', slot (p_values p0) t' = slot (p_values p) t') as Hv by (intros; apply slot_acked).
  destruct resp as [resp|].
  - pose proof (call_cancel_spec (cancel (endpoints (p_values p))) p0) as Hcc.
    pose proof (scheduled_replaced resp p p0) as Hrep. unfold mbind at 1, ST_bind at 1.
    destruct (call_cancel _ p0) as [r p1]. specialize (Hrep p1 eq_refl eq_refl eq_refl eq_refl Hv).
    destruct Hcc as (Hok & Hnp & _). destruct r as [[]|e|]; [|by specialize (Hnp ltac:(done))|].
    + split; [done|]. intros _. split; [done|]. exact (Hrep eq_refl).
    + split; [|done]. intros _ Hs%(sched_ok_callable p TEndpoint). exfalso. specialize (Hok Hs). discriminate.
  - pose proof (replace_spec TEndpoint req p p0 eq_refl eq_refl eq_refl eq_refl Hv) as Hr. simpl in Hr.
    change (endpoints (p_values p)) with (slot (p_values p) TEndpoint). simpl.
    destruct ((call_cancel _ ≫= _) p0) as [r p1]. by destruct Hr as [? Hr].
Qed.

(** A request of a type that is waiting for another nonce changes nothing; any
    other request of a known type replaces the watch of that type. *)
Lemma dispatch_spec req p :
  let (r, p') := dispatch req p in
  ((∀ c req, cache_Fetch c req ≠ Panic) → sched_ok p → r ≠ Panic)
  ∧ (r ≠ Panic → r = Ok () ∧ match switch (p_values p) req with
                             | Some t => replaced t p p'
                             | None => p' = p
                             end).
Proof.
  unfold dispatch. unfold mbind at 1, ST_bind at 1, st_get. cbv beta iota.
  destruct (switch (p_values p) req) as [t|] eqn:E; [|done].
  destruct t; [apply endpoint_request_spec|..];
    match goal with |- context [open_watch_ ?t req] =>
      pose proof (replace_spec t req p p eq_refl eq_refl eq_refl eq_refl ltac:(done)) as Hr end;
    simpl in Hr |- *; destruct ((call_cancel _ ≫= _) p) as [r p']; destruct Hr as [Hr1 Hr2]; (split; [|exact Hr2]);
    intros _; exact Hr1.
Qed.

(** After it, the type has a channel. *)
Lemma dispatch_opens req p t p' :
  dispatch req p = (Ok (), p') → switch (p_values p) req = Some t → is_Some (chan (slot (p_values p') t)).
Proof.
  unfold dispatch. unfold mbind at 1, ST_bind at 1, st_get. cbv beta iota. intros Hd Hsw. rewrite Hsw in Hd.
  assert (∀ q, open_watch_ t req q = (Ok (), p') → is_Some (chan (slot (p_values p') t))) as Hopen.
  { intros q. unfold open_watch_, CreateWatch_, mbind, ST_bind, on_cache, zoom. simpl.
    destruct (cache_CreateWatch (p_cache q) req) as [[c' ch] w]. simpl. intros [= <-]. simpl.
    rewrite slot_set, decide_True by done. by eexists. }
  assert (∀ c q, (call_cancel c ≫= λ _, open_watch_ t req) q = (Ok (), p') →
    is_Some (chan (slot (p_values p') t))) as Hco.
  { intros c q (? & q1 & _ & Hq)%ST_bind_Ok. by apply (Hopen q1). }
  destruct t; [|by eapply Hco..]. unfold endpoint_request in Hd.
  apply ST_bind_Ok in Hd as (v & q1 & [= <- <-] & Hd). apply ST_bind_Ok in Hd as (resp & q1 & Hpk & Hd).
  apply ST_bind_Ok in Hd as ([] & q2 & Hs & Hd). destruct resp as [resp|]; [|by eapply Hco].
  apply ST_bind_Ok in Hd as ([] & q3 & _ & Hd). injection Hd as <-.
  cbn [p_values]. rewrite slot_set. simpl. by eexists.
Qed.

Lemma on_request_spec env id typ req p :
  let (r, p') := on_request env id typ req p in
  match r with
  | Panic => True
  | _ => p_nonce p' = p_nonce p ∧ effect [] p p' ∧ (sched_ok p → sched_ok p')
      ∧ ∀ t, nonce (slot (p_values p') t) = nonce (slot (p_values p) t)
  end.
Proof.
  assert (∀ q, p_log q = p_log p → p_values q = p_values p → effect [] p q) as Hsame.
  { intros q Hl Hv. apply effect_same; congruence. }
  unfold on_request. destruct req as [[req|]|]; [|by split; [|split; [apply Hsame|]]..].
  unfold mbind, ST_bind. simpl.
  set (q := mkPst _ _ _ _ _ _ (p_log p)). set (req1 := with_node req _).
  set (m := if String.eqb typ AnyType then _ else _).
  assert (let (r, q') := m q in q' = q ∧ match r with Panic => False | _ => True end) as Hm.
  { unfold m. destruct (String.eqb typ AnyType); [destruct (String.eqb _ _)|]; done. }
  destruct (m q) as [[req2|e|] q']; destruct Hm as [-> Hm]; [| |done].
  2: { split; [done|]. split; [by apply Hsame|]. split; [exact (sched_ok_mono p q (λ t, eq_refl) (λ k Hk, Hk))|done]. }
  pose proof (with_callbacks_spec (ActRequest req2) (λ cb, cb_OnStreamRequest cb env id req2) q) as Hcb.
  destruct (with_callbacks _ _ q) as [r1 q1]. destruct Hcb as ((Hn & Hv & _ & Hsc) & _ & Hlog & _).
  assert (sched_ok p → sched_ok q1) as Hso.
  { apply sched_ok_mono; [by rewrite Hv|]. intros k. by apply open_chan_same. }
  assert (effect [] p q1) as He1.
  { exists (cb_log (ActRequest req2)). rewrite Hlog, Hv. unfold cb_log.
    destruct callbacks; simpl; (split; [done|]); (split; [by repeat constructor|]); done. }
  destruct r1 as [[]|e|]; [| |done].
  2: { rewrite Hn, Hv. split; [done|]. split; [done|]. by split. }
  pose proof (dispatch_spec req2 q1) as Hd. destruct (dispatch req2 q1) as [r2 q2].
  destruct r2 as [[]|e|]; [| |done]; (destruct Hd as [_ Hd]; destruct Hd as [Hr Hd]; [done|]); [|done]. simpl.
  destruct (switch (p_values q1) req2) as [t|].
  - destruct Hd as (Hn2 & _ & He2 & Hs2 & Hnn & _). split; [by rewrite Hn2, Hn|].
    split; [by apply (effect_trans [] [] _ _ _ He1 He2)|]. split; [auto|]. intros t'. by rewrite Hnn, Hv.
  - subst q2. split; [done|]. split; [done|]. split; [done|]. by rewrite Hv.
Qed.

(** ** Invariants of streams *)

(** What is sent. *)
Definition sends (l : list action) : list DiscoveryResponse := omap sent_of l.

(** Nonces count the responses; watches are accounted for. *)
Record stream_log (typ : string) (closing : list action) (open : list W) (l : list action) : Prop := {
  sl_protocol : ∃ rest, l = cb_log (ActOpen typ) ++ rest ++ closing ∧ Forall (λ a, inner a = true) rest;
  sl_nonces : dr_Nonce <$> sends l = (λ k, itoa (wrap_int (Z.of_nat k))) <$> seq 1 (length (sends l));
  sl_watches : omap watched_of l ≡ₚ omap cancelled_of l ++ open;
}.

Record running_ok (typ : string) (p : pst) : Prop := {
  ro_log : stream_log typ [] (current (p_values p)) (p_log p);
  ro_nonce : p_nonce p = wrap_int (Z.of_nat (length (sends (p_log p))));
  ro_sched : sched_ok p;
}.

Lemma wrap_int_succ z : wrap_int (wrap_int z + 1) = wrap_int (z + 1).
Proof.
  unfold wrap_int. f_equal.
  replace ((z + 2 ^ 63) mod 2 ^ 64 - 2 ^ 63 + 1 + 2 ^ 63) with ((z + 2 ^ 63) mod 2 ^ 64 + 1) by lia.
  rewrite Zplus_mod_idemp_l. f_equal. lia.
Qed.

(** An iteration sends nothing, or one response with the next nonce. *)
Lemma running_ok_effect typ outs p p' :
  running_ok typ p → effect outs p p' → (sched_ok p → sched_ok p') →
  (outs = [] ∧ p_nonce p' = p_nonce p
   ∨ ∃ out, outs = [with_nonce out (itoa (p_nonce p'))] ∧ p_nonce p' = wrap_int (p_nonce p + 1)) →
  running_ok typ p'.
Proof.
  intros [[(rest & Hl & Hi) Hnn Hw] Hn Hsc] (added & Hl' & Hi' & Ho & Hw') Hsc' Hout.
  assert (sends (p_log p') = sends (p_log p) ++ outs) as Hs by (unfold sends; by rewrite Hl', omap_app, Ho).
  split; [split| |].
  - exists (rest ++ added). rewrite Hl', Hl, !app_nil_r, app_assoc. split; [done|]. by apply Forall_app.
  - rewrite Hs, fmap_app, length_app, seq_app, fmap_app, Hnn. f_equal.
    destruct Hout as [[-> _]|(out & -> & Hn')]; [done|]. simpl.
    rewrite Hn', Hn, wrap_int_succ. do 3 f_equal. lia.
  - rewrite Hl', !omap_app, Hw, <- !app_assoc. f_equiv.
    by rewrite (Permutation_app_comm (current _)), Hw'.
  - rewrite Hs, length_app. destruct Hout as [[-> ->]|(out & -> & ->)]; simpl.
    + by rewrite Nat.add_0_r.
    + rewrite Hn, wrap_int_succ. f_equal. lia.
  - auto.
Qed.

(** The nonce of a type is that of its last response. *)
Definition nonces_ok (p : pst) : Prop :=
  ∀ t, nonce (slot (p_values p) t) = last_nonce (p_log p) t.

Lemma type_url_inj t t' : type_url t = type_url t' → t = t'.
Proof. by destruct t, t'. Qed.

Lemma last_nonce_effect outs p p' t :
  effect outs p p' → last_nonce (p_log p') t =
  match last (List.filter (λ out, String.eqb (dr_TypeUrl out) (type_url t)) outs) with
  | Some out => dr_Nonce out
  | None => last_nonce (p_log p) t
  end.
Proof.
  intros (added & Hl & _ & Ho & _). unfold last_nonce. rewrite Hl, omap_app, Ho, List.filter_app, last_app.
  by destruct (last (List.filter _ outs)).
Qed.

Lemma iteration_spec env id typ i p :
  running_ok typ p →
  let (r, p') := iteration env id typ i p in
  match r with
  | Panic => True
  | Ok true => running_ok typ p' ∧ (nonces_ok p → nonces_ok p')
  | _ => running_ok typ p'
  end.
Proof.
  intros Hp. destruct i as [t resp sent|req]; simpl.
  - pose proof (on_response_spec env id sent t resp p) as Hs.
    destruct (on_response env id sent t resp p) as [[b|e|] p']; [| |done].
    + destruct Hs as (-> & Hn & (out & Hty & He) & Hsc & Hnn). split; [eapply running_ok_effect; eauto|].
      intros Hold t'. rewrite Hnn, (last_nonce_effect _ _ _ t' He). simpl. rewrite Hty.
      destruct (String.eqb_spec (type_url t) (type_url t')) as [Heq|Hne].
      * apply type_url_inj in Heq as <-. by rewrite decide_True.
      * rewrite decide_False by congruence. apply Hold.
    + destruct Hs as [Hsc [[He Hn]|(out & He & Hn)]]; eapply running_ok_effect; eauto.
  - pose proof (on_request_spec env id typ req p) as Hs.
    destruct (on_request env id typ req p) as [[b|e|] p']; [| |done]; destruct Hs as (Hn & He & Hsc & Hnn).
    + assert (running_ok typ p') by (eapply running_ok_effect; eauto). destruct b; [|done]. split; [done|].
      intros Hold t. rewrite Hnn, (last_nonce_effect _ _ _ t He). apply Hold.
    + eapply running_ok_effect; eauto.
Qed.

(** ** Safety from the callbacks *)

Section Safe.
(** The cache and the marshaller do not panic. *)
Hypothesis Fetch_safe : ∀ c req, cache_Fetch c req ≠ Panic.
Hypothesis Marshal_safe : ∀ r, Marshal r ≠ Panic.
(** The callbacks of the stream [id] keep [J], and panic only if [ok] does not hold. *)
Context (J : Cb → Prop) (ok : Prop) (env : cb_env) (id : Z).
Hypothesis request_safe : ∀ cb req, callbacks = Some cb → keeps ok J (cb_OnStreamRequest cb env id req) J.
Hypothesis response_safe : ∀ cb req resp, callbacks = Some cb →
  keeps ok J (run_proc (cb_OnStreamResponse cb env id req resp)) J.

Lemma with_callbacks_safe a f p :
  (∀ cb, callbacks = Some cb → keeps ok J (f cb) J) → J (p_cb p) →
  match with_callbacks a f p with (Panic, _) => ¬ ok | (_, p') => J (p_cb p') end.
Proof.
  intros Hf Hj. pose proof (with_callbacks_spec a f p) as H1. destruct (with_callbacks a f p) as [r p1].
  destruct H1 as (_ & _ & _ & Hr). destruct callbacks as [cb|] eqn:E; [|destruct Hr as [-> ->]; done].
  specialize (Hf cb eq_refl (p_cb p) Hj). rewrite Hr in Hf. by destruct r.
Qed.

Lemma createResponse_safe resp typ : server_createResponse Marshal (Some resp) typ ≠ Panic.
Proof.
  simpl. assert (∀ l, rmapM (marshal_any Marshal typ) l ≠ Panic) as Hm.
  { intros l. induction l as [|x l IH]; simpl; [discriminate|]. unfold marshal_any at 1.
    pose proof (Marshal_safe x) as Hx. destruct (Marshal x) as [b|e|]; simpl; [|discriminate|congruence].
    destruct (rmapM (marshal_any Marshal typ) l) as [ys|e|]; simpl; [discriminate|discriminate|congruence]. }
  specialize (Hm (resp_Resources resp)).
  destruct (rmapM (marshal_any Marshal typ) (resp_Resources resp)) as [ys|e|]; simpl;
    [discriminate|discriminate|congruence].
Qed.

Lemma send_safe sent resp typ p : J (p_cb p) →
  match send env id sent resp typ p with (Panic, _) => ¬ ok | (_, p') => J (p_cb p') end.
Proof.
  intros Hj. unfold send, mbind, ST_bind, st_lift. pose proof (createResponse_safe resp typ) as Hc.
  destruct (server_createResponse Marshal (Some resp) typ) as [out|e|]; [|done|done]. simpl.
  match goal with |- context [with_callbacks ?a ?f ?q] =>
    pose proof (with_callbacks_safe a f q) as Hcb; destruct (with_callbacks a f q) as [r p1] end.
  specialize (Hcb ltac:(intros; by apply response_safe) Hj).
  destruct r; [|done|done]. by destruct sent.
Qed.

Lemma iteration_safe typ i p : J (p_cb p) → sched_ok p →
  match iteration env id typ i p with (Panic, _) => ¬ ok | (_, p') => J (p_cb p') end.
Proof.
  intros Hj Hsc. destruct i as [t resp sent|req]; simpl.
  - unfold on_response. destruct resp as [resp|]; [|done]. unfold mbind, ST_bind. simpl.
    pose proof (receive_spec (chan (slot (p_values p) t)) p) as Hrc.
    destruct (receive _ p) as [r0 q]. destruct Hrc as (-> & Hcb & _). rewrite <- Hcb in Hj.
    pose proof (send_safe sent resp (type_url t) q Hj) as Hj'.
    destruct (send env id sent resp (type_url t) q) as [[n|e|] p1]; simpl in *; done.
  - unfold on_request. destruct req as [[req|]|]; [|done|done]. unfold mbind, ST_bind. simpl.
    set (q := mkPst _ _ _ _ _ _ (p_log p)). set (m := if String.eqb typ AnyType then _ else _).
    assert (let (r, q') := m q in q' = q ∧ match r with Panic => False | _ => True end) as Hm.
    { unfold m. destruct (String.eqb typ AnyType); [destruct (String.eqb _ _)|]; done. }
    destruct (m q) as [[req2|e|] q']; destruct Hm as [-> Hm]; [|done|done].
    pose proof (with_callbacks_safe (ActRequest req2) (λ cb, cb_OnStreamRequest cb env id req2) q
      ltac:(intros; by apply request_safe) Hj) as Hj1.
    pose proof (with_callbacks_spec (ActRequest req2) (λ cb, cb_OnStreamRequest cb env id req2) q) as Hcb.
    destruct (with_callbacks _ _ q) as [[[]|e|] q1]; [|done|done]. destruct Hcb as [Hsv _].
    pose proof (dispatch_spec req2 q1) as Hd.
    destruct (dispatch req2 q1) as [r2 q2]. destruct Hd as [Hnp Hd]. specialize (Hnp Fetch_safe (sched_ok_same _ _ Hsv Hsc)).
    destruct Hd as [-> Hd]; [done|]. simpl.
    destruct (switch (p_values q1) req2); [|by subst q2]. by destruct Hd as (_ & -> & _).
Qed.
End Safe.

(** ** The end of a stream *)

(** Closing one channel leaves those of the other types open: only one type has any. *)
Lemma Cancel_types_spec values l : NoDup l → ∀ p,
  (∀ t k, cancel (slot values t) = Some (CancelScheduled k) → t = TEndpoint ∧ (t ∈ l → open_chan p k)) →
  let (r, p') := st_iter (λ t, call_cancel (cancel (slot values t))) l p in
  r = Ok () ∧ p_cb p' = p_cb p ∧ ∃ added, p_log p' = p_log p ++ added
  ∧ Forall (λ a, inner a = true) added ∧ omap sent_of added = [] ∧ omap watched_of added = []
  ∧ omap cancelled_of added = omap (λ t, current_of (slot values t)) l.
Proof.
  induction 1 as [|t l Ht _ IH]; intros p Hsc.
  { simpl. split; [done|]. split; [done|]. exists []. by rewrite app_nil_r. }
  cbn [st_iter]. unfold mbind, ST_bind. pose proof (call_cancel_spec (cancel (slot values t)) p) as Hc.
  destruct (call_cancel _ p) as [r p1]. destruct Hc as (Hok & _ & _ & _ & Hcb & Hl & Ho).
  rewrite Hok.
  2: { destruct (cancel (slot values t)) as [[w|k]|] eqn:E; [done| |done]. apply (Hsc t k E). left. }
  specialize (IH p1). destruct (st_iter _ l p1) as [r2 p2]. destruct IH as (-> & Hcb2 & added & Hl2 & Hi & Hs & Hw & Hca).
  { intros t' k Hk. destruct (Hsc t' k Hk) as [-> Hopen]. split; [done|]. intros Hin. apply Ho; [|apply Hopen; by right].
    intros Hk'. destruct (Hsc t k Hk') as [-> _]. done. }
  split; [done|]. split; [congruence|].
  eexists. split; [by rewrite Hl2, Hl, <- app_assoc|]. rewrite !omap_app, Hs, Hw, Hca.
  simpl. unfold current_of at 2. destruct (cancel (slot values t)) as [[w|]|]; simpl; eauto using Forall_cons_2.
Qed.

Lemma Cancel_spec p :
  sched_ok p →
  let (r, p') := Cancel (p_values p) p in
  r = Ok () ∧ p_cb p' = p_cb p ∧ ∃ added, p_log p' = p_log p ++ added
  ∧ Forall (λ a, inner a = true) added ∧ omap sent_of added = [] ∧ omap watched_of added = []
  ∧ omap cancelled_of added = current (p_values p).
Proof.
  intros Hs. apply Cancel_types_spec.
  - apply (bool_decide_unpack _). vm_compute. exact I.
  - intros t k [-> Hk]%Hs. by split.
Qed.

Definition ended_log (typ : string) (l : list action) : Prop := stream_log typ (cb_log ActClosed) [] l.

Lemma deferred_spec env id typ p :
  running_ok typ p →
  let (r, p') := deferred env id p in r ≠ Panic → r = Ok () ∧ ended_log typ (p_log p').
Proof.
  intros [[(rest & Hl & Hi) Hnn Hw] _ Hsc]. unfold deferred, mbind, ST_bind. simpl.
  pose proof (Cancel_spec p Hsc) as Hc. destruct (Cancel (p_values p) p) as [r p1].
  destruct Hc as (-> & _ & added & Hl1 & Hi1 & Hs1 & Hw1 & Hc1).
  pose proof (with_callbacks_spec ActClosed (λ cb, run_proc (cb_OnStreamClosed cb env id)) p1) as Hcb.
  destruct (with_callbacks _ _ p1) as [r p2]. destruct Hcb as (_ & _ & Hl2 & Hr). intros Hnp.
  assert (r = Ok ()) as ->.
  { destruct callbacks; [|by destruct Hr]. unfold run_proc in Hr.
    destruct (cb_OnStreamClosed _ _ _ _); by injection Hr as <- _. }
  split; [done|].
  assert (omap sent_of (cb_log ActClosed) = [] ∧ omap watched_of (cb_log ActClosed) = []
    ∧ omap cancelled_of (cb_log ActClosed) = []) as (E1 & E2 & E3) by (unfold cb_log; by destruct callbacks).
  assert (p_log p2 = p_log p ++ added ++ cb_log ActClosed) as Hl' by (by rewrite Hl2, Hl1, <- app_assoc).
  assert (sends (p_log p2) = sends (p_log p)) as Hs
    by (unfold sends; by rewrite Hl', !omap_app, Hs1, E1, !app_nil_r).
  split.
  - exists (rest ++ added). rewrite Hl', Hl, app_nil_r, <- !app_assoc. split; [done|]. by apply Forall_app.
  - by rewrite Hs.
  - rewrite Hl', !omap_app, Hw1, Hc1, E2, E3, !app_nil_r. done.
Qed.

(** ** Reachable servers *)

Record server_inv (srv : xds_server) : Prop := {
  si_count : 0 ≤ streamCount srv < 2 ^ 63;
  si_running : ∀ id l, srv_streams srv !! id = Some l →
    1 ≤ id ≤ streamCount srv ∧ running_ok (s_type l) (load srv l) ∧ nonces_ok (load srv l);
  si_ended : ∀ id typ l r, srv_ended srv !! id = Some (typ, l, r) →
    1 ≤ id ≤ streamCount srv ∧ ended_log typ l;
  si_disjoint : ∀ id l, srv_streams srv !! id = Some l → srv_ended srv !! id = None;
}.

(** Only the variables of the stream matter. *)
Lemma running_ok_load srv srv' l : running_ok (s_type l) (load srv l) → running_ok (s_type l) (load srv' l).
Proof. intros [Hl Hn Hs]. by split. Qed.

Lemma return_inv env srv id typ r p srv' :
  server_inv srv → 1 ≤ id ≤ streamCount srv → running_ok typ p →
  return_ env srv id typ r p = Ok srv' → server_inv srv'.
Proof.
  intros Hs Hid Hp. unfold return_. pose proof (deferred_spec env id typ p Hp) as Hd.
  destruct (deferred env id p) as [[[]|e|] p'] eqn:E; [|done..]. intros [= <-].
  destruct Hd as [_ Hd]; [done|]. constructor; simpl.
  - apply (si_count srv Hs).
  - intros id' l [_ Hl]%lookup_delete_Some. destruct (si_running srv Hs id' l Hl) as (? & Hr & Hn).
    split; [done|]. split; [by eapply running_ok_load|exact Hn].
  - intros id' typ' l r'. rewrite lookup_insert_Some. intros [[<- [= <- <- <-]]|[_ Hl]]; [done|].
    by apply (si_ended srv Hs id' typ' l r').
  - intros id' l [Hne Hl]%lookup_delete_Some. rewrite lookup_insert_ne by done.
    by eapply (si_disjoint srv Hs).
Qed.

Lemma running_inv srv id typ p :
  server_inv srv → 1 ≤ id ≤ streamCount srv → running_ok typ p → nonces_ok p → srv_ended srv !! id = None →
  server_inv (running srv id typ p).
Proof.
  intros Hs Hid Hp Hnn He. constructor; simpl.
  - apply (si_count srv Hs).
  - intros id' l. rewrite lookup_insert_Some. intros [[<- <-]|[_ Hl]]; simpl.
    + split; [done|]. destruct Hp as [Hp1 Hp2 Hp3]. split; [by split|exact Hnn].
    + destruct (si_running srv Hs id' l Hl) as (? & Hr & Hn).
      split; [done|]. split; [by eapply running_ok_load|exact Hn].
  - apply (si_ended srv Hs).
  - intros id' l. rewrite lookup_insert_Some. intros [[<- <-]|[_ Hl]]; [done|]. by eapply (si_disjoint srv Hs).
Qed.

Lemma start_inv env typ srv srv' :
  server_inv srv → streamCount srv < 2 ^ 63 - 1 → start env typ srv = Ok srv' → server_inv srv'.
Proof.
  intros Hs Hlt. unfold start. set (id := wrap_int (streamCount srv + 1)).
  assert (id = streamCount srv + 1) as Hid by (apply wrap_int_id; pose proof (si_count srv Hs); lia).
  set (srv1 := mkXdsServer _ _ id _ _). set (p := mkPst _ _ _ _ _ _ []).
  assert (server_inv srv1) as Hs1.
  { destruct Hs as [H1 H2 H3 H4]. constructor; simpl; [lia|..].
    - intros id' l Hl. destruct (H2 id' l Hl) as (? & ? & ?). split; [lia|done].
    - intros id' typ' l r Hl. destruct (H3 id' typ' l r Hl). split; [lia|done].
    - done. }
  assert (srv_ended srv1 !! id = None) as Hend.
  { destruct (srv_ended srv1 !! id) as [[[typ' l] r]|] eqn:E; [|done].
    apply (si_ended srv Hs) in E. lia. }
  pose proof (with_callbacks_spec (ActOpen typ) (λ cb, cb_OnStreamOpen cb env id typ) p) as Hcb.
  destruct (with_callbacks _ _ p) as [r p1]. destruct Hcb as ((Hn & Hv & _ & Hsc) & _ & Hl & _). simpl in *.
  assert (running_ok typ p1 ∧ nonces_ok p1) as [Hr Hno].
  { assert (sends (cb_log (ActOpen typ)) = []) as Hsd by (unfold cb_log; by destruct callbacks).
    split; [split; [split| |]|].
    - exists []. by rewrite Hl, app_nil_r.
    - by rewrite Hl, Hsd.
    - rewrite Hl, Hv. unfold cb_log. by destruct callbacks.
    - by rewrite Hl, Hsd, Hn.
    - intros t k. rewrite Hv. by destruct t.
    - intros t. unfold last_nonce. fold (sends (p_log p1)). rewrite Hl, Hsd, Hv. by destruct t. }
  assert (1 ≤ id ≤ streamCount srv1) as Hrange by (simpl; pose proof (si_count srv Hs); lia).
  destruct r as [[]|e|]; [| |done].
  - intros [= <-]. by apply running_inv.
  - by apply return_inv.
Qed.

Lemma iterate_inv env id l i srv srv' :
  server_inv srv → srv_streams srv !! id = Some l → iterate env id l i srv = Ok srv' → server_inv srv'.
Proof.
  intros Hs Hl. destruct (si_running srv Hs id l Hl) as (Hid & Hr & Hn). unfold iterate.
  pose proof (iteration_spec env id (s_type l) i (load srv l) Hr) as Hi.
  destruct (iteration env id (s_type l) i (load srv l)) as [[[]|e|] p']; [| | |done].
  - destruct Hi as [Hi Hn']. intros [= <-]. apply running_inv; auto. by eapply (si_disjoint srv Hs).
  - by apply return_inv.
  - by apply return_inv.
Qed.

Lemma other_inv srv c cb :
  server_inv srv → server_inv (mkXdsServer c cb (streamCount srv) (srv_streams srv) (srv_ended srv)).
Proof.
  intros [H1 H2 H3 H4]. constructor; simpl; auto.
  intros id l Hl. destruct (H2 id l Hl) as (? & Hx & Hy). split; [done|]. by split; [eapply running_ok_load|].
Qed.

Lemma server_reachable_inv other c cb srv :
  rtc (xds_step other) (NewServer c cb) srv → server_inv srv.
Proof.
  intros Hr. assert (server_inv (NewServer c cb)) as H0 by (constructor; simpl; [lia|done..]).
  induction Hr as [|x y z Hxy _ IH]; [done|]. apply IH.
  destruct Hxy as [env typ srv srv' Hlt H1|env id l i srv srv' Hl _ H1|srv c' cb' _].
  - by eapply start_inv.
  - by eapply iterate_inv.
  - by apply other_inv.
Qed.

(** ** Safe callbacks make a safe server *)

Section ServerSafe.
Context (env_ok : cb_env → Prop) (J : gset Z → Cb → Prop) (cb : Callbacks Cb) `{!SafeCallbacks env_ok J cb}.
Hypothesis is_cb : callbacks = Some cb.
Hypothesis Fetch_safe : ∀ c req, cache_Fetch c req ≠ Panic.
Hypothesis Marshal_safe : ∀ r, Marshal r ≠ Panic.

(** The streams the callbacks know are those that run. *)
Definition cb_inv (srv : xds_server) : Prop := J (dom (srv_streams srv)) (srv_cb srv).

Definition safe_outcome (env : cb_env) (r : res xds_server) : Prop :=
  match r with Ok srv => cb_inv srv | Err _ => False | Panic => ¬ env_ok env end.

Lemma return_safe env srv id typ r p ids :
  id ∈ ids → sched_ok p → J ids (p_cb p) → dom (srv_streams srv) ∖ {[id]} = ids ∖ {[id]} →
  safe_outcome env (return_ env srv id typ r p).
Proof.
  intros Hid Hsc Hj Hd. unfold return_, deferred, mbind, ST_bind. simpl.
  pose proof (Cancel_spec p Hsc) as Hc. destruct (Cancel (p_values p) p) as [r1 p1].
  destruct Hc as (-> & Hcb & _). rewrite <- Hcb in Hj. unfold with_callbacks. rewrite is_cb.
  pose proof (safe_closed env ids id Hid (p_cb p1) Hj) as Hs. revert Hs.
  unfold mbind, ST_bind, log, st_modify, on_cb, zoom, run_proc. simpl.
  destruct (cb_OnStreamClosed cb env id (p_cb p1)) as [s'|]; simpl; [|done].
  unfold cb_inv. simpl. by rewrite dom_delete_L, Hd.
Qed.

Lemma running_safe srv id typ p :
  J ({[id]} ∪ dom (srv_streams srv)) (p_cb p) → cb_inv (running srv id typ p).
Proof. unfold cb_inv. simpl. by rewrite dom_insert_L. Qed.

Lemma start_safe env typ srv :
  server_inv srv → streamCount srv < 2 ^ 63 - 1 → cb_inv srv → safe_outcome env (start env typ srv).
Proof.
  intros Hs Hlt Hj. unfold start. set (id := wrap_int (streamCount srv + 1)).
  assert (id = streamCount srv + 1) as Hid by (apply wrap_int_id; pose proof (si_count srv Hs); lia).
  assert (id ∉ dom (srv_streams srv)) as Hnew.
  { intros [l Hl]%elem_of_dom. apply (si_running srv Hs) in Hl as [? _]. lia. }
  unfold with_callbacks. rewrite is_cb. unfold mbind, ST_bind, log, st_modify, on_cb, zoom. simpl.
  pose proof (safe_open env _ id typ Hnew (srv_cb srv) Hj) as Ho.
  destruct (cb_OnStreamOpen cb env id typ (srv_cb srv)) as [[[]|e|] s']; simpl; [by apply running_safe| |done].
  eapply return_safe; [| |exact Ho|]; simpl; [set_solver|intros t k; by destruct t|set_solver].
Qed.

Lemma iterate_safe env id l i srv :
  server_inv srv → srv_streams srv !! id = Some l → cb_inv srv → safe_outcome env (iterate env id l i srv).
Proof.
  intros Hs Hl Hj. assert (id ∈ dom (srv_streams srv)) as Hid by (apply elem_of_dom; eauto).
  destruct (si_running srv Hs id l Hl) as (_ & Hr & _).
  assert ({[id]} ∪ dom (srv_streams srv) = dom (srv_streams srv)) as Hd by set_solver.
  unfold iterate. pose proof (iteration_safe Fetch_safe Marshal_safe (J (dom (srv_streams srv))) (env_ok env) env id) as Hi.
  specialize (Hi ltac:(intros cb' req E; rewrite is_cb in E; injection E as <-; by apply safe_request)).
  specialize (Hi ltac:(intros cb' req resp E; rewrite is_cb in E; injection E as <-; by apply safe_response)).
  specialize (Hi (s_type l) i (load srv l) Hj (ro_sched _ _ Hr)).
  pose proof (iteration_spec env id (s_type l) i (load srv l) Hr) as Hk.
  destruct (iteration env id (s_type l) i (load srv l)) as [[[]|e|] p]; [| | |done].
  - simpl. apply running_safe. by rewrite Hd.
  - by eapply return_safe; [|apply (ro_sched (s_type l))| |].
  - by eapply return_safe; [|apply (ro_sched (s_type l))| |].
Qed.

Lemma server_reachable_safe other c cb0 srv :
  J ∅ cb0 → (∀ ids c cb c' cb', other (c, cb) (c', cb') → J ids cb → J ids cb') →
  rtc (xds_step other) (NewServer c cb0) srv → server_inv srv ∧ cb_inv srv.
Proof.
  intros H0 Ho Hr. split; [by eapply server_reachable_inv|].
  assert (server_inv (NewServer c cb0)) as Hi by apply (server_reachable_inv other c cb0), rtc_refl.
  assert (cb_inv (NewServer c cb0)) as Hj by (unfold cb_inv; simpl; by rewrite dom_empty_L).
  clear H0. induction Hr as [|x y z Hxy _ IH]; [done|].
  destruct Hxy as [env typ srv srv' Hlt H1|env id l i srv srv' Hl _ H1|srv c' cb' H1].
  - apply IH; [by eapply start_inv|]. pose proof (start_safe env typ srv Hi Hlt Hj) as Hs. by rewrite H1 in Hs.
  - apply IH; [by eapply iterate_inv|]. pose proof (iterate_safe env id l i srv Hi Hl Hj) as Hs. by rewrite H1 in Hs.
  - apply IH; [by apply other_inv|by eapply (Ho _ _ _ _ _ H1)].
Qed.
End ServerSafe.

(** ** Properties *)

(** The callbacks among the actions. *)
Definition is_callback (a : action) : bool :=
  match a with ActOpen _ | ActRequest _ | ActResponse _ | ActClosed => true | _ => false end.

(** The server keeps the contract of the callbacks and leaks no watch: in
    every reachable state, whatever clients send, the cache answers and sending
    returns, each stream was opened first and once, and closed last and exactly
    once when it ended (also when it ended with an error); an ended stream has
    cancelled exactly the watches it had opened, and a running one keeps open
    exactly the current watches of its six types; identifiers are not reused. *)
Theorem xds_stream_protocol other c cb0 srv cb :
  callbacks = Some cb → rtc (xds_step other) (NewServer c cb0) srv →
  (∀ id l, srv_streams srv !! id = Some l →
     1 ≤ id ≤ streamCount srv ∧ srv_ended srv !! id = None
     ∧ (∃ rest, s_log l = ActOpen (s_type l) :: rest ∧ Forall (λ a, inner a = true) rest)
     ∧ omap watched_of (s_log l) ≡ₚ omap cancelled_of (s_log l) ++ current (s_values l))
  ∧ (∀ id typ l r, srv_ended srv !! id = Some (typ, l, r) →
     1 ≤ id ≤ streamCount srv
     ∧ (∃ rest, l = ActOpen typ :: rest ++ [ActClosed] ∧ Forall (λ a, inner a = true) rest)
     ∧ omap watched_of l ≡ₚ omap cancelled_of l).
Proof.
  intros Hcb Hs%server_reachable_inv. split.
  - intros id l Hl. destruct (si_running srv Hs id l Hl) as (Hid & [[(rest & Hp & Hi) _ Hw] _ _] & _).
    split; [done|]. split; [by eapply (si_disjoint srv Hs)|]. simpl in Hp. unfold cb_log in Hp. rewrite Hcb in Hp.
    split; [|done]. exists rest. by rewrite app_nil_r in Hp.
  - intros id typ l r Hl. destruct (si_ended srv Hs id typ l r Hl) as (Hid & [(rest & Hp & Hi) _ Hw]).
    split; [done|]. unfold cb_log in Hp. rewrite Hcb in Hp. rewrite app_nil_r in Hw. split; [by exists rest|done].
Qed.

(** The request as the rest of the iteration sees it. *)
Definition completed (p : pst) (req : DiscoveryRequest) : DiscoveryRequest :=
  with_node req (match req_Node req with Some n => Some n | None => p_node p end).

Lemma on_request_values env id typ req p p' :
  req_TypeUrl req ≠ "" →
  on_request env id typ (Some (Some req)) p = (Ok true, p') →
  match switch (p_values p) req with
  | Some t => is_Some (chan (slot (p_values p') t)) ∧ ∀ t', t' ≠ t → slot (p_values p') t' = slot (p_values p) t'
  | None => p_values p' = p_values p
  end.
Proof.
  intros Hty. unfold on_request, mbind, ST_bind. simpl. set (q := mkPst _ _ _ _ _ _ (p_log p)).
  set (req1 := with_node req _). assert (String.eqb (req_TypeUrl req) "" = false) as -> by (by apply String.eqb_neq).
  assert ((if String.eqb typ AnyType then mret req1 else mret req1 : ST pst DiscoveryRequest) q = (Ok req1, q)) as ->
    by (by destruct (String.eqb typ AnyType)).
  pose proof (with_callbacks_spec (ActRequest req1) (λ cb, cb_OnStreamRequest cb env id req1) q) as Hcb.
  destruct (with_callbacks _ _ q) as [r1 q1]. destruct Hcb as ((_ & Hv & _) & _).
  destruct r1 as [[]|e|]; [|done..]. pose proof (dispatch_spec req1 q1) as Hd.
  assert (switch (p_values q1) req1 = switch (p_values p) req) as Hsw by (by rewrite Hv).
  rewrite Hsw in Hd. destruct (dispatch req1 q1) as [r2 q2] eqn:Ed. destruct r2 as [[]|e|]; [|done..].
  intros [= <-]. destruct Hd as [_ Hd]. destruct Hd as [_ Hd]; [done|]. destruct (switch (p_values p) req) as [t|].
  - destruct Hd as (_ & _ & _ & _ & _ & Hne). split; [by apply (dispatch_opens req1 q1)|]. intros t' Ht'. by rewrite Hne, Hv.
  - by subst q2.
Qed.

Lemma switch_type values req t :
  req_TypeUrl req = type_url t →
  switch values req = if nonce_ok values t (req_ResponseNonce req) then Some t else None.
Proof.
  intros Hty. unfold switch. rewrite Hty.
  assert (∀ t', String.eqb (type_url t) (type_url t') = bool_decide (t = t')) as Heq by (by intros []; destruct t).
  unfold xds_types. cbn [List.find]. rewrite !Heq. by destruct t; simpl; destruct (nonce_ok _ _ _).
Qed.

(** Nonces: the responses of a stream carry the numbers 1, 2, 3, ... in the
    order they are sent (modulo the width of an [int64]); and a request of a
    known type is acted on exactly when its type has not been answered yet or it
    carries the nonce of the last response of its type: then the type gets a new
    watch and no other type is touched, otherwise no watch changes. *)
Theorem xds_nonces other c cb0 srv id l :
  rtc (xds_step other) (NewServer c cb0) srv → srv_streams srv !! id = Some l →
  dr_Nonce <$> sends (s_log l)
    = (λ k, itoa (wrap_int (Z.of_nat k))) <$> seq 1 (length (sends (s_log l)))
  ∧ ∀ env req t p', req_TypeUrl req = type_url t →
      iteration env id (s_type l) (InRequest (Some (Some req))) (load srv l) = (Ok true, p') →
      if decide (last_nonce (s_log l) t = "" ∨ last_nonce (s_log l) t = req_ResponseNonce req)
      then is_Some (chan (slot (p_values p') t))
           ∧ ∀ t', t' ≠ t → slot (p_values p') t' = slot (s_values l) t'
      else p_values p' = s_values l.
Proof.
  intros Hs%server_reachable_inv Hl. destruct (si_running srv Hs id l Hl) as (_ & [[_ Hnn _] _ _] & Hno).
  split; [exact Hnn|]. intros env req t p' Hty Hit.
  apply on_request_values in Hit; [|rewrite Hty; by destruct t].
  rewrite (switch_type _ _ t Hty) in Hit. unfold nonce_ok in Hit. simpl in Hit.
  pose proof (Hno t) as Hnt. simpl in Hnt. rewrite Hnt in Hit.
  destruct (String.eqb_spec (last_nonce (s_log l) t) "") as [He|He]; simpl in Hit.
  - rewrite decide_True by auto. exact Hit.
  - destruct (String.eqb_spec (last_nonce (s_log l) t) (req_ResponseNonce req)) as [Hr|Hr].
    + rewrite decide_True by auto. exact Hit.
    + rewrite decide_False by tauto. exact Hit.
Qed.

(** Whether an endpoint request acknowledges the last response. *)
Definition acknowledges (values : xds_watches) (req : DiscoveryRequest) : bool :=
  negb (String.eqb (nonce (endpoints values)) "")
  && String.eqb (nonce (endpoints values)) (req_ResponseNonce req).

Lemma endpoint_acked req p p' :
  endpoint_request req p = (Ok (), p') → endpointNonceAcked (p_values p') = acknowledges (p_values p) req.
Proof.
  assert (∀ v t w, endpointNonceAcked (set_slot v t w) = endpointNonceAcked v) as Hset
    by (intros [] [] ?; done).
  assert (∀ v b, endpointNonceAcked (set_acked v b) = b) as Hack by (by intros []).
  unfold endpoint_request. intros Hd.
  apply ST_bind_Ok in Hd as (v & q1 & [= <- <-] & Hd). apply ST_bind_Ok in Hd as (resp & q1 & Hpk & Hd).
  apply ST_bind_Ok in Hd as ([] & q2 & [= <-] & Hd).
  apply ST_bind_Ok in Hd as ([] & q3 & Hc & Hd) || (destruct resp; apply ST_bind_Ok in Hd as ([] & q3 & Hc & Hd)).
  match type of Hc with call_cancel ?c ?q = _ => pose proof (call_cancel_spec c q) as Hcc end.
  rewrite Hc in Hcc. destruct Hcc as (_ & _ & _ & Hv & _). destruct resp as [resp|].
  - injection Hd as <-. cbn [p_values]. by rewrite Hset, Hv; simpl; rewrite Hack.
  - unfold open_watch_, CreateWatch_, mbind, ST_bind, on_cache, zoom in Hd. simpl in Hd.
    destruct (cache_CreateWatch (p_cache q3) req) as [[c' ch] w]. simpl in Hd. injection Hd as <-. cbn [p_values].
    by rewrite Hset, Hv; simpl; rewrite Hack.
Qed.

(** Warming: a client that repeats the nonce of the last endpoint response it
    has already acknowledged is answered even though the endpoints did not
    change: its second request puts what the cache holds on the endpoint watch,
    with the version of the request restored, whatever version the request
    names.  ([sched_ok] holds of every running stream, by [server_reachable_inv].) *)
Theorem xds_warming p p1 req1 req2 resp :
  sched_ok p → nonce (endpoints (p_values p)) ≠ "" →
  req_TypeUrl req1 = EndpointType → req_ResponseNonce req1 = nonce (endpoints (p_values p)) →
  req_TypeUrl req2 = EndpointType → req_ResponseNonce req2 = nonce (endpoints (p_values p)) →
  dispatch req1 p = (Ok (), p1) → cache_Fetch (p_cache p1) (with_version req2 "") = Ok (Some resp) →
  ∃ p2, dispatch req2 p1 = (Ok (), p2)
  ∧ ∃ ch, chan (slot (p_values p2) TEndpoint) = Some (Scheduled ch)
      ∧ p_scheduled p2 !! ch
        = Some (mkScheduled (Some (mkResponse (with_version (resp_Request resp) (req_VersionInfo req2))
                                     (resp_Version resp) (resp_Resources resp))) false).
Proof.
  intros Hsc Hn Ht1 Hn1 Ht2 Hn2 Hd Hf.
  assert (∀ q req, nonce (endpoints (p_values q)) = nonce (endpoints (p_values p)) →
    req_TypeUrl req = EndpointType → req_ResponseNonce req = nonce (endpoints (p_values p)) →
    dispatch req q = endpoint_request req q) as Hdisp.
  { intros q req Hq Ht Hr. unfold dispatch. unfold mbind at 1, ST_bind at 1, st_get. cbv beta iota.
    rewrite (switch_type _ _ TEndpoint Ht). unfold nonce_ok. simpl. rewrite Hq, Hr, String.eqb_refl, orb_true_r.
    done. }
  pose proof (dispatch_spec req1 p) as Hs1. rewrite Hd, (switch_type _ _ TEndpoint Ht1) in Hs1.
  unfold nonce_ok in Hs1. simpl in Hs1. rewrite Hn1, String.eqb_refl, orb_true_r in Hs1.
  destruct Hs1 as [_ Hs1]. destruct Hs1 as [_ (_ & _ & _ & Hsc1 & Hnn & _)]; [done|]. specialize (Hsc1 Hsc). specialize (Hnn TEndpoint). simpl in Hnn.
  rewrite Hdisp in Hd by done. apply endpoint_acked in Hd. unfold acknowledges in Hd.
  rewrite Hn1, String.eqb_refl, (proj2 (String.eqb_neq _ _) Hn) in Hd. simpl in Hd.
  rewrite Hdisp by congruence. unfold endpoint_request, mbind, ST_bind, st_get. rewrite Hd.
  unfold peekResponse, mbind, ST_bind, try, st_get, st_lift. cbn [fst snd]. rewrite Hf. simpl.
  match goal with |- context [call_cancel ?c ?q] => pose proof (call_cancel_spec c q) as Hc;
    destruct (call_cancel c q) as [r q1] end.
  destruct Hc as (Hok & _). rewrite Hok by exact (sched_ok_callable p1 TEndpoint Hsc1).
  eexists. split; [done|]. eexists. cbn [p_values p_scheduled].
  change (endpoints (set_slot ?v TEndpoint ?w)) with (slot (set_slot v TEndpoint w) TEndpoint).
  rewrite slot_set. split; [done|].
  by apply list_lookup_middle.
Qed.

(** ** Unary methods *)

Definition fetch_cb (f : Callbacks Cb → ST Cb unit) : ST (C * Cb) unit :=
  match callbacks with
  | Some cb => zoom snd (λ cb s, (s.1, cb)) (f cb)
  | None => mret ()
  end.

Definition server_Fetch (env : cb_env) (req : DiscoveryRequest) : ST (C * Cb) DiscoveryResponse :=
  _ ← fetch_cb (λ cb, cb_OnFetchRequest cb env req);
  c ← st_get fst;
  resp ← st_lift (cache_Fetch c req);
  let out := server_createResponse Marshal resp (req_TypeUrl req) in
  _ ← fetch_cb (λ cb, run_proc (cb_OnFetchResponse cb env req (match out with Ok o => Some o | _ => None end)));
  st_lift out.

(** [FetchEndpoints] and its siblings. *)
Definition Fetch_ (t : xds_type) (env : cb_env) (req : option DiscoveryRequest)
  : ST (C * Cb) DiscoveryResponse :=
  match req with
  | None => fail (statusErrorf "Unavailable" "empty request")
  | Some req => server_Fetch env (with_type req (type_url t))
  end.

(** Fetching leaves the cache alone, and returns what the cache has, marshalled
    under the type of the method, provided the callbacks do not refuse. *)
Lemma Fetch_correct t env req s out s' :
  Fetch_ t env (Some req) s = (Ok out, s') →
  s'.1 = s.1 ∧ ∃ resp resources,
    cache_Fetch s.1 (with_type req (type_url t)) = Ok (Some resp)
    ∧ Forall2 (λ r x, x.1 = type_url t ∧ Marshal r = Ok x.2) (resp_Resources resp) resources
    ∧ out = mkDiscoveryResponse (resp_Version resp) resources (type_url t) "".
Proof.
  unfold Fetch_, server_Fetch. assert (∀ f s r s', fetch_cb f s = (r, s') → s'.1 = s.1) as Hcb.
  { intros f s0 r s1. unfold fetch_cb. destruct callbacks; [|by intros [= _ <-]].
    unfold zoom. destruct (f _ _). by intros [= _ <-]. }
  intros H1. apply ST_bind_Ok in H1 as ([] & s1 & Hr1 & H1).
  apply ST_bind_Ok in H1 as (c & s1' & [= <- <-] & H1). apply ST_bind_Ok in H1 as (resp & s2 & [= Hf <-] & H1).
  apply ST_bind_Ok in H1 as ([] & s3 & Hr3 & [= Ho <-]). apply Hcb in Hr1, Hr3.
  split; [congruence|]. rewrite Hr1 in Hf. destruct resp as [resp|]; [|done]. simpl in Ho.
  apply rbind_Ok in Ho as (rs & Hrs & [= <-]). exists resp, rs. split; [done|]. split; [|done].
  apply rmapM_Ok in Hrs. eapply Forall2_impl; [exact Hrs|]. intros r x Hx. unfold marshal_any in Hx.
  by apply rbind_Ok in Hx as (b & Hb & [= <-]).
Qed.

(** The goroutine of [handler]: an error of [Recv] closes the channel. *)
Definition recv_input (r : goerror + option DiscoveryRequest) : input :=
  match r with inl _ => InRequest None | inr req => InRequest (Some req) end.

(** [StreamAggregatedResources] and its siblings start a stream of their type. *)
Definition StreamAggregatedResources (env : cb_env) : xds_server → res xds_server := start env AnyType.
Definition Stream_ (t : xds_type) (env : cb_env) : xds_server → res xds_server := start env (type_url t).
Definition Delta_ : goerror := Errorf "not implemented" [].
End Server.

(** ** Examples *)

(** A cache with one endpoint response, and callbacks that do nothing. *)
#[local] Instance const_Cache : Cache (@Response string) unit string :=
  {| cache_Fetch := λ c req, Ok (Some (mkResponse req (resp_Version c) (resp_Resources c)));
     cache_CreateWatch := λ c _, (c, 0%nat, Some ());
     cache_cancel := λ c _, c |}.

Definition sample_resp : @Response string :=
  mkResponse (mkRequest None EndpointType [] "" "" None) "v1" ["backend"].
Definition sample_env : cb_env := mkEnv 10 "id".
Definition sample_eds (n : string) : DiscoveryRequest :=
  mkRequest (Some (mkNode "default.dp-1" None)) EndpointType [] "v1" n None.
Abbreviation sample_srv := (@xds_server (@Response string) unit string unit).

(** A stream that asked for endpoints and got its first response. *)
Definition run1 (m : res sample_srv) : sample_srv :=
  match m with Ok s => s | _ => NewServer sample_resp () end.
Definition sample_server1 : sample_srv := Eval vm_compute in
  run1 (StreamAggregatedResources (Some LoggingCallbacks) sample_env (NewServer sample_resp ())).
Definition sample_iterate (i : input) (s : sample_srv) : res sample_srv :=
  match srv_streams s !! 1 with
  | Some l => iterate Ok (Some LoggingCallbacks) sample_env 1 l i s
  | None => Panic
  end.
Definition sample_server2 : sample_srv := Eval vm_compute in
  run1 (sample_iterate (InRequest (Some (Some (sample_eds "")))) sample_server1).
Definition sample_server3 : sample_srv := Eval vm_compute in
  run1 (sample_iterate (InResponse TEndpoint (Some sample_resp) None) sample_server2).
Definition sample_server4 : sample_srv := Eval vm_compute in
  run1 (sample_iterate (InRequest None) sample_server3).

Abbreviation sample_xds_step := (xds_step Ok (Some (LoggingCallbacks (S:=unit))) (λ _ _, False)).

Lemma sample_step i s s' :
  sample_iterate i s = Ok s' → (∀ l, srv_streams s !! 1 = Some l → ready l i) → sample_xds_step s s'.
Proof.
  unfold sample_iterate. destruct (srv_streams s !! 1) as [l|] eqn:E; [|done]. intros Hi Hr.
  by apply (x_iterate _ _ _ sample_env 1 l i s s'); auto.
Qed.

Lemma sample_server3_reachable : rtc sample_xds_step (NewServer sample_resp ()) sample_server3.
Proof.
  apply rtc_l with sample_server1; [by apply (x_start _ _ _ sample_env AnyType)|].
  apply rtc_l with sample_server2; [by apply (sample_step (InRequest (Some (Some (sample_eds ""))))); [vm_compute|]|].
  apply rtc_once. apply (sample_step (InResponse TEndpoint (Some sample_resp) None)); [by vm_compute|].
  intros l. vm_compute. by intros [= <-].
Qed.

Lemma sample_server4_reachable : rtc sample_xds_step (NewServer sample_resp ()) sample_server4.
Proof.
  eapply rtc_r; [apply sample_server3_reachable|]. by apply (sample_step (InRequest None)); [vm_compute|].
Qed.

Lemma xds_stream_protocol_witness :
  ∃ typ l r rest, srv_ended sample_server4 !! 1 = Some (typ, l, r) ∧ l = ActOpen typ :: rest ++ [ActClosed]
  ∧ omap watched_of l ≡ₚ omap cancelled_of l.
Proof.
  destruct (srv_ended sample_server4 !! 1) as [[[typ l] r]|] eqn:E; [|vm_compute in E; discriminate E].
  destruct (proj2 (xds_stream_protocol Ok (Some LoggingCallbacks) (λ _ _, False) sample_resp () sample_server4
    LoggingCallbacks eq_refl sample_server4_reachable) 1 typ l r E) as (_ & (rest & Hl & _) & Hw).
  by exists typ, l, r, rest.
Defined.

Lemma xds_nonces_witness :
  ∃ l, srv_streams sample_server3 !! 1 = Some l ∧ dr_Nonce <$> sends (s_log l) = ["1"].
Proof.
  destruct (srv_streams sample_server3 !! 1) as [l|] eqn:E; [|vm_compute in E; discriminate E]. exists l. split; [done|].
  rewrite (proj1 (xds_nonces Ok (Some LoggingCallbacks) (λ _ _, False) sample_resp () sample_server3 1 l
    sample_server3_reachable E)).
  vm_compute in E. injection E as <-. reflexivity.
Defined.

(** Its variables, and those after the first acknowledgement. *)
Definition sample_p : @pst (@Response string) unit string unit := Eval vm_compute in
  load sample_server3 (default (mkXdsStream "" 0 [] no_watches None []) (srv_streams sample_server3 !! 1)).
Definition sample_p1 : @pst (@Response string) unit string unit := Eval vm_compute in
  (dispatch (sample_eds "1") sample_p).2.

Lemma xds_warming_witness :
  ∃ p2 resp, dispatch (sample_eds "1") sample_p1 = (Ok (), p2)
  ∧ chan (slot (p_values p2) TEndpoint) = Some (Scheduled 0)
  ∧ p_scheduled p2 !! 0%nat = Some (mkScheduled (Some resp) false) ∧ resp_Version resp = "v1".
Proof.
  destruct (xds_warming sample_p sample_p1 (sample_eds "1") (sample_eds "1")
    (mkResponse (with_version (sample_eds "1") "") "v1" ["backend"])
    ltac:(intros t k; destruct t; discriminate) ltac:(discriminate) eq_refl eq_refl eq_refl
    eq_refl ltac:(vm_compute; reflexivity) eq_refl) as (p2 & Hd & ch & Hc & Hb).
  exists p2. vm_compute in Hd. injection Hd as <-. injection Hc as <-. by eexists.
Defined.
