(* ===== verification/Topology.v ===== *)
(** * Topology and policy matchers

    Models [pkg/xds/topology] (routes, destinations, endpoints, health checks,
    traffic traces of a dataplane) and the matchers of [pkg/core/logs],
    [pkg/core/permissions] and [pkg/core/faultinjections].  They read through a
    [ReadOnlyResourceManager], whose state they thread. *)

From S2P Require Import Prelude GoStd Tags Dataplane Policy MeshResources Validators.
From S2P Require Import MeshValidator Insights Resources Store MemoryStore Manager CoreXds.
Local Open Scope Z_scope.

(** [GetMeta().GetMesh()]. *)
Definition mesh_of (dataplane : DataplaneResource) : string := GetMesh (r_Meta dataplane).

(** The outbound selection always terminates ([outbound_policies_spec]). *)
Definition outbound_policies {P} `{ConnectionPolicy P} (dataplane : DataplaneResource)
    (policies : list P) : gmap string P :=
  match SelectOutboundConnectionPolicies dataplane policies with
  | Some (m, _) => m
  | None => ∅
  end.

(** ** router.go *)

(** [pseudoMeta] at the time of the call. *)
Definition pseudoMeta (name : string) (now : Z) : ResourceMeta := mkMeta name "" "" now now.

Definition implicitRoute (now : Z) (service : string) : TrafficRouteResource :=
  mkResource (pseudoMeta "(implicit default route)" now)
    (mkTrafficRoute [mkSelector MatchAnyService] [mkSelector (MatchService service)]
       [mkWeightedDestination 100 (MatchService service)]).

Definition BuildRouteMap (now : Z) (dataplane : DataplaneResource)
    (routes : list TrafficRouteResource) : RouteMap :=
  let policyMap := outbound_policies dataplane routes in
  foldl (λ routeMap oface,
    match policyMap !! out_Service oface with
    | Some policy => <[out_Service oface := policy]> routeMap
    | None => <[out_Service oface := implicitRoute now (out_Service oface)]> routeMap
    end) ∅ (GetOutbound (dp_Networking (r_Spec dataplane))).

(** One weighted destination of a route. *)
Definition destination_add (destinations : DestinationMap) (destination : WeightedDestination)
  : DestinationMap :=
  match wd_Destination destination !! ServiceTag with
  | None => destinations
  | Some service =>
      <[service := TagSelectorSet_Add (default [] (destinations !! service))
                     (MatchTags (wd_Destination destination))]> destinations
  end.

Definition outbound_add (routes : RouteMap) (destinations : DestinationMap) (oface : Outbound)
  : DestinationMap :=
  match routes !! out_Service oface with
  | Some route => foldl destination_add destinations (tr_Conf (r_Spec route))
  | None =>
      <[out_Service oface := TagSelectorSet_Add (default [] (destinations !! out_Service oface))
                               (MatchService (out_Service oface))]> destinations
  end.

Definition BuildDestinationMap (dataplane : DataplaneResource) (routes : RouteMap)
  : DestinationMap :=
  foldl (outbound_add routes) ∅ (GetOutbound (dp_Networking (r_Spec dataplane))).

(** ** outbound.go *)

(** One inbound of a dataplane: the endpoint it contributes, if any. *)
Definition endpoint_add (destinations : DestinationMap) (dataplane : DataplaneResource)
    (outbound : EndpointMap) (x : nat * Inbound) : res EndpointMap :=
  let networking := dp_Networking (r_Spec dataplane) in
  let service := Inbound_GetService x.2 in
  match destinations !! service with
  | None => Ok outbound
  | Some selectors =>
      if negb (existsb (λ selector, TagSelector_Matches selector (in_Tags x.2)) selectors)
      then Ok outbound
      else match GetInboundInterfaceByIdx networking x.1 with
           | Err _ => Ok outbound
           | Panic => Panic
           | Ok iface =>
               Ok (<[service := default [] (outbound !! service) ++
                       [mkEndpoint (ii_DataplaneIP iface) (ii_DataplanePort iface) (in_Tags x.2)]]>
                     outbound)
           end
  end.

Definition indexed_inbounds (dataplane : DataplaneResource) : list (nat * Inbound) :=
  imap pair (GetInbound (dp_Networking (r_Spec dataplane))).

Definition BuildEndpointMap (destinations : DestinationMap) (dataplanes : list DataplaneResource)
  : res EndpointMap :=
  if Nat.eqb (size destinations) 0 then Ok ∅
  else rfoldl (λ outbound dataplane,
         rfoldl (endpoint_add destinations dataplane) outbound (indexed_inbounds dataplane))
         ∅ dataplanes.

(** ** healthchecks.go *)

Definition BuildHealthCheckMap (dataplane : DataplaneResource) (destinations : DestinationMap)
    (healthChecks : list HealthCheckResource) : gmap string HealthCheckResource :=
  if Nat.eqb (size destinations) 0 || Nat.eqb (length healthChecks) 0 then ∅
  else match SelectConnectionPolicies (S (size destinations)) dataplane
               (ToServicesOf destinations) healthChecks with
       | Some (policyMap, _) => policyMap
       | None => ∅
       end.

(** ** Reading through the manager *)

Section Matchers.
Context {St : Type} (manager : ReadOnlyResourceManager St).

(** List the resources of a kind in a mesh, then continue with the items. *)
Definition list_in_mesh {A} (k : Kind) (mesh : string) (wrap : goerror → goerror) (s : St)
    (cont : St → ObjectList → res A * St) : res A * St :=
  let '(err, (s', l)) := mgr_List manager s (new_list k) [ListByMesh mesh] in
  match err with
  | Ok _ => cont s' l
  | Err e => (Err (wrap e), s')
  | Panic => (Panic, s')
  end.

Definition GetRoutes (now : Z) (s : St) (dataplane : DataplaneResource) : res RouteMap * St :=
  match GetOutbound (dp_Networking (r_Spec dataplane)) with
  | [] => (Ok ∅, s)
  | _ =>
      list_in_mesh KTrafficRoute (mesh_of dataplane) id s (λ s' l,
        (Ok (BuildRouteMap now dataplane (typed_items l)), s'))
  end.

Definition GetOutboundTargets (s : St) (dataplane : DataplaneResource)
    (destinations : DestinationMap) : res EndpointMap * St :=
  if Nat.eqb (size destinations) 0 then (Ok ∅, s)
  else list_in_mesh KDataplane (mesh_of dataplane) id s (λ s' l,
         (BuildEndpointMap destinations (typed_items l), s')).

Definition GetHealthChecks (s : St) (dataplane : DataplaneResource)
    (destinations : DestinationMap) : res (gmap string HealthCheckResource) * St :=
  if Nat.eqb (size destinations) 0 then (Ok ∅, s)
  else list_in_mesh KHealthCheck (mesh_of dataplane) id s (λ s' l,
         (Ok (BuildHealthCheckMap dataplane destinations (typed_items l)), s')).

Definition GetTrafficTrace (s : St) (dataplane : DataplaneResource)
  : res (option TrafficTraceResource) * St :=
  list_in_mesh KTrafficTrace (mesh_of dataplane) id s (λ s' l,
    (rmap fst (SelectDataplanePolicy dataplane (typed_items l)), s')).

(** [TrafficPermissionsMatcher.Match]. *)
Definition Permissions_Match (s : St) (dataplane : DataplaneResource)
  : res (gmap InboundInterface TrafficPermissionResource) * St :=
  list_in_mesh KTrafficPermission (mesh_of dataplane)
    (λ e, Wrapf e "could not retrieve traffic permissions" []) s (λ s' l,
    (rmap fst (SelectInboundConnectionPolicies dataplane (typed_items l)), s')).

(** [FaultInjectionMatcher.Match]. *)
Definition FaultInjections_Match (s : St) (dataplane : DataplaneResource)
  : res (gmap InboundInterface FaultInjection) * St :=
  list_in_mesh KFaultInjection (mesh_of dataplane)
    (λ e, Wrapf e "could not retrieve fault injections" []) s (λ s' l,
    (rmap (λ x, r_Spec <$> x.1) (SelectInboundConnectionPolicies dataplane
       (typed_items (S := FaultInjection) l)), s')).

(** The map of [backendsByName]; the default backend may be a nil pointer. *)
Definition logging_backends (mesh : Mesh) : gmap string (option LoggingBackend) :=
  let backends := Some <$> backends_by_name lb_Name (default [] (log_Backends <$> mesh_Logging mesh)) in
  let defaultBackend := default "" (log_DefaultBackend <$> mesh_Logging mesh) in
  if negb (String.eqb defaultBackend "")
  then <["" := default None (backends !! defaultBackend)]> backends
  else backends.

Definition backendsByName (s : St) (dataplane : DataplaneResource)
  : res (gmap string (option LoggingBackend)) * St :=
  let mesh := mesh_of dataplane in
  let '(err, (s', o)) := mgr_Get manager s (new_object KMesh) [GetByKey mesh mesh] in
  match err with
  | Ok _ =>
      (Ok (match o_Spec o with MeshSpec m => logging_backends m | _ => ∅ end), s')
  | Err e => (Err e, s')
  | Panic => (Panic, s')
  end.

(** The backend of each service's traffic log; services whose log names an
    unknown backend are skipped. *)
Definition log_map (backends : gmap string (option LoggingBackend))
    (policyMap : gmap string TrafficLogResource) : gmap string (option LoggingBackend) :=
  omap (λ log : TrafficLogResource, backends !! default "" (tl_Conf (r_Spec log))) policyMap.

(** [TrafficLogsMatcher.Match]. *)
Definition Logs_Match (s : St) (dataplane : DataplaneResource)
  : res (gmap string (option LoggingBackend)) * St :=
  list_in_mesh KTrafficLog (mesh_of dataplane)
    (λ e, Wrapf e "could not retrieve traffic logs" []) s (λ s1 l,
    let (err, s2) := backendsByName s1 dataplane in
    match err with
    | Ok backends => (Ok (log_map backends (outbound_policies dataplane (typed_items l))), s2)
    | Err e => (Err e, s2)
    | Panic => (Panic, s2)
    end).
End Matchers.

(** ** Routes *)

Lemma outbound_policies_spec {P} `{ConnectionPolicy P} dp (policies : list P) :
  most_specific dp policies (outbound_services dp) (outbound_policies dp policies).
Proof.
  unfold outbound_policies.
  destruct (SelectConnectionPolicies_most_specific
    (S (S (length (GetOutbound (dp_Networking (r_Spec dp)))))) dp (ToOutboundServicesOf dp) policies
    (outbound_services dp)) as (m & Hm & Hspec).
  - apply (ToOutboundServicesOf_yields dp 0). lia.
  - unfold outbound_services. rewrite length_app, length_fmap. simpl. lia.
  - unfold SelectOutboundConnectionPolicies. by rewrite Hm.
Qed.

Definition route_of (now : Z) (policyMap : RouteMap) (service : string) : TrafficRouteResource :=
  match policyMap !! service with Some p => p | None => implicitRoute now service end.

Lemma BuildRouteMap_lookup now dp routes service :
  BuildRouteMap now dp routes !! service
  = if decide (service ∈ out_Service <$> GetOutbound (dp_Networking (r_Spec dp)))
    then Some (route_of now (outbound_policies dp routes) service) else None.
Proof.
  unfold BuildRouteMap. set (pm := outbound_policies dp routes).
  induction (GetOutbound _) as [|o l IH] using rev_ind; [by rewrite decide_False by set_solver|].
  rewrite foldl_app, fmap_app. simpl.
  assert (∀ (m : RouteMap) (f : RouteMap → RouteMap),
    (match pm !! out_Service o with
     | Some policy => <[out_Service o := policy]> m
     | None => <[out_Service o := implicitRoute now (out_Service o)]> m
     end) = <[out_Service o := route_of now pm (out_Service o)]> m) as Heq.
  { intros m _. unfold route_of. by destruct (pm !! out_Service o). }
  rewrite (Heq _ id), lookup_insert. destruct (decide (out_Service o = service)) as [Hs|Hs].
  - subst. rewrite decide_True; [done|]. apply elem_of_app. right. by apply list_elem_of_singleton.
  - rewrite IH. destruct (decide (service ∈ out_Service <$> l)) as [Hl|Hl].
    + rewrite decide_True; [done|]. apply elem_of_app. by left.
    + rewrite decide_False; [done|]. rewrite elem_of_app, list_elem_of_singleton. naive_solver.
Qed.

(** The route map has exactly one route for each outbound service of the
    dataplane: the most specific route that applies to it (no other route that
    applies is preferred), and when none applies the implicit default route,
    which sends all traffic to that service. *)
Theorem BuildRouteMap_correct now dp routes service :
  match BuildRouteMap now dp routes !! service with
  | None => service ∉ out_Service <$> GetOutbound (dp_Networking (r_Spec dp))
  | Some r =>
      service ∈ out_Service <$> GetOutbound (dp_Networking (r_Spec dp))
      ∧ ((r ∈ routes ∧ ∃ s d, applies dp service r s d ∧
            ∀ q s' d', q ∈ routes → applies dp service q s' d' →
              not_preferred q (score s' d') r (score s d))
         ∨ (r = implicitRoute now service ∧ ∀ q s d, q ∈ routes → ¬ applies dp service q s d))
  end.
Proof.
  rewrite BuildRouteMap_lookup. case_decide as Hs; [|done]. split; [done|].
  destruct (outbound_policies_spec dp routes service) as [Hsome Hnone]. unfold route_of.
  destruct (outbound_policies dp routes !! service) as [p|] eqn:E.
  - left. by destruct (Hsome p eq_refl) as (_ & Hp & Hbest).
  - right. split; [done|]. destruct (proj1 Hnone eq_refl) as [Hno|Hno]; [|done].
    destruct Hno. unfold outbound_services. set_solver.
Qed.

(** ** Destinations *)

Lemma TagSelectorSet_Add_elem s new x : x ∈ TagSelectorSet_Add s new ↔ x = new ∨ x ∈ s.
Proof.
  unfold TagSelectorSet_Add. destruct (existsb _ s) eqn:E; [|set_solver].
  apply existsb_exists in E as (old & Hin & Heq). apply TagSelector_Equal_spec in Heq as <-.
  apply list_elem_of_In in Hin. set_solver.
Qed.

Lemma TagSelectorSet_Add_NoDup s new : NoDup s → NoDup (TagSelectorSet_Add s new).
Proof.
  intros Hs. unfold TagSelectorSet_Add. destruct (existsb _ s) eqn:E; [done|].
  apply NoDup_app. split; [done|]. split; [|apply NoDup_singleton]. intros x Hx Hx'.
  apply list_elem_of_singleton in Hx' as ->. apply not_true_iff_false in E. apply E.
  apply existsb_exists. exists new. by rewrite <- list_elem_of_In, TagSelector_Equal_spec.
Qed.

(** Selector [sel] is in the set of [service]. *)
Definition reaches (m : DestinationMap) (service : string) (sel : tag_map) : Prop :=
  ∃ sels, m !! service = Some sels ∧ sel ∈ sels.

Lemma reaches_insert (m : DestinationMap) s0 new service sel :
  reaches (<[s0 := TagSelectorSet_Add (default [] (m !! s0)) new]> m) service sel ↔
  (service = s0 ∧ sel = new) ∨ reaches m service sel.
Proof.
  unfold reaches. rewrite lookup_insert. destruct (decide (s0 = service)) as [->|Hs].
  - split.
    + intros (sels & [= <-] & Hin). apply TagSelectorSet_Add_elem in Hin as [->|Hin]; [by left|].
      right. destruct (m !! service) as [sels|]; simpl in Hin; [eauto|]. by apply not_elem_of_nil in Hin.
    + intros H. eexists. split; [done|]. apply TagSelectorSet_Add_elem.
      destruct H as [[_ ->]|(sels & Hm & Hin)]; [by left|]. rewrite Hm. by right.
  - split; [naive_solver|]. intros [[-> _]|?]; done.
Qed.

Definition sets_ok (m : DestinationMap) : Prop := ∀ service sels, m !! service = Some sels → NoDup sels.

Lemma sets_ok_insert m s0 new :
  sets_ok m → sets_ok (<[s0 := TagSelectorSet_Add (default [] (m !! s0)) new]> m).
Proof.
  intros Hm service sels. rewrite lookup_insert. case_decide; [|apply Hm]. intros [= <-].
  apply TagSelectorSet_Add_NoDup. destruct (m !! s0) as [sels|] eqn:E; [by eapply Hm|constructor].
Qed.

Lemma destination_add_spec m (conf : list WeightedDestination) service sel :
  reaches (foldl destination_add m conf) service sel ↔
  reaches m service sel ∨ ∃ d, d ∈ conf ∧ wd_Destination d = sel ∧ sel !! ServiceTag = Some service.
Proof.
  revert m; induction conf as [|d conf IH]; intros m; simpl; [set_solver|].
  rewrite IH. unfold destination_add. destruct (wd_Destination d !! ServiceTag) as [s0|] eqn:E.
  - rewrite reaches_insert. unfold MatchTags. setoid_rewrite elem_of_cons. naive_solver.
  - setoid_rewrite elem_of_cons. split; [naive_solver|].
    intros [?|(d' & [->|?] & Hd & Hs)]; [by left|congruence|]. right. eauto.
Qed.

Lemma destination_add_ok m conf : sets_ok m → sets_ok (foldl destination_add m conf).
Proof.
  revert m; induction conf as [|d conf IH]; intros m Hm; simpl; [done|]. apply IH.
  unfold destination_add. destruct (_ !! ServiceTag); [by apply sets_ok_insert|done].
Qed.

(** The destination map selects, per service, exactly the weighted
    destinations with a service tag of the routes of the dataplane's outbounds
    (and the service itself for an outbound without a route); no selector is
    listed twice. *)
Theorem BuildDestinationMap_correct dp routes service sel :
  (reaches (BuildDestinationMap dp routes) service sel ↔
   ∃ o, o ∈ GetOutbound (dp_Networking (r_Spec dp)) ∧
     match routes !! out_Service o with
     | Some route => ∃ d, d ∈ tr_Conf (r_Spec route) ∧ wd_Destination d = sel
                       ∧ sel !! ServiceTag = Some service
     | None => service = out_Service o ∧ sel = MatchService service
     end)
  ∧ (∀ sels, BuildDestinationMap dp routes !! service = Some sels → NoDup sels).
Proof.
  unfold BuildDestinationMap.
  assert (∀ l m, sets_ok m → sets_ok (foldl (outbound_add routes) m l) ∧
    (reaches (foldl (outbound_add routes) m l) service sel ↔ reaches m service sel ∨
     ∃ o, o ∈ l ∧ match routes !! out_Service o with
     | Some route => ∃ d, d ∈ tr_Conf (r_Spec route) ∧ wd_Destination d = sel
                       ∧ sel !! ServiceTag = Some service
     | None => service = out_Service o ∧ sel = MatchService service
     end)) as H.
  { intros l. induction l as [|o l IH]; intros m Hm; simpl; [split; [done|set_solver]|].
    destruct (IH (outbound_add routes m o)) as [Hok ->].
    { unfold outbound_add. destruct (routes !! _); [by apply destination_add_ok|by apply sets_ok_insert]. }
    split; [done|]. setoid_rewrite elem_of_cons. unfold outbound_add.
    destruct (routes !! out_Service o) as [route|] eqn:E.
    - rewrite destination_add_spec. split.
      + intros [[?|?]|(o' & Ho' & Hx)]; [by left| |right; exists o'; auto]. right. exists o. by rewrite E; auto.
      + intros [?|(o' & [->|Ho'] & Hx)]; [auto|rewrite E in Hx; auto|right; eauto].
    - rewrite reaches_insert. split.
      + intros [[[-> ->]|?]|(o' & Ho' & Hx)]; [|by left|right; exists o'; auto].
        right. exists o. rewrite E. auto.
      + intros [?|(o' & [->|Ho'] & Hx)]; [auto| |right; eauto]. rewrite E in Hx.
        destruct Hx as [-> ->]. auto. }
  destruct (H (GetOutbound (dp_Networking (r_Spec dp))) ∅) as [Hok Hr].
  { intros s sels. by rewrite lookup_empty. }
  split; [|intros sels; apply Hok]. rewrite Hr. split; [|by right].
  intros [(sels & Hx & _)|?]; [by rewrite lookup_empty in Hx|done].
Qed.

(** ** Endpoints *)

(** What one inbound contributes, as a list. *)
Definition endpoint_of (destinations : DestinationMap) (dp : DataplaneResource) (x : nat * Inbound)
  : list (string * Endpoint) :=
  match destinations !! Inbound_GetService x.2,
        GetInboundInterfaceByIdx (dp_Networking (r_Spec dp)) x.1 with
  | Some selectors, Ok iface =>
      if existsb (λ selector, TagSelector_Matches selector (in_Tags x.2)) selectors
      then [(Inbound_GetService x.2,
             mkEndpoint (ii_DataplaneIP iface) (ii_DataplanePort iface) (in_Tags x.2))]
      else []
  | _, _ => []
  end.

Definition group (m : EndpointMap) (x : string * Endpoint) : EndpointMap :=
  <[x.1 := default [] (m !! x.1) ++ [x.2]]> m.

Lemma elem_of_indexed dp i inbound :
  (i, inbound) ∈ indexed_inbounds dp ↔ GetInbound (dp_Networking (r_Spec dp)) !! i = Some inbound.
Proof.
  unfold indexed_inbounds. rewrite list_elem_of_lookup. setoid_rewrite list_lookup_imap. split.
  - intros (j & Hj). destruct (_ !! j) eqn:E; simplify_eq/=. done.
  - intros Hi. exists i. by rewrite Hi.
Qed.

Lemma endpoint_add_sim destinations dp m x :
  x ∈ indexed_inbounds dp →
  endpoint_add destinations dp m x = Ok (foldl group m (endpoint_of destinations dp x)).
Proof.
  destruct x as [i inbound]. intros Hx%elem_of_indexed. unfold endpoint_add, endpoint_of. simpl.
  destruct (destinations !! _) as [selectors|]; [|done].
  destruct (dp_Networking (r_Spec dp)) as [n|]; [|done].
  pose proof (GetInboundInterfaceByIdx_no_panic n i) as Hnp.
  by destruct (existsb _ _), (GetInboundInterfaceByIdx _ _).
Qed.

Lemma group_lookup l m service e :
  e ∈ default [] (foldl group m l !! service) ↔ e ∈ default [] (m !! service) ∨ (service, e) ∈ l.
Proof.
  revert m; induction l as [|[s0 e0] l IH]; intros m; simpl; [set_solver|].
  rewrite IH, elem_of_cons. unfold group; simpl. rewrite lookup_insert.
  destruct (decide (s0 = service)) as [->|Hne]; simpl; [|naive_solver].
  rewrite elem_of_app, list_elem_of_singleton. naive_solver.
Qed.

Lemma elem_of_endpoint_of destinations dp x service e :
  (service, e) ∈ endpoint_of destinations dp x ↔
  ∃ selectors selector iface, Inbound_GetService x.2 = service
    ∧ destinations !! service = Some selectors ∧ selector ∈ selectors
    ∧ TagSelector_Matches selector (in_Tags x.2) = true
    ∧ GetInboundInterfaceByIdx (dp_Networking (r_Spec dp)) x.1 = Ok iface
    ∧ e = mkEndpoint (ii_DataplaneIP iface) (ii_DataplanePort iface) (in_Tags x.2).
Proof.
  unfold endpoint_of. split.
  - destruct (destinations !! _) as [selectors|] eqn:Es; [|by intros ?%not_elem_of_nil].
    destruct (GetInboundInterfaceByIdx _ _) as [iface|err|]; try by intros ?%not_elem_of_nil.
    destruct (existsb _ _) eqn:Ex; [|by intros ?%not_elem_of_nil].
    intros Hin%list_elem_of_singleton. simplify_eq. apply existsb_exists in Ex as (sel & Hin & Hm).
    exists selectors, sel, iface. by rewrite list_elem_of_In.
  - intros (selectors & sel & iface & <- & -> & Hin & Hm & -> & ->).
    rewrite (proj2 (existsb_exists _ _)); [by apply list_elem_of_singleton|].
    exists sel. by rewrite <- list_elem_of_In.
Qed.

Lemma BuildEndpointMap_eq destinations dataplanes :
  BuildEndpointMap destinations dataplanes =
  Ok (if Nat.eqb (size destinations) 0 then ∅
      else foldl group ∅ (dataplanes ≫= λ dp, indexed_inbounds dp ≫= endpoint_of destinations dp)).
Proof.
  unfold BuildEndpointMap. destruct (Nat.eqb _ _); [done|]. apply (rfoldl_sim _ id). intros m dp _.
  apply (rfoldl_sim _ id). intros m' x. apply endpoint_add_sim.
Qed.

(** C5: Building the endpoint map never fails, and the endpoints of a service
    are exactly the inbounds of the listed dataplanes that carry that service
    tag, satisfy one of the selectors of the service and have an interface that
    parses; an endpoint has the address, port and tags of its inbound. *)
Theorem BuildEndpointMap_correct destinations dataplanes :
  ∃ m, BuildEndpointMap destinations dataplanes = Ok m ∧
  ∀ service e,
    e ∈ default [] (m !! service) ↔
    ∃ dp i inbound selectors selector iface,
      dp ∈ dataplanes ∧ GetInbound (dp_Networking (r_Spec dp)) !! i = Some inbound
      ∧ Inbound_GetService inbound = service
      ∧ destinations !! service = Some selectors ∧ selector ∈ selectors
      ∧ TagSelector_Matches selector (in_Tags inbound) = true
      ∧ GetInboundInterfaceByIdx (dp_Networking (r_Spec dp)) i = Ok iface
      ∧ e = mkEndpoint (ii_DataplaneIP iface) (ii_DataplanePort iface) (in_Tags inbound).
Proof.
  rewrite BuildEndpointMap_eq. eexists. split; [done|]. intros service e.
  destruct (Nat.eqb_spec (size destinations) 0) as [Hz|_].
  { rewrite lookup_empty. apply map_size_empty_inv in Hz.
    split; [by intros ?%not_elem_of_nil|]. intros (?&?&?&?&?&?&_&_&_&Hd&_).
    by rewrite Hz, lookup_empty in Hd. }
  rewrite group_lookup, lookup_empty, list_elem_of_bind.
  setoid_rewrite list_elem_of_bind. setoid_rewrite elem_of_endpoint_of. split.
  - intros [H%not_elem_of_nil|(dp & ([i inbound] & H & Hx%elem_of_indexed) & Hdp)]; [done|].
    destruct H as (selectors & sel & iface & H). exists dp, i, inbound, selectors, sel, iface. tauto.
  - intros (dp & i & inbound & selectors & sel & iface & Hdp & Hi & H). right.
    exists dp. split; [|done]. exists (i, inbound). rewrite elem_of_indexed.
    split; [|done]. by exists selectors, sel, iface.
Qed.

(** ** Health checks *)

(** The health-check map of a dataplane has an entry for a reachable
    service exactly when some health check applies to it, and the entry is the
    most specific one (no other applicable health check is preferred); services
    that are not reachable have none. *)
Theorem BuildHealthCheckMap_correct dp destinations healthChecks :
  most_specific dp healthChecks (map_to_list destinations).*1
    (BuildHealthCheckMap dp destinations healthChecks).
Proof.
  unfold BuildHealthCheckMap.
  destruct (Nat.eqb_spec (size destinations) 0) as [Hz|_]; simpl.
  { apply map_size_empty_inv in Hz as ->. rewrite map_to_list_empty. intros service.
    rewrite lookup_empty. split; [done|]. split; [|done]. left. apply not_elem_of_nil. }
  destruct healthChecks as [|h l]; simpl.
  { intros service. rewrite lookup_empty. split; [done|]. split; [|done]. right.
    by intros q s d ?%not_elem_of_nil. }
  destruct (SelectConnectionPolicies_most_specific (S (size destinations)) dp
    (ToServicesOf destinations) (h :: l) (map_to_list destinations).*1) as (m & -> & Hm); [| |done].
  - apply (ToServices_yields _ 0). lia.
  - rewrite length_fmap, length_map_to_list. lia.
Qed.

(** ** Traffic logs *)

Definition mesh_log_backends (m : MeshResource) : list LoggingBackend :=
  default [] (log_Backends <$> mesh_Logging (r_Spec m)).

(** The backend name a traffic log stands for: its own, or the default of the
    mesh. *)
Definition selected_backend (m : MeshResource) (log : TrafficLogResource) : string :=
  match default "" (tl_Conf (r_Spec log)) with
  | "" => default "" (log_DefaultBackend <$> mesh_Logging (r_Spec m))
  | name => name
  end.

Lemma validated_log_backends m :
  Mesh_Validate m = None →
  Forall (λ b, lb_Name b ≠ "") (mesh_log_backends m) ∧
  (let d := default "" (log_DefaultBackend <$> mesh_Logging (r_Spec m)) in
   d ≠ "" → d ∈ lb_Name <$> mesh_log_backends m).
Proof.
  rewrite Mesh_Validate_nil. intros (_ & Hl & _). unfold mesh_log_backends.
  destruct (mesh_Logging (r_Spec m)) as [l|]; simpl; [|split; [constructor|done]].
  apply validateLogging_nil in Hl as (Hv & _ & Hd). split; [|done].
  eapply Forall_impl; [exact Hv|]. intros b Hb. by apply validateLoggingBackend_nil.
Qed.

(** The map of a validated mesh: the name "" stands for the default backend. *)
Lemma logging_backends_lookup m name :
  Mesh_Validate m = None →
  let key := if String.eqb name "" then default "" (log_DefaultBackend <$> mesh_Logging (r_Spec m))
             else name in
  logging_backends (r_Spec m) !! name = Some <$> backends_by_name lb_Name (mesh_log_backends m) !! key.
Proof.
  intros [Hne Hd]%validated_log_backends. unfold logging_backends. fold (mesh_log_backends m).
  set (d := default "" (log_DefaultBackend <$> mesh_Logging (r_Spec m))) in *.
  set (bs := backends_by_name lb_Name (mesh_log_backends m)).
  assert (bs !! "" = None) as Hempty.
  { destruct (bs !! "") as [b|] eqn:E; [|done]. apply backends_by_name_lookup in E as [Hb Hn].
    rewrite Forall_forall in Hne. by destruct (Hne b Hb). }
  simpl. destruct (String.eqb_spec d "") as [Ed|Ed]; simpl.
  - rewrite lookup_fmap. destruct (String.eqb_spec name "") as [->|]; [|done]. by rewrite Ed.
  - rewrite lookup_insert. destruct (String.eqb_spec name "") as [->|Hn].
    + rewrite decide_True by done. rewrite lookup_fmap. apply list_elem_of_fmap in Hd as (b & Hb & Hin); [|done].
      symmetry in Hb.
      destruct (proj2 (backends_by_name_lookup lb_Name _ d) b Hin Hb) as [b' Hb'].
      fold bs in Hb'. by rewrite Hb'.
    + rewrite decide_False by done. by rewrite lookup_fmap.
Qed.

(** In a mesh that passed validation, the log map of a dataplane never
    holds a nil backend: the traffic log chosen for a service is sent to the
    backend it names (the default backend of the mesh when it names none), and
    a service has no entry exactly when no log was chosen or no such backend is
    declared. *)
Theorem log_map_validated m policyMap service :
  Mesh_Validate m = None →
  match log_map (logging_backends (r_Spec m)) policyMap !! service with
  | Some backend =>
      ∃ log b, policyMap !! service = Some log ∧ backend = Some b
        ∧ b ∈ mesh_log_backends m ∧ lb_Name b = selected_backend m log
  | None => ∀ log, policyMap !! service = Some log →
              selected_backend m log ∉ lb_Name <$> mesh_log_backends m
  end.
Proof.
  intros Hv. unfold log_map. rewrite lookup_omap.
  destruct (policyMap !! service) as [log|]; simpl; [|done].
  rewrite logging_backends_lookup by done.
  assert ((if String.eqb (default "" (tl_Conf (r_Spec log))) ""
           then default "" (log_DefaultBackend <$> mesh_Logging (r_Spec m))
           else default "" (tl_Conf (r_Spec log))) = selected_backend m log) as ->.
  { unfold selected_backend. by destruct (default "" (tl_Conf (r_Spec log))). }
  destruct (backends_by_name_lookup lb_Name (mesh_log_backends m) (selected_backend m log)) as [H1 H2].
  destruct (backends_by_name _ _ !! _) as [b|]; simpl.
  - destruct (H1 b eq_refl). by exists log, b.
  - intros log' [= <-] (b & Hb & Hin)%list_elem_of_fmap. symmetry in Hb.
    by destruct (H2 b Hin Hb).
Qed.

Lemma log_map_validated_witness :
  let logs : gmap string TrafficLogResource :=
    {[ "backend" := mkResource (mkMeta "l" "default" "1" 0 0) (mkTrafficLog [] [] None) ]} in
  ∃ log b, logs !! "backend" = Some log
    ∧ log_map (logging_backends (r_Spec sample_mesh)) logs !! "backend" = Some (Some b)
    ∧ b ∈ mesh_log_backends sample_mesh ∧ lb_Name b = "file".
Proof.
  intros logs. pose proof (log_map_validated sample_mesh logs "backend" eq_refl) as Hw.
  destruct (log_map _ logs !! "backend") as [backend|] eqn:E; [|vm_compute in E; discriminate E].
  destruct Hw as (log & b & Hl & -> & Hb & Hn). exists log, b.
  split; [exact Hl|]. split; [reflexivity|]. split; [exact Hb|].
  vm_compute in Hl. injection Hl as <-. exact Hn.
Defined.
