(* ===== verification/ControlPlane.v ===== *)
(** * The control plane end to end

    Puts the components together: resources are written through the resource
    manager of [pkg/core/resources/manager] over the memory store, and read by
    the matchers of [pkg/core/permissions] and [pkg/core/faultinjections] and by
    [pkg/xds/topology].  A store written only through the manager holds only
    validated resources, so the matchers cannot panic, see exactly the policies
    of the dataplane's mesh and pick the most specific one. *)

From S2P Require Import Prelude GoStd Tags Dataplane Policy MeshResources Validators MeshValidator.
From S2P Require Import Insights Resources Store MemoryStore Manager CoreXds Topology.
Local Open Scope Z_scope.

Section ControlPlane.
Context `{LawfulJsonpb}.
Context (ptypes_Duration : Duration → option Z) (ResourceFromYaml_error : string → option string).

Local Abbreviation validate_object := (Validate ptypes_Duration ResourceFromYaml_error).

(** The manager of a control plane with the in-memory store. *)
Definition memory_manager : ResourceManager memoryStore :=
  NewResourceManager ptypes_Duration ResourceFromYaml_error.

(** A write through the manager, whatever it returns. *)
Inductive manager_step : memoryStore → memoryStore → Prop :=
| mstep_Create now c r fs : manager_step c (mgr_Create memory_manager now c r fs).2.1
| mstep_Update now c r fs : manager_step c (mgr_Update memory_manager now c r fs).2.1
| mstep_Delete c r fs : manager_step c (mgr_Delete memory_manager c r fs).2
| mstep_DeleteAll c l fs : manager_step c (mgr_DeleteAll memory_manager c l fs).2.1.

(** Every record holds a message that passes its validator. *)
Definition records_valid (c : memoryStore) : Prop :=
  Forall (λ r, ∀ spec, record_of r spec → validate_object (mkObject None spec) = Ok None) (records c).

(** No validator looks at the metadata. *)
Lemma Validate_meta m spec : validate_object (mkObject m spec) = validate_object (mkObject None spec).
Proof. by destruct spec. Qed.

Lemma record_of_inj r spec spec' : record_of r spec → record_of r spec' → spec = spec'.
Proof.
  intros [Ht Hm] [Ht' Hm']. apply unmarshal_marshal in Hm, Hm'.
  assert (kind_of_spec spec = kind_of_spec spec') as E by (apply type_name_inj; congruence).
  rewrite E in Hm. congruence.
Qed.

Lemma marshalRecord_of meta spec rec :
  marshalRecord (type_name (kind_of_spec spec)) meta spec = Ok rec → record_of rec spec.
Proof.
  unfold marshalRecord. destruct (ToJSON spec) as [content|e|] eqn:E; simpl; [|done|done].
  intros [= <-]. split; [done|]. by apply ToJSON_Ok.
Qed.

Lemma validate_Ok r : validate ptypes_Duration ResourceFromYaml_error r = Ok () →
  validate_object (mkObject None (o_Spec r)) = Ok None.
Proof.
  destruct r as [m spec]. unfold validate. rewrite Validate_meta. simpl.
  by destruct (validate_object _) as [[verr|]|e|].
Qed.

Lemma record_valid rec spec :
  record_of rec spec → validate_object (mkObject None spec) = Ok None →
  ∀ spec', record_of rec spec' → validate_object (mkObject None spec') = Ok None.
Proof. intros Hr Hv spec' Hr'. by rewrite <- (record_of_inj _ _ _ Hr Hr'). Qed.

Lemma memory_Create_valid c r fs :
  validate ptypes_Duration ResourceFromYaml_error r = Ok () →
  records_valid c → records_valid (memory_Create c r fs).2.1.
Proof.
  intros Hv%validate_Ok Hc. unfold memory_Create. destruct (findRecord _ _ _ _); [done|].
  destruct (marshalRecord _ _ _) as [rec|e|] eqn:E; simpl; [|done|done].
  apply Forall_app. split; [done|]. constructor; [|constructor].
  eapply record_valid, Hv. by eapply marshalRecord_of.
Qed.

Lemma memory_Update_valid c r fs :
  validate ptypes_Duration ResourceFromYaml_error r = Ok () →
  records_valid c → records_valid (memory_Update c r fs).2.1.
Proof.
  intros Hv%validate_Ok Hc. unfold memory_Update. destruct (o_Meta r) as [[meta| | |]|]; [|done..].
  destruct (findRecord _ _ _ _) as [[idx rec]|]; [|done]. destruct (negb _); [done|].
  destruct (marshalRecord _ _ _) as [rec'|e|] eqn:E; simpl; [|done|done].
  apply Forall_insert; [done|]. eapply record_valid, Hv. by eapply marshalRecord_of.
Qed.

Lemma memory_Delete_valid c r fs : records_valid c → records_valid (memory_Delete c r fs).2.
Proof.
  intros Hc. unfold memory_Delete.
  destruct (o_Meta r) as [[meta| | |]|]; [|done|done|done|]; destruct (findRecord _ _ _ _) as [[idx rec]|]; try done;
    apply Forall_app; (split; [by apply Forall_take|by apply Forall_drop]).
Qed.

(** A write through the manager is a sequence of store operations that keeps
    every record valid. *)
Lemma manager_step_valid c c' :
  manager_step c c' → records_valid c → rtc memory_step c c' ∧ records_valid c'.
Proof.
  intros Hs Hc. destruct Hs as [now c r fs|now c r fs|c r fs|c l fs]; simpl.
  - unfold manager_Create. destruct (validate _ _ r) as [[]|e|] eqn:Hv; [|by split|by split].
    destruct (if negb _ then _ else _); [|by split|by split].
    split; [apply rtc_once, step_Create|by apply memory_Create_valid].
  - unfold manager_Update. destruct (validate _ _ r) as [[]|e|] eqn:Hv; [|by split|by split].
    split; [apply rtc_once, step_Update|by apply memory_Update_valid].
  - split; [apply rtc_once, step_Delete|by apply memory_Delete_valid].
  - unfold DeleteAllResources, manager_List. destruct (store_List _ _ _) as [[|e|] l1]; [|by split|by split].
    pose proof (DeleteAll_loop_inv (λ c1, rtc memory_step c c1 ∧ records_valid c1)
      manager_Delete (GetItems l1) c) as Hl.
    destruct (DeleteAll_loop _ _ _) as [err s2]. apply Hl; [|by split].
    intros s r fs' [Hr Hv]. split; [|by apply memory_Delete_valid].
    eapply rtc_r; [exact Hr|apply step_Delete].
Qed.

Lemma managed c :
  rtc manager_step NewStore c → rtc memory_step NewStore c ∧ records_valid c.
Proof.
  assert (∀ c0, rtc manager_step c0 c → records_valid c0 → rtc memory_step c0 c ∧ records_valid c) as Hr.
  { intros c0. induction 1 as [|c0 c1 c2 H1 _ IH]; intros Hv; [by split|].
    apply manager_step_valid in H1 as [Hs Hv1]; [|done]. destruct (IH Hv1). split; [|done].
    by etrans. }
  intros Hc. apply Hr; [done|constructor].
Qed.

(** ** What a matcher reads *)

(** Resource [p] of kind [k] is stored in [mesh]. *)
Definition stored (c : memoryStore) (k : Kind) (mesh : string) (p : Resource (message_of k)) : Prop :=
  ∃ r, r ∈ records c ∧ rec_ResourceType r = type_name k ∧ rec_Mesh r = mesh
    ∧ r_Meta p = observe (MemoryMeta (record_meta r))
    ∧ jsonpb_Marshal (@to_spec _ (kind_instance k) (r_Spec p)) = Ok (rec_Spec r).

Definition listed (c : memoryStore) (k : Kind) (mesh : string) : ObjectList :=
  mkObjectList k (decode k <$> findRecords c (type_name k) mesh) "".

Lemma kind_of_to_spec k s : kind_of_spec (@to_spec _ (kind_instance k) s) = k.
Proof. by destruct k. Qed.

Lemma of_spec_to_spec k s : @of_spec _ (kind_instance k) (@to_spec _ (kind_instance k) s) = Some s.
Proof. by destruct k. Qed.

Lemma decode_record k r s :
  record_of r (@to_spec _ (kind_instance k) s) →
  decode k r = mkObject (Some (MemoryMeta (record_meta r))) (@to_spec _ (kind_instance k) s).
Proof.
  intros Hr. apply unmarshalRecord_fresh in Hr. rewrite kind_of_to_spec in Hr.
  unfold decode. by rewrite Hr.
Qed.

(** The typed items of a listing are the resources stored in the mesh, or in any
    mesh when none is named. *)
Lemma listed_stored_any c k mesh p :
  store_ok c →
  p ∈ typed_items (H := kind_instance k) (listed c k mesh) ↔ ∃ m, (mesh = "" ∨ m = mesh) ∧ stored c k m p.
Proof.
  intros [_ Hr]. rewrite Forall_forall in Hr.
  unfold typed_items, listed, stored. simpl. rewrite list_elem_of_omap.
  setoid_rewrite list_elem_of_fmap. split.
  - intros (o & (r & -> & (Hin & Ht & Hm)%elem_of_findRecords) & Hp). exists (rec_Mesh r).
    split; [done|]. destruct (Hr r Hin) as (spec & Hspec). pose proof Hspec as [Hk Hj].
    assert (kind_of_spec spec = k) as Ek by (apply type_name_inj; congruence).
    pose proof (of_spec_kind k spec) as Hof.
    destruct (@of_spec _ _ spec) as [s|] eqn:Es; [|done]. destruct Hof as [_ <-].
    rewrite (decode_record k r s Hspec) in Hp. unfold as_resource in Hp. simpl in Hp.
    rewrite of_spec_to_spec in Hp. injection Hp as <-. by exists r.
  - intros (m & Hor & r & Hin & Ht & Hm & Hmeta & Hj).
    assert (record_of r (@to_spec _ (kind_instance k) (r_Spec p))) as Hof.
    { split; [by rewrite kind_of_to_spec|done]. }
    eexists. split; [exists r; split; [reflexivity|]|].
    + apply elem_of_findRecords. split; [done|]. split; [done|]. by destruct Hor as [?|<-]; [left|right].
    + rewrite (decode_record _ _ _ Hof). unfold as_resource. simpl. rewrite of_spec_to_spec, <- Hmeta.
      by destruct p.
Qed.

Lemma listed_stored c k mesh p :
  store_ok c → mesh ≠ "" →
  p ∈ typed_items (H := kind_instance k) (listed c k mesh) ↔ stored c k mesh p.
Proof.
  intros Hc Hne. rewrite listed_stored_any by done. split; [|intros Hs; exists mesh; auto].
  by intros (m & [?| ->] & Hs).
Qed.

Lemma list_in_mesh_memory {A} c k mesh wrap (cont : memoryStore → ObjectList → res A * memoryStore) :
  rtc memory_step NewStore c → small_store c →
  list_in_mesh (read_only memory_manager) k mesh wrap c cont = cont c (listed c k mesh).
Proof.
  intros Hc Hs. unfold list_in_mesh. simpl. unfold manager_List.
  cbn [store_List memory_ResourceStore].
  pose proof (findRecords_length c (type_name k) mesh). unfold small_store in Hs.
  by rewrite memory_List_all by (lia || by apply reachable_ok).
Qed.

(** Everything stored by the manager passed its validator. *)
Lemma stored_valid c k mesh p :
  records_valid c → stored c k mesh p →
  validate_object (mkObject None (@to_spec _ (kind_instance k) (r_Spec p))) = Ok None.
Proof.
  intros Hv (r & Hin & Ht & _ & _ & Hj). unfold records_valid in Hv. rewrite Forall_forall in Hv.
  apply (Hv r Hin). split; [by rewrite kind_of_to_spec|done].
Qed.

(** ** Properties *)

Lemma Permissions_Match_best c dp :
  rtc manager_step NewStore c → small_store c → mesh_of dp ≠ "" →
  let (e, c') := Permissions_Match (read_only memory_manager) c dp in
  c' = c ∧
  match GetInboundInterfaces (dp_Networking (r_Spec dp)) with
  | Ok ifaces => ∃ permissions m, e = Ok m
      ∧ (∀ p, p ∈ permissions ↔ stored c KTrafficPermission (mesh_of dp) p)
      ∧ inbound_best dp permissions ifaces m
  | Err err => e = Err err
  | Panic => False
  end.
Proof.
  intros [Hc Hv]%managed Hs Hne. unfold Permissions_Match. rewrite list_in_mesh_memory by done.
  split; [done|]. set (ps := typed_items _).
  assert (∀ p, p ∈ ps ↔ stored c KTrafficPermission (mesh_of dp) p) as Hps.
  { intros p. apply (listed_stored c KTrafficPermission); [by apply reachable_ok|done]. }
  assert (destinations_nonempty ps) as Hd.
  { apply validated_permissions_nonempty, Forall_forall. intros p Hp%Hps.
    apply stored_valid in Hp; [|done]. simpl in Hp. by injection Hp. }
  pose proof (SelectInbound_selects dp ps Hd) as Hsel.
  destruct (GetInboundInterfaces _) as [ifaces|err|]; [|by rewrite Hsel|done]. rewrite Hsel. simpl.
  exists ps. eexists. split; [done|]. split; [done|]. apply assign_best.
Qed.

Lemma FaultInjections_Match_best c dp :
  rtc manager_step NewStore c → small_store c → mesh_of dp ≠ "" →
  let (e, c') := FaultInjections_Match (read_only memory_manager) c dp in
  c' = c ∧
  match GetInboundInterfaces (dp_Networking (r_Spec dp)) with
  | Ok ifaces => ∃ faults m, e = Ok (r_Spec <$> m)
      ∧ (∀ p, p ∈ faults ↔ stored c KFaultInjection (mesh_of dp) p)
      ∧ inbound_best dp faults ifaces m
  | Err err => e = Err err
  | Panic => False
  end.
Proof.
  intros [Hc Hv]%managed Hs Hne. unfold FaultInjections_Match. rewrite list_in_mesh_memory by done.
  split; [done|]. set (ps := typed_items _).
  assert (∀ p, p ∈ ps ↔ stored c KFaultInjection (mesh_of dp) p) as Hps.
  { intros p. apply (listed_stored c KFaultInjection); [by apply reachable_ok|done]. }
  assert (destinations_nonempty ps) as Hd.
  { apply validated_faults_nonempty, Forall_forall. intros p Hp%Hps.
    apply stored_valid in Hp; [|done]. simpl in Hp. by injection Hp. }
  pose proof (SelectInbound_selects dp ps Hd) as Hsel.
  destruct (GetInboundInterfaces _) as [ifaces|err|]; [|by rewrite Hsel|done]. rewrite Hsel. simpl.
  exists ps. eexists. split; [done|]. split; [done|]. apply assign_best.
Qed.
(** C1: When all resources were written through the resource manager, matching
    traffic permissions never panics and leaves the store alone; each inbound
    interface of the dataplane gets the most specific of the permissions stored
    in its own mesh that apply to it, permissions of other meshes have no
    influence, and an interface some permission applies to always gets one.
    The only error is an inbound interface that does not parse. *)
Theorem Permissions_Match_correct c dp :
  rtc manager_step NewStore c → small_store c → mesh_of dp ≠ "" →
  let (e, c') := Permissions_Match (read_only memory_manager) c dp in
  c' = c ∧
  match GetInboundInterfaces (dp_Networking (r_Spec dp)) with
  | Ok ifaces => ∃ permissions m, e = Ok m
      ∧ (∀ p, p ∈ permissions ↔ stored c KTrafficPermission (mesh_of dp) p)
      ∧ inbound_best dp permissions ifaces m
  | Err err => e = Err err
  | Panic => False
  end.
Proof. apply Permissions_Match_best. Qed.

(** Likewise for fault injections: each inbound interface gets the message
    of the most specific fault injection of its own mesh. *)
Theorem FaultInjections_Match_correct c dp :
  rtc manager_step NewStore c → small_store c → mesh_of dp ≠ "" →
  let (e, c') := FaultInjections_Match (read_only memory_manager) c dp in
  c' = c ∧
  match GetInboundInterfaces (dp_Networking (r_Spec dp)) with
  | Ok ifaces => ∃ faults m, e = Ok (r_Spec <$> m)
      ∧ (∀ p, p ∈ faults ↔ stored c KFaultInjection (mesh_of dp) p)
      ∧ inbound_best dp faults ifaces m
  | Err err => e = Err err
  | Panic => False
  end.
Proof. apply FaultInjections_Match_best. Qed.
End ControlPlane.

(** ** A concrete control plane *)

(** The permission that lets everyone reach service [s]. *)
Definition permission_to (s : string) : TrafficPermission :=
  mkTrafficPermission [mkSelector MatchAnyService] [mkSelector (MatchService s)].

(** A codec that also writes such permissions, as the service. *)
Definition policy_jsonpb : Jsonpb :=
  {| jsonpb_Marshal := λ spec,
       match spec with
       | TrafficPermissionSpec (mkTrafficPermission [src] [dst]) =>
           match Match dst !! ServiceTag with
           | Some s =>
               if bool_decide (Match src = MatchAnyService ∧ Match dst = MatchService s)
               then Ok s else Err (Errorf "unsupported message" [])
           | None => Err (Errorf "unsupported message" [])
           end
       | _ => @jsonpb_Marshal sample_jsonpb spec
       end;
     jsonpb_Unmarshal := λ s out,
       match out with
       | TrafficPermissionSpec _ => (Ok (), TrafficPermissionSpec (permission_to s))
       | _ => @jsonpb_Unmarshal sample_jsonpb s out
       end |}.

Lemma policy_jsonpb_lawful : @LawfulJsonpb policy_jsonpb.
Proof.
  constructor.
  - by intros s [].
  - intros spec s Hs. destruct spec as [| | | | |p| | | | | |];
      try by apply (@unmarshal_marshal _ sample_jsonpb_lawful).
    destruct p as [[|[src] [|]] [|[dst] [|]]]; simpl in Hs; try done.
    destruct (dst !! ServiceTag); [|done].
    case_bool_decide as Hd; [|done]. by destruct Hd as [-> ->]; simplify_eq.
Qed.

(** The mesh [default] with one permission to service web, and one in the
    mesh [other]. *)
Definition sample_writes (c : memoryStore) (x : Object * string * string) : memoryStore :=
  (mgr_Create (@memory_manager policy_jsonpb sample_Duration sample_Yaml) 1 c x.1.1
     [CreateByKey x.1.2 x.2]).2.1.

Definition sample_plane : memoryStore :=
  foldl sample_writes NewStore
    [(new_object KMesh, "default", "default"); (new_object KMesh, "other", "other");
     (mkObject None (TrafficPermissionSpec (permission_to "web")), "p1", "default");
     (mkObject None (TrafficPermissionSpec (permission_to "web")), "p2", "other")].

Lemma sample_plane_managed :
  rtc (@manager_step policy_jsonpb sample_Duration sample_Yaml) NewStore sample_plane.
Proof.
  unfold sample_plane.
  match goal with |- context [foldl _ _ ?l] => generalize l end.
  intros l. change NewStore with (mkStore []). generalize (mkStore []) as c.
  induction l as [|x l IH]; intros c; simpl; [apply rtc_refl|].
  eapply rtc_l; [apply mstep_Create|]. apply IH.
Qed.

Lemma Permissions_Match_correct_witness :
  length (records sample_plane) = 4%nat ∧
  ∃ (permissions : list TrafficPermissionResource) m,
    (Permissions_Match (read_only (@memory_manager policy_jsonpb sample_Duration sample_Yaml))
       sample_plane sample_dataplane).1 = Ok m
    ∧ (∀ p, p ∈ permissions ↔ @stored policy_jsonpb sample_plane KTrafficPermission "default" p).
Proof.
  split; [vm_compute; reflexivity|].
  pose proof (@Permissions_Match_correct policy_jsonpb policy_jsonpb_lawful sample_Duration sample_Yaml
    sample_plane sample_dataplane sample_plane_managed ltac:(vm_compute; reflexivity)
    ltac:(discriminate)) as Hw.
  destruct (Permissions_Match _ _ _) as [e c']. destruct Hw as [_ Hw].
  destruct (GetInboundInterfaces _) eqn:Ei; [|vm_compute in Ei; discriminate Ei|destruct Hw].
  destruct Hw as (ps & m & He & Hps & _). exists ps, m. split; [exact He|exact Hps].
Defined.

Lemma FaultInjections_Match_correct_witness :
  ∃ m, (FaultInjections_Match (read_only (@memory_manager policy_jsonpb sample_Duration sample_Yaml))
       sample_plane sample_dataplane).1 = Ok m.
Proof.
  pose proof (@FaultInjections_Match_correct policy_jsonpb policy_jsonpb_lawful sample_Duration
    sample_Yaml sample_plane sample_dataplane sample_plane_managed ltac:(vm_compute; reflexivity)
    ltac:(discriminate)) as Hw.
  destruct (FaultInjections_Match _ _ _) as [e c']. destruct Hw as [_ Hw].
  destruct (GetInboundInterfaces _) eqn:Ei; [|vm_compute in Ei; discriminate Ei|destruct Hw].
  destruct Hw as (ps & m & He & _). exists (r_Spec <$> m). exact He.
Defined.
