(* ===== verification/XdsComponents.v ===== *)
(** * The xDS server of the control plane

    Models [pkg/xds/server/components.go], [pkg/xds/server/proxy_template_resolver.go]
    and the snapshot generator of [pkg/xds/server/reconcile.go]: which callbacks
    the server is given, and what a tick of the watchdog of a dataplane does. *)

From S2P Require Import Prelude Effects GoStd Tags Dataplane Policy MeshResources Validators MeshValidator.
From S2P Require Import Insights Resources Store MemoryStore Manager CoreXds SnapshotCache StatusTracker.
From S2P Require Import Callbacks XdsServer Topology ControlPlane.
Local Open Scope Z_scope.

(** ** SetupServer *)

(** The state of the three members of the chain. *)
Record trackers : Type := mkTrackers {
  tk_sync : dataplaneSyncTracker;
  tk_metadata : gmap Z DataplaneMetadata;
  tk_status : statusTracker;
}.
Definition set_sync (x : dataplaneSyncTracker) (t : trackers) : trackers :=
  mkTrackers x (tk_metadata t) (tk_status t).
Definition set_metadata (x : gmap Z DataplaneMetadata) (t : trackers) : trackers :=
  mkTrackers (tk_sync t) x (tk_status t).
Definition set_status (x : statusTracker) (t : trackers) : trackers :=
  mkTrackers (tk_sync t) (tk_metadata t) x.

Definition new_trackers : trackers := mkTrackers NewDataplaneSyncTracker ∅ NewDataplaneStatusTracker.

Section Setup.
Context (multierr_Append : goerror → goerror → goerror).
Context (ptypes_TimestampProto : Z → option Timestamp) (GetInstanceId : string).

Definition server_callbacks : Callbacks trackers :=
  CallbacksChain multierr_Append
    [zoom_callbacks tk_sync set_sync sync_callbacks;
     zoom_callbacks tk_metadata set_metadata metadata_callbacks;
     zoom_callbacks tk_status set_status (status_callbacks ptypes_TimestampProto GetInstanceId)].

(** The trackers know the streams [s], [m] and [c]. *)
Definition trackers_at (s m c : gset Z) (t : trackers) : Prop :=
  sync_known s (tk_sync t) ∧ metadata_known m (tk_metadata t) ∧ status_inv c (tk_status t).
Definition trackers_inv (ids : gset Z) : trackers → Prop := trackers_at ids ids ids.

(** A call on one tracker leaves the others alone. *)
Section OneTracker.
Context (ok : Prop) (s m c s' m' c' : gset Z).

Lemma keeps_sync call : keeps ok (sync_known s) call (sync_known s') →
  keeps ok (trackers_at s m c) (zoom tk_sync set_sync call) (trackers_at s' m c).
Proof.
  intros H t (Hs & Hm & Hc). specialize (H _ Hs). unfold zoom.
  by destruct (call (tk_sync t)) as [[]].
Qed.
Lemma keeps_sync_proc p : keeps ok (sync_known s) (run_proc p) (sync_known s') →
  keeps ok (trackers_at s m c) (run_proc (zoom_proc tk_sync set_sync p)) (trackers_at s' m c).
Proof.
  intros H t (Hs & Hm & Hc). specialize (H _ Hs). revert H. unfold run_proc, zoom_proc.
  by destruct (p (tk_sync t)).
Qed.
Lemma keeps_metadata call :
  keeps ok (metadata_known m) call (metadata_known m') →
  keeps ok (trackers_at s m c) (zoom tk_metadata set_metadata call) (trackers_at s m' c).
Proof.
  intros H t (Hs & Hm & Hc). specialize (H _ Hm). unfold zoom.
  by destruct (call (tk_metadata t)) as [[]].
Qed.
Lemma keeps_metadata_proc p :
  keeps ok (metadata_known m) (run_proc p) (metadata_known m') →
  keeps ok (trackers_at s m c) (run_proc (zoom_proc tk_metadata set_metadata p)) (trackers_at s m' c).
Proof.
  intros H t (Hs & Hm & Hc). specialize (H _ Hm). revert H. unfold run_proc, zoom_proc.
  by destruct (p (tk_metadata t)).
Qed.
Lemma keeps_tracker_status call : keeps ok (status_inv c) call (status_inv c') →
  keeps ok (trackers_at s m c) (zoom tk_status set_status call) (trackers_at s m c').
Proof.
  intros H t (Hs & Hm & Hc). specialize (H _ Hc). unfold zoom.
  by destruct (call (tk_status t)) as [[]].
Qed.
Lemma keeps_tracker_status_proc p : keeps ok (status_inv c) (run_proc p) (status_inv c') →
  keeps ok (trackers_at s m c) (run_proc (zoom_proc tk_status set_status p)) (trackers_at s m c').
Proof.
  intros H t (Hs & Hm & Hc). specialize (H _ Hc). revert H. unfold run_proc, zoom_proc.
  by destruct (p (tk_status t)).
Qed.
End OneTracker.

#[global] Instance server_callbacks_safe :
  SafeCallbacks (clock_ok ptypes_TimestampProto) trackers_inv server_callbacks.
Proof.
  split; intros env ids id; [intros typ Hid|intros req Hid|intros req resp Hid|intros Hid];
    unfold server_callbacks, CallbacksChain, fmap; cbn [cb_OnStreamOpen cb_OnStreamRequest cb_OnStreamResponse
      cb_OnStreamClosed list_fmap].
  - eapply chain_errs_cons_keeps; [by apply keeps_sync, (safe_open env)|intros].
    eapply chain_errs_cons_keeps; [by apply keeps_metadata, (safe_open env)|intros].
    eapply chain_errs_cons_keeps; [by apply keeps_tracker_status, safe_open|intros].
    apply chain_errs_nil_keeps.
  - eapply chain_errs_cons_keeps; [by apply keeps_sync, (safe_request env)|intros].
    eapply chain_errs_cons_keeps; [by apply keeps_metadata, (safe_request env)|intros].
    eapply chain_errs_cons_keeps; [by apply keeps_tracker_status, safe_request|intros].
    apply chain_errs_nil_keeps.
  - eapply chain_procs_cons_keeps; [|by apply keeps_sync_proc, (safe_response env)].
    eapply chain_procs_cons_keeps; [|by apply keeps_metadata_proc, (safe_response env)].
    eapply chain_procs_cons_keeps; [|by apply keeps_tracker_status_proc, safe_response].
    apply chain_procs_nil_keeps.
  - eapply chain_procs_cons_keeps; [|by apply keeps_sync_proc, (safe_closed env)].
    eapply chain_procs_cons_keeps; [|by apply keeps_metadata_proc, (safe_closed env)].
    eapply chain_procs_cons_keeps; [|by apply keeps_tracker_status_proc, safe_closed].
    apply chain_procs_nil_keeps.
Qed.

(** ** The server as a whole *)

Section Safe.
Context {C W R : Type} `{Cache C W R} (Marshal : R → res string).
Context {St : Type} (resManager : ResourceManager St).

(** What happens besides the streams: snapshots are set and watchdogs read the
    metadata, which leaves the trackers alone; the sinks of the status tracker
    flush, on a tick or when their stream has been closed. *)
Inductive background : C * trackers → C * trackers → Prop :=
| bg_cache c c' t : background (c, t) (c', t)
| bg_sink now c t s i k st k' s' b :
    let x := tk_status t in
    tr_sinks x !! i = Some k → sink_done k = false → tr_states x !! sink_state k = Some st →
    (b = true → stopped st = true) → flush resManager now st k s = Ok (k', s') →
    background (c, t)
      (c, set_status (mkTracker (tr_states x) (tr_streams x)
            (<[i := if b : bool then finish k' else k']> (tr_sinks x))) t).

Lemma background_inv ids c t c' t' :
  background (c, t) (c', t') → trackers_inv ids t → trackers_inv ids t'.
Proof.
  intros Hb (Hs & Hm & Hc).
  inversion Hb as [|now ? ? s i k st k' s' b x Hi Hk Hst Hf Hfl]; subst; [exact (conj Hs (conj Hm Hc))|].
  split; [done|]. split; [done|]. destruct Hc as [Hc Hd]. split; [|done].
  apply flush_sink in Hfl as (Hk1 & Hk2 & _).
  apply (sink_step_inv _ i k _ st); [done|done|by destruct b|done|].
  destruct b; [auto|congruence].
Qed.

Hypothesis Fetch_safe : ∀ c req, cache_Fetch c req ≠ Panic.
Hypothesis Marshal_safe : ∀ r, Marshal r ≠ Panic.

(** C39: The xDS server never panics and its trackers leak nothing.  In every
    state reachable by any interleaving of streams, whatever they send, with
    snapshots being set and sinks flushing: opening a stream and every iteration
    of a stream return, so that in particular no cancel function closes a
    channel twice (the clock being in the range of a protobuf timestamp);
    the status tracker knows exactly the running streams; a watchdog runs and
    metadata is kept only for a stream that runs. *)
Theorem xds_server_safe c srv env :
  rtc (xds_step Marshal (Some server_callbacks) background) (NewServer c new_trackers) srv →
  clock_ok ptypes_TimestampProto env →
  (∀ typ, streamCount srv < 2 ^ 63 - 1 →
     ∃ srv', start (Some server_callbacks) env typ srv = Ok srv')
  ∧ (∀ id l i, srv_streams srv !! id = Some l →
     ∃ srv', iterate Marshal (Some server_callbacks) env id l i srv = Ok srv')
  ∧ dom (tr_streams (tk_status (srv_cb srv))) = dom (srv_streams srv)
  ∧ (∀ p key id, sync_watchdogs (tk_sync (srv_cb srv)) !! p = Some (mkWatchdog (key, id) false) →
       is_Some (srv_streams srv !! id))
  ∧ dom (tk_metadata (srv_cb srv)) ⊆ dom (srv_streams srv).
Proof.
  intros Hr Henv.
  assert (trackers_inv ∅ new_trackers) as H0.
  { split; [split; [|by simpl; rewrite dom_empty_L]|split; [by unfold metadata_known; simpl; rewrite dom_empty_L|
      split; [|by simpl; rewrite dom_empty_L]]].
    - intros id p. simpl. rewrite lookup_empty. naive_solver.
    - apply new_tracker_inv. }
  destruct (server_reachable_safe Marshal (Some server_callbacks) (clock_ok ptypes_TimestampProto)
    trackers_inv server_callbacks eq_refl Fetch_safe Marshal_safe background c new_trackers srv H0
    ltac:(intros; by eapply background_inv) Hr) as [Hi Hj].
  split; [|split; [|split; [|split]]].
  - intros typ Hlt.
    pose proof (start_safe Marshal (Some server_callbacks) _ _ server_callbacks eq_refl
      Fetch_safe Marshal_safe env typ srv Hi Hlt Hj) as Hs.
    destruct (start _ _ _ _); simpl in Hs; [eauto|done|done].
  - intros id l i Hl. pose proof (iterate_safe Marshal (Some server_callbacks) _ _ server_callbacks eq_refl
      Fetch_safe Marshal_safe env id l i srv Hi Hl Hj) as Hs.
    destruct (iterate _ _ _ _ _ _ _); simpl in Hs; [eauto|done|done].
  - apply Hj.
  - destruct Hj as [[Hs Hd] _]. intros p key id Hp. apply elem_of_dom, Hd, elem_of_dom. exists p. apply Hs. eauto.
  - apply Hj.
Qed.
End Safe.
End Setup.

(** ** A concrete server *)

#[local] Existing Instance const_Cache.

Definition sample_cbs : Callbacks trackers := server_callbacks (λ e _, e) sample_clock "cp-1".
Abbreviation tracked_srv := (@xds_server (@Response string) unit string trackers).
Definition run_tracked (m : res tracked_srv) : tracked_srv :=
  match m with Ok s => s | _ => NewServer sample_resp new_trackers end.

(** A stream of the dataplane [dp-1] that was opened and asked for endpoints. *)
Definition tracked1 : tracked_srv := Eval vm_compute in
  run_tracked (start (Some sample_cbs) sample_env AnyType (NewServer sample_resp new_trackers)).
Definition tracked2 : tracked_srv := Eval vm_compute in
  run_tracked (match srv_streams tracked1 !! 1 with
               | Some l => iterate Ok (Some sample_cbs) sample_env 1 l (InRequest (Some (Some (sample_eds "")))) tracked1
               | None => Panic
               end).

Lemma xds_server_safe_witness :
  (∃ p key, sync_watchdogs (tk_sync (srv_cb tracked2)) !! p = Some (mkWatchdog (key, 1) false))
  ∧ dom (tr_streams (tk_status (srv_cb tracked2))) = dom (srv_streams tracked2)
  ∧ ∃ srv', start (Some sample_cbs) sample_env AnyType tracked2 = Ok srv'.
Proof.
  assert (rtc (xds_step Ok (Some sample_cbs) (background StatusTracker.memory_manager)) (NewServer sample_resp new_trackers) tracked2) as Hr.
  { apply rtc_l with tracked1; [by apply (x_start _ _ _ sample_env AnyType)|].
    destruct (srv_streams tracked1 !! 1) as [l|] eqn:E; [|vm_compute in E; discriminate E].
    apply rtc_once, (x_iterate _ _ _ sample_env 1 l (InRequest (Some (Some (sample_eds ""))))); [exact E|done|].
    vm_compute in E. injection E as <-. vm_compute. reflexivity. }
  edestruct (xds_server_safe (λ e _, e) sample_clock "cp-1" Ok StatusTracker.memory_manager) as (Hs & _ & Hd & _);
    [discriminate|discriminate|exact Hr|by exists (mkTimestamp 10 0); instantiate (1 := sample_env)|].
  split; [eexists 0%nat, _; vm_compute; reflexivity|]. split; [exact Hd|]. apply (Hs AnyType). reflexivity.
Defined.
