(* ===== verification/DataplaneSync.v ===== *)
(** * Synchronisation of a dataplane

    Models what a tick of the watchdog of a dataplane does: [OnTick] of
    [DefaultDataplaneSyncTracker] in [pkg/xds/server/components.go], the template
    resolver of [pkg/xds/server/proxy_template_resolver.go], the snapshot
    generator of [pkg/xds/server/reconcile.go] and the context of
    [pkg/xds/context/context.go].  The resource generators are behind the
    interface [ResourceGenerator]. *)

From S2P Require Import Prelude Effects GoStd Tags Dataplane Policy MeshResources Validators MeshValidator.
From S2P Require Import Insights Resources Store MemoryStore Manager CoreXds SnapshotCache StatusTracker.
From S2P Require Import Topology ControlPlane.
Local Open Scope Z_scope.

(** ** context.go *)

Record ControlPlaneContext : Type := mkControlPlaneContext {
  cpc_SdsLocation : string;
  cpc_SdsTlsCert : string;   (* bytes *)
}.
Record XdsContext : Type := mkContext {
  ctx_ControlPlane : option ControlPlaneContext;
  ctx_Mesh : MeshResource;
}.

(** The configuration [BuildControlPlaneContext] reads. *)
Record sds_config : Type := mkSdsConfig {
  cfg_TlsCertFile : string;
  cfg_SdsUrl : string;
  cfg_XdsHost : string;
  cfg_GrpcPort : Z;
}.

(** [ioutil.ReadFile], and the host of [url.Parse]. *)
Definition BuildControlPlaneContext (ReadFile : string → res string) (url_Parse_Host : string → res string)
    (config : sds_config) : res ControlPlaneContext :=
  let? cert := if negb (String.eqb (cfg_TlsCertFile config) "") then ReadFile (cfg_TlsCertFile config) else Ok "" in
  let? host := if negb (String.eqb (cfg_SdsUrl config) "") then url_Parse_Host (cfg_SdsUrl config) else Ok "" in
  let sdsLocation :=
    if String.eqb host "" then cfg_XdsHost config +:+ ":" +:+ itoa (cfg_GrpcPort config) else host in
  Ok (mkControlPlaneContext sdsLocation cert).

(** ** Resource generators *)

(** The kinds of Envoy resources the snapshot distinguishes. *)
Inductive envoy_kind : Type :=
| EListener | ERouteConfiguration | ECluster | EClusterLoadAssignment | ESecret | EOther.
#[global] Instance envoy_kind_eq_dec : EqDecision envoy_kind.
Proof. solve_decision. Defined.

(** The messages of Envoy: their type, and [GetResourceName] of the cache
    library. *)
Class EnvoyMessages (R : Type) : Type := {
  kind_of_message : R → envoy_kind;
  GetResourceName : R → string;
}.

(** ** components.go *)

(** The interface [SnapshotReconciler]. *)
Record SnapshotReconciler (S : Type) : Type := mkReconciler {
  sr_Reconcile : XdsContext → Proxy → ST S unit;
  sr_Clear : ProxyId → ST S unit;
}.
Arguments mkReconciler {S} _ _.
Arguments sr_Reconcile {S} _ _ _.
Arguments sr_Clear {S} _ _.

(** What the watchdogs work on: the state of the resource manager, of the
    snapshot cache (and the number of identifiers drawn) and the metadata of the
    streams. *)
Record world (St K : Type) : Type := mkWorld {
  w_store : St;
  w_cache : K;
  w_uuids : nat;
  w_metadata : gmap Z DataplaneMetadata;
}.
Arguments mkWorld {St K} _ _ _ _.
Arguments w_store {St K} _.
Arguments w_cache {St K} _.
Arguments w_uuids {St K} _.
Arguments w_metadata {St K} _.

Section Sync.
Context {St K : Type} (manager : ReadOnlyResourceManager St).
Let W := world St K.

Definition set_store (s : St) (w : W) : W := mkWorld s (w_cache w) (w_uuids w) (w_metadata w).
Definition on_store {A} (m : St → res A * St) : ST W A := zoom w_store set_store m.

(** [manager.Get(ctx, r, fs...)] with a typed pointer [r]. *)
Definition get_resource {T} `{ResourceKind T} (k : Kind) (fs : list GetOptionsFunc) (s : St) : res (Resource T) * St :=
  let '(err, (s', o)) := mgr_Get manager s (new_object k) fs in
  match err with
  | Ok _ => match as_resource o with Some r => (Ok r, s') | None => (Panic, s') end
  | Err e => (Err e, s')
  | Panic => (Panic, s')
  end.

Section OnTick.
Context (reconciler : SnapshotReconciler W) (envoyCpCtx : ControlPlaneContext).

Definition OnTick (now : Z) (key : ResourceKey) (streamId : Z) : ST W unit :=
  let proxyID := FromResourceKey key in
  got ← try (on_store (get_resource (T := Dataplane) KDataplane [GetBy key]));
  match got with
  | inl err => if IsResourceNotFound err then sr_Clear reconciler proxyID else fail err
  | inr dataplane =>
      mesh ← on_store (get_resource (T := Mesh) KMesh [GetByKey (pid_Mesh proxyID) (pid_Mesh proxyID)]);
      let envoyCtx := mkContext (Some envoyCpCtx) mesh in
      routes ← on_store (λ s, GetRoutes manager now s dataplane);
      let destinations := BuildDestinationMap dataplane routes in
      outbound ← on_store (λ s, GetOutboundTargets manager s dataplane destinations);
      healthChecks ← on_store (λ s, GetHealthChecks manager s dataplane destinations);
      trafficTrace ← on_store (λ s, GetTrafficTrace manager s dataplane);
      let tracingBackend :=
        trafficTrace ≫= λ t : TrafficTraceResource, GetTracingBackend mesh (default "" (tt_Conf (r_Spec t))) in
      matchedPermissions ← on_store (λ s, Permissions_Match manager s dataplane);
      matchedLogs ← on_store (λ s, Logs_Match manager s dataplane);
      faultInjection ← on_store (λ s, FaultInjections_Match manager s dataplane);
      metadata ← st_get (λ w, Metadata (w_metadata w) streamId);
      sr_Reconcile reconciler envoyCtx
        (mkProxy proxyID dataplane matchedPermissions matchedLogs routes destinations outbound healthChecks
           trafficTrace tracingBackend (Some metadata) faultInjection)
  end.
End OnTick.

(** ** proxy_template_resolver.go *)

(** [xds_template.DefaultProxyTemplate]. *)
Definition ProfileDefaultProxy : string := "default-proxy".
Definition DefaultProxyTemplate : ProxyTemplate := mkProxyTemplate [] [ProfileDefaultProxy] [].

(** [None] is a nil template, returned when the templates cannot be listed. *)
Definition GetTemplate (proxy : Proxy) (s : St) : res (option ProxyTemplate) * St :=
  let '(err, (s', l)) := mgr_List manager s (new_list KProxyTemplate) [ListByMesh (mesh_of (px_Dataplane proxy))] in
  match err with
  | Ok _ =>
      match SelectDataplanePolicy (px_Dataplane proxy) (typed_items (S := ProxyTemplate) l) with
      | Ok (Some bestMatchTemplate, _) => (Ok (Some (r_Spec bestMatchTemplate)), s')
      | Ok (None, _) => (Ok (Some DefaultProxyTemplate), s')
      | Err e => (Err e, s')
      | Panic => (Panic, s')
      end
  | Err _ => (Ok None, s')
  | Panic => (Panic, s')
  end.

(** ** The snapshot generator *)

Section Generate.
Context {R : Type} `{EnvoyMessages R}.
(** [TemplateProxyGenerator.Generate]. *)
Context (Generate : option ProxyTemplate → XdsContext → Proxy → res (list (@CoreXds.XdsResource R))).

(** [envoy_cache.NewResources]: a later resource of the same name wins. *)
Definition NewResources (version : string) (items : list R) : XdsResources R :=
  mkResources version (foldl (λ m r, <[GetResourceName r := r]> m) ∅ items).

Definition of_kind (k : envoy_kind) (rs : list (@CoreXds.XdsResource R)) : list R :=
  List.filter (λ r, bool_decide (kind_of_message r = k)) (xr_Resource <$> rs).

Definition GenerateSnapshot (ctx : XdsContext) (proxy : Proxy) (s : St) : res (EnvoySnapshot R) * St :=
  let (template, s') := GetTemplate proxy s in
  match template with
  | Ok template =>
      (let? rs := Generate template ctx proxy in
       Ok (mkEnvoySnapshot
             (NewResources "" (of_kind EClusterLoadAssignment rs))
             (NewResources "" (of_kind ECluster rs))
             (NewResources "" (of_kind ERouteConfiguration rs))
             (NewResources "" (of_kind EListener rs))
             (NewResources "" (of_kind ESecret rs))), s')
  | Err e => (Err e, s')
  | Panic => (Panic, s')
  end.

(** The [reconciler] of [DefaultReconciler]. *)
Context (proto_Equal : R → R → bool) (uuid : nat → string) (cacher : @snapshotCacher R K).

Definition DefaultReconciler : SnapshotReconciler W :=
  {| sr_Reconcile := λ ctx proxy w,
       let (snapshot, s) := GenerateSnapshot ctx proxy (w_store w) in
       let '(err, (k, n)) := xds_Reconcile proto_Equal uuid cacher snapshot (w_cache w) (w_uuids w) (px_Id proxy) in
       (err, mkWorld s k n (w_metadata w));
     sr_Clear := λ proxyId w,
       let (err, k) := reconciler_Clear cacher (w_cache w) proxyId in
       (err, mkWorld (w_store w) k (w_uuids w) (w_metadata w)) |}.
End Generate.
End Sync.

(** ** With the memory store *)

Section Memory.
Context `{LawfulJsonpb}.
Context (ptypes_Duration : Duration → option Z) (ResourceFromYaml_error : string → option string).
Context {K : Type}.
Let manager : ReadOnlyResourceManager memoryStore := read_only (memory_manager ptypes_Duration ResourceFromYaml_error).
Let W := world memoryStore K.

(** Resource [r] of kind [k] is stored under [name] in [mesh]. *)
Definition found (c : memoryStore) (k : Kind) (name mesh : string) (r : Resource (message_of k)) : Prop :=
  ∃ rec, abs c !! (type_name k, name, mesh) = Some rec
    ∧ r_Meta r = observe (MemoryMeta (record_meta rec))
    ∧ jsonpb_Marshal (@to_spec _ (kind_instance k) (r_Spec r)) = Ok (rec_Spec rec).

(** The mesh a resource is stored in: a mesh is in the mesh of its own name. *)
Definition key_mesh (k : Kind) (name mesh : string) : string :=
  if String.eqb (type_name k) MeshType then name else mesh.

Lemma get_resource_memory c k name mesh :
  rtc memory_step NewStore c →
  match abs c !! (type_name k, name, key_mesh k name mesh) with
  | None => ∃ e, get_resource (T := message_of k) manager k [GetByKey name mesh] c = (Err e, c)
      ∧ IsResourceNotFound e = true
  | Some _ => ∃ r, get_resource (T := message_of k) manager k [GetByKey name mesh] c = (Ok r, c)
      ∧ found c k name (key_mesh k name mesh) r ∧ GetMesh (r_Meta r) = key_mesh k name mesh
  end.
Proof.
  intros [Hu Hall]%reachable_ok. unfold get_resource. simpl. unfold manager_Get. simpl.
  rewrite Get_refines by done. unfold map_Get. simpl. unfold GetType.
  change (o_Kind (new_object k)) with (kind_of_spec (zero_spec k)). rewrite !kind_of_zero.
  fold (key_mesh k name mesh).
  destruct (abs c !! _) as [rec|] eqn:E; [|eexists; split; [done|reflexivity]].
  pose proof E as [Hin Hk]%abs_lookup; [|done].
  rewrite Forall_forall in Hall. destruct (Hall rec Hin) as [spec Hspec]. pose proof Hspec as [Ht Hj].
  injection Hk as Hkt Hkn Hkm. rewrite Ht in Hkt. apply type_name_inj in Hkt.
  pose proof (of_spec_kind k spec) as Hof. destruct (@of_spec _ _ spec) as [m|] eqn:Es; [|done].
  destruct Hof as [_ <-]. pose proof (unmarshalRecord_fresh rec _ Hspec) as Hun.
  rewrite kind_of_to_spec in Hun. rewrite Hun. unfold as_resource. simpl. rewrite of_spec_to_spec.
  eexists. split; [done|]. split; [exists rec; done|done].
Qed.
(** The resources of kind [k] a dataplane's mesh holds. *)
Definition holds (c : memoryStore) (k : Kind) (mesh : string) (l : list (Resource (message_of k))) : Prop :=
  ∀ p, p ∈ l ↔ stored c k mesh p.

Lemma listed_holds c k mesh :
  rtc memory_step NewStore c → mesh ≠ "" →
  holds c k mesh (typed_items (S := message_of k) (listed c k mesh)).
Proof. intros Hc Hne p. apply listed_stored; [by apply reachable_ok|done]. Qed.

(** The proxy the generators are given for the dataplane [dp]: everything is
    computed from what [c] holds in the mesh of the dataplane. *)
Record synced (now : Z) (c : memoryStore) (key : ResourceKey) (md : DataplaneMetadata)
    (dp : DataplaneResource) (mesh : MeshResource) (proxy : Proxy) : Prop := {
  sy_Id : px_Id proxy = FromResourceKey key;
  sy_Dataplane : px_Dataplane proxy = dp;
  sy_Metadata : px_Metadata proxy = Some md;
  sy_Routes : ∃ routes, holds c KTrafficRoute (key_Mesh key) routes
    ∧ px_TrafficRoutes proxy = BuildRouteMap now dp routes;
  sy_Selectors : px_OutboundSelectors proxy = BuildDestinationMap dp (px_TrafficRoutes proxy);
  sy_Targets : ∃ dataplanes, holds c KDataplane (key_Mesh key) dataplanes
    ∧ BuildEndpointMap (px_OutboundSelectors proxy) dataplanes = Ok (px_OutboundTargets proxy);
  sy_HealthChecks : ∃ checks, holds c KHealthCheck (key_Mesh key) checks
    ∧ px_HealthChecks proxy = BuildHealthCheckMap dp (px_OutboundSelectors proxy) checks;
  sy_Trace : ∃ traces, holds c KTrafficTrace (key_Mesh key) traces
    ∧ rmap fst (SelectDataplanePolicy dp traces) = Ok (px_TrafficTrace proxy);
  sy_Tracing : px_TracingBackend proxy =
    px_TrafficTrace proxy ≫= λ t : TrafficTraceResource, GetTracingBackend mesh (default "" (tt_Conf (r_Spec t)));
  sy_Inbound : ∃ ifaces permissions faults faultMap,
    GetInboundInterfaces (dp_Networking (r_Spec dp)) = Ok ifaces
    ∧ holds c KTrafficPermission (key_Mesh key) permissions
    ∧ inbound_best dp permissions ifaces (px_TrafficPermissions proxy)
    ∧ holds c KFaultInjection (key_Mesh key) faults
    ∧ inbound_best dp faults ifaces faultMap ∧ px_FaultInjections proxy = r_Spec <$> faultMap;
  sy_Logs : ∃ logs, holds c KTrafficLog (key_Mesh key) logs
    ∧ px_Logs proxy = log_map (logging_backends (r_Spec mesh)) (outbound_policies dp logs);
}.

(** *** The calls of a tick *)

Section Calls.
Context (c : memoryStore) (dp : DataplaneResource).
Hypothesis managed_c : rtc (manager_step ptypes_Duration ResourceFromYaml_error) NewStore c.
Hypothesis small_c : small_store c.
Hypothesis mesh_ne : mesh_of dp ≠ "".
Let items k : list (Resource (message_of k)) := typed_items (S := message_of k) (listed c k (mesh_of dp)).

Lemma managed_steps : rtc memory_step NewStore c.
Proof. by apply (managed ptypes_Duration ResourceFromYaml_error). Qed.

Lemma items_hold k : holds c k (mesh_of dp) (items k).
Proof. apply listed_holds; [exact managed_steps|done]. Qed.

Lemma listing {A} k wrap (cont : memoryStore → ObjectList → res A * memoryStore) :
  list_in_mesh manager k (mesh_of dp) wrap c cont = cont c (listed c k (mesh_of dp)).
Proof. apply list_in_mesh_memory; [exact managed_steps|done]. Qed.

Lemma GetRoutes_memory now :
  GetRoutes manager now c dp = (Ok (BuildRouteMap now dp (items KTrafficRoute)), c).
Proof.
  unfold GetRoutes, BuildRouteMap. destruct (GetOutbound _) as [|o l]; [done|].
  by rewrite listing.
Qed.

Lemma GetOutboundTargets_memory destinations : ∃ targets,
  GetOutboundTargets manager c dp destinations = (Ok targets, c)
  ∧ BuildEndpointMap destinations (items KDataplane) = Ok targets.
Proof.
  rewrite BuildEndpointMap_eq. eexists. split; [|done]. unfold GetOutboundTargets.
  destruct (Nat.eqb _ _) eqn:E; [done|].
  rewrite listing, BuildEndpointMap_eq, E. done.
Qed.

Lemma GetHealthChecks_memory destinations :
  GetHealthChecks manager c dp destinations
  = (Ok (BuildHealthCheckMap dp destinations (items KHealthCheck)), c).
Proof.
  unfold GetHealthChecks, BuildHealthCheckMap. destruct (Nat.eqb _ _) eqn:E; [done|].
  by rewrite listing.
Qed.

Lemma GetTrafficTrace_memory : ∃ trace,
  GetTrafficTrace manager c dp = (Ok trace, c)
  ∧ rmap fst (SelectDataplanePolicy dp (items KTrafficTrace)) = Ok trace.
Proof.
  pose proof (SelectDataplanePolicy_eq dp (items KTrafficTrace)) as E. eexists. split; [|exact (f_equal (rmap fst) E)].
  unfold GetTrafficTrace. rewrite listing. exact (f_equal (λ x, (rmap fst x, c)) E).
Qed.

Lemma Logs_Match_memory (mesh : MeshResource) :
  get_resource (T := Mesh) manager KMesh [GetByKey (mesh_of dp) (mesh_of dp)] c = (Ok mesh, c) →
  Logs_Match manager c dp
  = (Ok (log_map (logging_backends (r_Spec mesh)) (outbound_policies dp (items KTrafficLog))), c).
Proof.
  intros Hm. unfold Logs_Match. rewrite listing.
  unfold backendsByName. unfold get_resource in Hm.
  destruct (mgr_Get manager c (new_object KMesh) _) as [[[]|e|] [s' [meta spec]]]; simpl in *; [|done|done].
  destruct spec; destruct meta; simpl in Hm; try done. by injection Hm as <- <-.
Qed.

(** The dataplane passed its validator when it was written. *)
Lemma found_interfaces name : found c KDataplane name (mesh_of dp) dp →
  ∃ ifaces, GetInboundInterfaces (dp_Networking (r_Spec dp)) = Ok ifaces.
Proof.
  intros (rec & Hrec & _ & Hj).
  destruct (managed ptypes_Duration ResourceFromYaml_error c managed_c) as [_ Hv].
  pose proof (reachable_unique c managed_steps) as Hu. apply abs_lookup in Hrec as [Hin Hk]; [|done].
  unfold records_valid in Hv. rewrite Forall_forall in Hv.
  apply (validated_interfaces (mkResource nilMeta (r_Spec dp))), (Hv rec Hin (DataplaneSpec (r_Spec dp))).
  split; [|exact Hj]. by injection Hk.
Qed.

(** Every call of a tick succeeds, and the results make up the proxy. *)
Lemma synced_tick now key (mesh : MeshResource) md :
  mesh_of dp = key_Mesh key →
  get_resource (T := Mesh) manager KMesh [GetByKey (mesh_of dp) (mesh_of dp)] c = (Ok mesh, c) →
  found c KDataplane (key_Name key) (key_Mesh key) dp →
  ∃ routes targets checks trace permissions logs faults,
    let destinations := BuildDestinationMap dp routes in
    GetRoutes manager now c dp = (Ok routes, c)
    ∧ GetOutboundTargets manager c dp destinations = (Ok targets, c)
    ∧ GetHealthChecks manager c dp destinations = (Ok checks, c)
    ∧ GetTrafficTrace manager c dp = (Ok trace, c)
    ∧ Permissions_Match manager c dp = (Ok permissions, c)
    ∧ Logs_Match manager c dp = (Ok logs, c)
    ∧ FaultInjections_Match manager c dp = (Ok faults, c)
    ∧ synced now c key md dp mesh
        (mkProxy (FromResourceKey key) dp permissions logs routes destinations targets checks trace
           (trace ≫= λ t : TrafficTraceResource, GetTracingBackend mesh (default "" (tt_Conf (r_Spec t))))
           (Some md) faults).
Proof.
  intros Hk Hmesh Hf. rewrite <- Hk in Hf. destruct (found_interfaces _ Hf) as [ifaces Hi].
  set (routes := BuildRouteMap now dp (items KTrafficRoute)).
  destruct (GetOutboundTargets_memory (BuildDestinationMap dp routes)) as (targets & Ht & Ht').
  destruct GetTrafficTrace_memory as (trace & Htr & Htr').
  pose proof (Permissions_Match_best ptypes_Duration ResourceFromYaml_error c dp managed_c small_c mesh_ne) as Hp.
  fold manager in Hp. destruct (Permissions_Match manager c dp) as [ep c1] eqn:Ep.
  rewrite Hi in Hp. destruct Hp as (-> & permissions & pm & -> & Hpl & Hpb).
  pose proof (FaultInjections_Match_best ptypes_Duration ResourceFromYaml_error c dp managed_c small_c mesh_ne) as Hq.
  fold manager in Hq. destruct (FaultInjections_Match manager c dp) as [eq c2] eqn:Eq.
  rewrite Hi in Hq. destruct Hq as (-> & faults & fm & -> & Hfl & Hfb).
  eexists routes, targets, _, trace, pm, _, (r_Spec <$> fm).
  split; [apply GetRoutes_memory|]. split; [exact Ht|]. split; [apply GetHealthChecks_memory|].
  split; [exact Htr|]. split; [done|]. split; [apply (Logs_Match_memory mesh Hmesh)|]. split; [done|].
  split; simpl; try done; rewrite <- ?Hk.
  - eexists. split; [apply items_hold|done].
  - eexists. split; [apply items_hold|exact Ht'].
  - eexists. split; [apply items_hold|done].
  - eexists. split; [apply items_hold|exact Htr'].
  - exists ifaces, permissions, faults, fm. done.
  - eexists. split; [apply items_hold|done].
Qed.
End Calls.

(** A call that reads the store, then the rest. *)
Lemma step_read {A B} (m : memoryStore → res A * memoryStore) (k : A → ST W B) w a :
  m (w_store w) = (Ok a, w_store w) → (on_store m ≫= k) w = k a w.
Proof. intros E. unfold mbind, ST_bind, on_store, zoom. rewrite E. by destruct w. Qed.

Lemma step_read_err {A B} (m : memoryStore → res A * memoryStore) (k : A → ST W B) w e :
  m (w_store w) = (Err e, w_store w) → (on_store m ≫= k) w = (Err e, w).
Proof. intros E. unfold mbind, ST_bind, on_store, zoom. rewrite E. by destruct w. Qed.

Lemma step_try {A B} (m : memoryStore → res A * memoryStore) (k : goerror + A → ST W B) w :
  (∀ a, m (w_store w) = (Ok a, w_store w) → (try (on_store m) ≫= k) w = k (inr a) w)
  ∧ (∀ e, m (w_store w) = (Err e, w_store w) → (try (on_store m) ≫= k) w = k (inl e) w).
Proof.
  split; intros x E; unfold mbind, ST_bind, try, on_store, zoom; rewrite E; by destruct w.
Qed.

(** C40: A tick of the watchdog of a dataplane, on a store written through the
    resource manager.  If the dataplane is not stored its configuration is
    cleared; if its mesh is not, the tick fails and changes nothing.  Otherwise
    the tick always gets as far as reconciling (no step fails or panics), with
    a proxy made from exactly the policies and dataplanes stored in the mesh of
    the dataplane, the metadata of the stream and the stored mesh. *)
Theorem OnTick_memory (reconciler : SnapshotReconciler W) cp now key streamId w :
  rtc (manager_step ptypes_Duration ResourceFromYaml_error) NewStore (w_store w) → small_store (w_store w) →
  key_Mesh key ≠ "" →
  let tick := OnTick manager reconciler cp now key streamId w in
  match abs (w_store w) !! (type_name KDataplane, key_Name key, key_Mesh key),
        abs (w_store w) !! (type_name KMesh, key_Mesh key, key_Mesh key) with
  | None, _ => tick = sr_Clear reconciler (FromResourceKey key) w
  | Some _, None => ∃ e, tick = (Err e, w) ∧ IsResourceNotFound e = true
  | Some _, Some _ => ∃ dp mesh proxy,
      found (w_store w) KDataplane (key_Name key) (key_Mesh key) dp
      ∧ found (w_store w) KMesh (key_Mesh key) (key_Mesh key) mesh
      ∧ synced now (w_store w) key (Metadata (w_metadata w) streamId) dp mesh proxy
      ∧ tick = sr_Reconcile reconciler (mkContext (Some cp) mesh) proxy w
  end.
Proof.
  intros Hm Hs Hne tick. pose proof (managed_steps _ Hm) as Hc. set (c := w_store w) in *.
  pose proof (get_resource_memory c KDataplane (key_Name key) (key_Mesh key) Hc) as Hd.
  pose proof (get_resource_memory c KMesh (key_Mesh key) (key_Mesh key) Hc) as Hmesh.
  change (key_mesh KDataplane _ _) with (key_Mesh key) in Hd.
  change (GetByKey (key_Name key) (key_Mesh key)) with (GetBy key) in Hd.
  change (key_mesh KMesh _ _) with (key_Mesh key) in Hmesh.
  destruct (abs c !! (type_name KDataplane, _, _)) as [rec|]; cycle 1.
  { destruct Hd as (e & Hg & He). subst tick. unfold OnTick.
    rewrite (proj2 (step_try _ _ w) e Hg), He. done. }
  destruct Hd as (dp & Hg & Hfd & Hdm). assert (mesh_of dp = key_Mesh key) as Hk by exact Hdm.
  assert (mesh_of dp ≠ "") as Hne' by (by rewrite Hk).
  destruct (abs c !! (type_name KMesh, _, _)) as [mrec|]; cycle 1.
  { destruct Hmesh as (e & Hg' & He). exists e. split; [|done]. subst tick. unfold OnTick.
    rewrite (proj1 (step_try _ _ w) dp Hg). by apply step_read_err. }
  destruct Hmesh as (mesh & Hg' & Hfm & _). exists dp, mesh.
  assert (get_resource (T := Mesh) manager KMesh [GetByKey (mesh_of dp) (mesh_of dp)] c = (Ok mesh, c)) as Hg2
    by (rewrite Hk; exact Hg').
  destruct (synced_tick c dp Hm Hs Hne' now key mesh (Metadata (w_metadata w) streamId) Hk Hg2 Hfd) as
    (routes & targets & checks & trace & permissions & logs & faults & H1 & H2 & H3 & H4 & H5 & H6 & H7 & Hsy).
  eexists. split; [exact Hfd|]. split; [exact Hfm|]. split; [exact Hsy|]. subst tick.
  unfold OnTick. rewrite (proj1 (step_try _ _ w) dp Hg), (step_read _ _ w mesh Hg'), (step_read _ _ w routes H1), (step_read _ _ w targets H2),
    (step_read _ _ w checks H3), (step_read _ _ w trace H4), (step_read _ _ w permissions H5),
    (step_read _ _ w logs H6), (step_read _ _ w faults H7).
  reflexivity.
Qed.
End Memory.

(** ** What is generated *)

Section Generated.
Context `{LawfulJsonpb}.
Context (ptypes_Duration : Duration → option Z) (ResourceFromYaml_error : string → option string).
Context {R : Type} `{EnvoyMessages R}.
Context (Generate : option ProxyTemplate → XdsContext → Proxy → res (list (@CoreXds.XdsResource R))).
Let manager : ReadOnlyResourceManager memoryStore := read_only (memory_manager ptypes_Duration ResourceFromYaml_error).

Definition named (name : string) (r : R) : bool := String.eqb (GetResourceName r) name.

Lemma NewResources_lookup version items name :
  xr_Items (NewResources version items) !! name = last (List.filter (named name) items).
Proof.
  unfold NewResources. simpl. induction items as [|r items IH] using rev_ind; [done|].
  rewrite foldl_app, List.filter_app. simpl. unfold named at 2.
  destruct (String.eqb_spec (GetResourceName r) name) as [<-|Hne].
  - by rewrite lookup_insert_eq, last_snoc.
  - by rewrite lookup_insert_ne, app_nil_r.
Qed.

(** The field of a snapshot for each kind of resource. *)
Definition snapshot_field (k : envoy_kind) : option (EnvoySnapshot R → XdsResources R) :=
  match k with
  | EListener => Some Listeners
  | ERouteConfiguration => Some Routes
  | ECluster => Some Clusters
  | EClusterLoadAssignment => Some Endpoints
  | ESecret => Some Secrets
  | EOther => None
  end.

(** The template of a proxy: the proxy template of its mesh that is preferred
    over all others that select the dataplane, the default one if none does. *)
Definition chosen_template (c : memoryStore) (dp : DataplaneResource) (template : ProxyTemplate) : Prop :=
  ∃ (templates : list ProxyTemplateResource) best, holds c KProxyTemplate (mesh_of dp) templates
    ∧ preferred_policy dp templates best ∧ template = from_option r_Spec DefaultProxyTemplate best.

Lemma GetTemplate_memory c proxy :
  rtc (manager_step ptypes_Duration ResourceFromYaml_error) NewStore c → small_store c →
  mesh_of (px_Dataplane proxy) ≠ "" →
  ∃ template, chosen_template c (px_Dataplane proxy) template
    ∧ GetTemplate manager proxy c = (Ok (Some template), c).
Proof.
  intros Hm Hs Hne. destruct (managed _ _ _ Hm) as [Hc _]. unfold chosen_template, GetTemplate. simpl.
  set (dp := px_Dataplane proxy) in *. unfold manager_List. simpl.
  pose proof (findRecords_length c (type_name KProxyTemplate) (mesh_of dp)). unfold small_store in Hs.
  rewrite memory_List_all by (lia || by apply reachable_ok).
  fold (listed c KProxyTemplate (mesh_of dp)).
  set (templates := typed_items (S := ProxyTemplate) (listed c KProxyTemplate (mesh_of dp))).
  pose proof (listed_holds c KProxyTemplate (mesh_of dp) Hc Hne) as Hh. fold templates in Hh.
  pose proof (pick_best_policy dp templates) as Hb. rewrite (SelectDataplanePolicy_eq dp templates).
  eexists. split; [exists templates; eexists; split; [exact Hh|]; split; [exact Hb|done]|].
  by destruct (fst <$> _).
Qed.

(** The snapshot of a proxy, on a store written through the resource
    manager.  The template is the preferred one of the dataplane's mesh, or the
    default template.  If the generators fail so does the snapshot; otherwise it
    holds, without a version, exactly the generated resources of the five kinds
    under their names, the last one where a name repeats; other kinds of
    resources are dropped. *)
Theorem GenerateSnapshot_correct c ctx proxy :
  rtc (manager_step ptypes_Duration ResourceFromYaml_error) NewStore c → small_store c →
  mesh_of (px_Dataplane proxy) ≠ "" →
  ∃ template, chosen_template c (px_Dataplane proxy) template
  ∧ match Generate (Some template) ctx proxy with
    | Ok rs => ∃ snapshot, GenerateSnapshot manager Generate ctx proxy c = (Ok snapshot, c)
        ∧ ∀ kind field, snapshot_field kind = Some field →
            xr_Version (field snapshot) = ""
            ∧ ∀ name, xr_Items (field snapshot) !! name =
                last (List.filter (λ r, bool_decide (kind_of_message r = kind) && named name r)
                        (xr_Resource <$> rs))
    | Err e => GenerateSnapshot manager Generate ctx proxy c = (Err e, c)
    | Panic => GenerateSnapshot manager Generate ctx proxy c = (Panic, c)
    end.
Proof.
  intros Hm Hs Hne. destruct (GetTemplate_memory c proxy Hm Hs Hne) as (template & Ht & Hg).
  exists template. split; [exact Ht|]. unfold GenerateSnapshot. rewrite Hg.
  destruct (Generate (Some template) ctx proxy) as [rs|e|]; simpl; [|done|done].
  eexists. split; [done|]. intros kind field Hf. assert (∀ k name,
    xr_Items (NewResources "" (of_kind k rs)) !! name
    = last (List.filter (λ r, bool_decide (kind_of_message r = k) && named name r) (xr_Resource <$> rs))) as Hl.
  { intros k name. rewrite NewResources_lookup. unfold of_kind. f_equal.
    induction (xr_Resource <$> rs) as [|r l IH]; simpl; [done|].
    destruct (bool_decide (kind_of_message r = k)); simpl; [destruct (named name r)|]; by rewrite IH. }
  destruct kind; simpl in Hf; simplify_eq; (split; [done|intros name; apply Hl]).
Qed.
End Generated.

(** ** A concrete dataplane *)

(** A codec that also writes one dataplane. *)
Definition dp_spec : Dataplane :=
  mkDataplane (Some (mkNetworking "192.168.0.1" [mkInbound "" 80 8080 "" (MatchService "web")]
    [mkOutbound "" "127.0.0.1" 10001 "db"] None)) None.
#[local] Instance dp_jsonpb : Jsonpb :=
  {| jsonpb_Marshal := λ spec,
       match spec with
       | DataplaneSpec d => if decide (d = dp_spec) then Ok "dp" else Err (Errorf "unsupported message" [])
       | _ => @jsonpb_Marshal sample_jsonpb spec
       end;
     jsonpb_Unmarshal := λ s out,
       match out with
       | DataplaneSpec _ => (Ok (), DataplaneSpec dp_spec)
       | _ => @jsonpb_Unmarshal sample_jsonpb s out
       end |}.

#[local] Instance dp_jsonpb_lawful : LawfulJsonpb.
Proof.
  constructor.
  - by intros s [].
  - intros spec s Hs. destruct spec as [|d| | | | | | | | | |];
      try by apply (@unmarshal_marshal _ sample_jsonpb_lawful).
    simpl in *. destruct (decide (d = dp_spec)); by subst.
Qed.

(** The mesh [default] with the dataplane [dp-1], written through the manager. *)
Definition dp_writes (c : memoryStore) (x : Object * string) : memoryStore :=
  (mgr_Create (memory_manager sample_Duration sample_Yaml) 1 c x.1 [CreateByKey x.2 "default"]).2.1.
Definition dp_store : memoryStore :=
  foldl dp_writes NewStore [(new_object KMesh, "default"); (mkObject None (DataplaneSpec dp_spec), "dp-1")].

Lemma dp_store_managed : rtc (manager_step sample_Duration sample_Yaml) NewStore dp_store.
Proof. eapply rtc_l; [apply mstep_Create|]. apply rtc_once, mstep_Create. Qed.

Lemma OnTick_memory_witness :
  ∃ dp mesh proxy,
    OnTick (K := unit) (read_only (memory_manager sample_Duration sample_Yaml))
      (mkReconciler (λ _ p, fail (Errorf (ProxyId_String (px_Id p)) [])) (λ _, mret ()))
      (mkControlPlaneContext "" "") 0 (mkKey "default" "dp-1") 1 (mkWorld dp_store () 0 ∅)
    = (Err (Errorf "default.dp-1" []), mkWorld dp_store () 0 ∅)
    ∧ synced 0 dp_store (mkKey "default" "dp-1") (mkDataplaneMetadata "" 0) dp mesh proxy.
Proof.
  pose proof (OnTick_memory sample_Duration sample_Yaml (K := unit)
    (mkReconciler (λ _ p, fail (Errorf (ProxyId_String (px_Id p)) [])) (λ _, mret ()))
    (mkControlPlaneContext "" "") 0 (mkKey "default" "dp-1") 1 (mkWorld dp_store () 0 ∅)
    dp_store_managed ltac:(vm_compute; reflexivity) ltac:(discriminate)) as Hw.
  cbv zeta in Hw. cbn [w_store key_Name key_Mesh w_metadata] in Hw.
  destruct (abs dp_store !! (type_name KDataplane, _, _)) eqn:E1; [|vm_compute in E1; discriminate E1].
  destruct (abs dp_store !! (type_name KMesh, _, _)) eqn:E2; [|vm_compute in E2; discriminate E2].
  destruct Hw as (dp & mesh & proxy & _ & _ & Hsy & Ht). exists dp, mesh, proxy. split; [|exact Hsy].
  refine (eq_trans Ht _). unfold fail. cbn [sr_Reconcile]. rewrite (sy_Id _ _ _ _ _ _ _ Hsy). reflexivity.
Defined.

#[local] Instance string_messages : EnvoyMessages string :=
  {| kind_of_message := λ _, ECluster; GetResourceName := id |}.

Lemma GenerateSnapshot_correct_witness :
  ∃ proxy snapshot,
    GenerateSnapshot (read_only (memory_manager sample_Duration sample_Yaml))
      (λ t _ _, Ok [mkXdsResource "c1" "" "c1"]) (mkContext None (mkResource nilMeta (mkMesh None None None None)))
      proxy dp_store = (Ok snapshot, dp_store)
    ∧ xr_Items (Clusters snapshot) !! "c1" = Some "c1".
Proof.
  set (proxy := mkProxy (mkProxyId "default" "dp-1") sample_dataplane ∅ ∅ ∅ ∅ ∅ ∅ None None None ∅).
  destruct (GenerateSnapshot_correct sample_Duration sample_Yaml (λ t _ _, Ok [mkXdsResource "c1" "" "c1"]) dp_store
    (mkContext None (mkResource nilMeta (mkMesh None None None None))) proxy dp_store_managed
    ltac:(vm_compute; reflexivity) ltac:(discriminate)) as (template & _ & snapshot & Hg & Hf).
  exists proxy, snapshot. split; [exact Hg|]. destruct (Hf ECluster Clusters eq_refl) as [_ Hl]. by rewrite Hl.
Defined.
