(* ===== verification/Json.v ===== *)
(** * JSON text: what the program uses of [encoding/json]

    A document is read in two steps, as the scanner and the decoder of the Go
    package do: the text is cut into tokens ([lex]) and the tokens are read as
    a value ([parse]).  A value is written as tokens, and tokens as compact
    text ([text]) or indented text ([indent]); a string token keeps its
    spelling, so that documents that are spliced or passed on as raw messages
    keep theirs.  Numbers keep their literal.  The main results: what is
    written, compact or indented, is read back ([json_roundtrip]). *)

From S2P Require Import Prelude GoStd.
Local Open Scope string_scope.
Local Open Scope list_scope.
Local Open Scope Z_scope.

Definition code (c : ascii) : Z := Z.of_N (N_of_ascii c).
Definition byte_of (n : Z) : ascii := ascii_of_N (Z.to_N n).
Definition byte_in (lo hi : Z) (c : ascii) : bool := (lo <=? code c) && (code c <=? hi).

(** ** Strings *)

(** [c] starts a valid encoding of a rune in 2, 3 or 4 bytes. *)
Definition rune2 (c c1 : ascii) : bool := byte_in 0xC2 0xDF c && byte_in 0x80 0xBF c1.
Definition rune3 (c c1 c2 : ascii) : bool :=
  byte_in 0xE0 0xEF c && byte_in 0x80 0xBF c1 && byte_in 0x80 0xBF c2
  && (if code c =? 0xE0 then 0xA0 <=? code c1 else true)
  && (if code c =? 0xED then code c1 <=? 0x9F else true).
Definition rune4 (c c1 c2 c3 : ascii) : bool :=
  byte_in 0xF0 0xF4 c && byte_in 0x80 0xBF c1 && byte_in 0x80 0xBF c2 && byte_in 0x80 0xBF c3
  && (if code c =? 0xF0 then 0x90 <=? code c1 else true)
  && (if code c =? 0xF4 then code c1 <=? 0x8F else true).
(** U+2028 and U+2029. *)
Definition line_separator (c c1 c2 : ascii) : bool :=
  (code c =? 0xE2) && (code c1 =? 0x80) && byte_in 0xA8 0xA9 c2.

Definition u_escape (n : Z) : string :=
  let d i := hex_digit (Z.to_N (n / 16 ^ i mod 16)) in
  String "\" (String "u" (String (d 3) (String (d 2) (String (d 1) (String (d 0) ""))))).

(** One byte below 0x80 inside a string, with or without the escapes for HTML. *)
Definition escape_byte (html : bool) (c : ascii) : string :=
  let n := code c in
  if (n =? 34) || (n =? 92) then String "\" (String c "")
  else if n =? 10 then "\n"
  else if n =? 13 then "\r"
  else if n =? 9 then "\t"
  else if (n <? 32) || (html && ((n =? 60) || (n =? 62) || (n =? 38))) then u_escape n
  else String c "".

(** The body of a string literal; bytes that are not UTF-8 become U+FFFD. *)
Fixpoint encode_body (html : bool) (s : string) : string :=
  match s with
  | EmptyString => ""
  | String c r =>
      if code c <? 0x80 then escape_byte html c +:+ encode_body html r
      else match r with
      | EmptyString => u_escape 0xFFFD
      | String c1 r1 =>
          if rune2 c c1 then String c (String c1 (encode_body html r1))
          else match r1 with
          | EmptyString => u_escape 0xFFFD +:+ encode_body html r
          | String c2 r2 =>
              if line_separator c c1 c2 then u_escape (0x2028 + (code c2 - 0xA8)) +:+ encode_body html r2
              else if rune3 c c1 c2 then String c (String c1 (String c2 (encode_body html r2)))
              else match r2 with
              | EmptyString => u_escape 0xFFFD +:+ encode_body html r
              | String c3 r3 =>
                  if rune4 c c1 c2 c3
                  then String c (String c1 (String c2 (String c3 (encode_body html r3))))
                  else u_escape 0xFFFD +:+ encode_body html r
              end
          end
      end
  end.

(** The text is UTF-8. *)
Fixpoint valid_utf8 (s : string) : bool :=
  match s with
  | EmptyString => true
  | String c r =>
      if code c <? 0x80 then valid_utf8 r
      else match r with
      | EmptyString => false
      | String c1 r1 =>
          if rune2 c c1 then valid_utf8 r1
          else match r1 with
          | EmptyString => false
          | String c2 r2 =>
              if rune3 c c1 c2 then valid_utf8 r2
              else match r2 with
              | EmptyString => false
              | String c3 r3 => rune4 c c1 c2 c3 && valid_utf8 r3
              end
          end
      end
  end.

(** [utf8.EncodeRune], for a rune that is not a surrogate. *)
Definition encode_rune (n : Z) : string :=
  if n <? 0x80 then String (byte_of n) ""
  else if n <? 0x800 then String (byte_of (0xC0 + n / 64)) (String (byte_of (0x80 + n mod 64)) "")
  else if n <? 0x10000 then
    String (byte_of (0xE0 + n / 4096)) (String (byte_of (0x80 + n / 64 mod 64))
      (String (byte_of (0x80 + n mod 64)) ""))
  else
    String (byte_of (0xF0 + n / 262144)) (String (byte_of (0x80 + n / 4096 mod 64))
      (String (byte_of (0x80 + n / 64 mod 64)) (String (byte_of (0x80 + n mod 64)) ""))).

Definition replacement : string := encode_rune 0xFFFD.
Definition is_surrogate (n : Z) : bool := (0xD800 <=? n) && (n <? 0xE000).

Definition hex4 (a b c d : ascii) : option Z :=
  match hex_val a, hex_val b, hex_val c, hex_val d with
  | Some a, Some b, Some c, Some d => Some (4096 * a + 256 * b + 16 * c + d)
  | _, _, _, _ => None
  end.

(** The byte an escape of one letter stands for. *)
Definition simple_escape (c : ascii) : option ascii :=
  let n := code c in
  if (n =? 34) || (n =? 92) || (n =? 47) then Some c
  else if n =? 98 then Some (byte_of 8)
  else if n =? 102 then Some (byte_of 12)
  else if n =? 110 then Some (byte_of 10)
  else if n =? 114 then Some (byte_of 13)
  else if n =? 116 then Some (byte_of 9)
  else None.

(** The value of the body of a string literal; [None] when an escape is not
    one.  A surrogate pair is one rune, a lone surrogate is U+FFFD. *)
Fixpoint decode_body (s : string) : option string :=
  match s with
  | EmptyString => Some ""
  | String c r =>
      if code c =? 92 then
        match r with
        | EmptyString => None
        | String e r1 =>
            if code e =? 117 then
              match r1 with
              | String h1 (String h2 (String h3 (String h4 r2))) =>
                  n ← hex4 h1 h2 h3 h4;
                  if is_surrogate n then
                    match r2 with
                    | String b (String u (String l1 (String l2 (String l3 (String l4 r3))))) =>
                        match (if (code b =? 92) && (code u =? 117) then hex4 l1 l2 l3 l4 else None) with
                        | Some m =>
                            if (n <? 0xDC00) && (0xDC00 <=? m) && (m <? 0xE000)
                            then String.append (encode_rune (0x10000 + (n - 0xD800) * 1024 + (m - 0xDC00)))
                                 <$> decode_body r3
                            else String.append replacement <$> decode_body r2
                        | None => String.append replacement <$> decode_body r2
                        end
                    | _ => String.append replacement <$> decode_body r2
                    end
                  else String.append (encode_rune n) <$> decode_body r2
              | _ => None
              end
            else c' ← simple_escape e; String c' <$> decode_body r1
        end
      else if code c <? 0x80 then String c <$> decode_body r
      else match r with
      | EmptyString => Some replacement
      | String c1 r1 =>
          if rune2 c c1 then (λ t, String c (String c1 t)) <$> decode_body r1
          else match r1 with
          | EmptyString => String.append replacement <$> decode_body r
          | String c2 r2 =>
              if rune3 c c1 c2 then (λ t, String c (String c1 (String c2 t))) <$> decode_body r2
              else match r2 with
              | EmptyString => String.append replacement <$> decode_body r
              | String c3 r3 =>
                  if rune4 c c1 c2 c3
                  then (λ t, String c (String c1 (String c2 (String c3 t)))) <$> decode_body r3
                  else String.append replacement <$> decode_body r
              end
          end
      end
  end.

(** ** Values and tokens *)

#[warnings="-register-all"]
Inductive json : Type :=
| JNull
| JBool (b : bool)
| JNum (literal : string)
| JStr (s : string)
| JArr (items : list json)
| JObj (fields : list (string * json)).

Inductive token : Type :=
| TLBrace | TRBrace | TLBracket | TRBracket | TColon | TComma
| TLit (literal : string)   (* true, false, null, a number *)
| TStr (raw : string).      (* the spelling between the quotes *)

Definition TQuoted (html : bool) (s : string) : token := TStr (encode_body html s).

Definition token_text (t : token) : string :=
  match t with
  | TLBrace => "{" | TRBrace => "}" | TLBracket => "[" | TRBracket => "]"
  | TColon => ":" | TComma => ","
  | TLit literal => literal
  | TStr raw => dquote +:+ raw +:+ dquote
  end.

(** Items separated by commas. *)
Fixpoint comma_sep (l : list (list token)) : list token :=
  match l with
  | [] => []
  | [x] => x
  | x :: rest => x ++ TComma :: comma_sep rest
  end.

Definition array_tokens (items : list (list token)) : list token := TLBracket :: comma_sep items ++ [TRBracket].
Definition member_tokens (html : bool) (name : string) (value : list token) : list token :=
  TQuoted html name :: TColon :: value.
Definition object_tokens (members : list (list token)) : list token := TLBrace :: comma_sep members ++ [TRBrace].

Fixpoint tokens (html : bool) (v : json) : list token :=
  match v with
  | JNull => [TLit "null"]
  | JBool b => [TLit (if b then "true" else "false")]
  | JNum literal => [TLit literal]
  | JStr s => [TQuoted html s]
  | JArr items => array_tokens (tokens html <$> items)
  | JObj fields => object_tokens ((λ f, member_tokens html f.1 (tokens html f.2)) <$> fields)
  end.

(** Compact text. *)
Fixpoint text (ts : list token) : string :=
  match ts with
  | [] => ""
  | t :: rest => token_text t +:+ text rest
  end.

(** [json.Marshal] of a value. *)
Definition print (html : bool) (v : json) : string := text (tokens html v).

(** [json.Indent]: a line per member and item, empty ones on one line. *)
Definition newline : string := String (byte_of 10) "".
Definition line (prefix unit : string) (depth : nat) : string :=
  newline +:+ prefix +:+ String.concat "" (replicate depth unit).

Fixpoint indent (prefix unit : string) (depth : nat) (ts : list token) : string :=
  match ts with
  | [] => ""
  | t :: rest =>
      let closes := match rest with (TRBrace | TRBracket) :: _ => true | _ => false end in
      let depth := match t with
                   | TLBrace | TLBracket => S depth
                   | TRBrace | TRBracket => pred depth
                   | _ => depth
                   end in
      token_text t
      +:+ (match t with
           | TColon => " "
           | TComma => line prefix unit depth
           | TLBrace | TLBracket => if closes then "" else line prefix unit depth
           | _ => if closes then line prefix unit (pred depth) else ""
           end)
      +:+ indent prefix unit depth rest
  end.

(** ** Reading *)

Definition is_space (c : ascii) : bool :=
  let n := code c in (n =? 32) || (n =? 9) || (n =? 10) || (n =? 13).

Definition punctuation (c : ascii) : option token :=
  let n := code c in
  if n =? 123 then Some TLBrace else if n =? 125 then Some TRBrace
  else if n =? 91 then Some TLBracket else if n =? 93 then Some TRBracket
  else if n =? 58 then Some TColon else if n =? 44 then Some TComma
  else None.

(** What literals are made of: letters, digits, signs, the point. *)
Definition literal_byte (c : ascii) : bool :=
  byte_in 48 57 c || byte_in 97 122 c || byte_in 65 90 c
  || (code c =? 43) || (code c =? 45) || (code c =? 46).

Definition one_or_more_digits (s : string) : option string :=
  let (ds, rest) := span (byte_in 48 57) s in
  if String.eqb ds "" then None else Some rest.

(** The grammar of numbers. *)
Definition number_int (s : string) : option string :=
  match s with
  | String "0" rest => Some rest
  | _ => one_or_more_digits s
  end.
Definition number_frac (s : string) : option string :=
  match s with
  | String "." rest => one_or_more_digits rest
  | _ => Some s
  end.
Definition number_exp (s : string) : option string :=
  match s with
  | String ("e" | "E") (String ("+" | "-") rest) => one_or_more_digits rest
  | String ("e" | "E") rest => one_or_more_digits rest
  | _ => Some s
  end.
Definition is_number (s : string) : bool :=
  let s := match s with String "-" rest => rest | _ => s end in
  match (s ← number_int s; s ← number_frac s; number_exp s) with
  | Some EmptyString => true
  | _ => false
  end.

Definition literal_value (s : string) : option json :=
  if String.eqb s "null" then Some JNull
  else if String.eqb s "true" then Some (JBool true)
  else if String.eqb s "false" then Some (JBool false)
  else if is_number s then Some (JNum s)
  else None.

(** What the scanner is in the middle of. *)
Inductive lex_state : Type :=
| Between
| InLiteral (acc : string)
| InString (acc : string) (escaped : bool).

Definition snoc (s : string) (c : ascii) : string := s +:+ String c "".

Fixpoint lex (st : lex_state) (s : string) : option (list token) :=
  match s with
  | EmptyString =>
      match st with
      | Between => Some []
      | InLiteral acc => Some [TLit acc]
      | InString _ _ => None
      end
  | String c rest =>
      let between (_ : unit) :=
        if is_space c then lex Between rest
        else if code c =? 34 then lex (InString "" false) rest
        else if literal_byte c then lex (InLiteral (String c "")) rest
        else t ← punctuation c; cons t <$> lex Between rest in
      match st with
      | Between => between tt
      | InLiteral acc =>
          if literal_byte c then lex (InLiteral (snoc acc c)) rest
          else cons (TLit acc) <$> between tt
      | InString acc escaped =>
          if code c <? 32 then None
          else if escaped then lex (InString (snoc acc c) false) rest
          else if code c =? 34 then cons (TStr acc) <$> lex Between rest
          else lex (InString (snoc acc c) (code c =? 92)) rest
      end
  end.

(** Values from tokens; the fuel bounds the number of calls. *)
Fixpoint parse_value (fuel : nat) (ts : list token) : option (json * list token) :=
  match fuel with
  | O => None
  | S fuel =>
      match ts with
      | TLit literal :: rest => v ← literal_value literal; Some (v, rest)
      | TStr raw :: rest => s ← decode_body raw; Some (JStr s, rest)
      | TLBracket :: TRBracket :: rest => Some (JArr [], rest)
      | TLBracket :: rest =>
          '(items, rest) ← parse_items fuel rest; Some (JArr items, rest)
      | TLBrace :: TRBrace :: rest => Some (JObj [], rest)
      | TLBrace :: rest =>
          '(fields, rest) ← parse_members fuel rest; Some (JObj fields, rest)
      | _ => None
      end
  end
with parse_items (fuel : nat) (ts : list token) : option (list json * list token) :=
  match fuel with
  | O => None
  | S fuel =>
      '(v, rest) ← parse_value fuel ts;
      match rest with
      | TRBracket :: rest => Some ([v], rest)
      | TComma :: rest => '(vs, rest) ← parse_items fuel rest; Some (v :: vs, rest)
      | _ => None
      end
  end
with parse_members (fuel : nat) (ts : list token) : option (list (string * json) * list token) :=
  match fuel with
  | O => None
  | S fuel =>
      match ts with
      | TStr raw :: TColon :: rest =>
          name ← decode_body raw;
          '(v, rest) ← parse_value fuel rest;
          match rest with
          | TRBrace :: rest => Some ([(name, v)], rest)
          | TComma :: rest => '(vs, rest) ← parse_members fuel rest; Some ((name, v) :: vs, rest)
          | _ => None
          end
      | _ => None
      end
  end.

(** Two calls per token are enough. *)
Definition parse_fuel (ts : list token) : nat := 2 * length ts.

Definition parse_tokens (ts : list token) : option json :=
  match parse_value (parse_fuel ts) ts with
  | Some (v, []) => Some v
  | _ => None
  end.

(** A whole document; [None] is a syntax error. *)
Definition parse (s : string) : option json := ts ← lex Between s; parse_tokens ts.

(** [json.Compact] of a valid document: no white space between tokens, and
    with [html] the bytes that HTML cares about escaped inside strings. *)
Fixpoint escape_raw (html : bool) (raw : string) : string :=
  match raw with
  | EmptyString => ""
  | String c rest =>
      let n := code c in
      if html && ((n =? 60) || (n =? 62) || (n =? 38)) then u_escape n +:+ escape_raw html rest
      else match rest with
      | String c1 (String c2 rest2) =>
          if line_separator c c1 c2 then u_escape (0x2028 + (code c2 - 0xA8)) +:+ escape_raw html rest2
          else String c (escape_raw html rest)
      | _ => String c (escape_raw html rest)
      end
  end.

Definition escape_token (html : bool) (t : token) : token :=
  match t with TStr raw => TStr (escape_raw html raw) | _ => t end.

Definition compact (html : bool) (s : string) : option (list token) :=
  ts ← lex Between s;
  _ ← parse_tokens ts;
  Some (escape_token html <$> ts).

(** ** Raw messages *)

(** The tokens of the value that starts [ts], and what follows it. *)
Definition raw_value (ts : list token) : option (list token * list token) :=
  '(_, rest) ← parse_value (parse_fuel ts) ts;
  Some (firstn (length ts - length rest) ts, rest).

(** The items of an array and the members of an object as raw values; the fuel
    bounds their number. *)
Fixpoint raw_items (fuel : nat) (ts : list token) : option (list (list token)) :=
  match fuel with
  | O => None
  | S fuel =>
      '(v, rest) ← raw_value ts;
      match rest with
      | TRBracket :: _ => Some [v]
      | TComma :: rest => cons v <$> raw_items fuel rest
      | _ => None
      end
  end.

Fixpoint raw_members (fuel : nat) (ts : list token) : option (list (string * list token)) :=
  match fuel with
  | O => None
  | S fuel =>
      match ts with
      | TStr raw :: TColon :: rest =>
          name ← decode_body raw;
          '(v, rest) ← raw_value rest;
          match rest with
          | TRBrace :: _ => Some [(name, v)]
          | TComma :: rest => cons (name, v) <$> raw_members fuel rest
          | _ => None
          end
      | _ => None
      end
  end.

(** The members of a document that is an object. *)
Definition document_members (ts : list token) : option (list (string * list token)) :=
  match ts with
  | TLBrace :: TRBrace :: _ => Some []
  | TLBrace :: rest => raw_members (length ts) rest
  | _ => None
  end.
(** The items of a raw value that is an array. *)
Definition array_items (ts : list token) : option (list (list token)) :=
  match ts with
  | TLBracket :: TRBracket :: _ => Some []
  | TLBracket :: rest => raw_items (length ts) rest
  | _ => None
  end.

(** [json.Marshal] of a raw message. *)
Definition raw_text (v : list token) : string := text (escape_token true <$> v).

(** ** Names of struct fields *)

(** The folding under which [encoding/json] compares names: letters without
    their case, with the Kelvin sign and the long s. *)
Fixpoint fold_name (s : string) : string :=
  match s with
  | EmptyString => ""
  | String c rest =>
      match rest with
      | String c1 rest1 =>
          if (code c =? 0xC5) && (code c1 =? 0xBF) then String "s" (fold_name rest1)
          else match rest1 with
               | String c2 rest2 =>
                   if (code c =? 0xE2) && (code c1 =? 0x84) && (code c2 =? 0xAA)
                   then String "k" (fold_name rest2)
                   else String (lower_byte c) (fold_name rest)
               | EmptyString => String (lower_byte c) (fold_name rest)
               end
      | EmptyString => String (lower_byte c) ""
      end
  end.

(** The member [key] is the field [name]. *)
Definition is_field (name key : string) : bool := String.eqb (fold_name key) (fold_name name).

(** ** White space around a document *)

Fixpoint trim_left (s : string) : string :=
  match s with
  | String c rest => if is_space c then trim_left rest else s
  | EmptyString => ""
  end.
Fixpoint trim_right (s : string) : string :=
  match s with
  | String c rest =>
      match trim_right rest with
      | EmptyString => if is_space c then "" else String c ""
      | rest => String c rest
      end
  | EmptyString => ""
  end.
(** The text of the value, without the white space around it. *)
Definition trim (s : string) : string := trim_right (trim_left s).

(** ** What is written is read back *)

Lemma code_inj c d : code c = code d → c = d.
Proof.
  unfold code. intros H%N2Z.inj. rewrite <- (ascii_N_embedding c), <- (ascii_N_embedding d). by rewrite H.
Qed.

Lemma decode_escape_byte html c t :
  (code c <? 0x80) = true → decode_body (escape_byte html c +:+ t) = String c <$> decode_body t.
Proof. intros H. each_byte c; try (vm_compute in H; discriminate H); destruct html; reflexivity. Qed.

Lemma line_separator_bytes c c1 c2 :
  line_separator c c1 c2 = true → c = byte_of 0xE2 ∧ c1 = byte_of 0x80 ∧ (c2 = byte_of 0xA8 ∨ c2 = byte_of 0xA9).
Proof.
  unfold line_separator, byte_in. rewrite !andb_true_iff, !Z.eqb_eq, !Z.leb_le. intros [[H1 H2] H3].
  split; [by apply code_inj|]. split; [by apply code_inj|].
  assert (code c2 = 0xA8 ∨ code c2 = 0xA9) as [?|?] by lia; [left|right]; by apply code_inj.
Qed.

Lemma high_byte c : (code c <? 0x80) = false → (code c =? 92) = false.
Proof. intros. apply Z.eqb_neq. lia. Qed.

Lemma decode_encode_body html s : valid_utf8 s = true → decode_body (encode_body html s) = Some s.
Proof.
  remember (String.length s) as n eqn:Hn. revert s Hn.
  induction n as [n IH] using lt_wf_ind. intros s -> Hs.
  destruct s as [|c r]; [done|]. cbn [encode_body valid_utf8] in *.
  destruct (code c <? 0x80) eqn:Hc.
  { rewrite decode_escape_byte by done. by rewrite (IH (String.length r)) by (done || simpl; lia). }
  destruct r as [|c1 r1]; [done|]. destruct (rune2 c c1) eqn:H2.
  { cbn [decode_body]. rewrite (high_byte c Hc), Hc, H2.
    by rewrite (IH (String.length r1)) by (done || simpl; lia). }
  destruct r1 as [|c2 r2]; [done|]. destruct (line_separator c c1 c2) eqn:Hl.
  { apply line_separator_bytes in Hl as (-> & -> & Hl). cbn [valid_utf8] in Hs.
    assert (valid_utf8 r2 = true) as Hr by (destruct Hl as [-> | ->]; exact Hs).
    pose proof (IH (String.length r2) ltac:(simpl; lia) r2 eq_refl Hr) as E.
    destruct Hl as [-> | ->]; simpl; rewrite E; reflexivity. }
  destruct (rune3 c c1 c2) eqn:H3.
  { cbn [decode_body]. rewrite (high_byte c Hc), Hc, H2, H3.
    by rewrite (IH (String.length r2)) by (done || simpl; lia). }
  destruct r2 as [|c3 r3]; [done|]. apply andb_true_iff in Hs as [H4 Hs]. rewrite H4.
  cbn [decode_body]. rewrite (high_byte c Hc), Hc, H2, H3, H4.
  by rewrite (IH (String.length r3)) by (done || simpl; lia).
Qed.

(** The scanner goes over a spelling up to its closing quote. *)
Fixpoint scan (escaped : bool) (raw : string) : bool :=
  match raw with
  | EmptyString => negb escaped
  | String c rest =>
      negb (code c <? 32)
      && (if escaped then scan false rest
          else negb (code c =? 34) && scan (code c =? 92) rest)
  end.

Lemma lex_raw escaped acc raw rest :
  scan escaped raw = true →
  lex (InString acc escaped) (raw +:+ dquote +:+ rest) = cons (TStr (acc +:+ raw)) <$> lex Between rest.
Proof.
  revert escaped acc; induction raw as [|c raw IH]; intros escaped acc H; simpl in H.
  - destruct escaped; [done|]. simpl. by rewrite string_app_empty_r.
  - change (String c raw +:+ dquote +:+ rest) with (String c (raw +:+ dquote +:+ rest)).
    cbn [lex]. apply andb_true_iff in H as [H1 H2]. rewrite negb_true_iff in H1. rewrite H1.
    destruct escaped; [|apply andb_true_iff in H2 as [H2 H3]; rewrite negb_true_iff in H2; rewrite H2];
      rewrite IH by done; unfold snoc; by rewrite string_app_assoc.
Qed.

Lemma scan_escape_byte html c t :
  (code c <? 0x80) = true → scan false (escape_byte html c +:+ t) = scan false t.
Proof. intros H. each_byte c; try (vm_compute in H; discriminate H); destruct html; reflexivity. Qed.

Lemma scan_high c t : (code c <? 0x80) = false → scan false (String c t) = scan false t.
Proof.
  intros Hc. simpl. rewrite (high_byte c Hc).
  destruct (Z.ltb_spec (code c) 32), (Z.eqb_spec (code c) 34); simpl; done || lia.
Qed.

Lemma scan_encode_body html s : scan false (encode_body html s) = true.
Proof.
  remember (String.length s) as n eqn:Hn. revert s Hn.
  induction n as [n IH] using lt_wf_ind. intros s ->.
  assert (∀ r, (String.length r < String.length s)%nat → scan false (encode_body html r) = true) as IH'.
  { intros r Hr. by apply (IH _ Hr). }
  clear IH. destruct s as [|c r]; [done|].
  pose proof (IH' r ltac:(simpl; lia)) as Hr. cbn [encode_body].
  destruct (code c <? 0x80) eqn:Hc; [by rewrite scan_escape_byte|].
  destruct r as [|c1 r1]; [done|].
  assert (∀ x y, byte_in x y c1 = true → 0x80 ≤ x → (code c1 <? 0x80) = false) as H1.
  { unfold byte_in. intros x y [? ?]%andb_true_iff ?. lia. }
  pose proof (IH' r1 ltac:(simpl; lia)) as Hr1.
  destruct (rune2 c c1) eqn:H2.
  { unfold rune2 in H2. apply andb_true_iff in H2 as [_ H2]. by rewrite !scan_high by eauto with lia. }
  destruct r1 as [|c2 r2]; [exact Hr|].
  pose proof (IH' r2 ltac:(simpl; lia)) as Hr2.
  destruct (line_separator c c1 c2) eqn:Hl.
  { apply line_separator_bytes in Hl as (-> & -> & [-> | ->]); exact Hr2. }
  assert (∀ x y, byte_in x y c2 = true → 0x80 ≤ x → (code c2 <? 0x80) = false) as H3'.
  { unfold byte_in. intros x y [? ?]%andb_true_iff ?. lia. }
  destruct (rune3 c c1 c2) eqn:H3.
  { unfold rune3 in H3. rewrite !andb_true_iff in H3. destruct H3 as [[[[_ Ha] Hb] _] _].
    by rewrite !scan_high by eauto with lia. }
  destruct r2 as [|c3 r3]; [exact Hr|].
  pose proof (IH' r3 ltac:(simpl; lia)) as Hr3.
  destruct (rune4 c c1 c2 c3) eqn:H4; [|exact Hr].
  unfold rune4 in H4. rewrite !andb_true_iff in H4. destruct H4 as [[[[[_ Ha] Hb] Hd] _] _].
  assert ((code c3 <? 0x80) = false).
  { unfold byte_in in Hd. apply andb_true_iff in Hd as [? ?]. lia. }
  by rewrite !scan_high by eauto with lia.
Qed.

(** ** Spellings of a list of tokens *)

Definition is_lit (t : token) : bool := match t with TLit _ => true | _ => false end.
Definition starts_lit (ts : list token) : bool := match ts with t :: _ => is_lit t | [] => false end.

Definition token_ok (t : token) : bool :=
  match t with
  | TLit l => negb (String.eqb l "") && all_bytes literal_byte l
  | TStr raw => scan false raw
  | _ => true
  end.

(** No literal directly after a literal. *)
Fixpoint spaced (ts : list token) : bool :=
  match ts with
  | [] => true
  | t :: rest => token_ok t && negb (is_lit t && starts_lit rest) && spaced rest
  end.

(** [s] spells [ts], with white space between tokens. *)
Inductive spells : list token → string → Prop :=
| spells_nil ws : all_bytes is_space ws = true → spells [] ws
| spells_cons ws t ts s :
    all_bytes is_space ws = true → token_ok t = true → is_lit t && starts_lit ts = false →
    spells ts s → spells (t :: ts) (ws +:+ token_text t +:+ s).

Lemma lex_space ws s : all_bytes is_space ws = true → lex Between (ws +:+ s) = lex Between s.
Proof.
  induction ws as [|c ws IH]; [done|]. simpl. intros [H1 H2]%andb_true_iff. rewrite H1. by apply IH.
Qed.

Lemma literal_not_space c : literal_byte c = true → is_space c = false ∧ (code c =? 34) = false.
Proof. intros H. each_byte c; by vm_compute in H |- *. Qed.

Lemma space_not_literal c : is_space c = true → literal_byte c = false.
Proof. intros H. destruct (literal_byte c) eqn:E; [|done]. apply literal_not_space in E as [? _]. congruence. Qed.

(** A literal ends where no literal byte follows. *)
Definition lit_end (s : string) : bool := match s with String c _ => negb (literal_byte c) | _ => true end.

Lemma lex_literal acc l s :
  all_bytes literal_byte l = true → lit_end s = true →
  lex (InLiteral acc) (l +:+ s) = cons (TLit (acc +:+ l)) <$> lex Between s.
Proof.
  revert acc; induction l as [|c l IH]; intros acc Hl Hs.
  - rewrite string_app_empty_r. destruct s as [|c s]; [done|]. simpl in Hs |- *.
    rewrite negb_true_iff in Hs. by rewrite Hs.
  - simpl in Hl. apply andb_true_iff in Hl as [H1 H2]. simpl. rewrite H1, IH by done.
    unfold snoc. by rewrite string_app_assoc.
Qed.

Lemma spells_lit_end ts s : spells ts s → starts_lit ts = false → lit_end s = true.
Proof.
  intros Hs Ht. destruct Hs as [ws H|ws t ts s H Hok _ _].
  - destruct ws as [|c ws]; [done|]. simpl in *. apply andb_true_iff in H as [H _].
    by rewrite space_not_literal.
  - destruct ws as [|c ws]; [by destruct t|]. simpl in *. apply andb_true_iff in H as [H _].
    by rewrite space_not_literal.
Qed.

Lemma spells_lex ts s : spells ts s → lex Between s = Some ts.
Proof.
  induction 1 as [ws H|ws t ts s H Hok Hlit Hs IH].
  - rewrite <- (string_app_empty_r ws). by rewrite lex_space.
  - rewrite lex_space by done.
    destruct t as [| | | | | |l|raw]; cbn [token_text]; try (simpl; by rewrite IH).
    + simpl in Hok, Hlit. apply andb_true_iff in Hok as [Hne Hl].
      destruct l as [|c l]; [done|]. simpl in Hl. apply andb_true_iff in Hl as [Hc Hl].
      destruct (literal_not_space c Hc) as [H1 H2]. simpl. rewrite H1, H2, Hc.
      rewrite lex_literal by (done || by eapply spells_lit_end). by rewrite IH.
    + rewrite !string_app_assoc.
      change (lex (InString "" false) (raw +:+ dquote +:+ s) = Some (TStr raw :: ts)).
      rewrite lex_raw by done. by rewrite IH.
Qed.

Lemma spells_text ts : spaced ts = true → spells ts (text ts).
Proof.
  induction ts as [|t ts IH]; simpl; [by constructor|].
  rewrite !andb_true_iff, negb_true_iff. intros [[H1 H2] H3].
  apply (spells_cons ""); auto.
Qed.

Lemma spells_space ws ts s : all_bytes is_space ws = true → spells ts s → spells ts (ws +:+ s).
Proof.
  intros Hws Hs. destruct Hs as [ws' H|ws' t ts s H Hok Hl Hs].
  - constructor. rewrite all_bytes_app, Hws. done.
  - rewrite <- string_app_assoc. constructor; try done. rewrite all_bytes_app, Hws. done.
Qed.

Lemma spells_app_space ts s ws : all_bytes is_space ws = true → spells ts s → spells ts (s +:+ ws).
Proof.
  intros Hws. induction 1 as [ws' H|ws' t ts s H Hok Hl Hs IH].
  - constructor. rewrite all_bytes_app, H. done.
  - rewrite !string_app_assoc. by constructor.
Qed.

Lemma spells_indent prefix unit depth ts :
  all_bytes is_space prefix = true → all_bytes is_space unit = true →
  spaced ts = true → spells ts (indent prefix unit depth ts).
Proof.
  intros Hp Hu. assert (∀ d, all_bytes is_space (line prefix unit d) = true) as Hline.
  { intros d. unfold line. rewrite !all_bytes_app, Hp. simpl. induction d as [|[|d] IH]; [done| |].
    - done.
    - change (String.concat "" (replicate (S (S d)) unit))
        with (unit +:+ "" +:+ String.concat "" (replicate (S d) unit)).
      by rewrite !all_bytes_app, Hu. }
  revert depth; induction ts as [|t ts IH]; intros depth; [by constructor|].
  cbn [spaced]. rewrite !andb_true_iff, negb_true_iff. intros [[H1 H2] H3].
  cbn [indent]. apply (spells_cons ""); try done. apply spells_space; [|by apply IH].
  destruct t, ts as [|[] ts]; done.
Qed.

(** ** Values *)

(** Induction with the hypothesis for all items and members. *)
Fixpoint json_all_ind (P : json → Prop)
    (Pnull : P JNull) (Pbool : ∀ b, P (JBool b)) (Pnum : ∀ l, P (JNum l)) (Pstr : ∀ s, P (JStr s))
    (Parr : ∀ items, Forall P items → P (JArr items))
    (Pobj : ∀ fields, Forall (λ f, P f.2) fields → P (JObj fields)) (v : json) : P v :=
  let rec := json_all_ind P Pnull Pbool Pnum Pstr Parr Pobj in
  match v with
  | JNull => Pnull
  | JBool b => Pbool b
  | JNum l => Pnum l
  | JStr s => Pstr s
  | JArr items =>
      Parr items ((fix all (l : list json) : Forall P l :=
        match l with [] => Forall_nil_2 P | x :: l => Forall_cons_2 P x l (rec x) (all l) end) items)
  | JObj fields =>
      Pobj fields ((fix all (l : list (string * json)) : Forall (λ f, P f.2) l :=
        match l with
        | [] => Forall_nil_2 _
        | x :: l => Forall_cons_2 (λ f, P f.2) x l (rec x.2) (all l)
        end) fields)
  end.

(** Numbers are numbers, strings are text. *)
Fixpoint json_ok (v : json) : bool :=
  match v with
  | JNum l => is_number l && all_bytes literal_byte l
  | JStr s => valid_utf8 s
  | JArr items => forallb json_ok items
  | JObj fields => forallb (λ f, valid_utf8 f.1 && json_ok f.2) fields
  | _ => true
  end.

Lemma spaced_app_punct ts t rest :
  spaced ts = true → is_lit t = false → spaced (t :: rest) = true → spaced (ts ++ t :: rest) = true.
Proof.
  intros Hts Ht Hr. induction ts as [|x ts IH]; [done|]. cbn [spaced app] in Hts |- *.
  rewrite !andb_true_iff, !negb_true_iff in *. destruct Hts as [[H1 H2] H3].
  split; [|by apply IH]. split; [done|]. destruct ts as [|y ts]; simpl in *; [by rewrite Ht, andb_false_r|done].
Qed.

Lemma spaced_comma_sep l :
  Forall (λ ts, spaced ts = true) l → spaced (comma_sep l) = true.
Proof.
  intros H. induction H as [|ts l Hts Hl IH]; [done|]. destruct l as [|ts' l]; [done|].
  cbn [comma_sep]. apply spaced_app_punct; [done..|]. exact IH.
Qed.

(** No value starts with a closing bracket or brace. *)
Definition closing (t : token) : bool := match t with TRBrace | TRBracket => true | _ => false end.
Lemma comma_sep_cons (x : list token) l : l ≠ [] → comma_sep (x :: l) = x ++ TComma :: comma_sep l.
Proof. by destruct l. Qed.

(** A list of tokens is a writing of a value: it is read as the value with
    two calls per token, whatever follows. *)
Record writes (v : json) (ts : list token) : Prop := {
  writes_reads : ∀ rest fuel, (2 * length ts ≤ fuel)%nat → parse_value fuel (ts ++ rest) = Some (v, rest);
  writes_spaced : spaced ts = true;
  writes_head : ∃ t ts', ts = t :: ts' ∧ closing t = false;
}.

(** The writing of a member, with either escaping of its name. *)
Definition writes_member (f : string * json) (ts : list token) : Prop :=
  valid_utf8 f.1 = true ∧ ∃ html vts, ts = member_tokens html f.1 vts ∧ writes f.2 vts.

Lemma parse_items_writes items tss rest fuel :
  items ≠ [] → Forall2 writes items tss → (2 * length (comma_sep tss) + 1 ≤ fuel)%nat →
  parse_items fuel (comma_sep tss ++ TRBracket :: rest) = Some (items, rest).
Proof.
  intros Hne H. revert fuel; induction H as [|v ts items tss Hv Hitems IH]; intros fuel Hf; [done|].
  destruct fuel as [|fuel]; [lia|]. destruct Hitems as [|v' ts' items tss].
  - simpl in *. rewrite (writes_reads v ts Hv) by lia. done.
  - rewrite comma_sep_cons in * by done. rewrite length_app in Hf. cbn [length] in Hf. rewrite <- app_assoc.
    cbn [parse_items]. rewrite (writes_reads v ts Hv) by lia. cbn [mbind option_bind app].
    rewrite IH by (done || lia). done.
Qed.

Lemma parse_members_writes fields tss rest fuel :
  fields ≠ [] → Forall2 writes_member fields tss → (2 * length (comma_sep tss) + 1 ≤ fuel)%nat →
  parse_members fuel (comma_sep tss ++ TRBrace :: rest) = Some (fields, rest).
Proof.
  intros Hne H. revert fuel; induction H as [|[n v] ts fields tss Hv Hfields IH]; intros fuel Hf; [done|].
  destruct Hv as (Hn & html & vts & -> & Hv). cbn [fst snd] in *.
  destruct fuel as [|fuel]; [lia|]. destruct Hfields as [|f ts' fields tss].
  - simpl in *. rewrite decode_encode_body by done. simpl. rewrite (writes_reads v vts Hv) by lia. done.
  - rewrite comma_sep_cons in * by done. rewrite length_app in Hf. cbn [length member_tokens] in Hf.
    rewrite <- app_assoc. cbn [parse_members member_tokens TQuoted app].
    rewrite decode_encode_body by done. cbn [mbind option_bind].
    rewrite (writes_reads v vts Hv) by lia. cbn [mbind option_bind app]. rewrite IH by (done || lia). done.
Qed.

Lemma comma_sep_head ts tss : ∃ rest, comma_sep (ts :: tss) = ts ++ rest.
Proof. destruct tss as [|ts' tss]; [exists []; by rewrite app_nil_r|]. rewrite comma_sep_cons by done. by eexists. Qed.

Lemma writes_array vs tss : Forall2 writes vs tss → writes (JArr vs) (array_tokens tss).
Proof.
  intros H. split; [|cbn [array_tokens spaced token_ok is_lit andb negb]|by eexists _, _].
  - intros rest fuel Hf. destruct fuel as [|fuel]; [simpl in Hf; lia|].
    destruct H as [|v ts vs tss Hv Hvs]; [done|].
    pose proof (parse_items_writes (v :: vs) (ts :: tss) rest fuel ltac:(done) ltac:(by constructor)) as E.
    unfold array_tokens in *. cbn [length app] in Hf |- *. rewrite length_app in Hf. cbn [length] in Hf.
    specialize (E ltac:(lia)). rewrite <- app_assoc. cbn [app parse_value].
    destruct (comma_sep_head ts tss) as [more Hmore]. rewrite Hmore in E |- *.
    destruct (writes_head v ts Hv) as (t & ts' & -> & Ht). cbn [app] in E |- *.
    destruct t; try done; by rewrite E.
  - apply spaced_app_punct; [|done..]. apply spaced_comma_sep.
    induction H as [|v ts vs tss Hv Hvs IH]; constructor; [by destruct Hv|done].
Qed.

Lemma writes_object fields tss : Forall2 writes_member fields tss → writes (JObj fields) (object_tokens tss).
Proof.
  intros H. split; [|cbn [object_tokens spaced token_ok is_lit andb negb]|by eexists _, _].
  - intros rest fuel Hf. destruct fuel as [|fuel]; [simpl in Hf; lia|].
    destruct H as [|f ts fields tss Hv Hvs]; [done|].
    pose proof (parse_members_writes (f :: fields) (ts :: tss) rest fuel ltac:(done) ltac:(by constructor)) as E.
    unfold object_tokens in *. cbn [length app] in Hf |- *. rewrite length_app in Hf. cbn [length] in Hf.
    specialize (E ltac:(lia)). rewrite <- app_assoc. cbn [app parse_value].
    destruct (comma_sep_head ts tss) as [more Hmore]. rewrite Hmore in E |- *.
    destruct Hv as (_ & html & vts & -> & _). cbn [member_tokens TQuoted app] in E |- *. by rewrite E.
  - apply spaced_app_punct; [|done..]. apply spaced_comma_sep.
    induction H as [|f ts fields tss (_ & html & vts & -> & Hv) Hvs IH]; constructor; [|done].
    cbn [member_tokens TQuoted spaced token_ok is_lit andb negb]. by rewrite scan_encode_body, (writes_spaced _ _ Hv).
Qed.

Lemma writes_null : writes JNull [TLit "null"].
Proof. split; [|done|by eexists _, _]. intros rest [|fuel] Hf; [simpl in Hf; lia|done]. Qed.

Lemma writes_string html s : valid_utf8 s = true → writes (JStr s) [TQuoted html s].
Proof.
  intros Hs. split; [|simpl; by rewrite scan_encode_body|by eexists _, _].
  intros rest [|fuel] Hf; [simpl in Hf; lia|]. simpl. by rewrite decode_encode_body.
Qed.

Lemma tokens_writes html v : json_ok v = true → writes v (tokens html v).
Proof.
  induction v as [|b|l|s|items IH|fields IH] using json_all_ind; intros Hv.
  - apply writes_null.
  - split; [|by destruct b|by eexists _, _]. intros rest [|fuel] Hf; [simpl in Hf; lia|by destruct b].
  - simpl in Hv. apply andb_true_iff in Hv as [Hn Hl]. split; [|simpl; rewrite Hl; by destruct l|by eexists _, _].
    intros rest [|fuel] Hf; [simpl in Hf; lia|]. simpl. unfold literal_value.
    destruct (String.eqb_spec l "null") as [->|]; [done|].
    destruct (String.eqb_spec l "true") as [->|]; [done|].
    destruct (String.eqb_spec l "false") as [->|]; [done|]. by rewrite Hn.
  - by apply writes_string.
  - apply writes_array. apply Forall2_fmap_r, Forall_Forall2_diag.
    simpl in Hv. rewrite forallb_forall in Hv. rewrite Forall_forall in *.
    intros x Hx. apply IH; [done|]. by apply Hv, list_elem_of_In.
  - apply writes_object. apply Forall2_fmap_r, Forall_Forall2_diag.
    simpl in Hv. rewrite forallb_forall in Hv. rewrite Forall_forall in *.
    intros x Hx. pose proof Hx as Hx'. apply list_elem_of_In, Hv, andb_true_iff in Hx as [? ?].
    split; [done|]. exists html, (tokens html x.2). split; [done|]. by apply IH.
Qed.

(** Any spelling of a writing of a value reads as the value. *)
Lemma parse_writes v ts : writes v ts → parse_tokens ts = Some v.
Proof.
  intros Hv. unfold parse_tokens, parse_fuel.
  pose proof (writes_reads v ts Hv [] (2 * length ts)%nat ltac:(lia)) as E.
  rewrite app_nil_r in E. by rewrite E.
Qed.

Lemma parse_spells v ts s : writes v ts → spells ts s → parse s = Some v.
Proof.
  intros Hv Hs. unfold parse. rewrite (spells_lex _ _ Hs). cbn [mbind option_bind]. by apply parse_writes.
Qed.

(** The spellings the program makes: compact text and indented lines. *)
Lemma spells_compact v ts : writes v ts → spells ts (text ts).
Proof. intros Hv. apply spells_text, (writes_spaced v ts Hv). Qed.
Lemma spells_lines v ts prefix unit :
  writes v ts → all_bytes is_space prefix = true → all_bytes is_space unit = true →
  spells ts (indent prefix unit 0 ts +:+ newline).
Proof. intros Hv Hp Hu. apply spells_app_space, spells_indent; try done. by apply (writes_spaced v). Qed.

Lemma json_roundtrip html v : json_ok v = true → parse (print html v) = Some v.
Proof.
  intros Hv. pose proof (tokens_writes html v Hv) as Hw.
  by apply (parse_spells v (tokens html v)), (spells_compact v).
Qed.

(** ** Trimming and raw values *)

Lemma trim_right_spec s : ∃ ws, s = trim_right s +:+ ws ∧ all_bytes is_space ws = true.
Proof.
  induction s as [|c s (ws & Hs & Hws)]; [by exists ""|]. simpl.
  destruct (trim_right s) as [|d t] eqn:E.
  - destruct (is_space c) eqn:Hc.
    + exists (String c s). split; [done|]. simpl. by rewrite Hc, Hs.
    + exists ws. by rewrite Hs at 1.
  - exists ws. by rewrite Hs at 1.
Qed.

Lemma trim_left_lex s : lex Between (trim_left s) = lex Between s.
Proof. induction s as [|c s IH]; [done|]. simpl. destruct (is_space c) eqn:E; [by rewrite IH|]. simpl. by rewrite E. Qed.

Lemma lex_app_space st s ws : all_bytes is_space ws = true → lex st (s +:+ ws) = lex st s.
Proof.
  intros Hws. revert st; induction s as [|c s IH]; intros st.
  - simpl. assert (lex Between ws = Some []) as Hb.
    { rewrite <- (string_app_empty_r ws). by rewrite lex_space. }
    destruct st as [|acc|acc escaped]; [done| |].
    + destruct ws as [|c ws]; [done|]. pose proof Hws as Hc. simpl in Hc. apply andb_true_iff in Hc as [Hc _].
      cbn [lex] in Hb |- *. rewrite (space_not_literal c Hc), Hc. rewrite Hc in Hb. by rewrite Hb.
    + clear Hb. revert acc escaped; induction ws as [|c ws IH]; intros acc escaped; [done|].
      simpl in Hws. apply andb_true_iff in Hws as [Hc Hws]. cbn [lex].
      assert ((code c =? 34) = false) as -> by (revert Hc; each_byte c; done).
      destruct (code c <? 32); [done|]. destruct escaped; by rewrite IH.
  - change (String c s +:+ ws) with (String c (s +:+ ws)). destruct st; cbn [lex]; by rewrite !IH.
Qed.

Lemma lex_trim s : lex Between (trim s) = lex Between s.
Proof.
  unfold trim. destruct (trim_right_spec (trim_left s)) as (ws & Hs & Hws).
  rewrite <- (trim_left_lex s). rewrite Hs at 2. by rewrite lex_app_space.
Qed.
Lemma parse_trim s : parse (trim s) = parse s.
Proof. unfold parse. by rewrite lex_trim. Qed.

Lemma raw_value_writes v ts rest : writes v ts → raw_value (ts ++ rest) = Some (ts, rest).
Proof.
  intros Hv. unfold raw_value, parse_fuel.
  rewrite (writes_reads v ts Hv) by (rewrite length_app; lia). cbn [mbind option_bind].
  f_equal. f_equal. rewrite length_app. replace (_ + _ - _)%nat with (length ts) by lia. by rewrite take_app_length.
Qed.

Lemma raw_items_writes vs tss rest fuel :
  vs ≠ [] → Forall2 writes vs tss → (length vs ≤ fuel)%nat →
  raw_items fuel (comma_sep tss ++ TRBracket :: rest) = Some tss.
Proof.
  intros Hne H. revert fuel; induction H as [|v ts vs tss Hv Hvs IH]; intros fuel Hf; [done|].
  destruct fuel as [|fuel]; [simpl in Hf; lia|]. destruct Hvs as [|v' ts' vs tss].
  - simpl. by rewrite (raw_value_writes v).
  - rewrite comma_sep_cons by done. rewrite <- app_assoc.
    cbn [raw_items]. rewrite (raw_value_writes v) by done. cbn [mbind option_bind app].
    rewrite IH by (done || cbn [length] in *; lia). done.
Qed.

(** The writing of a member, by its name and the writing of its value. *)
Definition member_of (f : string * list token) (ts : list token) : Prop :=
  valid_utf8 f.1 = true ∧ ∃ html v, ts = member_tokens html f.1 f.2 ∧ writes v f.2.

Lemma raw_members_writes members tss rest fuel :
  members ≠ [] → Forall2 member_of members tss → (length members ≤ fuel)%nat →
  raw_members fuel (comma_sep tss ++ TRBrace :: rest) = Some members.
Proof.
  intros Hne H. revert fuel; induction H as [|[n vts] ts members tss Hv Hvs IH]; intros fuel Hf; [done|].
  destruct Hv as (Hn & html & v & -> & Hv). cbn [fst snd] in *.
  destruct fuel as [|fuel]; [simpl in Hf; lia|]. destruct Hvs as [|f ts' members tss].
  - simpl. rewrite decode_encode_body by done. simpl. by rewrite (raw_value_writes v).
  - rewrite comma_sep_cons by done. rewrite <- app_assoc.
    cbn [raw_members member_tokens TQuoted app]. rewrite decode_encode_body by done. cbn [mbind option_bind].
    rewrite (raw_value_writes v) by done. cbn [mbind option_bind app].
    rewrite IH by (done || cbn [length] in *; lia). done.
Qed.

Lemma length_comma_sep (l : list (list token)) :
  Forall (λ ts, (0 < length ts)%nat) l → (length l ≤ length (comma_sep l))%nat.
Proof.
  induction 1 as [|ts l Hts Hl IH]; [done|]. destruct l as [|ts' l]; [simpl; lia|].
  rewrite comma_sep_cons by done. rewrite length_app. cbn [length] in *. lia.
Qed.

Lemma document_members_object members tss :
  Forall2 member_of members tss → document_members (object_tokens tss) = Some members.
Proof.
  intros H. pose proof H as H'. destruct H' as [|f ts members tss Hf Hfs]; [done|].
  assert (length (f :: members) ≤ length (comma_sep (ts :: tss)))%nat as Hl.
  { rewrite (Forall2_length _ _ _ H). apply length_comma_sep.
    clear -H. induction H as [|? ? ? ? (_ & ? & ? & -> & _)]; constructor; [simpl; lia|done]. }
  pose proof (raw_members_writes (f :: members) (ts :: tss) [] (length (object_tokens (ts :: tss))) ltac:(done) H) as E.
  unfold object_tokens in *. cbn [length] in E. rewrite length_app in E. cbn [length] in E, Hl.
  specialize (E ltac:(lia)). cbn [document_members].
  destruct (comma_sep_head ts tss) as [more Hmore]. rewrite Hmore in E |- *.
  destruct Hf as (_ & html & v & -> & _). cbn [member_tokens TQuoted app length] in E |- *.
  rewrite length_app. cbn [length]. exact E.
Qed.

Lemma array_items_array vs tss : Forall2 writes vs tss → array_items (array_tokens tss) = Some tss.
Proof.
  intros H. pose proof H as H'. destruct H' as [|v ts vs tss Hv Hvs]; [done|].
  assert (length (v :: vs) ≤ length (comma_sep (ts :: tss)))%nat as Hl.
  { rewrite (Forall2_length _ _ _ H). apply length_comma_sep.
    clear -H. induction H as [|? ? ? ? Hx]; constructor; [|done].
    destruct (writes_head _ _ Hx) as (? & ? & -> & _). simpl; lia. }
  pose proof (raw_items_writes (v :: vs) (ts :: tss) [] (length (array_tokens (ts :: tss))) ltac:(done) H) as E.
  unfold array_tokens in *. cbn [length] in E. rewrite length_app in E. cbn [length] in E, Hl.
  specialize (E ltac:(lia)). cbn [array_items].
  destruct (comma_sep_head ts tss) as [more Hmore]. rewrite Hmore in E |- *.
  destruct (writes_head v ts Hv) as (t & ts' & -> & Ht). cbn [app length] in E |- *.
  rewrite length_app. cbn [length]. destruct t; done.
Qed.

(** ** Escaping twice *)

Lemma escape_raw_skip h c t :
  (code c =? 60) || (code c =? 62) || (code c =? 38) = false → (code c =? 0xE2) = false →
  escape_raw h (String c t) = String c (escape_raw h t).
Proof.
  intros H1 H2. cbn [escape_raw]. rewrite H1, andb_false_r. unfold line_separator. rewrite H2.
  destruct t as [|c1 [|c2 t]]; done.
Qed.

Definition unescaped (c : ascii) : bool :=
  negb ((code c =? 60) || (code c =? 62) || (code c =? 38)) && negb (code c =? 0xE2).

Lemma escape_raw_app h p t :
  all_bytes unescaped p = true → escape_raw h (p +:+ t) = p +:+ escape_raw h t.
Proof.
  induction p as [|c p IH]; [done|]. simpl all_bytes. rewrite andb_true_iff. intros [Hc Hp].
  unfold unescaped in Hc. rewrite andb_true_iff, !negb_true_iff in Hc. destruct Hc as [H1 H2].
  change (String c p +:+ t) with (String c (p +:+ t)). rewrite escape_raw_skip by done. by rewrite IH.
Qed.

Lemma escape_byte_unescaped c : (code c <? 0x80) = true → all_bytes unescaped (escape_byte true c) = true.
Proof. intros H. each_byte c; try (vm_compute in H; discriminate H); reflexivity. Qed.

Lemma continuation_unescaped c : byte_in 0x80 0xBF c = true → unescaped c = true.
Proof. intros H. each_byte c; by vm_compute in H |- *. Qed.

Lemma escape_raw_multi h c t :
  (code c <? 0x80) = false →
  match t with String c1 (String c2 _) => line_separator c c1 c2 = false | _ => True end →
  escape_raw h (String c t) = String c (escape_raw h t).
Proof.
  intros Hc Hl. cbn [escape_raw].
  assert ((code c =? 60) || (code c =? 62) || (code c =? 38) = false) as -> by (rewrite !orb_false_iff, !Z.eqb_neq; lia).
  rewrite andb_false_r. destruct t as [|c1 [|c2 t]]; [done..|]. by rewrite Hl.
Qed.

(** A spelling in which HTML was escaped stays as it is. *)
Lemma escape_raw_encode h s : escape_raw h (encode_body true s) = encode_body true s.
Proof.
  remember (String.length s) as n eqn:Hn. revert s Hn.
  induction n as [n IH] using lt_wf_ind. intros s ->.
  assert (∀ r, (String.length r < String.length s)%nat → escape_raw h (encode_body true r) = encode_body true r) as IH'.
  { intros r Hr. by apply (IH _ Hr). }
  clear IH. destruct s as [|c r]; [done|]. pose proof (IH' r ltac:(simpl; lia)) as Hr. cbn [encode_body].
  destruct (code c <? 0x80) eqn:Hc; [by rewrite escape_raw_app, Hr by by apply escape_byte_unescaped|].
  destruct r as [|c1 r1]; [by destruct h|]. pose proof (IH' r1 ltac:(simpl; lia)) as Hr1.
  assert (∀ p t, byte_in 0x80 0xBF p = true → escape_raw h (String p t) = String p (escape_raw h t)) as Hcont.
  { intros p t Hp. apply (escape_raw_app h (String p "") t). simpl. by rewrite continuation_unescaped. }
  destruct (rune2 c c1) eqn:H2.
  { unfold rune2 in H2. apply andb_true_iff in H2 as [H2 H2'].
    rewrite escape_raw_multi, Hcont, Hr1; [done|done|done|].
    destruct (encode_body true r1); [done|]. unfold line_separator, byte_in in *.
    destruct (Z.eqb_spec (code c) 0xE2); [|done]. rewrite andb_true_iff, !Z.leb_le in H2. lia. }
  destruct r1 as [|c2 r2]; [by rewrite escape_raw_app, Hr|]. pose proof (IH' r2 ltac:(simpl; lia)) as Hr2.
  destruct (line_separator c c1 c2) eqn:Hl.
  { apply line_separator_bytes in Hl as (-> & -> & [-> | ->]); by rewrite escape_raw_app, Hr2. }
  destruct (rune3 c c1 c2) eqn:H3.
  { unfold rune3 in H3. rewrite !andb_true_iff in H3. destruct H3 as [[[[_ Ha] Hb] _] _].
    by rewrite escape_raw_multi, !Hcont, Hr2. }
  destruct r2 as [|c3 r3]; [by rewrite escape_raw_app, Hr|]. pose proof (IH' r3 ltac:(simpl; lia)) as Hr3.
  destruct (rune4 c c1 c2 c3) eqn:H4; [|by rewrite escape_raw_app, Hr].
  unfold rune4 in H4. rewrite !andb_true_iff in H4. destruct H4 as [[[[[_ Ha] Hb] Hd] _] _].
  by rewrite escape_raw_multi, !Hcont, Hr3.
Qed.

Lemma escape_tokens h v : escape_token h <$> tokens true v = tokens true v.
Proof.
  assert (∀ l, Forall (λ ts, escape_token h <$> ts = ts) l → escape_token h <$> comma_sep l = comma_sep l) as Hsep.
  { induction 1 as [|ts l Hts Hl IH]; [done|]. destruct l as [|ts' l]; [done|].
    rewrite comma_sep_cons, fmap_app, Hts by done. cbn [fmap list_fmap escape_token]. by rewrite <- IH at 2. }
  induction v as [|[]|l|s|items IH|fields IH] using json_all_ind; try done.
  - simpl. by rewrite escape_raw_encode.
  - cbn [tokens]. unfold array_tokens. rewrite fmap_cons, fmap_app, Hsep; [done|]. by apply Forall_fmap.
  - cbn [tokens]. unfold object_tokens. rewrite fmap_cons, fmap_app, Hsep; [done|].
    apply Forall_fmap. eapply Forall_impl; [exact IH|].
    intros [n v] Hv. unfold compose, member_tokens. cbn [fst snd] in *. rewrite !fmap_cons, Hv.
    unfold TQuoted. cbn [escape_token]. by rewrite escape_raw_encode.
Qed.

(** What a custom marshaller printed goes into a document as it is. *)
Lemma compact_print h v : json_ok v = true → compact h (print true v) = Some (tokens true v).
Proof.
  intros Hv. pose proof (tokens_writes true v Hv) as Hw. unfold compact, print.
  rewrite (spells_lex _ _ (spells_compact v _ Hw)). cbn [mbind option_bind].
  rewrite (parse_writes v) by done. cbn [mbind option_bind]. by rewrite escape_tokens.
Qed.
