(* ===== verification/NetUrl.v ===== *)
(** * URLs: what the program uses of [net/url]

    Escaping and unescaping, query parameters, and the parser and printer of
    URLs, as far as the API server and its clients use them.  The main results:
    an escaped text is unescaped to itself, an encoded query is parsed to the
    same values ([Encode_ParseQuery]), and a request URI that was printed has
    the query it was printed with ([String_ParseRequestURI]). *)

From S2P Require Import Prelude GoStd Json.
Local Open Scope string_scope.
Local Open Scope list_scope.
Local Open Scope Z_scope.

(** ** Escaping *)

Inductive encoding : Type :=
| encodePath | encodePathSegment | encodeHost | encodeZone | encodeUserPassword
| encodeQueryComponent | encodeFragment.
#[global] Instance encoding_eq_dec : EqDecision encoding.
Proof. solve_decision. Defined.

Definition alphanumeric (c : ascii) : bool := byte_in 48 57 c || byte_in 65 90 c || byte_in 97 122 c.

Definition byte_among (s : string) (c : ascii) : bool := has_byte c s.

Definition quotation : string := dquote.

Definition shouldEscape (c : ascii) (mode : encoding) : bool :=
  if alphanumeric c then false
  else if (bool_decide (mode = encodeHost) || bool_decide (mode = encodeZone))
          && byte_among ("!$&'()*+,;=:[]<>" +:+ quotation) c then false
  else if byte_among "-_.~" c then false
  else if byte_among "$&+,/:;=?@" c then
    match mode with
    | encodePath => byte_among "?" c
    | encodePathSegment => byte_among "/;,?" c
    | encodeUserPassword => byte_among "@/?:" c
    | encodeQueryComponent => true
    | encodeFragment => false
    | _ => true
    end
  else if bool_decide (mode = encodeFragment) && byte_among "!()*" c then false
  else true.

Definition upper_hex (n : Z) : ascii := if n <? 10 then byte_of (48 + n) else byte_of (55 + n).
Definition percent (c : ascii) : string :=
  String "%" (String (upper_hex (code c / 16)) (String (upper_hex (code c mod 16)) "")).

Fixpoint escape (s : string) (mode : encoding) : string :=
  match s with
  | EmptyString => ""
  | String c rest =>
      (if shouldEscape c mode then
         if (code c =? 32) && bool_decide (mode = encodeQueryComponent) then "+" else percent c
       else String c "") +:+ escape rest mode
  end.

Definition EscapeError (s : string) : goerror := Errorf "invalid URL escape %q" [AStr s].
Definition InvalidHostError (c : ascii) : goerror :=
  Errorf "invalid character %q in host name" [AStr (String c "")].

Definition is_host_mode (mode : encoding) : bool :=
  bool_decide (mode = encodeHost) || bool_decide (mode = encodeZone).

(** [unescape]: a percent sign has two hexadecimal digits; hosts restrict what
    may be escaped and what must be. *)
Fixpoint unescape (s : string) (mode : encoding) : res string :=
  match s with
  | EmptyString => Ok ""
  | String c rest =>
      if code c =? 37 then
        match rest with
        | String h (String l rest2) =>
            match hex_val h, hex_val l with
            | Some vh, Some vl =>
                let v := byte_of (16 * vh + vl) in
                let is25 := (vh =? 2) && (code l =? 53) in
                if bool_decide (mode = encodeHost) && (vh <? 8) && negb is25
                then Err (EscapeError (String c (String h (String l ""))))
                else if bool_decide (mode = encodeZone) && negb is25 && negb (code v =? 32)
                        && shouldEscape v encodeHost
                then Err (EscapeError (String c (String h (String l ""))))
                else rmap (String v) (unescape rest2 mode)
            | _, _ => Err (EscapeError (stake 3 s))
            end
        | _ => Err (EscapeError s)
        end
      else if (code c =? 43) && bool_decide (mode = encodeQueryComponent)
      then rmap (String " ") (unescape rest mode)
      else if is_host_mode mode && (code c <? 0x80) && shouldEscape c mode then Err (InvalidHostError c)
      else rmap (String c) (unescape rest mode)
  end.

(** ** Values *)

Abbreviation Values := (gmap string (list string)).

Definition Values_Get (v : Values) (key : string) : string :=
  match v !! key with Some (x :: _) => x | _ => "" end.
Definition Values_Set (v : Values) (key value : string) : Values := <[key := [value]]> v.
Definition Values_Add (v : Values) (key value : string) : Values :=
  <[key := default [] (v !! key) ++ [value]]> v.

Definition QueryEscape (s : string) : string := escape s encodeQueryComponent.

(** [Encode]: sorted by key. *)
Definition Values_Encode (v : Values) : string :=
  join "&" (kv ← sort_by fst (map_to_list v);
            (λ x, QueryEscape kv.1 +:+ "=" +:+ QueryEscape x) <$> kv.2).

(** [s] up to the first byte of [seps] and what follows that byte. *)
Fixpoint cut_any (seps : string) (s : string) : string * option string :=
  match s with
  | EmptyString => ("", None)
  | String c rest =>
      if byte_among seps c then ("", Some rest)
      else let (a, b) := cut_any seps rest in (String c a, b)
  end.

(** The parts of a query; the fuel bounds their number. *)
Fixpoint query_parts (fuel : nat) (s : string) : list string :=
  match fuel with
  | O => []
  | S fuel =>
      match cut_any "&;" s with
      | (part, Some rest) => part :: query_parts fuel rest
      | (part, None) => [part]
      end
  end.

(** One part of a query added to the values; parts that do not unescape are
    left out, as [URL.Query] does. *)
Definition add_part (m : Values) (part : string) : Values :=
  if String.eqb part "" then m
  else
    let (key, value) := cut_any "=" part in
    match unescape key encodeQueryComponent, unescape (default "" value) encodeQueryComponent with
    | Ok key, Ok value => Values_Add m key value
    | _, _ => m
    end.

(** [URL.Query] of a raw query. *)
Definition ParseQuery (query : string) : Values :=
  foldl add_part ∅ (query_parts (S (String.length query)) query).

(** ** URLs *)

Record URL : Type := mkURL {
  url_Scheme : string;
  url_Opaque : string;
  url_User : option (string * option string); (* name and password *)
  url_Host : string;
  url_Path : string;
  url_RawPath : string;
  url_ForceQuery : bool;
  url_RawQuery : string;
  url_Fragment : string;
}.

Definition set_Path (u : URL) (path : string) : URL :=
  mkURL (url_Scheme u) (url_Opaque u) (url_User u) (url_Host u) path (url_RawPath u)
    (url_ForceQuery u) (url_RawQuery u) (url_Fragment u).
Definition set_RawQuery (u : URL) (query : string) : URL :=
  mkURL (url_Scheme u) (url_Opaque u) (url_User u) (url_Host u) (url_Path u) (url_RawPath u)
    (url_ForceQuery u) query (url_Fragment u).
Definition set_Fragment (u : URL) (fragment : string) : URL :=
  mkURL (url_Scheme u) (url_Opaque u) (url_User u) (url_Host u) (url_Path u) (url_RawPath u)
    (url_ForceQuery u) (url_RawQuery u) fragment.

Definition letter (c : ascii) : bool := byte_in 97 122 c || byte_in 65 90 c.

(** [getscheme]: the scheme and what follows it. *)
Fixpoint getscheme_go (first : bool) (acc rawurl whole : string) : res (string * string) :=
  match rawurl with
  | EmptyString => Ok ("", whole)
  | String c rest =>
      if letter c then getscheme_go false (snoc acc c) rest whole
      else if byte_in 48 57 c || byte_among "+-." c then
        if first then Ok ("", whole) else getscheme_go false (snoc acc c) rest whole
      else if code c =? 58 then
        if first then Err (Errorf "missing protocol scheme" []) else Ok (acc, rest)
      else Ok ("", whole)
  end.
Definition getscheme (rawurl : string) : res (string * string) := getscheme_go true "" rawurl rawurl.

Definition validOptionalPort (port : string) : bool :=
  match port with
  | EmptyString => true
  | String ":" rest => all_bytes (byte_in 48 57) rest
  | _ => false
  end.

(** The first occurrence of [pat] in [s], as what is before it. *)
Fixpoint before_pattern (pat s : string) : option string :=
  if has_prefix pat s then Some ""
  else match s with
       | EmptyString => None
       | String c rest => String c <$> before_pattern pat rest
       end.

Definition parseHost (host : string) : res string :=
  if has_prefix "[" host then
    match last_index "]" host with
    | None => Err (Errorf "missing ']' in host" [])
    | Some i =>
        let colonPort := sdrop (S i) host in
        if negb (validOptionalPort colonPort)
        then Err (Errorf "invalid port %q after host" [AStr colonPort])
        else match before_pattern "%25" (stake i host) with
             | Some h1 =>
                 let? host1 := unescape h1 encodeHost in
                 let? host2 := unescape (sdrop (String.length h1) (stake i host)) encodeZone in
                 let? host3 := unescape (sdrop i host) encodeHost in
                 Ok (host1 +:+ host2 +:+ host3)
             | None => unescape host encodeHost
             end
    end
  else match last_index ":" host with
       | Some i =>
           if validOptionalPort (sdrop i host) then unescape host encodeHost
           else Err (Errorf "invalid port %q after host" [AStr (sdrop i host)])
       | None => unescape host encodeHost
       end.

Definition validUserinfo (s : string) : bool :=
  all_bytes (λ c, alphanumeric c || byte_among "-._:~!$&'()*+,;=%@" c) s.

Definition parseAuthority (authority : string) : res (option (string * option string) * string) :=
  match last_index "@" authority with
  | None => let? host := parseHost authority in Ok (None, host)
  | Some i =>
      let? host := parseHost (sdrop (S i) authority) in
      let userinfo := stake i authority in
      if negb (validUserinfo userinfo) then Err (Errorf "net/url: invalid userinfo" [])
      else match cut_any ":" userinfo with
           | (name, None) => let? name := unescape name encodeUserPassword in Ok (Some (name, None), host)
           | (name, Some password) =>
               let? name := unescape name encodeUserPassword in
               let? password := unescape password encodeUserPassword in
               Ok (Some (name, Some password), host)
           end
  end.

(** [setPath]. *)
Definition setPath (u : URL) (p : string) : res URL :=
  let? path := unescape p encodePath in
  let raw := if String.eqb p (escape path encodePath) then "" else p in
  Ok (mkURL (url_Scheme u) (url_Opaque u) (url_User u) (url_Host u) path raw
        (url_ForceQuery u) (url_RawQuery u) (url_Fragment u)).

Definition control_byte (c : ascii) : bool := (code c <? 32) || (code c =? 127).

(** [parse]. *)
Definition parse_url (rawurl : string) (viaRequest : bool) : res URL :=
  if negb (all_bytes (λ c, negb (control_byte c)) rawurl)
  then Err (Errorf "net/url: invalid control character in URL" [])
  else if String.eqb rawurl "" && viaRequest then Err (Errorf "empty url" [])
  else if String.eqb rawurl "*" then Ok (mkURL "" "" None "" "*" "" false "" "")
  else
    let? sr := getscheme rawurl in
    let scheme := to_lower sr.1 in
    let '(path, query, force) :=
      match cut_any "?" sr.2 with
      | (rest, Some EmptyString) => (rest, "", true)
      | (rest, Some query) => (rest, query, false)
      | (rest, None) => (rest, "", false)
      end in
    let u := mkURL scheme "" None "" "" "" force query "" in
    if negb (has_prefix "/" path) && negb (String.eqb scheme "")
    then Ok (mkURL scheme path None "" "" "" force query "")
    else if negb (has_prefix "/" path) && viaRequest then Err (Errorf "invalid URI for request" [])
    else if negb (has_prefix "/" path) && has_byte ":" (cut_any "/" path).1
    then Err (Errorf "first path segment in URL cannot contain colon" [])
    else if (negb (String.eqb scheme "") || (negb viaRequest && negb (has_prefix "///" path)))
            && has_prefix "//" path
    then
      let authority := (cut_any "/" (sdrop 2 path)).1 in
      let? uh := parseAuthority authority in
      setPath (mkURL scheme "" uh.1 uh.2 "" "" force query "")
        (sdrop (String.length authority) (sdrop 2 path))
    else setPath u path.

(** [url.Parse] and [url.ParseRequestURI]. *)
Definition url_Parse (rawurl : string) : res URL :=
  let wrap e := Wrapf e "parse %s" [AStr rawurl] in
  let (u, frag) := cut_any "#" rawurl in
  let? url := map_err wrap (parse_url u false) in
  match frag with
  | None | Some EmptyString => Ok url
  | Some frag => let? frag := map_err wrap (unescape frag encodeFragment) in Ok (set_Fragment url frag)
  end.
Definition ParseRequestURI (rawurl : string) : res URL :=
  map_err (λ e, Wrapf e "parse %s" [AStr rawurl]) (parse_url rawurl true).

(** A path that needs no escaping beyond what it has. *)
Definition validEncodedPath (s : string) : bool :=
  all_bytes (λ c, byte_among "!$&'()*+,;=:@[]%" c || negb (shouldEscape c encodePath)) s.

Definition EscapedPath (u : URL) : string :=
  if negb (String.eqb (url_RawPath u) "") && validEncodedPath (url_RawPath u)
     && bool_decide (unescape (url_RawPath u) encodePath = Ok (url_Path u))
  then url_RawPath u
  else if String.eqb (url_Path u) "*" then "*"
  else escape (url_Path u) encodePath.

Definition Userinfo_String (user : string * option string) : string :=
  escape user.1 encodeUserPassword
  +:+ match user.2 with Some p => ":" +:+ escape p encodeUserPassword | None => "" end.

(** [URL.String]. *)
Definition URL_String (u : URL) : string :=
  let scheme := if String.eqb (url_Scheme u) "" then "" else url_Scheme u +:+ ":" in
  let query := if url_ForceQuery u || negb (String.eqb (url_RawQuery u) "")
               then "?" +:+ url_RawQuery u else "" in
  let fragment := if String.eqb (url_Fragment u) "" then ""
                  else "#" +:+ escape (url_Fragment u) encodeFragment in
  let body :=
    if negb (String.eqb (url_Opaque u) "") then url_Opaque u
    else
      let authority := negb (String.eqb (url_Scheme u) "") || negb (String.eqb (url_Host u) "")
                       || bool_decide (is_Some (url_User u)) in
      let path := EscapedPath u in
      (if authority then
         (if negb (String.eqb (url_Host u) "") || negb (String.eqb (url_Path u) "")
             || bool_decide (is_Some (url_User u)) then "//" else "")
         +:+ (match url_User u with Some user => Userinfo_String user +:+ "@" | None => "" end)
         +:+ escape (url_Host u) encodeHost
       else "")
      +:+ (if negb (String.eqb path "") && negb (has_prefix "/" path) && negb (String.eqb (url_Host u) "")
           then "/" else "")
      +:+ (if String.eqb (scheme +:+ url_Host u) "" && negb (bool_decide (is_Some (url_User u)))
              && has_byte ":" (cut_any "/" path).1
           then "./" else "")
      +:+ path in
  scheme +:+ body +:+ query +:+ fragment.

(** ** Escaping and unescaping *)

Lemma unescape_step mode c t :
  mode = encodePath ∨ mode = encodeQueryComponent →
  unescape (escape (String c "") mode +:+ t) mode = rmap (String c) (unescape t mode).
Proof. intros [-> | ->]; each_byte c; reflexivity. Qed.

Lemma unescape_escape mode s :
  mode = encodePath ∨ mode = encodeQueryComponent → unescape (escape s mode) mode = Ok s.
Proof.
  intros Hm. induction s as [|c s IH]; [done|].
  assert (escape (String c s) mode = escape (String c "") mode +:+ escape s mode) as ->.
  { cbn [escape]. by rewrite string_app_empty_r. }
  by rewrite unescape_step, IH.
Qed.

(** What is escaped for a query has no separators and no control bytes. *)
Definition query_plain (c : ascii) : bool :=
  (code c <? 0x80) && negb (byte_among "&;=?#/" c || control_byte c || (code c =? 32)).

Lemma QueryEscape_plain s : all_bytes query_plain (QueryEscape s) = true.
Proof.
  unfold QueryEscape. induction s as [|c s IH]; [done|]. cbn [escape].
  rewrite all_bytes_app, IH, andb_true_r. each_byte c; reflexivity.
Qed.

(** ** Queries *)

Lemma cut_any_app seps s c t :
  all_bytes (λ c, negb (byte_among seps c)) s = true → byte_among seps c = true →
  cut_any seps (s +:+ String c t) = (s, Some t).
Proof.
  intros Hs Hc. induction s as [|d s IH]; simpl in *; [by rewrite Hc|].
  apply andb_true_iff in Hs as [H1 H2]. rewrite negb_true_iff in H1. rewrite H1. by rewrite IH.
Qed.

Lemma cut_any_none seps s :
  all_bytes (λ c, negb (byte_among seps c)) s = true → cut_any seps s = (s, None).
Proof.
  intros Hs. induction s as [|d s IH]; simpl in *; [done|].
  apply andb_true_iff in Hs as [H1 H2]. rewrite negb_true_iff in H1. rewrite H1. by rewrite IH.
Qed.

Definition pair_text (key x : string) : string := QueryEscape key +:+ "=" +:+ QueryEscape x.

Lemma query_pair_plain key x : all_bytes (λ c, negb (byte_among "&;" c)) (pair_text key x) = true.
Proof.
  unfold pair_text. rewrite !all_bytes_app.
  assert (∀ s, all_bytes (λ c, negb (byte_among "&;" c)) (QueryEscape s) = true) as H.
  { intros s. eapply all_bytes_impl, QueryEscape_plain. intros c. each_byte c; done. }
  by rewrite !H.
Qed.

Lemma add_part_pair m key x : add_part m (pair_text key x) = Values_Add m key x.
Proof.
  unfold add_part. destruct (String.eqb_spec (pair_text key x) "") as [E|_].
  { unfold pair_text in E. by destruct (QueryEscape key). }
  unfold pair_text. change ("=" +:+ QueryEscape x) with (String "=" (QueryEscape x)).
  rewrite (cut_any_app "=") by (done || eapply all_bytes_impl, QueryEscape_plain;
    intros c; each_byte c; done).
  simpl. unfold QueryEscape. by rewrite !unescape_escape by auto.
Qed.

Lemma query_parts_join fuel parts :
  parts ≠ [] → Forall (λ p, all_bytes (λ c, negb (byte_among "&;" c)) p = true) parts →
  (length parts ≤ fuel)%nat → query_parts fuel (join "&" parts) = parts.
Proof.
  unfold join. intros Hne H. revert fuel; induction H as [|p parts Hp Hparts IH]; intros fuel Hf; [done|].
  destruct fuel as [|fuel]; [simpl in Hf; lia|]. destruct parts as [|p' parts].
  - simpl. by rewrite cut_any_none.
  - change (String.concat "&" (p :: p' :: parts)) with (p +:+ "&" +:+ String.concat "&" (p' :: parts)).
    change ("&" +:+ String.concat "&" (p' :: parts)) with (String "&" (String.concat "&" (p' :: parts))).
    cbn [query_parts]. rewrite (cut_any_app "&;") by done. rewrite IH; [done|done|cbn [length] in *; lia].
Qed.

Lemma length_join parts : (length parts ≤ S (String.length (join "&" parts)))%nat.
Proof.
  unfold join. induction parts as [|p parts IH]; [simpl; lia|]. destruct parts as [|p' parts]; [simpl; lia|].
  change (String.concat "&" (p :: p' :: parts)) with (p +:+ "&" +:+ String.concat "&" (p' :: parts)).
  rewrite !string_length_app. change (String.length "&") with 1%nat. cbn [length] in *. lia.
Qed.

Lemma add_values m key xs :
  foldl add_part m (pair_text key <$> xs)
  = match xs with [] => m | _ => <[key := default [] (m !! key) ++ xs]> m end.
Proof.
  revert m; induction xs as [|x xs IH]; intros m; [done|].
  cbn [fmap list_fmap foldl]. rewrite add_part_pair, IH. unfold Values_Add.
  destruct xs as [|x' xs]; [done|]. rewrite lookup_insert, decide_True by done. simpl.
  by rewrite insert_insert, decide_True, <- app_assoc by done.
Qed.

Lemma add_all m (l : list (string * list string)) :
  NoDup l.*1 → Forall (λ kv, kv.2 ≠ [] ∧ m !! kv.1 = None) l →
  foldl add_part m (l ≫= (λ kv, pair_text kv.1 <$> kv.2)) = list_to_map l ∪ m.
Proof.
  revert m; induction l as [|[k xs] l IH]; intros m Hnd Hl; simpl.
  { by rewrite (left_id_L ∅ (∪)). }
  apply NoDup_cons in Hnd as [Hk Hnd]. apply Forall_cons in Hl as [[Hxs Hm] Hl]. simpl in *.
  rewrite foldl_app, add_values. destruct xs as [|x xs]; [done|]. rewrite Hm. simpl.
  rewrite IH; [|done|].
  - rewrite <- insert_union_l. symmetry. apply insert_union_r. by apply not_elem_of_list_to_map_1.
  - rewrite Forall_forall in *. intros kv Hkv. destruct (Hl kv Hkv) as [Hne Hm'].
    split; [done|]. rewrite lookup_insert_ne; [done|]. intros ->. apply Hk. by apply list_elem_of_fmap_2.
Qed.

(** Encoding and parsing a query gives the same values. *)
Lemma Encode_ParseQuery v : map_Forall (λ _ xs, xs ≠ []) v → ParseQuery (Values_Encode v) = v.
Proof.
  intros Hv. unfold ParseQuery, Values_Encode.
  set (l := sort_by fst (map_to_list v)).
  assert (l ≡ₚ map_to_list v) as Hl by apply sort_by_perm.
  set (parts := l ≫= _).
  assert (foldl add_part ∅ parts = v) as Hfold.
  { unfold parts. rewrite add_all.
    - rewrite (right_id_L ∅ (∪)), (list_to_map_proper l (map_to_list v)) by
        (done || rewrite Hl; apply NoDup_fst_map_to_list). apply list_to_map_to_list.
    - rewrite Hl. apply NoDup_fst_map_to_list.
    - rewrite Hl. apply Forall_forall. intros [k xs] Hkv%elem_of_map_to_list. simpl.
      split; [by eapply Hv|apply lookup_empty]. }
  destruct (decide (parts = [])) as [Hp|Hp].
  { rewrite Hp in *. simpl in *. done. }
  rewrite query_parts_join; [done|done| |apply length_join].
  apply Forall_forall. intros p Hin. unfold parts in Hin.
  apply list_elem_of_bind in Hin as (kv & Hin & _). apply list_elem_of_fmap in Hin as (x & -> & _).
  apply query_pair_plain.
Qed.

(** ** Printing and parsing a URL *)

Lemma escape_id mode s : all_bytes (λ c, negb (shouldEscape c mode)) s = true → escape s mode = s.
Proof.
  induction s as [|c s IH]; [done|]. simpl. rewrite andb_true_iff, negb_true_iff. intros [-> Hs].
  simpl. by rewrite IH.
Qed.

Lemma unescape_id mode s :
  all_bytes (λ c, negb (code c =? 37) && negb ((code c =? 43) && bool_decide (mode = encodeQueryComponent))
                && negb (is_host_mode mode && shouldEscape c mode)) s = true →
  unescape s mode = Ok s.
Proof.
  induction s as [|c s IH]; [done|]. cbn [all_bytes unescape]. rewrite !andb_true_iff, !negb_true_iff.
  intros [[[-> ->] Hh] Hs]. destruct (is_host_mode mode && (code c <? 0x80) && shouldEscape c mode) eqn:E.
  { rewrite !andb_true_iff in E. destruct E as [[E1 _] E2]. by rewrite E1, E2 in Hh. }
  by rewrite IH.
Qed.

(** The bytes of host names and of the paths of the API. *)
Definition host_byte (c : ascii) : bool := alphanumeric c || byte_among "-." c.
Definition path_byte (c : ascii) : bool := alphanumeric c || byte_among "-_./+" c.

(** An absolute URL of a server: no user, an optional port, a simple path. *)
Record plain_url (u : URL) : Prop := {
  plain_scheme : url_Scheme u = "http" ∨ url_Scheme u = "https";
  plain_opaque : url_Opaque u = "";
  plain_user : url_User u = None;
  plain_host : ∃ name port, url_Host u = name +:+ port ∧ name ≠ "" ∧ all_bytes host_byte name = true
                 ∧ validOptionalPort port = true;
  plain_path : ∃ rest, url_Path u = String "/" rest ∧ all_bytes path_byte rest = true;
  plain_rawpath : url_RawPath u = "";
  plain_query : all_bytes (λ c, negb (control_byte c)) (url_RawQuery u) = true;
  plain_fragment : url_Fragment u = "";
}.

(** Hosts may have a port: what holds of all bytes of hosts. *)
Lemma host_bytes (p : ascii → bool) name port :
  (∀ c, host_byte c = true → p c = true) → p ":"%char = true →
  all_bytes host_byte name = true → validOptionalPort port = true → all_bytes p (name +:+ port) = true.
Proof.
  intros Hp Hcolon Hn Hport. rewrite all_bytes_app. apply andb_true_iff. split; [by eapply all_bytes_impl|].
  destruct port as [|c port]; [done|].
  assert (c = ":"%char) as -> by (revert Hport; each_byte c; done).
  simpl in *. rewrite Hcolon. eapply all_bytes_impl, Hport.
  intros d Hd. apply Hp. unfold host_byte, alphanumeric. by rewrite Hd.
Qed.

Lemma has_byte_all_bytes c s : all_bytes (λ d, negb (Ascii.eqb d c)) s = true → has_byte c s = false.
Proof.
  induction s as [|d s IH]; [done|]. simpl. rewrite andb_true_iff, negb_true_iff. intros [-> ?]. auto.
Qed.

Lemma last_index_port name port :
  all_bytes host_byte name = true → validOptionalPort port = true →
  last_index ":" (name +:+ port) = if String.eqb port "" then None else Some (String.length name).
Proof.
  intros Hn Hp. destruct port as [|c port].
  - rewrite string_app_empty_r. apply last_index_None, has_byte_all_bytes.
    eapply all_bytes_impl, Hn. bytewise.
  - assert (c = ":"%char) as -> by (revert Hp; each_byte c; done). apply last_index_app.
    apply has_byte_all_bytes. eapply all_bytes_impl, Hp. bytewise.
Qed.

Lemma parseAuthority_plain name port :
  name ≠ "" → all_bytes host_byte name = true → validOptionalPort port = true →
  parseAuthority (name +:+ port) = Ok (None, name +:+ port).
Proof.
  intros Hne Hn Hp. unfold parseAuthority.
  assert (last_index "@" (name +:+ port) = None) as ->.
  { apply last_index_None, has_byte_all_bytes. apply host_bytes; done || bytewise. }
  assert (unescape (name +:+ port) encodeHost = Ok (name +:+ port)) as Hu.
  { apply unescape_id. apply host_bytes; done || bytewise. }
  unfold parseHost. destruct (has_prefix "[" (name +:+ port)) eqn:Hb.
  { destruct name as [|c name]; [done|]. simpl in Hn. apply andb_true_iff in Hn as [Hc _].
    revert Hb Hc. each_byte c; done. }
  rewrite last_index_port by done. destruct (String.eqb_spec port "") as [->|]; [by rewrite Hu|].
  assert (sdrop (String.length name) (name +:+ port) = port) as ->.
  { clear. induction name; [by destruct port|done]. }
  by rewrite Hp, Hu.
Qed.

Lemma plain_escapes u : plain_url u →
  escape (url_Host u) encodeHost = url_Host u ∧ EscapedPath u = url_Path u.
Proof.
  intros H. destruct (plain_host u H) as (name & port & -> & _ & Hn & Hp).
  destruct (plain_path u H) as (rest & Hpath & Hr).
  split; [apply escape_id, host_bytes; try done; bytewise|].
  unfold EscapedPath. rewrite (plain_rawpath u H), Hpath, String.eqb_refl. cbn [negb andb].
  assert (String.eqb (String "/" rest) "*" = false) as -> by done. rewrite escape_id; [done|].
  apply (all_bytes_impl path_byte); [bytewise|exact Hr].
Qed.

Definition query_text (u : URL) : string :=
  if url_ForceQuery u || negb (String.eqb (url_RawQuery u) "") then "?" +:+ url_RawQuery u else "".

Lemma URL_String_plain u : plain_url u →
  URL_String u = url_Scheme u +:+ "://" +:+ url_Host u +:+ url_Path u +:+ query_text u.
Proof.
  intros H. destruct (plain_escapes u H) as [Hh Hp].
  unfold URL_String. rewrite (plain_opaque u H), (plain_user u H), (plain_fragment u H), Hh, Hp.
  destruct (plain_path u H) as (rest & -> & _).
  destruct (plain_host u H) as (name & port & -> & Hne & _ & _).
  assert (String.eqb (name +:+ port) "" = false) as -> by (by destruct name).
  assert (has_prefix "" rest = true) as Hpre by (by destruct rest).
  destruct (plain_scheme u H) as [-> | ->]; simpl; rewrite Hpre, ?string_app_empty_r, ?string_app_assoc; done.
Qed.

Lemma cut_query u pre : all_bytes (λ c, negb (byte_among "?" c)) pre = true →
  ∃ o force, cut_any "?" (pre +:+ query_text u) = (pre, o)
    ∧ match o with
      | Some EmptyString => ("", true)
      | Some query => (query, false)
      | None => ("", false)
      end = (url_RawQuery u, force).
Proof.
  intros Hno. unfold query_text. destruct (url_ForceQuery u), (url_RawQuery u) as [|c q]; cbn [orb negb String.eqb].
  3: rewrite string_app_empty_r, cut_any_none by done; by eauto.
  all: match goal with |- context ["?" +:+ ?q] => change ("?" +:+ q) with (String "?" q) end;
    rewrite cut_any_app by done; by eauto.
Qed.

(** A printed URL, used as the URI of a request, has the query and the path it
    was printed with. *)
Lemma String_ParseRequestURI u : plain_url u →
  ∃ u', ParseRequestURI (URL_String u) = Ok u' ∧ url_RawQuery u' = url_RawQuery u ∧ url_Path u' = url_Path u.
Proof.
  intros H. destruct (plain_path u H) as (rest & Hpath & Hr).
  destruct (plain_host u H) as (name & port & Hhost & Hne & Hn & Hp).
  unfold ParseRequestURI. rewrite (URL_String_plain u H), Hpath, Hhost.
  pose proof (parseAuthority_plain name port Hne Hn Hp) as Hpa.
  set (host := name +:+ port) in *. set (path := String "/" rest).
  assert (∀ p, (∀ c, host_byte c = true → p c = true) → p ":"%char = true → all_bytes p host = true) as Hhb.
  { intros p ? ?. by apply host_bytes. }
  assert (∀ p, (∀ c, path_byte c = true → p c = true) → all_bytes p path = true) as Hpb.
  { intros p Hpp. unfold path. simpl. rewrite Hpp by done. eapply all_bytes_impl, Hr. auto. }
  assert (all_bytes (λ c, negb (control_byte c)) (query_text u) = true) as Hqc.
  { unfold query_text. destruct (_ || _); [|done]. rewrite all_bytes_app. by rewrite (plain_query u H). }
  destruct (cut_query u ("//" +:+ host +:+ path)) as (o & f & Hcut & Ho).
  { rewrite !all_bytes_app, Hhb, Hpb by (done || bytewise). done. }
  rewrite !string_app_assoc in Hcut.
  assert (∀ v, setPath v path = Ok (mkURL (url_Scheme v) (url_Opaque v) (url_User v) (url_Host v) path ""
    (url_ForceQuery v) (url_RawQuery v) (url_Fragment v))) as Hset.
  { intros v. unfold setPath. rewrite unescape_id by (apply Hpb; bytewise). cbn [rbind].
    rewrite escape_id by (apply Hpb; bytewise). by rewrite String.eqb_refl. }
  assert (cut_any "/" (host +:+ path) = (host, Some rest)) as Hauth.
  { apply cut_any_app; [|done]. apply Hhb; [bytewise|done]. }
  assert (sdrop (String.length host) (host +:+ path) = path) as Hdrop.
  { clear. by induction host. }
  unfold parse_url.
  rewrite !all_bytes_app, Hhb, Hpb, Hqc by (done || bytewise).
  set (after := host +:+ path +:+ query_text u) in *.
  assert (getscheme (url_Scheme u +:+ "://" +:+ after) = Ok (url_Scheme u, "//" +:+ after)
    ∧ to_lower (url_Scheme u) = url_Scheme u ∧ String.eqb (url_Scheme u) "" = false
    ∧ String.eqb (url_Scheme u +:+ "://" +:+ after) "" = false
    ∧ String.eqb (url_Scheme u +:+ "://" +:+ after) "*" = false
    ∧ all_bytes (λ c, negb (control_byte c)) (url_Scheme u) = true) as (-> & Hl & He & -> & -> & ->).
  { by destruct (plain_scheme u H) as [-> | ->]. }
  assert (has_prefix "/" ("//" +:+ host +:+ path) = true ∧ has_prefix "//" ("//" +:+ host +:+ path) = true
    ∧ sdrop 2 ("//" +:+ host +:+ path) = host +:+ path) as (H1 & H2 & H3).
  { simpl. by destruct (host +:+ path). }
  cbn [negb andb rbind fst snd all_bytes map_err]. rewrite Hcut, Hl, He.
  destruct o as [[|c q]|]; injection Ho as <- <-;
    rewrite H1, H2, H3; cbn [negb andb orb]; rewrite Hauth; cbn [fst]; rewrite Hpa; cbn [rbind fst snd];
    rewrite Hdrop, Hset; cbn [map_err]; by eauto.
Qed.

(** ** Paths of the API as URLs *)

(** An absolute path that does not look like an authority. *)
Definition plain_path_text (path : string) : Prop :=
  ∃ c rest, path = String "/" (String c rest) ∧ c ≠ "/"%char ∧ all_bytes path_byte (String c rest) = true.

Definition path_url (path query : string) : URL := mkURL "" "" None "" path "" false query "".

Lemma url_Parse_path path : plain_path_text path → url_Parse path = Ok (path_url path "").
Proof.
  intros (c & rest & -> & Hc & Hr).
  assert (∀ p : ascii → bool, (∀ c, path_byte c = true → p c = true) → p "/"%char = true →
    all_bytes p (String "/" (String c rest)) = true) as Hp.
  { intros p H1 H2. cbn [all_bytes]. rewrite H2. simpl. by apply (all_bytes_impl path_byte p (String c rest)). }
  set (path := String "/" (String c rest)) in *.
  unfold url_Parse. rewrite cut_any_none by (apply Hp; [bytewise|done]).
  unfold parse_url. rewrite Hp by (done || bytewise).
  assert (getscheme path = Ok ("", path)) as -> by done.
  assert (has_prefix "/" path = true ∧ has_prefix "//" path = false ∧ String.eqb path "" = false
    ∧ String.eqb path "*" = false) as (H1 & H2 & H3 & H4).
  { unfold path, has_prefix. split; [done|]. split; [|done].
    change (String.prefix "//" (String "/" (String c rest)))
      with (if ascii_dec "/" c then String.prefix "" rest else false).
    by destruct (ascii_dec "/" c) as [<-|]. }
  rewrite H3, H4. cbn [negb andb rbind fst snd to_lower].
  rewrite cut_any_none by (apply Hp; [bytewise|done]). rewrite H1, H2. cbn [negb andb orb String.eqb].
  rewrite andb_false_r. unfold setPath.
  rewrite unescape_id by (apply Hp; [bytewise|done]). cbn [rbind].
  rewrite escape_id by (apply Hp; [bytewise|done]). by rewrite String.eqb_refl.
Qed.

(** What is printed for a plain URL with an encoded query is text. *)
Lemma Values_Encode_bytes v : all_bytes (λ c, query_plain c || byte_among "&=" c) (Values_Encode v) = true.
Proof.
  unfold Values_Encode, join. set (l := sort_by fst (map_to_list v) ≫= _).
  assert (Forall (λ p, all_bytes (λ c, query_plain c || byte_among "&=" c) p = true) l) as H.
  { apply Forall_forall. intros p Hp. unfold l in Hp. apply list_elem_of_bind in Hp as (kv & Hp & _).
    apply list_elem_of_fmap in Hp as (x & -> & _). rewrite !all_bytes_app.
    assert (∀ s, all_bytes (λ c, query_plain c || byte_among "&=" c) (QueryEscape s) = true) as Hq.
    { intros s. eapply all_bytes_impl, QueryEscape_plain. intros c ->. done. }
    by rewrite !Hq. }
  clearbody l. induction H as [|p l Hp Hl IH]; [done|]. destruct l as [|p' l]; [done|].
  change (String.concat "&" (p :: p' :: l)) with (p +:+ "&" +:+ String.concat "&" (p' :: l)).
  by rewrite !all_bytes_app, Hp, IH.
Qed.
