(* ===== verification/Secrets.v ===== *)
(** * Secrets and certificate authorities

    Models [pkg/core/secrets] (ciphers, secret store, secret manager),
    [pkg/core/datasource], [pkg/core/ca] and the certificate authorities of
    [pkg/plugins/ca/builtin] and [pkg/plugins/ca/provided].  The X.509 and RSA
    routines are those of the class [X509]. *)

From S2P Require Import Prelude Effects GoStd Tags Dataplane Policy MeshResources Validators MeshValidator.
From S2P Require Import Insights Resources Store MemoryStore Manager NetUrl.
Local Open Scope Z_scope.

(** ** pkg/core/secrets/cipher *)

Class Cipher : Type := {
  Encrypt : string → res string;
  Decrypt : string → res string;
}.

(** [None()] and [TODO()]. *)
Definition none_cipher : Cipher := {| Encrypt := Ok; Decrypt := Ok |}.
Definition TODO_cipher : Cipher := none_cipher.

(** What a cipher promises: an encrypted value is not empty, and it decrypts to
    the value. *)
Class LawfulCipher `{Cipher} : Prop := {
  decrypt_encrypt : ∀ v e, v ≠ "" → Encrypt v = Ok e → e ≠ "" ∧ Decrypt e = Ok v;
}.

#[global] Instance none_lawful : @LawfulCipher none_cipher.
Proof. constructor. intros v e Hv [= <-]. done. Qed.

(** ** pkg/core/secrets/store *)

(** The interface [SecretStore]; the adapter hands every call to the resource
    store. *)
Record SecretStore (St : Type) : Type := mkSecretStore {
  ss_Create : St → Object → list CreateOptionsFunc → res unit * (St * Object);
  ss_Update : St → Object → list UpdateOptionsFunc → res unit * (St * Object);
  ss_Delete : St → Object → list DeleteOptionsFunc → res unit * St;
  ss_Get : St → Object → list GetOptionsFunc → res unit * Object;
  ss_List : St → ObjectList → list ListOptionsFunc → res unit * ObjectList;
}.
Arguments mkSecretStore {St} _ _ _ _ _.
Arguments ss_Create {St} _ _ _ _.
Arguments ss_Update {St} _ _ _ _.
Arguments ss_Delete {St} _ _ _ _.
Arguments ss_Get {St} _ _ _ _.
Arguments ss_List {St} _ _ _ _.

Definition NewSecretStore {St} `{ResourceStore St} : SecretStore St :=
  mkSecretStore store_Create store_Update store_Delete store_Get store_List.

(** ** pkg/core/secrets/manager *)

(** [secret.Spec.GetData().GetValue()]. *)
Definition secret_value (secret : Object) : string :=
  match o_Spec secret with SecretSpec (mkSecret d) => default "" d | _ => "" end.
(** [secret.Spec.Data.Value = value]. *)
Definition set_secret_value (secret : Object) (value : string) : Object :=
  mkObject (o_Meta secret) (SecretSpec (mkSecret (Some value))).
Definition new_secret (value : string) : Object := mkObject None (SecretSpec (mkSecret (Some value))).

(** The interface [SecretManager]; times are those of the calls. *)
Record SecretManager (St : Type) : Type := mkSecretManager {
  sm_Create : Z → St → Object → list CreateOptionsFunc → res unit * (St * Object);
  sm_Update : Z → St → Object → list UpdateOptionsFunc → res unit * (St * Object);
  sm_Delete : St → Object → list DeleteOptionsFunc → res unit * St;
  sm_DeleteAll : St → list DeleteAllOptionsFunc → res unit * St;
  sm_Get : St → Object → list GetOptionsFunc → res unit * Object;
  sm_List : St → ObjectList → list ListOptionsFunc → res unit * ObjectList;
}.
Arguments mkSecretManager {St} _ _ _ _ _ _.
Arguments sm_Create {St} _ _ _ _ _.
Arguments sm_Update {St} _ _ _ _ _.
Arguments sm_Delete {St} _ _ _ _.
Arguments sm_DeleteAll {St} _ _ _.
Arguments sm_Get {St} _ _ _ _.
Arguments sm_List {St} _ _ _ _.

Section Manager.
Context {St : Type} (secretStore : SecretStore St) `{Cipher}.

Definition crypt (f : string → res string) (secret : Object) : res unit * Object :=
  if String.eqb (secret_value secret) "" then (Ok (), secret)
  else match f (secret_value secret) with
       | Ok value => (Ok (), set_secret_value secret value)
       | Err e => (Err e, secret)
       | Panic => (Panic, secret)
       end.
Definition encrypt : Object → res unit * Object := crypt Encrypt.
Definition decrypt : Object → res unit * Object := crypt Decrypt.

Definition secret_Get (s : St) (secret : Object) (fs : list GetOptionsFunc) : res unit * Object :=
  let (err, secret1) := ss_Get secretStore s secret fs in
  match err with Ok _ => decrypt secret1 | _ => (err, secret1) end.

(** The loop of [List]: items are decrypted in place until one fails. *)
Fixpoint decrypt_items (items : list Object) : res unit * list Object :=
  match items with
  | [] => (Ok (), [])
  | item :: rest =>
      let (err, item') := decrypt item in
      match err with
      | Ok _ => let (err', rest') := decrypt_items rest in (err', item' :: rest')
      | _ => (err, item' :: rest)
      end
  end.

Definition secret_List (s : St) (secrets : ObjectList) (fs : list ListOptionsFunc) : res unit * ObjectList :=
  let (err, l) := ss_List secretStore s secrets fs in
  match err with
  | Ok _ => let (err', items) := decrypt_items (GetItems l) in (err', mkObjectList (ol_Kind l) items (NextOffset l))
  | _ => (err, l)
  end.

Definition secret_Create (now : Z) (s : St) (secret : Object) (fs : list CreateOptionsFunc)
  : res unit * (St * Object) :=
  let (err, secret1) := encrypt secret in
  match err with
  | Ok _ =>
      let '(err', (s', secret2)) := ss_Create secretStore s secret1 (fs ++ [CreatedAt now]) in
      match err' with
      | Ok _ => let (err'', secret3) := decrypt secret2 in (err'', (s', secret3))
      | _ => (err', (s', secret2))
      end
  | _ => (err, (s, secret1))
  end.

Definition secret_Update (now : Z) (s : St) (secret : Object) (fs : list UpdateOptionsFunc)
  : res unit * (St * Object) :=
  let (err, secret1) := encrypt secret in
  match err with
  | Ok _ =>
      let '(err', (s', secret2)) := ss_Update secretStore s secret1 (fs ++ [ModifiedAt now]) in
      match err' with
      | Ok _ => let (err'', secret3) := decrypt secret2 in (err'', (s', secret3))
      | _ => (err', (s', secret2))
      end
  | _ => (err, (s, secret1))
  end.

Definition secret_Delete (s : St) (secret : Object) (fs : list DeleteOptionsFunc) : res unit * St :=
  ss_Delete secretStore s secret fs.

Definition secret_DeleteAll (s : St) (fs : list DeleteAllOptionsFunc) : res unit * St :=
  let opts := NewDeleteAllOptions fs in
  let (err, l) := ss_List secretStore s (new_list KSecret) [ListByMesh (dao_Mesh opts)] in
  match err with
  | Ok _ => DeleteAll_loop secret_Delete s (GetItems l)
  | _ => (err, s)
  end.

Definition NewSecretManager : SecretManager St :=
  mkSecretManager secret_Create secret_Update secret_Delete secret_DeleteAll secret_Get secret_List.
End Manager.

(** ** pkg/core/datasource *)

(** The oneof of [DataSource]; [Inline] carries a wrapper, possibly nil. *)
Inductive DataSource_Type : Type :=
| DS_Secret (name : string)
| DS_Inline (value : option string)
| DS_File (path : string).
Record DataSource : Type := mkDataSource { ds_Type : option DataSource_Type }.

(** [source.GetType()] on a possibly nil source. *)
Definition DataSource_GetType (source : option DataSource) : option DataSource_Type := source ≫= ds_Type.

(** [datasource.Validate]. *)
Definition DataSource_Validate (source : option DataSource) : ValidationError :=
  let verr := match DataSource_GetType source with
              | None => AddViolation [] "" "data source has to be chosen. Available sources: secret, file, inline"
              | Some _ => []
              end in
  match DataSource_GetType source with
  | Some (DS_Secret name) => if String.eqb name "" then AddViolation verr "secret" "cannot be empty" else verr
  | Some (DS_Inline value) =>
      if String.eqb (default "" value) "" then AddViolation verr "inline" "cannot be empty" else verr
  | Some (DS_File path) => if String.eqb path "" then AddViolation verr "file" "cannot be empty" else verr
  | None => verr
  end.

(** The interface [Loader]. *)
Definition Loader (St : Type) : Type := St → string → option DataSource → res string.

Section Loader.
Context {St : Type} (secretManager : SecretManager St) (ReadFile : string → res string).

Definition loadSecret (s : St) (mesh secret : string) : res string :=
  let (err, resource) := sm_Get secretManager s (new_object KSecret) [GetByKey secret mesh] in
  let? _ := err in Ok (secret_value resource).

Definition Load : Loader St := λ s mesh source,
  match (match DataSource_GetType source with
         | Some (DS_Secret secret) => Some (loadSecret s mesh secret)
         | Some (DS_Inline value) => Some (Ok (default "" value))
         | Some (DS_File path) => Some (ReadFile path)
         | None => None
         end) with
  | None => Err (Errorf "unsupported type of the DataSource" [])
  | Some (Ok data) => Ok data
  | Some (Err e) => Err (Wrapf e "could not load data" [])
  | Some Panic => Panic
  end.
End Loader.

(** ** pkg/core/ca *)

Record KeyPair : Type := mkKeyPair { CertPEM : string; KeyPEM : string }.

(** The interface [Manager] of a certificate authority.  A validation returns
    the violations it found; it may also fail with another error.  [seed] is the
    randomness of the call, the number before it its time. *)
Record CaManager (Seed St : Type) : Type := mkCaManager {
  ca_ValidateBackend : St → string → CertificateAuthorityBackend → res (option ValidationError);
  ca_Ensure : Z → Seed → St → string → CertificateAuthorityBackend → res unit * St;
  ca_GetRootCert : St → string → CertificateAuthorityBackend → res (list string);
  ca_GenerateDataplaneCert : Z → Seed → St → string → CertificateAuthorityBackend → string → res KeyPair;
}.
Arguments mkCaManager {Seed St} _ _ _ _.
Arguments ca_ValidateBackend {Seed St} _ _ _ _.
Arguments ca_Ensure {Seed St} _ _ _ _ _ _.
Arguments ca_GetRootCert {Seed St} _ _ _ _.
Arguments ca_GenerateDataplaneCert {Seed St} _ _ _ _ _ _ _.

(** ** X.509 *)

(** The fields of [x509.Certificate] the code sets or reads (the public key is an
    argument of the creation too); names are printed with [pkix.Name.String], times
    are in nanoseconds. *)
Record Certificate : Type := mkCertificate {
  crt_SerialNumber : Z;
  crt_Subject : string;
  crt_Issuer : string;
  crt_URIs : list string;
  crt_NotBefore : Z;
  crt_NotAfter : Z;
  crt_KeyUsage : Z;
  crt_ExtKeyUsage : list string;
  crt_BasicConstraintsValid : bool;
  crt_IsCA : bool;
}.

Definition KeyUsageDigitalSignature : Z := 1.
Definition KeyUsageKeyEncipherment : Z := 4.
Definition KeyUsageKeyAgreement : Z := 16.
Definition KeyUsageCertSign : Z := 32.
Definition KeyUsageCRLSign : Z := 64.

(** The routines of the standard library and of the SPIFFE library: keys, the
    creation and parsing of certificates (DER), the PEM encoding of a block and
    [tls.X509KeyPair] (the certificates of the chain and the private key). *)
Class X509 (Seed Key : Type) : Type := {
  GenerateKey : Seed → res Key;
  NewSerialNumber : Seed → res Z;
  CreateCertificate : Seed → Certificate → Certificate → Key → Key → res string;
  ParseCertificate : string → res Certificate;
  MarshalPKCS1PrivateKey : Key → string;
  pem_Encode : string → string → res string;
  X509KeyPair : string → string → res (list string * Key);
  spiffe_ParseID : string → string → bool → res string;
  pkix_Name_String : string → string → string → string;
}.

#[global] Instance Certificate_eq_dec : EqDecision Certificate.
Proof. solve_decision. Defined.

(** Durations in nanoseconds. *)
Definition Second : Z := 10 ^ 9.
Definition Hour : Z := 3600 * Second.
Definition DefaultAllowedClockSkew : Z := 10 * Second.
Definition DefaultCACertValidityPeriod : Z := 10 * 365 * 24 * Hour.
Definition DefaultWorkloadCertValidityPeriod : Z := 90 * 24 * Hour.

Definition wrap_err {A} (msg : string) (r : res A) : res A :=
  match r with Err e => Err (Wrapf e msg []) | r => r end.

Lemma wrap_err_Ok {A} msg (r : res A) a : wrap_err msg r = Ok a → r = Ok a.
Proof. by destruct r. Qed.

Section CA.
Context {Seed Key : Type} `{X509 Seed Key}.

(** *** pkg/tls/keypair.go *)

(** Every key here is an RSA key. *)
Definition pemEncodeKey (priv : Key) : res string := pem_Encode "RSA PRIVATE KEY" (MarshalPKCS1PrivateKey priv).
Definition pemEncodeCert (derBytes : string) : res string := pem_Encode "CERTIFICATE" derBytes.

Definition ToKeyPair (key : Key) (cert : string) : res KeyPair :=
  let? keyPem := wrap_err "failed to PEM encode a private key" (pemEncodeKey key) in
  let? certPem := wrap_err "failed to PEM encode a certificate" (pemEncodeCert cert) in
  Ok (mkKeyPair certPem keyPem).

(** *** pkg/core/ca/issuer *)

(** [NewWorkloadTemplate]; the last argument of [ParseID] selects the mode that
    allows workloads. *)
Definition NewWorkloadTemplate (spiffeID trustDomain : string) (notBefore notAfter serialNumber : Z) : res Certificate :=
  let? uri := spiffe_ParseID spiffeID trustDomain true in
  Ok (mkCertificate serialNumber "" "" [uri] notBefore notAfter
        (Z.lor (Z.lor KeyUsageKeyEncipherment KeyUsageKeyAgreement) KeyUsageDigitalSignature)
        ["ServerAuth"; "ClientAuth"] true false).

Definition loadKeyPair (pair : KeyPair) : res (Key * Certificate) :=
  let? (chain, key) := wrap_err "failed to parse TLS key pair" (X509KeyPair (CertPEM pair) (KeyPEM pair)) in
  match chain with
  | [] => Panic
  | first :: _ =>
      let? rootCert := wrap_err "failed to parse X509 certificate" (ParseCertificate first) in
      Ok (key, rootCert)
  end.

(** [spiffeID.String()]. *)
Definition spiffe_url (host path : string) : string :=
  URL_String (mkURL "spiffe" "" None host path "" false "" "").

Definition newWorkloadCert (now : Z) (seed : Seed) (signer : Key) (parent : Certificate)
    (trustDomain workload : string) (publicKey : Key) : res string :=
  let? serialNumber := NewSerialNumber seed in
  let? template := NewWorkloadTemplate (spiffe_url trustDomain workload) trustDomain
                     (now - DefaultAllowedClockSkew) (now + DefaultWorkloadCertValidityPeriod) serialNumber in
  CreateCertificate seed template parent publicKey signer.

Definition NewWorkloadCert (now : Z) (seed : Seed) (ca : KeyPair) (mesh workload : string) : res KeyPair :=
  let? (caPrivateKey, caCert) := wrap_err "failed to load CA key pair" (loadKeyPair ca) in
  let? workloadKey := wrap_err "failed to generate a private key" (GenerateKey seed) in
  let? workloadCert := wrap_err "failed to generate X509 certificate"
                         (newWorkloadCert now seed caPrivateKey caCert mesh workload workloadKey) in
  ToKeyPair workloadKey workloadCert.

(** *** pkg/plugins/ca/builtin *)

Definition caTemplate (spiffeID trustDomain subject : string) (notBefore notAfter serialNumber : Z) : res Certificate :=
  let? uri := spiffe_ParseID spiffeID trustDomain false in
  Ok (mkCertificate serialNumber subject "" [uri] notBefore notAfter (Z.lor KeyUsageCertSign KeyUsageCRLSign) [] true true).

Definition newCACert (now : Z) (seed : Seed) (signer : Key) (trustDomain : string) : res string :=
  let subject := pkix_Name_String "Kuma" "Mesh" trustDomain in
  let? template := caTemplate (spiffe_url trustDomain "") trustDomain subject
                     (now - DefaultAllowedClockSkew) (now + DefaultCACertValidityPeriod) 0 in
  CreateCertificate seed template template signer signer.

Definition newRootCa (now : Z) (seed : Seed) (mesh : string) : res KeyPair :=
  let? key := wrap_err "failed to generate a private key" (GenerateKey seed) in
  let? cert := wrap_err "failed to generate X509 certificate" (newCACert now seed key mesh) in
  ToKeyPair key cert.

Definition certSecretResKey (mesh backendName : string) : ResourceKey :=
  mkKey mesh (mesh +:+ ".ca-builtin-cert-" +:+ backendName).
Definition keySecretResKey (mesh backendName : string) : ResourceKey :=
  mkKey mesh (mesh +:+ ".ca-builtin-key-" +:+ backendName).

Section Builtin.
Context {St : Type} (secretManager : SecretManager St).
(** How [fmt] prints a whole backend. *)
Context (fmt_backend : CertificateAuthorityBackend → string).

(** [certSecret.Spec.Data.Value], which dereferences [Data]. *)
Definition data_value (secret : Object) : res string :=
  match o_Spec secret with SecretSpec (mkSecret (Some v)) => Ok v | _ => Panic end.

Definition builtin_getCa (s : St) (mesh backendName : string) : res KeyPair :=
  let (err, certSecret) :=
    sm_Get secretManager s (new_object KSecret) [GetBy (certSecretResKey mesh backendName)] in
  let? _ := err in
  let (err, keySecret) :=
    sm_Get secretManager s (new_object KSecret) [GetBy (keySecretResKey mesh backendName)] in
  let? _ := err in
  let? cert := data_value certSecret in
  let? key := data_value keySecret in
  Ok (mkKeyPair cert key).

Definition builtin_create (now : Z) (seed : Seed) (s : St) (mesh backendName : string) : res unit * St :=
  match newRootCa now seed mesh with
  | Ok keyPair =>
      let '(err, (s1, _)) := sm_Create secretManager now s (new_secret (CertPEM keyPair))
                               [CreateBy (certSecretResKey mesh backendName)] in
      match err with
      | Ok _ =>
          let '(err', (s2, _)) := sm_Create secretManager now s1 (new_secret (KeyPEM keyPair))
                                    [CreateBy (keySecretResKey mesh backendName)] in
          (err', s2)
      | _ => (err, s1)
      end
  | Err e => (Err (Wrapf e "failed to generate a Root CA cert for Mesh %q" [AStr mesh]), s)
  | Panic => (Panic, s)
  end.

Definition builtin_Ensure (now : Z) (seed : Seed) (s : St) (mesh : string) (backend : CertificateAuthorityBackend)
  : res unit * St :=
  match builtin_getCa s mesh (ca_Name backend) with
  | Ok _ => (Ok (), s)
  | Err e =>
      if IsResourceNotFound e then
        let (err, s') := builtin_create now seed s mesh (ca_Name backend) in
        (match err with
         | Err e => Err (Wrapf e "failed to create CA for mesh %q and backend %q" [AStr mesh; AStr (ca_Name backend)])
         | err => err
         end, s')
      else (Err e, s)
  | Panic => (Panic, s)
  end.

Definition load_failed (mesh backendName : string) {A} (r : res A) : res A :=
  match r with
  | Err e => Err (Wrapf e "failed to load CA key pair for Mesh %q and backend %q" [AStr mesh; AStr backendName])
  | r => r
  end.

Definition builtin_GetRootCert (s : St) (mesh : string) (backend : CertificateAuthorityBackend)
  : res (list string) :=
  let? ca := load_failed mesh (ca_Name backend) (builtin_getCa s mesh (ca_Name backend)) in
  Ok [CertPEM ca].

Definition workload_failed (mesh service backendName : string) {A} (r : res A) : res A :=
  match r with
  | Err e => Err (Wrapf e "failed to generate a Workload Identity cert for workload %q in Mesh %q using backend %q"
                    [AStr service; AStr mesh; AStr backendName])
  | r => r
  end.

Definition builtin_GenerateDataplaneCert (now : Z) (seed : Seed) (s : St) (mesh : string)
    (backend : CertificateAuthorityBackend) (service : string) : res KeyPair :=
  let? ca := load_failed mesh (ca_Name backend) (builtin_getCa s mesh (ca_Name backend)) in
  workload_failed mesh service (fmt_backend backend) (NewWorkloadCert now seed ca mesh service).

Definition NewBuiltinCaManager : CaManager Seed St :=
  {| ca_ValidateBackend := λ _ _ _, Ok None;
     ca_Ensure := builtin_Ensure;
     ca_GetRootCert := builtin_GetRootCert;
     ca_GenerateDataplaneCert := builtin_GenerateDataplaneCert |}.
End Builtin.

(** *** pkg/plugins/ca/provided *)

(** [cert.KeyUsage&usage != 0]. *)
Definition has_usage (cert : Certificate) (usage : Z) : bool := negb (Z.land (crt_KeyUsage cert) usage =? 0).

Definition validateCaCert (signingPair : KeyPair) : res ValidationError :=
  match X509KeyPair (CertPEM signingPair) (KeyPEM signingPair) with
  | Err err => Ok (AddViolation [] "cert" ("not a valid TLS key pair: " +:+ error_string err))
  | Panic => Panic
  | Ok (chain, _) =>
      match chain with
      | [der] =>
          match ParseCertificate der with
          | Err err => Ok (AddViolation [] "cert" ("not a valid x509 certificate: " +:+ error_string err))
          | Panic => Panic
          | Ok cert =>
              let verr := if negb (String.eqb (crt_Issuer cert) (crt_Subject cert))
                then AddViolation [] "cert" "certificate must be self-signed (intermediate CAs are not allowed)" else [] in
              let verr := if negb (crt_IsCA cert)
                then AddViolation verr "cert" "basic constraint 'CA' must be set to 'true' (see X509-SVID: 4.1. Basic Constraints)" else verr in
              let verr := if negb (has_usage cert KeyUsageCertSign)
                then AddViolation verr "cert" "key usage extension 'keyCertSign' must be set (see X509-SVID: 4.3. Key Usage)" else verr in
              let verr := if has_usage cert KeyUsageDigitalSignature
                then AddViolation verr "cert" "key usage extension 'digitalSignature' must NOT be set (see X509-SVID: Appendix A. X.509 Field Reference)" else verr in
              let verr := if has_usage cert KeyUsageKeyAgreement
                then AddViolation verr "cert" "key usage extension 'keyAgreement' must NOT be set (see X509-SVID: Appendix A. X.509 Field Reference)" else verr in
              Ok (if has_usage cert KeyUsageKeyEncipherment
                  then AddViolation verr "cert" "key usage extension 'keyEncipherment' must NOT be set (see X509-SVID: Appendix A. X.509 Field Reference)" else verr)
          end
      | _ => Ok (AddViolation [] "cert" "certificate must be a root CA (certificate chains are not allowed)")
      end
  end.

Definition ValidateCaCert (signingPair : KeyPair) : res (option ValidationError) :=
  rmap OrNil (validateCaCert signingPair).

(** [ProvidedCertificateAuthorityConfig]. *)
Record ProvidedConfig : Type := mkProvidedConfig {
  pc_Cert : option DataSource;
  pc_Key : option DataSource;
}.

Section Provided.
Context {St : Type} (dataSourceLoader : Loader St).
(** [FromJSON] into the configuration, of a Struct given by its JSON text. *)
Context (config_FromJSON : string → res ProvidedConfig).

(** [proto.ToTyped]: a nil Struct leaves the message as it is. *)
Definition ToTyped (protoStruct : option string) : res ProvidedConfig :=
  match protoStruct with
  | None => Ok (mkProvidedConfig None None)
  | Some config => config_FromJSON config
  end.

Definition provided_getCa (s : St) (mesh : string) (backend : CertificateAuthorityBackend) : res KeyPair :=
  let? cfg := wrap_err "could not convert backend config to ProvidedCertificateAuthorityConfig"
                (ToTyped (ca_Config backend)) in
  let? key := dataSourceLoader s mesh (pc_Key cfg) in
  let? cert := dataSourceLoader s mesh (pc_Cert cfg) in
  Ok (mkKeyPair cert key).

Definition source_violations (verr : ValidationError) (field : string) (source : option DataSource) : ValidationError :=
  match source with
  | None => AddViolation verr field "has to be defined"
  | Some _ => AddError verr field (DataSource_Validate source)
  end.

Definition provided_ValidateBackend (s : St) (mesh : string) (backend : CertificateAuthorityBackend)
  : res (option ValidationError) :=
  match ToTyped (ca_Config backend) with
  | Err err => Ok (OrNil (AddViolation [] "" ("could not convert backend config: " +:+ error_string err)))
  | Panic => Panic
  | Ok cfg =>
      let verr := source_violations (source_violations [] "cert" (pc_Cert cfg)) "key" (pc_Key cfg) in
      if HasViolations verr then Ok (OrNil verr)
      else match provided_getCa s mesh backend with
           | Err err => Ok (OrNil (AddViolation (AddViolation verr "cert" (error_string err)) "key" (error_string err)))
           | Panic => Panic
           | Ok caPair => let? caErr := validateCaCert caPair in Ok (OrNil (AddError verr "" caErr))
           end
  end.

Definition provided_GetRootCert (s : St) (mesh : string) (backend : CertificateAuthorityBackend)
  : res (list string) :=
  let? meshCa := load_failed mesh (ca_Name backend) (provided_getCa s mesh backend) in
  Ok [CertPEM meshCa].

Definition provided_GenerateDataplaneCert (now : Z) (seed : Seed) (s : St) (mesh : string)
    (backend : CertificateAuthorityBackend) (service : string) : res KeyPair :=
  let? meshCa := load_failed mesh (ca_Name backend) (provided_getCa s mesh backend) in
  workload_failed mesh service (ca_Name backend) (NewWorkloadCert now seed meshCa mesh service).

Definition NewProvidedCaManager : CaManager Seed St :=
  {| ca_ValidateBackend := provided_ValidateBackend;
     ca_Ensure := λ _ _ s _ _, (Ok (), s);
     ca_GetRootCert := provided_GetRootCert;
     ca_GenerateDataplaneCert := provided_GenerateDataplaneCert |}.
End Provided.
End CA.

(** ** Over the memory store *)

Section Memory.
Context `{LawfulJsonpb} `{LawfulCipher}.
Let sm : SecretManager memoryStore := NewSecretManager NewSecretStore.

Definition secret_key (key : ResourceKey) : string * string * string :=
  (type_name KSecret, key_Name key, key_Mesh key).

(** What the manager reads at [key]. *)
Definition read_secret (c : memoryStore) (key : ResourceKey) : res unit * Object :=
  sm_Get sm c (new_object KSecret) [GetBy key].

Lemma read_missing c key :
  rtc memory_step NewStore c → abs c !! secret_key key = None →
  ∃ e o, read_secret c key = (Err e, o) ∧ IsResourceNotFound e = true.
Proof.
  intros [Hu _]%reachable_ok Hk. unfold read_secret, sm, secret_Get. simpl. unfold secret_Get. simpl.
  rewrite Get_refines by done. unfold map_Get. simpl.
  change (GetType (new_object KSecret), key_Name key, key_Mesh key) with (secret_key key). rewrite Hk.
  do 2 eexists. split; [done|reflexivity].
Qed.

Lemma crypt_same f o o' : crypt f o = (Ok (), o') → o_Meta o' = o_Meta o.
Proof.
  unfold crypt. destruct (String.eqb _ _); [by intros [= <-]|].
  destruct (f _); [|done|done]. by intros [= <-].
Qed.

(** An encrypted secret decrypts to what it was. *)
Lemma decrypt_encrypted v o :
  encrypt (new_secret v) = (Ok (), o) →
  (∃ enc, o = new_secret enc ∧ (v = "" ∧ enc = "" ∨ v ≠ "" ∧ Encrypt v = Ok enc))
  ∧ ∀ meta, ∃ o', decrypt (mkObject meta (o_Spec o)) = (Ok (), o') ∧ o_Spec o' = SecretSpec (mkSecret (Some v)).
Proof.
  unfold encrypt, decrypt, crypt. change (secret_value (new_secret v)) with v.
  destruct (String.eqb_spec v "") as [->|Hv].
  - intros [= <-]. split; [eexists; split; [done|by left]|]. intros meta. by eexists.
  - destruct (Encrypt v) as [enc|err|] eqn:E; [|done|done]. intros [= <-].
    destruct (decrypt_encrypt v enc Hv E) as [Hne Hd]. split; [eexists; split; [done|by right]|].
    intros meta. unfold secret_value. simpl. rewrite (proj2 (String.eqb_neq enc "") Hne), Hd. by eexists.
Qed.

Lemma memory_Create_same c r fs e c' r' :
  memory_Create c r fs = (e, (c', r')) → e ≠ Ok () → c' = c.
Proof.
  unfold memory_Create. destruct (findRecord _ _ _ _); [by intros [= <- <- <-]|].
  by destruct (marshalRecord _ _ _); intros [= <- <- <-].
Qed.

(** Creating a secret and reading it back. *)
Lemma secret_create now c v key e c' o' :
  rtc memory_step NewStore c →
  sm_Create sm now c (new_secret v) [CreateBy key] = (e, (c', o')) →
  rtc memory_step NewStore c' ∧
  match e with
  | Ok _ => abs c !! secret_key key = None
      ∧ o_Spec o' = SecretSpec (mkSecret (Some v))
      ∧ (∃ enc rec, (v = "" ∧ enc = "" ∨ v ≠ "" ∧ Encrypt v = Ok enc)
           ∧ abs c' !! secret_key key = Some rec
           ∧ jsonpb_Marshal (SecretSpec (mkSecret (Some enc))) = Ok (rec_Spec rec))
      ∧ (∃ o, read_secret c' key = (Ok (), o) ∧ o_Spec o = SecretSpec (mkSecret (Some v)))
      ∧ ∀ k, k ≠ secret_key key → abs c' !! k = abs c !! k
  | _ => c' = c
  end.
Proof.
  intros Hc. unfold sm. simpl. unfold secret_Create. simpl.
  destruct (encrypt (new_secret v)) as [ee o1] eqn:Ee.
  destruct ee as [[]|err|]; [|by intros [= <- <- <-]|by intros [= <- <- <-]].
  destruct (decrypt_encrypted v _ Ee) as ((enc & -> & Henc) & Hdec).
  destruct (memory_Create c (new_secret enc) [CreateBy key; CreatedAt now]) as [e1 [c1 o2]] eqn:Ecr.
  pose proof (step_Create c (new_secret enc) [CreateBy key; CreatedAt now]) as Hst. rewrite Ecr in Hst. simpl in Hst.
  assert (rtc memory_step NewStore c1) as Hc1 by (by eapply rtc_r). pose proof (reachable_unique c Hc) as Hu.
  pose proof (Create_refines c (new_secret enc) [CreateBy key; CreatedAt now] Hu) as Hr. rewrite Ecr in Hr.
  destruct Hr as [Hu1 Hr]. unfold map_Create in Hr. simpl in Hr.
  change (GetType (new_secret enc), key_Name key, key_Mesh key) with (secret_key key) in Hr.
  simpl in Ecr. destruct e1 as [[]|err|]; cycle 1.
  { intros [= <- <- <-]. split; [done|]. by apply (memory_Create_same c (new_secret enc) _ _ _ _ Ecr). }
  { intros [= <- <- <-]. split; [done|]. by apply (memory_Create_same c (new_secret enc) _ _ _ _ Ecr). }
  destruct (Create_then_Get c (new_secret enc) _ c1 o2 Hu Ecr) as (Hg & Hs & Ho). simpl in Hg, Hs, Ho.
  destruct (Hdec (o_Meta o2)) as (o3 & Hd & Hs3).
  assert (decrypt o2 = (Ok (), o3)) as Hd' by (rewrite <- Hd; destruct o2 as [m sp]; simpl in Hs; by rewrite Hs).
  rewrite Hd'. intros [= <- <- <-]. split; [done|].
  destruct (abs c !! secret_key key) eqn:Ek; [done|].
  destruct (ToJSON _) as [content|err|] eqn:Ej; [|done|done]. injection Hr as Habs _.
  split; [done|]. split; [done|]. split; [|split; [|exact Ho]].
  - exists enc. eexists. split; [done|]. split; [rewrite <- Habs; apply lookup_insert_eq|]. simpl. by apply ToJSON_Ok.
  - exists o3. split; [|done]. unfold read_secret, sm. simpl. unfold secret_Get. simpl.
    change (memory_Get c1 (new_object KSecret) [GetBy key]) with
      (memory_Get c1 (new_object (o_Kind (new_secret enc))) [GetByKey (key_Name key) (key_Mesh key)]).
    by rewrite Hg.
Qed.

(** C17: A secret that was created reads back as it was: the value is stored
    encrypted and no other resource changes, the caller's secret is in clear
    text again; a call that fails leaves the store as it was. *)
Theorem secret_roundtrip now c v key :
  rtc memory_step NewStore c →
  let '(e, (c', o')) := sm_Create sm now c (new_secret v) [CreateBy key] in
  match e with
  | Ok _ => secret_value o' = v
      ∧ (∃ enc rec, (v = "" ∧ enc = "" ∨ v ≠ "" ∧ Encrypt v = Ok enc)
           ∧ abs c' !! secret_key key = Some rec
           ∧ jsonpb_Marshal (SecretSpec (mkSecret (Some enc))) = Ok (rec_Spec rec))
      ∧ (∃ o, sm_Get sm c' (new_object KSecret) [GetBy key] = (Ok (), o) ∧ secret_value o = v)
      ∧ ∀ k, k ≠ secret_key key → abs c' !! k = abs c !! k
  | _ => c' = c
  end.
Proof.
  intros Hc. destruct (sm_Create sm now c _ _) as [e [c' o']] eqn:E.
  apply secret_create in E as [_ He]; [|done]. destruct e; [|done|done].
  destruct He as (_ & Hs & Henc & (o & Hg & Ho) & Hrest).
  split; [unfold secret_value; by rewrite Hs|]. split; [done|]. split; [|done].
  exists o. split; [done|]. unfold secret_value. by rewrite Ho.
Qed.


(** *** The builtin certificate authority *)

Section Builtin.
Context {Seed Key : Type} `{X509 Seed Key}.

Lemma secret_keys_ne mesh n m : secret_key (certSecretResKey mesh n) ≠ secret_key (keySecretResKey mesh m).
Proof.
  unfold secret_key. simpl. intros [= Heq]. apply (inj (String.append mesh)) in Heq. discriminate Heq.
Qed.

(** A read depends on the record only. *)
Lemma read_abs c c' key :
  rtc memory_step NewStore c → rtc memory_step NewStore c' →
  abs c' !! secret_key key = abs c !! secret_key key → read_secret c' key = read_secret c key.
Proof.
  intros Hc%reachable_unique Hc'%reachable_unique Hk. unfold read_secret, sm. simpl. unfold secret_Get. simpl.
  rewrite !Get_refines by done. unfold map_Get. simpl.
  change (GetType (new_object KSecret), key_Name key, key_Mesh key) with (secret_key key). by rewrite Hk.
Qed.

(** The values of a pair of secrets. *)
Definition holds_secret (c : memoryStore) (key : ResourceKey) (v : string) : Prop :=
  ∃ o, read_secret c key = (Ok (), o) ∧ o_Spec o = SecretSpec (mkSecret (Some v)).

Lemma getCa_holds c mesh name cert key :
  holds_secret c (certSecretResKey mesh name) cert → holds_secret c (keySecretResKey mesh name) key →
  builtin_getCa sm c mesh name = Ok (mkKeyPair cert key).
Proof.
  intros (o1 & Q1 & E1) (o2 & Q2 & E2). unfold builtin_getCa. unfold read_secret in Q1, Q2.
  rewrite Q1, Q2. simpl. unfold data_value. by rewrite E1, E2.
Qed.

Lemma holds_frame c c' key v :
  rtc memory_step NewStore c → rtc memory_step NewStore c' →
  abs c' !! secret_key key = abs c !! secret_key key → holds_secret c key v → holds_secret c' key v.
Proof. intros Hc Hc' Hk (o & Ho & Hs). exists o. by rewrite (read_abs c c' key). Qed.

(** Creating the pair. *)
Lemma builtin_create_memory now seed c mesh name keyPair :
  rtc memory_step NewStore c → newRootCa now seed mesh = Ok keyPair →
  let (e, c') := builtin_create sm now seed c mesh name in
  rtc memory_step NewStore c' ∧
  match e with
  | Ok _ => abs c !! secret_key (certSecretResKey mesh name) = None
      ∧ abs c !! secret_key (keySecretResKey mesh name) = None
      ∧ builtin_getCa sm c' mesh name = Ok keyPair
  | _ => c' = c ∨
      holds_secret c' (certSecretResKey mesh name) (CertPEM keyPair)
      ∧ abs c !! secret_key (certSecretResKey mesh name) = None
      ∧ ∀ k, k ≠ secret_key (certSecretResKey mesh name) → abs c' !! k = abs c !! k
  end.
Proof.
  intros Hc Hroot. unfold builtin_create. rewrite Hroot. set (ck := certSecretResKey mesh name).
  set (kk := keySecretResKey mesh name).
  destruct (sm_Create sm now c _ [CreateBy ck]) as [e1 [c1 o1]] eqn:E1.
  apply secret_create in E1 as [Hc1 Q1]; [|done]. destruct e1 as [[]|err|]; [|subst; auto|subst; auto].
  destruct Q1 as (Hck & _ & _ & Hhold & Hf1).
  destruct (sm_Create sm now c1 _ [CreateBy kk]) as [e2 [c2 o2]] eqn:E2.
  apply secret_create in E2 as [Hc2 Q2]; [|done]. split; [done|].
  assert (secret_key ck ≠ secret_key kk) as Hne by apply secret_keys_ne.
  destruct e2 as [[]|err|]; [|subst c2; by right|subst c2; by right].
  destruct Q2 as (Hkk & _ & _ & Hhold2 & Hf2). split; [done|]. split; [by rewrite <- Hf1|].
  rewrite (getCa_holds c2 mesh name (CertPEM keyPair) (KeyPEM keyPair)); [by destruct keyPair| |exact Hhold2].
  eapply holds_frame; [exact Hc1|exact Hc2|by apply Hf2|exact Hhold].
Qed.

(** C18: The builtin certificate authority over the memory store.  When [Ensure]
    returns without an error the authority can be loaded, it is the one that was
    there before (and then nothing changed) or the new root, in which case
    neither of its secrets existed; from then on [Ensure] changes nothing, so a
    root is never replaced. *)
Theorem builtin_Ensure_memory now seed c mesh backend :
  rtc memory_step NewStore c →
  let (e, c') := builtin_Ensure sm now seed c mesh backend in
  rtc memory_step NewStore c' ∧
  (e = Ok () →
   ∃ keyPair, builtin_getCa sm c' mesh (ca_Name backend) = Ok keyPair
   ∧ ((builtin_getCa sm c mesh (ca_Name backend) = Ok keyPair ∧ c' = c)
      ∨ (newRootCa now seed mesh = Ok keyPair
         ∧ abs c !! secret_key (certSecretResKey mesh (ca_Name backend)) = None
         ∧ abs c !! secret_key (keySecretResKey mesh (ca_Name backend)) = None))
   ∧ builtin_GetRootCert sm c' mesh backend = Ok [CertPEM keyPair]
   ∧ ∀ now' seed', builtin_Ensure sm now' seed' c' mesh backend = (Ok (), c')).
Proof.
  intros Hc. unfold builtin_Ensure at 1. set (name := ca_Name backend).
  assert (∀ c1 keyPair, builtin_getCa sm c1 mesh name = Ok keyPair →
    builtin_GetRootCert sm c1 mesh backend = Ok [CertPEM keyPair]
    ∧ ∀ now' seed', builtin_Ensure sm now' seed' c1 mesh backend = (Ok (), c1)) as Hloaded.
  { intros c1 keyPair Hg. unfold builtin_GetRootCert, builtin_Ensure. fold name. by rewrite Hg. }
  destruct (builtin_getCa sm c mesh name) as [keyPair|err|] eqn:Eg.
  - split; [done|]. intros _. exists keyPair. split; [done|]. split; [by left|]. by apply Hloaded.
  - destruct (IsResourceNotFound err); [|by split].
    destruct (newRootCa now seed mesh) as [keyPair|e|] eqn:Er; cycle 1.
    { unfold builtin_create. by rewrite Er. } { unfold builtin_create. by rewrite Er. }
    pose proof (builtin_create_memory now seed c mesh name keyPair Hc Er) as Hcr.
    destruct (builtin_create sm now seed c mesh name) as [e c']. destruct Hcr as [Hc' Hcr].
    split; [done|]. intros He. destruct e as [[]|e|]; [|done|done]. destruct Hcr as (Q1 & Q2 & Hg).
    exists keyPair. split; [done|]. split; [by right|]. by apply Hloaded.
  - by split.
Qed.

(** A half-created authority: if only the certificate secret exists, every
    [Ensure] fails and leaves the store as it is; if only the key secret exists,
    an [Ensure] that could store the new certificate fails too, but leaves a
    certificate that does not belong to the key, which the next [Ensure]
    accepts. *)
Theorem builtin_Ensure_half now seed c mesh backend :
  rtc memory_step NewStore c →
  let name := ca_Name backend in
  let (e, c') := builtin_Ensure sm now seed c mesh backend in
  (is_Some (abs c !! secret_key (certSecretResKey mesh name)) →
   abs c !! secret_key (keySecretResKey mesh name) = None → e ≠ Ok () ∧ c' = c)
  ∧ ∀ key keyPair, abs c !! secret_key (certSecretResKey mesh name) = None →
      holds_secret c (keySecretResKey mesh name) key → newRootCa now seed mesh = Ok keyPair →
      e ≠ Ok () ∧ (c' ≠ c → builtin_getCa sm c' mesh name = Ok (mkKeyPair (CertPEM keyPair) key)
        ∧ ∀ now' seed', builtin_Ensure sm now' seed' c' mesh backend = (Ok (), c')).
Proof.
  intros Hc name. destruct (builtin_Ensure sm now seed c mesh backend) as [e c'] eqn:E.
  unfold builtin_Ensure in E. fold name in E. set (ck := certSecretResKey mesh name) in *.
  set (kk := keySecretResKey mesh name) in *. split.
  - intros [rec Hck] Hkk. destruct (read_missing c kk Hc Hkk) as (err & o & Hr & Hnf).
    assert (∀ keyPair, builtin_getCa sm c mesh name ≠ Ok keyPair) as Hno.
    { intros keyPair. unfold builtin_getCa. fold ck kk. unfold read_secret in Hr. rewrite Hr.
      destruct (sm_Get sm c (new_object KSecret) [GetBy ck]) as [[[]|e1|] o1]; simpl; discriminate. }
    destruct (builtin_getCa sm c mesh name) as [keyPair|err'|]; [by destruct (Hno keyPair)| |by injection E as <- <-].
    destruct (IsResourceNotFound err'); [|by injection E as <- <-].
    destruct (newRootCa now seed mesh) as [keyPair|e1|] eqn:Er; cycle 1.
    { unfold builtin_create in E. rewrite Er in E. by injection E as <- <-. }
    { unfold builtin_create in E. rewrite Er in E. by injection E as <- <-. }
    pose proof (builtin_create_memory now seed c mesh name keyPair Hc Er) as Hcr.
    destruct (builtin_create sm now seed c mesh name) as [e1 c1]. destruct Hcr as [_ Hcr].
    fold ck in Hcr. destruct e1 as [[]|e1|]; injection E as <- <-; rewrite Hck in Hcr; naive_solver.
  - intros key keyPair Hck Hkk Er. destruct (read_missing c ck Hc Hck) as (err & o & Hr & Hnf).
    assert (builtin_getCa sm c mesh name = Err err) as Hg
      by (unfold builtin_getCa; fold ck; unfold read_secret in Hr; by rewrite Hr).
    rewrite Hg, Hnf in E. pose proof (builtin_create_memory now seed c mesh name keyPair Hc Er) as Hcr.
    destruct (builtin_create sm now seed c mesh name) as [e1 c1]. destruct Hcr as [Hc1 Hcr]. fold ck kk in Hcr.
    assert (e1 ≠ Ok () ∧ c1 = c') as [He1 <-].
    { destruct e1 as [[]|e1|]; injection E as <- <-; [|done|done]. destruct Hcr as (_ & Hn & _).
      destruct (read_missing c kk Hc Hn) as (err2 & o2 & Hr2 & _). destruct Hkk as (o3 & Hr3 & _). congruence. }
    split; [by destruct e1; injection E as <-|]. intros Hne.
    assert (builtin_getCa sm c1 mesh name = Ok (mkKeyPair (CertPEM keyPair) key)) as Hnew.
    { destruct e1 as [[]|e1|]; [done| |]; (destruct Hcr as [?|(Hhold & _ & Hf)]; [done|]);
        (apply getCa_holds; [exact Hhold|]); (eapply holds_frame; [exact Hc|exact Hc1| |exact Hkk]);
        apply Hf; intros Heq; by apply (secret_keys_ne mesh name name). }
    split; [done|]. intros now' seed'. unfold builtin_Ensure. fold name. by rewrite Hnew.
Qed.
End Builtin.
End Memory.

(** ** Certificates *)

(** The text of a SPIFFE identity of a mesh, or of a service of it: a trust domain
    of the characters of the names of meshes and a path of those of tags. *)
Definition plain_id (id : string) : Prop :=
  ∃ domain path, domain ≠ "" ∧ nameMeshRegexp domain = true
    ∧ (path = "" ∨ ∃ p, path = "/" +:+ p ∧ tagValueCharacterSet p = true) ∧ id = "spiffe://" +:+ domain +:+ path.

(** Times are encoded in whole seconds. *)
Definition floor_second (t : Z) : Z := t - t mod Second.

(** What a certificate made from [template], and issued by [issuer], parses to: the
    basic constraints, and whether it is an authority with them, are encoded only
    when the template says that they are valid. *)
Definition parsed_certificate (template : Certificate) (issuer : string) : Certificate :=
  mkCertificate (crt_SerialNumber template) (crt_Subject template) issuer (crt_URIs template)
    (floor_second (crt_NotBefore template)) (floor_second (crt_NotAfter template))
    (crt_KeyUsage template) (crt_ExtKeyUsage template)
    (crt_BasicConstraintsValid template) (crt_BasicConstraintsValid template && crt_IsCA template).

(** The names are plain, and the key usage has the nine bits of the standard. *)
Definition plain_template (template : Certificate) : Prop :=
  Forall plain_id (crt_URIs template) ∧ 0 ≤ crt_KeyUsage template < 2 ^ 9.

(** What the libraries promise: a certificate that was created from a plain template
    parses, to what was encoded of the template; with the private key of its public
    key it makes a key pair; and normalising an identity leaves a plain one as it
    is. *)
Class LawfulX509 (Seed Key : Type) `{X509 Seed Key} : Prop := {
  parse_created : ∀ seed template parent pub signer der,
    plain_template template → CreateCertificate seed template parent pub signer = Ok der →
    ParseCertificate der = Ok (parsed_certificate template (crt_Subject parent));
  created_pair : ∀ seed template parent key signer der keyPair,
    plain_template template → CreateCertificate seed template parent key signer = Ok der →
    ToKeyPair key der = Ok keyPair → X509KeyPair (CertPEM keyPair) (KeyPEM keyPair) = Ok ([der], key);
  ParseID_plain : ∀ id trustDomain workload uri,
    plain_id id → spiffe_ParseID id trustDomain workload = Ok uri → uri = id;
}.

Lemma floor_second_bounds t : t - Second < floor_second t ≤ t.
Proof. unfold floor_second. pose proof (Z.mod_pos_bound t Second). unfold Second in *. lia. Qed.

Lemma spiffe_url_plain mesh path :
  mesh ≠ "" → nameMeshRegexp mesh = true → tagValueCharacterSet path = true →
  spiffe_url mesh path = "spiffe://" +:+ mesh +:+ (if String.eqb path "" then "" else "/" +:+ path)
  ∧ plain_id (spiffe_url mesh path).
Proof.
  intros Hne Hm Hp.
  assert (spiffe_url mesh path = "spiffe://" +:+ mesh +:+ (if String.eqb path "" then "" else "/" +:+ path)) as He.
  { unfold spiffe_url, URL_String, EscapedPath.
    cbn [url_Scheme url_Opaque url_User url_Host url_Path url_RawPath url_ForceQuery url_RawQuery url_Fragment].
    assert (escape mesh encodeHost = mesh) as ->.
    { apply escape_id. revert Hm. apply all_bytes_impl. bytewise. }
    assert (escape path encodePath = path) as ->.
    { apply escape_id. revert Hp. apply all_bytes_impl. bytewise. }
    apply String.eqb_neq in Hne. rewrite Hne.
    destruct path as [|c path]; [by cbn; rewrite !string_app_empty_r|].
    apply andb_true_iff in Hp as [Hc _].
    assert (String.eqb (String c path) "*" = false) as -> by (apply String.eqb_neq; intros [= -> _]; discriminate Hc).
    cbv iota. rewrite andb_false_r. cbn [negb andb].
    assert (has_prefix "/" (String c path) = false) as -> by (clear -Hc; by destruct c as [[] [] [] [] [] [] [] []]).
    cbn. by rewrite string_app_empty_r. }
  split; [exact He|]. exists mesh, (if String.eqb path "" then "" else "/" +:+ path).
  split; [done|]. split; [done|]. split; [|exact He].
  destruct (String.eqb path ""); [by left|right; by exists path].
Qed.

Section Certificates.
Context {Seed Key : Type} `{LawfulX509 Seed Key}.

(** A certificate a provided authority may have. *)
Definition ca_certificate (cert : Certificate) : Prop :=
  crt_Issuer cert = crt_Subject cert ∧ crt_IsCA cert = true
  ∧ has_usage cert KeyUsageCertSign = true ∧ has_usage cert KeyUsageDigitalSignature = false
  ∧ has_usage cert KeyUsageKeyAgreement = false ∧ has_usage cert KeyUsageKeyEncipherment = false.

Lemma ValidateCaCert_None keyPair :
  ValidateCaCert keyPair = Ok None ↔
  ∃ der key cert, X509KeyPair (CertPEM keyPair) (KeyPEM keyPair) = Ok ([der], key)
    ∧ ParseCertificate der = Ok cert ∧ ca_certificate cert.
Proof.
  unfold ValidateCaCert, validateCaCert, ca_certificate.
  destruct (X509KeyPair _ _) as [[[|der [|der' l]] key]|e|]; simpl; try (split; [done|by intros (? & ? & ? & ? & ?)]).
  destruct (ParseCertificate der) as [cert|e|] eqn:Ep; simpl;
    try (split; [done|intros (? & ? & ? & [= <- <-] & ? & ?); congruence]).
  assert (∀ v, Ok (OrNil v) = Ok None ↔ v = []) as -> by (intros v; rewrite <- OrNil_None; split; [by intros [= ?]|by intros ->]).
  rewrite !if_violation_nil by apply violation_ne. rewrite !negb_false_iff, String.eqb_eq.
  split; [intros; exists der, key, cert; tauto|].
  intros (der' & key' & cert' & Hk & Hp & Hc). injection Hk as <- <-. rewrite Ep in Hp. injection Hp as <-. tauto.
Qed.

(** A root, as it is parsed. *)
Definition root_certificate (now : Z) (mesh : string) : Certificate :=
  mkCertificate 0 (pkix_Name_String "Kuma" "Mesh" mesh) (pkix_Name_String "Kuma" "Mesh" mesh) ["spiffe://" +:+ mesh]
    (floor_second (now - DefaultAllowedClockSkew)) (floor_second (now + DefaultCACertValidityPeriod))
    (Z.lor KeyUsageCertSign KeyUsageCRLSign) [] true true.

Lemma newRootCa_parses now seed mesh root :
  mesh ≠ "" → nameMeshRegexp mesh = true → newRootCa now seed mesh = Ok root →
  ∃ der key, X509KeyPair (CertPEM root) (KeyPEM root) = Ok ([der], key)
    ∧ ParseCertificate der = Ok (root_certificate now mesh).
Proof.
  intros Hne Hm. unfold newRootCa, newCACert, caTemplate. intros (key & _ & Hr)%rbind_Ok.
  apply rbind_Ok in Hr as (der & Hder & Hpair). apply wrap_err_Ok, rbind_Ok in Hder as (template & Ht & Hder).
  apply rbind_Ok in Ht as (uri & Huri & [= <-]).
  destruct (spiffe_url_plain mesh "" Hne Hm eq_refl) as [He Hp].
  apply ParseID_plain in Huri as ->; [|exact Hp]. rewrite He in *. cbn in He, Hp.
  match type of Hder with CreateCertificate _ ?t _ _ _ = _ => assert (plain_template t) as Htp end.
  { split; [by constructor|]. cbn. split; [discriminate|reflexivity]. }
  exists der, key. split; [exact (created_pair _ _ _ _ _ _ _ Htp Hder Hpair)|].
  rewrite (parse_created _ _ _ _ _ _ Htp Hder). unfold parsed_certificate, root_certificate. cbn.
  by rewrite string_app_empty_r.
Qed.

Lemma NewWorkloadCert_parses now seed ca mesh service workload der key cert :
  mesh ≠ "" → nameMeshRegexp mesh = true → service ≠ "" → tagValueCharacterSet service = true →
  X509KeyPair (CertPEM ca) (KeyPEM ca) = Ok ([der], key) → ParseCertificate der = Ok cert →
  NewWorkloadCert now seed ca mesh service = Ok workload →
  ∃ der' key' serial, X509KeyPair (CertPEM workload) (KeyPEM workload) = Ok ([der'], key')
    ∧ NewSerialNumber seed = Ok serial
    ∧ ParseCertificate der' = Ok (mkCertificate serial "" (crt_Subject cert) ["spiffe://" +:+ mesh +:+ "/" +:+ service]
        (floor_second (now - DefaultAllowedClockSkew)) (floor_second (now + DefaultWorkloadCertValidityPeriod))
        (Z.lor (Z.lor KeyUsageKeyEncipherment KeyUsageKeyAgreement) KeyUsageDigitalSignature)
        ["ServerAuth"; "ClientAuth"] true false).
Proof.
  intros Hne Hm Hsne Hs Hload Hparse. unfold NewWorkloadCert, loadKeyPair. rewrite Hload. simpl. rewrite Hparse. simpl.
  intros (wkey & _ & Hw)%rbind_Ok. apply rbind_Ok in Hw as (wder & Hwder & Hwpair).
  apply wrap_err_Ok in Hwder. unfold newWorkloadCert, NewWorkloadTemplate in Hwder.
  apply rbind_Ok in Hwder as (serial & Hserial & Hwder). apply rbind_Ok in Hwder as (template & Ht & Hwder).
  apply rbind_Ok in Ht as (uri & Huri & [= <-]).
  destruct (spiffe_url_plain mesh service Hne Hm Hs) as [He Hp].
  apply ParseID_plain in Huri as ->; [|exact Hp]. rewrite He in Hwder, Hp.
  apply String.eqb_neq in Hsne. rewrite Hsne in Hwder, Hp.
  match type of Hwder with CreateCertificate _ ?t _ _ _ = _ => assert (plain_template t) as Htp end.
  { split; [by constructor|]. cbn. split; [discriminate|reflexivity]. }
  exists wder, wkey, serial. split; [exact (created_pair _ _ _ _ _ _ _ Htp Hwder Hwpair)|]. split; [exact Hserial|].
  rewrite (parse_created _ _ _ _ _ _ Htp Hwder). done.
Qed.

(** C19: The certificates the control plane issues, as everyone else parses them.
    For a mesh and a service with the names the validators allow: a root the builtin
    authority generates passes the checks of a provided authority, has the serial
    number 0, is valid at the time of its creation and names the mesh as its SPIFFE
    trust domain.  A workload certificate issued with it carries the root as its
    issuer, a fresh serial number and the SPIFFE identity of the service, serves as a
    server and as a client, is valid at that time and until 90 days later (to the
    second), and says that it is no certificate authority, so that it is refused as
    one. *)
Theorem issued_certificates now seed mesh root :
  mesh ≠ "" → nameMeshRegexp mesh = true → newRootCa now seed mesh = Ok root →
  ValidateCaCert root = Ok None
  ∧ ∃ der key cert, X509KeyPair (CertPEM root) (KeyPEM root) = Ok ([der], key)
    ∧ ParseCertificate der = Ok cert
    ∧ crt_SerialNumber cert = 0 ∧ crt_NotBefore cert < now < crt_NotAfter cert
    ∧ crt_URIs cert = ["spiffe://" +:+ mesh]
    ∧ ∀ now' seed' service workload,
        service ≠ "" → tagValueCharacterSet service = true →
        NewWorkloadCert now' seed' root mesh service = Ok workload →
        ValidateCaCert workload ≠ Ok None
        ∧ ∃ der' key' cert' serial, X509KeyPair (CertPEM workload) (KeyPEM workload) = Ok ([der'], key')
          ∧ ParseCertificate der' = Ok cert' ∧ crt_Issuer cert' = crt_Subject cert
          ∧ NewSerialNumber seed' = Ok serial ∧ crt_SerialNumber cert' = serial
          ∧ crt_URIs cert' = ["spiffe://" +:+ mesh +:+ "/" +:+ service]
          ∧ crt_ExtKeyUsage cert' = ["ServerAuth"; "ClientAuth"]
          ∧ crt_NotBefore cert' < now' < crt_NotAfter cert'
          ∧ now' + 90 * 24 * 3600 * 10 ^ 9 - 10 ^ 9 < crt_NotAfter cert' ≤ now' + 90 * 24 * 3600 * 10 ^ 9
          ∧ crt_BasicConstraintsValid cert' = true ∧ crt_IsCA cert' = false.
Proof.
  intros Hne Hm Hroot. destruct (newRootCa_parses _ _ _ _ Hne Hm Hroot) as (der & key & Hload & Hparse).
  split. { apply ValidateCaCert_None. exists der, key, (root_certificate now mesh). by repeat split. }
  exists der, key, (root_certificate now mesh). split; [exact Hload|]. split; [exact Hparse|].
  pose proof floor_second_bounds as Hfl. split; [done|]. split.
  { pose proof (Hfl (now - DefaultAllowedClockSkew)). pose proof (Hfl (now + DefaultCACertValidityPeriod)).
    cbn [root_certificate crt_NotBefore crt_NotAfter].
    unfold DefaultAllowedClockSkew, DefaultCACertValidityPeriod, Hour, Second in *. lia. }
  split; [done|]. intros now' seed' service workload Hsne Hs Hw.
  destruct (NewWorkloadCert_parses _ _ _ _ _ _ _ _ _ Hne Hm Hsne Hs Hload Hparse Hw) as (wder & wkey & serial & Hwl & Hser & Hwp).
  split.
  - rewrite ValidateCaCert_None. intros (d & k & cert & Hl & Hp & Hc). rewrite Hwl in Hl. injection Hl as <- <-.
    rewrite Hwp in Hp. injection Hp as <-. by destruct Hc as (_ & Hca & _).
  - eexists wder, wkey, _, serial. split; [exact Hwl|]. split; [exact Hwp|].
    pose proof (Hfl (now' - DefaultAllowedClockSkew)). pose proof (Hfl (now' + DefaultWorkloadCertValidityPeriod)).
    cbn [crt_Issuer crt_Subject root_certificate crt_SerialNumber crt_URIs crt_ExtKeyUsage crt_NotBefore crt_NotAfter
      crt_BasicConstraintsValid crt_IsCA].
    do 5 (split; [done|]).
    unfold DefaultAllowedClockSkew, DefaultWorkloadCertValidityPeriod, Hour, Second in *. repeat split; lia.
Qed.
End Certificates.

(** ** Concrete instances *)

(** A cipher that marks what it encrypted. *)
Definition mark_cipher : Cipher :=
  {| Encrypt := λ v, Ok ("#" +:+ v);
     Decrypt := λ v, match v with String _ rest => Ok rest | EmptyString => Err (Errorf "not encrypted" []) end |}.
Lemma mark_lawful : @LawfulCipher mark_cipher.
Proof. constructor. intros v e _ [= <-]. done. Qed.

Definition sample_secrets : SecretManager memoryStore :=
  @NewSecretManager _ (@NewSecretStore _ (@memory_ResourceStore sample_jsonpb)) mark_cipher.

Lemma secret_roundtrip_witness :
  let '(e, (c', o')) := sm_Create sample_secrets 5 NewStore (new_secret "v") [CreateBy (mkKey "default" "s")] in
  e = Ok () ∧ secret_value o' = "v" ∧ (∃ rec, records c' = [rec] ∧ rec_Spec rec = "#v")
  ∧ ∃ o, sm_Get sample_secrets c' (new_object KSecret) [GetBy (mkKey "default" "s")] = (Ok (), o) ∧ secret_value o = "v".
Proof.
  pose proof (@secret_roundtrip sample_jsonpb sample_jsonpb_lawful mark_cipher mark_lawful 5 NewStore "v"
    (mkKey "default" "s") (rtc_refl _ _)) as Hw.
  change (@NewSecretManager _ _ _) with sample_secrets in Hw.
  destruct (sm_Create sample_secrets 5 NewStore _ _) as [e [c' o']] eqn:E. vm_compute in E.
  injection E as <- <- <-. destruct Hw as (Hv & _ & Hg & _).
  split; [reflexivity|]. split; [exact Hv|]. split; [eexists; split; reflexivity|exact Hg].
Defined.

(** Libraries that know the root of one mesh and the certificate of one workload,
    at two times. *)
Definition root_template (now : Z) : Certificate :=
  mkCertificate 0 "CN=default" "" ["spiffe://default"] (now - DefaultAllowedClockSkew) (now + DefaultCACertValidityPeriod)
    96 [] true true.
Definition workload_template (now : Z) : Certificate :=
  mkCertificate 1 "" "" ["spiffe://default/web"] (now - DefaultAllowedClockSkew) (now + DefaultWorkloadCertValidityPeriod)
    21 ["ServerAuth"; "ClientAuth"] true false.
Definition half_second : Z := 500000000.
(** Names of certificates, their templates and issuers. *)
Definition known_certificates : list (string * (Certificate * string)) :=
  [("root", (root_template 0, "CN=default")); ("workload", (workload_template 0, "CN=default"));
   ("root+", (root_template half_second, "CN=default")); ("workload+", (workload_template half_second, "CN=default"))].
#[local] Instance sample_X509 : X509 unit unit :=
  {| GenerateKey := λ _, Ok ();
     NewSerialNumber := λ _, Ok 1;
     CreateCertificate := λ _ template parent _ _,
       match List.find (λ e, bool_decide (e.2 = (template, crt_Subject parent))) known_certificates with
       | Some e => Ok e.1
       | None => Err (Errorf "unknown template" [])
       end;
     ParseCertificate := λ der,
       match List.find (λ e, String.eqb e.1 der) known_certificates with
       | Some e => Ok (parsed_certificate e.2.1 e.2.2)
       | None => Err (Errorf "unknown certificate" [])
       end;
     MarshalPKCS1PrivateKey := λ _, "key";
     pem_Encode := λ _ bytes, Ok bytes;
     X509KeyPair := λ cert _, Ok ([cert], ());
     spiffe_ParseID := λ uri _ _, Ok uri;
     pkix_Name_String := λ _ _ cn, "CN=" +:+ cn |}.

Lemma sample_X509_lawful : LawfulX509 unit unit.
Proof.
  constructor.
  - intros [] template parent [] [] der _. cbn [CreateCertificate ParseCertificate sample_X509].
    destruct (List.find _ known_certificates) as [e|] eqn:E; [|discriminate]. intros [= <-].
    apply find_some in E as [Hin He%bool_decide_eq_true_1].
    assert (List.find (λ e', String.eqb e'.1 e.1) known_certificates = Some e) as ->.
    { repeat (destruct Hin as [<-|Hin]; [reflexivity|]). destruct Hin. }
    by rewrite He.
  - intros [] template parent [] [] der keyPair _ _. by intros [= <-].
  - intros id trustDomain workload uri _. by intros [= <-].
Qed.

Lemma issued_certificates_witness :
  ValidateCaCert (mkKeyPair "root+" "key") = Ok None
  ∧ ValidateCaCert (mkKeyPair "workload+" "key") ≠ Ok None.
Proof.
  destruct (@issued_certificates unit unit sample_X509 sample_X509_lawful half_second () "default" (mkKeyPair "root+" "key"))
    as (Hv & der & key & cert & _ & _ & _ & _ & _ & Hw); [discriminate|reflexivity|vm_compute; reflexivity|].
  split; [exact Hv|].
  destruct (Hw half_second () "web" (mkKeyPair "workload+" "key")) as [Hn _]; [discriminate|reflexivity|vm_compute; reflexivity|].
  exact Hn.
Defined.

Definition sample_backend : CertificateAuthorityBackend := mkCaBackend "ca-1" "builtin" None.

Lemma builtin_Ensure_memory_witness :
  let (e, c') := builtin_Ensure sample_secrets 0 () NewStore "default" sample_backend in
  e = Ok () ∧ length (records c') = 2%nat
  ∧ builtin_GetRootCert sample_secrets c' "default" sample_backend = Ok ["root"].
Proof.
  pose proof (@builtin_Ensure_memory sample_jsonpb sample_jsonpb_lawful mark_cipher mark_lawful unit unit sample_X509
    0 () NewStore "default" sample_backend (rtc_refl _ _)) as Hw.
  change (@NewSecretManager _ _ _) with sample_secrets in Hw.
  destruct (builtin_Ensure sample_secrets 0 () NewStore "default" sample_backend) as [e c'] eqn:E.
  destruct Hw as [_ Hw].
  assert (e = Ok () ∧ length (records c') = 2%nat) as [He Hl] by (vm_compute in E; by injection E as <- <-).
  split; [exact He|]. split; [exact Hl|]. destruct (Hw He) as (keyPair & Hg & Hor & Hr & _). rewrite Hr.
  destruct Hor as [[Hold _]|[Hnew _]]; [vm_compute in Hold; discriminate Hold|].
  vm_compute in Hnew. by injection Hnew as <-.
Defined.

(** A store where only the key secret exists. *)
Definition half_ca : memoryStore := Eval vm_compute in
  (sm_Create sample_secrets 0 NewStore (new_secret "old key") [CreateBy (keySecretResKey "default" "ca-1")]).2.1.

Lemma builtin_Ensure_half_witness :
  let (e, c') := builtin_Ensure sample_secrets 0 () half_ca "default" sample_backend in
  e ≠ Ok () ∧ builtin_getCa sample_secrets c' "default" "ca-1" = Ok (mkKeyPair "root" "old key").
Proof.
  assert (rtc (@memory_step sample_jsonpb) NewStore half_ca) as Hr.
  { apply rtc_once. apply (@step_Create sample_jsonpb NewStore (new_secret "#old key")
      [CreateBy (keySecretResKey "default" "ca-1"); CreatedAt 0]). }
  pose proof (@builtin_Ensure_half sample_jsonpb sample_jsonpb_lawful mark_cipher mark_lawful unit unit sample_X509
    0 () half_ca "default" sample_backend Hr) as Hw.
  change (@NewSecretManager _ _ _) with sample_secrets in Hw.
  destruct (builtin_Ensure sample_secrets 0 () half_ca "default" sample_backend) as [e c'] eqn:E.
  destruct Hw as [_ Hw]. destruct (Hw "old key" (mkKeyPair "root" "key")) as [He Hn];
    [vm_compute; reflexivity|eexists; split; vm_compute; reflexivity|vm_compute; reflexivity|].
  split; [exact He|]. apply Hn. intros ->. vm_compute in E. discriminate E.
Defined.
