(* ===== verification/MeshManager.v ===== *)
(** * The manager of meshes

    Models [pkg/core/managers/apis/mesh] (the mesh manager, its validator and
    helpers) and the assembly of the resource managers in
    [initializeResourceManager] of [pkg/core/bootstrap/bootstrap.go].  The
    customizable manager and the mesh manager refer to each other; the cycle is
    unfolded to a given depth. *)

From S2P Require Import Prelude Effects GoStd Tags Dataplane Policy MeshResources Validators MeshValidator.
From S2P Require Import Insights Resources Store MemoryStore Manager Secrets.
Local Open Scope Z_scope.

(** A mesh and its metadata, possibly nil. *)
Definition mesh_resource (o : Object) (m : Mesh) : MeshResource :=
  mkResource (default nilMeta (observe <$> o_Meta o)) m.

(** The type of a list is that of its items with [List] added. *)
Definition invalid_type (suffix : string) (k : Kind) : goerror :=
  Errorf "invalid resource type: expected=%T, got=%T"
    [AStr (@kind_GoType _ (kind_instance KMesh) +:+ suffix); AStr (@kind_GoType _ (kind_instance k) +:+ suffix)].

(** [meshManager.mesh] and [meshManager.meshes]. *)
Definition mesh_of_object (o : Object) : res Mesh :=
  match o_Spec o with MeshSpec m => Ok m | _ => Err (invalid_type "" (o_Kind o)) end.
Definition meshes_of_list (l : ObjectList) : res unit :=
  match ol_Kind l with KMesh => Ok () | k => Err (invalid_type "List" k) end.

Section MeshManager.
Context {St Seed : Type} `{ResourceStore St}.
Context (ptypes_Duration : Duration → option Z) (ResourceFromYaml_error : string → option string).
Context (secretManager : SecretManager St) (caManagers : gmap string (CaManager Seed St)).
Context (registry : typeRegistry) (seed : Seed).

(** ** mesh_validator.go *)

(** The loop over the backends of [validateMTLSBackends]. *)
Fixpoint backends_violations (s : St) (name : string) (path : PathBuilder) (idx : nat)
    (backends : list CertificateAuthorityBackend) (verr : ValidationError) : res (option ValidationError) :=
  match backends with
  | [] => Ok (OrNil verr)
  | backend :: rest =>
      match caManagers !! ca_Type backend with
      | None =>
          Ok (OrNil (AddViolationAt verr (Path_Field (Path_Index path idx) "type")
                       "could not find installed plugin for this type"))
      | Some caManager =>
          let? configErr := ca_ValidateBackend caManager s name backend in
          backends_violations s name path (S idx) rest
            (match configErr with
             | Some v => AddErrorAt verr (Path_Field (Path_Index path idx) "config") v
             | None => verr
             end)
      end
  end.

Definition validateMTLSBackends (s : St) (name : string) (resource : MeshResource) : res (option ValidationError) :=
  backends_violations s name (Path_Field (RootedAt "mtls") "backends") 0
    (default [] (mtls_Backends <$> mesh_Mtls (r_Spec resource))) [].

Definition ValidateCreate (s : St) (name : string) (resource : MeshResource) : res (option ValidationError) :=
  validateMTLSBackends s name resource.

Definition enabled_backend (m : MeshResource) : string :=
  default "" (mtls_EnabledBackend <$> mesh_Mtls (r_Spec m)).

Definition validateMTLSBackendChange (previousMesh newMesh : MeshResource) : option ValidationError :=
  OrNil (if MTLSEnabled (Some previousMesh) && MTLSEnabled (Some newMesh)
            && negb (String.eqb (enabled_backend previousMesh) (enabled_backend newMesh))
         then AddViolation [] "mtls.enabledBackend"
                "Changing CA when mTLS is enabled is forbidden. Disable mTLS first and then change the CA"
         else []).

Definition ValidateUpdate (s : St) (previousMesh newMesh : MeshResource) : res (option ValidationError) :=
  match validateMTLSBackendChange previousMesh newMesh with
  | Some verr => Ok (Some verr)
  | None => validateMTLSBackends s (GetName (r_Meta newMesh)) newMesh
  end.

(** ** mesh_helpers.go *)

Definition EnsureEnabledCA (now : Z) (s : St) (mesh : MeshResource) (meshName : string) : res unit * St :=
  match GetEnabledCertificateAuthorityBackend mesh with
  | None => (Ok (), s)
  | Some backend =>
      match caManagers !! ca_Type backend with
      | None => (Err (Errorf "CA manager for type %s does not exist" [AStr (ca_Type backend)]), s)
      | Some caManager =>
          let (err, s') := ca_Ensure caManager now seed s meshName backend in
          (match err with
           | Err e => Err (Wrapf e "could not create CA of backend name %s" [AStr (ca_Name backend)])
           | err => err
           end, s')
      end
  end.

(** ** mesh_manager.go *)

(** A validation that must not report violations. *)
Definition no_violations (r : res (option ValidationError)) : res unit :=
  let? verr := r in
  match verr with Some v => Err (validationFailed v) | None => Ok () end.

Definition mesh_Get (s : St) (r : Object) (fs : list GetOptionsFunc) : res unit * (St * Object) :=
  match mesh_of_object r with
  | Ok _ => let (err, r') := store_Get s r fs in (err, (s, r'))
  | Err e => (Err e, (s, r))
  | Panic => (Panic, (s, r))
  end.

Definition mesh_List (s : St) (l : ObjectList) (fs : list ListOptionsFunc) : res unit * (St * ObjectList) :=
  match meshes_of_list l with
  | Ok _ => let (err, l') := store_List s l fs in (err, (s, l'))
  | Err e => (Err e, (s, l))
  | Panic => (Panic, (s, l))
  end.

Definition mesh_Create (now : Z) (s : St) (r : Object) (fs : list CreateOptionsFunc) : res unit * (St * Object) :=
  let opts := NewCreateOptions fs in
  match mesh_of_object r with
  | Ok m0 =>
      let m := Mesh_Default m0 in
      let r1 := mkObject (o_Meta r) (MeshSpec m) in
      match (let? _ := no_violations (Validate ptypes_Duration ResourceFromYaml_error r1) in
             no_violations (ValidateCreate s (co_Name opts) (mesh_resource r1 m))) with
      | Ok _ =>
          let (err, s1) := EnsureEnabledCA now s (mesh_resource r1 m) (co_Name opts) in
          match err with
          | Ok _ => store_Create s1 r1 (fs ++ [CreatedAt now])
          | _ => (err, (s1, r1))
          end
      | err => (err, (s, r1))
      end
  | Err e => (Err e, (s, r))
  | Panic => (Panic, (s, r))
  end.

Definition mesh_Update (now : Z) (s : St) (r : Object) (fs : list UpdateOptionsFunc) : res unit * (St * Object) :=
  match mesh_of_object r with
  | Ok m0 =>
      let m := Mesh_Default m0 in
      let r1 := mkObject (o_Meta r) (MeshSpec m) in
      match no_violations (Validate ptypes_Duration ResourceFromYaml_error r1) with
      | Ok _ =>
          match o_Meta r with
          | None => (Panic, (s, r1))
          | Some meta =>
              let '(err, (_, current)) :=
                mesh_Get s (new_object KMesh) [GetBy (MetaToResourceKey (Some (observe meta)));
                                               GetByVersion (GetVersion (observe meta))] in
              match (let? _ := err in
                     let? currentMesh := mesh_of_object current in
                     no_violations (ValidateUpdate s (mesh_resource current currentMesh) (mesh_resource r1 m))) with
              | Ok _ =>
                  let (err, s1) := EnsureEnabledCA now s (mesh_resource r1 m) (GetName (observe meta)) in
                  match err with
                  | Ok _ => store_Update s1 r1 (fs ++ [ModifiedAt now])
                  | _ => (err, (s1, r1))
                  end
              | err => (err, (s, r1))
              end
          end
      | err => (err, (s, r1))
      end
  | Err e => (Err e, (s, r))
  | Panic => (Panic, (s, r))
  end.

Section Delete.
Context (otherManagers : ResourceManager St).

(** The loop over the types of the registry. *)
Fixpoint delete_types (s : St) (types : list string) (name : string) : res unit * St :=
  match types with
  | [] => (Ok (), s)
  | typ :: rest =>
      match NewList registry typ with
      | Ok l =>
          let '(err, (s', _)) := mgr_DeleteAll otherManagers s l [DeleteAllByMesh name] in
          match err with
          | Ok _ => delete_types s' rest name
          | Err e => (Err (Wrapf e "could not delete associated resources" []), s')
          | Panic => (Panic, s')
          end
      | Err e => (Err e, s)
      | Panic => (Panic, s)
      end
  end.

Definition mesh_Delete (s : St) (r : Object) (fs : list DeleteOptionsFunc) : res unit * St :=
  match mesh_of_object r with
  | Ok _ =>
      let (err, s1) := store_Delete s r fs in
      match (match err with
             | Ok _ => Ok None
             | Err e => if IsResourceNotFound e then Ok (Some e) else Err e
             | Panic => Panic
             end) with
      | Ok notFoundErr =>
          let opts := NewDeleteOptions fs in
          let (err, s2) := sm_DeleteAll secretManager s1 [DeleteAllByMesh (do_Mesh opts)] in
          match err with
          | Ok _ =>
              let (err, s3) := delete_types s2 (ListTypes registry) (do_Name opts) in
              (let? _ := err in match notFoundErr with Some e => Err e | None => Ok () end, s3)
          | Err e => (Err (Wrapf e "could not delete associated secrets" []), s2)
          | Panic => (Panic, s2)
          end
      | Err e => (Err e, s1)
      | Panic => (Panic, s1)
      end
  | Err e => (Err e, s)
  | Panic => (Panic, s)
  end.

Definition mesh_DeleteAll (s : St) (l : ObjectList) (fs : list DeleteAllOptionsFunc) : res unit * (St * ObjectList) :=
  match meshes_of_list l with
  | Ok _ => DeleteAllResources mesh_List mesh_Delete s l fs
  | Err e => (Err e, (s, l))
  | Panic => (Panic, (s, l))
  end.

Definition NewMeshManager : ResourceManager St :=
  {| read_only := mkReadOnlyManager mesh_Get mesh_List;
     mgr_Create := mesh_Create;
     mgr_Update := mesh_Update;
     mgr_Delete := mesh_Delete;
     mgr_DeleteAll := mesh_DeleteAll |}.
End Delete.

(** ** bootstrap.go *)

(** A manager that must not be called: the end of the unfolding. *)
Definition out_of_depth : ResourceManager St :=
  {| read_only := mkReadOnlyManager (λ s r _, (Panic, (s, r))) (λ s l _, (Panic, (s, l)));
     mgr_Create := λ _ s r _, (Panic, (s, r));
     mgr_Update := λ _ s r _, (Panic, (s, r));
     mgr_Delete := λ s _ _, (Panic, s);
     mgr_DeleteAll := λ s l _, (Panic, (s, l)) |}.

(** [initializeResourceManager]: the customizable manager, whose manager of
    meshes is the mesh manager over the customizable manager. *)
Fixpoint customizableManager (depth : nat) : ResourceManager St :=
  NewCustomizableResourceManager (NewResourceManager ptypes_Duration ResourceFromYaml_error)
    {[ MeshType := match depth with
                   | O => out_of_depth
                   | S d => NewMeshManager (customizableManager d)
                   end ]}.

(** [CreateDefaultMesh]. *)
Definition CreateDefaultMesh (resManager : ResourceManager St) (now : Z) (s : St) (template : Mesh) : res unit * St :=
  let key := mkKey "default" "default" in
  let '(err, (s1, defaultMesh)) := mgr_Get (read_only resManager) s (new_object KMesh) [GetBy key] in
  match err with
  | Ok _ => (Ok (), s1)
  | Err e =>
      if IsResourceNotFound e then
        let '(err', (s2, _)) :=
          mgr_Create resManager now s1 (mkObject (o_Meta defaultMesh) (MeshSpec template)) [CreateBy key] in
        (match err' with
         | Err e' => Err (Wrapf e' "Failed to create `default` Mesh resource in a given resource store" [])
         | err' => err'
         end, s2)
      else (Err e, s1)
  | Panic => (Panic, s1)
  end.
End MeshManager.

(** ** What the validator of meshes accepts *)

Section Accepted.
Context {St Seed : Type} (caManagers : gmap string (CaManager Seed St)) (s : St).

(** A manager is installed for the type of the backend, and accepts it. *)
Definition backend_accepted (name : string) (b : CertificateAuthorityBackend) : Prop :=
  ∃ ca v, caManagers !! ca_Type b = Some ca ∧ ca_ValidateBackend ca s name b = Ok v ∧ default [] v = [].

Lemma backends_violations_None name path idx backends verr :
  backends_violations caManagers s name path idx backends verr = Ok None
  ↔ verr = [] ∧ Forall (backend_accepted name) backends.
Proof.
  revert idx verr; induction backends as [|b backends IH]; intros idx verr; simpl.
  { split; [intros [= Hn%OrNil_None]; by split|]. by intros [-> _]. }
  rewrite Forall_cons. unfold backend_accepted at 1. destruct (caManagers !! ca_Type b) as [ca|]; cycle 1.
  { split; [intros [= Hn%OrNil_None]; by apply AddViolationAt_nil in Hn|]. by intros [_ [(? & ? & ? & _) _]]. }
  destruct (ca_ValidateBackend ca s name b) as [v|e|] eqn:Ev; simpl;
    [|by split; [|intros [_ [(? & ? & [= <-] & Hv & _) _]]; congruence]..].
  rewrite IH. split.
  - intros [Hn Hall]. destruct v as [v|].
    + apply AddError_nil in Hn as [-> ->]. split; [done|]. split; [|done]. by exists ca, (Some []).
    + split; [done|]. split; [|done]. by exists ca, None.
  - intros [-> [(? & v' & [= <-] & Hv & Hd) Hall]]. rewrite Ev in Hv. injection Hv as <-. split; [|done].
    destruct v as [v|]; [|done]. simpl in Hd. by subst v.
Qed.

Lemma ValidateCreate_None name mesh :
  ValidateCreate caManagers s name mesh = Ok None
  ↔ Forall (backend_accepted name) (default [] (mtls_Backends <$> mesh_Mtls (r_Spec mesh))).
Proof. unfold ValidateCreate, validateMTLSBackends. rewrite backends_violations_None. by split; [intros [_ ?]|]. Qed.

(** While mTLS stays enabled its backend stays the same. *)
Lemma ValidateUpdate_None previous mesh :
  ValidateUpdate caManagers s previous mesh = Ok None
  ↔ (MTLSEnabled (Some previous) = true → MTLSEnabled (Some mesh) = true → enabled_backend previous = enabled_backend mesh)
    ∧ Forall (backend_accepted (GetName (r_Meta mesh))) (default [] (mtls_Backends <$> mesh_Mtls (r_Spec mesh))).
Proof.
  unfold ValidateUpdate, validateMTLSBackendChange.
  destruct (MTLSEnabled (Some previous)), (MTLSEnabled (Some mesh)); cbn [andb];
    try (change (OrNil []) with (@None ValidationError); cbv iota; fold (ValidateCreate caManagers s);
         change (validateMTLSBackends caManagers s) with (ValidateCreate caManagers s);
         rewrite ValidateCreate_None; by split; [intros ?; split|intros [_ ?]]).
  destruct (String.eqb_spec (enabled_backend previous) (enabled_backend mesh)) as [He|He]; cbn [negb].
  - change (OrNil []) with (@None ValidationError). cbv iota.
    change (validateMTLSBackends caManagers s) with (ValidateCreate caManagers s).
    rewrite ValidateCreate_None. by split; [intros ?; split|intros [_ ?]].
  - split; [by intros [=]|]. intros [Heq _]. by destruct (He (Heq eq_refl eq_refl)).
Qed.
End Accepted.

(** ** Over the memory store *)

Section Memory.
Context `{LawfulJsonpb} `{LawfulCipher} {Seed : Type}.
Context (ptypes_Duration : Duration → option Z) (ResourceFromYaml_error : string → option string).
Context (caManagers : gmap string (CaManager Seed memoryStore)) (registry : typeRegistry) (seed : Seed).
Let secretManager : SecretManager memoryStore := NewSecretManager NewSecretStore.
Let manager (depth : nat) : ResourceManager memoryStore :=
  customizableManager ptypes_Duration ResourceFromYaml_error secretManager caManagers registry seed depth.

(** [c'] is [c] without the records that satisfy [gone]. *)
Definition without (gone : memoryStoreRecord → Prop) (c c' : memoryStore) : Prop :=
  ∀ key r, abs c' !! key = Some r ↔ abs c !! key = Some r ∧ ¬ gone r.

Lemma without_trans P Q c c1 c2 : without P c c1 → without Q c1 c2 → without (λ r, P r ∨ Q r) c c2.
Proof. intros H1' H2' key r. rewrite (H2' key r), (H1' key r). tauto. Qed.

Lemma without_iff P Q c c' : (∀ r, P r ↔ Q r) → without P c c' → without Q c c'.
Proof. intros HPQ Hw key r. rewrite (Hw key r), HPQ. done. Qed.

Definition good (c : memoryStore) : Prop := rtc memory_step NewStore c ∧ small_store c.

Lemma secret_DeleteAll_memory c mesh :
  good c → ∃ c', sm_DeleteAll secretManager c [DeleteAllByMesh mesh] = (Ok (), c') ∧ good c'
    ∧ without (λ r, rec_ResourceType r = type_name KSecret ∧ (mesh = "" ∨ rec_Mesh r = mesh)) c c'.
Proof.
  intros [Hc Hs]. destruct (DeleteAllResources_memory ResourceFromYaml_error c KSecret mesh Hc Hs) as (c' & l & Hd & Hw & _ & Hg).
  exists c'. split; [|done]. revert Hd. unfold DeleteAllResources, manager_List. simpl.
  unfold secret_DeleteAll. simpl. destruct (memory_List c _ _) as [[[]|e|] l1]; [|done|done].
  change (DeleteAll_loop (secret_Delete NewSecretStore) c (GetItems l1))
    with (DeleteAll_loop manager_Delete c (GetItems l1)).
  destruct (DeleteAll_loop manager_Delete c (GetItems l1)) as [e c2]. by intros [= -> -> <-].
Qed.

Lemma registered_list ks :
  ks ≡ₚ registered_kinds → rfoldl init_kind NewTypeRegistry ks = Ok registry →
  (∀ t, t ∈ ListTypes registry ↔ ∃ k, k ∈ registered_kinds ∧ t = type_name k)
  ∧ ∀ k, k ∈ registered_kinds → NewList registry (type_name k) = Ok (new_list k).
Proof.
  intros Hks Hreg. destruct (init_kinds_spec ks NewTypeRegistry) as (reg & Hr & Hl).
  { rewrite Hks. repeat (constructor; [set_solver|]). constructor. }
  { done. }
  rewrite Hreg in Hr. injection Hr as <-.
  assert (∀ k, k ∈ registered_kinds → objectListTypes registry !! type_name k = Some k) as Hin.
  { intros k Hk. destruct (Hl (type_name k)) as [_ ->]. rewrite <- Hks, list_elem_of_In in Hk.
    destruct (List.find _ ks) as [k'|] eqn:E.
    - apply List.find_some in E as [_ ->%String.eqb_eq%type_name_inj]. done.
    - pose proof (List.find_none _ _ E k Hk) as Hx. simpl in Hx. by rewrite String.eqb_refl in Hx. }
  split; [|intros k Hk; unfold NewList; by rewrite (Hin k Hk)].
  intros t. unfold ListTypes. rewrite list_elem_of_fmap. split.
  - intros ([t' k] & -> & Ht%elem_of_map_to_list). simpl. destruct (Hl t') as [_ Ht']. rewrite Ht' in Ht.
    destruct (List.find _ ks) as [k'|] eqn:E; [|by simpl in Ht].
    apply List.find_some in E as [Hk Heq%String.eqb_eq]. exists k'.
    split; [by rewrite <- Hks, list_elem_of_In|done].
  - intros (k & Hk & ->). exists (type_name k, k). split; [done|]. apply elem_of_map_to_list. by apply Hin.
Qed.

Lemma manager_mesh_Delete d c fs :
  mgr_Delete (manager (S d)) c (new_object KMesh) fs
  = mesh_Delete secretManager registry (manager d) c (new_object KMesh) fs.
Proof.
  unfold manager. cbn [customizableManager mgr_Delete NewCustomizableResourceManager].
  unfold resourceManager. by rewrite lookup_singleton_eq.
Qed.

(** The loop over the types, once the mesh itself is gone. *)
Lemma delete_types_memory d types name c :
  name ≠ "" → good c → (∀ r, r ∈ records c → ¬ (rec_ResourceType r = MeshType ∧ rec_Mesh r = name)) →
  Forall (λ t, ∃ k, t = type_name k ∧ NewList registry t = Ok (new_list k)) types →
  ∃ c', delete_types registry (manager (S d)) c types name = (Ok (), c') ∧ good c'
    ∧ without (λ r, rec_ResourceType r ∈ types ∧ rec_Mesh r = name) c c'.
Proof.
  intros Hne Hg Hmesh Hty. revert c Hg Hmesh. induction Hty as [|t types (k & -> & Hnew) _ IH]; intros c Hg Hmesh.
  { exists c. split; [done|]. split; [done|]. intros key r. set_solver. }
  cbn [delete_types]. rewrite Hnew.
  assert (∃ c1 l, mgr_DeleteAll (manager (S d)) c (new_list k) [DeleteAllByMesh name] = (Ok (), (c1, l)) ∧ good c1
    ∧ without (λ r, rec_ResourceType r = type_name k ∧ rec_Mesh r = name) c c1) as (c1 & l & -> & Hg1 & Hw1).
  { destruct (decide (k = KMesh)) as [->|Hk].
    - exists c. destruct Hg as [Hc Hs]. pose proof (findRecords_length c (type_name KMesh) name) as Hlen.
      unfold small_store in Hs.
      assert (findRecords c (type_name KMesh) name = []) as Hf.
      { destruct (findRecords c (type_name KMesh) name) as [|r l0] eqn:E; [done|].
        assert (r ∈ findRecords c (type_name KMesh) name) as Hin by (rewrite E; constructor).
        apply elem_of_findRecords in Hin as (Hin & Ht & [?|Hm]); [done|]. by destruct (Hmesh r Hin). }
      eexists. split; [|split; [done|]].
      + unfold manager. simpl. unfold resourceManager. rewrite lookup_singleton_eq. simpl.
        unfold mesh_DeleteAll. simpl. unfold DeleteAllResources, mesh_List. simpl.
        rewrite memory_List_all by (lia || by apply reachable_ok). rewrite Hf. done.
      + intros key r. split; [|tauto]. intros Hr. split; [done|]. intros [Ht Hm].
        apply abs_lookup in Hr as [Hin _]; [|by apply reachable_unique]. by destruct (Hmesh r Hin).
    - destruct Hg as [Hc Hs]. destruct (DeleteAllResources_memory ResourceFromYaml_error c k name Hc Hs) as (c1 & l & Hd & Hw & _ & Hg1).
      exists c1, l. split; [|split; [done|]].
      + unfold manager. simpl. unfold resourceManager.
        rewrite lookup_singleton_ne; [exact Hd|]. intros Heq. apply Hk. symmetry. by apply type_name_inj.
      + eapply without_iff; [|exact Hw]. intros r. naive_solver. }
  destruct (IH c1 Hg1) as (c2 & Hd2 & Hg2 & Hw2).
  { intros r Hin. destruct Hg as [Hc _], Hg1 as [Hc1 _].
    assert (abs c1 !! rkey r = Some r) as Hr by (apply abs_lookup; [by apply reachable_unique|done]).
    apply Hw1 in Hr as [Hr _]. apply abs_lookup in Hr as [Hin' _]; [by apply Hmesh|by apply reachable_unique]. }
  exists c2. split; [done|]. split; [done|]. eapply without_iff; [|by eapply without_trans].
  intros r. simpl. set_solver.
Qed.

(** Meshes are stored under their own name. *)
Definition mesh_keys (c : memoryStore) : Prop :=
  ∀ r, r ∈ records c → rec_ResourceType r = MeshType → rec_Name r = rec_Mesh r.

(** Deleting the record of the mesh. *)
Lemma delete_mesh_memory c name :
  good c → mesh_keys c →
  let (e, c') := store_Delete c (new_object KMesh) [DeleteByKey name name] in
  e = (if decide (is_Some (abs c !! (MeshType, name, name))) then Ok ()
       else Err (ErrorResourceNotFound MeshType name name))
  ∧ good c' ∧ without (λ r, rec_ResourceType r = MeshType ∧ rec_Mesh r = name) c c'.
Proof.
  intros [Hc Hs] Hk. cbn [store_Delete memory_ResourceStore].
  pose proof (reachable_unique c Hc) as Hu.
  pose proof (Delete_refines c (new_object KMesh) [DeleteByKey name name] Hu) as Hr.
  pose proof (step_Delete c (new_object KMesh) [DeleteByKey name name]) as Hst.
  pose proof (memory_Delete_length c (new_object KMesh) [DeleteByKey name name]) as Hlen.
  destruct (memory_Delete c _ _) as [e c'] eqn:E. destruct Hr as [_ Hr]. simpl in Hst, Hlen.
  change (map_Delete (abs c) (new_object KMesh) [DeleteByKey name name]) with
    (match abs c !! (MeshType, name, name) with
     | None => (Err (ErrorResourceNotFound MeshType name name), abs c)
     | Some _ => (Ok (), delete (MeshType, name, name) (abs c))
     end) in Hr.
  assert (good c') as Hg by (split; [by eapply rtc_r|unfold small_store in *; lia]).
  assert (abs c' = delete (MeshType, name, name) (abs c)
    ∧ e = (if decide (is_Some (abs c !! (MeshType, name, name))) then Ok ()
           else Err (ErrorResourceNotFound MeshType name name))) as [Habs He].
  { destruct (abs c !! (MeshType, name, name)) eqn:El; injection Hr as <- <-; rewrite ?decide_True by done; [done|].
    split; [by rewrite delete_id|]. by rewrite decide_False by (by intros [? ?]). }
  split; [done|]. split; [done|]. intros key r. rewrite Habs, lookup_delete_Some, (abs_lookup c key r Hu).
  split.
  - intros [Hne [Hin Hkey]]. split; [done|]. intros [Ht Hm]. apply Hne. rewrite <- Hkey. unfold rkey.
    by rewrite Ht, Hm, (Hk r Hin Ht), Hm.
  - intros [[Hin Hkey] Hn]. split; [|done]. intros Heq. apply Hn. rewrite <- Heq in Hkey. by injection Hkey.
Qed.

(** Deleting a mesh through the resource manager of the control plane, over
    the memory store and whatever the order in which the resource types were
    registered: the call ends, and afterwards exactly the mesh, its secrets and
    the resources of every registered type in that mesh are gone, while every
    other record is as it was; it reports that the mesh was not found exactly
    when there was none, and removes what was left of it all the same. *)
Theorem mesh_Delete_memory ks d name c :
  ks ≡ₚ registered_kinds → rfoldl init_kind NewTypeRegistry ks = Ok registry →
  name ≠ "" → rtc memory_step NewStore c → small_store c → mesh_keys c →
  ∃ c', mgr_Delete (manager (S (S d))) c (new_object KMesh) [DeleteByKey name name]
      = (if decide (is_Some (abs c !! (MeshType, name, name))) then Ok ()
         else Err (ErrorResourceNotFound MeshType name name), c')
    ∧ (∀ key r, abs c' !! key = Some r ↔ abs c !! key = Some r
         ∧ ¬ (rec_Mesh r = name ∧ ∃ k, k ∈ registered_kinds ∧ rec_ResourceType r = type_name k))
    ∧ rtc memory_step NewStore c'.
Proof.
  intros Hks Hreg Hne Hc Hs Hk. rewrite manager_mesh_Delete. unfold mesh_Delete.
  pose proof (delete_mesh_memory c name (conj Hc Hs) Hk) as Hdel. cbn [mesh_of_object new_object o_Spec zero_spec].
  destruct (store_Delete c _ _) as [e c1]. destruct Hdel as (-> & Hg1 & Hw1).
  destruct (secret_DeleteAll_memory c1 name Hg1) as (c2 & Hd2 & Hg2 & Hw2).
  destruct (registered_list ks Hks Hreg) as [Hl Hnew].
  destruct (delete_types_memory d (ListTypes registry) name c2 Hne Hg2) as (c3 & Hd3 & [Hc3 _] & Hw3).
  { intros r Hin [Ht Hm]. destruct Hg2 as [Hc2%reachable_unique _].
    assert (abs c2 !! rkey r = Some r) as Hr by (by apply abs_lookup).
    apply Hw2 in Hr as [Hr _]. by apply Hw1 in Hr as [_ []]. }
  { apply Forall_forall. intros t Ht. apply Hl in Ht as (k & ? & ->). eauto. }
  change (do_Mesh (NewDeleteOptions [DeleteByKey name name])) with name.
  change (do_Name (NewDeleteOptions [DeleteByKey name name])) with name.
  exists c3. split; [|split; [|done]].
  - destruct (decide _); simpl IsResourceNotFound; cbv iota beta; rewrite Hd2, Hd3; done.
  - intros key r. rewrite (Hw3 key r), (Hw2 key r), (Hw1 key r), Hl. split.
    + intros [[[Ha _] _] Hty]. split; [done|]. intros [Hn (k & Hin & Ht)]. apply Hty. eauto.
    + intros [Ha Hn]. repeat split; [done| | |]; intros [Ht Hm]; apply Hn.
      * split; [done|]. exists KMesh. split; [constructor|done].
      * destruct Hm; [done|]. split; [done|]. exists KSecret. split; [|done]. unfold registered_kinds. set_solver.
      * destruct Ht as (k & ? & ?). eauto.
Qed.

(** *** Creating a mesh *)

Lemma manager_mesh_Create d now c m fs :
  mgr_Create (manager (S d)) now c (mkObject None (MeshSpec m)) fs
  = mesh_Create ptypes_Duration ResourceFromYaml_error caManagers seed now c (mkObject None (MeshSpec m)) fs.
Proof.
  unfold manager. cbn [customizableManager mgr_Create NewCustomizableResourceManager].
  unfold resourceManager. by rewrite lookup_singleton_eq.
Qed.

Lemma manager_mesh_Get d c fs :
  mgr_Get (read_only (manager (S d))) c (new_object KMesh) fs = mesh_Get c (new_object KMesh) fs.
Proof.
  unfold manager. cbn [customizableManager mgr_Get read_only NewCustomizableResourceManager].
  unfold resourceManager. by rewrite lookup_singleton_eq.
Qed.

Section Create.
Context {Key : Type} `{X509 Seed Key} (fmt_backend : CertificateAuthorityBackend → string).
Context (ReadFile : string → res string) (config_FromJSON : string → res ProvidedConfig).
Let builtin : CaManager Seed memoryStore := NewBuiltinCaManager secretManager fmt_backend.
Let provided : CaManager Seed memoryStore :=
  NewProvidedCaManager (Load secretManager ReadFile) config_FromJSON.

(** What a certificate authority reads of the store are secrets. *)
Definition same_secrets (c c' : memoryStore) : Prop :=
  ∀ key, abs c' !! secret_key key = abs c !! secret_key key.

Lemma GetRootCert_frame c c' mesh backend ca :
  rtc memory_step NewStore c → rtc memory_step NewStore c' → same_secrets c c' → ca = builtin ∨ ca = provided →
  ca_GetRootCert ca c' mesh backend = ca_GetRootCert ca c mesh backend.
Proof.
  intros Hc Hc' Hs Hca.
  assert (∀ key, sm_Get secretManager c' (new_object KSecret) [GetBy key]
    = sm_Get secretManager c (new_object KSecret) [GetBy key]) as Hr by (intros key; by apply read_abs).
  destruct Hca as [->| ->]; simpl.
  - unfold builtin_GetRootCert, builtin_getCa. by rewrite !Hr.
  - assert (∀ source, Load secretManager ReadFile c' mesh source = Load secretManager ReadFile c mesh source) as Hl.
    { intros source. unfold Load, loadSecret. destruct (DataSource_GetType source) as [[name|?|?]|]; [|done..].
      change (GetByKey name mesh) with (GetBy (mkKey mesh name)). by rewrite Hr. }
    unfold provided_GetRootCert, provided_getCa. destruct (wrap_err _ _); simpl; [|done|done]. by rewrite !Hl.
Qed.

(** Ensuring an authority that validated makes its root available. *)
Lemma Ensure_root now c c' name backend ca v :
  rtc memory_step NewStore c → ca = builtin ∨ ca = provided →
  ca_ValidateBackend ca c name backend = Ok v → default [] v = [] →
  ca_Ensure ca now seed c name backend = (Ok (), c') →
  rtc memory_step NewStore c' ∧ ∃ root, ca_GetRootCert ca c' name backend = Ok [root].
Proof.
  intros Hc [->| ->] Hv Hd; simpl.
  - unfold builtin_Ensure, builtin_GetRootCert. destruct (builtin_getCa _ c name _) as [pair|e|] eqn:Eg; [| |done].
    { intros [= <-]. split; [done|]. rewrite Eg. by eexists. }
    destruct (IsResourceNotFound e); [|done]. destruct (newRootCa now seed name) as [pair|e'|] eqn:Er; cycle 1.
    { unfold builtin_create. by rewrite Er. } { unfold builtin_create. by rewrite Er. }
    pose proof (builtin_create_memory now seed c name (ca_Name backend) pair Hc Er) as Hcr.
    unfold secretManager. destruct (builtin_create _ now seed c name _) as [[[]|e1|] c1]; [|done|done]. intros [= <-].
    destruct Hcr as (Hc1 & _ & _ & ->). split; [done|]. by eexists.
  - intros [= <-]. split; [done|]. simpl in Hv. unfold provided_ValidateBackend in Hv.
    assert (∀ w, OrNil w = v → w = []) as Hnil by (intros w <-; destruct w; [done|discriminate Hd]).
    unfold provided_GetRootCert. destruct (ToTyped config_FromJSON _) as [cfg|e|]; [| |done].
    + destruct (HasViolations _) eqn:Eh; [injection Hv as Hv%Hnil; by rewrite Hv in Eh|].
      destruct (provided_getCa _ _ c name backend) as [pair|e|]; [by eexists| |done].
      injection Hv as Hv%Hnil. by apply AddViolation_nil in Hv.
    + injection Hv as Hv%Hnil. by apply AddViolation_nil in Hv.
Qed.

(** The state after the authority of a valid mesh was ensured. *)
Lemma ensured now c c1 mesh name :
  caManagers = <["builtin" := builtin]> {["provided" := provided]} → rtc memory_step NewStore c →
  Mesh_Validate mesh = None → ValidateCreate caManagers c name mesh = Ok None →
  EnsureEnabledCA caManagers seed now c mesh name = (Ok (), c1) →
  rtc memory_step NewStore c1 ∧ (MTLSEnabled (Some mesh) = true →
    ∃ backend ca root, GetEnabledCertificateAuthorityBackend mesh = Some backend
       ∧ caManagers !! ca_Type backend = Some ca ∧ (ca = builtin ∨ ca = provided)
       ∧ ca_GetRootCert ca c1 name backend = Ok [root]).
Proof.
  intros Hcas Hc Ev Ec Ee. apply Mesh_Validate_nil in Ev as (Hmtls & _).
  apply backends_violations_None in Ec as [_ Hall]. rewrite Forall_forall in Hall.
  unfold EnsureEnabledCA in Ee.
  assert (∀ b, GetEnabledCertificateAuthorityBackend mesh = Some b →
    b ∈ default [] (mtls_Backends <$> mesh_Mtls (r_Spec mesh))) as Hin.
  { intros b Hb. apply List.find_some in Hb as [Hb _]. by apply list_elem_of_In. }
  destruct (GetEnabledCertificateAuthorityBackend mesh) as [b|] eqn:Eb; cycle 1.
  { injection Ee as <-. split; [done|]. intros He. destruct (validateMtls_enabled mesh Hmtls He) as (b & Hb & _).
    by rewrite Eb in Hb. }
  destruct (Hall b (Hin b eq_refl)) as (ca & v & Hca & Hv & Hd). rewrite Hca in Ee.
  assert (ca = builtin ∨ ca = provided) as Hor.
  { rewrite Hcas in Hca. apply lookup_insert_Some in Hca as [[_ <-]|[_ Hca]]; [by left|].
    apply lookup_singleton_Some in Hca as [_ <-]. by right. }
  destruct (ca_Ensure ca now seed c name b) as [[[]|e|] c2] eqn:En; simplify_eq.
  destruct (Ensure_root now c c1 name b ca v Hc Hor Hv Hd En) as [Hc1 [root Hroot]].
  split; [done|]. intros _. exists b, ca, root. auto.
Qed.

(** C16: Creating a mesh through the resource manager of the control plane, over
    the memory store and with the two kinds of certificate authority of the
    repository: when the call succeeds the mesh, with its defaults filled in,
    passed its validator and can be read back, and if mTLS is enabled its
    authority is one of the mesh's backends and its root certificate can be
    loaded from then on. *)
Theorem mesh_Create_memory d now c m name :
  caManagers = <["builtin" := builtin]> {["provided" := provided]} →
  rtc memory_step NewStore c →
  let mesh := mkResource nilMeta (Mesh_Default m) in
  let '(e, (c', _)) :=
    mgr_Create (manager (S d)) now c (mkObject None (MeshSpec m)) [CreateByKey name name] in
  e = Ok () →
  Mesh_Validate mesh = None
  ∧ (∃ o, mgr_Get (read_only (manager (S d))) c' (new_object KMesh) [GetByKey name name] = (Ok (), (c', o))
       ∧ o_Spec o = MeshSpec (Mesh_Default m))
  ∧ (MTLSEnabled (Some mesh) = true →
     ∃ backend ca root, GetEnabledCertificateAuthorityBackend mesh = Some backend
       ∧ caManagers !! ca_Type backend = Some ca
       ∧ ca_GetRootCert ca c' name backend = Ok [root]).
Proof.
  intros Hcas Hc mesh. rewrite manager_mesh_Create. unfold mesh_Create. cbn [mesh_of_object o_Spec o_Meta].
  change (co_Name (NewCreateOptions [CreateByKey name name])) with name.
  set (r1 := mkObject None (MeshSpec (Mesh_Default m))).
  change (mesh_resource r1 (Mesh_Default m)) with mesh.
  change (Validate ptypes_Duration ResourceFromYaml_error r1) with (Ok (A := option ValidationError) (Mesh_Validate mesh)).
  destruct (Mesh_Validate mesh) as [v|] eqn:Ev; [done|]. cbn [no_violations rbind].
  destruct (ValidateCreate caManagers c name mesh) as [[v|]|e|] eqn:Ec; try done. cbn [no_violations rbind].
  destruct (EnsureEnabledCA caManagers seed now c mesh name) as [err c1] eqn:Ee.
  destruct err as [[]|e|]; [|done|done].
  destruct (store_Create c1 r1 _) as [e [c' o']] eqn:Es. intros ->. split; [done|].
  assert (rtc memory_step NewStore c1 ∧ (MTLSEnabled (Some mesh) = true →
    ∃ backend ca root, GetEnabledCertificateAuthorityBackend mesh = Some backend
       ∧ caManagers !! ca_Type backend = Some ca ∧ (ca = builtin ∨ ca = provided)
       ∧ ca_GetRootCert ca c1 name backend = Ok [root])) as [Hc1 Hca].
  { by eapply ensured. }
  cbn [store_Create memory_ResourceStore] in Es.
  pose proof (step_Create c1 r1 ([CreateByKey name name] ++ [CreatedAt now])) as Hst. rewrite Es in Hst.
  assert (rtc memory_step NewStore c') as Hc' by (by eapply rtc_r).
  destruct (Create_then_Get c1 r1 _ c' o' (reachable_unique c1 Hc1) Es) as (Hg & Hsp & Hf). split.
  - exists o'. split; [|done]. rewrite manager_mesh_Get. unfold mesh_Get. cbn [mesh_of_object new_object o_Spec zero_spec].
    change (memory_Get c' (new_object KMesh) [GetByKey name name] = (Ok (), o')) in Hg.
    cbn [store_Get memory_ResourceStore]. by rewrite Hg.
  - intros Hm. destruct (Hca Hm) as (backend & ca & root & ? & ? & Hor & Hroot). exists backend, ca, root.
    split; [done|]. split; [done|]. rewrite <- Hroot. apply GetRootCert_frame; [done|done| |done].
    intros key. by apply Hf.
Qed.
End Create.
End Memory.

(** ** Updating a mesh *)

Section Update.
Context {St Seed : Type} `{ResourceStore St}.
Context (ptypes_Duration : Duration → option Z) (ResourceFromYaml_error : string → option string).
Context (caManagers : gmap string (CaManager Seed St)) (seed : Seed).

Lemma validateMTLSBackendChange_None previousMesh newMesh :
  validateMTLSBackendChange previousMesh newMesh = None ↔
  (MTLSEnabled (Some previousMesh) = true → MTLSEnabled (Some newMesh) = true →
   enabled_backend previousMesh = enabled_backend newMesh).
Proof.
  unfold validateMTLSBackendChange. rewrite OrNil_None.
  destruct (MTLSEnabled (Some previousMesh)), (MTLSEnabled (Some newMesh)); simpl; [|by split..].
  destruct (String.eqb_spec (enabled_backend previousMesh) (enabled_backend newMesh)); simpl; [by split|].
  split; [by intros ?%AddViolation_nil|]. intros Heq. by destruct n; apply Heq.
Qed.

(** Updating a mesh over any resource store.  An update that succeeds had the
    version of the mesh that is stored, leaves a valid mesh, and does not move an
    enabled mTLS to a backend of another name; an update that would is refused
    and changes nothing. *)
Theorem mesh_Update_backend now s meta m fs :
  let r1 := mkObject (Some meta) (MeshSpec (Mesh_Default m)) in
  let mesh := mesh_resource r1 (Mesh_Default m) in
  let current := store_Get s (new_object KMesh) [GetBy (MetaToResourceKey (Some (observe meta)));
                                                 GetByVersion (GetVersion (observe meta))] in
  let moved := λ previous, MTLSEnabled (Some previous) = true ∧ MTLSEnabled (Some mesh) = true
    ∧ enabled_backend previous ≠ enabled_backend mesh in
  let '(e, (s', r')) := mesh_Update ptypes_Duration ResourceFromYaml_error caManagers seed now s
                          (mkObject (Some meta) (MeshSpec m)) fs in
  (e = Ok () → Mesh_Validate mesh = None
     ∧ ∃ o previous, current = (Ok (), o) ∧ mesh_of_object o = Ok previous
       ∧ ¬ moved (mesh_resource o previous))
  ∧ (∀ o previous, current = (Ok (), o) → mesh_of_object o = Ok previous →
     moved (mesh_resource o previous) → e ≠ Ok () ∧ s' = s).
Proof.
  intros r1 mesh current moved. unfold mesh_Update, mesh_Get. cbn [mesh_of_object o_Spec o_Meta new_object zero_spec].
  fold r1. fold mesh. fold current. change (mesh_of_object (new_object KMesh)) with (Ok (zero_message (S := Mesh))).
  change (Validate ptypes_Duration ResourceFromYaml_error r1) with (Ok (A := option ValidationError) (Mesh_Validate mesh)).
  destruct (Mesh_Validate mesh) as [v|]; [done|]. cbn [no_violations rbind].
  destruct current as [err o]. destruct err as [[]|e|]; [|by split; [|intros ? ? [=]]..]. cbn [rbind].
  destruct (mesh_of_object o) as [previous|e|] eqn:Em; cbn [rbind];
    [|(split; [done|]; intros ? ? [= <-]; by rewrite Em)..].
  assert (∀ x, moved x ↔ validateMTLSBackendChange x mesh ≠ None) as Hmoved.
  { intros x. rewrite validateMTLSBackendChange_None. unfold moved.
    destruct (MTLSEnabled (Some x)), (MTLSEnabled (Some mesh)),
      (decide (enabled_backend x = enabled_backend mesh)); intuition congruence. }
  unfold ValidateUpdate. destruct (validateMTLSBackendChange (mesh_resource o previous) mesh) as [v|] eqn:Ech.
  { by split. }
  assert (∀ o' p, (Ok (), o) = (Ok (), o') → mesh_of_object o' = Ok p → ¬ moved (mesh_resource o' p)) as Hno.
  { intros o' p [= <-] Hp. rewrite Hp in Em. injection Em as <-. rewrite Hmoved, Ech. by intros []. }
  destruct (no_violations _) as [[]|e|]; [|split; [done|naive_solver]..].
  destruct (EnsureEnabledCA _ _ _ _ _ _) as [[[]|e|] s1]; [|split; [done|naive_solver]..].
  destruct (store_Update _ _ _) as [e [s' r']]. split; [|naive_solver]. intros _. split; [done|].
  exists o, previous. split; [done|]. split; [done|]. by apply Hno.
Qed.
End Update.

(** ** Concrete instances *)

Definition sample_registry : typeRegistry :=
  Eval vm_compute in match rfoldl init_kind NewTypeRegistry registered_kinds with Ok r => r | _ => NewTypeRegistry end.

#[local] Existing Instance sample_X509.
#[local] Existing Instance mark_cipher.
#[local] Existing Instance mark_lawful.

#[local] Instance CertificateAuthorityBackend_eq_dec : EqDecision CertificateAuthorityBackend.
Proof. solve_decision. Defined.

(** A mesh with two authorities, and a codec that writes such meshes as the name
    of the enabled one. *)
Definition sample_cas_of_mesh : list CertificateAuthorityBackend :=
  [mkCaBackend "ca-1" "builtin" None; mkCaBackend "ca-2" "builtin" None].
Definition mesh_with_ca (enabled : string) : Mesh := mkMesh (Some (mkMtls enabled sample_cas_of_mesh)) None None None.

#[local] Instance mesh_jsonpb : Jsonpb :=
  {| jsonpb_Marshal := λ spec,
       match spec with
       | MeshSpec (mkMesh (Some (mkMtls enabled backends)) None None None) =>
           if decide (backends = sample_cas_of_mesh) then Ok enabled else Err (Errorf "unsupported message" [])
       | SecretSpec (mkSecret (Some s)) => Ok s
       | _ => Err (Errorf "unsupported message" [])
       end;
     jsonpb_Unmarshal := λ s out,
       match out with
       | MeshSpec _ => (Ok (), MeshSpec (mesh_with_ca s))
       | SecretSpec _ => (Ok (), SecretSpec (mkSecret (Some s)))
       | _ => (Err (Errorf "unsupported message" []), out)
       end |}.

#[local] Instance mesh_jsonpb_lawful : LawfulJsonpb.
Proof.
  constructor; [by intros s []|]. intros spec s Hs.
  destruct spec as [[[[]|] [] [] []]| | | | | | | | | | |[[]]]; simpl in Hs; simplify_eq; [|done].
  case_decide; [|done]. by simplify_eq.
Qed.

(** The manager of the control plane with both authorities. *)
Definition mesh_secrets : SecretManager memoryStore := NewSecretManager NewSecretStore.
Definition sample_cas : gmap string (CaManager unit memoryStore) :=
  <["builtin" := NewBuiltinCaManager mesh_secrets ca_Name]>
  {["provided" := NewProvidedCaManager (Load mesh_secrets (λ _, Ok "")) (λ _, Ok (mkProvidedConfig None None))]}.
Definition sample_managers (depth : nat) : ResourceManager memoryStore :=
  customizableManager sample_Duration sample_Yaml mesh_secrets sample_cas sample_registry () depth.

(** A store with a secret and a mesh with an enabled authority. *)
Definition mesh_store : memoryStore := Eval vm_compute in
  (memory_Create (memory_Create NewStore (sample_secret "x") [CreateByKey "s" "default"]).2.1
     (mkObject None (MeshSpec (mesh_with_ca "ca-1"))) [CreateByKey "default" "default"]).2.1.

Lemma mesh_store_reachable : rtc memory_step NewStore mesh_store.
Proof.
  eapply rtc_l; [apply (step_Create NewStore (sample_secret "x") [CreateByKey "s" "default"])|].
  set (c := (memory_Create NewStore _ _).2.1).
  assert (mesh_store = (memory_Create c (mkObject None (MeshSpec (mesh_with_ca "ca-1")))
    [CreateByKey "default" "default"]).2.1) as -> by (vm_compute; reflexivity).
  apply rtc_once, step_Create.
Qed.

Lemma mesh_store_records r :
  r ∈ records mesh_store →
  rec_Mesh r = "default"
  ∧ (rec_ResourceType r = type_name KMesh ∧ rec_Name r = rec_Mesh r ∨ rec_ResourceType r = type_name KSecret).
Proof.
  let l := eval vm_compute in (records mesh_store) in change (records mesh_store) with l.
  intros Hr. rewrite !elem_of_cons, elem_of_nil in Hr. destruct Hr as [->|[->|[]]]; split; auto.
Qed.

Lemma mesh_Delete_memory_witness :
  ∃ c', mgr_Delete (sample_managers 2) mesh_store (new_object KMesh) [DeleteByKey "default" "default"] = (Ok (), c')
    ∧ ∀ key, abs c' !! key = None.
Proof.
  destruct (mesh_Delete_memory sample_Duration sample_Yaml sample_cas sample_registry () registered_kinds 0 "default"
    mesh_store) as (c' & Hd & Hk & _).
  - reflexivity.
  - vm_compute. reflexivity.
  - discriminate.
  - apply mesh_store_reachable.
  - reflexivity.
  - intros r [Hm [[_ Hn]|Ht]]%mesh_store_records Htype; [exact Hn|]. rewrite Ht in Htype. discriminate Htype.
  - exists c'. split; [exact Hd|]. intros key. destruct (abs c' !! key) as [r|] eqn:E; [|reflexivity].
    apply Hk in E as [Hr Hn]. destruct Hn.
    apply abs_lookup in Hr as [Hr _]; [|apply reachable_unique, mesh_store_reachable].
    apply mesh_store_records in Hr as [Hm Hor]. split; [exact Hm|].
    destruct Hor as [[Ht _]|Ht]; [exists KMesh|exists KSecret]; (split; [|exact Ht]);
      apply (bool_decide_unpack _); vm_compute; exact I.
Defined.

Lemma mesh_Create_memory_witness :
  let '(e, (c', _)) := mgr_Create (sample_managers 1) 0 NewStore (mkObject None (MeshSpec (mesh_with_ca "ca-1")))
                         [CreateByKey "default" "default"] in
  e = Ok () ∧ ∃ ca root, sample_cas !! "builtin" = Some ca
    ∧ ca_GetRootCert ca c' "default" (mkCaBackend "ca-1" "builtin" None) = Ok [root].
Proof.
  pose proof (mesh_Create_memory sample_Duration sample_Yaml sample_cas sample_registry () ca_Name (λ _, Ok "")
    (λ _, Ok (mkProvidedConfig None None)) 0 0 NewStore (mesh_with_ca "ca-1") "default" eq_refl (rtc_refl _ _)) as Hw.
  cbv beta zeta in Hw. fold mesh_secrets in Hw. fold (sample_managers 1) in Hw.
  assert ((mgr_Create (sample_managers 1) 0 NewStore (mkObject None (MeshSpec (mesh_with_ca "ca-1")))
    [CreateByKey "default" "default"]).1 = Ok ()) as He by (vm_compute; reflexivity).
  destruct (mgr_Create (sample_managers 1) 0 NewStore _ _) as [e [c' o]]. cbn [fst] in He.
  split; [exact He|]. destruct (Hw He) as (_ & _ & Hca).
  destruct Hca as (backend & ca & root & Hb & Hl & Hroot); [reflexivity|]. vm_compute in Hb. injection Hb as <-.
  exists ca, root. split; [exact Hl|exact Hroot].
Defined.

(** Moving mTLS to another backend is refused. *)
Lemma mesh_Update_backend_witness :
  let '(e, (s', _)) := mesh_Update sample_Duration sample_Yaml sample_cas () 5 mesh_store
    (mkObject (Some (MemoryMeta (mkMemoryMeta "default" "default" 1 0 0))) (MeshSpec (mesh_with_ca "ca-2"))) [] in
  e ≠ Ok () ∧ s' = mesh_store.
Proof.
  pose proof (mesh_Update_backend sample_Duration sample_Yaml sample_cas () 5 mesh_store
    (MemoryMeta (mkMemoryMeta "default" "default" 1 0 0)) (mesh_with_ca "ca-2") []) as Hw. cbv zeta in Hw.
  destruct (mesh_Update _ _ _ _ _ _ _ _) as [e [s' r']]. destruct Hw as [_ Hw].
  eapply Hw; [vm_compute; reflexivity|vm_compute; reflexivity|].
  split; [reflexivity|]. split; [reflexivity|]. vm_compute. discriminate.
Defined.
