(* ===== verification/Sds.v ===== *)
(** * Secret discovery

    Models [pkg/sds] (authentication of proxies, secret providers, the secret
    discovery handler and its streaming server) and [pkg/tokens/builtin/issuer]
    (dataplane tokens and their signing key).

    JSON Web Tokens are the class [JWT].  The server is a state machine over the
    requests of one stream; between two of them the state of the secret source
    may change in any way. *)

From S2P Require Import Prelude Effects GoStd Tags Dataplane Policy MeshResources Validators AccessLog.
From S2P Require Import Insights Resources Store MemoryStore Manager CoreXds SnapshotCache StatusTracker Callbacks XdsServer.
From S2P Require Import ControlPlane DataplaneSync Secrets MeshManager.
Local Open Scope Z_scope.

(** ** pkg/tokens/builtin/issuer *)

(** The claims of a token; no standard claim is set. *)
Record claims : Type := mkClaims { cl_Name : string; cl_Mesh : string }.

(** [SignedString] with the method HS256, and [ParseWithClaims] with a key
    function that returns the key: the claims and whether the token is valid. *)
Class JWT : Type := {
  SignedString : claims → string → res string;
  ParseWithClaims : string → string → res (claims * bool);
}.
(** A token that was signed is valid under the same key and has its claims. *)
Class LawfulJWT `{JWT} : Prop := {
  signed_valid : ∀ c key token, SignedString c key = Ok token → ParseWithClaims token key = Ok (c, true);
}.

Record DataplaneTokenIssuer : Type := mkIssuer {
  Generate : ProxyId → res string;
  Validate_token : string → res ProxyId;
}.

Section Tokens.
Context `{JWT}.

Definition token_Generate (privateKey : string) (proxyId : ProxyId) : res string :=
  wrap_err "could not sign a token" (SignedString (mkClaims (pid_Name proxyId) (pid_Mesh proxyId)) privateKey).

Definition token_Validate (privateKey : string) (credential : string) : res ProxyId :=
  let? (c, valid) := wrap_err "could not parse token" (ParseWithClaims credential privateKey) in
  if valid then Ok (mkProxyId (cl_Mesh c) (cl_Name c)) else Err (Errorf "token is not valid" []).

Definition NewDataplaneTokenIssuer (privateKey : string) : DataplaneTokenIssuer :=
  mkIssuer (token_Generate privateKey) (token_Validate privateKey).
End Tokens.

(** *** signing_key.go *)

Definition signingKeyResourceKey : ResourceKey := mkKey "default" "dataplane-token-signing-key".

Section SigningKey.
Context {Seed Key : Type} `{X509 Seed Key} {St : Type} (manager : SecretManager St).

(** The secret, which the caller dereferences. *)
Definition createSigningKey (seed : Seed) : res Object :=
  let? key := wrap_err "failed to generate rsa key" (GenerateKey seed) in
  Ok (new_secret (MarshalPKCS1PrivateKey key)).

Definition storeKeyIfNotExist (now : Z) (s : St) (keyResource : Object) : res unit * St :=
  let (err, _) := sm_Get manager s (new_object KSecret) [GetBy signingKeyResourceKey] in
  match err with
  | Ok _ => (Ok (), s)
  | Err e =>
      if IsResourceNotFound e then
        let '(err, (s', _)) := sm_Create manager now s keyResource [CreateBy signingKeyResourceKey] in
        (wrap_err "could not store a private key" err, s')
      else (Err (Wrapf e "could not check if private key exists" []), s)
  | Panic => (Panic, s)
  end.

Definition CreateDefaultSigningKey (now : Z) (seed : Seed) (s : St) : res unit * St :=
  match createSigningKey seed with
  | Ok key => storeKeyIfNotExist now s key
  | Err e => (Err e, s)
  | Panic => (Panic, s)
  end.

Definition GetSigningKey (s : St) : res string :=
  let (err, resource) := sm_Get manager s (new_object KSecret) [GetBy signingKeyResourceKey] in
  let? _ := wrap_err "could not retrieve signing key from secret manager" err in
  Ok (secret_value resource).

(** [NewDataplaneTokenIssuer] of [pkg/tokens/builtin/components.go]. *)
Definition builtin_NewDataplaneTokenIssuer `{JWT} (s : St) : res DataplaneTokenIssuer :=
  let? key := GetSigningKey s in Ok (NewDataplaneTokenIssuer key).
End SigningKey.

(** ** pkg/sds/auth *)

Record Identity : Type := mkIdentity { id_Mesh : string; id_Service : string }.

(** The metadata of a gRPC call, if any. *)
Definition metadata : Type := option (gmap string (list string)).

Definition ExtractCredential (md : metadata) : res string :=
  match md with
  | None => Err (Errorf "SDS request has no metadata" [])
  | Some md =>
      match md !! "authorization" with
      | Some [value] => Ok value
      | Some values =>
          Err (Errorf "SDS request must have exactly 1 %q header, got %d"
                 [AStr "authorization"; AInt (Z.of_nat (length values))])
      | None => Ok ""
      end
  end.

(** *** common/identity.go *)

Definition GetDataplaneIdentity (dataplane : DataplaneResource) : res Identity :=
  match MultiValueTagSet_Values (Dataplane_Tags (r_Spec dataplane)) ServiceTag with
  | [] => Err (Errorf "Dataplane has no services associated with it" [])
  | service :: _ => Ok (mkIdentity (GetMesh (r_Meta dataplane)) service)
  end.

(** The interfaces [DataplaneResolver] and [Authenticator]. *)
Definition DataplaneResolver (St : Type) : Type := ProxyId → ST St DataplaneResource.
Definition Authenticator (St : Type) : Type := ProxyId → string → ST St Identity.

(** [%q] of a proxy id prints its two fields. *)
Definition wrapf_err {St A} (msg : string) (args : list goarg) (m : ST St A) : ST St A := λ s,
  match m s with
  | (Err e, s') => (Err (Wrapf e msg args), s')
  | r => r
  end.

Section Auth.
Context {St : Type} (dataplaneResolver : DataplaneResolver St).

Definition resolve_identity (proxyId : ProxyId) : ST St Identity :=
  dataplane ← wrapf_err "unable to find Dataplane for proxy {%q %q}"
                [AStr (pid_Mesh proxyId); AStr (pid_Name proxyId)] (dataplaneResolver proxyId);
  st_lift (GetDataplaneIdentity dataplane).

(** *** universal/noop_authenticator.go *)

Definition NewNoopAuthenticator : Authenticator St := λ proxyId _, resolve_identity proxyId.

(** *** universal/authenticator.go *)

Definition universal_reviewToken (issuer : DataplaneTokenIssuer) (expectedId : ProxyId) (credential : string)
  : res unit :=
  let? proxyId := Validate_token issuer credential in
  if negb (String.eqb (pid_Name expectedId) (pid_Name proxyId))
  then Err (Errorf "proxy name from requestor: %s is different than in token: %s"
              [AStr (pid_Name expectedId); AStr (pid_Name proxyId)])
  else if negb (String.eqb (pid_Mesh expectedId) (pid_Mesh proxyId))
  then Err (Errorf "proxy mesh from requestor: %s is different than in token: %s"
              [AStr (pid_Mesh expectedId); AStr (pid_Mesh proxyId)])
  else Ok ().

Definition NewAuthenticator (issuer : DataplaneTokenIssuer) : Authenticator St := λ proxyId credential,
  _ ← st_lift (universal_reviewToken issuer proxyId credential);
  resolve_identity proxyId.

(** *** k8s/authenticator.go *)

(** [client.Create] of a TokenReview: whether the token is authenticated, and the
    name of its user. *)
Context (TokenReview : string → res (bool * string)).

Definition k8s_reviewToken (proxyId : ProxyId) (credential : string) : res unit :=
  if String.eqb credential "" then Err (Errorf "authentication failed: k8s token is missing" [])
  else
    let? (authenticated, username) := wrap_err "authentication failed: call to TokenReview API failed"
                                        (TokenReview credential) in
    if negb authenticated then Err (Errorf "authentication failed: token doesn't belong to a valid user" [])
    else match split_all ":" username with
    | [u0; u1; namespace; _] =>
        if negb (String.eqb u0 "system" && String.eqb u1 "serviceaccount")
        then Err (Errorf "authentication failed: token must belong to a k8s system account, got %q" [AStr username])
        else
          let? (_, proxyNamespace) := CoreNameToK8sName (pid_Name proxyId) in
          if negb (String.eqb namespace proxyNamespace)
          then Err (Errorf "authentication failed: token belongs to a namespace (%q) different from proxyId (%q)"
                      [AStr namespace; AStr proxyNamespace])
          else Ok ()
    | _ => Err (Errorf "authentication failed: username inside TokenReview response has unexpected format: %q"
                  [AStr username])
    end.

Definition k8s_Authenticator : Authenticator St := λ proxyId credential,
  _ ← st_lift (k8s_reviewToken proxyId credential);
  resolve_identity proxyId.
End Auth.

(** ** pkg/sds/provider *)

(** The message [auth.Secret] of Envoy: contents are inline bytes. *)
Inductive EnvoySecret_Type : Type :=
| ValidationContext (TrustedCa : string)
| TlsCertificate (CertificateChain PrivateKey : string).
Record EnvoySecret : Type := mkEnvoySecret { es_Name : string; es_Type : EnvoySecret_Type }.

(** The implementations of the interface [Secret]. *)
Inductive sds_secret : Type :=
| MeshCaSecret (PemCerts : list string)
| IdentityCertSecret (PemCerts : list string) (PemKey : string).

Definition newline : string := String (ascii_of_N 10) "".

Definition ToResource (secret : sds_secret) (name : string) : EnvoySecret :=
  match secret with
  | MeshCaSecret certs => mkEnvoySecret name (ValidationContext (join newline certs))
  | IdentityCertSecret certs key => mkEnvoySecret name (TlsCertificate (join newline certs) key)
  end.

(** The interface [SecretProvider]; time and randomness are those of the call. *)
Record SecretProvider (Seed St : Type) : Type := mkSecretProvider {
  RequiresIdentity : bool;
  sp_Get : Z → Seed → string → Identity → ST St sds_secret;
}.
Arguments mkSecretProvider {Seed St} _ _.
Arguments RequiresIdentity {Seed St} _.
Arguments sp_Get {Seed St} _ _ _ _ _.

Definition MeshCaResource : string := "mesh_ca".
Definition IdentityCertResource : string := "identity_cert".

(** The values of the call that a handler reads. *)
Record sds_context (Seed : Type) : Type := mkSdsContext {
  sc_now : Z;
  sc_seed : Seed;
  sc_metadata : metadata;
}.
Arguments mkSdsContext {Seed} _ _ _.
Arguments sc_now {Seed} _.
Arguments sc_seed {Seed} _.
Arguments sc_metadata {Seed} _.

Section Providers.
Context {Seed St : Type} (resourceManager : ReadOnlyResourceManager St) (caManagers : gmap string (CaManager Seed St)).

Definition find_mesh (meshName : string) : ST St MeshResource :=
  wrapf_err "failed to find a Mesh %q" [AStr meshName]
    (get_resource (T := Mesh) resourceManager KMesh [GetByKey meshName meshName]).

Definition ca_manager (backend : CertificateAuthorityBackend) : ST St (CaManager Seed St) :=
  match caManagers !! ca_Type backend with
  | None => fail (Errorf "CA manager of type %s not exist" [AStr (ca_Type backend)])
  | Some caManager => mret caManager
  end.

(** [ca/provider.go]. *)
Definition meshCaProvider_Get (requestor : Identity) : ST St sds_secret :=
  let meshName := id_Mesh requestor in
  meshRes ← find_mesh meshName;
  match GetEnabledCertificateAuthorityBackend meshRes with
  | None => fail (Errorf "CA backend is nil" [])
  | Some backend =>
      caManager ← ca_manager backend;
      s ← st_get id;
      certs ← wrapf_err "could not get root certs" [] (st_lift (ca_GetRootCert caManager s meshName backend));
      mret (MeshCaSecret certs)
  end.

(** [identity/provider.go]. *)
Definition identityCertProvider_Get (now : Z) (seed : Seed) (requestor : Identity) : ST St sds_secret :=
  let meshName := id_Mesh requestor in
  meshRes ← find_mesh meshName;
  match GetEnabledCertificateAuthorityBackend meshRes with
  | None => fail (Errorf "CA default backend in mesh %q has to be defined" [AStr meshName])
  | Some backend =>
      caManager ← ca_manager backend;
      s ← st_get id;
      pair ← wrapf_err "could not generate dataplane cert for mesh: %q backend: %q service: %q"
               [AStr meshName; AStr (ca_Name backend); AStr (id_Service requestor)]
               (st_lift (ca_GenerateDataplaneCert caManager now seed s meshName backend (id_Service requestor)));
      mret (IdentityCertSecret [CertPEM pair] (KeyPEM pair))
  end.

Definition meshCaProvider : SecretProvider Seed St :=
  mkSecretProvider false (λ _ _ _ requestor, meshCaProvider_Get requestor).
Definition identityCertProvider : SecretProvider Seed St :=
  mkSecretProvider true (λ now seed _ requestor, identityCertProvider_Get now seed requestor).

(** ** pkg/sds/server/components.go *)

Definition DefaultSecretProviderSelector (resource : string) : res (SecretProvider Seed St) :=
  if String.eqb resource MeshCaResource then Ok meshCaProvider
  else if String.eqb resource IdentityCertResource then Ok identityCertProvider
  else Err (Errorf "SDS request for %q resource is not supported" [AStr resource]).

Definition DefaultDataplaneResolver : DataplaneResolver St := λ proxyId,
  get_resource (T := Dataplane) resourceManager KDataplane [GetBy (ProxyId_ToResourceKey proxyId)].

(** [NewUniversalAuthenticator]: [tokens] says whether the token server is
    enabled. *)
Definition NewUniversalAuthenticator `{JWT} (secretManager : SecretManager St) (tokens : bool) (s : St)
  : res (Authenticator St) :=
  let dpResolver := DefaultDataplaneResolver in
  if negb tokens then Ok (NewNoopAuthenticator dpResolver)
  else let? issuer := builtin_NewDataplaneTokenIssuer secretManager s in Ok (NewAuthenticator dpResolver issuer).

(** The handler that [DefaultSecretDiscoveryHandler] makes of an authenticator. *)
Definition SecretDiscoveryHandler (authenticator : Authenticator St) (ctx : sds_context Seed)
    (req : DiscoveryRequest) : ST St EnvoySecret :=
  match req_ResourceNames req with
  | [] => st_panic
  | resource :: _ =>
      provider ← st_lift (DefaultSecretProviderSelector resource);
      proxyId ← wrapf_err "SDS request must have a valid Proxy Id" [] (st_lift (ParseProxyId (req_Node req)));
      requestor ← (if RequiresIdentity provider then
                     credential ← st_lift (ExtractCredential (sc_metadata ctx));
                     authenticator proxyId credential
                   else mret (mkIdentity (pid_Mesh proxyId) ""));
      secret ← sp_Get provider (sc_now ctx) (sc_seed ctx) resource requestor;
      mret (ToResource secret resource)
  end.
End Providers.

(** ** pkg/sds/server/sds.go *)

Section Server.
(** [S] is the state of the source of secrets, [E] what a call of the source
    reads of its context. *)
Context {S E Cb : Type} (source : E → DiscoveryRequest → ST S EnvoySecret).
Context (Marshal : EnvoySecret → res string) (callbacks : option (Callbacks Cb)).
(** How [fmt] prints whole messages. *)
Context (fmt_request : DiscoveryRequest → string) (fmt_response : DiscoveryResponse → string).

(** What happens on the outside. *)
Inductive sds_action : Type :=
| SdsReceive (req : DiscoveryRequest)
| SdsHandle (req : DiscoveryRequest)
| SdsSend (resp : DiscoveryResponse).

(** The variables of [process] and what it shares with other streams; [d_log]
    records what happens on the outside and is not read. *)
Record sds_state : Type := mkSdsState {
  d_source : S;
  d_cb : Cb;
  d_nonce : Z;                            (* streamNonce *)
  d_resourceName : string;                (* state.resourceName *)
  d_secretNonce : string;                 (* state.secretNonce *)
  d_node : option Node;
  d_log : list sds_action;
}.
Definition sds_log (a : sds_action) : ST sds_state unit :=
  st_modify (λ d, mkSdsState (d_source d) (d_cb d) (d_nonce d) (d_resourceName d) (d_secretNonce d) (d_node d)
                    (d_log d ++ [a])).
Definition sds_set_nonce (n : Z) : ST sds_state unit :=
  st_modify (λ d, mkSdsState (d_source d) (d_cb d) n (d_resourceName d) (d_secretNonce d) (d_node d) (d_log d)).
Definition set_resourceName (n : string) : ST sds_state unit :=
  st_modify (λ d, mkSdsState (d_source d) (d_cb d) (d_nonce d) n (d_secretNonce d) (d_node d) (d_log d)).
Definition set_secretNonce (n : string) : ST sds_state unit :=
  st_modify (λ d, mkSdsState (d_source d) (d_cb d) (d_nonce d) (d_resourceName d) n (d_node d) (d_log d)).
Definition sds_set_node (n : option Node) : ST sds_state unit :=
  st_modify (λ d, mkSdsState (d_source d) (d_cb d) (d_nonce d) (d_resourceName d) (d_secretNonce d) n (d_log d)).
Definition on_source {A} (m : ST S A) : ST sds_state A :=
  zoom d_source (λ s d, mkSdsState s (d_cb d) (d_nonce d) (d_resourceName d) (d_secretNonce d) (d_node d) (d_log d)) m.
Definition sds_callback (f : Callbacks Cb → ST Cb unit) : ST sds_state unit :=
  match callbacks with
  | None => mret ()
  | Some cb =>
      zoom d_cb (λ c d, mkSdsState (d_source d) c (d_nonce d) (d_resourceName d) (d_secretNonce d) (d_node d) (d_log d))
        (f cb)
  end.

Definition validateSdsRequest (req : DiscoveryRequest) : ST sds_state unit :=
  match req_ResourceNames req with
  | [resourceName] =>
      if String.eqb resourceName "" then
        fail (Errorf "invalid SDS request: resourceName must be non-empty: %+v" [AStr (fmt_request req)])
      else
        name ← st_get d_resourceName;
        _ ← (if String.eqb name "" then set_resourceName resourceName else mret ());
        name ← st_get d_resourceName;
        if negb (String.eqb name resourceName) then
          fail (Errorf "invalid SDS request: resourceName is different from previous requests on that stream: expected %q, got %q: %+v"
                  [AStr name; AStr resourceName; AStr (fmt_request req)])
        else mret ()
  | names =>
      fail (Errorf "invalid SDS request: expected exactly 1 resourceName, got %d: %+v"
              [AInt (Z.of_nat (length names)); AStr (fmt_request req)])
  end.

Definition validateSdsResponse (resp : DiscoveryResponse) : ST sds_state unit :=
  match dr_Resources resp with
  | [_] => mret ()
  | rs => fail (Errorf "invalid SDS response: expected exactly 1 resource, got %d: %+v"
                  [AInt (Z.of_nat (length rs)); AStr (fmt_response resp)])
  end.

(** [toResponse]; the version is a fresh identifier. *)
Definition toResponse (env : cb_env) (req : DiscoveryRequest) (secret : EnvoySecret) : Response :=
  mkResponse req (env_uuid env) [secret].

(** The closure [send]; [sent] is what [stream.Send] returns. *)
Definition sds_send (env : cb_env) (streamID : Z) (sent : option goerror) (resp : Response) (typeURL : string)
  : ST sds_state string :=
  out ← st_lift (server_createResponse Marshal (Some resp) typeURL);
  n ← st_get d_nonce;
  let n' := wrap_int (n + 1) in
  _ ← sds_set_nonce n';
  let out := with_nonce out (itoa n') in
  _ ← sds_callback (λ cb, run_proc (cb_OnStreamResponse cb env streamID (resp_Request resp) out));
  _ ← validateSdsResponse out;
  _ ← sds_log (SdsSend out);
  match sent with None => mret (dr_Nonce out) | Some e => fail e end.

(** What an iteration receives: a request, possibly nil, what [stream.Send]
    returns if it is called, and what the rest of the control plane did to the
    shared state before. *)
Record sds_input : Type := mkSdsInput {
  in_req : option DiscoveryRequest;
  in_env : cb_env;
  in_ctx : E;
  in_sent : option goerror;
  in_others : S * Cb → S * Cb;
}.

Definition sds_others (f : S * Cb → S * Cb) : ST sds_state unit :=
  st_modify (λ d, let (s, c) := f (d_source d, d_cb d) in
    mkSdsState s c (d_nonce d) (d_resourceName d) (d_secretNonce d) (d_node d) (d_log d)).

(** What follows the callbacks on a request. *)
Definition sds_answer (i : sds_input) (streamID : Z) (req : DiscoveryRequest) : ST sds_state unit :=
  if Nat.eqb (length (req_ResourceNames req)) 0 then mret ()
  else
    _ ← validateSdsRequest req;
    secretNonce ← st_get d_secretNonce;
    if negb (String.eqb secretNonce "") && String.eqb secretNonce (req_ResponseNonce req) then mret ()
    else
      _ ← sds_log (SdsHandle req);
      secret ← on_source (source (in_ctx i) req);
      nonce ← sds_send (in_env i) streamID (in_sent i) (toResponse (in_env i) req secret) SecretType;
      set_secretNonce nonce.

(** An iteration of the loop. *)
Definition sds_iteration (streamID : Z) (defaultTypeURL : string) (i : sds_input) : ST sds_state unit :=
  _ ← sds_others (in_others i);
  match in_req i with
  | None => fail (statusErrorf "Unavailable" "empty request")
  | Some req =>
      node ← st_get d_node;
      let node' := match req_Node req with Some n => Some n | None => node end in
      _ ← sds_set_node node';
      let req := with_node req node' in
      let req := if String.eqb (req_TypeUrl req) "" then with_type req defaultTypeURL else req in
      _ ← sds_log (SdsReceive req);
      _ ← sds_callback (λ cb, cb_OnStreamRequest cb (in_env i) streamID req);
      sds_answer i streamID req
  end.

(** [process] on a stream that delivers these requests and then ends; the
    deferred function runs when it returns. *)
Definition sds_process (env env' : cb_env) (streamID : Z) (defaultTypeURL : string) (inputs : list sds_input)
  : ST sds_state unit :=
  r ← try (
    _ ← sds_callback (λ cb, cb_OnStreamOpen cb env streamID defaultTypeURL);
    st_iter (sds_iteration streamID defaultTypeURL) inputs);
  _ ← sds_callback (λ cb, run_proc (cb_OnStreamClosed cb env' streamID));
  match r with inl e => fail e | inr _ => mret () end.

(** The variables of a new stream. *)
Definition new_stream (s : S) (cb : Cb) : sds_state := mkSdsState s cb 0 "" "" (Some (mkNode "" None)) [].
End Server.

(** ** The protocol of a stream *)

(** What a stream that goes on has done: empty requests are not answered, nor is
    a request that acknowledges the last response; any other is answered with the
    one secret it names, always the same one.  The last arguments are that name
    and the number of responses. *)
Inductive sds_session : list sds_action → string → Z → Prop :=
| ses_new : sds_session [] "" 0
| ses_empty l name n req :
    sds_session l name n → req_ResourceNames req = [] → sds_session (l ++ [SdsReceive req]) name n
| ses_ack l name n req :
    sds_session l name n → 0 < n → req_ResourceNames req = [name] → req_ResponseNonce req = itoa n →
    sds_session (l ++ [SdsReceive req]) name n
| ses_answer l name n req name' out :
    sds_session l name n → req_ResourceNames req = [name'] → name' ≠ "" → name = "" ∨ name = name' →
    n = 0 ∨ req_ResponseNonce req ≠ itoa n →
    dr_Nonce out = itoa (n + 1) → dr_TypeUrl out = SecretType → length (dr_Resources out) = 1%nat →
    sds_session (l ++ [SdsReceive req; SdsHandle req; SdsSend out]) name' (n + 1).

(** What the last iteration of a stream that failed may have done. *)
Definition sds_broken (name : string) (tail : list sds_action) : Prop :=
  tail = [] ∨ ∃ req, tail = [SdsReceive req]
  ∨ ∃ name', req_ResourceNames req = [name'] ∧ name' ≠ "" ∧ (name = "" ∨ name = name')
    ∧ (tail = [SdsReceive req; SdsHandle req] ∨ ∃ out, tail = [SdsReceive req; SdsHandle req; SdsSend out]).

Lemma itoa_nonempty n : itoa n ≠ "".
Proof. unfold itoa. destruct (n <? 0); [done|apply format_uint_nonempty]. Qed.

Definition received (a : sds_action) : option DiscoveryRequest :=
  match a with SdsReceive req => Some req | _ => None end.
Definition handled (a : sds_action) : option DiscoveryRequest :=
  match a with SdsHandle req => Some req | _ => None end.

Section Protocol.
Context {S E Cb : Type} (source : E → DiscoveryRequest → ST S EnvoySecret).
Context (Marshal : EnvoySecret → res string) (callbacks : option (Callbacks Cb)).
Context (fmt_request : DiscoveryRequest → string) (fmt_response : DiscoveryResponse → string).
Let T := @sds_state S Cb.

(** The variables the protocol is about. *)
Definition sds_vars (d : T) : Z * string * string * list sds_action :=
  (d_nonce d, d_resourceName d, d_secretNonce d, d_log d).

Lemma sds_callback_vars f (d : T) : outcome (sds_callback callbacks f) d (λ _ d', sds_vars d' = sds_vars d).
Proof.
  unfold sds_callback. destruct callbacks as [cb|]; [|done].
  unfold outcome, zoom. by destruct (f cb (d_cb d)).
Qed.

Lemma on_source_vars {A} (m : ST S A) (d : T) : outcome (on_source m) d (λ _ d', sds_vars d' = sds_vars d).
Proof. unfold outcome, on_source, zoom. by destruct (m (d_source d)). Qed.

Lemma sds_send_vars env id sent req secret (d : T) :
  outcome (sds_send Marshal callbacks fmt_response env id sent (toResponse env req secret) SecretType) d
    (λ r d', d_resourceName d' = d_resourceName d ∧ d_secretNonce d' = d_secretNonce d
       ∧ let n := wrap_int (d_nonce d + 1) in
         match r with
         | Ok nonce => nonce = itoa n ∧ d_nonce d' = n
             ∧ ∃ out, d_log d' = d_log d ++ [SdsSend out] ∧ dr_Nonce out = itoa n
                 ∧ dr_TypeUrl out = SecretType ∧ length (dr_Resources out) = 1%nat
         | _ => d_log d' = d_log d ∨ ∃ out, d_log d' = d_log d ++ [SdsSend out]
         end).
Proof.
  unfold sds_send. apply outcome_bind_lift; [|by auto..]. intros out Hout.
  apply rbind_Ok in Hout as (rs & Hrs & [= <-]). apply rmapM_length in Hrs. simpl in Hrs.
  apply outcome_bind_get. cbv zeta. apply outcome_bind_modify, outcome_bind.
  eapply outcome_mono; [apply sds_callback_vars|]. intros r d1 [= Hn Hr Hs Hl].
  destruct r as [[]|e|]; [|by auto..]. apply outcome_bind.
  destruct rs as [|x [|y rs]]; [done| |done]. apply outcome_ret. unfold sds_log. apply outcome_bind_modify.
  destruct sent as [e|]; [apply outcome_fail|apply outcome_ret]; simpl; rewrite Hl; eauto 10.
Qed.

(** The variables of a stream that goes on are those of its session. *)
Definition sds_inv (l : list sds_action) (name : string) (n : Z) (d : T) : Prop :=
  sds_session l name n ∧ sds_vars d = (n, name, (if n =? 0 then "" else itoa n), l).

Lemma sds_session_facts l name n : sds_session l name n → 0 ≤ n ∧ (n = 0 ↔ name = "").
Proof. induction 1; naive_solver lia. Qed.

Lemma validate_vars req (d : T) :
  outcome (validateSdsRequest fmt_request req) d (λ r d',
    d_nonce d' = d_nonce d ∧ d_secretNonce d' = d_secretNonce d ∧ d_log d' = d_log d
    ∧ (r = Ok () → ∃ name', req_ResourceNames req = [name'] ∧ name' ≠ "" ∧ d_resourceName d' = name'
         ∧ (d_resourceName d = "" ∨ d_resourceName d = name'))).
Proof.
  unfold validateSdsRequest. destruct (req_ResourceNames req) as [|x [|y names]]; [done| |done].
  destruct (String.eqb_spec x "") as [->|Hx]; [done|]. apply outcome_bind_get.
  destruct (String.eqb_spec (d_resourceName d) "") as [He|He].
  - apply outcome_bind_modify, outcome_bind_get. simpl. rewrite String.eqb_refl. simpl. apply outcome_ret.
    simpl. eauto 10.
  - apply outcome_bind, outcome_ret, outcome_bind_get.
    destruct (String.eqb_spec (d_resourceName d) x) as [Hd|Hd]; simpl; [apply outcome_ret|by apply outcome_fail].
    eauto 10.
Qed.

(** One iteration continues the session or breaks off. *)
Lemma sds_answer_step id i req l name n (d : T) :
  sds_session l name n → sds_vars d = (n, name, (if n =? 0 then "" else itoa n), l ++ [SdsReceive req]) →
  n < 2 ^ 63 - 1 →
  outcome (sds_answer source Marshal callbacks fmt_request fmt_response i id req) d (λ r d',
    match r with
    | Ok _ => ∃ tail name' n', d_log d' = l ++ SdsReceive req :: tail ∧ omap received tail = []
        ∧ n' ≤ n + 1 ∧ sds_inv (l ++ SdsReceive req :: tail) name' n' d'
    | _ => ∃ tail, d_log d' = l ++ tail ∧ sds_broken name tail
    end).
Proof.
  intros Hses [= Hn Hname Hsn Hlog] Hb. pose proof (sds_session_facts l name n Hses) as [Hn0 Hname0]. unfold sds_answer.
  destruct (Nat.eqb_spec (length (req_ResourceNames req)) 0) as [He%nil_length_inv|He].
  { apply outcome_ret. exists [], name, n. split; [done|]. split; [done|]. split; [lia|].
    split; [by constructor|]. unfold sds_vars. by rewrite Hn, Hname, Hsn, Hlog. }
  apply outcome_bind. eapply outcome_mono; [apply validate_vars|]. intros r d1 (Hn1 & Hs1 & Hl1 & Hv).
  destruct r as [[]|e|]; [|rewrite Hl1, Hlog; exists [SdsReceive req]; split; [done|]; right; eauto..].
  destruct Hv as (name' & Hnames & Hne & Hr1 & Hor); [done|]. apply outcome_bind_get. rewrite Hs1, Hsn.
  assert ((negb (String.eqb (if n =? 0 then "" else itoa n) "")
    && String.eqb (if n =? 0 then "" else itoa n) (req_ResponseNonce req)) = bool_decide (0 < n ∧ req_ResponseNonce req = itoa n)) as ->.
  { destruct (Z.eqb_spec n 0) as [->|Hnz]; [by rewrite bool_decide_eq_false_2 by lia|].
    rewrite (proj2 (String.eqb_neq (itoa n) "")) by apply itoa_nonempty.
    destruct (String.eqb_spec (itoa n) (req_ResponseNonce req)) as [Heq|Heq].
    - rewrite bool_decide_eq_true_2; [done|]. split; [lia|done].
    - rewrite bool_decide_eq_false_2; [done|]. by intros [_ ?]. }
  case_bool_decide as Hack.
  { destruct Hack as [Hpos Hack]. apply outcome_ret. exists [], name', n. split; [by rewrite Hl1|].
    split; [done|]. split; [lia|]. destruct Hor as [Hor|Hor]; [rewrite Hname in Hor; naive_solver lia|].
    rewrite Hname in Hor. rewrite <- Hor in Hnames, Hr1 |- *. split; [by apply ses_ack|]. unfold sds_vars. by rewrite Hn1, Hr1, Hs1, Hl1, Hn, Hsn, Hlog. }
  unfold sds_log at 1. apply outcome_bind_modify, outcome_bind.
  eapply outcome_mono; [apply on_source_vars|]. intros r d2 [= Hn2 Hr2 Hs2 Hl2]. simpl in *.
  assert (d_log d2 = l ++ [SdsReceive req; SdsHandle req]) as Hl2' by (by rewrite Hl2, Hl1, Hlog, <- app_assoc).
  rewrite Hname in Hor.
  destruct r as [secret|e|]; [|exists [SdsReceive req; SdsHandle req]; split; [done|]; right; exists req; right; exists name'; eauto 10..].
  apply outcome_bind. eapply outcome_mono; [apply sds_send_vars|]. cbv zeta.
  intros r d3 (Hr3 & Hs3 & Hr). rewrite Hn2, Hn1, Hn in Hr. rewrite (wrap_int_id (n + 1)) in Hr by lia.
  destruct r as [nonce|e|]; [|destruct Hr as [Hl3|[out Hl3]]; rewrite Hl2' in Hl3;
    [exists [SdsReceive req; SdsHandle req]|exists [SdsReceive req; SdsHandle req; SdsSend out]];
    (split; [by rewrite Hl3, <- ?app_assoc|]; right; exists req; right; exists name'; eauto 10)..].
  destruct Hr as (-> & Hn3 & out & Hl3 & Hout). apply outcome_modify. simpl.
  exists [SdsHandle req; SdsSend out], name', (n + 1). split; [by rewrite Hl3, Hl2', <- app_assoc|].
  split; [done|]. split; [lia|]. split.
  - destruct Hout as (? & ? & ?). eapply ses_answer; eauto. destruct (decide (n = 0)); [by left|right]. intros ?. apply Hack. split; [lia|done].
  - unfold sds_vars. simpl. rewrite Hn3, Hr3, Hr2, Hr1, Hl3, Hl2', <- app_assoc. simpl.
    rewrite (proj2 (Z.eqb_neq (n + 1) 0)) by lia. done.
Qed.

Lemma sds_iteration_step id typ i l name n (d : T) :
  sds_inv l name n d → n < 2 ^ 63 - 1 →
  outcome (sds_iteration source Marshal callbacks fmt_request fmt_response id typ i) d (λ r d',
    match r with
    | Ok _ => ∃ added name' n', length (omap received added) = 1%nat ∧ n' ≤ n + 1 ∧ sds_inv (l ++ added) name' n' d'
    | _ => ∃ tail, d_log d' = l ++ tail ∧ sds_broken name tail
    end).
Proof.
  intros [Hses [= Hn Hname Hsn Hlog]] Hb. unfold sds_iteration, sds_others. apply outcome_bind_modify.
  destruct (in_others i (d_source d, d_cb d)) as [s1 c1]. destruct (in_req i) as [req|]; cycle 1.
  { apply outcome_fail. simpl. exists []. rewrite app_nil_r. split; [done|by left]. }
  apply outcome_bind_get. simpl. unfold sds_set_node, sds_log. apply outcome_bind_modify. simpl.
  apply outcome_bind_modify, outcome_bind. eapply outcome_mono; [apply sds_callback_vars|]. simpl.
  match goal with |- context [SdsReceive ?r] => set (req' := r) end.
  intros r d1 [= Hn1 Hr1 Hs1 Hl1]. simpl in *.
  destruct r as [[]|e|]; [|exists [SdsReceive req']; rewrite Hl1, Hlog; split; [done|]; right; eauto..].
  eapply outcome_mono; [apply (sds_answer_step id i req' l name n d1 Hses)|].
  - unfold sds_vars. by rewrite Hn1, Hr1, Hs1, Hl1, Hn, Hname, Hsn, Hlog.
  - done.
  - intros r d2. destruct r as [u|e|]; [|done..]. intros (tail & name' & n' & _ & Ht & Hn' & Hinv).
    exists (SdsReceive req' :: tail), name', n'. split; [|done].
    change (omap received (SdsReceive req' :: tail)) with (req' :: omap received tail). by rewrite Ht.
Qed.

Lemma sds_loop_session id typ inputs l name n (d : T) :
  sds_inv l name n d → n + Z.of_nat (length inputs) < 2 ^ 63 →
  outcome (st_iter (sds_iteration source Marshal callbacks fmt_request fmt_response id typ) inputs) d (λ r d',
    ∃ added name' n' tail, sds_session (l ++ added) name' n' ∧ d_log d' = l ++ added ++ tail ∧ sds_broken name' tail
    ∧ (r = Ok () → tail = [] ∧ length (omap received added) = length inputs)).
Proof.
  revert l name n d; induction inputs as [|i inputs IH]; intros l name n d Hinv Hb; cbn [st_iter length] in *.
  { apply outcome_ret. exists [], name, n, []. destruct Hinv as [Hs [= _ _ _ Hl]]. rewrite !app_nil_r.
    split; [done|]. split; [done|]. split; [by left|done]. }
  apply outcome_bind. eapply outcome_mono; [apply (sds_iteration_step id typ i l name n d Hinv); lia|].
  intros r d1 Hr. destruct r as [u|e|].
  - destruct Hr as (added & name' & n' & Hrec & Hn' & Hinv').
    eapply outcome_mono; [apply (IH _ name' n' d1 Hinv'); lia|].
    intros r d2 (added2 & name2 & n2 & tail & Hs & Hl & Hbr & Hok). exists (added ++ added2), name2, n2, tail.
    rewrite <- app_assoc in Hs, Hl. rewrite <- app_assoc. split; [done|]. split; [done|]. split; [done|].
    intros [-> Hlen]%Hok. split; [done|]. by rewrite omap_app, length_app, Hrec, Hlen.
  - destruct Hr as (tail & Hl & Hbr). destruct Hinv as [Hs _]. exists [], name, n, tail. rewrite app_nil_r. done.
  - destruct Hr as (tail & Hl & Hbr). destruct Hinv as [Hs _]. exists [], name, n, tail. rewrite app_nil_r. done.
Qed.

(** Only requests that name one secret reach the source. *)
Lemma sds_session_handles l name n : sds_session l name n →
  ∀ req, SdsHandle req ∈ l → ∃ x, x ≠ "" ∧ req_ResourceNames req = [x].
Proof. induction 1; intros r Hin; set_unfold; naive_solver. Qed.

Lemma sds_broken_handles name tail : sds_broken name tail →
  ∀ req, SdsHandle req ∈ tail → ∃ x, x ≠ "" ∧ req_ResourceNames req = [x].
Proof.
  intros [->|(req & [->|(x & Hr & Hx & _ & [->|[out ->]])])] r Hin; set_unfold; naive_solver.
Qed.

Lemma sds_process_session env env' id typ inputs s cb :
  Z.of_nat (length inputs) < 2 ^ 63 →
  outcome (sds_process source Marshal callbacks fmt_request fmt_response env env' id typ inputs) (new_stream s cb)
    (λ r d, ∃ l name n tail, sds_session l name n ∧ d_log d = l ++ tail ∧ sds_broken name tail
       ∧ (r = Ok () → tail = [] ∧ length (omap received l) = length inputs)).
Proof.
  intros Hb.
  set (Q := λ (r : res unit) (d : T), ∃ l name n tail, sds_session l name n ∧ d_log d = l ++ tail
    ∧ sds_broken name tail ∧ (r = Ok () → tail = [] ∧ length (omap received l) = length inputs)).
  assert (∀ r r' (d d' : T), Q r d → d_log d' = d_log d → (r' = Ok () → r = Ok ()) → Q r' d') as HQ.
  { intros r r' d d' (l & name & n & tail & Hs & Hl & Hbr & Hok) Hd Hr. exists l, name, n, tail.
    rewrite Hd. split_and!; auto. }
  unfold sds_process. apply outcome_bind, outcome_try, outcome_bind.
  eapply outcome_mono; [apply sds_callback_vars|]. intros r d1 Hv.
  assert (sds_inv [] "" 0 d1) as Hinv by (split; [constructor|exact Hv]).
  assert (∀ r' d', Q r' d' → outcome (sds_callback callbacks (λ cb, run_proc (cb_OnStreamClosed cb env' id)) ≫= λ _,
    match r' with Ok _ => mret () | Err e => fail e | Panic => st_panic end) d' Q) as Hclose.
  { intros r' d' Hq. apply outcome_bind. eapply outcome_mono; [apply sds_callback_vars|].
    intros r2 d2 [= _ _ _ Hl2]. destruct r2 as [u|e|]; [|by eapply HQ..].
    destruct r' as [[]|e|]; [apply outcome_ret|apply outcome_fail|]; by eapply HQ. }
  destruct r as [u|e|].
  - eapply outcome_mono; [apply (sds_loop_session id typ inputs [] "" 0 d1 Hinv); lia|].
    intros r d2 Hq. assert (Q r d2) as Hq2 by exact Hq.
    destruct r as [[]|e|]; [exact (Hclose (Ok ()) d2 Hq2)|exact (Hclose (Err e) d2 Hq2)|exact Hq2].
  - apply (Hclose (Err e) d1). destruct Hinv as [? [= _ _ _ Hl]]. exists [], "", 0, []. split; [constructor|]. split; [done|].
    by split; [left|].
  - destruct Hinv as [? [= _ _ _ Hl]]. exists [], "", 0, []. split; [constructor|]. split; [done|].
    by split; [left|].
Qed.

(** C21: What the secret discovery server does on a stream, whatever the source of
    secrets, the callbacks and the other streams do in between.  As long as the
    stream goes on it follows the protocol: a request without resource names or
    that acknowledges the last response is not answered, every other request is
    answered by exactly one response, with one secret and the next nonce, and all
    of them name the same secret; a stream that ends normally has read every
    request.  A stream that fails does so within one iteration.  The source is
    only ever asked for exactly one named secret. *)
Theorem sds_stream_session env env' id typ inputs s cb :
  Z.of_nat (length inputs) < 2 ^ 63 →
  let '(r, d) := sds_process source Marshal callbacks fmt_request fmt_response env env' id typ inputs
                   (new_stream s cb) in
  (∃ l name n tail, sds_session l name n ∧ d_log d = l ++ tail ∧ sds_broken name tail
     ∧ (r = Ok () → tail = [] ∧ length (omap received l) = length inputs))
  ∧ ∀ req, SdsHandle req ∈ d_log d → ∃ name, name ≠ "" ∧ req_ResourceNames req = [name].
Proof.
  intros Hb. pose proof (sds_process_session env env' id typ inputs s cb Hb) as Hw. unfold outcome in Hw.
  destruct (sds_process _ _ _ _ _ _ _ _ _ _ _) as [r d]. simpl in Hw. split; [done|].
  destruct Hw as (l & name & n & tail & Hs & -> & Hbr & _). intros req [Hin|Hin]%elem_of_app.
  - by eapply sds_session_handles.
  - by eapply sds_broken_handles.
Qed.
End Protocol.

(** ** Certificates of dataplanes *)

Section Identity.
Context `{LawfulJsonpb} `{Cipher} {Seed Key : Type} `{X509 Seed Key} `{JWT}.
Context (ptypes_Duration : Duration → option Z) (ResourceFromYaml_error : string → option string).
Context (caManagers : gmap string (CaManager Seed memoryStore)) (registry : typeRegistry) (seed0 : Seed).
Let manager (d : nat) : ReadOnlyResourceManager memoryStore :=
  read_only (customizableManager ptypes_Duration ResourceFromYaml_error (NewSecretManager NewSecretStore)
               caManagers registry seed0 d).

(** What the resource manager of the control plane reads is what is stored. *)
Lemma control_plane_get d k fs c :
  get_resource (T := message_of k) (manager (S d)) k fs c
  = get_resource (T := message_of k) (read_only (ControlPlane.memory_manager ptypes_Duration ResourceFromYaml_error)) k fs c.
Proof.
  unfold get_resource, manager. cbn [customizableManager read_only NewCustomizableResourceManager mgr_Get].
  unfold resourceManager, GetType. change (o_Kind (new_object k)) with (kind_of_spec (zero_spec k)).
  rewrite kind_of_zero. destruct (decide (k = KMesh)) as [->|Hk].
  - rewrite lookup_singleton_eq. reflexivity.
  - rewrite lookup_singleton_ne; [reflexivity|]. intros Heq. apply Hk. symmetry. by apply type_name_inj.
Qed.

Lemma get_found d k name mesh c r c' :
  rtc memory_step NewStore c →
  get_resource (T := message_of k) (manager (S d)) k [GetByKey name mesh] c = (Ok r, c') →
  c' = c ∧ found c k name (key_mesh k name mesh) r ∧ GetMesh (r_Meta r) = key_mesh k name mesh.
Proof.
  intros Hc. rewrite control_plane_get. pose proof (get_resource_memory ptypes_Duration ResourceFromYaml_error
    c k name mesh Hc) as Hg. destruct (abs c !! _).
  - destruct Hg as (r' & Hg & Hf & Hm). rewrite Hg. by intros [= <- <-].
  - destruct Hg as (e & Hg & _). rewrite Hg. done.
Qed.

Lemma wrapf_err_Ok {St A} msg args (m : ST St A) s a s' :
  wrapf_err msg args m s = (Ok a, s') ↔ m s = (Ok a, s').
Proof. unfold wrapf_err. by destruct (m s) as [[x|e|] s1]. Qed.

Lemma st_lift_Ok {St A} (r : res A) (s : St) a s' : st_lift r s = (Ok a, s') ↔ r = Ok a ∧ s' = s.
Proof. unfold st_lift. naive_solver. Qed.

(** What a provider finds out about the mesh. *)
Definition authority (c : memoryStore) (meshName : string) (backend : CertificateAuthorityBackend)
    (ca : CaManager Seed memoryStore) : Prop :=
  ∃ mesh : MeshResource, found c KMesh meshName meshName mesh
    ∧ GetEnabledCertificateAuthorityBackend mesh = Some backend ∧ caManagers !! ca_Type backend = Some ca.

Lemma identityCert_Ok d now seed requestor c secret c' :
  rtc memory_step NewStore c →
  identityCertProvider_Get (manager (S d)) caManagers now seed requestor c = (Ok secret, c') →
  c' = c ∧ ∃ backend ca pair, authority c (id_Mesh requestor) backend ca
    ∧ ca_GenerateDataplaneCert ca now seed c (id_Mesh requestor) backend (id_Service requestor) = Ok pair
    ∧ secret = IdentityCertSecret [CertPEM pair] (KeyPEM pair).
Proof.
  intros Hc. unfold identityCertProvider_Get. intros (mesh & c1 & Hm & Hr)%ST_bind_Ok.
  apply wrapf_err_Ok in Hm. destruct (get_found d KMesh _ _ c mesh c1 Hc Hm) as (-> & Hf & _).
  destruct (GetEnabledCertificateAuthorityBackend mesh) as [backend|] eqn:Eb; [|done].
  apply ST_bind_Ok in Hr as (ca & c1 & Hca & Hr). unfold ca_manager in Hca.
  destruct (caManagers !! ca_Type backend) as [ca'|] eqn:El; [|done]. injection Hca as -> <-.
  apply ST_bind_Ok in Hr as (s & c1 & [= <- <-] & Hr). apply ST_bind_Ok in Hr as (pair & c1 & Hp & [= <- <-]).
  apply wrapf_err_Ok, st_lift_Ok in Hp as [Hp ->]. split; [done|]. exists backend, ca, pair.
  split; [by exists mesh|]. done.
Qed.

Lemma meshCa_Ok d requestor c secret c' :
  rtc memory_step NewStore c →
  meshCaProvider_Get (manager (S d)) caManagers requestor c = (Ok secret, c') →
  c' = c ∧ ∃ backend ca certs, authority c (id_Mesh requestor) backend ca
    ∧ ca_GetRootCert ca c (id_Mesh requestor) backend = Ok certs ∧ secret = MeshCaSecret certs.
Proof.
  intros Hc. unfold meshCaProvider_Get. intros (mesh & c1 & Hm & Hr)%ST_bind_Ok.
  apply wrapf_err_Ok in Hm. destruct (get_found d KMesh _ _ c mesh c1 Hc Hm) as (-> & Hf & _).
  destruct (GetEnabledCertificateAuthorityBackend mesh) as [backend|] eqn:Eb; [|done].
  apply ST_bind_Ok in Hr as (ca & c1 & Hca & Hr). unfold ca_manager in Hca.
  destruct (caManagers !! ca_Type backend) as [ca'|] eqn:El; [|done]. injection Hca as -> <-.
  apply ST_bind_Ok in Hr as (s & c1 & [= <- <-] & Hr). apply ST_bind_Ok in Hr as (certs & c1 & Hp & [= <- <-]).
  apply wrapf_err_Ok, st_lift_Ok in Hp as [Hp ->]. split; [done|]. exists backend, ca, certs.
  split; [by exists mesh|]. done.
Qed.

(** The identity of a proxy is that of its dataplane. *)
Lemma resolve_identity_Ok d proxyId c identity c' :
  rtc memory_step NewStore c →
  resolve_identity (DefaultDataplaneResolver (manager (S d))) proxyId c = (Ok identity, c') →
  c' = c ∧ ∃ dp : DataplaneResource, found c KDataplane (pid_Name proxyId) (pid_Mesh proxyId) dp
    ∧ id_Mesh identity = pid_Mesh proxyId
    ∧ id_Service identity ∈ MultiValueTagSet_Values (Dataplane_Tags (r_Spec dp)) ServiceTag
    ∧ id_Service identity = GetIdentifyingService (r_Spec dp).
Proof.
  intros Hc. unfold resolve_identity. intros (dp & c1 & Hd & Hr)%ST_bind_Ok.
  apply wrapf_err_Ok in Hd. destruct (get_found d KDataplane _ _ c dp c1 Hc Hd) as (-> & Hf & Hm). apply st_lift_Ok in Hr as [Hr ->].
  split; [done|]. exists dp. split; [exact Hf|]. unfold GetDataplaneIdentity in Hr. unfold GetIdentifyingService.
  destruct (MultiValueTagSet_Values _ _) as [|service rest]; [done|]. injection Hr as <-. simpl.
  split; [done|]. split; [constructor|done].
Qed.

(** A token that passes the review. *)
Lemma reviewed key id token :
  universal_reviewToken (NewDataplaneTokenIssuer key) id token = Ok () ↔
  ParseWithClaims token key = Ok (mkClaims (pid_Name id) (pid_Mesh id), true).
Proof.
  unfold universal_reviewToken. simpl. unfold token_Validate. destruct id as [mesh name]. simpl.
  destruct (ParseWithClaims token key) as [[[n m] valid]|e|]; simpl; [|by split..].
  destruct valid; simpl; [|by split].
  destruct (String.eqb_spec name n) as [->|Hn]; simpl; [|split; [done|intros [= ? ?]; by subst]].
  destruct (String.eqb_spec mesh m) as [->|Hm]; simpl; [by split|]. split; [done|intros [= ?]; by subst].
Qed.

(** C20: Secrets reach the proxies they are meant for.  Over the memory store and
    with dataplane tokens, whoever gets an identity certificate presented a token
    that is valid under the signing key and names exactly the proxy of the
    request; the certificate is the one that the enabled authority of that
    proxy's mesh issues for the identifying service of the stored dataplane.  The
    roots of a mesh are those of its enabled authority.  No other secret is
    served, and nothing is written. *)
Theorem secrets_of_proxy d key ctx req c secret c' :
  rtc memory_step NewStore c →
  SecretDiscoveryHandler (manager (S d)) caManagers
    (NewAuthenticator (DefaultDataplaneResolver (manager (S d))) (NewDataplaneTokenIssuer key)) ctx req c
    = (Ok secret, c') →
  c' = c ∧ ∃ id backend ca, ParseProxyId (req_Node req) = Ok id ∧ authority c (pid_Mesh id) backend ca
  ∧ ((es_Name secret = IdentityCertResource
      ∧ ∃ token (dp : DataplaneResource) pair, ExtractCredential (sc_metadata ctx) = Ok token
        ∧ ParseWithClaims token key = Ok (mkClaims (pid_Name id) (pid_Mesh id), true)
        ∧ found c KDataplane (pid_Name id) (pid_Mesh id) dp
        ∧ ca_GenerateDataplaneCert ca (sc_now ctx) (sc_seed ctx) c (pid_Mesh id) backend
            (GetIdentifyingService (r_Spec dp)) = Ok pair
        ∧ GetIdentifyingService (r_Spec dp) ∈ MultiValueTagSet_Values (Dataplane_Tags (r_Spec dp)) ServiceTag
        ∧ es_Type secret = TlsCertificate (CertPEM pair) (KeyPEM pair))
     ∨ (es_Name secret = MeshCaResource
        ∧ ∃ certs, ca_GetRootCert ca c (pid_Mesh id) backend = Ok certs
          ∧ es_Type secret = ValidationContext (join newline certs))).
Proof.
  intros Hc. unfold SecretDiscoveryHandler. destruct (req_ResourceNames req) as [|resource names]; [done|].
  intros (provider & c1 & Hp & Hr)%ST_bind_Ok. apply st_lift_Ok in Hp as [Hp ->].
  apply ST_bind_Ok in Hr as (id & c1 & Hid & Hr). apply wrapf_err_Ok, st_lift_Ok in Hid as [Hid ->].
  apply ST_bind_Ok in Hr as (requestor & c1 & Hreq & Hr). apply ST_bind_Ok in Hr as (sec & c2 & Hget & [= <- <-]).
  unfold DefaultSecretProviderSelector in Hp.
  destruct (String.eqb_spec resource MeshCaResource) as [->|_]; [injection Hp as <-; simpl in *|].
  - injection Hreq as <- <-. apply meshCa_Ok in Hget as (-> & backend & ca & certs & Ha & Hroot & ->); [|done].
    split; [done|]. exists id, backend, ca. split; [done|]. split; [done|]. right. split; [done|]. by exists certs.
  - destruct (String.eqb_spec resource IdentityCertResource) as [->|_]; [|done]. injection Hp as <-. simpl in *.
    apply ST_bind_Ok in Hreq as (token & c3 & Htok & Hreq). apply st_lift_Ok in Htok as [Htok ->].
    unfold NewAuthenticator in Hreq. apply ST_bind_Ok in Hreq as ([] & c3 & Hrev & Hreq).
    apply st_lift_Ok in Hrev as [Hrev ->].
    apply resolve_identity_Ok in Hreq as (-> & dp & Hf & Hm & Hin & Hs); [|done].
    apply identityCert_Ok in Hget as (-> & backend & ca & pair & Ha & Hgen & ->); [|done].
    rewrite Hm in Ha, Hgen. rewrite Hs in Hgen, Hin. split; [done|]. exists id, backend, ca.
    split; [done|]. split; [done|]. left. split; [done|]. exists token, dp, pair. split; [done|].
    split; [|done]. by apply reviewed.
Qed.
End Identity.

(** ** Tokens and their signing key *)

(** A token that was generated for a proxy is valid under the same key for
    that proxy, and authenticates no other one. *)
Theorem token_roundtrip `{LawfulJWT} key id token :
  Generate (NewDataplaneTokenIssuer key) id = Ok token →
  Validate_token (NewDataplaneTokenIssuer key) token = Ok id
  ∧ ∀ id', universal_reviewToken (NewDataplaneTokenIssuer key) id' token = Ok () ↔ id' = id.
Proof.
  simpl. unfold token_Generate. intros Hs%wrap_err_Ok%signed_valid. split.
  - unfold token_Validate. rewrite Hs. by destruct id.
  - intros [mesh' name']. rewrite reviewed, Hs. destruct id as [mesh name]. simpl. naive_solver.
Qed.

Section SigningKeyMemory.
Context `{LawfulJsonpb} `{LawfulCipher} {Seed Key : Type} `{X509 Seed Key}.
Let manager : SecretManager memoryStore := NewSecretManager NewSecretStore.

(** The signing key of the control plane.  When [CreateDefaultSigningKey]
    returns without an error there is a key, every later call leaves it as it is,
    and a key that could be read before is still the same, so that the tokens
    that were issued stay valid. *)
Theorem signing_key_stable now seed c :
  rtc memory_step NewStore c →
  let (e, c') := CreateDefaultSigningKey manager now seed c in
  e = Ok () →
  rtc memory_step NewStore c' ∧
  ∃ key, GetSigningKey manager c' = Ok key
    ∧ (∀ key0, GetSigningKey manager c = Ok key0 → key0 = key ∧ c' = c)
    ∧ ∀ now' seed' k, createSigningKey seed' = Ok k →
        CreateDefaultSigningKey manager now' seed' c' = (Ok (), c').
Proof.
  intros Hc. unfold CreateDefaultSigningKey. destruct (createSigningKey seed) as [sec|e|] eqn:Ek; [|done..].
  unfold createSigningKey in Ek. apply rbind_Ok in Ek as (k & _ & [= <-]). unfold storeKeyIfNotExist at 1, GetSigningKey.
  assert (∀ c1 o, sm_Get manager c1 (new_object KSecret) [GetBy signingKeyResourceKey] = (Ok (), o) →
    ∀ now' seed' k', createSigningKey seed' = Ok k' →
      match createSigningKey seed' with
      | Ok key => storeKeyIfNotExist manager now' c1 key
      | Err e => (Err e, c1)
      | Panic => (Panic, c1)
      end = (Ok (), c1)) as Hstable.
  { intros c1 o Ho now' seed' k' ->. unfold storeKeyIfNotExist. by rewrite Ho. }
  destruct (sm_Get manager c _ _) as [err o] eqn:Eg. destruct err as [[]|err|]; [| |done].
  - intros _. split; [done|]. exists (secret_value o). rewrite Eg. split; [done|]. split; [by intros ? [= <-]|].
    by eapply Hstable.
  - destruct (IsResourceNotFound err); [|done].
    destruct (sm_Create manager now c _ _) as [e [c1 o1]] eqn:Ecr. intros He%wrap_err_Ok. subst e.
    apply secret_create in Ecr as (Hc1 & _ & _ & _ & (o2 & Hr & Hsp) & _); [|done]. split; [done|].
    unfold read_secret in Hr. exists (secret_value o2). fold manager in Hr. rewrite Hr. split; [done|].
    split; [done|]. by eapply Hstable.
Qed.
End SigningKeyMemory.

(** ** Concrete instances *)

#[local] Existing Instance sample_X509.

(** A codec for tokens of one proxy. *)
Definition sample_claims : claims := mkClaims "dp-1" "default".
#[local] Instance claims_eq_dec : EqDecision claims.
Proof. solve_decision. Defined.
#[local] Instance sample_JWT : JWT :=
  {| SignedString := λ c key, if decide (c = sample_claims) then Ok ("signed with " +:+ key) else Err (Errorf "unknown" []);
     ParseWithClaims := λ token key,
       if String.eqb token ("signed with " +:+ key) then Ok (sample_claims, true) else Err (Errorf "bad token" []) |}.
#[local] Instance sample_JWT_lawful : LawfulJWT.
Proof.
  constructor. intros c key token. cbn [SignedString ParseWithClaims sample_JWT]. case_decide as Hc; [|done].
  intros [= <-]. by rewrite String.eqb_refl, Hc.
Qed.

Lemma token_roundtrip_witness :
  Validate_token (NewDataplaneTokenIssuer "k") "signed with k" = Ok (mkProxyId "default" "dp-1").
Proof. by apply (token_roundtrip "k" (mkProxyId "default" "dp-1") "signed with k"). Defined.

Lemma signing_key_stable_witness :
  let (e, c') := CreateDefaultSigningKey sample_secrets 0 () NewStore in
  e = Ok () ∧ GetSigningKey sample_secrets c' = Ok "key".
Proof.
  pose proof (@signing_key_stable sample_jsonpb sample_jsonpb_lawful mark_cipher mark_lawful unit unit sample_X509
    0 () NewStore (rtc_refl _ _)) as Hw. fold sample_secrets in Hw.
  assert ((CreateDefaultSigningKey sample_secrets 0 () NewStore).1 = Ok ()
    ∧ GetSigningKey sample_secrets (CreateDefaultSigningKey sample_secrets 0 () NewStore).2 = Ok "key")
    as [He Hk] by (vm_compute; by split).
  destruct (CreateDefaultSigningKey sample_secrets 0 () NewStore) as [e c']. cbn [fst snd] in He, Hk.
  split; [exact He|]. destruct (Hw He) as (_ & key & Hg & _). rewrite Hg in Hk. rewrite Hg. exact Hk.
Defined.

(** A stream of three requests: the second acknowledges the response to the
    first, the third has no names. *)
Definition sds_request (names : list string) (nonce : string) : DiscoveryRequest :=
  mkRequest None "" names "" nonce None.
Definition sds_inputs : list (@sds_input unit unit unit) :=
  (λ req, mkSdsInput (Some req) (mkEnv 0 "v1") () None id)
  <$> [sds_request ["mesh_ca"] ""; sds_request ["mesh_ca"] "1"; sds_request [] ""].
Definition sample_source (ctx : unit) (req : DiscoveryRequest) : ST unit EnvoySecret :=
  mret (mkEnvoySecret "mesh_ca" (ValidationContext "root")).

Lemma sds_stream_session_witness :
  let '(r, d) := sds_process sample_source (λ _, Ok "bytes") (Some LoggingCallbacks) (λ _, "") (λ _, "")
                   (mkEnv 0 "") (mkEnv 0 "") 1 SecretType sds_inputs (new_stream () ()) in
  r = Ok () ∧ length (d_log d) = 5%nat ∧ ∃ name n, sds_session (d_log d) name n.
Proof.
  pose proof (@sds_stream_session unit unit unit sample_source (λ _, Ok "bytes") (Some LoggingCallbacks) (λ _, "")
    (λ _, "") (mkEnv 0 "") (mkEnv 0 "") 1 SecretType sds_inputs () () eq_refl) as Hw.
  destruct (sds_process _ _ _ _ _ _ _ _ _ _ _) as [r d] eqn:E. vm_compute in E. injection E as <- <-.
  split; [reflexivity|]. split; [reflexivity|]. destruct Hw as [(l & name & n & tail & Hs & Hl & _ & Hok) _].
  destruct Hok as [-> _]; [reflexivity|]. rewrite app_nil_r in Hl. exists name, n. rewrite Hl. exact Hs.
Defined.

(** A codec for meshes with an authority and for one dataplane, and a store with
    the mesh [default], its root and the dataplane [dp-1]. *)
#[local] Instance sds_jsonpb : Jsonpb :=
  {| jsonpb_Marshal := λ spec,
       match spec with DataplaneSpec _ => @jsonpb_Marshal dp_jsonpb spec | _ => @jsonpb_Marshal mesh_jsonpb spec end;
     jsonpb_Unmarshal := λ s out,
       match out with DataplaneSpec _ => @jsonpb_Unmarshal dp_jsonpb s out | _ => @jsonpb_Unmarshal mesh_jsonpb s out end |}.
#[local] Instance sds_jsonpb_lawful : LawfulJsonpb.
Proof.
  constructor; [by intros s []|]. intros spec s Hs.
  destruct spec; try by apply (@unmarshal_marshal _ mesh_jsonpb_lawful). by apply (@unmarshal_marshal _ dp_jsonpb_lawful).
Qed.

Definition created (c : memoryStore) (x : Object * ResourceKey) : memoryStore :=
  (memory_Create c x.1 [CreateBy x.2]).2.1.
Definition sds_objects : list (Object * ResourceKey) :=
  [(new_secret "#root", certSecretResKey "default" "ca-1"); (new_secret "#key", keySecretResKey "default" "ca-1");
   (mkObject None (MeshSpec (mesh_with_ca "ca-1")), mkKey "default" "default");
   (mkObject None (DataplaneSpec dp_spec), mkKey "default" "dp-1")].
Definition sds_store : memoryStore := Eval vm_compute in foldl created NewStore sds_objects.

Lemma sds_store_reachable : rtc memory_step NewStore sds_store.
Proof.
  assert (∀ l c, rtc memory_step NewStore c → rtc memory_step NewStore (foldl created c l)) as Hl.
  { induction l as [|x l IH]; intros c Hc; [done|]. apply IH. eapply rtc_r; [exact Hc|apply step_Create]. }
  assert (sds_store = foldl created NewStore sds_objects) as -> by (vm_compute; reflexivity). by apply Hl.
Qed.

#[local] Existing Instance mark_cipher.
Definition sds_secrets : SecretManager memoryStore := NewSecretManager NewSecretStore.
Definition sds_cas : gmap string (CaManager unit memoryStore) :=
  {["builtin" := NewBuiltinCaManager sds_secrets ca_Name]}.
Definition sds_manager : ReadOnlyResourceManager memoryStore :=
  read_only (customizableManager sample_Duration sample_Yaml sds_secrets sds_cas sample_registry () 1).

Lemma secrets_of_proxy_witness :
  let ctx := mkSdsContext 0 () (Some {["authorization" := ["signed with k"]]}) in
  let req := with_node (sds_request ["identity_cert"] "") (Some (mkNode "default.dp-1" None)) in
  (SecretDiscoveryHandler sds_manager sds_cas
     (NewAuthenticator (DefaultDataplaneResolver sds_manager) (NewDataplaneTokenIssuer "k")) ctx req sds_store).1
  = Ok (mkEnvoySecret "identity_cert" (TlsCertificate "workload" "key"))
  ∧ ∃ dp : DataplaneResource, found sds_store KDataplane "dp-1" "default" dp.
Proof.
  intros ctx req. set (run := SecretDiscoveryHandler _ _ _ _ _ _).
  assert (run.1 = Ok (mkEnvoySecret "identity_cert" (TlsCertificate "workload" "key"))) as Hr by (vm_compute; reflexivity).
  split; [exact Hr|]. destruct run as [r c'] eqn:E. cbn [fst] in Hr. rewrite Hr in E.
  destruct (secrets_of_proxy sample_Duration sample_Yaml sds_cas sample_registry () 0 "k" ctx req sds_store
    (mkEnvoySecret "identity_cert" (TlsCertificate "workload" "key")) c') as (_ & id & backend & ca & Hid & _ & Hor).
  - apply sds_store_reachable.
  - exact E.
  - injection Hid as <-. destruct Hor as [(_ & token & dp & pair & _ & _ & Hf & _)|[Hn _]]; [|discriminate Hn].
    exists dp. exact Hf.
Defined.
