(* ===== verification/Mads.v ===== *)
(** * Monitoring assignments

    Models [pkg/mads]: the generator of assignments, the generator of snapshots
    and the discovery server over the snapshot cache, with the reconciler of
    [SnapshotCache].

    The server is a transition system whose steps are the iterations of its
    streams, the reconciliation of a node and the background work of the
    callbacks, in any order.  A stream receives from the channel of its last
    watch what the cache sent there. *)

From S2P Require Import Prelude Effects GoStd Tags Dataplane Policy MeshResources Validators Insights Resources Store.
From S2P Require Import MemoryStore Manager CoreXds SnapshotCache StatusTracker Callbacks XdsServer Topology ControlPlane.
Local Open Scope Z_scope.

(** ** GetPrometheusEndpoint *)

(** [proto.Merge] on Prometheus settings, the second possibly nil. *)
Class ProtoMerge : Type := proto_Merge : Prometheus → option Prometheus → Prometheus.

Definition GetPrometheusEndpoint `{ProtoMerge} (d : option DataplaneResource) (mesh : option MeshResource) : option Prometheus :=
  match d, mesh with
  | Some d, Some mesh =>
      if negb (String.eqb (GetName (r_Meta mesh)) (GetMesh (r_Meta d))) || negb (HasPrometheusMetricsEnabled (Some mesh))
      then None
      else
        let result := proto_Merge (mkPrometheus 0 "") (mesh_Metrics (r_Spec mesh) ≫= met_Prometheus) in
        Some (proto_Merge result (dp_Metrics (r_Spec d) ≫= met_Prometheus))
  | _, _ => None
  end.

(** ** generator/assignments.go *)

(** Labels of the Prometheus library. *)
Definition AddressLabel : string := "__address__".
Definition SchemeLabel : string := "__scheme__".
Definition MetricsPathLabel : string := "__metrics_path__".
Definition JobLabel : string := "job".
Definition InstanceLabel : string := "instance".
Definition meshLabel : string := "mesh".
Definition dataplaneLabel : string := "dataplane".

(** [MonitoringAssignment]; a target is its labels. *)
Record MonitoringAssignment : Type := mkAssignment {
  ma_Name : string;
  ma_Targets : list (gmap string string);
  ma_Labels : gmap string string;
}.
#[global] Instance MonitoringAssignment_eq_dec : EqDecision MonitoringAssignment.
Proof. solve_decision. Defined.

Section Generator.
(** [strutil.SanitizeLabelName] of Prometheus. *)
Context `{Hmerge : ProtoMerge} (SanitizeLabelName : string → string).

Definition indexMeshes (meshes : list MeshResource) : gmap string MeshResource :=
  foldl (λ index mesh, <[GetName (r_Meta mesh) := mesh]> index) ∅ meshes.

Definition assignmentName (dataplane : DataplaneResource) : string :=
  "/meshes/" +:+ GetMesh (r_Meta dataplane) +:+ "/dataplanes/" +:+ GetName (r_Meta dataplane).

Definition addressLabel (dataplane : DataplaneResource) (endpoint : Prometheus) : res (gmap string string) :=
  let? ip := GetIP (Some dataplane) in
  Ok {[ AddressLabel := JoinHostPort ip (format_uint (prom_Port endpoint)) ]}.

Definition multiValue (values : list string) : string := "," +:+ join "," values +:+ ",".

(** The labels of one tag. *)
Definition tag_labels (tags : MultiValueTagSet) (labels : gmap string string) (key : string) : gmap string string :=
  let values := MultiValueTagSet_Values tags key in
  let labels := <[SanitizeLabelName key := match values with value :: _ => value | [] => "" end]> labels in
  <[SanitizeLabelName (key +:+ "s") := multiValue values]> labels.

Definition dataplaneLabels (dataplane : DataplaneResource) (endpoint : Prometheus) : gmap string string :=
  let tags := Dataplane_Tags (r_Spec dataplane) in
  let labels := foldl (tag_labels tags) ∅ (MultiValueTagSet_Keys tags) in
  let labels := foldl (λ labels '(key, value), <[SanitizeLabelName key := value]> labels) labels
                  (map_to_list (GetNameExtensions (r_Meta dataplane))) in
  let labels := <[SchemeLabel := "http"]> labels in
  let labels := <[MetricsPathLabel := prom_Path endpoint]> labels in
  let labels := <[JobLabel := GetIdentifyingService (r_Spec dataplane)]> labels in
  let labels := <[InstanceLabel := GetName (r_Meta dataplane)]> labels in
  let labels := <[meshLabel := GetMesh (r_Meta dataplane)]> labels in
  <[dataplaneLabel := GetName (r_Meta dataplane)]> labels.

(** One iteration of [Generate]; an assignment is also its own name. *)
Definition generate_step (meshIndex : gmap string MeshResource) (resources : list MonitoringAssignment)
    (dataplane : DataplaneResource) : res (list MonitoringAssignment) :=
  match meshIndex !! GetMesh (r_Meta dataplane) with
  | None => Ok resources
  | Some mesh =>
      match GetPrometheusEndpoint (Some dataplane) (Some mesh) with
      | None => Ok resources
      | Some prometheusEndpoint =>
          let? address := addressLabel dataplane prometheusEndpoint in
          Ok (resources ++ [mkAssignment (assignmentName dataplane) [address]
                              (dataplaneLabels dataplane prometheusEndpoint)])
      end
  end.

Definition mads_Generate (meshes : list MeshResource) (dataplanes : list DataplaneResource)
  : res (list MonitoringAssignment) :=
  rfoldl (generate_step (indexMeshes meshes)) [] dataplanes.

(** ** reconcile/snapshot_generator.go *)

Section Snapshots.
Context {St : Type} (resourceManager : ReadOnlyResourceManager St).

Definition list_resources {T} `{ResourceKind T} (k : Kind) (fs : list ListOptionsFunc) : ST St (list (Resource T)) := λ s,
  let '(err, (s', l)) := mgr_List resourceManager s (new_list k) fs in
  match err with
  | Ok _ => (Ok (typed_items l), s')
  | Err e => (Err e, s')
  | Panic => (Panic, s')
  end.

Definition getMeshes : ST St (list MeshResource) :=
  meshList ← list_resources (T := Mesh) KMesh [];
  mret (List.filter (λ mesh, HasPrometheusMetricsEnabled (Some mesh)) meshList).

Definition getDataplanes (meshes : list MeshResource) : ST St (list DataplaneResource) :=
  lists ← st_mapM (λ mesh : MeshResource, list_resources (T := Dataplane) KDataplane [ListByMesh (GetName (r_Meta mesh))])
            meshes;
  mret (concat lists).

Definition mads_ToIndex (rs : list MonitoringAssignment) : gmap string MonitoringAssignment :=
  foldl (λ m r, <[ma_Name r := r]> m) ∅ rs.

Definition mads_GenerateSnapshot : ST St (MadsSnapshot MonitoringAssignment) :=
  meshes ← getMeshes;
  dataplanes ← getDataplanes meshes;
  resources ← st_lift (mads_Generate meshes dataplanes);
  mret (NewSnapshot "" (mads_ToIndex resources)).
End Snapshots.
End Generator.

(** *** What the generator makes of a dataplane *)

Lemma indexMeshes_Some meshes name mesh :
  indexMeshes meshes !! name = Some mesh → mesh ∈ meshes ∧ GetName (r_Meta mesh) = name.
Proof.
  unfold indexMeshes. induction meshes as [|x meshes IH] using rev_ind; simpl; [by rewrite lookup_empty|].
  rewrite foldl_app. simpl. rewrite lookup_insert_Some, elem_of_app. set_solver.
Qed.

Lemma indexMeshes_unique meshes mesh :
  mesh ∈ meshes → (∀ mesh', mesh' ∈ meshes → GetName (r_Meta mesh') = GetName (r_Meta mesh) → mesh' = mesh) →
  indexMeshes meshes !! GetName (r_Meta mesh) = Some mesh.
Proof.
  intros Hin Hu. unfold indexMeshes. induction meshes as [|x meshes IH] using rev_ind; [by apply not_elem_of_nil in Hin|].
  rewrite foldl_app. simpl. rewrite lookup_insert. case_decide as Hd.
  - f_equal. apply Hu; [set_solver|done].
  - apply IH; [set_solver|]. intros m' Hm'. apply Hu. set_solver.
Qed.

Section GeneratorFacts.
Context `{Hmerge : ProtoMerge} (SanitizeLabelName : string → string).

(** The assignment of a dataplane with an address. *)
Definition assignment_of (meshIndex : gmap string MeshResource) (dataplane : DataplaneResource) (ip : string)
    (a : MonitoringAssignment) : Prop :=
  ∃ mesh endpoint, meshIndex !! GetMesh (r_Meta dataplane) = Some mesh
    ∧ GetPrometheusEndpoint (Some dataplane) (Some mesh) = Some endpoint
    ∧ a = mkAssignment (assignmentName dataplane)
            [{[ AddressLabel := JoinHostPort ip (format_uint (prom_Port endpoint)) ]}]
            (dataplaneLabels SanitizeLabelName dataplane endpoint).

Lemma generate_elem index dps rs0 :
  (∀ d, d ∈ dps → ∃ ip, GetIP (Some d) = Ok ip) →
  ∃ rs, rfoldl (generate_step SanitizeLabelName index) rs0 dps = Ok rs
    ∧ ∀ a, a ∈ rs ↔ a ∈ rs0 ∨ ∃ d ip, d ∈ dps ∧ GetIP (Some d) = Ok ip ∧ assignment_of index d ip a.
Proof.
  revert rs0; induction dps as [|d dps IH]; intros rs0 Hip; cbn [rfoldl].
  { exists rs0. split; [done|]. intros a. set_solver. }
  destruct (Hip d) as [ip Hd]; [constructor|].
  assert (∃ rs1, generate_step SanitizeLabelName index rs0 d = Ok rs1
    ∧ ∀ a, a ∈ rs1 ↔ a ∈ rs0 ∨ assignment_of index d ip a) as (rs1 & -> & H1).
  { unfold generate_step, assignment_of. destruct (index !! _) as [mesh|]; [|exists rs0; set_solver].
    destruct (GetPrometheusEndpoint _ _) as [endpoint|] eqn:Ep;
      [|exists rs0; split; [done|]; intros a; split; [by left|intros [?|(? & ? & ? & ? & ?)]; congruence]].
    unfold addressLabel. rewrite Hd. simpl. eexists. split; [done|]. intros a.
    rewrite elem_of_app, list_elem_of_singleton. naive_solver. }
  cbn [rbind]. destruct (IH rs1) as (rs & Hrs & H2). { intros d' Hd'. apply Hip. by constructor. }
  exists rs. split; [done|]. intros a. rewrite H2, H1. setoid_rewrite elem_of_cons. split.
  - intros [[?|?]|(d' & ip' & ? & ? & ?)]; [by left|right; exists d, ip; auto|right; exists d', ip'; auto].
  - intros [?|(d' & ip' & [->|?] & Hd' & ?)]; [by left; left| |right; eauto].
    assert (ip' = ip) as -> by congruence. left. by right.
Qed.

(** Labels the generator sets itself prevail over tags and extensions. *)
Lemma mandatory_labels dataplane endpoint :
  let labels := dataplaneLabels SanitizeLabelName dataplane endpoint in
  labels !! meshLabel = Some (GetMesh (r_Meta dataplane))
  ∧ labels !! dataplaneLabel = Some (GetName (r_Meta dataplane))
  ∧ labels !! InstanceLabel = Some (GetName (r_Meta dataplane))
  ∧ labels !! JobLabel = Some (GetIdentifyingService (r_Spec dataplane))
  ∧ labels !! MetricsPathLabel = Some (prom_Path endpoint)
  ∧ labels !! SchemeLabel = Some "http".
Proof.
  unfold dataplaneLabels. cbv zeta. repeat split; simplify_map_eq; reflexivity.
Qed.

Definition mandatory : list string := [SchemeLabel; MetricsPathLabel; JobLabel; InstanceLabel; meshLabel; dataplaneLabel].

(** A key is not after its plural. *)
Lemma plural_le key : String.le key (key +:+ "s").
Proof.
  unfold String.le, String.leb. induction key as [|a key IH]; [done|]. simpl.
  unfold Ascii.compare. by rewrite N.compare_refl.
Qed.

Lemma plural_ne key : key +:+ "s" ≠ key.
Proof. induction key as [|a key IH]; [done|]. simpl. intros [= He]. by apply IH. Qed.

Lemma plural_after keys1 key keys2 :
  StronglySorted String.le (keys1 ++ key :: keys2) → ∀ key', key' ∈ keys2 → key' +:+ "s" ≠ key.
Proof.
  intros Hs key' Hin Heq. apply StronglySorted_app_1_r, StronglySorted_cons in Hs as [Hle _]. rewrite Forall_forall in Hle.
  pose proof (Hle key' Hin) as H1. rewrite <- Heq in H1. pose proof (anti_symm String.le _ _ H1 (plural_le key')) as He.
  by apply (plural_ne key').
Qed.

Lemma tag_labels_keep tags keys (labels : gmap string string) l :
  (∀ key, key ∈ keys → SanitizeLabelName key ≠ l ∧ SanitizeLabelName (key +:+ "s") ≠ l) →
  foldl (tag_labels SanitizeLabelName tags) labels keys !! l = labels !! l.
Proof.
  revert labels; induction keys as [|key keys IH]; intros labels Hk; simpl; [done|].
  rewrite IH by (intros; apply Hk; by constructor). unfold tag_labels.
  destruct (Hk key) as [H1 H2]; [constructor|]. by rewrite !lookup_insert_ne.
Qed.

Lemma extension_labels_keep (exts : list (string * string)) (labels : gmap string string) l :
  (∀ key value, (key, value) ∈ exts → SanitizeLabelName key ≠ l) →
  foldl (λ labels '(key, value), <[SanitizeLabelName key := value]> labels) labels exts !! l = labels !! l.
Proof.
  revert labels; induction exts as [|[key value] exts IH]; intros labels Hk; simpl; [done|].
  rewrite IH by (intros ? ? ?; eapply Hk; by constructor). rewrite lookup_insert_ne; [done|].
  eapply Hk. by constructor.
Qed.

(** The labels of an assignment.  The labels Kuma sets itself prevail over
    tags and name extensions.  A tag is exported under its sanitized key with its
    least value, also when another tag has this key as its plural, unless one of
    Kuma's labels, a name extension or the sanitized form of another key or plural
    takes the label. *)
Theorem dataplaneLabels_correct dataplane endpoint :
  let labels := dataplaneLabels SanitizeLabelName dataplane endpoint in
  let tags := Dataplane_Tags (r_Spec dataplane) in
  (labels !! meshLabel = Some (GetMesh (r_Meta dataplane))
   ∧ labels !! dataplaneLabel = Some (GetName (r_Meta dataplane))
   ∧ labels !! InstanceLabel = Some (GetName (r_Meta dataplane))
   ∧ labels !! JobLabel = Some (GetIdentifyingService (r_Spec dataplane))
   ∧ labels !! MetricsPathLabel = Some (prom_Path endpoint)
   ∧ labels !! SchemeLabel = Some "http")
  ∧ ∀ key value rest, MultiValueTagSet_Values tags key = value :: rest →
      SanitizeLabelName key ∉ mandatory →
      (∀ ext, is_Some (GetNameExtensions (r_Meta dataplane) !! ext) → SanitizeLabelName ext ≠ SanitizeLabelName key) →
      (∀ key', key' ∈ MultiValueTagSet_Keys tags → (key' ≠ key → SanitizeLabelName key' ≠ SanitizeLabelName key)
         ∧ (key' +:+ "s" ≠ key → SanitizeLabelName (key' +:+ "s") ≠ SanitizeLabelName key)) →
      labels !! SanitizeLabelName key = Some value.
Proof.
  cbv zeta. split.
  { unfold dataplaneLabels. repeat split; simplify_map_eq; reflexivity. }
  intros key value rest Hv Hm Hext Hothers. unfold mandatory in Hm. unfold dataplaneLabels. cbv zeta.
  rewrite !elem_of_cons, elem_of_nil in Hm. rewrite !lookup_insert_ne by (intros Heq; rewrite <- Heq in Hm; tauto).
  rewrite extension_labels_keep by (intros ext v Hin%elem_of_map_to_list; apply Hext; eauto).
  set (tags := Dataplane_Tags (r_Spec dataplane)) in *. set (keys := MultiValueTagSet_Keys tags) in *.
  assert (key ∈ keys) as Hin.
  { unfold keys, MultiValueTagSet_Keys, sort_strings. rewrite sort_by_perm. unfold MultiValueTagSet_Values in Hv.
    destruct (tags !! key) as [vs|] eqn:E; [|done]. apply list_elem_of_fmap. exists (key, vs).
    split; [done|by apply elem_of_map_to_list]. }
  assert (StronglySorted String.le keys) as Hsorted by apply sort_strings_sorted.
  assert (NoDup keys) as Hnd.
  { unfold keys, MultiValueTagSet_Keys, sort_strings. rewrite sort_by_perm. apply NoDup_fst_map_to_list. }
  apply list_elem_of_split in Hin as (keys1 & keys2 & Hkeys). rewrite Hkeys in Hsorted, Hnd, Hothers |- *.
  rewrite foldl_app. simpl. rewrite tag_labels_keep.
  - unfold tag_labels. rewrite lookup_insert_ne by (apply (Hothers key); [set_solver|apply plural_ne]).
    by rewrite lookup_insert_eq, Hv.
  - intros key' Hin. destruct (Hothers key') as [H1 H2]; [set_solver|]. split.
    + apply H1. intros ->. apply NoDup_app in Hnd as (_ & _ & Hnd). by apply NoDup_cons in Hnd as [Hnd _].
    + apply H2. by apply (plural_after keys1 key keys2).
Qed.
End GeneratorFacts.

(** *** Snapshots over the memory store *)

Section SnapshotMemory.
Context `{LawfulJsonpb} `{Hmerge : ProtoMerge} (SanitizeLabelName : string → string).
Context (ptypes_Duration : Duration → option Z) (ResourceFromYaml_error : string → option string).
Let manager : ReadOnlyResourceManager memoryStore :=
  read_only (ControlPlane.memory_manager ptypes_Duration ResourceFromYaml_error).
Let writes := manager_step ptypes_Duration ResourceFromYaml_error.

Lemma list_resources_memory k fs c mesh :
  rtc memory_step NewStore c → small_store c → fs = [] ∧ mesh = "" ∨ fs = [ListByMesh mesh] →
  list_resources (T := message_of k) manager k fs c = (Ok (typed_items (S := message_of k) (listed c k mesh)), c).
Proof.
  intros Hc Hs Hfs. unfold list_resources. simpl. unfold manager_List. cbn [store_List memory_ResourceStore].
  pose proof (findRecords_length c (type_name k) mesh). unfold small_store in Hs.
  assert (memory_List c (new_list k) fs = memory_List c (new_list k) [ListByMesh mesh]) as ->
    by (by destruct Hfs as [[-> ->]| ->]).
  by rewrite memory_List_all by (lia || by apply reachable_ok).
Qed.

Lemma stored_unique c k m (p q : Resource (message_of k)) :
  unique_keys c → stored c k m p → stored c k m q → GetName (r_Meta p) = GetName (r_Meta q) → p = q.
Proof.
  intros Hu (r & Hr & Ht & Hm & Hp & Hj) (r' & Hr' & Ht' & Hm' & Hq & Hj') Hn.
  rewrite Hp, Hq in Hn. simpl in Hn.
  assert (r = r') as <-.
  { assert (abs c !! rkey r = Some r) as H1 by (by apply abs_lookup).
    assert (abs c !! rkey r' = Some r') as H2 by (by apply abs_lookup).
    assert (rkey r = rkey r') as He by (unfold rkey; congruence). rewrite He in H1. congruence. }
  assert (@to_spec _ (kind_instance k) (r_Spec p) = @to_spec _ (kind_instance k) (r_Spec q)) as Hspec.
  { apply (record_of_inj r); (split; [by rewrite kind_of_to_spec|done]). }
  assert (r_Spec p = r_Spec q) as He.
  { pose proof (of_spec_to_spec k (r_Spec p)) as H1. rewrite Hspec, of_spec_to_spec in H1. congruence. }
  destruct p, q; simpl in *; congruence.
Qed.

Lemma stored_meta c k m (p : Resource (message_of k)) :
  stored c k m p → GetMesh (r_Meta p) = m ∧ ∃ r, r ∈ records c ∧ rec_ResourceType r = type_name k
    ∧ rec_Mesh r = m ∧ rec_Name r = GetName (r_Meta p).
Proof. intros (r & Hr & Ht & Hm & Hp & Hj). rewrite Hp. split; [done|]. exists r. done. Qed.

Lemma stored_ip c m dp :
  rtc writes NewStore c → stored c KDataplane m dp → ∃ ip, GetIP (Some dp) = Ok ip.
Proof.
  intros [_ Hv]%managed Hst. pose proof (stored_valid ptypes_Duration ResourceFromYaml_error c KDataplane m dp Hv Hst) as Hd.
  by apply validated_IP in Hd.
Qed.

(** Meshes have the plain names the API accepts and are in the mesh of that name. *)
Definition plain_meshes (c : memoryStore) : Prop :=
  ∀ r, r ∈ records c → rec_ResourceType r = MeshType →
    rec_Mesh r = rec_Name r ∧ rec_Name r ≠ "" ∧ has_byte "/" (rec_Name r) = false.

Lemma assignmentName_inj (d d' : DataplaneResource) :
  has_byte "/" (GetMesh (r_Meta d)) = false → has_byte "/" (GetMesh (r_Meta d')) = false →
  assignmentName d = assignmentName d' → GetMesh (r_Meta d) = GetMesh (r_Meta d') ∧ GetName (r_Meta d) = GetName (r_Meta d').
Proof.
  unfold assignmentName. generalize (GetMesh (r_Meta d)), (GetMesh (r_Meta d')), (GetName (r_Meta d)), (GetName (r_Meta d')).
  intros m m' n n' Hm Hm' Heq. apply (inj (String.append "/meshes/")) in Heq.
  revert m' Hm' Heq; induction m as [|a m IH]; intros [|a' m'] Hm' Heq; simpl in *.
  - split; [done|]. by injection Heq.
  - injection Heq as <- _. done.
  - injection Heq as -> _. done.
  - injection Heq as <- Heq. destruct (Ascii.eqb a "/"); [done|]. destruct (IH Hm m' Hm' Heq) as [-> ->]. done.
Qed.

Lemma mads_ToIndex_lookup rs name a :
  (∀ a1 a2, a1 ∈ rs → a2 ∈ rs → ma_Name a1 = ma_Name a2 → a1 = a2) →
  mads_ToIndex rs !! name = Some a ↔ a ∈ rs ∧ ma_Name a = name.
Proof.
  unfold mads_ToIndex. induction rs as [|r rs IH] using rev_ind; intros Hu; simpl.
  { rewrite lookup_empty. set_solver. }
  rewrite foldl_app. simpl. rewrite lookup_insert_Some, IH by (intros ? ? ? ? ?; apply Hu; set_solver).
  rewrite elem_of_app, list_elem_of_singleton. split.
  - intros [[Hn ->]|[Hne [Hin Hn]]]; auto.
  - intros [[Hin| ->] Hn]; [|by left]. destruct (decide (ma_Name r = name)) as [He|]; [|by right].
    left. split; [done|]. apply Hu; [set_solver|set_solver|congruence].
Qed.

(** The meshes and dataplanes the generator works on. *)
Lemma getMeshes_memory c :
  rtc memory_step NewStore c → small_store c →
  ∃ meshes, getMeshes manager c = (Ok meshes, c)
    ∧ ∀ mesh, mesh ∈ meshes ↔ (∃ m, stored c KMesh m mesh) ∧ HasPrometheusMetricsEnabled (Some mesh) = true.
Proof.
  intros Hc Hs. unfold getMeshes, mbind, ST_bind.
  pose proof (list_resources_memory KMesh [] c "" Hc Hs ltac:(auto)) as E.
  change (list_resources (T := Mesh) manager KMesh [] c
    = (Ok (typed_items (S := Mesh) (listed c KMesh "")), c)) in E. rewrite E. eexists. split; [done|]. intros mesh.
  rewrite list_elem_of_In, filter_In, <- list_elem_of_In.
  rewrite (listed_stored_any c KMesh "" mesh) by (by apply reachable_ok). naive_solver.
Qed.

Lemma getDataplanes_memory c meshes :
  rtc memory_step NewStore c → small_store c → (∀ mesh, mesh ∈ meshes → GetName (r_Meta mesh) ≠ "") →
  ∃ dps, getDataplanes manager meshes c = (Ok dps, c)
    ∧ ∀ dp, dp ∈ dps ↔ ∃ mesh, mesh ∈ meshes ∧ stored c KDataplane (GetName (r_Meta mesh)) dp.
Proof.
  intros Hc Hs Hne. unfold getDataplanes, mbind, ST_bind.
  assert (∃ lists, st_mapM (λ mesh : MeshResource,
      list_resources (T := Dataplane) manager KDataplane [ListByMesh (GetName (r_Meta mesh))]) meshes c = (Ok lists, c)
    ∧ ∀ dp, dp ∈ concat lists ↔ ∃ mesh, mesh ∈ meshes ∧ stored c KDataplane (GetName (r_Meta mesh)) dp)
    as (lists & -> & Hl).
  { induction meshes as [|mesh meshes IH]; cbn [st_mapM].
    { exists []. split; [done|]. intros dp. set_solver. }
    destruct IH as (lists & Hrest & Hl). { intros m Hm. apply Hne. by constructor. }
    pose proof (Hne mesh ltac:(constructor)) as Hnm. unfold mbind, ST_bind.
    pose proof (list_resources_memory KDataplane _ c (GetName (r_Meta mesh)) Hc Hs ltac:(right; reflexivity)) as E.
    change (list_resources (T := Dataplane) manager KDataplane [ListByMesh (GetName (r_Meta mesh))] c
      = (Ok (typed_items (S := Dataplane) (listed c KDataplane (GetName (r_Meta mesh)))), c)) in E. rewrite E, Hrest.
    eexists. split; [done|]. intros dp. simpl. rewrite elem_of_app, Hl.
    rewrite (listed_stored c KDataplane (GetName (r_Meta mesh)) dp) by (done || by apply reachable_ok).
    setoid_rewrite elem_of_cons. naive_solver. }
  by exists (concat lists).
Qed.

(** The dataplanes of meshes with metrics, and their assignments. *)
Definition assigned (c : memoryStore) (dp : DataplaneResource) (a : MonitoringAssignment) : Prop :=
  ∃ (mesh : MeshResource) endpoint ip,
    stored c KMesh (GetName (r_Meta mesh)) mesh ∧ stored c KDataplane (GetName (r_Meta mesh)) dp
    ∧ GetPrometheusEndpoint (Some dp) (Some mesh) = Some endpoint ∧ GetIP (Some dp) = Ok ip
    ∧ a = mkAssignment (assignmentName dp) [{[ AddressLabel := JoinHostPort ip (format_uint (prom_Port endpoint)) ]}]
            (dataplaneLabels SanitizeLabelName dp endpoint).

Lemma plain_stored c m (mesh : MeshResource) :
  plain_meshes c → stored c KMesh m mesh →
  m = GetName (r_Meta mesh) ∧ GetName (r_Meta mesh) ≠ "" ∧ has_byte "/" (GetName (r_Meta mesh)) = false.
Proof.
  intros Hplain (_ & r & Hr & Ht & Hm & Hn)%stored_meta. destruct (Hplain r Hr Ht) as (Hp & Hne & Hb).
  change (rec_Name r = GetName (r_Meta mesh)) in Hn. rewrite Hn in Hp, Hne, Hb. by rewrite <- Hm, Hp.
Qed.

Lemma assigned_unique c d1 a1 d2 a2 :
  unique_keys c → plain_meshes c → assigned c d1 a1 → assigned c d2 a2 → ma_Name a1 = ma_Name a2 → a1 = a2.
Proof.
  intros Hu Hplain (m1 & e1 & i1 & Hm1 & Hd1 & He1 & Hi1 & ->) (m2 & e2 & i2 & Hm2 & Hd2 & He2 & Hi2 & ->) Hn.
  simpl in Hn. destruct (plain_stored c _ m1 Hplain Hm1) as (_ & _ & Hs1).
  destruct (plain_stored c _ m2 Hplain Hm2) as (_ & _ & Hs2).
  pose proof (stored_meta _ _ _ _ Hd1) as [Hdm1 _]. pose proof (stored_meta _ _ _ _ Hd2) as [Hdm2 _].
  change (GetMesh (r_Meta d1) = GetName (r_Meta m1)) in Hdm1. change (GetMesh (r_Meta d2) = GetName (r_Meta m2)) in Hdm2.
  apply assignmentName_inj in Hn as [Hnm Hnn]; [|by rewrite Hdm1|by rewrite Hdm2].
  rewrite Hdm1, Hdm2 in Hnm. rewrite <- Hnm in Hd2, Hm2.
  assert (d1 = d2) as <- by (by apply (stored_unique c KDataplane (GetName (r_Meta m1)))).
  assert (m1 = m2) as <- by (by apply (stored_unique c KMesh (GetName (r_Meta m1)))). congruence.
Qed.

(** What is generated from the lists of meshes and dataplanes. *)
Lemma generated c meshes dps :
  rtc writes NewStore c → plain_meshes c →
  (∀ mesh, mesh ∈ meshes ↔ (∃ m, stored c KMesh m mesh) ∧ HasPrometheusMetricsEnabled (Some mesh) = true) →
  (∀ dp, dp ∈ dps ↔ ∃ mesh, mesh ∈ meshes ∧ stored c KDataplane (GetName (r_Meta mesh)) dp) →
  ∃ rs, mads_Generate SanitizeLabelName meshes dps = Ok rs ∧ ∀ a, a ∈ rs ↔ ∃ dp, assigned c dp a.
Proof.
  intros Hw Hplain Hms Hdps. pose proof (reachable_unique c (proj1 (managed _ _ _ Hw))) as Hu.
  assert (∀ mesh, mesh ∈ meshes → indexMeshes meshes !! GetName (r_Meta mesh) = Some mesh) as Hindex.
  { intros mesh Hin. apply indexMeshes_unique; [done|]. intros mesh' [[m' Hm'] _]%Hms Hn.
    apply Hms in Hin as [[m Hm] _]. destruct (plain_stored c m mesh Hplain Hm) as [-> _].
    destruct (plain_stored c m' mesh' Hplain Hm') as [-> _].
    rewrite Hn in Hm'. by apply (stored_unique c KMesh (GetName (r_Meta mesh))). }
  destruct (generate_elem SanitizeLabelName (indexMeshes meshes) dps []) as (rs & Eg & Hrs).
  { intros d (mesh & _ & Hd)%Hdps. by apply (stored_ip c (GetName (r_Meta mesh))). }
  exists rs. split; [exact Eg|]. intros a. rewrite Hrs. split.
  - intros [?%not_elem_of_nil|(d & ip & Hd & Hip & mesh & endpoint & Hi & He & ->)]; [done|].
    apply indexMeshes_Some in Hi as [Hin Hn]. pose proof Hin as [[m Hm] _]%Hms.
    destruct (plain_stored c m mesh Hplain Hm) as [-> _]. apply Hdps in Hd as (mesh' & Hin' & Hd).
    pose proof (stored_meta _ _ _ _ Hd) as [Hdm _]. change (GetMesh (r_Meta d) = GetName (r_Meta mesh')) in Hdm.
    exists d, mesh, endpoint, ip. split; [exact Hm|]. split; [by rewrite Hn, Hdm|done].
  - intros (dp & mesh & endpoint & ip & Hm & Hd & He & Hip & ->). right. exists dp, ip.
    pose proof (stored_meta _ _ _ _ Hd) as [Hdm _]. change (GetMesh (r_Meta dp) = GetName (r_Meta mesh)) in Hdm.
    assert (mesh ∈ meshes) as Hin.
    { apply Hms. split; [eauto|]. unfold GetPrometheusEndpoint in He.
      destruct (HasPrometheusMetricsEnabled (Some mesh)) eqn:Eh; [exact Eh|]. by rewrite orb_true_r in He. }
    split; [apply Hdps; eauto|]. split; [done|]. exists mesh, endpoint. split; [|done]. rewrite Hdm. by apply Hindex.
Qed.

(** The snapshot of monitoring assignments, over the memory store and with
    everything written through the manager: it is always generated, and it holds
    exactly one assignment for every dataplane of a mesh with Prometheus metrics
    enabled, under its name, with the address Prometheus scrapes (at the port of
    the settings of the mesh merged with those of the dataplane) and its labels. *)
Theorem mads_GenerateSnapshot_memory c :
  rtc writes NewStore c → small_store c → plain_meshes c →
  ∃ snap, mads_GenerateSnapshot SanitizeLabelName manager c = (Ok snap, c)
  ∧ ∀ name a, xr_Items (MonitoringAssignments snap) !! name = Some a ↔
      ∃ (dp : DataplaneResource) (mesh : MeshResource) endpoint ip,
        stored c KMesh (GetName (r_Meta mesh)) mesh ∧ stored c KDataplane (GetName (r_Meta mesh)) dp
        ∧ GetPrometheusEndpoint (Some dp) (Some mesh) = Some endpoint ∧ GetIP (Some dp) = Ok ip
        ∧ name = assignmentName dp
        ∧ a = mkAssignment name [{[ AddressLabel := JoinHostPort ip (format_uint (prom_Port endpoint)) ]}]
                (dataplaneLabels SanitizeLabelName dp endpoint).
Proof.
  intros Hw Hs Hplain. pose proof (proj1 (managed _ _ _ Hw)) as Hc. pose proof (reachable_unique c Hc) as Hu.
  destruct (getMeshes_memory c Hc Hs) as (meshes & Em & Hms).
  destruct (getDataplanes_memory c meshes Hc Hs) as (dps & Ed & Hdps).
  { intros mesh [[m Hm] _]%Hms. destruct (plain_stored c m mesh Hplain Hm) as (_ & Hne & _). exact Hne. }
  destruct (generated c meshes dps Hw Hplain Hms Hdps) as (rs & Eg & Hrs).
  exists (NewSnapshot "" (mads_ToIndex rs)). split.
  { unfold mads_GenerateSnapshot, mbind, ST_bind. rewrite Em, Ed. unfold st_lift. by rewrite Eg. }
  intros name a. simpl. rewrite mads_ToIndex_lookup.
  - rewrite Hrs. unfold assigned. split.
    + intros [(dp & mesh & e & ip & ?) Hn]. exists dp, mesh, e, ip. naive_solver.
    + intros (dp & mesh & e & ip & ? & ? & ? & ? & -> & ->). split; [|done]. exists dp, mesh, e, ip. done.
  - intros a1 a2 [d1 H1]%Hrs [d2 H2]%Hrs. by apply (assigned_unique c d1 a1 d2 a2).
Qed.
End SnapshotMemory.

(** ** A concrete mesh *)

(** Fields that are set win. *)
#[local] Instance sample_merge : ProtoMerge := λ dst src,
  match src with
  | None => dst
  | Some src =>
      mkPrometheus (if prom_Port src =? 0 then prom_Port dst else prom_Port src)
        (if String.eqb (prom_Path src) "" then prom_Path dst else prom_Path src)
  end.

Definition metrics_settings : Metrics := mkMetrics (Some (mkPrometheus 5670 "/metrics")).
Definition metrics_mesh : Mesh := mkMesh None None None (Some metrics_settings).
Definition metrics_dataplane : Dataplane :=
  mkDataplane (Some (mkNetworking "192.168.0.1" [mkInbound "" 80 8080 "" (MatchService "web")] [] None))
    (Some (mkMetrics (Some (mkPrometheus 1234 "")))).

(** A codec that also writes this mesh and dataplane. *)
#[local] Instance mads_jsonpb : Jsonpb :=
  {| jsonpb_Marshal := λ spec,
       match spec with
       | MeshSpec (mkMesh None None None (Some m)) =>
           if decide (m = metrics_settings) then Ok "mesh" else Err (Errorf "unsupported message" [])
       | MeshSpec _ => Err (Errorf "unsupported message" [])
       | DataplaneSpec d => if decide (d = metrics_dataplane) then Ok "dp" else Err (Errorf "unsupported message" [])
       | _ => @jsonpb_Marshal sample_jsonpb spec
       end;
     jsonpb_Unmarshal := λ s out,
       match out with
       | MeshSpec _ => (Ok (), MeshSpec metrics_mesh)
       | DataplaneSpec _ => (Ok (), DataplaneSpec metrics_dataplane)
       | _ => @jsonpb_Unmarshal sample_jsonpb s out
       end |}.

#[local] Instance mads_jsonpb_lawful : LawfulJsonpb.
Proof.
  constructor; [by intros s []|]. intros spec s Hs.
  destruct spec as [m|d| | | | | | | | | |]; try by apply (@unmarshal_marshal _ sample_jsonpb_lawful).
  - destruct m as [[] [] [] [m|]]; simpl in *; try done. destruct (decide (m = metrics_settings)); by simplify_eq.
  - simpl in *. destruct (decide (d = metrics_dataplane)); by subst.
Qed.

Definition mads_writes (c : memoryStore) (x : Object * string) : memoryStore :=
  (mgr_Create (memory_manager sample_Duration sample_Yaml) 1 c x.1 [CreateByKey x.2 "default"]).2.1.
Definition mads_store : memoryStore :=
  foldl mads_writes NewStore [(mkObject None (MeshSpec metrics_mesh), "default"); (mkObject None (DataplaneSpec metrics_dataplane), "dp-1")].

Lemma mads_store_managed : rtc (manager_step sample_Duration sample_Yaml) NewStore mads_store.
Proof. eapply rtc_l; [apply mstep_Create|]. apply rtc_once, mstep_Create. Qed.

Lemma mads_store_plain : plain_meshes mads_store.
Proof.
  intros r. assert (∃ l, records mads_store = l) as [l Hl] by eauto. rewrite Hl. vm_compute in Hl. subst l.
  rewrite !elem_of_cons, elem_of_nil. intros [->|[->|[]]] Ht; [|discriminate Ht].
  split; [reflexivity|]. split; [discriminate|reflexivity].
Qed.

Lemma mads_GenerateSnapshot_memory_witness :
  ∃ snap a, mads_GenerateSnapshot id (read_only (memory_manager sample_Duration sample_Yaml)) mads_store
              = (Ok snap, mads_store)
    ∧ xr_Items (MonitoringAssignments snap) !! "/meshes/default/dataplanes/dp-1" = Some a
    ∧ ma_Targets a = [{["__address__" := "192.168.0.1:1234"]}].
Proof.
  destruct (mads_GenerateSnapshot_memory id sample_Duration sample_Yaml mads_store mads_store_managed
    ltac:(vm_compute; reflexivity) mads_store_plain) as (snap & Hg & _).
  exists snap.
  assert ((mads_GenerateSnapshot id (read_only (memory_manager sample_Duration sample_Yaml)) mads_store).1 = Ok snap) as E
    by (rewrite Hg; reflexivity).
  vm_compute in E. injection E as <-. eexists. split; [exact Hg|]. split; vm_compute; reflexivity.
Defined.

(** Labels are sanitized as Prometheus does, dashes only. *)
Definition sample_Sanitize (s : string) : string :=
  String.string_of_list_ascii ((λ a, if Ascii.eqb a "-" then "_"%char else a) <$> String.list_ascii_of_string s).
Definition labelled_dataplane : DataplaneResource :=
  mkResource (mkMeta "dp-1" "default" "" 0 0)
    (mkDataplane (Some (mkNetworking "192.168.0.1"
       [mkInbound "" 80 8080 "" (<["my-version" := "v1"]> (MatchService "web"))] [] None)) None).

Lemma dataplaneLabels_correct_witness :
  dataplaneLabels sample_Sanitize labelled_dataplane (mkPrometheus 1234 "/metrics") !! "my_version" = Some "v1".
Proof.
  apply (proj2 (dataplaneLabels_correct sample_Sanitize labelled_dataplane (mkPrometheus 1234 "/metrics")) "my-version" "v1" []).
  - vm_compute. reflexivity.
  - apply (bool_decide_unpack _). vm_compute. exact I.
  - intros ext [x Hx]. vm_compute in Hx. discriminate Hx.
  - intros key Hk. assert (key ∈ ["my-version"; "service"]) as Hk' by exact Hk.
    rewrite !elem_of_cons, elem_of_nil in Hk'. destruct Hk' as [->|[->|[]]]; split; intros Hne; vm_compute; congruence.
Defined.
