(* ===== verification/MadsServer.v ===== *)
(** * The monitoring assignment server

    Models [pkg/mads/server/mads.go]: the discovery server for monitoring
    assignments, over the snapshot cache of [SnapshotCache] and its reconciler.

    The server is a transition system.  Its steps are the start and the
    iterations of its streams, reconciliations, and the background work of the
    callbacks, in any order.  A stream is ready to receive on the channel of its
    last watch once the cache has sent there; receiving empties the channel. *)

From S2P Require Import Prelude Effects GoStd Dataplane Insights CoreXds SnapshotCache StatusTracker Callbacks XdsServer.
Local Open Scope Z_scope.

Section Server.
Context {S R Cb : Type} `{Snapshot S R} (hash : option Node → string).
Context (Marshal : R → res string) (callbacks : option (Callbacks Cb)).
Context (proto_Equal : R → R → bool) (uuid : nat → string).

(** The variables of [process] and what it shares with other streams.  The flag
    next to the channel says whether its response was received; [m_log] records
    the responses sent and is not read. *)
Record mads_state : Type := mkMadsState {
  m_cache : @snapshotCache S R;
  m_cb : Cb;
  m_nonce : Z;                                (* streamNonce *)
  m_assignments : option (nat * bool);        (* values.assignments *)
  m_cancel : option (string * Z);             (* values.assignmentsCancel *)
  m_assignmentsNonce : string;                (* values.assignmentsNonce *)
  m_node : option Node;
  m_log : list DiscoveryResponse;
}.
Definition mads_set_cache (c : @snapshotCache S R) : ST mads_state unit :=
  st_modify (λ m, mkMadsState c (m_cb m) (m_nonce m) (m_assignments m) (m_cancel m) (m_assignmentsNonce m)
                    (m_node m) (m_log m)).
Definition mads_set_nonce (n : Z) : ST mads_state unit :=
  st_modify (λ m, mkMadsState (m_cache m) (m_cb m) n (m_assignments m) (m_cancel m) (m_assignmentsNonce m)
                    (m_node m) (m_log m)).
Definition set_assignments (ch : option (nat * bool)) (cancel : option (string * Z)) : ST mads_state unit :=
  st_modify (λ m, mkMadsState (m_cache m) (m_cb m) (m_nonce m) ch cancel (m_assignmentsNonce m) (m_node m) (m_log m)).
Definition set_assignmentsNonce (n : string) : ST mads_state unit :=
  st_modify (λ m, mkMadsState (m_cache m) (m_cb m) (m_nonce m) (m_assignments m) (m_cancel m) n (m_node m) (m_log m)).
Definition mads_set_node (node : option Node) : ST mads_state unit :=
  st_modify (λ m, mkMadsState (m_cache m) (m_cb m) (m_nonce m) (m_assignments m) (m_cancel m) (m_assignmentsNonce m)
                    node (m_log m)).
Definition mads_log (out : DiscoveryResponse) : ST mads_state unit :=
  st_modify (λ m, mkMadsState (m_cache m) (m_cb m) (m_nonce m) (m_assignments m) (m_cancel m) (m_assignmentsNonce m)
                    (m_node m) (m_log m ++ [out])).
Definition mads_callback (f : Callbacks Cb → ST Cb unit) : ST mads_state unit :=
  match callbacks with
  | None => mret ()
  | Some cb =>
      zoom m_cb (λ c m, mkMadsState (m_cache m) c (m_nonce m) (m_assignments m) (m_cancel m) (m_assignmentsNonce m)
                          (m_node m) (m_log m)) (f cb)
  end.

(** [values.Cancel()]; the cancel function of an immediate response is nil. *)
Definition mads_Cancel : ST mads_state unit :=
  cancel ← st_get m_cancel;
  match cancel with
  | Some (nodeID, watchID) => c ← st_get m_cache; mads_set_cache (cancelWatch c nodeID watchID)
  | None => mret ()
  end.

(** The closure [send]; [failed] is the error of [stream.Send]. *)
Definition mads_send (env : cb_env) (streamID : Z) (failed : option goerror) (resp : Response) (typeURL : string)
  : ST mads_state string :=
  out ← st_lift (server_createResponse Marshal (Some resp) typeURL);
  n ← st_get m_nonce;
  let n' := wrap_int (n + 1) in
  _ ← mads_set_nonce n';
  let out := with_nonce out (itoa n') in
  _ ← mads_callback (λ cb, run_proc (cb_OnStreamResponse cb env streamID (resp_Request resp) out));
  _ ← mads_log out;
  match failed with None => mret (dr_Nonce out) | Some e => fail e end.

(** [case resp, more := <-values.assignments]; the cache never closes a
    channel. *)
Definition mads_on_response (env : cb_env) (streamID : Z) (failed : option goerror) (resp : Response)
  : ST mads_state bool :=
  ch ← st_get m_assignments;
  cancel ← st_get m_cancel;
  _ ← set_assignments ((λ x : nat * bool, (x.1, true)) <$> ch) cancel;
  nonce ← mads_send env streamID failed resp MonitoringAssignmentType;
  _ ← set_assignmentsNonce nonce;
  mret true.

(** [case req, more := <-reqCh]: [None] when the channel was closed, [Some None]
    for a nil request. *)
Definition mads_on_request (env : cb_env) (streamID : Z) (defaultTypeURL : string)
    (req : option (option DiscoveryRequest)) : ST mads_state bool :=
  match req with
  | None => mret false
  | Some None => fail (statusErrorf "Unavailable" "empty request")
  | Some (Some req) =>
      node ← st_get m_node;
      let node' := match req_Node req with Some n => Some n | None => node end in
      _ ← mads_set_node node';
      let req := with_node req node' in
      let req := if String.eqb (req_TypeUrl req) "" then with_type req defaultTypeURL else req in
      _ ← mads_callback (λ cb, cb_OnStreamRequest cb env streamID req);
      assignmentsNonce ← st_get m_assignmentsNonce;
      if String.eqb (req_TypeUrl req) MonitoringAssignmentType
         && (String.eqb assignmentsNonce "" || String.eqb assignmentsNonce (req_ResponseNonce req))
      then
        _ ← mads_Cancel;
        c ← st_get m_cache;
        let '(c', ch, cancel) := CreateWatch hash (env_now env) c req in
        _ ← mads_set_cache c';
        _ ← set_assignments (Some (ch, false)) cancel;
        mret true
      else mret true
  end.

Inductive mads_input : Type :=
| MadsResponse (resp : @Response R) (failed : option goerror)
| MadsRequest (req : option (option DiscoveryRequest)).

Definition mads_iteration (env : cb_env) (streamID : Z) (defaultTypeURL : string) (i : mads_input)
  : ST mads_state bool :=
  match i with
  | MadsResponse resp failed => mads_on_response env streamID failed resp
  | MadsRequest req => mads_on_request env streamID defaultTypeURL req
  end.

(** The deferred function. *)
Definition mads_deferred (env : cb_env) (streamID : Z) : ST mads_state unit :=
  _ ← mads_Cancel;
  mads_callback (λ cb, run_proc (cb_OnStreamClosed cb env streamID)).

(** ** The server *)

(** The variables of a running [process]. *)
Record mads_stream : Type := mkMadsStream {
  ms_type : string;
  ms_nonce : Z;
  ms_assignments : option (nat * bool);
  ms_cancel : option (string * Z);
  ms_assignmentsNonce : string;
  ms_node : option Node;
  ms_log : list DiscoveryResponse;
}.

Record mads_server : Type := mkMadsServer {
  md_cache : @snapshotCache S R;
  md_cb : Cb;
  md_streamCount : Z;
  md_streams : gmap Z mads_stream;            (* running *)
}.

Definition mads_load (srv : mads_server) (l : mads_stream) : mads_state :=
  mkMadsState (md_cache srv) (md_cb srv) (ms_nonce l) (ms_assignments l) (ms_cancel l) (ms_assignmentsNonce l)
    (ms_node l) (ms_log l).
Definition mads_running (srv : mads_server) (id : Z) (typ : string) (m : mads_state) : mads_server :=
  mkMadsServer (m_cache m) (m_cb m) (md_streamCount srv)
    (<[id := mkMadsStream typ (m_nonce m) (m_assignments m) (m_cancel m) (m_assignmentsNonce m) (m_node m) (m_log m)]>
       (md_streams srv)).

(** [process] returns. *)
Definition mads_return (env : cb_env) (srv : mads_server) (id : Z) (m : mads_state) : res mads_server :=
  match mads_deferred env id m with
  | (Ok _, m') => Ok (mkMadsServer (m_cache m') (m_cb m') (md_streamCount srv) (delete id (md_streams srv)))
  | _ => Panic
  end.

Definition mads_start (env : cb_env) (typ : string) (srv : mads_server) : res mads_server :=
  let id := wrap_int (md_streamCount srv + 1) in
  let srv := mkMadsServer (md_cache srv) (md_cb srv) id (md_streams srv) in
  let m := mkMadsState (md_cache srv) (md_cb srv) 0 None None "" (Some (mkNode "" None)) [] in
  match mads_callback (λ cb, cb_OnStreamOpen cb env id typ) m with
  | (Ok _, m') => Ok (mads_running srv id typ m')
  | (Err _, m') => mads_return env srv id m'
  | (Panic, _) => Panic
  end.

Definition mads_iterate (env : cb_env) (id : Z) (l : mads_stream) (i : mads_input) (srv : mads_server)
  : res mads_server :=
  match mads_iteration env id (ms_type l) i (mads_load srv l) with
  | (Ok true, m) => Ok (mads_running srv id (ms_type l) m)
  | (Ok false, m) | (Err _, m) => mads_return env srv id m
  | (Panic, _) => Panic
  end.

(** A case of the [select] is ready: the channel holds a response that was not
    received yet. *)
Definition mads_ready (c : @snapshotCache S R) (l : mads_stream) (i : mads_input) : Prop :=
  match i with
  | MadsResponse resp _ => ∃ ch, ms_assignments l = Some (ch, false) ∧ (ch, resp) ∈ sent c
  | MadsRequest _ => True
  end.

(** The steps of the server.  Fewer than [2 ^ 63] streams and watches are
    opened. *)
Inductive mads_step (gen : option Node → res S) (other : Cb → Cb → Prop) : mads_server → mads_server → Prop :=
| md_start env typ srv srv' :
    md_streamCount srv < 2 ^ 63 - 1 → mads_start env typ srv = Ok srv' → mads_step gen other srv srv'
| md_iterate env id l i srv srv' :
    md_streams srv !! id = Some l → mads_ready (md_cache srv) l i → watchCount (md_cache srv) < 2 ^ 63 - 1 →
    mads_iterate env id l i srv = Ok srv' → mads_step gen other srv srv'
| md_reconcile srv n node r c' n' :
    mads_Reconcile proto_Equal uuid hash gen (md_cache srv) n node = (r, (c', n')) →
    mads_step gen other srv (mkMadsServer c' (md_cb srv) (md_streamCount srv) (md_streams srv))
| md_other srv cb :
    other (md_cb srv) cb →
    mads_step gen other srv (mkMadsServer (md_cache srv) cb (md_streamCount srv) (md_streams srv)).

Definition NewMadsServer (b : bool) (cb : Cb) : mads_server := mkMadsServer (NewSnapshotCache b) cb 0 ∅.

(** [FetchMonitoringAssignments] and [Fetch]. *)
Definition mads_Fetch (SkipFetchError : goerror) (env : cb_env) (req : option DiscoveryRequest)
  : ST (@snapshotCache S R * Cb) DiscoveryResponse :=
  match req with
  | None => fail (statusErrorf "Unavailable" "empty request")
  | Some req =>
      let req := with_type req MonitoringAssignmentType in
      let on_cb {A} (m : ST Cb A) := zoom snd (λ cb x, (x.1, cb)) m in
      _ ← match callbacks with None => mret () | Some cb => on_cb (cb_OnFetchRequest cb env req) end;
      c ← st_get fst;
      resp ← st_lift (Fetch hash SkipFetchError c req);
      let out := server_createResponse Marshal (Some resp) (req_TypeUrl req) in
      _ ← match callbacks with
          | None => mret ()
          | Some cb => on_cb (run_proc (cb_OnFetchResponse cb env req
                                (match out with Ok out => Some out | _ => None end)))
          end;
      st_lift out
  end.
End Server.

(** ** Facts *)

Section Facts.
Context {S R Cb : Type} `{LawfulSnapshot S R} (hash : option Node → string).
Context (Marshal : R → res string) (callbacks : option (Callbacks Cb)).
Context (proto_Equal : R → R → bool) (uuid : nat → string).
Let T := @mads_state S R Cb.

(** What an iteration changes that other streams can see. *)
Definition mads_vars (m : T) : @snapshotCache S R * option (nat * bool) * option (string * Z) :=
  (m_cache m, m_assignments m, m_cancel m).

Definition cancelled (c : @snapshotCache S R) (cancel : option (string * Z)) : @snapshotCache S R :=
  match cancel with Some (nodeID, watchID) => cancelWatch c nodeID watchID | None => c end.

Lemma mads_callback_vars f (m : T) : outcome (mads_callback callbacks f) m (λ _ m', mads_vars m' = mads_vars m).
Proof.
  unfold mads_callback. destruct callbacks as [cb|]; [|done].
  unfold outcome, zoom. by destruct (f cb (m_cb m)).
Qed.

Lemma mads_Cancel_vars (m : T) :
  outcome mads_Cancel m (λ r m', r = Ok () ∧ mads_vars m' = (cancelled (m_cache m) (m_cancel m), m_assignments m, m_cancel m)).
Proof.
  unfold mads_Cancel. apply outcome_bind_get. unfold mads_vars. destruct (m_cancel m) as [[nodeID watchID]|] eqn:E.
  - apply outcome_bind_get, outcome_modify. simpl. by rewrite E.
  - apply outcome_ret. by rewrite E.
Qed.

Lemma mads_send_vars env id failed resp typ (m : T) :
  outcome (mads_send Marshal callbacks env id failed resp typ) m (λ _ m', mads_vars m' = mads_vars m).
Proof.
  unfold mads_send. apply outcome_bind_lift; [|done..]. intros out _.
  apply outcome_bind_get. cbv zeta. apply outcome_bind_modify, outcome_bind.
  eapply outcome_mono; [apply mads_callback_vars|]. intros r m1 Hm.
  destruct r as [[]|e|]; [|exact Hm..]. apply outcome_bind_modify.
  destruct failed as [e|]; [apply outcome_fail|apply outcome_ret]; exact Hm.
Qed.

(** An iteration receives, or leaves everything as it is, or replaces the watch
    by a new one. *)
Lemma mads_iteration_vars env id typ i (m : T) :
  outcome (mads_iteration hash Marshal callbacks env id typ i) m (λ r m',
    match i with
    | MadsResponse _ _ =>
        mads_vars m' = (m_cache m, (λ x : nat * bool, (x.1, true)) <$> m_assignments m, m_cancel m)
    | MadsRequest _ => mads_vars m' = mads_vars m ∨
        ∃ req, let '(c', ch, cancel) := CreateWatch hash (env_now env) (cancelled (m_cache m) (m_cancel m)) req in
          r = Ok true ∧ mads_vars m' = (c', Some (ch, false), cancel)
    end).
Proof.
  destruct i as [resp failed|req]; simpl.
  - unfold mads_on_response. do 2 apply outcome_bind_get. apply outcome_bind_modify, outcome_bind.
    eapply outcome_mono; [apply mads_send_vars|]. intros r m1 Hm. destruct r as [n|e|]; [|exact Hm..].
    by apply outcome_bind_modify, outcome_ret.
  - unfold mads_on_request. destruct req as [[req|]|]; [|by apply outcome_fail; left|by apply outcome_ret; left].
    apply outcome_bind_get. cbv zeta. apply outcome_bind_modify, outcome_bind.
    eapply outcome_mono; [apply mads_callback_vars|]. intros r m1 Hm. destruct r as [[]|e|]; [|by left..].
    apply outcome_bind_get. match goal with |- context [CreateWatch _ _ _ ?r] => set (req' := r) end.
    destruct (_ && _); [|by apply outcome_ret; left]. apply outcome_bind.
    eapply outcome_mono; [apply mads_Cancel_vars|]. intros r m2 [-> Hm2]. apply outcome_bind_get.
    injection Hm as Hc Ha Hx. simpl in Hc, Ha, Hx. unfold mads_vars in Hm2. injection Hm2 as Hc2 Ha2 Hx2.
    rewrite Hc, Hx in Hc2. rewrite Hc2. destruct (CreateWatch _ _ _ _) as [[c' ch] cancel] eqn:Ew.
    do 2 apply outcome_bind_modify. apply outcome_ret. right. exists req'. by rewrite Ew.
Qed.

(** *** The cache and the watches of a stream *)

Lemma cancelWatch_open (c : @snapshotCache S R) node id n i w :
  open_watch (cancelWatch c node id) n i w ↔ open_watch c n i w ∧ ¬ (n = node ∧ i = id).
Proof.
  unfold cancelWatch, open_watch. destruct (status c !! node) as [info|] eqn:E; simpl.
  - setoid_rewrite lookup_insert_Some. split.
    + intros (info' & [[<- <-]|[Hne Hi]] & Hw); simpl in *.
      * apply lookup_delete_Some in Hw as [Hne Hw]. split; [eauto|]. intros [_ ->]. done.
      * split; [eauto|]. by intros [-> _].
    + intros [(info' & Hi & Hw) Hne]. destruct (decide (node = n)) as [<-|Hn]; [|eauto].
      eexists. split; [by left|]. simpl. apply lookup_delete_Some. simplify_eq. split; [naive_solver|done].
  - split; [|tauto]. intros (info' & Hi & Hw). split; [eauto|]. intros [-> _]. congruence.
Qed.

Lemma cancelWatch_fields (c : @snapshotCache S R) node id :
  sent (cancelWatch c node id) = sent c ∧ channels (cancelWatch c node id) = channels c
  ∧ watchCount (cancelWatch c node id) = watchCount c ∧ ads (cancelWatch c node id) = ads c
  ∧ snapshots (cancelWatch c node id) = snapshots c.
Proof. unfold cancelWatch. by destruct (status c !! node). Qed.

Lemma CreateWatch_count now (c : @snapshotCache S R) req :
  let '(c', _, cancel) := CreateWatch hash now c req in
  (∃ node, cancel = Some (node, wrap_int (watchCount c + 1)) ∧ watchCount c' = wrap_int (watchCount c + 1))
  ∨ (cancel = None ∧ watchCount c' = watchCount c).
Proof. unfold CreateWatch. destruct (snapshots c !! _); [destruct (String.eqb _ _)|]; simpl; eauto. Qed.

(** A stream waits at an open watch, or the response to its last request is or
    was in its channel. *)
Definition watch_state (c : @snapshotCache S R) (a : option (nat * bool)) (x : option (string * Z)) : Prop :=
  match a with
  | None => x = None
  | Some (ch, received) =>
      (ch < channels c)%nat ∧
      ((received = false ∧ ∃ node id req, x = Some (node, id) ∧ open_watch c node id (mkWatch req ch))
       ∨ ∃ resp, (ch, resp) ∈ sent c)
  end ∧ ∀ node id, x = Some (node, id) → id ≤ watchCount c.

(** Two streams share neither a channel nor a watch. *)
Definition apart (a a' : option (nat * bool)) (x x' : option (string * Z)) : Prop :=
  (∀ ch b b', a = Some (ch, b) → a' = Some (ch, b') → False)
  ∧ (∀ node node' id, x = Some (node, id) → x' = Some (node', id) → False).

(** A change of the cache that other streams survive. *)
Definition grows (c c' : @snapshotCache S R) (x : option (string * Z)) : Prop :=
  (channels c ≤ channels c')%nat ∧ watchCount c ≤ watchCount c' ∧ (∀ y, y ∈ sent c → y ∈ sent c')
  ∧ ∀ node id w, x = Some (node, id) → open_watch c node id w →
      open_watch c' node id w ∨ ∃ resp, (w_Response w, resp) ∈ sent c'.

Lemma watch_state_grows c c' a x : grows c c' x → watch_state c a x → watch_state c' a x.
Proof.
  intros (Hch & Hn & Hse & Ho) [Ha Hx]. split; [|intros node id Hid; specialize (Hx _ _ Hid); lia].
  destruct a as [[ch received]|]; [|done]. destruct Ha as [Hlt Hor]. split; [lia|].
  destruct Hor as [(-> & node & id & req & -> & Hw)|(resp & Hr)]; [|right; eauto].
  destruct (Ho node id _ eq_refl Hw) as [?|(resp & Hr)]; [left; eauto 10|right; eauto].
Qed.

Record mads_inv (c : @snapshotCache S R) (streams : gmap Z mads_stream) : Prop := mkMadsInv {
  mi_cache : cache_inv c;
  mi_ads : ads c = false;
  mi_count : 0 ≤ watchCount c;
  mi_ids : ∀ node id w, open_watch c node id w → id ≤ watchCount c;
  mi_stream : ∀ sid l, streams !! sid = Some l → watch_state c (ms_assignments l) (ms_cancel l);
  mi_apart : ∀ sid sid' l l', streams !! sid = Some l → streams !! sid' = Some l' → sid ≠ sid' →
    apart (ms_assignments l) (ms_assignments l') (ms_cancel l) (ms_cancel l');
}.

(** Replacing the variables of one stream, in a cache that grew for the others. *)
Lemma mads_inv_insert c c' streams sid l' :
  mads_inv c streams → cache_inv c' → ads c' = false → 0 ≤ watchCount c' →
  (∀ node id w, open_watch c' node id w → id ≤ watchCount c') →
  (∀ sid' l, streams !! sid' = Some l → sid' ≠ sid → grows c c' (ms_cancel l)
     ∧ apart (ms_assignments l') (ms_assignments l) (ms_cancel l') (ms_cancel l)) →
  watch_state c' (ms_assignments l') (ms_cancel l') →
  mads_inv c' (<[sid := l']> streams).
Proof.
  intros Hinv Hc Hads Hn Hids Hoth Hl'. constructor; [done..| |].
  - intros sid' l. rewrite lookup_insert_Some. intros [[<- <-]|[Hne Hl]]; [done|].
    destruct (Hoth sid' l Hl ltac:(congruence)) as [Hg _]. eapply watch_state_grows; [exact Hg|]. by eapply (mi_stream _ _ Hinv).
  - intros s1 s2 l1 l2. rewrite !lookup_insert_Some.
    intros [[<- <-]|[H1 Hl1]] [[<- <-]|[H2 Hl2]] Hne; [done| | |by eapply (mi_apart _ _ Hinv)].
    + apply (Hoth s2 l2); [done|congruence].
    + destruct (Hoth s1 l1 Hl1) as [_ [Ha Hx]]; [congruence|]. split; [naive_solver|].
      intros n n' id' E1 E2. by eapply Hx.
Qed.

Lemma mads_inv_delete c streams sid : mads_inv c streams → mads_inv c (delete sid streams).
Proof.
  intros Hinv. constructor; try apply Hinv.
  - intros sid' l [_ Hl]%lookup_delete_Some. by eapply (mi_stream _ _ Hinv).
  - intros s1 s2 l1 l2 [_ H1]%lookup_delete_Some [_ H2]%lookup_delete_Some. by eapply (mi_apart _ _ Hinv).
Qed.

(** Cancelling the watch of a stream. *)
Lemma cancelled_inv c streams sid l :
  mads_inv c streams → streams !! sid = Some l →
  let c' := cancelled c (ms_cancel l) in
  cache_inv c' ∧ ads c' = false ∧ watchCount c' = watchCount c ∧ channels c' = channels c
  ∧ (∀ node id w, open_watch c' node id w → id ≤ watchCount c')
  ∧ ∀ sid' l', streams !! sid' = Some l' → sid' ≠ sid → grows c c' (ms_cancel l').
Proof.
  intros Hinv Hl. destruct (ms_cancel l) as [[n i]|] eqn:Ex; cbn [cancelled]; cbv zeta.
  - destruct (cancelWatch_fields c n i) as (Hse & Hch & Hn & Had & _). rewrite Hn, Hch.
    split; [eapply (cache_step_inv hash); [apply step_Cancel|apply Hinv]|]. split; [rewrite Had; apply Hinv|].
    split; [done|]. split; [done|]. split.
    + intros node id w [Hw _]%cancelWatch_open. by eapply (mi_ids _ _ Hinv).
    + intros sid' l' Hl' Hne. split; [lia|]. split; [lia|]. split; [by rewrite Hse|].
      intros node id w Hx Hw. left. apply cancelWatch_open. split; [done|]. intros [-> ->].
      destruct (mi_apart _ _ Hinv sid sid' l l' Hl Hl' ltac:(congruence)) as [_ Ha]. by eapply Ha.
  - split; [apply Hinv|]. split; [apply Hinv|]. split; [done|]. split; [done|]. split; [apply Hinv|].
    intros sid' l' _ _. split; [lia|]. split; [lia|]. split; [done|]. by left.
Qed.

(** Opening a watch. *)
Lemma CreateWatch_grows now c req x :
  ads c = false → cache_inv c → 0 ≤ watchCount c < 2 ^ 63 - 1 →
  (∀ node id w, open_watch c node id w → id ≤ watchCount c) →
  let '(c', ch, cancel) := CreateWatch hash now c req in
  cache_inv c' ∧ ads c' = false ∧ ch = channels c ∧ 0 ≤ watchCount c'
  ∧ (∀ node id w, open_watch c' node id w → id ≤ watchCount c')
  ∧ grows c c' x ∧ watch_state c' (Some (ch, false)) cancel
  ∧ ∀ node id, cancel = Some (node, id) → watchCount c < id.
Proof.
  intros Hads Hc Hn Hids. pose proof (CreateWatch_cases hash now c req) as Hcases.
  pose proof (CreateWatch_count now c req) as Hcount. pose proof (CreateWatch_inv hash now c req Hc) as Hc'.
  destruct (CreateWatch hash now c req) as [[c' ch] cancel]. cbv zeta in Hcases. simpl in Hc'.
  destruct Hcases as (-> & Hch & _ & Had & Hcases). rewrite wrap_int_id in Hcount by lia.
  assert (watchCount c ≤ watchCount c' ∧ (∀ node id, cancel = Some (node, id) → id = watchCount c + 1 ∧ watchCount c' = id))
    as [Hle Hcid] by (destruct Hcount as [(node & -> & ->)|[-> ->]]; split; [lia|naive_solver|lia|done]).
  split; [done|]. split; [congruence|]. split; [done|]. split; [lia|].
  destruct Hcases as [(_ & Hse & id & -> & Ho)|(s & -> & Hs & _ & Hse & Ho)].
  - destruct (Hcid _ _ eq_refl) as [-> Hcount']. split; [|split; [|split]].
    + intros node i w Hw%Ho. case_decide as Hd; [lia|]. apply Hids in Hw. lia.
    + split; [lia|]. split; [lia|]. split; [by rewrite Hse|]. intros node i w _ Hw. left. apply Ho.
      case_decide as Hd; [|done]. destruct Hd as [_ ->]. apply Hids in Hw. lia.
    + split; [|intros node i [= <- <-]; lia]. split; [lia|]. left. split; [done|]. do 3 eexists. split; [done|].
      apply Ho. by rewrite decide_True.
    + intros node i [= <- <-]. lia.
  - split; [|split; [|split]].
    + intros node i w Hw%Ho. apply Hids in Hw. lia.
    + split; [lia|]. split; [lia|]. split; [intros y Hy; rewrite Hse; set_solver|]. intros node i w _ Hw. left. by apply Ho.
    + split; [|done]. split; [lia|]. right. rewrite Hse, Hads. unfold respond. rewrite andb_false_r. simpl.
      eexists. apply elem_of_app. right. by apply list_elem_of_singleton.
    + done.
Qed.

(** Setting a snapshot answers the watches it does not leave open. *)
Lemma SetSnapshot_grows c node s x :
  ads c = false → grows c (SetSnapshot c node s) x.
Proof.
  intros Hads. destruct (SetSnapshot_fields c node s) as (_ & Hch & _).
  assert (watchCount (SetSnapshot c node s) = watchCount c) as Hn.
  { unfold SetSnapshot. destruct (status c !! node); [|done]. by destruct (foldl _ _ _). }
  split; [lia|]. split; [lia|]. rewrite SetSnapshot_sent. split; [set_solver|].
  intros n i w _ Hw. destruct (decide (n = node)) as [->|Hne]; [|left; apply SetSnapshot_open; auto].
  destruct (stale s w) eqn:Est; [|left; apply SetSnapshot_open; auto]. right.
  exists (createResponse (w_Request w) (GetResources s (req_TypeUrl (w_Request w)))
            (snap_GetVersion s (req_TypeUrl (w_Request w)))).
  apply elem_of_app. right. apply list_elem_of_bind. exists (i, w). split; [|by apply elem_of_node_watches].
  unfold triggered. simpl. rewrite Est, Hads. unfold respond. rewrite andb_false_r. simpl.
  by apply list_elem_of_singleton.
Qed.

Lemma SetSnapshot_count c node s : watchCount (SetSnapshot (R := R) c node s) = watchCount c.
Proof. unfold SetSnapshot. destruct (status c !! node); [|done]. by destruct (foldl _ _ _). Qed.

Lemma SetSnapshot_mads_inv c streams node s : mads_inv c streams → mads_inv (SetSnapshot c node s) streams.
Proof.
  intros Hinv. pose proof (mi_ads _ _ Hinv) as Hads. constructor.
  - eapply (cache_step_inv hash); [apply step_Set|apply Hinv].
  - destruct (SetSnapshot_fields c node s) as [-> _]. done.
  - rewrite SetSnapshot_count. apply Hinv.
  - intros n i w [Hw _]%SetSnapshot_open. rewrite SetSnapshot_count. by eapply (mi_ids _ _ Hinv).
  - intros sid l Hl. eapply watch_state_grows; [by apply SetSnapshot_grows|]. by eapply (mi_stream _ _ Hinv).
  - apply Hinv.
Qed.

Lemma Reconcile_mads_inv gen c streams n node r c' n' :
  mads_inv c streams → mads_Reconcile proto_Equal uuid hash gen c n node = (r, (c', n')) → mads_inv c' streams.
Proof.
  intros Hinv. unfold mads_Reconcile. destruct (gen node) as [new|e|]; [|by intros [= _ <- _]..].
  destruct (Consistent new) as [[]|e|]; [|by intros [= _ <- _]..].
  destruct (AutoVersion _ _ _ _ _) as [[new'|] k]; [|by intros [= _ <- _]].
  intros [= _ <- _]. by apply SetSnapshot_mads_inv.
Qed.

(** A stream that returns gives up its watch. *)
Lemma return_mads_inv env id srv streams l (m : T) srv' :
  mads_inv (m_cache m) streams → streams !! id = Some l → ms_cancel l = m_cancel m →
  delete id (md_streams srv) = delete id streams →
  mads_return callbacks env srv id m = Ok srv' → mads_inv (md_cache srv') (md_streams srv').
Proof.
  intros Hinv Hl Hx Hst. unfold mads_return, mads_deferred.
  assert (outcome (mads_Cancel ≫= λ _, mads_callback callbacks (λ cb, run_proc (cb_OnStreamClosed cb env id))) m
    (λ _ m', m_cache m' = cancelled (m_cache m) (m_cancel m))) as Ho.
  { apply outcome_bind. eapply outcome_mono; [apply mads_Cancel_vars|]. intros r m1 [-> [= Hc _ _]].
    eapply outcome_mono; [apply mads_callback_vars|]. intros r m2 [= Hc2 _ _]. by rewrite Hc2. }
  unfold outcome in Ho. match type of Ho with m_cache (?f m).2 = _ => destruct (f m) as [[u|e|] m'] end; [|done..].
  simpl in Ho. intros [= <-]. simpl. rewrite Hst.
  rewrite Ho, <- Hx. destruct (cancelled_inv _ _ _ _ Hinv Hl) as (Hc & Had & Hn & Hch & Hids & Hg).
  constructor; [done|done|rewrite Hn; apply Hinv|done| |].
  - intros sid' l' [Hne Hl']%lookup_delete_Some. eapply watch_state_grows; [by apply (Hg sid')|].
    by eapply (mi_stream _ _ Hinv).
  - intros s1 s2 l1 l2 [_ H1]%lookup_delete_Some [_ H2]%lookup_delete_Some. by eapply (mi_apart _ _ Hinv).
Qed.

(** The variables of stream [id] after an iteration. *)
Lemma iteration_mads_inv env id l typ i srv :
  mads_inv (md_cache srv) (md_streams srv) → md_streams srv !! id = Some l →
  mads_ready (md_cache srv) l i → watchCount (md_cache srv) < 2 ^ 63 - 1 →
  outcome (mads_iteration hash Marshal callbacks env id typ i) (mads_load srv l) (λ _ m',
    mads_inv (m_cache m') (<[id := mkMadsStream typ (m_nonce m') (m_assignments m') (m_cancel m')
      (m_assignmentsNonce m') (m_node m') (m_log m')]> (md_streams srv))).
Proof.
  intros Hinv Hl Hready Hb. eapply outcome_mono; [apply mads_iteration_vars|]. intros r m' Hm.
  pose proof (mi_stream _ _ Hinv _ _ Hl) as Hws.
  assert (∀ a, (a = ms_assignments l ∨ a = (λ x : nat * bool, (x.1, true)) <$> ms_assignments l ∧ ∃ resp f, i = MadsResponse resp f) →
    mads_vars m' = (md_cache srv, a, ms_cancel l) →
    mads_inv (m_cache m') (<[id := mkMadsStream typ (m_nonce m') (m_assignments m') (m_cancel m')
      (m_assignmentsNonce m') (m_node m') (m_log m')]> (md_streams srv))) as Hsame.
  { intros a Ha [= -> -> ->]. eapply mads_inv_insert; simpl; [exact Hinv|apply Hinv..| |].
    - intros sid' l' Hl' Hne. split.
      + split; [lia|]. split; [lia|]. split; [done|]. by left.
      + destruct (mi_apart _ _ Hinv id sid' l l' Hl Hl' ltac:(congruence)) as [H1 H2]. split; [|exact H2].
        destruct Ha as [->|[-> _]]; [exact H1|]. destruct (ms_assignments l) as [[ch b]|]; simpl; naive_solver.
    - destruct Ha as [->|(-> & resp & f & ->)]; [done|]. destruct Hready as (ch & Ea & Hin). rewrite Ea in Hws |- *.
      destruct Hws as [[Hlt _] Hx]. split; [|done]. simpl. split; [done|]. right. eauto. }
  destruct i as [resp failed|req].
  - apply (Hsame _ (or_intror (conj eq_refl (ex_intro _ resp (ex_intro _ failed eq_refl)))) Hm).
  - destruct Hm as [Hm|(req' & Hm)]; [by apply (Hsame _ (or_introl eq_refl))|].
    destruct (cancelled_inv _ _ _ _ Hinv Hl) as (Hc1 & Had1 & Hn1 & Hch1 & Hids1 & Hg1).
    pose proof (mi_count _ _ Hinv) as Hcount. simpl in Hm.
    destruct (CreateWatch hash (env_now env) (cancelled (md_cache srv) (ms_cancel l)) req') as [[c' ch] cancel] eqn:Ew.
    destruct Hm as [-> [= -> -> ->]].
    assert (∀ x, _) as Hgen by (intros x; exact (CreateWatch_grows (env_now env) (cancelled (md_cache srv) (ms_cancel l))
      req' x Had1 Hc1 ltac:(rewrite Hn1; lia) Hids1)). rewrite Ew in Hgen.
    destruct (Hgen None) as (Hc2 & Had2 & -> & Hn2 & Hids2 & _ & Hws2 & Hfresh).
    eapply mads_inv_insert; simpl; [exact Hinv|done..| |done].
    intros sid' l' Hl' Hne. destruct (mi_stream _ _ Hinv _ _ Hl') as [Ha' Hx']. split.
    + destruct (Hgen (ms_cancel l')) as (_ & _ & _ & _ & _ & (G1 & G2 & G3 & G4) & _).
      destruct (Hg1 sid' l' Hl' Hne) as (K1 & K2 & K3 & K4).
      split; [lia|]. split; [lia|]. split; [auto|]. intros node wid w Hx Hw.
      destruct (K4 node wid w Hx Hw) as [?|[resp ?]]; [by apply G4|right; eauto].
    + split.
      * intros ch b b' [= <- <-] Ea. rewrite Ea in Ha'. destruct Ha' as [Hlt _]. lia.
      * intros n n' wid Ex Ex'. apply Hfresh in Ex. apply Hx' in Ex'. lia.
Qed.

Lemma mads_step_inv gen other srv srv' :
  mads_step hash Marshal callbacks proto_Equal uuid gen other srv srv' →
  mads_inv (md_cache srv) (md_streams srv) → mads_inv (md_cache srv') (md_streams srv').
Proof.
  intros Hstep Hinv. destruct Hstep as [env typ srv srv' Hb Hs|env id l i srv srv' Hl Hready Hb Hi|srv n node r c' n' Hr|srv cb _].
  - unfold mads_start in Hs. set (id := wrap_int (md_streamCount srv + 1)) in *.
    cbv zeta in Hs. cbn [md_cache md_cb md_streams] in Hs.
    match type of Hs with context [mads_callback callbacks ?f ?m0] => pose proof (mads_callback_vars f m0) as Hcb;
      unfold outcome in Hcb; destruct (mads_callback callbacks f m0) as [r m1] end.
    injection Hcb as Hc Ha Hx. simpl in Hc, Ha, Hx.
    assert (∀ typ', mads_inv (m_cache m1) (<[id := mkMadsStream typ' (m_nonce m1) (m_assignments m1) (m_cancel m1)
      (m_assignmentsNonce m1) (m_node m1) (m_log m1)]> (md_streams srv))) as Hnew.
    { intros typ'. rewrite Hc, Ha, Hx. eapply mads_inv_insert; simpl; [exact Hinv|apply Hinv..| |done].
      intros sid' l' _ _. split; [|done]. split; [lia|]. split; [lia|]. split; [done|]. by left. }
    destruct r as [[]|e|]; [| |discriminate Hs].
    + injection Hs as <-. apply Hnew.
    + eapply (return_mads_inv env id); [apply (Hnew "")|apply lookup_insert_eq|done| |exact Hs].
      simpl. by rewrite delete_insert_eq.
  - unfold mads_iterate in Hi. pose proof (iteration_mads_inv env id l (ms_type l) i srv Hinv Hl Hready Hb) as Hm.
    unfold outcome in Hm. destruct (mads_iteration _ _ _ _ _ _ _ _) as [r m']. simpl in Hm.
    assert (∀ srv'', mads_return callbacks env srv id m' = Ok srv'' → mads_inv (md_cache srv'') (md_streams srv'')) as Hret.
    { intros srv'' Hs. eapply (return_mads_inv env id); [exact Hm|apply lookup_insert_eq|done| |exact Hs].
      by rewrite delete_insert_eq. }
    destruct r as [[]|e|]; [injection Hi as <-; exact Hm|by apply Hret|by apply Hret|done].
  - simpl. by eapply Reconcile_mads_inv.
  - done.
Qed.

Lemma mads_reachable_inv gen other srv srv' :
  rtc (mads_step hash Marshal callbacks proto_Equal uuid gen other) srv srv' →
  mads_inv (md_cache srv) (md_streams srv) → mads_inv (md_cache srv') (md_streams srv').
Proof. induction 1 as [|? ? ? Hstep _ IH]; [done|]. intros Hinv. apply IH. by eapply mads_step_inv. Qed.

Lemma NewMadsServer_inv (cb : Cb) :
  mads_inv (md_cache (NewMadsServer (S := S) (R := R) false cb)) (md_streams (NewMadsServer (S := S) (R := R) false cb)).
Proof.
  constructor; simpl.
  - apply (reachable_inv hash false), rtc_refl.
  - done.
  - lia.
  - intros n i w (info & Hi & _). simpl in Hi. by rewrite lookup_empty in Hi.
  - intros sid l Hl. by rewrite lookup_empty in Hl.
  - intros s1 s2 l1 l2 Hl. by rewrite lookup_empty in Hl.
Qed.

(** C22: No stream is left behind.  In every state the server can reach, under any
    interleaving of streams, reconciliations and callbacks, a stream that made a
    request either has its response in its channel, or received it, or waits at
    an open watch of its own, at exactly the version of the assignments in the
    current snapshot of its node, if there is one: no update is missed.  No two
    streams share a channel. *)
Theorem mads_no_stream_left_behind gen other cb srv :
  rtc (mads_step hash Marshal callbacks proto_Equal uuid gen other) (NewMadsServer false cb) srv →
  (∀ id l ch received, md_streams srv !! id = Some l → ms_assignments l = Some (ch, received) →
     (∃ resp, (ch, resp) ∈ sent (md_cache srv))
     ∨ received = false ∧ ∃ node watchID req, ms_cancel l = Some (node, watchID)
         ∧ open_watch (md_cache srv) node watchID (mkWatch req ch)
         ∧ ∀ snapshot, snapshots (md_cache srv) !! node = Some snapshot →
             req_VersionInfo req = snap_GetVersion snapshot (req_TypeUrl req))
  ∧ ∀ id id' l l' ch received received', id ≠ id' → md_streams srv !! id = Some l → md_streams srv !! id' = Some l' →
      ms_assignments l = Some (ch, received) → ms_assignments l' ≠ Some (ch, received').
Proof.
  intros Hr. pose proof (mads_reachable_inv gen other _ _ Hr (NewMadsServer_inv cb)) as Hinv.
  split.
  - intros id l ch received Hl Ha. pose proof (mi_stream _ _ Hinv _ _ Hl) as [Hws _]. rewrite Ha in Hws.
    destruct Hws as [_ [(-> & node & wid & req & Hx & Hw)|Hsent]]; [right|by left]. split; [done|].
    exists node, wid, req. split; [done|]. split; [done|]. intros s Hs.
    pose proof (inv_fresh _ (mi_cache _ _ Hinv) _ _ _ _ Hw Hs) as Hst. unfold stale in Hst.
    apply negb_false_iff, String.eqb_eq in Hst. done.
  - intros id id' l l' ch rc rc' Hne Hl Hl' Ha Ha'. destruct (mi_apart _ _ Hinv id id' l l' Hl Hl' Hne) as [Hap _].
    by eapply Hap.
Qed.
End Facts.

(** ** A concrete server *)

Definition mads_env : cb_env := mkEnv 0 "".
Definition string_server : Type := @mads_server (MadsSnapshot string) string unit.
Definition or_new (r : res string_server) : string_server := match r with Ok srv => srv | _ => NewMadsServer false () end.

(** The server with the snapshot [v0]; with a stream; and with the stream waiting
    for the next snapshot. *)
Definition mads_server0 : string_server :=
  mkMadsServer (mads_Reconcile String.eqb sample_uuid hasher_ID (λ _, Ok (sample_snapshot "")) (NewSnapshotCache false)
                  0 sample_node).2.1 () 0 ∅.
Definition mads_server1 : string_server := or_new (mads_start None mads_env MonitoringAssignmentType mads_server0).
Definition mads_input1 : mads_input (R := string) :=
  MadsRequest (Some (Some (mkRequest sample_node MonitoringAssignmentType [] "v0" "" None))).
Definition mads_server2 : string_server :=
  match md_streams mads_server1 !! 1 with
  | Some l => or_new (mads_iterate hasher_ID Ok None mads_env 1 l mads_input1 mads_server1)
  | None => NewMadsServer false ()
  end.

Lemma mads_server2_reachable :
  rtc (mads_step hasher_ID Ok None String.eqb sample_uuid (λ _, Ok (sample_snapshot "")) eq) (NewMadsServer false ())
    mads_server2.
Proof.
  eapply rtc_l; [eapply (md_reconcile _ _ _ _ _ _ _ _ 0%nat sample_node); reflexivity|].
  eapply rtc_l; [eapply (md_start _ _ _ _ _ _ _ mads_env MonitoringAssignmentType _ mads_server1)|].
  - vm_compute; reflexivity.
  - vm_compute; reflexivity.
  - apply rtc_once. unfold mads_server2. destruct (md_streams mads_server1 !! 1) as [l|] eqn:El;
      [|vm_compute in El; discriminate El].
    eapply (md_iterate _ _ _ _ _ _ _ mads_env 1 l mads_input1); [exact El|exact I|vm_compute; reflexivity|].
    vm_compute in El. injection El as <-. vm_compute. reflexivity.
Qed.

Lemma mads_no_stream_left_behind_witness :
  ∃ l ch node watchID req,
    md_streams mads_server2 !! 1 = Some l ∧ ms_assignments l = Some (ch, false)
    ∧ ms_cancel l = Some (node, watchID) ∧ open_watch (md_cache mads_server2) node watchID (mkWatch req ch)
    ∧ sent (md_cache mads_server2) = [].
Proof.
  destruct (md_streams mads_server2 !! 1) as [l|] eqn:El; [|vm_compute in El; discriminate El].
  destruct (mads_no_stream_left_behind hasher_ID Ok None String.eqb sample_uuid (λ _, Ok (sample_snapshot "")) eq ()
    mads_server2 mads_server2_reachable) as [Hw _].
  assert (ms_assignments l = Some (0%nat, false)) as Ha by (vm_compute in El; injection El as <-; reflexivity).
  assert (sent (md_cache mads_server2) = []) as Hs by (vm_compute; reflexivity).
  destruct (Hw 1 l 0%nat false El Ha) as [[resp Hin]|(_ & node & wid & req & Hx & Ho & _)].
  - rewrite Hs in Hin. apply elem_of_nil in Hin. destruct Hin.
  - exists l, 0%nat, node, wid, req. split; [reflexivity|]. split; [exact Ha|]. split; [exact Hx|]. split; [exact Ho|exact Hs].
Defined.
