(* ===== verification/GoTime.v ===== *)
(** * Points in time as text: what the program uses of [time]

    Dates of the proleptic Gregorian calendar, [MarshalJSON] and
    [UnmarshalJSON] of [time.Time] (RFC 3339).  A point in time is a number of
    nanoseconds since 1970, read and written in UTC.  The main result: a time
    that was written is read back ([rfc3339_roundtrip]). *)

From S2P Require Import Prelude GoStd Json.
Local Open Scope string_scope.
Local Open Scope list_scope.
Local Open Scope Z_scope.

(** ** Dates *)

(** The proleptic Gregorian date of a day counted from 1970: year, month, day. *)
Definition civil (days : Z) : Z * Z * Z :=
  let z := days + 719468 in
  let era := z / 146097 in
  let doe := z mod 146097 in
  let yoe := (doe - doe / 1460 + doe / 36524 - doe / 146096) / 365 in
  let doy := doe - (365 * yoe + yoe / 4 - yoe / 100) in
  let mp := (5 * doy + 2) / 153 in
  let m := if mp <? 10 then mp + 3 else mp - 9 in
  (yoe + era * 400 + (if m <=? 2 then 1 else 0), m, doy - (153 * mp + 2) / 5 + 1).

(** Decimal digits, at least [width] of them. *)
Definition pad (width : nat) (n : Z) : string :=
  let s := format_uint n in
  String.concat "" (replicate (width - String.length s) "0") +:+ s.

(** The day of a date. *)
Definition days_of_civil (y m d : Z) : Z :=
  let y := if m <=? 2 then y - 1 else y in
  let era := y / 400 in
  let yoe := y mod 400 in
  let mp := if m <=? 2 then m + 9 else m - 3 in
  let doy := (153 * mp + 2) / 5 + d - 1 in
  era * 146097 + (yoe * 365 + yoe / 4 - yoe / 100 + doy) - 719468.

Definition is_leap (y : Z) : bool :=
  (y mod 4 =? 0) && (negb (y mod 100 =? 0) || (y mod 400 =? 0)).
Definition daysIn (m y : Z) : Z :=
  if m =? 2 then (if is_leap y then 29 else 28)
  else if (m =? 4) || (m =? 6) || (m =? 9) || (m =? 11) then 30 else 31.

(** ** Writing *)

(** The last [width] decimal digits. *)
Fixpoint digits (width : nat) (n : Z) : string :=
  match width with
  | O => ""
  | S width => snoc (digits width (n / 10)) (digit_char (n mod 10))
  end.

(** A fraction of a second without trailing zeros. *)
Fixpoint frac_digits (width : nat) (n : Z) : string :=
  match width with
  | O => ""
  | S w => if n mod 10 =? 0 then frac_digits w (n / 10) else digits width n
  end.

Definition day_nanos : Z := 86400 * 10 ^ 9.

(** The layout [time.RFC3339Nano] in UTC, for years of four digits. *)
Definition format_rfc3339 (t : Z) : string :=
  let '(y, m, d) := civil (t / day_nanos) in
  let s := t mod day_nanos / 10 ^ 9 in
  let ns := t mod 10 ^ 9 in
  digits 4 y +:+ "-" +:+ digits 2 m +:+ "-" +:+ digits 2 d +:+ "T"
  +:+ digits 2 (s / 3600) +:+ ":" +:+ digits 2 (s / 60 mod 60) +:+ ":" +:+ digits 2 (s mod 60)
  +:+ (if ns =? 0 then "" else "." +:+ frac_digits 9 ns) +:+ "Z".

Definition year_of (t : Z) : Z := (civil (t / day_nanos)).1.1.

Definition Time_MarshalJSON (t : Z) : res json :=
  if (year_of t <? 0) || (10000 <=? year_of t)
  then Err (Errorf "Time.MarshalJSON: year outside of range [0,9999]" [])
  else Ok (JStr (format_rfc3339 t)).

(** [Duration.String]: nanoseconds as hours, minutes and seconds, or in a unit
    below a second; [fmtFrac] leaves out a fraction that is zero. *)
Definition fmtFrac (u : Z) (prec : nat) : string :=
  let frac := u mod 10 ^ Z.of_nat prec in
  format_uint (u / 10 ^ Z.of_nat prec) +:+ (if frac =? 0 then "" else "." +:+ frac_digits prec frac).
Definition micro : string := String (ascii_of_N 0xC2) (String (ascii_of_N 0xB5) "").
Definition Duration_String (d : Z) : string :=
  let u := Z.abs d in
  let text :=
    if u =? 0 then "0s"
    else if u <? 10 ^ 3 then format_uint u +:+ "ns"
    else if u <? 10 ^ 6 then fmtFrac u 3 +:+ micro +:+ "s"
    else if u <? 10 ^ 9 then fmtFrac u 6 +:+ "ms"
    else
      let secs := u / 10 ^ 9 in
      let hours := secs / 3600 in
      (if 0 <? hours then format_uint hours +:+ "h" else "")
      +:+ (if 0 <? secs / 60 then format_uint (secs / 60 mod 60) +:+ "m" else "")
      +:+ fmtFrac (u mod (60 * 10 ^ 9)) 9 +:+ "s" in
  if d <? 0 then "-" +:+ text else text.

(** ** Reading *)

(** [width] decimal digits. *)
Fixpoint take_digits (width : nat) (n : Z) (s : string) : option (Z * string) :=
  match width with
  | O => Some (n, s)
  | S width =>
      match s with
      | String c rest => d ← digit_val c; take_digits width (10 * n + d) rest
      | EmptyString => None
      end
  end.

(** One or two digits. *)
Definition take_hour (s : string) : option (Z * string) :=
  match take_digits 2 0 s with
  | Some x => Some x
  | None => take_digits 1 0 s
  end.

Definition take_byte (c : ascii) (s : string) : option string :=
  match s with
  | String d rest => if Ascii.eqb d c then Some rest else None
  | EmptyString => None
  end.

Definition in_range (lo hi : Z) (n : Z) : option unit := if (lo <=? n) && (n <=? hi) then Some () else None.

(** The value of digits, and a fraction of a second in nanoseconds. *)
Fixpoint digits_value (n : Z) (s : string) : Z :=
  match s with
  | EmptyString => n
  | String c rest => digits_value (10 * n + default 0 (digit_val c)) rest
  end.
Definition take_fraction (s : string) : option (Z * string) :=
  match s with
  | String "." (String c _ as rest) =>
      match digit_val c with
      | Some _ =>
          let (ds, rest) := span (λ c, bool_decide (is_Some (digit_val c))) rest in
          let n := digits_value 0 ds in
          _ ← in_range 0 (10 ^ 9 - 1) n;
          Some (n * 10 ^ (9 - Z.of_nat (String.length ds)), rest)
      | None => Some (0, s)
      end
  | _ => Some (0, s)
  end.

(** The offset of the zone in seconds. *)
Definition take_zone (s : string) : option (Z * string) :=
  match s with
  | String "Z" rest => Some (0, rest)
  | String c rest =>
      sign ← (if Ascii.eqb c "+" then Some 1 else if Ascii.eqb c "-" then Some (-1) else None);
      '(hh, rest) ← take_digits 2 0 rest;
      rest ← take_byte ":" rest;
      '(mm, rest) ← take_digits 2 0 rest;
      Some (sign * (hh * 60 + mm) * 60, rest)
  | EmptyString => None
  end.

(** [Parse] with the layout [time.RFC3339]. *)
Definition parse_rfc3339 (s : string) : option Z :=
  '(y, s) ← take_digits 4 0 s;
  s ← take_byte "-" s;
  '(m, s) ← take_digits 2 0 s;
  _ ← in_range 1 12 m;
  s ← take_byte "-" s;
  '(d, s) ← take_digits 2 0 s;
  s ← take_byte "T" s;
  '(hour, s) ← take_hour s;
  _ ← in_range 0 23 hour;
  s ← take_byte ":" s;
  '(min, s) ← take_digits 2 0 s;
  _ ← in_range 0 59 min;
  s ← take_byte ":" s;
  '(sec, s) ← take_digits 2 0 s;
  _ ← in_range 0 59 sec;
  '(ns, s) ← take_fraction s;
  '(zone, s) ← take_zone s;
  _ ← (if String.eqb s "" then Some () else None);
  _ ← in_range 1 (daysIn m y) d;
  Some ((days_of_civil y m d * 86400 + hour * 3600 + min * 60 + sec - zone) * 10 ^ 9 + ns).

(** The error of [Parse] names the part of the text that does not fit; the
    program only passes it on. *)
Definition parse_error (s : string) : goerror := Errorf "parsing time %q" [AStr s].

(** [UnmarshalJSON] into a time: a null leaves it as it is. *)
Definition Time_UnmarshalJSON (v : json) (t : Z) : res Z :=
  match v with
  | JNull => Ok t
  | JStr s => match parse_rfc3339 s with Some t => Ok t | None => Err (parse_error s) end
  | _ => Err (parse_error "")
  end.

(** ** The calendar *)

(** The year of the 400-year cycle is found: it is monotone in the day, and
    right on the first and the last day of every year. *)
Definition cycle_year (doe : Z) : Z := (doe - doe / 1460 + doe / 36524 - doe / 146096) / 365.
Definition year_start (yoe : Z) : Z := 365 * yoe + yoe / 4 - yoe / 100 + yoe / 400.

Lemma cycle_year_step doe : 0 ≤ doe < 146096 → cycle_year doe ≤ cycle_year (doe + 1).
Proof.
  intros H. unfold cycle_year. apply Z.div_le_mono; [lia|].
  assert ((doe + 1) / 1460 ≤ doe / 1460 + 1) by (rewrite <- Z.div_add by lia; apply Z.div_le_mono; lia).
  assert (doe / 36524 ≤ (doe + 1) / 36524) by (apply Z.div_le_mono; lia).
  destruct (decide (doe = 146095)) as [->|].
  { vm_compute. done. }
  assert (doe / 146096 = 0) as -> by (apply Z.div_small; lia).
  assert ((doe + 1) / 146096 = 0) as -> by (apply Z.div_small; lia).
  lia.
Qed.

Lemma cycle_year_mono a b : 0 ≤ a → a ≤ b → b ≤ 146096 → cycle_year a ≤ cycle_year b.
Proof.
  intros Ha Hab. replace b with (a + Z.of_nat (Z.to_nat (b - a))) by lia.
  induction (Z.to_nat (b - a)) as [|n IH]; intros Hb; [by rewrite Z.add_0_r|].
  etransitivity; [apply IH; lia|]. replace (a + Z.of_nat (S n)) with (a + Z.of_nat n + 1) by lia.
  apply cycle_year_step. lia.
Qed.

(** A boolean statement for the numbers below [n]. *)
Definition all_below (n : nat) (p : Z → bool) : bool := forallb (λ i, p (Z.of_nat i)) (seq 0 n).
Lemma all_below_spec n p i : all_below n p = true → 0 ≤ i < Z.of_nat n → p i = true.
Proof.
  unfold all_below. rewrite forallb_forall. intros H Hi.
  replace i with (Z.of_nat (Z.to_nat i)) by lia. apply H, in_seq. lia.
Qed.

Lemma year_ends y : 0 ≤ y < 400 →
  cycle_year (year_start y) = y ∧ cycle_year (year_start (y + 1) - 1) = y
  ∧ 0 ≤ year_start y ∧ year_start (y + 1) ≤ 146097
  ∧ year_start (y + 1) - year_start y = (if is_leap (y + 1) then 366 else 365).
Proof.
  intros Hy.
  assert (all_below 400 (λ y, (cycle_year (year_start y) =? y) && (cycle_year (year_start (y + 1) - 1) =? y)
    && (0 <=? year_start y) && (year_start (y + 1) <=? 146097)
    && (year_start (y + 1) - year_start y =? (if is_leap (y + 1) then 366 else 365))) = true) as H
    by by vm_compute.
  apply (all_below_spec _ _ y H) in Hy. rewrite !andb_true_iff, !Z.eqb_eq, !Z.leb_le in Hy. tauto.
Qed.

Lemma cycle_year_spec doe : 0 ≤ doe < 146097 →
  0 ≤ cycle_year doe < 400
  ∧ year_start (cycle_year doe) ≤ doe < year_start (cycle_year doe + 1).
Proof.
  intros H. pose proof (cycle_year_mono 0 doe ltac:(lia) ltac:(lia) ltac:(lia)) as H0.
  pose proof (cycle_year_mono doe 146096 ltac:(lia) ltac:(lia) ltac:(lia)) as H1.
  change (cycle_year 0) with 0 in H0. change (cycle_year 146096) with 399 in H1.
  set (y := cycle_year doe) in *. split; [lia|].
  destruct (year_ends y ltac:(lia)) as (Hs & He & Hp & Hq & _). split.
  - destruct (Z.le_gt_cases (year_start y) doe) as [|Hlt]; [done|].
    assert (0 ≤ y - 1) as Hy.
    { destruct (decide (y = 0)) as [Hy|]; [|lia]. rewrite Hy in Hlt. change (year_start 0) with 0 in Hlt. lia. }
    destruct (year_ends (y - 1) ltac:(lia)) as (_ & He' & _ & Hq' & _).
    rewrite Z.sub_add in He', Hq'.
    pose proof (cycle_year_mono doe (year_start y - 1) ltac:(lia) ltac:(lia) ltac:(lia)). lia.
  - destruct (Z.lt_ge_cases doe (year_start (y + 1))) as [|Hge]; [done|].
    destruct (decide (y = 399)) as [Hy|].
    { rewrite Hy in Hge. change (year_start (399 + 1)) with 146097 in Hge. lia. }
    destruct (year_ends (y + 1) ltac:(lia)) as (Hs' & _ & Hp' & _).
    pose proof (cycle_year_mono (year_start (y + 1)) doe ltac:(lia) ltac:(lia) ltac:(lia)). lia.
Qed.

Lemma is_leap_cycle y era : is_leap (y + era * 400) = is_leap y.
Proof.
  unfold is_leap. replace (y + era * 400) with (y + (era * 100) * 4) at 1 by lia. rewrite Z_mod_plus_full.
  replace (y + era * 400) with (y + (era * 4) * 100) at 1 by lia. by rewrite !Z_mod_plus_full.
Qed.

(** Months and days from a day of the year that starts in March. *)
Definition march_month (doy : Z) : Z := (5 * doy + 2) / 153.
Lemma march_spec doy : 0 ≤ doy < 366 →
  let mp := march_month doy in
  let m := if mp <? 10 then mp + 3 else mp - 9 in
  let d := doy - (153 * mp + 2) / 5 + 1 in
  1 ≤ m ≤ 12 ∧ 1 ≤ d ∧ (if m <=? 2 then m + 9 else m - 3) = mp
  ∧ (m ≠ 2 → ∀ y, d ≤ daysIn m y) ∧ (m = 2 → d = doy - 336).
Proof.
  intros H. assert (all_below 366 (λ doy, let mp := march_month doy in
    let m := if mp <? 10 then mp + 3 else mp - 9 in
    let d := doy - (153 * mp + 2) / 5 + 1 in
    (1 <=? m) && (m <=? 12) && (1 <=? d) && ((if m <=? 2 then m + 9 else m - 3) =? mp)
    && ((m =? 2) || (d <=? daysIn m 0)) && (negb (m =? 2) || (d =? doy - 336))) = true) as Hall by by vm_compute.
  apply (all_below_spec _ _ doy Hall) in H. cbv zeta in H |- *.
  set (mp := march_month doy) in *. set (m := if mp <? 10 then _ else _) in *.
  rewrite !andb_true_iff, !orb_true_iff, negb_true_iff, !Z.eqb_eq, !Z.leb_le, Z.eqb_neq in H.
  destruct H as [[[[[? ?] ?] ?] Hd] H2].
  split; [lia|]. split; [lia|]. split; [lia|]. split; [|intros; lia].
  intros Hm y. destruct Hd as [Hm'|Hd]; [destruct (Hm Hm')|]. revert Hd. unfold daysIn.
  by rewrite (proj2 (Z.eqb_neq m 2) Hm).
Qed.

(** Every day has one date, and the date determines the day. *)
Lemma civil_spec days :
  let '(y, m, d) := civil days in
  days_of_civil y m d = days ∧ 1 ≤ m ≤ 12 ∧ 1 ≤ d ≤ daysIn m y.
Proof.
  unfold civil. set (z := days + 719468). set (era := z / 146097). set (doe := z mod 146097).
  assert (0 ≤ doe < 146097) as Hdoe by (apply Z.mod_pos_bound; lia).
  assert (z = 146097 * era + doe) as Hz by (apply Z.div_mod; lia).
  change ((doe - doe / 1460 + doe / 36524 - doe / 146096) / 365) with (cycle_year doe).
  destruct (cycle_year_spec doe Hdoe) as [Hy Hd]. set (yoe := cycle_year doe) in *.
  destruct (year_ends yoe Hy) as (_ & _ & _ & _ & Hlen).
  set (doy := doe - (365 * yoe + yoe / 4 - yoe / 100)).
  assert (year_start yoe = 365 * yoe + yoe / 4 - yoe / 100) as Hs.
  { unfold year_start. rewrite (Z.div_small yoe 400) by lia. lia. }
  assert (0 ≤ doy < (if is_leap (yoe + 1) then 366 else 365)) as Hdoy by (unfold doy; lia).
  assert (0 ≤ doy < 366) as Hdoy' by (destruct (is_leap _); lia).
  destruct (march_spec doy Hdoy') as (Hm & Hd1 & Hmp & Hin & H2). fold (march_month doy).
  set (mp := march_month doy) in *. set (m := if mp <? 10 then _ else _) in *.
  set (d := doy - _ + 1) in *.
  split; [|split; [done|split; [done|]]].
  - unfold days_of_civil.
    assert ((if m <=? 2 then yoe + era * 400 + (if m <=? 2 then 1 else 0) - 1
             else yoe + era * 400 + (if m <=? 2 then 1 else 0)) = yoe + era * 400) as ->.
    { destruct (m <=? 2); lia. }
    rewrite Z.div_add, Z_mod_plus_full, (Z.div_small yoe 400), (Z.mod_small yoe 400), Hmp by lia.
    unfold d, doy. subst z. lia.
  - destruct (decide (m = 2)) as [Hm2|]; [|by apply Hin]. specialize (H2 Hm2). rewrite Hm2. simpl.
    unfold daysIn. simpl. replace (yoe + era * 400 + 1) with (yoe + 1 + era * 400) by lia.
    rewrite is_leap_cycle. destruct (is_leap (yoe + 1)); lia.
Qed.

(** ** What is written is read back *)

Lemma take_digits_snoc w n s :
  take_digits (S w) n s = '(n, s) ← take_digits w n s; take_digits 1 n s.
Proof.
  revert n s; induction w as [|w IH]; intros n s; [done|]. destruct s as [|c s]; [done|].
  change (take_digits (S (S w)) n (String c s)) with (d ← digit_val c; take_digits (S w) (10 * n + d) s).
  change (take_digits (S w) n (String c s)) with (d ← digit_val c; take_digits w (10 * n + d) s).
  destruct (digit_val c) as [d|]; [|done]. cbn [mbind option_bind]. apply IH.
Qed.

Lemma take_digits_digits w n s :
  0 ≤ n < 10 ^ Z.of_nat w → take_digits w 0 (digits w n +:+ s) = Some (n, s).
Proof.
  revert n s; induction w as [|w IH]; intros n s Hn.
  { simpl in *. f_equal. f_equal. lia. }
  rewrite take_digits_snoc. cbn [digits]. unfold snoc. rewrite string_app_assoc.
  rewrite Nat2Z.inj_succ, Z.pow_succ_r in Hn by lia.
  rewrite IH by (split; [apply Z.div_pos; lia|apply Z.div_lt_upper_bound; lia]).
  pose proof (Z.mod_pos_bound n 10 ltac:(lia)). simpl. rewrite digit_val_char by lia. simpl.
  f_equal. f_equal. pose proof (Z.div_mod n 10 ltac:(lia)). lia.
Qed.

Definition is_digit (c : ascii) : bool := bool_decide (is_Some (digit_val c)).

Lemma digits_length w n : String.length (digits w n) = w.
Proof.
  revert n; induction w as [|w IH]; intros n; [done|]. simpl. unfold snoc.
  rewrite string_length_app, IH. simpl. lia.
Qed.

Lemma digits_value_app n s c d :
  digit_val c = Some d → digits_value n (snoc s c) = 10 * digits_value n s + d.
Proof.
  intros Hc. revert n; induction s as [|e s IH]; intros n; simpl; [by rewrite Hc|]. apply IH.
Qed.

Lemma digits_value_digits w n : 0 ≤ n < 10 ^ Z.of_nat w → digits_value 0 (digits w n) = n.
Proof.
  revert n; induction w as [|w IH]; intros n Hn; [simpl in *; lia|].
  rewrite Nat2Z.inj_succ, Z.pow_succ_r in Hn by lia. cbn [digits].
  pose proof (Z.mod_pos_bound n 10 ltac:(lia)).
  rewrite (digits_value_app _ _ _ (n mod 10)) by (apply digit_val_char; lia).
  rewrite IH by (split; [apply Z.div_pos; lia|apply Z.div_lt_upper_bound; lia]).
  pose proof (Z.div_mod n 10 ltac:(lia)). lia.
Qed.

Lemma digits_digits w n : all_bytes is_digit (digits w n) = true.
Proof.
  revert n; induction w as [|w IH]; intros n; [done|]. cbn [digits]. unfold snoc.
  rewrite all_bytes_app, IH. simpl. unfold is_digit. pose proof (Z.mod_pos_bound n 10 ltac:(lia)).
  by rewrite digit_val_char by lia.
Qed.

(** A fraction is some of the digits, and its value is scaled back. *)
Lemma frac_digits_spec w n : 0 < n < 10 ^ Z.of_nat w →
  ∃ v m, frac_digits w n = digits v m ∧ (0 < v ≤ w)%nat ∧ 0 ≤ m < 10 ^ Z.of_nat v
    ∧ n = m * 10 ^ (Z.of_nat w - Z.of_nat v).
Proof.
  revert n; induction w as [|w IH]; intros n Hn; [simpl in Hn; lia|].
  rewrite Nat2Z.inj_succ in *. pose proof (Z.div_mod n 10 ltac:(lia)) as Hdm.
  pose proof Hn as Hn'. rewrite Z.pow_succ_r in Hn' by lia. cbn [frac_digits].
  destruct (Z.eqb_spec (n mod 10) 0) as [H0|].
  - destruct (IH (n / 10)) as (v & m & -> & Hv & Hm & Hnm).
    { split; [lia|]. apply Z.div_lt_upper_bound; lia. }
    exists v, m. split; [done|]. split; [lia|]. split; [done|].
    rewrite Hdm, H0, Hnm.
    replace (Z.succ (Z.of_nat w) - Z.of_nat v) with (Z.succ (Z.of_nat w - Z.of_nat v)) by lia.
    rewrite Z.pow_succ_r by lia. lia.
  - exists (S w), n. rewrite Nat2Z.inj_succ. split; [done|]. split; [lia|]. split; [lia|].
    by rewrite Z.sub_diag, Z.mul_1_r.
Qed.

Lemma take_fraction_frac ns s :
  0 ≤ ns < 10 ^ 9 → match s with String c _ => is_digit c = false ∧ c ≠ "."%char | _ => True end →
  take_fraction ((if ns =? 0 then "" else "." +:+ frac_digits 9 ns) +:+ s) = Some (ns, s).
Proof.
  intros Hns Hs. destruct (Z.eqb_spec ns 0) as [->|].
  { destruct s as [|c s]; [done|]. destruct Hs as [_ Hs]. simpl.
    unfold take_fraction. revert Hs. each_byte c; done. }
  destruct (frac_digits_spec 9 ns ltac:(simpl in *; lia)) as (v & m & -> & Hv & Hm & ->).
  destruct v as [|v]; [lia|].
  assert (∃ c rest, digits (S v) m = String c rest ∧ is_digit c = true) as (c & rest & E & Hc).
  { pose proof (digits_digits (S v) m) as Hd. pose proof (digits_length (S v) m) as Hl.
    destruct (digits (S v) m) as [|c rest]; [done|]. exists c, rest. simpl in Hd.
    by apply andb_true_iff in Hd as [? _]. }
  assert (span is_digit (digits (S v) m +:+ s) = (digits (S v) m, s)) as Hspan.
  { apply span_app; [apply digits_digits|]. destruct s; [done|]. by destruct Hs. }
  change (("." +:+ digits (S v) m) +:+ s) with (String "." (digits (S v) m +:+ s)).
  rewrite E in Hspan |- *. change (String c rest +:+ s) with (String c (rest +:+ s)) in Hspan |- *.
  unfold take_fraction. cbv beta iota.
  unfold is_digit in Hc. apply bool_decide_eq_true in Hc as [d Hc]. rewrite Hc.
  change (λ c0 : ascii, bool_decide (is_Some (digit_val c0))) with is_digit. rewrite Hspan, <- E.
  rewrite digits_value_digits by done. rewrite digits_length.
  unfold in_range. rewrite (proj2 (Z.leb_le 0 m)), (proj2 (Z.leb_le m (10 ^ 9 - 1))); [done| |lia].
  assert (10 ^ Z.of_nat (S v) ≤ 10 ^ 9) by (apply Z.pow_le_mono_r; lia). lia.
Qed.

Lemma in_range_true lo hi n : lo ≤ n ≤ hi → in_range lo hi n = Some ().
Proof.
  intros H. unfold in_range. by rewrite (proj2 (Z.leb_le lo n)), (proj2 (Z.leb_le n hi)) by lia.
Qed.

Lemma daysIn_le m y : daysIn m y ≤ 31.
Proof. unfold daysIn. repeat case_match; lia. Qed.

Lemma take_byte_app c s : take_byte c (String c "" +:+ s) = Some s.
Proof. simpl. by rewrite Ascii.eqb_refl. Qed.

Lemma rfc3339_roundtrip t :
  0 ≤ year_of t < 10000 → parse_rfc3339 (format_rfc3339 t) = Some t.
Proof.
  unfold year_of, format_rfc3339. pose proof (civil_spec (t / day_nanos)) as Hc.
  destruct (civil (t / day_nanos)) as [[y m] d]. cbn [fst]. intros Hy. destruct Hc as (Hdays & Hm & Hd).
  pose proof (daysIn_le m y). unfold day_nanos in *.
  pose proof (Z.mod_pos_bound t (86400 * 10 ^ 9) ltac:(lia)) as Ht.
  set (s := t mod (86400 * 10 ^ 9) / 10 ^ 9). set (ns := t mod 10 ^ 9).
  assert (0 ≤ s < 86400) as Hs by (unfold s; split; [apply Z.div_pos; lia|apply Z.div_lt_upper_bound; lia]).
  assert (0 ≤ ns < 10 ^ 9) as Hns by (apply Z.mod_pos_bound; lia).
  assert (t = t / (86400 * 10 ^ 9) * (86400 * 10 ^ 9) + s * 10 ^ 9 + ns) as Htime.
  { pose proof (Z.div_mod t (86400 * 10 ^ 9) ltac:(lia)).
    pose proof (Z.div_mod (t mod (86400 * 10 ^ 9)) (10 ^ 9) ltac:(lia)) as H2.
    rewrite Z.mod_mod_divide in H2 by (by exists 86400).
    fold ns in H2. lia. }
  assert (0 ≤ s / 3600 ≤ 23) by (split; [apply Z.div_pos; lia|apply Z.lt_succ_r, Z.div_lt_upper_bound; lia]).
  pose proof (Z.mod_pos_bound (s / 60) 60 ltac:(lia)). pose proof (Z.mod_pos_bound s 60 ltac:(lia)).
  assert (s = s / 3600 * 3600 + s / 60 mod 60 * 60 + s mod 60) as Hsec.
  { pose proof (Z.div_mod s 60 ltac:(lia)). pose proof (Z.div_mod (s / 60) 60 ltac:(lia)) as Hmin.
    rewrite Z.div_div in Hmin by lia. change (60 * 60) with 3600 in Hmin. lia. }
  unfold parse_rfc3339, take_hour.
  repeat first [rewrite take_digits_digits by (simpl; lia) | rewrite take_byte_app
               | rewrite in_range_true by lia | progress cbn [mbind option_bind]].
  rewrite take_fraction_frac by (done || by split). cbn [mbind option_bind take_zone].
  rewrite String.eqb_refl. cbn [mbind option_bind].
  f_equal. rewrite Hdays. lia.
Qed.

(** Through JSON. *)
Lemma Time_roundtrip t v : Time_MarshalJSON t = Ok v → ∀ t', Time_UnmarshalJSON v t' = Ok t.
Proof.
  unfold Time_MarshalJSON. destruct (_ || _) eqn:E; [done|]. intros [= <-] t'. cbn [Time_UnmarshalJSON].
  apply orb_false_iff in E as [? ?]. by rewrite rfc3339_roundtrip by lia.
Qed.

(** What is written is text. *)
Definition ascii_byte (c : ascii) : bool := code c <? 0x80.

Lemma valid_ascii s : all_bytes ascii_byte s = true → valid_utf8 s = true.
Proof.
  induction s as [|c s IH]; [done|]. simpl. rewrite andb_true_iff. unfold ascii_byte. intros [-> Hs]. auto.
Qed.

Lemma digits_ascii w n : all_bytes ascii_byte (digits w n) = true.
Proof.
  pose proof (digits_digits w n) as H. revert H. induction (digits w n) as [|c s IH]; [done|].
  cbn [all_bytes]. rewrite !andb_true_iff. intros [Hc Hs]. split; [|auto].
  clear -Hc. revert Hc. unfold is_digit. each_byte c; done.
Qed.

Lemma frac_digits_ascii w n : all_bytes ascii_byte (frac_digits w n) = true.
Proof.
  revert n; induction w as [|w IH]; intros n; [done|]. cbn [frac_digits].
  destruct (_ =? 0); [apply IH|apply digits_ascii].
Qed.

Lemma format_rfc3339_valid t : valid_utf8 (format_rfc3339 t) = true.
Proof.
  apply valid_ascii. unfold format_rfc3339. destruct (civil (t / day_nanos)) as [[y m] d].
  rewrite !all_bytes_app, !digits_ascii. destruct (_ =? 0); [done|].
  by rewrite all_bytes_app, frac_digits_ascii.
Qed.
