(* ===== verification/AccessLogEntry.v ===== *)
(** * Access log entries

    Models what [pkg/envoy/accesslog] does with the entries that Envoy sends over
    the gRPC access log: every operator turns an entry into text.  The messages
    are records of the fields the code reads; a nil message reads as an empty one,
    which is what the generated getters do. *)

From S2P Require Import Prelude GoStd Json GoTime MeshResources Insights AccessLog.
Local Open Scope Z_scope.

(** ** The messages of Envoy *)

Inductive Address : Type :=
| SocketAddress (address : string) (portValue : Z)
| Pipe (path : string).

Inductive San : Type := SanUri (uri : string) | SanDns (dns : string).

Record CertificateProperties : Type := mkCertificateProperties {
  crt_SubjectAltName : list (option San);
  crt_Subject : string;
}.

Record TLSProperties : Type := mkTLSProperties {
  tls_Version : Z;
  tls_CipherSuite : option Z;
  tls_SniHostname : string;
  tls_Local : option CertificateProperties;
  tls_Peer : option CertificateProperties;
  tls_SessionId : string;
}.
Definition emptyTLS : TLSProperties := mkTLSProperties 0 None "" None None "".

Record ResponseFlags : Type := mkResponseFlags {
  FailedLocalHealthcheck : bool;
  NoHealthyUpstream : bool;
  UpstreamRequestTimeout : bool;
  LocalReset : bool;
  UpstreamRemoteReset : bool;
  UpstreamConnectionFailure : bool;
  UpstreamConnectionTermination : bool;
  UpstreamOverflow : bool;
  NoRouteFound : bool;
  DelayInjected : bool;
  FaultInjected : bool;
  RateLimited : bool;
  UnauthorizedDetails_Reason : Z;
  RateLimitServiceError : bool;
  DownstreamConnectionTermination : bool;
  UpstreamRetryLimitExceeded : bool;
  StreamIdleTimeout : bool;
  InvalidEnvoyRequestHeaders : bool;
  DownstreamProtocolError : bool;
}.
Definition emptyFlags : ResponseFlags :=
  mkResponseFlags false false false false false false false false false false false false 0
    false false false false false false.

Record AccessLogCommon : Type := mkCommon {
  alc_DownstreamRemoteAddress : option Address;
  alc_DownstreamLocalAddress : option Address;
  alc_DownstreamDirectRemoteAddress : option Address;
  alc_UpstreamRemoteAddress : option Address;
  alc_UpstreamLocalAddress : option Address;
  alc_UpstreamCluster : string;
  alc_TlsProperties : option TLSProperties;
  alc_StartTime : option Timestamp;
  alc_TimeToLastRxByte : option Duration;
  alc_TimeToFirstUpstreamRxByte : option Duration;
  alc_TimeToLastDownstreamTxByte : option Duration;
  alc_ResponseFlags : option ResponseFlags;
  alc_UpstreamTransportFailureReason : string;
  alc_RouteName : string;
}.
Definition emptyCommon : AccessLogCommon :=
  mkCommon None None None None None "" None None None None None None "" "".

Record HTTPRequestProperties : Type := mkRequestProperties {
  rq_RequestMethod : Z;
  rq_Scheme : string;
  rq_Authority : string;
  rq_Path : string;
  rq_UserAgent : string;
  rq_Referer : string;
  rq_ForwardedFor : string;
  rq_RequestId : string;
  rq_OriginalPath : string;
  rq_RequestBodyBytes : Z;
  rq_RequestHeaders : gmap string string;
}.
Definition emptyRequest : HTTPRequestProperties := mkRequestProperties 0 "" "" "" "" "" "" "" "" 0 ∅.

Record HTTPResponseProperties : Type := mkResponseProperties {
  rs_ResponseCode : option Z;
  rs_ResponseBodyBytes : Z;
  rs_ResponseHeaders : gmap string string;
  rs_ResponseTrailers : gmap string string;
  rs_ResponseCodeDetails : string;
}.
Definition emptyResponse : HTTPResponseProperties := mkResponseProperties None 0 ∅ ∅ "".

Record HTTPAccessLogEntry : Type := mkHTTPEntry {
  he_CommonProperties : option AccessLogCommon;
  he_ProtocolVersion : Z;
  he_Request : option HTTPRequestProperties;
  he_Response : option HTTPResponseProperties;
}.

Record TCPAccessLogEntry : Type := mkTCPEntry {
  te_CommonProperties : option AccessLogCommon;
  te_ReceivedBytes : Z;
  te_SentBytes : Z;
}.

Definition he_common (e : HTTPAccessLogEntry) : AccessLogCommon := default emptyCommon (he_CommonProperties e).
Definition he_request (e : HTTPAccessLogEntry) : HTTPRequestProperties := default emptyRequest (he_Request e).
Definition he_response (e : HTTPAccessLogEntry) : HTTPResponseProperties := default emptyResponse (he_Response e).
Definition te_common (e : TCPAccessLogEntry) : AccessLogCommon := default emptyCommon (te_CommonProperties e).

(** ** tls_cipher_suites.go *)

Definition cipher_suites : list (Z * string) :=
  [(0x0005, "RSA-RC4-128-SHA"); (0x000a, "RSA-3DES-EDE-CBC-SHA"); (0x002f, "RSA-AES-128-CBC-SHA");
   (0x0035, "RSA-AES-256-CBC-SHA"); (0x003c, "RSA-AES-128-CBC-SHA256"); (0x009c, "RSA-AES-128-GCM-SHA256");
   (0x009d, "RSA-AES-256-GCM-SHA384"); (0xc007, "ECDHE-ECDSA-RC4-128-SHA");
   (0xc009, "ECDHE-ECDSA-AES-128-CBC-SHA"); (0xc00a, "ECDHE-ECDSA-AES-256-CBC-SHA");
   (0xc011, "ECDHE-RSA-RC4-128-SHA"); (0xc012, "ECDHE-RSA-3DES-EDE-CBC-SHA");
   (0xc013, "ECDHE-RSA-AES-128-CBC-SHA"); (0xc014, "ECDHE-RSA-AES-256-CBC-SHA");
   (0xc023, "ECDHE-ECDSA-AES-128-CBC-SHA256"); (0xc027, "ECDHE-RSA-AES-128-CBC-SHA256");
   (0xc02f, "ECDHE-RSA-AES-128-GCM-SHA256"); (0xc02b, "ECDHE-ECDSA-AES-128-GCM-SHA256");
   (0xc030, "ECDHE-RSA-AES-256-GCM-SHA384"); (0xc02c, "ECDHE-ECDSA-AES-256-GCM-SHA384");
   (0xcca8, "ECDHE-RSA-CHACHA20-POLY1305"); (0xcca9, "ECDHE-ECDSA-CHACHA20-POLY1305");
   (0x1301, "AES-128-GCM-SHA256"); (0x1302, "AES-256-GCM-SHA384"); (0x1303, "CHACHA20-POLY1305-SHA256");
   (0x5600, "FALLBACK-SCSV")].

(** [%#x] of a number of 16 bits. *)
Fixpoint hex_go (fuel : nat) (n : Z) (acc : string) : string :=
  let acc := String (hex_digit (Z.to_N (n mod 16))) acc in
  match fuel with
  | O => acc
  | S fuel => if n / 16 =? 0 then acc else hex_go fuel (n / 16) acc
  end.
Definition hex_of (n : Z) : string := "0x" +:+ hex_go 3 n "".

(** A suite is a number of 16 bits. *)
Definition TlsCipherSuite_String (s : Z) : string :=
  match find (λ c, c.1 =? s) cipher_suites with Some (_, name) => name | None => hex_of s end.

(** ** start_time_operator.go *)

(** A point in time in UTC: seconds since 1970 and nanoseconds. *)
Record Time : Type := mkTime { time_Sec : Z; time_Nsec : Z }.

(** [Format] with the layout [2006-01-02T15:04:05.000Z], for years from 0. *)
Definition Format_millis (t : Time) : string :=
  let '(y, m, d) := civil (time_Sec t / 86400) in
  let s := time_Sec t mod 86400 in
  pad 4 y +:+ "-" +:+ pad 2 m +:+ "-" +:+ pad 2 d +:+ "T"
  +:+ pad 2 (s / 3600) +:+ ":" +:+ pad 2 (s / 60 mod 60) +:+ ":" +:+ pad 2 (s mod 60)
  +:+ "." +:+ pad 3 (time_Nsec t / 1000000) +:+ "Z".

Section Entries.
(** [ptypes.Duration] and [ptypes.Timestamp] of golang/protobuf, which refuse
    messages out of range, and the names of the enumerations of Envoy. *)
Context (ptypes_Duration : Duration → goerror + Z) (ptypes_Timestamp : Timestamp → goerror + Time).
Context (HTTPVersion_String TLSVersion_String RequestMethod_String : Z → string).

Definition or_error {A B} (x : goerror + A) (f : A → res B) : res B :=
  match x with inl e => Err e | inr a => f a end.

(** ** field_operator.go *)

(** [formatDuration]: milliseconds, rounded towards zero. *)
Definition formatDuration (dur : option Duration) : res string :=
  match dur with
  | None => Ok ""
  | Some dur => or_error (ptypes_Duration dur) (λ durNanos, Ok (itoa (Z.quot durNanos 1000000)))
  end.

Definition formatDurationDelta (outer inner : option Duration) : res string :=
  match outer, inner with
  | Some outer, Some inner =>
      or_error (ptypes_Duration outer) (λ outerNanos,
      or_error (ptypes_Duration inner) (λ innerNanos,
      Ok (itoa (Z.quot (wrap_int (outerNanos - innerNanos)) 1000000))))
  | _, _ => Ok ""
  end.

Definition formatHttpVersion (value : Z) : string :=
  if value =? 0 then "" else if value =? 1 then "HTTP/1.0" else if value =? 2 then "HTTP/1.1"
  else if value =? 3 then "HTTP/2" else if value =? 4 then "HTTP/3" else HTTPVersion_String value.

(** The flags with their names, in the order of [formatResponseFlags]. *)
Definition response_flags (flags : ResponseFlags) : list (bool * string) :=
  [(FailedLocalHealthcheck flags, "LH"); (NoHealthyUpstream flags, "UH"); (UpstreamRequestTimeout flags, "UT");
   (LocalReset flags, "LR"); (UpstreamRemoteReset flags, "UR"); (UpstreamConnectionFailure flags, "UF");
   (UpstreamConnectionTermination flags, "UC"); (UpstreamOverflow flags, "UO"); (NoRouteFound flags, "NR");
   (DelayInjected flags, "DI"); (FaultInjected flags, "FI"); (RateLimited flags, "RL");
   (UnauthorizedDetails_Reason flags =? 1, "UAEX"); (RateLimitServiceError flags, "RLSE");
   (DownstreamConnectionTermination flags, "DC"); (UpstreamRetryLimitExceeded flags, "URX");
   (StreamIdleTimeout flags, "SI"); (InvalidEnvoyRequestHeaders flags, "IH"); (DownstreamProtocolError flags, "DPE")].

Definition formatResponseFlags (flags : option ResponseFlags) : string :=
  join "," (snd <$> List.filter fst (response_flags (default emptyFlags flags))).

Definition formatAddress (address : option Address) (includePort : bool) : string :=
  match address with
  | Some (SocketAddress address port) => if includePort then JoinHostPort address (format_uint port) else address
  | Some (Pipe path) => path
  | None => ""
  end.

Definition formatUriSans (sans : list (option San)) : string :=
  join "," (omap (λ san, match san with Some (SanUri uri) => Some uri | _ => None end) sans).

(** The conversion to [TlsCipherSuite] keeps 16 of 32 bits. *)
Definition formatTlsCipherSuite (value : option Z) : string :=
  match value with
  | None => ""
  | Some value => if value =? 0xFFFF then "" else TlsCipherSuite_String (value mod 2 ^ 16)
  end.

Definition formatTlsVersion (value : Z) : string :=
  if value =? 0 then "" else if value =? 1 then "TLSv1" else if value =? 2 then "TLSv1.1"
  else if value =? 3 then "TLSv1.2" else if value =? 4 then "TLSv1.3" else TLSVersion_String value.

Definition formatAccessLogCommon (f : string) (entry : AccessLogCommon) : res string :=
  let tls := default emptyTLS (alc_TlsProperties entry) in
  let cert (c : option CertificateProperties) := default (mkCertificateProperties [] "") c in
  string_switch f
    [("UPSTREAM_TRANSPORT_FAILURE_REASON", Ok (alc_UpstreamTransportFailureReason entry));
     ("DURATION", formatDuration (alc_TimeToLastDownstreamTxByte entry));
     ("RESPONSE_FLAGS", Ok (formatResponseFlags (alc_ResponseFlags entry)));
     ("UPSTREAM_HOST", Ok (formatAddress (alc_UpstreamRemoteAddress entry) true));
     ("UPSTREAM_CLUSTER", Ok (alc_UpstreamCluster entry));
     ("UPSTREAM_LOCAL_ADDRESS", Ok (formatAddress (alc_UpstreamLocalAddress entry) true));
     ("DOWNSTREAM_LOCAL_ADDRESS", Ok (formatAddress (alc_DownstreamLocalAddress entry) true));
     ("DOWNSTREAM_LOCAL_ADDRESS_WITHOUT_PORT", Ok (formatAddress (alc_DownstreamLocalAddress entry) false));
     ("DOWNSTREAM_REMOTE_ADDRESS", Ok (formatAddress (alc_DownstreamRemoteAddress entry) true));
     ("DOWNSTREAM_REMOTE_ADDRESS_WITHOUT_PORT", Ok (formatAddress (alc_DownstreamRemoteAddress entry) false));
     ("DOWNSTREAM_DIRECT_REMOTE_ADDRESS", Ok (formatAddress (alc_DownstreamDirectRemoteAddress entry) true));
     ("DOWNSTREAM_DIRECT_REMOTE_ADDRESS_WITHOUT_PORT",
      Ok (formatAddress (alc_DownstreamDirectRemoteAddress entry) false));
     ("REQUESTED_SERVER_NAME", Ok (tls_SniHostname tls));
     ("ROUTE_NAME", Ok (alc_RouteName entry));
     ("DOWNSTREAM_PEER_URI_SAN", Ok (formatUriSans (crt_SubjectAltName (cert (tls_Peer tls)))));
     ("DOWNSTREAM_LOCAL_URI_SAN", Ok (formatUriSans (crt_SubjectAltName (cert (tls_Local tls)))));
     ("DOWNSTREAM_PEER_SUBJECT", Ok (crt_Subject (cert (tls_Peer tls))));
     ("DOWNSTREAM_LOCAL_SUBJECT", Ok (crt_Subject (cert (tls_Local tls))));
     ("DOWNSTREAM_TLS_SESSION_ID", Ok (tls_SessionId tls));
     ("DOWNSTREAM_TLS_CIPHER", Ok (formatTlsCipherSuite (tls_CipherSuite tls)));
     ("DOWNSTREAM_TLS_VERSION", Ok (formatTlsVersion (tls_Version tls)))]
    (Ok ("UNSUPPORTED_COMMAND(" +:+ FieldOperator_String f +:+ ")")).

Definition Field_FormatHttpLogEntry (f : string) (entry : HTTPAccessLogEntry) : res string :=
  let common := he_common entry in
  string_switch f
    [("BYTES_RECEIVED", Ok (format_uint (rq_RequestBodyBytes (he_request entry))));
     ("BYTES_SENT", Ok (format_uint (rs_ResponseBodyBytes (he_response entry))));
     ("PROTOCOL", Ok (formatHttpVersion (he_ProtocolVersion entry)));
     ("RESPONSE_CODE", Ok (format_uint (default 0 (rs_ResponseCode (he_response entry)))));
     ("RESPONSE_CODE_DETAILS", Ok (rs_ResponseCodeDetails (he_response entry)));
     ("REQUEST_DURATION", formatDuration (alc_TimeToLastRxByte common));
     ("RESPONSE_DURATION", formatDuration (alc_TimeToFirstUpstreamRxByte common));
     ("RESPONSE_TX_DURATION",
      formatDurationDelta (alc_TimeToLastDownstreamTxByte common) (alc_TimeToFirstUpstreamRxByte common))]
    (formatAccessLogCommon f common).

Definition Field_FormatTcpLogEntry (f : string) (entry : TCPAccessLogEntry) : res string :=
  string_switch f
    [("BYTES_RECEIVED", Ok (format_uint (te_ReceivedBytes entry)));
     ("BYTES_SENT", Ok (format_uint (te_SentBytes entry)));
     ("PROTOCOL", Ok ""); ("RESPONSE_CODE", Ok "0"); ("RESPONSE_CODE_DETAILS", Ok "");
     ("REQUEST_DURATION", Ok ""); ("RESPONSE_DURATION", Ok ""); ("RESPONSE_TX_DURATION", Ok "")]
    (formatAccessLogCommon f (te_common entry)).

(** ** Header operators *)

(** [Format] over any set of headers. *)
Definition Header_Format (f : HeaderFormatter) (get : string → string * bool) : string :=
  let '(value, exists_) := if negb (String.eqb (hf_Header f) "") then get (hf_Header f) else ("", false) in
  let value := if negb exists_ && negb (String.eqb (hf_AltHeader f) "") then (get (hf_AltHeader f)).1 else value in
  if (0 <? hf_MaxLength f) && (hf_MaxLength f <? Z.of_nat (String.length value))
  then stake (Z.to_nat (hf_MaxLength f)) value else value.

Definition HeaderMap_Get (m : gmap string string) (name : string) : string * bool :=
  match m !! name with Some value => (value, true) | None => ("", false) end.

Definition optionalString (value : string) : string * bool := (value, negb (String.eqb value "")).
Definition formatHttpMethod (method : Z) : string * bool :=
  if method =? 0 then ("", false) else (RequestMethod_String method, true).

Definition RequestHeaders_Get (h : HTTPRequestProperties) (name : string) : string * bool :=
  string_switch name
    [(":method", formatHttpMethod (rq_RequestMethod h)); (":scheme", optionalString (rq_Scheme h));
     (":authority", optionalString (rq_Authority h)); (":path", optionalString (rq_Path h));
     ("user-agent", optionalString (rq_UserAgent h)); ("referer", optionalString (rq_Referer h));
     ("x-forwarded-for", optionalString (rq_ForwardedFor h)); ("x-request-id", optionalString (rq_RequestId h));
     ("x-envoy-original-path", optionalString (rq_OriginalPath h))]
    (HeaderMap_Get (rq_RequestHeaders h) name).

(** ** The other operators *)

Definition StartTime_format (entry : AccessLogCommon) : res string :=
  match alc_StartTime entry with
  | None => Ok ""
  | Some ts => or_error (ptypes_Timestamp ts) (λ startTime, Ok (Format_millis startTime))
  end.

Definition DynamicMetadata_format : string := "UNSUPPORTED_COMMAND(%DYNAMIC_METADATA(NAMESPACE:KEY*):Z%)".
Definition FilterState_format : string := "UNSUPPORTED_COMMAND(%FILTER_STATE(KEY):Z%)".

Definition Fragment_FormatHttpLogEntry (f : AccessLogFragment) (entry : HTTPAccessLogEntry) : res string :=
  match f with
  | TextSpan text => Ok text
  | Placeholder name => Ok (Placeholder_String name)
  | FieldOperator field => Field_FormatHttpLogEntry field entry
  | RequestHeaderOperator h => Ok (Header_Format h (RequestHeaders_Get (he_request entry)))
  | ResponseHeaderOperator h => Ok (Header_Format h (HeaderMap_Get (rs_ResponseHeaders (he_response entry))))
  | ResponseTrailerOperator h => Ok (Header_Format h (HeaderMap_Get (rs_ResponseTrailers (he_response entry))))
  | DynamicMetadataOperator _ _ _ => Ok DynamicMetadata_format
  | FilterStateOperator _ _ => Ok FilterState_format
  | StartTimeOperator _ => StartTime_format (he_common entry)
  end.

Definition Fragment_FormatTcpLogEntry (f : AccessLogFragment) (entry : TCPAccessLogEntry) : res string :=
  match f with
  | TextSpan text => Ok text
  | Placeholder name => Ok (Placeholder_String name)
  | FieldOperator field => Field_FormatTcpLogEntry field entry
  | RequestHeaderOperator _ | ResponseHeaderOperator _ | ResponseTrailerOperator _ => Ok ""
  | DynamicMetadataOperator _ _ _ => Ok DynamicMetadata_format
  | FilterStateOperator _ _ => Ok FilterState_format
  | StartTimeOperator _ => StartTime_format (te_common entry)
  end.

(** ** format.go *)

Definition unspecifiedValue : string := "-".

(** The loop of both [Format] methods. *)
Definition format_values (format : AccessLogFragment → res string) (fragments : list AccessLogFragment)
  : res (list string) :=
  rmapM (λ fragment,
    let? value := format fragment in
    Ok (if String.eqb value "" then unspecifiedValue else value)) fragments.

Definition FormatHttpLogEntry (f : AccessLogFormat) (entry : HTTPAccessLogEntry) : res string :=
  let? values := format_values (λ fragment, Fragment_FormatHttpLogEntry fragment entry) f in
  Ok (join "" values).
Definition FormatTcpLogEntry (f : AccessLogFormat) (entry : TCPAccessLogEntry) : res string :=
  let? values := format_values (λ fragment, Fragment_FormatTcpLogEntry fragment entry) f in
  Ok (join "" values).

(** ** What Envoy reports *)

(** With a configuration, Envoy reports the request headers that have a field of
    their own and, of the others, those the configuration names. *)
Definition captured (names : list string) (headers : gmap string string) : gmap string string :=
  filter (λ header, header.1 ∈ names) headers.

Definition reported (config : HttpGrpcAccessLogConfig) (entry : HTTPAccessLogEntry) : HTTPAccessLogEntry :=
  let request (r : HTTPRequestProperties) :=
    mkRequestProperties (rq_RequestMethod r) (rq_Scheme r) (rq_Authority r) (rq_Path r) (rq_UserAgent r)
      (rq_Referer r) (rq_ForwardedFor r) (rq_RequestId r) (rq_OriginalPath r) (rq_RequestBodyBytes r)
      (captured (AdditionalRequestHeadersToLog config) (rq_RequestHeaders r)) in
  let response (r : HTTPResponseProperties) :=
    mkResponseProperties (rs_ResponseCode r) (rs_ResponseBodyBytes r)
      (captured (AdditionalResponseHeadersToLog config) (rs_ResponseHeaders r))
      (captured (AdditionalResponseTrailersToLog config) (rs_ResponseTrailers r)) (rs_ResponseCodeDetails r) in
  mkHTTPEntry (he_CommonProperties entry) (he_ProtocolVersion entry) (request <$> he_Request entry)
    (response <$> he_Response entry).

Lemma captured_Get names headers x : x ∈ names → HeaderMap_Get (captured names headers) x = HeaderMap_Get headers x.
Proof.
  intros Hx. unfold HeaderMap_Get, captured. rewrite map_lookup_filter.
  destruct (headers !! x); simpl; [|done]. by rewrite option_guard_True.
Qed.

Lemma operand_headers h x :
  x ∈ GetOperandHeaders h ↔ x ≠ "" ∧ (x = hf_Header h ∨ x = hf_AltHeader h).
Proof.
  unfold GetOperandHeaders. rewrite elem_of_app.
  destruct (String.eqb_spec (hf_Header h) ""), (String.eqb_spec (hf_AltHeader h) ""); simpl;
    rewrite ?list_elem_of_singleton, ?elem_of_nil; (split; [intros [?|?]|intros [? [?|?]]]); subst; try tauto;
    (split; [congruence|tauto]).
Qed.

Lemma Header_Format_ext h get get' :
  (∀ x, x ∈ GetOperandHeaders h → get x = get' x) → Header_Format h get = Header_Format h get'.
Proof.
  setoid_rewrite operand_headers. intros Hget. unfold Header_Format.
  assert ((if negb (String.eqb (hf_Header h) "") then get (hf_Header h) else ("", false))
    = (if negb (String.eqb (hf_Header h) "") then get' (hf_Header h) else ("", false))) as ->.
  { destruct (String.eqb_spec (hf_Header h) ""); simpl; [done|]. apply Hget. auto. }
  destruct (if negb _ then get' _ else _) as [value []]; [done|]. simpl.
  destruct (String.eqb_spec (hf_AltHeader h) ""); simpl; [done|]. by rewrite Hget by auto.
Qed.

Lemma RequestHeaders_Get_captured h names x :
  isAlwaysCapturedRequestHeader x = true ∨ x ∈ names →
  RequestHeaders_Get (mkRequestProperties (rq_RequestMethod h) (rq_Scheme h) (rq_Authority h) (rq_Path h)
    (rq_UserAgent h) (rq_Referer h) (rq_ForwardedFor h) (rq_RequestId h) (rq_OriginalPath h) (rq_RequestBodyBytes h)
    (captured names (rq_RequestHeaders h))) x = RequestHeaders_Get h x.
Proof.
  intros Hx. unfold RequestHeaders_Get, string_switch. cbn [find fst].
  destruct Hx as [Hx|Hx]; [|cbn [rq_RequestHeaders]; rewrite captured_Get by done; reflexivity].
  unfold isAlwaysCapturedRequestHeader, stringList_Contains in Hx. cbn [existsb] in Hx.
  repeat match goal with |- context [String.eqb ?k x] =>
    destruct (String.eqb k x); [reflexivity|cbn [orb] in Hx] end. discriminate Hx.
Qed.

Lemma Fragment_reported f config entry :
  (∀ h x, f = RequestHeaderOperator h → x ∈ GetOperandHeaders h →
     isAlwaysCapturedRequestHeader x = true ∨ x ∈ AdditionalRequestHeadersToLog config) →
  (∀ h x, f = ResponseHeaderOperator h → x ∈ GetOperandHeaders h → x ∈ AdditionalResponseHeadersToLog config) →
  (∀ h x, f = ResponseTrailerOperator h → x ∈ GetOperandHeaders h → x ∈ AdditionalResponseTrailersToLog config) →
  Fragment_FormatHttpLogEntry f (reported config entry) = Fragment_FormatHttpLogEntry f entry.
Proof.
  intros Hq Hs Ht. destruct entry as [common version [rq|] [rs|]], f as [| |field|h|h|h| | |]; simpl; try done;
    f_equal; apply Header_Format_ext; intros x Hx;
    first [by apply RequestHeaders_Get_captured, (Hq h)|by apply captured_Get, (Hs h)|by apply captured_Get, (Ht h)
          |done].
Qed.

(** C38: The configuration asks for all that the format needs.  A line that is
    formatted from what Envoy reports under the configuration derived from the
    format is the line that would be formatted from all headers and trailers of
    the request and the response, whatever else the configuration contains. *)
Theorem FormatHttpLogEntry_reported f config entry :
  FormatHttpLogEntry f (reported (Format_ConfigureHttpLog f config) entry) = FormatHttpLogEntry f entry.
Proof.
  destruct (ConfigureHttpLog_correct f config) as (Hq & Hs & Ht & _). simpl in Hq, Hs, Ht.
  unfold FormatHttpLogEntry, format_values. f_equal. apply rmapM_ext. intros g Hg. rewrite Fragment_reported; [done|..].
  - intros h x -> Hx. destruct (isAlwaysCapturedRequestHeader x) eqn:E; [by left|]. right. apply Hq. right. eauto.
  - intros h x -> Hx. apply Hs. right. eauto.
  - intros h x -> Hx. apply Ht. right. eauto.
Qed.

(** *** Every entry has a line *)

(** The durations and the start time are in range. *)
Definition times_ok (common : AccessLogCommon) : Prop :=
  (∀ ts, alc_StartTime common = Some ts → ∃ t, ptypes_Timestamp ts = inr t)
  ∧ ∀ d, Some d ∈ [alc_TimeToLastRxByte common; alc_TimeToFirstUpstreamRxByte common;
                   alc_TimeToLastDownstreamTxByte common] → ∃ z, ptypes_Duration d = inr z.

Lemma formatDuration_ok d : (∀ d', d = Some d' → ∃ z, ptypes_Duration d' = inr z) → ∃ s, formatDuration d = Ok s.
Proof. intros Hd. destruct d as [d|]; simpl; [|eauto]. destruct (Hd d eq_refl) as [z ->]. simpl. eauto. Qed.

Lemma formatDurationDelta_ok d d' :
  (∀ x, Some x ∈ [d; d'] → ∃ z, ptypes_Duration x = inr z) → ∃ s, formatDurationDelta d d' = Ok s.
Proof.
  intros Hd. destruct d as [d|], d' as [d'|]; simpl; eauto.
  destruct (Hd d) as [z ->]; [set_solver|]. destruct (Hd d') as [z' ->]; [set_solver|]. simpl. eauto.
Qed.

Lemma formatAccessLogCommon_ok f common : times_ok common → ∃ s, formatAccessLogCommon f common = Ok s.
Proof.
  intros [_ Hd]. unfold formatAccessLogCommon. apply string_switch_cases; [eauto|].
  repeat constructor; simpl; eauto. apply formatDuration_ok. intros d Hdd. apply Hd. rewrite Hdd. set_solver.
Qed.

Lemma Field_FormatHttpLogEntry_ok f entry : times_ok (he_common entry) → ∃ s, Field_FormatHttpLogEntry f entry = Ok s.
Proof.
  intros Hok. pose proof Hok as [_ Hd]. unfold Field_FormatHttpLogEntry.
  apply string_switch_cases; [by apply formatAccessLogCommon_ok|].
  repeat constructor; simpl; eauto.
  - apply formatDuration_ok. intros d Hdd. apply Hd. rewrite Hdd. set_solver.
  - apply formatDuration_ok. intros d Hdd. apply Hd. rewrite Hdd. set_solver.
  - apply formatDurationDelta_ok. intros d Hdd. apply Hd. set_solver.
Qed.

Lemma Field_FormatTcpLogEntry_ok f entry : times_ok (te_common entry) → ∃ s, Field_FormatTcpLogEntry f entry = Ok s.
Proof.
  intros Hok. unfold Field_FormatTcpLogEntry. apply string_switch_cases; [by apply formatAccessLogCommon_ok|].
  repeat constructor; simpl; eauto.
Qed.

Lemma StartTime_format_ok common : times_ok common → ∃ s, StartTime_format common = Ok s.
Proof.
  intros [Ht _]. unfold StartTime_format. destruct (alc_StartTime common) as [ts|]; [|eauto].
  destruct (Ht ts eq_refl) as [t ->]. simpl. eauto.
Qed.

Lemma Header_Format_limit h get : (0 < hf_MaxLength h) → Z.of_nat (String.length (Header_Format h get)) ≤ hf_MaxLength h.
Proof.
  intros Hm. unfold Header_Format. destruct (if negb _ then get _ else _) as [v b].
  match goal with |- context [if ?c then stake _ ?v else _] => destruct c eqn:E; set (value := v) in * end.
  - pose proof (stake_length (Z.to_nat (hf_MaxLength h)) value). lia.
  - lia.
Qed.

Lemma format_values_total format fs :
  (∀ g, g ∈ fs → ∃ text, format g = Ok text) →
  ∃ values, format_values format fs = Ok values
    ∧ Forall2 (λ g value, ∃ text, format g = Ok text ∧ value = (if String.eqb text "" then "-" else text)) fs values.
Proof.
  intros Hf. unfold format_values.
  destruct (rmapM_total (λ g, let? value := format g in
    Ok (if String.eqb value "" then unspecifiedValue else value)) fs) as [values Hv].
  { intros g Hg. destruct (Hf g Hg) as [text ->]. simpl. eauto. }
  exists values. split; [done|]. apply rmapM_Ok in Hv. eapply Forall2_impl; [exact Hv|]. intros g v Hg.
  simpl in Hg. destruct (format g) as [text|e|]; simpl in Hg; [|discriminate Hg..]. injection Hg as <-. eauto.
Qed.

Lemma Fragment_FormatHttpLogEntry_ok g entry :
  times_ok (he_common entry) → ∃ text, Fragment_FormatHttpLogEntry g entry = Ok text.
Proof.
  intros Hok. destruct g; simpl; eauto using Field_FormatHttpLogEntry_ok, StartTime_format_ok.
Qed.

Lemma Fragment_FormatTcpLogEntry_ok g entry :
  times_ok (te_common entry) → ∃ text, Fragment_FormatTcpLogEntry g entry = Ok text.
Proof.
  intros Hok. destruct g; simpl; eauto using Field_FormatTcpLogEntry_ok, StartTime_format_ok.
Qed.

(** Every entry whose times are in range gets a line, for every format and
    both protocols.  Each operator contributes a text of its own, a dash when it
    has nothing to say; headers are cut to the length the operator asks for. *)
Theorem FormatLogEntry_total f :
  (∀ entry, times_ok (he_common entry) → ∃ values, FormatHttpLogEntry f entry = Ok (join "" values)
     ∧ Forall2 (λ fragment value, ∃ text, Fragment_FormatHttpLogEntry fragment entry = Ok text
         ∧ value = (if String.eqb text "" then "-" else text)
         ∧ ∀ h, fragment = RequestHeaderOperator h ∨ fragment = ResponseHeaderOperator h
                ∨ fragment = ResponseTrailerOperator h →
             0 < hf_MaxLength h → Z.of_nat (String.length value) ≤ hf_MaxLength h) f values)
  ∧ ∀ entry, times_ok (te_common entry) → ∃ values, FormatTcpLogEntry f entry = Ok (join "" values)
     ∧ Forall2 (λ fragment value, ∃ text, Fragment_FormatTcpLogEntry fragment entry = Ok text
         ∧ value = (if String.eqb text "" then "-" else text)) f values.
Proof.
  split; intros entry Hok.
  - destruct (format_values_total (λ g, Fragment_FormatHttpLogEntry g entry) f) as (values & Hv & Hf).
    { intros g _. by apply Fragment_FormatHttpLogEntry_ok. }
    exists values. unfold FormatHttpLogEntry. rewrite Hv. split; [done|].
    eapply Forall2_impl; [exact Hf|]. simpl. intros g v (text & Ht & ->). exists text. split; [done|]. split; [done|].
    intros h Hh Hm. assert (Z.of_nat (String.length text) ≤ hf_MaxLength h).
    { destruct Hh as [-> |[-> | ->]]; simpl in Ht; injection Ht as <-; by apply Header_Format_limit. }
    destruct (String.eqb text ""); simpl; lia.
  - destruct (format_values_total (λ g, Fragment_FormatTcpLogEntry g entry) f) as (values & Hv & Hf).
    { intros g _. by apply Fragment_FormatTcpLogEntry_ok. }
    exists values. unfold FormatTcpLogEntry. by rewrite Hv.
Qed.
End Entries.

(** *** Names of cipher suites *)

Definition unhex (s : string) : option Z :=
  match s with
  | String "0" (String "x" s) =>
      match xtoi s with Some (n, _, "") => Some n | _ => None end
  | _ => None
  end.

Lemma hex_val_digit d : 0 ≤ d < 16 → hex_val (hex_digit (Z.to_N d)) = Some d.
Proof.
  intros Hd. assert (d ∈ Z.of_nat <$> seq 0 16) as H.
  { apply list_elem_of_fmap. exists (Z.to_nat d). split; [lia|]. apply elem_of_seq. lia. }
  simpl in H. rewrite !elem_of_cons, elem_of_nil in H. by repeat destruct H as [->|H].
Qed.

(** Reading on after a digit. *)
Lemma toi_go_digit n i d s :
  0 ≤ d < 16 → n * 16 + d < 16777215 →
  toi_go hex_val 16 n i (String (hex_digit (Z.to_N d)) s) = toi_go hex_val 16 (n * 16 + d) (S i) s.
Proof. intros Hd Hn. cbn [toi_go]. rewrite hex_val_digit by done. by rewrite (proj2 (Z.leb_gt _ _)). Qed.

Lemma unhex_hex n : 0 ≤ n < 2 ^ 16 → unhex (hex_of n) = Some n.
Proof.
  intros Hn. unfold hex_of, unhex, xtoi. cbn [String.append hex_go].
  pose proof (Z.div_mod n 16 ltac:(lia)). pose proof (Z.mod_pos_bound n 16 ltac:(lia)).
  set (a := n mod 16) in *. set (n1 := n / 16) in *.
  pose proof (Z.div_mod n1 16 ltac:(lia)). pose proof (Z.mod_pos_bound n1 16 ltac:(lia)).
  set (b := n1 mod 16) in *. set (n2 := n1 / 16) in *.
  pose proof (Z.div_mod n2 16 ltac:(lia)). pose proof (Z.mod_pos_bound n2 16 ltac:(lia)).
  set (c := n2 mod 16) in *. set (n3 := n2 / 16) in *.
  assert (n3 mod 16 = n3) as -> by (apply Z.mod_small; lia).
  destruct (Z.eqb_spec n1 0); [|destruct (Z.eqb_spec n2 0); [|destruct (Z.eqb_spec n3 0)]];
    cbn [String.append]; rewrite !toi_go_digit by lia; cbn [toi_go]; f_equal; lia.
Qed.

Lemma cipher_suites_names x y : x ∈ cipher_suites → y ∈ cipher_suites → x.2 = y.2 → x.1 = y.1.
Proof.
  assert (forallb (λ x, forallb (λ y, implb (String.eqb x.2 y.2) (x.1 =? y.1)) cipher_suites) cipher_suites = true) as H
    by (vm_compute; reflexivity).
  rewrite forallb_forall in H. intros Hx%list_elem_of_In Hy%list_elem_of_In He. specialize (H x Hx).
  rewrite forallb_forall in H. specialize (H y Hy). rewrite He, String.eqb_refl in H. by apply Z.eqb_eq.
Qed.

Lemma cipher_suites_plain a v : (a, hex_of v) ∉ cipher_suites.
Proof.
  assert (forallb (λ x, negb (has_prefix "0x" x.2)) cipher_suites = true) as H by (vm_compute; reflexivity).
  rewrite forallb_forall in H. intros Hin%list_elem_of_In. specialize (H _ Hin). unfold hex_of in H.
  cbn [snd] in H. destruct (hex_go 3 v "") as [|c s]; discriminate H.
Qed.

(** The name of a cipher suite identifies it among the numbers of 16 bits. *)
Theorem TlsCipherSuite_String_inj u v :
  0 ≤ u < 2 ^ 16 → 0 ≤ v < 2 ^ 16 → TlsCipherSuite_String u = TlsCipherSuite_String v → u = v.
Proof.
  unfold TlsCipherSuite_String. intros Hu Hv.
  destruct (find (λ c, c.1 =? u) cipher_suites) as [[a n]|] eqn:Ea; 
    destruct (find (λ c, c.1 =? v) cipher_suites) as [[b m]|] eqn:Eb.
  - apply find_some in Ea as [Ha Ea%Z.eqb_eq], Eb as [Hb Eb%Z.eqb_eq]. simpl in Ea, Eb. subst a b. intros ->.
    apply list_elem_of_In in Ha, Hb. by apply (cipher_suites_names (u, m) (v, m)) in Ha.
  - apply find_some in Ea as [Ha _]. intros ->. apply list_elem_of_In in Ha. by apply cipher_suites_plain in Ha.
  - apply find_some in Eb as [Hb _]. intros Hn. apply list_elem_of_In in Hb. rewrite <- Hn in Hb.
    by apply cipher_suites_plain in Hb.
  - intros Hn. apply (f_equal unhex) in Hn. rewrite !unhex_hex in Hn by done. congruence.
Qed.

Lemma TlsCipherSuite_String_inj_witness :
  TlsCipherSuite_String 0x1301 = "AES-128-GCM-SHA256" ∧ TlsCipherSuite_String 0x1301 ≠ TlsCipherSuite_String 0x1304.
Proof.
  split; [reflexivity|]. intros H. apply (TlsCipherSuite_String_inj 0x1301 0x1304) in H; [discriminate H|lia|lia].
Defined.

(** ** A concrete entry *)

(** Durations of up to a second and times of the year 2020. *)
Definition sample_ptypes_Duration (d : Duration) : goerror + Z := inr (seconds d * 1000000000 + nanos d).
Definition sample_ptypes_Timestamp (t : Timestamp) : goerror + Time := inr (mkTime (ts_Seconds t) (ts_Nanos t)).
Definition sample_http_entry : HTTPAccessLogEntry :=
  mkHTTPEntry (Some (mkCommon (Some (SocketAddress "10.0.0.1" 4000)) None None None None "web" None
      (Some (mkTimestamp 1582062737 987654321)) None None (Some (mkDuration 1 234567890)) None "" ""))
    2 (Some (mkRequestProperties 1 "http" "web.mesh" "/" "curl" "" "" "" "" 12 {["x-version" := "v1-canary"]}))
    (Some (mkResponseProperties (Some 200) 345 ∅ ∅ "")).
Definition sample_http_format : AccessLogFormat :=
  [TextSpan "["; StartTimeOperator ""; TextSpan "] "; FieldOperator "PROTOCOL"; TextSpan " ";
   RequestHeaderOperator (mkHeaderFormatter ":authority" "" 0); TextSpan " ";
   RequestHeaderOperator (mkHeaderFormatter "x-version" "" 2); TextSpan " ";
   FieldOperator "RESPONSE_CODE"; TextSpan " "; FieldOperator "DURATION"; TextSpan " ";
   FieldOperator "DOWNSTREAM_REMOTE_ADDRESS"; TextSpan " "; FieldOperator "ROUTE_NAME"].

Lemma FormatLogEntry_total_witness :
  FormatHttpLogEntry sample_ptypes_Duration sample_ptypes_Timestamp (λ _, "") (λ _, "") (λ _, "GET") sample_http_format
    sample_http_entry
  = Ok "[2020-02-18T21:52:17.987Z] HTTP/1.1 web.mesh v1 200 1234 10.0.0.1:4000 -".
Proof.
  destruct (proj1 (FormatLogEntry_total sample_ptypes_Duration sample_ptypes_Timestamp (λ _, "") (λ _, "") (λ _, "GET")
    sample_http_format) sample_http_entry) as (vs & Hv & _).
  - split; [intros ts _; eexists; reflexivity|intros d _; eexists; reflexivity].
  - rewrite Hv. rewrite <- Hv. vm_compute. reflexivity.
Defined.
