(* ===== verification/AccessLogs.v ===== *)
(** * Access logs from the mesh to the logging backend

    Models how a logging backend of a mesh becomes an access log of Envoy
    ([convertLoggingBackend] in [pkg/xds/envoy/listeners/access_log_configurer.go])
    and the server next to Envoy that receives the entries, formats them and sends
    the lines to the backend ([app/kuma-dp/pkg/dataplane/accesslogs]).  The two
    ends agree on the name of the log: the address of the backend, a semicolon and
    the text of the format. *)

From S2P Require Import Prelude Effects GoStd Tags Dataplane MeshResources Insights AccessLog AccessLogEntry CoreXds.
Local Open Scope Z_scope.

(** ** access_log_configurer.go *)

(** [HttpGrpcAccessLogConfig] and [FileAccessLog], with the fields the code sets. *)
Inductive TypedAccessLog : Type :=
| HttpGrpcAccessLog (LogName ClusterName : string) (config : HttpGrpcAccessLogConfig)
| FileAccessLog (Format Path : string).

(** [AccessLog] with its typed configuration. *)
Record EnvoyAccessLog : Type := mkEnvoyAccessLog { eal_Name : string; eal_TypedConfig : string }.

Definition HTTPGRPCAccessLog : string := "envoy.http_grpc_access_log".
Definition FileAccessLogName : string := "envoy.file_access_log".
Definition accessLogSink : string := "access_log_sink".

Section Configurer.
(** [ptypes.MarshalAny]. *)
Context (MarshalAny : TypedAccessLog → goerror + string).

Definition tcp_config (format : AccessLogFormat) (address : string) : TypedAccessLog :=
  HttpGrpcAccessLog (address +:+ ";" +:+ Format_String format) accessLogSink
    (Format_ConfigureHttpLog format (mkHttpConfig (Some []) [] [] [])).

Definition tcpAccessLog (format : AccessLogFormat) (address : string) : res EnvoyAccessLog :=
  match MarshalAny (tcp_config format address) with
  | inl e => Err (Wrapf e "could not marshall %T" [AStr "*v2.HttpGrpcAccessLogConfig"])
  | inr marshalled => Ok (mkEnvoyAccessLog HTTPGRPCAccessLog marshalled)
  end.

Definition fileAccessLog (format : AccessLogFormat) (path : string) : res EnvoyAccessLog :=
  match MarshalAny (FileAccessLog (Format_String format) path) with
  | inl e => Err (Wrapf e "could not marshall %T" [AStr "*v2.FileAccessLog"])
  | inr marshalled => Ok (mkEnvoyAccessLog FileAccessLogName marshalled)
  end.

(** The variables of [convertLoggingBackend]. *)
Definition log_variables (mesh sourceService destinationService ip : string) : gmap string string :=
  <["KUMA_SOURCE_ADDRESS" := JoinHostPort ip "0"]>
  (<["KUMA_SOURCE_ADDRESS_WITHOUT_PORT" := ip]>
  (<["KUMA_SOURCE_SERVICE" := sourceService]>
  (<["KUMA_DESTINATION_SERVICE" := destinationService]>
  {["KUMA_MESH" := mesh]}))).

Definition convertLoggingBackend (mesh sourceService destinationService : string) (backend : option LoggingBackend)
    (proxy : Proxy) (defaultFormat : string) : res (option EnvoyAccessLog) :=
  match backend with
  | None => Ok None
  | Some backend =>
      let formatString := if negb (String.eqb (lb_Format backend) "") then lb_Format backend else defaultFormat in
      match ParseFormat formatString with
      | Panic => Panic
      | Err e => Err (Wrapf e "invalid access log format string: %s" [AStr formatString])
      | Ok format =>
          let? ip := GetIP (Some (px_Dataplane proxy)) in
          let format := Interpolate (log_variables mesh sourceService destinationService ip) format in
          match lb_Type backend with
          | Some (LogFile path) => rmap Some (fileAccessLog format path)
          | Some (LogTcp address) => rmap Some (tcpAccessLog format address)
          | None => Err (Errorf "could not convert LoggingBackend of type %T to AccessLog" [AStr "<nil>"])
          end
      end
  end.
End Configurer.

(** ** The server of the data plane *)

(** What the server does on the network. *)
Inductive log_action : Type :=
| LogDial (address : string)
| LogWrite (record : string)
| LogClose.
#[global] Instance log_action_eq_dec : EqDecision log_action.
Proof. solve_decision. Defined.

Inductive LogEntries : Type :=
| HttpLogs (entries : list HTTPAccessLogEntry)
| TcpLogs (entries : list TCPAccessLogEntry).

(** [StreamAccessLogsMessage]. *)
Record LogMessage : Type := mkLogMessage { msg_LogName : string; msg_LogEntries : option LogEntries }.

Section LogServer.
Context (ptypes_Duration : Duration → goerror + Z) (ptypes_Timestamp : Timestamp → goerror + Time).
Context (HTTPVersion_String TLSVersion_String RequestMethod_String : Z → string).
(** How the network answers an action after others, and how messages print. *)
Context (network : list log_action → log_action → option goerror).
Context (fmt_http : HTTPAccessLogEntry → string) (fmt_tcp : TCPAccessLogEntry → string).

Abbreviation http_line := (FormatHttpLogEntry ptypes_Duration ptypes_Timestamp HTTPVersion_String TLSVersion_String
  RequestMethod_String).
Abbreviation tcp_line := (FormatTcpLogEntry ptypes_Duration ptypes_Timestamp TLSVersion_String).

Definition perform (a : log_action) : ST (list log_action) unit := λ h,
  (match network h a with None => Ok () | Some e => Err e end, h ++ [a]).

(** *** sender.go *)

Definition LF : string := String (ascii_of_N 10) "".

(** [errors.Wrapf] of the error of a call. *)
Definition wrap_call {A} (msg : string) (args : list goarg) (m : ST (list log_action) A) : ST (list log_action) A :=
  λ h, match m h with (Err e, h') => (Err (Wrapf e msg args), h') | r => r end.

Definition sender_Connect (address : string) : ST (list log_action) unit :=
  wrap_call "failed to connect to a TCP logging backend: %s" [AStr address] (perform (LogDial address)).
Definition sender_Send (address record : string) : ST (list log_action) unit :=
  wrap_call "failed to send a log entry to a TCP logging backend: %s" [AStr address] (perform (LogWrite (record +:+ LF))).

(** *** handler.go and factories.go *)

Record log_handler : Type := mkLogHandler { lh_format : AccessLogFormat; lh_address : string }.

Definition handle_entry {E} (line : E → res string) (wrap : E → goerror → goerror) (address : string) (entry : E)
  : ST (list log_action) unit :=
  match line entry with
  | Ok record => sender_Send address record
  | Err e => fail (wrap entry e)
  | Panic => st_lift Panic
  end.

Definition handler_Handle (h : log_handler) (msg : LogMessage) : ST (list log_action) unit :=
  let format := Format_String (lh_format h) in
  match msg_LogEntries msg with
  | Some (HttpLogs entries) =>
      st_iter (handle_entry (http_line (lh_format h))
        (λ entry e, Wrapf e "failed to format an HTTP log entry %v as %q" [AStr (fmt_http entry); AStr format])
        (lh_address h)) entries
  | Some (TcpLogs entries) =>
      st_iter (handle_entry (tcp_line (lh_format h))
        (λ entry e, Wrapf e "failed to format a TCP log entry %v as %q" [AStr (fmt_tcp entry); AStr format])
        (lh_address h)) entries
  | None => fail (Errorf "unknown type of log entries: %T" [AStr "<nil>"])
  end.

Definition defaultHandler (msg : LogMessage) : ST (list log_action) log_handler :=
  match split2 ";" (msg_LogName msg) with
  | [address; formatString] =>
      format ← st_lift (ParseFormat formatString);
      _ ← sender_Connect address;
      mret (mkLogHandler format address)
  | parts =>
      fail (Errorf "log name %q has invalid format: expected %d components separated by ';', got %d"
              [AStr (msg_LogName msg); AInt 2; AInt (Z.of_nat (length parts))])
  end.

(** *** server.go *)

(** [StreamAccessLogs] on a stream that delivers these messages and then ends or
    fails; the deferred [Close] runs when it returns, and its error is dropped. *)
Fixpoint stream_loop (handler : log_handler) (msgs : list LogMessage) (recv : option goerror)
  : ST (list log_action) unit :=
  match msgs with
  | [] => match recv with None => mret () | Some e => fail e end
  | msg :: msgs => _ ← handler_Handle handler msg; stream_loop handler msgs recv
  end.

Definition StreamAccessLogs (msgs : list LogMessage) (recv : option goerror) : ST (list log_action) unit :=
  match msgs with
  | [] => match recv with None => mret () | Some e => fail e end
  | msg :: _ =>
      handler ← wrap_call "failed to initialize Access Logs stream" [] (defaultHandler msg);
      r ← try (stream_loop handler msgs recv);
      _ ← try (perform LogClose);
      match r with inl e => fail e | inr _ => mret () end
  end.

(** *** What is sent *)

(** The lines of a message. *)
Definition message_lines (format : AccessLogFormat) (msg : LogMessage) : list (res string) :=
  match msg_LogEntries msg with
  | Some (HttpLogs entries) => http_line format <$> entries
  | Some (TcpLogs entries) => tcp_line format <$> entries
  | None => [Err (Errorf "unknown type of log entries: %T" [AStr "<nil>"])]
  end.

Definition writes (records : list string) : list log_action := (λ record, LogWrite (record +:+ LF)) <$> records.

(** The network refused the last action. *)
Definition refused (h : list log_action) : Prop := ∃ h0 a e, h = h0 ++ [a] ∧ network h0 a = Some e.

(** A part of the stream sends lines in order until the first that cannot be
    formatted or sent. *)
Definition sends (lines : list (res string)) (h : list log_action) (r : res unit) (h' : list log_action) : Prop :=
  ∃ records rest, lines = (Ok <$> records) ++ rest ∧ h' = h ++ writes records ∧
    match r with
    | Ok _ => rest = []
    | Err _ => (∃ e rest', rest = Err e :: rest') ∨ refused h'
    | Panic => False
    end.

Lemma or_error_no_panic {A B} (x : goerror + A) (f : A → res B) : (∀ a, f a ≠ Panic) → or_error x f ≠ Panic.
Proof. intros Hf. destruct x; simpl; [discriminate|apply Hf]. Qed.

Lemma formatDuration_no_panic d : formatDuration ptypes_Duration d ≠ Panic.
Proof. destruct d; simpl; [|done]. by apply or_error_no_panic. Qed.

Lemma formatDurationDelta_no_panic d d' : formatDurationDelta ptypes_Duration d d' ≠ Panic.
Proof. destruct d, d'; simpl; try done. apply or_error_no_panic. intros a. by apply or_error_no_panic. Qed.

Lemma formatAccessLogCommon_no_panic f common : formatAccessLogCommon ptypes_Duration TLSVersion_String f common ≠ Panic.
Proof.
  unfold formatAccessLogCommon. apply string_switch_cases; [done|].
  repeat constructor; simpl; try done. apply formatDuration_no_panic.
Qed.

Lemma StartTime_no_panic common : StartTime_format ptypes_Timestamp common ≠ Panic.
Proof. unfold StartTime_format. destruct (alc_StartTime common); [|done]. by apply or_error_no_panic. Qed.

Lemma http_fragment_no_panic f entry :
  Fragment_FormatHttpLogEntry ptypes_Duration ptypes_Timestamp HTTPVersion_String TLSVersion_String
    RequestMethod_String f entry ≠ Panic.
Proof.
  destruct f; simpl; try done; [|apply StartTime_no_panic]. unfold Field_FormatHttpLogEntry.
  apply string_switch_cases; [apply formatAccessLogCommon_no_panic|].
  repeat constructor; simpl; try done; try apply formatDuration_no_panic. apply formatDurationDelta_no_panic.
Qed.

Lemma tcp_fragment_no_panic f entry :
  Fragment_FormatTcpLogEntry ptypes_Duration ptypes_Timestamp TLSVersion_String f entry ≠ Panic.
Proof.
  destruct f; simpl; try done; [|apply StartTime_no_panic]. unfold Field_FormatTcpLogEntry.
  apply string_switch_cases; [apply formatAccessLogCommon_no_panic|]. by repeat constructor.
Qed.

Lemma format_values_no_panic format fs : (∀ g, format g ≠ Panic) → format_values format fs ≠ Panic.
Proof.
  intros Hf. unfold format_values. induction fs as [|g fs IH]; simpl; [done|]. specialize (Hf g).
  destruct (format g); simpl; [|done..]. destruct (rmapM _ fs); simpl; [done..|]. done.
Qed.

Lemma http_line_no_panic f entry : http_line f entry ≠ Panic.
Proof.
  unfold FormatHttpLogEntry. pose proof (format_values_no_panic _ f (λ g, http_fragment_no_panic g entry)).
  by destruct (format_values _ _).
Qed.
Lemma tcp_line_no_panic f entry : tcp_line f entry ≠ Panic.
Proof.
  unfold FormatTcpLogEntry. pose proof (format_values_no_panic _ f (λ g, tcp_fragment_no_panic g entry)).
  by destruct (format_values _ _).
Qed.

Lemma sends_nil h : sends [] h (Ok ()) h.
Proof. exists [], []. split; [done|]. split; [by rewrite app_nil_r|done]. Qed.

(** Sending goes on after lines that were all sent. *)
Lemma sends_app lines lines' h h1 r h' :
  sends lines h (Ok ()) h1 → sends lines' h1 r h' → sends (lines ++ lines') h r h'.
Proof.
  intros (rs & ? & -> & -> & ->) (rs' & rest & -> & -> & Hr). exists (rs ++ rs'), rest.
  rewrite <- (app_assoc h) in *. unfold writes in *.
  rewrite !fmap_app, app_nil_r, <- app_assoc. split; [reflexivity|]. split; [reflexivity|exact Hr].
Qed.

Lemma sends_stop lines lines' h e h' : sends lines h (Err e) h' → sends (lines ++ lines') h (Err e) h'.
Proof.
  intros (rs & rest & -> & -> & Hr). exists rs, (rest ++ lines'). rewrite app_assoc. split; [done|]. split; [done|].
  destruct Hr as [(e' & rest' & ->)|Hr]; [|by right]. left. simpl. eauto.
Qed.

Lemma sender_Send_sends address record h :
  outcome (sender_Send address record) h (sends [Ok record] h).
Proof.
  unfold outcome, sender_Send, wrap_call, perform. simpl.
  destruct (network h (LogWrite (record +:+ LF))) as [e|] eqn:E; simpl; exists [record], []; (split; [done|]);
    (split; [done|]); [|done]. right. by exists h, (LogWrite (record +:+ LF)), e.
Qed.

Lemma entries_sends {E} (line : E → res string) wrap address entries h :
  (∀ entry, line entry ≠ Panic) →
  outcome (st_iter (handle_entry line wrap address) entries) h (sends (line <$> entries) h).
Proof.
  intros Hp. revert h; induction entries as [|entry entries IH]; intros h; simpl; [apply outcome_ret, sends_nil|].
  apply outcome_bind. unfold handle_entry at 1. specialize (Hp entry).
  destruct (line entry) as [record|e|] eqn:El; [| |done].
  - eapply outcome_mono; [apply sender_Send_sends|]. intros r h1 H1. destruct r as [[]|e|].
    + eapply outcome_mono; [apply IH|]. intros r h2 H2. by apply (sends_app [_] _ _ h1).
    + by apply (sends_stop [_]).
    + destruct H1 as (? & ? & ? & ? & []).
  - apply outcome_fail. exists [], (Err e :: (line <$> entries)). split; [done|]. split; [by rewrite app_nil_r|].
    left. eauto.
Qed.

Lemma handler_sends handler msg h :
  outcome (handler_Handle handler msg) h (sends (message_lines (lh_format handler) msg) h).
Proof.
  unfold handler_Handle, message_lines. destruct (msg_LogEntries msg) as [[entries|entries]|].
  - apply entries_sends, http_line_no_panic.
  - apply entries_sends, tcp_line_no_panic.
  - apply outcome_fail. exists [], [Err (Errorf "unknown type of log entries: %T" [AStr "<nil>"])].
    split; [done|]. split; [by rewrite app_nil_r|]. left. eauto.
Qed.

Lemma loop_sends handler msgs recv h :
  outcome (stream_loop handler msgs recv) h (λ r h',
    ∃ r', sends (msgs ≫= message_lines (lh_format handler)) h r' h'
      ∧ match r' with Ok _ => r = match recv with None => Ok () | Some e => Err e end | _ => r = r' end).
Proof.
  revert h; induction msgs as [|msg msgs IH]; intros h.
  - cbn [stream_loop mbind list_bind]. destruct recv as [e|]; [apply outcome_fail|apply outcome_ret];
      (exists (Ok ()); split; [apply sends_nil|reflexivity]).
  - cbn [stream_loop]. apply outcome_bind. eapply outcome_mono; [apply handler_sends|]. intros r h1 H1.
    change ((msg :: msgs) ≫= message_lines (lh_format handler))
      with (message_lines (lh_format handler) msg ++ (msgs ≫= message_lines (lh_format handler))).
    destruct r as [[]|e|].
    + eapply outcome_mono; [apply IH|]. intros r h2 (r' & H2 & Hr). exists r'. split; [by eapply sends_app|done].
    + exists (Err e). split; [by apply sends_stop|]. auto.
    + destruct H1 as (? & ? & ? & ? & []).
Qed.

(** The stream once it is initialized. *)
Lemma StreamAccessLogs_run msg msgs recv address text format :
  split2 ";" (msg_LogName msg) = [address; text] → ParseFormat text = Ok format →
  StreamAccessLogs (msg :: msgs) recv [] =
    match network [] (LogDial address) with
    | Some e =>
        (Err (Wrapf (Wrapf e "failed to connect to a TCP logging backend: %s" [AStr address])
                "failed to initialize Access Logs stream" []), [LogDial address])
    | None =>
        let (r, h) := stream_loop (mkLogHandler format address) (msg :: msgs) recv [LogDial address] in
        (r, h ++ match r with Panic => [] | _ => [LogClose] end)
    end.
Proof.
  intros Hs Hf. unfold StreamAccessLogs, mbind at 1, ST_bind at 1, wrap_call at 1, defaultHandler. rewrite Hs, Hf.
  unfold st_lift, mbind at 1 2, ST_bind at 1 2, sender_Connect, wrap_call, perform at 1. cbn [app].
  destruct (network [] (LogDial address)) as [e|]; [reflexivity|]. unfold mret, ST_ret. cbn beta iota.
  unfold mbind at 1, ST_bind at 1, try at 1.
  destruct (stream_loop (mkLogHandler format address) (msg :: msgs) recv [LogDial address]) as [[[]|e|] h];
    unfold mbind, ST_bind, try, perform; [| |by rewrite app_nil_r]; destruct (network h LogClose); reflexivity.
Qed.

(** The server of the data plane sends what it was told to.  When the name of
    the log of the first message holds an address and a format, the server
    connects there and sends the formatted entries of all messages, one line
    each, in order, and closes the connection at the end.  It stops early only
    at an entry that cannot be formatted, when the network refuses, or when the
    stream breaks, and then the lines sent are those of a prefix. *)
Theorem StreamAccessLogs_lines msg msgs recv address text format :
  split2 ";" (msg_LogName msg) = [address; text] → ParseFormat text = Ok format →
  let lines := (msg :: msgs) ≫= message_lines format in
  let (r, h) := StreamAccessLogs (msg :: msgs) recv [] in
  match network [] (LogDial address) with
  | Some _ => h = [LogDial address] ∧ ∃ e, r = Err e
  | None => ∃ records rest, lines = (Ok <$> records) ++ rest ∧ h = LogDial address :: writes records ++ [LogClose]
      ∧ match r with
        | Ok _ => rest = [] ∧ recv = None
        | Err _ => (∃ e rest', rest = Err e :: rest') ∨ refused (LogDial address :: writes records)
                   ∨ rest = [] ∧ is_Some recv
        | Panic => False
        end
  end.
Proof.
  intros Hs Hf lines. rewrite (StreamAccessLogs_run _ _ _ _ _ _ Hs Hf).
  destruct (network [] (LogDial address)) as [e|] eqn:Ed; [split; [done|]; eauto|].
  pose proof (loop_sends (mkLogHandler format address) (msg :: msgs) recv [LogDial address]) as Hl.
  unfold outcome in Hl. cbn [lh_format] in Hl. fold lines in Hl.
  destruct (stream_loop _ _ _ _) as [r h]. cbn [fst snd] in Hl.
  destruct Hl as (r' & (records & rest & Hlines & -> & Hr) & Hrr). exists records, rest.
  split; [exact Hlines|]. destruct r' as [[]|e|]; [| |done].
  - subst rest. destruct recv as [e|]; subst r; (split; [reflexivity|]); [|done]. right; right. eauto.
  - subst r. split; [reflexivity|]. destruct Hr as [Hr|Hr]; [by left|right; by left].
Qed.
End LogServer.

(** ** From the mesh to the backend *)

(** Text does not change what is asked of Envoy. *)
Lemma Configure_merge_text pend fs config :
  Format_ConfigureHttpLog (merge_text pend fs) config = Format_ConfigureHttpLog fs config.
Proof.
  revert pend config; induction fs as [|f fs IH]; intros pend config; simpl.
  - unfold AccessLog.flush. by destruct (String.eqb pend "").
  - assert (∀ g : AccessLogFragment, Format_ConfigureHttpLog (AccessLog.flush pend ++ g :: merge_text "" fs) config
      = Format_ConfigureHttpLog (merge_text "" fs) (Fragment_ConfigureHttpLog config g)) as Hf.
    { intros g. unfold AccessLog.flush. by destruct (String.eqb pend ""). }
    unfold Format_ConfigureHttpLog in *. destruct f; rewrite ?Hf; apply IH.
Qed.

Lemma split2_app c (a b : string) : has_byte c a = false → split2 c (a +:+ String c b) = [a; b].
Proof. intros Ha. unfold split2. by rewrite byte_index_app, stake_app, sdrop_app_S. Qed.

(** The format that arrives at the server of the data plane. *)
Lemma interpolated_arrives variables s f :
  ParseFormat s = Ok f → (∀ k v, variables !! k = Some v → has_byte "%" v = false) →
  ParseFormat (Format_String (Interpolate variables f)) = Ok (merge_text "" (Interpolate variables f)).
Proof.
  intros Hs Hv. rewrite Interpolate_map. apply ParseFormat_print. apply Forall_fmap.
  apply ParseFormat_wf, wf_format_printable in Hs. eapply Forall_impl; [exact Hs|].
  intros g Hg. destruct g as [|name| | | | | | |]; try exact Hg.
  simpl. destruct (variables !! name) eqn:E; [by eapply Hv|done].
Qed.

Lemma log_variables_plain mesh src dst ip k v :
  has_byte "%" mesh = false → has_byte "%" src = false → has_byte "%" dst = false → has_byte "%" ip = false →
  log_variables mesh src dst ip !! k = Some v → has_byte "%" v = false.
Proof.
  intros Hm Hs Hd Hi. unfold log_variables. rewrite !lookup_insert_Some, lookup_singleton_Some.
  intros [[_ <-]|[_ [[_ <-]|[_ [[_ <-]|[_ [[_ <-]|[_ [_ <-]]]]]]]]]; try assumption.
  unfold JoinHostPort. destruct (has_byte ":" ip); rewrite !has_byte_app, Hi; reflexivity.
Qed.

#[local] Instance Ok_inj {A} : Inj (=) (=) (@Ok A).
Proof. by intros x y [= ->]. Qed.

Section EndToEnd.
Context (MarshalAny : TypedAccessLog → goerror + string).
Context (ptypes_Duration : Duration → goerror + Z) (ptypes_Timestamp : Timestamp → goerror + Time).
Context (HTTPVersion_String TLSVersion_String RequestMethod_String : Z → string).
Context (network : list log_action → log_action → option goerror).
Context (fmt_http : HTTPAccessLogEntry → string) (fmt_tcp : TCPAccessLogEntry → string).

Abbreviation http_line := (FormatHttpLogEntry ptypes_Duration ptypes_Timestamp HTTPVersion_String TLSVersion_String
  RequestMethod_String).
Abbreviation stream := (StreamAccessLogs ptypes_Duration ptypes_Timestamp HTTPVersion_String TLSVersion_String
  RequestMethod_String network fmt_http fmt_tcp).

(** The messages of an Envoy that has these batches of entries. *)
Definition envoy_messages (name : string) (config : HttpGrpcAccessLogConfig) (batches : list (list HTTPAccessLogEntry))
  : list LogMessage :=
  (λ entries, mkLogMessage name (Some (HttpLogs (reported config <$> entries)))) <$> batches.

Lemma message_lines_reported name format fs config0 batches :
  format = merge_text "" fs →
  (envoy_messages name (Format_ConfigureHttpLog fs config0) batches
     ≫= message_lines ptypes_Duration ptypes_Timestamp HTTPVersion_String TLSVersion_String RequestMethod_String format)
  = http_line format <$> concat batches.
Proof.
  intros ->. induction batches as [|es batches IH]; [done|]. cbn [envoy_messages fmap list_fmap concat mbind list_bind].
  unfold envoy_messages in IH. rewrite fmap_app, <- IH. f_equal. unfold message_lines. cbn [msg_LogEntries].
  rewrite <- list_fmap_compose. apply list_fmap_ext. intros i e _. unfold compose.
  rewrite <- (Configure_merge_text "" fs config0). apply FormatHttpLogEntry_reported.
Qed.

(** When every entry has a line and the network does not fail, all lines are
    sent. *)
Lemma stream_all name address text format fs config0 batches :
  split2 ";" name = [address; text] → ParseFormat text = Ok format → format = merge_text "" fs →
  batches ≠ [] → (∀ e, e ∈ concat batches → times_ok ptypes_Duration ptypes_Timestamp (he_common e)) →
  (∀ h a, network h a = None) →
  ∃ lines, Forall2 (λ e line, http_line format e = Ok line) (concat batches) lines
    ∧ stream (envoy_messages name (Format_ConfigureHttpLog fs config0) batches) None []
      = (Ok (), LogDial address :: writes lines ++ [LogClose]).
Proof.
  intros Hs Hf Hm Hne Htimes Hnet.
  assert (∃ lines, Forall2 (λ e line, http_line format e = Ok line) (concat batches) lines) as [lines Hlines].
  { clear Hne. induction (concat batches) as [|e es IH]; [by exists []|].
    destruct IH as [lines Hl]; [intros e' He'; apply Htimes; by constructor|].
    destruct (proj1 (FormatLogEntry_total ptypes_Duration ptypes_Timestamp HTTPVersion_String TLSVersion_String
      RequestMethod_String format) e) as (vs & Hv & _); [apply Htimes; constructor|].
    exists (join "" vs :: lines). by constructor. }
  exists lines. split; [done|]. destruct batches as [|es batches]; [done|].
  set (config := Format_ConfigureHttpLog fs config0).
  set (m := mkLogMessage name (Some (HttpLogs (reported config <$> es)))).
  assert (envoy_messages name config (es :: batches) = m :: envoy_messages name config batches) as Em by reflexivity.
  pose proof (StreamAccessLogs_lines ptypes_Duration ptypes_Timestamp HTTPVersion_String TLSVersion_String
    RequestMethod_String network fmt_http fmt_tcp m (envoy_messages name config batches) None address text format Hs Hf)
    as Hst.
  pose proof (message_lines_reported name format fs config0 (es :: batches) Hm) as El. fold config in El.
  cbv zeta in Hst. rewrite <- Em, Hnet, El in Hst. rewrite Em. rewrite Em in Hst.
  assert (http_line format <$> concat (es :: batches) = Ok <$> lines) as Eok.
  { clear -Hlines. induction Hlines as [|e l es' ls He _ IH]; [done|]. cbn [fmap list_fmap]. by rewrite He, <- IH. }
  rewrite Eok in Hst. destruct (StreamAccessLogs _ _ _ _ _ _ _ _ _ _ _) as [r h].
  destruct Hst as (records & rest & Hr & -> & Ho).
  assert (∀ e rest', rest ≠ Err e :: rest') as Hno.
  { intros e rest' ->. assert (Err e ∈ (Ok <$> lines : list (res string))) as Hin by (rewrite Hr; set_solver).
    by apply list_elem_of_fmap in Hin as (? & ? & _). }
  destruct r as [[]|e|]; [| |done].
  - destruct Ho as [-> _]. rewrite app_nil_r in Hr. apply (inj (fmap Ok)) in Hr as ->. done.
  - destruct Ho as [(e' & rest' & ?)|[(h0 & a & e' & _ & ?)|[_ [? ?]]]]; [by edestruct Hno|congruence|done].
Qed.
(** C37: Access logs reach the logging backend.  When a mesh sends access logs to
    a TCP backend, the server next to Envoy, which knows only the name of the log,
    connects to that backend and sends one line for every request, in order: the
    line that the format of the mesh, with the placeholders bound, makes of the
    request with all its headers.  The address must not contain a semicolon, and
    the bound values no percent sign. *)
Theorem access_log_end_to_end mesh src dst backend address ip proxy defaultFormat log batches :
  convertLoggingBackend MarshalAny mesh src dst (Some backend) proxy defaultFormat = Ok (Some log) →
  lb_Type backend = Some (LogTcp address) → has_byte ";" address = false →
  GetIP (Some (px_Dataplane proxy)) = Ok ip →
  has_byte "%" mesh = false → has_byte "%" src = false → has_byte "%" dst = false → has_byte "%" ip = false →
  batches ≠ [] → (∀ e, e ∈ concat batches → times_ok ptypes_Duration ptypes_Timestamp (he_common e)) →
  (∀ h a, network h a = None) →
  ∃ original name config lines,
    ParseFormat (if String.eqb (lb_Format backend) "" then defaultFormat else lb_Format backend) = Ok original
    ∧ MarshalAny (HttpGrpcAccessLog name accessLogSink config) = inr (eal_TypedConfig log)
    ∧ Forall2 (λ e line, http_line (merge_text "" (Interpolate (log_variables mesh src dst ip) original)) e = Ok line)
        (concat batches) lines
    ∧ stream (envoy_messages name config batches) None [] = (Ok (), LogDial address :: writes lines ++ [LogClose]).
Proof.
  intros Hc Ht Ha Hip Hm Hsrc Hdst Hpi Hne Htimes Hnet. unfold convertLoggingBackend in Hc. rewrite Ht, Hip in Hc.
  assert ((if negb (String.eqb (lb_Format backend) "") then lb_Format backend else defaultFormat)
    = (if String.eqb (lb_Format backend) "" then defaultFormat else lb_Format backend)) as E by (by destruct (String.eqb _ _)).
  rewrite E in Hc. destruct (ParseFormat _) as [original|e|] eqn:Hp; [|done..]. cbn [rbind] in Hc.
  set (vars := log_variables mesh src dst ip) in *. set (fs := Interpolate vars original) in *.
  unfold tcpAccessLog in Hc. destruct (MarshalAny _) as [e|m] eqn:Hmar; [done|]. injection Hc as <-.
  destruct (stream_all (address +:+ ";" +:+ Format_String fs) address (Format_String fs) (merge_text "" fs) fs
    (mkHttpConfig (Some []) [] [] []) batches) as (lines & Hl & Hst); try done.
  - by apply split2_app.
  - eapply interpolated_arrives; [exact Hp|]. intros k v. by apply log_variables_plain.
  - exists original, (address +:+ ";" +:+ Format_String fs), (Format_ConfigureHttpLog fs (mkHttpConfig (Some []) [] [] [])), lines.
    done.
Qed.
End EndToEnd.

(** ** A concrete log *)

Definition sample_log_message : LogMessage :=
  mkLogMessage "127.0.0.1:9200;%PROTOCOL% %RESPONSE_CODE%" (Some (HttpLogs [sample_http_entry; sample_http_entry])).

(** A network that refuses the second line. *)
Definition sample_network (h : list log_action) (a : log_action) : option goerror :=
  if Nat.eqb (length h) 2 then Some (Errorf "broken pipe" []) else None.

Lemma StreamAccessLogs_lines_witness :
  ∃ e, StreamAccessLogs sample_ptypes_Duration sample_ptypes_Timestamp (λ _, "") (λ _, "") (λ _, "GET") sample_network
    (λ _, "") (λ _, "") [sample_log_message] None []
  = (Err e, [LogDial "127.0.0.1:9200"; LogWrite ("HTTP/1.1 200" +:+ LF); LogWrite ("HTTP/1.1 200" +:+ LF); LogClose]).
Proof.
  pose proof (StreamAccessLogs_lines sample_ptypes_Duration sample_ptypes_Timestamp (λ _, "") (λ _, "") (λ _, "GET")
    sample_network (λ _, "") (λ _, "") sample_log_message [] None "127.0.0.1:9200" "%PROTOCOL% %RESPONSE_CODE%"
    [FieldOperator "PROTOCOL"; TextSpan " "; FieldOperator "RESPONSE_CODE"] eq_refl ltac:(vm_compute; reflexivity)) as Hw.
  cbv zeta in Hw. destruct (StreamAccessLogs _ _ _ _ _ _ _ _ _ _ _) as [r h] eqn:E.
  vm_compute in E. injection E as <- <-. eexists. vm_compute. reflexivity.
Defined.

Definition sample_proxy (ip : string) : Proxy :=
  mkProxy (mkProxyId "default" "dp-1")
    (mkResource (mkMeta "dp-1" "default" "" 0 0) (mkDataplane (Some (mkNetworking ip [] [] None)) None))
    ∅ ∅ ∅ ∅ ∅ ∅ None None None ∅.

Lemma access_log_end_to_end_witness :
  ∃ log original name config lines,
    convertLoggingBackend (λ _, inr "any") "default" "web" "db"
      (Some (mkLoggingBackend "tcp" "%KUMA_MESH% %RESPONSE_CODE%" (Some (LogTcp "127.0.0.1:9200"))))
      (sample_proxy "10.0.0.1") "" = Ok (Some log)
    ∧ ParseFormat "%KUMA_MESH% %RESPONSE_CODE%" = Ok original
    ∧ StreamAccessLogs sample_ptypes_Duration sample_ptypes_Timestamp (λ _, "") (λ _, "") (λ _, "GET") (λ _ _, None)
        (λ _, "") (λ _, "") (envoy_messages name config [[sample_http_entry]]) None []
      = (Ok (), LogDial "127.0.0.1:9200" :: writes lines ++ [LogClose]).
Proof.
  exists (mkEnvoyAccessLog HTTPGRPCAccessLog "any").
  destruct (access_log_end_to_end (λ _, inr "any") sample_ptypes_Duration sample_ptypes_Timestamp (λ _, "") (λ _, "")
    (λ _, "GET") (λ _ _, None) (λ _, "") (λ _, "") "default" "web" "db"
    (mkLoggingBackend "tcp" "%KUMA_MESH% %RESPONSE_CODE%" (Some (LogTcp "127.0.0.1:9200"))) "127.0.0.1:9200" "10.0.0.1"
    (sample_proxy "10.0.0.1") "" (mkEnvoyAccessLog HTTPGRPCAccessLog "any") [[sample_http_entry]])
    as (original & name & config & lines & Ho & _ & _ & Hst); try reflexivity; try discriminate.
  - intros e _. split; [intros ts _; eexists; reflexivity|intros d _; eexists; reflexivity].
  - exists original, name, config, lines. split; [vm_compute; reflexivity|]. split; [exact Ho|exact Hst].
Defined.
