(* ===== verification/EnvoyTags.v ===== *)
(** * Tags in headers

    Models [pkg/xds/envoy/tags]: the header in which a proxy announces the tags of
    its dataplane, and the regular expressions by which a fault injection selects
    the callers it applies to.

    The expressions use a small part of the RE2 syntax; a text of that part is a
    list of items, and what it matches is defined on the items. *)

From S2P Require Import Prelude GoStd Tags Validators.
Local Open Scope Z_scope.

(** ** serialize.go *)

Definition Serialize (tags : MultiValueTagSet) : string :=
  join "" ((λ key, "&" +:+ key +:+ "=" +:+ join "," (MultiValueTagSet_Values tags key) +:+ "&")
             <$> MultiValueTagSet_Keys tags).

(** ** match.go *)

(** [strings.ReplaceAll(value, ".", `\.`)]. *)
Fixpoint escape_dots (s : string) : string :=
  match s with
  | EmptyString => EmptyString
  | String c s => (if Ascii.eqb c "." then "\." else String c "") +:+ escape_dots s
  end.

(** The expression for one tag. *)
Definition tag_expr (key tag : string) : string :=
  let value := if String.eqb tag "*" then "" else "[^&]*" +:+ tag +:+ "[,&]" in
  "&" +:+ key +:+ "=" +:+ escape_dots value +:+ ".*".

Definition MatchingRegex (tags : tag_map) : string :=
  foldl (λ re key, re +:+ tag_expr key (default "" (tags !! key))) "" (SingleValueTagSet_Keys tags).

Definition RegexOR (r : list string) : string :=
  match r with
  | [] => ""
  | [r] => r
  | _ => "(" +:+ join "|" r +:+ ")"
  end.

(** ** What the expressions match *)

Inductive re_item : Type :=
| ItemChar (c : ascii)          (* a literal byte *)
| ItemAny                       (* . *)
| ItemAnyStar                   (* .* *)
| ItemNotAmpStar                (* [^&]* *)
| ItemCommaAmp.                 (* [,&] *)

Definition item_text (i : re_item) : string :=
  match i with
  | ItemChar c => if Ascii.eqb c "." then "\." else String c ""
  | ItemAny => "."
  | ItemAnyStar => ".*"
  | ItemNotAmpStar => "[^&]*"
  | ItemCommaAmp => "[,&]"
  end.
Definition regex_text (items : list re_item) : string := join "" (item_text <$> items).

(** Any byte but a line feed. *)
Definition lf : ascii := ascii_of_N 10.
Definition not_lf (c : ascii) : bool := negb (Ascii.eqb c lf).

Definition item_match (i : re_item) (s : string) : Prop :=
  match i with
  | ItemChar c => s = String c ""
  | ItemAny => ∃ c, s = String c "" ∧ not_lf c = true
  | ItemAnyStar => all_bytes not_lf s = true
  | ItemNotAmpStar => has_byte "&" s = false
  | ItemCommaAmp => s = "," ∨ s = "&"
  end.

(** A match of the whole text. *)
Fixpoint re_match (items : list re_item) (s : string) : Prop :=
  match items with
  | [] => s = ""
  | i :: rest => ∃ a b, s = a +:+ b ∧ item_match i a ∧ re_match rest b
  end.

Fixpoint chars (s : string) : list ascii :=
  match s with EmptyString => [] | String c s => c :: chars s end.

Definition tag_items (key tag : string) : list re_item :=
  ItemChar "&" :: ((λ c, if Ascii.eqb c "." then ItemAny else ItemChar c) <$> chars key) ++
  ItemChar "=" ::
  (if String.eqb tag "*" then [] else ItemNotAmpStar :: (ItemChar <$> chars tag) ++ [ItemCommaAmp]) ++ [ItemAnyStar].

Definition regex_of (tags : tag_map) : list re_item :=
  SingleValueTagSet_Keys tags ≫= λ key, tag_items key (default "" (tags !! key)).

(** *** Strings *)

Lemma concat_cons (s : string) l : join "" (s :: l) = s +:+ join "" l.
Proof. unfold join. simpl. destruct l; [by rewrite string_app_empty_r|done]. Qed.

Lemma concat_app l l' : join "" (l ++ l') = join "" l +:+ join "" l'.
Proof. induction l as [|s l IH]; [done|]. simpl app. by rewrite !concat_cons, IH, string_app_assoc. Qed.

Lemma escape_dots_app s t : escape_dots (s +:+ t) = escape_dots s +:+ escape_dots t.
Proof. induction s as [|c s IH]; [done|]. simpl. by rewrite IH, string_app_assoc. Qed.

(** The items of a selector are the text that is sent to Envoy. *)
Lemma tag_items_text key tag : regex_text (tag_items key tag) = tag_expr key tag.
Proof.
  unfold regex_text, tag_items, tag_expr. rewrite fmap_cons, fmap_app, concat_cons, concat_app, fmap_cons, concat_cons.
  assert (join "" (item_text <$> ((λ c, if Ascii.eqb c "." then ItemAny else ItemChar c) <$> chars key)) = key) as ->.
  { induction key as [|c key IH]; [done|]. cbn [chars fmap list_fmap]. rewrite concat_cons.
    change (join "" _) with (join "" (item_text <$> ((λ c, if Ascii.eqb c "." then ItemAny else ItemChar c) <$> chars key))).
    rewrite IH. destruct (Ascii.eqb_spec c "."%char) as [->|Hc]; [done|]. simpl.
    by rewrite (proj2 (Ascii.eqb_neq _ _) Hc). }
  assert (∀ s, join "" (item_text <$> (ItemChar <$> chars s)) = escape_dots s) as Hlit.
  { intros s. induction s as [|c s IH]; [done|]. cbn [chars fmap list_fmap]. rewrite concat_cons.
    change (join "" _) with (join "" (item_text <$> (ItemChar <$> chars s))). by rewrite IH. }
  destruct (String.eqb tag "*"); [done|]. rewrite fmap_app, fmap_cons, fmap_app, concat_app, concat_cons, concat_app, Hlit.
  rewrite !escape_dots_app. reflexivity.
Qed.

Lemma MatchingRegex_text tags : MatchingRegex tags = regex_text (regex_of tags).
Proof.
  unfold MatchingRegex, regex_of. generalize (SingleValueTagSet_Keys tags). intros keys.
  induction keys as [|key keys IH] using rev_ind; [done|].
  rewrite foldl_app, bind_app. unfold regex_text in *. rewrite fmap_app, concat_app. cbn [foldl]. rewrite IH.
  f_equal. cbn [mbind list_bind]. rewrite app_nil_r. symmetry. apply tag_items_text.
Qed.

(** *** Matching and splitting *)

Lemma re_match_app i1 i2 s :
  re_match (i1 ++ i2) s ↔ ∃ a b, s = a +:+ b ∧ re_match i1 a ∧ re_match i2 b.
Proof.
  revert s; induction i1 as [|i i1 IH]; intros s; simpl.
  - split; [intros H; by exists "", s|]. by intros (a & b & -> & -> & H).
  - split.
    + intros (a & b & -> & Ha & (b1 & b2 & -> & H1 & H2)%IH). exists (a +:+ b1), b2.
      split; [by rewrite string_app_assoc|]. split; [|done]. by exists a, b1.
    + intros (x & b2 & -> & (a & b1 & -> & Ha & H1) & H2). exists a, (b1 +:+ b2).
      split; [by rewrite string_app_assoc|]. split; [done|]. apply IH. by exists b1, b2.
Qed.

Lemma re_match_one i s : re_match [i] s ↔ item_match i s.
Proof.
  simpl. split; [intros (a & b & -> & H & ->); by rewrite string_app_empty_r|].
  intros H. exists s, "". by rewrite string_app_empty_r.
Qed.

Lemma re_match_chars s t : re_match (ItemChar <$> chars s) t ↔ t = s.
Proof.
  revert t; induction s as [|c s IH]; intros t; [done|]. cbn [chars fmap list_fmap re_match item_match]. split.
  - intros (a & b & -> & -> & H). apply IH in H as ->. done.
  - intros ->. exists (String c ""), s. split; [done|]. split; [done|]. by apply IH.
Qed.

(** The first occurrence of a byte. *)
Lemma first_byte c s : has_byte c s = true → ∃ a b, s = a +:+ String c b ∧ has_byte c a = false.
Proof.
  induction s as [|d s IH]; [done|]. simpl. destruct (Ascii.eqb_spec d c) as [->|Hd].
  - intros _. by exists "", s.
  - intros (a & b & -> & Ha)%IH. exists (String d a), b. split; [done|]. simpl.
    by rewrite (proj2 (Ascii.eqb_neq _ _) Hd).
Qed.

Lemma first_byte_eq c a b a' b' :
  has_byte c a = false → has_byte c a' = false → a +:+ String c b = a' +:+ String c b' → a = a' ∧ b = b'.
Proof.
  revert a'; induction a as [|d a IH]; intros [|d' a'] Ha Ha' Heq; simpl in *.
  - by injection Heq.
  - injection Heq as <- _. by rewrite Ascii.eqb_refl in Ha'.
  - injection Heq as -> _. by rewrite Ascii.eqb_refl in Ha.
  - injection Heq as <- Heq. destruct (Ascii.eqb d c); [done|]. by destruct (IH a' Ha Ha' Heq) as [-> ->].
Qed.

Lemma byte_middle c a b : has_byte c (a +:+ String c b) = true.
Proof. rewrite has_byte_app. simpl. rewrite Ascii.eqb_refl. by rewrite orb_true_r. Qed.

(** Two ways to cut a text at a byte: at the first occurrence or later. *)
Lemma cut_byte c a b a' b' :
  has_byte c a = false → a +:+ String c b = a' +:+ String c b' →
  (a' = a ∧ b' = b) ∨ ∃ a'', a' = a +:+ String c a'' ∧ b = a'' +:+ String c b'.
Proof.
  intros Ha Heq. destruct (has_byte c a') eqn:Ha'.
  - right. apply first_byte in Ha' as (x & y & -> & Hx). rewrite string_app_assoc in Heq. simpl in Heq.
    apply first_byte_eq in Heq as [-> ->]; eauto.
  - left. by apply first_byte_eq in Heq as [-> ->].
Qed.

(** *** Values *)

(** [v] ends one of the values. *)
Definition ends_value (v : string) (values : list string) : Prop := ∃ x y, x ∈ values ∧ x = y +:+ v.

(** In joined values, a [v] before a comma or the end ends a value. *)
Lemma joined_ends values v w u :
  v ≠ "" → has_byte "," v = false → Forall (λ x, has_byte "," x = false) values →
  join "," values = w +:+ v +:+ u → (u = "" ∨ ∃ u', u = String "," u') → ends_value v values.
Proof.
  intros Hv Hvc Hvs. revert w; induction Hvs as [|x values Hx Hvs IH]; intros w Heq Hu.
  { destruct w, v; done. }
  destruct values as [|x' values].
  - change (join "," [x]) with x in Heq. exists x, w. split; [set_solver|].
    destruct Hu as [->|[u' ->]]; [by rewrite string_app_empty_r in Heq|].
    rewrite Heq, <- string_app_assoc, byte_middle in Hx. done.
  - change (join "," (x :: x' :: values)) with (x +:+ String "," (join "," (x' :: values))) in Heq.
    destruct (has_byte "," w) eqn:Hw.
    + apply first_byte in Hw as (w1 & w2 & -> & Hw1). rewrite string_app_assoc in Heq. simpl in Heq.
      apply first_byte_eq in Heq as [-> Heq]; [|done..].
      destruct (IH w2 Heq Hu) as (y & z & Hy & ->). exists (z +:+ v), z. split; [set_solver|done].
    + destruct Hu as [->|[u' ->]].
      * rewrite string_app_empty_r in Heq. assert (has_byte "," (w +:+ v) = true) as Hb by (rewrite <- Heq; apply byte_middle).
        rewrite has_byte_app, Hw, Hvc in Hb. done.
      * rewrite <- string_app_assoc in Heq. apply first_byte_eq in Heq as [-> _]; [|done|by rewrite has_byte_app, Hw].
        exists (w +:+ v), w. split; [set_solver|done].
Qed.

Lemma ends_joined values v :
  ends_value v values → ∃ w u, join "," values = w +:+ v +:+ u ∧ (u = "" ∨ ∃ u', u = String "," u').
Proof.
  intros (x & y & Hx & ->). induction values as [|z values IH]; [by apply not_elem_of_nil in Hx|].
  apply elem_of_cons in Hx as [<-|Hx].
  - destruct values as [|z' values].
    + exists y, "". split; [by rewrite string_app_empty_r|by left].
    + exists y, (String "," (join "," (z' :: values))). split; [|right; eauto].
      change (join "," ((y +:+ v) :: z' :: values)) with ((y +:+ v) +:+ String "," (join "," (z' :: values))).
      by rewrite string_app_assoc.
  - destruct (IH Hx) as (w & u & Hj & Hu). destruct values as [|z' values]; [by apply not_elem_of_nil in Hx|].
    exists (z +:+ String "," w), u. split; [|done].
    change (join "," (z :: z' :: values)) with (z +:+ String "," (join "," (z' :: values))). rewrite Hj.
    by rewrite string_app_assoc.
Qed.

Lemma join_no_byte c values :
  c ≠ ","%char → Forall (λ x, has_byte c x = false) values → has_byte c (join "," values) = false.
Proof.
  intros Hc Hvs. induction Hvs as [|x [|y values] Hx Hvs IH]; [done|done|].
  change (join "," (x :: y :: values)) with (x +:+ String "," (join "," (y :: values))).
  rewrite has_byte_app, Hx. cbn [has_byte orb]. rewrite (proj2 (Ascii.eqb_neq ","%char c)) by congruence. exact IH.
Qed.

(** *** Tags of a header *)

(** Letters, digits and dashes and the like, which are written as they are. *)
Definition plain (s : string) : Prop := s ≠ "" ∧ all_bytes tag_char s = true.

Lemma plain_no_byte c s : all_bytes tag_char s = true → tag_char c = false → has_byte c s = false.
Proof.
  intros Hs Hc. induction s as [|d s IH]; [done|]. simpl in *. apply andb_true_iff in Hs as [Hd Hs].
  rewrite IH by done. destruct (Ascii.eqb_spec d c) as [->|]; [congruence|done].
Qed.

Lemma plain_lf s : all_bytes tag_char s = true → all_bytes not_lf s = true.
Proof.
  intros Hs. pose proof (plain_no_byte lf s Hs eq_refl) as Hb. clear Hs.
  induction s as [|d s IH]; [done|]. simpl in *. apply orb_false_iff in Hb as [Hd Hb].
  unfold not_lf at 1. rewrite Hd. simpl. by apply IH.
Qed.

(** The segments of a header. *)
Definition segment (kv : string * list string) : string := "&" +:+ kv.1 +:+ "=" +:+ join "," kv.2 +:+ "&".
Definition header (segs : list (string * list string)) : string := join "" (segment <$> segs).
Definition plain_segs (segs : list (string * list string)) : Prop :=
  Forall (λ kv, plain kv.1 ∧ Forall plain kv.2) segs.

Lemma header_cons kv segs : header (kv :: segs) = segment kv +:+ header segs.
Proof. unfold header. by rewrite fmap_cons, concat_cons. Qed.

Lemma Serialize_header t : Serialize t = header ((λ k, (k, MultiValueTagSet_Values t k)) <$> MultiValueTagSet_Keys t).
Proof. unfold Serialize, header. by rewrite <- list_fmap_compose. Qed.

Lemma body_no_amp kv : plain kv.1 ∧ Forall plain kv.2 → has_byte "&" (kv.1 +:+ "=" +:+ join "," kv.2) = false.
Proof.
  intros [[_ Hk] Hvs]. rewrite has_byte_app, (plain_no_byte "&" _ Hk eq_refl). simpl.
  apply join_no_byte; [done|]. eapply Forall_impl; [exact Hvs|]. intros v [_ Hv]. by apply plain_no_byte.
Qed.

Lemma segment_eq kv : segment kv = String "&" ((kv.1 +:+ "=" +:+ join "," kv.2) +:+ "&").
Proof. unfold segment. simpl. by rewrite !string_app_assoc. Qed.

Lemma header_head segs : header segs = "" ∨ ∃ r, header segs = String "&" r.
Proof. destruct segs as [|kv segs]; [by left|]. right. rewrite header_cons, segment_eq. simpl. eauto. Qed.

(** A key with its equals sign occurs only where its segment begins. *)
Lemma header_key segs pre k rest :
  plain_segs segs → plain k → header segs = pre +:+ String "&" (k +:+ String "=" rest) →
  ∃ segs1 vs segs2, segs = segs1 ++ (k, vs) :: segs2 ∧ pre = header segs1
    ∧ rest = join "," vs +:+ String "&" (header segs2).
Proof.
  intros Hsegs Hk. revert pre; induction Hsegs as [|[k0 vs0] segs Hkv Hsegs IH]; intros pre Heq.
  { destruct pre; done. }
  rewrite header_cons, segment_eq in Heq. pose proof (body_no_amp _ Hkv) as Hb.
  cbn [fst snd] in Hb, Heq. set (body := k0 +:+ "=" +:+ join "," vs0) in *.
  destruct pre as [|c pre].
  - simpl in Heq. injection Heq as Heq. rewrite string_app_assoc in Heq. unfold body in Heq.
    rewrite string_app_assoc in Heq. simpl in Heq.
    destruct Hkv as [[_ Hk0] _]. destruct Hk as [_ Hk]. cbn [fst] in Hk0.
    apply first_byte_eq in Heq as [-> Heq]; [|by apply plain_no_byte..].
    exists [], vs0, segs. split; [done|]. split; [done|]. by rewrite <- Heq.
  - simpl in Heq. injection Heq as <- Heq. rewrite string_app_assoc in Heq. cbn [String.append] in Heq.
    destruct (cut_byte _ _ _ _ _ Hb Heq) as [[-> Hh]|(pre' & -> & Hh)].
    + exfalso. destruct (header_head segs) as [Hn|[r Hn]]; rewrite Hn in Hh; destruct Hk as [Hne Hk], k as [|c k]; try done.
      injection Hh as -> _. discriminate Hk.
    + destruct (IH pre' Hh) as (segs1 & vs & segs2 & -> & -> & ->).
      exists ((k0, vs0) :: segs1), vs, segs2. split; [done|]. split; [|done].
      rewrite header_cons, segment_eq. cbn [fst snd]. fold body. simpl. by rewrite string_app_assoc.
Qed.

(** What follows the key in a text that matches the items of a tag. *)
Definition tag_tail (v tail : string) : Prop :=
  if String.eqb v "*" then all_bytes not_lf tail = true
  else ∃ w c r, tail = w +:+ v +:+ String c r ∧ has_byte "&" w = false ∧ (c = ","%char ∨ c = "&"%char)
         ∧ all_bytes not_lf r = true.

Lemma re_match_char c items s : re_match (ItemChar c :: items) s ↔ ∃ t, s = String c t ∧ re_match items t.
Proof.
  simpl. split; [intros (a & b & -> & -> & H); by exists b|]. intros (t & -> & H). by exists (String c ""), t.
Qed.

Lemma re_match_text k items s :
  re_match ((ItemChar <$> chars k) ++ items) s ↔ ∃ t, s = k +:+ t ∧ re_match items t.
Proof.
  rewrite re_match_app. setoid_rewrite re_match_chars. split.
  - intros (a & b & -> & -> & H). by exists b.
  - intros (t & -> & H). by exists k, t.
Qed.

Lemma re_match_value items s :
  re_match (ItemCommaAmp :: items) s ↔ ∃ c t, s = String c t ∧ (c = ","%char ∨ c = "&"%char) ∧ re_match items t.
Proof.
  simpl. split.
  - intros (a & b & -> & [-> | ->] & H); [by exists ","%char, b; auto|by exists "&"%char, b; auto].
  - intros (c & t & -> & Hc & H). exists (String c ""), t. split; [done|]. split; [|done].
    destruct Hc as [-> | ->]; auto.
Qed.

Lemma key_items k : has_byte "." k = false →
  ((λ c, if Ascii.eqb c "." then ItemAny else ItemChar c) <$> chars k) = ItemChar <$> chars k.
Proof.
  induction k as [|c k IH]; [done|]. cbn [has_byte chars fmap list_fmap]. intros [Hc Hk]%orb_false_iff.
  rewrite Hc. f_equal. by apply IH.
Qed.

Lemma tag_items_match k v s :
  has_byte "." k = false →
  re_match (tag_items k v) s ↔ ∃ tail, s = String "&" (k +:+ String "=" tail) ∧ tag_tail v tail.
Proof.
  intros Hk. unfold tag_items, tag_tail. rewrite key_items by done.
  rewrite re_match_char. setoid_rewrite re_match_text. setoid_rewrite re_match_char.
  assert (∀ tail, re_match ((if String.eqb v "*" then [] else ItemNotAmpStar :: (ItemChar <$> chars v) ++ [ItemCommaAmp])
      ++ [ItemAnyStar]) tail ↔ if String.eqb v "*" then all_bytes not_lf tail = true
    else ∃ w c r, tail = w +:+ v +:+ String c r ∧ has_byte "&" w = false ∧ (c = ","%char ∨ c = "&"%char)
         ∧ all_bytes not_lf r = true) as Htail.
  { intros tail. destruct (String.eqb v "*"); [apply (re_match_one ItemAnyStar)|].
    rewrite <- app_comm_cons, <- app_assoc. cbn [re_match item_match].
    setoid_rewrite re_match_text. simpl app. setoid_rewrite re_match_value. setoid_rewrite re_match_one. simpl. split.
    - intros (w & ? & -> & Hw & ? & -> & c & r & -> & Hc & Hr). by exists w, c, r.
    - intros (w & c & r & -> & Hw & Hc & Hr). exists w, (v +:+ String c r). split; [done|]. split; [done|].
      exists (String c r). split; [done|]. by exists c, r. }
  setoid_rewrite Htail. split.
  - intros (? & -> & ? & -> & tail & -> & H). by exists tail.
  - intros (tail & -> & H). eexists. split; [done|]. eexists. split; [done|]. by exists tail.
Qed.

(** *** The chain of a selector *)

Definition items_of (sels : list (string * string)) : list re_item := sels ≫= λ kv, tag_items kv.1 kv.2.

(** A tag of the selector against the segments of a header. *)
Definition tag_holds (segs : list (string * list string)) (kv : string * string) : Prop :=
  ∃ vs, (kv.1, vs) ∈ segs ∧ (kv.2 = "*" ∨ ends_value kv.2 vs).

Definition plain_sels (sels : list (string * string)) : Prop :=
  Forall (λ kv, plain kv.1 ∧ has_byte "." kv.1 = false ∧ (kv.2 = "*" ∨ plain kv.2)) sels.

(** In the text after a key, a match of the value ends a value. *)
Lemma tail_ends vs v h r post :
  Forall plain vs → plain v → tag_tail v r → r +:+ post = join "," vs +:+ String "&" h → v ≠ "*" → ends_value v vs.
Proof.
  intros Hvs [Hne Hv] Ht Heq Hstar. unfold tag_tail in Ht. rewrite (proj2 (String.eqb_neq _ _) Hstar) in Ht.
  destruct Ht as (w & c & r' & -> & Hw & Hc & _). rewrite !string_app_assoc in Heq. cbn [String.append] in Heq.
  assert (has_byte "&" (w +:+ v) = false) as Hwv by (by rewrite has_byte_app, Hw, (plain_no_byte "&" v Hv eq_refl)).
  assert (has_byte "&" (join "," vs) = false) as Hj.
  { apply join_no_byte; [done|]. eapply Forall_impl; [exact Hvs|]. intros x [_ Hx]. by apply plain_no_byte. }
  rewrite <- string_app_assoc in Heq.
  apply (joined_ends vs v w match c with ","%char => String "," match byte_index "&" (r' +:+ post) with
    Some i => stake i (r' +:+ post) | None => "" end | _ => "" end); [done|by apply plain_no_byte| | |].
  - eapply Forall_impl; [exact Hvs|]. intros x [_ Hx]. by apply plain_no_byte.
  - destruct Hc as [-> | ->].
    + assert (has_byte "&" (r' +:+ post) = true) as Hb.
      { pose proof (byte_middle "&" (join "," vs) h) as Hm. rewrite <- Heq, has_byte_app, Hwv in Hm. exact Hm. }
      apply first_byte in Hb as (a & b & Hab & Ha). rewrite Hab in *. rewrite byte_index_app, stake_app by done.
      change (String "," (a +:+ String "&" b)) with (String "," a +:+ String "&" b) in Heq.
      rewrite <- string_app_assoc in Heq. apply first_byte_eq in Heq as [<- _]; [|rewrite has_byte_app, Hwv; exact Ha|done].
      by rewrite string_app_assoc.
    + apply first_byte_eq in Heq as [<- _]; [|done..]. by rewrite string_app_empty_r.
  - destruct Hc as [-> | ->]; [right; eauto|by left].
Qed.

(** Matching a selector means that each of its tags holds. *)
Lemma items_sound sels s segs pre :
  plain_sels sels → plain_segs segs → header segs = pre +:+ s → re_match (items_of sels) s →
  (∀ kv, kv ∈ sels → tag_holds segs kv)
  ∧ ∀ kv sels', sels = kv :: sels' → pre = "" → ∃ vs segs', segs = (kv.1, vs) :: segs'.
Proof.
  intros Hsels Hsegs. revert s pre; induction Hsels as [|[k v] sels (Hk & Hdot & Hv) Hsels IH]; intros s pre Heq Hm.
  { split; [intros ? Hin; by apply not_elem_of_nil in Hin|done]. }
  unfold items_of in Hm. cbn [mbind list_bind fst snd] in Hm, Hk, Hdot, Hv.
  apply re_match_app in Hm as (a & b & -> & Ha & Hb). apply tag_items_match in Ha as (tail & -> & Ht); [|done].
  assert (header segs = pre +:+ String "&" (k +:+ String "=" (tail +:+ b))) as Heq'.
  { rewrite Heq. f_equal. simpl. f_equal. by rewrite string_app_assoc. }
  destruct (header_key _ _ _ _ Hsegs Hk Heq') as (segs1 & vs & segs2 & -> & -> & Hrest). split.
  - intros kv Hin. apply elem_of_cons in Hin as [->|Hin].
    + exists vs. cbn [fst snd]. split; [set_solver|]. destruct Hv as [->|Hv]; [by left|].
      destruct (String.eqb_spec v "*") as [->|Hstar]; [by left|]. right.
      apply (tail_ends vs v (header segs2) tail b); try done.
      unfold plain_segs in Hsegs. rewrite Forall_app, Forall_cons in Hsegs. apply Hsegs.
    + refine (proj1 (IH b (header segs1 +:+ String "&" (k +:+ String "=" tail)) _ Hb) kv Hin).
      rewrite Heq', string_app_assoc. f_equal. simpl. f_equal. by rewrite string_app_assoc.
  - intros kv sels' [= <- <-] Hpre. destruct segs1 as [|x segs1]; [by exists vs, segs2|].
    rewrite header_cons, segment_eq in Hpre. discriminate Hpre.
Qed.

Lemma joined_lf vs : Forall plain vs → all_bytes not_lf (join "," vs) = true.
Proof.
  intros Hvs. induction Hvs as [|x [|y vs] [_ Hx] Hvs IH]; [done|by apply plain_lf|].
  change (join "," (x :: y :: vs)) with (x +:+ String "," (join "," (y :: vs))).
  rewrite all_bytes_app, (plain_lf _ Hx). exact IH.
Qed.

Lemma header_lf segs : plain_segs segs → all_bytes not_lf (header segs) = true.
Proof.
  intros Hs. induction Hs as [|[k vs] segs [[_ Hk] Hvs] Hs IH]; [done|].
  rewrite header_cons, all_bytes_app, IH, andb_true_r. unfold segment. cbn [fst snd] in *.
  by rewrite !all_bytes_app, (plain_lf k Hk), (joined_lf vs Hvs).
Qed.

(** A segment whose tag holds is matched with everything up to the next. *)
Lemma segment_match k v vs more :
  plain k → has_byte "." k = false → v = "*" ∨ ends_value v vs → v = "*" ∨ plain v → Forall plain vs →
  all_bytes not_lf more = true → re_match (tag_items k v) (segment (k, vs) +:+ more).
Proof.
  intros Hk Hdot Hends Hv Hvs Hmore. apply tag_items_match; [done|].
  exists (join "," vs +:+ String "&" more). split.
  { unfold segment. cbn [fst snd]. simpl. f_equal. rewrite string_app_assoc. simpl. by rewrite string_app_assoc. }
  assert (all_bytes not_lf (join "," vs +:+ String "&" more) = true) as Hall.
  { rewrite all_bytes_app, (joined_lf vs Hvs). simpl. exact Hmore. }
  unfold tag_tail. destruct (String.eqb_spec v "*") as [->|Hstar]; [done|].
  destruct Hends as [|Hends]; [done|]. destruct Hv as [|[Hne Hv]]; [done|].
  destruct (ends_joined vs v Hends) as (w & u & Hj & Hu).
  assert (has_byte "&" (join "," vs) = false) as Hamp.
  { apply join_no_byte; [done|]. eapply Forall_impl; [exact Hvs|]. intros x [_ Hx]. by apply plain_no_byte. }
  rewrite Hj in Hamp, Hall |- *. rewrite has_byte_app in Hamp. apply orb_false_iff in Hamp as [Hw _].
  rewrite !all_bytes_app, !andb_true_iff in Hall. destruct Hall as [[_ [_ Hu']] Hrest].
  destruct Hu as [->|[u' ->]].
  - exists w, "&"%char, more. rewrite string_app_empty_r, string_app_assoc. auto.
  - exists w, ","%char, (u' +:+ String "&" more). rewrite !string_app_assoc. split; [done|]. split; [done|]. split; [auto|].
    rewrite all_bytes_app. simpl in Hu'. by rewrite Hu'.
Qed.

(** Both sides list their keys in order. *)
Definition ordered {A} (l : list (string * A)) : Prop := StronglySorted String.le l.*1 ∧ NoDup l.*1.

Lemma ordered_cons {A} (x : string * A) l : ordered (x :: l) → ordered l ∧ ∀ y, y ∈ l → String.le x.1 y.1 ∧ x.1 ≠ y.1.
Proof.
  intros [Hs Hn]. apply StronglySorted_cons in Hs as [Hle Hs]. apply NoDup_cons in Hn as [Hx Hn].
  split; [done|]. intros y Hy. rewrite Forall_forall in Hle.
  assert (y.1 ∈ l.*1) as Hin by (apply list_elem_of_fmap; eauto). split; [by apply Hle|]. intros Heq. by rewrite Heq in Hx.
Qed.

Lemma items_complete sels segs :
  plain_sels sels → plain_segs segs → ordered sels → ordered segs → (∀ kv, kv ∈ sels → tag_holds segs kv) →
  ∃ pre mid, header segs = pre +:+ mid ∧ re_match (items_of sels) mid
    ∧ ∀ kv sels' vs segs', sels = kv :: sels' → segs = (kv.1, vs) :: segs' → pre = "".
Proof.
  intros Hsels Hsegs. revert sels Hsels; induction Hsegs as [|[k0 vs0] segs [Hk0 Hvs0] Hsegs IH];
    intros sels Hsels Hos Hog Hall.
  { destruct sels as [|kv sels]; [by exists "", ""|]. destruct (Hall kv) as (vs & Hin & _); [constructor|].
    by apply not_elem_of_nil in Hin. }
  destruct (ordered_cons _ _ Hog) as [Hog' Hlt]. cbn [fst snd] in Hk0, Hvs0, Hlt.
  destruct Hsels as [|[k v] sels (Hk & Hdot & Hv) Hsels].
  { exists (header ((k0, vs0) :: segs)), "". rewrite string_app_empty_r. done. }
  destruct (ordered_cons _ _ Hos) as [Hos' Hlts]. cbn [fst snd] in Hk, Hdot, Hv, Hlts.
  assert (∀ kv, kv ∈ (k, v) :: sels → kv.1 ≠ k0 → tag_holds segs kv) as Hrest.
  { intros kv Hin Hne. destruct (Hall kv Hin) as (vs & Hseg & Hvv). exists vs. split; [|done].
    apply elem_of_cons in Hseg as [[= ]|]; [done|done]. }
  destruct (decide (k = k0)) as [->|Hne].
  - destruct (IH sels Hsels Hos' Hog') as (pre & mid & Hh & Hm & _).
    { intros kv Hin. apply Hrest; [by constructor|]. destruct (Hlts kv Hin). congruence. }
    exists "", (header ((k0, vs0) :: segs)). split; [done|]. split; [|done].
    unfold items_of. cbn [mbind list_bind fst snd]. apply re_match_app.
    exists (segment (k0, vs0) +:+ pre), mid. rewrite header_cons, Hh. split; [by rewrite string_app_assoc|].
    split; [|exact Hm]. pose proof (header_lf segs Hsegs) as Hlf. rewrite Hh, all_bytes_app in Hlf.
    apply andb_true_iff in Hlf as [Hpre _].
    destruct (Hall (k0, v)) as (vs & Hin & Hends); [constructor|]. cbn [fst snd] in Hin, Hends.
    assert (vs = vs0) as ->.
    { apply elem_of_cons in Hin as [[= ]|Hin]; [done|]. destruct (Hlt _ Hin) as [_ Hne]. done. }
    by apply segment_match.
  - destruct (IH ((k, v) :: sels)) as (pre & mid & Hh & Hm & _); [by constructor|done|done| |].
    { intros kv Hin. apply Hrest; [done|]. intros Heq.
      destruct (Hall (k, v)) as (vs & Hseg & _); [constructor|]. cbn [fst] in Hseg.
      apply elem_of_cons in Hseg as [[= ]|Hseg]; [done|]. destruct (Hlt _ Hseg) as [Hle1 _]. cbn [fst] in Hle1.
      apply elem_of_cons in Hin as [->|Hin]; [done|]. destruct (Hlts kv Hin) as [Hle2 _].
      rewrite Heq in Hle2. apply Hne. by apply (anti_symm String.le). }
    exists (segment (k0, vs0) +:+ pre), mid. rewrite header_cons, Hh, string_app_assoc. split; [done|]. split; [done|].
    intros kv sels' vs segs' [= <- <-] [= ? _]. done.
Qed.

(** ** Which callers a selector finds *)

Definition plain_tags (t : MultiValueTagSet) : Prop :=
  ∀ k vs, t !! k = Some vs → plain k ∧ ∀ v, v ∈ dom vs → plain v.
Definition plain_selector (sel : tag_map) : Prop :=
  ∀ k v, sel !! k = Some v → plain k ∧ has_byte "." k = false ∧ (v = "*" ∨ plain v).

(** The tags as a list, in the order of their keys. *)
Definition selector_list (sel : tag_map) : list (string * string) :=
  (λ k, (k, default "" (sel !! k))) <$> SingleValueTagSet_Keys sel.
Definition tags_list (t : MultiValueTagSet) : list (string * list string) :=
  (λ k, (k, MultiValueTagSet_Values t k)) <$> MultiValueTagSet_Keys t.

Lemma sorted_keys {A B} (m : gmap string A) (f : string → B) :
  ordered ((λ k, (k, f k)) <$> sort_strings (map_to_list m).*1).
Proof.
  unfold ordered. rewrite <- list_fmap_compose. unfold compose. cbn [fst]. rewrite list_fmap_id.
  split; [apply sort_strings_sorted|]. unfold sort_strings. rewrite sort_by_perm. apply NoDup_fst_map_to_list.
Qed.

Lemma sorted_keys_elem {A} (m : gmap string A) k : k ∈ sort_strings (map_to_list m).*1 ↔ is_Some (m !! k).
Proof.
  unfold sort_strings. rewrite sort_by_perm, list_elem_of_fmap. split.
  - intros ([k' v] & -> & Hin%elem_of_map_to_list). eauto.
  - intros [v Hv]. exists (k, v). split; [done|]. by apply elem_of_map_to_list.
Qed.

Lemma selector_list_elem sel k v : (k, v) ∈ selector_list sel ↔ sel !! k = Some v.
Proof.
  unfold selector_list. rewrite list_elem_of_fmap. unfold SingleValueTagSet_Keys. setoid_rewrite sorted_keys_elem. split.
  - intros (k' & [= <- ->] & [v' Hv]). by rewrite Hv.
  - intros Hv. exists k. rewrite Hv. split; [done|eauto].
Qed.

Lemma tags_list_elem t k vs : (k, vs) ∈ tags_list t ↔ is_Some (t !! k) ∧ vs = MultiValueTagSet_Values t k.
Proof.
  unfold tags_list. rewrite list_elem_of_fmap. unfold MultiValueTagSet_Keys. setoid_rewrite sorted_keys_elem. naive_solver.
Qed.

Lemma tags_list_plain t : plain_tags t → plain_segs (tags_list t).
Proof.
  intros Ht. unfold plain_segs. apply Forall_forall. intros [k vs] [[m Hm] ->]%tags_list_elem. destruct (Ht k m Hm) as [Hk Hv].
  split; [done|]. apply Forall_forall. intros v (m' & Hm' & Hin)%Values_elem. apply Hv. congruence.
Qed.

Lemma selector_list_plain sel : plain_selector sel → plain_sels (selector_list sel).
Proof.
  intros Hs. unfold plain_sels. apply Forall_forall. intros [k v] Hin%selector_list_elem. by apply Hs.
Qed.

Lemma regex_of_items sel : regex_of sel = items_of (selector_list sel).
Proof.
  unfold regex_of, items_of, selector_list. generalize (SingleValueTagSet_Keys sel). intros keys.
  induction keys as [|k keys IH]; [done|]. cbn [fmap list_fmap mbind list_bind fst snd]. by rewrite IH.
Qed.

(** Which callers a fault injection applies to.  For tags of the characters
    that are allowed, the whole header of a caller matches the expression of a
    selector exactly when the caller has every tag of the selector, where a value
    may be any value that ENDS in the one of the selector, and when moreover the
    first key of the selector is the first key of the caller: nothing is skipped
    before it. *)
Theorem MatchingRegex_callers t sel :
  plain_tags t → plain_selector sel → sel ≠ ∅ →
  MatchingRegex sel = regex_text (regex_of sel)
  ∧ (re_match (regex_of sel) (Serialize t) ↔
     head (SingleValueTagSet_Keys sel) = head (MultiValueTagSet_Keys t)
     ∧ ∀ k v, sel !! k = Some v →
         is_Some (t !! k) ∧ (v = "*" ∨ ∃ w, has_tag t k (w +:+ v))).
Proof.
  intros Ht Hsel Hne. split; [apply MatchingRegex_text|]. rewrite regex_of_items, Serialize_header. fold (tags_list t).
  assert (∀ k v, tag_holds (tags_list t) (k, v) ↔ is_Some (t !! k) ∧ (v = "*" ∨ ∃ w, has_tag t k (w +:+ v))) as Hholds.
  { intros k v. unfold tag_holds, ends_value. cbn [fst snd]. setoid_rewrite tags_list_elem. setoid_rewrite <- Values_elem.
    naive_solver. }
  assert (∃ k v sels, selector_list sel = (k, v) :: sels ∧ head (SingleValueTagSet_Keys sel) = Some k) as (k & v & sels & Hl & Hhd).
  { unfold selector_list. destruct (SingleValueTagSet_Keys sel) as [|k keys] eqn:Ek; [|by eexists _, _, _].
    exfalso. apply Hne, map_empty. intros k. destruct (sel !! k) eqn:E; [|done].
    assert (k ∈ SingleValueTagSet_Keys sel) as Hin by (apply sorted_keys_elem; eauto). rewrite Ek in Hin. set_solver. }
  assert (∀ k', head (MultiValueTagSet_Keys t) = Some k' ↔ ∃ vs segs, tags_list t = (k', vs) :: segs) as Hthd.
  { intros k'. unfold tags_list. destruct (MultiValueTagSet_Keys t); simpl; naive_solver. }
  pose proof (selector_list_plain sel Hsel) as Hps. pose proof (tags_list_plain t Ht) as Hpt. split.
  - intros Hm. destruct (items_sound _ _ _ "" Hps Hpt eq_refl Hm) as [Hall Hfirst].
    destruct (Hfirst _ _ Hl eq_refl) as (vs & segs & Hsegs). split.
    + rewrite Hhd. symmetry. apply Hthd. eauto.
    + intros k' v' Hv%selector_list_elem. by apply Hholds, Hall.
  - intros [Hh Hall]. destruct (items_complete (selector_list sel) (tags_list t)) as (pre & mid & Heq & Hm & Hpre);
      [done|done|apply sorted_keys|apply sorted_keys| |].
    + intros [k' v'] Hin%selector_list_elem. by apply Hholds, Hall.
    + rewrite Hhd in Hh. symmetry in Hh. apply Hthd in Hh as (vs & segs & Hs).
      rewrite (Hpre _ _ _ _ Hl Hs) in Heq. by rewrite Heq.
Qed.

Lemma plain_tags_insert t k v : plain_tags t → plain k → plain v → plain_tags (<[k := {[v := true]}]> t).
Proof.
  intros Ht Hk Hv k' vs [[<- <-]|[_ Hl]]%lookup_insert_Some; [|by apply (Ht k')].
  split; [done|]. intros v' Hv'. rewrite dom_singleton_L in Hv'. apply elem_of_singleton in Hv' as ->. done.
Qed.

Lemma plain_tags_empty : plain_tags ∅.
Proof. intros k vs Hk. by rewrite lookup_empty in Hk. Qed.

(** A selector of the service [web] misses a caller that also has the tag [env],
    and finds the service [my-web]. *)
Lemma MatchingRegex_callers_witness :
  ¬ re_match (regex_of {["service" := "web"]})
      (Serialize (<["env" := {["prod" := true]}]> (<["service" := {["web" := true]}]> ∅)))
  ∧ re_match (regex_of {["service" := "web"]}) (Serialize (<["service" := {["my-web" := true]}]> ∅)).
Proof.
  assert (plain_selector {["service" := "web"]}) as Hs.
  { intros k v [<- <-]%lookup_singleton_Some. split; [split; [done|reflexivity]|]. split; [reflexivity|]. right. done. }
  assert ({["service" := "web"]} ≠ (∅ : tag_map)) as Hne by apply insert_non_empty.
  assert (plain_tags (<["service" := {["web" := true]}]> ∅)) as Hw
    by (apply plain_tags_insert; [apply plain_tags_empty|done|done]).
  pose proof (MatchingRegex_callers (<["env" := {["prod" := true]}]> (<["service" := {["web" := true]}]> ∅)) {["service" := "web"]}
                (plain_tags_insert _ "env" "prod" Hw ltac:(done) ltac:(done)) Hs Hne) as [_ Hmiss].
  pose proof (MatchingRegex_callers (<["service" := {["my-web" := true]}]> ∅) {["service" := "web"]}
                (plain_tags_insert _ "service" "my-web" plain_tags_empty ltac:(done) ltac:(done)) Hs Hne) as [_ Hfind].
  split.
  - intros Hm. destruct (proj1 Hmiss Hm) as [Hh _]. vm_compute in Hh. discriminate Hh.
  - apply (proj2 Hfind). split; [vm_compute; reflexivity|]. intros k v [<- <-]%lookup_singleton_Some.
    rewrite lookup_insert_eq. split; [by eexists|]. right. exists "my-".
    exists {["my-web" := true]}. rewrite lookup_insert_eq. split; [done|].
    rewrite dom_singleton_L. by apply elem_of_singleton.
Defined.
