(* ===== verification/Envoy.v ===== *)
(** * Envoy messages and their builders

    Models [pkg/xds/envoy] outside of its listeners: the names of resources
    ([names]), endpoints, clusters, TLS contexts and route configurations, and
    [SanitizeMetric] of [pkg/util/xds].

    The messages of Envoy are records of the fields the code sets; an enum that is
    only set to its zero value is left out.  A message packed into an [Any] is an
    opaque text: [MarshalAny] and [UnmarshalAny] are the Protobuf library. *)

From S2P Require Import Prelude GoStd Tags Dataplane MeshResources Validators AccessLog AccessLogEntry CoreXds AccessLogs DataplaneSync Sds EnvoyTags.
Local Open Scope Z_scope.

(** ** Messages *)

(** *** Clusters and endpoints *)

(** [ClusterInfo] of types.go. *)
Record ClusterInfo : Type := mkClusterInfo { ci_Name : string; ci_Weight : Z; ci_Tags : tag_map }.

(** [envoy_metadata] is the map of filter metadata, of string fields. *)
Record LbEndpoint : Type := mkLbEndpoint {
  lbe_Metadata : option (gmap string (gmap string string));
  lbe_Address : Address;
}.
Record ClusterLoadAssignment : Type := mkClusterLoadAssignment {
  cla_ClusterName : string;
  cla_Endpoints : list (list LbEndpoint);
}.

Inductive DiscoveryType : Type := STATIC | EDS | ORIGINAL_DST.
Inductive LbPolicy : Type := ROUND_ROBIN | CLUSTER_PROVIDED.

Record EnvoyHealthCheck : Type := mkEnvoyHealthCheck {
  ehc_Interval : option Duration;
  ehc_Timeout : option Duration;
  ehc_UnhealthyThreshold : Z;
  ehc_HealthyThreshold : Z;
}.
Record OutlierDetection : Type := mkOutlierDetection { od_Interval : option Duration; od_Consecutive5xx : Z }.

Record TransportSocket : Type := mkTransportSocket { ts_Name : string; ts_TypedConfig : string }.

(** [cl_EdsFromAds] says that endpoints come from the aggregated stream. *)
Record Cluster : Type := mkCluster {
  cl_Name : string;
  cl_AltStatName : string;
  cl_ConnectTimeout : Duration;
  cl_Type : DiscoveryType;
  cl_EdsFromAds : bool;
  cl_LbPolicy : LbPolicy;
  cl_LoadAssignment : option ClusterLoadAssignment;
  cl_TransportSocket : option TransportSocket;
  cl_HealthChecks : list EnvoyHealthCheck;
  cl_OutlierDetection : option OutlierDetection;
}.

(** *** Routes *)

Inductive ClusterSpecifier : Type :=
| ToCluster (name : string)
| ToWeightedClusters (clusters : list (string * Z)).
Record RouteAction : Type := mkRouteAction { ra_Cluster : ClusterSpecifier; ra_PrefixRewrite : string }.
Record Route : Type := mkRoute { route_Prefix : string; route_Action : RouteAction }.
Record VirtualHost : Type := mkVirtualHost {
  vh_Name : string;
  vh_Domains : list string;
  vh_Routes : list Route;
}.
Record RouteConfiguration : Type := mkRouteConfiguration {
  rc_Name : string;
  rc_ValidateClusters : option bool;
  rc_RequestHeadersToAdd : list (string * string);
  rc_RequestHeadersToRemove : list string;
  rc_VirtualHosts : list VirtualHost;
}.

(** *** TLS *)

Record GoogleGrpc : Type := mkGoogleGrpc {
  gg_TargetUri : string;
  gg_StatPrefix : string;
  gg_RootCerts : string;
  gg_CallCredentials : list (string * string);
  gg_CredentialsFactoryName : string;
}.
Record SdsSecretConfig : Type := mkSdsSecretConfig { ssc_Name : string; ssc_GoogleGrpc : GoogleGrpc }.
Record CommonTlsContext : Type := mkCommonTlsContext {
  ctc_ValidationContext : SdsSecretConfig;
  ctc_TlsCertificates : list SdsSecretConfig;
}.

(** *** Filters *)

Inductive RouteSpecifier : Type :=
| RouteConfig (config : RouteConfiguration)
| Rds (routeConfigName : string).   (* from the aggregated stream *)
Record HttpFilter : Type := mkHttpFilter { hf_Name : string; hf_TypedConfig : option string }.
Record HttpConnectionManager : Type := mkHcm {
  hcm_StatPrefix : string;
  hcm_HttpFilters : list HttpFilter;
  hcm_RouteSpecifier : option RouteSpecifier;
  hcm_Tracing : option (option Double);   (* with the overall sampling *)
  hcm_AccessLog : list (option EnvoyAccessLog);
}.
Record TcpProxy : Type := mkTcpProxy {
  tcpp_StatPrefix : string;
  tcpp_Cluster : ClusterSpecifier;
  tcpp_AccessLog : list (option EnvoyAccessLog);
}.

Inductive Principal : Type := PrincipalAny | PrincipalExact (name : string).
Inductive RbacPermission : Type := PermissionAny.
Record RbacPolicy : Type := mkRbacPolicy { pol_Permissions : list RbacPermission; pol_Principals : list Principal }.
Inductive RbacAction : Type := RBAC_ALLOW | RBAC_DENY.
Record RBAC : Type := mkRBAC {
  rbac_Action : RbacAction;
  rbac_Policies : gmap string RbacPolicy;
  rbac_StatPrefix : string;
}.

Inductive Denominator : Type := HUNDRED | TEN_THOUSAND | MILLION.
Record FractionalPercent : Type := mkFractionalPercent { fp_Numerator : Z; fp_Denominator : Denominator }.
Record EnvoyFaultDelay : Type := mkEnvoyFaultDelay { efd_FixedDelay : option Duration; efd_Percentage : FractionalPercent }.
Record EnvoyFaultAbort : Type := mkEnvoyFaultAbort { efa_HttpStatus : Z; efa_Percentage : FractionalPercent }.
Record FaultRateLimit : Type := mkFaultRateLimit { frl_LimitKbps : Z; frl_Percentage : FractionalPercent }.
Record HeaderMatcher : Type := mkHeaderMatcher { hm_Name : string; hm_Regex : string; hm_MaxProgramSize : Z }.
Record HTTPFault : Type := mkHTTPFault {
  hf_Delay : option EnvoyFaultDelay;
  hf_Abort : option EnvoyFaultAbort;
  hf_Headers : list HeaderMatcher;
  hf_ResponseRateLimit : option FaultRateLimit;
}.

(** *** Listeners *)

Record NetworkFilter : Type := mkFilter { flt_Name : string; flt_TypedConfig : option string }.
Record FilterChain : Type := mkFilterChain {
  fc_Filters : list NetworkFilter;
  fc_TransportSocket : option TransportSocket;
}.
Inductive TrafficDirection : Type := UNSPECIFIED | INBOUND | OUTBOUND.
Record Listener : Type := mkListener {
  ln_Name : string;
  ln_TrafficDirection : TrafficDirection;
  ln_Address : option Address;
  ln_FilterChains : list FilterChain;
  ln_UseOriginalDst : option bool;
  ln_BindToPort : option bool;   (* of DeprecatedV1 *)
}.

(** *** What is packed into an Any *)

Inductive Message : Type :=
| MHttpConnectionManager (m : HttpConnectionManager)
| MTcpProxy (m : TcpProxy)
| MRBAC (m : RBAC)
| MHTTPFault (m : HTTPFault)
| MDownstreamTlsContext (common : CommonTlsContext) (requireClientCertificate : bool)
| MUpstreamTlsContext (common : CommonTlsContext)
| MFileBasedMetadataConfig (filename : string)
| MAccessLog (m : TypedAccessLog)
| MOther (type value : string).

(** Equality of messages is decidable. *)
#[global] Instance Q_eq_dec : EqDecision QArith_base.Q.
Proof. solve_decision. Defined.
#[global] Instance Double_eq_dec : EqDecision Double.
Proof. solve_decision. Defined.
#[global] Instance Address_eq_dec : EqDecision Address.
Proof. solve_decision. Defined.
#[global] Instance HttpGrpcAccessLogConfig_eq_dec : EqDecision HttpGrpcAccessLogConfig.
Proof. solve_decision. Defined.
#[global] Instance TypedAccessLog_eq_dec : EqDecision TypedAccessLog.
Proof. solve_decision. Defined.
#[global] Instance EnvoyAccessLog_eq_dec : EqDecision EnvoyAccessLog.
Proof. solve_decision. Defined.
#[global] Instance LbEndpoint_eq_dec : EqDecision LbEndpoint.
Proof. solve_decision. Defined.
#[global] Instance ClusterLoadAssignment_eq_dec : EqDecision ClusterLoadAssignment.
Proof. solve_decision. Defined.
#[global] Instance DiscoveryType_eq_dec : EqDecision DiscoveryType.
Proof. solve_decision. Defined.
#[global] Instance LbPolicy_eq_dec : EqDecision LbPolicy.
Proof. solve_decision. Defined.
#[global] Instance EnvoyHealthCheck_eq_dec : EqDecision EnvoyHealthCheck.
Proof. solve_decision. Defined.
#[global] Instance OutlierDetection_eq_dec : EqDecision OutlierDetection.
Proof. solve_decision. Defined.
#[global] Instance TransportSocket_eq_dec : EqDecision TransportSocket.
Proof. solve_decision. Defined.
#[global] Instance Cluster_eq_dec : EqDecision Cluster.
Proof. solve_decision. Defined.
#[global] Instance ClusterSpecifier_eq_dec : EqDecision ClusterSpecifier.
Proof. solve_decision. Defined.
#[global] Instance RouteAction_eq_dec : EqDecision RouteAction.
Proof. solve_decision. Defined.
#[global] Instance Route_eq_dec : EqDecision Route.
Proof. solve_decision. Defined.
#[global] Instance VirtualHost_eq_dec : EqDecision VirtualHost.
Proof. solve_decision. Defined.
#[global] Instance RouteConfiguration_eq_dec : EqDecision RouteConfiguration.
Proof. solve_decision. Defined.
#[global] Instance GoogleGrpc_eq_dec : EqDecision GoogleGrpc.
Proof. solve_decision. Defined.
#[global] Instance SdsSecretConfig_eq_dec : EqDecision SdsSecretConfig.
Proof. solve_decision. Defined.
#[global] Instance CommonTlsContext_eq_dec : EqDecision CommonTlsContext.
Proof. solve_decision. Defined.
#[global] Instance RouteSpecifier_eq_dec : EqDecision RouteSpecifier.
Proof. solve_decision. Defined.
#[global] Instance HttpFilter_eq_dec : EqDecision HttpFilter.
Proof. solve_decision. Defined.
#[global] Instance HttpConnectionManager_eq_dec : EqDecision HttpConnectionManager.
Proof. solve_decision. Defined.
#[global] Instance TcpProxy_eq_dec : EqDecision TcpProxy.
Proof. solve_decision. Defined.
#[global] Instance Principal_eq_dec : EqDecision Principal.
Proof. solve_decision. Defined.
#[global] Instance RbacPermission_eq_dec : EqDecision RbacPermission.
Proof. solve_decision. Defined.
#[global] Instance RbacPolicy_eq_dec : EqDecision RbacPolicy.
Proof. solve_decision. Defined.
#[global] Instance RbacAction_eq_dec : EqDecision RbacAction.
Proof. solve_decision. Defined.
#[global] Instance RBAC_eq_dec : EqDecision RBAC.
Proof. solve_decision. Defined.
#[global] Instance Denominator_eq_dec : EqDecision Denominator.
Proof. solve_decision. Defined.
#[global] Instance FractionalPercent_eq_dec : EqDecision FractionalPercent.
Proof. solve_decision. Defined.
#[global] Instance EnvoyFaultDelay_eq_dec : EqDecision EnvoyFaultDelay.
Proof. solve_decision. Defined.
#[global] Instance EnvoyFaultAbort_eq_dec : EqDecision EnvoyFaultAbort.
Proof. solve_decision. Defined.
#[global] Instance FaultRateLimit_eq_dec : EqDecision FaultRateLimit.
Proof. solve_decision. Defined.
#[global] Instance HeaderMatcher_eq_dec : EqDecision HeaderMatcher.
Proof. solve_decision. Defined.
#[global] Instance HTTPFault_eq_dec : EqDecision HTTPFault.
Proof. solve_decision. Defined.
#[global] Instance NetworkFilter_eq_dec : EqDecision NetworkFilter.
Proof. solve_decision. Defined.
#[global] Instance FilterChain_eq_dec : EqDecision FilterChain.
Proof. solve_decision. Defined.
#[global] Instance TrafficDirection_eq_dec : EqDecision TrafficDirection.
Proof. solve_decision. Defined.
#[global] Instance Listener_eq_dec : EqDecision Listener.
Proof. solve_decision. Defined.
#[global] Instance Message_eq_dec : EqDecision Message.
Proof. solve_decision. Defined.

(** [ptypes.MarshalAny] and [ptypes.UnmarshalAny]; an encoding is decoded to the
    message it was made from. *)
Class AnyCodec : Type := {
  MarshalAny : Message → goerror + string;
  UnmarshalAny : string → goerror + Message;
}.
Class LawfulAny `{AnyCodec} : Prop := {
  unmarshal_marshal m a : MarshalAny m = inr a → UnmarshalAny a = inr m;
}.

(** A codec that numbers the messages of a list, and packs no other. *)
Fixpoint ticks (n : nat) : string := match n with O => "" | S n => String "." (ticks n) end.
Definition table_codec (l : list Message) : AnyCodec :=
  {| MarshalAny m := match list_find (m =.) l with
                     | Some (i, _) => inr (ticks i) | None => inl (Errorf "cannot marshal" []) end;
     UnmarshalAny a := match l !! String.length a with
                       | Some m => inr m | None => inl (Errorf "cannot unmarshal" []) end |}.
Lemma table_codec_lawful l : @LawfulAny (table_codec l).
Proof.
  constructor. intros m a. simpl. destruct (list_find (m =.) l) as [[i m']|] eqn:E; [|done]. intros [= <-].
  apply list_find_Some in E as (Hi & <- & _).
  assert (String.length (ticks i) = i) as ->; [|by rewrite Hi]. clear. induction i; simpl; congruence.
Qed.

(** The error of a call is returned as it is. *)
Definition or_return {A B} (x : goerror + A) (k : A → res B) : res B :=
  match x with inl e => Err e | inr a => k a end.

(** ** SanitizeMetric *)

(** The number of bytes that follow the first byte of a rune, as
    [utf8.DecodeRune] reads it: none for a byte that starts no valid encoding. *)
Definition byte_in (lo hi : N) (c : option ascii) : bool :=
  match c with
  | Some c => (lo <=? N_of_ascii c)%N && (N_of_ascii c <=? hi)%N
  | None => false
  end.
Definition rune_tail (c : ascii) (s : string) : nat :=
  let b := N_of_ascii c in
  let next i := String.get i s in
  let tail i := byte_in 128 191 (next i) in
  if (b <? 194)%N then 0
  else if (b <? 224)%N then if tail 0%nat then 1 else 0
  else if (b <? 240)%N then
    let lo := if (b =? 224)%N then 160%N else 128%N in
    let hi := if (b =? 237)%N then 159%N else 191%N in
    if byte_in lo hi (next 0%nat) && tail 1%nat then 2 else 0
  else if (b <? 245)%N then
    let lo := if (b =? 240)%N then 144%N else 128%N in
    let hi := if (b =? 244)%N then 143%N else 191%N in
    if byte_in lo hi (next 0%nat) && tail 1%nat && tail 2%nat then 3 else 0
  else 0.

(** The characters of [[a-zA-Z_\-0-9]]. *)
Definition metric_char (c : ascii) : bool :=
  let b := N_of_ascii c in
  ((97 <=? b) && (b <=? 122) || (65 <=? b) && (b <=? 90) || (b =? 95) || (b =? 45) || (48 <=? b) && (b <=? 57))%N.

(** Every other rune becomes an underscore; [skip] bytes belong to the last one. *)
Fixpoint sanitize (skip : nat) (s : string) : string :=
  match s with
  | EmptyString => EmptyString
  | String c s =>
      match skip with
      | S skip => sanitize skip s
      | O => if metric_char c then String c (sanitize 0 s) else String "_" (sanitize (rune_tail c s) s)
      end
  end.
Definition SanitizeMetric (metric : string) : string := sanitize 0 metric.

(** ** names/resource_names.go *)

Definition GetLocalClusterName (port : Z) : string := "localhost:" +:+ format_uint port.
Definition GetInboundListenerName (address : string) (port : Z) : string :=
  "inbound:" +:+ address +:+ ":" +:+ format_uint port.
Definition GetOutboundListenerName (address : string) (port : Z) : string :=
  "outbound:" +:+ address +:+ ":" +:+ format_uint port.
Definition GetInboundRouteName (service : string) : string := "inbound:" +:+ service.
Definition GetOutboundRouteName (service : string) : string := "outbound:" +:+ service.
Definition GetEnvoyAdminClusterName : string := "kuma:envoy:admin".
Definition GetPrometheusListenerName : string := "kuma:metrics:prometheus".

Definition GetDestinationClusterName (service : string) (selector : tag_map) : string :=
  let pairs := (λ kv, kv.1 +:+ "=" +:+ kv.2)
                 <$> List.filter (λ kv, negb (String.eqb kv.1 ServiceTag)) (map_to_list selector) in
  match pairs with
  | [] => service
  | _ => service +:+ "{" +:+ join "," (sort_strings pairs) +:+ "}"
  end.

(** ** endpoints.go *)

Definition CreateStaticEndpoint (clusterName address : string) (port : Z) : ClusterLoadAssignment :=
  mkClusterLoadAssignment clusterName [[mkLbEndpoint None (SocketAddress address port)]].

Definition CreateLbMetadata (tags : tag_map) : option (gmap string (gmap string string)) :=
  if decide (tags = ∅) then None else Some {["envoy.lb" := tags]}.

Definition CreateClusterLoadAssignment (clusterName : string) (endpoints : list Endpoint) : ClusterLoadAssignment :=
  mkClusterLoadAssignment clusterName
    [(λ ep, mkLbEndpoint (CreateLbMetadata (ep_Tags ep)) (SocketAddress (ep_Target ep) (ep_Port ep))) <$> endpoints].

(** ** tls.go *)

Definition fileBasedMetadata : string := "envoy.grpc_credentials.file_based_metadata".
Definition tlsSocket : string := "envoy.transport_sockets.tls".

Section Builders.
Context `{AnyCodec}.

(** [withCallCredentials] of [sdsSecretConfig]. *)
Definition withCallCredentials (metadata : option DataplaneMetadata) (grpc : GoogleGrpc) : res GoogleGrpc :=
  let path := GetDataplaneTokenPath metadata in
  if String.eqb path "" then Ok grpc
  else or_return (MarshalAny (MFileBasedMetadataConfig path)) (λ typedConfig,
    Ok (mkGoogleGrpc (gg_TargetUri grpc) (gg_StatPrefix grpc) (gg_RootCerts grpc)
          (gg_CallCredentials grpc ++ [(fileBasedMetadata, typedConfig)]) fileBasedMetadata)).

(** The control plane of the context is a pointer. *)
Definition sdsSecretConfig (context : XdsContext) (name : string) (metadata : option DataplaneMetadata)
    : res SdsSecretConfig :=
  match ctx_ControlPlane context with
  | None => Panic
  | Some cp =>
      let? googleGrpc := withCallCredentials metadata
        (mkGoogleGrpc (cpc_SdsLocation cp) (SanitizeMetric ("sds_" +:+ name)) (cpc_SdsTlsCert cp) [] "") in
      Ok (mkSdsSecretConfig name googleGrpc)
  end.

Definition CreateCommonTlsContext (ctx : XdsContext) (metadata : option DataplaneMetadata) : res CommonTlsContext :=
  let? meshCaSecret := sdsSecretConfig ctx MeshCaResource metadata in
  let? identitySecret := sdsSecretConfig ctx IdentityCertResource metadata in
  Ok (mkCommonTlsContext meshCaSecret [identitySecret]).

Definition CreateDownstreamTlsContext (ctx : XdsContext) (metadata : option DataplaneMetadata) : res (option Message) :=
  if negb (MTLSEnabled (Some (ctx_Mesh ctx))) then Ok None
  else
    let? commonTlsContext := CreateCommonTlsContext ctx metadata in
    Ok (Some (MDownstreamTlsContext commonTlsContext true)).

Definition CreateUpstreamTlsContext (ctx : XdsContext) (metadata : option DataplaneMetadata) : res (option Message) :=
  if negb (MTLSEnabled (Some (ctx_Mesh ctx))) then Ok None
  else
    let? commonTlsContext := CreateCommonTlsContext ctx metadata in
    Ok (Some (MUpstreamTlsContext commonTlsContext)).

(** ** clusters.go *)

Definition defaultConnectTimeout : Duration := mkDuration 5 0.

Definition set_AltStatName (name : string) (c : Cluster) : Cluster :=
  mkCluster (cl_Name c) name (cl_ConnectTimeout c) (cl_Type c) (cl_EdsFromAds c) (cl_LbPolicy c)
    (cl_LoadAssignment c) (cl_TransportSocket c) (cl_HealthChecks c) (cl_OutlierDetection c).
Definition set_TransportSocket (socket : TransportSocket) (c : Cluster) : Cluster :=
  mkCluster (cl_Name c) (cl_AltStatName c) (cl_ConnectTimeout c) (cl_Type c) (cl_EdsFromAds c) (cl_LbPolicy c)
    (cl_LoadAssignment c) (Some socket) (cl_HealthChecks c) (cl_OutlierDetection c).
Definition add_HealthCheck (hc : EnvoyHealthCheck) (c : Cluster) : Cluster :=
  mkCluster (cl_Name c) (cl_AltStatName c) (cl_ConnectTimeout c) (cl_Type c) (cl_EdsFromAds c) (cl_LbPolicy c)
    (cl_LoadAssignment c) (cl_TransportSocket c) (cl_HealthChecks c ++ [hc]) (cl_OutlierDetection c).
Definition set_OutlierDetection (od : OutlierDetection) (c : Cluster) : Cluster :=
  mkCluster (cl_Name c) (cl_AltStatName c) (cl_ConnectTimeout c) (cl_Type c) (cl_EdsFromAds c) (cl_LbPolicy c)
    (cl_LoadAssignment c) (cl_TransportSocket c) (cl_HealthChecks c) (Some od).

Definition clusterWithAltStatName (cluster : Cluster) : Cluster :=
  let sanitizedName := SanitizeMetric (cl_Name cluster) in
  if negb (String.eqb sanitizedName (cl_Name cluster)) then set_AltStatName sanitizedName cluster else cluster.

Definition CreateLocalCluster (clusterName address : string) (port : Z) : Cluster :=
  clusterWithAltStatName
    (mkCluster clusterName "" defaultConnectTimeout STATIC false ROUND_ROBIN
       (Some (CreateStaticEndpoint clusterName address port)) None [] None).

Definition CreateEdsCluster (ctx : XdsContext) (clusterName : string) (metadata : option DataplaneMetadata) : res Cluster :=
  let? tlsContext := CreateUpstreamTlsContext ctx metadata in
  let cluster := clusterWithAltStatName
    (mkCluster clusterName "" defaultConnectTimeout EDS true ROUND_ROBIN None None [] None) in
  match tlsContext with
  | Some tlsContext =>
      or_return (MarshalAny tlsContext) (λ pbst, Ok (set_TransportSocket (mkTransportSocket tlsSocket pbst) cluster))
  | None => Ok cluster
  end.

(** [HasActiveChecks] and [HasPassiveChecks] compare the messages with empty
    ones; see [Validators]. *)
Definition ClusterWithHealthChecks (cluster : Cluster) (healthCheck : option HealthCheckResource) : Cluster :=
  match healthCheck with
  | None => cluster
  | Some healthCheck =>
      let cluster :=
        match hc_Conf (r_Spec healthCheck) ≫= hc_ActiveChecks with
        | Some activeChecks =>
            if HasActiveChecks healthCheck
            then add_HealthCheck (mkEnvoyHealthCheck (ac_Interval activeChecks) (ac_Timeout activeChecks)
                   (ac_UnhealthyThreshold activeChecks) (ac_HealthyThreshold activeChecks)) cluster
            else cluster
        | None => cluster
        end in
      match hc_Conf (r_Spec healthCheck) ≫= hc_PassiveChecks with
      | Some passiveChecks =>
          if HasPassiveChecks healthCheck
          then set_OutlierDetection (mkOutlierDetection (pc_PenaltyInterval passiveChecks)
                 (pc_UnhealthyThreshold passiveChecks)) cluster
          else cluster
      | None => cluster
      end
  end.

Definition CreatePassThroughCluster (clusterName : string) : Cluster :=
  clusterWithAltStatName
    (mkCluster clusterName "" defaultConnectTimeout ORIGINAL_DST false CLUSTER_PROVIDED None None [] None).
End Builders.

(** ** Builders

    The builders of routes, filter chains and listeners have the same shape: a
    list of configurers, each of which changes one aspect of a message or fails.
    An option adds configurers to the end of the list. *)

Section Builder.
Context {M : Type}.

Definition Configurer : Type := M → res M.
Definition BuilderConfig : Type := list Configurer.
Definition BuilderOpt : Type := BuilderConfig → BuilderConfig.

Definition Config_Add (configurer : Configurer) (config : BuilderConfig) : BuilderConfig := config ++ [configurer].
Definition Builder_Configure (b : BuilderConfig) (opts : list BuilderOpt) : BuilderConfig :=
  foldl (λ b opt, opt b) b opts.
Definition Builder_Build (zero : M) (b : BuilderConfig) : res M := rfoldl (λ m configurer, configurer m) zero b.

Lemma Build_Add zero b c : Builder_Build zero (Config_Add c b) = rbind (Builder_Build zero b) c.
Proof.
  unfold Builder_Build, Config_Add. revert zero. induction b as [|c' b IH]; intros zero; simpl; [by destruct (c zero)|].
  destruct (c' zero); simpl; [apply IH|done|done].
Qed.

Lemma Configure_app b opts opts' : Builder_Configure b (opts ++ opts') = Builder_Configure (Builder_Configure b opts) opts'.
Proof. unfold Builder_Configure. by rewrite foldl_app. Qed.
End Builder.
Arguments Configurer M : clear implicits.
Arguments BuilderConfig M : clear implicits.
Arguments BuilderOpt M : clear implicits.

(** *** routes/virtual_host_builder.go *)

Definition VirtualHostBuilder : Type := BuilderConfig VirtualHost.
Definition VirtualHostBuilderOpt : Type := BuilderOpt VirtualHost.
Definition NewVirtualHostBuilder : VirtualHostBuilder := [].
Definition VirtualHostBuilder_Configure (b : VirtualHostBuilder) (opts : list VirtualHostBuilderOpt) : VirtualHostBuilder :=
  Builder_Configure b opts.
Definition VirtualHostBuilder_Build (b : VirtualHostBuilder) : res VirtualHost :=
  Builder_Build (mkVirtualHost "" [] []) b.

Definition CommonVirtualHost (name : string) : VirtualHostBuilderOpt :=
  Config_Add (λ vh, Ok (mkVirtualHost name ["*"] (vh_Routes vh))).

Definition routeAction (clusters : list ClusterInfo) : RouteAction :=
  mkRouteAction
    (match clusters with
     | [cluster] => ToCluster (ci_Name cluster)
     | _ => ToWeightedClusters ((λ cluster, (ci_Name cluster, ci_Weight cluster)) <$> clusters)
     end) "".

Definition DefaultRoute (clusters : list ClusterInfo) : VirtualHostBuilderOpt :=
  Config_Add (λ vh, Ok (mkVirtualHost (vh_Name vh) (vh_Domains vh) (vh_Routes vh ++ [mkRoute "/" (routeAction clusters)]))).

(** *** routes/route_configuration_builder.go *)

Definition RouteConfigurationBuilder : Type := BuilderConfig RouteConfiguration.
Definition RouteConfigurationBuilderOpt : Type := BuilderOpt RouteConfiguration.
Definition NewRouteConfigurationBuilder : RouteConfigurationBuilder := [].
Definition RouteConfigurationBuilder_Configure (b : RouteConfigurationBuilder) (opts : list RouteConfigurationBuilderOpt)
  : RouteConfigurationBuilder := Builder_Configure b opts.
Definition RouteConfigurationBuilder_Build (b : RouteConfigurationBuilder) : res RouteConfiguration :=
  Builder_Build (mkRouteConfiguration "" None [] [] []) b.

Definition CommonRouteConfiguration (name : string) : RouteConfigurationBuilderOpt :=
  Config_Add (λ rc, Ok (mkRouteConfiguration name (Some true) (rc_RequestHeadersToAdd rc)
    (rc_RequestHeadersToRemove rc) (rc_VirtualHosts rc))).

Definition TagsHeaderName : string := "x-kuma-tags".

Definition TagsHeader (tags : MultiValueTagSet) : RouteConfigurationBuilderOpt :=
  Config_Add (λ rc,
    if decide (tags = ∅) then Ok rc
    else Ok (mkRouteConfiguration (rc_Name rc) (rc_ValidateClusters rc)
               (rc_RequestHeadersToAdd rc ++ [(TagsHeaderName, Serialize tags)])
               (rc_RequestHeadersToRemove rc) (rc_VirtualHosts rc))).

Definition ResetTagsHeader : RouteConfigurationBuilderOpt :=
  Config_Add (λ rc, Ok (mkRouteConfiguration (rc_Name rc) (rc_ValidateClusters rc) (rc_RequestHeadersToAdd rc)
    (rc_RequestHeadersToRemove rc ++ [TagsHeaderName]) (rc_VirtualHosts rc))).

Definition VirtualHostOpt (builder : VirtualHostBuilder) : RouteConfigurationBuilderOpt :=
  Config_Add (λ rc,
    let? virtualHost := VirtualHostBuilder_Build builder in
    Ok (mkRouteConfiguration (rc_Name rc) (rc_ValidateClusters rc) (rc_RequestHeadersToAdd rc)
          (rc_RequestHeadersToRemove rc) (rc_VirtualHosts rc ++ [virtualHost]))).

(** ** Properties *)

Lemma SanitizeMetric_example :
  SanitizeMetric "some metric with chars :/_-0123{version=3.0}" = "some_metric_with_chars____-0123_version_3_0_".
Proof. reflexivity. Qed.

Lemma sanitize_chars s n : all_bytes metric_char (sanitize n s) = true.
Proof.
  revert n; induction s as [|c s IH]; intros [|n]; simpl; try done.
  destruct (metric_char c) eqn:E; simpl; rewrite ?E, IH; done.
Qed.

(** A name that needs no change is kept. *)
Lemma sanitize_id s : all_bytes metric_char s = true → SanitizeMetric s = s.
Proof.
  unfold SanitizeMetric. induction s as [|c s IH]; simpl; [done|]. intros [Hc Hs]%andb_true_iff. by rewrite Hc, IH.
Qed.

(** *** Names of destination clusters *)

Definition other_tags (selector : tag_map) : list (string * string) :=
  List.filter (λ kv, negb (String.eqb kv.1 ServiceTag)) (map_to_list selector).

Lemma other_tags_elem sel k v : (k, v) ∈ other_tags sel ↔ sel !! k = Some v ∧ k ≠ ServiceTag.
Proof.
  unfold other_tags. rewrite list_elem_of_In, filter_In, <- list_elem_of_In, elem_of_map_to_list. simpl.
  rewrite negb_true_iff, String.eqb_neq. done.
Qed.

Lemma byte_split c s t s' t' :
  has_byte c s = false → has_byte c s' = false → s +:+ String c t = s' +:+ String c t' → s = s' ∧ t = t'.
Proof.
  intros Hs Hs' Heq. pose proof (byte_index_app s c t Hs) as Hi. rewrite Heq, byte_index_app in Hi by done.
  injection Hi as Hl. assert (s = s') as ->.
  { rewrite <- (stake_app s (String c t)), Heq, <- Hl. by rewrite stake_app. }
  split; [done|]. pose proof (sdrop_app_S s' c t) as H1. by rewrite Heq, sdrop_app_S in H1.
Qed.

Lemma split_join l : l ≠ [] → Forall (λ x, has_byte "," x = false) l → split_all "," (join "," l) = l.
Proof.
  induction l as [|x [|y l] IH]; intros Hne Hl; [done|..].
  - apply Forall_cons in Hl as [Hx _]. by apply split_all_none.
  - apply Forall_cons in Hl as [Hx Hl]. change (join "," (x :: y :: l)) with (x +:+ String "," (join "," (y :: l))).
    rewrite split_all_app by done. f_equal. by apply IH.
Qed.

Definition pair_text (kv : string * string) : string := kv.1 +:+ "=" +:+ kv.2.

Lemma pair_text_plain kv c :
  all_bytes tag_char kv.1 = true → all_bytes tag_char kv.2 = true → tag_char c = false → c ≠ "="%char →
  has_byte c (pair_text kv) = false.
Proof.
  intros Hk Hv Hc Hne. unfold pair_text. rewrite has_byte_app, (plain_no_byte c kv.1) by done.
  change ("=" +:+ kv.2) with (String "=" kv.2). cbn [has_byte orb]. rewrite (plain_no_byte c kv.2), orb_false_r by done.
  apply Ascii.eqb_neq. congruence.
Qed.

(** The tags of a selector are texts of the characters that are allowed. *)
Definition chars_ok (sel : tag_map) : Prop :=
  ∀ k v, sel !! k = Some v → all_bytes tag_char k = true ∧ all_bytes tag_char v = true.

Definition other_pairs (sel : tag_map) : list string := sort_strings (pair_text <$> other_tags sel).

Lemma other_pairs_elem sel x : x ∈ other_pairs sel ↔ ∃ k v, x = pair_text (k, v) ∧ sel !! k = Some v ∧ k ≠ ServiceTag.
Proof.
  unfold other_pairs, sort_strings. rewrite sort_by_perm, list_elem_of_fmap. split.
  - intros ([k v] & -> & Hin%other_tags_elem). eauto.
  - intros (k & v & -> & Hin). exists (k, v). split; [done|]. by apply other_tags_elem.
Qed.

Lemma other_pairs_plain sel c : chars_ok sel → tag_char c = false → c ≠ "="%char →
  Forall (λ x, has_byte c x = false) (other_pairs sel).
Proof.
  intros Hok Hc Hne. apply Forall_forall. intros x (k & v & -> & Hkv & _)%other_pairs_elem.
  destruct (Hok k v Hkv). by apply pair_text_plain.
Qed.

Lemma name_text service sel :
  GetDestinationClusterName service sel
  = match other_pairs sel with [] => service | _ => service +:+ String "{" (join "," (other_pairs sel) +:+ "}") end.
Proof.
  unfold GetDestinationClusterName. fold (other_tags sel). change (λ kv : string * string, kv.1 +:+ "=" +:+ kv.2) with pair_text.
  unfold other_pairs at 1. pose proof (sort_by_perm (λ s : string, s) (pair_text <$> other_tags sel)) as Hp.
  fold (sort_strings (pair_text <$> other_tags sel)) in Hp.
  destruct (pair_text <$> other_tags sel) as [|x l] eqn:E.
  - apply Permutation_nil_r in Hp. by rewrite Hp.
  - unfold other_pairs. rewrite E. destruct (sort_strings (x :: l)) eqn:E'; [|done].
    apply Permutation_nil_l in Hp. done.
Qed.

Lemma other_pairs_inj service service' sel sel' :
  has_byte "{" service = false → has_byte "{" service' = false → chars_ok sel → chars_ok sel' →
  GetDestinationClusterName service sel = GetDestinationClusterName service' sel' →
  service = service' ∧ other_pairs sel = other_pairs sel'.
Proof.
  intros Hs Hs' Hok Hok'. rewrite !name_text.
  pose proof (other_pairs_plain sel "," Hok eq_refl ltac:(done)) as Hp.
  pose proof (other_pairs_plain sel' "," Hok' eq_refl ltac:(done)) as Hp'.
  destruct (other_pairs sel) as [|x l] eqn:E; destruct (other_pairs sel') as [|x' l'] eqn:E'; [done|..].
  - intros ->. rewrite has_byte_app in Hs. simpl in Hs. by rewrite orb_true_r in Hs.
  - intros <-. rewrite has_byte_app in Hs'. simpl in Hs'. by rewrite orb_true_r in Hs'.
  - intros [-> Hj]%byte_split; [|done..]. split; [done|]. apply (f_equal (λ s, split_all "," (stake (String.length s - 1) s))) in Hj.
    cbv beta in Hj. rewrite !string_length_app in Hj. cbn [String.length] in Hj. rewrite !Nat.add_sub, !stake_app in Hj.
    by rewrite !split_join in Hj.
Qed.

(** Names of destination clusters are unambiguous: for tags of the characters
    that are allowed, two destinations with the same cluster name have the same
    tags. *)
Theorem GetDestinationClusterName_inj service service' sel sel' :
  sel !! ServiceTag = Some service → sel' !! ServiceTag = Some service' → chars_ok sel → chars_ok sel' →
  GetDestinationClusterName service sel = GetDestinationClusterName service' sel' → sel = sel'.
Proof.
  intros Hsel Hsel' Hok Hok' Heq.
  destruct (Hok _ _ Hsel) as [_ Hc]. destruct (Hok' _ _ Hsel') as [_ Hc'].
  apply other_pairs_inj in Heq as [-> Hpairs]; [|by apply plain_no_byte..|done|done].
  assert (∀ m m', chars_ok m → chars_ok m' → other_pairs m = other_pairs m' →
    ∀ k v, k ≠ ServiceTag → m !! k = Some v → m' !! k = Some v) as Hsub.
  { intros m m' Hm Hm' Hp k v Hk Hkv. assert (pair_text (k, v) ∈ other_pairs m) as Hin by (apply other_pairs_elem; eauto).
    rewrite Hp in Hin. apply other_pairs_elem in Hin as (k' & v' & Hx & Hkv' & _).
    destruct (Hm k v Hkv), (Hm' k' v' Hkv'). unfold pair_text in Hx. simpl in Hx.
    apply byte_split in Hx as [-> ->]; [done|by apply plain_no_byte..]. }
  apply map_eq. intros k. destruct (decide (k = ServiceTag)) as [->|Hk]; [congruence|].
  destruct (sel !! k) as [v|] eqn:E.
  - symmetry. eapply (Hsub sel sel'); done.
  - destruct (sel' !! k) as [v|] eqn:E'; [|done]. by rewrite (Hsub sel' sel Hok' Hok (eq_sym Hpairs) k v Hk E') in E.
Qed.
