(* ===== verification/EnvoyCodec.v ===== *)
(** * A codec for the messages of Envoy

    The laws that the generators assume of the Protobuf library can hold for every
    message at once: messages are countable, so each has a number, and a number has
    a text.  The witnesses use this codec where a run must be able to pack
    everything. *)

From Stdlib Require Import QArith.
From S2P Require Import Prelude GoStd Tags Dataplane MeshResources AccessLog AccessLogEntry AccessLogs Envoy.

(** ** Messages are countable *)

#[global] Instance Q_countable : Countable Q.
Proof. refine (inj_countable' (λ q, (Qnum q, Qden q)) (λ p, Qmake p.1 p.2) _). by intros []. Defined.
#[global] Instance Double_countable : Countable Double.
Proof. refine (inj_countable' (λ x, match x with Finite q => inl q | NaN => inr 0%nat | PosInf => inr 1%nat | NegInf => inr 2%nat end)
    (λ p, match p with inl q => Finite q | inr 0%nat => NaN | inr 1%nat => PosInf | inr _ => NegInf end) _). by intros []. Defined.
#[global] Instance Duration_countable : Countable Duration.
Proof. refine (inj_countable' (λ x, (seconds x, nanos x)) (λ p, mkDuration (p.1) (p.2)) _). by intros []. Defined.
#[global] Instance HttpGrpcAccessLogConfig_countable : Countable HttpGrpcAccessLogConfig.
Proof. refine (inj_countable' (λ x, (http_CommonConfig x, AdditionalRequestHeadersToLog x, AdditionalResponseHeadersToLog x, AdditionalResponseTrailersToLog x)) (λ p, mkHttpConfig (p.1.1.1) (p.1.1.2) (p.1.2) (p.2)) _). by intros []. Defined.
#[global] Instance TypedAccessLog_countable : Countable TypedAccessLog.
Proof. refine (inj_countable' (λ x, match x with HttpGrpcAccessLog a b c => inl (a, b, c) | FileAccessLog a b => inr (a, b) end)
    (λ p, match p with inl (a, b, c) => HttpGrpcAccessLog a b c | inr (a, b) => FileAccessLog a b end) _). by intros []. Defined.
#[global] Instance EnvoyAccessLog_countable : Countable EnvoyAccessLog.
Proof. refine (inj_countable' (λ x, (eal_Name x, eal_TypedConfig x)) (λ p, mkEnvoyAccessLog (p.1) (p.2)) _). by intros []. Defined.
#[global] Instance ClusterSpecifier_countable : Countable ClusterSpecifier.
Proof. refine (inj_countable' (λ x, match x with ToCluster n => inl n | ToWeightedClusters l => inr l end)
    (λ p, match p with inl n => ToCluster n | inr l => ToWeightedClusters l end) _). by intros []. Defined.
#[global] Instance RouteAction_countable : Countable RouteAction.
Proof. refine (inj_countable' (λ x, (ra_Cluster x, ra_PrefixRewrite x)) (λ p, mkRouteAction (p.1) (p.2)) _). by intros []. Defined.
#[global] Instance Route_countable : Countable Route.
Proof. refine (inj_countable' (λ x, (route_Prefix x, route_Action x)) (λ p, mkRoute (p.1) (p.2)) _). by intros []. Defined.
#[global] Instance VirtualHost_countable : Countable VirtualHost.
Proof. refine (inj_countable' (λ x, (vh_Name x, vh_Domains x, vh_Routes x)) (λ p, mkVirtualHost (p.1.1) (p.1.2) (p.2)) _). by intros []. Defined.
#[global] Instance RouteConfiguration_countable : Countable RouteConfiguration.
Proof. refine (inj_countable' (λ x, (rc_Name x, rc_ValidateClusters x, rc_RequestHeadersToAdd x, rc_RequestHeadersToRemove x, rc_VirtualHosts x)) (λ p, mkRouteConfiguration (p.1.1.1.1) (p.1.1.1.2) (p.1.1.2) (p.1.2) (p.2)) _). by intros []. Defined.
#[global] Instance GoogleGrpc_countable : Countable GoogleGrpc.
Proof. refine (inj_countable' (λ x, (gg_TargetUri x, gg_StatPrefix x, gg_RootCerts x, gg_CallCredentials x, gg_CredentialsFactoryName x)) (λ p, mkGoogleGrpc (p.1.1.1.1) (p.1.1.1.2) (p.1.1.2) (p.1.2) (p.2)) _). by intros []. Defined.
#[global] Instance SdsSecretConfig_countable : Countable SdsSecretConfig.
Proof. refine (inj_countable' (λ x, (ssc_Name x, ssc_GoogleGrpc x)) (λ p, mkSdsSecretConfig (p.1) (p.2)) _). by intros []. Defined.
#[global] Instance CommonTlsContext_countable : Countable CommonTlsContext.
Proof. refine (inj_countable' (λ x, (ctc_ValidationContext x, ctc_TlsCertificates x)) (λ p, mkCommonTlsContext (p.1) (p.2)) _). by intros []. Defined.
#[global] Instance RouteSpecifier_countable : Countable RouteSpecifier.
Proof. refine (inj_countable' (λ x, match x with RouteConfig c => inl c | Rds n => inr n end)
    (λ p, match p with inl c => RouteConfig c | inr n => Rds n end) _). by intros []. Defined.
#[global] Instance HttpFilter_countable : Countable HttpFilter.
Proof. refine (inj_countable' (λ x, (hf_Name x, hf_TypedConfig x)) (λ p, mkHttpFilter (p.1) (p.2)) _). by intros []. Defined.
#[global] Instance HttpConnectionManager_countable : Countable HttpConnectionManager.
Proof. refine (inj_countable' (λ x, (hcm_StatPrefix x, hcm_HttpFilters x, hcm_RouteSpecifier x, hcm_Tracing x, hcm_AccessLog x)) (λ p, mkHcm (p.1.1.1.1) (p.1.1.1.2) (p.1.1.2) (p.1.2) (p.2)) _). by intros []. Defined.
#[global] Instance TcpProxy_countable : Countable TcpProxy.
Proof. refine (inj_countable' (λ x, (tcpp_StatPrefix x, tcpp_Cluster x, tcpp_AccessLog x)) (λ p, mkTcpProxy (p.1.1) (p.1.2) (p.2)) _). by intros []. Defined.
#[global] Instance Principal_countable : Countable Principal.
Proof. refine (inj_countable' (λ x, match x with PrincipalAny => None | PrincipalExact n => Some n end)
    (λ p, match p with None => PrincipalAny | Some n => PrincipalExact n end) _). by intros []. Defined.
#[global] Instance RbacPermission_countable : Countable RbacPermission.
Proof. refine (inj_countable' (λ x, match x with PermissionAny => () end)
    (λ p, match p with () => PermissionAny end) _). by intros []. Defined.
#[global] Instance RbacPolicy_countable : Countable RbacPolicy.
Proof. refine (inj_countable' (λ x, (pol_Permissions x, pol_Principals x)) (λ p, mkRbacPolicy (p.1) (p.2)) _). by intros []. Defined.
#[global] Instance RbacAction_countable : Countable RbacAction.
Proof. refine (inj_countable' (λ x, match x with RBAC_ALLOW => true | RBAC_DENY => false end)
    (λ p, match p with true => RBAC_ALLOW | false => RBAC_DENY end) _). by intros []. Defined.
#[global] Instance RBAC_countable : Countable RBAC.
Proof. refine (inj_countable' (λ x, (rbac_Action x, rbac_Policies x, rbac_StatPrefix x)) (λ p, mkRBAC (p.1.1) (p.1.2) (p.2)) _). by intros []. Defined.
#[global] Instance Denominator_countable : Countable Denominator.
Proof. refine (inj_countable' (λ x, match x with HUNDRED => 0%nat | TEN_THOUSAND => 1%nat | MILLION => 2%nat end)
    (λ p, match p with 0%nat => HUNDRED | 1%nat => TEN_THOUSAND | _ => MILLION end) _). by intros []. Defined.
#[global] Instance FractionalPercent_countable : Countable FractionalPercent.
Proof. refine (inj_countable' (λ x, (fp_Numerator x, fp_Denominator x)) (λ p, mkFractionalPercent (p.1) (p.2)) _). by intros []. Defined.
#[global] Instance EnvoyFaultDelay_countable : Countable EnvoyFaultDelay.
Proof. refine (inj_countable' (λ x, (efd_FixedDelay x, efd_Percentage x)) (λ p, mkEnvoyFaultDelay (p.1) (p.2)) _). by intros []. Defined.
#[global] Instance EnvoyFaultAbort_countable : Countable EnvoyFaultAbort.
Proof. refine (inj_countable' (λ x, (efa_HttpStatus x, efa_Percentage x)) (λ p, mkEnvoyFaultAbort (p.1) (p.2)) _). by intros []. Defined.
#[global] Instance FaultRateLimit_countable : Countable FaultRateLimit.
Proof. refine (inj_countable' (λ x, (frl_LimitKbps x, frl_Percentage x)) (λ p, mkFaultRateLimit (p.1) (p.2)) _). by intros []. Defined.
#[global] Instance HeaderMatcher_countable : Countable HeaderMatcher.
Proof. refine (inj_countable' (λ x, (hm_Name x, hm_Regex x, hm_MaxProgramSize x)) (λ p, mkHeaderMatcher (p.1.1) (p.1.2) (p.2)) _). by intros []. Defined.
#[global] Instance HTTPFault_countable : Countable HTTPFault.
Proof. refine (inj_countable' (λ x, (hf_Delay x, hf_Abort x, hf_Headers x, hf_ResponseRateLimit x)) (λ p, mkHTTPFault (p.1.1.1) (p.1.1.2) (p.1.2) (p.2)) _). by intros []. Defined.
#[global] Instance Message_countable : Countable Message.
Proof. refine (inj_countable' (λ x, match x with
    | MHttpConnectionManager m => inl (inl (inl m)) | MTcpProxy m => inl (inl (inr m))
    | MRBAC m => inl (inr (inl m)) | MHTTPFault m => inl (inr (inr m))
    | MDownstreamTlsContext c b => inr (inl (inl (c, b))) | MUpstreamTlsContext c => inr (inl (inr c))
    | MFileBasedMetadataConfig f => inr (inr (inl (inl f))) | MAccessLog m => inr (inr (inl (inr m)))
    | MOther t v => inr (inr (inr (t, v))) end)
    (λ p, match p with
    | inl (inl (inl m)) => MHttpConnectionManager m | inl (inl (inr m)) => MTcpProxy m
    | inl (inr (inl m)) => MRBAC m | inl (inr (inr m)) => MHTTPFault m
    | inr (inl (inl (c, b))) => MDownstreamTlsContext c b | inr (inl (inr c)) => MUpstreamTlsContext c
    | inr (inr (inl (inl f))) => MFileBasedMetadataConfig f | inr (inr (inl (inr m))) => MAccessLog m
    | inr (inr (inr (t, v))) => MOther t v end) _). by intros []. Defined.

(** ** Numbers as texts *)

Fixpoint bits (p : positive) : string :=
  match p with xH => "" | xO p => String "0" (bits p) | xI p => String "1" (bits p) end.
Fixpoint of_bits (s : string) : positive :=
  match s with
  | EmptyString => xH
  | String c s => if Ascii.eqb c "0" then xO (of_bits s) else xI (of_bits s)
  end.

Lemma of_bits_bits p : of_bits (bits p) = p.
Proof. induction p as [p IH|p IH|]; simpl; by rewrite ?IH. Qed.

(** ** The codec *)

Definition full_codec : AnyCodec :=
  {| MarshalAny m := inr (bits (encode m));
     UnmarshalAny a := match decode (of_bits a) with
                       | Some m => inr m | None => inl (Errorf "cannot unmarshal" []) end |}.

#[global] Instance full_codec_lawful : @LawfulAny full_codec.
Proof. constructor. intros m a [= <-]. simpl. by rewrite of_bits_bits, decode_encode. Qed.

Lemma full_codec_packs m : ∃ a, @MarshalAny full_codec m = inr a.
Proof. by eexists. Qed.
