(* ===== verification/EnvoyListeners.v ===== *)
(** * Envoy listeners

    Models [pkg/xds/envoy/listeners]: the conversions of [util.go], filter chains
    and listeners, and every option their builders have.

    A [float64] is a dyadic rational, NaN or an infinity, as in [MeshResources];
    products are rounded to 53 bits, to even on ties. *)

From Stdlib Require Import QArith.
From S2P Require Import Prelude GoStd Tags Dataplane Policy MeshResources Validators AccessLogEntry CoreXds AccessLogs DataplaneSync EnvoyTags Envoy.
Local Open Scope Z_scope.

(** ** util.go: conversions *)

Definition round53 (n : Z) : Z :=
  let s := Z.log2 (Z.abs n) - 52 in
  if s <=? 0 then n
  else
    let q := n / 2 ^ s in
    let r := n mod 2 ^ s in
    let half := 2 ^ (s - 1) in
    (if (half <? r) || (r =? half) && Z.odd q then q + 1 else q) * 2 ^ s.

(** The product of a positive integer with a [float64]. *)
Definition double_mul (k : Z) (x : Double) : Double :=
  match x with
  | Finite q =>
      let n := round53 (k * Qnum q) in
      if 2 ^ 1024 * Zpos (Qden q) <=? Z.abs n then (if n <? 0 then NegInf else PosInf) else Finite (Qmake n (Qden q))
  | _ => x
  end.

(** [math.Floor(f) == f]. *)
Definition isInteger (x : Double) : bool :=
  match x with
  | Finite q => Qnum q mod Zpos (Qden q) =? 0
  | PosInf | NegInf => true
  | NaN => false
  end.

(** [math.Round]: half away from zero. *)
Definition math_Round (x : Double) : Double :=
  match x with
  | Finite q =>
      let n := Qnum q in
      let d := Zpos (Qden q) in
      Finite (inject_Z (Z.sgn n * ((2 * Z.abs n + d) / (2 * d))))
  | _ => x
  end.

Section Conversions.
(** What the conversion of a [float64] out of range to a [uint32] gives, which the
    language leaves open. *)
Context (uint32_out_of_range : Double → Z).

(** [uint32(f)]: truncation. *)
Definition to_uint32 (x : Double) : Z :=
  match x with
  | Finite q =>
      let t := Z.quot (Qnum q) (Zpos (Qden q)) in
      if (0 <=? t) && (t <? 2 ^ 32) then t else uint32_out_of_range x
  | _ => uint32_out_of_range x
  end.

Definition ConvertPercentage (percentage : option Double) : FractionalPercent :=
  let value := default (Finite 0) percentage in
  if isInteger value then mkFractionalPercent (to_uint32 value) HUNDRED
  else
    let tenThousandTimes := double_mul 10000 value in
    if isInteger tenThousandTimes then mkFractionalPercent (to_uint32 tenThousandTimes) TEN_THOUSAND
    else mkFractionalPercent (to_uint32 (math_Round (double_mul 1000000 value))) MILLION.

(** *** The bandwidth: digits, a space, a unit *)

Definition is_digit (c : ascii) : bool := if digit_val c is Some _ then true else false.
(** [\s] of RE2. *)
Definition is_re_space (c : ascii) : bool :=
  let b := N_of_ascii c in ((b =? 9) || (b =? 10) || (b =? 12) || (b =? 13) || (b =? 32))%N.
Definition is_gmk (c : ascii) : bool := Ascii.eqb c "g" || Ascii.eqb c "m" || Ascii.eqb c "k".

(** The unit at the start of a text. *)
Definition match_units (s : string) : option string :=
  match s with
  | String c r =>
      if is_gmk c then (if has_prefix "bps" r then Some (String c "bps") else None)
      else if has_prefix "bps" s then Some "bps" else None
  | EmptyString => None
  end.
(** A match at the start of a text: no two parts of the expression share a first
    character, so there is one way to match at most. *)
Definition match_bandwidth (s : string) : option (string * string) :=
  let (digits, rest) := span is_digit s in
  let rest := match rest with String c r => if is_re_space c then r else rest | EmptyString => rest end in
  units ← match_units rest; Some (digits, units).
(** [FindStringSubmatch]: the leftmost match. *)
Fixpoint find_bandwidth (s : string) : option (string * string) :=
  match match_bandwidth s with
  | Some m => Some m
  | None => match s with String _ s => find_bandwidth s | EmptyString => None end
  end.

Definition unsupportedUnit : goerror := Errorf "unsupported unit type" [].

Definition ConvertBandwidthToKbps (bandwidth : string) : res Z :=
  match find_bandwidth bandwidth with
  | None => Panic
  | Some (digits, units) =>
      let? value := atoi digits in
      let? factor :=
        string_switch units [("kbps", Ok 1); ("mbps", Ok 1000); ("gbps", Ok 1000000)] (Err unsupportedUnit) in
      Ok (wrap_int (factor * value) mod 2 ^ 64)
  end.

(** ** Filter chains *)

Definition RoleBasedAccessControl : string := "envoy.filters.network.rbac".
Definition HTTPConnectionManager : string := "envoy.http_connection_manager".
Definition TCPProxy : string := "envoy.tcp_proxy".
Definition Router : string := "envoy.router".
Definition Fault : string := "envoy.fault".

(** *** filter_chain_builder.go *)

Definition FilterChainBuilder : Type := BuilderConfig FilterChain.
Definition FilterChainBuilderOpt : Type := BuilderOpt FilterChain.
Definition NewFilterChainBuilder : FilterChainBuilder := [].
Definition FilterChainBuilder_Configure (b : FilterChainBuilder) (opts : list FilterChainBuilderOpt) : FilterChainBuilder :=
  Builder_Configure b opts.
Definition FilterChainBuilder_Build (b : FilterChainBuilder) : res FilterChain :=
  Builder_Build (mkFilterChain [] None) b.

Context `{AnyCodec}.
(** [%T] of a message. *)
Context (type_of : Message → string).

(** *** util.go: changing a filter *)

Definition NewUnexpectedFilterConfigTypeError (actual : Message) (expected : string) : goerror :=
  Errorf "filter config has unexpected type: expected %T, got %T" [AStr expected; AStr (type_of actual)].

(** The loop of [UpdateFilterConfig], from filter [i]. *)
Fixpoint update_filters (filterName : string) (updateFunc : Message → res Message) (i : Z)
    (filters : list NetworkFilter) : res (list NetworkFilter) :=
  match filters with
  | [] => Ok []
  | filter :: rest =>
      let? filter' :=
        (if String.eqb (flt_Name filter) filterName then
           match flt_TypedConfig filter with
           | None => Err (Errorf "filters[%d]: config cannot be 'nil'" [AInt i])
           | Some config =>
               or_return (UnmarshalAny config) (λ message,
                 let? message := updateFunc message in
                 or_return (MarshalAny message) (λ pbst, Ok (mkFilter (flt_Name filter) (Some pbst))))
           end
         else Ok filter) in
      let? rest' := update_filters filterName updateFunc (i + 1) rest in
      Ok (filter' :: rest')
  end.

Definition UpdateFilterConfig (filterName : string) (updateFunc : Message → res Message) : Configurer FilterChain :=
  λ filterChain,
    let? filters := update_filters filterName updateFunc 0 (fc_Filters filterChain) in
    Ok (mkFilterChain filters (fc_TransportSocket filterChain)).

Definition hcm_type : string := "*envoy_config_filter_network_http_connection_manager_v2.HttpConnectionManager".
Definition tcp_type : string := "*envoy_config_filter_network_tcp_proxy_v2.TcpProxy".

Definition UpdateHTTPConnectionManager (updateFunc : HttpConnectionManager → HttpConnectionManager) : Configurer FilterChain :=
  UpdateFilterConfig HTTPConnectionManager (λ filterConfig,
    match filterConfig with
    | MHttpConnectionManager hcm => Ok (MHttpConnectionManager (updateFunc hcm))
    | _ => Err (NewUnexpectedFilterConfigTypeError filterConfig hcm_type)
    end).

Definition UpdateTCPProxy (updateFunc : TcpProxy → TcpProxy) : Configurer FilterChain :=
  UpdateFilterConfig TCPProxy (λ filterConfig,
    match filterConfig with
    | MTcpProxy tcpProxy => Ok (MTcpProxy (updateFunc tcpProxy))
    | _ => Err (NewUnexpectedFilterConfigTypeError filterConfig tcp_type)
    end).

(** [filterChain.Filters = append(filterChain.Filters, ...)]. *)
Definition append_filter (name : string) (config : Message) : Configurer FilterChain := λ filterChain,
  or_return (MarshalAny config) (λ pbst,
    Ok (mkFilterChain (fc_Filters filterChain ++ [mkFilter name (Some pbst)]) (fc_TransportSocket filterChain))).

(** *** http_connection_manager_configurer.go, prometheus_endpoint_configurer.go *)

Definition HttpConnectionManagerOpt (statsName : string) : FilterChainBuilderOpt :=
  Config_Add (append_filter HTTPConnectionManager
    (MHttpConnectionManager (mkHcm (SanitizeMetric statsName) [mkHttpFilter Router None] None None []))).

Definition PrometheusEndpoint (statsName path clusterName : string) : FilterChainBuilderOpt :=
  Config_Add (append_filter HTTPConnectionManager
    (MHttpConnectionManager
       (mkHcm (SanitizeMetric statsName) [mkHttpFilter Router None]
          (Some (RouteConfig (mkRouteConfiguration "" None [] []
             [mkVirtualHost "envoy_admin" ["*"] [mkRoute path (mkRouteAction (ToCluster clusterName) "/stats/prometheus")]])))
          None []))).

(** *** tcp_proxy_configurer.go *)

Definition tcpProxy (statsName : string) (clusters : list ClusterInfo) : TcpProxy :=
  mkTcpProxy (SanitizeMetric statsName)
    (match clusters with
     | [cluster] => ToCluster (ci_Name cluster)
     | _ => ToWeightedClusters ((λ cluster, (ci_Name cluster, ci_Weight cluster)) <$> clusters)
     end) [].

Definition TcpProxyOpt (statsName : string) (clusters : list ClusterInfo) : FilterChainBuilderOpt :=
  Config_Add (append_filter TCPProxy (MTcpProxy (tcpProxy statsName clusters))).

(** *** server_mtls_configurer.go *)

Definition ServerSideMTLS (ctx : XdsContext) (metadata : option DataplaneMetadata) : FilterChainBuilderOpt :=
  Config_Add (λ filterChain,
    let? tlsContext := CreateDownstreamTlsContext ctx metadata in
    match tlsContext with
    | Some tlsContext =>
        or_return (MarshalAny tlsContext) (λ pbst,
          Ok (mkFilterChain (fc_Filters filterChain) (Some (mkTransportSocket tlsSocket pbst))))
    | None => Ok filterChain
    end).

(** *** network_rbac_configurer.go *)

Definition createPolicy (permission : TrafficPermissionResource) : RbacPolicy :=
  mkRbacPolicy [PermissionAny]
    ((λ source, let service := default "" (Match source !! ServiceTag) in
        if String.eqb service MatchAllTag then PrincipalAny
        else PrincipalExact ("spiffe://" +:+ GetMesh (r_Meta permission) +:+ "/" +:+ service))
      <$> tp_Sources (r_Spec permission)).

Definition createRbacRule (statsName : string) (permission : option TrafficPermissionResource) : RBAC :=
  mkRBAC RBAC_ALLOW
    (match permission with
     | Some permission => {[GetName (r_Meta permission) := createPolicy permission]}
     | None => ∅
     end)
    (SanitizeMetric statsName +:+ ".").

Definition createRbacFilter (statsName : string) (permission : option TrafficPermissionResource) : res NetworkFilter :=
  or_return (MarshalAny (MRBAC (createRbacRule statsName permission))) (λ rbacMarshalled,
    Ok (mkFilter RoleBasedAccessControl (Some rbacMarshalled))).

Definition NetworkRBAC (statsName : string) (rbacEnabled : bool) (permission : option TrafficPermissionResource)
  : FilterChainBuilderOpt := λ config,
  if rbacEnabled then
    Config_Add (λ filterChain,
      let? filter := createRbacFilter statsName permission in
      Ok (mkFilterChain (filter :: fc_Filters filterChain) (fc_TransportSocket filterChain))) config
  else config.

(** *** tracing_configurer.go *)

Definition TracingOpt (backend : option TracingBackend) : FilterChainBuilderOpt :=
  Config_Add (λ filterChain,
    match backend with
    | None => Ok filterChain
    | Some backend =>
        UpdateHTTPConnectionManager (λ hcm,
          mkHcm (hcm_StatPrefix hcm) (hcm_HttpFilters hcm) (hcm_RouteSpecifier hcm) (Some (tb_Sampling backend))
            (hcm_AccessLog hcm)) filterChain
    end).

(** *** http_inbound_route_configurer.go, http_outbound_route_configurer.go *)

Definition set_RouteSpecifier (rs : RouteSpecifier) (hcm : HttpConnectionManager) : HttpConnectionManager :=
  mkHcm (hcm_StatPrefix hcm) (hcm_HttpFilters hcm) (Some rs) (hcm_Tracing hcm) (hcm_AccessLog hcm).

Definition HttpInboundRoute (service : string) (cluster : ClusterInfo) : FilterChainBuilderOpt :=
  Config_Add (λ filterChain,
    let? routeConfig := RouteConfigurationBuilder_Build
      (RouteConfigurationBuilder_Configure NewRouteConfigurationBuilder
        [CommonRouteConfiguration (GetInboundRouteName service); ResetTagsHeader;
         VirtualHostOpt (VirtualHostBuilder_Configure NewVirtualHostBuilder
           [CommonVirtualHost service; DefaultRoute [cluster]])]) in
    UpdateHTTPConnectionManager (set_RouteSpecifier (RouteConfig routeConfig)) filterChain).

Definition HttpOutboundRoute (routeName : string) : FilterChainBuilderOpt :=
  Config_Add (UpdateHTTPConnectionManager (set_RouteSpecifier (Rds routeName))).

(** *** http_access_log_configurer.go, network_access_log_configurer.go *)

Definition defaultHttpAccessLogFormat : string :=
  "[%START_TIME%] %KUMA_MESH% " +:+ dquote +:+ "%REQ(:METHOD)% %REQ(X-ENVOY-ORIGINAL-PATH?:PATH)% %PROTOCOL%" +:+ dquote
  +:+ " %RESPONSE_CODE% %RESPONSE_FLAGS% %BYTES_RECEIVED% %BYTES_SENT% %DURATION% %RESP(X-ENVOY-UPSTREAM-SERVICE-TIME)% "
  +:+ join " " ((λ operator, dquote +:+ operator +:+ dquote) <$>
        ["%REQ(X-FORWARDED-FOR)%"; "%REQ(USER-AGENT)%"; "%REQ(X-REQUEST-ID)%"; "%REQ(:AUTHORITY)%";
         "%KUMA_SOURCE_SERVICE%"; "%KUMA_DESTINATION_SERVICE%"; "%KUMA_SOURCE_ADDRESS_WITHOUT_PORT%"; "%UPSTREAM_HOST%"])
  +:+ LF.

Definition defaultNetworkAccessLogFormat : string :=
  "[%START_TIME%] %RESPONSE_FLAGS% %KUMA_MESH% %KUMA_SOURCE_ADDRESS_WITHOUT_PORT%(%KUMA_SOURCE_SERVICE%)"
  +:+ "->%UPSTREAM_HOST%(%KUMA_DESTINATION_SERVICE%) took %DURATION%ms, sent %BYTES_SENT% bytes, received: %BYTES_RECEIVED% bytes"
  +:+ LF.

Definition access_log := convertLoggingBackend (λ m, MarshalAny (MAccessLog m)).

Definition HttpAccessLog (mesh sourceService destinationService : string) (backend : option LoggingBackend) (proxy : Proxy)
  : FilterChainBuilderOpt := λ config,
  if backend is Some _ then
    Config_Add (λ filterChain,
      let? accessLog := access_log mesh sourceService destinationService backend proxy defaultHttpAccessLogFormat in
      UpdateHTTPConnectionManager (λ hcm,
        mkHcm (hcm_StatPrefix hcm) (hcm_HttpFilters hcm) (hcm_RouteSpecifier hcm) (hcm_Tracing hcm)
          (hcm_AccessLog hcm ++ [accessLog])) filterChain) config
  else config.

Definition NetworkAccessLog (mesh sourceService destinationService : string) (backend : option LoggingBackend) (proxy : Proxy)
  : FilterChainBuilderOpt := λ config,
  if backend is Some _ then
    Config_Add (λ filterChain,
      let? accessLog := access_log mesh sourceService destinationService backend proxy defaultNetworkAccessLogFormat in
      UpdateTCPProxy (λ tcpProxy,
        mkTcpProxy (tcpp_StatPrefix tcpProxy) (tcpp_Cluster tcpProxy) (tcpp_AccessLog tcpProxy ++ [accessLog])) filterChain)
      config
  else config.

(** *** fault_injection_configurer.go *)

Definition SourceTags (m : FaultInjection) : list tag_map := Match <$> fi_Sources m.

Definition createHeaders (selectors : list tag_map) : HeaderMatcher :=
  mkHeaderMatcher TagsHeaderName (RegexOR (MatchingRegex <$> selectors)) 500.

Definition convertDelay (delay : option Delay) : option EnvoyFaultDelay :=
  (λ delay, mkEnvoyFaultDelay (delay_Value delay) (ConvertPercentage (delay_Percentage delay))) <$> delay.

Definition convertAbort (abort : option FaultAbort) : option EnvoyFaultAbort :=
  (λ abort, mkEnvoyFaultAbort (default 0 (abort_HttpStatus abort)) (ConvertPercentage (abort_Percentage abort))) <$> abort.

Definition convertResponseRateLimit (responseBandwidth : option ResponseBandwidth) : res (option FaultRateLimit) :=
  match responseBandwidth with
  | None => Ok None
  | Some responseBandwidth =>
      let? limitKbps := ConvertBandwidthToKbps (default "" (bw_Limit responseBandwidth)) in
      Ok (Some (mkFaultRateLimit limitKbps (ConvertPercentage (bw_Percentage responseBandwidth))))
  end.

Definition FaultInjectionOpt (faultInjection : option FaultInjection) : FilterChainBuilderOpt :=
  Config_Add (λ filterChain,
    match faultInjection with
    | None => Ok filterChain
    | Some faultInjection =>
        let? rrl := convertResponseRateLimit (fi_Conf faultInjection ≫= fi_ResponseBandwidth) in
        let config := mkHTTPFault (convertDelay (fi_Conf faultInjection ≫= fi_Delay))
          (convertAbort (fi_Conf faultInjection ≫= fi_Abort)) [createHeaders (SourceTags faultInjection)] rrl in
        or_return (MarshalAny (MHTTPFault config)) (λ pbst,
          UpdateHTTPConnectionManager (λ manager,
            mkHcm (hcm_StatPrefix manager) (mkHttpFilter Fault (Some pbst) :: hcm_HttpFilters manager)
              (hcm_RouteSpecifier manager) (hcm_Tracing manager) (hcm_AccessLog manager)) filterChain)
    end).

(** ** Listeners *)

(** *** listener_builder.go *)

Definition ListenerBuilder : Type := BuilderConfig Listener.
Definition ListenerBuilderOpt : Type := BuilderOpt Listener.
Definition NewListenerBuilder : ListenerBuilder := [].
Definition ListenerBuilder_Configure (b : ListenerBuilder) (opts : list ListenerBuilderOpt) : ListenerBuilder :=
  Builder_Configure b opts.
Definition ListenerBuilder_Build (b : ListenerBuilder) : res Listener :=
  Builder_Build (mkListener "" UNSPECIFIED None [] None None) b.

Definition listener_at (direction : TrafficDirection) (listenerName address : string) (port : Z) : ListenerBuilderOpt :=
  Config_Add (λ l, Ok (mkListener listenerName direction (Some (SocketAddress address port)) (ln_FilterChains l)
    (ln_UseOriginalDst l) (ln_BindToPort l))).
Definition InboundListener : string → string → Z → ListenerBuilderOpt := listener_at INBOUND.
Definition OutboundListener : string → string → Z → ListenerBuilderOpt := listener_at OUTBOUND.

Definition FilterChainOpt (builder : FilterChainBuilder) : ListenerBuilderOpt :=
  Config_Add (λ l,
    let? filterChain := FilterChainBuilder_Build builder in
    Ok (mkListener (ln_Name l) (ln_TrafficDirection l) (ln_Address l) (ln_FilterChains l ++ [filterChain])
          (ln_UseOriginalDst l) (ln_BindToPort l))).

Definition OriginalDstForwarder : ListenerBuilderOpt :=
  Config_Add (λ l, Ok (mkListener (ln_Name l) (ln_TrafficDirection l) (ln_Address l) (ln_FilterChains l) (Some true)
    (ln_BindToPort l))).

(** The option gets the redirect port. *)
Definition TransparentProxying (redirectPort : Z) : ListenerBuilderOpt := λ config,
  if negb (redirectPort =? 0) then
    Config_Add (λ l, Ok (mkListener (ln_Name l) (ln_TrafficDirection l) (ln_Address l) (ln_FilterChains l)
      (ln_UseOriginalDst l) (Some false))) config
  else config.
End Conversions.

(** ** Properties of the conversions *)

Lemma round53_error n : 2 ^ 53 * Z.abs (round53 n - n) ≤ Z.abs n.
Proof.
  unfold round53. set (s := Z.log2 (Z.abs n) - 52). destruct (Z.leb_spec s 0) as [_|Hs]; [lia|].
  assert (n ≠ 0) as Hn. { intros ->. simpl in s. lia. }
  pose proof (Z.log2_spec (Z.abs n) ltac:(lia)) as [Hlo _].
  replace (Z.log2 (Z.abs n)) with (53 + (s - 1)) in Hlo by (unfold s; lia). rewrite Z.pow_add_r in Hlo by lia.
  assert (2 ^ s = 2 * 2 ^ (s - 1)) as Hp. { rewrite <- Z.pow_succ_r by lia. f_equal. lia. }
  assert (0 < 2 ^ (s - 1)) by (apply Z.pow_pos_nonneg; lia).
  pose proof (Z.div_mod n (2 ^ s) ltac:(lia)). pose proof (Z.mod_pos_bound n (2 ^ s) ltac:(lia)).
  set (q := n / 2 ^ s) in *. set (r := n mod 2 ^ s) in *. set (h := 2 ^ (s - 1)) in *.
  assert (Z.abs ((if (h <? r) || (r =? h) && Z.odd q then q + 1 else q) * 2 ^ s - n) ≤ h).
  { destruct ((h <? r) || (r =? h) && Z.odd q) eqn:E.
    - apply orb_true_iff in E as [E|[E _]%andb_true_iff]; bool_prop; lia.
    - apply orb_false_iff in E as [E _]. bool_prop. lia. }
  lia.
Qed.

(** The part of the requests a percentage selects. *)
Definition denominator (d : Denominator) : Z := match d with HUNDRED => 100 | TEN_THOUSAND => 10000 | MILLION => 1000000 end.
Definition fraction (p : FractionalPercent) : Q := fp_Numerator p # Z.to_pos (denominator (fp_Denominator p)).

Lemma to_uint32_exact ur q m : Qnum q = m * Zpos (Qden q) → 0 ≤ m < 2 ^ 32 → to_uint32 ur (Finite q) = m.
Proof.
  intros Hq Hm. unfold to_uint32. rewrite Hq, Z.quot_mul by lia.
  destruct (Z.leb_spec 0 m), (Z.ltb_spec m (2 ^ 32)); simpl; lia || done.
Qed.

Lemma double_mul_finite k q :
  Z.abs (k * Qnum q) < 2 ^ 1000 → double_mul k (Finite q) = Finite (Qmake (round53 (k * Qnum q)) (Qden q)).
Proof.
  intros Hb. unfold double_mul. pose proof (round53_error (k * Qnum q)) as He.
  assert (2 ^ 1024 = 2 ^ 24 * 2 ^ 1000) as Hp by reflexivity.
  destruct (Z.leb_spec (2 ^ 1024 * Zpos (Qden q)) (Z.abs (round53 (k * Qnum q)))) as [Hle|]; [|done].
  set (x := k * Qnum q) in *. set (y := round53 x) in *. exfalso.
  assert (2 ^ 1024 ≤ Z.abs y) as Hy.
  { assert (0 < 2 ^ 1024) by (apply Z.pow_pos_nonneg; lia). nia. }
  rewrite Hp in Hy. set (b := 2 ^ 1000) in *. assert (0 < b) by (apply Z.pow_pos_nonneg; lia). clearbody b y x. lia.
Qed.

(** A percentage, multiplied by [k] and rounded to 53 bits. *)
Definition percentage_in_range (q : Q) : Prop := 0 ≤ Qnum q ≤ 100 * Zpos (Qden q) ∧ Qnum q < 2 ^ 900.

Lemma percent_mul k q : 0 < k ≤ 1000000 → percentage_in_range q →
  double_mul k (Finite q) = Finite (Qmake (round53 (k * Qnum q)) (Qden q))
  ∧ 4 * Z.abs (round53 (k * Qnum q) - k * Qnum q) ≤ Zpos (Qden q)
  ∧ 0 ≤ round53 (k * Qnum q) ≤ 200 * k * Zpos (Qden q).
Proof.
  intros Hk [Hq Hb]. split.
  - apply double_mul_finite. assert (2 ^ 1000 = 2 ^ 100 * 2 ^ 900) as -> by reflexivity.
    set (b := 2 ^ 900) in *. assert (1000000 < 2 ^ 100) by (by vm_compute). clearbody b. nia.
  - pose proof (round53_error (k * Qnum q)) as He. set (y := round53 (k * Qnum q)) in *.
    assert (0 ≤ k * Qnum q ≤ 100 * k * Zpos (Qden q)) by nia. assert (k * Zpos (Qden q) ≤ 1000000 * Zpos (Qden q)) by nia.
    split; lia.
Qed.

Lemma quotient_bound m d y b : 0 < d → 0 ≤ y ≤ b * d → m * d = y → 0 ≤ m ≤ b.
Proof.
  intros Hd Hy Hm. split.
  - destruct (Z.le_gt_cases 0 m); [done|]. assert (m * d < 0) by (by apply Z.mul_neg_pos). lia.
  - apply Zmult_le_reg_r with d; lia.
Qed.

Lemma percent_whole ur q : percentage_in_range q → isInteger (Finite q) = true →
  (fraction (mkFractionalPercent (to_uint32 ur (Finite q)) HUNDRED) == q / 100)%Q.
Proof.
  intros [Hq _] Ei. cbn [isInteger] in Ei. bool_prop. apply Z.div_exact in Ei; [|lia].
  set (m := Qnum q / Zpos (Qden q)) in *. assert (0 ≤ m ≤ 100) by (apply (quotient_bound m (Zpos (Qden q)) (Qnum q)); lia).
  rewrite (to_uint32_exact _ _ m) by lia. unfold fraction. cbn [fp_Numerator fp_Denominator denominator].
  destruct q as [n d]. cbn [Qnum Qden] in *. unfold Qeq, Qdiv, Qmult, Qinv. cbn. lia.
Qed.

(** The numerator [m] is the percentage in units of [1/k]. *)
Definition within_unit (k m : Z) (q : Q) : Prop := Z.abs (m * Zpos (Qden q) - k * Qnum q) ≤ Zpos (Qden q).

Lemma percent_exact ur q y k : 0 < k ≤ 1000000 → 0 ≤ y ≤ 200 * k * Zpos (Qden q) →
  4 * Z.abs (y - k * Qnum q) ≤ Zpos (Qden q) → y mod Zpos (Qden q) = 0 →
  within_unit k (to_uint32 ur (Finite (Qmake y (Qden q)))) q.
Proof.
  intros Hk Hy He Em. apply Z.div_exact in Em; [|lia]. set (m := y / Zpos (Qden q)) in *.
  assert (0 ≤ m ≤ 200 * k) by (apply (quotient_bound m (Zpos (Qden q)) y); lia).
  rewrite (to_uint32_exact _ _ m); [|cbn [Qnum Qden]; lia|lia]. unfold within_unit. lia.
Qed.

Lemma percent_rounded ur q y k : 0 < k ≤ 1000000 → 0 ≤ y ≤ 200 * k * Zpos (Qden q) →
  4 * Z.abs (y - k * Qnum q) ≤ Zpos (Qden q) →
  within_unit k (to_uint32 ur (math_Round (Finite (Qmake y (Qden q))))) q.
Proof.
  intros Hk Hy He. cbn [math_Round Qnum Qden]. set (d := Zpos (Qden q)) in *. assert (0 < d) by lia.
  set (m := Z.sgn y * ((2 * Z.abs y + d) / (2 * d))). assert (Z.abs (2 * (m * d) - 2 * y) ≤ d) as Hm.
  { unfold m. destruct (Z.eqb_spec y 0) as [->|]; [change (Z.sgn 0) with 0; lia|]. rewrite Z.sgn_pos, Z.mul_1_l, (Z.abs_eq y) by lia.
    pose proof (Z.div_mod (2 * y + d) (2 * d) ltac:(lia)). pose proof (Z.mod_pos_bound (2 * y + d) (2 * d) ltac:(lia)). lia. }
  assert (-1 < m < 200 * k + 1).
  { split; apply Z.mul_lt_mono_pos_r with d; lia. }
  rewrite (to_uint32_exact _ _ m); [|cbn [Qnum Qden inject_Z]; lia|lia]. unfold within_unit. fold d. lia.
Qed.

(** C15: What part of the requests a fault hits.  A whole percentage [q] is exactly
    [q/100] of the requests.  Any other percentage is within one unit of [q]
    itself: the code multiplies by the denominator without dividing by a hundred,
    so half a percent is half of the requests and anything above one percent is
    all of them. *)
Theorem ConvertPercentage_fraction ur (q : Q) :
  percentage_in_range q →
  let p := ConvertPercentage ur (Some (Finite q)) in
  if isInteger (Finite q) then (fraction p == q / 100)%Q
  else within_unit (denominator (fp_Denominator p)) (fp_Numerator p) q.
Proof.
  intros Hq p. unfold p, ConvertPercentage. cbn [default from_option id].
  destruct (isInteger (Finite q)) eqn:Ei; [by apply percent_whole|].
  destruct (percent_mul 10000 q ltac:(lia) Hq) as (-> & He4 & Hb4).
  destruct (percent_mul 1000000 q ltac:(lia) Hq) as (-> & He6 & Hb6).
  cbn [isInteger Qnum Qden]. destruct (Z.eqb_spec (round53 (10000 * Qnum q) mod Zpos (Qden q)) 0) as [Em|Em].
  - by apply percent_exact.
  - by apply percent_rounded.
Qed.

(** Half a percent, and two and a half percent. *)
Lemma ConvertPercentage_fraction_witness :
  within_unit 10000 5000 (1 # 2)
  ∧ ConvertPercentage (λ _, 0) (Some (Finite (5 # 2))) = mkFractionalPercent 25000 TEN_THOUSAND.
Proof.
  split; [|reflexivity].
  assert (percentage_in_range (1 # 2)) as Hq by (split; [split|]; by vm_compute).
  pose proof (ConvertPercentage_fraction (λ _, 0) (1 # 2) Hq) as Hp. cbv zeta in Hp.
  assert (ConvertPercentage (λ _, 0) (Some (Finite (1 # 2))) = mkFractionalPercent 5000 TEN_THOUSAND) as Heq by reflexivity.
  rewrite Heq in Hp. exact Hp.
Defined.

(** *** Bandwidth limits *)

Lemma match_at_units c s :
  one_of ["g"; "m"; "k"]%char c = true → String.prefix "bps" s = true → match_bandwidth (String c s) = Some ("", String c "bps").
Proof.
  intros Hc Hs. unfold match_bandwidth. cbn [span].
  assert (is_digit c = false ∧ is_re_space c = false ∧ is_gmk c = true) as (-> & Hsp & Hg).
  { unfold one_of in Hc. simpl in Hc. repeat (apply orb_true_iff in Hc as [Hc|Hc]); try done;
      apply Ascii.eqb_eq in Hc as ->; repeat split. }
  rewrite Hsp. simpl. unfold match_units. rewrite Hg. unfold has_prefix. by rewrite Hs.
Qed.

(** A limit that passes validation contains a match. *)
Lemma validated_limit_matches s : matches_limit s = true → is_Some (find_bandwidth s).
Proof.
  induction s as [|c s IH]; [done|]. cbn [matches_limit find_bandwidth]. intros [[Hc Hs]%andb_true_iff|Hs]%orb_true_iff.
  - rewrite match_at_units by done. eauto.
  - destruct (match_bandwidth (String c s)); [eauto|]. by apply IH.
Qed.

Lemma digits_span s t : all_digits s = true → (∀ c r, t = String c r → is_digit c = false) → span is_digit (s +:+ t) = (s, t).
Proof.
  intros Hs Ht. apply span_app.
  - clear -Hs. induction s as [|c s IH]; [done|]. cbn [all_digits] in Hs. cbn [all_bytes]. unfold is_digit at 1.
    destruct (digit_val c); [|done]. by apply IH.
  - destruct t as [|c r]; [done|]. by rewrite (Ht c r).
Qed.

Definition unit_factors : list (string * Z) := [("kbps", 1); ("mbps", 1000); ("gbps", 1000000)].

Lemma find_bandwidth_form n text units :
  0 ≤ n → match_bandwidth (format_uint n +:+ text) = Some (format_uint n, units) →
  find_bandwidth (format_uint n +:+ text) = Some (format_uint n, units).
Proof. intros Hn Hm. destruct (format_uint n +:+ text); cbn [find_bandwidth]; by rewrite Hm. Qed.

(** A limit in the documented form. *)
Lemma ConvertBandwidthToKbps_form n sep units factor :
  0 ≤ n → n * factor < 2 ^ 63 → sep = "" ∨ sep = " " → In (units, factor) unit_factors →
  ConvertBandwidthToKbps (format_uint n +:+ sep +:+ units) = Ok (n * factor).
Proof.
  intros Hn Hf Hsep Hu.
  assert (1 ≤ factor ∧ match_bandwidth (format_uint n +:+ sep +:+ units) = Some (format_uint n, units)
    ∧ string_switch units [("kbps", Ok 1); ("mbps", Ok 1000); ("gbps", Ok 1000000)] (Err unsupportedUnit) = Ok factor)
    as (Hfac & Hm & Hsw).
  { unfold match_bandwidth.
    destruct Hsep as [-> | ->]; repeat (destruct Hu as [[= <- <-]|Hu]); try done;
      (split; [lia|]); (split; [|reflexivity]);
      (rewrite digits_span; [reflexivity|by apply format_uint_digits|by intros c r [= <- <-]]). }
  assert (n < 2 ^ 63) as Hn' by nia.
  assert (atoi (format_uint n) = Ok n) as Ha.
  { pose proof (atoi_itoa n ltac:(lia)) as Ha. unfold itoa in Ha. destruct (Z.ltb_spec n 0); [lia|done]. }
  unfold ConvertBandwidthToKbps. rewrite (find_bandwidth_form n _ units), Ha by done. cbn [rbind]. rewrite Hsw. cbn [rbind].
  f_equal. rewrite wrap_int_id, Z.mod_small by nia. lia.
Qed.

(** Limits of the bandwidth: what the validator accepts never panics, a number
    with a unit is converted to kilobits without overflow below [2^63], and a limit
    without a number, which the validator accepts, is an error. *)
Theorem ConvertBandwidthToKbps_limits :
  (∀ s, matches_limit s = true → ConvertBandwidthToKbps s ≠ Panic)
  ∧ (∀ n sep units factor, 0 ≤ n → n * factor < 2 ^ 63 → sep = "" ∨ sep = " " → In (units, factor) unit_factors →
       ConvertBandwidthToKbps (format_uint n +:+ sep +:+ units) = Ok (n * factor))
  ∧ matches_limit "kbps" = true ∧ ∃ e, ConvertBandwidthToKbps "kbps" = Err e.
Proof.
  split; [|split; [exact ConvertBandwidthToKbps_form|split; [reflexivity|by eexists]]].
  intros s Hs. destruct (validated_limit_matches s Hs) as [[digits units] Hfind].
  unfold ConvertBandwidthToKbps. rewrite Hfind. destruct (atoi digits) eqn:Ea; cbn [rbind]; [|done|].
  - apply string_switch_cases; [done|]. repeat constructor; done.
  - by apply atoi_no_panic in Ea.
Qed.

Lemma ConvertBandwidthToKbps_limits_witness : ConvertBandwidthToKbps "120 mbps" = Ok 120000.
Proof.
  refine (proj1 (proj2 ConvertBandwidthToKbps_limits) 120 " " "mbps" 1000 _ _ _ _);
    [lia|reflexivity|by right|right; by left].
Defined.

(** ** Filter chains as typed messages

    A chain under construction holds packed messages that configurers unpack,
    change and pack again.  The same construction on typed messages is its
    specification: building a chain either gives the packed form of the typed
    chain, or fails as the typed construction does, or fails because some message
    cannot be packed. *)

Record TypedChain : Type := mkTypedChain {
  tc_Filters : list (string * Message);
  tc_TransportSocket : option Message;
}.

Section Typed.
Context `{LawfulAny}.
Context (type_of : Message → string).

Definition filter_view (f : NetworkFilter) (nm : string * Message) : Prop :=
  flt_Name f = nm.1 ∧ ∃ a, flt_TypedConfig f = Some a ∧ UnmarshalAny a = inr nm.2.
Definition socket_view (s : option TransportSocket) (m : option Message) : Prop :=
  match s, m with
  | None, None => True
  | Some s, Some m => ts_Name s = tlsSocket ∧ UnmarshalAny (ts_TypedConfig s) = inr m
  | _, _ => False
  end.
Definition chain_view (fc : FilterChain) (tc : TypedChain) : Prop :=
  Forall2 filter_view (fc_Filters fc) (tc_Filters tc) ∧ socket_view (fc_TransportSocket fc) (tc_TransportSocket tc).

(** Some message cannot be packed. *)
Definition unmarshalable : Prop := ∃ m e, MarshalAny m = inl e.

Definition chain_refines (r : res FilterChain) (r' : res TypedChain) : Prop :=
  match r with
  | Ok fc => ∃ tc, r' = Ok tc ∧ chain_view fc tc
  | Err e => r' = Err e ∨ unmarshalable
  | Panic => r' = Panic
  end.

Definition implements (c : Configurer FilterChain) (g : TypedChain → res TypedChain) : Prop :=
  ∀ fc tc, chain_view fc tc → chain_refines (c fc) (g tc).

Definition t_append (name : string) (m : Message) (tc : TypedChain) : res TypedChain :=
  Ok (mkTypedChain (tc_Filters tc ++ [(name, m)]) (tc_TransportSocket tc)).
Definition t_prepend (name : string) (m : Message) (tc : TypedChain) : res TypedChain :=
  Ok (mkTypedChain ((name, m) :: tc_Filters tc) (tc_TransportSocket tc)).
Definition t_socket (m : Message) (tc : TypedChain) : res TypedChain := Ok (mkTypedChain (tc_Filters tc) (Some m)).
Definition t_update1 (name : string) (f : Message → res Message) (nm : string * Message) : res (string * Message) :=
  if String.eqb nm.1 name then let? m := f nm.2 in Ok (nm.1, m) else Ok nm.
Definition t_update (name : string) (f : Message → res Message) (tc : TypedChain) : res TypedChain :=
  let? filters := rmapM (t_update1 name f) (tc_Filters tc) in
  Ok (mkTypedChain filters (tc_TransportSocket tc)).

Lemma implements_append name m : implements (append_filter name m) (t_append name m).
Proof.
  intros fc tc [Hf Hs]. unfold append_filter, t_append. destruct (MarshalAny m) as [e|a] eqn:Em; simpl; [right; by eexists _, _|].
  eexists. split; [done|]. split; [|done]. simpl. apply Forall2_app; [done|]. constructor; [|done].
  split; [done|]. exists a. split; [done|]. by apply unmarshal_marshal.
Qed.

Lemma update_filters_refines name f i filters typed :
  Forall2 filter_view filters typed →
  match update_filters name f i filters with
  | Ok filters' => ∃ typed', rmapM (t_update1 name f) typed = Ok typed' ∧ Forall2 filter_view filters' typed'
  | Err e => rmapM (t_update1 name f) typed = Err e ∨ unmarshalable
  | Panic => rmapM (t_update1 name f) typed = Panic
  end.
Proof.
  intros Hf. revert i. induction Hf as [|x [n m] filters typed [Hn (a & Ha & Hm)] Hf IH]; intros i; simpl; [eauto|].
  cbn [fst snd] in Hn, Hm. specialize (IH (i + 1)).
  assert (∀ x' n' m', filter_view x' (n', m') →
    match (let? rest' := update_filters name f (i + 1) filters in Ok (x' :: rest')) with
    | Ok filters' => ∃ typed', (let? ys := rmapM (t_update1 name f) typed in Ok ((n', m') :: ys)) = Ok typed'
        ∧ Forall2 filter_view filters' typed'
    | Err e => (let? ys := rmapM (t_update1 name f) typed in Ok ((n', m') :: ys)) = Err e ∨ unmarshalable
    | Panic => (let? ys := rmapM (t_update1 name f) typed in Ok ((n', m') :: ys)) = Panic
    end) as Hrest.
  { intros x' n' m' Hx'. destruct (update_filters name f (i + 1) filters); simpl.
    - destruct IH as (typed' & -> & Ht). simpl. eexists. split; [done|]. by constructor.
    - destruct IH as [-> | Hu]; [by left|by right].
    - by rewrite IH. }
  unfold t_update1 at 1 3 5. cbn [fst snd]. rewrite Hn. destruct (String.eqb n name) eqn:En.
  - rewrite Ha, Hm. simpl. destruct (f m) as [m'|e|]; simpl; [|by left|done].
    destruct (MarshalAny m') as [e|a'] eqn:Em; simpl; [right; by eexists _, _|].
    apply (Hrest (mkFilter n (Some a')) n m'). split; [done|]. exists a'. split; [done|]. by apply unmarshal_marshal.
  - apply (Hrest x n m). split; [done|]. eauto.
Qed.

Lemma implements_update name f : implements (UpdateFilterConfig name f) (t_update name f).
Proof.
  intros fc tc [Hf Hs]. unfold UpdateFilterConfig, t_update.
  pose proof (update_filters_refines name f 0 _ _ Hf) as Hu. destruct (update_filters name f 0 (fc_Filters fc)); simpl.
  - destruct Hu as (typed & -> & Ht). simpl. by eexists.
  - by destruct Hu as [-> | Hu]; [left|right].
  - by rewrite Hu.
Qed.

Lemma implements_id : implements (λ fc, Ok fc) (λ tc, Ok tc).
Proof. intros fc tc Hv. simpl. eauto. Qed.

(** A configurer that computes something first. *)
Lemma implements_bind {A} (r : res A) c g :
  (∀ a, r = Ok a → implements (c a) (g a)) →
  implements (λ fc, let? a := r in c a fc) (λ tc, let? a := r in g a tc).
Proof. intros Hc fc tc Hv. destruct r; simpl; [by apply Hc|by left|done]. Qed.

Lemma implements_or_return m c g :
  (∀ a, MarshalAny m = inr a → implements (c a) (g a)) →
  implements (λ fc, or_return (MarshalAny m) (λ a, c a fc)) (λ tc, or_return (MarshalAny m) (λ a, g a tc)).
Proof. intros Hc fc tc Hv. destruct (MarshalAny m) eqn:E; simpl; [by left|]. by apply Hc. Qed.

Lemma implements_socket m :
  implements (λ fc, or_return (MarshalAny m) (λ pbst, Ok (mkFilterChain (fc_Filters fc) (Some (mkTransportSocket tlsSocket pbst)))))
    (t_socket m).
Proof.
  intros fc tc [Hf _]. destruct (MarshalAny m) as [e|a] eqn:Em; simpl; [right; by eexists _, _|].
  eexists. split; [done|]. split; [done|]. split; [done|]. by apply unmarshal_marshal.
Qed.

(** Building runs the configurers in order. *)
Lemma implements_build cs gs :
  Forall2 implements cs gs →
  chain_refines (Builder_Build (mkFilterChain [] None) cs) (rfoldl (λ tc g, g tc) (mkTypedChain [] None) gs).
Proof.
  assert (∀ fc tc, chain_view fc tc → Forall2 implements cs gs →
    chain_refines (rfoldl (λ m configurer, configurer m) fc cs) (rfoldl (λ tc g, g tc) tc gs)) as Hgen.
  { intros fc tc Hv Hcs. revert fc tc Hv. induction Hcs as [|c g cs gs Hc Hcs IH]; intros fc tc Hv; simpl; [eauto|].
    specialize (Hc fc tc Hv). unfold chain_refines in Hc. destruct (c fc) as [fc'|e|]; simpl.
    - destruct Hc as (tc' & -> & Hv'). simpl. by apply IH.
    - by destruct Hc as [-> | Hu]; [left|right].
    - by rewrite Hc. }
  apply Hgen. split; [constructor|done].
Qed.
End Typed.
