(* ===== verification/Generators.v ===== *)
(** * Generators of Envoy resources

    Models [pkg/xds/generator]: the generators of the predefined profile
    (Prometheus endpoint, transparent proxying, inbound and outbound listeners with
    their clusters, endpoints and routes), the inference of the protocol of a
    service, proxy templates and the raw resources they may hold. *)

From S2P Require Import Prelude GoStd Tags Dataplane Policy MeshResources Validators AccessLog MeshValidator AccessLogEntry CoreXds AccessLogs DataplaneSync Mads EnvoyTags Envoy EnvoyCodec EnvoyListeners.
Local Open Scope Z_scope.

(** ** protocol.go *)

#[global] Instance Protocol_eq_dec : EqDecision Protocol.
Proof. solve_decision. Defined.

Definition protocolStacks (p : Protocol) : option (list Protocol) :=
  match p with
  | ProtocolHTTP => Some [ProtocolHTTP; ProtocolTCP]
  | ProtocolTCP => Some [ProtocolTCP]
  | ProtocolUnknown => None
  end.

Definition getCommonProtocol (one another : Protocol) : Protocol :=
  if decide (one = another) then one
  else if decide (one = ProtocolUnknown) then ProtocolUnknown
  else if decide (another = ProtocolUnknown) then ProtocolUnknown
  else
    match protocolStacks one, protocolStacks another with
    | Some oneProtocolStack, Some anotherProtocolStack =>
        default ProtocolUnknown
          (head (List.filter (λ p, existsb (λ q, bool_decide (p = q)) anotherProtocolStack) oneProtocolStack))
    | _, _ => ProtocolUnknown
    end.

Definition endpoint_protocol (endpoint : Endpoint) : Protocol :=
  ParseProtocol (default "" (ep_Tags endpoint !! ProtocolTag)).

Definition InferServiceProtocol (endpoints : list Endpoint) : Protocol :=
  match endpoints with
  | [] => ProtocolUnknown
  | endpoint :: rest =>
      foldl (λ serviceProtocol endpoint, getCommonProtocol serviceProtocol (endpoint_protocol endpoint))
        (endpoint_protocol endpoint) rest
  end.

(** ** Resources *)

(** The messages that are xDS resources; a raw resource of another type keeps its
    type and encoding. *)
Inductive XdsMessage : Type :=
| XCluster (m : Cluster)
| XClusterLoadAssignment (m : ClusterLoadAssignment)
| XListener (m : Listener)
| XRouteConfiguration (m : RouteConfiguration)
| XOther (type value : string).

Abbreviation GenResource := (@XdsResource XdsMessage).

(** The libraries behind raw resources: YAML to JSON, [jsonpb] on an [Any],
    [ptypes.UnmarshalAny] (without a message when it is no xDS resource) and the
    generated [Validate]; and [proto.MessageName]. *)
Class XdsLibrary : Type := {
  YAMLToJSON : string → goerror + string;
  jsonpb_Unmarshal : string → goerror + string;
  UnmarshalResource : string → goerror + option XdsMessage;
  Message_Validate : XdsMessage → option goerror;
  MessageName : XdsMessage → string;
}.

(** The messages of the four types, and others. *)
Definition message_kind (m : XdsMessage) : envoy_kind :=
  match m with
  | XCluster _ => ECluster | XClusterLoadAssignment _ => EClusterLoadAssignment
  | XListener _ => EListener | XRouteConfiguration _ => ERouteConfiguration | XOther _ _ => EOther
  end.
(** Names tell the types apart. *)
Class LawfulXds `{XdsLibrary} : Prop := {
  message_name_kind m m' : MessageName m = MessageName m' → message_kind m = message_kind m';
}.

(** [pkg/util/envoy/raw.go]. *)
Definition ResourceFromYaml `{XdsLibrary} (resYaml : string) : res XdsMessage :=
  let json := match YAMLToJSON resYaml with inl _ => resYaml | inr json => json end in
  or_return (jsonpb_Unmarshal json) (λ anything,
    or_return (UnmarshalResource anything) (λ dyn,
      match dyn with
      | None => Err (Errorf "xDS resource doesn't implement all required interfaces" [])
      | Some p => match Message_Validate p with Some e => Err e | None => Ok p end
      end)).

Section Generators.
Context `{AnyCodec} `{XdsLibrary} `{ProtoMerge}.
Context (type_of : Message → string) (uint32_out_of_range : Double → Z).

Abbreviation Generator := (XdsContext → Proxy → res (list GenResource)).

Definition proxy_networking (proxy : Proxy) : option Networking := dp_Networking (r_Spec (px_Dataplane proxy)).

(** ** prometheus_endpoint_generator.go *)

Definition IPv4zero : IP := ipv4 0 0 0 0.

Definition PrometheusEndpointGenerator : Generator := λ ctx proxy,
  match GetPrometheusEndpoint (Some (px_Dataplane proxy)) (Some (ctx_Mesh ctx)) with
  | None => Ok []
  | Some prometheusEndpoint =>
      if GetAdminPort (px_Metadata proxy) =? 0 then Ok []
      else if UsesInterface (Some (px_Dataplane proxy)) (Some IPv4zero) (prom_Port prometheusEndpoint) then Ok []
      else
        let adminPort := GetAdminPort (px_Metadata proxy) in
        let? listener := ListenerBuilder_Build (ListenerBuilder_Configure NewListenerBuilder
          [InboundListener GetPrometheusListenerName "0.0.0.0" (prom_Port prometheusEndpoint);
           FilterChainOpt (FilterChainBuilder_Configure NewFilterChainBuilder
             [PrometheusEndpoint GetPrometheusListenerName (prom_Path prometheusEndpoint) GetEnvoyAdminClusterName]);
           TransparentProxying (GetRedirectPort (proxy_networking proxy))]) in
        Ok [mkXdsResource GetEnvoyAdminClusterName ""
              (XCluster (CreateLocalCluster GetEnvoyAdminClusterName "127.0.0.1" adminPort));
            mkXdsResource GetPrometheusListenerName "" (XListener listener)]
  end.

(** ** proxy_template.go: transparent proxying *)

Definition proxy_log (proxy : Proxy) (service : string) : option LoggingBackend := mjoin (px_Logs proxy !! service).

Definition TransparentProxyGenerator : Generator := λ ctx proxy,
  let redirectPort := GetRedirectPort (proxy_networking proxy) in
  if redirectPort =? 0 then Ok []
  else
    let sourceService := GetIdentifyingService (r_Spec (px_Dataplane proxy)) in
    let meshName := GetName (r_Meta (ctx_Mesh ctx)) in
    let? listener := map_err (λ e, Wrapf e "could not generate listener %s" [AStr "catch_all"])
      (ListenerBuilder_Build (ListenerBuilder_Configure NewListenerBuilder
        [OutboundListener "catch_all" "0.0.0.0" redirectPort;
         FilterChainOpt (FilterChainBuilder_Configure NewFilterChainBuilder
           [TcpProxyOpt "pass_through" [mkClusterInfo "pass_through" 0 ∅];
            NetworkAccessLog type_of meshName sourceService "external" (proxy_log proxy PassThroughService) proxy]);
         OriginalDstForwarder])) in
    let version := GetVersion (r_Meta (px_Dataplane proxy)) in
    Ok [mkXdsResource "catch_all" version (XListener listener);
        mkXdsResource "pass_through" version (XCluster (CreatePassThroughCluster "pass_through"))].

(** ** proxy_template.go: inbound *)

Definition listenerError (field : string) (i : nat) (name : string) (e : goerror) : goerror :=
  Wrapf e "%s: could not generate listener %s"
    [AStr (Path_String (Path_Index (Path_Field (Path_Field (RootedAt "dataplane") "networking") field) i)); AStr name].

Definition inbound_chain (ctx : XdsContext) (proxy : Proxy) (iface : Inbound) (endpoint : InboundInterface)
    (inboundListenerName : string) : FilterChainBuilder :=
  let localClusterName := GetLocalClusterName (ii_WorkloadPort endpoint) in
  let cluster := mkClusterInfo localClusterName 0 ∅ in
  let builder :=
    match ParseProtocol (Inbound_GetProtocol iface) with
    | ProtocolHTTP =>
        FilterChainBuilder_Configure NewFilterChainBuilder
          [HttpConnectionManagerOpt localClusterName;
           FaultInjectionOpt uint32_out_of_range type_of (px_FaultInjections proxy !! endpoint);
           TracingOpt type_of (px_TracingBackend proxy);
           HttpInboundRoute type_of (Inbound_GetService iface) cluster]
    | _ => FilterChainBuilder_Configure NewFilterChainBuilder [TcpProxyOpt localClusterName [cluster]]
    end in
  FilterChainBuilder_Configure builder
    [ServerSideMTLS ctx (px_Metadata proxy);
     NetworkRBAC inboundListenerName (MTLSEnabled (Some (ctx_Mesh ctx))) (px_TrafficPermissions proxy !! endpoint)].

Definition inbound_listener (ctx : XdsContext) (proxy : Proxy) (i : nat) (iface : Inbound) (endpoint : InboundInterface)
    : res Listener :=
  let inboundListenerName := GetInboundListenerName (ii_DataplaneIP endpoint) (ii_DataplanePort endpoint) in
  map_err (listenerError "inbound" i inboundListenerName)
    (ListenerBuilder_Build (ListenerBuilder_Configure NewListenerBuilder
       [InboundListener inboundListenerName (ii_DataplaneIP endpoint) (ii_DataplanePort endpoint);
        FilterChainOpt (inbound_chain ctx proxy iface endpoint inboundListenerName);
        TransparentProxying (GetRedirectPort (proxy_networking proxy))])).

Definition resource_add (s : @ResourceSet XdsMessage) (rs : list GenResource) : @ResourceSet XdsMessage :=
  ResourceSet_Add MessageName s rs.

(** The body of the loop of [InboundProxyGenerator.Generate]. *)
Definition inbound_resources (ctx : XdsContext) (proxy : Proxy) (resources : @ResourceSet XdsMessage)
    (ie : nat * InboundInterface) : res (@ResourceSet XdsMessage) :=
  let (i, endpoint) := ie in
  let localClusterName := GetLocalClusterName (ii_WorkloadPort endpoint) in
  let resources := resource_add resources
    [mkXdsResource localClusterName "" (XCluster (CreateLocalCluster localClusterName "127.0.0.1" (ii_WorkloadPort endpoint)))] in
  match GetInbound (proxy_networking proxy) !! i with
  | None => Panic
  | Some iface =>
      let? inboundListener := inbound_listener ctx proxy i iface endpoint in
      Ok (resource_add resources
        [mkXdsResource (GetInboundListenerName (ii_DataplaneIP endpoint) (ii_DataplanePort endpoint)) ""
           (XListener inboundListener)])
  end.

Definition InboundProxyGenerator : Generator := λ ctx proxy,
  let? endpoints := GetInboundInterfaces (proxy_networking proxy) in
  match endpoints with
  | [] => Ok []
  | _ =>
      let? resources := rfoldl (inbound_resources ctx proxy) emptyResourceSet (imap pair endpoints) in
      Ok (ResourceSet_List resources)
  end.

(** ** proxy_template.go: outbound *)

(** [%v] of a map of strings: in the order of the keys. *)
Definition map_text (m : tag_map) : string :=
  "map[" +:+ join " " ((λ k, k +:+ ":" +:+ default "" (m !! k)) <$> SingleValueTagSet_Keys m) +:+ "]".

(** The body of the loop of [determineClusters]. *)
Definition destination_cluster (route : TrafficRouteResource) (clusters : list ClusterInfo) (jd : nat * WeightedDestination)
    : res (list ClusterInfo) :=
  let (j, destination) := jd in
  match wd_Destination destination !! ServiceTag with
  | None =>
      Err (Errorf "trafficroute{name=%q}.%s: mandatory tag %q is missing: %v"
             [AStr (GetName (r_Meta route));
              AStr (Path_String (Path_Field (Path_Index (RootedAt "conf") j) "destination"));
              AStr ServiceTag; AStr (map_text (wd_Destination destination))])
  | Some service =>
      if wd_Weight destination =? 0 then Ok clusters
      else Ok (clusters ++ [mkClusterInfo (GetDestinationClusterName service (wd_Destination destination))
                              (wd_Weight destination) (wd_Destination destination)])
  end.

Definition determineClusters (route : TrafficRouteResource) : res (list ClusterInfo) :=
  rfoldl (destination_cluster route) [] (imap pair (tr_Conf (r_Spec route))).

(** What [generateEds] takes for the endpoints of a cluster. *)
Definition cluster_endpoints (proxy : Proxy) (cluster : ClusterInfo) : list Endpoint :=
  let serviceName := default "" (ci_Tags cluster !! ServiceTag) in
  EndpointList_Filter (default [] (px_OutboundTargets proxy !! serviceName)) (ci_Tags cluster).

Definition eds_resources (ctx : XdsContext) (proxy : Proxy) (acc : list GenResource * list Endpoint) (cluster : ClusterInfo)
    : res (list GenResource * list Endpoint) :=
  let (resources, allEndpoints) := acc in
  let serviceName := default "" (ci_Tags cluster !! ServiceTag) in
  let healthCheck := px_HealthChecks proxy !! serviceName in
  let? edsCluster := CreateEdsCluster ctx (ci_Name cluster) (px_Metadata proxy) in
  let endpoints := cluster_endpoints proxy cluster in
  Ok (resources ++ [mkXdsResource (ci_Name cluster) "" (XCluster (ClusterWithHealthChecks edsCluster healthCheck))]
        ++ [mkXdsResource (ci_Name cluster) ""
              (XClusterLoadAssignment (CreateClusterLoadAssignment (ci_Name cluster) endpoints))],
      allEndpoints ++ endpoints).

Definition generateEds (ctx : XdsContext) (proxy : Proxy) (clusters : list ClusterInfo)
  : res (list GenResource * list Endpoint) := rfoldl (eds_resources ctx proxy) ([], []) clusters.

Definition generateRds (protocol : Protocol) (service outboundRouteName : string) (clusters : list ClusterInfo)
    (tags : MultiValueTagSet) : res (list GenResource) :=
  match protocol with
  | ProtocolHTTP =>
      let? routeConfiguration := RouteConfigurationBuilder_Build
        (RouteConfigurationBuilder_Configure NewRouteConfigurationBuilder
          [CommonRouteConfiguration outboundRouteName; TagsHeader tags;
           VirtualHostOpt (VirtualHostBuilder_Configure NewVirtualHostBuilder
             [CommonVirtualHost service; DefaultRoute clusters])]) in
      Ok (ResourceSet_List (resource_add emptyResourceSet
            [mkXdsResource outboundRouteName "" (XRouteConfiguration routeConfiguration)]))
  | _ => Ok (ResourceSet_List emptyResourceSet)
  end.

Definition outbound_chain (meshName sourceService : string) (proxy : Proxy) (protocol : Protocol) (service : string)
    (clusters : list ClusterInfo) : FilterChainBuilder :=
  match protocol with
  | ProtocolHTTP =>
      FilterChainBuilder_Configure NewFilterChainBuilder
        [HttpConnectionManagerOpt service; TracingOpt type_of (px_TracingBackend proxy);
         HttpAccessLog type_of meshName sourceService service (proxy_log proxy service) proxy;
         HttpOutboundRoute type_of (GetOutboundRouteName service)]
  | _ =>
      FilterChainBuilder_Configure NewFilterChainBuilder
        [TcpProxyOpt service clusters;
         NetworkAccessLog type_of meshName sourceService service (proxy_log proxy service) proxy]
  end.

Definition outbound_listener (ctx : XdsContext) (proxy : Proxy) (i : nat) (protocol : Protocol) (service : string)
    (clusters : list ClusterInfo) (oface : OutboundInterface) : res Listener :=
  let outboundListenerName := GetOutboundListenerName (oi_DataplaneIP oface) (oi_DataplanePort oface) in
  map_err (listenerError "outbound" i outboundListenerName)
    (ListenerBuilder_Build (ListenerBuilder_Configure NewListenerBuilder
       [OutboundListener outboundListenerName (oi_DataplaneIP oface) (oi_DataplanePort oface);
        FilterChainOpt (outbound_chain (GetName (r_Meta (ctx_Mesh ctx)))
          (GetIdentifyingService (r_Spec (px_Dataplane proxy))) proxy protocol service clusters);
        TransparentProxying (GetRedirectPort (proxy_networking proxy))])).

(** The body of the loop of [OutboundProxyGenerator.Generate]. *)
Definition outbound_resources (ctx : XdsContext) (proxy : Proxy) (ofaces : list OutboundInterface)
    (resources : @ResourceSet XdsMessage) (io : nat * Outbound) : res (@ResourceSet XdsMessage) :=
  let (i, outbound) := io in
  let service := out_Service outbound in
  match px_TrafficRoutes proxy !! service with
  | None =>
      Err (Errorf "%s{service=%q}: has no TrafficRoute"
             [AStr (Path_String (Path_Index (Path_Field (Path_Field (RootedAt "dataplane") "networking") "outbound") i));
              AStr service])
  | Some route =>
      let? clusters := determineClusters route in
      let? (edsResources, endpoints) := generateEds ctx proxy clusters in
      let resources := resource_add resources edsResources in
      let protocol := InferServiceProtocol endpoints in
      match ofaces !! i with
      | None => Panic
      | Some oface =>
          let? listener := outbound_listener ctx proxy i protocol service clusters oface in
          let resources := resource_add resources
            [mkXdsResource (GetOutboundListenerName (oi_DataplaneIP oface) (oi_DataplanePort oface)) "" (XListener listener)] in
          let? rdsResources := generateRds protocol service (GetOutboundRouteName service) clusters
            (Dataplane_Tags (r_Spec (px_Dataplane proxy))) in
          Ok (resource_add resources rdsResources)
      end
  end.

Definition OutboundProxyGenerator : Generator := λ ctx proxy,
  match GetOutbound (proxy_networking proxy) with
  | [] => Ok []
  | outbounds =>
      let? ofaces := GetOutboundInterfaces (proxy_networking proxy) in
      let? resources := rfoldl (outbound_resources ctx proxy ofaces) emptyResourceSet (imap pair outbounds) in
      Ok (ResourceSet_List resources)
  end.

(** ** resource_generator.go and the template *)

Definition CompositeResourceGenerator (gens : list Generator) : Generator := λ ctx proxy,
  rfoldl (λ resources gen, let? rs := gen ctx proxy in Ok (resources ++ rs)) [] gens.

Definition NewDefaultProxyProfile : Generator :=
  CompositeResourceGenerator
    [PrometheusEndpointGenerator; TransparentProxyGenerator; InboundProxyGenerator; OutboundProxyGenerator].

Definition predefinedProfiles : gmap string Generator := {[ProfileDefaultProxy := NewDefaultProxyProfile]}.

Definition ProxyTemplateProfileSource (profileName : string) : Generator := λ ctx proxy,
  match predefinedProfiles !! profileName with
  | None => Err (Errorf "profile{name=%q}: unknown profile" [AStr profileName])
  | Some g => g ctx proxy
  end.

Definition ProxyTemplateRawSource (resources : list ProxyTemplateRawResource) : Generator := λ _ _,
  rmapM (λ ir : nat * ProxyTemplateRawResource,
    let (i, r) := ir in
    let? res := map_err (λ e, Errorf "raw.resources[%d]{name=%q}.resource: %s"
                                [AInt (Z.of_nat i); AStr (raw_Name r); AStr (error_string e)])
                  (ResourceFromYaml (raw_Resource r)) in
    Ok (mkXdsResource (raw_Name r) (raw_Version r) res)) (imap pair resources).

(** [TemplateProxyGenerator.Generate]; the template may be nil. *)
Definition TemplateProxyGenerator (template : option ProxyTemplate) : Generator := λ ctx proxy,
  let? imported := rfoldl (λ resources (iname : nat * string),
      let (i, name) := iname in
      let? rs := map_err (λ e, Errorf "imports[%d]{name=%q}: %s" [AInt (Z.of_nat i); AStr name; AStr (error_string e)])
                   (ProxyTemplateProfileSource name ctx proxy) in
      Ok (resources ++ rs)) []
    (imap pair (match template with Some t => pt_Imports t | None => [] end)) in
  let? raw := map_err (λ e, Errorf "resources: %s" [AStr (error_string e)])
    (ProxyTemplateRawSource (match template with Some t => pt_Resources t | None => [] end) ctx proxy) in
  Ok (imported ++ raw).
End Generators.

(** ** The protocol of a service *)

Lemma getCommonProtocol_spec p q :
  (getCommonProtocol p q = ProtocolHTTP ↔ p = ProtocolHTTP ∧ q = ProtocolHTTP)
  ∧ (getCommonProtocol p q = ProtocolUnknown ↔ p = ProtocolUnknown ∨ q = ProtocolUnknown).
Proof. destruct p, q; vm_compute; intuition congruence. Qed.

(** The protocol of a service over its endpoints, in any order: HTTP exactly
    when there is an endpoint and all are tagged HTTP; unknown exactly when there is
    no endpoint or one has no protocol the control plane knows; TCP otherwise. *)
Theorem InferServiceProtocol_spec endpoints :
  (InferServiceProtocol endpoints = ProtocolHTTP ↔
     endpoints ≠ [] ∧ Forall (λ e, endpoint_protocol e = ProtocolHTTP) endpoints)
  ∧ (InferServiceProtocol endpoints = ProtocolUnknown ↔
     endpoints = [] ∨ Exists (λ e, endpoint_protocol e = ProtocolUnknown) endpoints)
  ∧ ∀ endpoints', endpoints ≡ₚ endpoints' → InferServiceProtocol endpoints = InferServiceProtocol endpoints'.
Proof.
  assert (∀ l p, let r := foldl (λ s e, getCommonProtocol s (endpoint_protocol e)) p l in
    (r = ProtocolHTTP ↔ p = ProtocolHTTP ∧ Forall (λ e, endpoint_protocol e = ProtocolHTTP) l)
    ∧ (r = ProtocolUnknown ↔ p = ProtocolUnknown ∨ Exists (λ e, endpoint_protocol e = ProtocolUnknown) l)) as Hfold.
  { induction l as [|e l IH]; intros p; simpl.
    - rewrite Exists_nil. split; [split; [by intros ->|by intros [-> _]]|naive_solver].
    - destruct (IH (getCommonProtocol p (endpoint_protocol e))) as [-> ->].
      destruct (getCommonProtocol_spec p (endpoint_protocol e)) as [-> ->]. rewrite Forall_cons, Exists_cons. tauto. }
  assert (∀ l, (InferServiceProtocol l = ProtocolHTTP ↔ l ≠ [] ∧ Forall (λ e, endpoint_protocol e = ProtocolHTTP) l)
    ∧ (InferServiceProtocol l = ProtocolUnknown ↔ l = [] ∨ Exists (λ e, endpoint_protocol e = ProtocolUnknown) l)) as Hspec.
  { intros [|e l]; simpl; [rewrite Exists_nil; split; [split; [done|by intros [[] _]]|naive_solver]|].
    destruct (Hfold l (endpoint_protocol e)) as [-> ->]. rewrite Forall_cons, Exists_cons. naive_solver. }
  split; [apply Hspec|]. split; [apply Hspec|]. intros l' Hp.
  destruct (Hspec endpoints) as [Hh Hu], (Hspec l') as [Hh' Hu'].
  assert (endpoints = [] ↔ l' = []) as Hnil by (split; intros ->; [by apply Permutation_nil_l in Hp|by apply Permutation_nil_r in Hp]).
  assert (∀ P : Endpoint → Prop, (Forall P endpoints ↔ Forall P l') ∧ (Exists P endpoints ↔ Exists P l')) as Hperm.
  { intros P. split; split; first [by apply Permutation_Forall|by apply Permutation_Exists]. }
  assert (InferServiceProtocol endpoints = ProtocolHTTP ↔ InferServiceProtocol l' = ProtocolHTTP) as Eh.
  { by rewrite Hh, Hh', Hnil, (proj1 (Hperm _)). }
  assert (InferServiceProtocol endpoints = ProtocolUnknown ↔ InferServiceProtocol l' = ProtocolUnknown) as Eu.
  { by rewrite Hu, Hu', Hnil, (proj2 (Hperm _)). }
  destruct (InferServiceProtocol endpoints), (InferServiceProtocol l'); intuition congruence.
Qed.

Lemma InferServiceProtocol_spec_witness :
  InferServiceProtocol [mkEndpoint "10.0.0.1" 80 {[ProtocolTag := "http"]}; mkEndpoint "10.0.0.2" 80 {[ProtocolTag := "tcp"]}]
  = InferServiceProtocol [mkEndpoint "10.0.0.2" 80 {[ProtocolTag := "tcp"]}; mkEndpoint "10.0.0.1" 80 {[ProtocolTag := "http"]}].
Proof. apply InferServiceProtocol_spec. apply Permutation_swap. Defined.

(** ** Resource sets *)

Section Dedup.
Context `{XdsLibrary}.

(** What a resource set keeps of the resources added to it. *)
Definition dedup (rs : list GenResource) : list GenResource := ResourceSet_List (resource_add emptyResourceSet rs).

Lemma dedup_sub rs r : r ∈ dedup rs → r ∈ rs.
Proof. intros Hr. pose proof (ResourceSet_Add_correct MessageName rs) as (_ & Hsub & _). by eapply elem_of_sublist. Qed.

Definition same_type_and_name (r r' : GenResource) : Prop :=
  xr_Name r = xr_Name r' ∧ MessageName (xr_Resource r) = MessageName (xr_Resource r').

Lemma dedup_covers rs r : r ∈ rs → ∃ r', r' ∈ dedup rs ∧ same_type_and_name r r'.
Proof.
  intros Hr. pose proof (ResourceSet_Add_correct MessageName rs) as (_ & _ & _ & Hfirst).
  assert (∀ l, r ∈ l → ∃ l1 r' l2, l = l1 ++ r' :: l2 ∧ xkey MessageName r' = xkey MessageName r
            ∧ xkey MessageName r' ∉ xkey MessageName <$> l1) as Hsplit.
  { clear. induction l as [|x l IH]; [by intros ?%not_elem_of_nil|]. intros Hr.
    destruct (decide (xkey MessageName x = xkey MessageName r)) as [Heq|Hne].
    - exists [], x, l. split; [done|]. split; [done|]. apply not_elem_of_nil.
    - apply elem_of_cons in Hr as [->|Hr]; [done|]. destruct (IH Hr) as (l1 & r' & l2 & -> & Hk & Hn).
      exists (x :: l1), r', l2. split; [done|]. split; [done|]. rewrite fmap_cons. apply not_elem_of_cons. split; [congruence|done]. }
  destruct (Hsplit _ Hr) as (l1 & r' & l2 & Heq & Hk & Hn). exists r'. split; [by apply (Hfirst r' l1 l2)|].
  unfold xkey in Hk. injection Hk as H1 H2. done.
Qed.

(** A loop that adds what each element yields. *)
Lemma rfoldl_add {B} (item : B → res (list GenResource)) step l s :
  (∀ s x, step s x = let? rs := item x in Ok (resource_add s rs)) →
  rfoldl step s l = let? ls := rmapM item l in Ok (resource_add s (mjoin ls)).
Proof.
  intros Hstep. revert s. induction l as [|x l IH]; intros s; simpl; [done|]. rewrite Hstep.
  destruct (item x) as [rs|e|]; simpl; [|done..]. rewrite IH.
  destruct (rmapM item l) as [ls|e|]; simpl; [|done..]. unfold resource_add, ResourceSet_Add. by rewrite foldl_app.
Qed.
End Dedup.

(** ** The chain of an inbound listener *)

Section InboundProps.
Context `{LawfulAny} `{XdsLibrary} `{ProtoMerge}.
Context (type_of : Message → string) (uint32_out_of_range : Double → Z).

(** The fault filter, its configuration packed. *)
Definition fault_config (fi : FaultInjection) : res HTTPFault :=
  let? rrl := convertResponseRateLimit uint32_out_of_range (fi_Conf fi ≫= fi_ResponseBandwidth) in
  Ok (mkHTTPFault (convertDelay uint32_out_of_range (fi_Conf fi ≫= fi_Delay))
        (convertAbort uint32_out_of_range (fi_Conf fi ≫= fi_Abort)) [createHeaders (SourceTags fi)] rrl).
Definition fault_filters (fi : option FaultInjection) : res (list HttpFilter) :=
  match fi with
  | None => Ok []
  | Some fi =>
      let? config := fault_config fi in
      or_return (MarshalAny (MHTTPFault config)) (λ pbst, Ok [mkHttpFilter Fault (Some pbst)])
  end.

(** The application filter of an inbound interface. *)
Definition inbound_routes (service localClusterName : string) : RouteConfiguration :=
  mkRouteConfiguration (GetInboundRouteName service) (Some true) [] [TagsHeaderName]
    [mkVirtualHost service ["*"] [mkRoute "/" (mkRouteAction (ToCluster localClusterName) "")]].
Definition inbound_application (proxy : Proxy) (iface : Inbound) (endpoint : InboundInterface) : res (string * Message) :=
  let localClusterName := GetLocalClusterName (ii_WorkloadPort endpoint) in
  match ParseProtocol (Inbound_GetProtocol iface) with
  | ProtocolHTTP =>
      let? faults := fault_filters (px_FaultInjections proxy !! endpoint) in
      Ok (HTTPConnectionManager, MHttpConnectionManager
        (mkHcm (SanitizeMetric localClusterName) (faults ++ [mkHttpFilter Router None])
           (Some (RouteConfig (inbound_routes (Inbound_GetService iface) localClusterName)))
           (tb_Sampling <$> px_TracingBackend proxy) []))
  | _ => Ok (TCPProxy, MTcpProxy (mkTcpProxy (SanitizeMetric localClusterName) (ToCluster localClusterName) []))
  end.

(** The chain: with mutual TLS, the RBAC filter before everything else. *)
Definition inbound_typed (ctx : XdsContext) (proxy : Proxy) (iface : Inbound) (endpoint : InboundInterface) (name : string)
    : res TypedChain :=
  let? app := inbound_application proxy iface endpoint in
  let? tls := CreateDownstreamTlsContext ctx (px_Metadata proxy) in
  let rbac := if MTLSEnabled (Some (ctx_Mesh ctx))
              then [(RoleBasedAccessControl, MRBAC (createRbacRule name (px_TrafficPermissions proxy !! endpoint)))] else [] in
  Ok (mkTypedChain (rbac ++ [app]) tls).

Lemma implements_rbac name permission :
  implements (λ filterChain, let? filter := createRbacFilter name permission in
                 Ok (mkFilterChain (filter :: fc_Filters filterChain) (fc_TransportSocket filterChain)))
    (t_prepend RoleBasedAccessControl (MRBAC (createRbacRule name permission))).
Proof.
  intros fc tc [Hf Hs]. unfold createRbacFilter. destruct (MarshalAny _) as [e|a] eqn:Em; simpl; [right; by eexists _, _|].
  eexists. split; [done|]. split; [|done]. simpl. constructor; [|done]. split; [done|]. exists a. split; [done|].
  by apply unmarshal_marshal.
Qed.

Definition t_mtls (ctx : XdsContext) (metadata : option DataplaneMetadata) (tc : TypedChain) : res TypedChain :=
  let? tls := CreateDownstreamTlsContext ctx metadata in
  match tls with Some m => t_socket m tc | None => Ok tc end.

Lemma implements_mtls ctx metadata c :
  ServerSideMTLS ctx metadata [] = [c] → implements c (t_mtls ctx metadata).
Proof.
  intros [= <-]. apply implements_bind. intros [m|] _; [apply implements_socket|apply implements_id].
Qed.

(** Updating the connection manager. *)
Definition t_hcm (f : HttpConnectionManager → HttpConnectionManager) : TypedChain → res TypedChain :=
  t_update HTTPConnectionManager (λ filterConfig,
    match filterConfig with
    | MHttpConnectionManager hcm => Ok (MHttpConnectionManager (f hcm))
    | _ => Err (NewUnexpectedFilterConfigTypeError type_of filterConfig hcm_type)
    end).

Lemma implements_hcm f : implements (UpdateHTTPConnectionManager type_of f) (t_hcm f).
Proof. apply implements_update. Qed.

Lemma t_hcm_single f hcm tls :
  t_hcm f (mkTypedChain [(HTTPConnectionManager, MHttpConnectionManager hcm)] tls)
  = Ok (mkTypedChain [(HTTPConnectionManager, MHttpConnectionManager (f hcm))] tls).
Proof. reflexivity. Qed.

Definition add_fault (pbst : string) (hcm : HttpConnectionManager) : HttpConnectionManager :=
  mkHcm (hcm_StatPrefix hcm) (mkHttpFilter Fault (Some pbst) :: hcm_HttpFilters hcm) (hcm_RouteSpecifier hcm)
    (hcm_Tracing hcm) (hcm_AccessLog hcm).
Definition t_fault (fi : option FaultInjection) (tc : TypedChain) : res TypedChain :=
  match fi with
  | None => Ok tc
  | Some fi =>
      let? config := fault_config fi in
      or_return (MarshalAny (MHTTPFault config)) (λ pbst, t_hcm (add_fault pbst) tc)
  end.

Lemma implements_fault fi c :
  FaultInjectionOpt uint32_out_of_range type_of fi [] = [c] → implements c (t_fault fi).
Proof.
  intros [= <-]. destruct fi as [fi|]; [|apply implements_id]. unfold t_fault, fault_config.
  destruct (convertResponseRateLimit _ _) as [rrl|e|]; simpl.
  - apply implements_or_return. intros pbst _. apply implements_hcm.
  - intros fc tc _. by left.
  - by intros fc tc _.
Qed.

Definition set_tracing (backend : TracingBackend) (hcm : HttpConnectionManager) : HttpConnectionManager :=
  mkHcm (hcm_StatPrefix hcm) (hcm_HttpFilters hcm) (hcm_RouteSpecifier hcm) (Some (tb_Sampling backend)) (hcm_AccessLog hcm).
Definition t_tracing (backend : option TracingBackend) (tc : TypedChain) : res TypedChain :=
  match backend with None => Ok tc | Some backend => t_hcm (set_tracing backend) tc end.

Lemma implements_tracing backend c : TracingOpt type_of backend [] = [c] → implements c (t_tracing backend).
Proof. intros [= <-]. destruct backend; [apply implements_hcm|apply implements_id]. Qed.

Lemma implements_inbound_route service cluster c :
  HttpInboundRoute type_of service cluster [] = [c] →
  implements c (t_hcm (set_RouteSpecifier (RouteConfig (inbound_routes service (ci_Name cluster))))).
Proof. intros [= <-]. apply (implements_hcm (set_RouteSpecifier (RouteConfig (inbound_routes service (ci_Name cluster))))). Qed.

(** The typed configurers of an inbound chain. *)
Definition t_application (proxy : Proxy) (iface : Inbound) (endpoint : InboundInterface) : list (TypedChain → res TypedChain) :=
  let localClusterName := GetLocalClusterName (ii_WorkloadPort endpoint) in
  match ParseProtocol (Inbound_GetProtocol iface) with
  | ProtocolHTTP =>
      [t_append HTTPConnectionManager
         (MHttpConnectionManager (mkHcm (SanitizeMetric localClusterName) [mkHttpFilter Router None] None None []));
       t_fault (px_FaultInjections proxy !! endpoint); t_tracing (px_TracingBackend proxy);
       t_hcm (set_RouteSpecifier (RouteConfig (inbound_routes (Inbound_GetService iface) localClusterName)))]
  | _ => [t_append TCPProxy (MTcpProxy (mkTcpProxy (SanitizeMetric localClusterName) (ToCluster localClusterName) []))]
  end.
Definition t_security (ctx : XdsContext) (proxy : Proxy) (endpoint : InboundInterface) (name : string)
  : list (TypedChain → res TypedChain) :=
  t_mtls ctx (px_Metadata proxy) ::
  (if MTLSEnabled (Some (ctx_Mesh ctx))
   then [t_prepend RoleBasedAccessControl (MRBAC (createRbacRule name (px_TrafficPermissions proxy !! endpoint)))] else []).

Lemma implements_inbound ctx proxy iface endpoint name :
  Forall2 implements (inbound_chain type_of uint32_out_of_range ctx proxy iface endpoint name)
    (t_application proxy iface endpoint ++ t_security ctx proxy endpoint name).
Proof.
  unfold inbound_chain, t_application, t_security.
  destruct (ParseProtocol (Inbound_GetProtocol iface)); destruct (MTLSEnabled (Some (ctx_Mesh ctx)));
    unfold FilterChainBuilder_Configure, Builder_Configure, NetworkRBAC; cbn [foldl]; unfold Config_Add; cbn [app];
    repeat (apply Forall2_cons_2 || apply Forall2_nil_2);
    first [by apply implements_mtls|apply implements_rbac|by apply implements_fault|by apply implements_tracing
          |by eapply (implements_inbound_route _ (mkClusterInfo _ 0 ∅))|apply implements_append].
Qed.

Lemma typed_inbound_spec ctx proxy iface endpoint name :
  rfoldl (λ tc g, g tc) (mkTypedChain [] None) (t_application proxy iface endpoint ++ t_security ctx proxy endpoint name)
  = inbound_typed ctx proxy iface endpoint name.
Proof.
  assert (∀ app, rfoldl (λ tc g, g tc) (mkTypedChain [app] None) (t_security ctx proxy endpoint name)
    = let? tls := CreateDownstreamTlsContext ctx (px_Metadata proxy) in
      Ok (mkTypedChain ((if MTLSEnabled (Some (ctx_Mesh ctx))
            then [(RoleBasedAccessControl, MRBAC (createRbacRule name (px_TrafficPermissions proxy !! endpoint)))] else [])
            ++ [app]) tls)) as Hsec.
  { intros app. unfold t_security, t_mtls. destruct (MTLSEnabled (Some (ctx_Mesh ctx)));
      cbn [rfoldl]; by destruct (CreateDownstreamTlsContext ctx (px_Metadata proxy)) as [[m|]|e|]. }
  unfold inbound_typed, inbound_application, t_application.
  destruct (ParseProtocol (Inbound_GetProtocol iface)); cbn [app rfoldl rbind]; [apply Hsec|apply Hsec|].
  unfold t_append, t_fault, fault_filters, t_tracing. cbn [rbind tc_Filters tc_TransportSocket app].
  assert (∀ hs, (let? tc := match px_TracingBackend proxy with
                 | None => Ok (mkTypedChain [(HTTPConnectionManager, MHttpConnectionManager hs)] None)
                 | Some b => t_hcm (set_tracing b) (mkTypedChain [(HTTPConnectionManager, MHttpConnectionManager hs)] None) end in
      let? tc := t_hcm (set_RouteSpecifier (RouteConfig (inbound_routes (Inbound_GetService iface)
                   (GetLocalClusterName (ii_WorkloadPort endpoint))))) tc in
      rfoldl (λ tc g, g tc) tc (t_security ctx proxy endpoint name))
    = rfoldl (λ tc g, g tc) (mkTypedChain [(HTTPConnectionManager, MHttpConnectionManager
        (mkHcm (hcm_StatPrefix hs) (hcm_HttpFilters hs)
           (Some (RouteConfig (inbound_routes (Inbound_GetService iface) (GetLocalClusterName (ii_WorkloadPort endpoint)))))
           (match px_TracingBackend proxy with Some b => Some (tb_Sampling b) | None => hcm_Tracing hs end)
           (hcm_AccessLog hs)))] None) (t_security ctx proxy endpoint name)) as Hrest.
  { intros hs. destruct (px_TracingBackend proxy); reflexivity. }
  destruct (px_FaultInjections proxy !! endpoint) as [fi|]; cbn [rbind].
  - destruct (fault_config fi) as [config|e|]; cbn [rbind]; [|done..].
    destruct (MarshalAny (MHTTPFault config)) as [e|pbst]; simpl or_return; [done|].
    rewrite t_hcm_single. cbn [rbind]. rewrite Hrest, Hsec. by destruct (px_TracingBackend proxy).
  - rewrite Hrest, Hsec. by destruct (px_TracingBackend proxy).
Qed.

(** What an inbound chain is.  Building it either gives the packed form of this
    chain, or fails as computing the chain does, or fails because a message cannot
    be packed: with mutual TLS the filter that enforces the traffic permission of
    the interface comes first and connections need a client certificate; then comes
    the connection manager of an HTTP interface, with its fault before the router,
    or the TCP proxy of any other. *)
Theorem inbound_chain_refines ctx proxy iface endpoint name :
  chain_refines (FilterChainBuilder_Build (inbound_chain type_of uint32_out_of_range ctx proxy iface endpoint name))
    (inbound_typed ctx proxy iface endpoint name).
Proof. rewrite <- typed_inbound_spec. apply implements_build, implements_inbound. Qed.

(** ** What the inbound generator returns *)

Definition inbound_item (ctx : XdsContext) (proxy : Proxy) (ie : nat * InboundInterface) : res (list GenResource) :=
  let (i, endpoint) := ie in
  let localClusterName := GetLocalClusterName (ii_WorkloadPort endpoint) in
  match GetInbound (proxy_networking proxy) !! i with
  | None => Panic
  | Some iface =>
      let? inboundListener := inbound_listener type_of uint32_out_of_range ctx proxy i iface endpoint in
      Ok [mkXdsResource localClusterName "" (XCluster (CreateLocalCluster localClusterName "127.0.0.1" (ii_WorkloadPort endpoint)));
          mkXdsResource (GetInboundListenerName (ii_DataplaneIP endpoint) (ii_DataplanePort endpoint)) ""
            (XListener inboundListener)]
  end.

Lemma inbound_resources_item ctx proxy s ie :
  inbound_resources type_of uint32_out_of_range ctx proxy s ie
  = let? rs := inbound_item ctx proxy ie in Ok (resource_add s rs).
Proof.
  destruct ie as [i endpoint]. unfold inbound_resources, inbound_item.
  destruct (GetInbound (proxy_networking proxy) !! i); [|done]. by destruct (inbound_listener _ _ _ _ _ _ _).
Qed.

Lemma InboundProxyGenerator_items ctx proxy :
  InboundProxyGenerator type_of uint32_out_of_range ctx proxy
  = let? endpoints := GetInboundInterfaces (proxy_networking proxy) in
    let? ls := rmapM (inbound_item ctx proxy) (imap pair endpoints) in Ok (dedup (mjoin ls)).
Proof.
  unfold InboundProxyGenerator. destruct (GetInboundInterfaces _) as [endpoints|e|]; cbn [rbind]; [|done..].
  assert (∀ l, (let? resources := rfoldl (inbound_resources type_of uint32_out_of_range ctx proxy) emptyResourceSet l in
                Ok (ResourceSet_List resources))
    = let? ls := rmapM (inbound_item ctx proxy) l in Ok (dedup (mjoin ls))) as Hl.
  { intros l. rewrite (rfoldl_add (inbound_item ctx proxy)); [|apply inbound_resources_item]. by destruct (rmapM _ l). }
  destruct endpoints; [done|]. apply Hl.
Qed.

Lemma listener_build_spec direction name address port b redirectPort :
  ListenerBuilder_Build (ListenerBuilder_Configure NewListenerBuilder
    [listener_at direction name address port; FilterChainOpt b; TransparentProxying redirectPort])
  = let? fc := FilterChainBuilder_Build b in
    Ok (mkListener name direction (Some (SocketAddress address port)) [fc] None
          (if redirectPort =? 0 then None else Some false)).
Proof.
  unfold ListenerBuilder_Configure, Builder_Configure, TransparentProxying. cbn [foldl].
  destruct (redirectPort =? 0); cbn [negb]; unfold ListenerBuilder_Build, Builder_Build, FilterChainOpt, listener_at, Config_Add;
    cbn [app NewListenerBuilder rfoldl rbind]; destruct (FilterChainBuilder_Build b); reflexivity.
Qed.

(** *** Who may connect *)

(** What the RBAC filter of Envoy does: some policy of an allowing filter has a
    permission and a principal that match; the principal is matched against the URI
    of the client's certificate. *)
Definition principal_matches (id : string) (p : Principal) : Prop :=
  match p with PrincipalAny => True | PrincipalExact name => name = id end.
Definition rbac_allows (r : RBAC) (id : string) : Prop :=
  rbac_Action r = RBAC_ALLOW ∧
  ∃ name policy, rbac_Policies r !! name = Some policy ∧ pol_Permissions policy ≠ []
    ∧ ∃ p, p ∈ pol_Principals policy ∧ principal_matches id p.

Definition spiffe_id (mesh service : string) : string := "spiffe://" +:+ mesh +:+ "/" +:+ service.

(** The permission lets the service with this identity in. *)
Definition permits (permission : TrafficPermissionResource) (id : string) : Prop :=
  ∃ source, source ∈ tp_Sources (r_Spec permission) ∧
    let service := default "" (Match source !! ServiceTag) in
    service = MatchAllTag ∨ id = spiffe_id (GetMesh (r_Meta permission)) service.

Lemma createRbacRule_allows name permission id :
  rbac_allows (createRbacRule name permission) id ↔ ∃ p, permission = Some p ∧ permits p id.
Proof.
  unfold rbac_allows, createRbacRule, permits. cbn [rbac_Action rbac_Policies]. split.
  - intros (_ & pname & policy & Hp & _ & p & Hin & Hm). destruct permission as [permission|]; [|by rewrite lookup_empty in Hp].
    apply lookup_singleton_Some in Hp as [_ <-]. exists permission. split; [done|].
    unfold createPolicy in Hin. cbn [pol_Principals] in Hin. apply list_elem_of_fmap in Hin as (source & -> & Hs).
    exists source. split; [done|]. cbv beta zeta in Hm. destruct (String.eqb_spec (default "" (Match source !! ServiceTag)) MatchAllTag); [by left|].
    right. symmetry. exact Hm.
  - intros (permission' & -> & source & Hs & Hm). split; [done|].
    exists (GetName (r_Meta permission')), (createPolicy permission'). rewrite lookup_singleton_eq. split; [done|]. split; [done|].
    eexists. split; [by apply (list_elem_of_fmap_2 _ _ source)|]. cbv beta zeta in Hm |- *.
    destruct (String.eqb_spec (default "" (Match source !! ServiceTag)) MatchAllTag); [done|].
    destruct Hm as [Hm|Hm]; [done|]. symmetry. exact Hm.
Qed.

Lemma GetInboundInterfaces_nth n endpoints i endpoint :
  GetInboundInterfaces n = Ok endpoints → endpoints !! i = Some endpoint → GetInboundInterfaceByIdx n i = Ok endpoint.
Proof.
  unfold GetInboundInterfaces. destruct n as [nw|]; [|by intros [= <-]]. intros Hm%rmapM_Ok Hi.
  destruct (Forall2_lookup_r _ _ _ _ _ Hm Hi) as (j & Hj & Hok). by apply lookup_seq in Hj as [-> _].
Qed.

(** A resource of the inbound generator comes from one of the interfaces. *)
Lemma inbound_resource_of ctx proxy rs r :
  InboundProxyGenerator type_of uint32_out_of_range ctx proxy = Ok rs → r ∈ rs →
  ∃ i iface endpoint items, GetInbound (proxy_networking proxy) !! i = Some iface
    ∧ GetInboundInterfaceByIdx (proxy_networking proxy) i = Ok endpoint
    ∧ inbound_item ctx proxy (i, endpoint) = Ok items ∧ r ∈ items.
Proof.
  rewrite InboundProxyGenerator_items, rbind_Ok. intros (endpoints & He & Hl) Hr.
  apply rbind_Ok in Hl as (ls & Hls & [= <-]). apply dedup_sub in Hr. apply list_elem_of_join in Hr as (items & Hr & Hitems).
  apply rmapM_Ok in Hls. apply list_elem_of_lookup in Hitems as [k Hk].
  destruct (Forall2_lookup_r _ _ _ _ _ Hls Hk) as ([i endpoint] & Hi & Hitem).
  rewrite list_lookup_imap in Hi. destruct (endpoints !! k) as [ep|] eqn:Ek; [|done]. injection Hi as <- <-.
  assert (∃ iface, GetInbound (proxy_networking proxy) !! k = Some iface) as [iface Hiface].
  { unfold inbound_item in Hitem. destruct (GetInbound (proxy_networking proxy) !! k); [eauto|done]. }
  exists k, iface, ep, items. split; [done|]. split; [by eapply GetInboundInterfaces_nth|]. done.
Qed.

(** C11: Who reaches an application.  When the mesh has mutual TLS, every inbound
    listener that is generated requires a client certificate, and the first filter
    of its only chain lets in exactly the identities the traffic permission matched
    for that interface permits; without a matched permission it lets in nobody. *)
Theorem inbound_security ctx proxy rs r l :
  InboundProxyGenerator type_of uint32_out_of_range ctx proxy = Ok rs → MTLSEnabled (Some (ctx_Mesh ctx)) = true →
  r ∈ rs → xr_Resource r = XListener l →
  ∃ i endpoint fc f rest rbac,
    GetInboundInterfaceByIdx (proxy_networking proxy) i = Ok endpoint
    ∧ ln_Address l = Some (SocketAddress (ii_DataplaneIP endpoint) (ii_DataplanePort endpoint))
    ∧ ln_FilterChains l = [fc]
    ∧ (∃ s common, fc_TransportSocket fc = Some s ∧ UnmarshalAny (ts_TypedConfig s) = inr (MDownstreamTlsContext common true))
    ∧ fc_Filters fc = f :: rest ∧ filter_view f (RoleBasedAccessControl, MRBAC rbac)
    ∧ ∀ id, rbac_allows rbac id ↔
        ∃ permission, px_TrafficPermissions proxy !! endpoint = Some permission ∧ permits permission id.
Proof.
  intros Hrs Hmtls Hr Hl. destruct (inbound_resource_of _ _ _ _ Hrs Hr) as (i & iface & endpoint & items & Hif & Hep & Hitem & Hin).
  unfold inbound_item in Hitem. rewrite Hif in Hitem. apply rbind_Ok in Hitem as (l' & Hl' & [= <-]).
  apply elem_of_cons in Hin as [->|[-> |Hn%not_elem_of_nil]%elem_of_cons]; [done| |done]. injection Hl as ->.
  unfold inbound_listener, InboundListener in Hl'. rewrite listener_build_spec in Hl'.
  set (name := GetInboundListenerName (ii_DataplaneIP endpoint) (ii_DataplanePort endpoint)) in *.
  pose proof (inbound_chain_refines ctx proxy iface endpoint name) as Href.
  destruct (FilterChainBuilder_Build _) as [fc|e|]; cbn [rbind map_err] in Hl'; [|done..]. injection Hl' as <-.
  destruct Href as (tc & Htc & Hf & Hs). unfold inbound_typed in Htc. rewrite Hmtls in Htc. apply rbind_Ok in Htc as (application & _ & Htc).
  apply rbind_Ok in Htc as (tls & Htls & [= <-]). cbn [tc_Filters tc_TransportSocket app] in Hf, Hs.
  apply Forall2_cons_inv_r in Hf as (f & rest & Hf & _ & Hfs).
  unfold CreateDownstreamTlsContext in Htls. rewrite Hmtls in Htls. cbn [negb] in Htls.
  apply rbind_Ok in Htls as (common & _ & [= <-]).
  exists i, endpoint, fc, f, rest, (createRbacRule name (px_TrafficPermissions proxy !! endpoint)).
  split; [done|]. split; [done|]. split; [done|]. split.
  - unfold socket_view in Hs. destruct (fc_TransportSocket fc) as [s|]; [|done]. exists s, common. tauto.
  - split; [done|]. split; [done|]. intros id. apply createRbacRule_allows.
Qed.
End InboundProps.

(** ** The outbound generator *)

Section OutboundProps.
Context `{LawfulAny} `{XdsLibrary} `{ProtoMerge}.
Context (type_of : Message → string).

Definition cluster_specifier (clusters : list ClusterInfo) : ClusterSpecifier :=
  match clusters with
  | [cluster] => ToCluster (ci_Name cluster)
  | _ => ToWeightedClusters ((λ cluster, (ci_Name cluster, ci_Weight cluster)) <$> clusters)
  end.
Definition specifier_names (s : ClusterSpecifier) : list string :=
  match s with ToCluster name => [name] | ToWeightedClusters l => l.*1 end.

Lemma specifier_names_spec clusters : specifier_names (cluster_specifier clusters) = ci_Name <$> clusters.
Proof. destruct clusters as [|c [|c' l]]; [done|done|]. simpl. do 2 f_equal. by rewrite <- list_fmap_compose. Qed.

(** The access log of a chain, if its service has one. *)
Definition chain_logs (meshName sourceService service : string) (proxy : Proxy) (format : string)
    : res (list (option EnvoyAccessLog)) :=
  match proxy_log proxy service with
  | None => Ok []
  | Some backend => let? accessLog := access_log meshName sourceService service (Some backend) proxy format in Ok [accessLog]
  end.

Definition outbound_typed (meshName sourceService : string) (proxy : Proxy) (protocol : Protocol) (service : string)
    (clusters : list ClusterInfo) : res TypedChain :=
  match protocol with
  | ProtocolHTTP =>
      let? logs := chain_logs meshName sourceService service proxy defaultHttpAccessLogFormat in
      Ok (mkTypedChain [(HTTPConnectionManager, MHttpConnectionManager
            (mkHcm (SanitizeMetric service) [mkHttpFilter Router None] (Some (Rds (GetOutboundRouteName service)))
               (tb_Sampling <$> px_TracingBackend proxy) logs))] None)
  | _ =>
      let? logs := chain_logs meshName sourceService service proxy defaultNetworkAccessLogFormat in
      Ok (mkTypedChain [(TCPProxy, MTcpProxy (mkTcpProxy (SanitizeMetric service) (cluster_specifier clusters) logs))] None)
  end.

Definition t_tcp (f : TcpProxy → TcpProxy) : TypedChain → res TypedChain :=
  t_update TCPProxy (λ filterConfig,
    match filterConfig with
    | MTcpProxy tcpProxy => Ok (MTcpProxy (f tcpProxy))
    | _ => Err (NewUnexpectedFilterConfigTypeError type_of filterConfig tcp_type)
    end).

Definition log_hcm (accessLog : option EnvoyAccessLog) (hcm : HttpConnectionManager) : HttpConnectionManager :=
  mkHcm (hcm_StatPrefix hcm) (hcm_HttpFilters hcm) (hcm_RouteSpecifier hcm) (hcm_Tracing hcm) (hcm_AccessLog hcm ++ [accessLog]).
Definition log_tcp (accessLog : option EnvoyAccessLog) (tcpProxy : TcpProxy) : TcpProxy :=
  mkTcpProxy (tcpp_StatPrefix tcpProxy) (tcpp_Cluster tcpProxy) (tcpp_AccessLog tcpProxy ++ [accessLog]).

(** The typed configurers of an outbound chain. *)
Definition t_outbound (meshName sourceService : string) (proxy : Proxy) (protocol : Protocol) (service : string)
    (clusters : list ClusterInfo) : list (TypedChain → res TypedChain) :=
  let log (add : option EnvoyAccessLog → TypedChain → res TypedChain) (format : string) :=
    match proxy_log proxy service with
    | None => []
    | Some backend => [λ tc, let? accessLog := access_log meshName sourceService service (Some backend) proxy format in
                             add accessLog tc]
    end in
  match protocol with
  | ProtocolHTTP =>
      [t_append HTTPConnectionManager (MHttpConnectionManager (mkHcm (SanitizeMetric service) [mkHttpFilter Router None] None None []));
       t_tracing type_of (px_TracingBackend proxy)]
      ++ log (λ al, t_hcm type_of (log_hcm al)) defaultHttpAccessLogFormat
      ++ [t_hcm type_of (set_RouteSpecifier (Rds (GetOutboundRouteName service)))]
  | _ =>
      [t_append TCPProxy (MTcpProxy (mkTcpProxy (SanitizeMetric service) (cluster_specifier clusters) []))]
      ++ log (λ al, t_tcp (log_tcp al)) defaultNetworkAccessLogFormat
  end.

Lemma implements_outbound meshName sourceService proxy protocol service clusters :
  Forall2 implements (outbound_chain type_of meshName sourceService proxy protocol service clusters)
    (t_outbound meshName sourceService proxy protocol service clusters).
Proof.
  unfold outbound_chain, t_outbound, HttpAccessLog, NetworkAccessLog. generalize (proxy_log proxy service). intros backend.
  destruct protocol, backend as [backend|];
    unfold FilterChainBuilder_Configure, Builder_Configure; cbn [foldl]; unfold Config_Add; cbn [app];
    repeat (apply Forall2_cons_2 || apply Forall2_nil_2);
    first [apply implements_append|by apply implements_tracing|apply (implements_hcm type_of (set_RouteSpecifier _))|idtac].
  - apply implements_bind. intros al _. apply implements_update.
  - apply implements_bind. intros al _. apply implements_update.
  - apply implements_bind. intros al _. apply implements_update.
Qed.

(** What an outbound chain is: packed, like the inbound chain. *)
Lemma outbound_chain_refines meshName sourceService proxy protocol service clusters :
  chain_refines
    (FilterChainBuilder_Build (outbound_chain type_of meshName sourceService proxy protocol service clusters))
    (outbound_typed meshName sourceService proxy protocol service clusters).
Proof.
  pose proof (implements_build _ _ (implements_outbound meshName sourceService proxy protocol service clusters)) as Hb.
  unfold FilterChainBuilder_Build.
  assert (rfoldl (λ tc g, g tc) (mkTypedChain [] None) (t_outbound meshName sourceService proxy protocol service clusters)
          = outbound_typed meshName sourceService proxy protocol service clusters) as <-; [|done].
  unfold t_outbound, outbound_typed, chain_logs. generalize (proxy_log proxy service). intros backend.
  destruct protocol, backend as [backend|]; cbn [app rfoldl rbind]; try reflexivity.
  - by destruct (access_log _ _ _ _ _ _).
  - by destruct (access_log _ _ _ _ _ _).
  - unfold t_append. cbn [rbind tc_Filters tc_TransportSocket app].
    destruct (px_TracingBackend proxy); simpl t_tracing; rewrite ?t_hcm_single; cbn [rbind]; by destruct (access_log _ _ _ _ _ _).
  - by destruct (px_TracingBackend proxy).
Qed.

(** *** The resources of one outbound *)

Definition outbound_item (ctx : XdsContext) (proxy : Proxy) (ofaces : list OutboundInterface) (io : nat * Outbound)
    : res (list GenResource) :=
  let (i, outbound) := io in
  let service := out_Service outbound in
  match px_TrafficRoutes proxy !! service with
  | None =>
      Err (Errorf "%s{service=%q}: has no TrafficRoute"
             [AStr (Path_String (Path_Index (Path_Field (Path_Field (RootedAt "dataplane") "networking") "outbound") i));
              AStr service])
  | Some route =>
      let? clusters := determineClusters route in
      let? (edsResources, endpoints) := generateEds ctx proxy clusters in
      let protocol := InferServiceProtocol endpoints in
      match ofaces !! i with
      | None => Panic
      | Some oface =>
          let? listener := outbound_listener type_of ctx proxy i protocol service clusters oface in
          let? rdsResources := generateRds protocol service (GetOutboundRouteName service) clusters
            (Dataplane_Tags (r_Spec (px_Dataplane proxy))) in
          Ok (edsResources ++
              [mkXdsResource (GetOutboundListenerName (oi_DataplaneIP oface) (oi_DataplanePort oface)) "" (XListener listener)]
              ++ rdsResources)
      end
  end.

Lemma resource_add_app s rs rs' : resource_add (resource_add s rs) rs' = resource_add s (rs ++ rs').
Proof. unfold resource_add, ResourceSet_Add. by rewrite foldl_app. Qed.

Lemma outbound_resources_item ctx proxy ofaces s io :
  outbound_resources type_of ctx proxy ofaces s io
  = let? rs := outbound_item ctx proxy ofaces io in Ok (resource_add s rs).
Proof.
  destruct io as [i outbound]. unfold outbound_resources, outbound_item.
  destruct (px_TrafficRoutes proxy !! out_Service outbound) as [route|]; [|done].
  destruct (determineClusters route) as [clusters|e|]; cbn [rbind]; [|done..].
  destruct (generateEds ctx proxy clusters) as [[eds endpoints]|e|]; cbn [rbind]; [|done..].
  destruct (ofaces !! i) as [oface|]; [|done].
  destruct (outbound_listener _ _ _ _ _ _ _ _) as [l|e|]; cbn [rbind]; [|done..].
  destruct (generateRds _ _ _ _ _) as [rds|e|]; cbn [rbind]; [|done..]. by rewrite !resource_add_app.
Qed.

Lemma OutboundProxyGenerator_items ctx proxy :
  OutboundProxyGenerator type_of ctx proxy
  = match GetOutbound (proxy_networking proxy) with
    | [] => Ok []
    | outbounds =>
        let? ofaces := GetOutboundInterfaces (proxy_networking proxy) in
        let? ls := rmapM (outbound_item ctx proxy ofaces) (imap pair outbounds) in Ok (dedup (mjoin ls))
    end.
Proof.
  unfold OutboundProxyGenerator. destruct (GetOutbound (proxy_networking proxy)) as [|o os]; [done|].
  destruct (GetOutboundInterfaces _) as [ofaces|e|]; cbn [rbind]; [|done..]. generalize (imap pair (o :: os)). intros l.
  rewrite (rfoldl_add (outbound_item ctx proxy ofaces)); [|apply outbound_resources_item]. by destruct (rmapM _ l).
Qed.

(** The clusters of a route: those of its destinations that have a weight. *)
Lemma determineClusters_spec route clusters :
  determineClusters route = Ok clusters →
  Forall (λ d, is_Some (wd_Destination d !! ServiceTag)) (tr_Conf (r_Spec route))
  ∧ clusters = (λ d, mkClusterInfo (GetDestinationClusterName (default "" (wd_Destination d !! ServiceTag)) (wd_Destination d))
                      (wd_Weight d) (wd_Destination d))
                 <$> List.filter (λ d, negb (wd_Weight d =? 0)) (tr_Conf (r_Spec route)).
Proof.
  unfold determineClusters. change clusters with ([] ++ clusters) at 2.
  assert (∀ (f : nat → nat) ds acc clusters, rfoldl (destination_cluster route) acc (imap (λ i d, (f i, d)) ds) = Ok clusters →
    Forall (λ d, is_Some (wd_Destination d !! ServiceTag)) ds
    ∧ clusters = acc ++ ((λ d, mkClusterInfo (GetDestinationClusterName (default "" (wd_Destination d !! ServiceTag)) (wd_Destination d))
                            (wd_Weight d) (wd_Destination d)) <$> List.filter (λ d, negb (wd_Weight d =? 0)) ds)) as Hgen.
  { intros f ds. revert f. induction ds as [|d ds IH]; intros f acc cs; cbn [imap rfoldl].
    - intros [= <-]. by rewrite app_nil_r.
    - unfold destination_cluster at 1. destruct (wd_Destination d !! ServiceTag) as [service|] eqn:Es; [|done].
      cbn [List.filter]. destruct (wd_Weight d =? 0); cbn [negb rbind]; intros Hr; apply (IH (f ∘ S)) in Hr as [Hall ->].
      + split; [|done]. constructor; [by rewrite Es|done].
      + split; [constructor; [by rewrite Es|done]|]. rewrite fmap_cons, Es. by rewrite <- app_assoc. }
  intros Hr. destruct (Hgen id _ _ _ Hr) as [Hall Heq]. done.
Qed.

(** The resources of a cluster. *)
Definition cluster_resources (proxy : Proxy) (cluster : ClusterInfo) (eds : Cluster) : list GenResource :=
  [mkXdsResource (ci_Name cluster) "" (XCluster (ClusterWithHealthChecks eds
     (px_HealthChecks proxy !! default "" (ci_Tags cluster !! ServiceTag))));
   mkXdsResource (ci_Name cluster) ""
     (XClusterLoadAssignment (CreateClusterLoadAssignment (ci_Name cluster) (cluster_endpoints proxy cluster)))].

Lemma generateEds_spec ctx proxy clusters eds endpoints :
  generateEds ctx proxy clusters = Ok (eds, endpoints) →
  ∃ edsClusters, Forall2 (λ c e, CreateEdsCluster ctx (ci_Name c) (px_Metadata proxy) = Ok e) clusters edsClusters
    ∧ eds = mjoin (zip_with (cluster_resources proxy) clusters edsClusters)
    ∧ endpoints = clusters ≫= cluster_endpoints proxy.
Proof.
  unfold generateEds.
  assert (∀ acc out eds endpoints, rfoldl (eds_resources ctx proxy) (acc, out) clusters = Ok (eds, endpoints) →
    ∃ edsClusters, Forall2 (λ c e, CreateEdsCluster ctx (ci_Name c) (px_Metadata proxy) = Ok e) clusters edsClusters
      ∧ eds = acc ++ mjoin (zip_with (cluster_resources proxy) clusters edsClusters)
      ∧ endpoints = out ++ (clusters ≫= cluster_endpoints proxy)) as Hgen; [|by apply Hgen].
  clear eds endpoints. induction clusters as [|c clusters IH]; intros acc out eds endpoints; simpl.
  - intros [= <- <-]. exists []. rewrite !app_nil_r. done.
  - destruct (CreateEdsCluster ctx (ci_Name c) (px_Metadata proxy)) as [e|err|] eqn:Ee; simpl; [|done..].
    intros (es & Hes & -> & ->)%IH. exists (e :: es). split; [by constructor|]. split; [|by rewrite <- app_assoc].
    cbn [zip_with mjoin list_join]. unfold cluster_resources at 2. by rewrite <- app_assoc.
Qed.

(** *** References between the resources *)

(** A cluster the outbounds of a proxy need. *)
Definition outbound_cluster (proxy : Proxy) (c : ClusterInfo) : Prop :=
  ∃ o route clusters, o ∈ GetOutbound (proxy_networking proxy) ∧ px_TrafficRoutes proxy !! out_Service o = Some route
    ∧ determineClusters route = Ok clusters ∧ c ∈ clusters.

Definition outbound_routes (name service : string) (clusters : list ClusterInfo) (tags : MultiValueTagSet) : RouteConfiguration :=
  mkRouteConfiguration name (Some true) (if decide (tags = ∅) then [] else [(TagsHeaderName, Serialize tags)]) []
    [mkVirtualHost service ["*"] [mkRoute "/" (mkRouteAction (cluster_specifier clusters) "")]].

Lemma generateRds_spec protocol service name clusters tags :
  generateRds protocol service name clusters tags
  = Ok (match protocol with
        | ProtocolHTTP => [mkXdsResource name "" (XRouteConfiguration (outbound_routes name service clusters tags))]
        | _ => [] end).
Proof.
  destruct protocol; [done|done|]. unfold generateRds, outbound_routes.
  unfold RouteConfigurationBuilder_Configure, Builder_Configure, TagsHeader. cbn [foldl]. unfold Config_Add.
  cbn [app NewRouteConfigurationBuilder]. unfold RouteConfigurationBuilder_Build, Builder_Build. cbn [rfoldl rbind].
  by destruct (decide (tags = ∅)).
Qed.

(** What one outbound contributes. *)
Lemma outbound_item_spec ctx proxy ofaces i o items :
  outbound_item ctx proxy ofaces (i, o) = Ok items →
  ∃ route clusters edsClusters oface fc tc rest, px_TrafficRoutes proxy !! out_Service o = Some route
    ∧ determineClusters route = Ok clusters
    ∧ Forall2 (λ c e, CreateEdsCluster ctx (ci_Name c) (px_Metadata proxy) = Ok e) clusters edsClusters
    ∧ outbound_typed (GetName (r_Meta (ctx_Mesh ctx))) (GetIdentifyingService (r_Spec (px_Dataplane proxy))) proxy
        (InferServiceProtocol (clusters ≫= cluster_endpoints proxy)) (out_Service o) clusters = Ok tc
    ∧ chain_view fc tc
    ∧ generateRds (InferServiceProtocol (clusters ≫= cluster_endpoints proxy)) (out_Service o)
        (GetOutboundRouteName (out_Service o)) clusters (Dataplane_Tags (r_Spec (px_Dataplane proxy))) = Ok rest
    ∧ items = mjoin (zip_with (cluster_resources proxy) clusters edsClusters)
        ++ [mkXdsResource (GetOutboundListenerName (oi_DataplaneIP oface) (oi_DataplanePort oface)) ""
              (XListener (mkListener (GetOutboundListenerName (oi_DataplaneIP oface) (oi_DataplanePort oface)) OUTBOUND
                 (Some (SocketAddress (oi_DataplaneIP oface) (oi_DataplanePort oface))) [fc] None
                 (if GetRedirectPort (proxy_networking proxy) =? 0 then None else Some false)))] ++ rest.
Proof.
  unfold outbound_item. destruct (px_TrafficRoutes proxy !! out_Service o) as [route|] eqn:Er; [|done].
  intros (clusters & Hc & Hr)%rbind_Ok. apply rbind_Ok in Hr as ([eds endpoints] & Heds & Hr).
  apply generateEds_spec in Heds as (edsClusters & Hes & -> & ->).
  destruct (ofaces !! i) as [oface|]; [|done]. apply rbind_Ok in Hr as (l & Hl & Hr).
  apply rbind_Ok in Hr as (rest & Hrest & [= <-]). unfold outbound_listener, OutboundListener in Hl.
  rewrite listener_build_spec in Hl.
  set (protocol := InferServiceProtocol (clusters ≫= cluster_endpoints proxy)) in *.
  pose proof (outbound_chain_refines (GetName (r_Meta (ctx_Mesh ctx))) (GetIdentifyingService (r_Spec (px_Dataplane proxy)))
    proxy protocol (out_Service o) clusters) as Href.
  destruct (FilterChainBuilder_Build _) as [fc|e|]; cbn [rbind map_err] in Hl; [|done..]. injection Hl as <-.
  destruct Href as (tc & Htc & Hv). exists route, clusters, edsClusters, oface, fc, tc, rest. done.
Qed.

(** The items of a run. *)
Lemma outbound_items_of ctx proxy rs :
  OutboundProxyGenerator type_of ctx proxy = Ok rs → GetOutbound (proxy_networking proxy) ≠ [] →
  ∃ ofaces ls, rs = dedup (mjoin ls)
    ∧ Forall2 (λ io items, outbound_item ctx proxy ofaces io = Ok items) (imap pair (GetOutbound (proxy_networking proxy))) ls.
Proof.
  rewrite OutboundProxyGenerator_items. intros Hrs Hne.
  assert ((let? ofaces := GetOutboundInterfaces (proxy_networking proxy) in
           let? ls := rmapM (outbound_item ctx proxy ofaces) (imap pair (GetOutbound (proxy_networking proxy))) in
           Ok (dedup (mjoin ls))) = Ok rs) as Hrs' by (by destruct (GetOutbound (proxy_networking proxy))).
  apply rbind_Ok in Hrs' as (ofaces & _ & Hls). apply rbind_Ok in Hls as (ls & Hls & [= <-]).
  exists ofaces, ls. split; [done|]. by apply rmapM_Ok.
Qed.

Lemma outbound_none ctx proxy rs :
  OutboundProxyGenerator type_of ctx proxy = Ok rs → GetOutbound (proxy_networking proxy) = [] → rs = [].
Proof. rewrite OutboundProxyGenerator_items. intros Hrs Hn. rewrite Hn in Hrs. by injection Hrs as <-. Qed.

(** A resource comes from one outbound, all of whose resources are covered. *)
Lemma outbound_resource_of ctx proxy rs r :
  OutboundProxyGenerator type_of ctx proxy = Ok rs → r ∈ rs →
  ∃ ofaces i o items, GetOutbound (proxy_networking proxy) !! i = Some o ∧ outbound_item ctx proxy ofaces (i, o) = Ok items
    ∧ r ∈ items ∧ ∀ r', r' ∈ items → ∃ r'', r'' ∈ rs ∧ same_type_and_name r' r''.
Proof.
  intros Hrs Hr. destruct (decide (GetOutbound (proxy_networking proxy) = [])) as [Hn|Hne].
  { rewrite (outbound_none _ _ _ Hrs Hn) in Hr. by apply not_elem_of_nil in Hr. }
  destruct (outbound_items_of _ _ _ Hrs Hne) as (ofaces & ls & -> & Hls).
  pose proof (dedup_sub _ _ Hr) as Hin. apply list_elem_of_join in Hin as (items & Hin & Hitems).
  pose proof Hitems as [k Hk]%list_elem_of_lookup. destruct (Forall2_lookup_r _ _ _ _ _ Hls Hk) as ([i o] & Hi & Hitem).
  rewrite list_lookup_imap in Hi. destruct (GetOutbound (proxy_networking proxy) !! k) as [o'|] eqn:Ek; [|done].
  injection Hi as <- <-. exists ofaces, k, o', items. split; [done|]. split; [done|]. split; [done|].
  intros r' Hr'. apply dedup_covers. apply list_elem_of_join. eauto.
Qed.

Context `{!LawfulXds}.

Definition has_resource (rs : list GenResource) (name : string) (kind : envoy_kind) : Prop :=
  ∃ r, r ∈ rs ∧ xr_Name r = name ∧ message_kind (xr_Resource r) = kind.
(** A cluster comes with its endpoints. *)
Definition has_cluster (rs : list GenResource) (name : string) : Prop :=
  has_resource rs name ECluster ∧ has_resource rs name EClusterLoadAssignment.

Lemma covered rs (r : GenResource) (items : list GenResource) :
  (∀ r', r' ∈ items → ∃ r'', r'' ∈ rs ∧ same_type_and_name r' r'') → r ∈ items →
  has_resource rs (xr_Name r) (message_kind (xr_Resource r)).
Proof.
  intros Hall Hr. destruct (Hall r Hr) as (r' & Hr' & Hn & Ht). exists r'. split; [done|]. split; [done|].
  symmetry. by apply message_name_kind.
Qed.

Lemma cluster_items ctx proxy clusters edsClusters c :
  Forall2 (λ c e, CreateEdsCluster ctx (ci_Name c) (px_Metadata proxy) = Ok e) clusters edsClusters → c ∈ clusters →
  ∃ e, CreateEdsCluster ctx (ci_Name c) (px_Metadata proxy) = Ok e
    ∧ ∀ r, r ∈ cluster_resources proxy c e → r ∈ mjoin (zip_with (cluster_resources proxy) clusters edsClusters).
Proof.
  intros Hf [k Hk]%list_elem_of_lookup. destruct (Forall2_lookup_l _ _ _ _ _ Hf Hk) as (e & He & Hok).
  exists e. split; [done|]. intros r Hr. apply list_elem_of_join. exists (cluster_resources proxy c e). split; [done|].
  apply list_elem_of_lookup. exists k. by rewrite lookup_zip_with, Hk, He.
Qed.

Lemma cluster_covered rs ctx proxy clusters edsClusters (items rest : list GenResource) c :
  Forall2 (λ c e, CreateEdsCluster ctx (ci_Name c) (px_Metadata proxy) = Ok e) clusters edsClusters →
  items = mjoin (zip_with (cluster_resources proxy) clusters edsClusters) ++ rest →
  (∀ r', r' ∈ items → ∃ r'', r'' ∈ rs ∧ same_type_and_name r' r'') → c ∈ clusters → has_cluster rs (ci_Name c).
Proof.
  intros Hf -> Hall Hc. destruct (cluster_items ctx proxy clusters edsClusters c Hf Hc) as (e & _ & Hin).
  split.
  - apply (covered rs (mkXdsResource (ci_Name c) "" (XCluster (ClusterWithHealthChecks e
      (px_HealthChecks proxy !! default "" (ci_Tags c !! ServiceTag))))) _ Hall).
    apply elem_of_app. left. apply Hin. left.
  - apply (covered rs (mkXdsResource (ci_Name c) ""
      (XClusterLoadAssignment (CreateClusterLoadAssignment (ci_Name c) (cluster_endpoints proxy c)))) _ Hall).
    apply elem_of_app. left. apply Hin. right. left.
Qed.

(** Resources of the other types are not among those of clusters. *)
Lemma cluster_resources_kind proxy clusters edsClusters r :
  r ∈ mjoin (zip_with (cluster_resources proxy) clusters edsClusters) →
  message_kind (xr_Resource r) = ECluster ∨ message_kind (xr_Resource r) = EClusterLoadAssignment.
Proof.
  intros (l & Hr & Hl)%list_elem_of_join. apply list_elem_of_lookup in Hl as [k Hk]. rewrite lookup_zip_with in Hk.
  destruct (clusters !! k), (edsClusters !! k); try done. injection Hk as <-.
  apply elem_of_cons in Hr as [->|[-> |Hr%not_elem_of_nil]%elem_of_cons]; [by left|by right|done].
Qed.

(** A filter whose targets are all generated. *)
Definition filter_resolves (rs : list GenResource) (f : NetworkFilter) : Prop :=
  (∃ hcm name, filter_view f (HTTPConnectionManager, MHttpConnectionManager hcm) ∧ hcm_RouteSpecifier hcm = Some (Rds name)
     ∧ has_resource rs name ERouteConfiguration)
  ∨ (∃ tcp, filter_view f (TCPProxy, MTcpProxy tcp) ∧ ∀ n, n ∈ specifier_names (tcpp_Cluster tcp) → has_cluster rs n).

Lemma outbound_typed_resolves rs ctx proxy clusters edsClusters items rest o listener tc fc m s protocol :
  Forall2 (λ c e, CreateEdsCluster ctx (ci_Name c) (px_Metadata proxy) = Ok e) clusters edsClusters →
  items = mjoin (zip_with (cluster_resources proxy) clusters edsClusters) ++ [listener] ++ rest →
  (∀ r', r' ∈ items → ∃ r'', r'' ∈ rs ∧ same_type_and_name r' r'') →
  outbound_typed m s proxy protocol (out_Service o) clusters = Ok tc → chain_view fc tc →
  generateRds protocol (out_Service o) (GetOutboundRouteName (out_Service o)) clusters
    (Dataplane_Tags (r_Spec (px_Dataplane proxy))) = Ok rest →
  ∃ f, fc_Filters fc = [f] ∧ filter_resolves rs f.
Proof.
  intros Hf Hitems Hall Htc [Hv _] Hrds. rewrite generateRds_spec in Hrds. injection Hrds as Hrest.
  assert (∀ n, n ∈ specifier_names (cluster_specifier clusters) → has_cluster rs n) as Hnames.
  { intros n. rewrite specifier_names_spec. intros (c & -> & Hc)%list_elem_of_fmap. by eapply cluster_covered. }
  unfold outbound_typed in Htc. destruct protocol; apply rbind_Ok in Htc as (logs & _ & [= <-]);
    cbn [tc_Filters] in Hv; apply Forall2_cons_inv_r in Hv as (f & fs & Hfv & Hnil & Hfs);
    apply Forall2_nil_inv_r in Hnil as ->; exists f; (split; [done|]).
  - right. eexists. split; [exact Hfv|]. exact Hnames.
  - right. eexists. split; [exact Hfv|]. exact Hnames.
  - left. eexists _, _. split; [exact Hfv|]. split; [done|]. subst rest items.
    eapply (covered rs (mkXdsResource _ "" (XRouteConfiguration _)) _ Hall).
    apply elem_of_app. right. right. left.
Qed.

(** C12: What outbound listeners refer to is generated with them: the only filter of
    a listener is a TCP proxy all of whose clusters are generated with their
    endpoints, or an HTTP connection manager whose route configuration is generated;
    and every cluster a route configuration names is generated with its endpoints. *)
Theorem outbound_references ctx proxy rs r :
  OutboundProxyGenerator type_of ctx proxy = Ok rs → r ∈ rs →
  match xr_Resource r with
  | XListener l => ∃ fc f, ln_FilterChains l = [fc] ∧ fc_Filters fc = [f] ∧ filter_resolves rs f
  | XRouteConfiguration rc =>
      rc_Name rc = xr_Name r ∧
      ∀ vh route n, vh ∈ rc_VirtualHosts rc → route ∈ vh_Routes vh → n ∈ specifier_names (ra_Cluster (route_Action route)) →
        has_cluster rs n
  | XCluster c => has_resource rs (xr_Name r) EClusterLoadAssignment
  | XClusterLoadAssignment cla => has_resource rs (xr_Name r) ECluster
  | XOther _ _ => False
  end.
Proof.
  intros Hrs Hr. destruct (outbound_resource_of _ _ _ _ Hrs Hr) as (ofaces & i & o & items & Ho & Hitem & Hin & Hall).
  apply outbound_item_spec in Hitem as (route & clusters & edsClusters & oface & fc & tc & rest & Hroute & Hcl & Hes & Htc
    & Hv & Hrds & Hitems). pose proof Hin as Hin'. rewrite Hitems in Hin'.
  apply elem_of_app in Hin' as [Hc|[Hl|Hrest]%elem_of_app].
  - apply list_elem_of_join in Hc as (l & Hc & Hl). apply list_elem_of_lookup in Hl as [k Hk]. rewrite lookup_zip_with in Hk.
    destruct (clusters !! k) as [c|] eqn:Ek; [|done]. destruct (edsClusters !! k) as [e|]; [|done]. injection Hk as <-.
    assert (has_cluster rs (ci_Name c)) as [H1c H2c]
      by (eapply cluster_covered; [exact Hes|exact Hitems|exact Hall|by eapply list_elem_of_lookup_2]).
    by apply elem_of_cons in Hc as [->|[-> |Hc%not_elem_of_nil]%elem_of_cons].
  - apply list_elem_of_singleton in Hl as ->. cbn [xr_Resource].
    destruct (outbound_typed_resolves rs _ _ _ _ _ _ _ _ _ _ _ _ _ Hes Hitems Hall Htc Hv Hrds) as (f & Hf & Hres).
    exists fc, f. done.
  - pose proof Hrds as Hrds'. rewrite generateRds_spec in Hrds'. injection Hrds' as <-.
    destruct (InferServiceProtocol _); [by apply not_elem_of_nil in Hrest..|]. apply list_elem_of_singleton in Hrest as ->.
    cbn [xr_Resource xr_Name]. split; [done|]. intros vh rt n Hvh%list_elem_of_singleton Hrt Hn. subst vh.
    apply list_elem_of_singleton in Hrt. subst rt. cbn [route_Action ra_Cluster] in Hn. rewrite specifier_names_spec in Hn.
    apply list_elem_of_fmap in Hn as (c & -> & Hc). by eapply cluster_covered.
Qed.

(** *** Endpoints *)

Lemma outbound_covers ctx proxy rs o :
  OutboundProxyGenerator type_of ctx proxy = Ok rs → o ∈ GetOutbound (proxy_networking proxy) →
  ∃ ofaces i items, outbound_item ctx proxy ofaces (i, o) = Ok items
    ∧ ∀ r', r' ∈ items → ∃ r'', r'' ∈ rs ∧ same_type_and_name r' r''.
Proof.
  intros Hrs Ho. assert (GetOutbound (proxy_networking proxy) ≠ []) as Hne by (intros Hn; rewrite Hn in Ho; by apply not_elem_of_nil in Ho).
  destruct (outbound_items_of _ _ _ Hrs Hne) as (ofaces & ls & -> & Hls). apply list_elem_of_lookup in Ho as [i Hi].
  assert (imap pair (GetOutbound (proxy_networking proxy)) !! i = Some (i, o)) as Hio by (by rewrite list_lookup_imap, Hi).
  destruct (Forall2_lookup_l _ _ _ _ _ Hls Hio) as (items & Hk & Hitem). exists ofaces, i, items. split; [done|].
  intros r' Hr'. apply dedup_covers, list_elem_of_join. exists items. split; [done|]. by eapply list_elem_of_lookup_2.
Qed.

Lemma outbound_cluster_name proxy c :
  outbound_cluster proxy c →
  ∃ service, ci_Tags c !! ServiceTag = Some service ∧ ci_Name c = GetDestinationClusterName service (ci_Tags c).
Proof.
  intros (o & route & clusters & _ & _ & Hcl & Hc). apply determineClusters_spec in Hcl as [Hall ->].
  apply list_elem_of_fmap in Hc as (d & -> & Hd). apply list_elem_of_In, filter_In in Hd as [Hd _].
  rewrite Forall_forall in Hall. destruct (Hall d) as [service Hs]; [by apply list_elem_of_In|].
  exists service. cbn [ci_Tags ci_Name]. by rewrite Hs.
Qed.

(** The load assignments of the generator are those of its clusters. *)
Lemma load_assignment_of ctx proxy rs r cla :
  OutboundProxyGenerator type_of ctx proxy = Ok rs → r ∈ rs → xr_Resource r = XClusterLoadAssignment cla →
  ∃ c, outbound_cluster proxy c ∧ xr_Name r = ci_Name c
    ∧ cla = CreateClusterLoadAssignment (ci_Name c) (cluster_endpoints proxy c).
Proof.
  intros Hrs Hr Hcla. destruct (outbound_resource_of _ _ _ _ Hrs Hr) as (ofaces & i & o & items & Ho & Hitem & Hin & _).
  apply outbound_item_spec in Hitem as (route & clusters & edsClusters & oface & fc & tc & rest & Hroute & Hcl & Hes & _ & _
    & Hrds & ->). apply elem_of_app in Hin as [Hc|[Hl|Hrest]%elem_of_app].
  - apply list_elem_of_join in Hc as (l & Hc & Hl). apply list_elem_of_lookup in Hl as [k Hk]. rewrite lookup_zip_with in Hk.
    destruct (clusters !! k) as [c|] eqn:Ek; [|done]. destruct (edsClusters !! k) as [e|]; [|done]. injection Hk as <-.
    exists c. split.
    + exists o, route, clusters. split; [by eapply list_elem_of_lookup_2|]. split; [done|]. split; [done|]. by eapply list_elem_of_lookup_2.
    + apply elem_of_cons in Hc as [->|[-> |Hc%not_elem_of_nil]%elem_of_cons]; [done| |done]. by injection Hcla as <-.
  - apply list_elem_of_singleton in Hl as ->. done.
  - rewrite generateRds_spec in Hrds. injection Hrds as <-.
    destruct (InferServiceProtocol _); [by apply not_elem_of_nil in Hrest..|]. by apply list_elem_of_singleton in Hrest as ->.
Qed.

(** C13: Where traffic goes.  The endpoints generated for a cluster name are exactly
    the targets of the service of that destination whose tags match the destination,
    for every destination with a weight of the routes of the outbounds; no two
    destinations share a name. *)
Theorem outbound_endpoints ctx proxy rs :
  OutboundProxyGenerator type_of ctx proxy = Ok rs → (∀ c, outbound_cluster proxy c → chars_ok (ci_Tags c)) →
  (∀ name cla, (∃ r, r ∈ rs ∧ xr_Name r = name ∧ xr_Resource r = XClusterLoadAssignment cla) ↔
     ∃ c, outbound_cluster proxy c ∧ name = ci_Name c ∧ cla = CreateClusterLoadAssignment name (cluster_endpoints proxy c))
  ∧ (∀ c c', outbound_cluster proxy c → outbound_cluster proxy c' → ci_Name c = ci_Name c' → ci_Tags c = ci_Tags c')
  ∧ ∀ c service e, ci_Tags c !! ServiceTag = Some service →
      (e ∈ cluster_endpoints proxy c ↔
         e ∈ default [] (px_OutboundTargets proxy !! service) ∧ TagSelector_Matches (ci_Tags c) (ep_Tags e) = true).
Proof.
  intros Hrs Hchars.
  assert (∀ c c', outbound_cluster proxy c → outbound_cluster proxy c' → ci_Name c = ci_Name c' → ci_Tags c = ci_Tags c') as Hinj.
  { intros c c' Hc Hc' Hn. destruct (outbound_cluster_name _ _ Hc) as (s & Hs & Hname).
    destruct (outbound_cluster_name _ _ Hc') as (s' & Hs' & Hname'). rewrite Hname, Hname' in Hn.
    eapply GetDestinationClusterName_inj; [exact Hs|exact Hs'|by apply Hchars..|exact Hn]. }
  split; [|split; [exact Hinj|]].
  - intros name cla. split.
    + intros (r & Hr & <- & Hcla). destruct (load_assignment_of _ _ _ _ _ Hrs Hr Hcla) as (c & Hc & Hn & ->).
      exists c. by rewrite Hn.
    + intros (c & Hc & -> & ->). pose proof Hc as (o & route & clusters & Ho & Hroute & Hcl & Hin).
      destruct (outbound_covers _ _ _ _ Hrs Ho) as (ofaces & i & items & Hitem & Hall).
      apply outbound_item_spec in Hitem as (route' & clusters' & edsClusters & oface & fc & tc & rest & Hroute' & Hcl' & Hes & _ & _
        & _ & ->). assert (route' = route) as -> by congruence. assert (clusters' = clusters) as -> by congruence.
      destruct (cluster_items ctx proxy clusters edsClusters c Hes Hin) as (e & _ & Hitems).
      destruct (Hall (mkXdsResource (ci_Name c) "" (XClusterLoadAssignment
        (CreateClusterLoadAssignment (ci_Name c) (cluster_endpoints proxy c))))) as (r & Hr & Hn & Ht).
      { apply elem_of_app. left. apply Hitems. right. left. }
      apply message_name_kind in Ht. cbn [xr_Resource xr_Name message_kind] in Ht, Hn.
      destruct (xr_Resource r) as [|cla| | |] eqn:Er; try done.
      exists r. split; [done|]. split; [done|]. destruct (load_assignment_of _ _ _ _ _ Hrs Hr Er) as (c' & Hc' & Hn' & ->).
      assert (ci_Tags c = ci_Tags c') as Htags by (apply Hinj; [done|done|congruence]).
      rewrite Er, <- Hn', <- Hn. unfold cluster_endpoints. by rewrite Htags.
  - intros c service e Hs. unfold cluster_endpoints, EndpointList_Filter. rewrite Hs.
    rewrite list_elem_of_In, filter_In, <- list_elem_of_In. done.
Qed.
End OutboundProps.

(** ** Generation succeeds *)

Section Total.
Context `{LawfulAny} `{XdsLibrary} `{ProtoMerge}.
Context (type_of : Message → string) (uint32_out_of_range : Double → Z).
(** Every message can be packed. *)
Context (packs : ∀ m, ∃ a, MarshalAny m = inr a).

Lemma default_formats_parse :
  is_ok (ParseFormat defaultHttpAccessLogFormat) = true ∧ is_ok (ParseFormat defaultNetworkAccessLogFormat) = true.
Proof. split; by vm_compute. Qed.

(** What generation needs of the policies and of the mesh. *)
Record generatable (ctx : XdsContext) (proxy : Proxy) : Prop := {
  gen_control_plane : is_Some (ctx_ControlPlane ctx);
  gen_inbound : is_ok (GetInboundInterfaces (proxy_networking proxy)) = true;
  gen_outbound : is_ok (GetOutboundInterfaces (proxy_networking proxy)) = true;
  gen_ip : is_ok (GetIP (Some (px_Dataplane proxy))) = true;
  gen_routes o : o ∈ GetOutbound (proxy_networking proxy) →
    ∃ route, px_TrafficRoutes proxy !! out_Service o = Some route
      ∧ Forall (λ d, is_Some (wd_Destination d !! ServiceTag)) (tr_Conf (r_Spec route));
  gen_logs service backend : proxy_log proxy service = Some backend →
    is_ok (ParseFormat (lb_Format backend)) = true ∧ is_Some (lb_Type backend);
  gen_faults endpoint fi bw : px_FaultInjections proxy !! endpoint = Some fi →
    fi_Conf fi ≫= fi_ResponseBandwidth = Some bw → is_ok (ConvertBandwidthToKbps (default "" (bw_Limit bw))) = true;
}.

(** A proxy that was made of resources that passed validation: its dataplane, the
    mesh of the context, which its logging backends are from, and its routes. *)
Record validated_proxy (ctx : XdsContext) (proxy : Proxy) : Prop := {
  vp_dataplane : Dataplane_Validate (px_Dataplane proxy) = Ok None;
  vp_mesh : Mesh_Validate (ctx_Mesh ctx) = None;
  vp_logs service backend : proxy_log proxy service = Some backend →
    ∃ l, mesh_Logging (r_Spec (ctx_Mesh ctx)) = Some l ∧ backend ∈ log_Backends l;
  vp_routes service route : px_TrafficRoutes proxy !! service = Some route → TrafficRoute_Validate route = None;
}.

(** A limit of the documented form, a number and a unit.  The validator accepts
    others too, for which generation fails ([validated_fault_panics]). *)
Definition documented_limit (l : string) : Prop :=
  ∃ n sep units factor, 0 ≤ n ∧ n * factor < 2 ^ 63 ∧ (sep = "" ∨ sep = " ") ∧ In (units, factor) unit_factors
    ∧ l = format_uint n +:+ sep +:+ units.

(** What the validators do not check. *)
Record unchecked (ctx : XdsContext) (proxy : Proxy) : Prop := {
  un_routed o : o ∈ GetOutbound (proxy_networking proxy) → is_Some (px_TrafficRoutes proxy !! out_Service o);
  un_limits endpoint fi bw : px_FaultInjections proxy !! endpoint = Some fi →
    fi_Conf fi ≫= fi_ResponseBandwidth = Some bw → documented_limit (default "" (bw_Limit bw));
  un_typed l backend : mesh_Logging (r_Spec (ctx_Mesh ctx)) = Some l → backend ∈ log_Backends l →
    is_Some (lb_Type backend);
}.

Lemma validated_generatable ctx proxy :
  is_Some (ctx_ControlPlane ctx) → validated_proxy ctx proxy → unchecked ctx proxy → generatable ctx proxy.
Proof.
  intros Hcp [Hd Hm Hl Hr] [Hrt Hlim Hty]. constructor; [done|..].
  - by destruct (validated_interfaces _ Hd) as [? Hi]; unfold proxy_networking; rewrite Hi.
  - by destruct (validated_outbounds _ Hd) as [? Ho]; unfold proxy_networking; rewrite Ho.
  - by destruct (validated_IP _ Hd) as [? ->].
  - intros o Ho. destruct (Hrt o Ho) as [route Hroute]. exists route. split; [done|].
    by eapply validated_route_destinations, Hr.
  - intros service backend Hb. destruct (Hl service backend Hb) as (l & El & Hin). split; [|by eapply Hty].
    apply Mesh_Validate_nil in Hm as (_ & Hlog & _). rewrite El in Hlog. apply validateLogging_nil in Hlog as [Hv _].
    rewrite Forall_forall in Hv. by apply validateLoggingBackend_nil, Hv.
  - intros endpoint fi bw Hfi Hbw. destruct (Hlim endpoint fi bw Hfi Hbw) as (n & sep & units & factor & Hn & Hf & Hs & Hu & ->).
    by rewrite (ConvertBandwidthToKbps_form n sep units factor).
Qed.

Lemma is_ok_Ok {A} (r : res A) : is_ok r = true ↔ ∃ a, r = Ok a.
Proof. destruct r; simpl; split; [eauto|done|done|by intros [? [=]]|done|by intros [? [=]]]. Qed.

Lemma pack_Ok {A} m (k : string → res A) : (∀ a, is_ok (k a) = true) → is_ok (or_return (MarshalAny m) k) = true.
Proof. intros Hk. destruct (packs m) as [a ->]. apply Hk. Qed.

Lemma rbind_is_ok {A B} (r : res A) (k : A → res B) : is_ok r = true → (∀ a, r = Ok a → is_ok (k a) = true) → is_ok (rbind r k) = true.
Proof. intros [a ->]%is_ok_Ok Hk. by apply Hk. Qed.

Lemma chain_refines_ok r r' : chain_refines r r' → is_ok r' = true → is_ok r = true.
Proof.
  intros Hr [tc ->]%is_ok_Ok. destruct r as [fc|e|]; [done| |done]. destruct Hr as [?|(m & e' & He)]; [done|].
  destruct (packs m) as [a Ha]. congruence.
Qed.

Lemma rmapM_is_ok {A B} (f : A → res B) l : (∀ x, x ∈ l → is_ok (f x) = true) → is_ok (rmapM f l) = true.
Proof. intros Hf. apply is_ok_Ok, rmapM_total. intros x Hx. by apply is_ok_Ok, Hf. Qed.

Lemma rfoldl_is_ok {A B} (f : A → B → res A) l a : (∀ a x, x ∈ l → is_ok (f a x) = true) → is_ok (rfoldl f a l) = true.
Proof.
  revert a. induction l as [|x l IH]; intros a Hf; simpl; [done|]. apply rbind_is_ok; [apply Hf; left|].
  intros a' _. apply IH. intros a0 y Hy. apply Hf. by right.
Qed.

Lemma map_err_is_ok {A} f (r : res A) : is_ok r = true → is_ok (map_err f r) = true.
Proof. by intros [a ->]%is_ok_Ok. Qed.

Lemma common_tls_ok ctx metadata : is_Some (ctx_ControlPlane ctx) → is_ok (CreateCommonTlsContext ctx metadata) = true.
Proof.
  intros [cp Hcp]. assert (∀ name, is_ok (sdsSecretConfig ctx name metadata) = true) as Hs.
  { intros name. unfold sdsSecretConfig. rewrite Hcp. apply rbind_is_ok; [|done]. unfold withCallCredentials.
    destruct (String.eqb _ _); [done|]. by apply pack_Ok. }
  unfold CreateCommonTlsContext. do 2 (apply rbind_is_ok; [apply Hs|intros ? _]). done.
Qed.

Lemma downstream_ok ctx metadata : is_Some (ctx_ControlPlane ctx) → is_ok (CreateDownstreamTlsContext ctx metadata) = true.
Proof.
  intros Hcp. unfold CreateDownstreamTlsContext. destruct (MTLSEnabled _); [|done]. apply rbind_is_ok; [by apply common_tls_ok|done].
Qed.

Lemma CreateEdsCluster_ok ctx name metadata : is_Some (ctx_ControlPlane ctx) → is_ok (CreateEdsCluster ctx name metadata) = true.
Proof.
  intros Hcp. unfold CreateEdsCluster, CreateUpstreamTlsContext. destruct (MTLSEnabled _); [|done]. cbn [negb].
  apply rbind_is_ok; [apply rbind_is_ok; [by apply common_tls_ok|done]|]. intros [tls|] _; [by apply pack_Ok|done].
Qed.

Lemma access_log_ok m s d backend ctx proxy format :
  generatable ctx proxy → is_ok (ParseFormat format) = true → is_ok (ParseFormat (lb_Format backend)) = true →
  is_Some (lb_Type backend) → is_ok (access_log m s d (Some backend) proxy format) = true.
Proof.
  intros Hg Hf Hb [t Ht]. unfold access_log, convertLoggingBackend.
  assert (is_ok (ParseFormat (if negb (String.eqb (lb_Format backend) "") then lb_Format backend else format)) = true)
    as [f ->]%is_ok_Ok by (by destruct (negb _)).
  apply rbind_is_ok; [apply (gen_ip _ _ Hg)|]. intros ip _. rewrite Ht. unfold fileAccessLog, tcpAccessLog, rmap.
  destruct t as [path|address].
  - destruct (packs (MAccessLog (FileAccessLog (Format_String (Interpolate (log_variables m s d ip) f)) path))) as [a ->]. done.
  - destruct (packs (MAccessLog (tcp_config (Interpolate (log_variables m s d ip) f) address))) as [a ->]. done.
Qed.

Lemma chain_logs_ok m s d ctx proxy format :
  generatable ctx proxy → is_ok (ParseFormat format) = true → is_ok (chain_logs m s d proxy format) = true.
Proof.
  intros Hg Hf. unfold chain_logs. destruct (proxy_log proxy d) as [backend|] eqn:E; [|done].
  destruct (gen_logs _ _ Hg _ _ E) as [Hb Ht]. apply rbind_is_ok; [by eapply access_log_ok|done].
Qed.

Lemma inbound_ok ctx proxy : generatable ctx proxy → is_ok (InboundProxyGenerator type_of uint32_out_of_range ctx proxy) = true.
Proof.
  intros Hg. rewrite InboundProxyGenerator_items. apply rbind_is_ok; [apply (gen_inbound _ _ Hg)|]. intros endpoints He.
  apply rbind_is_ok; [|done]. apply rmapM_is_ok. intros [i endpoint] Hie. unfold inbound_item.
  apply list_elem_of_lookup in Hie as [k Hk]. rewrite list_lookup_imap in Hk.
  destruct (endpoints !! k) as [ep|] eqn:Ek; [|done]. injection Hk as <- <-.
  pose proof (GetInboundInterfaces_nth _ _ _ _ He Ek) as Hnth.
  assert (∃ iface, GetInbound (proxy_networking proxy) !! k = Some iface) as [iface ->].
  { unfold GetInboundInterfaceByIdx in Hnth. destruct (proxy_networking proxy) as [n|]; [|done]. simpl.
    destruct (net_Inbound n !! k); [eauto|done]. }
  apply rbind_is_ok; [|done]. unfold inbound_listener, InboundListener. apply map_err_is_ok. rewrite listener_build_spec.
  apply rbind_is_ok; [|done]. eapply chain_refines_ok; [apply inbound_chain_refines|]. unfold inbound_typed, inbound_application.
  apply rbind_is_ok; [|intros app _; apply rbind_is_ok; [apply downstream_ok, (gen_control_plane _ _ Hg)|done]].
  destruct (ParseProtocol _); [done|done|]. apply rbind_is_ok; [|done].
  destruct (px_FaultInjections proxy !! ep) as [fi|] eqn:Efi; [|done]. unfold fault_filters, fault_config.
  apply rbind_is_ok; [|intros ? _; by apply pack_Ok]. apply rbind_is_ok; [|done]. unfold convertResponseRateLimit.
  destruct (fi_Conf fi ≫= fi_ResponseBandwidth) as [bw|] eqn:Ebw; [|done].
  apply rbind_is_ok; [by eapply (gen_faults _ _ Hg)|done].
Qed.

Lemma determineClusters_ok route :
  Forall (λ d, is_Some (wd_Destination d !! ServiceTag)) (tr_Conf (r_Spec route)) → is_ok (determineClusters route) = true.
Proof.
  intros Hall. unfold determineClusters. apply rfoldl_is_ok. intros acc [j d] Hd. apply list_elem_of_lookup in Hd as [k Hk].
  rewrite list_lookup_imap in Hk. destruct (tr_Conf (r_Spec route) !! k) as [d'|] eqn:E; [|done]. injection Hk as <- <-.
  unfold destination_cluster. rewrite Forall_lookup in Hall. destruct (Hall _ _ E) as [service ->].
  by destruct (wd_Weight d' =? 0).
Qed.

Lemma outbound_ok ctx proxy : generatable ctx proxy → is_ok (OutboundProxyGenerator type_of ctx proxy) = true.
Proof.
  intros Hg. rewrite OutboundProxyGenerator_items. destruct (GetOutbound (proxy_networking proxy)) as [|o0 os] eqn:Eo; [done|].
  rewrite <- Eo. apply rbind_is_ok; [apply (gen_outbound _ _ Hg)|]. intros ofaces Hof. apply rbind_is_ok; [|done].
  apply rmapM_is_ok. intros [i o] Hio. apply list_elem_of_lookup in Hio as [k Hk]. rewrite list_lookup_imap in Hk.
  destruct (GetOutbound (proxy_networking proxy) !! k) as [o'|] eqn:Ek; [|done]. injection Hk as <- <-.
  destruct (gen_routes _ _ Hg o') as (route & Hr & Hall); [by eapply list_elem_of_lookup_2|].
  unfold outbound_item. rewrite Hr. apply rbind_is_ok; [by apply determineClusters_ok|]. intros clusters _.
  apply rbind_is_ok.
  { unfold generateEds. apply rfoldl_is_ok. intros [acc eps] c _. apply rbind_is_ok; [|done].
    apply CreateEdsCluster_ok, (gen_control_plane _ _ Hg). }
  intros [eds endpoints] _. assert (∃ oface, ofaces !! k = Some oface) as [oface ->].
  { unfold GetOutboundInterfaces in Hof. destruct (proxy_networking proxy) as [n|]; [|done]. simpl in Ek.
    apply rmapM_Ok in Hof. destruct (Forall2_lookup_l _ _ _ _ _ Hof Ek) as (oface & Hof' & _). eauto. }
  apply rbind_is_ok; [|intros l _; apply rbind_is_ok; [by rewrite generateRds_spec|done]].
  unfold outbound_listener, OutboundListener. apply map_err_is_ok. rewrite listener_build_spec. apply rbind_is_ok; [|done].
  eapply chain_refines_ok; [apply outbound_chain_refines|]. unfold outbound_typed.
  destruct (InferServiceProtocol endpoints); (apply rbind_is_ok; [eapply chain_logs_ok; [exact Hg|apply default_formats_parse]|done]).
Qed.

Lemma passthrough_ok ctx proxy : generatable ctx proxy → is_ok (TransparentProxyGenerator type_of ctx proxy) = true.
Proof.
  intros Hg. unfold TransparentProxyGenerator. destruct (GetRedirectPort _ =? 0); [done|].
  apply rbind_is_ok; [|done]. apply map_err_is_ok.
  set (m := GetName _). set (s := GetIdentifyingService _).
  assert (is_ok (FilterChainBuilder_Build (FilterChainBuilder_Configure NewFilterChainBuilder
    [TcpProxyOpt "pass_through" [mkClusterInfo "pass_through" 0 ∅];
     NetworkAccessLog type_of m s "external" (proxy_log proxy PassThroughService) proxy])) = true) as [fc Hfc]%is_ok_Ok.
  { unfold NetworkAccessLog. destruct (proxy_log proxy PassThroughService) as [backend|] eqn:E.
    - destruct (gen_logs _ _ Hg _ _ E) as [Hb Ht].
      pose proof (access_log_ok m s "external" backend ctx proxy defaultNetworkAccessLogFormat Hg (proj2 default_formats_parse) Hb Ht)
        as [al Hal]%is_ok_Ok.
      eapply chain_refines_ok.
      + apply (implements_build _ [t_append TCPProxy (MTcpProxy (tcpProxy "pass_through" [mkClusterInfo "pass_through" 0 ∅]));
          λ tc, let? accessLog := access_log m s "external" (Some backend) proxy defaultNetworkAccessLogFormat in
                t_tcp type_of (log_tcp accessLog) tc]).
        constructor; [apply implements_append|]. constructor; [|constructor]. apply implements_bind. intros a _. apply implements_update.
      + cbn [rfoldl]. by rewrite Hal.
    - eapply chain_refines_ok.
      + apply (implements_build _ [t_append TCPProxy (MTcpProxy (tcpProxy "pass_through" [mkClusterInfo "pass_through" 0 ∅]))]).
        constructor; [apply implements_append|constructor].
      + done. }
  unfold ListenerBuilder_Configure, Builder_Configure, ListenerBuilder_Build, Builder_Build, OutboundListener, listener_at,
    FilterChainOpt, OriginalDstForwarder, Config_Add. cbn [foldl app NewListenerBuilder rfoldl rbind]. by rewrite Hfc.
Qed.

Lemma prometheus_ok ctx proxy : is_ok (PrometheusEndpointGenerator ctx proxy) = true.
Proof.
  unfold PrometheusEndpointGenerator. destruct (GetPrometheusEndpoint _ _) as [endpoint|]; [|done].
  destruct (GetAdminPort _ =? 0); [done|]. destruct (UsesInterface _ _ _); [done|]. apply rbind_is_ok; [|done].
  unfold InboundListener. rewrite listener_build_spec. apply rbind_is_ok; [|done].
  unfold FilterChainBuilder_Build, FilterChainBuilder_Configure, Builder_Configure, PrometheusEndpoint, Config_Add, Builder_Build.
  cbn [foldl app NewFilterChainBuilder rfoldl]. apply rbind_is_ok; [|done]. unfold append_filter. by apply pack_Ok.
Qed.

(** C14: The default profile generates a configuration for every proxy of a control
    plane whose dataplane, mesh (with its logging backends) and routes passed
    validation, provided what validation does not check: every outbound has a route,
    the bandwidth limits of its fault injections are a number and a unit, and the
    logging backends of the mesh have a type.  Then no generator fails or panics, and
    the resources are those of the four generators in order. *)
Theorem default_profile_total ctx proxy :
  is_Some (ctx_ControlPlane ctx) → validated_proxy ctx proxy → unchecked ctx proxy →
  ∃ prometheus passthrough inbound outbound,
    PrometheusEndpointGenerator ctx proxy = Ok prometheus
    ∧ TransparentProxyGenerator type_of ctx proxy = Ok passthrough
    ∧ InboundProxyGenerator type_of uint32_out_of_range ctx proxy = Ok inbound
    ∧ OutboundProxyGenerator type_of ctx proxy = Ok outbound
    ∧ TemplateProxyGenerator type_of uint32_out_of_range (Some DefaultProxyTemplate) ctx proxy
      = Ok (prometheus ++ passthrough ++ inbound ++ outbound).
Proof.
  intros Hcp Hv Hu. pose proof (validated_generatable ctx proxy Hcp Hv Hu) as Hg.
  pose proof (prometheus_ok ctx proxy) as [p Hp]%is_ok_Ok.
  pose proof (passthrough_ok ctx proxy Hg) as [t Ht]%is_ok_Ok. pose proof (inbound_ok ctx proxy Hg) as [i Hi]%is_ok_Ok.
  pose proof (outbound_ok ctx proxy Hg) as [o Ho]%is_ok_Ok. exists p, t, i, o.
  do 4 (split; [done|]). unfold TemplateProxyGenerator, ProxyTemplateProfileSource.
  cbn [DefaultProxyTemplate pt_Imports pt_Resources imap rfoldl]. unfold predefinedProfiles. rewrite lookup_singleton_eq.
  unfold NewDefaultProxyProfile, CompositeResourceGenerator. cbn [rfoldl].
  rewrite Hp. cbn [rbind]. rewrite Ht. cbn [rbind]. rewrite Hi. cbn [rbind]. rewrite Ho. cbn [rbind map_err].
  unfold ProxyTemplateRawSource. cbn [imap rmapM map_err rbind app]. by rewrite app_nil_r, <- !app_assoc.
Qed.
End Total.

(** A fault injection with a delay and an empty bandwidth limitation, written
    [responseBandwidth: {}], passes validation, and generation panics on it; one
    whose limit has no number passes too, and generation fails. *)
Definition fault_with (bandwidth : ResponseBandwidth) : FaultInjection :=
  let selector := mkSelector (<[ProtocolTag := "http"]> (MatchService "backend")) in
  mkFaultInjection [selector] [selector]
    (Some (mkFaultConf (Some (mkDelay (Some (Finite (QArith_base.Qmake 50 1))) (Some (mkDuration 5 0)))) None (Some bandwidth))).

Lemma validated_fault_panics uint32_out_of_range :
  FaultInjection_Validate (mkResource (mkMeta "fi" "default" "" 0 0) (fault_with (mkBandwidth None None))) = None
  ∧ convertResponseRateLimit uint32_out_of_range (fi_Conf (fault_with (mkBandwidth None None)) ≫= fi_ResponseBandwidth) = Panic
  ∧ FaultInjection_Validate (mkResource (mkMeta "fi" "default" "" 0 0)
      (fault_with (mkBandwidth (Some (Finite (QArith_base.Qmake 50 1))) (Some "kbps")))) = None
  ∧ ∃ e, convertResponseRateLimit uint32_out_of_range
      (fi_Conf (fault_with (mkBandwidth (Some (Finite (QArith_base.Qmake 50 1))) (Some "kbps"))) ≫= fi_ResponseBandwidth) = Err e.
Proof. split; [by vm_compute|]. split; [reflexivity|]. split; [by vm_compute|]. by eexists. Qed.

(** ** A proxy *)

Definition sample_library : XdsLibrary :=
  {| YAMLToJSON s := inr s; jsonpb_Unmarshal s := inr s; UnmarshalResource s := inr (Some (XOther "raw" s));
     Message_Validate _ := None;
     MessageName m := match m with XCluster _ => "Cluster" | XClusterLoadAssignment _ => "ClusterLoadAssignment"
       | XListener _ => "Listener" | XRouteConfiguration _ => "RouteConfiguration" | XOther t _ => "other:" +:+ t end |}.

Definition sample_context : XdsContext :=
  mkContext (Some (mkControlPlaneContext "kuma:5677" "cert"))
    (mkResource (mkMeta "default" "default" "" 0 0) (mkMesh (Some (mkMtls "builtin" [mkCaBackend "builtin" "builtin" None])) None None None)).
Definition sample_endpoint : InboundInterface := mkInboundInterface "192.168.0.1" 80 8080.
Definition generated_permission : TrafficPermissionResource :=
  mkResource (mkMeta "web-only" "default" "" 0 0)
    (mkTrafficPermission [mkSelector {[ServiceTag := "web"]}] [mkSelector {[ServiceTag := "backend"]}]).
Definition sample_proxy : Proxy :=
  mkProxy (mkProxyId "default" "dp-1")
    (mkResource (mkMeta "dp-1" "default" "" 0 0)
      (mkDataplane (Some (mkNetworking "192.168.0.1" [mkInbound "" 80 8080 "" (MatchService "backend")]
                            [mkOutbound "" "" 10001 "db"] None)) None))
    {[sample_endpoint := generated_permission]} ∅ ∅ ∅ ∅ ∅ None None None ∅.
Definition sample_secret (name : string) : SdsSecretConfig :=
  mkSdsSecretConfig name (mkGoogleGrpc "kuma:5677" ("sds_" +:+ name) "cert" [] "").
Definition sample_messages : list Message :=
  [MTcpProxy (mkTcpProxy "localhost_8080" (ToCluster "localhost:8080") []);
   MDownstreamTlsContext (mkCommonTlsContext (sample_secret "mesh_ca") [sample_secret "identity_cert"]) true;
   MRBAC (createRbacRule "inbound:192.168.0.1:80" (Some generated_permission))].

Definition sample_inbound : list GenResource :=
  match @InboundProxyGenerator (table_codec sample_messages) sample_library (λ _, "") (λ _, 0) sample_context sample_proxy with
  | Ok rs => rs | _ => [] end.

(** The service [web] may connect, the service [db] may not. *)
Lemma inbound_security_witness :
  ∃ l fc f rest rbac,
    (∃ r, r ∈ sample_inbound ∧ xr_Resource r = XListener l) ∧ ln_FilterChains l = [fc] ∧ fc_Filters fc = f :: rest
    ∧ @filter_view (table_codec sample_messages) f (RoleBasedAccessControl, MRBAC rbac)
    ∧ rbac_allows rbac (spiffe_id "default" "web") ∧ ¬ rbac_allows rbac (spiffe_id "default" "db").
Proof.
  assert (@InboundProxyGenerator (table_codec sample_messages) sample_library (λ _, "") (λ _, 0) sample_context sample_proxy
          = Ok sample_inbound) as Hgen by (by vm_compute).
  assert (∃ r l, r ∈ sample_inbound ∧ xr_Resource r = XListener l) as (r & l & Hr & Hl).
  { vm_compute. eexists _, _. split; [right; left|reflexivity]. }
  pose proof (table_codec_lawful sample_messages) as Hlaw.
  destruct (inbound_security (λ _, "") (λ _, 0) sample_context sample_proxy sample_inbound r l Hgen eq_refl Hr Hl)
    as (i & endpoint & fc & f & rest & rbac & Hi & Haddr & Hfc & _ & Hf & Hv & Hallow).
  assert (endpoint = sample_endpoint) as ->.
  { destruct i as [|i]; [by injection Hi as <-|]. exfalso. by destruct i. }
  exists l, fc, f, rest, rbac. split; [eauto|]. split; [done|]. split; [done|]. split; [done|].
  split.
  - apply Hallow. exists generated_permission. split; [apply lookup_singleton_eq|].
    exists (mkSelector {[ServiceTag := "web"]}). split; [constructor|]. by right.
  - intros (p & Hp & source & Hs & Hm)%Hallow. cbn [sample_proxy px_TrafficPermissions] in Hp.
    rewrite lookup_singleton_eq in Hp. injection Hp as <-. apply list_elem_of_singleton in Hs as ->.
    destruct Hm as [Hm|Hm]; vm_compute in Hm; discriminate Hm.
Defined.

Lemma sample_lawful : @LawfulXds sample_library.
Proof. constructor. intros m m'. by destruct m, m'. Qed.

Definition sample_route : TrafficRouteResource :=
  mkResource (mkMeta "db-v1" "default" "" 0 0)
    (mkTrafficRoute [mkSelector MatchAnyService] [mkSelector (MatchService "db")]
       [mkWeightedDestination 10 (<["version" := "1"]> (MatchService "db")); mkWeightedDestination 0 (MatchService "db")]).
Definition sample_target (version : string) : Endpoint :=
  mkEndpoint ("10.0.0." +:+ version) 5432 (<["version" := version]> (<[ProtocolTag := "http"]> (MatchService "db"))).
Definition sample_out_proxy : Proxy :=
  mkProxy (mkProxyId "default" "dp-1") (px_Dataplane sample_proxy) ∅ ∅ {["db" := sample_route]} ∅
    {["db" := [sample_target "1"; sample_target "2"]]} ∅ None None None ∅.
Definition sample_out_messages : list Message :=
  [MUpstreamTlsContext (mkCommonTlsContext (sample_secret "mesh_ca") [sample_secret "identity_cert"]);
   MHttpConnectionManager (mkHcm "db" [mkHttpFilter Router None] None None []);
   MHttpConnectionManager (mkHcm "db" [mkHttpFilter Router None] (Some (Rds "outbound:db")) None [])].
Definition sample_outbound : list GenResource :=
  match @OutboundProxyGenerator (table_codec sample_out_messages) sample_library (λ _, "") sample_context sample_out_proxy with
  | Ok rs => rs | _ => [] end.

Lemma sample_outbound_Ok :
  @OutboundProxyGenerator (table_codec sample_out_messages) sample_library (λ _, "") sample_context sample_out_proxy
  = Ok sample_outbound.
Proof. by vm_compute. Qed.

Lemma outbound_references_witness :
  ∃ l fc f, (∃ r, r ∈ sample_outbound ∧ xr_Resource r = XListener l) ∧ ln_FilterChains l = [fc] ∧ fc_Filters fc = [f]
    ∧ @filter_resolves (table_codec sample_out_messages) sample_outbound f.
Proof.
  assert (∃ r l, r ∈ sample_outbound ∧ xr_Resource r = XListener l) as (r & l & Hr & Hl).
  { vm_compute. eexists _, _. split; [right; right; left|reflexivity]. }
  pose proof (@outbound_references _ (table_codec_lawful sample_out_messages) sample_library (λ _, "") sample_lawful
    sample_context sample_out_proxy sample_outbound r sample_outbound_Ok Hr) as Href.
  rewrite Hl in Href. destruct Href as (fc & f & Hfc & Hf & Hres). exists l, fc, f. split; [eauto|]. done.
Defined.

Lemma sample_clusters :
  determineClusters sample_route = Ok [mkClusterInfo "db{version=1}" 10 (<["version" := "1"]> (MatchService "db"))].
Proof. by vm_compute. Qed.

(** Only the target of version 1 is generated. *)
Lemma outbound_endpoints_witness :
  ∃ r, r ∈ sample_outbound ∧ xr_Resource r = XClusterLoadAssignment
    (CreateClusterLoadAssignment "db{version=1}" [sample_target "1"]).
Proof.
  assert (outbound_cluster sample_out_proxy (mkClusterInfo "db{version=1}" 10 (<["version" := "1"]> (MatchService "db")))) as Hc.
  { exists (mkOutbound "" "" 10001 "db"), sample_route. eexists. split; [left|]. split; [reflexivity|].
    split; [apply sample_clusters|left]. }
  assert (∀ c, outbound_cluster sample_out_proxy c → chars_ok (ci_Tags c)) as Hchars.
  { intros c (o & route & clusters & Ho & Hroute & Hcl & Hin). apply list_elem_of_singleton in Ho as ->.
    assert (px_TrafficRoutes sample_out_proxy !! "db" = Some sample_route) as Hdb by reflexivity.
    cbn [out_Service] in Hroute. rewrite Hdb in Hroute. assert (route = sample_route) as -> by congruence. rewrite sample_clusters in Hcl. injection Hcl as <-. apply list_elem_of_singleton in Hin as ->.
    cbn [ci_Tags].
    intros k v [[<- <-]|[_ Hkv]]%lookup_insert_Some; [done|]. unfold MatchService in Hkv. by apply lookup_singleton_Some in Hkv as [<- <-]. }
  destruct (@outbound_endpoints _ (table_codec_lawful sample_out_messages) sample_library (λ _, "") sample_lawful
    sample_context sample_out_proxy sample_outbound sample_outbound_Ok Hchars) as (Hcla & _ & _).
  destruct (proj2 (Hcla "db{version=1}" (CreateClusterLoadAssignment "db{version=1}" [sample_target "1"]))) as (r & Hr & _ & Hm).
  - eexists. split; [exact Hc|]. split; [done|]. by vm_compute.
  - exists r. done.
Defined.

(** A proxy with a logging backend and a fault injection. *)
Definition sample_backend : LoggingBackend := mkLoggingBackend "file" "%START_TIME% %KUMA_MESH%" (Some (LogFile "/tmp/access.log")).
Definition sample_total_context : XdsContext :=
  mkContext (Some (mkControlPlaneContext "kuma:5677" "cert"))
    (mkResource (mkMeta "default" "default" "" 0 0)
      (mkMesh (Some (mkMtls "builtin" [mkCaBackend "builtin" "builtin" None])) None (Some (mkLogging "file" [sample_backend])) None)).
Definition sample_total_proxy : Proxy :=
  mkProxy (mkProxyId "default" "dp-1")
    (mkResource (mkMeta "dp-1" "default" "" 0 0)
      (mkDataplane (Some (mkNetworking "192.168.0.1"
         [mkInbound "" 80 8080 "" (<[ProtocolTag := "http"]> (MatchService "backend"))] [mkOutbound "" "" 10001 "db"] None)) None))
    {[sample_endpoint := generated_permission]} {["db" := Some sample_backend]} {["db" := sample_route]} ∅
    {["db" := [sample_target "1"; sample_target "2"]]} ∅ None None None
    {[sample_endpoint := fault_with (mkBandwidth (Some (Finite (QArith_base.Qmake 50 1))) (Some "120 mbps"))]}.

Lemma sample_validated : validated_proxy sample_total_context sample_total_proxy.
Proof.
  constructor; [by vm_compute|by vm_compute|..].
  - intros service backend Hb. eexists. split; [reflexivity|]. unfold proxy_log in Hb. cbn [px_Logs sample_total_proxy] in Hb.
    destruct ({["db" := Some sample_backend]} !! service) as [o|] eqn:E; [|discriminate Hb].
    apply lookup_singleton_Some in E as [_ <-]. injection Hb as <-. left.
  - intros service route. cbn [px_TrafficRoutes sample_total_proxy]. intros [_ <-]%lookup_singleton_Some. by vm_compute.
Qed.

Lemma sample_unchecked : unchecked sample_total_context sample_total_proxy.
Proof.
  constructor.
  - intros o Ho. apply list_elem_of_singleton in Ho as ->. by eexists.
  - intros endpoint fi bw. cbn [px_FaultInjections sample_total_proxy]. intros [_ <-]%lookup_singleton_Some [= <-].
    exists 120, " ", "mbps", 1000. split; [lia|]. split; [reflexivity|]. split; [by right|]. split; [right; by left|reflexivity].
  - intros l backend [= <-] Hb. apply list_elem_of_singleton in Hb as ->. by eexists.
Qed.

Lemma default_profile_total_witness :
  ∃ rs, @TemplateProxyGenerator full_codec sample_library sample_merge (λ _, "") (λ _, 0) (Some DefaultProxyTemplate)
          sample_total_context sample_total_proxy = Ok rs.
Proof.
  destruct (@default_profile_total full_codec full_codec_lawful sample_library sample_merge (λ _, "") (λ _, 0) full_codec_packs
    sample_total_context sample_total_proxy ltac:(by eexists) sample_validated sample_unchecked) as (p & t & i & o & _ & _ & _ & _ & Hrs).
  eauto.
Defined.
