(* ===== verification/Rest.v ===== *)
(** * Resources over HTTP

    Models [pkg/core/resources/model/rest]: the JSON documents of resources and
    of lists of resources, the paths they live under, and the conversion from
    resources; [pkg/api-server/definitions]: the resources the API server
    offers; and [pkg/core/rest/errors/types]: the document of an error. *)

From S2P Require Import Prelude GoStd Dataplane Resources Store Json GoTime.
Local Open Scope string_scope.
Local Open Scope list_scope.
Local Open Scope Z_scope.

(** ** resource.go *)

Record RestMeta : Type := mkRestMeta {
  rm_Type : string;
  rm_Mesh : string; (* omitted when empty *)
  rm_Name : string;
  rm_CreationTime : Z;
  rm_ModificationTime : Z;
}.
#[global] Instance RestMeta_eq_dec : EqDecision RestMeta.
Proof. solve_decision. Defined.

(** [rest.ResourceMeta{}]. *)
Definition emptyRestMeta : RestMeta := mkRestMeta "" "" "" zeroTime zeroTime.

(** The spec is an interface; nil is [None]. *)
Record RestResource : Type := mkRestResource { rr_Meta : RestMeta; rr_Spec : option ResourceSpec }.

Record RestResourceList : Type := mkRestList { rl_Items : list RestResource; rl_Next : option string }.

(** The error of a custom marshaller as [encoding/json] reports it. *)
Definition MarshalerError (type : string) (e : goerror) : goerror :=
  Wrapf e "json: error calling MarshalJSON for type %s" [AStr type].
Definition UnmarshalTypeError (value type : string) : goerror :=
  Errorf "json: cannot unmarshal %s into Go value of type %s" [AStr value; AStr type].
Definition SyntaxError : goerror := Errorf "invalid character in JSON document" [].

(** The fields of [ResourceMeta] by their tags. *)
Definition meta_json (m : RestMeta) : res json :=
  let? created := map_err (MarshalerError "time.Time") (Time_MarshalJSON (rm_CreationTime m)) in
  let? modified := map_err (MarshalerError "time.Time") (Time_MarshalJSON (rm_ModificationTime m)) in
  Ok (JObj ([("type", JStr (rm_Type m))]
            ++ (if String.eqb (rm_Mesh m) "" then [] else [("mesh", JStr (rm_Mesh m))])
            ++ [("name", JStr (rm_Name m)); ("creationTime", created); ("modificationTime", modified)])).

Section Marshal.
Context `{Jsonpb}.

Definition Resource_MarshalJSON (r : RestResource) : res string :=
  let? specBytes := match rr_Spec r with Some spec => jsonpb_Marshal spec | None => Ok "" end in
  let? meta := meta_json (rr_Meta r) in
  let metaJSON := print true meta in
  if Nat.eqb (String.length specBytes) 0 || String.eqb specBytes "{}" then Ok metaJSON
  else Ok (stake (String.length metaJSON - 1) metaJSON +:+ "," +:+ sdrop 1 specBytes).

(** [json.Marshal] of a [*Resource]: the document of the marshaller, compacted. *)
Definition Resource_tokens (html : bool) (r : RestResource) : res (list token) :=
  let? s := map_err (MarshalerError "*rest.Resource") (Resource_MarshalJSON r) in
  match compact html s with
  | Some ts => Ok ts
  | None => Err (MarshalerError "*rest.Resource" SyntaxError)
  end.
Definition Resource_Marshal (r : RestResource) : res string := rmap text (Resource_tokens true r).

(** A [*ResourceList]. *)
Definition ResourceList_tokens (html : bool) (l : RestResourceList) : res (list token) :=
  let? items := rmapM (Resource_tokens html) (rl_Items l) in
  Ok (object_tokens
        [member_tokens html "items" (array_tokens items);
         member_tokens html "next" (match rl_Next l with
                                    | Some next => [TQuoted html next]
                                    | None => [TLit "null"]
                                    end)]).

(** One member of a document decoded into the metadata; a field that cannot
    take the value is left as it is and the first such error is kept. *)
Definition save_error (old : res unit) (new : goerror) : res unit :=
  match old with Ok _ => Err new | _ => old end.

Definition decode_string (v : json) (old : string) : res string :=
  match v with
  | JStr s => Ok s
  | JNull => Ok old
  | _ => Err (UnmarshalTypeError "value" "string")
  end.

Definition decode_member (st : res unit * RestMeta) (f : string * json) : res unit * RestMeta :=
  let '(err, m) := st in
  let set {A} (r : res A) (put : A → RestMeta) : res unit * RestMeta :=
    match r with Ok a => (err, put a) | Err e => (save_error err e, m) | Panic => (Panic, m) end in
  if is_field "type" f.1 then
    set (decode_string f.2 (rm_Type m)) (λ s, mkRestMeta s (rm_Mesh m) (rm_Name m) (rm_CreationTime m) (rm_ModificationTime m))
  else if is_field "mesh" f.1 then
    set (decode_string f.2 (rm_Mesh m)) (λ s, mkRestMeta (rm_Type m) s (rm_Name m) (rm_CreationTime m) (rm_ModificationTime m))
  else if is_field "name" f.1 then
    set (decode_string f.2 (rm_Name m)) (λ s, mkRestMeta (rm_Type m) (rm_Mesh m) s (rm_CreationTime m) (rm_ModificationTime m))
  else if is_field "creationTime" f.1 then
    set (Time_UnmarshalJSON f.2 (rm_CreationTime m)) (λ t, mkRestMeta (rm_Type m) (rm_Mesh m) (rm_Name m) t (rm_ModificationTime m))
  else if is_field "modificationTime" f.1 then
    set (Time_UnmarshalJSON f.2 (rm_ModificationTime m)) (λ t, mkRestMeta (rm_Type m) (rm_Mesh m) (rm_Name m) (rm_CreationTime m) t)
  else (err, m).

(** [json.Unmarshal(data, &meta)]. *)
Definition RestMeta_Unmarshal (data : string) (m : RestMeta) : res unit * RestMeta :=
  match parse data with
  | None => (Err SyntaxError, m)
  | Some (JObj fields) => foldl decode_member (Ok (), m) fields
  | Some JNull => (Ok (), m)
  | Some _ => (Err (UnmarshalTypeError "value" "rest.ResourceMeta"), m)
  end.

Definition Resource_UnmarshalJSON (data : string) (r : RestResource) : res unit * RestResource :=
  let (err, meta) := RestMeta_Unmarshal data (rr_Meta r) in
  let r := mkRestResource meta (rr_Spec r) in
  match err with
  | Ok _ =>
      match rr_Spec r with
      | None => (Ok (), r)
      | Some spec =>
          let (err, spec') := jsonpb_Unmarshal data spec in
          (err, mkRestResource meta (Some spec'))
      end
  | err => (err, r)
  end.

(** [json.Unmarshal(data, &resource)]: the unmarshaller sees the value only. *)
Definition Resource_Unmarshal (data : string) (r : RestResource) : res unit * RestResource :=
  match parse data with
  | None => (Err SyntaxError, r)
  | Some _ => Resource_UnmarshalJSON (trim data) r
  end.

(** The fields of the local [List] type: raw items and the link. *)
Record RawList : Type := mkRawList { raw_list_Items : list (list token); raw_list_Next : option string }.

Definition raw_list_member (st : res unit * RawList) (f : string * list token) : res unit * RawList :=
  let '(err, l) := st in
  if is_field "items" f.1 then
    match f.2 with
    | [TLit "null"] => (err, mkRawList [] (raw_list_Next l))
    | value =>
        match array_items value with
        | Some items => (err, mkRawList items (raw_list_Next l))
        | None => (save_error err (UnmarshalTypeError "value" "[]*json.RawMessage"), l)
        end
    end
  else if is_field "next" f.1 then
    match f.2 with
    | [TLit "null"] => (err, mkRawList (raw_list_Items l) None)
    | [TStr raw] => (err, mkRawList (raw_list_Items l) (decode_body raw))
    | _ => (save_error err (UnmarshalTypeError "value" "string"), l)
    end
  else (err, l).

Definition RawList_Unmarshal (data : string) : res unit * RawList :=
  match lex Between data ≫= λ ts, parse_tokens ts ≫= λ v, Some (v, ts) with
  | None => (Err SyntaxError, mkRawList [] None)
  | Some (JNull, _) => (Ok (), mkRawList [] None)
  | Some (_, ts) =>
      match document_members ts with
      | Some members => foldl raw_list_member (Ok (), mkRawList [] None) members
      | None => (Err (UnmarshalTypeError "value" "rest.List"), mkRawList [] None)
      end
  end.

(** One item of the list: the metadata is read twice, as in the code. *)
Definition receive_item (NewSpec : ResourceSpec) (li : list token) : res RestResource :=
  let b := raw_text li in
  let (err, meta) := RestMeta_Unmarshal b emptyRestMeta in
  let? _ := err in
  let (err, r) := Resource_Unmarshal b (mkRestResource meta (Some NewSpec)) in
  let? _ := err in Ok r.

(** [ResourceListReceiver.UnmarshalJSON]; the constructor of resources is given
    by the zero message of the resource it makes, [None] when it is nil. *)
Definition ResourceListReceiver_UnmarshalJSON (NewResource : option ResourceSpec) (data : string)
  : res RestResourceList :=
  match NewResource with
  | None => Err (Errorf "NewResource must not be nil" [])
  | Some NewSpec =>
      let (err, l) := RawList_Unmarshal data in
      let? _ := err in
      let? items := rmapM (receive_item NewSpec) (raw_list_Items l) in
      Ok (mkRestList items (raw_list_Next l))
  end.
Definition ResourceListReceiver_Unmarshal (NewResource : option ResourceSpec) (data : string)
  : res RestResourceList :=
  match parse data with
  | None => Err SyntaxError
  | Some _ => ResourceListReceiver_UnmarshalJSON NewResource (trim data)
  end.
End Marshal.

(** ** converter.go *)

Definition From_Resource (r : Object) : res RestResource :=
  match o_Meta r with
  | None => Panic
  | Some m =>
      let meta := observe m in
      let meshName := if negb (String.eqb (GetType r) (type_name KMesh)) then GetMesh meta else "" in
      Ok (mkRestResource (mkRestMeta (GetType r) meshName (GetName meta)
                            (GetCreationTime meta) (GetModificationTime meta)) (Some (o_Spec r)))
  end.

Definition From_ResourceList (rs : ObjectList) : res RestResourceList :=
  let? items := rmapM From_Resource (GetItems rs) in Ok (mkRestList items None).

(** ** api.go *)

Inductive ResourceApi : Type := meshApi | resourceApi (CollectionPath : string).

Definition NewResourceApi (resType path : string) : ResourceApi :=
  if String.eqb resType (type_name KMesh) then meshApi else resourceApi path.

Definition Api_List (r : ResourceApi) (mesh : string) : string :=
  match r with
  | meshApi => "/meshes"
  | resourceApi path => "/meshes/" +:+ mesh +:+ "/" +:+ path
  end.
Definition Api_Item (r : ResourceApi) (mesh name : string) : string :=
  match r with
  | meshApi => "/meshes/" +:+ name
  | resourceApi path => "/meshes/" +:+ mesh +:+ "/" +:+ path +:+ "/" +:+ name
  end.

Abbreviation ApiDescriptor := (gmap string ResourceApi).

Definition GetResourceApi (m : ApiDescriptor) (typ : string) : res ResourceApi :=
  match m !! typ with
  | None => Err (Errorf "unknown resource type: %q" [AStr typ])
  | Some mapping => Ok mapping
  end.

(** ** api-server/definitions *)

Record ResourceWsDefinition : Type := mkWsDefinition {
  ws_Name : string;
  ws_Path : string;
  ResourceFactory : Object;         (* a fresh resource *)
  ResourceListFactory : ObjectList; (* a fresh list *)
}.

Definition MeshWsDefinition := mkWsDefinition "Mesh" "meshes" (new_object KMesh) (new_list KMesh).
Definition DataplaneWsDefinition :=
  mkWsDefinition "Dataplane" "dataplanes" (new_object KDataplane) (new_list KDataplane).
Definition DataplaneInsightWsDefinition :=
  mkWsDefinition "Dataplane Insight" "dataplane-insights" (new_object KDataplaneInsight) (new_list KDataplaneInsight).
Definition HealthCheckWsDefinition :=
  mkWsDefinition "HealthCheck" "health-checks" (new_object KHealthCheck) (new_list KHealthCheck).
Definition ProxyTemplateWsDefinition :=
  mkWsDefinition "ProxyTemplate" "proxytemplates" (new_object KProxyTemplate) (new_list KProxyTemplate).
Definition TrafficPermissionWsDefinition :=
  mkWsDefinition "Traffic Permission" "traffic-permissions" (new_object KTrafficPermission) (new_list KTrafficPermission).
Definition TrafficLogWsDefinition :=
  mkWsDefinition "Traffic Logging" "traffic-logs" (new_object KTrafficLog) (new_list KTrafficLog).
Definition TrafficRouteWsDefinition :=
  mkWsDefinition "TrafficRoute" "traffic-routes" (new_object KTrafficRoute) (new_list KTrafficRoute).
Definition TrafficTraceWsDefinition :=
  mkWsDefinition "Traffic Trace" "traffic-traces" (new_object KTrafficTrace) (new_list KTrafficTrace).
Definition FaultInjectionWsDefinition :=
  mkWsDefinition "Fault Injection" "fault-injections" (new_object KFaultInjection) (new_list KFaultInjection).

Definition All : list ResourceWsDefinition :=
  [MeshWsDefinition; DataplaneWsDefinition; DataplaneInsightWsDefinition; HealthCheckWsDefinition;
   ProxyTemplateWsDefinition; TrafficPermissionWsDefinition; TrafficLogWsDefinition;
   TrafficRouteWsDefinition; TrafficTraceWsDefinition; FaultInjectionWsDefinition].

Definition Apis (wss : list ResourceWsDefinition) : ApiDescriptor :=
  foldl (λ mapping ws,
    let resourceType := GetType (ResourceFactory ws) in
    <[resourceType := NewResourceApi resourceType (ws_Path ws)]> mapping) ∅ wss.
Definition AllApis : ApiDescriptor := Apis All.

(** ** rest/errors/types *)

Record Cause : Type := mkCause { c_Field : string; c_Message : string }.
Record ApiError : Type := mkApiError { e_Title : string; e_Details : string; e_Causes : list Cause }.
#[global] Instance Cause_eq_dec : EqDecision Cause.
Proof. solve_decision. Defined.
#[global] Instance ApiError_eq_dec : EqDecision ApiError.
Proof. solve_decision. Defined.

Definition ApiError_Error (e : ApiError) : string :=
  foldl (λ msg cause, msg +:+ ";" +:+ c_Field cause +:+ "=" +:+ c_Message cause +:+ " ")
    (e_Title e +:+ " (" +:+ e_Details e +:+ ")") (e_Causes e).

(** An error of the API as an [error]. *)
Definition apiFailed (e : ApiError) : goerror :=
  ErrorStruct "*types.Error"
    ([("Title", e_Title e); ("Details", e_Details e)]
     ++ ((λ c, (c_Field c, c_Message c)) <$> e_Causes e)) (ApiError_Error e).

(** The fields by their tags. *)
Definition Cause_json (c : Cause) : json :=
  JObj [("field", JStr (c_Field c)); ("message", JStr (c_Message c))].
Definition ApiError_json (e : ApiError) : json :=
  JObj ([("title", JStr (e_Title e)); ("details", JStr (e_Details e))]
        ++ match e_Causes e with [] => [] | causes => [("causes", JArr (Cause_json <$> causes))] end).

Definition decode_cause_member (st : res unit * Cause) (f : string * json) : res unit * Cause :=
  let '(err, c) := st in
  if is_field "field" f.1 then
    match decode_string f.2 (c_Field c) with
    | Ok s => (err, mkCause s (c_Message c)) | Err e => (save_error err e, c) | Panic => (Panic, c) end
  else if is_field "message" f.1 then
    match decode_string f.2 (c_Message c) with
    | Ok s => (err, mkCause (c_Field c) s) | Err e => (save_error err e, c) | Panic => (Panic, c) end
  else (err, c).

Definition decode_cause (v : json) : res Cause :=
  match v with
  | JObj fields => let (err, c) := foldl decode_cause_member (Ok (), mkCause "" "") fields in rmap (λ _, c) err
  | JNull => Ok (mkCause "" "")
  | _ => Err (UnmarshalTypeError "value" "types.Cause")
  end.

Definition decode_error_member (st : res unit * ApiError) (f : string * json) : res unit * ApiError :=
  let '(err, e) := st in
  let set {A} (r : res A) (put : A → ApiError) : res unit * ApiError :=
    match r with Ok a => (err, put a) | Err x => (save_error err x, e) | Panic => (Panic, e) end in
  if is_field "title" f.1 then
    set (decode_string f.2 (e_Title e)) (λ s, mkApiError s (e_Details e) (e_Causes e))
  else if is_field "details" f.1 then
    set (decode_string f.2 (e_Details e)) (λ s, mkApiError (e_Title e) s (e_Causes e))
  else if is_field "causes" f.1 then
    set (match f.2 with
         | JArr items => rmapM decode_cause items
         | JNull => Ok []
         | _ => Err (UnmarshalTypeError "value" "[]types.Cause")
         end) (λ cs, mkApiError (e_Title e) (e_Details e) cs)
  else (err, e).

(** [json.Unmarshal] into an empty [types.Error]; the result when there is no
    error. *)
Definition ApiError_Unmarshal (data : string) : res ApiError :=
  match parse data with
  | None => Err SyntaxError
  | Some (JObj fields) =>
      let (err, e) := foldl decode_error_member (Ok (), mkApiError "" "" []) fields in rmap (λ _, e) err
  | Some JNull => Ok (mkApiError "" "" [])
  | Some _ => Err (UnmarshalTypeError "value" "types.Error")
  end.

(** ** Documents of resources *)

(** The names of the fields of a message in JSON
    ([api/mesh/v1alpha1/*.proto], [api/system/v1alpha1/secret.proto]). *)
Definition spec_fields (k : Kind) : list string :=
  match k with
  | KMesh => ["mtls"; "tracing"; "logging"; "metrics"]
  | KDataplane => ["networking"; "metrics"]
  | KDataplaneInsight => ["subscriptions"]
  | KDataplaneOverview => ["dataplane"; "dataplaneInsight"; "dataplane_insight"]
  | KTrafficPermission => ["sources"; "destinations"]
  | KHealthCheck | KTrafficLog | KTrafficRoute | KFaultInjection => ["sources"; "destinations"; "conf"]
  | KTrafficTrace | KProxyTemplate => ["selectors"; "conf"]
  | KSecret => ["data"]
  end.
Definition known (k : Kind) (fields : list (string * json)) : list (string * json) :=
  List.filter (λ f, existsb (String.eqb f.1) (spec_fields k)) fields.

(** What the API relies on beyond the stores: a message is written as a
    compact object of its own fields, and reading ignores unknown ones
    ([AllowUnknownFields]). *)
Class LawfulJsonpbText `{Jsonpb} : Prop := {
  marshal_object : ∀ spec s, jsonpb_Marshal spec = Ok s →
    ∃ fields, s = print true (JObj fields) ∧ json_ok (JObj fields) = true
      ∧ Forall (λ f, f.1 ∈ spec_fields (kind_of_spec spec)) fields;
  unmarshal_known : ∀ s s' fields fields' out,
    parse s = Some (JObj fields) → parse s' = Some (JObj fields') →
    known (kind_of_spec out) fields = known (kind_of_spec out) fields' →
    jsonpb_Unmarshal s out = jsonpb_Unmarshal s' out;
}.

Definition meta_names : list string := ["type"; "mesh"; "name"; "creationTime"; "modificationTime"].

(** No field of a message can be taken for one of the metadata, nor the other
    way round. *)
Lemma spec_field_not_meta k name : name ∈ spec_fields k → Forall (λ m, is_field m name = false) meta_names.
Proof.
  intros H. assert (Forall (λ name, Forall (λ m, is_field m name = false) meta_names) (spec_fields k)) as Hall.
  { destruct k; repeat constructor. }
  rewrite Forall_forall in Hall. by apply Hall.
Qed.

Lemma meta_not_known k name : name ∈ meta_names → existsb (String.eqb name) (spec_fields k) = false.
Proof.
  intros H. assert (Forall (λ name, existsb (String.eqb name) (spec_fields k) = false) meta_names) as Hall.
  { destruct k; repeat constructor. }
  rewrite Forall_forall in Hall. by apply Hall.
Qed.

Lemma known_all k fields : Forall (λ f, f.1 ∈ spec_fields k) fields → known k fields = fields.
Proof.
  induction 1 as [|f fields Hf _ IH]; [done|]. unfold known in *. simpl.
  assert (existsb (String.eqb f.1) (spec_fields k) = true) as ->; [|by rewrite IH].
  apply existsb_exists. exists f.1. split; [by apply list_elem_of_In|apply String.eqb_refl].
Qed.

Lemma known_meta k fields : Forall (λ f, f.1 ∈ meta_names) fields → known k fields = [].
Proof.
  induction 1 as [|f fields Hf _ IH]; [done|]. unfold known in *. simpl. by rewrite meta_not_known.
Qed.

Lemma decode_members_spec st k fields :
  Forall (λ f, f.1 ∈ spec_fields k) fields → foldl decode_member st fields = st.
Proof.
  intros H. revert st; induction H as [|f fields Hf _ IH]; intros st; [done|]. simpl.
  assert (decode_member st f = st) as ->; [|apply IH]. apply spec_field_not_meta in Hf.
  unfold meta_names in Hf. rewrite !Forall_cons in Hf. destruct Hf as (H1 & H2 & H3 & H4 & H5 & _).
  destruct st as [err m]. unfold decode_member. by rewrite H1, H2, H3, H4, H5.
Qed.

(** The metadata as members of a document. *)
Definition meta_ok (m : RestMeta) : bool :=
  valid_utf8 (rm_Type m) && valid_utf8 (rm_Mesh m) && valid_utf8 (rm_Name m).

Lemma meta_json_members m v :
  meta_json m = Ok v → meta_ok m = true →
  ∃ fields, v = JObj fields ∧ fields ≠ [] ∧ json_ok v = true ∧ Forall (λ f, f.1 ∈ meta_names) fields
    ∧ ∀ m0 rest, (rm_Mesh m = "" → rm_Mesh m0 = "") →
        foldl decode_member (Ok (), m0) (fields ++ rest) = foldl decode_member (Ok (), m) rest.
Proof.
  unfold meta_json, meta_ok. rewrite !andb_true_iff. intros Hv [[Ht Hm] Hn].
  destruct (Time_MarshalJSON (rm_CreationTime m)) as [created| |] eqn:Ec; [|done|done].
  destruct (Time_MarshalJSON (rm_ModificationTime m)) as [modified| |] eqn:Em; [|done|done].
  cbn [map_err rbind] in Hv. injection Hv as <-.
  assert (∀ t v, Time_MarshalJSON t = Ok v → json_ok v = true) as Hok.
  { intros t v. unfold Time_MarshalJSON. destruct (_ || _); [done|]. intros [= <-]. apply format_rfc3339_valid. }
  exists ([("type", JStr (rm_Type m))]
    ++ (if String.eqb (rm_Mesh m) "" then [] else [("mesh", JStr (rm_Mesh m))])
    ++ [("name", JStr (rm_Name m)); ("creationTime", created); ("modificationTime", modified)]).
  split; [done|]. split; [done|]. split; [|split].
  - change (forallb (λ f, valid_utf8 f.1 && json_ok f.2)
      ([("type", JStr (rm_Type m))]
       ++ (if String.eqb (rm_Mesh m) "" then [] else [("mesh", JStr (rm_Mesh m))])
       ++ [("name", JStr (rm_Name m)); ("creationTime", created); ("modificationTime", modified)]) = true).
    rewrite !List.forallb_app. apply Hok in Ec, Em. destruct (String.eqb _ _); simpl; by rewrite Ht, Hn, ?Hm, Ec, Em.
  - destruct (String.eqb (rm_Mesh m) ""); repeat constructor; apply list_elem_of_In; simpl; tauto.
  - intros m0 rest Hmesh. rewrite !foldl_app.
    assert (foldl decode_member (foldl decode_member (foldl decode_member (Ok (), m0) [("type", JStr (rm_Type m))])
      (if String.eqb (rm_Mesh m) "" then [] else [("mesh", JStr (rm_Mesh m))]))
      [("name", JStr (rm_Name m)); ("creationTime", created); ("modificationTime", modified)] = (Ok (), m)) as ->; [|done].
    assert (foldl decode_member (foldl decode_member (Ok (), m0) [("type", JStr (rm_Type m))])
      (if String.eqb (rm_Mesh m) "" then [] else [("mesh", JStr (rm_Mesh m))])
      = (Ok (), mkRestMeta (rm_Type m) (rm_Mesh m) (rm_Name m0) (rm_CreationTime m0) (rm_ModificationTime m0))) as ->.
    { destruct (String.eqb_spec (rm_Mesh m) "") as [E|E]; [|done]. rewrite E. simpl. by rewrite Hmesh. }
    cbn [foldl decode_member fst snd is_field]. unfold decode_member. cbn [fst snd].
    change (is_field "type" "name") with false. change (is_field "mesh" "name") with false.
    change (is_field "name" "name") with true. cbn [decode_string rm_Type rm_Mesh rm_Name rm_CreationTime rm_ModificationTime].
    change (is_field "type" "creationTime") with false. change (is_field "mesh" "creationTime") with false.
    change (is_field "name" "creationTime") with false. change (is_field "creationTime" "creationTime") with true.
    cbv iota. rewrite (Time_roundtrip _ _ Ec). cbn [rm_Type rm_Mesh rm_Name rm_CreationTime rm_ModificationTime].
    change (is_field "type" "modificationTime") with false. change (is_field "mesh" "modificationTime") with false.
    change (is_field "name" "modificationTime") with false. change (is_field "creationTime" "modificationTime") with false.
    change (is_field "modificationTime" "modificationTime") with true.
    cbv iota. rewrite (Time_roundtrip _ _ Em). by destruct m.
Qed.

(** ** Splicing two objects *)

Lemma text_app a b : text (a ++ b) = text a +:+ text b.
Proof. induction a as [|t a IH]; [done|]. simpl. by rewrite IH, string_app_assoc. Qed.

Lemma comma_sep_app l1 l2 : l1 ≠ [] → l2 ≠ [] → comma_sep (l1 ++ l2) = comma_sep l1 ++ TComma :: comma_sep l2.
Proof.
  intros H1 H2. induction l1 as [|x l1 IH]; [done|]. destruct l1 as [|y l1].
  - simpl app. by rewrite comma_sep_cons.
  - change ((x :: y :: l1) ++ l2) with (x :: ((y :: l1) ++ l2)).
    rewrite !comma_sep_cons, IH by done. by rewrite <- app_assoc.
Qed.

Definition members_text (fields : list (string * json)) : string :=
  text (comma_sep ((λ f, member_tokens true f.1 (tokens true f.2)) <$> fields)).

Lemma print_object fields : print true (JObj fields) = "{" +:+ members_text fields +:+ "}".
Proof. unfold print, members_text. cbn [tokens]. unfold object_tokens. simpl. by rewrite text_app. Qed.

Lemma print_splice f1 f2 : f1 ≠ [] → f2 ≠ [] →
  let s1 := print true (JObj f1) in
  stake (String.length s1 - 1) s1 +:+ "," +:+ sdrop 1 (print true (JObj f2)) = print true (JObj (f1 ++ f2)).
Proof.
  intros H1 H2. cbv zeta. rewrite !print_object.
  replace (String.length ("{" +:+ members_text f1 +:+ "}") - 1)%nat with (String.length ("{" +:+ members_text f1))
    by (rewrite !string_length_app; simpl; lia).
  rewrite <- (string_app_assoc "{" (members_text f1) "}"), stake_app.
  assert (members_text (f1 ++ f2) = members_text f1 +:+ "," +:+ members_text f2) as ->.
  { unfold members_text. rewrite fmap_app, comma_sep_app by (intros ?%fmap_nil_inv; done). by rewrite text_app. }
  by rewrite !string_app_assoc.
Qed.

Lemma print_object_nil fields : print true (JObj fields) = "{}" ↔ fields = [].
Proof.
  split; [|by intros ->]. destruct fields as [|[n v] fields]; [done|]. intros H. exfalso.
  rewrite print_object in H. unfold members_text in H. destruct fields; simpl in H; discriminate H.
Qed.

(** ** The document of a resource *)

Section Documents.
Context `{LawfulJsonpb} `{!LawfulJsonpbText}.

(** What is written for a resource with a message: one object, the members of
    the metadata and then those of the message. *)
Lemma MarshalJSON_document m spec b :
  Resource_MarshalJSON (mkRestResource m (Some spec)) = Ok b → meta_ok m = true →
  ∃ mf sf s, b = print true (JObj (mf ++ sf)) ∧ json_ok (JObj (mf ++ sf)) = true
    ∧ jsonpb_Marshal spec = Ok s ∧ parse s = Some (JObj sf)
    ∧ known (kind_of_spec spec) (mf ++ sf) = known (kind_of_spec spec) sf
    ∧ ∀ m0, (rm_Mesh m = "" → rm_Mesh m0 = "") → foldl decode_member (Ok (), m0) (mf ++ sf) = (Ok (), m).
Proof.
  unfold Resource_MarshalJSON. cbn [rr_Spec rr_Meta]. intros Hb Hm.
  destruct (jsonpb_Marshal spec) as [s| |] eqn:Es; [|done|done]. cbn [rbind] in Hb.
  destruct (meta_json m) as [v| |] eqn:Ev; [|done|done]. cbn [rbind] in Hb.
  destruct (meta_json_members m v Ev Hm) as (mf & -> & Hne & Hmok & Hnames & Hfold).
  destruct (marshal_object spec s Es) as (sf & Hs & Hsok & Hknown).
  exists mf, sf, s. subst s.
  assert (parse (print true (JObj sf)) = Some (JObj sf)) as Hparse.
  { by apply json_roundtrip. }
  assert (known (kind_of_spec spec) (mf ++ sf) = known (kind_of_spec spec) sf) as Hk.
  { unfold known. rewrite List.filter_app. fold (known (kind_of_spec spec) mf). by rewrite known_meta. }
  assert (Nat.eqb (String.length (print true (JObj sf))) 0 = false) as Hlen.
  { rewrite print_object. done. }
  rewrite Hlen in Hb. cbn [orb] in Hb.
  split; [|split; [|split; [done|split; [done|split; [done|]]]]].
  - destruct (String.eqb_spec (print true (JObj sf)) "{}") as [Hn|Hn].
    + apply print_object_nil in Hn as ->. rewrite app_nil_r. congruence.
    + assert (sf ≠ []) as Hsf by (intros ->; by apply Hn).
      rewrite print_splice in Hb by done. congruence.
  - simpl in *. by rewrite forallb_app, Hmok.
  - intros m0 Hm0. rewrite Hfold by done. by apply (decode_members_spec _ (kind_of_spec spec)).
Qed.

(** Writing a resource and reading it back, whatever the white space. *)
Lemma Resource_read m spec b s m0 :
  Resource_MarshalJSON (mkRestResource m (Some spec)) = Ok b → meta_ok m = true →
  (rm_Mesh m = "" → rm_Mesh m0 = "") → parse s = parse b →
  RestMeta_Unmarshal s m0 = (Ok (), m)
  ∧ Resource_Unmarshal s (mkRestResource m0 (Some (zero_spec (kind_of_spec spec))))
    = (Ok (), mkRestResource m (Some spec)).
Proof.
  intros Hb Hm Hm0 Hs.
  destruct (MarshalJSON_document m spec b Hb Hm) as (mf & sf & js & -> & Hok & Hj & Hp & Hk & Hfold).
  rewrite (json_roundtrip true _ Hok) in Hs.
  assert (RestMeta_Unmarshal s m0 = (Ok (), m)) as Hmeta.
  { unfold RestMeta_Unmarshal. rewrite Hs. by apply Hfold. }
  split; [done|]. unfold Resource_Unmarshal. rewrite Hs. unfold Resource_UnmarshalJSON. cbn [rr_Meta rr_Spec].
  assert (RestMeta_Unmarshal (trim s) m0 = (Ok (), m)) as ->.
  { revert Hmeta. unfold RestMeta_Unmarshal. by rewrite parse_trim. }
  rewrite (unmarshal_known (trim s) js (mf ++ sf) sf); [|by rewrite parse_trim|done|by rewrite kind_of_zero].
  by rewrite (unmarshal_marshal spec js).
Qed.

(** A resource with a message of a kind, whose metadata are text. *)
Definition document_of (k : Kind) (r : RestResource) : Prop :=
  ∃ m spec, r = mkRestResource m (Some spec) ∧ kind_of_spec spec = k ∧ meta_ok m = true.

Lemma Resource_tokens_document html k r ts :
  document_of k r → Resource_tokens html r = Ok ts →
  ∃ doc, ts = tokens true doc ∧ json_ok doc = true ∧ Resource_MarshalJSON r = Ok (print true doc).
Proof.
  intros (m & spec & -> & _ & Hm). unfold Resource_tokens.
  destruct (Resource_MarshalJSON _) as [b| |] eqn:Hb; [|done|done]. cbn [map_err rbind].
  destruct (MarshalJSON_document m spec b Hb Hm) as (mf & sf & js & -> & Hok & _).
  rewrite compact_print by done. intros [= <-]. exists (JObj (mf ++ sf)). done.
Qed.

(** An item of a list, as the receiver reads it. *)
Lemma receive_item_written html k r ts :
  document_of k r → Resource_tokens html r = Ok ts → receive_item (zero_spec k) ts = Ok r.
Proof.
  intros Hr Hts. destruct (Resource_tokens_document html k r ts Hr Hts) as (doc & -> & Hok & Hb).
  destruct Hr as (m & spec & -> & <- & Hm). unfold receive_item, raw_text. rewrite escape_tokens.
  change (text (tokens true doc)) with (print true doc).
  destruct (Resource_read m spec _ (print true doc) emptyRestMeta Hb Hm (λ _, eq_refl) eq_refl) as [-> _].
  cbn [rbind]. destruct (Resource_read m spec _ (print true doc) m Hb Hm (λ E, E) eq_refl) as [_ ->]. done.
Qed.

Lemma rmapM_receive html k items tss :
  Forall (document_of k) items → rmapM (Resource_tokens html) items = Ok tss →
  rmapM (receive_item (zero_spec k)) tss = Ok items ∧ ∃ docs, Forall2 writes docs tss.
Proof.
  intros Hit. revert tss; induction Hit as [|r items Hr Hrs IH]; intros tss Htss.
  { injection Htss as <-. split; [done|]. by exists []. }
  simpl in Htss. destruct (Resource_tokens html r) as [ts| |] eqn:Ets; [|done|done]. cbn [rbind] in Htss.
  destruct (rmapM _ items) as [tss'| |]; [|done|done]. injection Htss as <-.
  destruct (IH tss' eq_refl) as (IH1 & docs & IH2).
  destruct (Resource_tokens_document html k r ts Hr Ets) as (doc & E & Hok & _).
  split; [simpl; by rewrite (receive_item_written html k r ts Hr Ets), IH1|].
  exists (doc :: docs). constructor; [|done]. subst ts. by apply tokens_writes.
Qed.

(** The parts of the document of a list. *)
Lemma ResourceList_parts html k l ts :
  Forall (document_of k) (rl_Items l) → (∀ next, rl_Next l = Some next → valid_utf8 next = true) →
  ResourceList_tokens html l = Ok ts →
  ∃ tss docs next nv, ts = object_tokens [member_tokens html "items" (array_tokens tss); member_tokens html "next" next]
    ∧ Forall2 writes docs tss ∧ rmapM (receive_item (zero_spec k)) tss = Ok (rl_Items l)
    ∧ next = (match rl_Next l with Some next => [TQuoted html next] | None => [TLit "null"] end)
    ∧ writes nv next ∧ writes (JObj [("items", JArr docs); ("next", nv)]) ts.
Proof.
  intros Hitems Hnext Hts. unfold ResourceList_tokens in Hts.
  destruct (rmapM _ (rl_Items l)) as [tss| |] eqn:Etss; [|done|done]. injection Hts as <-.
  destruct (rmapM_receive html k _ _ Hitems Etss) as (Hreceive & docs & Hdocs).
  set (next := match rl_Next l with Some _ => _ | None => _ end) in *.
  assert (∃ v, writes v next) as [nv Hnv].
  { unfold next. destruct (rl_Next l) as [n|]; [exists (JStr n); apply writes_string; auto|].
    exists JNull. apply writes_null. }
  exists tss, docs, next, nv. repeat (split; [done|]).
  pose proof (writes_array docs tss Hdocs) as Harr.
  apply writes_object. repeat constructor; try done; exists html; eauto.
Qed.

(** A list that was written, compact or not, is received as it was. *)
Lemma ResourceList_read html k l ts s :
  Forall (document_of k) (rl_Items l) → (∀ next, rl_Next l = Some next → valid_utf8 next = true) →
  ResourceList_tokens html l = Ok ts → spells ts s →
  ResourceListReceiver_Unmarshal (Some (zero_spec k)) s = Ok l.
Proof.
  intros Hitems Hnext Hts Hs.
  destruct (ResourceList_parts html k l ts Hitems Hnext Hts)
    as (tss & docs & next & nv & -> & Hdocs & Hreceive & Hn & Hnv & Hw).
  unfold ResourceListReceiver_Unmarshal. rewrite (parse_spells _ _ s Hw Hs).
  cbn [ResourceListReceiver_UnmarshalJSON]. unfold RawList_Unmarshal.
  rewrite lex_trim, (spells_lex _ _ Hs). cbn [mbind option_bind]. rewrite (parse_writes _ _ Hw). cbn [mbind option_bind].
  rewrite (document_members_object [("items", array_tokens tss); ("next", next)]).
  2: { pose proof (writes_array docs tss Hdocs). repeat constructor; try done; exists html; eauto. }
  cbn [foldl raw_list_member fst snd]. unfold raw_list_member. cbn [fst snd].
  change (is_field "items" "items") with true. change (is_field "items" "next") with false.
  change (is_field "next" "next") with true. cbv iota.
  pose proof (array_items_array docs tss Hdocs) as Ha. unfold array_tokens in Ha |- *. rewrite Ha.
  cbn [raw_list_Next raw_list_Items]. subst next. destruct l as [items [n|]]; cbn [rl_Next rl_Items] in *.
  - unfold TQuoted. cbn [rbind raw_list_Items raw_list_Next]. rewrite Hreceive.
    cbn [rbind]. by rewrite decode_encode_body by auto.
  - cbn [rbind raw_list_Items raw_list_Next]. by rewrite Hreceive.
Qed.
End Documents.
