(* ===== verification/ApiServer.v ===== *)
(** * The API server

    Models [pkg/api-server] (the endpoints of resources and of dataplane
    overviews, pagination, the routes of the server) and
    [pkg/core/rest/errors/error_handler.go].

    [go-restful] is not part of the repository: a request is the path
    parameters that its router extracted, the URL and the body; reading an
    entity is a parameter; a response is a status and a body, written with the
    encoders that [init] installs.  A handler returns the response and the new
    state of its manager; a panic of the manager is a panic of the handler. *)

From S2P Require Import Prelude GoStd Tags Dataplane MeshResources Validators Insights.
From S2P Require Import Resources Store Manager Json NetUrl Rest.
Local Open Scope string_scope.
Local Open Scope list_scope.
Local Open Scope Z_scope.

(** ** types/errors.go *)

Definition NewMaxPageSizeExceeded (pageSize limit : Z) : goerror :=
  Errorf "Invalid page size of %d. Maximum page size is %d" [AInt pageSize; AInt limit].
Definition IsMaxPageSizeExceeded (err : goerror) : bool := has_prefix "Invalid page size of" (error_string err).
Definition InvalidPageSize : goerror := Errorf "Invalid page size" [].
Definition PaginationNotSupported : goerror :=
  Errorf "Pagination and filtering at the same time is not supported" [].

(** ** go-restful *)

Record Request : Type := mkRequest {
  PathParameters : gmap string string;
  req_URL : URL;
  req_ContentType : string;
  req_Body : string;
}.
Definition PathParameter (r : Request) (name : string) : string := default "" (PathParameters r !! name).
Definition QueryParameter (r : Request) (name : string) : string :=
  Values_Get (ParseQuery (url_RawQuery (req_URL r))) name.
Definition QueryParameters (r : Request) (name : string) : list string :=
  default [] (ParseQuery (url_RawQuery (req_URL r)) !! name).

Record Response : Type := mkResponse { StatusCode : Z; Body : string }.
#[global] Instance Response_eq_dec : EqDecision Response.
Proof. solve_decision. Defined.

(** [Restful] is what the library does with an entity: reading the body of a
    request into a resource, and the prefix and the unit it indents responses
    with ([None] when responses are not pretty-printed). *)
Class Restful : Type := {
  ReadEntity : Request → RestResource → res unit * RestResource;
  PrettyPrint : option (string * string);
}.

(** What the API relies on: a JSON body is decoded with [encoding/json], and
    what responses are indented with is white space. *)
Class LawfulRestful `{Restful, Jsonpb} : Prop := {
  read_json : ∀ r v, req_ContentType r = "application/json" → parse (req_Body r) ≠ None →
    ReadEntity r v = Resource_Unmarshal (req_Body r) v;
  pretty_space : ∀ prefix unit, PrettyPrint = Some (prefix, unit) →
    all_bytes is_space prefix = true ∧ all_bytes is_space unit = true;
}.

Section Server.
Context `{Restful} `{Jsonpb}.

(** The encoders of [init]: no escapes for HTML, a newline at the end. *)
Definition encode_entity (ts : list token) : string :=
  match PrettyPrint with
  | Some (prefix, unit) => indent prefix unit 0 ts +:+ newline
  | None => text ts +:+ newline
  end.

Definition emptyResponse : Response := mkResponse 200 "".

(** ** error_handler.go *)

Definition writeError (httpStatus : Z) (kumaErr : ApiError) : Response :=
  mkResponse httpStatus (encode_entity (tokens false (ApiError_json kumaErr))).

Definition handleInvalidPageSize (title : string) : Response :=
  writeError 400 (mkApiError title "Invalid page size" [mkCause "size" "Invalid format"]).
Definition handleNotFound (title : string) : Response := writeError 404 (mkApiError title "Not found" []).
Definition handlePreconditionFailed (title : string) : Response :=
  writeError 412 (mkApiError title "Precondition Failed" []).
Definition handleMeshNotFound (title mesh : string) : Response :=
  writeError 400 (mkApiError title "Mesh is not found"
    [mkCause "mesh" ("mesh of name " +:+ mesh +:+ " is not found")]).
Definition handleValidationError (title : string) (err : ValidationError) : Response :=
  writeError 400 (mkApiError title "Resource is not valid"
    ((λ violation, mkCause (v_Field violation) (v_Message violation)) <$> err)).
Definition handleInvalidOffset (title : string) : Response :=
  writeError 400 (mkApiError title "Invalid offset" [mkCause "offset" "Invalid format"]).
Definition handlePaginationNotSupported (title : string) : Response :=
  writeError 400 (mkApiError title (error_string PaginationNotSupported) []).
Definition handleMaxPageSizeExceeded (title : string) (err : goerror) : Response :=
  writeError 400 (mkApiError title "Invalid page size" [mkCause "size" (error_string err)]).
Definition handleUnknownError (title : string) : Response :=
  writeError 500 (mkApiError title "Internal Server Error" []).

(** The mesh of a [*MeshNotFoundError]. *)
Definition mesh_of_error (err : goerror) : string :=
  match err with Errorf _ [AStr mesh] => mesh | _ => "" end.

Definition HandleError (err : goerror) (title : string) : Response :=
  if IsResourceNotFound err then handleNotFound title
  else if IsResourcePreconditionFailed err then handlePreconditionFailed title
  else if bool_decide (err = ErrorInvalidOffset) then handleInvalidOffset title
  else if IsMeshNotFound err then handleMeshNotFound title (mesh_of_error err)
  else match as_ValidationError err with
       | Some verr => handleValidationError title verr
       | None =>
           if IsMaxPageSizeExceeded err then handleMaxPageSizeExceeded title err
           else if bool_decide (err = InvalidPageSize) then handleInvalidPageSize title
           else if bool_decide (err = PaginationNotSupported) then handlePaginationNotSupported title
           else handleUnknownError title
       end.

(** ** pagination.go *)

Definition maxPageSize : Z := 1000.
Definition defaultPageSize : Z := 100.

Record page : Type := mkPage { page_size : Z; page_offset : string }.

Definition pagination (request : Request) : res page :=
  let? pageSize :=
    if negb (String.eqb (QueryParameter request "size") "") then
      match atoi (QueryParameter request "size") with
      | Ok p => if maxPageSize <? p then Err (NewMaxPageSizeExceeded p maxPageSize) else Ok p
      | Err _ => Err InvalidPageSize
      | Panic => Panic
      end
    else Ok defaultPageSize in
  Ok (mkPage pageSize (QueryParameter request "offset")).

Definition nextLink (request : Request) (publicURL : string) (list : ObjectList) : res (option string) :=
  if String.eqb (NextOffset list) "" then Ok None
  else
    let query := Values_Set (ParseQuery (url_RawQuery (req_URL request))) "offset" (NextOffset list) in
    let? nextURL := map_err (λ e, Wrapf e "could not parse public url" []) (url_Parse publicURL) in
    let nextURL := set_RawQuery (set_Path nextURL (url_Path (req_URL request))) (Values_Encode query) in
    Ok (Some (URL_String nextURL)).

(** ** resource_endpoints.go *)

Section Endpoints.
Context {St : Type} (resManager : ResourceManager St) (publicURL : string).

Record resourceEndpoints : Type := mkEndpoints {
  ep_meshParam : string; (* meshFromPathParam *)
  ep_definition : ResourceWsDefinition;
}.
Definition meshFromRequest (r : resourceEndpoints) (request : Request) : string :=
  PathParameter request (ep_meshParam r).

(** A response computed from an error or a value. *)
Definition respond {A} (title : string) (r : res A) (k : A → res Response) : res Response :=
  match r with
  | Ok a => k a
  | Err e => Ok (HandleError e title)
  | Panic => Panic
  end.

(** [WriteAsJson] of what encodes to [r]; a failure writes nothing. *)
Definition write_json (r : res (list token)) (failed : goerror → Response) : res Response :=
  match r with
  | Ok ts => Ok (mkResponse 200 (encode_entity ts))
  | Err e => Ok (failed e)
  | Panic => Panic
  end.

Definition findResource (r : resourceEndpoints) (s : St) (request : Request) : res Response * St :=
  let name := PathParameter request "name" in
  let meshName := meshFromRequest r request in
  let '(err, (s', resource)) :=
    mgr_Get (read_only resManager) s (ResourceFactory (ep_definition r)) [GetByKey name meshName] in
  (respond "Could not retrieve a resource" err (λ _,
     let? res := From_Resource resource in
     write_json (Resource_tokens false res) (λ _, emptyResponse)), s').

Definition listResources (r : resourceEndpoints) (s : St) (request : Request) : res Response * St :=
  let meshName := meshFromRequest r request in
  match pagination request with
  | Ok page =>
      let '(err, (s', list)) :=
        mgr_List (read_only resManager) s (ResourceListFactory (ep_definition r))
          [ListByMesh meshName; ListByPage (page_size page) (page_offset page)] in
      (respond "Could not retrieve resources" err (λ _,
         let? restList := From_ResourceList list in
         respond "Could not retrieve resources" (nextLink request publicURL list) (λ next,
           write_json (ResourceList_tokens false (mkRestList (rl_Items restList) next))
             (λ e, HandleError e "Could not list resources"))), s')
  | Err e => (Ok (HandleError e "Could not retrieve resources"), s)
  | Panic => (Panic, s)
  end.

(** [OrNil] as an error. *)
Definition or_error (verr : ValidationError) : res unit :=
  match OrNil verr with Some verr => Err (validationFailed verr) | None => Ok () end.

Definition validateResourceRequest (r : resourceEndpoints) (request : Request) (resource : RestResource) : res unit :=
  let name := PathParameter request "name" in
  let meshName := meshFromRequest r request in
  let resType := GetType (ResourceFactory (ep_definition r)) in
  let err : ValidationError := [] in
  let err := if negb (String.eqb name (rm_Name (rr_Meta resource)))
             then AddViolation err "name" "name from the URL has to be the same as in body" else err in
  let err := if negb (String.eqb resType (rm_Type (rr_Meta resource)))
             then AddViolation err "type" "type from the URL has to be the same as in body" else err in
  let err := if negb (String.eqb meshName (rm_Mesh (rr_Meta resource))) && negb (String.eqb resType (type_name KMesh))
             then AddViolation err "mesh" "mesh from the URL has to be the same as in body" else err in
  let err := AddError err "" (ValidateMeta name meshName) in
  or_error err.

(** [_ = res.SetSpec(spec)]: a spec of another type is dropped. *)
Definition SetSpec_ignored (o : Object) (spec : option ResourceSpec) : Object :=
  match spec with
  | Some spec => match SetSpec o spec with Ok o' => o' | _ => o end
  | None => o
  end.

Definition createResource (r : resourceEndpoints) (now : Z) (s : St) (name meshName : string)
    (spec : option ResourceSpec) : res Response * St :=
  let res := SetSpec_ignored (ResourceFactory (ep_definition r)) spec in
  let '(err, (s', _)) := mgr_Create resManager now s res [CreateByKey name meshName] in
  (respond "Could not create a resource" err (λ _, Ok (mkResponse 201 "")), s').

Definition updateResource (now : Z) (s : St) (res : Object) (restRes : RestResource) : Prelude.res Response * St :=
  let res := SetSpec_ignored res (rr_Spec restRes) in
  let '(err, (s', _)) := mgr_Update resManager now s res [] in
  (respond "Could not update a resource" err (λ _, Ok emptyResponse), s').

Definition createOrUpdateResource (r : resourceEndpoints) (now : Z) (s : St) (request : Request)
  : res Response * St :=
  let name := PathParameter request "name" in
  let meshName := meshFromRequest r request in
  let (err, resourceRes) :=
    ReadEntity request (mkRestResource emptyRestMeta (Some (o_Spec (ResourceFactory (ep_definition r))))) in
  match err with
  | Ok _ =>
      match validateResourceRequest r request resourceRes with
      | Ok _ =>
          let '(err, (s', resource)) :=
            mgr_Get (read_only resManager) s (ResourceFactory (ep_definition r)) [GetByKey name meshName] in
          match err with
          | Ok _ => updateResource now s' resource resourceRes
          | Err e =>
              if IsResourceNotFound e then createResource r now s' name meshName (rr_Spec resourceRes)
              else (Ok (HandleError e "Could not find a resource"), s')
          | Panic => (Panic, s')
          end
      | Err e => (Ok (HandleError e "Could not process a resource"), s)
      | Panic => (Panic, s)
      end
  | Err e => (Ok (HandleError e "Could not process a resource"), s)
  | Panic => (Panic, s)
  end.

Definition deleteResource (r : resourceEndpoints) (s : St) (request : Request) : res Response * St :=
  let name := PathParameter request "name" in
  let meshName := meshFromRequest r request in
  let (err, s') := mgr_Delete resManager s (ResourceFactory (ep_definition r)) [DeleteByKey name meshName] in
  (respond "Could not delete a resource" err (λ _, Ok emptyResponse), s').

(** ** dataplane_overview_endpoints.go *)

(** The dataplane of an object that was read, with its metadata. *)
Definition read_as {S} `{ResourceKind S} (o : Object) : option S := of_spec (o_Spec o).

Definition fetchOverview (s : St) (name meshName : string) : res Object * St :=
  let '(err, (s1, dataplane)) :=
    mgr_Get (read_only resManager) s (new_object KDataplane) [GetByKey name meshName] in
  match err with
  | Ok _ =>
      let '(err, (s2, insight)) :=
        mgr_Get (read_only resManager) s1 (new_object KDataplaneInsight) [GetByKey name meshName] in
      let overview := Ok (mkObject (o_Meta dataplane)
        (DataplaneOverviewSpec (mkOverview (read_as dataplane) (read_as insight)))) in
      match err with
      | Ok _ => (overview, s2)
      | Err e => if negb (IsResourceNotFound e) then (Err e, s2) else (overview, s2)
      | Panic => (Panic, s2)
      end
  | Err e => (Err e, s1)
  | Panic => (Panic, s1)
  end.

Definition inspectDataplane (s : St) (request : Request) : res Response * St :=
  let name := PathParameter request "name" in
  let meshName := PathParameter request "mesh" in
  let (overview, s') := fetchOverview s name meshName in
  (respond "Could not retrieve a dataplane overview" overview (λ overview,
     let? res := From_Resource overview in
     write_json (Resource_tokens false res)
       (λ e, HandleError e "Could not retrieve a dataplane overview")), s').

(** The overviews with the pagination of the dataplanes; what a manager lists
    has metadata. *)
Definition fetchOverviews (s : St) (p : page) (meshName : string)
  : res (list DataplaneOverviewResource * string) * St :=
  let '(err, (s1, dataplanes)) :=
    mgr_List (read_only resManager) s (new_list KDataplane)
      [ListByMesh meshName; ListByPage (page_size p) (page_offset p)] in
  match err with
  | Ok _ =>
      let '(err, (s2, insights)) :=
        mgr_List (read_only resManager) s1 (new_list KDataplaneInsight) [ListByMesh meshName] in
      match err with
      | Ok _ =>
          (Ok (NewDataplaneOverviews (typed_items dataplanes) (typed_items insights), NextOffset dataplanes), s2)
      | Err e => (Err e, s2)
      | Panic => (Panic, s2)
      end
  | Err e => (Err e, s1)
  | Panic => (Panic, s1)
  end.

(** [parseTags]: values that are not of the form [key:value] are ignored. *)
Definition parseTags (queryParamValues : list string) : tag_map :=
  foldl (λ tags value,
    match split_all ":" value with
    | [k; v] => <[k := v]> tags
    | _ => tags
    end) ∅ queryParamValues.

Definition inspectDataplanes (s : St) (request : Request) : res Response * St :=
  let meshName := PathParameter request "mesh" in
  let given name := negb (String.eqb (QueryParameter request name) "") in
  let failed := "Could not retrieve dataplane overviews" in
  match pagination request with
  | Ok page =>
      if (given "size" || given "offset") && (given "tag" || given "gateway")
      then (Ok (HandleError PaginationNotSupported failed), s)
      else
        let (overviews, s') := fetchOverviews s page meshName in
        (respond failed overviews (λ ov,
           let items := if String.eqb (QueryParameter request "gateway") "true"
                        then RetainGatewayDataplanes ov.1 else ov.1 in
           let items := RetainMatchingTags items (parseTags (QueryParameters request "tag")) in
           let list := mkObjectList KDataplaneOverview (to_object <$> items) ov.2 in
           let? restList := From_ResourceList list in
           respond "Could not list dataplane overviews" (nextLink request publicURL list) (λ next,
             write_json (ResourceList_tokens false (mkRestList (rl_Items restList) next))
               (λ e, HandleError e "Could not list dataplane overviews"))), s')
  | Err e => (Ok (HandleError e failed), s)
  | Panic => (Panic, s)
  end.
End Endpoints.

(** ** server.go *)

Inductive Method : Type := GET | PUT | DELETE.
#[global] Instance Method_eq_dec : EqDecision Method.
Proof. solve_decision. Defined.

Inductive Handler : Type :=
| InspectDataplanes | InspectDataplane
| FindResource (r : resourceEndpoints) | ListResources (r : resourceEndpoints)
| CreateOrUpdateResource (r : resourceEndpoints) | DeleteResource (r : resourceEndpoints).

Record Route : Type := mkRoute { route_Method : Method; route_Path : string; route_To : Handler }.

(** The routes an endpoint adds under a path. *)
Definition addFindEndpoint (r : resourceEndpoints) (pathPrefix : string) : list Route :=
  [mkRoute GET (pathPrefix +:+ "/{name}") (FindResource r)].
Definition addListEndpoint (r : resourceEndpoints) (pathPrefix : string) : list Route :=
  [mkRoute GET pathPrefix (ListResources r)].
Definition addCreateOrUpdateEndpoint (r : resourceEndpoints) (pathPrefix : string) : list Route :=
  [mkRoute PUT (pathPrefix +:+ "/{name}") (CreateOrUpdateResource r)].
Definition addDeleteEndpoint (r : resourceEndpoints) (pathPrefix : string) : list Route :=
  [mkRoute DELETE (pathPrefix +:+ "/{name}") (DeleteResource r)].
Definition overview_addFindEndpoint (pathPrefix : string) : list Route :=
  [mkRoute GET (pathPrefix +:+ "/dataplanes+insights/{name}") InspectDataplane].
Definition overview_addListEndpoint (pathPrefix : string) : list Route :=
  [mkRoute GET (pathPrefix +:+ "/dataplanes+insights") InspectDataplanes].

Definition definition_routes (ReadOnly : bool) (definition : ResourceWsDefinition) : list Route :=
  if negb (String.eqb (GetType (ResourceFactory definition)) (type_name KMesh)) then
    let endpoints := mkEndpoints "mesh" definition in
    let path := "/meshes/{mesh}/" +:+ ws_Path definition in
    (if negb ReadOnly then addCreateOrUpdateEndpoint endpoints path ++ addDeleteEndpoint endpoints path else [])
    ++ addFindEndpoint endpoints path ++ addListEndpoint endpoints path
    ++ addListEndpoint endpoints ("/" +:+ ws_Path definition)
  else
    let endpoints := mkEndpoints "name" definition in
    (if negb ReadOnly then addCreateOrUpdateEndpoint endpoints "/meshes" ++ addDeleteEndpoint endpoints "/meshes" else [])
    ++ addFindEndpoint endpoints "/meshes" ++ addListEndpoint endpoints "/meshes".

Definition addResourcesEndpoints (ReadOnly : bool) (defs : list ResourceWsDefinition) : list Route :=
  overview_addListEndpoint "/meshes/{mesh}" ++ overview_addFindEndpoint "/meshes/{mesh}"
  ++ overview_addListEndpoint "" ++ (defs ≫= definition_routes ReadOnly).

Definition run_handler {St} (resManager : ResourceManager St) (publicURL : string) (h : Handler)
    (now : Z) (s : St) (request : Request) : res Response * St :=
  match h with
  | InspectDataplanes => inspectDataplanes resManager publicURL s request
  | InspectDataplane => inspectDataplane resManager s request
  | FindResource r => findResource resManager r s request
  | ListResources r => listResources resManager publicURL r s request
  | CreateOrUpdateResource r => createOrUpdateResource resManager r now s request
  | DeleteResource r => deleteResource resManager r s request
  end.
End Server.

(** ** Responses are read as what was written *)

Section Encoding.
Context `{LawfulRestful}.

Lemma encode_spells v ts : writes v ts → spells ts (encode_entity ts).
Proof.
  intros Hv. unfold encode_entity. destruct PrettyPrint as [[prefix unit]|] eqn:E.
  - destruct (pretty_space prefix unit E). by apply (spells_lines v).
  - apply spells_app_space; [done|]. by apply (spells_compact v).
Qed.

(** The document and the status of an error. *)
Definition error_document (err : goerror) (title : string) : Z * ApiError :=
  if IsResourceNotFound err then (404, mkApiError title "Not found" [])
  else if IsResourcePreconditionFailed err then (412, mkApiError title "Precondition Failed" [])
  else if bool_decide (err = ErrorInvalidOffset)
  then (400, mkApiError title "Invalid offset" [mkCause "offset" "Invalid format"])
  else if IsMeshNotFound err
  then (400, mkApiError title "Mesh is not found" [mkCause "mesh" ("mesh of name " +:+ mesh_of_error err +:+ " is not found")])
  else match as_ValidationError err with
       | Some verr => (400, mkApiError title "Resource is not valid" ((λ v, mkCause (v_Field v) (v_Message v)) <$> verr))
       | None =>
           if IsMaxPageSizeExceeded err
           then (400, mkApiError title "Invalid page size" [mkCause "size" (error_string err)])
           else if bool_decide (err = InvalidPageSize)
           then (400, mkApiError title "Invalid page size" [mkCause "size" "Invalid format"])
           else if bool_decide (err = PaginationNotSupported)
           then (400, mkApiError title (error_string PaginationNotSupported) [])
           else (500, mkApiError title "Internal Server Error" [])
       end.

Lemma HandleError_document err title :
  HandleError err title = let (status, e) := error_document err title in writeError status e.
Proof.
  unfold HandleError, error_document.
  destruct (IsResourceNotFound err); [done|]. destruct (IsResourcePreconditionFailed err); [done|].
  destruct (bool_decide _); [done|]. destruct (IsMeshNotFound err); [done|].
  destruct (as_ValidationError err); [done|]. destruct (IsMaxPageSizeExceeded err); [done|].
  destruct (bool_decide _); [done|]. by destruct (bool_decide _).
Qed.

(** The causes of an error are text. *)
Definition causes_ok (e : ApiError) : bool :=
  forallb (λ c, valid_utf8 (c_Field c) && valid_utf8 (c_Message c)) (e_Causes e).
Definition error_text_ok (e : ApiError) : bool := valid_utf8 (e_Title e) && valid_utf8 (e_Details e) && causes_ok e.

Lemma decode_cause_json c : decode_cause (Cause_json c) = Ok c.
Proof. by destruct c. Qed.

Lemma decode_causes cs : rmapM decode_cause (Cause_json <$> cs) = Ok cs.
Proof. induction cs as [|c cs IH]; [done|]. cbn [fmap list_fmap]. simpl. by rewrite IH; destruct c. Qed.

Lemma ApiError_json_ok e : error_text_ok e = true → json_ok (ApiError_json e) = true.
Proof.
  unfold error_text_ok, causes_ok, ApiError_json. rewrite !andb_true_iff. intros [[Ht Hd] Hc].
  change (forallb (λ f, valid_utf8 f.1 && json_ok f.2) ([("title", JStr (e_Title e)); ("details", JStr (e_Details e))]
    ++ match e_Causes e with [] => [] | causes => [("causes", JArr (Cause_json <$> causes))] end) = true).
  rewrite forallb_app. simpl. rewrite Ht, Hd. simpl. destruct (e_Causes e) as [|c cs]; [done|].
  cbn [forallb fst snd]. rewrite andb_true_r. change (valid_utf8 "causes") with true. simpl andb.
  change (forallb json_ok (Cause_json <$> c :: cs) = true).
  rewrite forallb_forall in Hc |- *. intros x Hx. apply list_elem_of_In, list_elem_of_fmap in Hx as (y & -> & Hy).
  apply list_elem_of_In, Hc, andb_true_iff in Hy as [Hf Hm]. simpl. by rewrite Hf, Hm.
Qed.

Lemma ApiError_read e : error_text_ok e = true →
  ApiError_Unmarshal (encode_entity (tokens false (ApiError_json e))) = Ok e.
Proof.
  intros Hok. pose proof (tokens_writes false _ (ApiError_json_ok e Hok)) as Hw.
  unfold ApiError_Unmarshal. rewrite (parse_spells _ _ _ Hw (encode_spells _ _ Hw)).
  unfold ApiError_json. destruct e as [title details [|c cs]]; [done|].
  cbn [e_Causes e_Title e_Details app foldl decode_error_member]. unfold decode_error_member. cbn [fst snd].
  change (is_field "title" "title") with true. change (is_field "title" "details") with false.
  change (is_field "details" "details") with true. change (is_field "title" "causes") with false.
  change (is_field "details" "causes") with false. change (is_field "causes" "causes") with true.
  cbn [decode_string e_Causes e_Title e_Details]. rewrite decode_causes. done.
Qed.

(** What a client reads from the response to an error. *)
Lemma HandleError_read err title :
  error_text_ok (error_document err title).2 = true →
  StatusCode (HandleError err title) = (error_document err title).1
  ∧ ApiError_Unmarshal (Body (HandleError err title)) = Ok (error_document err title).2.
Proof.
  intros Hok. rewrite HandleError_document. destruct (error_document err title) as [status e].
  split; [done|]. by apply ApiError_read.
Qed.

Lemma error_document_status err title :
  400 ≤ (error_document err title).1 < 600 ∧ e_Title (error_document err title).2 = title
  ∧ e_Details (error_document err title).2 ≠ "".
Proof.
  unfold error_document. repeat (destruct (_ : bool); [simpl; split; [lia|done]|]).
  destruct (as_ValidationError err); [simpl; split; [lia|done]|].
  repeat (destruct (_ : bool); [simpl; split; [lia|done]|]). simpl. split; [lia|done].
Qed.
End Encoding.
