(* ===== verification/RemoteStore.v ===== *)
(** * The store behind the API server

    Models [pkg/plugins/resources/remote]: the resource store of the command
    line tool, which reads and writes resources through the REST API.  The HTTP
    client is a function of the state of the world behind it; [net/http] adds
    to a URL nothing that matters here. *)

From S2P Require Import Prelude GoStd Dataplane Resources Store Manager Json NetUrl Rest ApiServer.
Local Open Scope string_scope.
Local Open Scope list_scope.
Local Open Scope Z_scope.

(** ** HTTP *)

Record HttpRequest : Type := mkHttpRequest {
  http_Method : Method;
  http_URL : URL;
  http_ContentType : string;
  http_Body : string;
}.

(** The body of a response is read with [ioutil.ReadAll]. *)
Record HttpResponse : Type := mkHttpResponse { http_StatusCode : Z; http_ReadAll : res string }.

(** [util_http.Client]. *)
Definition Client (St : Type) : Type := St → HttpRequest → res HttpResponse * St.

(** [http.NewRequest] with a valid method. *)
Definition NewRequest (method : Method) (url body : string) : res HttpRequest :=
  let? u := url_Parse url in Ok (mkHttpRequest method u "" body).
Definition set_content_type (r : HttpRequest) : HttpRequest :=
  mkHttpRequest (http_Method r) (http_URL r) "application/json" (http_Body r).

(** ** unmarshalling.go *)

Definition remoteMeta (name mesh : string) (created modified : Z) : Meta :=
  ForeignMeta (mkMeta name mesh "" created modified).
Definition remoteMeta_of (m : RestMeta) : Meta :=
  remoteMeta (rm_Name m) (rm_Mesh m) (rm_CreationTime m) (rm_ModificationTime m).

Section Store.
Context `{Jsonpb}.

(** The message of the resource is filled in place. *)
Definition remote_Unmarshal (b : string) (res : Object) : Prelude.res unit * Object :=
  let (err, r) := Resource_Unmarshal b (mkRestResource emptyRestMeta (Some (o_Spec res))) in
  let res := mkObject (o_Meta res) (default (o_Spec res) (rr_Spec r)) in
  match err with
  | Ok _ => (Ok (), SetMeta res (Some (remoteMeta_of (rr_Meta r))))
  | err => (err, res)
  end.

Fixpoint add_rest_items (rs : ObjectList) (items : list RestResource) : Prelude.res unit * ObjectList :=
  match items with
  | [] => (Ok (), rs)
  | ri :: rest =>
      match (match rr_Spec ri with Some spec => SetSpec (NewItem rs) spec
                                 | None => Err (Errorf "invalid type of spec" []) end) with
      | Ok r =>
          let r := SetMeta r (Some (remoteMeta_of (rr_Meta ri))) in
          add_rest_items (match AddItem rs r with Ok rs' => rs' | _ => rs end) rest
      | Err e => (Err e, rs)
      | Panic => (Panic, rs)
      end
  end.

Definition UnmarshalList (b : string) (rs : ObjectList) : Prelude.res unit * ObjectList :=
  match ResourceListReceiver_Unmarshal (Some (o_Spec (NewItem rs))) b with
  | Ok l =>
      let (err, rs) := add_rest_items rs (rl_Items l) in
      match err with
      | Ok _ =>
          match rl_Next l with
          | None => (Ok (), rs)
          | Some next =>
              match ParseRequestURI next with
              | Ok uri =>
                  let offset := Values_Get (ParseQuery (url_RawQuery uri)) "offset" in
                  (Ok (), if negb (String.eqb offset "") then SetPagination rs offset else rs)
              | Err e => (Err (Wrapf e "invalid next URL from the server" []), rs)
              | Panic => (Panic, rs)
              end
          end
      | err => (err, rs)
      end
  | Err e => (Err e, rs)
  | Panic => (Panic, rs)
  end.

(** ** store.go *)

Context {St : Type} (client : Client St) (api : ApiDescriptor).

(** [doRequest]: status, body and error. *)
Definition doRequest (s : St) (req : HttpRequest) : (Z * string * res unit) * St :=
  match client s req with
  | (Err e, s') => ((0, "", Err e), s')
  | (Panic, s') => ((0, "", Panic), s')
  | (Ok resp, s') =>
      let status := http_StatusCode resp in
      match http_ReadAll resp with
      | Ok b =>
          if 4 <=? Z.quot status 100 then
            match ApiError_Unmarshal b with
            | Ok kumaErr =>
                if negb (String.eqb (e_Title kumaErr) "") && negb (String.eqb (e_Details kumaErr) "")
                then ((status, b, Err (apiFailed kumaErr)), s')
                else ((status, b, Ok ()), s')
            | _ => ((status, b, Ok ()), s')
            end
          else ((status, b, Ok ()), s')
      | Err e => ((status, "", Err e), s')
      | Panic => ((status, "", Panic), s')
      end
  end.

Definition wrong_status (status : Z) (b : string) : goerror := Errorf "(%d): %s" [AInt status; AStr b].

Definition no_uri (verb typ : string) (e : goerror) : goerror :=
  Wrapf e ("failed to construct URI to " +:+ verb +:+ " a %q") [AStr typ].

Definition upsert (s : St) (res : Object) (meta : RestMeta) : Prelude.res unit * (St * Object) :=
  let made :=
    let? mapping := map_err (no_uri "update" (GetType res)) (GetResourceApi api (GetType res)) in
    let? b := Resource_Marshal (mkRestResource meta (Some (o_Spec res))) in
    let? req := NewRequest PUT (Api_Item mapping (rm_Mesh meta) (rm_Name meta)) b in
    Ok (set_content_type req) in
  match made with
  | Ok req =>
      let '((statusCode, b, err), s') := doRequest s req in
      match err with
      | Ok _ =>
          if negb (statusCode =? 200) && negb (statusCode =? 201)
          then (Err (wrong_status statusCode b), (s', res))
          else (Ok (), (s', SetMeta res (Some (remoteMeta (rm_Name meta) (rm_Mesh meta) zeroTime zeroTime))))
      | err => (err, (s', res))
      end
  | Err e => (Err e, (s, res))
  | Panic => (Panic, (s, res))
  end.

Definition remote_Create (s : St) (res : Object) (fs : list CreateOptionsFunc) : Prelude.res unit * (St * Object) :=
  let opts := NewCreateOptions fs in
  upsert s res (mkRestMeta (GetType res) (co_Mesh opts) (co_Name opts) zeroTime zeroTime).

(** A resource without metadata is dereferenced. *)
Definition remote_Update (s : St) (res : Object) (fs : list UpdateOptionsFunc) : Prelude.res unit * (St * Object) :=
  match o_Meta res with
  | None => (Panic, (s, res))
  | Some m =>
      upsert s res (mkRestMeta (GetType res) (GetMesh (observe m)) (GetName (observe m)) zeroTime zeroTime)
  end.

Definition remote_Delete (s : St) (res : Object) (fs : list DeleteOptionsFunc) : Prelude.res unit * St :=
  let opts := NewDeleteOptions fs in
  let made :=
    let? mapping := map_err (no_uri "delete" (GetType res)) (GetResourceApi api (GetType res)) in
    NewRequest DELETE (Api_Item mapping (do_Mesh opts) (do_Name opts)) "" in
  match made with
  | Ok req =>
      let '((statusCode, b, err), s') := doRequest s req in
      match err with
      | Ok _ => (if negb (statusCode =? 200) then Err (wrong_status statusCode b) else Ok (), s')
      | Err e =>
          (Err (if statusCode =? 404 then ErrorResourceNotFound (GetType res) (do_Name opts) (do_Mesh opts) else e), s')
      | Panic => (Panic, s')
      end
  | Err e => (Err e, s)
  | Panic => (Panic, s)
  end.

Definition remote_Get (s : St) (res : Object) (fs : list GetOptionsFunc) : Prelude.res unit * (St * Object) :=
  let opts := NewGetOptions fs in
  let made :=
    let? mapping := map_err (no_uri "fetch" (GetType res)) (GetResourceApi api (GetType res)) in
    NewRequest GET (Api_Item mapping (go_Mesh opts) (go_Name opts)) "" in
  match made with
  | Ok req =>
      let '((statusCode, b, err), s') := doRequest s req in
      match err with
      | Ok _ =>
          if negb (statusCode =? 200) then (Err (wrong_status statusCode b), (s', res))
          else let (err, res') := remote_Unmarshal b res in (err, (s', res'))
      | Err e =>
          (Err (if statusCode =? 404 then ErrorResourceNotFound (GetType res) (go_Name opts) (go_Mesh opts) else e),
           (s', res))
      | Panic => (Panic, (s', res))
      end
  | Err e => (Err e, (s, res))
  | Panic => (Panic, (s, res))
  end.

(** The query of a listing. *)
Definition list_query (query : Values) (opts : ListOptions) : Values :=
  let query := if negb (String.eqb (lo_PageOffset opts) "")
               then Values_Add query "offset" (lo_PageOffset opts) else query in
  if negb (lo_PageSize opts =? 0) then Values_Add query "size" (itoa (lo_PageSize opts)) else query.

Definition remote_List (s : St) (rs : ObjectList) (fs : list ListOptionsFunc) : Prelude.res unit * (St * ObjectList) :=
  let opts := NewListOptions fs in
  let made :=
    let? mapping := map_err (λ e, Wrapf e "failed to construct URI to fetch a list of %q" [AStr (GetItemType rs)])
                          (GetResourceApi api (GetItemType rs)) in
    let? req := NewRequest GET (Api_List mapping (lo_Mesh opts)) "" in
    let query := list_query (ParseQuery (url_RawQuery (http_URL req))) opts in
    Ok (mkHttpRequest GET (set_RawQuery (http_URL req) (Values_Encode query)) "" "") in
  match made with
  | Ok req =>
      let '((statusCode, b, err), s') := doRequest s req in
      match err with
      | Ok _ =>
          if negb (statusCode =? 200) then (Err (wrong_status statusCode b), (s', rs))
          else let (err, rs') := UnmarshalList b rs in (err, (s', rs'))
      | err => (err, (s', rs))
      end
  | Err e => (Err e, (s, rs))
  | Panic => (Panic, (s, rs))
  end.
End Store.
