(* ===== verification/HttpApi.v ===== *)
(** * The API server and the remote store together

    The client of [pkg/plugins/resources/remote] connected to the server of
    [pkg/api-server].  Routing is done by [go-restful], a parameter that takes
    the route whose template the path matches when there is only one; a request
    that panics breaks the connection.  The theorems: every path of the client
    leads to the handler of its resource, and the operations of the remote store
    over the server are those of the manager behind it. *)

From S2P Require Import Prelude GoStd Tags Dataplane MeshResources Validators Resources Store MemoryStore Manager.
From S2P Require Import Json GoTime NetUrl Rest ApiServer RemoteStore.
Local Open Scope string_scope.
Local Open Scope list_scope.
Local Open Scope Z_scope.

(** ** Routing *)

(** The parameter of a segment of a template, if it is one. *)
Definition segment_param (seg : string) : option string :=
  match seg with
  | String "{" rest => Some (stake (String.length rest - 1) rest)
  | _ => None
  end.

Fixpoint match_segments (ts ps : list string) : option (list (string * string)) :=
  match ts, ps with
  | [], [] => Some []
  | t :: ts, p :: ps =>
      match segment_param t with
      | Some name => if String.eqb p "" then None else cons (name, p) <$> match_segments ts ps
      | None => if String.eqb t p then match_segments ts ps else None
      end
  | _, _ => None
  end.

(** The routes of a table that a request matches, with its parameters. *)
Definition matching_routes (table : list (Method * string)) (m : Method) (path : string)
  : list (nat * list (string * string)) :=
  omap (λ x, if bool_decide (x.2.1 = m)
             then pair x.1 <$> match_segments (split_all "/" x.2.2) (split_all "/" path) else None)
    (imap pair table).

Class Router : Type := {
  dispatch : list (Method * string) → Method → string → option (nat * gmap string string);
}.
Class LawfulRouter `{Router} : Prop := {
  dispatch_unique : ∀ table m path i params,
    matching_routes table m path = [(i, params)] → dispatch table m path = Some (i, list_to_map params);
}.

Section Api.
Context `{Restful} `{Jsonpb} `{Router} {St : Type} (resManager : ResourceManager St).

Record ApiServerConfig : Type := mkApiServerConfig { cfg_ReadOnly : bool; cfg_publicURL : string }.

Definition route_table (routes : list Route) : list (Method * string) :=
  (λ r, (route_Method r, route_Path r)) <$> routes.

(** The response of the server to a request; the library answers what no route
    matches. *)
Definition serve (unrouted : Response) (cfg : ApiServerConfig) (defs : list ResourceWsDefinition)
    (now : Z) (s : St) (req : HttpRequest) : res Response * St :=
  let routes := addResourcesEndpoints (cfg_ReadOnly cfg) defs in
  match dispatch (route_table routes) (http_Method req) (url_Path (http_URL req)) with
  | Some (i, params) =>
      match routes !! i with
      | Some r =>
          run_handler resManager (cfg_publicURL cfg) (route_To r) now s
            (mkRequest params (http_URL req) (http_ContentType req) (http_Body req))
      | None => (Ok unrouted, s)
      end
  | None => (Ok unrouted, s)
  end.

(** A client connected to the server. *)
Definition broken : goerror := Errorf "EOF" [].
Definition api_client (unrouted : Response) (cfg : ApiServerConfig) (defs : list ResourceWsDefinition) (now : Z)
  : Client St := λ s req,
  match serve unrouted cfg defs now s req with
  | (Ok resp, s') => (Ok (mkHttpResponse (StatusCode resp) (Ok (Body resp))), s')
  | (Err e, s') => (Err e, s')
  | (Panic, s') => (Err broken, s')
  end.
End Api.

(** ** Every path of the client leads to its handler *)

(** Names as the validator of metadata accepts them. *)
Definition plain_name (s : string) : Prop := s ≠ "" ∧ nameMeshRegexp s = true.

(** The key of an item: meshes live in no mesh. *)
Definition plain_key (d : ResourceWsDefinition) (mesh name : string) : Prop :=
  plain_name name ∧ valid_utf8 mesh = true
  ∧ (GetType (ResourceFactory d) ≠ type_name KMesh → plain_name mesh).

Definition endpoints_of (d : ResourceWsDefinition) : resourceEndpoints :=
  if String.eqb (GetType (ResourceFactory d)) (type_name KMesh) then mkEndpoints "name" d else mkEndpoints "mesh" d.
Definition api_of (d : ResourceWsDefinition) : ResourceApi :=
  NewResourceApi (GetType (ResourceFactory d)) (ws_Path d).
Definition item_handler (m : Method) (d : ResourceWsDefinition) : Handler :=
  match m with
  | GET => FindResource (endpoints_of d)
  | PUT => CreateOrUpdateResource (endpoints_of d)
  | DELETE => DeleteResource (endpoints_of d)
  end.

(** The mesh a request for an item is about. *)
Definition item_mesh (d : ResourceWsDefinition) (mesh name : string) : string :=
  if String.eqb (GetType (ResourceFactory d)) (type_name KMesh) then name else mesh.

Lemma AllApis_lookup d : d ∈ All → GetResourceApi AllApis (GetType (ResourceFactory d)) = Ok (api_of d).
Proof.
  intros Hd. assert (Forall (λ d, GetResourceApi AllApis (GetType (ResourceFactory d)) = Ok (api_of d)) All) as H
    by (repeat constructor).
  rewrite Forall_forall in H. by apply H.
Qed.

Lemma plain_bytes s : nameMeshRegexp s = true → all_bytes (λ c, path_byte c && negb (Ascii.eqb c "/")) s = true.
Proof.
  unfold nameMeshRegexp. intros H. eapply all_bytes_impl, H. bytewise.
Qed.

Definition matching_segments (table : list (Method * string)) (m : Method) (segs : list string) :=
  omap (λ x, if bool_decide (x.2.1 = m) then pair x.1 <$> match_segments (split_all "/" x.2.2) segs else None)
    (imap pair table).
Lemma matching_routes_segments table m path :
  matching_routes table m path = matching_segments table m (split_all "/" path).
Proof. done. Qed.

Lemma plain_no_slash s : nameMeshRegexp s = true → has_byte "/" s = false.
Proof.
  intros H. apply has_byte_all_bytes. eapply all_bytes_impl, plain_bytes, H.
  intros c [_ Hc]%andb_true_iff. done.
Qed.

Lemma item_segments d mesh name :
  d ∈ All → plain_key d mesh name →
  split_all "/" (Api_Item (api_of d) mesh name)
  = if String.eqb (GetType (ResourceFactory d)) (type_name KMesh) then [""; "meshes"; name]
    else [""; "meshes"; mesh; ws_Path d; name].
Proof.
  intros Hd ([_ Hn%plain_no_slash] & _ & Hm).
  assert (has_byte "/" (ws_Path d) = false) as Hp.
  { assert (Forall (λ d, has_byte "/" (ws_Path d) = false) All) as H by (repeat constructor).
    rewrite Forall_forall in H. by apply H. }
  unfold api_of, NewResourceApi. destruct (String.eqb_spec (GetType (ResourceFactory d)) (type_name KMesh)) as [_|Ht]; cbn [Api_Item].
  - change ("/meshes/" +:+ name) with ("" +:+ String "/" ("meshes" +:+ String "/" name)).
    rewrite !split_all_app by done. by rewrite split_all_none.
  - change ("/meshes/" +:+ mesh +:+ "/" +:+ ws_Path d +:+ "/" +:+ name)
      with ("" +:+ String "/" ("meshes" +:+ String "/" (mesh +:+ String "/" (ws_Path d +:+ String "/" name)))).
    destruct (Hm Ht) as [_ Hm'%plain_no_slash]. rewrite !split_all_app by done. by rewrite split_all_none.
Qed.

(** One route takes a request for an item, with the handler of its method and
    resource. *)
Lemma item_route d m mesh name :
  d ∈ All → plain_key d mesh name →
  let routes := addResourcesEndpoints false All in
  ∃ i params t, matching_routes (route_table routes) m (Api_Item (api_of d) mesh name) = [(i, params)]
    ∧ routes !! i = Some (mkRoute m t (item_handler m d))
    ∧ (list_to_map params : gmap string string) !! "name" = Some name
    ∧ (list_to_map params : gmap string string) !! ep_meshParam (endpoints_of d) = Some (item_mesh d mesh name).
Proof.
  intros Hd Hkey routes. rewrite matching_routes_segments, item_segments by done.
  destruct Hkey as ([Hn _] & _ & Hm). destruct name as [|cn name]; [done|]. clear Hn. unfold All in Hd.
  apply elem_of_cons in Hd as [->|Hd].
  { destruct m; eexists _, _, _; (split; [vm_compute; reflexivity|]); split; [reflexivity|done..]. }
  assert (∃ cm mesh', mesh = String cm mesh') as (cm & mesh' & ->).
  { destruct mesh as [|cm mesh']; [|by eauto]. exfalso. destruct Hm as [Hm _]; [|done].
    repeat (apply elem_of_cons in Hd as [->|Hd]); [done..|by apply elem_of_nil in Hd]. }
  clear Hm. repeat (apply elem_of_cons in Hd as [->|Hd]); [..|by apply elem_of_nil in Hd];
    destruct m; eexists _, _, _; (split; [vm_compute; reflexivity|]); (split; [reflexivity|]); split; reflexivity.
Qed.

(** The path of a listing. *)
Lemma list_route d mesh :
  d ∈ All → plain_key d mesh "x" →
  let routes := addResourcesEndpoints false All in
  ∃ i params t, matching_routes (route_table routes) GET (Api_List (api_of d) mesh) = [(i, params)]
    ∧ routes !! i = Some (mkRoute GET t (ListResources (endpoints_of d)))
    ∧ default "" ((list_to_map params : gmap string string) !! ep_meshParam (endpoints_of d)) = item_mesh d mesh "".
Proof.
  intros Hd (_ & _ & Hm) routes. rewrite matching_routes_segments.
  assert (split_all "/" (Api_List (api_of d) mesh)
    = if String.eqb (GetType (ResourceFactory d)) (type_name KMesh) then [""; "meshes"] else [""; "meshes"; mesh; ws_Path d]) as ->.
  { assert (has_byte "/" (ws_Path d) = false) as Hp.
    { assert (Forall (λ d, has_byte "/" (ws_Path d) = false) All) as H by (repeat constructor).
      rewrite Forall_forall in H. by apply H. }
    unfold api_of, NewResourceApi.
    destruct (String.eqb_spec (GetType (ResourceFactory d)) (type_name KMesh)) as [_|Ht]; [done|]. cbn [Api_List].
    change ("/meshes/" +:+ mesh +:+ "/" +:+ ws_Path d)
      with ("" +:+ String "/" ("meshes" +:+ String "/" (mesh +:+ String "/" (ws_Path d)))).
    destruct (Hm Ht) as [_ Hm'%plain_no_slash]. rewrite !split_all_app by done. by rewrite split_all_none. }
  unfold All in Hd. apply elem_of_cons in Hd as [->|Hd].
  { eexists _, _, _; (split; [vm_compute; reflexivity|]); by split. }
  assert (∃ cm mesh', mesh = String cm mesh') as (cm & mesh' & ->).
  { destruct mesh as [|cm mesh']; [|by eauto]. exfalso. destruct Hm as [Hm _]; [|done].
    repeat (apply elem_of_cons in Hd as [->|Hd]); [done..|by apply elem_of_nil in Hd]. }
  clear Hm. repeat (apply elem_of_cons in Hd as [->|Hd]); [..|by apply elem_of_nil in Hd];
    eexists _, _, _; (split; [vm_compute; reflexivity|]); (split; [reflexivity|]); reflexivity.
Qed.

(** ** The remote store over the server *)

Definition ws_Kind (d : ResourceWsDefinition) : Kind := o_Kind (ResourceFactory d).

Lemma factories d : d ∈ All →
  ResourceFactory d = new_object (ws_Kind d) ∧ ResourceListFactory d = new_list (ws_Kind d)
  ∧ GetType (ResourceFactory d) = type_name (ws_Kind d).
Proof.
  intros Hd. assert (Forall (λ d, ResourceFactory d = new_object (ws_Kind d)
    ∧ ResourceListFactory d = new_list (ws_Kind d)
    ∧ GetType (ResourceFactory d) = type_name (ws_Kind d)) All) as H by (repeat constructor).
  rewrite Forall_forall in H. by apply H.
Qed.

Lemma item_path_text d mesh name :
  d ∈ All → plain_key d mesh name →
  plain_path_text (Api_Item (api_of d) mesh name).
Proof.
  intros Hd ([_ Hn] & _ & Hm).
  assert (all_bytes path_byte (ws_Path d) = true) as Hp.
  { assert (Forall (λ d, all_bytes path_byte (ws_Path d) = true) All) as H by (repeat constructor).
    rewrite Forall_forall in H. by apply H. }
  assert (∀ s, nameMeshRegexp s = true → all_bytes path_byte s = true) as Hs.
  { intros s Hs. eapply all_bytes_impl, plain_bytes, Hs. by intros c [? _]%andb_true_iff. }
  unfold api_of, NewResourceApi. destruct (String.eqb_spec (GetType (ResourceFactory d)) (type_name KMesh)) as [_|Ht]; cbn [Api_Item].
  - exists "m"%char, ("eshes/" +:+ name). split; [done|]. split; [done|].
    change (all_bytes path_byte ("meshes/" +:+ name) = true). by rewrite all_bytes_app, (Hs name).
  - exists "m"%char, ("eshes/" +:+ mesh +:+ "/" +:+ ws_Path d +:+ "/" +:+ name). split; [done|]. split; [done|].
    change (all_bytes path_byte ("meshes/" +:+ mesh +:+ "/" +:+ ws_Path d +:+ "/" +:+ name) = true).
    destruct (Hm Ht) as [_ Hm']. by rewrite !all_bytes_app, Hp, (Hs name), (Hs mesh).
Qed.

Section Refinement.
Context `{LawfulRestful} `{!LawfulJsonpb} `{!LawfulJsonpbText} `{LawfulRouter}.
Context {St : Type} (resManager : ResourceManager St).
Context (unrouted : Response) (publicURL : string) (now : Z).

Let cfg := mkApiServerConfig false publicURL.
Let client : Client St := api_client resManager unrouted cfg All now.

(** What the client gets for a response of the server. *)
Definition over_http (x : res Response * St) : res HttpResponse * St :=
  (match x.1 with
   | Ok resp => Ok (mkHttpResponse (StatusCode resp) (Ok (Body resp)))
   | Err e => Err e
   | Panic => Err broken
   end, x.2).

Lemma client_item d m mesh name ct body s :
  d ∈ All → plain_key d mesh name →
  let url := path_url (Api_Item (api_of d) mesh name) "" in
  ∃ request, PathParameter request "name" = name
    ∧ meshFromRequest (endpoints_of d) request = item_mesh d mesh name
    ∧ req_URL request = url ∧ req_ContentType request = ct ∧ req_Body request = body
    ∧ client s (mkHttpRequest m url ct body)
      = over_http (run_handler resManager publicURL (item_handler m d) now s request).
Proof.
  intros Hd Hkey url. destruct (item_route d m mesh name Hd Hkey) as (i & params & t & Hmatch & Hi & Hname & Hmesh).
  exists (mkRequest (list_to_map params) url ct body).
  unfold PathParameter, meshFromRequest, PathParameter. cbn [PathParameters]. rewrite Hname, Hmesh.
  repeat (split; [done|]). unfold client, api_client, serve, cfg. cbn [cfg_ReadOnly cfg_publicURL http_Method http_URL].
  change (url_Path url) with (Api_Item (api_of d) mesh name).
  rewrite (dispatch_unique _ _ _ _ _ Hmatch), Hi. cbn [route_To http_ContentType http_Body].
  unfold over_http. by destruct (run_handler _ _ _ _ _ _) as [[|e|] s'].
Qed.

Lemma NewRequest_item d m mesh name body :
  d ∈ All → plain_key d mesh name →
  NewRequest m (Api_Item (api_of d) mesh name) body
  = Ok (mkHttpRequest m (path_url (Api_Item (api_of d) mesh name) "") "" body).
Proof. intros Hd Hkey. unfold NewRequest. by rewrite url_Parse_path by by apply item_path_text. Qed.

(** The two kinds of responses, as [doRequest] sees them. *)
Lemma doRequest_ok s req status body s' :
  client s req = (Ok (mkHttpResponse status (Ok body)), s') → Z.quot status 100 < 4 →
  doRequest client s req = ((status, body, Ok ()), s').
Proof. intros E Hs. unfold doRequest. rewrite E. cbn [http_ReadAll http_StatusCode]. by rewrite (proj2 (Z.leb_gt 4 _)). Qed.

Lemma doRequest_error s req err title s' :
  client s req = over_http (Ok (HandleError err title), s') → title ≠ "" →
  error_text_ok (error_document err title).2 = true →
  ∃ body, doRequest client s req
          = (((error_document err title).1, body, Err (apiFailed (error_document err title).2)), s').
Proof.
  intros E Ht Hok. destruct (HandleError_read err title Hok) as [Hs Hr].
  destruct (error_document_status err title) as (Hrange & Htitle & Hdetails).
  exists (Body (HandleError err title)). unfold doRequest. rewrite E. cbn [over_http fst snd http_ReadAll http_StatusCode].
  rewrite Hs, Hr. assert (4 <= Z.quot (error_document err title).1 100) as Hq.
  { apply Z.quot_le_lower_bound; lia. }
  rewrite (proj2 (Z.leb_le 4 _) Hq). rewrite Htitle, (proj2 (String.eqb_neq _ "") Ht), (proj2 (String.eqb_neq _ "") Hdetails).
  done.
Qed.

(** An object that the server can write: of its kind, with metadata, text, and
    a document. *)
Definition servable (k : Kind) (o : Object) : Prop :=
  o_Kind o = k ∧ ∃ rr b, From_Resource o = Ok rr ∧ meta_ok (rr_Meta rr) = true ∧ Resource_MarshalJSON rr = Ok b.

(** The object as a client sees it: no version, and no mesh of a mesh. *)
Definition remote_view (o : Object) : Object :=
  let meta := default nilMeta (observe <$> o_Meta o) in
  mkObject (Some (remoteMeta (GetName meta)
                    (if String.eqb (GetType o) (type_name KMesh) then "" else GetMesh meta)
                    (GetCreationTime meta) (GetModificationTime meta))) (o_Spec o).

Lemma servable_view k o : servable k o →
  ∃ rr ts doc, From_Resource o = Ok rr ∧ rr_Spec rr = Some (o_Spec o) ∧ document_of k rr
    ∧ remote_view o = mkObject (Some (remoteMeta_of (rr_Meta rr))) (o_Spec o)
    ∧ Resource_tokens false rr = Ok ts ∧ ts = tokens true doc ∧ json_ok doc = true
    ∧ Resource_MarshalJSON rr = Ok (print true doc).
Proof.
  intros (Hk & rr & b & Hrr & Hm & Hb). pose proof Hrr as Hrr'. unfold From_Resource in Hrr'.
  destruct (o_Meta o) as [m|] eqn:Em; [|done]. injection Hrr' as <-.
  set (rr := mkRestResource _ _) in *.
  assert (document_of k rr) as Hdoc by (exists (rr_Meta rr), (o_Spec o); done).
  destruct (MarshalJSON_document (rr_Meta rr) (o_Spec o) b Hb Hm) as (mf & sf & js & -> & Hok & _).
  exists rr, (tokens true (JObj (mf ++ sf))), (JObj (mf ++ sf)).
  split; [done|]. split; [done|]. split; [done|]. split.
  { unfold remote_view. rewrite Em. unfold remoteMeta_of, rr. simpl. by destruct (String.eqb _ _). }
  split; [|done]. unfold Resource_tokens. rewrite Hb. cbn [map_err rbind]. by rewrite compact_print.
Qed.

Lemma error_document_404 e title : ((error_document e title).1 =? 404) = IsResourceNotFound e.
Proof. unfold error_document. destruct (IsResourceNotFound e); [done|]. by repeat case_match. Qed.

Lemma GetType_new k : GetType (new_object k) = type_name k.
Proof. unfold GetType, o_Kind, new_object. simpl. by rewrite kind_of_zero. Qed.

Lemma NewGetOptions_key name mesh : NewGetOptions [GetByKey name mesh] = mkGetOptions name mesh "".
Proof. done. Qed.

(** C34: Reading a resource through the remote store over the server: the
    client gets the resource that the manager finds (without its version, and
    without the mesh of a mesh), a missing resource is the not-found error of the
    store, any other error of the manager arrives as the error document that
    the server makes of it, and a panic breaks the connection. *)
Theorem remote_Get_refines d mesh name s :
  d ∈ All → plain_key d mesh name →
  let k := ws_Kind d in
  let '(err, (s', o)) := mgr_Get (read_only resManager) s (new_object k) [GetByKey name (item_mesh d mesh name)] in
  let got := remote_Get client AllApis s (new_object k) [GetByKey name mesh] in
  match err with
  | Ok _ => servable k o → got = (Ok (), (s', remote_view o))
  | Err e =>
      let doc := error_document e "Could not retrieve a resource" in
      error_text_ok doc.2 = true →
      got = (Err (if IsResourceNotFound e then ErrorResourceNotFound (type_name k) name mesh else apiFailed doc.2),
             (s', new_object k))
  | Panic => got = (Err broken, (s', new_object k))
  end.
Proof.
  intros Hd Hkey k. destruct (factories d Hd) as (Hf & _ & Ht).
  destruct (client_item d GET mesh name "" "" s Hd Hkey) as (request & Hname & Hmesh & _ & _ & _ & Hc).
  cbn [item_handler run_handler] in Hc. unfold findResource in Hc.
  assert (ep_definition (endpoints_of d) = d) as He by (unfold endpoints_of; by destruct (String.eqb _ _)).
  rewrite Hname, Hmesh, He, Hf in Hc. fold k in Hc.
  destruct (mgr_Get _ s _ _) as [err [s' o]].
  unfold remote_Get. rewrite NewGetOptions_key. cbn [go_Mesh go_Name].
  rewrite GetType_new. pose proof (AllApis_lookup d Hd) as Hapi. rewrite Ht in Hapi. fold k in Hapi. rewrite Hapi.
  cbn [map_err rbind]. rewrite NewRequest_item by done.
  destruct err as [[]|e|]; cbn [respond] in Hc.
  - intros Hserv. destruct (servable_view k o Hserv) as (rr & ts & doc & Hrr & Hspec & Hdoc & -> & Hts & -> & Hok & Hb).
    rewrite Hrr in Hc. cbn [rbind] in Hc. rewrite Hts in Hc. cbn [write_json] in Hc.
    rewrite (doRequest_ok s _ 200 _ s' Hc) by done. cbn [negb Z.eqb Pos.eqb].
    destruct Hdoc as (m & spec & -> & Hk & Hmok). cbn [rr_Spec rr_Meta] in *. injection Hspec as ->.
    unfold remote_Unmarshal. cbn [o_Spec new_object].
    pose proof (tokens_writes true doc Hok) as Hw.
    destruct (Resource_read m (o_Spec o) _ (encode_entity (tokens true doc)) emptyRestMeta Hb Hmok (λ _, eq_refl)) as [_ Hread].
    { rewrite (json_roundtrip true doc Hok). by apply (parse_spells _ _ _ Hw), (encode_spells doc). }
    rewrite Hk in Hread. cbn [o_Spec new_object Body]. by rewrite Hread.
  - intros Hok. destruct (doRequest_error s _ e _ s' Hc ltac:(done) Hok) as [body ->].
    by rewrite error_document_404.
  - unfold doRequest. rewrite Hc. done.
Qed.

(** What the client makes of the answer to a request that the manager ended
    with [err]. *)
Definition client_error (title : string) (err : res unit) : res unit :=
  match err with
  | Ok _ => Ok ()
  | Err e => Err (apiFailed (error_document e title).2)
  | Panic => Err broken
  end.
Definition readable (title : string) (err : res unit) : Prop :=
  match err with Err e => error_text_ok (error_document e title).2 = true | _ => True end.

(** The response to a write: a status on success, the error otherwise. *)
Lemma doRequest_respond s req err title status s' :
  client s req = over_http (respond title err (λ _ : unit, Ok (mkResponse status "")), s') →
  title ≠ "" → readable title err → Z.quot status 100 < 4 →
  ∃ st body, doRequest client s req = ((st, body, client_error title err), s') ∧ (err = Ok () → st = status)
    ∧ (∀ e, err = Err e → (st =? 404) = IsResourceNotFound e) ∧ (err = Panic → st = 0).
Proof.
  intros Hc Ht Hr Hs. destruct err as [[]|e|]; cbn [respond readable] in *.
  - exists status, "". by rewrite (doRequest_ok s req status "" s' Hc Hs).
  - destruct (doRequest_error s req e title s' Hc Ht Hr) as [body ->]. eexists _, body.
    split; [done|]. split; [done|]. split; [|done]. intros e' [= <-]. apply error_document_404.
  - exists 0, "". unfold doRequest. by rewrite Hc.
Qed.

Lemma plain_valid s : nameMeshRegexp s = true → valid_utf8 s = true.
Proof. intros Hs. apply valid_ascii. eapply all_bytes_impl, Hs. bytewise. Qed.

(** What the manager is asked to do with a document, and under which title
    its error is reported. *)
Definition put_item (d : ResourceWsDefinition) (s : St) (mesh name : string) (spec : ResourceSpec)
  : res unit * St * string :=
  let k := ws_Kind d in
  let key := item_mesh d mesh name in
  let '(err, (s1, cur)) := mgr_Get (read_only resManager) s (new_object k) [GetByKey name key] in
  match err with
  | Ok _ =>
      let '(err, (s2, _)) := mgr_Update resManager now s1 (mkObject (o_Meta cur) spec) [] in
      (err, s2, "Could not update a resource")
  | Err e =>
      if IsResourceNotFound e then
        let '(err, (s2, _)) := mgr_Create resManager now s1 (mkObject None spec) [CreateByKey name key] in
        (err, s2, "Could not create a resource")
      else (Err e, s1, "Could not find a resource")
  | Panic => (Panic, s1, "Could not find a resource")
  end.

(** A resource the manager reads has the type it was asked for. *)
Definition typed_reads : Prop := ∀ s k fs s' o,
  mgr_Get (read_only resManager) s (new_object k) fs = (Ok (), (s', o)) → o_Kind o = k.

Lemma validateResourceRequest_own d request rr mesh name :
  d ∈ All → plain_key d mesh name →
  PathParameter request "name" = name → meshFromRequest (endpoints_of d) request = item_mesh d mesh name →
  rr_Meta rr = mkRestMeta (type_name (ws_Kind d)) mesh name zeroTime zeroTime →
  validateResourceRequest (endpoints_of d) request rr = Ok ().
Proof.
  intros Hd ([_ Hn] & _ & Hm) Hname Hmesh Hrr. destruct (factories d Hd) as (_ & _ & Ht).
  unfold validateResourceRequest. rewrite Hname, Hmesh, Hrr. cbn [rm_Name rm_Type rm_Mesh].
  assert (ep_definition (endpoints_of d) = d) as -> by (unfold endpoints_of; by destruct (String.eqb _ _)).
  rewrite Ht, !String.eqb_refl. unfold item_mesh. rewrite Ht in Hm |- *.
  destruct (String.eqb_spec (type_name (ws_Kind d)) (type_name KMesh)) as [E|E].
  - rewrite andb_false_r. unfold ValidateMeta. by rewrite Hn.
  - destruct (Hm E) as [_ Hm']. rewrite String.eqb_refl. unfold ValidateMeta. by rewrite Hn, Hm'.
Qed.

Lemma zero_time : Time_MarshalJSON zeroTime = Ok (JStr "0001-01-01T00:00:00Z").
Proof. vm_compute. reflexivity. Qed.

(** The document of a resource that a client writes. *)
Lemma written_document d mesh name spec js :
  plain_key d mesh name → kind_of_spec spec = ws_Kind d → jsonpb_Marshal spec = Ok js →
  let rr := mkRestResource (mkRestMeta (type_name (ws_Kind d)) mesh name zeroTime zeroTime) (Some spec) in
  ∃ b, Resource_Marshal rr = Ok b ∧ parse b ≠ None
    ∧ Resource_Unmarshal b (mkRestResource emptyRestMeta (Some (zero_spec (ws_Kind d)))) = (Ok (), rr).
Proof.
  intros ([_ Hn] & Hv & _) Hk Hjs rr. set (rm := mkRestMeta _ _ _ _ _) in rr.
  assert (meta_ok rm = true) as Hrm.
  { unfold meta_ok, rm. cbn [rm_Type rm_Mesh rm_Name]. rewrite Hv, (plain_valid name Hn). by destruct (ws_Kind d). }
  assert (∃ b, Resource_MarshalJSON rr = Ok b) as [b Hb].
  { unfold Resource_MarshalJSON, rr. cbn [rr_Spec rr_Meta]. rewrite Hjs. cbn [rbind]. unfold meta_json, rm.
    cbn [rm_CreationTime rm_ModificationTime].
    rewrite zero_time. cbn [map_err rbind]. destruct (_ || _); by eauto. }
  destruct (MarshalJSON_document rm spec b Hb Hrm) as (mf & sf & js' & -> & Hok & _).
  exists (print true (JObj (mf ++ sf))). split; [|split].
  - unfold Resource_Marshal, Resource_tokens. rewrite Hb. cbn [map_err rbind]. by rewrite compact_print.
  - by rewrite json_roundtrip.
  - rewrite <- Hk. by destruct (Resource_read rm spec _ (print true (JObj (mf ++ sf))) emptyRestMeta Hb Hrm (λ _, eq_refl) eq_refl).
Qed.

(** The server's answer to a document: what [put_item] says. *)
Lemma createOrUpdate_item d mesh name s spec request :
  typed_reads → d ∈ All → plain_key d mesh name → kind_of_spec spec = ws_Kind d →
  PathParameter request "name" = name → meshFromRequest (endpoints_of d) request = item_mesh d mesh name →
  ReadEntity request (mkRestResource emptyRestMeta (Some (zero_spec (ws_Kind d))))
  = (Ok (), mkRestResource (mkRestMeta (type_name (ws_Kind d)) mesh name zeroTime zeroTime) (Some spec)) →
  let '(err, s', title) := put_item d s mesh name spec in
  title ≠ "" ∧ ∃ status, (status = 200 ∨ status = 201)
    ∧ createOrUpdateResource resManager (endpoints_of d) now s request
      = (respond title err (λ _, Ok (mkResponse status "")), s').
Proof.
  intros Htyped Hd Hkey Hk Hname Hmesh Hread. destruct (factories d Hd) as (Hf & _ & _).
  unfold createOrUpdateResource, put_item.
  assert (ep_definition (endpoints_of d) = d) as He by (unfold endpoints_of; by destruct (String.eqb _ _)).
  rewrite He, Hf. cbn [o_Spec new_object]. rewrite Hread.
  rewrite (validateResourceRequest_own d request _ mesh name) by done. rewrite Hname, Hmesh.
  change (mkObject None (zero_spec (ws_Kind d))) with (new_object (ws_Kind d)).
  destruct (mgr_Get _ s _ _) as [[[]|e|] [s1 cur]] eqn:Eget.
  - apply Htyped in Eget. unfold updateResource, SetSpec_ignored. cbn [rr_Spec].
    rewrite SetSpec_spec, Eget, Hk, bool_decide_eq_true_2 by done.
    destruct (mgr_Update _ _ _ _ _) as [err [s2 o2]]. split; [done|]. exists 200. by split; [left|].
  - destruct (IsResourceNotFound e).
    + unfold createResource, SetSpec_ignored. cbn [rr_Spec]. rewrite He, Hf, SetSpec_spec.
      rewrite bool_decide_eq_true_2 by (rewrite Hk; unfold o_Kind; simpl; by rewrite kind_of_zero).
      destruct (mgr_Create _ _ _ _ _) as [err [s2 o2]]. split; [done|]. exists 201. by split; [right|].
    + split; [done|]. exists 200. by split; [left|].
  - split; [done|]. exists 200. by split; [left|].
Qed.

(** C33: Writing a resource through the remote store over the server: the
    server validates that the document is about the resource of the URL,
    updates the resource when the manager finds it and creates it when it does
    not; the store reports success exactly when the manager did, an error of
    the manager arrives as the error document that the server makes of it, and
    the state is the one the manager left. *)
Theorem upsert_refines d mesh name s meta spec js :
  typed_reads → d ∈ All → plain_key d mesh name → kind_of_spec spec = ws_Kind d → jsonpb_Marshal spec = Ok js →
  let '(err, s', title) := put_item d s mesh name spec in
  readable title err →
  upsert client AllApis s (mkObject meta spec) (mkRestMeta (type_name (ws_Kind d)) mesh name zeroTime zeroTime)
  = (client_error title err,
     (s', match err with
          | Ok _ => mkObject (Some (remoteMeta name mesh zeroTime zeroTime)) spec
          | _ => mkObject meta spec
          end)).
Proof.
  intros Htyped Hd Hkey Hk Hjs. destruct (factories d Hd) as (_ & _ & Ht).
  destruct (written_document d mesh name spec js Hkey Hk Hjs) as (b & Hb & Hparse & Hread).
  destruct (client_item d PUT mesh name "application/json" b s Hd Hkey)
    as (request & Hname & Hmesh & _ & Hct & Hbody & Hc).
  cbn [item_handler run_handler] in Hc.
  pose proof (createOrUpdate_item d mesh name s spec request Htyped Hd Hkey Hk Hname Hmesh) as Hput.
  rewrite read_json, Hbody, Hread in Hput by (done || by rewrite Hbody). specialize (Hput eq_refl).
  destruct (put_item d s mesh name spec) as [[err s'] title]. intros Hr.
  destruct Hput as (Htitle & status & Hstatus & Hput). rewrite Hput in Hc.
  destruct (doRequest_respond _ _ _ _ _ _ Hc Htitle Hr) as (st & body & Hdo & Hst & _).
  { by destruct Hstatus as [-> | ->]. }
  unfold upsert. cbn [o_Spec rm_Mesh rm_Name].
  assert (GetType (mkObject meta spec) = type_name (ws_Kind d)) as -> by (unfold GetType, o_Kind; simpl; by rewrite Hk).
  pose proof (AllApis_lookup d Hd) as Hapi. rewrite Ht in Hapi. rewrite Hapi. cbn [map_err rbind].
  rewrite Hb. cbn [rbind]. rewrite NewRequest_item by done. cbn [rbind].
  unfold set_content_type. cbn [http_Method http_URL http_Body]. rewrite Hdo.
  destruct err as [[]|e|]; [|done|done]. cbn [client_error]. rewrite Hst by done.
  by destruct Hstatus as [-> | ->].
Qed.

(** Deleting through the remote store over the server: success exactly
    when the manager succeeds, the not-found error of the store when it finds
    nothing, any other error as the document the server makes of it. *)
Theorem remote_Delete_refines d mesh name s :
  d ∈ All → plain_key d mesh name →
  let k := ws_Kind d in
  let title := "Could not delete a resource" in
  let '(err, s') := mgr_Delete resManager s (new_object k) [DeleteByKey name (item_mesh d mesh name)] in
  readable title err →
  remote_Delete client AllApis s (new_object k) [DeleteByKey name mesh]
  = (match err with
     | Err e => if IsResourceNotFound e then Err (ErrorResourceNotFound (type_name k) name mesh) else client_error title err
     | _ => client_error title err
     end, s').
Proof.
  intros Hd Hkey k title. destruct (factories d Hd) as (Hf & _ & Ht).
  destruct (client_item d DELETE mesh name "" "" s Hd Hkey) as (request & Hname & Hmesh & _ & _ & _ & Hc).
  cbn [item_handler run_handler] in Hc. unfold deleteResource in Hc.
  assert (ep_definition (endpoints_of d) = d) as He by (unfold endpoints_of; by destruct (String.eqb _ _)).
  rewrite Hname, Hmesh, He, Hf in Hc. fold k in Hc.
  destruct (mgr_Delete _ s _ _) as [err s']. intros Hr.
  destruct (doRequest_respond _ _ _ _ _ _ Hc ltac:(done) Hr ltac:(done)) as (st & body & Hdo & Hst & H404 & Hzero).
  unfold remote_Delete. rewrite GetType_new. pose proof (AllApis_lookup d Hd) as Hapi. rewrite Ht in Hapi.
  fold k in Hapi. rewrite Hapi. cbn [map_err rbind].
  change (NewDeleteOptions [DeleteByKey name mesh]) with (mkDeleteOptions name mesh). cbn [do_Mesh do_Name].
  rewrite NewRequest_item by done. rewrite Hdo. destruct err as [[]|e|]; cbn [client_error].
  - by rewrite Hst.
  - rewrite (H404 e) by done. by destruct (IsResourceNotFound e).
  - by rewrite Hzero.
Qed.

(** ** Listing *)

(** A public URL of a server: no user, query or fragment. *)
Definition plain_server (base : URL) : Prop := plain_url (set_RawQuery (set_Path base "/") "").

Lemma plain_link base path query :
  plain_server base → plain_path_text path → all_bytes (λ c, negb (control_byte c)) query = true →
  plain_url (set_RawQuery (set_Path base path) query).
Proof.
  intros [] (c & rest & -> & _ & Hp) Hq. split; try done. by exists (String c rest).
Qed.

Lemma plain_link_text base path v :
  plain_server base → plain_path_text path →
  valid_utf8 (URL_String (set_RawQuery (set_Path base path) (Values_Encode v))) = true.
Proof.
  intros Hb Hp.
  assert (all_bytes (λ c, negb (control_byte c)) (Values_Encode v) = true ∧ all_bytes ascii_byte (Values_Encode v) = true)
    as [Hc Ha].
  { split; (eapply all_bytes_impl, Values_Encode_bytes); bytewise. }
  pose proof (plain_link base path _ Hb Hp Hc) as Hu. apply valid_ascii. rewrite (URL_String_plain _ Hu).
  destruct Hp as (c & rest & -> & _ & Hp). destruct (plain_host _ Hu) as (name & port & Hhost & _ & Hn & Hport).
  rewrite !all_bytes_app, Hhost. cbn [url_Scheme url_Path set_RawQuery set_Path].
  rewrite (host_bytes ascii_byte name port) by (done || bytewise).
  assert (all_bytes ascii_byte (String "/" (String c rest)) = true) as ->.
  { change (all_bytes ascii_byte (String c rest) = true). eapply all_bytes_impl, Hp. bytewise. }
  assert (all_bytes ascii_byte (query_text (set_RawQuery (set_Path base (String "/" (String c rest))) (Values_Encode v))) = true) as ->.
  { unfold query_text. destruct (_ || _); [|done]. rewrite all_bytes_app. cbn [url_RawQuery set_RawQuery]. by rewrite Ha. }
  by destruct (plain_scheme _ Hb) as [E|E]; cbn [url_Scheme set_RawQuery set_Path] in E; rewrite E.
Qed.

(** The query of a listing and what the server reads from it. *)
Lemma list_query_spec size offset :
  let v := list_query ∅ (mkListOptions "" size offset) in
  map_Forall (λ _ xs, xs ≠ []) v ∧ Values_Get v "size" = (if size =? 0 then "" else itoa size)
  ∧ Values_Get v "offset" = offset.
Proof.
  unfold list_query, Values_Add, Values_Get. cbn [lo_PageOffset lo_PageSize].
  destruct (String.eqb_spec offset "") as [->|Ho], (size =? 0); cbn [negb]; rewrite ?lookup_empty; cbn [default app];
    (split; [intros k xs; rewrite ?lookup_insert_Some, ?lookup_empty; naive_solver|]);
    by rewrite ?lookup_insert, ?lookup_empty.
Qed.

(** The request of a listing, as the handler sees it. *)
Lemma client_list d mesh v s :
  d ∈ All → plain_key d mesh "x" → map_Forall (λ _ xs, xs ≠ []) v →
  let url := path_url (Api_List (api_of d) mesh) (Values_Encode v) in
  ∃ request, meshFromRequest (endpoints_of d) request = item_mesh d mesh "" ∧ req_URL request = url
    ∧ (∀ name, QueryParameter request name = Values_Get v name)
    ∧ client s (mkHttpRequest GET url "" "")
      = over_http (listResources resManager publicURL (endpoints_of d) s request).
Proof.
  intros Hd Hkey Hv url. destruct (list_route d mesh Hd Hkey) as (i & params & t & Hmatch & Hi & Hmesh).
  exists (mkRequest (list_to_map params) url "" "").
  unfold meshFromRequest, PathParameter. cbn [PathParameters]. split; [done|]. split; [done|]. split.
  { intros name. unfold QueryParameter, url. cbn [req_URL path_url url_RawQuery]. by rewrite Encode_ParseQuery. }
  unfold client, api_client, serve, cfg. cbn [cfg_ReadOnly cfg_publicURL http_Method http_URL].
  change (url_Path url) with (Api_List (api_of d) mesh).
  rewrite (dispatch_unique _ _ _ _ _ Hmatch), Hi. cbn [route_To http_ContentType http_Body run_handler].
  unfold over_http. by destruct (listResources _ _ _ _ _) as [[|e|] s'].
Qed.

Lemma list_path_text d mesh : d ∈ All → plain_key d mesh "x" → plain_path_text (Api_List (api_of d) mesh).
Proof.
  intros Hd (_ & _ & Hm).
  assert (all_bytes path_byte (ws_Path d) = true) as Hp.
  { assert (Forall (λ d, all_bytes path_byte (ws_Path d) = true) All) as Hall by (repeat constructor).
    rewrite Forall_forall in Hall. by apply Hall. }
  unfold api_of, NewResourceApi.
  destruct (String.eqb_spec (GetType (ResourceFactory d)) (type_name KMesh)) as [_|Ht]; cbn [Api_List].
  - by exists "m"%char, "eshes".
  - exists "m"%char, ("eshes/" +:+ mesh +:+ "/" +:+ ws_Path d). split; [done|]. split; [done|].
    change (all_bytes path_byte ("meshes/" +:+ mesh +:+ "/" +:+ ws_Path d) = true).
    destruct (Hm Ht) as [_ Hm']. rewrite !all_bytes_app, Hp.
    assert (all_bytes path_byte mesh = true) as ->; [|done].
    eapply all_bytes_impl, plain_bytes, Hm'. by intros c [? _]%andb_true_iff.
Qed.

(** The page a listing asks for. *)
Lemma pagination_list size offset request :
  - 2 ^ 63 ≤ size ≤ maxPageSize →
  (∀ name, QueryParameter request name = Values_Get (list_query ∅ (mkListOptions "" size offset)) name) →
  pagination request = Ok (mkPage (if size =? 0 then defaultPageSize else size) offset).
Proof.
  intros Hs Hq. destruct (list_query_spec size offset) as (_ & Hsize & Hoffset).
  unfold pagination. rewrite !Hq, Hsize, Hoffset. destruct (Z.eqb_spec size 0) as [|Hne]; [done|].
  assert (String.eqb (itoa size) "" = false) as ->.
  { apply String.eqb_neq. unfold itoa. destruct (size <? 0); [done|]. apply format_uint_nonempty. }
  cbn [negb]. unfold maxPageSize in Hs. rewrite atoi_itoa by lia.
  unfold maxPageSize. destruct (Z.ltb_spec 1000 size); [lia|done].
Qed.

(** The link to the next page, and what a client reads from it. *)
Lemma nextLink_list request l base path v :
  url_Parse publicURL = Ok base → plain_server base → plain_path_text path →
  map_Forall (λ _ xs, xs ≠ []) v → req_URL request = path_url path (Values_Encode v) →
  if String.eqb (NextOffset l) "" then nextLink request publicURL l = Ok None
  else ∃ next u, nextLink request publicURL l = Ok (Some next) ∧ valid_utf8 next = true
    ∧ ParseRequestURI next = Ok u ∧ Values_Get (ParseQuery (url_RawQuery u)) "offset" = NextOffset l
    ∧ ∀ name, name ≠ "offset" → ParseQuery (url_RawQuery u) !! name = v !! name.
Proof.
  intros Hbase Hplain Hpath Hv Hurl. unfold nextLink.
  destruct (String.eqb_spec (NextOffset l) "") as [|Hne]; [done|].
  rewrite Hbase, Hurl. cbn [map_err rbind path_url url_RawQuery url_Path]. rewrite Encode_ParseQuery by done.
  set (query := Values_Set v "offset" (NextOffset l)).
  assert (map_Forall (λ _ xs, xs ≠ []) query) as Hquery.
  { unfold query, Values_Set. by apply map_Forall_insert_2. }
  assert (all_bytes (λ c, negb (control_byte c)) (Values_Encode query) = true) as Hc.
  { eapply all_bytes_impl, Values_Encode_bytes. bytewise. }
  destruct (String_ParseRequestURI _ (plain_link base path _ Hplain Hpath Hc)) as (u & Hu & Hraw & _).
  eexists _, u. split; [done|]. split; [by apply plain_link_text|]. split; [done|].
  rewrite Hraw. cbn [url_RawQuery set_RawQuery set_Path]. rewrite Encode_ParseQuery by done.
  unfold query, Values_Set, Values_Get. split; [by rewrite lookup_insert, decide_True|].
  intros name Hname. by rewrite lookup_insert_ne.
Qed.

(** The items as the client adds them to its list. *)
Lemma add_rest_items_view k items rrs l :
  ol_Kind l = k → Forall2 (λ o rr, servable k o ∧ From_Resource o = Ok rr) items rrs →
  add_rest_items l rrs = (Ok (), mkObjectList k (GetItems l ++ (remote_view <$> items)) (NextOffset l)).
Proof.
  intros Hk Hrrs. revert l Hk; induction Hrrs as [|o rr items rrs [Ho Hrr] _ IH]; intros l Hk.
  { simpl. rewrite app_nil_r, <- Hk. by destruct l. }
  destruct (servable_view k o Ho) as (rr' & ts & doc & Hrr' & Hspec & _ & Hview & _).
  rewrite Hrr in Hrr'. injection Hrr' as <-. cbn [add_rest_items]. rewrite Hspec, SetSpec_spec.
  assert (kind_of_spec (o_Spec o) = k) as Hko by (by destruct Ho).
  rewrite bool_decide_eq_true_2 by (rewrite Hko; unfold NewItem, o_Kind; simpl; by rewrite kind_of_zero).
  unfold SetMeta. cbn [o_Spec]. rewrite <- Hview. unfold AddItem.
  rewrite bool_decide_eq_true_2 by (unfold o_Kind; by rewrite Hview, Hk).
  rewrite IH by done. cbn [GetItems NextOffset fmap list_fmap]. by rewrite <- app_assoc.
Qed.

(** What the server can write of a list, and that the client reads it back. *)
Lemma servable_items k items : Forall (servable k) items →
  ∃ rrs, rmapM From_Resource items = Ok rrs ∧ Forall (document_of k) rrs
    ∧ Forall2 (λ o rr, servable k o ∧ From_Resource o = Ok rr) items rrs
    ∧ ∃ tss, rmapM (Resource_tokens false) rrs = Ok tss.
Proof.
  induction 1 as [|o items Ho _ IH]; [by exists []; repeat split; try constructor; exists []|].
  destruct IH as (rrs & Hrrs & Hdocs & Hpairs & tss & Htss).
  destruct (servable_view k o Ho) as (rr & ts & doc & Hrr & _ & Hdoc & _ & Hts & _).
  exists (rr :: rrs). simpl. rewrite Hrr, Hrrs. cbn [rbind]. split; [done|]. split; [by constructor|].
  split; [by constructor|]. rewrite Hts, Htss. by eexists.
Qed.

Lemma list_roundtrip k l next link :
  ol_Kind l = k → Forall (servable k) (GetItems l) → (∀ n, next = Some n → valid_utf8 n = true) →
  (match next with
   | None => link = ""
   | Some n => ∃ u, ParseRequestURI n = Ok u ∧ Values_Get (ParseQuery (url_RawQuery u)) "offset" = link
   end) →
  ∃ rrs ts, From_ResourceList l = Ok (mkRestList rrs None)
    ∧ ResourceList_tokens false (mkRestList rrs next) = Ok ts
    ∧ UnmarshalList (encode_entity ts) (new_list k) = (Ok (), mkObjectList k (remote_view <$> GetItems l) link).
Proof.
  intros Hk Hitems Hnext Hlink. destruct (servable_items k _ Hitems) as (rrs & Hrrs & Hdocs & Hpairs & tss & Htss).
  assert (∃ ts, ResourceList_tokens false (mkRestList rrs next) = Ok ts) as [ts Hts].
  { unfold ResourceList_tokens. cbn [rl_Items]. rewrite Htss. cbn [rbind]. by eexists. }
  exists rrs, ts. split; [unfold From_ResourceList; by rewrite Hrrs|]. split; [done|].
  destruct (ResourceList_parts false k (mkRestList rrs next) ts Hdocs Hnext Hts)
    as (? & ? & ? & ? & _ & _ & _ & _ & _ & Hw).
  unfold UnmarshalList. cbn [NewItem new_list ol_Kind o_Spec new_object].
  rewrite (ResourceList_read false k (mkRestList rrs next) ts _ Hdocs Hnext Hts (encode_spells _ _ Hw)).
  cbn [rl_Items rl_Next]. rewrite (add_rest_items_view k (GetItems l)) by done.
  cbn [GetItems NextOffset new_list app]. destruct next as [n|]; [|by subst link].
  destruct Hlink as (u & -> & ->). unfold SetPagination. cbn [ol_Kind GetItems].
  by destruct (String.eqb_spec link "") as [->|].
Qed.

(** Listing through the remote store over the server: a page of the
    manager (of 100 items when the client asks for no size) arrives with the
    same items as a client sees them, in the same order, and with the offset of
    the next page, which travels inside a link; an error of the manager arrives
    as the document the server makes of it. *)
Theorem remote_List_refines d mesh size offset s base :
  d ∈ All → plain_key d mesh "x" → - 2 ^ 63 ≤ size ≤ maxPageSize →
  url_Parse publicURL = Ok base → plain_server base →
  let k := ws_Kind d in
  let title := "Could not retrieve resources" in
  let '(err, (s', l)) :=
    mgr_List (read_only resManager) s (new_list k)
      [ListByMesh (item_mesh d mesh ""); ListByPage (if size =? 0 then defaultPageSize else size) offset] in
  let got := remote_List client AllApis s (new_list k) [ListByMesh mesh; ListByPage size offset] in
  match err with
  | Ok _ => ol_Kind l = k → Forall (servable k) (GetItems l) →
      got = (Ok (), (s', mkObjectList k (remote_view <$> GetItems l) (NextOffset l)))
  | _ => readable title err → got = (client_error title err, (s', new_list k))
  end.
Proof.
  intros Hd Hkey Hsize Hbase Hplain k title. destruct (factories d Hd) as (_ & Hfl & Ht).
  destruct (list_query_spec size offset) as (Hne & _).
  destruct (client_list d mesh _ s Hd Hkey Hne) as (request & Hmesh & Hurl & Hq & Hc).
  set (v := list_query ∅ (mkListOptions "" size offset)) in *.
  unfold listResources in Hc. rewrite Hmesh, (pagination_list size offset request Hsize Hq) in Hc.
  cbn [page_size page_offset] in Hc.
  assert (ep_definition (endpoints_of d) = d) as He by (unfold endpoints_of; by destruct (String.eqb _ _)).
  rewrite He, Hfl in Hc. fold k in Hc.
  destruct (mgr_List _ s _ _) as [err [s' l]].
  unfold remote_List. change (NewListOptions [ListByMesh mesh; ListByPage size offset]) with (mkListOptions mesh size offset).
  pose proof (AllApis_lookup d Hd) as Hapi. rewrite Ht in Hapi. fold k in Hapi.
  unfold GetItemType. cbn [ol_Kind new_list]. rewrite Hapi. cbn [map_err rbind lo_Mesh].
  unfold NewRequest. rewrite url_Parse_path by by apply list_path_text. cbn [rbind http_URL].
  change (set_RawQuery (path_url (Api_List (api_of d) mesh) "") _) with (path_url (Api_List (api_of d) mesh) (Values_Encode v)).
  destruct err as [[]|e|]; cbn [respond] in Hc.
  - intros Hlk Hitems.
    pose proof (nextLink_list request l base _ v Hbase Hplain (list_path_text d mesh Hd Hkey) Hne Hurl) as Hnext.
    assert (∃ next, nextLink request publicURL l = Ok next ∧ (∀ n, next = Some n → valid_utf8 n = true)
      ∧ match next with
        | None => NextOffset l = ""
        | Some n => ∃ u, ParseRequestURI n = Ok u ∧ Values_Get (ParseQuery (url_RawQuery u)) "offset" = NextOffset l
        end) as (next & Hn & Hvalid & Hlink).
    { destruct (String.eqb_spec (NextOffset l) "") as [E|]; [by exists None|].
      destruct Hnext as (nx & u & -> & Hn & Hu & Ho & _). exists (Some nx). split; [done|]. split; [by intros ? [= <-]|eauto]. }
    destruct (list_roundtrip k l next (NextOffset l) Hlk Hitems Hvalid Hlink) as (rrs & ts & Hfrom & Hts & Hread).
    rewrite Hfrom in Hc. cbn [rbind] in Hc. rewrite Hn in Hc. cbn [respond rl_Items] in Hc. rewrite Hts in Hc.
    cbn [write_json] in Hc. rewrite (doRequest_ok s _ 200 _ s' Hc) by done. cbn [negb Z.eqb Pos.eqb Body]. by rewrite Hread.
  - intros Hr. destruct (doRequest_error s _ e _ s' Hc ltac:(done) Hr) as [body ->]. done.
  - intros _. unfold doRequest. by rewrite Hc.
Qed.

(** A listing of dataplane overviews that filters by tag or gateway may
    carry a link to a next page (when the manager has more dataplanes than a
    page), but following it is always refused: the link keeps the filter and
    adds an offset, a combination that the same handler answers with status 400
    without reading anything. *)
Theorem filtered_page_link_rejected request l base path v s :
  url_Parse publicURL = Ok base → plain_server base → plain_path_text path →
  map_Forall (λ _ xs, xs ≠ []) v → req_URL request = path_url path (Values_Encode v) →
  Values_Get v "size" = "" → Values_Get v "tag" ≠ "" ∨ Values_Get v "gateway" ≠ "" → NextOffset l ≠ "" →
  ∃ link u, nextLink request publicURL l = Ok (Some link) ∧ ParseRequestURI link = Ok u
    ∧ ∀ next, req_URL next = u →
        ∃ response, inspectDataplanes resManager publicURL s next = (Ok response, s) ∧ StatusCode response = 400.
Proof.
  intros Hbase Hplain Hpath Hv Hurl Hsize Hfilter Hne.
  pose proof (nextLink_list request l base path v Hbase Hplain Hpath Hv Hurl) as Hlink.
  rewrite (proj2 (String.eqb_neq _ "") Hne) in Hlink. destruct Hlink as (link & u & Hlink & _ & Hu & Hoffset & Hrest).
  exists link, u. split; [done|]. split; [done|]. intros next Hnext.
  assert (∀ name, name ≠ "offset" → QueryParameter next name = Values_Get v name) as Hq.
  { intros name Hname. unfold QueryParameter, Values_Get. by rewrite Hnext, Hrest. }
  assert (QueryParameter next "offset" = NextOffset l) as Ho by (unfold QueryParameter; by rewrite Hnext).
  unfold inspectDataplanes, pagination. rewrite !Ho, !Hq, Hsize by done.
  rewrite (proj2 (String.eqb_neq _ "") Hne). cbn [String.eqb negb rbind orb andb].
  assert (negb (String.eqb (Values_Get v "tag") "") || negb (String.eqb (Values_Get v "gateway") "") = true) as ->.
  { apply orb_true_iff. rewrite !negb_true_iff, !String.eqb_neq. done. }
  by eexists.
Qed.
End Refinement.

(** ** A read-only server *)

Section ReadOnly.
Context `{Restful} `{Jsonpb} `{Router} {St : Type} (resManager : ResourceManager St).

(** Reading through the manager leaves its state as it is. *)
Hypothesis get_pure : ∀ s o fs, (mgr_Get (read_only resManager) s o fs).2.1 = s.
Hypothesis list_pure : ∀ s l fs, (mgr_List (read_only resManager) s l fs).2.1 = s.

Definition reads_only (h : Handler) : bool :=
  match h with CreateOrUpdateResource _ | DeleteResource _ => false | _ => true end.

Lemma reading_handler publicURL h now s request :
  reads_only h = true → (run_handler resManager publicURL h now s request).2 = s.
Proof.
  destruct h as [| |r|r|r|r]; intros Hh; try discriminate Hh; cbn [run_handler].
  - unfold inspectDataplanes, fetchOverviews. destruct (pagination request) as [p| |]; [|done|done].
    destruct (_ && _); [done|].
    pose proof (list_pure s (new_list KDataplane) [ListByMesh (PathParameter request "mesh"); ListByPage (page_size p) (page_offset p)]) as Hpure1.
    destruct (mgr_List _ s _ _) as [[[]|e|] [s1 l1]]; cbn [fst snd] in Hpure1; subst s1; [|done|done].
    pose proof (list_pure s (new_list KDataplaneInsight) [ListByMesh (PathParameter request "mesh")]) as Hpure2.
    by destruct (mgr_List _ s _ _) as [[[]|e|] [s2 l2]].
  - unfold inspectDataplane, fetchOverview.
    set (fs := [GetByKey (PathParameter request "name") (PathParameter request "mesh")]).
    pose proof (get_pure s (new_object KDataplane) fs) as Hpure1.
    destruct (mgr_Get _ s _ _) as [[[]|e|] [s1 o1]]; cbn [fst snd] in Hpure1; subst s1; [|done|done].
    pose proof (get_pure s (new_object KDataplaneInsight) fs) as Hpure2.
    destruct (mgr_Get _ s _ _) as [[[]|e|] [s2 o2]]; cbn [fst snd] in Hpure2; subst s2; [done| |done].
    by destruct (negb _).
  - unfold findResource. pose proof (get_pure s (ResourceFactory (ep_definition r))
      [GetByKey (PathParameter request "name") (meshFromRequest r request)]) as Hpure1.
    by destruct (mgr_Get _ s _ _) as [err [s1 o1]].
  - unfold listResources. destruct (pagination request) as [p| |]; [|done|done].
    pose proof (list_pure s (ResourceListFactory (ep_definition r))
      [ListByMesh (meshFromRequest r request); ListByPage (page_size p) (page_offset p)]) as Hpure1.
    by destruct (mgr_List _ s _ _) as [err [s1 o1]].
Qed.

Lemma read_only_routes defs r : r ∈ addResourcesEndpoints true defs → reads_only (route_To r) = true.
Proof.
  unfold addResourcesEndpoints. rewrite !elem_of_app. intros [Hr|[Hr|[Hr|Hr]]];
    [by apply list_elem_of_singleton in Hr as ->..|].
  apply list_elem_of_bind in Hr as (d & Hr & _). unfold definition_routes in Hr.
  destruct (negb _); simpl in Hr; repeat (apply elem_of_cons in Hr as [->|Hr]; [done|]); by apply elem_of_nil in Hr.
Qed.

(** C35: A server that is configured as read-only never changes a resource:
    whatever request arrives and however it is routed, the state of the manager
    is the same afterwards. *)
Theorem read_only_server unrouted publicURL defs now s req :
  (serve resManager unrouted (mkApiServerConfig true publicURL) defs now s req).2 = s.
Proof.
  unfold serve. cbn [cfg_ReadOnly cfg_publicURL]. destruct (dispatch _ _ _) as [[i params]|]; [|done].
  destruct (addResourcesEndpoints true defs !! i) as [r|] eqn:Er; [|done].
  apply reading_handler, (read_only_routes defs). by apply list_elem_of_lookup_2 in Er.
Qed.
End ReadOnly.

(** ** Examples *)

(** A marshaller for empty messages and for traffic logs with a backend. *)
Definition backend_fields (b : string) : list (string * json) := [("conf", JObj [("backend", JStr b)])].

#[local] Instance rest_jsonpb : Jsonpb :=
  {| jsonpb_Marshal spec :=
       match spec with
       | MeshSpec (mkMesh None None None None) => Ok (print true (JObj []))
       | TrafficLogSpec (mkTrafficLog [] [] (Some b)) =>
           if valid_utf8 b then Ok (print true (JObj (backend_fields b))) else Err (Errorf "invalid UTF-8" [])
       | _ => Err (Errorf "not supported" [])
       end;
     jsonpb_Unmarshal s out :=
       match parse s with
       | Some (JObj fields) =>
           match known (kind_of_spec out) fields with
           | [] => (Ok (), out)
           | [(conf, JObj [(backend, JStr b)])] =>
               if String.eqb conf "conf" && String.eqb backend "backend" && bool_decide (kind_of_spec out = KTrafficLog)
               then (Ok (), TrafficLogSpec (mkTrafficLog [] [] (Some b))) else (Err (Errorf "unexpected" []), out)
           | _ => (Err (Errorf "unexpected" []), out)
           end
       | _ => (Err (Errorf "unexpected" []), out)
       end |}.

#[local] Instance rest_jsonpb_lawful : LawfulJsonpb.
Proof.
  split.
  - intros s out. cbn [jsonpb_Unmarshal rest_jsonpb]. repeat case_match; try done.
    cbn [snd kind_of_spec]. symmetry. by match goal with H : _ && bool_decide _ = true |- _ =>
      apply andb_true_iff in H as [_ H]; apply bool_decide_eq_true in H end.
  - intros spec s. cbn [jsonpb_Marshal rest_jsonpb].
    destruct spec as [[[] [] [] []]| | | | | |[[] [] [b|]]| | | | |]; try done.
    + by intros [= <-].
    + destruct (valid_utf8 b) eqn:Hb; [|done]. intros [= <-]. cbn [jsonpb_Unmarshal rest_jsonpb].
      rewrite json_roundtrip; [done|]. simpl. by rewrite Hb.
Qed.

#[local] Instance rest_jsonpb_text : LawfulJsonpbText.
Proof.
  split.
  - intros spec s. cbn [jsonpb_Marshal rest_jsonpb].
    destruct spec as [[[] [] [] []]| | | | | |[[] [] [b|]]| | | | |]; try done.
    + intros [= <-]. by exists [].
    + destruct (valid_utf8 b) eqn:Hb; [|done]. intros [= <-]. exists (backend_fields b).
      split; [done|]. split; [simpl; by rewrite Hb|]. repeat constructor.
  - intros s s' fields fields' out H1 H2 H3. cbn [jsonpb_Unmarshal rest_jsonpb]. by rewrite H1, H2, H3.
Qed.

#[local] Instance rest_restful : Restful :=
  {| ReadEntity r v := Resource_Unmarshal (req_Body r) v; PrettyPrint := Some ("", " ") |}.
#[local] Instance rest_restful_lawful : LawfulRestful.
Proof. split; [done|]. by intros prefix unit [= <- <-]. Qed.

#[local] Instance first_router : Router :=
  {| dispatch table m path :=
       match matching_routes table m path with (i, params) :: _ => Some (i, list_to_map params) | [] => None end |}.
#[local] Instance first_router_lawful : LawfulRouter.
Proof. split. intros table m path i params H. cbn [dispatch first_router]. by rewrite H. Qed.

Definition rest_manager : ResourceManager memoryStore := NewResourceManager sample_Duration sample_Yaml.
Definition traffic_log (b : string) : Object := mkObject None (TrafficLogSpec (mkTrafficLog [] [] (Some b))).

(** A store with the mesh [default] and two traffic logs in it. *)
Definition rest_store : memoryStore := Eval vm_compute in
  let s := (memory_Create NewStore (new_object KMesh) [CreateByKey "default" "default"]).2.1 in
  let s := (memory_Create s (traffic_log "file") [CreateByKey "one" "default"]).2.1 in
  (memory_Create s (traffic_log "<tcp>") [CreateByKey "two" "default"]).2.1.

Definition rest_client (now : Z) : Client memoryStore :=
  api_client rest_manager (mkResponse 404 "") (mkApiServerConfig false "http://localhost:5681") All now.

Lemma traffic_log_key name : plain_name name →
  TrafficLogWsDefinition ∈ All ∧ plain_key TrafficLogWsDefinition "default" name.
Proof. intros Hn. split; [apply list_elem_of_In; simpl; tauto|]. split; [done|]. split; [done|]. intros _. split; [discriminate|done]. Qed.

Lemma mesh_demo_key : MeshWsDefinition ∈ All ∧ plain_key MeshWsDefinition "demo" "demo".
Proof. split; [apply list_elem_of_In; simpl; tauto|]. split; [by split|]. split; [done|]. intros Hm. by destruct Hm. Qed.

Lemma rest_typed_reads : typed_reads rest_manager.
Proof.
  intros s k fs s' o E. pose proof (proj1 (memory_manager_typed sample_Duration sample_Yaml) s (new_object k) fs) as Hk.
  change (NewResourceManager _ _) with rest_manager in Hk. rewrite E in Hk. cbn [snd] in Hk. rewrite Hk.
  unfold o_Kind, new_object. simpl. by rewrite kind_of_zero.
Qed.

Lemma rest_servable k o b : o_Kind o = k →
  rbind (From_Resource o) (λ rr, if meta_ok (rr_Meta rr) then Resource_MarshalJSON rr else Panic) = Ok b → servable k o.
Proof.
  intros Hk. unfold servable. destruct (From_Resource o) as [rr| |]; [|done|done]. cbn [rbind].
  destruct (meta_ok (rr_Meta rr)) eqn:Hm; [|done]. intros Hb. eauto 6.
Qed.

Lemma remote_Get_refines_witness : ∃ o,
  remote_Get (rest_client 0) AllApis rest_store (new_object KTrafficLog) [GetByKey "two" "default"] = (Ok (), (rest_store, o))
  ∧ o_Spec o = o_Spec (traffic_log "<tcp>").
Proof.
  destruct (traffic_log_key "two") as [Hd Hkey]; [by split|]. eexists. split.
  - refine (remote_Get_refines rest_manager (mkResponse 404 "") "http://localhost:5681" 0 _ _ _ rest_store Hd Hkey _).
    eapply rest_servable; vm_compute; reflexivity.
  - vm_compute. reflexivity.
Defined.

(** The mesh [demo] is created; a traffic log without sources is refused with
    the violations of the validator. *)
Lemma upsert_refines_witness :
  (∃ s', upsert (rest_client 7) AllApis rest_store (new_object KMesh) (mkRestMeta "Mesh" "demo" "demo" zeroTime zeroTime)
         = (Ok (), (s', mkObject (Some (remoteMeta "demo" "demo" zeroTime zeroTime)) (zero_spec KMesh)))
         ∧ length (records s') = 4%nat)
  ∧ (∃ e, upsert (rest_client 7) AllApis rest_store (traffic_log "tcp") (mkRestMeta "TrafficLog" "default" "three" zeroTime zeroTime)
          = (Err (apiFailed e), (rest_store, traffic_log "tcp")) ∧ length (e_Causes e) = 2%nat).
Proof.
  split.
  - pose proof (upsert_refines rest_manager (mkResponse 404 "") "http://localhost:5681" 7 MeshWsDefinition "demo" "demo"
      rest_store None (zero_spec KMesh) "{}" rest_typed_reads (proj1 mesh_demo_key) (proj2 mesh_demo_key) eq_refl eq_refl) as Hw.
    destruct (put_item _ _ _ _ _ _ _) as [[err s'] title] eqn:E. vm_compute in E. injection E as <- <- <-. eexists.
    split; [exact (Hw I)|done].
  - destruct (traffic_log_key "three") as [Hd Hkey]; [by split|].
    pose proof (upsert_refines rest_manager (mkResponse 404 "") "http://localhost:5681" 7 _ _ _ rest_store None
      (o_Spec (traffic_log "tcp")) (print true (JObj (backend_fields "tcp"))) rest_typed_reads Hd Hkey eq_refl eq_refl) as Hw.
    destruct (put_item _ _ _ _ _ _ _) as [[err s'] title] eqn:E. vm_compute in E. injection E as <- <- <-.
    eexists. split; [exact (Hw eq_refl)|done].
Defined.

Lemma remote_Delete_refines_witness : ∃ s',
  remote_Delete (rest_client 0) AllApis rest_store (new_object KTrafficLog) [DeleteByKey "two" "default"] = (Ok (), s')
  ∧ length (records s') = 2%nat.
Proof.
  destruct (traffic_log_key "two") as [Hd Hkey]; [by split|].
  pose proof (remote_Delete_refines rest_manager (mkResponse 404 "") "http://localhost:5681" 0 _ _ _ rest_store Hd Hkey) as Hw.
  cbv zeta in Hw. destruct (mgr_Delete _ _ _ _) as [err s'] eqn:E. vm_compute in E.
  injection E as <- <-. eexists. by split; [exact (Hw I)|].
Defined.

Definition rest_base : URL := mkURL "http" "" None "localhost:5681" "" "" false "" "".
Lemma rest_base_plain : url_Parse "http://localhost:5681" = Ok rest_base ∧ plain_server rest_base.
Proof.
  split; [vm_compute; reflexivity|]. split; try done; [by left| |by exists ""].
  exists "localhost", ":5681". by repeat split.
Qed.

Lemma remote_List_refines_witness : ∃ l,
  remote_List (rest_client 0) AllApis rest_store (new_list KTrafficLog) [ListByMesh "default"; ListByPage 1 ""]
  = (Ok (), (rest_store, l)) ∧ length (GetItems l) = 1%nat ∧ NextOffset l = "1".
Proof.
  destruct (traffic_log_key "x") as [Hd Hkey]; [by split|]. destruct rest_base_plain as [Hbase Hplain].
  pose proof (remote_List_refines rest_manager (mkResponse 404 "") "http://localhost:5681" 0 _ _ 1 "" rest_store _
    Hd Hkey ltac:(by unfold maxPageSize) Hbase Hplain) as Hw.
  cbv zeta in Hw. destruct (mgr_List _ _ _ _) as [err [s' l]] eqn:E. vm_compute in E.
  injection E as <- <- <-. eexists. split; [apply Hw|by split].
  - reflexivity.
  - repeat constructor. eapply rest_servable; vm_compute; reflexivity.
Defined.

Lemma filtered_page_link_rejected_witness : ∃ link u response,
  ParseRequestURI link = Ok u
  ∧ inspectDataplanes rest_manager "http://localhost:5681" rest_store (mkRequest {["mesh" := "default"]} u "" "")
    = (Ok response, rest_store) ∧ StatusCode response = 400.
Proof.
  destruct rest_base_plain as [Hbase Hplain].
  pose proof (filtered_page_link_rejected rest_manager "http://localhost:5681"
    (mkRequest {["mesh" := "default"]} (path_url "/meshes/default/dataplanes+insights" (Values_Encode {["gateway" := ["true"]]})) "" "")
    (mkObjectList KDataplane [] "100") rest_base "/meshes/default/dataplanes+insights" {["gateway" := ["true"]]}
    rest_store Hbase Hplain) as Hw.
  destruct Hw as (link & u & _ & Hu & Hnext); [|by apply map_Forall_singleton|done..|by right|done|].
  - exists "m"%char, "eshes/default/dataplanes+insights". by repeat split; try discriminate.
  - destruct (Hnext (mkRequest {["mesh" := "default"]} u "" "")) as (response & Hr & Hs); [done|]. by exists link, u, response.
Defined.

Lemma read_only_server_witness :
  (serve rest_manager (mkResponse 404 "") (mkApiServerConfig true "http://localhost:5681") All 0 rest_store
     (mkHttpRequest DELETE (path_url "/meshes/default/traffic-logs/two" "") "" "")).2 = rest_store.
Proof.
  apply (read_only_server rest_manager); intros s o fs.
  - simpl. unfold manager_Get. by destruct (store_Get _ _ _).
  - simpl. unfold manager_List. by destruct (store_List _ _ _).
Defined.
