(* ===== verification/Kubernetes.v ===== *)
(** * Kubernetes objects

    The objects of the Kubernetes API that the discovery and the sidecar injector
    read and write, as records of the fields they use; the annotations of
    [app/kuma-injector/pkg/injector/metadata]; the helpers of
    [pkg/plugins/discovery/k8s/util]; and the dataplane objects of
    [pkg/plugins/resources/k8s/native], whose specification is a JSON object
    ([ToMap] and [FromMap] of [pkg/util/proto]). *)

From S2P Require Import Prelude GoStd Tags Dataplane Resources Store.
Local Open Scope string_scope.
Local Open Scope list_scope.
Local Open Scope Z_scope.

(** ** Objects *)

Record ObjectMeta : Type := mkObjectMeta {
  om_Namespace : string;
  om_Name : string;
  om_UID : string;
  om_Labels : gmap string string;
  om_Annotations : gmap string string;
}.

Record ContainerPort : Type := mkContainerPort {
  cp_Name : string;
  cp_ContainerPort : Z; (* int32 *)
  cp_Protocol : string;
}.

Record VolumeMount : Type := mkVolumeMount { vm_Name : string; vm_MountPath : string; vm_ReadOnly : bool }.

(** The value of a variable, or the field of the pod it is taken from. *)
Inductive EnvValue : Type :=
| EnvText (value : string)
| EnvFieldRef (apiVersion fieldPath : string).
Record EnvVar : Type := mkEnvVar { ev_Name : string; ev_Value : EnvValue }.

Record SecurityContext : Type := mkSecurityContext {
  sc_RunAsUser : option Z;
  sc_RunAsGroup : option Z;
  sc_AddCapabilities : list string;
}.

(** A probe that runs a command. *)
Record Probe : Type := mkProbe {
  pr_Command : list string;
  pr_InitialDelaySeconds : Z;
  pr_TimeoutSeconds : Z;
  pr_PeriodSeconds : Z;
  pr_SuccessThreshold : Z;
  pr_FailureThreshold : Z;
}.

(** A quantity of a resource is opaque; it is kept as its canonical text. *)
Definition Quantity : Type := string.
Record Amounts : Type := mkAmounts { am_CPU : Quantity; am_Memory : Quantity }.
Record ResourceRequirements : Type := mkRequirements { rq_Requests : Amounts; rq_Limits : Amounts }.

Record Container : Type := mkContainer {
  ct_Name : string;
  ct_Image : string;
  ct_ImagePullPolicy : string;
  ct_Args : list string;
  ct_Env : list EnvVar;
  ct_Ports : list ContainerPort;
  ct_SecurityContext : option SecurityContext;
  ct_LivenessProbe : option Probe;
  ct_ReadinessProbe : option Probe;
  ct_Resources : option ResourceRequirements;
  ct_VolumeMounts : list VolumeMount;
}.

Record Pod : Type := mkPod {
  pod_Meta : ObjectMeta;
  pod_Containers : list Container;
  pod_InitContainers : list Container;
  pod_PodIP : string;
}.
Definition pod_Annotations (p : Pod) : gmap string string := om_Annotations (pod_Meta p).
Definition set_Annotations (a : gmap string string) (p : Pod) : Pod :=
  let m := pod_Meta p in
  mkPod (mkObjectMeta (om_Namespace m) (om_Name m) (om_UID m) (om_Labels m) a)
    (pod_Containers p) (pod_InitContainers p) (pod_PodIP p).
Definition set_Containers (l : list Container) (p : Pod) : Pod :=
  mkPod (pod_Meta p) l (pod_InitContainers p) (pod_PodIP p).
Definition set_InitContainers (l : list Container) (p : Pod) : Pod :=
  mkPod (pod_Meta p) (pod_Containers p) l (pod_PodIP p).

(** [intstr.IntOrString]: an [int32] or the name of a port. *)
Inductive IntOrString : Type := IntPort (z : Z) | NamedPort (name : string).
Record ServicePort : Type := mkServicePort {
  sp_Name : string;
  sp_Protocol : string;
  sp_Port : Z; (* int32 *)
  sp_TargetPort : IntOrString;
}.
Record Service : Type := mkService {
  svc_Meta : ObjectMeta;
  svc_Ports : list ServicePort;
  svc_Selector : gmap string string;
  svc_ClusterIP : string;
}.
Definition svc_Name (s : Service) : string := om_Name (svc_Meta s).
Definition svc_Namespace (s : Service) : string := om_Namespace (svc_Meta s).

Definition ProtocolTCP_kube : string := "TCP".

(** ** metadata/annotations.go, metadata/helpers.go *)

Definition KumaMeshAnnotation : string := "kuma.io/mesh".
Definition KumaSidecarInjectionAnnotation : string := "kuma.io/sidecar-injection".
Definition KumaSidecarInjectionDisabled : string := "disabled".
Definition KumaSidecarInjectedAnnotation : string := "kuma.io/sidecar-injected".
Definition KumaSidecarInjected : string := "true".
Definition KumaTransparentProxyingAnnotation : string := "kuma.io/transparent-proxying".
Definition KumaTransparentProxyingEnabled : string := "enabled".
Definition KumaTransparentProxyingPortAnnotation : string := "kuma.io/transparent-proxying-port".
Definition KumaGatewayAnnotation : string := "kuma.io/gateway".
Definition KumaGatewayEnabled : string := "enabled".
Definition KumaMetricsPrometheusPort : string := "prometheus.metrics.kuma.io/port".
Definition KumaMetricsPrometheusPath : string := "prometheus.metrics.kuma.io/path".
Definition CNCFNetworkAnnotation : string := "k8s.v1.cni.cncf.io/networks".
Definition KumaCNI : string := "kuma-cni".

(** A missing key reads as the empty string. *)
Definition annotation (p : Pod) (key : string) : string := default "" (pod_Annotations p !! key).

Definition Pod_GetMesh (p : Pod) : string :=
  let mesh := annotation p KumaMeshAnnotation in
  if negb (String.eqb mesh "") then mesh else DefaultMesh.
Definition HasKumaSidecar (p : Pod) : bool :=
  String.eqb (annotation p KumaSidecarInjectedAnnotation) KumaSidecarInjected.
Definition HasTransparentProxyingEnabled (p : Pod) : bool :=
  String.eqb (annotation p KumaTransparentProxyingAnnotation) KumaTransparentProxyingEnabled.
Definition HasGatewayEnabled (p : Pod) : bool :=
  String.eqb (annotation p KumaGatewayAnnotation) KumaGatewayEnabled.
Definition GetTransparentProxyingPort (p : Pod) : Z :=
  match parse_uint 32 (annotation p KumaTransparentProxyingPortAnnotation) with
  | Ok port => port
  | _ => 0
  end.

(** ** util.go *)

(** [labels.SelectorFromSet(set).Matches(labels)]. *)
Class KubeLabels : Type := { Selector_Matches : gmap string string → gmap string string → bool }.

(** A selector made of a set matches exactly the labels that contain the set;
    the empty set selects everything. *)
Class LawfulKubeLabels `{KubeLabels} : Prop := {
  selector_subset : ∀ set labels, Selector_Matches set labels = true ↔ set ⊆ labels;
}.

Definition MatchServiceThatSelectsPod `{KubeLabels} (p : Pod) (svc : Service) : bool :=
  Selector_Matches (svc_Selector svc) (om_Labels (pod_Meta p)).

Definition FindServices (svcs : list Service) (predicate : Service → bool) : list Service :=
  filter (λ svc, predicate svc = true) svcs.

Definition givenOrDefault (protocol : string) : string :=
  if negb (String.eqb protocol "") then protocol else ProtocolTCP_kube.

(** The first port of a container, in order, with the name and the protocol. *)
Definition FindPort (p : Pod) (svcPort : ServicePort) : res Z :=
  let missing := Err (Errorf "no suitable port for manifest: %s" [AStr (om_UID (pod_Meta p))]) in
  match sp_TargetPort svcPort with
  | NamedPort name =>
      match filter (λ port, String.eqb (cp_Name port) name
                            && String.eqb (givenOrDefault (cp_Protocol port)) (givenOrDefault (sp_Protocol svcPort)) = true)
              (pod_Containers p ≫= ct_Ports) with
      | port :: _ => Ok (cp_ContainerPort port)
      | [] => missing
      end
  | IntPort z => Ok z
  end.

(** ** Errors of the API server

    The tests of [k8s.io/apimachinery/pkg/api/errors]. *)

Class KubeErrors : Type := {
  IsNotFound : goerror → bool;
  IsAlreadyExists : goerror → bool;
  IsConflict : goerror → bool;
}.

(** ** Admission

    [admission.Response]: allowed, denied with a reason, an error with its status,
    a failure with its causes, or the patch between two documents. *)

Inductive AdmissionResponse : Type :=
| Allowed
| Denied (reason : string)
| Errored (code : Z) (err : goerror)
| Invalid (message name kind : string) (causes : list (string * string))
| PatchResponseFromRaw (original current : string).
#[global] Instance AdmissionResponse_eq_dec : EqDecision AdmissionResponse.
Proof. solve_decision. Defined.

(** The field [Allowed] of a response; a patch is allowed. *)
Definition rsp_Allowed (r : AdmissionResponse) : bool :=
  match r with Allowed | PatchResponseFromRaw _ _ => true | _ => false end.

(** ** Objects with a specification *)

(** [map[string]interface{}] with [json.Unmarshal] and [json.Marshal]. *)
Class JsonMap : Type := {
  RawMap : Type;
  nil_map : RawMap;
  unmarshal_map : string → res RawMap;
  marshal_map : RawMap → res string;
}.

Section Maps.
Context `{Jsonpb} `{JsonMap}.

Definition ToMap (pb : ResourceSpec) : res RawMap :=
  let? content := ToJSON pb in
  unmarshal_map content.

(** The message is filled in place. *)
Definition FromMap (m : RawMap) (out : ResourceSpec) : res unit * ResourceSpec :=
  match marshal_map m with
  | Ok content => FromJSON content out
  | Err e => (Err e, out)
  | Panic => (Panic, out)
  end.
End Maps.

(** An object of a type of [pkg/plugins/resources/k8s/native/api/v1alpha1]: its
    metadata, with the fields that nothing here reads as one opaque field, its mesh
    (a mesh object has no such field) and its specification. *)
Record K8sObject `{JsonMap} : Type := mkK8sObject {
  ko_Kind : Kind;
  ko_Namespace : string;
  ko_Name : string;
  ko_ResourceVersion : string;
  ko_CreationTimestamp : Z;
  ko_Rest : string;
  ko_MeshField : string;
  ko_Spec : RawMap;
}.
Arguments mkK8sObject {_} _ _ _ _ _ _ _ _.
Arguments ko_Kind {_} _.
Arguments ko_Namespace {_} _.
Arguments ko_Name {_} _.
Arguments ko_ResourceVersion {_} _.
Arguments ko_CreationTimestamp {_} _.
Arguments ko_Rest {_} _.
Arguments ko_MeshField {_} _.
Arguments ko_Spec {_} _.

Section Objects.
Context `{JsonMap}.

Definition empty_object (k : Kind) : K8sObject := mkK8sObject k "" "" "" zeroTime "" "" nil_map.
Definition set_ko_Spec (spec : RawMap) (o : K8sObject) : K8sObject :=
  mkK8sObject (ko_Kind o) (ko_Namespace o) (ko_Name o) (ko_ResourceVersion o) (ko_CreationTimestamp o) (ko_Rest o)
    (ko_MeshField o) spec.
Definition set_ko_MeshField (mesh : string) (o : K8sObject) : K8sObject :=
  mkK8sObject (ko_Kind o) (ko_Namespace o) (ko_Name o) (ko_ResourceVersion o) (ko_CreationTimestamp o) (ko_Rest o)
    mesh (ko_Spec o).
Definition set_ko_key (namespace name : string) (o : K8sObject) : K8sObject :=
  mkK8sObject (ko_Kind o) namespace name (ko_ResourceVersion o) (ko_CreationTimestamp o) (ko_Rest o)
    (ko_MeshField o) (ko_Spec o).
End Objects.

(** A message that went through a map is read back as it was. *)
Class LawfulJsonMap `{Jsonpb, JsonMap} : Prop := {
  map_keeps : ∀ spec content, jsonpb_Marshal spec = Ok content →
    ∃ m content', unmarshal_map content = Ok m ∧ marshal_map m = Ok content'
      ∧ ∀ out, jsonpb_Unmarshal content' out = jsonpb_Unmarshal content out;
}.

Lemma FromMap_ToMap `{LawfulJsonpb} `{!JsonMap} `{!LawfulJsonMap} spec m :
  ToMap spec = Ok m → FromMap m (zero_spec (kind_of_spec spec)) = (Ok (), spec).
Proof.
  unfold ToMap, FromMap, ToJSON, FromJSON. destruct (jsonpb_Marshal spec) as [c|e|] eqn:E; [|done..]. cbn [rbind].
  destruct (map_keeps spec c E) as (m' & c' & -> & Hc & Hu). intros [= <-]. rewrite Hc, Hu.
  by apply unmarshal_marshal.
Qed.
