(* ===== verification/PodConverter.v ===== *)
(** * From pods to dataplanes

    Models [pkg/plugins/discovery/k8s/controllers/pod_converter.go]: the dataplane
    that the control plane derives on Kubernetes from a pod, the services that
    select it and the other dataplanes of its mesh. *)

From S2P Require Import Prelude GoStd Tags Dataplane Resources Validators CoreXds Store Kubernetes.
Local Open Scope string_scope.
Local Open Scope list_scope.
Local Open Scope Z_scope.

(** ** Tags *)

Definition ServiceTagFor (svc : Service) (svcPort : ServicePort) : string :=
  svc_Name svc +:+ "." +:+ svc_Namespace svc +:+ ".svc:" +:+ itoa (sp_Port svcPort).

Definition ProtocolTagFor (svc : Service) (svcPort : ServicePort) : string :=
  let protocolAnnotation := itoa (sp_Port svcPort) +:+ ".service.kuma.io/protocol" in
  let protocolValue := default "" (om_Annotations (svc_Meta svc) !! protocolAnnotation) in
  if String.eqb protocolValue "" then "tcp" else protocolValue.

Definition InboundTagsFor (pod : Pod) (svc : Service) (svcPort : ServicePort) (isGateway : bool) : tag_map :=
  let tags := <[ServiceTag := ServiceTagFor svc svcPort]> (om_Labels (pod_Meta pod)) in
  if negb isGateway then <[ProtocolTag := ProtocolTagFor svc svcPort]> tags else tags.

Definition ParseServiceFQDN (host : string) : res (string * string) :=
  match split_all "." host with
  | [name; namespace; _] => Ok (name, namespace)
  | _ => Err (Errorf "service tag in unexpected format" [])
  end.

(** ** Inbounds *)

Definition headless (svc : Service) : goerror :=
  Errorf "Kuma requires a Kubernetes Service entity associated with a Pod with a valid IP address in the ClusterIP field. Service %s.%s has a ClusterIP value of %q. At the moment Kuma does not support headless services, to continue please add the missing Service definition or - alternatively - exclude this Pod from the automatic sidecar injection by following the instructions at: https://kuma.io/docs/latest/documentation/dps-and-data-model/#kubernetes"
    [AStr (svc_Name svc); AStr (svc_Namespace svc); AStr (svc_ClusterIP svc)].
Definition no_service (services : list Service) : goerror :=
  Errorf "Kuma requires every Pod in a Mesh to be a part of at least one Service. %s"
    [AStr (if Nat.ltb 0 (length services)
           then "However, this Pod doesn't have any container ports that would satisfy matching Service(s)."
           else "However, there are no Services that select this Pod.")].

(** A port of a service: the container port of the pod, [None] when the port is
    not TCP or the pod has no port for it. *)
Definition matched_port (pod : Pod) (svcPort : ServicePort) : option Z :=
  if negb (String.eqb (sp_Protocol svcPort) "") && negb (String.eqb (sp_Protocol svcPort) ProtocolTCP_kube)
  then None
  else match FindPort pod svcPort with Ok port => Some port | _ => None end.

(** The body of the inner loop. *)
Definition inbound_step (pod : Pod) (isGateway : bool) (svc : Service) (ifaces : list Inbound) (svcPort : ServicePort)
  : res (list Inbound) :=
  match matched_port pod svcPort with
  | None => Ok ifaces
  | Some containerPort =>
      if bool_decide (parse_ip (svc_ClusterIP svc) = None) then Err (headless svc)
      else Ok (ifaces ++ [mkInbound "" (wrap32 containerPort) 0 "" (InboundTagsFor pod svc svcPort isGateway)])
  end.

Definition InboundInterfacesFor (pod : Pod) (services : list Service) (isGateway : bool) : res (list Inbound) :=
  let? ifaces := rfoldl (λ ifaces svc, rfoldl (inbound_step pod isGateway svc) ifaces (svc_Ports svc)) [] services in
  if Nat.eqb (length ifaces) 0 then Err (no_service services) else Ok ifaces.

(** Reads the first interface: an index that the error above guards. *)
Definition GatewayFor (pod : Pod) (services : list Service) : res Gateway :=
  let? interfaces := InboundInterfacesFor pod services true in
  match interfaces with
  | iface :: _ => Ok (mkGateway (in_Tags iface))
  | [] => Panic
  end.

(** ** Outbounds *)

Section Converter.
Context `{Jsonpb} `{JsonMap}.

(** The service tags of the inbounds of a dataplane; what cannot be read is
    skipped. *)
Definition serviceTags (other : K8sObject) : list string :=
  match FromMap (ko_Spec other) (zero_spec KDataplane) with
  | (Ok _, DataplaneSpec dataplane) =>
      omap (λ inbound, in_Tags inbound !! ServiceTag) (GetInbound (dp_Networking dataplane))
  | _ => []
  end.

Definition stringSetToSortedList (set : gset string) : list string := sort_strings (elements set).

(** [serviceGetter] reads a service by its namespace and name. *)
Definition outbound_for (serviceGetter : string → string → goerror + Service) (serviceTag : string) : option Outbound :=
  match ServiceTagValue_HostAndPort serviceTag with
  | Ok (host, port) =>
      match ParseServiceFQDN host with
      | Ok (name, ns) =>
          match serviceGetter ns name with
          | inr svc => Some (mkOutbound "" (svc_ClusterIP svc) port serviceTag)
          | inl _ => None
          end
      | _ => None
      end
  | _ => None
  end.

Definition OutboundInterfacesFor (others : list K8sObject) (serviceGetter : string → string → goerror + Service)
  : list Outbound :=
  omap (outbound_for serviceGetter) (stringSetToSortedList (list_to_set (others ≫= serviceTags))).

(** ** Dataplanes *)

Definition DataplaneFor (pod : Pod) (services : list Service) (others : list K8sObject)
    (serviceGetter : string → string → goerror + Service) : res Dataplane :=
  let redirect := if HasTransparentProxyingEnabled pod then Some (GetTransparentProxyingPort pod) else None in
  let? (gateway, inbound) :=
    if HasGatewayEnabled pod
    then let? gateway := GatewayFor pod services in Ok (Some gateway, [])
    else let? ifaces := InboundInterfacesFor pod services false in Ok (None, ifaces) in
  let ofaces := OutboundInterfacesFor others serviceGetter in
  Ok (mkDataplane (Some (mkNetworkingTP (pod_PodIP pod) inbound ofaces gateway redirect)) None).

Definition MeshFor (pod : Pod) : string := Pod_GetMesh pod.

Definition PodToDataplane (dataplane : K8sObject) (pod : Pod) (services : list Service)
    (others : list K8sObject) (serviceGetter : string → string → goerror + Service) : res unit * K8sObject :=
  let dataplane := set_ko_MeshField (MeshFor pod) dataplane in
  match (let? dataplaneProto := DataplaneFor pod services others serviceGetter in ToMap (DataplaneSpec dataplaneProto)) with
  | Ok spec => (Ok (), set_ko_Spec spec dataplane)
  | Err e => (Err e, dataplane)
  | Panic => (Panic, dataplane)
  end.
End Converter.

(** ** Names that Kubernetes accepts *)

(** The bytes of names and namespaces: lower case letters, digits and dashes. *)
Definition dns_byte (c : ascii) : bool := alnum c || Ascii.eqb c "-".
Definition dns_label (s : string) : Prop := s ≠ "" ∧ all_bytes dns_byte s = true.

(** What the API server guarantees of services. *)
Definition kube_port (port : Z) : Prop := 1 ≤ port ≤ 65535.
Definition kube_service (svc : Service) : Prop :=
  dns_label (svc_Name svc) ∧ dns_label (svc_Namespace svc)
  ∧ Forall (λ sp, kube_port (sp_Port sp) ∧ match sp_TargetPort sp with IntPort z => kube_port z | _ => True end) (svc_Ports svc).
Definition kube_pod (pod : Pod) : Prop :=
  Forall (λ ct, Forall (λ port, kube_port (cp_ContainerPort port)) (ct_Ports ct)) (pod_Containers pod).

Lemma dns_no_byte c s : dns_byte c = false → all_bytes dns_byte s = true → has_byte c s = false.
Proof. apply all_bytes_no_byte. Qed.

Lemma itoa_port p : 0 ≤ p → itoa p = format_uint p ∧ all_digits (itoa p) = true.
Proof.
  intros Hp. unfold itoa. rewrite (proj2 (Z.ltb_ge p 0)) by lia. split; [done|]. by apply format_uint_digits.
Qed.

(** The tag of a service port leads back to the service and the port. *)
Lemma ServiceTagFor_parse svc sp :
  dns_label (svc_Name svc) → dns_label (svc_Namespace svc) → kube_port (sp_Port sp) →
  ∃ host, ServiceTagValue_HostAndPort (ServiceTagFor svc sp) = Ok (host, sp_Port sp)
    ∧ ParseServiceFQDN host = Ok (svc_Name svc, svc_Namespace svc).
Proof.
  intros [_ Hn] [_ Hns] Hp. exists (svc_Name svc +:+ String "." (svc_Namespace svc +:+ String "." "svc")).
  destruct (itoa_port (sp_Port sp)) as [Hi Hd]; [unfold kube_port in Hp; lia|].
  split.
  - unfold ServiceTagFor, ServiceTagValue_HostAndPort.
    assert (svc_Name svc +:+ "." +:+ svc_Namespace svc +:+ ".svc:" +:+ itoa (sp_Port sp)
      = (svc_Name svc +:+ String "." (svc_Namespace svc +:+ String "." "svc")) +:+ String ":" (itoa (sp_Port sp))) as ->.
    { rewrite !string_app_assoc. cbn [String.append]. by rewrite !string_app_assoc. }
    rewrite split_host_port_plain.
    + cbn [rbind]. rewrite Hi, parse_format_uint by (unfold kube_port in Hp; lia). done.
    + rewrite has_byte_app. simpl. rewrite has_byte_app, !(dns_no_byte ":") by done. done.
    + rewrite has_byte_app. simpl. rewrite has_byte_app, !(dns_no_byte "[") by done. done.
    + rewrite has_byte_app. simpl. rewrite has_byte_app, !(dns_no_byte "]") by done. done.
    + by apply all_digits_no_byte.
    + by apply all_digits_no_byte.
    + by apply all_digits_no_byte.
  - unfold ParseServiceFQDN. rewrite split_all_app by by apply (dns_no_byte ".").
    rewrite split_all_app by by apply (dns_no_byte "."). done.
Qed.

(** ** Inbounds and their services *)

(** The inbounds of a pod, when every service has an address. *)
Definition inbound_of (pod : Pod) (isGateway : bool) (svc : Service) (sp : ServicePort) : option Inbound :=
  port ← matched_port pod sp; Some (mkInbound "" (wrap32 port) 0 "" (InboundTagsFor pod svc sp isGateway)).
Definition inbounds_of (pod : Pod) (isGateway : bool) (services : list Service) : list Inbound :=
  services ≫= λ svc, omap (inbound_of pod isGateway svc) (svc_Ports svc).

(** The services that contribute an inbound have an address. *)
Definition addressed (pod : Pod) (svc : Service) : Prop :=
  ∀ sp, sp ∈ svc_Ports svc → is_Some (matched_port pod sp) → is_Some (parse_ip (svc_ClusterIP svc)).

Lemma inbound_steps pod g svc ports ifaces :
  (∀ sp, sp ∈ ports → is_Some (matched_port pod sp) → is_Some (parse_ip (svc_ClusterIP svc))) →
  rfoldl (inbound_step pod g svc) ifaces ports = Ok (ifaces ++ omap (inbound_of pod g svc) ports).
Proof.
  revert ifaces; induction ports as [|sp ports IH]; intros ifaces Hip; simpl; [by rewrite app_nil_r|].
  unfold inbound_step at 1, inbound_of at 1. destruct (matched_port pod sp) as [port|] eqn:E; simpl.
  - destruct (Hip sp) as [ip Hs]; [by constructor|by rewrite E|]. rewrite Hs. simpl.
    rewrite IH by (intros ? ?; apply Hip; by constructor). by rewrite <- app_assoc.
  - apply IH. intros ? ?. apply Hip. by constructor.
Qed.

Lemma inbound_steps_headless pod g svc ports ifaces :
  rfoldl (inbound_step pod g svc) ifaces ports = Err (headless svc)
  ∨ (∀ sp, sp ∈ ports → is_Some (matched_port pod sp) → is_Some (parse_ip (svc_ClusterIP svc))).
Proof.
  revert ifaces; induction ports as [|sp ports IH]; intros ifaces; simpl; [right; by intros sp ?%elem_of_nil|].
  unfold inbound_step at 1. destruct (matched_port pod sp) as [port|] eqn:E; simpl.
  - destruct (parse_ip (svc_ClusterIP svc)) as [ip|]; simpl; [right; eauto|by left].
  - destruct (IH ifaces) as [->|H]; [by left|right]. intros sp' [->|?]%elem_of_cons; [by rewrite E; intros []|eauto].
Qed.

Lemma InboundInterfacesFor_addressed pod services g :
  (∀ svc, svc ∈ services → addressed pod svc) →
  InboundInterfacesFor pod services g
  = if Nat.eqb (length (inbounds_of pod g services)) 0 then Err (no_service services)
    else Ok (inbounds_of pod g services).
Proof.
  intros Haddr. unfold InboundInterfacesFor.
  assert (∀ l ifaces, (∀ svc, svc ∈ l → addressed pod svc) →
    rfoldl (λ ifaces svc, rfoldl (inbound_step pod g svc) ifaces (svc_Ports svc)) ifaces l
    = Ok (ifaces ++ inbounds_of pod g l)) as ->; [|done|done].
  induction l as [|svc l IH]; intros ifaces Hl; simpl; [by rewrite app_nil_r|].
  rewrite inbound_steps by (apply Hl; constructor). cbn [rbind].
  rewrite IH by (intros ? ?; apply Hl; by constructor). by rewrite <- app_assoc.
Qed.

Lemma InboundInterfacesFor_headless pod services g :
  (∃ svc, svc ∈ services ∧ InboundInterfacesFor pod services g = Err (headless svc))
  ∨ (∀ svc, svc ∈ services → addressed pod svc).
Proof.
  unfold InboundInterfacesFor.
  assert (∀ l ifaces,
    (∃ svc, svc ∈ l ∧ rfoldl (λ ifaces svc, rfoldl (inbound_step pod g svc) ifaces (svc_Ports svc)) ifaces l = Err (headless svc))
    ∨ (∀ svc, svc ∈ l → addressed pod svc)) as H.
  { induction l as [|svc l IH]; intros ifaces; simpl; [right; by intros svc ?%elem_of_nil|].
    destruct (inbound_steps_headless pod g svc (svc_Ports svc) ifaces) as [->|Hs].
    { left. exists svc. split; [constructor|done]. }
    rewrite (inbound_steps pod g svc _ _ Hs). cbn [rbind].
    destruct (IH (ifaces ++ omap (inbound_of pod g svc) (svc_Ports svc))) as [(svc' & Hl & ->)|Hl].
    { left. exists svc'. split; [by constructor|done]. }
    right. intros svc' [->|?]%elem_of_cons; [exact Hs|auto]. }
  destruct (H services []) as [(svc & Hl & ->)|Hl]; [left; eauto|by right].
Qed.

Lemma elem_of_inbounds pod g services i :
  i ∈ inbounds_of pod g services ↔
  ∃ svc sp port, svc ∈ services ∧ sp ∈ svc_Ports svc ∧ matched_port pod sp = Some port
    ∧ i = mkInbound "" (wrap32 port) 0 "" (InboundTagsFor pod svc sp g).
Proof.
  unfold inbounds_of. rewrite list_elem_of_bind. split.
  - intros (svc & Hi & Hs). apply list_elem_of_omap in Hi as (sp & Hsp & Hi).
    unfold inbound_of in Hi. destruct (matched_port pod sp) as [port|] eqn:E; [|done]. injection Hi as <-. eauto 8.
  - intros (svc & sp & port & Hs & Hsp & E & ->). exists svc. split; [|done].
    apply list_elem_of_omap. exists sp. split; [done|]. unfold inbound_of. by rewrite E.
Qed.

(** What a successful conversion looks like. *)
Lemma InboundInterfacesFor_Ok pod services g ifaces :
  InboundInterfacesFor pod services g = Ok ifaces →
  ifaces = inbounds_of pod g services ∧ ifaces ≠ [] ∧ ∀ svc, svc ∈ services → addressed pod svc.
Proof.
  intros E. destruct (InboundInterfacesFor_headless pod services g) as [(svc & _ & H)|Haddr]; [congruence|].
  rewrite (InboundInterfacesFor_addressed _ _ _ Haddr) in E. destruct (inbounds_of pod g services) eqn:Ei; [done|].
  injection E as <-. done.
Qed.

Lemma GatewayFor_no_panic pod services : GatewayFor pod services ≠ Panic.
Proof.
  unfold GatewayFor. destruct (InboundInterfacesFor pod services true) as [l| |] eqn:E; [|done|].
  - apply InboundInterfacesFor_Ok in E as (_ & Hne & _). by destruct l.
  - destruct (InboundInterfacesFor_headless pod services true) as [(svc & _ & H)|H]; [congruence|].
    rewrite (InboundInterfacesFor_addressed _ _ _ H) in E. by destruct (Nat.eqb _ _).
Qed.

Lemma matched_port_range pod svc sp port :
  kube_pod pod → kube_service svc → sp ∈ svc_Ports svc → matched_port pod sp = Some port →
  kube_port port ∧ kube_port (sp_Port sp).
Proof.
  intros Hpod (_ & _ & Hports) Hsp. rewrite Forall_forall in Hports. destruct (Hports sp Hsp) as [Hp Ht].
  unfold matched_port. destruct (_ && _); [done|]. unfold FindPort. destruct (sp_TargetPort sp) as [z|name].
  { by intros [= <-]. }
  set (l := filter _ _). assert (∀ p, p ∈ l → kube_port (cp_ContainerPort p)) as Hl.
  { intros p [_ Hin]%list_elem_of_filter. apply list_elem_of_bind in Hin as (ct & Hct & Hin).
    unfold kube_pod in Hpod. rewrite Forall_forall in Hpod. specialize (Hpod ct Hin).
    rewrite Forall_forall in Hpod. by apply Hpod. }
  destruct l as [|p l']; [done|]. intros [= <-]. split; [apply Hl; constructor|done].
Qed.

(** ** Outbounds *)

Section Theorems.
Context `{Hjsonpb : Jsonpb} `{!LawfulJsonpb} `{!JsonMap} `{!LawfulJsonMap}.

Lemma elem_of_service_tags others tag :
  tag ∈ stringSetToSortedList (list_to_set (others ≫= serviceTags))
  ↔ ∃ other, other ∈ others ∧ tag ∈ serviceTags other.
Proof.
  unfold stringSetToSortedList, sort_strings. rewrite sort_by_perm, elem_of_elements, elem_of_list_to_set, list_elem_of_bind.
  naive_solver.
Qed.

Lemma service_tags_sorted (set : gset string) :
  StronglySorted String.le (stringSetToSortedList set) ∧ NoDup (stringSetToSortedList set).
Proof.
  split; [apply sort_strings_sorted|]. unfold stringSetToSortedList, sort_strings. rewrite sort_by_perm. apply NoDup_elements.
Qed.

Lemma outbound_for_service get tag o : outbound_for get tag = Some o → out_Service o = tag.
Proof.
  unfold outbound_for. destruct (ServiceTagValue_HostAndPort tag) as [[host port]| |]; [|done..].
  destruct (ParseServiceFQDN host) as [[name ns]| |]; [|done..]. destruct (get ns name); [done|]. by intros [= <-].
Qed.

Lemma omap_services get (tags : list string) :
  out_Service <$> omap (outbound_for get) tags = filter (λ tag, is_Some (outbound_for get tag)) tags.
Proof.
  induction tags as [|tag tags IH]; simpl; [done|]. destruct (outbound_for get tag) as [o|] eqn:E.
  - rewrite filter_cons_True by (rewrite E; eauto). simpl. f_equal; [exact (outbound_for_service get tag o E)|exact IH].
  - rewrite filter_cons_False by (rewrite E; by intros []). exact IH.
Qed.

(** A filtered list stays sorted. *)
Lemma StronglySorted_filter {A} (R : relation A) (P : A → Prop) `{∀ x, Decision (P x)} l :
  StronglySorted R l → StronglySorted R (filter P l).
Proof.
  induction 1 as [|x l Hs IH Hf]; [constructor|]. destruct (decide (P x)).
  - rewrite filter_cons_True by done. constructor; [done|]. rewrite Forall_forall in *.
    intros y [_ Hy]%list_elem_of_filter. auto.
  - by rewrite filter_cons_False.
Qed.

(** Only the tags of the dataplanes and the services that can be read matter. *)
Lemma OutboundInterfacesFor_tags others others' get :
  (∀ tag, (∃ x, x ∈ others ∧ tag ∈ serviceTags x) ↔ (∃ x, x ∈ others' ∧ tag ∈ serviceTags x)) →
  OutboundInterfacesFor others get = OutboundInterfacesFor others' get.
Proof.
  intros Hsame. unfold OutboundInterfacesFor. f_equal. unfold stringSetToSortedList. apply sort_strings_perm_eq.
  apply NoDup_Permutation; [apply NoDup_elements..|]. intros tag.
  rewrite !elem_of_elements, !elem_of_list_to_set, !list_elem_of_bind. specialize (Hsame tag). naive_solver.
Qed.

Lemma OutboundInterfacesFor_getter others get get' :
  (∀ ns name svc, get ns name = inr svc ↔ get' ns name = inr svc) →
  OutboundInterfacesFor others get = OutboundInterfacesFor others get'.
Proof.
  intros Hget. unfold OutboundInterfacesFor. apply list_omap_ext, Forall_Forall2_diag, Forall_forall. intros tag _. unfold outbound_for.
  destruct (ServiceTagValue_HostAndPort tag) as [[host port]| |]; [|done..].
  destruct (ParseServiceFQDN host) as [[name ns]| |]; [|done..].
  destruct (get ns name) as [e|svc] eqn:E.
  - destruct (get' ns name) as [e'|svc'] eqn:E'; [done|]. apply Hget in E'. congruence.
  - apply Hget in E. by rewrite E.
Qed.

(** C25: The outbounds of a pod depend only on the set of the service tags that
    the dataplanes of its mesh expose: there is one outbound for every tag that
    names an existing service, with the address of that service and the port of
    the tag, in the order of the tags and none twice; dataplanes that cannot be
    read, tags of another form and services that are gone are skipped. *)
Theorem OutboundInterfacesFor_spec others get :
  StronglySorted String.le (out_Service <$> OutboundInterfacesFor others get)
  ∧ NoDup (out_Service <$> OutboundInterfacesFor others get)
  ∧ (∀ others', (∀ tag, (∃ x, x ∈ others ∧ tag ∈ serviceTags x) ↔ (∃ x, x ∈ others' ∧ tag ∈ serviceTags x)) →
       OutboundInterfacesFor others' get = OutboundInterfacesFor others get)
  ∧ ∀ o, o ∈ OutboundInterfacesFor others get ↔
      ∃ other tag host port name ns svc, other ∈ others ∧ tag ∈ serviceTags other
        ∧ ServiceTagValue_HostAndPort tag = Ok (host, port) ∧ ParseServiceFQDN host = Ok (name, ns)
        ∧ get ns name = inr svc ∧ o = mkOutbound "" (svc_ClusterIP svc) port tag.
Proof.
  unfold OutboundInterfacesFor. set (tags := list_to_set (others ≫= serviceTags)).
  destruct (service_tags_sorted tags) as [Hs Hn].
  split; [rewrite omap_services; by apply StronglySorted_filter|].
  split; [rewrite omap_services; by apply NoDup_filter|]. split.
  - intros others' Hsame. symmetry. by apply OutboundInterfacesFor_tags.
  - intros o. rewrite list_elem_of_omap. split.
    + intros (tag & (other & Hother & Htag)%elem_of_service_tags & Ho). exists other, tag.
      unfold outbound_for in Ho. destruct (ServiceTagValue_HostAndPort tag) as [[host port]| |]; [|done..].
      destruct (ParseServiceFQDN host) as [[name ns]| |] eqn:E; [|done..].
      destruct (get ns name) as [|svc] eqn:Eg; [done|]. injection Ho as <-. exists host, port, name, ns, svc. done.
    + intros (other & tag & host & port & name & ns & svc & Hother & Htag & Hhp & Hfqdn & Hget & ->).
      exists tag. split; [apply elem_of_service_tags; eauto|]. unfold outbound_for. by rewrite Hhp, Hfqdn, Hget.
Qed.

(** A dataplane object that was made for a pod exposes its inbounds. *)
Lemma serviceTags_made dp pod services others get x :
  PodToDataplane dp pod services others get = (Ok (), x) → HasGatewayEnabled pod = false →
  ∀ tag, tag ∈ serviceTags x ↔ ∃ i, i ∈ inbounds_of pod false services ∧ in_Tags i !! ServiceTag = Some tag.
Proof.
  unfold PodToDataplane, DataplaneFor. intros E Hg. rewrite Hg in E.
  destruct (InboundInterfacesFor pod services false) as [ifaces| |] eqn:Ei; [|done|done]. cbn [rbind] in E.
  apply InboundInterfacesFor_Ok in Ei as (-> & _ & _).
  match type of E with context [ToMap ?d] => destruct (ToMap d) as [spec| |] eqn:Em; [|done..] end.
  injection E as <-. unfold serviceTags. cbn [ko_Spec set_ko_Spec].
  pose proof (FromMap_ToMap _ _ Em) as Hf. cbn [kind_of_spec] in Hf. rewrite Hf. cbn [dp_Networking GetInbound net_Inbound].
  intros tag. rewrite list_elem_of_omap. naive_solver.
Qed.

(** Every service port that leads to a pod of a mesh is reachable from every
    pod of the mesh: if a dataplane object was made for a pod that is not a
    gateway, and a port of one of its services leads to a port of the pod, then
    the dataplane of any pod that sees this object has an outbound for the port at
    the address of the service, with the service tag of the inbound. *)
Theorem services_of_mesh_reachable dp pod services others get x svc sp others' get' svc' :
  PodToDataplane dp pod services others get = (Ok (), x) → HasGatewayEnabled pod = false →
  svc ∈ services → sp ∈ svc_Ports svc → is_Some (matched_port pod sp) → kube_service svc → kube_port (sp_Port sp) →
  x ∈ others' → get' (svc_Namespace svc) (svc_Name svc) = inr svc' →
  (∃ i, i ∈ inbounds_of pod false services ∧ in_Tags i !! ServiceTag = Some (ServiceTagFor svc sp))
  ∧ mkOutbound "" (svc_ClusterIP svc') (sp_Port sp) (ServiceTagFor svc sp) ∈ OutboundInterfacesFor others' get'.
Proof.
  intros Hx Hg Hsvc Hsp [port Hport] (Hn & Hns & _) Hp Hin Hget.
  assert (∃ i, i ∈ inbounds_of pod false services ∧ in_Tags i !! ServiceTag = Some (ServiceTagFor svc sp)) as Hi.
  { exists (mkInbound "" (wrap32 port) 0 "" (InboundTagsFor pod svc sp false)). split; [apply elem_of_inbounds; eauto 8|].
    unfold InboundTagsFor. simpl. rewrite lookup_insert_ne by done. by rewrite lookup_insert_eq. }
  split; [exact Hi|]. destruct (ServiceTagFor_parse svc sp Hn Hns Hp) as (host & Hhp & Hf).
  apply list_elem_of_omap. exists (ServiceTagFor svc sp).
  split; [|unfold outbound_for; by rewrite Hhp, Hf, Hget].
  apply elem_of_service_tags. exists x. split; [done|]. by apply (serviceTags_made _ _ _ _ _ _ Hx Hg).
Qed.
End Theorems.

(** ** Validity of the generated dataplanes *)

(** Networking sections in the format with ports and addresses. *)
Lemma validateNetworking_modern n :
  hasLegacyInbound n = false →
  validateNetworking (Some n) = Ok [] ↔
  (net_Inbound n = [] ↔ is_Some (net_Gateway n)) ∧ is_Some (parse_ip (net_Address n))
  ∧ (∀ g, net_Gateway n = Some g → validateGateway g = [])
  ∧ Forall (λ inb, validateInbound inb (net_Address n) = []) (net_Inbound n)
  ∧ Forall (λ out, validateOutbound out = []) (net_Outbound n).
Proof.
  intros Hmodern. unfold validateNetworking. rewrite Hmodern, orb_true_r. rewrite !Forall_lookup.
  assert (∀ e : ValidationError, (Ok e = Ok []) ↔ e = []) as -> by (intros e; naive_solver).
  rewrite !foldl_AddErrorAt_nil, !Forall_imap_snd_nil.
  assert (∀ (e : ValidationError) g, AddErrorAt e (Path_Field (RootedAt "networking") "gateway") (validateGateway g) = []
    ↔ e = [] ∧ validateGateway g = []) as Hg.
  { intros e g. unfold AddErrorAt. apply AddError_nil. }
  assert (∀ e : ValidationError,
    (match net_Gateway n with
     | Some g => AddErrorAt e (Path_Field (RootedAt "networking") "gateway") (validateGateway g)
     | None => e end = []) ↔ e = [] ∧ (∀ g, net_Gateway n = Some g → validateGateway g = [])) as ->.
  { intros e. destruct (net_Gateway n) as [g|]; [rewrite Hg|]; naive_solver. }
  rewrite !if_violation_nil by auto with kuma. rewrite bool_decide_eq_false, not_eq_None_Some.
  destruct (net_Inbound n) as [|i l], (net_Gateway n) as [g|]; simpl; split; intros H; decompose [and] H; try done.
  all: repeat split; eauto; try done; naive_solver.
Qed.

Lemma validateInbound_plain port tags addr :
  validateInbound (mkInbound "" port 0 "" tags) addr = [] ↔
  kube_port port ∧ is_Some (tags !! ServiceTag)
  ∧ (∀ v, tags !! ProtocolTag = Some v → ParseProtocol v ≠ ProtocolUnknown)
  ∧ validateTags tags = [].
Proof.
  unfold validateInbound. cbn [in_Interface in_Port in_ServicePort in_Address in_Tags].
  rewrite Add_nil, !String.eqb_refl. cbn [negb andb].
  assert (∀ e : ValidationError,
    match tags !! ProtocolTag with
    | Some value =>
        match ParseProtocol value with
        | ProtocolUnknown =>
            AddViolationAt e (Path_Key (RootedAt "tags") ProtocolTag)
              ("tag " +:+ quote ProtocolTag +:+ " has an invalid value " +:+ quote value +:+ ". "
                 +:+ AllowedValuesHint ["http"; "tcp"])
        | _ => e
        end
    | None => e
    end = [] ↔ e = [] ∧ (∀ v, tags !! ProtocolTag = Some v → ParseProtocol v ≠ ProtocolUnknown)) as ->.
  { intros e. destruct (tags !! ProtocolTag) as [v|]; [|naive_solver]. destruct (ParseProtocol v) eqn:E.
    - rewrite AddViolationAt_nil. naive_solver.
    - split; [|tauto]. intros ->. split; [done|]. intros ? [= <-]. by rewrite E.
    - split; [|tauto]. intros ->. split; [done|]. intros ? [= <-]. by rewrite E. }
  rewrite !if_violation_nil by auto with kuma. unfold has_service, kube_port.
  rewrite orb_false_iff, !Z.ltb_ge, negb_false_iff, bool_decide_eq_true. simpl. naive_solver lia.
Qed.

Lemma validateOutbound_plain addr port service :
  validateOutbound (mkOutbound "" addr port service) = [] ↔
  kube_port port ∧ (addr = "" ∨ is_Some (parse_ip addr)) ∧ service ≠ "".
Proof.
  unfold validateOutbound. cbn [out_Interface out_Port out_Address out_Service]. rewrite String.eqb_refl. cbn [negb].
  rewrite !if_violation_nil by auto with kuma. unfold kube_port.
  rewrite orb_false_iff, andb_false_iff, !Z.ltb_ge, negb_false_iff, String.eqb_eq, String.eqb_neq, bool_decide_eq_false, not_eq_None_Some.
  naive_solver lia.
Qed.

(** Text of digits and of the names of Kubernetes is allowed in tags. *)
Lemma digits_tag_chars s : all_digits s = true → all_bytes tag_char s = true.
Proof.
  induction s as [|c s IH]; [done|]. cbn [all_digits all_bytes]. destruct (digit_val c) eqn:E; [|done].
  intros Hs. rewrite (IH Hs), andb_true_r. revert E. each_byte c; done.
Qed.

Lemma ServiceTagFor_chars svc sp :
  dns_label (svc_Name svc) → dns_label (svc_Namespace svc) → kube_port (sp_Port sp) →
  ServiceTagFor svc sp ≠ "" ∧ tagValueCharacterSet (ServiceTagFor svc sp) = true.
Proof.
  intros [Hne Hn] [_ Hns] Hp. destruct (itoa_port (sp_Port sp)) as [_ Hd]; [unfold kube_port in Hp; lia|].
  unfold ServiceTagFor, tagValueCharacterSet. split; [by destruct (svc_Name svc)|].
  rewrite !all_bytes_app, (digits_tag_chars _ Hd).
  assert (∀ s, all_bytes dns_byte s = true → all_bytes tag_char s = true) as Hdns.
  { intros s. apply all_bytes_impl. bytewise. }
  by rewrite (Hdns _ Hn), (Hdns _ Hns).
Qed.

Lemma known_protocol_chars v : ParseProtocol v ≠ ProtocolUnknown → v ≠ "" ∧ tagValueCharacterSet v = true.
Proof.
  unfold ParseProtocol. intros Hv. split; [by intros ->|].
  assert (all_bytes alnum (to_lower v) = true) as Hl.
  { destruct (String.eqb_spec (to_lower v) "http") as [->|]; [done|].
    by destruct (String.eqb_spec (to_lower v) "tcp") as [->|]. }
  clear Hv. unfold tagValueCharacterSet. induction v as [|c v IH]; [done|]. simpl in Hl. apply andb_true_iff in Hl as [Hc Hl].
  simpl. rewrite (IH Hl), andb_true_r. revert Hc. each_byte c; done.
Qed.

(** The labels of a pod that become tags as they are. *)
Definition usable_labels (pod : Pod) (isGateway : bool) : Prop :=
  ∀ k v, om_Labels (pod_Meta pod) !! k = Some v → k ≠ ServiceTag → (k = ProtocolTag → isGateway = true) →
    v ≠ "" ∧ tagNameCharacterSet k = true ∧ tagValueCharacterSet v = true.

Lemma InboundTags_valid pod svc sp g :
  dns_label (svc_Name svc) → dns_label (svc_Namespace svc) → kube_port (sp_Port sp) →
  (g = false → ParseProtocol (ProtocolTagFor svc sp) ≠ ProtocolUnknown) →
  validateTags (InboundTagsFor pod svc sp g) = [] ↔ usable_labels pod g.
Proof.
  intros Hn Hns Hp Hproto. destruct (ServiceTagFor_chars svc sp Hn Hns Hp) as [Hs1 Hs2].
  rewrite validateTags_nil. unfold InboundTagsFor, usable_labels. split.
  - intros Hv k v Hk Hks Hkp. apply Hv. destruct g; simpl.
    + by rewrite lookup_insert_ne by done.
    + rewrite lookup_insert_ne by (intros <-; by specialize (Hkp eq_refl)). by rewrite lookup_insert_ne by done.
  - intros Hl k v Hk. destruct g; simpl in Hk.
    + apply lookup_insert_Some in Hk as [[<- <-]|[Hks Hk]]; [done|]. by apply (Hl k v).
    + apply lookup_insert_Some in Hk as [[<- <-]|[Hkp Hk]].
      * destruct (known_protocol_chars _ (Hproto eq_refl)) as [Hv1 Hv2]. by split_and!.
      * apply lookup_insert_Some in Hk as [[<- <-]|[Hks Hk]]; [done|]. by apply (Hl k v).
Qed.

Section Validity.
Context `{Hjsonpb : Jsonpb} `{!JsonMap}.

Lemma outbound_for_shape get tag o :
  outbound_for get tag = Some o → o = mkOutbound "" (out_Address o) (out_Port o) tag ∧ tag ≠ "".
Proof.
  unfold outbound_for. intros Ho. split; [|by intros ->].
  destruct (ServiceTagValue_HostAndPort tag) as [[host port]| |]; [|done..].
  destruct (ParseServiceFQDN host) as [[name ns]| |]; [|done..]. destruct (get ns name); [done|]. by injection Ho as <-.
Qed.

Lemma outbounds_shape others get o :
  o ∈ OutboundInterfacesFor others get → o = mkOutbound "" (out_Address o) (out_Port o) (out_Service o) ∧ out_Service o ≠ "".
Proof.
  intros (tag & _ & Ho)%list_elem_of_omap. rewrite (outbound_for_service get tag o Ho). by apply (outbound_for_shape get).
Qed.

Lemma DataplaneFor_shape pod services others get d :
  DataplaneFor pod services others get = Ok d →
  let g := HasGatewayEnabled pod in
  (∃ i rest, inbounds_of pod g services = i :: rest
     ∧ ∃ redirect, d = mkDataplane (Some (mkNetworkingTP (pod_PodIP pod) (if g then [] else inbounds_of pod false services)
          (OutboundInterfacesFor others get) (if g then Some (mkGateway (in_Tags i)) else None) redirect)) None).
Proof.
  unfold DataplaneFor, GatewayFor. destruct (HasGatewayEnabled pod); cbv zeta.
  - destruct (InboundInterfacesFor pod services true) as [l| |] eqn:E; [|done..].
    apply InboundInterfacesFor_Ok in E as (-> & Hne & _). cbn [rbind].
    destruct (inbounds_of pod true services) as [|i rest]; [done|]. intros [= <-]. eauto.
  - destruct (InboundInterfacesFor pod services false) as [l| |] eqn:E; [|done..].
    apply InboundInterfacesFor_Ok in E as (-> & Hne & _). cbn [rbind].
    destruct (inbounds_of pod false services) as [|i rest]; [done|]. intros [= <-]. eauto.
Qed.

Lemma DataplaneFor_redirect pod services others get d :
  DataplaneFor pod services others get = Ok d →
  (dp_Networking d ≫= net_TransparentProxying)
  = if HasTransparentProxyingEnabled pod then Some (GetTransparentProxyingPort pod) else None.
Proof.
  unfold DataplaneFor. intros ([g i] & _ & [= <-])%rbind_Ok. done.
Qed.

Lemma Dataplane_Validate_networking meta n metrics :
  Dataplane_Validate (mkResource meta (mkDataplane (Some n) metrics)) = Ok None ↔ validateNetworking (Some n) = Ok [].
Proof.
  split; [by intros (n' & [= <-] & Hv)%Dataplane_Validate_nil|]. unfold Dataplane_Validate. cbn [r_Spec dp_Networking].
  by intros ->.
Qed.

(** The protocols that the services of a pod declare are known. *)
Definition known_protocols (pod : Pod) (services : list Service) : Prop :=
  ∀ svc sp, svc ∈ services → sp ∈ svc_Ports svc → is_Some (matched_port pod sp) →
    ParseProtocol (ProtocolTagFor svc sp) ≠ ProtocolUnknown.

Lemma inbounds_valid pod services addr :
  kube_pod pod → Forall kube_service services → inbounds_of pod false services ≠ [] →
  Forall (λ inb, validateInbound inb addr = []) (inbounds_of pod false services)
  ↔ known_protocols pod services ∧ usable_labels pod false.
Proof.
  intros Hpod Hservices Hne. rewrite !Forall_forall in *. split.
  - intros Hv.
    assert (∀ svc sp, svc ∈ services → sp ∈ svc_Ports svc → is_Some (matched_port pod sp) →
      ParseProtocol (ProtocolTagFor svc sp) ≠ ProtocolUnknown ∧ validateTags (InboundTagsFor pod svc sp false) = []) as Hboth.
    { intros svc sp Hs Hsp [port E]. specialize (Hv (mkInbound "" (wrap32 port) 0 "" (InboundTagsFor pod svc sp false))).
      rewrite elem_of_inbounds, validateInbound_plain in Hv. destruct Hv as (_ & _ & Hp & Ht); [eauto 8|].
      split; [|done]. apply Hp. unfold InboundTagsFor. simpl. by rewrite lookup_insert_eq. }
    split; [intros svc sp Hs Hsp E; by apply (Hboth svc sp)|].
    destruct (inbounds_of pod false services) as [|i rest] eqn:Ei; [done|].
    assert (i ∈ inbounds_of pod false services) as Hi by (rewrite Ei; constructor).
    apply elem_of_inbounds in Hi as (svc & sp & port & Hs & Hsp & E & _).
    destruct (Hservices svc Hs) as (Hn & Hns & _).
    destruct (matched_port_range pod svc sp port Hpod (Hservices svc Hs) Hsp E) as [_ Hp].
    destruct (Hboth svc sp Hs Hsp) as [Hproto Ht]; [by rewrite E|]. by apply (InboundTags_valid pod svc sp false Hn Hns Hp).
  - intros [Hproto Hlabels] inb (svc & sp & port & Hs & Hsp & E & ->)%elem_of_inbounds.
    destruct (Hservices svc Hs) as (Hn & Hns & _).
    destruct (matched_port_range pod svc sp port Hpod (Hservices svc Hs) Hsp E) as [Hport Hp].
    assert (is_Some (matched_port pod sp)) as HE by by rewrite E.
    apply validateInbound_plain. split; [unfold wrap32; unfold kube_port in *; rewrite Z.mod_small; lia|].
    unfold InboundTagsFor at 1 2. cbn [negb]. rewrite lookup_insert_ne by done. rewrite !lookup_insert_eq.
    split; [eauto|]. split; [intros v [= <-]; by apply Hproto|]. apply InboundTags_valid; auto.
Qed.

(** C24: The dataplane that is made for a pod passes the validation of the control
    plane exactly when the pod has an address, the labels of the pod are usable as
    tags (Kubernetes also allows empty values, and names with a slash),
    unless it is a gateway its services declare known protocols, and every
    service of the mesh found for an outbound has no address or an IP address, and
    a port in range: one service without such an address makes the dataplanes of
    all pods of the mesh invalid. *)
Theorem generated_dataplane_valid pod services others get d meta :
  kube_pod pod → Forall kube_service services → DataplaneFor pod services others get = Ok d →
  Dataplane_Validate (mkResource meta d) = Ok None ↔
  is_Some (parse_ip (pod_PodIP pod)) ∧ usable_labels pod (HasGatewayEnabled pod)
  ∧ (HasGatewayEnabled pod = false → known_protocols pod services)
  ∧ Forall (λ o, kube_port (out_Port o) ∧ (out_Address o = "" ∨ is_Some (parse_ip (out_Address o))))
      (OutboundInterfacesFor others get).
Proof.
  intros Hpod Hservices Hd. apply DataplaneFor_shape in Hd as (i & rest & Ei & redirect & ->).
  rewrite Dataplane_Validate_networking, validateNetworking_modern.
  2: { unfold hasLegacyInbound. cbn [net_Inbound]. destruct (HasGatewayEnabled pod); [done|].
    apply not_true_is_false. rewrite existsb_exists. intros (x & Hx & Hb).
    apply list_elem_of_In, elem_of_inbounds in Hx as (svc & sp & port & _ & _ & _ & ->). done. }
  cbn [net_Inbound net_Gateway net_Address net_Outbound].
  assert (Forall (λ out, validateOutbound out = []) (OutboundInterfacesFor others get) ↔
    Forall (λ o, kube_port (out_Port o) ∧ (out_Address o = "" ∨ is_Some (parse_ip (out_Address o)))) (OutboundInterfacesFor others get)) as ->.
  { rewrite !Forall_forall. split; intros Ho o Hin; specialize (Ho o Hin);
      destruct (outbounds_shape others get o Hin) as [Eo Hne]; rewrite Eo, validateOutbound_plain in *; naive_solver. }
  destruct (HasGatewayEnabled pod).
  - assert (i ∈ inbounds_of pod true services) as Hi by (rewrite Ei; constructor).
    apply elem_of_inbounds in Hi as (svc & sp & port & Hs & Hsp & E & ->). cbn [in_Tags].
    rewrite Forall_forall in Hservices. destruct (Hservices svc Hs) as (Hn & Hns & _).
    destruct (matched_port_range pod svc sp port Hpod (Hservices svc Hs) Hsp E) as [_ Hp].
    assert (validateGateway (mkGateway (InboundTagsFor pod svc sp true)) = [] ↔ usable_labels pod true) as Hg.
    { unfold validateGateway. cbn [gw_Tags]. rewrite Add_nil, (InboundTags_valid pod svc sp true Hn Hns Hp) by done.
      rewrite if_violation_nil by auto with kuma. unfold has_service, InboundTagsFor. cbn [negb]. rewrite lookup_insert_eq.
      rewrite negb_false_iff, bool_decide_eq_true. naive_solver. }
    split.
    + intros (_ & Hip & Hgw & _ & Ho). split_and!; [done|by apply Hg, Hgw|done|done].
    + intros (Hip & Hl & _ & Ho). split_and!; [by split; eauto|done|intros g [= <-]; by apply Hg|constructor|done].
  - rewrite (inbounds_valid pod services (pod_PodIP pod) Hpod Hservices) by by rewrite Ei.
    split.
    + intros (_ & Hip & _ & [Hproto Hl] & Ho). by split_and!.
    + intros (Hip & Hl & Hproto & Ho). rewrite Ei. split_and!; [|done|done|by apply Hproto|done|done].
      by split; [|intros []].
Qed.
End Validity.

(** ** A concrete pod *)

Section SamplePod.

Definition web_pod : Pod :=
  mkPod (mkObjectMeta "demo" "web" "uid" {["app" := "web"]} ∅)
    [mkContainer "web" "nginx" "" [] [] [mkContainerPort "http" 8080 ""] None None None None []] [] "10.0.0.1".
Definition web_service : Service :=
  mkService (mkObjectMeta "demo" "web" "uid" ∅ {["80.service.kuma.io/protocol" := "http"]})
    [mkServicePort "" "TCP" 80 (NamedPort "http")] {["app" := "web"]} "10.1.0.1".
Definition web_services (namespace name : string) : goerror + Service :=
  if String.eqb namespace "demo" && String.eqb name "web" then inr web_service else inl (Errorf "NotFound" []).

(** The dataplane of the pod, and a codec for it. *)
Definition web_dataplane : Dataplane :=
  mkDataplane (Some (mkNetworkingTP "10.0.0.1"
    [mkInbound "" 8080 0 "" (<[ProtocolTag := "http"]> (<[ServiceTag := "web.demo.svc:80"]> {["app" := "web"]}))] [] None None)) None.
#[local] Instance pod_jsonpb : Jsonpb :=
  {| jsonpb_Marshal := λ spec,
       match spec with
       | DataplaneSpec d => if decide (d = web_dataplane) then Ok "dp" else Err (Errorf "unsupported message" [])
       | _ => Err (Errorf "unsupported message" [])
       end;
     jsonpb_Unmarshal := λ s out,
       match out with
       | DataplaneSpec _ => (Ok (), DataplaneSpec web_dataplane)
       | _ => (Err (Errorf "unsupported message" []), out)
       end |}.
#[local] Instance pod_jsonpb_lawful : LawfulJsonpb.
Proof.
  constructor; [by intros s []|]. intros spec s Hs. destruct spec as [|d| | | | | | | | | |]; try done. cbn in Hs.
  destruct (decide (d = web_dataplane)) as [->|]; [by injection Hs as <-|done].
Qed.
#[local] Instance pod_JsonMap : JsonMap := {| RawMap := string; nil_map := ""; unmarshal_map := Ok; marshal_map := Ok |}.
#[local] Instance pod_JsonMap_lawful : LawfulJsonMap.
Proof. constructor. intros spec content Hc. by exists content, content. Qed.

Lemma web_pod_kube : kube_pod web_pod.
Proof. unfold kube_pod, kube_port. repeat constructor; done. Qed.
Lemma web_service_kube : kube_service web_service.
Proof. unfold kube_service, dns_label, kube_port. split_and!; try done. repeat constructor; done. Qed.

Lemma services_of_mesh_reachable_witness :
  mkOutbound "" "10.1.0.1" 80 "web.demo.svc:80"
  ∈ OutboundInterfacesFor [(PodToDataplane (empty_object KDataplane) web_pod [web_service] [] web_services).2] web_services.
Proof.
  refine (proj2 (services_of_mesh_reachable (empty_object KDataplane) web_pod [web_service] [] web_services
    (PodToDataplane (empty_object KDataplane) web_pod [web_service] [] web_services).2 web_service
    (mkServicePort "" "TCP" 80 (NamedPort "http")) _ web_services web_service _ _ _ _ _ _ _ _ _)).
  - vm_compute. reflexivity.
  - reflexivity.
  - left.
  - left.
  - vm_compute. eauto.
  - exact web_service_kube.
  - unfold kube_port. simpl. lia.
  - left.
  - reflexivity.
Defined.

Lemma generated_dataplane_valid_witness :
  Dataplane_Validate (mkResource (mkMeta "web.demo" "default" "" 0 0) web_dataplane) = Ok None.
Proof.
  refine (proj2 (generated_dataplane_valid web_pod [web_service] [] web_services web_dataplane _ web_pod_kube _ _) _).
  - apply Forall_singleton; exact web_service_kube.
  - vm_compute. reflexivity.
  - split; [vm_compute; eauto|]. split; [|split].
    + intros k v Hk _ _. change (({["app" := "web"]} : gmap string string) !! k = Some v) in Hk. apply lookup_singleton_Some in Hk as [<- <-]. done.
    + intros _ svc sp Hs Hsp _. apply list_elem_of_singleton in Hs as ->. apply list_elem_of_singleton in Hsp as ->.
      vm_compute. discriminate.
    + constructor.
Defined.
End SamplePod.
