(* ===== verification/InjectorConfig.v ===== *)
(** * The configuration of the sidecar injector

    Models [pkg/config/app/kuma-injector/config.go]: its structs, its defaults
    and its validation.  [Sanitize] of every part is empty.  Quantities of
    resources are read by [k8s.io/apimachinery], a parameter; so is the
    combination of two errors by [multierr]. *)

From S2P Require Import Prelude GoStd NetUrl Kubernetes.
Local Open Scope string_scope.
Local Open Scope list_scope.
Local Open Scope Z_scope.

(** ** Collecting errors *)

Section Errors.
Context (multierr_Append : goerror → goerror → goerror).

(** [errs = multierr.Append(errs, err)] of an error that is not nil. *)
Definition append_error (errs : option goerror) (err : goerror) : option goerror :=
  Some (match errs with Some errs => multierr_Append errs err | None => err end).

(** [if b { errs = multierr.Append(errs, err) }] *)
Definition append_if (b : bool) (err : goerror) (errs : option goerror) : option goerror :=
  if b then append_error errs err else errs.

(** [if err := part.Validate(); err != nil { errs = multierr.Append(errs, errors.Wrapf(err, msg)) }] *)
Definition append_part (err : option goerror) (msg : string) (errs : option goerror) : option goerror :=
  match err with
  | Some e => append_error errs (Wrapf e msg [])
  | None => errs
  end.

Lemma append_if_None b err errs : append_if b err errs = None ↔ errs = None ∧ b = false.
Proof. unfold append_if. destruct b; naive_solver. Qed.
Lemma append_part_None err msg errs : append_part err msg errs = None ↔ errs = None ∧ err = None.
Proof. unfold append_part. destruct err; naive_solver. Qed.
End Errors.

(** Turns "no error was collected" into the conditions. *)
Ltac no_errors := rewrite ?append_part_None, ?append_if_None.

(** ** The structs *)

Record WebHookServer : Type := mkWebHookServer { whs_Address : string; whs_Port : Z; whs_CertDir : string }.
Record InjectorApiServer : Type := mkInjectorApiServer { ias_URL : string }.
Record InjectorControlPlane : Type := mkInjectorControlPlane { icp_ApiServer : InjectorApiServer }.
Record SidecarReadinessProbe : Type := mkReadinessProbe {
  srp_InitialDelaySeconds : Z;
  srp_TimeoutSeconds : Z;
  srp_PeriodSeconds : Z;
  srp_SuccessThreshold : Z;
  srp_FailureThreshold : Z;
}.
Record SidecarLivenessProbe : Type := mkLivenessProbe {
  slp_InitialDelaySeconds : Z;
  slp_TimeoutSeconds : Z;
  slp_PeriodSeconds : Z;
  slp_FailureThreshold : Z;
}.
Record SidecarResourceRequests : Type := mkSidecarRequests { srr_CPU : string; srr_Memory : string }.
Record SidecarResourceLimits : Type := mkSidecarLimits { srl_CPU : string; srl_Memory : string }.
Record SidecarResources : Type := mkSidecarResources {
  sr_Requests : SidecarResourceRequests;
  sr_Limits : SidecarResourceLimits;
}.
Record SidecarContainer : Type := mkSidecarContainer {
  sdc_Image : string;
  sdc_RedirectPort : Z; (* uint32 *)
  sdc_UID : Z;          (* int64 *)
  sdc_GID : Z;
  sdc_AdminPort : Z;
  sdc_DrainTime : Z;    (* nanoseconds *)
  sdc_ReadinessProbe : SidecarReadinessProbe;
  sdc_LivenessProbe : SidecarLivenessProbe;
  sdc_Resources : SidecarResources;
}.
Record InitContainer : Type := mkInitContainer { ic_Enabled : bool; ic_Image : string }.
Record InjectorCfg : Type := mkInjectorCfg {
  inj_ControlPlane : InjectorControlPlane;
  inj_SidecarContainer : SidecarContainer;
  inj_InitContainer : InitContainer;
}.
Record InjectorConfig : Type := mkInjectorConfig { icfg_WebHookServer : WebHookServer; icfg_Injector : InjectorCfg }.

Definition Injector_DefaultConfig : InjectorConfig :=
  mkInjectorConfig (mkWebHookServer "" 8443 "")
    (mkInjectorCfg
       (mkInjectorControlPlane (mkInjectorApiServer "http://kuma-control-plane.kuma-system:5681"))
       (mkSidecarContainer "kuma/kuma-dp:latest" 15001 5678 5678 9901 (30 * 10 ^ 9)
          (mkReadinessProbe 1 3 5 1 12) (mkLivenessProbe 60 3 5 12)
          (mkSidecarResources (mkSidecarRequests "50m" "64Mi") (mkSidecarLimits "1000m" "512Mi")))
       (mkInitContainer true "kuma/kuma-init:latest")).

(** ** Validation *)

(** [resource.ParseQuantity] and [resource.NewScaledQuantity]. *)
Class KubeQuantity : Type := {
  ParseQuantity : string → goerror + Quantity;
  NewScaledQuantity : Z → Z → Quantity;
}.

Section Validate.
Context `{KubeQuantity} (multierr_Append : goerror → goerror → goerror).
Let check_if := append_if multierr_Append.
Let check_part := append_part multierr_Append.
Let must (msg : string) : goerror := Errorf msg [].

Definition WebHookServer_Validate (s : WebHookServer) : option goerror :=
  let errs := None in
  let errs := check_if (negb (String.eqb (whs_Address s) "") && bool_decide (parse_ip (whs_Address s) = None))
                (must ".Address must be either empty or a valid IPv4/IPv6 address") errs in
  let errs := check_if (65535 <? whs_Port s) (must ".Port must be in the range [0, 65535]") errs in
  check_if (String.eqb (whs_CertDir s) "") (must ".CertDir must be non-empty") errs.

(** [url.IsAbs] *)
Definition IsAbs (u : URL) : bool := negb (String.eqb (url_Scheme u) "").

Definition InjectorApiServer_Validate (s : InjectorApiServer) : option goerror :=
  let errs := check_if (String.eqb (ias_URL s) "") (must ".URL must be non-empty") None in
  match url_Parse (ias_URL s) with
  | Ok url => check_if (negb (IsAbs url)) (must ".URL must be a valid absolute URI") errs
  | Err e => append_error multierr_Append errs (Wrapf e ".URL must be a valid absolute URI" [])
  | Panic => errs
  end.

Definition InjectorControlPlane_Validate (c : InjectorControlPlane) : option goerror :=
  check_part (InjectorApiServer_Validate (icp_ApiServer c)) ".ApiServer is not valid" None.

Definition SidecarReadinessProbe_Validate (c : SidecarReadinessProbe) : option goerror :=
  let errs := check_if (srp_InitialDelaySeconds c <? 1) (must ".InitialDelaySeconds must be >= 1") None in
  let errs := check_if (srp_TimeoutSeconds c <? 1) (must ".TimeoutSeconds must be >= 1") errs in
  let errs := check_if (srp_PeriodSeconds c <? 1) (must ".PeriodSeconds must be >= 1") errs in
  let errs := check_if (srp_SuccessThreshold c <? 1) (must ".SuccessThreshold must be >= 1") errs in
  check_if (srp_FailureThreshold c <? 1) (must ".FailureThreshold must be >= 1") errs.

Definition SidecarLivenessProbe_Validate (c : SidecarLivenessProbe) : option goerror :=
  let errs := check_if (slp_InitialDelaySeconds c <? 1) (must ".InitialDelaySeconds must be >= 1") None in
  let errs := check_if (slp_TimeoutSeconds c <? 1) (must ".TimeoutSeconds must be >= 1") errs in
  let errs := check_if (slp_PeriodSeconds c <? 1) (must ".PeriodSeconds must be >= 1") errs in
  check_if (slp_FailureThreshold c <? 1) (must ".FailureThreshold must be >= 1") errs.

Definition quantity_error (s : string) : option goerror :=
  match ParseQuantity s with inl e => Some e | inr _ => None end.

Definition SidecarResourceRequests_Validate (c : SidecarResourceRequests) : option goerror :=
  let errs := check_part (quantity_error (srr_CPU c)) ".CPU is not valid" None in
  check_part (quantity_error (srr_Memory c)) ".Memory is not valid" errs.

Definition SidecarResourceLimits_Validate (c : SidecarResourceLimits) : option goerror :=
  let errs := check_part (quantity_error (srl_CPU c)) ".CPU is not valid" None in
  check_part (quantity_error (srl_Memory c)) ".Memory is not valid" errs.

Definition SidecarResources_Validate (c : SidecarResources) : option goerror :=
  let errs := check_part (SidecarResourceRequests_Validate (sr_Requests c)) ".Requests is not valid" None in
  check_part (SidecarResourceLimits_Validate (sr_Limits c)) ".Limits is not valid" errs.

Definition SidecarContainer_Validate (c : SidecarContainer) : option goerror :=
  let errs := check_if (String.eqb (sdc_Image c) "") (must ".Image must be non-empty") None in
  let errs := check_if (65535 <? sdc_RedirectPort c) (must ".RedirectPort must be in the range [0, 65535]") errs in
  let errs := check_if (65535 <? sdc_AdminPort c) (must ".AdminPort must be in the range [0, 65535]") errs in
  let errs := check_if (sdc_DrainTime c <=? 0) (must ".DrainTime must be positive") errs in
  let errs := check_part (SidecarReadinessProbe_Validate (sdc_ReadinessProbe c)) ".ReadinessProbe is not valid" errs in
  let errs := check_part (SidecarLivenessProbe_Validate (sdc_LivenessProbe c)) ".LivenessProbe is not valid" errs in
  check_part (SidecarResources_Validate (sdc_Resources c)) ".Resources is not valid" errs.

Definition InitContainer_Validate (c : InitContainer) : option goerror :=
  check_if (String.eqb (ic_Image c) "") (must ".Image must be non-empty") None.

Definition InjectorCfg_Validate (i : InjectorCfg) : option goerror :=
  let errs := check_part (InjectorControlPlane_Validate (inj_ControlPlane i)) ".ControlPlane is not valid" None in
  let errs := check_part (SidecarContainer_Validate (inj_SidecarContainer i)) ".SidecarContainer is not valid" errs in
  check_part (InitContainer_Validate (inj_InitContainer i)) ".InitContainer is not valid" errs.

Definition InjectorConfig_Validate (c : InjectorConfig) : option goerror :=
  let errs := check_part (WebHookServer_Validate (icfg_WebHookServer c)) ".WebHookServer is not valid" None in
  check_part (InjectorCfg_Validate (icfg_Injector c)) ".Injector is not valid" errs.

(** What a validated sidecar can rely on. *)
Lemma SidecarContainer_valid c :
  SidecarContainer_Validate c = None ↔
  sdc_Image c ≠ "" ∧ sdc_RedirectPort c ≤ 65535 ∧ sdc_AdminPort c ≤ 65535 ∧ 0 < sdc_DrainTime c
  ∧ SidecarReadinessProbe_Validate (sdc_ReadinessProbe c) = None
  ∧ SidecarLivenessProbe_Validate (sdc_LivenessProbe c) = None
  ∧ (let r := sdc_Resources c in
     Forall (λ s, ∃ q, ParseQuantity s = inr q)
       [srr_CPU (sr_Requests r); srr_Memory (sr_Requests r); srl_CPU (sr_Limits r); srl_Memory (sr_Limits r)]).
Proof.
  unfold SidecarContainer_Validate, SidecarResources_Validate, SidecarResourceRequests_Validate,
    SidecarResourceLimits_Validate, check_part, check_if.
  no_errors. rewrite !Forall_cons, Forall_nil, String.eqb_neq, !Z.ltb_ge, Z.leb_gt.
  assert (∀ s, quantity_error s = None ↔ ∃ q, ParseQuantity s = inr q) as Hq.
  { intros s. unfold quantity_error. destruct (ParseQuantity s); naive_solver. }
  rewrite !Hq. tauto.
Qed.

(** The default configuration lacks a directory with certificates and nothing
    else. *)
Lemma DefaultConfig_valid dir :
  dir ≠ "" → Forall (λ s, ∃ q, ParseQuantity s = inr q) ["50m"; "64Mi"; "1000m"; "512Mi"] →
  InjectorConfig_Validate (mkInjectorConfig (mkWebHookServer "" 8443 dir) (icfg_Injector Injector_DefaultConfig)) = None
  ∧ is_Some (InjectorConfig_Validate Injector_DefaultConfig).
Proof.
  intros Hdir Hq.
  assert (InjectorCfg_Validate (icfg_Injector Injector_DefaultConfig) = None) as Hinj.
  { unfold InjectorCfg_Validate, check_part. no_errors. split_and!; [done|done| |done].
    apply SidecarContainer_valid. by split_and!. }
  unfold InjectorConfig_Validate, check_part. split.
  - no_errors. split_and!; [done| |exact Hinj]. unfold WebHookServer_Validate, check_if. no_errors.
    split_and!; [done|done|done|]. by apply String.eqb_neq.
  - cbn [icfg_Injector Injector_DefaultConfig] in *. rewrite Hinj. by eexists.
Qed.
End Validate.
