(* ===== verification/PostgresStore.v ===== *)
(** * The PostgreSQL resource store

    Models [pkg/plugins/resources/postgres/store.go]: the texts of its statements
    and what it makes of the answers.  The database behind [database/sql] is a
    parameter ([Database]); [LawfulDatabase] states what these statements do to
    the table that the migrations create, whose primary key is the name, the
    namespace, the mesh and the type. *)

From S2P Require Import Prelude GoStd Dataplane MeshResources Insights Resources Store MemoryStore.
Local Open Scope string_scope.
Local Open Scope list_scope.
Local Open Scope Z_scope.

(** ** database/sql *)

Inductive sqlval : Type :=
| SText (s : string)
| SInt (z : Z)
| STime (t : Z)
| SNull.

(** The rows that [Next] hands out, the error that ended them early, which only
    [rows.Err] tells, and the error of closing them. *)
Record Rows : Type := mkRows {
  rows_Data : list (list sqlval);
  rows_Err : option goerror;
  rows_Close : option goerror;
}.

(** A statement with its arguments: the rows affected, and the new state, also
    of a statement that failed. *)
Class Database (Db : Type) : Type := {
  db_Exec : Db → string → list sqlval → (goerror + Z) * Db;
  db_Query : Db → string → list sqlval → goerror + Rows;
}.

(** [Scan] into a list of variables of the types of the columns. *)
Definition scan_error : goerror := Errorf "sql: Scan error" [].

(** [Row.Scan] of [QueryRow]: the first row. *)
Inductive RowScan (A : Type) : Type :=
| ScanOk (a : A)
| ErrNoRows
| ScanErr (e : goerror).
Arguments ScanOk {A} _.
Arguments ErrNoRows {A}.
Arguments ScanErr {A} _.

Definition Row_Scan {A} (answer : goerror + Rows) (scan : list sqlval → option A) : RowScan A :=
  match answer with
  | inl e => ScanErr e
  | inr rows =>
      match rows_Data rows with
      | [] => match rows_Err rows with Some e => ScanErr e | None => ErrNoRows end
      | row :: _ =>
          match scan row with
          | None => ScanErr scan_error
          | Some a => match rows_Close rows with Some e => ScanErr e | None => ScanOk a end
          end
      end
  end.

(** ** store.go *)

Definition duplicateKeyErrorMsg : string := "duplicate key value violates unique constraint".

(** [resourceMetaObject]; it has no name extensions. *)
Definition resourceMetaObject (name mesh version : string) (created modified : Z) : Meta :=
  ForeignMeta (mkMeta name mesh version created modified).

Section Store.
Context `{Jsonpb} {Db : Type} `{Database Db}.

Definition postgres_Create (db : Db) (resource : Object) (fs : list CreateOptionsFunc)
  : res unit * (Db * Object) :=
  let opts := NewCreateOptions fs in
  match ToJSON (o_Spec resource) with
  | Panic => (Panic, (db, resource))
  | Err e => (Err (Wrapf e "failed to convert spec to json" []), (db, resource))
  | Ok bytes =>
      let version := 0 in
      let statement := "INSERT INTO resources VALUES ($1, $2, $3, $4, $5, $6, $7, $8);" in
      let '(result, db') := db_Exec db statement
        [SText (co_Name opts); SText ""; SText (co_Mesh opts); SText (GetType resource); SInt version;
         SText bytes; STime (co_CreationTime opts); STime (co_CreationTime opts)] in
      match result with
      | inl err =>
          if contains (error_string err) duplicateKeyErrorMsg
          then (Err (ErrorResourceAlreadyExists (GetType resource) (co_Name opts) (co_Mesh opts)), (db', resource))
          else (Err (Wrapf err "failed to execute query: %s" [AStr statement]), (db', resource))
      | inr _ =>
          (Ok (), (db', SetMeta resource (Some (resourceMetaObject (co_Name opts) (co_Mesh opts) (itoa version)
                                                  (co_CreationTime opts) (co_CreationTime opts)))))
      end
  end.

(** The new metadata of the resource has the version that was read before. *)
Definition postgres_Update (db : Db) (resource : Object) (fs : list UpdateOptionsFunc)
  : res unit * (Db * Object) :=
  match ToJSON (o_Spec resource) with
  | Panic => (Panic, (db, resource))
  | Err e => (Err e, (db, resource))
  | Ok bytes =>
      let opts := NewUpdateOptions fs in
      match o_Meta resource with
      | None => (Panic, (db, resource))
      | Some meta =>
          match atoi (GetVersion (observe meta)) with
          | Panic => (Panic, (db, resource))
          | Err e => (Err (Wrapf e "failed to convert meta version to int" []), (db, resource))
          | Ok version =>
              let statement := "UPDATE resources SET spec=$1, version=$2, modification_time=$3 WHERE name=$4 AND mesh=$5 AND type=$6 AND version=$7;" in
              let '(result, db') := db_Exec db statement
                [SText bytes; SInt (wrap_int (version + 1)); STime (uo_ModificationTime opts);
                 SText (GetName (observe meta)); SText (GetMesh (observe meta)); SText (GetType resource);
                 SInt version] in
              match result with
              | inl err => (Err (Wrapf err "failed to execute query %s" [AStr statement]), (db', resource))
              | inr rows =>
                  if negb (rows =? 1)
                  then (Err (ErrorResourceConflict (GetType resource) (GetName (observe meta)) (GetMesh (observe meta))), (db', resource))
                  else (Ok (), (db', SetMeta resource (Some (resourceMetaObject (GetName (observe meta)) (GetMesh (observe meta))
                                                               (itoa version) zeroTime zeroTime))))
              end
          end
      end
  end.

Definition postgres_Delete (db : Db) (resource : Object) (fs : list DeleteOptionsFunc) : res unit * Db :=
  let opts := NewDeleteOptions fs in
  let statement := "DELETE FROM resources WHERE name=$1 AND type=$2 AND mesh=$3" in
  let '(result, db') := db_Exec db statement [SText (do_Name opts); SText (GetType resource); SText (do_Mesh opts)] in
  match result with
  | inl err => (Err (Wrapf err "failed to execute query: %s" [AStr statement]), db')
  | inr rows =>
      if rows =? 0 then (Err (ErrorResourceNotFound (GetType resource) (do_Name opts) (do_Mesh opts)), db')
      else (Ok (), db')
  end.

Definition scan_get (row : list sqlval) : option (string * Z * Z * Z) :=
  match row with
  | [SText spec; SInt version; STime creationTime; STime modificationTime] =>
      Some (spec, version, creationTime, modificationTime)
  | _ => None
  end.

(** The message of the resource is filled before its metadata is set. *)
Definition postgres_Get (db : Db) (resource : Object) (fs : list GetOptionsFunc) : res unit * Object :=
  let opts := NewGetOptions fs in
  let statement := "SELECT spec, version, creation_time, modification_time FROM resources WHERE name=$1 AND mesh=$2 AND type=$3;" in
  match Row_Scan (db_Query db statement [SText (go_Name opts); SText (go_Mesh opts); SText (GetType resource)]) scan_get with
  | ErrNoRows => (Err (ErrorResourceNotFound (GetType resource) (go_Name opts) (go_Mesh opts)), resource)
  | ScanErr err => (Err (Wrapf err "failed to execute query: %s" [AStr statement]), resource)
  | ScanOk (content, version, creationTime, modificationTime) =>
      match FromJSON content (o_Spec resource) with
      | (Panic, spec) => (Panic, mkObject (o_Meta resource) spec)
      | (Err err, spec) => (Err (Wrapf err "failed to convert json to spec" []), mkObject (o_Meta resource) spec)
      | (Ok _, spec) =>
          let meta := resourceMetaObject (go_Name opts) (go_Mesh opts) (itoa version) creationTime modificationTime in
          let resource := mkObject (Some meta) spec in
          if negb (String.eqb (go_Version opts) "") && negb (String.eqb (GetVersion (observe meta)) (go_Version opts))
          then (Err (ErrorResourcePreconditionFailed (GetType resource) (go_Name opts) (go_Mesh opts)), resource)
          else (Ok (), resource)
      end
  end.

Definition scan_item (row : list sqlval) : option (string * string * string * Z * Z * Z) :=
  match row with
  | [SText name; SText mesh; SText spec; SInt version; STime creationTime; STime modificationTime] =>
      Some (name, mesh, spec, version, creationTime, modificationTime)
  | _ => None
  end.

(** The times are read and dropped. *)
Definition rowToItem (resources : ObjectList) (row : list sqlval) : res Object :=
  match scan_item row with
  | None => Err (Wrapf scan_error "failed to retrieve elements from query" [])
  | Some (name, mesh, content, version, _, _) =>
      let item := NewItem resources in
      match FromJSON content (o_Spec item) with
      | (Panic, _) => Panic
      | (Err err, _) => Err (Wrapf err "failed to convert json to spec" [])
      | (Ok _, spec) => Ok (mkObject (Some (resourceMetaObject name mesh (itoa version) zeroTime zeroTime)) spec)
      end
  end.

(** The loop over the rows; [items] counts them. *)
Fixpoint rows_loop (paginateResults : bool) (pageSize : Z) (rows : list (list sqlval)) (items : Z) (resources : ObjectList)
  : res unit * (Z * ObjectList) :=
  match rows with
  | [] => (Ok (), (items, resources))
  | row :: rest =>
      match rowToItem resources row with
      | Panic => (Panic, (items, resources))
      | Err e => (Err e, (items, resources))
      | Ok item =>
          if negb paginateResults || (items <? pageSize)
          then match AddItem resources item with
               | Ok resources' => rows_loop paginateResults pageSize rest (items + 1) resources'
               | Err e => (Err e, (items, resources))
               | Panic => (Panic, (items, resources))
               end
          else rows_loop paginateResults pageSize rest (items + 1) resources
      end
  end.

(** The statement, with its arguments, of a listing: the text before the page. *)
Definition list_statement (itemType : string) (opts : ListOptions) : string * list sqlval :=
  let statement := "SELECT name, mesh, spec, version, creation_time, modification_time FROM resources WHERE type=$1" in
  let statementArgs := [SText itemType] in
  let argsIndex := 1 in
  let '(statement, statementArgs) :=
    if negb (String.eqb (lo_Mesh opts) "")
    then let argsIndex := argsIndex + 1 in
         (statement +:+ sprintf " AND mesh=$%d" [AInt argsIndex], statementArgs ++ [SText (lo_Mesh opts)])
    else (statement, statementArgs) in
  (statement +:+ " ORDER BY name, mesh", statementArgs).

(** What ended the rows is not looked at. *)
Definition postgres_List (db : Db) (resources : ObjectList) (args : list ListOptionsFunc) : res unit * ObjectList :=
  let opts := NewListOptions args in
  let '(statement, statementArgs) := list_statement (GetItemType resources) opts in
  let paginateResults := negb (lo_PageSize opts =? 0) in
  let parsed := if negb (String.eqb (lo_PageOffset opts) "")
                then match atoi (lo_PageOffset opts) with Ok o => Some o | _ => None end
                else Some 0 in
  match parsed with
  | None => (Err ErrorInvalidOffset, resources)
  | Some offset =>
      let statement := if paginateResults
                       then statement +:+ sprintf " LIMIT %d OFFSET %d" [AInt (wrap_int (lo_PageSize opts + 1)); AInt offset]
                       else statement in
      match db_Query db statement statementArgs with
      | inl err => (Err (Wrapf err "failed to execute query: %s" [AStr statement]), resources)
      | inr rows =>
          match rows_loop paginateResults (lo_PageSize opts) (rows_Data rows) 0 resources with
          | (Ok _, (items, resources)) =>
              if paginateResults
              then let nextOffset := if lo_PageSize opts <? items then itoa (wrap_int (offset + lo_PageSize opts)) else "" in
                   (Ok (), SetPagination resources nextOffset)
              else (Ok (), resources)
          | (err, (_, resources)) => (err, resources)
          end
      end
  end.

#[global] Instance postgres_ResourceStore : ResourceStore Db :=
  {| store_Create := postgres_Create; store_Update := postgres_Update; store_Delete := postgres_Delete;
     store_Get := postgres_Get; store_List := postgres_List |}.
End Store.

(** ** The table *)

(** The primary key: name, namespace, mesh, type. *)
Record tkey : Type := mkTkey { tk_name : string; tk_namespace : string; tk_mesh : string; tk_type : string }.
#[global] Instance tkey_eq_dec : EqDecision tkey.
Proof. solve_decision. Defined.
#[global] Program Instance tkey_countable : Countable tkey :=
  inj_countable' (λ k, (tk_name k, tk_namespace k, tk_mesh k, tk_type k)) (λ '(n, ns, m, t), mkTkey n ns m t) _.
Next Obligation. by intros []. Qed.

Record trow : Type := mkTrow { tr_version : Z; tr_spec : string; tr_created : Z; tr_modified : Z }.
Abbreviation table_state := (gmap tkey trow).

(** [UPDATE resources SET ... WHERE ...], [DELETE FROM resources WHERE ...] and
    the rows that a condition selects. *)
Definition update_where (p : tkey → trow → bool) (f : trow → trow) (t : table_state) : table_state :=
  map_imap (λ k r, Some (if p k r then f r else r)) t.
Definition delete_where (p : tkey → trow → bool) (t : table_state) : table_state :=
  filter (λ kr, p kr.1 kr.2 = false) t.
Definition select_where (p : tkey → trow → bool) (t : table_state) : list (tkey * trow) :=
  filter (λ kr, p kr.1 kr.2 = true) (map_to_list t).

Definition named (name mesh type : string) (k : tkey) : bool :=
  String.eqb (tk_name k) name && String.eqb (tk_mesh k) mesh && String.eqb (tk_type k) type.
Definition typed (type : string) (mesh : option string) (k : tkey) : bool :=
  String.eqb (tk_type k) type && match mesh with Some mesh => String.eqb (tk_mesh k) mesh | None => true end.

(** The order of [ORDER BY name, mesh] for a collation of texts. *)
Definition by_name_mesh (collate : relation string) (x y : tkey * trow) : Prop :=
  (tk_name x.1 ≠ tk_name y.1 ∧ collate (tk_name x.1) (tk_name y.1))
  ∨ (tk_name x.1 = tk_name y.1 ∧ collate (tk_mesh x.1) (tk_mesh y.1)).

(** Rows of an answer: all of them, or the ones before the connection broke. *)
Definition answered (rows : Rows) (all : list (list sqlval)) : Prop :=
  rows_Data rows `prefix_of` all ∧ (rows_Err rows = None → rows_Data rows = all).

Definition get_columns (kr : tkey * trow) : list sqlval :=
  [SText (tr_spec kr.2); SInt (tr_version kr.2); STime (tr_created kr.2); STime (tr_modified kr.2)].
Definition item_columns (kr : tkey * trow) : list sqlval :=
  [SText (tk_name kr.1); SText (tk_mesh kr.1); SText (tr_spec kr.2); SInt (tr_version kr.2);
   STime (tr_created kr.2); STime (tr_modified kr.2)].

Definition int4 (z : Z) : Prop := - 2 ^ 31 ≤ z < 2 ^ 31.

(** What the statements do.  A statement may fail, with the table as it was or,
    when the connection broke after it was carried out, as it should have become.
    The version is an [integer] of four bytes.
    Times are kept with the precision of a [TIMESTAMP]; a page is a limit and an
    offset, neither negative. *)
Class LawfulDatabase (Db : Type) `{Database Db} : Type := {
  table : Db → table_state;
  timestamp : Z → Z;
  collate : relation string;
  collate_order : PartialOrder collate;
  collate_total : base.Total collate;
  column_law db k r : table db !! k = Some r → int4 (tr_version r);
  insert_law db name namespace mesh type version spec created modified :
    let k := mkTkey name namespace mesh type in
    let inserted := <[k := mkTrow version spec (timestamp created) (timestamp modified)]> (table db) in
    let '(result, db') := db_Exec db "INSERT INTO resources VALUES ($1, $2, $3, $4, $5, $6, $7, $8);"
      [SText name; SText namespace; SText mesh; SText type; SInt version; SText spec; STime created; STime modified] in
    match result with
    | inr n => n = 1 ∧ table db !! k = None ∧ table db' = inserted
    | inl e =>
        (table db' = table db ∨ (table db !! k = None ∧ table db' = inserted))
        ∧ (contains (error_string e) duplicateKeyErrorMsg = true → is_Some (table db !! k) ∧ table db' = table db)
    end;
  update_law db spec version modified name mesh type old :
    let p k r := named name mesh type k && (tr_version r =? old) in
    let updated := update_where p (λ r, mkTrow version spec (tr_created r) (timestamp modified)) (table db) in
    let '(result, db') := db_Exec db
      "UPDATE resources SET spec=$1, version=$2, modification_time=$3 WHERE name=$4 AND mesh=$5 AND type=$6 AND version=$7;"
      [SText spec; SInt version; STime modified; SText name; SText mesh; SText type; SInt old] in
    match result with
    | inr n => n = Z.of_nat (length (select_where p (table db))) ∧ table db' = updated
    | inl e => table db' = table db ∨ table db' = updated
    end;
  delete_law db name type mesh :
    let p k (_ : trow) := named name mesh type k in
    let '(result, db') := db_Exec db "DELETE FROM resources WHERE name=$1 AND type=$2 AND mesh=$3"
      [SText name; SText type; SText mesh] in
    match result with
    | inr n => n = Z.of_nat (length (select_where p (table db))) ∧ table db' = delete_where p (table db)
    | inl e => table db' = table db ∨ table db' = delete_where p (table db)
    end;
  get_law db name mesh type rows :
    db_Query db "SELECT spec, version, creation_time, modification_time FROM resources WHERE name=$1 AND mesh=$2 AND type=$3;"
      [SText name; SText mesh; SText type] = inr rows →
    ∃ all, all ≡ₚ select_where (λ k _, named name mesh type k) (table db) ∧ answered rows (get_columns <$> all);
  list_law db type mesh page rows :
    db_Query db
      ("SELECT name, mesh, spec, version, creation_time, modification_time FROM resources WHERE type=$1"
       +:+ (match mesh with Some _ => " AND mesh=$2" | None => "" end) +:+ " ORDER BY name, mesh"
       +:+ match page with
           | Some (limit, offset) => " LIMIT " +:+ itoa limit +:+ " OFFSET " +:+ itoa offset
           | None => ""
           end)
      (SText type :: match mesh with Some mesh => [SText mesh] | None => [] end) = inr rows →
    match page with Some (limit, offset) => 0 ≤ limit ∧ 0 ≤ offset | None => True end
    ∧ ∃ all, all ≡ₚ select_where (λ k _, typed type mesh k) (table db) ∧ StronglySorted (by_name_mesh collate) all
        ∧ answered rows (item_columns <$> match page with
                                          | Some (limit, offset) => take (Z.to_nat limit) (drop (Z.to_nat offset) all)
                                          | None => all
                                          end);
}.

(** *** Statements that name one row *)

(** The store writes an empty namespace only. *)
Definition no_namespaces (t : table_state) : Prop := ∀ k r, t !! k = Some r → tk_namespace k = "".

Definition row_key (type name mesh : string) : tkey := mkTkey name "" mesh type.

Lemma named_key t name mesh type k r :
  no_namespaces t → t !! k = Some r → named name mesh type k = bool_decide (k = row_key type name mesh).
Proof.
  intros Hns Hk. specialize (Hns k r Hk). destruct k as [n ns m ty]. simpl in *. subst ns.
  unfold named, row_key. simpl. apply eq_bool_prop_intro. rewrite bool_decide_spec, !andb_True, !Is_true_true, !String.eqb_eq.
  naive_solver.
Qed.

Lemma select_where_elem p t k r : (k, r) ∈ select_where p t ↔ t !! k = Some r ∧ p k r = true.
Proof. unfold select_where. rewrite list_elem_of_filter, elem_of_map_to_list. naive_solver. Qed.

Lemma select_where_NoDup p t : NoDup (select_where p t).
Proof. apply NoDup_filter, NoDup_map_to_list. Qed.

Lemma select_named t name mesh type q :
  no_namespaces t →
  select_where (λ k r, named name mesh type k && q r) t
  = match t !! row_key type name mesh with
    | Some r => if q r then [(row_key type name mesh, r)] else []
    | None => []
    end.
Proof.
  intros Hns. set (k := row_key type name mesh).
  assert (∀ x, x ∈ select_where (λ k r, named name mesh type k && q r) t ↔ x.1 = k ∧ t !! k = Some x.2 ∧ q x.2 = true) as Hin.
  { intros [k' r']. rewrite select_where_elem. simpl. split.
    - intros [Hk Hp]. rewrite (named_key t _ _ _ _ _ Hns Hk), andb_true_iff, bool_decide_eq_true in Hp.
      destruct Hp as [-> ?]. done.
    - intros (-> & Hk & Hq). rewrite (named_key t _ _ _ _ _ Hns Hk), bool_decide_eq_true_2 by done. done. }
  assert (∀ l, NoDup l → (∀ x, x ∈ select_where (λ k r, named name mesh type k && q r) t ↔ x ∈ l) →
    select_where (λ k r, named name mesh type k && q r) t ≡ₚ l) as Hperm.
  { intros l Hl Hx. apply NoDup_Permutation; [apply select_where_NoDup|done|done]. }
  destruct (t !! k) as [r|] eqn:Ek; [destruct (q r) eqn:Eq|].
  - apply Permutation_singleton_r, Hperm; [apply NoDup_singleton|]. intros [k' r'].
    rewrite Hin, list_elem_of_singleton. naive_solver.
  - apply Permutation_nil_r, Hperm; [constructor|]. intros [k' r']. rewrite Hin, elem_of_nil. naive_solver congruence.
  - apply Permutation_nil_r, Hperm; [constructor|]. intros [k' r']. rewrite Hin, elem_of_nil. naive_solver congruence.
Qed.

Lemma select_key t name mesh type :
  no_namespaces t →
  select_where (λ k _, named name mesh type k) t
  = match t !! row_key type name mesh with Some r => [(row_key type name mesh, r)] | None => [] end.
Proof.
  intros Hns. rewrite <- (select_named t name mesh type (λ _, true) Hns).
  unfold select_where. apply list_filter_iff. intros x. by rewrite andb_true_r.
Qed.

Lemma update_named t name mesh type q f :
  no_namespaces t →
  update_where (λ k r, named name mesh type k && q r) f t
  = match t !! row_key type name mesh with
    | Some r => if q r then <[row_key type name mesh := f r]> t else t
    | None => t
    end.
Proof.
  intros Hns. apply map_eq. intros k'. unfold update_where. rewrite map_lookup_imap.
  destruct (t !! k') as [r'|] eqn:E'; simpl.
  - rewrite (named_key t _ _ _ _ _ Hns E').
    destruct (decide (k' = row_key type name mesh)) as [->|Hne].
    + rewrite bool_decide_eq_true_2, E' by done. simpl. destruct (q r'); [by rewrite lookup_insert_eq|done].
    + rewrite bool_decide_eq_false_2 by done. simpl.
      destruct (t !! row_key type name mesh) as [r|]; [destruct (q r)|]; [|done..]. by rewrite lookup_insert_ne.
  - destruct (t !! row_key type name mesh) as [r|] eqn:E; [destruct (q r)|]; [|done..].
    rewrite lookup_insert_ne; [done|]. intros <-. congruence.
Qed.

Lemma delete_named t name mesh type :
  no_namespaces t →
  delete_where (λ k _, named name mesh type k) t = delete (row_key type name mesh) t.
Proof.
  intros Hns. apply map_eq. intros k'. unfold delete_where. apply option_eq. intros r'.
  rewrite map_lookup_filter_Some, lookup_delete_Some. simpl. split.
  - intros [Hk Hp]. rewrite (named_key t _ _ _ _ _ Hns Hk), bool_decide_eq_false in Hp. by split.
  - intros [Hne Hk]. rewrite (named_key t _ _ _ _ _ Hns Hk), bool_decide_eq_false. by split.
Qed.

(** ** The specification: a finite map *)

Section Specification.
Context `{Jsonpb} (timestamp : Z → Z).

Definition row_meta (name mesh : string) (r : trow) : Meta :=
  resourceMetaObject name mesh (itoa (tr_version r)) (tr_created r) (tr_modified r).

Definition spec_Create (t : table_state) (o : Object) (fs : list CreateOptionsFunc) : res unit * (table_state * Object) :=
  let opts := NewCreateOptions fs in
  let key := row_key (GetType o) (co_Name opts) (co_Mesh opts) in
  match ToJSON (o_Spec o) with
  | Panic => (Panic, (t, o))
  | Err e => (Err (Wrapf e "failed to convert spec to json" []), (t, o))
  | Ok content =>
      match t !! key with
      | Some _ => (Err (ErrorResourceAlreadyExists (GetType o) (co_Name opts) (co_Mesh opts)), (t, o))
      | None =>
          let ct := co_CreationTime opts in
          (Ok (), (<[key := mkTrow 0 content (timestamp ct) (timestamp ct)]> t,
                   SetMeta o (Some (resourceMetaObject (co_Name opts) (co_Mesh opts) "0" ct ct))))
      end
  end.

(** An update that is based on the version of the row stores the next one; the
    resource keeps the version it had and loses its times. *)
Definition spec_Update (t : table_state) (o : Object) (fs : list UpdateOptionsFunc) : res unit * (table_state * Object) :=
  match ToJSON (o_Spec o) with
  | Panic => (Panic, (t, o))
  | Err e => (Err e, (t, o))
  | Ok content =>
      match o_Meta o with
      | None => (Panic, (t, o))
      | Some meta =>
          let name := GetName (observe meta) in
          let mesh := GetMesh (observe meta) in
          match atoi (GetVersion (observe meta)) with
          | Panic => (Panic, (t, o))
          | Err e => (Err (Wrapf e "failed to convert meta version to int" []), (t, o))
          | Ok version =>
              match t !! row_key (GetType o) name mesh with
              | Some r =>
                  if tr_version r =? version
                  then (Ok (), (<[row_key (GetType o) name mesh := mkTrow (version + 1) content (tr_created r)
                                   (timestamp (uo_ModificationTime (NewUpdateOptions fs)))]> t,
                                SetMeta o (Some (resourceMetaObject name mesh (itoa version) zeroTime zeroTime))))
                  else (Err (ErrorResourceConflict (GetType o) name mesh), (t, o))
              | None => (Err (ErrorResourceConflict (GetType o) name mesh), (t, o))
              end
          end
      end
  end.

Definition spec_Delete (t : table_state) (o : Object) (fs : list DeleteOptionsFunc) : res unit * (table_state * unit) :=
  let opts := NewDeleteOptions fs in
  let key := row_key (GetType o) (do_Name opts) (do_Mesh opts) in
  match t !! key with
  | None => (Err (ErrorResourceNotFound (GetType o) (do_Name opts) (do_Mesh opts)), (t, ()))
  | Some _ => (Ok (), (delete key t, ()))
  end.

Definition spec_Get (t : table_state) (o : Object) (fs : list GetOptionsFunc) : res unit * Object :=
  let opts := NewGetOptions fs in
  match t !! row_key (GetType o) (go_Name opts) (go_Mesh opts) with
  | None => (Err (ErrorResourceNotFound (GetType o) (go_Name opts) (go_Mesh opts)), o)
  | Some r =>
      match FromJSON (tr_spec r) (o_Spec o) with
      | (Panic, spec) => (Panic, mkObject (o_Meta o) spec)
      | (Err err, spec) => (Err (Wrapf err "failed to convert json to spec" []), mkObject (o_Meta o) spec)
      | (Ok _, spec) =>
          let o' := mkObject (Some (row_meta (go_Name opts) (go_Mesh opts) r)) spec in
          if negb (String.eqb (go_Version opts) "") && negb (String.eqb (itoa (tr_version r)) (go_Version opts))
          then (Err (ErrorResourcePreconditionFailed (GetType o') (go_Name opts) (go_Mesh opts)), o')
          else (Ok (), o')
      end
  end.
End Specification.

(** The error of a statement that failed. *)
Definition query_failure (r : res unit) : Prop :=
  ∃ e format statement, r = Err (Wrapf e format [AStr statement]) ∧ has_prefix "failed to execute query" format = true.

(** A call does what the specification says, or a statement failed: then the
    caller's resource is as it was, and the table is as it was or, after a lost
    answer to a successful statement, as the specification says. *)
Definition agrees {A} (before : table_state * A) (spec actual : res unit * (table_state * A)) : Prop :=
  actual = spec
  ∨ (query_failure actual.1 ∧ actual.2.2 = before.2
     ∧ (actual.2.1 = before.1 ∨ (spec.1 = Ok () ∧ actual.2.1 = spec.2.1))).

(** ** Refinement *)

Section Refinement.
Context `{Hjsonpb : Jsonpb} {Db : Type} `{HDb : Database Db} `{HL : !LawfulDatabase Db}.

(** A row holds a message of the type it is filed under. *)
Definition row_ok (k : tkey) (r : trow) : Prop :=
  tk_namespace k = "" ∧ ∃ spec, jsonpb_Marshal spec = Ok (tr_spec r) ∧ type_name (kind_of_spec spec) = tk_type k.
Definition table_ok (t : table_state) : Prop := map_Forall row_ok t.

Lemma table_ok_namespaces t : table_ok t → no_namespaces t.
Proof. intros Ht k r Hk. by destruct (Ht k r Hk). Qed.

Lemma has_failed e format statement :
  has_prefix "failed to execute query" format = true → query_failure (Err (Wrapf e format [AStr statement])).
Proof. intros Hf. by exists e, format, statement. Qed.

(** What the caller sees of a call, with the table. *)
Definition seen {A} (x : res unit * (Db * A)) : res unit * (table_state * A) := (x.1, (table x.2.1, x.2.2)).

Lemma Create_agrees db o fs :
  agrees (table db, o) (spec_Create timestamp (table db) o fs) (seen (postgres_Create db o fs)).
Proof.
  unfold seen, postgres_Create, spec_Create. destruct (ToJSON (o_Spec o)) as [content|e|]; [|by left..].
  set (opts := NewCreateOptions fs). cbv zeta.
  pose proof (insert_law db (co_Name opts) "" (co_Mesh opts) (GetType o) 0 content (co_CreationTime opts) (co_CreationTime opts)) as Hlaw.
  cbv zeta in Hlaw. destruct (db_Exec db _ _) as [[e|n] db']; unfold row_key.
  - destruct Hlaw as [Hlost Hdup]. destruct (contains (error_string e) duplicateKeyErrorMsg).
    + destruct (Hdup eq_refl) as [[r Hr] Ht]. left. simpl. by rewrite Hr, Ht.
    + right. simpl. split; [by apply has_failed|]. split; [done|].
      destruct Hlost as [->|(Hn & ->)]; [by left|right]. by rewrite Hn.
  - destruct Hlaw as (_ & Hn & Ht). left. simpl. by rewrite Hn, Ht.
Qed.

Lemma Update_agrees db o fs :
  table_ok (table db) →
  agrees (table db, o) (spec_Update timestamp (table db) o fs) (seen (postgres_Update db o fs)).
Proof.
  intros Hok. unfold seen, postgres_Update, spec_Update. destruct (ToJSON (o_Spec o)) as [content|e|]; [|by left..].
  destruct (o_Meta o) as [meta|]; [|by left]. destruct (atoi _) as [version|e|] eqn:Ev; [|by left..]. cbv zeta.
  pose proof (update_law db content (wrap_int (version + 1)) (uo_ModificationTime (NewUpdateOptions fs))
    (GetName (observe meta)) (GetMesh (observe meta)) (GetType o) version) as Hlaw.
  cbv zeta in Hlaw. rewrite select_named, update_named in Hlaw by by apply table_ok_namespaces.
  destruct (table db !! row_key (GetType o) (GetName (observe meta)) (GetMesh (observe meta))) as [r|] eqn:Er.
  2: { destruct (db_Exec db _ _) as [[e|n] db']; simpl in *.
    - right. split; [by apply has_failed|]. split; [done|]. naive_solver.
    - destruct Hlaw as (-> & Ht). left. simpl. by rewrite Ht. }
  destruct (Z.eqb_spec (tr_version r) version) as [<-|Hne].
  - assert (wrap_int (tr_version r + 1) = tr_version r + 1) as Hw.
    { pose proof (column_law db _ _ Er) as Hv. unfold int4 in Hv. apply wrap_int_id. lia. }
    rewrite Hw in *. destruct (db_Exec db _ _) as [[e|n] db']; simpl in *.
    + right. split; [by apply has_failed|]. split; [done|]. destruct Hlaw as [->| ->]; [by left|by right].
    + destruct Hlaw as (-> & Ht). left. simpl. by rewrite Ht.
  - destruct (db_Exec db _ _) as [[e|n] db']; simpl in *.
    + right. split; [by apply has_failed|]. split; [done|]. naive_solver.
    + destruct Hlaw as (-> & Ht). left. simpl. by rewrite Ht.
Qed.

Lemma Delete_agrees db o fs :
  table_ok (table db) →
  let '(r, db') := postgres_Delete db o fs in
  agrees (table db, ()) (spec_Delete (table db) o fs) (r, (table db', ())).
Proof.
  intros Hok. unfold postgres_Delete, spec_Delete. set (opts := NewDeleteOptions fs). cbv zeta.
  pose proof (delete_law db (do_Name opts) (GetType o) (do_Mesh opts)) as Hlaw. cbv zeta in Hlaw.
  rewrite delete_named in Hlaw by by apply table_ok_namespaces.
  rewrite select_key in Hlaw by by apply table_ok_namespaces.
  destruct (table db !! row_key _ _ _) as [r|] eqn:Er; destruct (db_Exec db _ _) as [[e|n] db']; simpl in *.
  - right. split; [by apply has_failed|]. split; [done|]. destruct Hlaw as [->| ->]; [by left|by right].
  - destruct Hlaw as [-> Ht]. left. simpl. by rewrite Ht.
  - right. split; [by apply has_failed|]. split; [done|]. left. simpl. destruct Hlaw as [->| ->]; [done|].
    by apply delete_id.
  - destruct Hlaw as [-> Ht]. left. simpl. by rewrite Ht, delete_id.
Qed.

Lemma Get_agrees db o fs :
  table_ok (table db) →
  postgres_Get db o fs = spec_Get (table db) o fs
  ∨ (query_failure (postgres_Get db o fs).1 ∧ (postgres_Get db o fs).2 = o).
Proof.
  intros Hok. unfold postgres_Get, spec_Get. set (opts := NewGetOptions fs). cbv zeta.
  destruct (db_Query db _ _) as [e|rows] eqn:Eq; [right; simpl; split; [by apply has_failed|done]|].
  apply get_law in Eq as (all & Hall & Hpre & Herr). rewrite select_key in Hall by by apply table_ok_namespaces.
  unfold Row_Scan. destruct (rows_Data rows) as [|row rest] eqn:Ed.
  - destruct (rows_Err rows) as [e|]; [right; simpl; split; [by apply has_failed|done]|].
    specialize (Herr eq_refl). destruct (table db !! row_key _ _ _) as [r|]; [|by left].
    apply Permutation_singleton_r in Hall as ->. done.
  - destruct (table db !! row_key _ _ _) as [r|].
    2: { apply Permutation_nil_r in Hall as ->. destruct Hpre as [k Hk]. done. }
    apply Permutation_singleton_r in Hall as ->. destruct Hpre as [k Hk]. injection Hk as <- _.
    unfold get_columns. cbn [scan_get fst snd].
    destruct (rows_Close rows) as [e|]; [right; simpl; split; [by apply has_failed|done]|by left].
Qed.

(** *** The invariant of the table *)

Inductive postgres_step : Db → Db → Prop :=
| pstep_Create db o fs : postgres_step db (postgres_Create db o fs).2.1
| pstep_Update db o fs : postgres_step db (postgres_Update db o fs).2.1
| pstep_Delete db o fs : postgres_step db (postgres_Delete db o fs).2.

Lemma agrees_ok {A} (before : table_state * A) spec actual :
  agrees before spec actual → table_ok before.1 → table_ok spec.2.1 → table_ok actual.2.1.
Proof. intros [->|(_ & _ & [->|[_ ->]])]; done. Qed.

Lemma row_ok_own o name mesh v content ct mt :
  ToJSON (o_Spec o) = Ok content → row_ok (row_key (GetType o) name mesh) (mkTrow v content ct mt).
Proof.
  unfold ToJSON. intros (c & Hc & [= <-])%rbind_Ok. split; [done|]. by exists (o_Spec o).
Qed.

Lemma spec_Create_ok t o fs : table_ok t → table_ok (spec_Create timestamp t o fs).2.1.
Proof.
  intros Ht. unfold spec_Create. destruct (ToJSON (o_Spec o)) as [content|e|] eqn:E; [|done..].
  cbv zeta. destruct (t !! _); [done|]. cbn [fst snd]. apply map_Forall_insert_2; [|done]. by apply row_ok_own.
Qed.

Lemma spec_Update_ok t o fs : table_ok t → table_ok (spec_Update timestamp t o fs).2.1.
Proof.
  intros Ht. unfold spec_Update. destruct (ToJSON (o_Spec o)) as [content|e|] eqn:E; [|done..].
  destruct (o_Meta o) as [meta|]; [|done]. destruct (atoi _); [|done..]. cbv zeta. destruct (t !! _); [|done].
  destruct (_ =? _); [|done]. cbn [fst snd]. apply map_Forall_insert_2; [|done]. by apply row_ok_own.
Qed.

Lemma spec_Delete_ok t o fs : table_ok t → table_ok (spec_Delete t o fs).2.1.
Proof. intros Ht. unfold spec_Delete. cbv zeta. destruct (t !! _); [by apply map_Forall_delete|done]. Qed.

Lemma postgres_step_ok db db' : postgres_step db db' → table_ok (table db) → table_ok (table db').
Proof.
  intros [db1 o fs|db1 o fs|db1 o fs] Hok.
  - by apply (agrees_ok _ _ _ (Create_agrees db1 o fs)); [|apply spec_Create_ok].
  - by apply (agrees_ok _ _ _ (Update_agrees db1 o fs Hok)); [|apply spec_Update_ok].
  - pose proof (Delete_agrees db1 o fs Hok) as Ha. destruct (postgres_Delete db1 o fs) as [r db2].
    by apply (agrees_ok _ _ _ Ha); [|apply spec_Delete_ok].
Qed.

Lemma postgres_reachable_ok db0 db : table db0 = ∅ → rtc postgres_step db0 db → table_ok (table db).
Proof.
  intros H0. assert (table_ok (table db0)) as Hok by (rewrite H0; by apply map_Forall_empty).
  clear H0. induction 1; eauto using postgres_step_ok.
Qed.

(** C26: The PostgreSQL store implements a finite map keyed by type, name and mesh:
    in every state that is reached from an empty table, each of Create, Update,
    Delete and Get does what the specification says, with its results, errors and
    changes of the resource, or a statement failed; then the error says so, the
    caller's resource is unchanged, and the table is as before or, when the answer
    to a successful statement was lost, as after.  Every row is filed under an
    empty namespace and holds a message of its type. *)
Theorem postgres_refines_map db0 db :
  table db0 = ∅ → rtc postgres_step db0 db →
  table_ok (table db)
  ∧ (∀ o fs, agrees (table db, o) (spec_Create timestamp (table db) o fs) (seen (postgres_Create db o fs)))
  ∧ (∀ o fs, agrees (table db, o) (spec_Update timestamp (table db) o fs) (seen (postgres_Update db o fs)))
  ∧ (∀ o fs, let '(r, db') := postgres_Delete db o fs in
       agrees (table db, ()) (spec_Delete (table db) o fs) (r, (table db', ())))
  ∧ (∀ o fs, postgres_Get db o fs = spec_Get (table db) o fs
       ∨ (query_failure (postgres_Get db o fs).1 ∧ (postgres_Get db o fs).2 = o)).
Proof.
  intros H0 Hr. pose proof (postgres_reachable_ok db0 db H0 Hr) as Hok. split; [exact Hok|]. split_and!; intros o fs.
  - apply Create_agrees.
  - by apply Update_agrees.
  - by apply Delete_agrees.
  - by apply Get_agrees.
Qed.

(** *** Updating a resource twice *)

Lemma Update_Ok db o fs db' o' :
  table_ok (table db) → postgres_Update db o fs = (Ok (), (db', o')) →
  ∃ meta version r content,
    o_Meta o = Some meta ∧ atoi (GetVersion (observe meta)) = Ok version
    ∧ table db !! row_key (GetType o) (GetName (observe meta)) (GetMesh (observe meta)) = Some r
    ∧ tr_version r = version ∧ int4 (version + 1)
    ∧ table db' !! row_key (GetType o) (GetName (observe meta)) (GetMesh (observe meta))
      = Some (mkTrow (version + 1) content (tr_created r) (timestamp (uo_ModificationTime (NewUpdateOptions fs))))
    ∧ o' = SetMeta o (Some (resourceMetaObject (GetName (observe meta)) (GetMesh (observe meta)) (itoa version) zeroTime zeroTime))
    ∧ ToJSON (o_Spec o) = Ok content.
Proof.
  intros Hok Hu. pose proof (Update_agrees db o fs Hok) as Ha. rewrite Hu in Ha. unfold seen in Ha. cbn [fst snd] in Ha.
  destruct Ha as [Ha|[(e & f & s & Hf & _) _]]; [|done]. symmetry in Ha.
  unfold spec_Update in Ha. destruct (ToJSON (o_Spec o)) as [content|e|]; [|done..].
  destruct (o_Meta o) as [meta|]; [|done]. destruct (atoi _) as [version|e|] eqn:Ev; [|done..]. cbv zeta in Ha.
  destruct (table db !! _) as [r|] eqn:Er; [|done]. destruct (Z.eqb_spec (tr_version r) version) as [Hv|]; [|done].
  injection Ha as Ht Ho. subst version.
  assert (table db' !! row_key (GetType o) (GetName (observe meta)) (GetMesh (observe meta))
    = Some (mkTrow (tr_version r + 1) content (tr_created r) (timestamp (uo_ModificationTime (NewUpdateOptions fs))))) as Hrow.
  { by rewrite <- Ht, lookup_insert_eq. }
  exists meta, (tr_version r), r, content. split_and!; try done. apply (column_law _ _ _ Hrow).
Qed.

Lemma o_Kind_SetMeta o m : GetType (SetMeta o m) = GetType o.
Proof. done. Qed.

(** A resource that was updated cannot be updated again.  Update stores the
    next version but gives the resource the version it had, so a second Update
    based on the metadata that the first one set is refused with a conflict,
    although nobody else wrote, and changes nothing; what is read from the store
    has the next version. *)
Theorem postgres_Update_stale db0 db o fs db' o' o2 fs2 :
  table db0 = ∅ → rtc postgres_step db0 db →
  postgres_Update db o fs = (Ok (), (db', o')) →
  o_Meta o2 = o_Meta o' → GetType o2 = GetType o → is_ok (ToJSON (o_Spec o2)) = true →
  let meta := default nilMeta (observe <$> o_Meta o') in
  (let '(r2, (db2, o2')) := postgres_Update db' o2 fs2 in
   (r2 = Err (ErrorResourceConflict (GetType o) (GetName meta) (GetMesh meta)) ∨ query_failure r2)
   ∧ table db2 = table db' ∧ o2' = o2)
  ∧ ∃ version, - 2 ^ 31 ≤ version < 2 ^ 31 ∧ GetVersion meta = itoa version
      ∧ tr_version <$> table db' !! row_key (GetType o) (GetName meta) (GetMesh meta) = Some (version + 1).
Proof.
  intros H0 Hr Hu Hm Ht Hj. pose proof (postgres_reachable_ok db0 db H0 Hr) as Hok.
  assert (table_ok (table db')) as Hok'.
  { apply (postgres_step_ok db); [|done]. pose proof (pstep_Update db o fs) as Hs. by rewrite Hu in Hs. }
  destruct (Update_Ok db o fs db' o' Hok Hu) as (meta & version & r & content & Hmeta & Hv & Hrow & <- & Hint & Hrow' & -> & _).
  cbn [SetMeta o_Meta] in *. cbv zeta. cbn [fmap option_fmap option_map default observe resourceMetaObject GetName GetMesh GetVersion id].
  pose proof (column_law db _ _ Hrow) as Hc. unfold int4 in Hc, Hint.
  split; [|exists (tr_version r); split; [lia|]; split; [done|]; by rewrite Hrow'].
  pose proof (Update_agrees db' o2 fs2 Hok') as Ha. unfold spec_Update in Ha. rewrite Hm, Ht in Ha.
  destruct (ToJSON (o_Spec o2)) as [content2|e|]; [|done..]. cbn [observe resourceMetaObject GetName GetMesh GetVersion] in Ha.
  rewrite atoi_itoa in Ha by lia. cbv zeta in Ha. rewrite Hrow' in Ha. cbn [tr_version] in Ha.
  rewrite (proj2 (Z.eqb_neq (tr_version r + 1) (tr_version r))) in Ha by lia.
  destruct (postgres_Update db' o2 fs2) as [r2 [db2 o2']]. unfold seen in Ha. cbn [fst snd] in Ha.
  destruct Ha as [Ha|(Hf & Ho & [Hdb|[Hdb _]])]; [injection Ha as -> -> ->; auto|by auto|done].
Qed.
End Refinement.

(** ** Listings *)

Section Listing.
Context `{Hjsonpb : Jsonpb} `{Hlaw : !LawfulJsonpb} {Db : Type} `{HDb : Database Db} `{HL : !LawfulDatabase Db}.

(** An item: the message of the row and its version, but not its times. *)
Definition item_of (k : Kind) (kr : tkey * trow) : Object :=
  mkObject (Some (resourceMetaObject (tk_name kr.1) (tk_mesh kr.1) (itoa (tr_version kr.2)) zeroTime zeroTime))
    (FromJSON (tr_spec kr.2) (zero_spec k)).2.

Definition row_readable (k : Kind) (kr : tkey * trow) : Prop := row_ok kr.1 kr.2 ∧ tk_type kr.1 = type_name k.

Lemma rowToItem_ok rs kr :
  row_readable (ol_Kind rs) kr →
  rowToItem rs (item_columns kr) = Ok (item_of (ol_Kind rs) kr) ∧ o_Kind (item_of (ol_Kind rs) kr) = ol_Kind rs.
Proof.
  intros [(_ & spec & Hm & Hk) Ht]. assert (kind_of_spec spec = ol_Kind rs) as Hkind by (apply type_name_inj; congruence).
  unfold rowToItem, item_of, item_columns, FromJSON. cbn [scan_item NewItem new_object o_Spec fst snd].
  unfold NewItem, new_object. cbn [o_Spec]. rewrite <- Hkind, (unmarshal_marshal spec _ Hm). done.
Qed.

Definition kept (paginate : bool) (size items : Z) {A} (l : list A) : list A :=
  if paginate then take (Z.to_nat (size - items)) l else l.

Lemma rows_loop_ok paginate size l items rs :
  0 ≤ items → Forall (row_readable (ol_Kind rs)) l →
  rows_loop paginate size (item_columns <$> l) items rs
  = (Ok (), (items + Z.of_nat (length l),
             mkObjectList (ol_Kind rs) (GetItems rs ++ (item_of (ol_Kind rs) <$> kept paginate size items l)) (NextOffset rs))).
Proof.
  intros Hi Hl. revert items rs Hi Hl; induction l as [|kr l IH]; intros items rs Hi Hl; cbn [fmap list_fmap rows_loop].
  { unfold kept. replace (items + Z.of_nat (length (@nil (tkey * trow)))) with items by (simpl; lia).
    rewrite take_nil. destruct paginate; rewrite app_nil_r; by destruct rs. }
  apply Forall_cons in Hl as [Hkr Hl]. destruct (rowToItem_ok rs kr Hkr) as [-> Hk]. cbn [length].
  destruct (negb paginate || (items <? size)) eqn:Eb.
  - unfold AddItem. rewrite bool_decide_eq_true_2 by done. rewrite IH by (done || lia). cbn [GetItems ol_Kind NextOffset].
    f_equal. f_equal; [lia|f_equal]. rewrite <- app_assoc. f_equal. unfold kept. destruct paginate; [|done].
    simpl in Eb. apply Z.ltb_lt in Eb.
    replace (Z.to_nat (size - items)) with (S (Z.to_nat (size - (items + 1)))) by lia. done.
  - apply orb_false_iff in Eb as [Ep Eb]. apply negb_false_iff in Ep. subst paginate. apply Z.ltb_ge in Eb.
    rewrite IH by (done || lia). f_equal. f_equal; [lia|]. unfold kept.
    by replace (Z.to_nat (size - items)) with 0%nat by lia; replace (Z.to_nat (size - (items + 1))) with 0%nat by lia.
Qed.

(** The rows of a listing, in order. *)
Definition mesh_filter (mesh : string) : option string := if String.eqb mesh "" then None else Some mesh.
Definition listing (db : Db) (k : Kind) (mesh : string) (all : list (tkey * trow)) : Prop :=
  all ≡ₚ select_where (λ key _, typed (type_name k) (mesh_filter mesh) key) (table db)
  ∧ StronglySorted (by_name_mesh collate) all.

Lemma listing_elem db k mesh all key r :
  listing db k mesh all → (key, r) ∈ all ↔ table db !! key = Some r ∧ typed (type_name k) (mesh_filter mesh) key = true.
Proof. intros [Hp _]. rewrite Hp. apply select_where_elem. Qed.

Lemma listing_readable db k mesh all : table_ok (table db) → listing db k mesh all → Forall (row_readable k) all.
Proof.
  intros Hok Hall. apply Forall_forall. intros [key r] [Hr Ht]%(listing_elem db k mesh all key r Hall).
  split; [by apply Hok|]. unfold typed in Ht. by apply andb_true_iff in Ht as [Ht%String.eqb_eq _].
Qed.

Lemma listing_unique db k mesh l1 l2 :
  table_ok (table db) → listing db k mesh l1 → listing db k mesh l2 → l1 = l2.
Proof.
  intros Hok H1 H2. destruct (H1) as [P1 S1], (H2) as [P2 S2].
  apply (StronglySorted_unique_strong (by_name_mesh collate)); [|done|done|by rewrite P1, P2].
  destruct collate_order as [_ Hanti].
  intros [k1 r1] [k2 r2] [Hr1 Ht1]%(listing_elem _ _ _ _ _ _ H1) [Hr2 Ht2]%(listing_elem _ _ _ _ _ _ H2) Hle Hge.
  apply andb_true_iff in Ht1 as [Ht1%String.eqb_eq _], Ht2 as [Ht2%String.eqb_eq _].
  pose proof (table_ok_namespaces _ Hok k1 r1 Hr1) as Hn1. pose proof (table_ok_namespaces _ Hok k2 r2 Hr2) as Hn2.
  destruct k1 as [n1 s1 m1 t1], k2 as [n2 s2 m2 t2]. unfold by_name_mesh in *. simpl in *. subst.
  assert (n1 = n2 ∧ m1 = m2) as [-> ->]; [|congruence].
  destruct Hle as [[Hne Hle]|[-> Hle]], Hge as [[Hne' Hge]|[Heq Hge]]; try congruence.
  - by destruct (Hne (Hanti _ _ Hle Hge)).
  - split; [done|]. by apply Hanti.
Qed.

(** A connection that broke while rows were read. *)
Definition broken (db : Db) : Prop :=
  ∃ statement args rows e, db_Query db statement args = inr rows ∧ rows_Err rows = Some e.

Lemma answered_prefix {A} (f : A → list sqlval) rows (all : list A) :
  answered rows (f <$> all) → ∃ data, rows_Data rows = f <$> data ∧ data `prefix_of` all ∧ (rows_Err rows = None → data = all).
Proof.
  intros [[rest Hpre] Herr]. exists (take (length (rows_Data rows)) all). split_and!.
  - rewrite fmap_take, Hpre. by rewrite take_app_length.
  - exists (drop (length (rows_Data rows)) all). by rewrite take_drop.
  - intros He. specialize (Herr He). rewrite Herr, length_fmap. by apply take_ge.
Qed.

(** The statement of a listing, as the database knows it. *)
Lemma list_statement_text k mesh size offset :
  list_statement (type_name k) (mkListOptions mesh size offset)
  = ("SELECT name, mesh, spec, version, creation_time, modification_time FROM resources WHERE type=$1"
     +:+ (match mesh_filter mesh with Some _ => " AND mesh=$2" | None => "" end) +:+ " ORDER BY name, mesh",
     SText (type_name k) :: match mesh_filter mesh with Some mesh => [SText mesh] | None => [] end).
Proof. unfold list_statement, mesh_filter. cbn [lo_Mesh]. by destruct (String.eqb mesh ""). Qed.

(** One page of a listing by type and mesh. *)
Definition postgres_page (db : Db) (k : Kind) (mesh : string) (size : Z) (offset : string) : res unit * ObjectList :=
  postgres_List db (new_list k) [ListByMesh mesh; ListByPage size offset].

Lemma postgres_page_spec db k mesh size offset o :
  table_ok (table db) → 0 < size < 2 ^ 62 → 0 ≤ o < 2 ^ 62 →
  (offset = "" ∧ o = 0) ∨ (offset ≠ "" ∧ atoi offset = Ok o) →
  query_failure (postgres_page db k mesh size offset).1
  ∨ ∃ all data, listing db k mesh all
      ∧ data `prefix_of` take (Z.to_nat (size + 1)) (drop (Z.to_nat o) all)
      ∧ (data = take (Z.to_nat (size + 1)) (drop (Z.to_nat o) all) ∨ broken db)
      ∧ postgres_page db k mesh size offset
        = (Ok (), mkObjectList k (item_of k <$> take (Z.to_nat size) data)
                    (if size <? Z.of_nat (length data) then itoa (o + size) else "")).
Proof.
  intros Hok Hsize Ho Hoff. unfold postgres_page, postgres_List. cbv zeta.
  change (NewListOptions [ListByMesh mesh; ListByPage size offset]) with (mkListOptions mesh size offset).
  change (GetItemType (new_list k)) with (type_name k). rewrite list_statement_text. cbn [lo_PageSize lo_PageOffset].
  rewrite (proj2 (Z.eqb_neq size 0)) by lia. cbn [negb].
  assert ((if negb (String.eqb offset "") then match atoi offset with Ok o => Some o | _ => None end else Some 0) = Some o) as ->.
  { destruct Hoff as [[-> ->]|[Hne ->]]; [done|]. by rewrite (proj2 (String.eqb_neq _ _) Hne). }
  rewrite !wrap_int_id by lia.
  change (sprintf " LIMIT %d OFFSET %d" [AInt (size + 1); AInt o])
    with (" LIMIT " +:+ itoa (size + 1) +:+ " OFFSET " +:+ itoa o +:+ "").
  rewrite string_app_empty_r, !string_app_assoc.
  destruct (db_Query db _ _) as [e|rows] eqn:Eq; [left; by apply has_failed|right].
  pose proof (list_law db (type_name k) (mesh_filter mesh) (Some (size + 1, o)) rows Eq) as (_ & all & Hp & Hs & Hans).
  apply answered_prefix in Hans as (data & Hdata & Hpre & Hall).
  exists all, data. split; [done|]. split; [done|]. split.
  { destruct (rows_Err rows) as [e|] eqn:Ee; [right|left; auto]. by eexists _, _, rows, e. }
  rewrite Hdata, rows_loop_ok; [|lia|].
  2: { cbn [new_list ol_Kind]. destruct Hpre as [rest Hrest]. apply (Forall_app _ data rest). rewrite <- Hrest.
    apply Forall_take, Forall_drop. by apply (listing_readable db k mesh all Hok). }
  unfold kept, SetPagination. cbn [new_list ol_Kind GetItems NextOffset app]. rewrite Z.sub_0_r, Z.add_0_l.
  done.
Qed.

Lemma postgres_List_all db k mesh :
  table_ok (table db) →
  let call := postgres_List db (new_list k) [ListByMesh mesh] in
  query_failure call.1
  ∨ ∃ all data, listing db k mesh all ∧ data `prefix_of` all ∧ (data = all ∨ broken db)
      ∧ call = (Ok (), mkObjectList k (item_of k <$> data) "").
Proof.
  intros Hok. unfold postgres_List. cbv zeta.
  change (NewListOptions [ListByMesh mesh]) with (mkListOptions mesh 0 "").
  change (GetItemType (new_list k)) with (type_name k). rewrite list_statement_text.
  cbn [lo_PageSize lo_PageOffset Z.eqb negb String.eqb].
  destruct (db_Query db _ _) as [e|rows] eqn:Eq; [left; by apply has_failed|right].
  pose proof (list_law db (type_name k) (mesh_filter mesh) None rows) as Hl.
  rewrite string_app_empty_r in Hl. destruct (Hl Eq) as (_ & all & Hp & Hs & Hans). clear Hl.
  apply answered_prefix in Hans as (data & Hdata & Hpre & Hall).
  exists all, data. split; [done|]. split; [done|]. split.
  { destruct (rows_Err rows) as [e|] eqn:Ee; [right|left; auto]. by eexists _, _, rows, e. }
  rewrite Hdata, rows_loop_ok; [|lia|].
  2: { cbn [new_list ol_Kind]. destruct Hpre as [rest Hrest]. apply (Forall_app _ data rest). rewrite <- Hrest.
    by apply (listing_readable db k mesh all Hok). }
  done.
Qed.

(** Following the offsets of the pages until there is no next page, or an error;
    [None] when the fuel ran out. *)
Fixpoint postgres_pages (fuel : nat) (db : Db) (k : Kind) (mesh : string) (size : Z) (offset : string)
  : option (res unit * list Object) :=
  match fuel with
  | O => None
  | S fuel' =>
      match postgres_page db k mesh size offset with
      | (Ok _, l) =>
          if String.eqb (NextOffset l) "" then Some (Ok (), GetItems l)
          else (λ rest, (rest.1, GetItems l ++ rest.2)) <$> postgres_pages fuel' db k mesh size (NextOffset l)
      | (err, _) => Some (err, [])
      end
  end.

Lemma pages_spec fuel db k mesh size offset o all :
  table_ok (table db) → ¬ broken db → listing db k mesh all → Z.of_nat (length all) < 2 ^ 61 →
  0 < size < 2 ^ 61 → 0 ≤ o < 2 ^ 62 → (offset = "" ∧ o = 0) ∨ (offset ≠ "" ∧ atoi offset = Ok o) →
  Z.of_nat (length all) - o < Z.of_nat fuel → (0 < fuel)%nat →
  ∃ r items, postgres_pages fuel db k mesh size offset = Some (r, items)
    ∧ (query_failure r ∨ (r = Ok () ∧ items = item_of k <$> drop (Z.to_nat o) all)).
Proof.
  intros Hok Hbroken Hall Hlen Hsize. revert offset o; induction fuel as [|fuel IH]; intros offset o Ho Hoff Hf Hpos; [lia|].
  cbn [postgres_pages].
  destruct (postgres_page_spec db k mesh size offset o Hok ltac:(lia) Ho Hoff)
    as [Hfail|(all' & data & Hall' & _ & [Hdata|?] & ->)]; [| |done].
  { destruct (postgres_page db k mesh size offset) as [r l]. destruct Hfail as (e & f & s & Hr & Hp). simpl in Hr. subst r.
    eexists _, _. split; [done|]. left. by apply has_failed. }
  rewrite (listing_unique db k mesh all' all Hok Hall' Hall) in Hdata. cbn [NextOffset GetItems]. subst data.
  rewrite take_take, length_take, length_drop. replace (Z.to_nat size `min` Z.to_nat (size + 1))%nat with (Z.to_nat size) by lia.
  destruct (Z.ltb_spec size (Z.of_nat (Z.to_nat (size + 1) `min` (length all - Z.to_nat o)))) as [Hn|Hn].
  - assert (itoa (o + size) ≠ "") as Hne.
    { unfold itoa. rewrite (proj2 (Z.ltb_ge _ _)) by lia. apply format_uint_nonempty. }
    rewrite (proj2 (String.eqb_neq _ _) Hne).
    destruct (IH (itoa (o + size)) (o + size)) as (r & items & -> & Hr); [lia| |lia|lia|].
    { right. split; [done|]. apply atoi_itoa. lia. }
    eexists _, _. split; [done|]. destruct Hr as [Hr|[-> ->]]; [by left|right]. split; [done|]. cbn [snd].
    rewrite <- fmap_app. f_equal. rewrite <- (take_drop (Z.to_nat size) (drop (Z.to_nat o) all)) at 2.
    rewrite drop_drop. by replace (Z.to_nat o + Z.to_nat size)%nat with (Z.to_nat (o + size)) by lia.
  - eexists _, _. split; [done|]. right. split; [done|]. f_equal. apply take_ge. rewrite length_drop. lia.
Qed.

(** C27: Listing from PostgreSQL.  Following the offsets of the pages ends, and
    gives, unless a statement fails, exactly the rows of the type (and of the
    mesh, when one is given), each once, by name and then by mesh, whatever the
    size of the pages.  An item has the version of its row and no times, although
    Get has them, so policies read in a list are never ordered by their age.  When
    the connection breaks while the rows are read, the call still succeeds, with
    the rows that came before. *)
Theorem postgres_List_pages db0 db k mesh size :
  table db0 = ∅ → rtc postgres_step db0 db → 0 < size < 2 ^ 61 →
  let rows := select_where (λ key _, typed (type_name k) (mesh_filter mesh) key) (table db) in
  Z.of_nat (length rows) < 2 ^ 61 →
  (¬ broken db → ∃ r items, postgres_pages (S (length rows)) db k mesh size "" = Some (r, items)
     ∧ (query_failure r ∨ (r = Ok () ∧ ∃ all, listing db k mesh all ∧ items = item_of k <$> all)))
  ∧ (let call := postgres_List db (new_list k) [ListByMesh mesh] in
     query_failure call.1
     ∨ ∃ all data, listing db k mesh all ∧ data `prefix_of` all ∧ (data = all ∨ broken db)
         ∧ call = (Ok (), mkObjectList k (item_of k <$> data) ""))
  ∧ ∀ row, GetCreationTime (default nilMeta (observe <$> o_Meta (item_of k row))) = zeroTime.
Proof.
  intros H0 Hr Hsize rows Hlen. pose proof (postgres_reachable_ok db0 db H0 Hr) as Hok.
  split; [|split; [by apply postgres_List_all|done]]. intros Hb.
  destruct (postgres_page_spec db k mesh size "" 0 Hok ltac:(lia) ltac:(lia) ltac:(by left))
    as [(e & f & s & Hf & Hp)|(all & _ & Hall & _)].
  { cbn [postgres_pages]. destruct (postgres_page db k mesh size "") as [r l]. simpl in Hf. subst r.
    eexists _, _. split; [done|]. left. by apply has_failed. }
  assert (length all = length rows) as Hl by (destruct Hall as [Hperm _]; by rewrite Hperm).
  destruct (pages_spec (S (length rows)) db k mesh size "" 0 all) as (r & items & -> & Hi); [done|done|done|lia|lia|lia|by left|lia|lia|].
  eexists _, _. split; [done|]. destruct Hi as [?|[-> ->]]; [by left|right]. split; [done|]. exists all. done.
Qed.
End Listing.

(** ** A concrete database *)

Section SampleDatabase.

Definition in4 (z : Z) : bool := (- 2 ^ 31 <=? z) && (z <? 2 ^ 31).
Definition sample_table (t : table_state) : table_state := filter (λ kr, in4 (tr_version kr.2) = true) t.

Definition sample_insert (k : tkey) (r : trow) (t : table_state) : (goerror + Z) * table_state :=
  match t !! k with
  | Some _ => (inl (Errorf "pq: duplicate key value violates unique constraint" []), t)
  | None => if in4 (tr_version r) then (inr 1, <[k := r]> t) else (inl (Errorf "pq: integer out of range" []), t)
  end.

Definition sample_Exec (t : table_state) (statement : string) (args : list sqlval) : (goerror + Z) * table_state :=
  let t := sample_table t in
  match args with
  | [SText name; SText namespace; SText mesh; SText type; SInt version; SText spec; STime created; STime modified] =>
      sample_insert (mkTkey name namespace mesh type) (mkTrow version spec created modified) t
  | [SText spec; SInt version; STime modified; SText name; SText mesh; SText type; SInt old] =>
      if in4 version then
        let p k r := named name mesh type k && (tr_version r =? old) in
        (inr (Z.of_nat (length (select_where p t))), update_where p (λ r, mkTrow version spec (tr_created r) modified) t)
      else (inl (Errorf "pq: integer out of range" []), t)
  | [SText name; SText type; SText mesh] =>
      let p k (_ : trow) := named name mesh type k in
      (inr (Z.of_nat (length (select_where p t))), delete_where p t)
  | _ => (inl (Errorf "pq: syntax error" []), t)
  end.

Definition select_all : string := "SELECT name, mesh, spec, version, creation_time, modification_time FROM resources WHERE type=$1".

(** A number that is not negative, in decimal. *)
Definition read_number (s : string) : option Z :=
  match parse_uint 64 s with
  | Ok n => if String.eqb (itoa n) s then Some n else None
  | _ => None
  end.
Definition read_page (s : string) : option (option (Z * Z)) :=
  match split_all " " s with
  | [""] => Some None
  | [""; "LIMIT"; limit; "OFFSET"; offset] =>
      limit ← read_number limit; offset ← read_number offset; Some (Some (limit, offset))
  | _ => None
  end.

#[local] Instance by_name_mesh_dec x y : Decision (by_name_mesh String.le x y).
Proof. unfold by_name_mesh. apply _. Defined.

Definition sample_list (t : table_state) (type : string) (mesh : option string) (page : string) : goerror + Rows :=
  match read_page page with
  | None => inl (Errorf "pq: syntax error" [])
  | Some page =>
      let all := merge_sort (by_name_mesh String.le) (select_where (λ k _, typed type mesh k) (sample_table t)) in
      inr (mkRows (item_columns <$> match page with
                                    | Some (limit, offset) => take (Z.to_nat limit) (drop (Z.to_nat offset) all)
                                    | None => all
                                    end) None None)
  end.

Definition sample_Query (t : table_state) (statement : string) (args : list sqlval) : goerror + Rows :=
  match args with
  | [SText name; SText mesh; SText type] =>
      inr (mkRows (get_columns <$> select_where (λ k _, named name mesh type k) (sample_table t)) None None)
  | [SText type] => sample_list t type None (sdrop (String.length (select_all +:+ " ORDER BY name, mesh")) statement)
  | [SText type; SText mesh] =>
      sample_list t type (Some mesh) (sdrop (String.length (select_all +:+ " AND mesh=$2 ORDER BY name, mesh")) statement)
  | _ => inl (Errorf "pq: syntax error" [])
  end.

#[local] Instance sample_database : Database table_state := {| db_Exec := sample_Exec; db_Query := sample_Query |}.

Lemma in4_int4 z : in4 z = true ↔ int4 z.
Proof. unfold in4, int4. rewrite andb_true_iff, Z.leb_le, Z.ltb_lt. done. Qed.

Lemma sample_table_int4 t k r : sample_table t !! k = Some r → int4 (tr_version r).
Proof. intros [_ Hr]%map_lookup_filter_Some. by apply in4_int4. Qed.

Lemma sample_table_id t : (∀ k r, t !! k = Some r → int4 (tr_version r)) → sample_table t = t.
Proof. intros Ht. apply map_filter_id. intros k r Hr. apply in4_int4. by apply (Ht k). Qed.

Lemma sample_table_idem t : sample_table (sample_table t) = sample_table t.
Proof. apply sample_table_id. intros k r. apply sample_table_int4. Qed.

Lemma read_number_itoa n m : read_number (itoa n) = Some m → m = n ∧ 0 ≤ n.
Proof.
  unfold read_number. destruct (parse_uint 64 (itoa n)) as [x| |] eqn:E; [|done..].
  apply parse_uint_bounds in E as [Hx _]; [|done].
  destruct (String.eqb_spec (itoa x) (itoa n)) as [Hi|]; [|done]. intros [= <-].
  apply itoa_inj in Hi as ->; done.
Qed.

Lemma read_page_text page p :
  read_page match page with Some (limit, offset) => " LIMIT " +:+ itoa limit +:+ " OFFSET " +:+ itoa offset | None => "" end = Some p →
  p = page ∧ match page with Some (limit, offset) => 0 ≤ limit ∧ 0 ≤ offset | None => True end.
Proof.
  destruct page as [[limit offset]|]; [|by intros [= <-]]. unfold read_page.
  assert (split_all " " (" LIMIT " +:+ itoa limit +:+ " OFFSET " +:+ itoa offset)
    = [""; "LIMIT"; itoa limit; "OFFSET"; itoa offset]) as ->.
  { change (" LIMIT " +:+ itoa limit +:+ " OFFSET " +:+ itoa offset)
      with ("" +:+ String " " ("LIMIT" +:+ String " " (itoa limit +:+ String " " ("OFFSET" +:+ String " " (itoa offset))))).
    rewrite !split_all_app by (done || by apply itoa_plain). by rewrite split_all_none by by apply itoa_plain. }
  destruct (read_number (itoa limit)) as [l|] eqn:El; [|done]. simpl.
  destruct (read_number (itoa offset)) as [o|] eqn:Eo; [|done]. simpl. intros [= <-].
  apply read_number_itoa in El as [-> ?], Eo as [-> ?]. done.
Qed.

#[local] Instance by_name_mesh_trans : Transitive (by_name_mesh String.le).
Proof.
  intros x y z Hxy Hyz. unfold by_name_mesh in *. pose proof (@partial_order_anti_symm _ String.le _) as Hanti.
  destruct Hxy as [[Hne Hxy]|[Exy Hxy]], Hyz as [[Hne' Hyz]|[Eyz Hyz]].
  - left. split; [|by etrans]. intros E. rewrite E in Hxy. apply Hne'. by apply Hanti.
  - left. by rewrite <- Eyz.
  - left. by rewrite Exy.
  - right. split; [congruence|by etrans].
Qed.
#[local] Instance by_name_mesh_total : base.Total (by_name_mesh String.le).
Proof.
  intros x y. unfold by_name_mesh. destruct (decide (tk_name x.1 = tk_name y.1)) as [E|Hne].
  - destruct (total String.le (tk_mesh x.1) (tk_mesh y.1)); [by left; right|by right; right].
  - destruct (total String.le (tk_name x.1) (tk_name y.1)); [by left; left|by right; left].
Qed.

Lemma sample_list_law t type mesh page rows :
  sample_list t type mesh match page with Some (limit, offset) => " LIMIT " +:+ itoa limit +:+ " OFFSET " +:+ itoa offset | None => "" end
  = inr rows →
  match page with Some (limit, offset) => 0 ≤ limit ∧ 0 ≤ offset | None => True end
  ∧ ∃ all, all ≡ₚ select_where (λ k _, typed type mesh k) (sample_table t) ∧ StronglySorted (by_name_mesh String.le) all
      ∧ answered rows (item_columns <$> match page with
                                        | Some (limit, offset) => take (Z.to_nat limit) (drop (Z.to_nat offset) all)
                                        | None => all
                                        end).
Proof.
  unfold sample_list. destruct (read_page _) as [p|] eqn:E; [|done]. apply read_page_text in E as [-> Hp]. intros [= <-].
  split; [done|]. exists (merge_sort (by_name_mesh String.le) (select_where (λ k _, typed type mesh k) (sample_table t))).
  split; [apply merge_sort_Permutation|].
  split; [apply StronglySorted_merge_sort; apply _|]. by split.
Qed.

#[local] Program Instance sample_lawful : LawfulDatabase table_state :=
  {| table := sample_table; timestamp := λ t, t; collate := String.le |}.
Next Obligation. apply sample_table_int4. Qed.
Next Obligation.
  intros db name ns mesh type version spec created modified. cbv zeta. cbn [db_Exec sample_database sample_Exec].
  unfold sample_insert. destruct (sample_table db !! mkTkey name ns mesh type) as [r|] eqn:E.
  { split; [left; apply sample_table_idem|]. intros _. split; [done|apply sample_table_idem]. }
  cbn [tr_version]. destruct (in4 version) eqn:Ev; [|by split; [left; apply sample_table_idem|]].
  split_and!; [done|done|]. apply sample_table_id. intros k r [[<- <-]|[_ Hk]]%lookup_insert_Some.
  - by apply in4_int4.
  - by eapply sample_table_int4.
Qed.
Next Obligation.
  intros db spec version modified name mesh type old. cbv zeta. cbn [db_Exec sample_database sample_Exec].
  destruct (in4 version) eqn:Ev; [|left; apply sample_table_idem]. split; [done|].
  apply sample_table_id. intros k r. unfold update_where. rewrite map_lookup_imap.
  destruct (sample_table db !! k) as [r'|] eqn:E; [|done]. simpl. intros [= <-].
  destruct (_ && _); [by apply in4_int4|by eapply sample_table_int4].
Qed.
Next Obligation.
  intros db name type mesh. cbv zeta. cbn [db_Exec sample_database sample_Exec]. split; [done|].
  apply sample_table_id. intros k r [Hk _]%map_lookup_filter_Some. by eapply sample_table_int4.
Qed.
Next Obligation. intros db name mesh type rows [= <-]. eexists. split; [done|]. by split. Qed.
Next Obligation.
  intros db type mesh page rows. destruct mesh as [mesh|]; cbn [db_Query sample_database sample_Query].
  - change (sdrop (String.length (select_all +:+ " AND mesh=$2 ORDER BY name, mesh"))
      ("SELECT name, mesh, spec, version, creation_time, modification_time FROM resources WHERE type=$1"
       +:+ " AND mesh=$2" +:+ " ORDER BY name, mesh" +:+ ?x)) with x.
    apply sample_list_law.
  - apply sample_list_law.
Qed.
End SampleDatabase.

#[local] Existing Instance sample_database.
#[local] Existing Instance sample_lawful.
#[local] Existing Instance sample_jsonpb.
#[local] Existing Instance sample_jsonpb_lawful.

Definition pg_secret (text : string) : Object := mkObject None (SecretSpec (mkSecret (Some text))).
Definition pg_db : table_state := (postgres_Create ∅ (pg_secret "x") [CreateByKey "s" "default"; CreatedAt 7]).2.1.

Lemma pg_empty : table (∅ : table_state) = ∅.
Proof. vm_compute. reflexivity. Qed.
Lemma pg_db_reachable : rtc postgres_step ∅ pg_db.
Proof. apply rtc_once, pstep_Create. Qed.

Lemma postgres_refines_map_witness :
  table_ok (table pg_db)
  ∧ postgres_Get pg_db (new_object KSecret) [GetByKey "s" "default"]
    = (Ok (), mkObject (Some (resourceMetaObject "s" "default" "0" 7 7)) (SecretSpec (mkSecret (Some "x")))).
Proof.
  split; [|vm_compute; reflexivity].
  exact (proj1 (postgres_refines_map ∅ pg_db pg_empty pg_db_reachable)).
Defined.

(** Two updates of one object, by one caller. *)
Definition pg_read : Object := (postgres_Get pg_db (new_object KSecret) [GetByKey "s" "default"]).2.
Definition pg_updated : res unit * (table_state * Object) := postgres_Update pg_db pg_read [ModifiedAt 8].

Lemma postgres_Update_stale_witness :
  pg_updated.1 = Ok ()
  ∧ let '(r2, (db2, _)) := postgres_Update pg_updated.2.1 pg_updated.2.2 [ModifiedAt 9] in
    (r2 = Err (ErrorResourceConflict "Secret" "s" "default") ∨ query_failure r2) ∧ table db2 = table pg_updated.2.1.
Proof.
  split; [vm_compute; reflexivity|].
  assert (postgres_Update pg_db pg_read [ModifiedAt 8] = (Ok (), (pg_updated.2.1, pg_updated.2.2))) as E.
  { change (postgres_Update pg_db pg_read [ModifiedAt 8]) with pg_updated.
    rewrite (surjective_pairing pg_updated) at 1. rewrite (surjective_pairing pg_updated.2) at 1. f_equal. }
  destruct (postgres_Update_stale ∅ pg_db pg_read [ModifiedAt 8] pg_updated.2.1 pg_updated.2.2 pg_updated.2.2 [ModifiedAt 9]
    pg_empty pg_db_reachable E eq_refl ltac:(vm_compute; reflexivity) ltac:(vm_compute; reflexivity)) as [Hs _].
  assert (default nilMeta (observe <$> o_Meta pg_updated.2.2) = mkMeta "s" "default" "0" zeroTime zeroTime) as Hm
    by (vm_compute; reflexivity).
  rewrite Hm in Hs. destruct (postgres_Update pg_updated.2.1 pg_updated.2.2 [ModifiedAt 9]) as [r2 [db2 o2]].
  destruct Hs as (Hr & Hdb & _). split; [exact Hr|exact Hdb].
Defined.

Lemma postgres_List_pages_witness :
  ∃ r items, postgres_pages 2 pg_db KSecret "default" 1 "" = Some (r, items)
    ∧ (query_failure r ∨ (r = Ok () ∧ ∃ all, listing pg_db KSecret "default" all ∧ items = item_of KSecret <$> all)).
Proof.
  refine (proj1 (postgres_List_pages ∅ pg_db KSecret "default" 1 pg_empty pg_db_reachable _ _) _).
  - lia.
  - vm_compute; reflexivity.
  - intros (statement & args & rows & e & Hq & He). cbn [db_Query sample_database] in Hq.
    unfold sample_Query, sample_list in Hq. repeat split_match_in Hq; try done; injection Hq as <-; done.
Defined.
