(* ===== verification/KubernetesStore.v ===== *)
(** * The Kubernetes resource store

    Models [pkg/plugins/resources/k8s/store.go], the registry and the object types
    of [pkg/plugins/resources/k8s/native], and the names of [pkg/util/k8s].  The
    client of the Kubernetes API is a parameter ([KubeClient]); [LawfulKubeClient]
    states what the API server does with a custom resource.  Reads may come from a
    cache that lags behind, so what they see is a state of its own. *)

From S2P Require Import Prelude GoStd Dataplane MeshResources Resources Store MemoryStore Kubernetes.
Local Open Scope string_scope.
Local Open Scope list_scope.
Local Open Scope Z_scope.

(** ** native/api/v1alpha1, native/pkg/model *)

Definition Scope : Type := string.
Definition ScopeNamespace : Scope := "namespace".
Definition ScopeCluster : Scope := "cluster".

Section Types.
Context `{JsonMap}.

(** The methods of the object types.  A mesh object has no mesh field: its mesh is
    its name. *)
Definition ko_GetObjectMeta (o : K8sObject) : KubernetesMetaAdapter :=
  mkAdapter (ko_Namespace o) (ko_Name o) (ko_ResourceVersion o) (ko_CreationTimestamp o) (ko_Rest o) "".
Definition ko_SetObjectMeta (m : KubernetesMetaAdapter) (o : K8sObject) : K8sObject :=
  mkK8sObject (ko_Kind o) (ka_Namespace m) (ka_Name m) (ka_ResourceVersion m) (ka_CreationTimestamp m) (ka_Rest m)
    (ko_MeshField o) (ko_Spec o).
Definition ko_GetMesh (o : K8sObject) : string :=
  match ko_Kind o with KMesh => ko_Name o | _ => ko_MeshField o end.
Definition ko_SetMesh (mesh : string) (o : K8sObject) : K8sObject :=
  match ko_Kind o with
  | KMesh => set_ko_key (ko_Namespace o) mesh o
  | _ => set_ko_MeshField mesh o
  end.
Definition ko_Scope (k : Kind) : Scope :=
  match k with KMesh => ScopeCluster | _ => ScopeNamespace end.

Record K8sList : Type := mkK8sList {
  kl_Kind : Kind;
  kl_Items : list K8sObject;
  kl_Continue : string;
}.
End Types.
Arguments mkK8sList {_} _ _ _.
Arguments kl_Kind {_} _.
Arguments kl_Items {_} _.
Arguments kl_Continue {_} _.

(** ** native/pkg/registry *)

(** [proto.MessageName]: the names that the generated code registers. *)
Definition MessageName (spec : ResourceSpec) : string :=
  match kind_of_spec spec with
  | KMesh => "kuma.mesh.v1alpha1.Mesh"
  | KDataplane => "kuma.mesh.v1alpha1.Dataplane"
  | KDataplaneInsight => "kuma.mesh.v1alpha1.DataplaneInsight"
  | KDataplaneOverview => "kuma.mesh.v1alpha1.DataplaneOverview"
  | KHealthCheck => "kuma.mesh.v1alpha1.HealthCheck"
  | KTrafficPermission => "kuma.mesh.v1alpha1.TrafficPermission"
  | KTrafficLog => "kuma.mesh.v1alpha1.TrafficLog"
  | KTrafficRoute => "kuma.mesh.v1alpha1.TrafficRoute"
  | KTrafficTrace => "kuma.mesh.v1alpha1.TrafficTrace"
  | KFaultInjection => "kuma.mesh.v1alpha1.FaultInjection"
  | KProxyTemplate => "kuma.mesh.v1alpha1.ProxyTemplate"
  | KSecret => "kuma.system.v1alpha1.Secret"
  end.

(** The registered objects carry their type and nothing else, so an entry is a
    kind; a copy of one is [empty_object]. *)
Record kubeTypeRegistry : Type := mkKubeRegistry {
  kr_objectTypes : gmap string Kind;
  kr_objectListTypes : gmap string Kind;
}.
Definition NewKubeTypeRegistry : kubeTypeRegistry := mkKubeRegistry ∅ ∅.

Definition kube_RegisterObjectType (typ : ResourceSpec) (obj : Kind) (r : kubeTypeRegistry) : res kubeTypeRegistry :=
  let name := MessageName typ in
  match kr_objectTypes r !! name with
  | Some previous =>
      Err (Errorf "duplicate registration of KubernetesObject type under name %q: previous=%#v new=%#v"
             [AStr name; AStr (type_name previous); AStr (type_name obj)])
  | None => Ok (mkKubeRegistry (<[name := obj]> (kr_objectTypes r)) (kr_objectListTypes r))
  end.
Definition kube_RegisterListType (typ : ResourceSpec) (obj : Kind) (r : kubeTypeRegistry) : res kubeTypeRegistry :=
  let name := MessageName typ in
  match kr_objectListTypes r !! name with
  | Some previous =>
      Err (Errorf "duplicate registration of KubernetesList type under name %q: previous=%#v new=%#v"
             [AStr name; AStr (type_name previous); AStr (type_name obj)])
  | None => Ok (mkKubeRegistry (kr_objectTypes r) (<[name := obj]> (kr_objectListTypes r)))
  end.

Definition kube_NewObject `{JsonMap} (r : kubeTypeRegistry) (typ : ResourceSpec) : res K8sObject :=
  match kr_objectTypes r !! MessageName typ with
  | Some k => Ok (empty_object k)
  | None => Err (Errorf "unknown message type: %q" [AStr (MessageName typ)])
  end.
Definition kube_NewList `{JsonMap} (r : kubeTypeRegistry) (typ : ResourceSpec) : res K8sList :=
  match kr_objectListTypes r !! MessageName typ with
  | Some k => Ok (mkK8sList k [] "")
  | None => Err (Errorf "unknown message type: %q" [AStr (MessageName typ)])
  end.

(** The [init] of a file of object types, and the files. *)
Definition init_object_type (r : kubeTypeRegistry) (k : Kind) : res kubeTypeRegistry :=
  let? r := must (kube_RegisterObjectType (zero_spec k) k r) in
  must (kube_RegisterListType (zero_spec k) k r).
Definition kube_kinds : list Kind :=
  [KDataplaneInsight; KDataplane; KFaultInjection; KHealthCheck; KMesh; KProxyTemplate; KTrafficLog;
   KTrafficPermission; KTrafficRoute; KTrafficTrace].
Definition Global : res kubeTypeRegistry := rfoldl init_object_type NewKubeTypeRegistry kube_kinds.
Definition kube_registry : kubeTypeRegistry := match Global with Ok r => r | _ => NewKubeTypeRegistry end.

(** ** The client *)

(** The calls of [client.Client], with the object as the call leaves it.  A listing
    is limited when a page is asked for. *)
Class KubeClient (Cl : Type) `{JsonMap} : Type := {
  client_Create : Cl → K8sObject → (goerror + K8sObject) * Cl;
  client_Update : Cl → K8sObject → (goerror + K8sObject) * Cl;
  client_Delete : Cl → K8sObject → option goerror * Cl;
  client_Get : Cl → string → string → K8sObject → goerror + K8sObject;
  client_List : Cl → K8sList → option (Z * string) → goerror + K8sList;
}.

(** ** store.go *)

Section Store.
Context `{Jsonpb} `{JsonMap} `{KubeErrors} {Cl : Type} `{!KubeClient Cl}.

(** *** The converter *)

(** The operand of the error is the metadata; it is kept as its name. *)
Definition ToKubernetesObject (r : Object) : res K8sObject :=
  let? obj := kube_NewObject kube_registry (o_Spec r) in
  let? spec := ToMap (o_Spec r) in
  let obj := set_ko_Spec spec obj in
  match o_Meta r with
  | None => Ok obj
  | Some (KubernetesMeta adapter) => Ok (ko_SetObjectMeta adapter (ko_SetMesh (ka_Mesh adapter) obj))
  | Some meta => Err (Errorf "meta has unexpected type: %#v" [AStr (GetName (observe meta))])
  end.

Definition ToKubernetesList (rl : ObjectList) : res K8sList := kube_NewList kube_registry (o_Spec (NewItem rl)).

Definition adapter_of (obj : K8sObject) : KubernetesMetaAdapter :=
  mkAdapter (ko_Namespace obj) (ko_Name obj) (ko_ResourceVersion obj) (ko_CreationTimestamp obj) (ko_Rest obj) (ko_GetMesh obj).

Definition ToCoreResource (obj : K8sObject) (out : Object) : res unit * Object :=
  let out := SetMeta out (Some (KubernetesMeta (adapter_of obj))) in
  let '(err, spec) := FromMap (ko_Spec obj) (o_Spec out) in
  (err, mkObject (o_Meta out) spec).

(** A conversion to a fresh resource, and the mesh that it gives. *)
Definition to_core (obj : K8sObject) (out : Object) : res Object :=
  match ToCoreResource obj out with
  | (Ok _, r) => Ok r
  | (Err e, _) => Err e
  | (Panic, _) => Panic
  end.
Definition core_mesh (o : Object) : res MeshResource :=
  match as_resource o with Some mesh => Ok mesh | None => Panic end.

(** An item of another type would be dropped. *)
Fixpoint ToCoreList_loop (items : list K8sObject) (out : ObjectList) (predicate : Object → bool) : res unit * ObjectList :=
  match items with
  | [] => (Ok (), out)
  | o :: rest =>
      match ToCoreResource o (NewItem out) with
      | (Ok _, r) =>
          let out := if predicate r then match AddItem out r with Ok out' => out' | _ => out end else out in
          ToCoreList_loop rest out predicate
      | (err, _) => (err, out)
      end
  end.
Definition ToCoreList (l : K8sList) (out : ObjectList) (predicate : Object → bool) : res unit * ObjectList :=
  match ToCoreList_loop (kl_Items l) out predicate with
  | (Ok _, out) => (Ok (), SetPagination out (kl_Continue l))
  | (err, out) => (err, out)
  end.

Definition k8sNameNamespace (coreName : string) (scope : Scope) : res (string * string) :=
  if String.eqb scope ScopeCluster then Ok (coreName, "")
  else if String.eqb scope ScopeNamespace then CoreNameToK8sName coreName
  else Err (Errorf "unknown scope %s" [AStr scope]).

(** *** The operations *)

Definition converted (err : res unit) : res unit :=
  map_err (λ e, Wrapf e "failed to convert k8s model into core counterpart" []) err.
Definition not_convertible (r : Object) : goerror → goerror :=
  λ e, Wrapf e "failed to convert core model of type %s into k8s counterpart" [AStr (GetType r)].

Definition kubernetes_Create (s : Cl) (r : Object) (fs : list CreateOptionsFunc) : res unit * (Cl * Object) :=
  let opts := NewCreateOptions fs in
  match (let? obj := map_err (λ e, Wrapf e "failed to convert core model into k8s counterpart" []) (ToKubernetesObject r) in
         let? (name, namespace) := k8sNameNamespace (co_Name opts) (ko_Scope (ko_Kind obj)) in
         Ok (set_ko_key namespace name (ko_SetMesh (co_Mesh opts) obj))) with
  | Panic => (Panic, (s, r))
  | Err e => (Err e, (s, r))
  | Ok obj =>
      match client_Create s obj with
      | (inl err, s') =>
          (if IsAlreadyExists err then Err (ErrorResourceAlreadyExists (GetType r) (co_Name opts) (co_Mesh opts))
           else Err (Wrapf err "failed to create k8s resource" []), (s', r))
      | (inr obj', s') => let '(err, r') := ToCoreResource obj' r in (converted err, (s', r'))
      end
  end.

(** The error of a conflict reads the metadata of the resource. *)
Definition kubernetes_Update (s : Cl) (r : Object) (fs : list UpdateOptionsFunc) : res unit * (Cl * Object) :=
  match map_err (not_convertible r) (ToKubernetesObject r) with
  | Panic => (Panic, (s, r))
  | Err e => (Err e, (s, r))
  | Ok obj =>
      match client_Update s obj with
      | (inl err, s') =>
          (if IsConflict err
           then match o_Meta r with
                | Some meta => Err (ErrorResourceConflict (GetType r) (GetName (observe meta)) (GetMesh (observe meta)))
                | None => Panic
                end
           else Err (Wrapf err "failed to update k8s resource" []), (s', r))
      | (inr obj', s') => let '(err, r') := ToCoreResource obj' r in (converted err, (s', r'))
      end
  end.

Definition kubernetes_Get (s : Cl) (r : Object) (fs : list GetOptionsFunc) : res unit * Object :=
  let opts := NewGetOptions fs in
  match (let? obj := map_err (not_convertible r) (ToKubernetesObject r) in
         let? (name, namespace) := k8sNameNamespace (go_Name opts) (ko_Scope (ko_Kind obj)) in
         Ok (obj, name, namespace)) with
  | Panic => (Panic, r)
  | Err e => (Err e, r)
  | Ok (obj, name, namespace) =>
      match client_Get s namespace name obj with
      | inl err =>
          (if IsNotFound err then Err (ErrorResourceNotFound (GetType r) (go_Name opts) (go_Mesh opts))
           else Err (Wrapf err "failed to get k8s resource" []), r)
      | inr obj' =>
          match ToCoreResource obj' r with
          | (Ok _, r') =>
              if negb (String.eqb (go_Version opts) "") && negb (String.eqb (ko_ResourceVersion obj') (go_Version opts))
              then (Err (ErrorResourcePreconditionFailed (GetType r') (go_Name opts) (go_Mesh opts)), r')
              else if negb (String.eqb (ko_GetMesh obj') (go_Mesh opts))
              then (Err (ErrorResourceNotFound (GetType r') (go_Name opts) (go_Mesh opts)), r')
              else (Ok (), r')
          | (err, r') => (converted err, r')
          end
      end
  end.

(** Reads the object first, to compare its mesh; an object that is gone when it is
    deleted is no error. *)
Definition kubernetes_Delete (s : Cl) (r : Object) (fs : list DeleteOptionsFunc) : res unit * Cl :=
  let opts := NewDeleteOptions fs in
  match kubernetes_Get s r [GetByKey (do_Name opts) (do_Mesh opts)] with
  | (Ok _, r) =>
      match (let? obj := map_err (not_convertible r) (ToKubernetesObject r) in
             let? (name, namespace) := k8sNameNamespace (do_Name opts) (ko_Scope (ko_Kind obj)) in
             Ok (set_ko_key namespace name obj)) with
      | Panic => (Panic, s)
      | Err e => (Err e, s)
      | Ok obj =>
          match client_Delete s obj with
          | (None, s') => (Ok (), s')
          | (Some err, s') => (if IsNotFound err then Ok () else Err (Wrapf err "failed to delete k8s resource" []), s')
          end
      end
  | (err, _) => (err, s)
  end.

Definition list_predicate (opts : ListOptions) (r : Object) : bool :=
  if negb (String.eqb (lo_Mesh opts) "") then
    match o_Meta r with Some meta => String.eqb (GetMesh (observe meta)) (lo_Mesh opts) | None => false end
  else true.

(** The mesh is filtered after the page was read. *)
Definition kubernetes_List (s : Cl) (rs : ObjectList) (fs : list ListOptionsFunc) : res unit * ObjectList :=
  let opts := NewListOptions fs in
  match map_err (λ e, Wrapf e "failed to convert core list model of type %s into k8s counterpart" [AStr (GetItemType rs)])
          (ToKubernetesList rs) with
  | Panic => (Panic, rs)
  | Err e => (Err e, rs)
  | Ok obj =>
      let kubeOpts := if 0 <? lo_PageSize opts then Some (lo_PageSize opts, lo_PageOffset opts) else None in
      match client_List s obj kubeOpts with
      | inl err =>
          (if contains (error_string err) "invalid continue token" then Err ErrorInvalidOffset
           else Err (Wrapf err "failed to list k8s resources" []), rs)
      | inr obj' => let '(err, rs') := ToCoreList obj' rs (list_predicate opts) in (converted err, rs')
      end
  end.

#[global] Instance kubernetes_ResourceStore : ResourceStore Cl :=
  {| store_Create := kubernetes_Create; store_Update := kubernetes_Update; store_Delete := kubernetes_Delete;
     store_Get := kubernetes_Get; store_List := kubernetes_List |}.
End Store.

(** ** What the API server does *)

Abbreviation kube_state := (gmap (string * string * string)).
Definition kube_key `{JsonMap} (o : K8sObject) : string * string * string :=
  (type_name (ko_Kind o), ko_Namespace o, ko_Name o).

(** The server keeps the key, the mesh and, unless it is a mesh, which the
    defaulting web hook completes, the specification. *)
Definition same_content `{JsonMap} (o o' : K8sObject) : Prop :=
  ko_Kind o' = ko_Kind o ∧ ko_Namespace o' = ko_Namespace o ∧ ko_Name o' = ko_Name o
  ∧ ko_MeshField o' = ko_MeshField o ∧ (ko_Kind o ≠ KMesh → ko_Spec o' = ko_Spec o).

(** An object without data: a new one, or one that a fresh resource is converted
    to. *)
Definition blank `{Jsonpb} `{JsonMap} (k : Kind) (o : K8sObject) : Prop :=
  ∃ spec, (spec = nil_map ∨ ToMap (zero_spec k) = Ok spec) ∧ o = set_ko_Spec spec (empty_object k).

(** [objects] is what the server stores and [view] what reads see.  A call that
    fails may have been carried out; the tests of errors tell the truth; an update
    must be based on the version that is stored and a change gets a new one. *)
Class LawfulKubeClient (Cl : Type) `{Jsonpb} `{JsonMap} `{KubeErrors} `{!KubeClient Cl} : Type := {
  objects : Cl → kube_state K8sObject;
  view : Cl → kube_state K8sObject;
  objects_key cl k o : objects cl !! k = Some o → kube_key o = k ∧ ko_ResourceVersion o ≠ "";
  view_key cl k o : view cl !! k = Some o → kube_key o = k ∧ ko_ResourceVersion o ≠ "";
  client_Create_law cl o :
    match client_Create cl o with
    | (inr o', cl') => objects cl !! kube_key o = None ∧ same_content o o' ∧ objects cl' = <[kube_key o := o']> (objects cl)
    | (inl e, cl') =>
        (objects cl' = objects cl
         ∨ ∃ o', objects cl !! kube_key o = None ∧ same_content o o' ∧ objects cl' = <[kube_key o := o']> (objects cl))
        ∧ (IsAlreadyExists e = true → is_Some (objects cl !! kube_key o) ∧ objects cl' = objects cl)
    end;
  client_Update_law cl o :
    match client_Update cl o with
    | (inr o', cl') => ∃ old, objects cl !! kube_key o = Some old
        ∧ (ko_ResourceVersion o = "" ∨ ko_ResourceVersion o = ko_ResourceVersion old) ∧ same_content o o'
        ∧ (o' = old ∨ ko_ResourceVersion o' ≠ ko_ResourceVersion old)
        ∧ objects cl' = <[kube_key o := o']> (objects cl)
    | (inl e, cl') =>
        objects cl' = objects cl
        ∨ ∃ o', is_Some (objects cl !! kube_key o) ∧ same_content o o' ∧ objects cl' = <[kube_key o := o']> (objects cl)
    end;
  client_Delete_law cl o :
    match client_Delete cl o with
    | (None, cl') => objects cl' = delete (kube_key o) (objects cl)
    | (Some e, cl') =>
        (objects cl' = objects cl ∨ objects cl' = delete (kube_key o) (objects cl))
        ∧ (IsNotFound e = true → objects cl !! kube_key o = None ∧ objects cl' = objects cl)
    end;
  client_Get_law cl namespace name o :
    match client_Get cl namespace name o with
    | inr o' => ko_Kind o' = ko_Kind o ∧ is_Some (view cl !! (type_name (ko_Kind o), namespace, name))
        ∧ (blank (ko_Kind o) o → view cl !! (type_name (ko_Kind o), namespace, name) = Some o')
    | inl e => IsNotFound e = true → view cl !! (type_name (ko_Kind o), namespace, name) = None
    end;
  (** What a continue token still stands for. *)
  remaining : Cl → Kind → string → list K8sObject;
  remaining_all cl k : remaining cl k "" ≡ₚ (map_to_list (view cl)).*2 ≫= λ o, if bool_decide (ko_Kind o = k) then [o] else [];
  client_List_law cl l page l' :
    client_List cl l page = inr l' →
    kl_Kind l' = kl_Kind l
    ∧ remaining cl (kl_Kind l) (default "" (snd <$> page))
      = kl_Items l' ++ (if String.eqb (kl_Continue l') "" then [] else remaining cl (kl_Kind l) (kl_Continue l'))
    ∧ (page = None → kl_Continue l' = "");
}.

(** ** Names *)

Lemma last_index_Some c s i : last_index c s = Some i → s = stake i s +:+ String c (sdrop (S i) s) ∧ has_byte c (sdrop (S i) s) = false.
Proof.
  revert i; induction s as [|d s IH]; intros i; simpl; [done|].
  destruct (last_index c s) as [j|] eqn:E.
  - intros [= <-]. destruct (IH j eq_refl) as [Hs Hb]. simpl. split; [by rewrite Hs at 1|done].
  - destruct (Ascii.eqb_spec d c) as [->|]; [|done]. intros [= <-]. simpl. rewrite sdrop_0. split; [done|].
    by apply last_index_None.
Qed.

(** A name in a namespace leads back to the resource's name, and conversely when
    the namespace has no dot. *)
Lemma CoreName_roundtrip coreName name namespace :
  CoreNameToK8sName coreName = Ok (name, namespace) → K8sNamespacedNameToCoreName name namespace = coreName ∧ namespace ≠ "".
Proof.
  unfold CoreNameToK8sName. destruct (last_index "." coreName) as [i|] eqn:E; [|done].
  destruct (String.eqb_spec (sdrop (S i) coreName) ""); [done|]. intros [= <- <-].
  apply last_index_Some in E as [Hs _]. split; [by symmetry|done].
Qed.

Lemma K8sName_roundtrip name namespace :
  has_byte "." namespace = false → namespace ≠ "" →
  CoreNameToK8sName (K8sNamespacedNameToCoreName name namespace) = Ok (name, namespace).
Proof.
  intros Hd Hne. unfold CoreNameToK8sName, K8sNamespacedNameToCoreName.
  change (name +:+ "." +:+ namespace) with (name +:+ String "." namespace).
  rewrite last_index_app by done. rewrite sdrop_app_S, stake_app. by rewrite (proj2 (String.eqb_neq _ _) Hne).
Qed.

(** ** Conversion *)

Section Conversion.
Context `{Hjsonpb : Jsonpb} `{HLj : !LawfulJsonpb} `{HJm : !JsonMap} `{HLm : !LawfulJsonMap}.

Lemma kube_registry_NewObject spec :
  kube_NewObject kube_registry spec
  = if bool_decide (kind_of_spec spec ∈ kube_kinds) then Ok (empty_object (kind_of_spec spec))
    else Err (Errorf "unknown message type: %q" [AStr (MessageName spec)]).
Proof. unfold kube_NewObject, MessageName. destruct (kind_of_spec spec); vm_compute; reflexivity. Qed.

#[global] Opaque kube_registry.

(** A fresh resource becomes an object without data. *)
Lemma ToKubernetesObject_fresh k spec :
  k ∈ kube_kinds → ToMap (zero_spec k) = Ok spec → ToKubernetesObject (new_object k) = Ok (set_ko_Spec spec (empty_object k)).
Proof.
  intros Hk Hs. unfold ToKubernetesObject, new_object. cbn [o_Spec o_Meta]. rewrite kube_registry_NewObject, kind_of_zero.
  by rewrite bool_decide_eq_true_2, Hs.
Qed.

Lemma ToKubernetesObject_nil_Meta r obj :
  o_Meta r = None → ToKubernetesObject r = Ok obj →
  ∃ spec, o_Kind r ∈ kube_kinds ∧ ToMap (o_Spec r) = Ok spec ∧ obj = set_ko_Spec spec (empty_object (o_Kind r)).
Proof.
  intros Hm. unfold ToKubernetesObject. rewrite kube_registry_NewObject, Hm.
  change (kind_of_spec (o_Spec r)) with (o_Kind r).
  destruct (decide (o_Kind r ∈ kube_kinds)) as [Hin|Hin];
    [rewrite (bool_decide_eq_true_2 _ Hin)|by rewrite (bool_decide_eq_false_2 _ Hin)].
  cbn [rbind]. intros (spec & Hs & [= <-])%rbind_Ok. eauto.
Qed.

Lemma ToKubernetesObject_kind r : ∀ ob, ToKubernetesObject r = Ok ob → ko_Kind ob = o_Kind r.
Proof.
  unfold ToKubernetesObject. rewrite kube_registry_NewObject. change (kind_of_spec (o_Spec r)) with (o_Kind r).
  destruct (bool_decide (o_Kind r ∈ kube_kinds)); [|done]. cbn [rbind].
  destruct (ToMap (o_Spec r)); [|done..]. cbn [rbind].
  destruct (o_Meta r) as [[?|?|?|?]|]; [done| |done|done|]; intros ob [= <-]; [|done].
  unfold ko_SetObjectMeta, ko_SetMesh. cbn. by destruct (o_Kind r).
Qed.

Lemma FromMap_kind m out : kind_of_spec (FromMap m out).2 = kind_of_spec out.
Proof. unfold FromMap, FromJSON. destruct (marshal_map m); [apply unmarshal_kind|done..]. Qed.

Lemma ToCoreResource_kind obj out : o_Kind (ToCoreResource obj out).2 = o_Kind out.
Proof.
  unfold ToCoreResource, o_Kind. pose proof (FromMap_kind (ko_Spec obj) (o_Spec out)) as Hk.
  cbn [SetMeta o_Spec]. by destruct (FromMap _ _).
Qed.

(** Reading the object of a resource into a fresh one gives its message back. *)
Lemma ToCoreResource_fresh obj r k :
  ToMap (o_Spec r) = Ok (ko_Spec obj) → o_Kind r = k →
  ToCoreResource obj (new_object k) = (Ok (), mkObject (Some (KubernetesMeta (adapter_of obj))) (o_Spec r)).
Proof.
  intros Hs <-. unfold ToCoreResource, new_object. cbn [SetMeta o_Spec o_Meta].
  pose proof (FromMap_ToMap _ _ Hs) as Hf. change (kind_of_spec (o_Spec r)) with (o_Kind r) in Hf. by rewrite Hf.
Qed.
End Conversion.

(** ** Reading what was written *)

Section Theorems.
Context `{Hjsonpb : Jsonpb} `{HLj : !LawfulJsonpb} `{HJm : !JsonMap} `{HLm : !LawfulJsonMap}
  `{HKe : KubeErrors} {Cl : Type} `{HCl : !KubeClient Cl} `{HLc : !LawfulKubeClient Cl}.

(** The key of a resource, which does not tell its mesh. *)
Definition resource_key (k : Kind) (coreName : string) : res (string * string * string) :=
  let? (name, namespace) := k8sNameNamespace coreName (ko_Scope k) in Ok (type_name k, namespace, name).

Definition read_failure (r : res unit) : Prop := ∃ e, r = Err (Wrapf e "failed to get k8s resource" []).

(** A successful Create. *)
Lemma Create_Ok cl o fs cl' r' :
  o_Meta o = None → kubernetes_Create cl o fs = (Ok (), (cl', r')) →
  let opts := NewCreateOptions fs in
  ∃ key obj, resource_key (o_Kind o) (co_Name opts) = Ok key ∧ o_Kind o ∈ kube_kinds ∧ objects cl !! key = None
    ∧ objects cl' = <[key := obj]> (objects cl) ∧ ko_Kind obj = o_Kind o
    ∧ (o_Kind o ≠ KMesh → ToMap (o_Spec o) = Ok (ko_Spec obj) ∧ ko_MeshField obj = co_Mesh opts)
    ∧ o_Meta r' = Some (KubernetesMeta (adapter_of obj)).
Proof.
  intros Hm Hc opts. unfold kubernetes_Create in Hc. cbv zeta in Hc. fold opts in Hc.
  destruct (ToKubernetesObject o) as [obj|e|] eqn:Eo; [|done..]. cbn [map_err rbind] in Hc.
  destruct (ToKubernetesObject_nil_Meta o obj Hm Eo) as (spec & Hk & Hs & ->). clear Eo.
  cbn [ko_Kind set_ko_Spec empty_object] in Hc. unfold resource_key.
  destruct (k8sNameNamespace (co_Name opts) (ko_Scope (o_Kind o))) as [[name ns]|e|]; [|discriminate Hc..].
  cbn [rbind] in Hc |- *.
  set (ob := set_ko_key ns name _) in *. pose proof (client_Create_law cl ob) as Hlaw.
  assert (ko_Kind ob = o_Kind o ∧ kube_key ob = (type_name (o_Kind o), ns, name) ∧ ko_Spec ob = spec
    ∧ (o_Kind o ≠ KMesh → ko_MeshField ob = co_Mesh opts)) as (Hkind & Hkey & Hspec & Hmesh).
  { subst ob. unfold kube_key, ko_SetMesh. cbn [ko_Kind ko_Namespace ko_Name ko_Spec ko_MeshField set_ko_Spec empty_object].
    destruct (o_Kind o); split_and!; try reflexivity; intros; congruence. }
  destruct (client_Create cl ob) as [[e|obj'] cl1]; [apply (f_equal fst) in Hc; by destruct (IsAlreadyExists e)|].
  destruct Hlaw as (Hn & (Hk' & _ & _ & Hmf & Hsp) & Ho). rewrite Hkey in *.
  exists (type_name (o_Kind o), ns, name), obj'.
  destruct (ToCoreResource obj' o) as [err r1] eqn:Er. injection Hc as Herr <- <-.
  split_and!; try done.
  - congruence.
  - intros Hne. rewrite Hsp, Hmf by congruence. split; [by rewrite Hspec|by apply Hmesh].
  - unfold ToCoreResource in Er. destruct (FromMap _ _). by injection Er as _ <-.
Qed.

(** Get of a fresh resource, by what reads see. *)
Lemma Get_fresh cl k name mesh key :
  k ∈ kube_kinds → is_ok (ToMap (zero_spec k)) = true → resource_key k name = Ok key →
  let call := kubernetes_Get cl (new_object k) [GetByKey name mesh] in
  (read_failure call.1 ∧ call.2 = new_object k)
  ∨ match view cl !! key with
    | None => call = (Err (ErrorResourceNotFound (type_name k) name mesh), new_object k)
    | Some obj =>
        call = match ToCoreResource obj (new_object k) with
               | (Ok _, r') => if String.eqb (ko_GetMesh obj) mesh then (Ok (), r')
                               else (Err (ErrorResourceNotFound (type_name k) name mesh), r')
               | (err, r') => (converted err, r')
               end
    end.
Proof.
  intros Hk Hz Hkey call. destruct (ToMap (zero_spec k)) as [spec|e|] eqn:Es; [|done..].
  unfold resource_key in Hkey. apply rbind_Ok in Hkey as ([nm ns] & Hn & [= <-]).
  subst call. unfold kubernetes_Get. cbv zeta. cbn [GetByKey NewGetOptions foldl go_Name go_Mesh go_Version].
  rewrite (ToKubernetesObject_fresh k spec Hk Es). cbn [map_err rbind ko_Kind set_ko_Spec empty_object]. rewrite Hn. cbn [rbind].
  assert (GetType (new_object k) = type_name k) as Ht by (unfold GetType, o_Kind, new_object; cbn; by rewrite kind_of_zero).
  pose proof (client_Get_law cl ns nm (set_ko_Spec spec (empty_object k))) as Hlaw. cbn [ko_Kind set_ko_Spec empty_object] in Hlaw.
  unfold set_ko_Spec at 1 in Hlaw. fold (set_ko_Spec spec (empty_object k)) in Hlaw.
  destruct (client_Get cl ns nm _) as [e|obj].
  - destruct (IsNotFound e) eqn:Ee; [right|left; split; [by exists e|done]].
    rewrite (Hlaw eq_refl). by rewrite Ht.
  - destruct Hlaw as (_ & _ & Hv). rewrite Hv by (exists spec; split; [by right|done]). right.
    pose proof (ToCoreResource_kind obj (new_object k)) as Hkr.
    destruct (ToCoreResource obj (new_object k)) as [[u|e|] r'] eqn:Er; cbn [snd] in Hkr; [|done..].
    assert (GetType r' = type_name k) as Htr by (unfold GetType; rewrite Hkr; unfold o_Kind, new_object; cbn; by rewrite kind_of_zero).
    rewrite Htr. cbn [negb andb String.eqb]. by destruct (String.eqb (ko_GetMesh obj) mesh).
Qed.

(** A name that leads to no key is refused. *)
Lemma Get_no_key cl k name mesh :
  k ∈ kube_kinds → (∀ key, resource_key k name ≠ Ok key) →
  ∀ r, (kubernetes_Get cl (new_object k) [GetByKey name mesh]).1 ≠ Ok r.
Proof.
  intros Hin Hkey r. unfold kubernetes_Get. cbv zeta. cbn [NewGetOptions foldl GetByKey go_Name].
  destruct (ToKubernetesObject (new_object k)) as [ob|e|] eqn:Eo; [|done..]. apply ToKubernetesObject_kind in Eo.
  unfold o_Kind, new_object in Eo. cbn [o_Spec] in Eo. rewrite kind_of_zero in Eo. cbn [map_err rbind]. rewrite Eo.
  unfold resource_key in Hkey. destruct (k8sNameNamespace name (ko_Scope k)) as [[nm ns]|e|]; [|done..].
  by destruct (Hkey (type_name k, ns, nm)).
Qed.

(** C28: Reading what was written, on Kubernetes.  A resource that was created has
    the name and the mesh it was created with; once reads have caught up, Get with
    these gives it back with its message, and Get with any other mesh reports that
    it does not exist, unless the call to the API server fails.  Names are shared by
    all meshes: while the resource exists, none of its type and name can be created
    in any mesh, although Get in that mesh reports that there is none. *)
Theorem kubernetes_read_your_writes cl o fs cl' r' cl2 :
  o_Meta o = None → o_Kind o ≠ KMesh → is_ok (ToMap (zero_spec (o_Kind o))) = true →
  kubernetes_Create cl o fs = (Ok (), (cl', r')) → view cl2 = objects cl' →
  let k := o_Kind o in
  let name := co_Name (NewCreateOptions fs) in
  let mesh := co_Mesh (NewCreateOptions fs) in
  (∃ meta, o_Meta r' = Some meta ∧ GetName (observe meta) = name ∧ GetMesh (observe meta) = mesh
     ∧ let call := kubernetes_Get cl2 (new_object k) [GetByKey name mesh] in
       call = (Ok (), mkObject (Some meta) (o_Spec o)) ∨ read_failure call.1)
  ∧ (∀ mesh', mesh' ≠ mesh →
       let call := kubernetes_Get cl2 (new_object k) [GetByKey name mesh'] in
       call.1 = Err (ErrorResourceNotFound (type_name k) name mesh') ∨ read_failure call.1)
  ∧ ∀ cl3 o2 fs2, objects cl3 = objects cl' → o_Meta o2 = None → o_Kind o2 = k → co_Name (NewCreateOptions fs2) = name →
      (kubernetes_Create cl3 o2 fs2).1 ≠ Ok ().
Proof.
  intros Hm Hk Hz Hc Hv k name mesh.
  destruct (Create_Ok cl o fs cl' r' Hm Hc) as (key & obj & Hkey & Hin & _ & Hobj & Hkind & Hspec & Hmeta).
  destruct (Hspec Hk) as [Hs Hmf]. fold k name in Hkey, Hin, Hkind, Hz. fold mesh in Hmf.
  assert (objects cl' !! key = Some obj) as Hlook by (rewrite Hobj; apply lookup_insert_eq).
  clear Hc. assert (k ≠ KMesh) as Hkm by exact Hk.
  assert (ko_GetMesh obj = mesh) as Hgm by (unfold ko_GetMesh; rewrite Hkind; clearbody k; destruct k; [congruence|exact Hmf..]).
  pose proof (ToCoreResource_fresh obj o k Hs eq_refl) as Hfresh.
  pose proof (λ m, Get_fresh cl2 k name m key Hin Hz Hkey) as Hget. rewrite Hv, Hlook, Hfresh, Hgm in Hget. cbv zeta in Hget.
  split; [|split].
  - exists (KubernetesMeta (adapter_of obj)). split; [done|]. cbn [observe GetName GetMesh]. split.
    { destruct (objects_key cl' key obj Hlook) as [Hok _]. unfold resource_key in Hkey.
      apply rbind_Ok in Hkey as ([nm ns] & Hn & [= <-]). unfold kube_key in Hok. injection Hok as _ Hns Hnm.
      unfold KubernetesMetaAdapter_GetName, adapter_of. cbn [ka_Namespace ka_Name]. rewrite Hns, Hnm.
      assert (ko_Scope k = ScopeNamespace) as Hsc by (clearbody k; destruct k; [congruence|reflexivity..]). rewrite Hsc in Hn.
      destruct (CoreName_roundtrip name nm ns Hn) as [Hr Hne]. by rewrite (proj2 (String.eqb_neq _ _) Hne). }
    split; [done|]. destruct (Hget mesh) as [[Hf _]|Hg]; [by right|left]. rewrite Hg. by rewrite String.eqb_refl.
  - intros mesh' Hne. destruct (Hget mesh') as [[Hf _]|Hg]; [by right|left]. rewrite Hg.
    by rewrite (proj2 (String.eqb_neq mesh mesh')) by congruence.
  - intros cl3 o2 fs2 Ho Hm2 Hk2 Hn2 Hc2. destruct (kubernetes_Create cl3 o2 fs2) as [r2 [cl4 o4]] eqn:E2. cbn [fst] in Hc2. subst r2.
    destruct (Create_Ok cl3 o2 fs2 cl4 o4 Hm2 E2) as (key2 & _ & Hkey2 & _ & Hnone & _).
    rewrite Hk2, Hn2 in Hkey2. rewrite Hkey in Hkey2. injection Hkey2 as <-. rewrite Ho in Hnone. congruence.
Qed.

(** Delete removes only the object of the name, and only when the mesh that
    reads see for it is the one asked for; a successful Delete leaves no object of
    that name. *)
Theorem kubernetes_Delete_exact cl k name mesh :
  k ∈ kube_kinds → is_ok (ToMap (zero_spec k)) = true →
  let '(r, cl') := kubernetes_Delete cl (new_object k) [DeleteByKey name mesh] in
  (objects cl' = objects cl
   ∨ ∃ key obj, resource_key k name = Ok key ∧ view cl !! key = Some obj ∧ ko_GetMesh obj = mesh
       ∧ objects cl' = delete key (objects cl))
  ∧ (r = Ok () → ∃ key, resource_key k name = Ok key ∧ objects cl' = delete key (objects cl) ∧ is_Some (view cl !! key)).
Proof.
  intros Hin Hz. unfold kubernetes_Delete. cbv zeta. cbn [NewDeleteOptions foldl DeleteByKey do_Name do_Mesh].
  destruct (resource_key k name) as [key|e|] eqn:Hkey.
  2-3: pose proof (Get_no_key cl k name mesh Hin ltac:(rewrite Hkey; by intros ?)) as Hno;
    destruct (kubernetes_Get cl (new_object k) [GetByKey name mesh]) as [[[]|?|] r]; [by destruct (Hno ())| |]; split; auto; done.
  pose proof (Get_fresh cl k name mesh key Hin Hz Hkey) as Hget. cbv zeta in Hget.
  destruct (kubernetes_Get cl (new_object k) [GetByKey name mesh]) as [[[]|e|] r]; cbn [fst snd] in Hget; [|split; [by left|done]..].
  destruct Hget as [[(e & He) _]|Hget]; [discriminate He|].
  destruct (view cl !! key) as [obj|] eqn:Ev; [|discriminate Hget].
  pose proof (ToCoreResource_kind obj (new_object k)) as Hkr.
  destruct (ToCoreResource obj (new_object k)) as [[[]|e|] r1]; [|discriminate Hget..].
  destruct (String.eqb_spec (ko_GetMesh obj) mesh) as [Hmesh|]; [|discriminate Hget]. injection Hget as ->. cbn [snd] in Hkr.
  assert (o_Kind (new_object k) = k) as Hnk by (unfold o_Kind, new_object; cbn; apply kind_of_zero). rewrite Hnk in Hkr.
  pose proof (ToKubernetesObject_kind r1) as Hob.
  destruct (ToKubernetesObject r1) as [ob|e|]; [|split; [by left|discriminate]..]. specialize (Hob ob eq_refl). rewrite Hkr in Hob.
  cbn [map_err rbind].
  rewrite Hob. pose proof Hkey as Hkey'. unfold resource_key in Hkey'. apply rbind_Ok in Hkey' as ([nm ns] & Hn & [= Hk]). rewrite Hn.
  cbn [rbind]. pose proof (client_Delete_law cl (set_ko_key ns nm ob)) as Hlaw.
  assert (kube_key (set_ko_key ns nm ob) = key) as Hkk by (unfold kube_key; cbn; by rewrite Hob). rewrite Hkk in Hlaw.
  destruct (client_Delete cl (set_ko_key ns nm ob)) as [[e|] cl'].
  - destruct Hlaw as [Hl Hnf]. split.
    + destruct Hl as [->|Hl]; [by left|right]. by exists key, obj.
    + destruct (IsNotFound e); [|done]. intros _. destruct (Hnf eq_refl) as [Hnone Ho]. exists key.
      split; [done|]. split; [|by rewrite Ev]. rewrite Ho. symmetry. by apply delete_id.
  - split; [right; by exists key, obj|]. intros _. exists key. split; [done|]. split; [done|by rewrite Ev].
Qed.
End Theorems.

(** ** A concrete API server *)

Section SampleCluster.

#[local] Instance sample_JsonMap : JsonMap := {| RawMap := string; nil_map := ""; unmarshal_map := Ok; marshal_map := Ok |}.

(** A codec for the empty dataplane and for one other, that reads a mesh as it is. *)
Definition kube_dp : Dataplane := mkDataplane (Some (mkNetworking "10.0.0.1" [] [] None)) None.
#[local] Instance kube_jsonpb : Jsonpb :=
  {| jsonpb_Marshal := λ spec,
       match spec with
       | DataplaneSpec d =>
           if decide (d = mkDataplane None None) then Ok "{}" else if decide (d = kube_dp) then Ok "dp"
           else Err (Errorf "unsupported message" [])
       | _ => Err (Errorf "unsupported message" [])
       end;
     jsonpb_Unmarshal := λ s out,
       match out with
       | DataplaneSpec _ =>
           if String.eqb s "{}" then (Ok (), DataplaneSpec (mkDataplane None None)) else (Ok (), DataplaneSpec kube_dp)
       | MeshSpec m => (Ok (), MeshSpec m)
       | _ => (Err (Errorf "unsupported message" []), out)
       end |}.

#[local] Instance kube_jsonpb_lawful : LawfulJsonpb.
Proof.
  constructor.
  - intros s []; try done. simpl. by destruct (String.eqb s "{}").
  - intros spec s Hs. destruct spec as [|d| | | | | | | | | |]; try done. cbn in Hs.
    destruct (decide (d = mkDataplane None None)) as [->|]; [by injection Hs as <-|].
    destruct (decide (d = kube_dp)) as [->|]; [by injection Hs as <-|done].
Qed.
#[local] Instance sample_JsonMap_lawful : LawfulJsonMap.
Proof. constructor. intros spec content Hc. by exists content, content. Qed.

Definition cluster : Type := kube_state K8sObject.
Definition sane (kr : (string * string * string) * K8sObject) : Prop := kube_key kr.2 = kr.1 ∧ ko_ResourceVersion kr.2 ≠ "".
#[local] Instance sane_dec kr : Decision (sane kr) := _.
Definition cluster_objects (c : cluster) : cluster := filter sane c.

Definition with_version (v : string) (o : K8sObject) : K8sObject :=
  mkK8sObject (ko_Kind o) (ko_Namespace o) (ko_Name o) v (ko_CreationTimestamp o) (ko_Rest o) (ko_MeshField o) (ko_Spec o).
Definition kube_reason (reason : string) : goerror := Errorf reason [].

#[local] Instance cluster_client : KubeClient cluster :=
  {| client_Create := λ c o, let c := cluster_objects c in
       match c !! kube_key o with
       | Some _ => (inl (kube_reason "AlreadyExists"), c)
       | None => let o' := with_version "1" o in (inr o', <[kube_key o := o']> c)
       end;
     client_Update := λ c o, let c := cluster_objects c in
       match c !! kube_key o with
       | Some old =>
           if decide (ko_ResourceVersion o = ko_ResourceVersion old)
           then let o' := with_version (ko_ResourceVersion old +:+ "1") o in (inr o', <[kube_key o := o']> c)
           else (inl (kube_reason "Conflict"), c)
       | None => (inl (kube_reason "NotFound"), c)
       end;
     client_Delete := λ c o, let c := cluster_objects c in
       match c !! kube_key o with
       | Some _ => (None, delete (kube_key o) c)
       | None => (Some (kube_reason "NotFound"), c)
       end;
     client_Get := λ c namespace name o,
       match cluster_objects c !! (type_name (ko_Kind o), namespace, name) with
       | Some o' => inr o'
       | None => inl (kube_reason "NotFound")
       end;
     client_List := λ c l page,
       if String.eqb (default "" (snd <$> page)) "" then
         inr (mkK8sList (kl_Kind l) ((map_to_list (cluster_objects c)).*2 ≫= λ o, if bool_decide (ko_Kind o = kl_Kind l) then [o] else []) "")
       else inl (kube_reason "invalid continue token") |}.
#[local] Instance cluster_errors : KubeErrors :=
  {| IsNotFound := λ e, bool_decide (e = kube_reason "NotFound");
     IsAlreadyExists := λ e, bool_decide (e = kube_reason "AlreadyExists");
     IsConflict := λ e, bool_decide (e = kube_reason "Conflict") |}.

Lemma cluster_sane c k o : cluster_objects c !! k = Some o → kube_key o = k ∧ ko_ResourceVersion o ≠ "".
Proof. by intros [_ [Hk Hv]]%map_lookup_filter_Some. Qed.

Lemma cluster_objects_id c : (∀ k o, c !! k = Some o → sane (k, o)) → cluster_objects c = c.
Proof. intros Hc. by apply map_filter_id. Qed.

Lemma cluster_objects_idem c : cluster_objects (cluster_objects c) = cluster_objects c.
Proof. apply cluster_objects_id. intros k o. apply cluster_sane. Qed.

Lemma cluster_objects_insert c v o :
  v ≠ "" → cluster_objects (<[kube_key o := with_version v o]> (cluster_objects c)) = <[kube_key o := with_version v o]> (cluster_objects c).
Proof. intros Hv. apply cluster_objects_id. intros k x [[<- <-]|[_ Hk]]%lookup_insert_Some; [by split|by apply (cluster_sane c)]. Qed.

#[local] Program Instance cluster_lawful : LawfulKubeClient cluster :=
  {| objects := cluster_objects; view := cluster_objects;
     remaining := λ c k token,
       if String.eqb token "" then (map_to_list (cluster_objects c)).*2 ≫= λ o, if bool_decide (ko_Kind o = k) then [o] else []
       else [] |}.
Next Obligation. apply cluster_sane. Qed.
Next Obligation. apply cluster_sane. Qed.
Next Obligation.
  intros c o. cbn [client_Create cluster_client]. destruct (cluster_objects c !! kube_key o) as [old|] eqn:E.
  - split; [left; apply cluster_objects_idem|]. intros _. split; [done|apply cluster_objects_idem].
  - split; [done|]. split; [by repeat split|]. by apply cluster_objects_insert.
Qed.
Next Obligation.
  intros c o. cbn [client_Update cluster_client]. destruct (cluster_objects c !! kube_key o) as [old|] eqn:E.
  - destruct (decide (ko_ResourceVersion o = ko_ResourceVersion old)) as [Hv|Hv]; [|left; apply cluster_objects_idem].
    exists old. split; [done|]. split; [by right|]. split; [by repeat split|]. split.
    + right. cbn. intros Heq. apply (f_equal String.length) in Heq. rewrite string_length_app in Heq. simpl in Heq. lia.
    + apply cluster_objects_insert. by destruct (ko_ResourceVersion old).
  - left. apply cluster_objects_idem.
Qed.
Next Obligation.
  intros c o. cbn [client_Delete cluster_client]. destruct (cluster_objects c !! kube_key o) as [old|] eqn:E.
  - apply cluster_objects_id. intros k x [_ Hk]%lookup_delete_Some. by apply (cluster_sane c).
  - split; [left; apply cluster_objects_idem|]. intros _. split; [done|apply cluster_objects_idem].
Qed.
Next Obligation.
  intros c ns name o. cbn [client_Get cluster_client]. destruct (cluster_objects c !! _) as [o'|] eqn:E; [|done].
  destruct (cluster_sane c _ _ E) as [Hk _]. injection Hk as Hk _ _. split; [by apply type_name_inj|done].
Qed.
Next Obligation. done. Qed.
Next Obligation.
  intros c l page l'. cbn [client_List cluster_client]. destruct (String.eqb (default "" (snd <$> page)) "") eqn:E; [|done].
  intros [= <-]. split; [done|]. split; [|done]. symmetry. apply app_nil_r.
Qed.

(** The dataplane of a pod. *)
Definition kube_created : res unit * (cluster * Object) :=
  kubernetes_Create (∅ : cluster) (mkObject None (DataplaneSpec kube_dp)) [CreateByKey "web.demo" "default"].

Lemma kube_created_Ok :
  kubernetes_Create (∅ : cluster) (mkObject None (DataplaneSpec kube_dp)) [CreateByKey "web.demo" "default"]
  = (Ok (), (kube_created.2.1, kube_created.2.2)).
Proof.
  fold kube_created. rewrite (surjective_pairing kube_created) at 1. rewrite (surjective_pairing kube_created.2) at 1.
  assert (kube_created.1 = Ok ()) as -> by (vm_compute; reflexivity). reflexivity.
Qed.

Lemma kubernetes_read_your_writes_witness :
  ∃ meta, o_Meta kube_created.2.2 = Some meta ∧ GetName (observe meta) = "web.demo"
    ∧ let call := kubernetes_Get kube_created.2.1 (new_object KDataplane) [GetByKey "web.demo" "default"] in
      call = (Ok (), mkObject (Some meta) (DataplaneSpec kube_dp)) ∨ read_failure call.1.
Proof.
  destruct (kubernetes_read_your_writes (∅ : cluster) (mkObject None (DataplaneSpec kube_dp)) [CreateByKey "web.demo" "default"]
    kube_created.2.1 kube_created.2.2 kube_created.2.1 eq_refl ltac:(discriminate) eq_refl kube_created_Ok eq_refl)
    as [(meta & Hm & Hn & _ & Hg) _].
  exists meta. split; [exact Hm|]. split; [exact Hn|exact Hg].
Defined.

Lemma kubernetes_Delete_exact_witness :
  let '(r, c) := kubernetes_Delete kube_created.2.1 (new_object KDataplane) [DeleteByKey "web.demo" "default"] in
  r = Ok () → ∃ key, resource_key KDataplane "web.demo" = Ok key ∧ objects c = delete key (objects kube_created.2.1).
Proof.
  pose proof (kubernetes_Delete_exact kube_created.2.1 KDataplane "web.demo" "default"
    ltac:(vm_compute; repeat constructor) eq_refl) as Hd.
  destruct (kubernetes_Delete kube_created.2.1 (new_object KDataplane) [DeleteByKey "web.demo" "default"]) as [r c].
  destruct Hd as [_ Hd]. intros Hr. destruct (Hd Hr) as (key & Hk & Ho & _). exists key. split; [exact Hk|exact Ho].
Defined.
End SampleCluster.
