(* ===== verification/KubernetesSecrets.v ===== *)
(** * The Kubernetes secret store

    Models [pkg/plugins/secrets/k8s/store.go], which keeps the secrets of the control
    plane as Kubernetes secrets of its namespace, behind the interface [SecretStore]
    of the secret manager. *)

From S2P Require Import Prelude GoStd Dataplane Resources Store MemoryStore Secrets Kubernetes.
Local Open Scope string_scope.
Local Open Scope list_scope.
Local Open Scope Z_scope.

(** ** Kubernetes secrets *)

(** [Data] is a map that may be nil. *)
Record KubeSecret : Type := mkKubeSecret {
  ks_Namespace : string;
  ks_Name : string;
  ks_ResourceVersion : string;
  ks_CreationTimestamp : Z;
  ks_Labels : gmap string string;
  ks_Rest : string;
  ks_Type : string;
  ks_Data : option (gmap string string);
}.

Definition secretType : string := "system.kuma.io/secret".

(** The reader and the writer; a listing is limited by a namespace, labels and the
    value of the field [type]. *)
Class KubeSecretClient (Cl : Type) : Type := {
  writer_Create : Cl → KubeSecret → (goerror + KubeSecret) * Cl;
  writer_Update : Cl → KubeSecret → (goerror + KubeSecret) * Cl;
  writer_Delete : Cl → KubeSecret → option goerror * Cl;
  reader_Get : Cl → string → string → goerror + KubeSecret;
  reader_List : Cl → string → gmap string string → string → goerror + list KubeSecret;
}.

Definition set_ks_Namespace (namespace : string) (s : KubeSecret) : KubeSecret :=
  mkKubeSecret namespace (ks_Name s) (ks_ResourceVersion s) (ks_CreationTimestamp s) (ks_Labels s) (ks_Rest s) (ks_Type s) (ks_Data s).
Definition set_ks_Name (name : string) (s : KubeSecret) : KubeSecret :=
  mkKubeSecret (ks_Namespace s) name (ks_ResourceVersion s) (ks_CreationTimestamp s) (ks_Labels s) (ks_Rest s) (ks_Type s) (ks_Data s).
Definition set_ks_Labels (labels : gmap string string) (s : KubeSecret) : KubeSecret :=
  mkKubeSecret (ks_Namespace s) (ks_Name s) (ks_ResourceVersion s) (ks_CreationTimestamp s) labels (ks_Rest s) (ks_Type s) (ks_Data s).

(** ** The converter *)

(** The labels other than the mesh are dropped; the operand of the error is the
    metadata, kept as its name. *)
Definition secret_ToKubernetesObject (r : Object) : res KubeSecret :=
  let data : gmap string string := {["value" := secret_value r]} in
  match o_Meta r with
  | None => Ok (mkKubeSecret "" "" "" zeroTime ∅ "" secretType (Some data))
  | Some (KubernetesSecretMeta adapter) =>
      Ok (mkKubeSecret (sa_Namespace adapter) (sa_Name adapter) (sa_ResourceVersion adapter) (sa_CreationTimestamp adapter)
            {[meshLabel := SecretMetaAdapter_GetMesh adapter]} (sa_Rest adapter) secretType (Some data))
  | Some meta => Err (Errorf "meta has unexpected type: %#v" [AStr (GetName (observe meta))])
  end.

Definition secret_adapter (secret : KubeSecret) : KubernetesSecretMetaAdapter :=
  mkSecretAdapter (ks_Namespace secret) (ks_Name secret) (ks_ResourceVersion secret) (ks_CreationTimestamp secret)
    (ks_Labels secret) (ks_Rest secret).

Definition secret_ToCoreResource (secret : KubeSecret) (out : Object) : Object :=
  mkObject (Some (KubernetesSecretMeta (secret_adapter secret)))
    (match ks_Data secret with
     | Some data => SecretSpec (mkSecret (Some (default "" (data !! "value"))))
     | None => o_Spec out
     end).

(** The items replace those of the list. *)
Definition secret_ToCoreList (items : list KubeSecret) (out : ObjectList) : ObjectList :=
  mkObjectList (ol_Kind out) ((λ secret, secret_ToCoreResource secret (new_object KSecret)) <$> items) (NextOffset out).

(** ** store.go *)

Section Store.
Context `{KubeErrors} {Cl : Type} `{KubeSecretClient Cl} (namespace : string).

Definition secret_not_convertible : goerror → goerror :=
  λ e, Wrapf e "failed to convert core Secret into k8s counterpart" [].

Definition kube_secret_Create (s : Cl) (r : Object) (fs : list CreateOptionsFunc) : res unit * (Cl * Object) :=
  let opts := NewCreateOptions fs in
  match map_err secret_not_convertible (secret_ToKubernetesObject r) with
  | Panic => (Panic, (s, r))
  | Err e => (Err e, (s, r))
  | Ok secret =>
      let secret := set_ks_Labels {[meshLabel := co_Mesh opts]} (set_ks_Name (co_Name opts) (set_ks_Namespace namespace secret)) in
      match writer_Create s secret with
      | (inl err, s') =>
          (if IsAlreadyExists err then Err (ErrorResourceAlreadyExists (GetType r) (ks_Name secret) (co_Mesh opts))
           else Err (Wrapf err "failed to create k8s Secret" []), (s', r))
      | (inr secret', s') => (Ok (), (s', secret_ToCoreResource secret' r))
      end
  end.

Definition kube_secret_Update (s : Cl) (r : Object) (fs : list UpdateOptionsFunc) : res unit * (Cl * Object) :=
  match map_err secret_not_convertible (secret_ToKubernetesObject r) with
  | Panic => (Panic, (s, r))
  | Err e => (Err e, (s, r))
  | Ok secret =>
      let secret := set_ks_Namespace namespace secret in
      match writer_Update s secret with
      | (inl err, s') =>
          (if IsConflict err
           then match o_Meta r with
                | Some meta => Err (ErrorResourceConflict (GetType r) (ks_Name secret) (GetMesh (observe meta)))
                | None => Panic
                end
           else Err (Wrapf err "failed to update k8s Secret" []), (s', r))
      | (inr secret', s') => (Ok (), (s', secret_ToCoreResource secret' r))
      end
  end.

(** The mesh is not looked at. *)
Definition kube_secret_Delete (s : Cl) (r : Object) (fs : list DeleteOptionsFunc) : res unit * Cl :=
  let opts := NewDeleteOptions fs in
  match map_err secret_not_convertible (secret_ToKubernetesObject r) with
  | Panic => (Panic, s)
  | Err e => (Err e, s)
  | Ok secret =>
      let secret := set_ks_Name (do_Name opts) (set_ks_Namespace namespace secret) in
      match writer_Delete s secret with
      | (None, s') => (Ok (), s')
      | (Some err, s') => (if IsNotFound err then Ok () else Err (Wrapf err "failed to delete k8s Secret" []), s')
      end
  end.

(** Neither the mesh nor the version is looked at. *)
Definition kube_secret_Get (s : Cl) (r : Object) (fs : list GetOptionsFunc) : res unit * Object :=
  let opts := NewGetOptions fs in
  match reader_Get s namespace (go_Name opts) with
  | inl err =>
      (if IsNotFound err then Err (ErrorResourceNotFound (GetType r) (go_Name opts) (go_Mesh opts))
       else Err (Wrapf err "failed to get k8s secret" []), r)
  | inr secret => (Ok (), secret_ToCoreResource secret r)
  end.

Definition kube_secret_List (s : Cl) (rs : ObjectList) (fs : list ListOptionsFunc) : res unit * ObjectList :=
  let opts := NewListOptions fs in
  let labels := if negb (String.eqb (lo_Mesh opts) "") then {[meshLabel := lo_Mesh opts]} else ∅ in
  match reader_List s namespace labels secretType with
  | inl err => (Err (Wrapf err "failed to list k8s Secrets" []), rs)
  | inr secrets => (Ok (), secret_ToCoreList secrets rs)
  end.

Definition NewKubeSecretStore : SecretStore Cl :=
  mkSecretStore kube_secret_Create kube_secret_Update kube_secret_Delete kube_secret_Get kube_secret_List.
End Store.

(** ** What the API server does *)

Definition secret_key_of (s : KubeSecret) : string * string := (ks_Namespace s, ks_Name s).
(** The server adds a version and times. *)
Definition same_secret (s s' : KubeSecret) : Prop :=
  secret_key_of s' = secret_key_of s ∧ ks_Labels s' = ks_Labels s ∧ ks_Type s' = ks_Type s ∧ ks_Data s' = ks_Data s.

(** The reader asks the server, not a cache. *)
Class LawfulKubeSecretClient (Cl : Type) `{KubeErrors} `{KubeSecretClient Cl} : Type := {
  secrets : Cl → gmap (string * string) KubeSecret;
  writer_Create_law cl s :
    match writer_Create cl s with
    | (inr s', cl') => secrets cl !! secret_key_of s = None ∧ same_secret s s' ∧ secrets cl' = <[secret_key_of s := s']> (secrets cl)
    | (inl e, cl') => secrets cl' = secrets cl
        ∨ ∃ s', secrets cl !! secret_key_of s = None ∧ same_secret s s' ∧ secrets cl' = <[secret_key_of s := s']> (secrets cl)
    end;
  writer_Delete_law cl s :
    match writer_Delete cl s with
    | (None, cl') => secrets cl' = delete (secret_key_of s) (secrets cl)
    | (Some e, cl') => (secrets cl' = secrets cl ∨ secrets cl' = delete (secret_key_of s) (secrets cl))
        ∧ (IsNotFound e = true → secrets cl !! secret_key_of s = None)
    end;
  reader_Get_law cl namespace name :
    match reader_Get cl namespace name with
    | inr s => secrets cl !! (namespace, name) = Some s
    | inl e => IsNotFound e = true → secrets cl !! (namespace, name) = None
    end;
  reader_List_law cl namespace labels type l :
    reader_List cl namespace labels type = inr l →
    ∀ s, s ∈ l ↔ secrets cl !! secret_key_of s = Some s ∧ ks_Namespace s = namespace ∧ labels ⊆ ks_Labels s ∧ ks_Type s = type;
}.

(** ** The secrets of a mesh *)

Section Theorems.
Context `{HKe : KubeErrors} {Cl : Type} `{HCl : KubeSecretClient Cl} `{HL : !LawfulKubeSecretClient Cl} `{Hc : Cipher} `{HLc : !LawfulCipher}.
Variable namespace : string.

Let manager : SecretManager Cl := NewSecretManager (NewKubeSecretStore namespace).

(** A call to the API server that failed. *)
Definition secret_failure {A} (r : res A) : Prop :=
  ∃ e msg, r = Err (Wrapf e msg []) ∧ msg ∈ ["failed to get k8s secret"; "failed to delete k8s Secret"; "failed to list k8s Secrets"].

(** A secret created through the manager. *)
Lemma kube_secret_created now cl v fs cl' o' :
  v ≠ "" → sm_Create manager now cl (new_secret v) fs = (Ok (), (cl', o')) →
  ∃ s e, secrets cl' = <[(namespace, co_Name (NewCreateOptions (fs ++ [CreatedAt now]))) := s]> (secrets cl)
    ∧ Encrypt v = Ok e ∧ ks_Data s = Some {["value" := e]} ∧ ks_Type s = secretType
    ∧ ks_Labels s = {[meshLabel := co_Mesh (NewCreateOptions (fs ++ [CreatedAt now]))]}.
Proof.
  intros Hv. unfold manager, NewSecretManager, sm_Create, secret_Create, encrypt, crypt. change (secret_value (new_secret v)) with v.
  rewrite (proj2 (String.eqb_neq v "") Hv). destruct (Encrypt v) as [e|?|] eqn:Ee; [|discriminate..].
  cbn [set_secret_value o_Meta new_secret]. unfold ss_Create, NewKubeSecretStore, kube_secret_Create. unfold secret_ToKubernetesObject.
  cbn [set_secret_value new_secret o_Meta map_err secret_value o_Spec default].
  set (opts := NewCreateOptions (fs ++ [CreatedAt now])). 
  match goal with |- context [writer_Create cl ?s] => set (s0 := s) end.
  pose proof (writer_Create_law cl s0) as Hlaw. destruct (writer_Create cl s0) as [[err|s] cl1].
  { destruct (IsAlreadyExists err); discriminate. }
  destruct Hlaw as (_ & (Hk & Hl & Ht & Hd) & Hs). destruct (decrypt _) as [err o1]. intros [= _ <- _].
  exists s, e. split; [exact Hs|]. split; [done|]. split; [by rewrite Hd|]. split; [by rewrite Ht|by rewrite Hl].
Qed.

(** C29: The mesh of a secret does not protect it on Kubernetes.  A secret that was
    created through the manager for one mesh is not listed for another mesh; but
    a data source of any mesh that names it loads its value, and a Delete for any
    mesh removes it, unless a call to the API server fails. *)
Theorem kube_secret_crosses_meshes now cl v name mesh cl' o' mesh2 ReadFile :
  v ≠ "" → sm_Create manager now cl (new_secret v) [CreateByKey name mesh] = (Ok (), (cl', o')) →
  (mesh2 ≠ mesh → mesh2 ≠ "" → ∀ l, kube_secret_List namespace cl' (new_list KSecret) [ListByMesh mesh2] = (Ok (), l) →
     ∀ item meta, item ∈ GetItems l → o_Meta item = Some meta → GetName (observe meta) ≠ name)
  ∧ (let value := Load manager ReadFile cl' mesh2 (Some (mkDataSource (Some (DS_Secret name)))) in
     value = Ok v ∨ ∃ e, value = Err e ∧ ∃ e', e = Wrapf (Wrapf e' "failed to get k8s secret" []) "could not load data" [])
  ∧ ∀ cl2, sm_Delete manager cl' (new_object KSecret) [DeleteByKey name mesh2] = (Ok (), cl2) →
      secrets cl2 = delete (namespace, name) (secrets cl').
Proof.
  intros Hv Hc'. destruct (kube_secret_created now cl v _ cl' o' Hv Hc') as (s & e & Hs & He & Hd & Ht & Hl).
  cbn [app NewCreateOptions foldl CreateByKey CreatedAt co_Name co_Mesh] in *. clear Hc'.
  assert (secrets cl' !! (namespace, name) = Some s) as Hin by (rewrite Hs; apply lookup_insert_eq).
  split; [|split].
  - intros Hne Hne' l. unfold kube_secret_List. cbn [NewListOptions foldl ListByMesh lo_Mesh].
    rewrite (proj2 (String.eqb_neq mesh2 "") Hne'). cbn [negb].
    destruct (reader_List cl' namespace _ _) as [err|items] eqn:El; [discriminate|]. intros [= <-] item meta.
    cbn [GetItems secret_ToCoreList]. intros (x & -> & Hx)%list_elem_of_fmap [= <-]. cbn [observe GetName sa_Name secret_adapter].
    intros Hname. apply (reader_List_law _ _ _ _ _ El) in Hx as (Hlook & Hns & Hsub & _).
    assert (x = s) as -> by (unfold secret_key_of in Hlook; rewrite Hns, Hname, Hin in Hlook; congruence).
    rewrite Hl in Hsub. apply map_singleton_subseteq_l in Hsub. rewrite lookup_singleton_eq in Hsub. congruence.
  - unfold Load, DataSource_GetType. cbn [mbind option_bind ds_Type]. unfold loadSecret, manager, NewSecretManager, sm_Get, secret_Get.
    unfold ss_Get, NewKubeSecretStore, kube_secret_Get. cbn [NewGetOptions foldl GetByKey go_Name go_Mesh].
    pose proof (reader_Get_law cl' namespace name) as Hg. destruct (reader_Get cl' namespace name) as [err|s'].
    + destruct (IsNotFound err) eqn:En; [by specialize (Hg eq_refl); congruence|]. right. cbn. eauto.
    + left. assert (s' = s) as -> by congruence. unfold secret_ToCoreResource. rewrite Hd. unfold decrypt, crypt.
      match goal with |- context [secret_value ?r] => assert (secret_value r = e) as Hval end.
      { unfold secret_value. cbn [o_Spec]. by rewrite lookup_singleton_eq. }
      rewrite Hval.
      destruct (decrypt_encrypt v e Hv He) as [Hne Hdec].
      rewrite (proj2 (String.eqb_neq e "") Hne), Hdec. done.
  - intros cl2. unfold manager, NewSecretManager, sm_Delete, secret_Delete, ss_Delete, NewKubeSecretStore, kube_secret_Delete, secret_ToKubernetesObject.
    cbn [new_object o_Meta map_err NewDeleteOptions foldl DeleteByKey do_Name].
    match goal with |- context [writer_Delete cl' ?s] => set (s0 := s) end. assert (secret_key_of s0 = (namespace, name)) as Hk by done.
    pose proof (writer_Delete_law cl' s0) as Hlaw. rewrite Hk in Hlaw. destruct (writer_Delete cl' s0) as [[err|] cl3].
    + destruct Hlaw as [_ Hnf]. destruct (IsNotFound err); [|discriminate]. specialize (Hnf eq_refl). congruence.
    + by intros [= <-].
Qed.
End Theorems.

(** ** A concrete cluster *)

Section SampleCluster.

#[local] Instance secret_errors : KubeErrors :=
  {| IsNotFound := λ e, bool_decide (e = Errorf "NotFound" []);
     IsAlreadyExists := λ e, bool_decide (e = Errorf "AlreadyExists" []);
     IsConflict := λ e, bool_decide (e = Errorf "Conflict" []) |}.

Definition secret_cluster : Type := gmap (string * string) KubeSecret.
Definition listed (namespace : string) (labels : gmap string string) (type : string) (kr : (string * string) * KubeSecret) : Prop :=
  secret_key_of kr.2 = kr.1 ∧ ks_Namespace kr.2 = namespace ∧ labels ⊆ ks_Labels kr.2 ∧ ks_Type kr.2 = type.
#[local] Instance listed_dec namespace labels type kr : Decision (listed namespace labels type kr) := _.

#[local] Instance sample_secret_client : KubeSecretClient secret_cluster :=
  {| writer_Create := λ c s,
       match c !! secret_key_of s with
       | Some _ => (inl (Errorf "AlreadyExists" []), c)
       | None => (inr s, <[secret_key_of s := s]> c)
       end;
     writer_Update := λ c s,
       match c !! secret_key_of s with
       | Some _ => (inr s, <[secret_key_of s := s]> c)
       | None => (inl (Errorf "NotFound" []), c)
       end;
     writer_Delete := λ c s,
       match c !! secret_key_of s with
       | Some _ => (None, delete (secret_key_of s) c)
       | None => (Some (Errorf "NotFound" []), c)
       end;
     reader_Get := λ c namespace name,
       match c !! (namespace, name) with Some s => inr s | None => inl (Errorf "NotFound" []) end;
     reader_List := λ c namespace labels type, inr ((filter (listed namespace labels type) (map_to_list c)).*2) |}.

#[local] Program Instance sample_secret_lawful : LawfulKubeSecretClient secret_cluster := {| secrets := λ c, c |}.
Next Obligation.
  intros c s. cbn. destruct (c !! secret_key_of s) as [old|] eqn:E; [by left|]. split; [done|]. split; [by repeat split|done].
Qed.
Next Obligation.
  intros c s. cbn. destruct (c !! secret_key_of s) as [old|] eqn:E; [done|]. split; [by left|done].
Qed.
Next Obligation. intros c ns name. cbn. by destruct (c !! (ns, name)) as [s|] eqn:E. Qed.
Next Obligation.
  intros c ns labels type l [= <-] s. rewrite list_elem_of_fmap. split.
  - intros ([k s'] & -> & [(Hk & Hns & Hl & Ht) Hin]%list_elem_of_filter). simpl in *. subst k.
    apply elem_of_map_to_list in Hin. done.
  - intros (Hlook & Hns & Hl & Ht). exists (secret_key_of s, s). split; [done|]. apply list_elem_of_filter.
    split; [by repeat split|]. by apply elem_of_map_to_list.
Qed.

#[local] Existing Instance none_cipher.
#[local] Existing Instance none_lawful.

(** A secret of the mesh [demo], read for the mesh [default]. *)
Definition crossed : res unit * (secret_cluster * Object) :=
  sm_Create (NewSecretManager (NewKubeSecretStore "kuma-system")) 1 (∅ : secret_cluster) (new_secret "key") [CreateByKey "s" "demo"].

Lemma crossed_Ok :
  sm_Create (NewSecretManager (NewKubeSecretStore "kuma-system")) 1 (∅ : secret_cluster) (new_secret "key") [CreateByKey "s" "demo"]
  = (Ok (), (crossed.2.1, crossed.2.2)).
Proof.
  fold crossed. rewrite (surjective_pairing crossed) at 1. rewrite (surjective_pairing crossed.2) at 1.
  assert (crossed.1 = Ok ()) as -> by (vm_compute; reflexivity). reflexivity.
Qed.

Lemma kube_secret_crosses_meshes_witness :
  let value := Load (NewSecretManager (NewKubeSecretStore "kuma-system")) Ok crossed.2.1 "default"
                 (Some (mkDataSource (Some (DS_Secret "s")))) in
  value = Ok "key" ∨ ∃ e, value = Err e ∧ ∃ e', e = Wrapf (Wrapf e' "failed to get k8s secret" []) "could not load data" [].
Proof.
  exact (proj1 (proj2 (kube_secret_crosses_meshes "kuma-system" 1 (∅ : secret_cluster) "key" "s" "demo" crossed.2.1 crossed.2.2
    "default" Ok ltac:(discriminate) crossed_Ok))).
Defined.
End SampleCluster.
