(* ===== verification/Injector.v ===== *)
(** * The sidecar injector

    Models [app/kuma-injector/pkg/injector/injector.go] and the handler of
    [app/kuma-injector/pkg/server/webhook.go]: what is added to a pod that is
    created, and that the discovery reads it back. *)

From S2P Require Import Prelude GoStd GoTime Dataplane MeshResources CoreXds Resources Store MemoryStore Kubernetes KubernetesStore PodConverter InjectorConfig.
Local Open Scope string_scope.
Local Open Scope list_scope.
Local Open Scope Z_scope.

Definition KumaSidecarContainerName : string := "kuma-sidecar".
Definition KumaInitContainerName : string := "kuma-init".
Definition serviceAccountTokenMountPath : string := "/var/run/secrets/kubernetes.io/serviceaccount".
Definition PullIfNotPresent : string := "IfNotPresent".

(** ** Volume mounts *)

(** The first mount of the path, container by container. *)
Definition FindServiceAccountToken (pod : Pod) : option VolumeMount :=
  head (filter (λ m, vm_MountPath m = serviceAccountTokenMountPath) (pod_Containers pod ≫= ct_VolumeMounts)).
Definition NewVolumeMounts (pod : Pod) : list VolumeMount :=
  match FindServiceAccountToken pod with Some m => [m] | None => [] end.

Section Injector.
Context `{Jsonpb} `{JsonMap} `{KubeErrors} {Cl : Type} `{!KubeClient Cl} `{KubeQuantity}.

Record KumaInjector : Type := mkInjector { ki_cfg : InjectorCfg; ki_client : Cl }.

(** ** The sidecar container *)

Definition sidecar (i : KumaInjector) : SidecarContainer := inj_SidecarContainer (ki_cfg i).

(** [resource.MustParse] panics on text that is not a quantity. *)
Definition MustParse (s : string) : res Quantity :=
  match ParseQuantity s with inr q => Ok q | inl _ => Panic end.

Definition admin_command (i : KumaInjector) : list string :=
  ["wget"; "-qO-"; sprintf "http://127.0.0.1:%d" [AInt (sdc_AdminPort (sidecar i))]].

Definition sidecar_env (i : KumaInjector) (mesh : string) : list EnvVar :=
  [mkEnvVar "POD_NAME" (EnvFieldRef "v1" "metadata.name");
   mkEnvVar "POD_NAMESPACE" (EnvFieldRef "v1" "metadata.namespace");
   mkEnvVar "INSTANCE_IP" (EnvFieldRef "v1" "status.podIP");
   mkEnvVar "KUMA_CONTROL_PLANE_API_SERVER_URL" (EnvText (ias_URL (icp_ApiServer (inj_ControlPlane (ki_cfg i)))));
   mkEnvVar "KUMA_DATAPLANE_MESH" (EnvText mesh);
   mkEnvVar "KUMA_DATAPLANE_NAME" (EnvText "$(POD_NAME).$(POD_NAMESPACE)");
   mkEnvVar "KUMA_DATAPLANE_ADMIN_PORT" (EnvText (sprintf "%d" [AInt (sdc_AdminPort (sidecar i))]));
   mkEnvVar "KUMA_DATAPLANE_DRAIN_TIME" (EnvText (Duration_String (sdc_DrainTime (sidecar i))));
   mkEnvVar "KUMA_DATAPLANE_RUNTIME_TOKEN_PATH" (EnvText "/var/run/secrets/kubernetes.io/serviceaccount/token")].

Definition NewSidecarContainer (i : KumaInjector) (pod : Pod) : res Container :=
  let mesh := Pod_GetMesh pod in
  let c := sidecar i in
  let? requests_cpu := MustParse (srr_CPU (sr_Requests (sdc_Resources c))) in
  let? requests_memory := MustParse (srr_Memory (sr_Requests (sdc_Resources c))) in
  let? limits_cpu := MustParse (srl_CPU (sr_Limits (sdc_Resources c))) in
  let? limits_memory := MustParse (srl_Memory (sr_Limits (sdc_Resources c))) in
  Ok {| ct_Name := KumaSidecarContainerName;
        ct_Image := sdc_Image c;
        ct_ImagePullPolicy := PullIfNotPresent;
        ct_Args := ["run"; "--log-level=info"];
        ct_Env := sidecar_env i mesh;
        ct_Ports := [];
        ct_SecurityContext := Some (mkSecurityContext (Some (sdc_UID c)) (Some (sdc_GID c)) []);
        ct_LivenessProbe :=
          let p := sdc_LivenessProbe c in
          Some (mkProbe (admin_command i) (slp_InitialDelaySeconds p) (slp_TimeoutSeconds p) (slp_PeriodSeconds p) 1
                  (slp_FailureThreshold p));
        ct_ReadinessProbe :=
          let p := sdc_ReadinessProbe c in
          Some (mkProbe (admin_command i) (srp_InitialDelaySeconds p) (srp_TimeoutSeconds p) (srp_PeriodSeconds p)
                  (srp_SuccessThreshold p) (srp_FailureThreshold p));
        ct_Resources := Some (mkRequirements (mkAmounts requests_cpu requests_memory) (mkAmounts limits_cpu limits_memory));
        ct_VolumeMounts := NewVolumeMounts pod |}.

(** ** The init container *)

Definition Milli : Z := -3.
Definition Mega : Z := 6.

Definition NewInitContainer (i : KumaInjector) (pod : Pod) : Container :=
  let inboundPortsToIntercept := if HasGatewayEnabled pod then "" else "*" in
  let c := sidecar i in
  {| ct_Name := KumaInitContainerName;
     ct_Image := ic_Image (inj_InitContainer (ki_cfg i));
     ct_ImagePullPolicy := PullIfNotPresent;
     ct_Args := ["-p"; sprintf "%d" [AInt (sdc_RedirectPort c)]; "-u"; sprintf "%d" [AInt (sdc_UID c)];
                 "-g"; sprintf "%d" [AInt (sdc_GID c)]; "-m"; "REDIRECT"; "-i"; "*"; "-b"; inboundPortsToIntercept];
     ct_Env := [];
     ct_Ports := [];
     ct_SecurityContext := Some (mkSecurityContext (Some 0) (Some 0) ["NET_ADMIN"]);
     ct_LivenessProbe := None;
     ct_ReadinessProbe := None;
     ct_Resources := Some (mkRequirements (mkAmounts (NewScaledQuantity 10 Milli) (NewScaledQuantity 10 Mega))
                             (mkAmounts (NewScaledQuantity 100 Milli) (NewScaledQuantity 50 Mega)));
     ct_VolumeMounts := [] |}.

(** ** Annotations *)

Definition prometheusScrape : string := "prometheus.io/scrape".
Definition prometheusPath : string := "prometheus.io/path".
Definition prometheusPort : string := "prometheus.io/port".

Definition has_annotation (pod : Pod) (key : string) : bool := bool_decide (is_Some (pod_Annotations pod !! key)).

Definition prometheusAnnotations (pod : Pod) (mesh : MeshResource) : gmap string string :=
  if has_annotation pod prometheusScrape || has_annotation pod prometheusPath || has_annotation pod prometheusPort then ∅
  else match mesh_Metrics (r_Spec mesh) ≫= met_Prometheus with
       | None => ∅
       | Some prometheus =>
           let annotations : gmap string string :=
             <[prometheusPort := itoa (prom_Port prometheus)]> (<[prometheusPath := prom_Path prometheus]> {[prometheusScrape := "true"]}) in
           let annotations := match pod_Annotations pod !! KumaMetricsPrometheusPort with
                              | Some port => <[prometheusPort := port]> annotations
                              | None => annotations
                              end in
           match pod_Annotations pod !! KumaMetricsPrometheusPath with
           | Some path => <[prometheusPath := path]> annotations
           | None => annotations
           end
       end.

(** The annotations that every injected pod gets. *)
Definition injected_annotations (i : KumaInjector) (mesh : MeshResource) : gmap string string :=
  <[KumaTransparentProxyingPortAnnotation := sprintf "%d" [AInt (sdc_RedirectPort (sidecar i))]]>
    (<[KumaTransparentProxyingAnnotation := KumaTransparentProxyingEnabled]>
       (<[KumaSidecarInjectedAnnotation := KumaSidecarInjected]> {[KumaMeshAnnotation := GetName (r_Meta mesh)]})).

(** The loop over a map that overwrites another one. *)
Definition NewAnnotations (i : KumaInjector) (pod : Pod) (mesh : MeshResource) : gmap string string :=
  let annotations := injected_annotations i mesh in
  let annotations := if negb (ic_Enabled (inj_InitContainer (ki_cfg i)))
                     then <[CNCFNetworkAnnotation := KumaCNI]> annotations else annotations in
  prometheusAnnotations pod mesh ∪ annotations.

(** ** Injection *)

Definition meshFor (i : KumaInjector) (pod : Pod) : res MeshResource :=
  match client_Get (ki_client i) "" (Pod_GetMesh pod) (empty_object KMesh) with
  | inl err => Err err
  | inr obj =>
      match ToCoreResource obj (new_object KMesh) with
      | (Ok _, o) => match as_resource o with Some mesh => Ok mesh | None => Panic end
      | (Err e, _) => Err e
      | (Panic, _) => Panic
      end
  end.

(** The pod is changed in place: the sidecar is there before the mesh is looked
    up. *)
Definition InjectKuma (i : KumaInjector) (pod : Pod) : res unit * Pod :=
  if String.eqb (annotation pod KumaSidecarInjectionAnnotation) KumaSidecarInjectionDisabled then (Ok (), pod)
  else match NewSidecarContainer i pod with
       | Panic => (Panic, pod)
       | Err e => (Err e, pod)
       | Ok container =>
           let pod := set_Containers (pod_Containers pod ++ [container]) pod in
           match meshFor i pod with
           | Panic => (Panic, pod)
           | Err e => (Err (Wrapf e "could not retrieve mesh for pod" []), pod)
           | Ok mesh =>
               let pod := set_Annotations (NewAnnotations i pod mesh ∪ pod_Annotations pod) pod in
               let pod := if ic_Enabled (inj_InitContainer (ki_cfg i))
                          then set_InitContainers (pod_InitContainers pod ++ [NewInitContainer i pod]) pod else pod in
               (Ok (), pod)
           end
       end.
End Injector.

(** ** webhook.go *)

(** [json.Unmarshal] and [json.Marshal] of a pod. *)
Class PodCodec : Type := {
  unmarshal_pod : string → res Pod;
  marshal_pod : Pod → res string;
}.

(** [None] is a panic. *)
Definition podMutatingHandler_Handle `{PodCodec} (mutator : Pod → res unit * Pod) (raw : string) : option AdmissionResponse :=
  match unmarshal_pod raw with
  | Panic => None
  | Err err => Some (Errored 400 err)
  | Ok pod =>
      match mutator pod with
      | (Panic, _) => None
      | (Err err, _) => Some (Errored 500 err)
      | (Ok _, pod) =>
          match marshal_pod pod with
          | Panic => None
          | Err err => Some (Errored 500 err)
          | Ok mutatedRaw => Some (PatchResponseFromRaw raw mutatedRaw)
          end
      end
  end.

(** ** What discovery reads back *)

Section Theorems.
Context `{Hjsonpb : Jsonpb} `{HJm : !JsonMap} `{HKe : KubeErrors} {Cl : Type} `{HCl : !KubeClient Cl} `{HLc : !LawfulKubeClient Cl}
  `{HKq : KubeQuantity} (multierr_Append : goerror → goerror → goerror).

Lemma sprintf_d n : sprintf "%d" [AInt n] = itoa n.
Proof. cbn. apply string_app_empty_r. Qed.

Lemma prometheusAnnotations_other pod mesh key :
  key ∉ [prometheusScrape; prometheusPath; prometheusPort] → prometheusAnnotations pod mesh !! key = None.
Proof.
  intros Hk. unfold prometheusAnnotations. destruct (_ || _); [done|].
  destruct (mesh_Metrics (r_Spec mesh) ≫= met_Prometheus) as [p|]; [|done]. apply not_elem_of_cons in Hk as [H1 Hk].
  apply not_elem_of_cons in Hk as [H2 Hk]. apply not_elem_of_cons in Hk as [H3 _].
  assert (∀ m : gmap string string, m !! key = None → ∀ port path : option string,
    (match path with Some path => <[prometheusPath := path]> (match port with Some port => <[prometheusPort := port]> m | None => m end)
     | None => match port with Some port => <[prometheusPort := port]> m | None => m end end) !! key = None) as Hm.
  { intros m Hm port path. destruct path, port; by rewrite ?lookup_insert_ne by done. }
  apply Hm. rewrite !lookup_insert_ne, lookup_singleton_ne by done. done.
Qed.

(** The annotations of the injector win over those of the pod. *)
Lemma injected_annotation i pod mesh key value :
  key ∉ [prometheusScrape; prometheusPath; prometheusPort] →
  key ≠ CNCFNetworkAnnotation →
  injected_annotations i mesh !! key = Some value →
  (NewAnnotations (Cl := Cl) i pod mesh ∪ pod_Annotations pod) !! key = Some value.
Proof.
  intros Hk Hcni Hv. apply lookup_union_Some_l. unfold NewAnnotations.
  rewrite lookup_union_r by by apply prometheusAnnotations_other. destruct (negb _); [|done].
  rewrite lookup_insert_ne by done. done.
Qed.

(** A validated configuration has quantities that can be parsed. *)
Lemma NewSidecarContainer_Ok i pod :
  SidecarContainer_Validate multierr_Append (sidecar (Cl := Cl) i) = None →
  ∃ c, NewSidecarContainer i pod = Ok c ∧ ct_Name c = KumaSidecarContainerName ∧ ct_VolumeMounts c = NewVolumeMounts pod
    ∧ mkEnvVar "KUMA_DATAPLANE_MESH" (EnvText (Pod_GetMesh pod)) ∈ ct_Env c.
Proof.
  intros Hv. apply SidecarContainer_valid in Hv as (_ & _ & _ & _ & _ & _ & Hq). cbv zeta in Hq. rewrite !Forall_cons in Hq.
  destruct Hq as ((q1 & H1) & (q2 & H2) & (q3 & H3) & (q4 & H4) & _).
  unfold NewSidecarContainer, MustParse. rewrite H1, H2, H3, H4. cbn [rbind]. eexists. split; [reflexivity|].
  split; [done|]. split; [done|]. cbn [ct_Env]. unfold sidecar_env. do 4 right. left.
Qed.

(** The mesh of a pod, when there is one. *)
Lemma meshFor_name i pod mesh : meshFor (Cl := Cl) i pod = Ok mesh → GetName (r_Meta mesh) = Pod_GetMesh pod.
Proof.
  unfold meshFor. pose proof (client_Get_law (ki_client i) "" (Pod_GetMesh pod) (empty_object KMesh)) as Hl.
  destruct (client_Get (ki_client i) "" (Pod_GetMesh pod) (empty_object KMesh)) as [e|obj]; [done|].
  destruct Hl as (_ & _ & Hv). specialize (Hv (ex_intro _ nil_map (conj (or_introl eq_refl) eq_refl))).
  apply view_key in Hv as [Hk _]. unfold kube_key in Hk. injection Hk as _ Hns Hname.
  unfold ToCoreResource. destruct (FromMap _ _) as [[u|e|] spec]; [|done..]. unfold as_resource. cbn [o_Spec o_Meta SetMeta new_object].
  destruct (of_spec spec) as [s|]; [|done]. intros [= <-]. cbn [r_Meta observe GetName].
  unfold KubernetesMetaAdapter_GetName, adapter_of. cbn [ka_Namespace ka_Name]. by rewrite Hns, Hname.
Qed.

Lemma Pod_GetMesh_nonempty pod : Pod_GetMesh pod ≠ "".
Proof. unfold Pod_GetMesh. by destruct (String.eqb_spec (annotation pod KumaMeshAnnotation) ""). Qed.

(** C30: A pod that did not opt out gets its sidecar, and the discovery agrees with
    the injector about it.  With a validated configuration the injector never
    panics by itself; if the mesh of the pod exists the sidecar is the last
    container, it is told the mesh that the discovery files the pod under, the pod
    counts as one with a sidecar, and every dataplane made for it redirects to the
    port that its init container redirects to, whatever annotations the pod had.
    If the mesh cannot be read, the error says so and no annotation was changed. *)
Theorem InjectKuma_discovered i pod :
  SidecarContainer_Validate multierr_Append (sidecar (Cl := Cl) i) = None → 0 ≤ sdc_RedirectPort (sidecar i) →
  annotation pod KumaSidecarInjectionAnnotation ≠ KumaSidecarInjectionDisabled →
  let '(r, pod') := InjectKuma i pod in
  match meshFor i pod with
  | Ok mesh =>
      r = Ok () ∧ om_Labels (pod_Meta pod') = om_Labels (pod_Meta pod)
      ∧ (∃ c, pod_Containers pod' = pod_Containers pod ++ [c] ∧ ct_Name c = KumaSidecarContainerName
           ∧ mkEnvVar "KUMA_DATAPLANE_MESH" (EnvText (MeshFor pod')) ∈ ct_Env c)
      ∧ MeshFor pod' = MeshFor pod ∧ HasKumaSidecar pod' = true
      ∧ (∀ services others get d, DataplaneFor pod' services others get = Ok d →
           (dp_Networking d ≫= net_TransparentProxying) = Some (sdc_RedirectPort (sidecar i)))
      ∧ (ic_Enabled (inj_InitContainer (ki_cfg i)) = true →
           ∃ c args, pod_InitContainers pod' = pod_InitContainers pod ++ [c]
             ∧ ct_Args c = "-p" :: itoa (sdc_RedirectPort (sidecar i)) :: args)
  | Err e => r = Err (Wrapf e "could not retrieve mesh for pod" []) ∧ pod_Annotations pod' = pod_Annotations pod
  | Panic => r = Panic
  end.
Proof.
  intros Hvalid Hport Hopt. unfold InjectKuma. rewrite (proj2 (String.eqb_neq _ _) Hopt).
  destruct (NewSidecarContainer_Ok i pod Hvalid) as (c & -> & Hc & _ & Henv).
  change (meshFor i (set_Containers (pod_Containers pod ++ [c]) pod)) with (meshFor i pod).
  destruct (meshFor i pod) as [mesh|e|] eqn:Em; [|done..]. apply meshFor_name in Em.
  set (pod1 := set_Containers _ pod). set (pod2 := set_Annotations _ pod1).
  set (pod3 := if ic_Enabled (inj_InitContainer (ki_cfg i)) then _ else pod2).
  assert (pod_Annotations pod3 = NewAnnotations i pod1 mesh ∪ pod_Annotations pod1) as Ha.
  { subst pod3. by destruct (ic_Enabled _). }
  assert (∀ key value, key ∉ [prometheusScrape; prometheusPath; prometheusPort] → key ≠ CNCFNetworkAnnotation →
    injected_annotations i mesh !! key = Some value → annotation pod3 key = value) as Hann.
  { intros key value H1 H2 H3. unfold annotation. rewrite Ha. by rewrite (injected_annotation i pod1 mesh key value H1 H2 H3). }
  assert (MeshFor pod3 = MeshFor pod) as Hmesh.
  { unfold MeshFor. unfold Pod_GetMesh at 1. rewrite (Hann KumaMeshAnnotation (Pod_GetMesh pod)).
    - by rewrite (proj2 (String.eqb_neq _ _) (Pod_GetMesh_nonempty pod)).
    - by apply (bool_decide_unpack _).
    - done.
    - unfold injected_annotations. rewrite !lookup_insert_ne by done. by rewrite lookup_singleton_eq, Em. }
  split; [done|]. split; [subst pod3; by destruct (ic_Enabled _)|]. split.
  { exists c. split; [subst pod3; by destruct (ic_Enabled _)|]. by rewrite Hmesh. }
  split; [exact Hmesh|]. split.
  { unfold HasKumaSidecar. rewrite (Hann KumaSidecarInjectedAnnotation KumaSidecarInjected); [done| |done|].
    - by apply (bool_decide_unpack _).
    - unfold injected_annotations. rewrite !lookup_insert_ne by done. by rewrite lookup_insert_eq. }
  split.
  { intros services others get d Hd. rewrite (DataplaneFor_redirect pod3 services others get d Hd).
    unfold HasTransparentProxyingEnabled, GetTransparentProxyingPort.
    rewrite (Hann KumaTransparentProxyingAnnotation KumaTransparentProxyingEnabled), String.eqb_refl.
    2: by apply (bool_decide_unpack _). 2: done. 2: unfold injected_annotations; by rewrite lookup_insert_ne by done; rewrite lookup_insert_eq.
    rewrite (Hann KumaTransparentProxyingPortAnnotation (itoa (sdc_RedirectPort (sidecar i)))).
    2: by apply (bool_decide_unpack _). 2: done. 2: unfold injected_annotations; by rewrite lookup_insert_eq, sprintf_d.
    apply SidecarContainer_valid in Hvalid as (_ & Hmax & _).
    rewrite (proj1 (itoa_port _ Hport)), parse_format_uint by lia. done. }
  intros Hen. exists (NewInitContainer i pod2). eexists. subst pod3. rewrite Hen. split; [done|].
  unfold NewInitContainer. cbn [ct_Args]. by rewrite sprintf_d.
Qed.
End Theorems.

(** ** A concrete pod *)

Section SampleInjection.

#[local] Existing Instance sample_JsonMap.
#[local] Existing Instance kube_jsonpb.
#[local] Existing Instance cluster_errors.
#[local] Existing Instance cluster_client.
#[local] Existing Instance cluster_lawful.
#[local] Instance sample_KubeQuantity : KubeQuantity := {| ParseQuantity := inr; NewScaledQuantity := λ n scale, itoa n |}.

(** A cluster with the mesh [default], and the default configuration. *)
Definition default_mesh : K8sObject := mkK8sObject KMesh "" "default" "1" 0 "" "" "{}".
Definition mesh_cluster : cluster := {[kube_key default_mesh := default_mesh]}.
Definition sample_injector : KumaInjector (Cl := cluster) := mkInjector (icfg_Injector Injector_DefaultConfig) mesh_cluster.

Lemma InjectKuma_discovered_witness :
  let '(r, pod') := InjectKuma sample_injector web_pod in
  r = Ok () ∧ HasKumaSidecar pod' = true
  ∧ ∀ services others get d, DataplaneFor pod' services others get = Ok d →
      (dp_Networking d ≫= net_TransparentProxying) = Some 15001.
Proof.
  assert (SidecarContainer_Validate (λ e _, e) (sidecar sample_injector) = None) as Hv by (vm_compute; reflexivity).
  pose proof (InjectKuma_discovered (λ e _, e) sample_injector web_pod Hv ltac:(vm_compute; discriminate)
    ltac:(vm_compute; discriminate)) as Hi. clear Hv.
  destruct (InjectKuma sample_injector web_pod) as [r pod'].
  destruct (meshFor sample_injector web_pod) as [mesh|e|] eqn:Em.
  - destruct Hi as (Hr & _ & _ & _ & Hs & Hd & _). split; [exact Hr|]. split; [exact Hs|exact Hd].
  - exfalso. apply (f_equal is_ok) in Em. vm_compute in Em. discriminate Em.
  - exfalso. apply (f_equal is_ok) in Em. vm_compute in Em. discriminate Em.
Defined.
End SampleInjection.
