(* ===== verification/Webhooks.v ===== *)
(** * Admission web hooks

    Models [pkg/plugins/runtime/k8s/webhooks]: the validation of resources and of
    services that are written to Kubernetes, and the defaults of meshes. *)

From S2P Require Import Prelude GoStd Tags Dataplane MeshResources Validators CoreXds Resources Store MemoryStore Manager Secrets MeshManager.
From S2P Require Import Kubernetes PodConverter KubernetesStore.
Local Open Scope string_scope.
Local Open Scope list_scope.
Local Open Scope Z_scope.

(** ** Requests *)

Record AdmissionRequest : Type := mkRequest {
  arq_Group : string;
  arq_Version : string;
  arq_Kind : string;
  arq_Operation : string;
  arq_Name : string;
  arq_Object : string;    (* the raw document *)
  arq_OldObject : string;
}.

(** [admission.Decoder], into an object, and [json.Marshal] of one. *)
Class AdmissionDecoder `{JsonMap} : Type := {
  DecodeRaw : string → K8sObject → res K8sObject;
  DecodeService : string → res Service;
  marshal_object : K8sObject → res string;
}.

(** ** validation.go *)

Definition convertFieldName (field : string) : string := "spec." +:+ field.
Definition convertFieldNames (verr : ValidationError) : ValidationError :=
  default [] (Transform (Some verr) (Some (λ violation, mkViolation (convertFieldName (v_Field violation)) (v_Message violation)))).

Definition convertValidationErrorOf (kumaErr : ValidationError) (kind name : string) : AdmissionResponse :=
  let kumaErr := convertFieldNames kumaErr in
  Invalid (Validation_Error kumaErr) name kind ((λ violation, (v_Message violation, v_Field violation)) <$> kumaErr).

Section Handlers.
Context `{Jsonpb} `{JsonMap} `{!AdmissionDecoder}.
Context (ptypes_Duration : Duration → option Z) (ResourceFromYaml_error : string → option string).

Definition convertValidationError (kumaErr : ValidationError) (obj : K8sObject) : AdmissionResponse :=
  convertValidationErrorOf kumaErr (type_name (ko_Kind obj)) (ko_Name obj).

(** The answer to the result of a validator; [None] is a panic. *)
Definition respond (obj : K8sObject) (verdict : res (option ValidationError)) : option AdmissionResponse :=
  match verdict with
  | Panic => None
  | Err err => Some (Denied (error_string err))
  | Ok (Some kumaErr) => Some (convertValidationError kumaErr obj)
  | Ok None => Some Allowed
  end.

(** An early return of an error response. *)
Definition or_error {A} (code : Z) (m : res A) (k : A → option AdmissionResponse) : option AdmissionResponse :=
  match m with
  | Panic => None
  | Err err => Some (Errored code err)
  | Ok a => k a
  end.

Definition validatingHandler_Handle (coreRegistry : typeRegistry) (req : AdmissionRequest) : option AdmissionResponse :=
  or_error 400 (NewObject coreRegistry (arq_Kind req)) (λ coreRes,
  or_error 400 (kube_NewObject kube_registry (o_Spec coreRes)) (λ obj,
  or_error 400 (DecodeRaw (arq_Object req) obj) (λ obj,
  or_error 500 (to_core obj coreRes) (λ coreRes,
  respond obj (Validate ptypes_Duration ResourceFromYaml_error coreRes))))).

(** ** mesh_validator.go *)

Section MeshValidator.
Context {St Seed : Type} (caManagers : gmap string (CaManager Seed St)) (s : St).

Definition mesh_ValidateCreate (req : AdmissionRequest) : option AdmissionResponse :=
  or_error 400 (DecodeRaw (arq_Object req) (empty_object KMesh)) (λ k8sRes,
  or_error 500 (to_core k8sRes (new_object KMesh)) (λ coreRes,
  respond k8sRes (let? mesh := core_mesh coreRes in ValidateCreate caManagers s (arq_Name req) mesh))).

Definition mesh_ValidateUpdate (req : AdmissionRequest) : option AdmissionResponse :=
  or_error 400 (DecodeRaw (arq_Object req) (empty_object KMesh)) (λ k8sRes,
  or_error 500 (to_core k8sRes (new_object KMesh)) (λ coreRes,
  or_error 400 (DecodeRaw (arq_OldObject req) (empty_object KMesh)) (λ oldK8sRes,
  or_error 500 (to_core oldK8sRes (new_object KMesh)) (λ oldCoreRes,
  respond k8sRes (let? old := core_mesh oldCoreRes in let? mesh := core_mesh coreRes in ValidateUpdate caManagers s old mesh))))).

Definition MeshValidator_Handle (req : AdmissionRequest) : option AdmissionResponse :=
  if String.eqb (arq_Operation req) "CREATE" then mesh_ValidateCreate req
  else if String.eqb (arq_Operation req) "UPDATE" then mesh_ValidateUpdate req
  else Some Allowed.

Definition MeshValidator_Supports (req : AdmissionRequest) : bool :=
  String.eqb (arq_Kind req) "Mesh" && String.eqb (arq_Version req) "v1alpha1" && String.eqb (arq_Group req) "kuma.io".
End MeshValidator.

(** ** composite_validator.go *)

Record AdmissionValidator : Type := mkValidator {
  av_Supports : AdmissionRequest → bool;
  av_Handle : AdmissionRequest → option AdmissionResponse;
}.

Fixpoint CompositeValidator_Handle (validators : list AdmissionValidator) (req : AdmissionRequest) : option AdmissionResponse :=
  match validators with
  | [] => Some Allowed
  | validator :: rest =>
      if av_Supports validator req then
        match av_Handle validator req with
        | None => None
        | Some resp => if negb (rsp_Allowed resp) then Some resp else CompositeValidator_Handle rest req
        end
      else CompositeValidator_Handle rest req
  end.

(** The composition that [addValidators] of [plugin.go] registers. *)
Definition kuma_validators {St Seed : Type} (caManagers : gmap string (CaManager Seed St)) (s : St) (coreRegistry : typeRegistry)
  : list AdmissionValidator :=
  [mkValidator (λ _, true) (validatingHandler_Handle coreRegistry);
   mkValidator MeshValidator_Supports (MeshValidator_Handle caManagers s)].

(** ** defaulter.go *)

(** [Default], of the resources that have it: meshes. *)
Definition Object_Default (o : Object) : Object :=
  match o_Spec o with MeshSpec m => mkObject (o_Meta o) (MeshSpec (Mesh_Default m)) | _ => o end.

Definition defaultingHandler_Handle (factory : Object) (req : AdmissionRequest) : option AdmissionResponse :=
  or_error 500 (ToKubernetesObject factory) (λ obj,
  or_error 400 (DecodeRaw (arq_Object req) obj) (λ obj,
  or_error 500 (to_core obj factory) (λ resource,
  or_error 500 (ToKubernetesObject (Object_Default resource)) (λ obj,
  or_error 500 (marshal_object obj) (λ marshalled,
  Some (PatchResponseFromRaw (arq_Object req) marshalled)))))).

(** ** service_validator.go *)

Definition protocol_violation (svc : Service) (verr : ValidationError) (svcPort : ServicePort) : ValidationError :=
  let protocolAnnotation := itoa (sp_Port svcPort) +:+ ".service.kuma.io/protocol" in
  match om_Annotations (svc_Meta svc) !! protocolAnnotation with
  | None => verr
  | Some value =>
      match ParseProtocol value with
      | ProtocolUnknown =>
          AddViolationAt verr (Path_Key (Path_Field (RootedAt "metadata") "annotations") protocolAnnotation)
            ("value " +:+ quote value +:+ " is not valid. " +:+ AllowedValuesHint ["http"; "tcp"])
      | _ => verr
      end
  end.
Definition ServiceValidator_validate (svc : Service) : option ValidationError :=
  OrNil (foldl (protocol_violation svc) [] (svc_Ports svc)).

Definition ServiceValidator_Handle (req : AdmissionRequest) : option AdmissionResponse :=
  or_error 400 (DecodeService (arq_Object req)) (λ svc,
  match ServiceValidator_validate svc with
  | Some verr => Some (convertValidationErrorOf verr (arq_Kind req) (svc_Name svc))
  | None => Some Allowed
  end).
End Handlers.

(** ** What is admitted *)

Section Theorems.
Context `{Hjsonpb : Jsonpb} `{HLj : !LawfulJsonpb} `{HJm : !JsonMap} `{Hdec : !AdmissionDecoder}.
Context (ptypes_Duration : Duration → option Z) (ResourceFromYaml_error : string → option string).

Lemma or_error_Some {A} code (m : res A) k r :
  or_error code m k = Some r → rsp_Allowed r = true → ∃ a, m = Ok a ∧ k a = Some r.
Proof. unfold or_error. destruct m as [a|e|]; [eauto| |done]. by intros [= <-]. Qed.

Lemma respond_Allowed obj verdict r : respond obj verdict = Some r → rsp_Allowed r = true → verdict = Ok None ∧ r = Allowed.
Proof. unfold respond. destruct verdict as [[v|]|e|]; by intros [= <-]. Qed.

Lemma kube_registered k : k ∈ kube_kinds → k ∈ registered_kinds.
Proof.
  intros Hk%(bool_decide_eq_true_2 _). apply (bool_decide_eq_true_1 _). revert Hk. by destruct k; vm_compute.
Qed.

Lemma registered_NewObject registry k :
  rfoldl init_kind NewTypeRegistry registered_kinds = Ok registry → k ∈ registered_kinds →
  NewObject registry (type_name k) = Ok (new_object k).
Proof.
  intros Hreg Hk. destruct (registry_complete registered_kinds) as (t & Ht & Hl & _); [done|].
  rewrite Hreg in Ht. injection Ht as <-. by apply Hl.
Qed.

(** A composition allows what every validator that supports the request allows. *)
Lemma CompositeValidator_Allowed validators req :
  CompositeValidator_Handle validators req = Some Allowed ↔
  ∀ v, v ∈ validators → av_Supports v req = true → ∃ r, av_Handle v req = Some r ∧ rsp_Allowed r = true.
Proof.
  induction validators as [|v rest IH]; simpl; [split; [by intros _ v ?%elem_of_nil|done]|].
  destruct (av_Supports v req) eqn:Es; [destruct (av_Handle v req) as [r|] eqn:Eh; [destruct (rsp_Allowed r) eqn:Er|]|]; simpl.
  - rewrite IH. split; [|intros Hall v' ?; apply Hall; by constructor].
    intros Hall v' [->|?]%elem_of_cons; [eauto|auto].
  - split; [by intros [= ->]|]. intros Hall. destruct (Hall v ltac:(constructor) Es) as (r' & Hr & Ha). congruence.
  - split; [done|]. intros Hall. destruct (Hall v ltac:(constructor) Es) as (r' & Hr & _). congruence.
  - rewrite IH. split; [|intros Hall v' ?; apply Hall; by constructor].
    intros Hall v' [->|?]%elem_of_cons; [congruence|auto].
Qed.

Lemma or_error_iff {A} code (m : res A) k :
  (∃ r, or_error code m k = Some r ∧ rsp_Allowed r = true) ↔ ∃ a, m = Ok a ∧ ∃ r, k a = Some r ∧ rsp_Allowed r = true.
Proof.
  split.
  - intros (r & Hr & Ha). apply or_error_Some in Hr as (a & -> & Hk); eauto.
  - intros (a & -> & r & Hr & Ha). exists r. done.
Qed.

Lemma respond_iff obj verdict : (∃ r, respond obj verdict = Some r ∧ rsp_Allowed r = true) ↔ verdict = Ok None.
Proof.
  split.
  - intros (r & Hr & Ha). by apply respond_Allowed in Hr as [-> _].
  - intros ->. by exists Allowed.
Qed.

Lemma validatingHandler_Allowed registry req coreRes obj0 :
  NewObject registry (arq_Kind req) = Ok coreRes → kube_NewObject kube_registry (o_Spec coreRes) = Ok obj0 →
  (∃ r, validatingHandler_Handle ptypes_Duration ResourceFromYaml_error registry req = Some r ∧ rsp_Allowed r = true)
  ↔ ∃ obj r, DecodeRaw (arq_Object req) obj0 = Ok obj ∧ to_core obj coreRes = Ok r
      ∧ Validate ptypes_Duration ResourceFromYaml_error r = Ok None.
Proof.
  intros Hnew Hkube. unfold validatingHandler_Handle. rewrite Hnew, or_error_iff. split.
  - intros (c & [= <-] & Hr). rewrite Hkube, or_error_iff in Hr. destruct Hr as (o & [= <-] & Hr).
    apply or_error_iff in Hr as (obj & Hd & Hr). apply or_error_iff in Hr as (r & Hc & Hr). apply respond_iff in Hr. eauto.
  - intros (obj & r & Hd & Hc & Hv). exists coreRes. split; [done|]. rewrite Hkube. apply or_error_iff. exists obj0. split; [done|].
    apply or_error_iff. exists obj. split; [done|]. apply or_error_iff. exists r. split; [done|]. by apply respond_iff.
Qed.

Lemma new_kube_object k : k ∈ kube_kinds → kube_NewObject kube_registry (o_Spec (new_object k)) = Ok (empty_object k).
Proof. intros Hk. rewrite kube_registry_NewObject. unfold new_object. cbn [o_Spec]. by rewrite kind_of_zero, bool_decide_eq_true_2. Qed.

(** ** Meshes *)

Section Meshes.
Context {St Seed : Type} (caManagers : gmap string (CaManager Seed St)) (s : St).

(** The mesh of a raw document. *)
Definition decoded_mesh (raw : string) (o : Object) (mesh : MeshResource) : Prop :=
  ∃ obj, DecodeRaw raw (empty_object KMesh) = Ok obj ∧ to_core obj (new_object KMesh) = Ok o ∧ as_resource o = Some mesh.

(** Every backend has a certificate authority that accepts it. *)
Definition accepted_backends (name : string) (mesh : MeshResource) : Prop :=
  Forall (backend_accepted caManagers s name) (default [] (mtls_Backends <$> mesh_Mtls (r_Spec mesh))).

(** The authority does not change while mTLS stays enabled. *)
Definition same_authority (previous mesh : MeshResource) : Prop :=
  MTLSEnabled (Some previous) = true → MTLSEnabled (Some mesh) = true → enabled_backend previous = enabled_backend mesh.

Lemma core_mesh_Ok o (k : MeshResource → res (option ValidationError)) :
  (let? mesh := core_mesh o in k mesh) = Ok None ↔ ∃ mesh, as_resource o = Some mesh ∧ k mesh = Ok None.
Proof. unfold core_mesh. destruct (as_resource o) as [mesh|]; simpl; [|naive_solver]. split; [eauto|by intros (? & [= <-] & ?)]. Qed.

Lemma mesh_ValidateCreate_Allowed req :
  (∃ r, mesh_ValidateCreate caManagers s req = Some r ∧ rsp_Allowed r = true)
  ↔ ∃ o mesh, decoded_mesh (arq_Object req) o mesh ∧ accepted_backends (arq_Name req) mesh.
Proof.
  unfold mesh_ValidateCreate, decoded_mesh, accepted_backends. rewrite or_error_iff. setoid_rewrite or_error_iff.
  setoid_rewrite respond_iff. setoid_rewrite core_mesh_Ok. setoid_rewrite ValidateCreate_None. naive_solver.
Qed.

Lemma mesh_ValidateUpdate_Allowed req :
  (∃ r, mesh_ValidateUpdate caManagers s req = Some r ∧ rsp_Allowed r = true)
  ↔ ∃ o mesh o' previous, decoded_mesh (arq_Object req) o mesh ∧ decoded_mesh (arq_OldObject req) o' previous
      ∧ same_authority previous mesh ∧ accepted_backends (GetName (r_Meta mesh)) mesh.
Proof.
  unfold mesh_ValidateUpdate, decoded_mesh, accepted_backends, same_authority. rewrite or_error_iff. do 3 setoid_rewrite or_error_iff.
  setoid_rewrite respond_iff. do 2 setoid_rewrite core_mesh_Ok. setoid_rewrite ValidateUpdate_None. naive_solver.
Qed.

Lemma decoded_mesh_det raw o mesh obj r :
  decoded_mesh raw o mesh → DecodeRaw raw (empty_object KMesh) = Ok obj → to_core obj (new_object KMesh) = Ok r → o = r.
Proof. intros (obj' & Hd & Hc & _) Hd' Hc'. congruence. Qed.
End Meshes.

(** C31: What the web hook admits is valid.  A resource that is written to
    Kubernetes is admitted exactly when the document decodes and converts to a
    resource [r] that passes the validator of its kind and, for a mesh of this API
    version: when it is created, every backend of [r] has an installed certificate
    authority, which accepts its configuration under the name of the request; when
    it is updated, so under the name of the mesh, and the old document decodes and
    converts to a mesh whose enabled backend is that of [r] unless mTLS was or is
    disabled.  Other operations ask nothing more of a mesh. *)
Theorem admitted_resource_valid {St Seed : Type} (caManagers : gmap string (CaManager Seed St)) (s : St) registry req k :
  rfoldl init_kind NewTypeRegistry registered_kinds = Ok registry → arq_Kind req = type_name k → k ∈ kube_kinds →
  CompositeValidator_Handle (kuma_validators ptypes_Duration ResourceFromYaml_error caManagers s registry) req = Some Allowed
  ↔ ∃ obj r, DecodeRaw (arq_Object req) (empty_object k) = Ok obj ∧ to_core obj (new_object k) = Ok r
      ∧ Validate ptypes_Duration ResourceFromYaml_error r = Ok None
      ∧ (k = KMesh → arq_Version req = "v1alpha1" → arq_Group req = "kuma.io" →
          (arq_Operation req = "CREATE" →
             ∃ mesh, as_resource r = Some mesh ∧ accepted_backends caManagers s (arq_Name req) mesh)
          ∧ (arq_Operation req = "UPDATE" →
             ∃ mesh o' previous, as_resource r = Some mesh ∧ decoded_mesh (arq_OldObject req) o' previous
               ∧ same_authority previous mesh ∧ accepted_backends caManagers s (GetName (r_Meta mesh)) mesh)).
Proof.
  intros Hreg Hkind Hk. rewrite CompositeValidator_Allowed. unfold kuma_validators.
  assert (NewObject registry (arq_Kind req) = Ok (new_object k)) as Hnew.
  { rewrite Hkind. by apply (registered_NewObject registry k Hreg), kube_registered. }
  pose proof (validatingHandler_Allowed registry req (new_object k) (empty_object k) Hnew (new_kube_object k Hk)) as Hval.
  assert (MeshValidator_Supports req = true ↔ k = KMesh ∧ arq_Version req = "v1alpha1" ∧ arq_Group req = "kuma.io") as Hsup.
  { unfold MeshValidator_Supports. rewrite !andb_true_iff, !String.eqb_eq, Hkind.
    change "Mesh" with (type_name KMesh). split; [intros [[?%type_name_inj ?] ?]; auto|by intros (-> & ? & ?)]. }
  split.
  - intros Hall. destruct (proj1 Hval (Hall _ (list_elem_of_here _ _) eq_refl)) as (obj & r & Hd & Hc & Hv).
    exists obj, r. do 3 (split; [done|]). intros -> Hver Hgrp.
    pose proof (Hall _ (list_elem_of_further _ _ _ (list_elem_of_here _ _)) (proj2 Hsup (conj eq_refl (conj Hver Hgrp)))) as Hm.
    cbn [av_Handle] in Hm. unfold MeshValidator_Handle in Hm. split; intros Hop; rewrite Hop in Hm; cbn in Hm.
    + apply mesh_ValidateCreate_Allowed in Hm as (o & mesh & Hdm & Hacc).
      pose proof (decoded_mesh_det _ _ _ _ _ Hdm Hd Hc) as ->. destruct Hdm as (_ & _ & _ & Hmesh). eauto.
    + apply mesh_ValidateUpdate_Allowed in Hm as (o & mesh & o' & previous & Hdm & Hold & Hsame & Hacc).
      pose proof (decoded_mesh_det _ _ _ _ _ Hdm Hd Hc) as ->. destruct Hdm as (_ & _ & _ & Hmesh). eauto 10.
  - intros (obj & r & Hd & Hc & Hv & Hm) v [->|[->|?%elem_of_nil]%elem_of_cons]%elem_of_cons Hs; [|clear Hval|done].
    { apply Hval. eauto. }
    apply Hsup in Hs as (-> & Hver & Hgrp). destruct (Hm eq_refl Hver Hgrp) as [Hcr Hup]. cbn [av_Handle].
    unfold MeshValidator_Handle. destruct (String.eqb_spec (arq_Operation req) "CREATE") as [Hop|_].
    { destruct (Hcr Hop) as (mesh & Hmesh & Hacc). apply mesh_ValidateCreate_Allowed. exists r, mesh. split; [|done]. by exists obj. }
    destruct (String.eqb_spec (arq_Operation req) "UPDATE") as [Hop|_]; [|by exists Allowed].
    destruct (Hup Hop) as (mesh & o' & previous & Hmesh & Hold & Hsame & Hacc). apply mesh_ValidateUpdate_Allowed.
    exists r, mesh, o', previous. split; [by exists obj|]. done.
Qed.

Lemma protocol_violations svc ports verr :
  foldl (protocol_violation svc) verr ports = [] ↔
  verr = [] ∧ ∀ sp value, sp ∈ ports →
    om_Annotations (svc_Meta svc) !! (itoa (sp_Port sp) +:+ ".service.kuma.io/protocol") = Some value →
    ParseProtocol value ≠ ProtocolUnknown.
Proof.
  revert verr; induction ports as [|sp ports IH]; intros verr; simpl.
  { split; [intros ->; split; [done|by intros sp value ?%elem_of_nil]|by intros [-> _]]. }
  rewrite IH. unfold protocol_violation at 1. cbv zeta.
  destruct (om_Annotations (svc_Meta svc) !! _) as [value|] eqn:E.
  - assert (match ParseProtocol value with
            | ProtocolUnknown => AddViolationAt verr (Path_Key (Path_Field (RootedAt "metadata") "annotations")
                (itoa (sp_Port sp) +:+ ".service.kuma.io/protocol"))
                ("value " +:+ quote value +:+ " is not valid. " +:+ AllowedValuesHint ["http"; "tcp"])
            | _ => verr
            end = [] ↔ verr = [] ∧ ParseProtocol value ≠ ProtocolUnknown) as ->.
    { unfold AddViolationAt, AddViolation. destruct (ParseProtocol value);
        (split; [intros Hv; first [by apply app_nil in Hv as [_ ?]|by split]|by intros [? ?]]). }
    split.
    + intros [[-> Hv] Hall]. split; [done|]. intros sp' value' [->|Hsp]%elem_of_cons Hval; [congruence|eauto].
    + intros [-> Hall]. split; [split; [done|]|].
      * apply (Hall sp value); [constructor|done].
      * intros sp' value' Hsp. apply Hall. by constructor.
  - split.
    + intros [-> Hall]. split; [done|]. intros sp' value' [->|Hsp]%elem_of_cons Hval; [congruence|eauto].
    + intros [-> Hall]. split; [done|]. intros sp' value' Hsp. apply Hall. by constructor.
Qed.

(** A service that the web hook admits never makes a dataplane invalid by its
    protocols: it is admitted exactly when every protocol that an annotation gives
    one of its ports is known, and then the protocol tag of every port, for every
    pod, is one that the validator of dataplanes accepts. *)
Theorem admitted_service_protocols req svc :
  DecodeService (arq_Object req) = Ok svc →
  (ServiceValidator_Handle req = Some Allowed ↔
     ∀ sp value, sp ∈ svc_Ports svc →
       om_Annotations (svc_Meta svc) !! (itoa (sp_Port sp) +:+ ".service.kuma.io/protocol") = Some value →
       ParseProtocol value ≠ ProtocolUnknown)
  ∧ (ServiceValidator_Handle req = Some Allowed → ∀ pod, known_protocols pod [svc]).
Proof.
  intros Hd. unfold ServiceValidator_Handle. rewrite Hd. cbn [or_error]. unfold ServiceValidator_validate, OrNil, HasViolations.
  assert (∀ l : ValidationError, (match (if Nat.ltb 0 (length l) then Some l else None) with
    | Some verr => Some (convertValidationErrorOf verr (arq_Kind req) (svc_Name svc))
    | None => Some Allowed end) = Some Allowed ↔ l = []) as Hl by (intros [|v l]; done).
  rewrite Hl, protocol_violations.
  assert (∀ P : Prop, (@nil Violation = [] ∧ P) ↔ P) as -> by naive_solver. split; [done|].
  intros Hall pod svc' sp ->%list_elem_of_singleton Hsp _. unfold ProtocolTagFor. cbv zeta.
  destruct (om_Annotations (svc_Meta svc) !! _) as [value|] eqn:E; [|discriminate].
  unfold default, id. destruct (String.eqb_spec value ""); [discriminate|]. by apply (Hall sp value).
Qed.
End Theorems.

(** ** Concrete requests *)

Section SampleAdmission.
#[local] Existing Instance pod_jsonpb.
#[local] Existing Instance pod_JsonMap.

(** A decoder of one dataplane and of one service. *)
#[local] Instance sample_decoder : AdmissionDecoder :=
  {| DecodeRaw := λ raw obj, Ok (mkK8sObject (ko_Kind obj) "demo" "web" "1" 0 "" "default" raw);
     DecodeService := λ raw, Ok web_service;
     marshal_object := λ obj, Ok (ko_Spec obj) |}.

Definition dataplane_request : AdmissionRequest := mkRequest "kuma.io" "v1alpha1" "Dataplane" "CREATE" "web" "dp" "".

Lemma dataplane_request_Allowed :
  CompositeValidator_Handle (kuma_validators sample_Duration sample_Yaml sample_cas NewStore sample_registry) dataplane_request
  = Some Allowed.
Proof. vm_compute. reflexivity. Qed.

Lemma admitted_service_protocols_witness :
  ServiceValidator_Handle (mkRequest "" "v1" "Service" "CREATE" "web" "" "") = Some Allowed
  ∧ known_protocols web_pod [web_service].
Proof.
  destruct (admitted_service_protocols (Hdec := sample_decoder) (mkRequest "" "v1" "Service" "CREATE" "web" "" "") web_service ltac:(reflexivity)) as [Hiff Hk].
  assert (ServiceValidator_Handle (mkRequest "" "v1" "Service" "CREATE" "web" "" "") = Some Allowed) as Ha by (vm_compute; reflexivity).
  split; [exact Ha|]. exact (Hk Ha web_pod).
Defined.
End SampleAdmission.

Section SampleMesh.
#[local] Existing Instance mesh_jsonpb.
#[local] Existing Instance pod_JsonMap.
#[local] Existing Instance sample_decoder.

(** An update of a mesh to the authority [ca-1]. *)
Definition mesh_update (old : string) : AdmissionRequest := mkRequest "kuma.io" "v1alpha1" "Mesh" "UPDATE" "default" "ca-1" old.

(** It is admitted when the mesh had that authority, and not when it had another. *)
Lemma admitted_resource_valid_witness :
  CompositeValidator_Handle (kuma_validators sample_Duration sample_Yaml sample_cas NewStore sample_registry) (mesh_update "ca-1")
  = Some Allowed
  ∧ CompositeValidator_Handle (kuma_validators sample_Duration sample_Yaml sample_cas NewStore sample_registry) (mesh_update "ca-2")
  ≠ Some Allowed.
Proof.
  assert (KMesh ∈ kube_kinds) as Hk by (apply (bool_decide_unpack _); vm_compute; exact I).
  split.
  - refine (proj2 (admitted_resource_valid sample_Duration sample_Yaml sample_cas NewStore sample_registry (mesh_update "ca-1") KMesh
      eq_refl eq_refl Hk) _).
    eexists _, _. split; [reflexivity|]. split; [reflexivity|]. split; [vm_compute; reflexivity|].
    intros _ _ _. split; [discriminate|]. intros _. eexists _, _, _. split; [reflexivity|].
    split; [eexists; split; [reflexivity|]; split; reflexivity|]. split; [intros _ _; reflexivity|].
    repeat (constructor; [eexists _, None; split; [reflexivity|]; split; reflexivity|]). constructor.
  - rewrite (admitted_resource_valid sample_Duration sample_Yaml sample_cas NewStore sample_registry (mesh_update "ca-2") KMesh
      eq_refl eq_refl Hk).
    intros (obj & r & Hd & Hc & _ & Hm). destruct (Hm eq_refl eq_refl eq_refl) as [_ Hup].
    destruct (Hup eq_refl) as (mesh & o' & previous & Hmesh & (obj' & Hd' & Hc' & Hp) & Hsame & _).
    injection Hd as <-. injection Hc as <-. injection Hmesh as <-. injection Hd' as <-. injection Hc' as <-. injection Hp as <-.
    discriminate (Hsame eq_refl eq_refl).
Defined.
End SampleMesh.
