(* ===== verification/PodReconciler.v ===== *)
(** * Reconciliation of pods

    Models [pkg/plugins/discovery/k8s/controllers/pod_controller.go]: the controller
    that keeps a dataplane object for every pod, and the mappers that tell which
    pods to reconcile when a service or a dataplane changes.

    The typed client of controller-runtime is a parameter ([PodClient]), with what
    its calls do as laws ([LawfulPodClient]).  Reads come from a cache: the laws
    speak of a client whose cache is in sync, and a run of the controller may
    contain steps in which the cache catches up. *)

From S2P Require Import Prelude GoStd Tags Dataplane Resources Validators CoreXds Store Kubernetes PodConverter KubernetesStore.
Local Open Scope string_scope.
Local Open Scope list_scope.
Local Open Scope Z_scope.

(** ** The client *)

Record KubeRequest : Type := mkKubeRequest { kq_Namespace : string; kq_Name : string }.
#[global] Instance KubeRequest_eq_dec : EqDecision KubeRequest.
Proof. solve_decision. Defined.

(** [controllerutil.OperationResult]. *)
Inductive OperationResult : Type := OperationResultNone | OperationResultCreated | OperationResultUpdated.

Record KubeEvent : Type := mkKubeEvent { ke_Type : string; ke_Reason : string; ke_Message : string }.

(** [CreateOrUpdate] is [controllerutil.CreateOrUpdate] with the function that
    mutates the object; [SetControllerReference] and [GetControllerOf] work on the
    metadata of an object, the latter gives the kind and the name of the owner. *)
Class PodClient (Cl : Type) `{JsonMap} : Type := {
  get_Pod : Cl → string → string → goerror + Pod;
  list_Pods : Cl → string → goerror + list Pod;
  get_Service : Cl → string → string → goerror + Service;
  list_Services : Cl → string → goerror + list Service;
  get_Dataplane : Cl → string → string → goerror + K8sObject;
  list_Dataplanes : Cl → goerror + list K8sObject;
  CreateOrUpdate : Cl → K8sObject → (K8sObject → res unit * K8sObject) → res OperationResult * K8sObject * Cl;
  SetControllerReference : Pod → string → goerror + string;
  GetControllerOf : string → option (string * string);
}.

Definition pod_key (p : Pod) : string * string := (om_Namespace (pod_Meta p), om_Name (pod_Meta p)).
Definition svc_key (svc : Service) : string * string := (svc_Namespace svc, svc_Name svc).
Definition dp_key `{JsonMap} (o : K8sObject) : string * string := (ko_Namespace o, ko_Name o).
Definition req_key (req : KubeRequest) : string * string := (kq_Namespace req, kq_Name req).
Definition set_ko_Rest `{JsonMap} (rest : string) (o : K8sObject) : K8sObject :=
  mkK8sObject (ko_Kind o) (ko_Namespace o) (ko_Name o) (ko_ResourceVersion o) (ko_CreationTimestamp o) rest
    (ko_MeshField o) (ko_Spec o).

(** ** The controller *)

Section Controller.
Context `{Jsonpb} `{JsonMap} `{KubeLabels} `{KubeErrors} {Cl : Type} `{!PodClient Cl}.

Definition CreatedKumaDataplaneReason : string := "CreatedKumaDataplane".
Definition UpdatedKumaDataplaneReason : string := "UpdatedKumaDataplane".
Definition FailedToGenerateKumaDataplaneReason : string := "FailedToGenerateKumaDataplane".

Definition findMatchingServices (r : Cl) (pod : Pod) : goerror + list Service :=
  match list_Services r (om_Namespace (pod_Meta pod)) with
  | inl err => inl err
  | inr allServices => inr (FindServices allServices (MatchServiceThatSelectsPod pod))
  end.

Definition findOtherDataplanes (r : Cl) (pod : Pod) : goerror + list K8sObject :=
  match list_Dataplanes r with
  | inl err => inl err
  | inr allDataplanes => inr (filter (λ dataplane, ko_MeshField dataplane = MeshFor pod) allDataplanes)
  end.

(** The function that mutates the object. *)
Definition translate (r : Cl) (pod : Pod) (services : list Service) (others : list K8sObject) (dataplane : K8sObject)
  : res unit * K8sObject :=
  match PodToDataplane dataplane pod services others (get_Service r) with
  | (Err err, dataplane) => (Err (Wrapf err "unable to translate a Pod into a Dataplane" []), dataplane)
  | (Panic, dataplane) => (Panic, dataplane)
  | (Ok _, dataplane) =>
      match SetControllerReference pod (ko_Rest dataplane) with
      | inl err => (Err (Wrapf err "unable to set Dataplane's controller reference to Pod" []), dataplane)
      | inr rest => (Ok (), set_ko_Rest rest dataplane)
      end
  end.

Definition createOrUpdateDataplane (r : Cl) (pod : Pod) (services : list Service) (others : list K8sObject)
  : res unit * Cl * list KubeEvent :=
  let dataplane := set_ko_key (om_Namespace (pod_Meta pod)) (om_Name (pod_Meta pod)) (empty_object KDataplane) in
  let '(operationResult, dataplane, r) := CreateOrUpdate r dataplane (translate r pod services others) in
  match operationResult with
  | Panic => (Panic, r, [])
  | Err err =>
      (Err err, r, [mkKubeEvent "Warning" FailedToGenerateKumaDataplaneReason
                      ("Failed to generate Kuma Dataplane: " +:+ error_string err)])
  | Ok OperationResultCreated =>
      (Ok (), r, [mkKubeEvent "Normal" CreatedKumaDataplaneReason ("Created Kuma Dataplane: " +:+ ko_Name dataplane)])
  | Ok OperationResultUpdated =>
      (Ok (), r, [mkKubeEvent "Normal" UpdatedKumaDataplaneReason ("Updated Kuma Dataplane: " +:+ ko_Name dataplane)])
  | Ok OperationResultNone => (Ok (), r, [])
  end.

(** The result, the client and the events that were recorded. *)
Definition Reconcile (r : Cl) (req : KubeRequest) : res unit * Cl * list KubeEvent :=
  match get_Pod r (kq_Namespace req) (kq_Name req) with
  | inl err => if IsNotFound err then (Ok (), r, []) else (Err err, r, [])
  | inr pod =>
      if negb (HasKumaSidecar pod) then (Ok (), r, [])
      else if String.eqb (pod_PodIP pod) "" then (Ok (), r, [])
      else
        match findMatchingServices r pod with
        | inl err => (Err err, r, [])
        | inr services =>
            match findOtherDataplanes r pod with
            | inl err => (Err err, r, [])
            | inr others => createOrUpdateDataplane r pod services others
            end
        end
  end.

(** ** The mappers *)

Definition ServiceToPodsMapper_Map (m : Cl) (namespace : string) : list KubeRequest :=
  match list_Pods m namespace with
  | inl _ => []
  | inr pods => (λ pod, mkKubeRequest (om_Namespace (pod_Meta pod)) (om_Name (pod_Meta pod))) <$> pods
  end.

(** The pod that owns a dataplane. *)
Definition owner_request (dataplane : K8sObject) : list KubeRequest :=
  match GetControllerOf (ko_Rest dataplane) with
  | Some (kind, name) => if negb (String.eqb kind "Pod") then [] else [mkKubeRequest (ko_Namespace dataplane) name]
  | None => []
  end.

Definition DataplaneToSameMeshDataplanesMapper_Map (m : Cl) (obj : K8sObject) : list KubeRequest :=
  match ko_Kind obj with
  | KDataplane =>
      let cause := obj in
      match get_Dataplane m (ko_Namespace cause) (ko_Name cause) with
      | inl err => if IsNotFound err then owner_request cause else []
      | inr _ =>
          match list_Dataplanes m with
          | inl _ => []
          | inr dataplanes =>
              dataplanes ≫= λ dataplane,
                if negb (String.eqb (ko_MeshField dataplane) (ko_MeshField cause)) then []
                else if String.eqb (ko_Namespace dataplane) (ko_Namespace cause) && String.eqb (ko_Name dataplane) (ko_Name cause)
                then []
                else owner_request dataplane
          end
      end
  | _ => []
  end.
End Controller.

(** ** What the client does

    [world] is what the API server stores.  A write
    that fails may have been carried out. *)

Record World `{JsonMap} : Type := mkWorld {
  pods : gmap (string * string) Pod;
  services : gmap (string * string) Service;
  dataplanes : gmap (string * string) K8sObject;
}.
Arguments mkWorld {_} _ _ _.
Arguments pods {_} _.
Arguments services {_} _.
Arguments dataplanes {_} _.

Definition written `{JsonMap} (before : gmap (string * string) K8sObject) (o new : K8sObject)
    (after : gmap (string * string) K8sObject) : Prop :=
  ∃ stored, same_content new stored ∧ after = <[dp_key o := stored]> before.

Class LawfulPodClient (Cl : Type) `{Jsonpb} `{JsonMap} `{KubeErrors} `{!PodClient Cl} : Type := {
  world : Cl → World;
  synced : Cl → Prop;
  pods_keyed c k p : pods (world c) !! k = Some p → pod_key p = k;
  services_keyed c k svc : services (world c) !! k = Some svc → svc_key svc = k;
  dataplanes_keyed c k o : dataplanes (world c) !! k = Some o → dp_key o = k ∧ ko_Kind o = KDataplane;
  get_Pod_law c ns name : synced c →
    match get_Pod c ns name with
    | inr p => pods (world c) !! (ns, name) = Some p
    | inl e => IsNotFound e = true → pods (world c) !! (ns, name) = None
    end;
  get_Service_law c ns name svc : synced c → get_Service c ns name = inr svc ↔ services (world c) !! (ns, name) = Some svc;
  list_Services_law c ns l : synced c → list_Services c ns = inr l →
    l ≡ₚ filter (λ svc, svc_Namespace svc = ns) (map_to_list (services (world c))).*2;
  list_Dataplanes_law c l : synced c → list_Dataplanes c = inr l → l ≡ₚ (map_to_list (dataplanes (world c))).*2;
  CreateOrUpdate_law c o f : synced c → ko_Kind o = KDataplane →
    (∀ x y, f x = (Ok (), y) → dp_key y = dp_key x ∧ ko_Kind y = ko_Kind x) →
    let '(r, o', c') := CreateOrUpdate c o f in
    pods (world c') = pods (world c) ∧ services (world c') = services (world c) ∧
    match r with
    | Ok OperationResultNone =>
        ∃ old, dataplanes (world c) !! dp_key o = Some old ∧ f old = (Ok (), old) ∧ dataplanes (world c') = dataplanes (world c)
    | Ok OperationResultCreated => ∃ new, f o = (Ok (), new) ∧ written (dataplanes (world c)) o new (dataplanes (world c'))
    | Ok OperationResultUpdated =>
        ∃ old new, dataplanes (world c) !! dp_key o = Some old ∧ f old = (Ok (), new) ∧ written (dataplanes (world c)) o new (dataplanes (world c'))
    | Err _ | Panic =>
        dataplanes (world c') = dataplanes (world c)
        ∨ ∃ old new, (old = o ∨ dataplanes (world c) !! dp_key o = Some old) ∧ f old = (Ok (), new)
            ∧ written (dataplanes (world c)) o new (dataplanes (world c'))
    end;
}.

(** ** One reconciliation *)

Section Convergence.
Context `{Hjsonpb : Jsonpb} `{HLj : !LawfulJsonpb} `{HJm : JsonMap} `{HLm : !LawfulJsonMap}.
Context `{Hlabels : KubeLabels} `{Herrors : KubeErrors} {Cl : Type} `{Hpc : !PodClient Cl} `{Hlpc : !LawfulPodClient Cl}.

(** The pods that need a dataplane, and the services that select them. *)
Definition eligible (w : World) (k : string * string) (p : Pod) : Prop :=
  pods w !! k = Some p ∧ HasKumaSidecar p = true ∧ pod_PodIP p ≠ "".
Definition selecting (w : World) (p : Pod) : list Service :=
  FindServices (filter (λ svc, svc_Namespace svc = om_Namespace (pod_Meta p)) (map_to_list (services w)).*2)
    (MatchServiceThatSelectsPod p).
Definition of_mesh (w : World) (mesh : string) : list K8sObject :=
  filter (λ o, ko_MeshField o = mesh) (map_to_list (dataplanes w)).*2.
Definition service_getter (w : World) (ns name : string) : goerror + Service :=
  match services w !! (ns, name) with Some svc => inr svc | None => inl (Errorf "" []) end.

(** A dataplane object that was made for a pod of the cluster. *)
Definition made (w : World) (p : Pod) (o : K8sObject) : Prop :=
  ko_MeshField o = MeshFor p ∧ ∃ svcs d, svcs ≡ₚ selecting w p
    ∧ FromMap (ko_Spec o) (zero_spec KDataplane) = (Ok (), DataplaneSpec d)
    ∧ DataplaneFor p svcs (of_mesh w (MeshFor p)) (service_getter w) = Ok d.

Lemma service_getter_current c : synced c → ∀ ns name svc, get_Service c ns name = inr svc ↔ service_getter (world c) ns name = inr svc.
Proof.
  intros Hs ns name svc. rewrite get_Service_law by done. unfold service_getter.
  destruct (services (world c) !! (ns, name)); naive_solver.
Qed.

Lemma DataplaneFor_others p svcs others others' get get' :
  others ≡ₚ others' → (∀ ns name svc, get ns name = inr svc ↔ get' ns name = inr svc) →
  DataplaneFor p svcs others get = DataplaneFor p svcs others' get'.
Proof.
  intros Ho Hg. unfold DataplaneFor. rewrite (OutboundInterfacesFor_getter others get get' Hg).
  rewrite (OutboundInterfacesFor_tags others others' get'); [done|]. intros tag. by setoid_rewrite Ho.
Qed.

Lemma translate_Ok c p svcs others x y :
  translate c p svcs others x = (Ok (), y) →
  dp_key y = dp_key x ∧ ko_Kind y = ko_Kind x ∧ ko_MeshField y = MeshFor p
  ∧ ∃ d, DataplaneFor p svcs others (get_Service c) = Ok d ∧ FromMap (ko_Spec y) (zero_spec KDataplane) = (Ok (), DataplaneSpec d).
Proof.
  unfold translate, PodToDataplane. destruct (DataplaneFor p svcs others (get_Service c)) as [d|e|]; [|done..]. cbn [rbind].
  destruct (ToMap (DataplaneSpec d)) as [m|e|] eqn:Em; [|done..].
  destruct (SetControllerReference p _) as [e|rest]; [done|]. intros [= <-].
  split_and!; [done..|]. exists d. split; [done|]. exact (FromMap_ToMap _ _ Em).
Qed.

Definition made_from (c : Cl) (p : Pod) (svcs : list Service) (others : list K8sObject) (o : K8sObject) : Prop :=
  ko_MeshField o = MeshFor p ∧ ∃ d, DataplaneFor p svcs others (get_Service c) = Ok d
    ∧ FromMap (ko_Spec o) (zero_spec KDataplane) = (Ok (), DataplaneSpec d).

Lemma written_made c p svcs others o x y after :
  ko_Kind x = KDataplane → translate c p svcs others x = (Ok (), y) → written (dataplanes (world c)) o y after →
  ∃ stored, made_from c p svcs others stored ∧ after = <[dp_key o := stored]> (dataplanes (world c)).
Proof.
  intros Hk Ht (stored & (Hk' & _ & _ & Hm & Hs) & ->).
  apply translate_Ok in Ht as (_ & Hky & Hmy & d & Hd & Hf). exists stored. split; [|done].
  split; [by rewrite Hm|]. exists d. split; [done|]. rewrite Hs; [done|]. by rewrite Hky, Hk.
Qed.

Lemma createOrUpdateDataplane_spec c p svcs others :
  synced c →
  let '(r, c', _) := createOrUpdateDataplane c p svcs others in
  pods (world c') = pods (world c) ∧ services (world c') = services (world c)
  ∧ ((dataplanes (world c') = dataplanes (world c)
      ∧ (r = Ok () → ∃ o, dataplanes (world c) !! pod_key p = Some o ∧ made_from c p svcs others o))
     ∨ ∃ o, made_from c p svcs others o ∧ dataplanes (world c') = <[pod_key p := o]> (dataplanes (world c))).
Proof.
  intros Hs. unfold createOrUpdateDataplane. cbv zeta. set (o := set_ko_key _ _ _).
  assert (dp_key o = pod_key p) as Hkey by done. assert (ko_Kind o = KDataplane) as Hkind by done. clearbody o.
  pose proof (CreateOrUpdate_law c o (translate c p svcs others) Hs Hkind) as Hlaw.
  destruct (CreateOrUpdate c o (translate c p svcs others)) as [[r o'] c'].
  destruct Hlaw as (Hp & Hv & Hlaw).
  { intros x y Ht. apply translate_Ok in Ht as (Hk & Hk' & _). by split. }
  rewrite Hkey in Hlaw. assert (∀ old, dataplanes (world c) !! pod_key p = Some old → ko_Kind old = KDataplane) as Hold.
  { intros old Ho. by apply dataplanes_keyed in Ho as [_ ?]. }
  destruct r as [[]|e|].
  - destruct Hlaw as (old & Ho & Ht & Hd). split_and!; [done..|]. left. split; [done|]. intros _. exists old. split; [done|].
    apply translate_Ok in Ht as (_ & _ & Hm & Hex). by split.
  - destruct Hlaw as (new & Ht & Hw). split_and!; [done..|]. right. rewrite <- Hkey. by eapply written_made.
  - destruct Hlaw as (old & new & Ho & Ht & Hw). split_and!; [done..|]. right. rewrite <- Hkey.
    eapply (written_made _ _ _ _ _ old); [exact (Hold _ Ho)|done..].
  - split_and!; [done..|]. destruct Hlaw as [Hd|(old & new & Ho & Ht & Hw)]; [by left|right].
    rewrite <- Hkey. eapply (written_made _ _ _ _ _ old); [|done..].
    destruct Ho as [->|Ho]; [done|exact (Hold _ Ho)].
  - split_and!; [done..|]. destruct Hlaw as [Hd|(old & new & Ho & Ht & Hw)]; [by left|right].
    rewrite <- Hkey. eapply (written_made _ _ _ _ _ old); [|done..].
    destruct Ho as [->|Ho]; [done|exact (Hold _ Ho)].
Qed.

(** A reconciliation either changes nothing, or stores the dataplane of the pod;
    when it succeeds the dataplane of the pod is there. *)
Lemma Reconcile_spec c req :
  synced c →
  let '(r, c', _) := Reconcile c req in
  pods (world c') = pods (world c) ∧ services (world c') = services (world c)
  ∧ ((dataplanes (world c') = dataplanes (world c)
      ∧ (r = Ok () → ∀ p, eligible (world c) (req_key req) p → ∃ o, dataplanes (world c) !! req_key req = Some o ∧ made (world c) p o))
     ∨ ∃ p o, eligible (world c) (req_key req) p ∧ made (world c) p o ∧ dataplanes (world c') = <[req_key req := o]> (dataplanes (world c))).
Proof.
  intros Hs. unfold Reconcile. pose proof (get_Pod_law c (kq_Namespace req) (kq_Name req) Hs) as Hp.
  change (kq_Namespace req, kq_Name req) with (req_key req) in Hp.
  destruct (get_Pod c _ _) as [e|pod].
  { destruct (IsNotFound e); (split_and!; [done..|left; split; [done|]]); [|done].
    intros _ p (Hp' & _). rewrite (Hp eq_refl) in Hp'. discriminate. }
  assert (∀ q, eligible (world c) (req_key req) q → q = pod ∧ HasKumaSidecar pod = true ∧ pod_PodIP pod ≠ "") as Hel.
  { intros q (Hq & ? & ?). rewrite Hp in Hq. by injection Hq as <-. }
  destruct (HasKumaSidecar pod) eqn:Esc; cbn [negb].
  2: { split_and!; [done..|left; split; [done|]]. intros _ q Hq. by apply Hel in Hq as (_ & ? & _). }
  destruct (String.eqb_spec (pod_PodIP pod) "") as [Hip|Hip].
  { split_and!; [done..|left; split; [done|]]. intros _ q Hq. by apply Hel in Hq as (_ & _ & ?). }
  unfold findMatchingServices, findOtherDataplanes.
  destruct (list_Services c _) as [e|all] eqn:El; [by split_and!; [..|left]|].
  destruct (list_Dataplanes c) as [e|dps] eqn:Ed; [by split_and!; [..|left]|].
  apply list_Services_law in El; [|done]. apply list_Dataplanes_law in Ed; [|done].
  assert (pod_key pod = req_key req) as Hkey by by eapply pods_keyed.
  set (svcs := FindServices all _). set (others := filter _ dps).
  assert (∀ o, made_from c pod svcs others o → made (world c) pod o) as Hmade.
  { intros o (Hm & d & Hd & Hf). split; [done|]. exists svcs, d. split; [by apply filter_Permutation|]. split; [done|].
    rewrite <- Hd. symmetry. apply DataplaneFor_others; [by apply filter_Permutation|by apply service_getter_current]. }
  pose proof (createOrUpdateDataplane_spec c pod svcs others Hs) as Hspec. rewrite Hkey in Hspec.
  destruct (createOrUpdateDataplane c pod svcs others) as [[r c'] evs].
  destruct Hspec as (Hpods & Hsvcs & Hspec). split; [done|]. split; [done|].
  destruct Hspec as [[Hd Ho]|(o & Ho & Hd)].
  - left. split; [done|]. intros Hr q Hq. destruct (Hel q Hq) as (-> & _). destruct (Ho Hr) as (o & ? & ?). eauto.
  - right. exists pod, o. split; [by split|]. auto.
Qed.

(** ** Runs of the controller

    The reconciliations of a run with their results; between two of them the cache
    may catch up with what is stored. *)

Definition reconciled (c : Cl) (req : KubeRequest) : Cl := (Reconcile c req).1.2.
Definition result (c : Cl) (req : KubeRequest) : res unit := (Reconcile c req).1.1.

Inductive run : Cl → list (KubeRequest * res unit) → Cl → Prop :=
| run_nil c : run c [] c
| run_sync c c1 l c' : world c1 = world c → run c1 l c' → run c l c'
| run_reconcile c req l c' : synced c → run (reconciled c req) l c' → run c ((req, result c req) :: l) c'.

(** A world after a dataplane was stored. *)
Definition stored_at (w : World) (k : string * string) (o : K8sObject) : World :=
  mkWorld (pods w) (services w) (<[k := o]> (dataplanes w)).

Lemma reconciled_world c req :
  synced c →
  (world (reconciled c req) = world c
   ∨ ∃ p o, eligible (world c) (req_key req) p ∧ made (world c) p o ∧ world (reconciled c req) = stored_at (world c) (req_key req) o)
  ∧ (result c req = Ok () → ∀ p, eligible (world c) (req_key req) p →
       ∃ o, dataplanes (world (reconciled c req)) !! req_key req = Some o ∧ made (world c) p o).
Proof.
  intros Hs. pose proof (Reconcile_spec c req Hs) as Hr. unfold reconciled, result.
  destruct (Reconcile c req) as [[r c'] evs]. cbn [fst snd].
  assert (∀ d, pods (world c') = pods (world c) → services (world c') = services (world c) → dataplanes (world c') = d →
    world c' = mkWorld (pods (world c)) (services (world c)) d) as Hw.
  { intros d <- <- <-. by destruct (world c'). }
  destruct Hr as (Hp & Hv & [[Hd Ho]|(p & o & He & Hm & Hd)]); rewrite (Hw _ Hp Hv Hd).
  - split; [left; by destruct (world c)|exact Ho].
  - split; [right; eauto|]. intros _ q Hq. exists o. cbn [dataplanes]. split; [apply lookup_insert_eq|].
    destruct He as (He & _), Hq as (Hq & _). rewrite He in Hq. by injection Hq as <-.
Qed.

(** The service tags that the dataplane of a pod exposes do not depend on other
    dataplanes. *)
Definition pod_tag (w : World) (p : Pod) (tag : string) : Prop :=
  HasGatewayEnabled p = false ∧ ∃ i, i ∈ inbounds_of p false (selecting w p) ∧ in_Tags i !! ServiceTag = Some tag.

Lemma inbounds_of_perm p g svcs svcs' i : svcs ≡ₚ svcs' → i ∈ inbounds_of p g svcs ↔ i ∈ inbounds_of p g svcs'.
Proof. intros Hs. rewrite !elem_of_inbounds. by setoid_rewrite Hs. Qed.

Lemma made_shape w p o :
  made w p o →
  ko_MeshField o = MeshFor p ∧ (∀ tag, tag ∈ serviceTags o ↔ pod_tag w p tag)
  ∧ ∃ d, FromMap (ko_Spec o) (zero_spec KDataplane) = (Ok (), DataplaneSpec d)
      ∧ GetOutbound (dp_Networking d) = OutboundInterfacesFor (of_mesh w (MeshFor p)) (service_getter w).
Proof.
  intros (Hm & svcs & d & Hsvcs & Hf & Hd). split; [done|].
  apply DataplaneFor_shape in Hd as (i & rest & _ & redirect & Ed). split; [|exists d; split; [done|by rewrite Ed]].
  intros tag. unfold serviceTags. rewrite Hf, Ed. cbn [dp_Networking GetInbound net_Inbound]. rewrite list_elem_of_omap. unfold pod_tag.
  destruct (HasGatewayEnabled p) eqn:Eg.
  - split; [by intros (x & Hx%elem_of_nil & _)|intros [Hg _]; discriminate Hg].
  - split.
    + intros (x & Hx & Ht). split; [done|]. exists x. by rewrite <- (inbounds_of_perm _ _ _ _ _ Hsvcs).
    + intros (_ & x & Hx & Ht). exists x. by rewrite (inbounds_of_perm _ _ _ _ _ Hsvcs).
Qed.

(** The dataplane of a pod is settled when it exposes the tags of the pod, and
    connected when it has an outbound for every tag of its mesh. *)
Definition settled (w : World) (k : string * string) : Prop :=
  ∀ p, eligible w k p → ∃ o, dataplanes w !! k = Some o ∧ ko_MeshField o = MeshFor p ∧ ∀ tag, tag ∈ serviceTags o ↔ pod_tag w p tag.
Definition connected (w : World) (k : string * string) : Prop :=
  ∀ p, eligible w k p → ∃ o d, dataplanes w !! k = Some o ∧ ko_MeshField o = MeshFor p
    ∧ FromMap (ko_Spec o) (zero_spec KDataplane) = (Ok (), DataplaneSpec d)
    ∧ GetOutbound (dp_Networking d) = OutboundInterfacesFor (of_mesh w (MeshFor p)) (service_getter w).

Lemma elem_of_mesh w m o : o ∈ of_mesh w m ↔ ko_MeshField o = m ∧ ∃ k, dataplanes w !! k = Some o.
Proof.
  unfold of_mesh. rewrite list_elem_of_filter, list_elem_of_fmap. split.
  - intros (Hm & [k o'] & -> & Hk%elem_of_map_to_list). eauto.
  - intros (Hm & k & Hk). split; [done|]. exists (k, o). split; [done|]. by apply elem_of_map_to_list.
Qed.

Lemma settled_stored w k p o : eligible w k p → made w p o → settled (stored_at w k o) k.
Proof.
  intros He Hm q Hq. assert (q = p) as ->.
  { destruct He as (He & _), Hq as (Hq & _). cbn in Hq. rewrite He in Hq. by injection Hq. }
  apply made_shape in Hm as (Hm & Ht & _). exists o. cbn [dataplanes stored_at]. by rewrite lookup_insert_eq.
Qed.

Lemma settled_stored_other w k k' p o : eligible w k p → made w p o → settled w k' → settled (stored_at w k o) k'.
Proof.
  intros He Hm Hs. destruct (decide (k = k')) as [<-|Hne]; [by eapply settled_stored|].
  intros q Hq. destruct (Hs q Hq) as (x & Hx & Hmx & Ht). exists x. cbn [dataplanes stored_at]. by rewrite lookup_insert_ne.
Qed.

(** Storing the dataplane of a settled pod leaves the tags of every mesh as they
    are, and so the outbounds. *)
Lemma stored_outbounds w k p o m :
  eligible w k p → made w p o → settled w k →
  OutboundInterfacesFor (of_mesh (stored_at w k o) m) (service_getter w) = OutboundInterfacesFor (of_mesh w m) (service_getter w).
Proof.
  intros He Hm Hs. destruct (Hs p He) as (old & Hold & Hmo & Hto). apply made_shape in Hm as (Hm & Ht & _).
  apply OutboundInterfacesFor_tags. intros tag. setoid_rewrite elem_of_mesh. cbn [dataplanes stored_at]. split.
  - intros (x & (Hmx & k' & Hx) & Hin). apply lookup_insert_Some in Hx as [[<- <-]|[Hne Hx]]; [|eauto 8].
    exists old. rewrite Hto, <- Ht. split; [|done]. split; [congruence|eauto].
  - intros (x & (Hmx & k' & Hx) & Hin). destruct (decide (k = k')) as [<-|Hne].
    + rewrite Hold in Hx. injection Hx as <-. exists o. rewrite Ht, <- Hto. split; [|done]. split; [congruence|].
      exists k. apply lookup_insert_eq.
    + exists x. split; [|done]. split; [done|]. exists k'. by rewrite lookup_insert_ne.
Qed.

Lemma connected_stored w k p o : eligible w k p → made w p o → settled w k → connected (stored_at w k o) k.
Proof.
  intros He Hm Hs q Hq. assert (q = p) as ->.
  { destruct He as (He & _), Hq as (Hq & _). cbn in Hq. rewrite He in Hq. by injection Hq. }
  pose proof (stored_outbounds w k p o (MeshFor p) He Hm Hs) as Ho.
  apply made_shape in Hm as (Hm & _ & d & Hf & Hd). exists o, d. cbn [dataplanes stored_at]. split; [apply lookup_insert_eq|].
  split; [done|]. split; [done|]. change (service_getter (stored_at w k o)) with (service_getter w). by rewrite Ho.
Qed.

Lemma connected_stored_other w k k' p o :
  eligible w k p → made w p o → settled w k → connected w k' → connected (stored_at w k o) k'.
Proof.
  intros He Hm Hs Hc. destruct (decide (k = k')) as [<-|Hne]; [by eapply connected_stored|].
  intros q Hq. destruct (Hc q Hq) as (x & d & Hx & Hmx & Hf & Hd). exists x, d. cbn [dataplanes stored_at].
  rewrite lookup_insert_ne by done. split_and!; [done..|].
  change (service_getter (stored_at w k o)) with (service_getter w). by rewrite (stored_outbounds w k p o _ He Hm Hs).
Qed.

(** ** Convergence *)

Lemma connected_made w k p o : eligible w k p → made w p o → dataplanes w !! k = Some o → connected w k.
Proof.
  intros (He & _) Hm Ho q (Hq & _). assert (q = p) as -> by congruence.
  apply made_shape in Hm as (Hm & _ & d & Hf & Hd). by exists o, d.
Qed.

Lemma settled_made w k p o : eligible w k p → made w p o → dataplanes w !! k = Some o → settled w k.
Proof. intros (He & _) Hm Ho q (Hq & _). assert (q = p) as -> by congruence. apply made_shape in Hm as (Hm & Ht & _). by exists o. Qed.

(** What a successful reconciliation achieves. *)
Lemma reconciled_settled c req : synced c → result c req = Ok () → settled (world (reconciled c req)) (req_key req).
Proof.
  intros Hs Hr. destruct (reconciled_world c req Hs) as [[->|(p & o & He & Hm & ->)] Ho]; [|by eapply settled_stored].
  intros p Hp. destruct (Ho Hr p Hp) as (o & Hl & Hm). eapply settled_made; [exact Hp| |exact Hl|exact Hp]. exact Hm.
Qed.

Lemma reconciled_keeps_settled c req k : synced c → settled (world c) k → settled (world (reconciled c req)) k.
Proof.
  intros Hs Hk. destruct (reconciled_world c req Hs) as [[->|(p & o & He & Hm & ->)] _]; [done|by eapply settled_stored_other].
Qed.

Lemma run_settled c l c' k : run c l c' → settled (world c) k → settled (world c') k.
Proof.
  induction 1 as [c|c c1 l c' Hw _ IH|c req l c' Hs _ IH]; intros Hk; [done|apply IH; by rewrite Hw|].
  apply IH. by apply reconciled_keeps_settled.
Qed.

Lemma run_settles c l c' req : run c l c' → (req, Ok ()) ∈ l → settled (world c') (req_key req).
Proof.
  induction 1 as [c|c c1 l c' Hw Hrun IH|c req' l c' Hs Hrun IH]; intros Hin; [by apply elem_of_nil in Hin|auto|].
  apply elem_of_cons in Hin as [[= <- Hr]|Hin]; [|auto]. eapply run_settled; [exact Hrun|]. by apply reconciled_settled.
Qed.

Lemma reconciled_connected c req :
  synced c → settled (world c) (req_key req) →
  (∀ k, connected (world c) k → connected (world (reconciled c req)) k)
  ∧ (result c req = Ok () → connected (world (reconciled c req)) (req_key req)).
Proof.
  intros Hs Hk. destruct (reconciled_world c req Hs) as [[Hw|(p & o & He & Hm & Hw)] Ho].
  - rewrite Hw in *. split; [done|]. intros Hr p Hp. destruct (Ho Hr p Hp) as (o & Hl & Hm).
    eapply connected_made; [exact Hp|exact Hm|exact Hl|exact Hp].
  - rewrite Hw. split; [intros k Hc; by eapply connected_stored_other|]. intros _. by eapply connected_stored.
Qed.

Lemma run_connected c l c' k :
  run c l c' → (∀ req r, (req, r) ∈ l → settled (world c) (req_key req)) → connected (world c) k → connected (world c') k.
Proof.
  induction 1 as [c|c c1 l c' Hw _ IH|c req l c' Hs Hrun IH]; intros Hl Hk; [done|rewrite <- Hw in *; auto|].
  apply IH.
  - intros req' r' Hin. apply reconciled_keeps_settled; [done|]. eapply Hl. right. exact Hin.
  - apply (reconciled_connected c req Hs); [|done]. eapply Hl. left.
Qed.

(** C23: The dataplanes of a mesh converge.  Take a run of the controller, and then
    another one that reconciles only pods whose reconciliation succeeded in the
    first.  Whatever the order of the requests, however often they repeat and
    whichever of them fail (even with their write carried out), in the end the
    dataplane of every pod that was reconciled again has exactly one outbound for
    every service of its mesh that exists: what the conversion gives for the
    dataplanes that are stored in the end.  Nothing that happens later to those
    pods changes this. *)
Theorem mesh_converges c reqs1 c1 reqs2 c2 req p :
  run c reqs1 c1 → run c1 reqs2 c2 →
  (∀ req r, (req, r) ∈ reqs2 → (req, Ok ()) ∈ reqs1) →
  (req, Ok ()) ∈ reqs2 → eligible (world c2) (req_key req) p →
  ∃ o d, dataplanes (world c2) !! req_key req = Some o ∧ ko_MeshField o = MeshFor p
    ∧ FromMap (ko_Spec o) (zero_spec KDataplane) = (Ok (), DataplaneSpec d)
    ∧ GetOutbound (dp_Networking d) = OutboundInterfacesFor (of_mesh (world c2) (MeshFor p)) (service_getter (world c2)).
Proof.
  intros Hrun1 Hrun2 Hagain Hreq. revert p. change (connected (world c2) (req_key req)).
  assert (∀ req r, (req, r) ∈ reqs2 → settled (world c1) (req_key req)) as Hset.
  { intros req' r Hin. eapply run_settles; [exact Hrun1|]. by eapply Hagain. }
  clear Hrun1 Hagain. induction Hrun2 as [c1|c1 c2 l c3 Hw Hrun IH|c1 req' l c3 Hs Hrun IH]; [by apply elem_of_nil in Hreq|rewrite <- Hw in *; auto|].
  assert (∀ req r, (req, r) ∈ l → settled (world (reconciled c1 req')) (req_key req)) as Hset'.
  { intros q r Hin. apply reconciled_keeps_settled; [done|]. eapply Hset. right. exact Hin. }
  apply elem_of_cons in Hreq as [[= <- Hr]|Hin]; [|auto].
  eapply run_connected; [exact Hrun|exact Hset'|]. apply reconciled_connected; [done| |done]. eapply Hset. left.
Qed.

(** When a dataplane changes, the mapper asks for the pods of the other dataplanes
    of its mesh. *)
Lemma mapper_requests c o found l req :
  synced c → ko_Kind o = KDataplane → get_Dataplane c (ko_Namespace o) (ko_Name o) = inr found → list_Dataplanes c = inr l →
  req ∈ DataplaneToSameMeshDataplanesMapper_Map c o ↔
  ∃ k other name, dataplanes (world c) !! k = Some other ∧ ko_MeshField other = ko_MeshField o ∧ dp_key other ≠ dp_key o
    ∧ GetControllerOf (ko_Rest other) = Some ("Pod", name) ∧ req = mkKubeRequest (ko_Namespace other) name.
Proof.
  intros Hs Hk Hg Hl. unfold DataplaneToSameMeshDataplanesMapper_Map. rewrite Hk, Hg, Hl, list_elem_of_bind.
  assert (∀ x, x ∈ l ↔ ∃ k, dataplanes (world c) !! k = Some x) as Hin.
  { intros x. rewrite (list_Dataplanes_law c l Hs Hl), list_elem_of_fmap. split.
    - intros ([k x'] & -> & Hx%elem_of_map_to_list). eauto.
    - intros [k Hx]. exists (k, x). split; [done|]. by apply elem_of_map_to_list. }
  split.
  - intros (x & Hx & [k Hxl]%Hin). exists k, x. destruct (String.eqb_spec (ko_MeshField x) (ko_MeshField o)) as [Hm|]; [|by apply elem_of_nil in Hx].
    cbn [negb] in Hx. destruct (String.eqb _ _ && String.eqb _ _) eqn:Es; [by apply elem_of_nil in Hx|].
    unfold owner_request in Hx. destruct (GetControllerOf (ko_Rest x)) as [[kind name]|]; [|by apply elem_of_nil in Hx].
    destruct (String.eqb_spec kind "Pod") as [->|]; [|by apply elem_of_nil in Hx]. apply list_elem_of_singleton in Hx as ->.
    exists name. split_and!; [done..| |done|done]. unfold dp_key. intros [= Hns Hn].
    rewrite Hns, Hn, !String.eqb_refl in Es. discriminate Es.
  - intros (k & x & name & Hx & Hm & Hne & Ho & ->). exists x. split; [|apply Hin; eauto].
    rewrite Hm, String.eqb_refl. cbn [negb].
    destruct (String.eqb_spec (ko_Namespace x) (ko_Namespace o)) as [Hns|]; [destruct (String.eqb_spec (ko_Name x) (ko_Name o)) as [Hn|]|].
    + destruct Hne. unfold dp_key. by rewrite Hns, Hn.
    + unfold owner_request. rewrite Ho. by apply list_elem_of_singleton.
    + unfold owner_request. rewrite Ho. by apply list_elem_of_singleton.
Qed.
End Convergence.

(** ** A concrete cluster *)

Section SampleRun.

(** A pod with its service; its dataplane without and with an outbound. *)
Definition side_pod : Pod :=
  mkPod (mkObjectMeta "demo" "web" "uid" {["app" := "web"]} {[KumaSidecarInjectedAnnotation := "true"]}) (pod_Containers web_pod) [] "10.0.0.1".
Definition lone_dataplane : Dataplane := web_dataplane.
Definition connected_dataplane : Dataplane :=
  mkDataplane (Some (mkNetworkingTP "10.0.0.1" (GetInbound (dp_Networking web_dataplane))
    [mkOutbound "" "10.1.0.1" 80 "web.demo.svc:80"] None None)) None.

#[local] Instance run_jsonpb : Jsonpb :=
  {| jsonpb_Marshal := λ spec,
       match spec with
       | DataplaneSpec d =>
           if decide (d = lone_dataplane) then Ok "lone" else if decide (d = connected_dataplane) then Ok "connected"
           else Err (Errorf "unsupported message" [])
       | _ => Err (Errorf "unsupported message" [])
       end;
     jsonpb_Unmarshal := λ s out,
       match out with
       | DataplaneSpec _ => (Ok (), DataplaneSpec (if String.eqb s "lone" then lone_dataplane else connected_dataplane))
       | _ => (Err (Errorf "unsupported message" []), out)
       end |}.
#[local] Instance run_jsonpb_lawful : LawfulJsonpb.
Proof.
  constructor; [by intros s []|]. intros spec s Hs. destruct spec as [|d| | | | | | | | | |]; try done. cbn in Hs.
  destruct (decide (d = lone_dataplane)) as [->|]; [by injection Hs as <-|].
  destruct (decide (d = connected_dataplane)) as [->|]; [by injection Hs as <-|done].
Qed.
#[local] Instance run_JsonMap : JsonMap := {| RawMap := string; nil_map := ""; unmarshal_map := Ok; marshal_map := Ok |}.
#[local] Instance run_JsonMap_lawful : LawfulJsonMap.
Proof. constructor. intros spec content Hc. by exists content, content. Qed.
#[local] Instance run_labels : KubeLabels := {| Selector_Matches := λ set labels, bool_decide (set ⊆ labels) |}.
#[local] Instance run_errors : KubeErrors :=
  {| IsNotFound := λ e, bool_decide (e = Errorf "NotFound" []); IsAlreadyExists := λ _, false; IsConflict := λ _, false |}.

Definition pod_cluster : Type := gmap (string * string) K8sObject.
Definition keyed (kr : (string * string) * K8sObject) : Prop := dp_key kr.2 = kr.1 ∧ ko_Kind kr.2 = KDataplane.
#[local] Instance keyed_dec kr : Decision (keyed kr) := _.
Definition stored_dataplanes (c : pod_cluster) : pod_cluster := filter keyed c.
Definition found {A} (o : option A) : goerror + A := match o with Some a => inr a | None => inl (Errorf "NotFound" []) end.

(** A write of what the function makes of an object, when it fails nothing changes. *)
Definition write_object (c : pod_cluster) (r : OperationResult) (o x : K8sObject) (f : K8sObject → res unit * K8sObject)
  : res OperationResult * K8sObject * pod_cluster :=
  match f x with
  | (Ok _, new) => (Ok r, new, <[dp_key o := new]> c)
  | (Err e, _) => (Err e, o, c)
  | (Panic, _) => (Panic, o, c)
  end.

#[local] Instance pod_client : PodClient pod_cluster :=
  {| get_Pod := λ c ns name, if decide ((ns, name) = ("demo", "web")) then inr side_pod else inl (Errorf "NotFound" []);
     list_Pods := λ c ns, inr (if String.eqb ns "demo" then [side_pod] else []);
     get_Service := λ c ns name, if decide ((ns, name) = ("demo", "web")) then inr web_service else inl (Errorf "NotFound" []);
     list_Services := λ c ns, inr (if String.eqb ns "demo" then [web_service] else []);
     get_Dataplane := λ c ns name, found (stored_dataplanes c !! (ns, name));
     list_Dataplanes := λ c, inr (map_to_list (stored_dataplanes c)).*2;
     CreateOrUpdate := λ c o f,
       match stored_dataplanes c !! dp_key o with
       | None => write_object (stored_dataplanes c) OperationResultCreated o o f
       | Some old => write_object (stored_dataplanes c) OperationResultUpdated o old f
       end;
     SetControllerReference := λ p _, inr (om_Name (pod_Meta p));
     GetControllerOf := λ rest, if String.eqb rest "" then None else Some ("Pod", rest) |}.

Definition cluster_world (c : pod_cluster) : World :=
  mkWorld {[("demo", "web") := side_pod]} {[("demo", "web") := web_service]} (stored_dataplanes c).

Lemma stored_insert c o new :
  dp_key new = dp_key o → ko_Kind new = KDataplane →
  stored_dataplanes (<[dp_key o := new]> (stored_dataplanes c)) = <[dp_key o := new]> (stored_dataplanes c).
Proof.
  intros Hk Hn. apply map_filter_id. intros k x [[<- <-]|[_ Hx]]%lookup_insert_Some; [by split|].
  by apply map_lookup_filter_Some in Hx as [_ Hx].
Qed.

Lemma stored_idem c : stored_dataplanes (stored_dataplanes c) = stored_dataplanes c.
Proof. apply map_filter_id. by intros k x [_ Hx]%map_lookup_filter_Some. Qed.

#[local] Program Instance pod_client_lawful : LawfulPodClient pod_cluster := {| world := cluster_world; synced := λ _, True |}.
Next Obligation. intros c k p Hp. cbn in Hp. by apply lookup_singleton_Some in Hp as [<- <-]. Qed.
Next Obligation. intros c k p Hp. cbn in Hp. by apply lookup_singleton_Some in Hp as [<- <-]. Qed.
Next Obligation. intros c k o Ho. cbn in Ho. by apply map_lookup_filter_Some in Ho as [_ Hk]. Qed.
Next Obligation.
  intros c ns name _. cbn. destruct (decide ((ns, name) = ("demo", "web"))) as [->|Hne]; [apply lookup_singleton_eq|].
  intros _. by rewrite lookup_singleton_ne.
Qed.
Next Obligation.
  intros c ns name svc _. cbn. rewrite lookup_singleton_Some. destruct (decide ((ns, name) = ("demo", "web"))); naive_solver.
Qed.
Next Obligation.
  intros c ns l _ [= <-]. cbn [services world cluster_world]. rewrite map_to_list_singleton. cbn [fmap list_fmap snd].
  destruct (String.eqb_spec ns "demo") as [->|Hne]; [by rewrite filter_cons_True|]. rewrite filter_cons_False; [done|].
  intros Hns. apply Hne. symmetry. exact Hns.
Qed.
Next Obligation. by intros c l _ [= <-]. Qed.
Next Obligation.
  intros c o f _ Ho Hf. cbn [CreateOrUpdate pod_client world cluster_world pods services dataplanes].
  assert (∀ x, dp_key x = dp_key o → ko_Kind x = KDataplane → ∀ new, f x = (Ok (), new) →
    written (stored_dataplanes c) o new (stored_dataplanes (<[dp_key o := new]> (stored_dataplanes c)))) as Hw.
  { intros x Hx Hkx new Hnew. destruct (Hf x new Hnew) as [Hk Hkind]. exists new. split; [by repeat split|].
    apply stored_insert; congruence. }
  destruct (stored_dataplanes c !! dp_key o) as [old|] eqn:E; unfold write_object.
  - apply map_lookup_filter_Some in E as [E [Hk Hkind]]. cbn in Hk, Hkind.
    destruct (f old) as [[[]|e|] new] eqn:Ef; (split_and!; [done..|]); [|left; apply stored_idem..].
    exists old, new. split_and!; [|done|by apply (Hw old)]. apply map_lookup_filter_Some. by split.
  - destruct (f o) as [[[]|e|] new] eqn:Ef; (split_and!; [done..|]); [|left; apply stored_idem..].
    exists new. split; [done|]. by apply (Hw o).
Qed.

Definition pod_request : KubeRequest := mkKubeRequest "demo" "web".
Definition once : pod_cluster := reconciled ∅ pod_request.
Definition twice : pod_cluster := reconciled once pod_request.

Lemma once_Ok : result ∅ pod_request = Ok ().
Proof. vm_compute. reflexivity. Qed.
Lemma twice_Ok : result once pod_request = Ok ().
Proof. vm_compute. reflexivity. Qed.

Lemma reconciled_run c : result c pod_request = Ok () → run c [(pod_request, Ok ())] (reconciled c pod_request).
Proof. intros Hr. rewrite <- Hr. constructor; [done|constructor]. Qed.

(** After the first reconciliation the dataplane has no outbound, and the mapper
    does not ask for another one of the pod; the second one gives it an outbound
    for its own service. *)
Example once_lone : ko_Spec <$> (stored_dataplanes once !! ("demo", "web")) = Some "lone".
Proof. vm_compute. reflexivity. Qed.
Example once_not_mapped :
  (λ o, DataplaneToSameMeshDataplanesMapper_Map once o) <$> (stored_dataplanes once !! ("demo", "web")) = Some [].
Proof. vm_compute. reflexivity. Qed.

Lemma mesh_converges_witness :
  ∃ o d, stored_dataplanes twice !! ("demo", "web") = Some o
    ∧ FromMap (ko_Spec o) (zero_spec KDataplane) = (Ok (), DataplaneSpec d)
    ∧ GetOutbound (dp_Networking d) = OutboundInterfacesFor (of_mesh (world twice) "default") (service_getter (world twice)).
Proof.
  destruct (mesh_converges (Cl := pod_cluster) ∅ [(pod_request, Ok ())] once [(pod_request, Ok ())] twice pod_request side_pod
    (reconciled_run ∅ once_Ok) (reconciled_run once twice_Ok)) as (o & d & Ho & _ & Hf & Hd).
  - intros req r Hin. apply list_elem_of_singleton in Hin. injection Hin as -> ->. left.
  - left.
  - split; [reflexivity|]. split; [reflexivity|discriminate].
  - exists o, d. split; [exact Ho|]. split; [exact Hf|exact Hd].
Defined.
End SampleRun.
