(* ===== verification/KubeControllers.v ===== *)
(** * Controllers of meshes and namespaces

    Models [pkg/plugins/runtime/k8s/controllers]: the controller that cleans up
    after a mesh or ensures its certificate authority, and the one that creates the
    default mesh and the network attachment of a namespace.  What they read from
    the Kubernetes API is a parameter ([ControllerClient]). *)

From S2P Require Import Prelude GoStd Tags Dataplane MeshResources Validators MeshValidator Resources Store MemoryStore Manager.
From S2P Require Import Secrets MeshManager Kubernetes KubernetesStore PodReconciler.
Local Open Scope string_scope.
Local Open Scope list_scope.
Local Open Scope Z_scope.

(** The mesh object and the labels of the namespace with a name; [CreateOrUpdate] of
    a NetworkAttachmentDefinition that is not changed. *)
Class ControllerClient (St : Type) `{JsonMap} : Type := {
  get_Mesh : St → string → string → goerror + K8sObject;
  get_Namespace : St → string → string → goerror + gmap string string;
  CreateOrUpdate_NetworkAttachmentDefinition : St → string → string → res unit * St;
}.

Section Controllers.
Context `{Jsonpb} `{JsonMap} `{KubeErrors} {St Seed : Type} `{!ControllerClient St}.
Context (caManagers : gmap string (CaManager Seed St)) (seed : Seed) (resourceManager : ResourceManager St).

(** ** mesh_controller.go *)

Definition MeshReconciler_Reconcile (now : Z) (s : St) (req : KubeRequest) : res unit * St :=
  match get_Mesh s (kq_Namespace req) (kq_Name req) with
  | inl err =>
      if IsNotFound err
      then mgr_Delete resourceManager s (new_object KMesh) [DeleteByKey (kq_Name req) (kq_Name req)]
      else (Err err, s)
  | inr mesh =>
      match (let? meshResource := to_core mesh (new_object KMesh) in core_mesh meshResource) with
      | Ok meshResource => EnsureEnabledCA caManagers seed now s meshResource (GetName (r_Meta meshResource))
      | Err err => (Err err, s)
      | Panic => (Panic, s)
      end
  end.

(** ** namespace_controller.go *)

Record NamespaceReconciler : Type := mkNamespaceReconciler {
  nr_SystemNamespace : string;
  nr_CNIEnabled : bool;
  nr_DefaultMeshTemplate : Mesh;
}.

Definition createOrUpdateNetworkAttachmentDefinition (s : St) (namespace : string) : res unit * St :=
  CreateOrUpdate_NetworkAttachmentDefinition s namespace KumaCNI.

(** The labels are those of the namespace. *)
Definition reconcile_cni (r : NamespaceReconciler) (s : St) (req : KubeRequest) (labels : gmap string string) : res unit * St :=
  if nr_CNIEnabled r then
    match labels !! "kuma.io/sidecar-injection" with
    | Some label =>
        if String.eqb label "enabled" then createOrUpdateNetworkAttachmentDefinition s (kq_Name req) else (Ok (), s)
    | None => (Ok (), s)
    end
  else (Ok (), s).

Definition NamespaceReconciler_Reconcile (r : NamespaceReconciler) (now : Z) (s : St) (req : KubeRequest) : res unit * St :=
  if negb (nr_CNIEnabled r) && negb (String.eqb (kq_Name req) (nr_SystemNamespace r)) then (Ok (), s)
  else
    match get_Namespace s (kq_Namespace req) (kq_Name req) with
    | inl err => if IsNotFound err then (Ok (), s) else (Err err, s)
    | inr labels =>
        if String.eqb (kq_Name req) (nr_SystemNamespace r) then
          match get_Mesh s "" DefaultMesh with
          | inl err =>
              if IsNotFound err then CreateDefaultMesh resourceManager now s (nr_DefaultMeshTemplate r) else (Err err, s)
          | inr _ => reconcile_cni r s req labels
          end
        else reconcile_cni r s req labels
    end.

(** The requests that a change to a mesh object makes. *)
Definition mesh_to_namespaces (obj : K8sObject) : list KubeRequest := [mkKubeRequest "" (ko_Namespace obj)].
End Controllers.

(** ** Meshes over the memory store *)

Section Memory.
Context `{Hjsonpb : Jsonpb} `{HLj : !LawfulJsonpb} `{Hmap : JsonMap} `{Herr : KubeErrors} `{HLc : LawfulCipher} {Seed Key : Type} `{Hx509 : X509 Seed Key}.
Context `{Hcl : !ControllerClient memoryStore} (fmt_backend : CertificateAuthorityBackend → string).
Context (ReadFile : string → res string) (config_FromJSON : string → res ProvidedConfig).
Context (ptypes_Duration : Duration → option Z) (ResourceFromYaml_error : string → option string) (seed : Seed).
Let secretManager : SecretManager memoryStore := NewSecretManager NewSecretStore.
Let cas : gmap string (CaManager Seed memoryStore) :=
  <["builtin" := NewBuiltinCaManager secretManager fmt_backend]>
  {["provided" := NewProvidedCaManager (Load secretManager ReadFile) config_FromJSON]}.

(** C32: The mesh controller follows the mesh object.  When the object is gone, the
    reconciliation removes exactly the mesh, its secrets and the resources of
    every registered type in it; since the mesh itself is gone already it reports
    that the mesh was not found, and does so every time.  When the object is
    there, is valid and the reconciliation succeeds, a mesh with mTLS has an
    authority whose root certificate can be loaded. *)
Theorem mesh_reconciler_memory registry ks d now name c :
  ks ≡ₚ registered_kinds → rfoldl init_kind NewTypeRegistry ks = Ok registry →
  name ≠ "" → rtc memory_step NewStore c → small_store c → mesh_keys c →
  let manager := customizableManager ptypes_Duration ResourceFromYaml_error secretManager cas registry seed (S (S d)) in
  let '(e, c') := MeshReconciler_Reconcile cas seed manager now c (mkKubeRequest "" name) in
  match get_Mesh c "" name with
  | inl err => IsNotFound err = true →
      e = (if decide (is_Some (abs c !! (MeshType, name, name))) then Ok () else Err (ErrorResourceNotFound MeshType name name))
      ∧ ∀ key r, abs c' !! key = Some r ↔ abs c !! key = Some r
          ∧ ¬ (rec_Mesh r = name ∧ ∃ k, k ∈ registered_kinds ∧ rec_ResourceType r = type_name k)
  | inr obj => ∀ o mesh, to_core obj (new_object KMesh) = Ok o → core_mesh o = Ok mesh →
      Mesh_Validate mesh = None → ValidateCreate cas c (GetName (r_Meta mesh)) mesh = Ok None →
      e = Ok () → MTLSEnabled (Some mesh) = true →
      ∃ backend ca root, GetEnabledCertificateAuthorityBackend mesh = Some backend
        ∧ cas !! ca_Type backend = Some ca ∧ ca_GetRootCert ca c' (GetName (r_Meta mesh)) backend = Ok [root]
  end.
Proof.
  intros Hks Hreg Hne Hc Hs Hk manager. unfold MeshReconciler_Reconcile. cbn [kq_Namespace kq_Name].
  destruct (get_Mesh c "" name) as [err|obj].
  - destruct (IsNotFound err); [|done].
    destruct (mesh_Delete_memory ptypes_Duration ResourceFromYaml_error cas registry seed ks d name c Hks Hreg Hne Hc Hs Hk)
      as (c' & Hd & Hw & _).
    unfold manager, secretManager. rewrite Hd. intros _. split; [done|exact Hw].
  - destruct (to_core obj (new_object KMesh)) as [o|e|]; cbn [rbind]; [|done..].
    destruct (core_mesh o) as [mesh|e|] eqn:Em; [|done..].
    destruct (EnsureEnabledCA cas seed now c mesh (GetName (r_Meta mesh))) as [e c'] eqn:Ee.
    intros o' mesh' [= <-] Hm Hv Hcr -> Htls. rewrite Em in Hm. injection Hm as <-.
    destruct (ensured ptypes_Duration ResourceFromYaml_error cas registry seed fmt_backend ReadFile config_FromJSON now c c' mesh _ eq_refl Hc Hv Hcr Ee) as [_ Hroot].
    destruct (Hroot Htls) as (backend & ca & root & Hb & Hca & _ & Hr). by exists backend, ca, root.
Qed.
End Memory.

(** ** The default mesh *)

Section DefaultMesh.
Context `{Jsonpb} `{JsonMap} `{KubeErrors} {St : Type} `{!ControllerClient St} (resourceManager : ResourceManager St).

(** A mesh object has no namespace, so a change to one asks for a namespace
    without a name: without the CNI plugin the deletion of the default mesh is not
    noticed. *)
Theorem deleted_default_mesh_unnoticed r now s obj req :
  ko_Namespace obj = "" → nr_CNIEnabled r = false → nr_SystemNamespace r ≠ "" → req ∈ mesh_to_namespaces obj →
  NamespaceReconciler_Reconcile resourceManager r now s req = (Ok (), s).
Proof.
  intros Hns Hcni Hsys ->%list_elem_of_singleton. unfold NamespaceReconciler_Reconcile. rewrite Hcni, Hns. cbn [kq_Name negb andb].
  destruct (String.eqb_spec "" (nr_SystemNamespace r)); [congruence|done].
Qed.
End DefaultMesh.

(** ** A mesh that was deleted *)

Section SampleController.
#[local] Existing Instance sample_X509.
#[local] Existing Instance mark_cipher.
#[local] Existing Instance mark_lawful.
#[local] Existing Instance mesh_jsonpb.
#[local] Existing Instance mesh_jsonpb_lawful.

Definition not_found : goerror := Errorf "NotFound" [].
#[local] Instance controller_errors : KubeErrors :=
  {| IsNotFound := λ e, bool_decide (e = not_found); IsAlreadyExists := λ _, false; IsConflict := λ _, false |}.
#[local] Instance controller_JsonMap : JsonMap := {| RawMap := string; nil_map := ""; unmarshal_map := Ok; marshal_map := Ok |}.
#[local] Instance deleted_client : ControllerClient memoryStore :=
  {| get_Mesh := λ _ _ _, inl not_found; get_Namespace := λ _ _ _, inr ∅;
     CreateOrUpdate_NetworkAttachmentDefinition := λ s _ _, (Ok (), s) |}.

Lemma mesh_reconciler_memory_witness :
  let '(e, c') := MeshReconciler_Reconcile sample_cas () (sample_managers 2) 0 mesh_store (mkKubeRequest "" "default") in
  e = Ok () ∧ abs c' !! secret_key (mkKey "default" "s") = None.
Proof.
  pose proof (mesh_reconciler_memory ca_Name (λ _, Ok "") (λ _, Ok (mkProvidedConfig None None)) sample_Duration sample_Yaml ()
    sample_registry registered_kinds 0 0 "default" mesh_store) as Hw. cbv zeta in Hw. fold mesh_secrets in Hw. fold sample_cas in Hw.
  fold (sample_managers 2) in Hw.
  destruct (MeshReconciler_Reconcile sample_cas () (sample_managers 2) 0 mesh_store (mkKubeRequest "" "default")) as [e c'].
  destruct Hw as [He Hk]; [reflexivity|vm_compute; reflexivity|discriminate|apply mesh_store_reachable|reflexivity| |reflexivity|].
  - intros r [Hm [[_ Hn]|Ht]]%mesh_store_records Htype; [exact Hn|]. rewrite Ht in Htype. discriminate Htype.
  - split; [rewrite He, decide_True; [reflexivity|vm_compute; eexists; reflexivity]|].
    destruct (abs c' !! _) as [r|] eqn:E; [|reflexivity]. apply Hk in E as [Hr Hn]. destruct Hn.
    apply abs_lookup in Hr as [Hr _]; [|apply reachable_unique, mesh_store_reachable].
    apply mesh_store_records in Hr as [Hm Hor]. split; [exact Hm|].
    destruct Hor as [[Ht _]|Ht]; [exists KMesh|exists KSecret]; (split; [|exact Ht]);
      apply (bool_decide_unpack _); vm_compute; exact I.
Defined.
End SampleController.
