(* ===== verification/PrometheusSd.v ===== *)
(** * Prometheus service discovery

    Models [app/kuma-prometheus-sd/pkg/discovery/xds] and [pkg/mads/client]: the
    client of a stream of monitoring assignments, the conversion of assignments
    to the target groups of Prometheus, the handler that also sends an empty
    group for every source that is gone, the loop of a stream and the discoverer
    that opens a new stream whenever one ends.

    What a stream meets is given by an [attempt]: the results of its calls of
    gRPC, one [round] per iteration of its loop.  When the rounds run out, the
    stream waits for the next response.  The updates sent to Prometheus and the
    requests sent to the control plane are recorded in the state. *)

From S2P Require Import Prelude Effects GoStd NetUrl Dataplane MeshResources Resources Store MemoryStore.
From S2P Require Import Manager CoreXds SnapshotCache Callbacks XdsServer Topology ControlPlane Mads.
Local Open Scope Z_scope.

(** ** Target groups *)

(** [targetgroup.Group]; a nil slice or map is an empty one. *)
Record Group : Type := mkGroup {
  g_Source : string;
  g_Targets : list (gmap string string);
  g_Labels : gmap string string;
}.
#[global] Instance Group_eq_dec : EqDecision Group.
Proof. solve_decision. Defined.

(** *** converter.go *)

Section Converter.
(** [strutil.SanitizeLabelName] of Prometheus. *)
Context (SanitizeLabelName : string → string).

Definition convertLabels (labels : gmap string string) : gmap string string :=
  foldl (λ labelSet '(key, value), <[SanitizeLabelName key := value]> labelSet) ∅ (map_to_list labels).

Definition subSourceName (source : string) (i : nat) : string := sprintf "%s/%d" [AStr source; AInt (Z.of_nat i)].

(** The group of one target; [LabelSet.Merge] prefers its argument. *)
Definition convert_target (assignment : MonitoringAssignment) (commonLabels : gmap string string) (i : nat)
    (target : gmap string string) : Group :=
  let targetLabels := convertLabels target in
  let allLabels := targetLabels ∪ commonLabels in
  let address := default "" (allLabels !! AddressLabel) in
  mkGroup (subSourceName (ma_Name assignment) i) [{[ AddressLabel := address ]}] (delete AddressLabel allLabels).

Definition Convert (assignment : MonitoringAssignment) : list Group :=
  imap (convert_target assignment (convertLabels (ma_Labels assignment))) (ma_Targets assignment).

Definition ConvertAll (assignments : list MonitoringAssignment) : list Group :=
  foldl (λ groups assignment, groups ++ Convert assignment) [] assignments.

(** *** handler.go *)

(** The handler is its [oldSourceList]; every source in the map is true. *)
Definition buildSourceList (newGroups : list Group) : gset string :=
  foldl (λ newSourceList group, {[ g_Source group ]} ∪ newSourceList) ∅ newGroups.

Definition buildRemovedGroups (oldSourceList newSourceList : gset string) : list Group :=
  foldl (λ deletedGroups name,
           if bool_decide (name ∈ newSourceList) then deletedGroups else deletedGroups ++ [mkGroup name [] ∅])
    [] (elements oldSourceList).

(** The new source list and the update that is sent. *)
Definition Handle (oldSourceList : gset string) (assignments : list MonitoringAssignment) : gset string * list Group :=
  let newGroups := ConvertAll assignments in
  let newSourceList := buildSourceList newGroups in
  let removedGroups := buildRemovedGroups oldSourceList newSourceList in
  let allGroups := newGroups ++ removedGroups in
  (newSourceList, allGroups).
End Converter.

(** ** pkg/mads/client *)

(** [s_sent] records the requests and is not read. *)
Record Stream : Type := mkStream {
  s_latestACKed : option DiscoveryResponse;
  s_latestReceived : option DiscoveryResponse;
  s_sent : list DiscoveryRequest;
}.
Definition NewStream : Stream := mkStream None None [].

(** [s.stream.Send]; [result] is its error. *)
Definition Send (result : option goerror) (req : DiscoveryRequest) : ST Stream unit :=
  _ ← st_modify (λ s, mkStream (s_latestACKed s) (s_latestReceived s) (s_sent s ++ [req]));
  match result with None => mret () | Some err => fail err end.

Definition first_request (clientId : string) : DiscoveryRequest :=
  mkRequest (Some (mkNode clientId None)) MonitoringAssignmentType [] "" "" None.
Definition RequestAssignments (result : option goerror) (clientId : string) : ST Stream unit :=
  Send result (first_request clientId).

Definition ack_request (resp : DiscoveryResponse) : DiscoveryRequest :=
  mkRequest None MonitoringAssignmentType [] (dr_VersionInfo resp) (dr_Nonce resp) None.
Definition ACK (result : option goerror) : ST Stream unit :=
  latestReceived ← st_get s_latestReceived;
  match latestReceived with
  | None => mret ()
  | Some resp =>
      _ ← Send result (ack_request resp);
      st_modify (λ s, mkStream (Some resp) (s_latestReceived s) (s_sent s))
  end.

Definition NACK (result : option goerror) (err : goerror) : ST Stream unit :=
  s ← st_get id;
  match s_latestReceived s with
  | None => mret ()
  | Some resp =>
      Send result (mkRequest None MonitoringAssignmentType []
                     (match s_latestACKed s with Some acked => dr_VersionInfo acked | None => "" end)
                     (dr_Nonce resp) (Some (error_string err)))
  end.

Section Client.
(** [ptypes.UnmarshalAny] into an assignment, and [%v] of a response. *)
Context (UnmarshalAny : string * string → res MonitoringAssignment) (print : DiscoveryResponse → string).

Definition unmarshal_resources (resp : DiscoveryResponse) : res (list MonitoringAssignment) :=
  rmapM (λ any, map_err (λ err, Wrapf err "failed to unmarshal MADS response: %v" [AStr (print resp)]) (UnmarshalAny any))
    (dr_Resources resp).

(** [recv] is the result of [s.stream.Recv]. *)
Definition WaitForAssignments (recv : goerror + DiscoveryResponse) : ST Stream (list MonitoringAssignment) :=
  match recv with
  | inl err => fail err
  | inr resp =>
      _ ← st_modify (λ s, mkStream (s_latestACKed s) (Some resp) (s_sent s));
      st_lift (unmarshal_resources resp)
  end.

(** [New] up to the call of [grpc.Dial], whose result is [dial]: the address
    and whether TLS is used. *)
Definition mads_client_New (dial : string → bool → option goerror) (serverURL : string) : res unit :=
  let? url := url_Parse serverURL in
  let connect tls := match dial (url_Host url) tls with None => Ok () | Some err => Err err end in
  if String.eqb (url_Scheme url) "grpc" then connect false
  else if String.eqb (url_Scheme url) "grpcs" then connect true
  else Err (Errorf "unsupported scheme %q. Use one of %s" [AStr (url_Scheme url); AStr "[grpc grpcs]"]).

(** ** stream.go *)

Context (SanitizeLabelName : string → string) (multierr_Append : goerror → goerror → goerror).

(** What the stream shares: the handler, and the updates sent to Prometheus. *)
Record sd_state : Type := mkSd {
  sd_stream : Stream;
  sd_handler : gset string;
  sd_ch : list (list Group);
}.
Definition on_stream {A} : ST Stream A → ST sd_state A :=
  zoom sd_stream (λ s w, mkSd s (sd_handler w) (sd_ch w)).
Definition handle (assignments : list MonitoringAssignment) : ST sd_state unit :=
  st_modify (λ w, let (old, groups) := Handle SanitizeLabelName (sd_handler w) assignments in
                  mkSd (sd_stream w) old (sd_ch w ++ [groups])).

(** One iteration: whether the context was cancelled, the response and the
    result of the acknowledgement. *)
Record round : Type := mkRound {
  rd_done : bool;
  rd_recv : goerror + DiscoveryResponse;
  rd_ack : option goerror;
}.
Record attempt : Type := mkAttempt {
  at_dial : string → bool → option goerror;
  at_start : option goerror;
  at_request : option goerror;
  at_rounds : list round;
  at_close_stream : option goerror;
  at_close_client : option goerror;
}.

(** [io.EOF]. *)
Definition EOF : goerror := Errorf "EOF" [].

(** A call that still runs, or has returned. *)
Inductive progress : Type := Waiting | Returned.

(** The errors of a call that returns the given result. *)
Definition wrap_error {S A} (msg : string) (m : ST S A) : ST S A := λ s,
  let (r, s') := m s in (map_err (λ err, Wrapf err msg []) r, s').

Fixpoint discovery_loop (rounds : list round) : ST sd_state progress :=
  match rounds with
  | [] => mret Waiting
  | rd :: rest =>
      if rd_done rd then mret Returned
      else
        assignments ← wrap_error "failed to receive a discovery response" (on_stream (WaitForAssignments (rd_recv rd)));
        _ ← handle assignments;
        acked ← try (on_stream (ACK (rd_ack rd)));
        match acked with
        | inr _ => discovery_loop rest
        | inl err => if decide (err = EOF) then mret Returned else fail (Wrapf err "failed to ACK a discovery response" [])
        end
  end.

(** A deferred close: it runs when the call ends, and its error is appended. *)
Definition closing_stream (close : option goerror) (msg : string) (m : ST sd_state progress) : ST sd_state progress := λ w,
  let close_err := (λ err, Wrapf err msg []) <$> close in
  match m w with
  | (Ok Waiting, w') => (Ok Waiting, w')
  | (Ok Returned, w') => (match close_err with None => Ok Returned | Some err => Err err end, w')
  | (Err err, w') => (Err (default err (append_err multierr_Append (Some err) close_err)), w')
  | (Panic, w') => (Panic, w')
  end.

(** [Run]; the configuration is [serverURL] and [clientName]. *)
Definition stream_Run (serverURL clientName : string) (a : attempt) : ST sd_state progress :=
  _ ← wrap_error "failed to connect to gRPC server" (st_lift (mads_client_New (at_dial a) serverURL));
  closing_stream (at_close_client a) "failed to close a connection" (
    _ ← wrap_error "failed to start an xDS stream"
          (match at_start a with None => st_modify (λ w, mkSd NewStream (sd_handler w) (sd_ch w)) | Some err => fail err end);
    closing_stream (at_close_stream a) "failed to close an xDS stream" (
      _ ← wrap_error "failed to send a discovery request" (on_stream (RequestAssignments (at_request a) clientName));
      discovery_loop (at_rounds a))).

(** ** xds.go *)

(** [Run] until its context is cancelled: a stream that returned, whether with
    an error or by a panic, is followed by the next. *)
Fixpoint discoverer_Run (serverURL clientName : string) (attempts : list attempt) (w : sd_state) : sd_state :=
  match attempts with
  | [] => w
  | a :: rest =>
      let (r, w') := stream_Run serverURL clientName a w in
      match r with Ok Waiting => w' | _ => discoverer_Run serverURL clientName rest w' end
  end.
Definition NewDiscoverer : sd_state := mkSd NewStream ∅ [].

(** ** What is delivered

    The lists of assignments that reach the handler, read off the attempts:
    those of the responses up to the first that is not received, cannot be read
    or is not acknowledged. *)
Definition response_of (rd : round) : option (DiscoveryResponse * list MonitoringAssignment) :=
  match rd_done rd, rd_recv rd with
  | false, inr resp => match unmarshal_resources resp with Ok assignments => Some (resp, assignments) | _ => None end
  | _, _ => None
  end.
Fixpoint delivered_rounds (rounds : list round) : list (DiscoveryResponse * list MonitoringAssignment) :=
  match rounds with
  | [] => []
  | rd :: rest =>
      match response_of rd with
      | None => []
      | Some x => x :: match rd_ack rd with None => delivered_rounds rest | Some _ => [] end
      end
  end.
Definition connects (serverURL : string) (a : attempt) : bool :=
  is_ok (mads_client_New (at_dial a) serverURL) && bool_decide (at_start a = None).
Definition delivered (serverURL : string) (a : attempt) : list (DiscoveryResponse * list MonitoringAssignment) :=
  if connects serverURL a && bool_decide (at_request a = None) then delivered_rounds (at_rounds a) else [].

(** Whether the stream still waits at the end. *)
Fixpoint waiting_rounds (rounds : list round) : bool :=
  match rounds with
  | [] => true
  | rd :: rest => bool_decide (is_Some (response_of rd)) && bool_decide (rd_ack rd = None) && waiting_rounds rest
  end.
Definition waits (serverURL : string) (a : attempt) : bool :=
  connects serverURL a && bool_decide (at_request a = None) && waiting_rounds (at_rounds a).
Fixpoint all_delivered (serverURL : string) (attempts : list attempt) : list (list MonitoringAssignment) :=
  match attempts with
  | [] => []
  | a :: rest =>
      (delivered serverURL a).*2 ++ if waits serverURL a then [] else all_delivered serverURL rest
  end.

(** ** The stream delivers *)

(** The handler on a list of deliveries. *)
Definition feed (h : gset string * list (list Group)) (assignments : list MonitoringAssignment)
  : gset string * list (list Group) :=
  let (old, groups) := Handle SanitizeLabelName h.1 assignments in (old, h.2 ++ [groups]).
Definition shared (w : sd_state) : gset string * list (list Group) := (sd_handler w, sd_ch w).

Lemma shared_handle w assignments : ∃ w', handle assignments w = (Ok (), w') ∧ sd_stream w' = sd_stream w
  ∧ shared w' = feed (shared w) assignments.
Proof. eexists. split; [done|]. unfold feed, shared. simpl. done. Qed.

Lemma wait_spec msg resp w :
  wrap_error msg (on_stream (WaitForAssignments (inr resp))) w
  = (map_err (λ err, Wrapf err msg []) (unmarshal_resources resp),
     mkSd (mkStream (s_latestACKed (sd_stream w)) (Some resp) (s_sent (sd_stream w))) (sd_handler w) (sd_ch w)).
Proof. done. Qed.

Lemma ack_spec result resp w :
  s_latestReceived (sd_stream w) = Some resp →
  ∃ acked, try (on_stream (ACK result)) w
  = (Ok (match result with None => inr () | Some err => inl err end),
     mkSd (mkStream acked (Some resp) (s_sent (sd_stream w) ++ [ack_request resp])) (sd_handler w) (sd_ch w)).
Proof.
  intros Hr. exists (match result with None => Some resp | Some _ => s_latestACKed (sd_stream w) end).
  destruct w as [[acked received sent] old ch]. simpl in Hr. subst received. by destruct result.
Qed.

Lemma stream_loop_spec rounds w r w' :
  discovery_loop rounds w = (r, w') →
  shared w' = foldl feed (shared w) (delivered_rounds rounds).*2
  ∧ s_sent (sd_stream w') = s_sent (sd_stream w) ++ (ack_request <$> (delivered_rounds rounds).*1)
  ∧ (r = Ok Waiting ↔ waiting_rounds rounds = true).
Proof.
  revert w; induction rounds as [|rd rounds IH]; intros w.
  { intros [= <- <-]. simpl. by rewrite app_nil_r. }
  cbn [discovery_loop delivered_rounds waiting_rounds]. unfold response_of.
  destruct (rd_done rd); [intros [= <- <-]; simpl; by rewrite app_nil_r|].
  destruct (rd_recv rd) as [err|resp]; [intros [= <- <-]; simpl; by rewrite app_nil_r|].
  unfold mbind at 1, ST_bind at 1. rewrite wait_spec.
  destruct (unmarshal_resources resp) as [assignments| |]; [|intros [= <- <-]; simpl; by rewrite app_nil_r..]. cbn [map_err].
  match goal with |- context [mkSd ?s ?h ?c] => destruct (shared_handle (mkSd s h c) assignments) as (w2 & E & Hs & Hf) end.
  unfold mbind, ST_bind. rewrite E. destruct (ack_spec (rd_ack rd) resp w2) as [acked ->]; [by rewrite Hs|].
  rewrite Hs. change (shared w2 = feed (shared w) assignments) in Hf. destruct (rd_ack rd) as [err|].
  - case_decide; intros [= <- <-]; simpl; (split; [exact Hf|done]).
  - intros (IH1 & IH2 & IH3)%IH. rewrite IH1, IH2, IH3.
    split; [cbn [fmap list_fmap foldl snd]; by rewrite <- Hf|]. split; [cbn; by rewrite <- app_assoc|done].
Qed.

Lemma closing_stream_spec close msg (m : ST sd_state progress) w r w' :
  closing_stream close msg m w = (r, w') → ∃ r', m w = (r', w') ∧ (r = Ok Waiting ↔ r' = Ok Waiting).
Proof.
  unfold closing_stream. destruct (m w) as [[[]| |] w1]; intros [= <- <-]; (eexists; split; [done|]); [done| |done..].
  by destruct close.
Qed.

(** A stream as a whole: it feeds the handler what is delivered; the requests
    it makes are the first one and one acknowledgement per delivery. *)
Lemma stream_Run_spec serverURL clientName a w r w' :
  stream_Run serverURL clientName a w = (r, w') →
  shared w' = foldl feed (shared w) (delivered serverURL a).*2
  ∧ (r = Ok Waiting ↔ waits serverURL a = true)
  ∧ (connects serverURL a = true →
     s_sent (sd_stream w') = first_request clientName :: (ack_request <$> (delivered serverURL a).*1)).
Proof.
  unfold stream_Run, delivered, waits, connects. unfold mbind at 1, ST_bind at 1, wrap_error at 1, st_lift.
  destruct (mads_client_New (at_dial a) serverURL) as [[]| |]; [|by intros [= <- <-]..]. cbn [map_err is_ok andb].
  intros (r1 & E & ->)%closing_stream_spec. revert E. unfold mbind at 1, ST_bind at 1, wrap_error at 1.
  destruct (at_start a) as [err|]; [by intros [= <- <-]|]. unfold st_modify. cbn [map_err].
  intros (r2 & E & ->)%closing_stream_spec. revert E.
  unfold mbind at 1, ST_bind at 1, wrap_error, on_stream, zoom, RequestAssignments, Send.
  unfold mbind, ST_bind, st_modify. destruct (at_request a) as [err|]; [by intros [= <- <-]|].
  intros (H1 & H2 & H3)%stream_loop_spec. rewrite H1, H2, H3. done.
Qed.

Lemma discoverer_Run_spec serverURL clientName attempts w :
  shared (discoverer_Run serverURL clientName attempts w) = foldl feed (shared w) (all_delivered serverURL attempts).
Proof.
  revert w; induction attempts as [|a rest IH]; intros w; [done|]. cbn [discoverer_Run all_delivered].
  destruct (stream_Run serverURL clientName a w) as [r w'] eqn:E. apply stream_Run_spec in E as (H1 & H2 & _).
  rewrite foldl_app, <- H1. destruct (waits serverURL a).
  - by rewrite (proj2 H2 eq_refl).
  - destruct r as [[]| |]; [by discriminate (proj1 H2 eq_refl)|apply IH..].
Qed.
End Client.

(** ** What Prometheus holds

    [updateGroup] is what the discovery manager of Prometheus does with an
    update: it replaces the groups of the sources in it. *)
Definition updateGroup (targets : gmap string Group) (tgs : list Group) : gmap string Group :=
  foldl (λ targets tg, <[g_Source tg := tg]> targets) targets tgs.
Definition held (updates : list (list Group)) : gmap string Group := foldl updateGroup ∅ updates.

Lemma updateGroup_union targets tgs : updateGroup targets tgs = updateGroup ∅ tgs ∪ targets.
Proof.
  induction tgs as [|tg tgs IH] using rev_ind; [simpl; by rewrite (left_id_L ∅ (∪))|].
  unfold updateGroup in *. rewrite !foldl_app. simpl. by rewrite IH, insert_union_l.
Qed.

Lemma updateGroup_app targets tgs tgs' :
  updateGroup targets (tgs ++ tgs') = updateGroup ∅ tgs' ∪ (updateGroup ∅ tgs ∪ targets).
Proof. unfold updateGroup at 1. rewrite foldl_app. fold (updateGroup targets tgs). by rewrite <- !updateGroup_union. Qed.

Lemma updateGroup_Some tgs source g : updateGroup ∅ tgs !! source = Some g → g ∈ tgs ∧ g_Source g = source.
Proof.
  unfold updateGroup. induction tgs as [|tg tgs IH] using rev_ind; [done|].
  rewrite foldl_app. simpl. rewrite lookup_insert_Some, elem_of_app, list_elem_of_singleton.
  intros [[? ->]|[_ [? ?]%IH]]; auto.
Qed.

Lemma updateGroup_is_Some tgs g : g ∈ tgs → is_Some (updateGroup ∅ tgs !! g_Source g).
Proof.
  unfold updateGroup. induction tgs as [|tg tgs IH] using rev_ind; [by intros ?%not_elem_of_nil|].
  rewrite foldl_app, elem_of_app, list_elem_of_singleton. simpl. intros [Hin| ->]; apply lookup_insert_is_Some'; auto.
Qed.

Lemma updateGroup_elem tgs g :
  (∀ g', g' ∈ tgs → g_Source g' = g_Source g → g' = g) → g ∈ tgs → updateGroup ∅ tgs !! g_Source g = Some g.
Proof.
  intros Hu Hin. destruct (updateGroup_is_Some tgs g Hin) as [g' Hg]. rewrite Hg.
  apply updateGroup_Some in Hg as [Hin' Hs]. by rewrite (Hu g').
Qed.

Lemma buildSourceList_dom tgs : buildSourceList tgs = dom (updateGroup ∅ tgs).
Proof.
  unfold updateGroup, buildSourceList. induction tgs as [|tg tgs IH] using rev_ind; [simpl; by rewrite dom_empty_L|].
  rewrite !foldl_app. simpl. by rewrite IH, dom_insert_L.
Qed.

Lemma removed_elem old new g :
  g ∈ buildRemovedGroups old new ↔ ∃ name, name ∈ old ∧ name ∉ new ∧ g = mkGroup name [] ∅.
Proof.
  unfold buildRemovedGroups. transitivity (∃ name, name ∈ elements old ∧ name ∉ new ∧ g = mkGroup name [] ∅).
  - induction (elements old) as [|name l IH] using rev_ind.
    { split; [by intros ?%not_elem_of_nil|]. intros (? & H1 & _). by apply not_elem_of_nil in H1. }
    rewrite foldl_app. setoid_rewrite elem_of_app. setoid_rewrite list_elem_of_singleton. simpl.
    case_bool_decide as Hn; [rewrite IH; naive_solver|]. rewrite elem_of_app, list_elem_of_singleton, IH. naive_solver.
  - by setoid_rewrite elem_of_elements.
Qed.

Lemma removed_lookup old new source :
  updateGroup ∅ (buildRemovedGroups old new) !! source
  = if bool_decide (source ∈ old ∧ source ∉ new) then Some (mkGroup source [] ∅) else None.
Proof.
  set (rs := buildRemovedGroups old new). case_bool_decide as Hs.
  - assert (mkGroup source [] ∅ ∈ rs) as Hin by (apply removed_elem; naive_solver).
    destruct (updateGroup_is_Some rs _ Hin) as [g Hg]. simpl in Hg. rewrite Hg.
    by apply updateGroup_Some in Hg as [(n & _ & _ & ->)%removed_elem <-].
  - destruct (updateGroup ∅ rs !! source) as [g|] eqn:E; [|done].
    apply updateGroup_Some in E as [(n & ? & ? & ->)%removed_elem Hg]. simpl in Hg. subst n. tauto.
Qed.

(** *** Sources *)

Lemma subSourceName_eq source i : subSourceName source i = source +:+ "/" +:+ itoa (Z.of_nat i).
Proof. unfold subSourceName. cbn -[itoa]. by rewrite string_app_empty_r. Qed.

Lemma subSourceName_inj source source' i i' :
  subSourceName source i = subSourceName source' i' → source = source' ∧ i = i'.
Proof.
  rewrite !subSourceName_eq. intros E.
  assert (has_byte "/" (itoa (Z.of_nat i)) = false) as Hi by (by apply itoa_plain).
  assert (has_byte "/" (itoa (Z.of_nat i')) = false) as Hi' by (by apply itoa_plain).
  pose proof (last_index_app source "/" _ Hi) as Hl. pose proof (last_index_app source' "/" _ Hi') as Hl'.
  change (String "/" (itoa (Z.of_nat i))) with ("/" +:+ itoa (Z.of_nat i)) in Hl.
  change (String "/" (itoa (Z.of_nat i'))) with ("/" +:+ itoa (Z.of_nat i')) in Hl'.
  rewrite E, Hl' in Hl. injection Hl as Hlen.
  assert (source = source') as ->.
  { rewrite <- (stake_app source ("/" +:+ itoa (Z.of_nat i))), E, <- Hlen. by rewrite stake_app. }
  split; [done|]. apply (inj (String.append source')) in E. injection E as E. apply itoa_inj in E; lia.
Qed.

Section Targets.
Context (SanitizeLabelName : string → string).

(** The group of target [i] of an assignment. *)
Definition target_group (a : MonitoringAssignment) (i : nat) (target : gmap string string) : Group :=
  convert_target SanitizeLabelName a (convertLabels SanitizeLabelName (ma_Labels a)) i target.

Lemma Convert_elem a g : g ∈ Convert SanitizeLabelName a ↔ ∃ i target, ma_Targets a !! i = Some target ∧ g = target_group a i target.
Proof.
  unfold Convert. rewrite list_elem_of_lookup. setoid_rewrite list_lookup_imap_Some. unfold target_group. naive_solver.
Qed.

Lemma ConvertAll_elem assignments g :
  g ∈ ConvertAll SanitizeLabelName assignments ↔
  ∃ a i target, a ∈ assignments ∧ ma_Targets a !! i = Some target ∧ g = target_group a i target.
Proof.
  unfold ConvertAll. induction assignments as [|a assignments IH] using rev_ind.
  { split; [by intros ?%not_elem_of_nil|]. intros (? & ? & ? & H1 & _). by apply not_elem_of_nil in H1. }
  rewrite foldl_app. simpl. rewrite elem_of_app, IH, Convert_elem. setoid_rewrite elem_of_app.
  setoid_rewrite list_elem_of_singleton. naive_solver.
Qed.

Lemma ConvertAll_unique assignments g g' :
  (∀ a a', a ∈ assignments → a' ∈ assignments → ma_Name a = ma_Name a' → a = a') →
  g ∈ ConvertAll SanitizeLabelName assignments → g' ∈ ConvertAll SanitizeLabelName assignments →
  g_Source g' = g_Source g → g' = g.
Proof.
  rewrite !ConvertAll_elem. intros Hu (a & i & t & Ha & Ht & ->) (a' & i' & t' & Ha' & Ht' & ->).
  intros [Hn ->]%subSourceName_inj. assert (a' = a) as -> by auto. congruence.
Qed.

(** *** The handler keeps Prometheus up to date *)

(** What Prometheus holds when the last assignments are [assignments]: their
    groups, and an empty group for sources of the past. *)
Definition handler_agrees (h : gset string * list (list Group)) (assignments : list MonitoringAssignment) : Prop :=
  let groups := updateGroup ∅ (ConvertAll SanitizeLabelName assignments) in
  h.1 = dom groups
  ∧ ∀ source, held h.2 !! source = groups !! source
      ∨ groups !! source = None ∧ held h.2 !! source = Some (mkGroup source [] ∅).

Lemma feed_agrees h assignments assignments' :
  handler_agrees h assignments → handler_agrees (feed SanitizeLabelName h assignments') assignments'.
Proof.
  intros [Hold Hheld]. unfold handler_agrees, feed, Handle. cbn [fst snd]. split; [apply buildSourceList_dom|]. intros source.
  unfold held. rewrite foldl_app. cbn [foldl]. fold (held h.2).
  rewrite updateGroup_app.
  rewrite !lookup_union, removed_lookup, buildSourceList_dom, Hold. specialize (Hheld source).
  destruct (updateGroup ∅ (ConvertAll SanitizeLabelName assignments') !! source) as [g|] eqn:E.
  - left. rewrite bool_decide_eq_false_2 by (intros [_ Hn]; apply Hn, elem_of_dom; eauto). destruct (held h.2 !! source); done.
  - destruct Hheld as [->|[Hn ->]]; [|right; split; [done|]; case_bool_decide; done].
    case_bool_decide as Hs.
    { right. split; [done|]. by destruct (updateGroup ∅ (ConvertAll SanitizeLabelName assignments) !! source). }
    left.
    destruct (updateGroup ∅ (ConvertAll SanitizeLabelName assignments) !! source) eqn:E'; [|done]. exfalso. apply Hs.
    split; [apply elem_of_dom; eauto|by apply not_elem_of_dom].
Qed.

Lemma feeds_agree h assignments updates :
  handler_agrees h assignments →
  handler_agrees (foldl (feed SanitizeLabelName) h updates) (default assignments (last updates)).
Proof.
  revert h assignments; induction updates as [|x updates IH]; intros h assignments Hh; [done|]. cbn [foldl].
  specialize (IH _ x (feed_agrees h assignments x Hh)). rewrite last_cons. by destruct (last updates).
Qed.
End Targets.

(** ** Prometheus is up to date *)

Section Discovery.
Context (UnmarshalAny : string * string → res MonitoringAssignment) (print : DiscoveryResponse → string).
Context (SanitizeLabelName : string → string) (multierr_Append : goerror → goerror → goerror).
Context (serverURL clientName : string).
Abbreviation run := (discoverer_Run UnmarshalAny print SanitizeLabelName multierr_Append serverURL clientName).

(** The last assignments that were delivered over any of the streams. *)
Definition current_assignments (attempts : list attempt) : list MonitoringAssignment :=
  default [] (last (all_delivered UnmarshalAny print serverURL attempts)).

Lemma held_current attempts source g :
  (∀ a a', a ∈ current_assignments attempts → a' ∈ current_assignments attempts → ma_Name a = ma_Name a' → a = a') →
  (held (sd_ch (run attempts NewDiscoverer)) !! source = Some g ∧ g_Targets g ≠ [])
  ↔ g ∈ ConvertAll SanitizeLabelName (current_assignments attempts) ∧ g_Source g = source.
Proof.
  intros Hu. pose proof (discoverer_Run_spec UnmarshalAny print SanitizeLabelName multierr_Append serverURL clientName
    attempts NewDiscoverer) as Hs.
  destruct (feeds_agree SanitizeLabelName (shared NewDiscoverer) [] (all_delivered UnmarshalAny print serverURL attempts))
    as [_ Hheld]; [split; [done|]; by left|].
  rewrite <- Hs in Hheld. specialize (Hheld source). change (default [] (last _)) with (current_assignments attempts) in Hheld.
  cbn [shared snd] in Hheld. split.
  - intros [Hg Ht]. destruct Hheld as [Heq|[_ Heq]]; rewrite Hg in Heq.
    + by apply eq_sym, updateGroup_Some in Heq.
    + injection Heq as ->. done.
  - intros [Hin <-]. rewrite (updateGroup_elem _ g) in Hheld.
    + destruct Hheld as [->|[? _]]; [|done]. split; [done|].
      apply ConvertAll_elem in Hin as (a & i & t & _ & _ & ->). done.
    + intros g' Hin'. by apply (ConvertAll_unique SanitizeLabelName (current_assignments attempts)).
    + done.
Qed.

(** Prometheus follows the control plane, over any number of streams that
    break at any point: the groups with targets that it holds are exactly those
    of the assignments delivered last, one for every target, under a source of its
    own.  What was delivered before and is gone has an empty group. *)
Theorem promsd_targets attempts :
  (∀ a a', a ∈ current_assignments attempts → a' ∈ current_assignments attempts → ma_Name a = ma_Name a' → a = a') →
  ∀ source g,
    (held (sd_ch (run attempts NewDiscoverer)) !! source = Some g ∧ g_Targets g ≠ [])
    ↔ ∃ a i target, a ∈ current_assignments attempts ∧ ma_Targets a !! i = Some target
        ∧ source = subSourceName (ma_Name a) i ∧ g = target_group SanitizeLabelName a i target.
Proof.
  intros Hu source g. rewrite (held_current attempts source g Hu), ConvertAll_elem. split.
  - intros [(a & i & t & ? & ? & ->) <-]. by exists a, i, t.
  - intros (a & i & t & ? & ? & -> & ->). split; [by exists a, i, t|done].
Qed.
End Discovery.

(** ** From the resources of a mesh to its scrape targets *)

Section Labels.
Context (SanitizeLabelName : string → string).
Context (sanitized : ∀ s, SanitizeLabelName (SanitizeLabelName s) = SanitizeLabelName s).
Context (mandatory_sanitized : ∀ l, l ∈ AddressLabel :: mandatory → SanitizeLabelName l = l).

Definition clean (labels : gmap string string) : Prop := map_Forall (λ l _, SanitizeLabelName l = l) labels.

Lemma convertLabels_clean labels : clean labels → convertLabels SanitizeLabelName labels = labels.
Proof.
  intros Hc. unfold convertLabels. rewrite <- (list_to_map_to_list labels) at 2.
  assert (∀ k x, (k, x) ∈ map_to_list labels → SanitizeLabelName k = k) as Hl
    by (intros k x Hin%elem_of_map_to_list; by apply (Hc k x)).
  pose proof (NoDup_fst_map_to_list labels) as Hnd. revert Hl Hnd.
  induction (map_to_list labels) as [|[k x] l IH] using rev_ind; intros Hl Hnd; [done|].
  rewrite foldl_app. simpl. rewrite fmap_app, NoDup_app in Hnd. destruct Hnd as (Hnd & Hne & _).
  rewrite list_to_map_snoc by (intros Hin; apply (Hne k Hin); by left).
  rewrite (Hl k x) by (apply elem_of_app; right; by left). f_equal. apply IH; [|done].
  intros k' x' Hin. apply (Hl k' x'), elem_of_app. by left.
Qed.

Lemma clean_insert labels l x : SanitizeLabelName l = l → clean labels → clean (<[l := x]> labels).
Proof. intros Hl Hc. by apply map_Forall_insert_2. Qed.

Lemma dataplaneLabels_clean dataplane endpoint : clean (dataplaneLabels SanitizeLabelName dataplane endpoint).
Proof.
  unfold dataplaneLabels. cbv zeta. repeat (apply clean_insert; [apply mandatory_sanitized, (bool_decide_unpack _); by vm_compute|]).
  assert (∀ keys labels, clean labels →
    clean (foldl (tag_labels SanitizeLabelName (Dataplane_Tags (r_Spec dataplane))) labels keys)) as Htags.
  { induction keys as [|key keys IH]; intros labels Hc; simpl; [done|]. apply IH. unfold tag_labels. by repeat apply clean_insert. }
  assert (∀ exts labels, clean labels →
    clean (foldl (λ labels '(key, value), <[SanitizeLabelName key := value]> labels) labels exts)) as Hexts.
  { induction exts as [|[key x] exts IH]; intros labels Hc; simpl; [done|]. apply IH. by apply clean_insert. }
  apply Hexts, Htags. apply map_Forall_empty.
Qed.

(** The group of the assignment the control plane makes of a dataplane. *)
Lemma target_group_generated name address labels i :
  clean labels →
  target_group SanitizeLabelName (mkAssignment name [{[ AddressLabel := address ]}] labels) i {[ AddressLabel := address ]}
  = mkGroup (subSourceName name i) [{[ AddressLabel := address ]}] (delete AddressLabel labels).
Proof.
  intros Hc. unfold target_group, convert_target. cbn [ma_Name ma_Labels].
  rewrite (convertLabels_clean labels Hc), (convertLabels_clean {[ AddressLabel := address ]}).
  - rewrite lookup_union, lookup_singleton_eq, union_Some_l. cbn [default id]. f_equal.
    apply map_eq. intros l. destruct (decide (l = AddressLabel)) as [->|]; [by rewrite !lookup_delete_eq|].
    rewrite !lookup_delete_ne by done. rewrite lookup_union, lookup_singleton_ne by done. by rewrite (left_id_L None _).
  - apply map_Forall_singleton, mandatory_sanitized. by left.
Qed.
End Labels.

Section EndToEnd.
Context `{LawfulJsonpb} `{Hmerge : ProtoMerge} (SanitizeLabelName : string → string).
Context (sanitized : ∀ s, SanitizeLabelName (SanitizeLabelName s) = SanitizeLabelName s).
Context (mandatory_sanitized : ∀ l, l ∈ AddressLabel :: mandatory → SanitizeLabelName l = l).
Context (ptypes_Duration : Duration → option Z) (ResourceFromYaml_error : string → option string).
Context (UnmarshalAny : string * string → res MonitoringAssignment) (print : DiscoveryResponse → string).
Context (multierr_Append : goerror → goerror → goerror) (serverURL clientName : string).

(** When the assignments delivered last are those of the snapshot the control
    plane makes of its store, Prometheus scrapes exactly the dataplanes of the
    meshes with metrics enabled, each at the address and port its mesh and
    dataplane call for and with exactly the labels of the dataplane. *)
Theorem promsd_scrapes_mesh c snap attempts :
  rtc (manager_step ptypes_Duration ResourceFromYaml_error) NewStore c → small_store c → plain_meshes c →
  mads_GenerateSnapshot SanitizeLabelName (read_only (memory_manager ptypes_Duration ResourceFromYaml_error)) c = (Ok snap, c) →
  (∀ a, a ∈ current_assignments UnmarshalAny print serverURL attempts ↔ ∃ name, xr_Items (MonitoringAssignments snap) !! name = Some a) →
  ∀ source g,
    (held (sd_ch (discoverer_Run UnmarshalAny print SanitizeLabelName multierr_Append serverURL clientName attempts
                    NewDiscoverer)) !! source = Some g ∧ g_Targets g ≠ [])
    ↔ ∃ (dp : DataplaneResource) (mesh : MeshResource) endpoint ip,
        stored c KMesh (GetName (r_Meta mesh)) mesh ∧ stored c KDataplane (GetName (r_Meta mesh)) dp
        ∧ GetPrometheusEndpoint (Some dp) (Some mesh) = Some endpoint ∧ GetIP (Some dp) = Ok ip
        ∧ source = assignmentName dp +:+ "/0"
        ∧ g = mkGroup source [{[ AddressLabel := JoinHostPort ip (format_uint (prom_Port endpoint)) ]}]
                (delete AddressLabel (dataplaneLabels SanitizeLabelName dp endpoint)).
Proof.
  intros Hw Hs Hplain Hsnap Hcur source g.
  destruct (mads_GenerateSnapshot_memory SanitizeLabelName ptypes_Duration ResourceFromYaml_error c Hw Hs Hplain)
    as (snap' & E & Hitems). rewrite Hsnap in E. injection E as <-.
  rewrite held_current.
  - rewrite ConvertAll_elem. split.
    + intros [(a & i & t & [name Ha]%Hcur & Ht & ->) <-].
      apply Hitems in Ha as (dp & mesh & e & ip & Hm & Hd & He & Hip & -> & ->).
      cbn [ma_Targets] in Ht. apply list_lookup_singleton_Some in Ht as [-> <-].
      rewrite target_group_generated by (done || by apply dataplaneLabels_clean).
      exists dp, mesh, e, ip. do 4 (split; [done|]). split; [apply subSourceName_eq|done].
    + intros (dp & mesh & e & ip & Hm & Hd & He & Hip & -> & ->). split; [|done].
      eexists _, 0%nat, _. split; [|split].
      * apply Hcur. exists (assignmentName dp). apply Hitems. exists dp, mesh, e, ip. done.
      * done.
      * rewrite target_group_generated by (done || by apply dataplaneLabels_clean).
        by rewrite subSourceName_eq.
  - intros a a' [n Ha]%Hcur [n' Ha']%Hcur Hn. pose proof Ha as (? & ? & ? & ? & _ & _ & _ & _ & _ & Hname)%Hitems.
    pose proof Ha' as (? & ? & ? & ? & _ & _ & _ & _ & _ & Hname')%Hitems.
    assert (n = n') as -> by (rewrite Hname, Hname' in Hn; exact Hn). congruence.
Qed.
End EndToEnd.

(** ** Concrete streams *)

(** Assignments of one target each, packed as their names. *)
Definition sample_assignment (name : string) : MonitoringAssignment :=
  mkAssignment name [{[ AddressLabel := name +:+ ":1234" ]}] {[ "job" := "web" ]}.
Definition sample_Unmarshal (any : string * string) : res MonitoringAssignment := Ok (sample_assignment any.2).
Definition sample_print (resp : DiscoveryResponse) : string := dr_VersionInfo resp.
Definition sample_Append (a b : goerror) : goerror := a.
Definition delivery (version : string) (names : list string) : round :=
  mkRound false (inr (mkDiscoveryResponse version ((λ name, (MonitoringAssignmentType, name)) <$> names)
                        MonitoringAssignmentType version)) None.
Definition broken_round : round := mkRound false (inl EOF) None.
Definition sample_attempt (rounds : list round) : attempt := mkAttempt (λ _ _, None) None None rounds None None.
(** The second stream no longer has [dp-1]. *)
Definition sample_attempts : list attempt :=
  [sample_attempt [delivery "1" ["dp-1"; "dp-2"]; broken_round]; sample_attempt [delivery "2" ["dp-2"]]].
Definition sample_held : gmap string Group :=
  held (sd_ch (discoverer_Run sample_Unmarshal sample_print id sample_Append "grpc://localhost:5676" "prometheus"
                 sample_attempts NewDiscoverer)).

Lemma promsd_targets_witness :
  (∃ g, sample_held !! "dp-2/0" = Some g ∧ g_Targets g = [{[ AddressLabel := "dp-2:1234" ]}])
  ∧ ¬ ∃ g, sample_held !! "dp-1/0" = Some g ∧ g_Targets g ≠ [].
Proof.
  assert (current_assignments sample_Unmarshal sample_print "grpc://localhost:5676" sample_attempts = [sample_assignment "dp-2"]) as E
    by (vm_compute; reflexivity).
  pose proof (promsd_targets sample_Unmarshal sample_print id sample_Append "grpc://localhost:5676" "prometheus" sample_attempts)
    as Ht. rewrite E in Ht. fold sample_held in Ht.
  specialize (Ht ltac:(by intros a a' ->%list_elem_of_singleton ->%list_elem_of_singleton _)). split.
  - set (g := target_group id (sample_assignment "dp-2") 0 {[ AddressLabel := "dp-2:1234" ]}).
    exists g. split; [|vm_compute; reflexivity]. apply (proj2 (Ht "dp-2/0" g)).
    exists (sample_assignment "dp-2"), 0%nat, {[ AddressLabel := "dp-2:1234" ]}.
    split; [by left|]. split; [reflexivity|]. split; reflexivity.
  - intros [g Hg]. apply Ht in Hg as (a & i & t & ->%list_elem_of_singleton & _ & Hs & _).
    change "dp-1/0" with (subSourceName "dp-1" 0) in Hs. by apply subSourceName_inj in Hs as [? _].
Defined.

(** What the control plane makes of the store with one dataplane. *)
#[local] Existing Instances Mads.sample_merge Mads.mads_jsonpb Mads.mads_jsonpb_lawful.
Definition mads_sample : MadsSnapshot MonitoringAssignment :=
  match (mads_GenerateSnapshot id (read_only (memory_manager sample_Duration sample_Yaml)) mads_store).1 with
  | Ok snap => snap
  | _ => NewSnapshot "" ∅
  end.
Definition mads_items : list (string * MonitoringAssignment) := map_to_list (xr_Items (MonitoringAssignments mads_sample)).
Definition unpack (any : string * string) : res MonitoringAssignment :=
  match xr_Items (MonitoringAssignments mads_sample) !! any.2 with
  | Some a => Ok a
  | None => Err (Errorf "unknown" [])
  end.
Definition mads_attempts : list attempt := [sample_attempt [delivery "1" mads_items.*1]].

Lemma unpack_items l :
  l ⊆ mads_items → rmapM (λ any, map_err (λ err, Wrapf err "failed to unmarshal MADS response: %v" [AStr "1"]) (unpack any))
    ((λ name, (MonitoringAssignmentType, name)) <$> l.*1) = Ok l.*2.
Proof.
  induction l as [|[name a] l IH]; intros Hl; [done|]. cbn [fmap list_fmap rmapM fst snd].
  assert (xr_Items (MonitoringAssignments mads_sample) !! name = Some a) as Ha by (apply elem_of_map_to_list, Hl; by left).
  unfold unpack at 1. cbn [snd]. rewrite Ha. cbn [map_err rbind].
  change (rmapM _ _) with (rmapM (λ any, map_err (λ err, Wrapf err "failed to unmarshal MADS response: %v" [AStr "1"]) (unpack any))
    ((λ name, (MonitoringAssignmentType, name)) <$> l.*1)). rewrite IH; [done|]. intros x Hx. apply Hl. by right.
Qed.

Lemma mads_current : current_assignments unpack sample_print "grpc://localhost:5676" mads_attempts = mads_items.*2.
Proof.
  assert (delivered unpack sample_print "grpc://localhost:5676" (sample_attempt [delivery "1" mads_items.*1])
          = [(mkDiscoveryResponse "1" ((λ name, (MonitoringAssignmentType, name)) <$> mads_items.*1) MonitoringAssignmentType "1",
              mads_items.*2)]) as E.
  { unfold delivered, sample_attempt. cbn [at_rounds delivered_rounds]. unfold response_of, unmarshal_resources, delivery.
    cbn [rd_done rd_recv rd_ack dr_Resources]. unfold sample_print. cbn [dr_VersionInfo]. by rewrite unpack_items. }
  unfold current_assignments, mads_attempts, all_delivered. rewrite E. by destruct (waits _ _ _ _).
Qed.

Lemma mads_sample_snapshot :
  mads_GenerateSnapshot id (read_only (memory_manager sample_Duration sample_Yaml)) mads_store = (Ok mads_sample, mads_store).
Proof.
  destruct (mads_GenerateSnapshot_memory id sample_Duration sample_Yaml mads_store mads_store_managed
    ltac:(vm_compute; reflexivity) mads_store_plain) as (snap & E & _). unfold mads_sample. rewrite E. reflexivity.
Qed.

Lemma promsd_scrapes_mesh_witness :
  ∃ g (dp : DataplaneResource) (mesh : MeshResource) endpoint,
    held (sd_ch (discoverer_Run unpack sample_print id sample_Append "grpc://localhost:5676" "prometheus" mads_attempts
                   NewDiscoverer)) !! "/meshes/default/dataplanes/dp-1/0" = Some g
    ∧ stored mads_store KDataplane (GetName (r_Meta mesh)) dp
    ∧ g = mkGroup "/meshes/default/dataplanes/dp-1/0" [{[ AddressLabel := "192.168.0.1:1234" ]}]
            (delete AddressLabel (dataplaneLabels id dp endpoint)).
Proof.
  pose proof (promsd_scrapes_mesh id (λ _, eq_refl) (λ _ _, eq_refl) sample_Duration sample_Yaml unpack sample_print
    sample_Append "grpc://localhost:5676" "prometheus" mads_store mads_sample mads_attempts mads_store_managed
    ltac:(vm_compute; reflexivity) mads_store_plain mads_sample_snapshot) as Ht. rewrite mads_current in Ht.
  match goal with |- context [held ?ch !! ?k] => set (lookup_result := held ch !! k); set (held_now := held ch) in Ht end.
  assert (∃ g, lookup_result = Some g ∧ g_Targets g = [{[ AddressLabel := "192.168.0.1:1234" ]}]) as (g & Hg & Htg).
  { assert (g_Targets <$> lookup_result = Some [{[ AddressLabel := "192.168.0.1:1234" ]}]) as E by (vm_compute; reflexivity).
    apply fmap_Some in E as (g & ? & ?). eauto. }
  assert (∀ a, a ∈ mads_items.*2 ↔ ∃ name, xr_Items (MonitoringAssignments mads_sample) !! name = Some a) as Hitems.
  { intros a. rewrite list_elem_of_fmap. unfold mads_items. split.
    - intros ([n x] & -> & Hin%elem_of_map_to_list). exists n. exact Hin.
    - intros [n Hn]. exists (n, a). split; [reflexivity|]. apply elem_of_map_to_list. exact Hn. }
  destruct (proj1 (Ht Hitems "/meshes/default/dataplanes/dp-1/0" g)) as (dp & mesh & e & ip & _ & Hd & _ & _ & Hs & E).
  { split; [exact Hg|]. by rewrite Htg. }
  exists g, dp, mesh, e. split; [exact Hg|]. split; [exact Hd|]. rewrite E. f_equal. by rewrite <- Htg, E.
Defined.
