(* ===== verification/KumactlConfig.v ===== *)
(** * The configuration of kumactl

    Models the configuration file of the command line tool: the messages of
    [pkg/config/app/kumactl/v1alpha1] with their validation and their helpers,
    [app/kumactl/pkg/config] (the default configuration, loading, saving and the
    check of a control plane), and the commands [config control-planes add],
    [remove], [switch] and [list] of [app/kumactl/cmd/config] behind the hook of
    the root command.

    [RemoveControlPlane] ranges over the slice of contexts while [RemoveContext]
    shifts its array in place, so contexts live in a [Slice] with its array. *)

From S2P Require Import Prelude Effects GoStd NetUrl.
Local Open Scope Z_scope.

(** ** Slices *)

(** The array from the start of the slice to the end of its capacity. *)
Record Slice (A : Type) : Type := mkSlice { sl_array : list A; sl_len : nat }.
Arguments mkSlice {A} _ _.
Arguments sl_array {A} _.
Arguments sl_len {A} _.

Section Slices.
Context {A : Type}.

Definition elems (s : Slice A) : list A := take (sl_len s) (sl_array s).
Definition new_slice (l : list A) : Slice A := mkSlice l (length l).
(** [s[i] = x]. *)
Definition slice_set (s : Slice A) (i : nat) (x : A) : Slice A := mkSlice (<[i := x]> (sl_array s)) (sl_len s).
(** [append(s, x)]: in place when the capacity allows. *)
Definition slice_append (s : Slice A) (x : A) : Slice A :=
  if decide (sl_len s < length (sl_array s))%nat
  then mkSlice (<[sl_len s := x]> (sl_array s)) (S (sl_len s))
  else mkSlice (elems s ++ [x]) (S (sl_len s)).
(** [append(s[:i], s[i+1:]...)]: the last element stays behind the new end. *)
Definition slice_remove (s : Slice A) (i : nat) : Slice A :=
  mkSlice (take i (sl_array s) ++ drop (S i) (elems s) ++ drop (sl_len s - 1) (sl_array s)) (sl_len s - 1).

Definition slice_ok (s : Slice A) : Prop := (sl_len s ≤ length (sl_array s))%nat.

Lemma elems_set s i x : slice_ok s → (i < sl_len s)%nat → elems (slice_set s i x) = <[i := x]> (elems s).
Proof. intros _ Hi. unfold elems. simpl. by rewrite take_insert_lt. Qed.

Lemma elems_append s x : slice_ok s → elems (slice_append s x) = elems s ++ [x].
Proof.
  unfold slice_ok, slice_append. intros Hs. case_decide as Hd.
  - unfold elems. simpl. rewrite (take_S_r _ _ x) by (by apply list_lookup_insert_eq). by rewrite take_insert_ge.
  - unfold elems at 1. simpl. apply take_ge. rewrite length_app. unfold elems. rewrite length_take. simpl. lia.
Qed.

Lemma elems_remove s i : slice_ok s → (i < sl_len s)%nat → elems (slice_remove s i) = delete i (elems s).
Proof.
  unfold slice_ok. intros Hs Hi. unfold elems at 1. simpl. rewrite app_assoc, take_app_le.
  - rewrite take_ge; [|rewrite length_app, length_take, length_drop; unfold elems; rewrite length_take; lia].
    rewrite delete_take_drop. f_equal. unfold elems. rewrite take_take. f_equal. lia.
  - rewrite length_app, length_take, length_drop. unfold elems. rewrite length_take. lia.
Qed.

Lemma slice_set_ok s i x : slice_ok s → slice_ok (slice_set s i x).
Proof. unfold slice_ok. simpl. by rewrite length_insert. Qed.
Lemma slice_append_ok s x : slice_ok s → slice_ok (slice_append s x).
Proof.
  unfold slice_ok, slice_append. intros Hs. case_decide; simpl; [rewrite length_insert; lia|].
  rewrite length_app. unfold elems. rewrite length_take. simpl. lia.
Qed.
Lemma slice_remove_array s i :
  slice_ok s → (i < sl_len s)%nat → length (sl_array (slice_remove s i)) = length (sl_array s).
Proof.
  unfold slice_ok. intros Hs Hi. simpl. rewrite !length_app, length_take, !length_drop. unfold elems. rewrite length_take. lia.
Qed.
Lemma slice_remove_ok s i : slice_ok s → (i < sl_len s)%nat → slice_ok (slice_remove s i).
Proof. intros Hs Hi. unfold slice_ok. rewrite slice_remove_array by done. simpl. unfold slice_ok in Hs. lia. Qed.
End Slices.

(** ** Messages *)

Record CpApiServer : Type := mkCpApiServer { cas_Url : string }.
Record ControlPlaneCoordinates : Type := mkCoordinates { cpc_ApiServer : option CpApiServer }.
Record ControlPlane : Type := mkControlPlane { cp_Name : string; cp_Coordinates : option ControlPlaneCoordinates }.
Record AdminApiCredentials : Type := mkAdminCredentials { aac_ClientCert : string; aac_ClientKey : string }.
Record Credentials : Type := mkCredentials { cred_AdminApi : option AdminApiCredentials }.
Record Defaults : Type := mkDefaults { def_Mesh : string }.
Record ConfigContext : Type := mkContext {
  ctx_Name : string;
  ctx_ControlPlane : string;
  ctx_Defaults : option Defaults;
  ctx_Credentials : option Credentials;
}.
Record Configuration : Type := mkConfiguration {
  cfg_ControlPlanes : list ControlPlane;
  cfg_Contexts : Slice ConfigContext;
  cfg_CurrentContext : string;
}.
#[global] Instance CpApiServer_eq_dec : EqDecision CpApiServer. Proof. solve_decision. Defined.
#[global] Instance Coordinates_eq_dec : EqDecision ControlPlaneCoordinates. Proof. solve_decision. Defined.
#[global] Instance ControlPlane_eq_dec : EqDecision ControlPlane. Proof. solve_decision. Defined.
#[global] Instance AdminCredentials_eq_dec : EqDecision AdminApiCredentials. Proof. solve_decision. Defined.
#[global] Instance Credentials_eq_dec : EqDecision Credentials. Proof. solve_decision. Defined.
#[global] Instance Defaults_eq_dec : EqDecision Defaults. Proof. solve_decision. Defined.
#[global] Instance ConfigContext_eq_dec : EqDecision ConfigContext. Proof. solve_decision. Defined.

(** The empty message. *)
Definition NoConfiguration : Configuration := mkConfiguration [] (new_slice []) "".
Definition set_ControlPlanes (cfg : Configuration) (cps : list ControlPlane) : Configuration :=
  mkConfiguration cps (cfg_Contexts cfg) (cfg_CurrentContext cfg).
Definition set_Contexts (cfg : Configuration) (ctxs : Slice ConfigContext) : Configuration :=
  mkConfiguration (cfg_ControlPlanes cfg) ctxs (cfg_CurrentContext cfg).
Definition set_CurrentContext (cfg : Configuration) (name : string) : Configuration :=
  mkConfiguration (cfg_ControlPlanes cfg) (cfg_Contexts cfg) name.

(** ** config.pb.validate.go *)

(** An error of the given message type, with the text of its [Error]. *)
Definition validation_error (message field reason : string) (cause : option goerror) : goerror :=
  let cause_text := match cause with Some e => " | caused by: " +:+ error_string e | None => "" end in
  ErrorStruct (message +:+ "ValidationError") [("field", field); ("reason", reason)]
    ("invalid " +:+ message +:+ "." +:+ field +:+ ": " +:+ reason +:+ cause_text).

(** [if err := v.Validate(); err != nil { return ... }] on an embedded message. *)
Definition embedded (message field : string) (m : res unit) : res unit :=
  map_err (λ err, validation_error message field "embedded message failed validation" (Some err)) m.

Definition CpApiServer_Validate (m : option CpApiServer) : res unit :=
  match m with
  | None => Ok ()
  | Some m =>
      let fail reason cause := Err (validation_error "ControlPlaneCoordinates_ApiServer" "Url" reason cause) in
      match url_Parse (cas_Url m) with
      | Err err => fail "value must be a valid URI" (Some err)
      | Ok uri => if String.eqb (url_Scheme uri) "" then fail "value must be absolute" None else Ok ()
      | Panic => Panic
      end
  end.

Definition Coordinates_Validate (m : option ControlPlaneCoordinates) : res unit :=
  match m with
  | None => Ok ()
  | Some m =>
      match cpc_ApiServer m with
      | None => Err (validation_error "ControlPlaneCoordinates" "ApiServer" "value is required" None)
      | Some _ => embedded "ControlPlaneCoordinates" "ApiServer" (CpApiServer_Validate (cpc_ApiServer m))
      end
  end.

Definition too_short : string := "value length must be at least 1 runes".

Definition ControlPlane_Validate (m : ControlPlane) : res unit :=
  if String.eqb (cp_Name m) "" then Err (validation_error "ControlPlane" "Name" too_short None)
  else match cp_Coordinates m with
       | None => Err (validation_error "ControlPlane" "Coordinates" "value is required" None)
       | Some _ => embedded "ControlPlane" "Coordinates" (Coordinates_Validate (cp_Coordinates m))
       end.

Definition Defaults_Validate (m : option Defaults) : res unit := Ok ().
Definition AdminApiCredentials_Validate (m : option AdminApiCredentials) : res unit := Ok ().
Definition Credentials_Validate (m : option Credentials) : res unit :=
  match m with
  | None => Ok ()
  | Some m => embedded "Context_Credentials" "AdminApi" (AdminApiCredentials_Validate (cred_AdminApi m))
  end.

Definition Context_Validate (m : ConfigContext) : res unit :=
  if String.eqb (ctx_Name m) "" then Err (validation_error "Context" "Name" too_short None)
  else if String.eqb (ctx_ControlPlane m) "" then Err (validation_error "Context" "ControlPlane" too_short None)
  else
    let? _ := embedded "Context" "Defaults" (Defaults_Validate (ctx_Defaults m)) in
    embedded "Context" "Credentials" (Credentials_Validate (ctx_Credentials m)).

(** The loop over a repeated field. *)
Fixpoint validate_items {A} (field : string) (validate : A → res unit) (idx : Z) (items : list A) : res unit :=
  match items with
  | [] => Ok ()
  | item :: rest =>
      let? _ := embedded "Configuration" (sprintf "%s[%d]" [AStr field; AInt idx]) (validate item) in
      validate_items field validate (idx + 1) rest
  end.

Definition Configuration_Validate (m : Configuration) : res unit :=
  let? _ := validate_items "ControlPlanes" ControlPlane_Validate 0 (cfg_ControlPlanes m) in
  validate_items "Contexts" Context_Validate 0 (elems (cfg_Contexts m)).

(** ** config_helpers.go *)

Definition GetContext (cfg : Configuration) (name : string) : option (nat * ConfigContext) :=
  list_find (λ c, ctx_Name c = name) (elems (cfg_Contexts cfg)).
Definition GetCurrent (cfg : Configuration) : option ConfigContext := snd <$> GetContext cfg (cfg_CurrentContext cfg).

Definition AddContext (cfg : Configuration) (c : ConfigContext) (force : bool) : bool * Configuration :=
  match GetContext cfg (ctx_Name c) with
  | Some (idx, _) => if negb force then (false, cfg) else (true, set_Contexts cfg (slice_set (cfg_Contexts cfg) idx c))
  | None => (true, set_Contexts cfg (slice_append (cfg_Contexts cfg) c))
  end.

Definition RemoveContext (cfg : Configuration) (name : string) : bool * Configuration :=
  match GetContext cfg name with
  | None => (false, cfg)
  | Some (i, _) =>
      let cfg := set_Contexts cfg (slice_remove (cfg_Contexts cfg) i) in
      (true, if String.eqb (cfg_CurrentContext cfg) name
             then set_CurrentContext cfg (match elems (cfg_Contexts cfg) with c :: _ => ctx_Name c | [] => "" end)
             else cfg)
  end.

Definition SwitchContext (cfg : Configuration) (name : string) : bool * Configuration :=
  match GetContext cfg name with
  | None => (false, cfg)
  | Some (_, new) => (true, set_CurrentContext cfg (ctx_Name new))
  end.

Definition GetControlPlane (cfg : Configuration) (name : string) : option (nat * ControlPlane) :=
  list_find (λ p, cp_Name p = name) (cfg_ControlPlanes cfg).

Definition AddControlPlane (cfg : Configuration) (cp : ControlPlane) (force : bool) : bool * Configuration :=
  match GetControlPlane cfg (cp_Name cp) with
  | Some (idx, _) => if negb force then (false, cfg) else (true, set_ControlPlanes cfg (<[idx := cp]> (cfg_ControlPlanes cfg)))
  | None => (true, set_ControlPlanes cfg (cfg_ControlPlanes cfg ++ [cp]))
  end.

(** [for _, context := range cfg.Contexts]: the length is that of the slice at
    the start, the elements are read from the array as it is then. *)
Fixpoint remove_contexts (name : string) (indices : list nat) (cfg : Configuration) : Configuration :=
  match indices with
  | [] => cfg
  | i :: rest =>
      match sl_array (cfg_Contexts cfg) !! i with
      | None => cfg
      | Some context =>
          remove_contexts name rest
            (if String.eqb (ctx_ControlPlane context) name then snd (RemoveContext cfg (ctx_Name context)) else cfg)
      end
  end.

Definition RemoveControlPlane (cfg : Configuration) (name : string) : bool * Configuration :=
  match GetControlPlane cfg name with
  | None => (false, cfg)
  | Some (i, _) =>
      let cfg := remove_contexts name (seq 0 (sl_len (cfg_Contexts cfg))) cfg in
      (true, set_ControlPlanes cfg (delete i (cfg_ControlPlanes cfg)))
  end.

Definition HasClientCert (cfg : option AdminApiCredentials) : bool :=
  match cfg with
  | None => false
  | Some cfg => negb (String.eqb (aac_ClientCert cfg) "") && negb (String.eqb (aac_ClientKey cfg) "")
  end.

(** With several contexts of one control plane, one in the middle is skipped. *)
Example remove_skips :
  let ctx name := mkContext name "cp" None None in
  let cfg := mkConfiguration [mkControlPlane "cp" None] (new_slice [ctx "a"; ctx "b"; ctx "c"]) "a" in
  elems (cfg_Contexts (RemoveControlPlane cfg "cp").2) = [ctx "b"].
Proof. reflexivity. Qed.

(** ** app/kumactl/pkg/config *)

(** [DefaultConfiguration] *)
Definition DefaultConfiguration : Configuration :=
  mkConfiguration [mkControlPlane "local" (Some (mkCoordinates (Some (mkCpApiServer "http://localhost:5681"))))]
    (new_slice [mkContext "local" "local" None None]) "local".

(** What the file system does with the calls of one command: the error of a
    read, the error of a write with what it leaves in the file, and whether the
    directory is missing, with the error of making it. *)
Record io : Type := mkIo {
  io_read : option goerror;
  io_write : option (goerror * string);
  io_mkdir : option (option goerror);
}.
Abbreviation files := (gmap string string).

(** [ToYAML] and [FromYAML] of [pkg/util/proto] on configurations; the second
    sets the fields that are present. *)
Class ConfigYaml : Type := {
  ToYAML : Configuration → res string;
  FromYAML : string → Configuration → res Configuration;
}.

Section Commands.
Context `{Hyaml : ConfigYaml} (DefaultConfigFile : string) (Dir : string → string).
(** [%s] and [%#v] of a configuration. *)
Context (print go_print : Configuration → string).

Definition FileExists (fs : files) (path : string) : bool := bool_decide (is_Some (fs !! path)).

(** [Load]: the configuration that results, or the error. *)
Definition Load (env : io) (file : string) (fs : files) (cfg : Configuration) : res Configuration :=
  let? configFile := if String.eqb file "" then Ok DefaultConfigFile
                     else if FileExists fs file then Ok file
                     else Err (Errorf "Failed to access configuration file %q" [AStr file]) in
  let? cfg := match fs !! configFile with
              | None => Ok cfg
              | Some contents =>
                  match io_read env with
                  | Some err => Err (Wrapf err "Failed to read configuration from file %q" [AStr configFile])
                  | None => map_err (λ err, Wrapf err "Failed to parse configuration from file %q" [AStr configFile])
                              (FromYAML contents cfg)
                  end
              end in
  let? _ := map_err (λ err, Wrapf err "Failed to load invalid configuration from file %q" [AStr configFile])
              (Configuration_Validate cfg) in
  Ok cfg.

Definition Save (env : io) (file : string) (cfg : Configuration) : ST files unit :=
  _ ← st_lift (map_err (λ err, Wrapf err "Failed to save invalid configuration: %s" [AStr (print cfg)])
                 (Configuration_Validate cfg));
  contents ← st_lift (map_err (λ err, Wrapf err "Failed to format configuration: %#v" [AStr (go_print cfg)]) (ToYAML cfg));
  let configFile := if String.eqb file "" then DefaultConfigFile else file in
  let dir := Dir configFile in
  _ ← match io_mkdir env with
      | Some (Some err) => fail (Wrapf err "Failed to create a directory %q" [AStr dir])
      | _ => mret ()
      end;
  match io_write env with
  | Some (err, rest) =>
      _ ← st_modify <[configFile := rest]>;
      fail (Wrapf err "Failed to write configuration into file %q" [AStr configFile])
  | None => st_modify <[configFile := contents]>
  end.

(** [ValidateCpCoordinates]: [http_Get] is the status and the body of the
    response, [Tagline] the field of the JSON document. *)
Context (http_Get : string → res (Z * res string)) (Tagline : string → res string).
Definition TaglineKuma : string := "Kuma".

Definition ValidateCpCoordinates (cp : ControlPlane) : res unit :=
  match cp_Coordinates cp ≫= cpc_ApiServer with
  | None => Panic
  | Some server =>
      let? _ := map_err (λ err, Wrapf err "could not construct the request" []) (url_Parse (cas_Url server)) in
      let? response := map_err (λ err, Wrapf err "could not connect to the Control Plane API Server" []) (http_Get (cas_Url server)) in
      if negb (response.1 =? 200) then Err (Errorf "Control Plane API Server is not responding" [])
      else
        let? body := map_err (λ err, Wrapf err "could not read body from the Control Plane API Server" []) response.2 in
        let? tagline := map_err (λ err, Wrapf err "could not unmarshal body from the Control Plane API Server. Provided address is not valid Kuma Control Plane API Server" []) (Tagline body) in
        if negb (String.eqb tagline TaglineKuma)
        then Err (Errorf "provided address is not valid Kuma Control Plane API Server" [])
        else Ok ()
  end.

(** ** app/kumactl/cmd/config *)

Record add_args : Type := mkAddArgs {
  add_name : string;
  add_apiServerURL : string;
  add_overwrite : bool;
  add_adminClientCert : string;
  add_adminClientKey : string;
}.
Definition added_control_plane (args : add_args) : ControlPlane :=
  mkControlPlane (add_name args) (Some (mkCoordinates (Some (mkCpApiServer (add_apiServerURL args))))).
Definition added_context (args : add_args) : ConfigContext :=
  mkContext (add_name args) (add_name args) None
    (Some (mkCredentials (Some (mkAdminCredentials (add_adminClientCert args) (add_adminClientKey args))))).

(** The commands return the configuration in memory and the lines they print. *)
Definition config_add (env : io) (file : string) (args : add_args) (cfg : Configuration)
  : ST files (Configuration * list string) :=
  let cp := added_control_plane args in
  _ ← st_lift (map_err (λ err, Wrapf err "Control Plane configuration is not valid" []) (ControlPlane_Validate cp));
  _ ← st_lift (ValidateCpCoordinates cp);
  let (added, cfg) := AddControlPlane cfg cp (add_overwrite args) in
  if negb added
  then fail (Errorf "Control Plane with name %q already exists. Use --overwrite to replace an existing one." [AStr (cp_Name cp)])
  else
    let ctx := added_context args in
    _ ← st_lift (map_err (λ err, Wrapf err "Context configuration is not valid" []) (Context_Validate ctx));
    let (added, cfg) := AddContext cfg ctx (add_overwrite args) in
    if negb added then fail (Errorf "Context with name %q already exists" [AStr (ctx_Name ctx)])
    else
      let cfg := set_CurrentContext cfg (ctx_Name ctx) in
      _ ← Save env file cfg;
      mret (cfg, [sprintf "added Control Plane %q" [AStr (ctx_Name ctx)];
                  sprintf "switched active Control Plane to %q" [AStr (ctx_Name ctx)]]).

Definition config_remove (env : io) (file name : string) (cfg : Configuration)
  : ST files (Configuration * list string) :=
  let (removed, cfg) := RemoveControlPlane cfg name in
  if negb removed then fail (Errorf "there is no Control Plane with name %q" [AStr name])
  else
    _ ← Save env file cfg;
    mret (cfg, [sprintf "removed Control Plane %q" [AStr name];
                match GetCurrent cfg with
                | Some ctx => sprintf "switched active Control Plane to %q" [AStr (ctx_ControlPlane ctx)]
                | None => "there is no active Control Plane left. Use `kumactl config control-planes add` to add a Control Plane and make it active"
                end]).

Definition config_switch (env : io) (file name : string) (cfg : Configuration)
  : ST files (Configuration * list string) :=
  let (switched, cfg) := SwitchContext cfg name in
  if negb switched then fail (Errorf "there is no Control Plane with name %q" [AStr name])
  else
    _ ← Save env file cfg;
    mret (cfg, [sprintf "switched active Control Plane to %q" [AStr name]]).

Inductive command : Type :=
| Add (args : add_args)
| Remove (name : string)
| Switch (name : string).

(** The hook of the root command, then the command; [first] and [env] are the
    calls of the hook and those of the command. *)
Definition IsFirstTimeUsage (file : string) (fs : files) : bool := String.eqb file "" && negb (FileExists fs DefaultConfigFile).

Definition PersistentPreRunE (first : io) (file : string) : ST files Configuration :=
  isFirst ← st_get (IsFirstTimeUsage file);
  cfg ← (if isFirst : bool
         then _ ← Save first file DefaultConfiguration; mret DefaultConfiguration
         else mret NoConfiguration);
  fs ← st_get id;
  st_lift (Load first file fs cfg).

Definition run_command (first env : io) (file : string) (c : command) : ST files (Configuration * list string) :=
  cfg ← PersistentPreRunE first file;
  match c with
  | Add args => config_add env file args cfg
  | Remove name => config_remove env file name cfg
  | Switch name => config_switch env file name cfg
  end.
End Commands.

(** ** Slices behave as lists *)

(** Removing a context keeps the array of the others. *)
Definition config_ok (cfg : Configuration) : Prop := slice_ok (cfg_Contexts cfg).

Lemma GetContext_Some cfg name i c :
  GetContext cfg name = Some (i, c) → elems (cfg_Contexts cfg) !! i = Some c ∧ ctx_Name c = name ∧ (i < sl_len (cfg_Contexts cfg))%nat.
Proof.
  intros (H1 & H2 & _)%list_find_Some. split; [done|]. split; [done|].
  apply lookup_lt_Some in H1. unfold elems in H1. rewrite length_take in H1. lia.
Qed.

Lemma GetContext_None cfg name : GetContext cfg name = None ↔ name ∉ ctx_Name <$> elems (cfg_Contexts cfg).
Proof.
  unfold GetContext. rewrite list_find_None, Forall_forall, list_elem_of_fmap. split; [intros Hn (c & -> & Hc); by apply (Hn c)|].
  intros Hn c Hc <-. apply Hn. eauto.
Qed.

(** ** The registry of control planes

    What the commands promise: a list of entries, a control plane with its
    context, and the name of the active one. *)
Definition registry : Type := list (ControlPlane * ConfigContext) * string.
Definition entry_name (e : ControlPlane * ConfigContext) : string := cp_Name e.1.

Definition registry_add (args : add_args) (r : registry) : option registry :=
  let entry := (added_control_plane args, added_context args) in
  match list_find (λ e, entry_name e = add_name args) r.1 with
  | Some (i, _) => if add_overwrite args then Some (<[i := entry]> r.1, add_name args) else None
  | None => Some (r.1 ++ [entry], add_name args)
  end.
Definition registry_remove (name : string) (r : registry) : option registry :=
  if bool_decide (name ∈ entry_name <$> r.1) then
    let rest := filter (λ e, entry_name e ≠ name) r.1 in
    Some (rest, if String.eqb r.2 name then match rest with e :: _ => entry_name e | [] => "" end else r.2)
  else None.
Definition registry_switch (name : string) (r : registry) : option registry :=
  if bool_decide (name ∈ entry_name <$> r.1) then Some (r.1, name) else None.
Definition registry_step (c : command) : registry → option registry :=
  match c with Add args => registry_add args | Remove name => registry_remove name | Switch name => registry_switch name end.

Definition contents_of (cfg : Configuration) : list ControlPlane * list ConfigContext * string :=
  (cfg_ControlPlanes cfg, elems (cfg_Contexts cfg), cfg_CurrentContext cfg).
Definition registry_of (cfg : Configuration) : registry :=
  (zip (cfg_ControlPlanes cfg) (elems (cfg_Contexts cfg)), cfg_CurrentContext cfg).

(** A configuration the commands made: every control plane has its context. *)
Record consistent (cfg : Configuration) : Prop := {
  consistent_slice : slice_ok (cfg_Contexts cfg);
  consistent_nodup : NoDup (cp_Name <$> cfg_ControlPlanes cfg);
  consistent_names : ctx_Name <$> elems (cfg_Contexts cfg) = cp_Name <$> cfg_ControlPlanes cfg;
  consistent_contexts : Forall (λ c, ctx_ControlPlane c = ctx_Name c) (elems (cfg_Contexts cfg));
  consistent_current :
    match cfg_ControlPlanes cfg with
    | [] => cfg_CurrentContext cfg = ""
    | _ :: _ => cfg_CurrentContext cfg ∈ cp_Name <$> cfg_ControlPlanes cfg
    end;
}.

Lemma consistent_length cfg : consistent cfg → length (cfg_ControlPlanes cfg) = length (elems (cfg_Contexts cfg)).
Proof. intros Hc. pose proof (f_equal length (consistent_names cfg Hc)) as E. by rewrite !length_fmap in E. Qed.

Lemma consistent_len cfg : consistent cfg → sl_len (cfg_Contexts cfg) = length (cfg_ControlPlanes cfg).
Proof.
  intros Hc. rewrite (consistent_length cfg Hc). unfold elems. rewrite length_take.
  pose proof (consistent_slice cfg Hc) as Hs. unfold slice_ok in Hs. lia.
Qed.

(** The two lists are searched alike. *)
Lemma list_find_index {A} (f : A → string) name (l : list A) :
  fst <$> list_find (λ x, f x = name) l = fst <$> list_find (λ n, n = name) (f <$> l).
Proof. rewrite list_find_fmap. by destruct (list_find _ l) as [[]|]. Qed.

Lemma find_both cfg name : consistent cfg → fst <$> GetContext cfg name = fst <$> GetControlPlane cfg name.
Proof. intros Hc. unfold GetContext, GetControlPlane. by rewrite (list_find_index ctx_Name), (list_find_index cp_Name), (consistent_names cfg Hc). Qed.

Lemma entry_names cfg : consistent cfg → entry_name <$> (registry_of cfg).1 = cp_Name <$> cfg_ControlPlanes cfg.
Proof.
  intros Hc. unfold registry_of. cbn [fst]. change entry_name with (cp_Name ∘ fst (B := ConfigContext)).
  by rewrite list_fmap_compose, fst_zip by (rewrite (consistent_length cfg Hc); lia).
Qed.

Lemma find_entry cfg name :
  consistent cfg → fst <$> list_find (λ e, entry_name e = name) (registry_of cfg).1 = fst <$> GetControlPlane cfg name.
Proof. intros Hc. unfold GetControlPlane. by rewrite (list_find_index entry_name), (list_find_index cp_Name), (entry_names cfg Hc). Qed.

(** ** The commands in memory *)

Lemma GetControlPlane_Some cfg name i cp :
  GetControlPlane cfg name = Some (i, cp) → cfg_ControlPlanes cfg !! i = Some cp ∧ cp_Name cp = name.
Proof. by intros (? & ? & _)%list_find_Some. Qed.

Lemma GetControlPlane_None cfg name : GetControlPlane cfg name = None ↔ name ∉ cp_Name <$> cfg_ControlPlanes cfg.
Proof.
  unfold GetControlPlane. rewrite list_find_None, Forall_forall, list_elem_of_fmap.
  split; [intros Hn (c & -> & Hc); by apply (Hn c)|]. intros Hn c Hc <-. apply Hn. eauto.
Qed.

Definition added (cfg : Configuration) (args : add_args) : bool * Configuration :=
  let (b, cfg) := AddControlPlane cfg (added_control_plane args) (add_overwrite args) in
  if negb b then (false, cfg)
  else
    let (b, cfg) := AddContext cfg (added_context args) (add_overwrite args) in
    if negb b then (false, cfg) else (true, set_CurrentContext cfg (add_name args)).

Lemma added_new cfg args :
  consistent cfg → GetControlPlane cfg (add_name args) = None →
  let cfg' := mkConfiguration (cfg_ControlPlanes cfg ++ [added_control_plane args])
                (slice_append (cfg_Contexts cfg) (added_context args)) (add_name args) in
  added cfg args = (true, cfg') ∧ consistent cfg'
  ∧ registry_add args (registry_of cfg) = Some (registry_of cfg').
Proof.
  intros Hc Hn. pose proof (find_both cfg (add_name args) Hc) as Hb. pose proof (find_entry cfg (add_name args) Hc) as He.
  rewrite Hn in Hb, He. apply fmap_None in Hb, He. cbv zeta. split; [|split].
  - unfold added, AddControlPlane. change (cp_Name (added_control_plane args)) with (add_name args). rewrite Hn. simpl.
    unfold AddContext. unfold GetContext in *. simpl. by rewrite Hb.
  - constructor; simpl.
    + apply slice_append_ok, Hc.
    + rewrite fmap_app, NoDup_app. split; [apply Hc|]. split; [|apply NoDup_singleton].
      intros n Hin ->%list_elem_of_singleton. by apply GetControlPlane_None in Hn.
    + rewrite elems_append by apply Hc. by rewrite !fmap_app, (consistent_names cfg Hc).
    + rewrite elems_append by apply Hc. apply Forall_app. split; [apply Hc|by apply Forall_singleton].
    + destruct (cfg_ControlPlanes cfg); simpl; [by left|]. right. rewrite fmap_app, elem_of_app. right. by left.
  - unfold registry_add. rewrite He. unfold registry_of. simpl. rewrite elems_append by apply Hc.
    by rewrite (zip_with_app pair) by apply (consistent_length cfg Hc).
Qed.

Lemma added_old cfg args i cp :
  consistent cfg → GetControlPlane cfg (add_name args) = Some (i, cp) →
  let cfg' := mkConfiguration (<[i := added_control_plane args]> (cfg_ControlPlanes cfg))
                (slice_set (cfg_Contexts cfg) i (added_context args)) (add_name args) in
  if add_overwrite args
  then added cfg args = (true, cfg') ∧ consistent cfg' ∧ registry_add args (registry_of cfg) = Some (registry_of cfg')
  else (added cfg args).1 = false ∧ registry_add args (registry_of cfg) = None.
Proof.
  intros Hc Hg. pose proof (find_both cfg (add_name args) Hc) as Hb. pose proof (find_entry cfg (add_name args) Hc) as He.
  rewrite Hg in Hb, He. apply fmap_Some in Hb as ([j c] & Hb & ?), He as ([k e] & He & ?). cbn [fst] in *. subst j k.
  unfold added, AddControlPlane, registry_add. change (cp_Name (added_control_plane args)) with (add_name args).
  rewrite Hg, He. destruct (add_overwrite args); [|done]. simpl. unfold AddContext. unfold GetContext in *. simpl. rewrite Hb.
  apply GetControlPlane_Some in Hg as [Hi Hn]. apply GetContext_Some in Hb as (Hci & Hcn & Hlt).
  assert ((cp_Name <$> cfg_ControlPlanes cfg) !! i = Some (cp_Name (added_control_plane args))) as Hname.
  { apply list_lookup_fmap_Some. exists cp. by rewrite Hn. }
  assert (cp_Name <$> <[i := added_control_plane args]> (cfg_ControlPlanes cfg) = cp_Name <$> cfg_ControlPlanes cfg) as Hnames
    by (rewrite (list_fmap_insert cp_Name); by apply list_insert_id).
  split; [done|]. split.
  - constructor; simpl.
    + apply slice_set_ok, Hc.
    + rewrite Hnames. apply Hc.
    + rewrite elems_set by (done || apply Hc). rewrite Hnames, <- (consistent_names cfg Hc).
      rewrite list_fmap_insert. apply list_insert_id. rewrite (consistent_names cfg Hc). exact Hname.
    + rewrite elems_set by (done || apply Hc). apply Forall_insert; [apply Hc|done].
    + rewrite Hnames.
      destruct (cfg_ControlPlanes cfg) as [|x l] eqn:El; [done|]. rewrite <- El in *.
      assert (add_name args ∈ cp_Name <$> cfg_ControlPlanes cfg) as Hin.
      { rewrite <- Hn. apply list_elem_of_fmap_2. by apply list_elem_of_lookup_2 in Hi. }
      rewrite El in *. destruct i; simpl; exact Hin.
  - unfold registry_of. simpl. rewrite elems_set by (done || apply Hc). by rewrite <- insert_zip_with.
Qed.

(** *** Removal *)

(** Contexts of other control planes are passed over. *)
Lemma remove_contexts_skip name skipped indices cfg :
  (∀ i, i ∈ skipped → ∃ c, sl_array (cfg_Contexts cfg) !! i = Some c ∧ ctx_ControlPlane c ≠ name) →
  remove_contexts name (skipped ++ indices) cfg = remove_contexts name indices cfg.
Proof.
  induction skipped as [|i skipped IH]; intros Hs; [done|]. simpl.
  destruct (Hs i) as (c & -> & Hc); [by left|]. rewrite (proj2 (String.eqb_neq _ _) Hc). apply IH.
  intros j Hj. apply Hs. by right.
Qed.

Lemma elems_lookup {A} (s : Slice A) j : (j < sl_len s)%nat → elems s !! j = sl_array s !! j.
Proof. intros. by apply lookup_take_lt. Qed.

(** What the loop still reads behind a removed element. *)
Lemma slice_remove_after {A} (s : Slice A) i j :
  slice_ok s → (i < j < sl_len s)%nat →
  sl_array (slice_remove s i) !! j = elems s !! (if decide (S j < sl_len s)%nat then S j else j).
Proof.
  unfold slice_ok. intros Hs [Hij Hj]. simpl. rewrite lookup_app_r; rewrite length_take, Nat.min_l by lia; [|lia].
  assert (length (drop (S i) (elems s)) = sl_len s - S i)%nat as Hl
    by (rewrite length_drop; unfold elems; rewrite length_take; lia).
  case_decide as Hd.
  - rewrite lookup_app_l by lia. rewrite lookup_drop. f_equal. lia.
  - rewrite lookup_app_r by lia. rewrite Hl, lookup_drop, elems_lookup by lia. f_equal. lia.
Qed.

Lemma context_at cfg j : consistent cfg → (j < length (cfg_ControlPlanes cfg))%nat →
  ∃ p c, cfg_ControlPlanes cfg !! j = Some p ∧ elems (cfg_Contexts cfg) !! j = Some c
    ∧ ctx_Name c = cp_Name p ∧ ctx_ControlPlane c = cp_Name p.
Proof.
  intros Hc Hj. destruct (lookup_lt_is_Some_2 _ _ Hj) as [p Hp].
  destruct (lookup_lt_is_Some_2 (elems (cfg_Contexts cfg)) j) as [c He]; [by rewrite <- (consistent_length cfg Hc)|].
  assert (ctx_Name c = cp_Name p) as E.
  { assert ((ctx_Name <$> elems (cfg_Contexts cfg)) !! j = Some (ctx_Name c)) as H1 by (apply list_lookup_fmap_Some; eauto).
    assert ((cp_Name <$> cfg_ControlPlanes cfg) !! j = Some (cp_Name p)) as H2 by (apply list_lookup_fmap_Some; eauto).
    rewrite (consistent_names cfg Hc) in H1. congruence. }
  exists p, c. do 3 (split; [done|]). rewrite <- E. apply (Forall_lookup_1 _ _ _ _ (consistent_contexts cfg Hc) He).
Qed.

Lemma other_context cfg i j p : consistent cfg → cfg_ControlPlanes cfg !! i = Some p →
  (j < length (cfg_ControlPlanes cfg))%nat → j ≠ i →
  ∃ c, elems (cfg_Contexts cfg) !! j = Some c ∧ ctx_ControlPlane c ≠ cp_Name p.
Proof.
  intros Hc Hi Hj Hne. destruct (context_at cfg j Hc Hj) as (q & c & Hq & He & _ & Hcp).
  exists c. split; [done|]. rewrite Hcp. intros E. apply Hne. apply (NoDup_lookup _ _ _ (cp_Name p) (consistent_nodup cfg Hc));
    apply list_lookup_fmap_Some; eauto.
Qed.

(** The context of the removed control plane is the only one that goes. *)
Lemma remove_contexts_consistent cfg name i p :
  consistent cfg → GetControlPlane cfg name = Some (i, p) →
  remove_contexts name (seq 0 (sl_len (cfg_Contexts cfg))) cfg = snd (RemoveContext cfg name)
  ∧ ∃ c, GetContext cfg name = Some (i, c).
Proof.
  intros Hc Hg. pose proof (find_both cfg name Hc) as Hb. rewrite Hg in Hb. apply fmap_Some in Hb as ([j c] & Hb & Hj).
  cbn [fst] in Hj. subst j. split; [|eauto]. apply GetControlPlane_Some in Hg as [Hi <-].
  pose proof (GetContext_Some _ _ _ _ Hb) as (Hci & Hcn & Hlt). pose proof (consistent_len cfg Hc) as Hlen.
  set (n := sl_len (cfg_Contexts cfg)) in *.
  replace (seq 0 n) with (seq 0 i ++ i :: seq (S i) (n - S i))
    by (change (i :: seq (S i) (n - S i)) with (seq i (S (n - S i))); rewrite <- seq_app; f_equal; lia).
  rewrite remove_contexts_skip.
  - simpl. rewrite <- elems_lookup, Hci by done.
    assert (ctx_ControlPlane c = ctx_Name c) as -> by apply (Forall_lookup_1 _ _ _ _ (consistent_contexts cfg Hc) Hci).
    rewrite Hcn, String.eqb_refl.
    rewrite <- (app_nil_r (seq (S i) _)). rewrite remove_contexts_skip; [done|].
    intros j [Hj1 Hj2]%elem_of_seq. unfold RemoveContext. rewrite Hb. cbn [snd].
    assert (∀ b : bool, ∀ nm, sl_array (cfg_Contexts (if b then set_CurrentContext (set_Contexts cfg (slice_remove (cfg_Contexts cfg) i)) nm
        else set_Contexts cfg (slice_remove (cfg_Contexts cfg) i))) = sl_array (slice_remove (cfg_Contexts cfg) i)) as -> by (by intros []).
    rewrite slice_remove_after by (apply Hc || (fold n; lia)). fold n.
    case_decide; apply (other_context cfg i _ p Hc Hi); lia.
  - intros j [_ Hj]%elem_of_seq. rewrite <- elems_lookup by (fold n; lia). apply (other_context cfg i j p Hc Hi); lia.
Qed.

Lemma delete_names {A} (f : A → string) name i (l : list A) x :
  NoDup (f <$> l) → l !! i = Some x → f x = name → delete i l = filter (λ y, f y ≠ name) l.
Proof.
  revert i; induction l as [|y l IH]; intros [|i] Hnd Hi Hx; try done; apply NoDup_cons in Hnd as [Hy Hnd]; simpl in *.
  - injection Hi as ->. rewrite filter_cons_False by (intros Hn; by apply Hn). symmetry.
    assert (Forall (λ z, f z ≠ name) l) as Hall.
    { apply Forall_forall. intros z Hz Hn. apply Hy. rewrite Hx, <- Hn. by apply list_elem_of_fmap_2. }
    clear -Hall. induction Hall as [|z l Hz _ IH]; [done|]. by rewrite filter_cons_True, IH.
  - rewrite filter_cons_True; [f_equal; by apply IH|]. intros Hn. apply Hy. rewrite Hn, <- Hx.
    apply list_elem_of_fmap_2. by apply list_elem_of_lookup_2 in Hi.
Qed.

Lemma delete_zip {A B} i (l : list A) (k : list B) : length l = length k → zip (delete i l) (delete i k) = delete i (zip l k).
Proof.
  revert i k; induction l as [|x l IH]; intros [|i] [|y k] Hl; try done. simpl. f_equal. apply IH. by injection Hl.
Qed.

(** The name that stays active. *)
Definition next_current (current name : string) (names : list string) : string :=
  if String.eqb current name then match names with n :: _ => n | [] => "" end else current.

Lemma removed_names cfg name i p :
  consistent cfg → cfg_ControlPlanes cfg !! i = Some p → cp_Name p = name →
  delete i (cp_Name <$> cfg_ControlPlanes cfg) = filter (λ n, n ≠ name) (cp_Name <$> cfg_ControlPlanes cfg).
Proof.
  intros Hc Hi Hn. apply (delete_names id name i _ (cp_Name p)); [|apply list_lookup_fmap_Some; eauto|done].
  rewrite list_fmap_id. apply Hc.
Qed.

Lemma removed_current cfg name i p :
  consistent cfg → cfg_ControlPlanes cfg !! i = Some p → cp_Name p = name →
  let current := next_current (cfg_CurrentContext cfg) name (delete i (cp_Name <$> cfg_ControlPlanes cfg)) in
  match delete i (cfg_ControlPlanes cfg) with
  | [] => current = ""
  | _ :: _ => current ∈ cp_Name <$> delete i (cfg_ControlPlanes cfg)
  end.
Proof.
  intros Hc Hi Hn. cbv zeta. rewrite list_fmap_delete, (removed_names cfg name i p Hc Hi Hn).
  pose proof (list_fmap_delete cp_Name (cfg_ControlPlanes cfg) i) as E. rewrite (removed_names cfg name i p Hc Hi Hn) in E.
  unfold next_current. destruct (String.eqb_spec (cfg_CurrentContext cfg) name) as [He|Hne].
  - rewrite <- E. destruct (delete i (cfg_ControlPlanes cfg)); [done|]. by left.
  - assert (cfg_CurrentContext cfg ∈ filter (λ n, n ≠ name) (cp_Name <$> cfg_ControlPlanes cfg)) as Hin.
    { apply list_elem_of_filter. split; [done|]. pose proof (consistent_current cfg Hc) as Hcur.
      by destruct (cfg_ControlPlanes cfg). }
    destruct (delete i (cfg_ControlPlanes cfg)); [|done]. rewrite <- E in Hin. by apply not_elem_of_nil in Hin.
Qed.

Lemma removed_consistent cfg name i p :
  consistent cfg → GetControlPlane cfg name = Some (i, p) →
  let names := delete i (cp_Name <$> cfg_ControlPlanes cfg) in
  let cfg' := mkConfiguration (delete i (cfg_ControlPlanes cfg)) (slice_remove (cfg_Contexts cfg) i)
                (next_current (cfg_CurrentContext cfg) name names) in
  RemoveControlPlane cfg name = (true, cfg') ∧ consistent cfg'
  ∧ registry_remove name (registry_of cfg) = Some (registry_of cfg').
Proof.
  intros Hc Hg. cbv zeta. destruct (remove_contexts_consistent cfg name i p Hc Hg) as (Hr & c & Hb).
  pose proof (GetContext_Some _ _ _ _ Hb) as (Hci & Hcn & Hlt). pose proof Hg as [Hi Hn]%GetControlPlane_Some.
  assert (elems (slice_remove (cfg_Contexts cfg) i) = delete i (elems (cfg_Contexts cfg))) as He by (by apply elems_remove, Hlt; apply Hc).
  assert (ctx_Name <$> elems (slice_remove (cfg_Contexts cfg) i) = delete i (cp_Name <$> cfg_ControlPlanes cfg)) as Hnames.
  { by rewrite He, list_fmap_delete, (consistent_names cfg Hc). }
  assert (name ∈ cp_Name <$> cfg_ControlPlanes cfg) as Hin
    by (rewrite <- Hn; apply list_elem_of_fmap_2; by apply list_elem_of_lookup_2 in Hi).
  pose proof (entry_names cfg Hc) as Hlen. pose proof (removed_names cfg name i p Hc Hi Hn) as Hdel.
  split; [|split].
  - unfold RemoveControlPlane. rewrite Hg, Hr. unfold RemoveContext. rewrite Hb, <- Hnames. unfold next_current.
    cbn [set_Contexts set_CurrentContext set_ControlPlanes cfg_ControlPlanes cfg_Contexts cfg_CurrentContext snd].
    destruct (String.eqb (cfg_CurrentContext cfg) name); [|done]. by destruct (elems (slice_remove (cfg_Contexts cfg) i)).
  - constructor; cbn [cfg_ControlPlanes cfg_Contexts cfg_CurrentContext].
    + by apply slice_remove_ok, Hlt; apply Hc.
    + rewrite list_fmap_delete, Hdel. apply NoDup_filter, Hc.
    + by rewrite Hnames, list_fmap_delete.
    + rewrite He. apply Forall_delete, Hc.
    + by apply (removed_current cfg name i p).
  - assert (registry_of (mkConfiguration (delete i (cfg_ControlPlanes cfg)) (slice_remove (cfg_Contexts cfg) i)
        (next_current (cfg_CurrentContext cfg) name (delete i (cp_Name <$> cfg_ControlPlanes cfg))))
      = (delete i (registry_of cfg).1, next_current (cfg_CurrentContext cfg) name (delete i (cp_Name <$> cfg_ControlPlanes cfg)))) as ->.
    { unfold registry_of. cbn [fst cfg_ControlPlanes cfg_Contexts cfg_CurrentContext]. rewrite He, delete_zip; [done|].
      by apply consistent_length. }
    unfold registry_remove. rewrite (entry_names cfg Hc), bool_decide_eq_true_2 by exact Hin.
    destruct (lookup_lt_is_Some_2 (registry_of cfg).1 i) as [e Hx].
    { apply (f_equal length) in Hlen. rewrite !length_fmap in Hlen. rewrite Hlen. by apply lookup_lt_is_Some_1. }
    rewrite <- (delete_names entry_name name i (registry_of cfg).1 e); [|rewrite Hlen; apply Hc|exact Hx|].
    + rewrite <- Hlen, <- list_fmap_delete. unfold next_current. cbn [snd registry_of]. by destruct (delete i (registry_of cfg).1).
    + assert ((entry_name <$> (registry_of cfg).1) !! i = Some (entry_name e)) as H1 by (apply list_lookup_fmap_Some; eauto).
      assert ((cp_Name <$> cfg_ControlPlanes cfg) !! i = Some (cp_Name p)) as H2 by (apply list_lookup_fmap_Some; eauto).
      rewrite Hlen in H1. congruence.
Qed.

(** *** The commands as steps of the registry *)

Definition configuration_step (c : command) (cfg : Configuration) : bool * Configuration :=
  match c with
  | Add args => added cfg args
  | Remove name => RemoveControlPlane cfg name
  | Switch name => SwitchContext cfg name
  end.

Lemma switched_consistent cfg name :
  consistent cfg →
  if (SwitchContext cfg name).1
  then consistent (SwitchContext cfg name).2 ∧ registry_switch name (registry_of cfg) = Some (registry_of (SwitchContext cfg name).2)
  else registry_switch name (registry_of cfg) = None.
Proof.
  intros Hc. pose proof (find_both cfg name Hc) as Hb. unfold SwitchContext, registry_switch. rewrite (entry_names cfg Hc).
  destruct (GetContext cfg name) as [[i ctx]|] eqn:Ec; cbn [fst snd].
  - apply GetContext_Some in Ec as (_ & Hn & _). symmetry in Hb. apply fmap_Some in Hb as ([j p] & Hg & _).
    apply GetControlPlane_Some in Hg as [Hi Hp]. assert (name ∈ cp_Name <$> cfg_ControlPlanes cfg) as Hin
      by (rewrite <- Hp; apply list_elem_of_fmap_2; by apply list_elem_of_lookup_2 in Hi).
    rewrite bool_decide_eq_true_2, Hn by done. split; [|done]. destruct Hc. constructor; try done. simpl.
    by destruct (cfg_ControlPlanes cfg).
  - symmetry in Hb. apply fmap_None, GetControlPlane_None in Hb. by rewrite bool_decide_eq_false_2.
Qed.

Lemma memory_step_registry c cfg :
  consistent cfg →
  if (configuration_step c cfg).1
  then consistent (configuration_step c cfg).2 ∧ registry_step c (registry_of cfg) = Some (registry_of (configuration_step c cfg).2)
  else registry_step c (registry_of cfg) = None.
Proof.
  intros Hc. destruct c as [args|name|name]; cbn [configuration_step registry_step]; [| |by apply switched_consistent].
  - destruct (GetControlPlane cfg (add_name args)) as [[i cp]|] eqn:Eg.
    + pose proof (added_old cfg args i cp Hc Eg) as Ha. destruct (add_overwrite args).
      * destruct Ha as (-> & ? & ?). done.
      * by destruct Ha as [-> ?].
    + destruct (added_new cfg args Hc Eg) as (-> & ? & ?). done.
  - destruct (GetControlPlane cfg name) as [[i p]|] eqn:Eg.
    + destruct (removed_consistent cfg name i p Hc Eg) as (-> & ? & ?). done.
    + unfold RemoveControlPlane. rewrite Eg. cbn [fst]. unfold registry_remove. rewrite (entry_names cfg Hc).
      by rewrite bool_decide_eq_false_2 by (by apply GetControlPlane_None).
Qed.

(** *** Validity *)

Lemma validate_items_Ok {A} field (validate : A → res unit) idx items :
  validate_items field validate idx items = Ok () ↔ Forall (λ x, validate x = Ok ()) items.
Proof.
  revert idx; induction items as [|x items IH]; intros idx; simpl; [done|]. rewrite Forall_cons, rbind_Ok. unfold embedded.
  setoid_rewrite IH. destruct (validate x) as [[]| |]; cbn [map_err].
  - split; [intros ([] & _ & ?)|intros [_ ?]; exists ()]; done.
  - split; [intros (? & Hx & _)|intros [Hx _]]; discriminate Hx.
  - split; [intros (? & Hx & _)|intros [Hx _]]; discriminate Hx.
Qed.

Definition valid_parts (cps : list ControlPlane) (ctxs : list ConfigContext) : Prop :=
  Forall (λ p, ControlPlane_Validate p = Ok ()) cps ∧ Forall (λ c, Context_Validate c = Ok ()) ctxs.

Lemma Configuration_Validate_Ok cfg :
  Configuration_Validate cfg = Ok () ↔ valid_parts (cfg_ControlPlanes cfg) (elems (cfg_Contexts cfg)).
Proof.
  unfold Configuration_Validate, valid_parts. rewrite rbind_Ok.
  split; [intros ([] & ?%validate_items_Ok & ?%validate_items_Ok); done|].
  intros [? ?]. exists (). by rewrite !validate_items_Ok.
Qed.

Lemma added_context_valid args : ControlPlane_Validate (added_control_plane args) = Ok () → Context_Validate (added_context args) = Ok ().
Proof. unfold ControlPlane_Validate, Context_Validate. simpl. by destruct (String.eqb (add_name args) ""). Qed.

Lemma memory_step_valid c cfg :
  consistent cfg → Configuration_Validate cfg = Ok () →
  (∀ args, c = Add args → ControlPlane_Validate (added_control_plane args) = Ok ()) →
  (configuration_step c cfg).1 = true → Configuration_Validate (configuration_step c cfg).2 = Ok ().
Proof.
  intros Hc [Hp Hx]%Configuration_Validate_Ok Hargs Hok. apply Configuration_Validate_Ok.
  destruct c as [args|name|name]; cbn [configuration_step] in *.
  - specialize (Hargs args eq_refl). pose proof (added_context_valid args Hargs) as Hctx.
    destruct (GetControlPlane cfg (add_name args)) as [[i cp]|] eqn:Eg.
    + pose proof (added_old cfg args i cp Hc Eg) as Ha. destruct (add_overwrite args); [|destruct Ha; congruence].
      destruct Ha as (-> & _ & _). cbn [snd]. pose proof (find_both cfg (add_name args) Hc) as Hb. rewrite Eg in Hb.
      apply fmap_Some in Hb as ([j x] & Hb & Hj). cbn [fst] in Hj. subst j. apply GetContext_Some in Hb as (_ & _ & Hlt).
      split; simpl; [by apply Forall_insert|]. rewrite elems_set by (done || apply Hc). by apply Forall_insert.
    + destruct (added_new cfg args Hc Eg) as (-> & _ & _). split; simpl; [apply Forall_app; by rewrite Forall_singleton|].
      rewrite elems_append by apply Hc. apply Forall_app. by rewrite Forall_singleton.
  - destruct (GetControlPlane cfg name) as [[i p]|] eqn:Eg; [|unfold RemoveControlPlane in Hok; by rewrite Eg in Hok].
    destruct (remove_contexts_consistent cfg name i p Hc Eg) as (_ & x & Hb). apply GetContext_Some in Hb as (_ & _ & Hlt).
    destruct (removed_consistent cfg name i p Hc Eg) as (-> & _ & _). split; simpl; [by apply Forall_delete|].
    rewrite elems_remove by (done || apply Hc). by apply Forall_delete.
  - unfold SwitchContext in *. by destruct (GetContext cfg name) as [[i x]|].
Qed.

(** ** root_context.go: the active control plane *)

Definition not_set : goerror :=
  Errorf "active Control Plane is not set. Use `kumactl config control-planes add` to add a Control Plane and make it active" [].
Definition broken_configuration : goerror :=
  Errorf "apparently, configuration is broken. Use `kumactl config control-planes add` to add a Control Plane and make it active" [].

Definition CurrentContext (cfg : Configuration) : res ConfigContext :=
  if String.eqb (cfg_CurrentContext cfg) "" then Err not_set
  else match GetContext cfg (cfg_CurrentContext cfg) with
       | None => Err broken_configuration
       | Some (_, currentContext) => Ok currentContext
       end.

Definition CurrentControlPlane (cfg : Configuration) : res ControlPlane :=
  let? currentContext := CurrentContext cfg in
  match GetControlPlane cfg (ctx_ControlPlane currentContext) with
  | None => Err broken_configuration
  | Some (_, controlPlane) => Ok controlPlane
  end.

(** [config control-planes list]: a row per control plane, with whether it is
    the active one, its name and its address. *)
Definition config_list (cfg : Configuration) : list (bool * string * string) :=
  let context := match CurrentContext cfg with Ok c => Some c | _ => None end in
  (λ cp, (match context with Some c => String.eqb (ctx_ControlPlane c) (cp_Name cp) | None => false end, cp_Name cp,
          match cp_Coordinates cp ≫= cpc_ApiServer with Some server => cas_Url server | None => "" end))
    <$> cfg_ControlPlanes cfg.

(** What is stored is consistent and valid. *)
Definition usable (cfg : Configuration) : Prop := consistent cfg ∧ Configuration_Validate cfg = Ok ().

Lemma CurrentControlPlane_good cfg :
  usable cfg →
  match cfg_ControlPlanes cfg with
  | [] => CurrentControlPlane cfg = Err not_set
  | _ => ∃ cp, CurrentControlPlane cfg = Ok cp ∧ cp ∈ cfg_ControlPlanes cfg ∧ cp_Name cp = cfg_CurrentContext cfg
  end.
Proof.
  intros [Hc [Hp _]%Configuration_Validate_Ok]. pose proof (consistent_current cfg Hc) as Hcur.
  unfold CurrentControlPlane, CurrentContext. destruct (cfg_ControlPlanes cfg) as [|x l] eqn:El; [by rewrite Hcur|]. rewrite <- El in *.
  assert (cfg_CurrentContext cfg ≠ "") as Hne.
  { apply list_elem_of_fmap in Hcur as (p & -> & Hin). rewrite Forall_forall in Hp. specialize (Hp p Hin).
    unfold ControlPlane_Validate in Hp. intros E. by rewrite E in Hp. }
  rewrite (proj2 (String.eqb_neq _ _) Hne). pose proof (find_both cfg (cfg_CurrentContext cfg) Hc) as Hb.
  destruct (GetControlPlane cfg (cfg_CurrentContext cfg)) as [[i p]|] eqn:Eg; [|by apply GetControlPlane_None in Eg].
  apply fmap_Some in Hb as ([j c] & Hb & _). rewrite Hb. cbn [rbind]. apply GetContext_Some in Hb as (Hci & Hcn & _).
  assert (ctx_ControlPlane c = ctx_Name c) as -> by apply (Forall_lookup_1 _ _ _ _ (consistent_contexts cfg Hc) Hci).
  rewrite Hcn, Eg. exists p. apply GetControlPlane_Some in Eg as [Hi Hn]. split; [done|].
  split; [by apply list_elem_of_lookup_2 in Hi|done].
Qed.

(** ** Sessions *)

(** A configuration that was written is read back, into an empty one or onto
    itself; a document holds the list of contexts, not their array. *)
Class LawfulConfigYaml `{ConfigYaml} : Prop := {
  FromYAML_ToYAML cfg s cfg0 :
    ToYAML cfg = Ok s → contents_of cfg0 = contents_of cfg ∨ cfg0 = NoConfiguration →
    ∃ cfg', FromYAML s cfg0 = Ok cfg' ∧ contents_of cfg' = contents_of cfg ∧ slice_ok (cfg_Contexts cfg');
}.

Lemma good_contents cfg cfg' : contents_of cfg' = contents_of cfg → slice_ok (cfg_Contexts cfg') → usable cfg → usable cfg' ∧ registry_of cfg' = registry_of cfg.
Proof.
  intros [= H1 H2 H3] Hs [Hc Hv]. unfold usable. rewrite Configuration_Validate_Ok in Hv |- *. unfold registry_of.
  rewrite H1, H2, H3. split; [split; [|done]|done]. destruct Hc. constructor; try done; by rewrite ?H1, ?H2, ?H3.
Qed.

Lemma Default_good : usable DefaultConfiguration.
Proof.
  split; [|reflexivity]. constructor; try reflexivity.
  - unfold slice_ok. simpl. lia.
  - apply NoDup_singleton.
  - by apply Forall_singleton.
  - by left.
Qed.

Section Sessions.
Context `{LawfulConfigYaml} (DefaultConfigFile : string) (Dir : string → string).
Context (print go_print : Configuration → string).
Context (http_Get : string → res (Z * res string)) (Tagline : string → res string).
Abbreviation run := (run_command DefaultConfigFile Dir print go_print http_Get Tagline).
Abbreviation save := (Save DefaultConfigFile Dir print go_print).

Definition path_of (file : string) : string := if String.eqb file "" then DefaultConfigFile else file.

(** Saving a valid configuration either stores it or leaves the files alone. *)
Lemma Save_spec env file cfg fs :
  Configuration_Validate cfg = Ok () → io_write env = None →
  (∃ s, ToYAML cfg = Ok s ∧ save env file cfg fs = (Ok (), <[path_of file := s]> fs))
  ∨ ∃ r, save env file cfg fs = (r, fs) ∧ is_ok r = false.
Proof.
  intros Hv Hw. unfold Save, mbind, ST_bind, st_lift. rewrite Hv. cbn [map_err]. rewrite Hw.
  destruct (ToYAML cfg) as [s| |]; [|right; eexists; split; [done|done]..]. cbn [map_err].
  destruct (io_mkdir env) as [[err|]|]; [right; eexists; split; done|left; exists s; done..].
Qed.

Lemma Save_good env file cfg fs s :
  Configuration_Validate cfg = Ok () → io_write env = None → (∀ err, io_mkdir env ≠ Some (Some err)) → ToYAML cfg = Ok s →
  save env file cfg fs = (Ok (), <[path_of file := s]> fs).
Proof.
  intros Hv Hw Hm Hs. unfold Save, mbind, ST_bind, st_lift. rewrite Hv, Hs. cbn [map_err]. rewrite Hw.
  destruct (io_mkdir env) as [[err|]|]; [by destruct (Hm err)|done..].
Qed.

(** Every command is its step in memory, then a save. *)
Definition accepted (c : command) : res unit :=
  match c with
  | Add args =>
      let? _ := map_err (λ err, Wrapf err "Control Plane configuration is not valid" []) (ControlPlane_Validate (added_control_plane args)) in
      ValidateCpCoordinates http_Get Tagline (added_control_plane args)
  | _ => Ok ()
  end.

Definition body (env : io) (file : string) (c : command) (cfg : Configuration) : ST files (Configuration * list string) :=
  match c with
  | Add args => config_add DefaultConfigFile Dir print go_print http_Get Tagline env file args cfg
  | Remove name => config_remove DefaultConfigFile Dir print go_print env file name cfg
  | Switch name => config_switch DefaultConfigFile Dir print go_print env file name cfg
  end.

Lemma body_spec env file c cfg fs :
  (∃ r, accepted c ≠ Ok () ∧ body env file c cfg fs = (r, fs) ∧ is_ok r = false)
  ∨ accepted c = Ok () ∧ (configuration_step c cfg).1 = false ∧ (∃ e, body env file c cfg fs = (Err e, fs))
  ∨ accepted c = Ok () ∧ (configuration_step c cfg).1 = true ∧ ∃ lines,
      body env file c cfg fs = (save env file (configuration_step c cfg).2 ≫= λ _, mret ((configuration_step c cfg).2, lines)) fs.
Proof.
  destruct c as [args|name|name]; cbn [body configuration_step accepted].
  - unfold config_add. destruct (ControlPlane_Validate (added_control_plane args)) as [[]| |] eqn:Ev;
      [|left; eexists; split; [discriminate|]; split; reflexivity..]. cbn [map_err rbind].
    unfold mbind at 1 2, ST_bind at 1 2, st_lift at 1 2. cbn [map_err].
    destruct (ValidateCpCoordinates _ _ _) as [[]| |]; [|left; eexists; split; [discriminate|]; split; reflexivity..].
    right. unfold added. destruct (AddControlPlane cfg _ _) as [[] cfg1]; [|left; split; [done|]; split; [done|]; by eexists].
    cbn [negb]. rewrite (added_context_valid args Ev). unfold mbind at 1, ST_bind at 1, st_lift. cbn [map_err].
    destruct (AddContext cfg1 _ _) as [[] cfg2]; [|left; split; [done|]; split; [done|]; by eexists].
    right. split; [done|]. split; [done|]. by eexists.
  - right. unfold config_remove. destruct (RemoveControlPlane cfg name) as [[] cfg']; cbn [fst snd negb].
    + right. split; [done|]. split; [done|]. eexists. done.
    + left. split; [done|]. split; [done|]. eexists. done.
  - right. unfold config_switch. destruct (SwitchContext cfg name) as [[] cfg']; cbn [fst snd negb].
    + right. split; [done|]. split; [done|]. eexists. done.
    + left. split; [done|]. split; [done|]. eexists. done.
Qed.

Lemma memory_step_good c cfg :
  usable cfg → accepted c = Ok () → (configuration_step c cfg).1 = true → usable (configuration_step c cfg).2.
Proof.
  intros [Hc Hv] Hacc Ht. pose proof (memory_step_registry c cfg Hc) as Hreg. rewrite Ht in Hreg. split; [apply Hreg|].
  apply memory_step_valid; [done..| |done]. intros args ->. unfold accepted in Hacc.
  by destruct (ControlPlane_Validate (added_control_plane args)) as [[]| |].
Qed.

Definition all_stored (fs : files) : Prop := ∀ path s, fs !! path = Some s → ∃ cfg, usable cfg ∧ ToYAML cfg = Ok s.

Lemma all_stored_insert fs path s cfg : all_stored fs → usable cfg → ToYAML cfg = Ok s → all_stored (<[path := s]> fs).
Proof. intros Ha Hg Hs p s'. rewrite lookup_insert_Some. intros [[_ <-]|[_ Hp]]; [by exists cfg|by apply (Ha p)]. Qed.

(** What is read from a stored configuration. *)
Lemma FromYAML_good cfg s cfg0 :
  usable cfg → ToYAML cfg = Ok s → contents_of cfg0 = contents_of cfg ∨ cfg0 = NoConfiguration →
  ∃ cfg', FromYAML s cfg0 = Ok cfg' ∧ usable cfg' ∧ registry_of cfg' = registry_of cfg.
Proof.
  intros Hg Hs Hc0. destruct (FromYAML_ToYAML cfg s cfg0 Hs Hc0) as (cfg' & E & Hc & Hok). exists cfg'.
  split; [done|]. by apply good_contents.
Qed.

Lemma Load_stored env file fs cfg s cfg0 :
  fs !! path_of file = Some s → io_read env = None → usable cfg → ToYAML cfg = Ok s →
  contents_of cfg0 = contents_of cfg ∨ cfg0 = NoConfiguration →
  ∃ cfg', Load DefaultConfigFile env file fs cfg0 = Ok cfg' ∧ usable cfg' ∧ registry_of cfg' = registry_of cfg.
Proof.
  intros Hf Hr Hg Hs Hc0. destruct (FromYAML_good cfg s cfg0 Hg Hs Hc0) as (cfg' & E & Hg' & Hreg). exists cfg'.
  split; [|done]. unfold Load, path_of, FileExists in *. destruct (String.eqb file "").
  - cbn [rbind]. rewrite Hf, Hr. cbn [rbind]. rewrite E. cbn [map_err rbind]. by rewrite (proj2 Hg').
  - rewrite bool_decide_eq_true_2 by eauto. cbn [rbind]. rewrite Hf, Hr. cbn [rbind]. rewrite E. cbn [map_err rbind].
    by rewrite (proj2 Hg').
Qed.

Lemma Load_good env file fs cfg0 cfg' :
  all_stored fs → usable cfg0 →
  (cfg0 = NoConfiguration ∨ cfg0 = DefaultConfiguration ∧ ∃ s, fs !! path_of file = Some s ∧ ToYAML cfg0 = Ok s) →
  Load DefaultConfigFile env file fs cfg0 = Ok cfg' → usable cfg'.
Proof.
  intros Ha Hg0 Hc0. destruct (fs !! path_of file) as [s|] eqn:Hf.
  - destruct (io_read env) as [err|] eqn:Hr.
    { unfold Load, path_of, FileExists in *. destruct (String.eqb file ""); cbn [rbind].
      - by rewrite Hf, Hr.
      - rewrite bool_decide_eq_true_2 by eauto. cbn [rbind]. by rewrite Hf, Hr. }
    destruct Hc0 as [->|[-> (s' & [= <-] & Hs)]].
    + destruct (Ha _ _ Hf) as (cfg & Hg & Hs). destruct (Load_stored env file fs cfg s NoConfiguration Hf Hr Hg Hs) as (x & -> & Hx & _);
        [by right|]. by intros [= <-].
    + destruct (Load_stored env file fs _ s DefaultConfiguration Hf Hr Default_good Hs) as (x & -> & Hx & _); [by left|]. by intros [= <-].
  - unfold Load, path_of, FileExists in *. destruct (String.eqb file ""); cbn [rbind].
    + rewrite Hf. cbn [rbind]. rewrite (proj2 Hg0). by intros [= <-].
    + rewrite bool_decide_eq_false_2; [done|]. rewrite Hf. by intros [? ?].
Qed.

Lemma No_good : usable NoConfiguration.
Proof.
  split; [|reflexivity]. constructor; try reflexivity; [unfold slice_ok; simpl; lia|apply NoDup_nil_2|by apply Forall_nil].
Qed.

Lemma hook_spec first file fs r fs1 :
  all_stored fs → io_write first = None →
  PersistentPreRunE DefaultConfigFile Dir print go_print first file fs = (r, fs1) →
  all_stored fs1 ∧ ∀ cfg, r = Ok cfg → usable cfg.
Proof.
  intros Ha Hw. unfold PersistentPreRunE, mbind at 1 2 3, ST_bind at 1 2 3, st_get.
  destruct (IsFirstTimeUsage DefaultConfigFile file fs) eqn:Ef.
  - assert (path_of file = DefaultConfigFile) as Hp
      by (unfold IsFirstTimeUsage in Ef; apply andb_true_iff in Ef as [Ef _]; unfold path_of; by rewrite Ef).
    unfold mbind, ST_bind.
    destruct (Save_spec first file DefaultConfiguration fs (proj2 Default_good) Hw) as [(s & Hs & ->)|([| |] & -> & Hr)]; [|done|by intros [= <- <-]..].
    pose proof (all_stored_insert fs (path_of file) s _ Ha Default_good Hs) as Ha'. intros [= <- <-].
    split; [done|]. intros cfg E. eapply Load_good; [exact Ha'|exact Default_good| |exact E]. right. split; [done|].
    exists s. by rewrite lookup_insert_eq.
  - intros [= <- <-]. split; [done|]. intros cfg E. eapply Load_good; [exact Ha|exact No_good| |exact E]. by left.
Qed.

Lemma run_body first env file c fs cfg fs1 :
  PersistentPreRunE DefaultConfigFile Dir print go_print first file fs = (Ok cfg, fs1) →
  run first env file c fs = body env file c cfg fs1.
Proof. intros E. unfold run_command, mbind at 1, ST_bind at 1. by rewrite E. Qed.

(** A session: commands run one after the other, on any files, with anything but
    a write that fails. *)
Inductive session_step (fs : files) : files → Prop :=
| run_one first env file c r fs' :
    io_write first = None → io_write env = None → run first env file c fs = (r, fs') → session_step fs fs'.

Lemma run_stored first env file c fs r fs' :
  all_stored fs → io_write first = None → io_write env = None → run first env file c fs = (r, fs') →
  all_stored fs' ∧ ∀ cfg lines, r = Ok (cfg, lines) → usable cfg.
Proof.
  intros Ha Hw1 Hw2. destruct (PersistentPreRunE DefaultConfigFile Dir print go_print first file fs) as [r1 fs1] eqn:Eh.
  destruct (hook_spec _ _ _ _ _ Ha Hw1 Eh) as [Ha1 Hg]. destruct r1 as [cfg| |];
    [|unfold run_command, mbind at 1, ST_bind at 1; rewrite Eh; by intros [= <- <-]..].
  specialize (Hg cfg eq_refl). rewrite (run_body _ env _ c _ _ _ Eh).
  destruct (body_spec env file c cfg fs1) as [(r2 & _ & -> & Hr)|[(_ & _ & e & ->)|(Hacc & Hm & lines & ->)]].
  - intros [= <- <-]. split; [done|]. by intros ? ? ->.
  - intros [= <- <-]. done.
  - pose proof (memory_step_good c cfg Hg Hacc Hm) as Hg'.
    unfold mbind, ST_bind. destruct (Save_spec env file _ fs1 (proj2 Hg') Hw2) as [(s & Hs & ->)|(r2 & -> & Hr)].
    + intros [= <- <-]. split; [by eapply all_stored_insert|]. by intros ? ? [= <- _].
    + destruct r2; [done|by intros [= <- <-]..].
Qed.

(** The configuration of kumactl stays consistent: after any commands, on any
    files and whatever goes wrong except a failing write, every file holds a valid
    configuration in which each control plane has its context; so the active
    control plane is either not set, when there is none, or one of those in the
    file.  The configuration is never reported to be broken. *)
Theorem kumactl_configs_consistent fs fs' env file cfg :
  all_stored fs → rtc session_step fs fs' →
  Load DefaultConfigFile env file fs' NoConfiguration = Ok cfg →
  consistent cfg ∧
  match cfg_ControlPlanes cfg with
  | [] => CurrentControlPlane cfg = Err not_set
  | _ => ∃ cp, CurrentControlPlane cfg = Ok cp ∧ cp ∈ cfg_ControlPlanes cfg ∧ cp_Name cp = cfg_CurrentContext cfg
  end.
Proof.
  intros Ha Hs Hl. assert (all_stored fs') as Ha'.
  { induction Hs as [|fs fs1 fs2 [first env' file' c r fs1' Hw1 Hw2 E] _ IH]; [done|]. apply IH; [|done].
    by apply (run_stored first env' file' c fs r fs1'). }
  assert (usable cfg) as Hg by (eapply Load_good; [exact Ha'|exact No_good|by left|exact Hl]).
  split; [apply Hg|by apply CurrentControlPlane_good].
Qed.

(** The commands on a stored configuration are those of a registry of control
    planes.  A command the registry allows succeeds and stores exactly its result,
    in this file only; one it refuses fails and changes nothing. *)
Theorem kumactl_refines_registry first env file c fs cfg s :
  usable cfg → fs !! path_of file = Some s → ToYAML cfg = Ok s →
  io_read first = None → io_write env = None → (∀ err, io_mkdir env ≠ Some (Some err)) →
  accepted c = Ok () →
  (∀ cfg', usable cfg' → registry_step c (registry_of cfg) = Some (registry_of cfg') → ∃ s', ToYAML cfg' = Ok s') →
  match registry_step c (registry_of cfg) with
  | Some registry =>
      ∃ cfg' lines s', run first env file c fs = (Ok (cfg', lines), <[path_of file := s']> fs)
        ∧ ToYAML cfg' = Ok s' ∧ usable cfg' ∧ registry_of cfg' = registry
  | None => ∃ e, run first env file c fs = (Err e, fs)
  end.
Proof.
  intros Hg Hf Hs Hr Hw Hm Hacc Hy.
  assert (∃ cfg1, PersistentPreRunE DefaultConfigFile Dir print go_print first file fs = (Ok cfg1, fs) ∧ usable cfg1 ∧ registry_of cfg1 = registry_of cfg)
    as (cfg1 & Eh & [Hc1 Hv1] & Hr1).
  { unfold PersistentPreRunE, mbind at 1 2 3, ST_bind at 1 2 3, st_get.
    assert (IsFirstTimeUsage DefaultConfigFile file fs = false) as ->.
    { unfold IsFirstTimeUsage, path_of, FileExists in *. destruct (String.eqb file ""); [|done]. by rewrite bool_decide_eq_true_2 by eauto. }
    destruct (Load_stored first file fs cfg s NoConfiguration Hf Hr Hg Hs) as (cfg1 & E & ? & ?); [by right|].
    exists cfg1. cbn [mret ST_ret id]. unfold st_lift. by rewrite E. }
  rewrite <- Hr1 in Hy |- *.
  rewrite (run_body _ env _ c _ _ _ Eh).
  pose proof (memory_step_registry c cfg1 Hc1) as Hreg.
  destruct (body_spec env file c cfg1 fs) as [(r2 & Hn & _)|[(_ & Hf' & e & ->)|(_ & Ht & lines & ->)]];
    [done|rewrite Hf' in Hreg; rewrite Hreg; by exists e|].
  rewrite Ht in Hreg. destruct Hreg as [_ Hreg]. rewrite Hreg in Hy |- *.
  pose proof (memory_step_good c cfg1 (conj Hc1 Hv1) Hacc Ht) as Hg'. destruct (Hy _ Hg' eq_refl) as [s' Hs']. exists (configuration_step c cfg1).2, lines, s'. unfold mbind, ST_bind.
  by rewrite (Save_good env file _ fs s' (proj2 Hg') Hw Hm Hs').
Qed.
End Sessions.

(** ** Concrete sessions *)

Lemma registry_contents cfg cfg' :
  consistent cfg → consistent cfg' → registry_of cfg = registry_of cfg' → contents_of cfg = contents_of cfg'.
Proof.
  intros Hc Hc' [= Hz Hcur]. unfold contents_of. pose proof (consistent_length cfg Hc) as Hl. pose proof (consistent_length cfg' Hc') as Hl'.
  pose proof (f_equal (fmap fst) Hz) as H1. pose proof (f_equal (fmap snd) Hz) as H2.
  rewrite !fst_zip in H1 by lia. rewrite !snd_zip in H2 by lia. congruence.
Qed.

Definition example_args : add_args := mkAddArgs "example" "https://kuma:5682" false "" "".
Definition two_planes : Configuration :=
  mkConfiguration (cfg_ControlPlanes DefaultConfiguration ++ [added_control_plane example_args])
    (new_slice (elems (cfg_Contexts DefaultConfiguration) ++ [added_context example_args])) "example".

(** A codec of two documents. *)
#[local] Instance sample_yaml : ConfigYaml :=
  {| ToYAML cfg := if decide (contents_of cfg = contents_of DefaultConfiguration) then Ok "one"
                   else if decide (contents_of cfg = contents_of two_planes) then Ok "two"
                   else Err (Errorf "cannot format" []);
     FromYAML s _ := if String.eqb s "one" then Ok DefaultConfiguration
                     else if String.eqb s "two" then Ok two_planes else Err (Errorf "cannot parse" []) |}.
#[local] Instance sample_yaml_lawful : LawfulConfigYaml.
Proof.
  constructor. intros cfg s cfg0 Hs _. cbn [ToYAML FromYAML sample_yaml] in *.
  case_decide as H1; [injection Hs as <-; exists DefaultConfiguration; cbn; split; [done|]; split; [done|]; unfold slice_ok; simpl; lia|].
  case_decide as H2; [|done]. injection Hs as <-. exists two_planes. cbn. split; [done|]. split; [done|]. unfold slice_ok. simpl. lia.
Qed.

Definition sample_Dir (path : string) : string := "/root/.kumactl".
Definition sample_text (cfg : Configuration) : string := "".
Definition sample_Get (url : string) : res (Z * res string) := Ok (200, Ok "{}").
Definition sample_Tagline (body : string) : res string := Ok "Kuma".
Definition smooth : io := mkIo None None None.
Definition sample_session : files :=
  (run_command "/root/.kumactl/config" sample_Dir sample_text sample_text sample_Get sample_Tagline smooth smooth ""
     (Add example_args) ∅).2.

Lemma kumactl_configs_consistent_witness :
  ∃ cfg, Load "/root/.kumactl/config" smooth "" sample_session NoConfiguration = Ok cfg
    ∧ ∃ cp, CurrentControlPlane cfg = Ok cp ∧ cp_Name cp = "example".
Proof.
  exists two_planes. assert (Load "/root/.kumactl/config" smooth "" sample_session NoConfiguration = Ok two_planes) as E
    by (vm_compute; reflexivity). split; [exact E|].
  destruct (kumactl_configs_consistent "/root/.kumactl/config" sample_Dir sample_text sample_text sample_Get sample_Tagline
    ∅ sample_session smooth "" two_planes) as [_ Hcp].
  - intros path s Hp. rewrite lookup_empty in Hp. discriminate Hp.
  - apply rtc_once. eapply (run_one _ _ _ _ _ _ _ smooth smooth "" (Add example_args)); [reflexivity|reflexivity|].
    unfold sample_session. apply surjective_pairing.
  - exact E.
  - destruct Hcp as (cp & H1 & _ & H2). exists cp. split; [exact H1|exact H2].
Defined.

Lemma kumactl_refines_registry_witness :
  ∃ cfg' lines s',
    run_command "/root/.kumactl/config" sample_Dir sample_text sample_text sample_Get sample_Tagline smooth smooth "kuma.yaml"
      (Add example_args) {[ "kuma.yaml" := "one" ]} = (Ok (cfg', lines), <["kuma.yaml" := s']> {[ "kuma.yaml" := "one" ]})
    ∧ entry_name <$> (registry_of cfg').1 = ["local"; "example"].
Proof.
  destruct (kumactl_refines_registry "/root/.kumactl/config" sample_Dir sample_text sample_text sample_Get sample_Tagline
    smooth smooth "kuma.yaml" (Add example_args) {[ "kuma.yaml" := "one" ]} DefaultConfiguration "one" Default_good)
    as (cfg' & lines & s' & Hrun & _ & _ & Hreg).
  - apply lookup_singleton_eq.
  - vm_compute. reflexivity.
  - reflexivity.
  - reflexivity.
  - intros err Herr. discriminate Herr.
  - vm_compute. reflexivity.
  - intros cfg' Hg' Hreg. exists "two". apply (f_equal (default ([], ""))) in Hreg.
    assert (contents_of two_planes = contents_of cfg') as E.
    { apply registry_contents; [|apply Hg'|exact Hreg].
      exact (proj1 (proj2 (added_new DefaultConfiguration example_args (proj1 Default_good) eq_refl))). }
    cbn [ToYAML sample_yaml]. rewrite <- E. rewrite decide_False by (intros Hn; vm_compute in Hn; discriminate Hn).
    by rewrite decide_True.
  - exists cfg', lines, s'. split; [exact Hrun|]. rewrite Hreg. reflexivity.
Defined.
